(* ===== verification/_CoqProject ===== *)
-Q . S2P
Prelude.v
TurnEvidence.v
Vocabulary.v
EvidenceGuard.v
TurnPolicy.v
TurnTypes.v
Admission.v
Transitions.v
Guards.v
Reducer.v
LedgerInv.v
LedgerSteps.v
LedgerSettle.v
LedgerTable.v
LedgerReduce.v
LedgerContract.v
LedgerVerdicts.v
LedgerExpiry.v
LedgerTheorems.v
LedgerRules.v
DaemonId.v
TurnStore.v
TurnEffects.v
TurnLedger.v
TurnPublish.v
StoreFacts.v
StoreInv.v
StoreAnswers.v
StoreTheorems.v
DrainTheorems.v
TurnStops.v
StopFacts.v
StopTheorems.v
RpcChunking.v
RpcSplit.v
RpcAssemble.v
KeyedDoc.v
KeyedRows.v
KeyedSync.v
KeyedTheorems.v
KeyedSilence.v
TopicRegistry.v
TopicFlush.v
TopicClient.v
TopicLanes.v
TopicTheorems.v
TopicManager.v
SessionBuffer.v
SessionTypes.v
SessionRegistry.v
SessionHost.v
MuxLayout.v
MuxTheorems.v
StageTypes.v
StagePipeline.v
StageTheorems.v
StageRows.v
StageRuntime.v
StageAnswers.v
StageInv.v
StageSafety.v
StageReach.v
StageScenario.v
TurnNotices.v
PathOwnership.v
PathTheorems.v
PhaseGraph.v
QueueTypes.v
QueueOwnership.v
QueueClaim.v
QueueFacts.v
QueueTheorems.v
QueueRules.v
QueueOrder.v
QueueScenario.v
QueueSlots.v
QueueLife.v
QueueLifecycle.v
QueueEnqueue.v
QueueGraph.v
