(* ===== verification/Prelude.v ===== *)
(** * Verification of the ADHDev daemon core

    ADHDev runs coding agents in sessions and lets a coordinator delegate tasks
    to worker sessions on other machines (a mesh).  This development verifies
    the parts of the TypeScript monorepo that decide which session gets a task,
    what happened to a delegated turn and whether its result is accepted, with
    the transport and the documents those decisions travel in.

    A task starts as a row of the mesh's queue.  A session that is idle claims
    one (Queue files); the dispatch opens an attempt in the turn ledger, which
    folds every observation of the turn into a verdict (Turn, Ledger, Store
    files) and publishes it to the other daemons (Drain); the verdict moves the
    row, through the review pipeline when the task is staged (Stage).  Frames
    between daemons are cut and put together by Rpc, dashboards follow the
    state through Keyed and Topic, and sessions live in a session host (Session)
    whose terminals are laid out by Mux.

    ** The files and what they model

    Paths are under packages/; TL is daemon-core/src/mesh/turn-ledger and DM is
    daemon-core/src/mesh.

    Prelude: notations, tactics, hints, lemmas on lists, options, JavaScript
    maps and strings.

    The turn ledger's reducer.  It keeps one attempt per delegated turn and
    folds every observation of it, an evidence, through a pure function: the
    evidence is classified against the attempt, a rule of the transition table
    is picked, and its effect templates run on a draft of the attempt and its
    holds (timers with a reason).

    - TurnEvidence, Vocabulary, EvidenceGuard: mesh-shared/src/turn-evidence.ts
      with the vocabularies it uses, the content-free guard and the projection
      to topic entries.
    - TurnPolicy, TurnTypes, Admission, Transitions: TL/policy.ts, types.ts with
      reducer-attempt.ts, admission.ts, transitions.ts.
    - Guards, Reducer: TL/reducer.ts.
    - LedgerInv, LedgerSteps, LedgerSettle, LedgerTable, LedgerReduce: the
      ledger invariant and what each layer does to it, as weakest preconditions
      of draft steps; LedgerReduce sums a reduction up in one inductive outcome.
    - LedgerContract: the abstract attempt machine (absent, open, stopping,
      closed, with a generation and a reclaim count) and runs of arrivals.
    - LedgerVerdicts, LedgerExpiry, LedgerTheorems, LedgerRules: verdicts,
      concrete attempts, and the theorems.

    The ledger around the reducer.

    - DaemonId: mesh-shared/src/daemon-normalize.ts, node-normalize.ts.
    - TurnStore, TurnEffects, TurnLedger, TurnPublish, TurnStops, TurnNotices:
      TL/store.ts and schema.ts, effects.ts, ledger.ts (observe, the drain of
      pending rows, the passes over stopping writers), deliver.ts (producers of
      notices) and DM/mesh-task-terminal.ts where the ledger calls it.
    - StoreFacts, StoreInv, StoreAnswers, StoreTheorems, DrainTheorems,
      StopFacts, StopTheorems: their invariants and theorems.

    The queue.

    - PathOwnership, PathTheorems: mesh-shared/src/path-ownership.ts and
      mcp-server/src/tools/mesh-owned-paths-warning.ts.
    - PhaseGraph: DM/mesh-task-phase-dependencies.ts and its correctness.
    - QueueTypes: the row and its predicates (DM/mesh-work-queue-types.ts,
      mesh-task-predicates.ts, mesh-task-parking.ts, light-claim-rule.ts,
      mesh-node-capability-tags.ts, mesh-dirty-write-verdict.ts and the model
      names of slot-model-enforcement.ts).
    - QueueOwnership: DM/mesh-physical-ownership.ts, the ownership half of
      mesh-runtime-store-claim.ts, and the holds of mesh-queue-hold.ts.
    - QueueClaim: claimNextQueueTask of DM/mesh-runtime-store-claim.ts with the
      statements it runs and the selection of mesh-claim-refusal.ts.
    - QueueFacts, QueueTheorems, QueueRules, QueueOrder, QueueScenario: theorems
      on claims; QueueOrder ends with DM/mesh-queue-attempt-guard.ts, the undo
      of a claim the ledger refuses.
    - QueueSlots: DM/mesh-daemon-slot-axis.ts, the rest of
      slot-model-enforcement.ts, and the memories of mesh-claim-refusal.ts.
    - QueueLife: the writers of a row after its claim, on whole rows and with
      their exceptions: DM/mesh-work-queue.ts (status writes, cancellation,
      requeues with both budgets, parking, orphans, the effects of the ledger,
      the cascade of failed dependencies), mesh-task-parking.ts,
      mesh-dependency-failure.ts, mesh-task-inflight.ts, and updateQueueEntry
      with the terminal choke point.
    - QueueLifecycle: a logic of these writers (the relation between the tables
      before and after, whatever they answer), the steps of a run of the queue
      and the theorems on runs.
    - QueueEnqueue: the rows' beginnings and revisions: all of
      DM/mesh-work-queue-enqueue.ts, mesh-task-revision.ts,
      mesh-active-ownership.ts, the inheritance of artifacts of
      mesh-input-artifacts.ts, the mode check of mesh-task-mode-guardrail.ts and
      insertQueueEntry.
    - QueueGraph: theorems on them and on the prerequisites of a queue.

    The review pipeline.

    - StageTypes, StagePipeline: mesh-shared/src/task-stages.ts,
      DM/stage-pipeline.ts, stage-state.ts, the validation of reports.
    - StageRows, StageRuntime: the queue row of a staged task, the terminal
      choke point (mesh-task-terminal.ts) and DM/stage-pipeline-runtime.ts with
      its ports.
    - StageTheorems, StageAnswers, StageInv, StageSafety, StageReach,
      StageScenario: theorems, the last with concrete histories.

    Transport and documents.

    - RpcChunking, RpcSplit, RpcAssemble: mesh-shared/src/rpc-chunking.ts and its
      callers in DM/transport/mesh-rpc-endpoint.ts, on UTF-16 code units.
    - KeyedDoc, KeyedRows, KeyedSync, KeyedTheorems, KeyedSilence:
      mesh-shared/src/keyed-doc-delta.ts.
    - TopicRegistry, TopicFlush, TopicClient, TopicLanes, TopicTheorems,
      TopicManager: daemon-core/src/subscriptions/topic-registry.ts and
      web-core's SubscriptionManager.ts with its fold.

    Sessions and terminals.

    - SessionBuffer, SessionTypes, SessionRegistry, SessionHost:
      session-host-core/src/buffer.ts, types.ts, runtime-labels.ts, registry.ts.
    - MuxLayout, MuxTheorems: terminal-mux-core/src/layout.ts and the
      persistence of workspaces.

    ** What is proved

    - The reducer is total on every stored attempt, keeps its invariant and
      refines the abstract machine; over any run an attempt has consecutive
      reclaims within the budget, then at most one commit (C1-C4).
    - The store: every run keeps the unique indexes and the invariant, records
      each verdict once, answers every observation, fails only for named
      reasons and repeats no evidence (C5-C9); pending rows are published per
      mesh in order (C14).
    - The writer stop: a generation changes only after its writer stopped, a
      verdict that leaves the writer running waits for it, a receipt settles a
      stopping attempt, and the hard ceiling always fires (C10-C13).
    - The life of a row: in every run sessions and nodes are never shared by
      active claims (C15) and an ended task stays ended until it is put back
      (C16); the cascade of a failure cancels exactly the tasks that wait for it
      (C17), and a requeue is charged once to its budget (C18).
    - New tasks: in every run the prerequisites form no cycle and some unfinished
      task is ready (C19); a task is admitted exactly when it should be (C20), a
      batch is whole or nothing (C21), and a revision is a compare-and-swap
      (C22).
    - Claims: a claimed task passed every gate (C23), is isolated from every
      other writer (C24), within the caps (C25) and first in order (C26); a
      refusal names the gate nearest to passing (C27).  The dependency search
      ends and decides authority (C28); declared paths conflict exactly when
      they share a path (C29).
    - Reviews: a staged task completes only reviewed, a block is not
      overwritten, and the pipeline ends (C30-C32).
    - Evidence is content-free (C33).
    - Frames: messages fit the channel, and reassembly delivers whole frames
      only, in any order of arrival (C34-C36).
    - Documents: nothing is sent exactly when nothing but volatile fields
      changed (C37); what a page accepts is what the daemon built (C38).
    - Sessions: snapshots are faithful to what was written (C39); layouts stay
      well-formed (C40).

    Each file has further theorems beside these, among them that terminal
    attempts are absorbing ([terminal_absorbing]), that every entry point of the
    review runtime answers ([stage_answers]), that splitting partitions a frame
    ([split_partitions]), that positions of an input counter identify points of
    the input ([same_point]), and the places where the code and its comments
    differ.

    ** Conventions and limits

    Optional and nullable fields are [option]s.  A step that would fail a
    TypeScript non-null assertion or read a field of the wrong variant yields
    [None].  Times and counters are integers of unbounded width: the source
    keeps them as doubles, all millisecond clocks and small counters below
    2^53.  A JavaScript Map is an association list in insertion order; strings
    are Latin-1 ([string]), those of the framing and of the scrollback UTF-16
    code units.  SQL tables are lists in rowid order, and one transaction is one
    function.  Pane ratios are binary64 numbers.

    What is outside the modelled files is a parameter of the definitions, and
    the theorems hold for all its values or under stated hypotheses: the
    publisher, executors, the clock and parser of dates, inspection of
    writers, the ports and the serialized environment of the review runtime,
    git verdicts, the attestation of a checkout (one claim sees one disk),
    JSON.parse, and hashes.  For the queue's writers they are the policy of
    failed dependencies, the ledger's answer to the cancellation of an attempt
    and the closing of a sibling (whose laws are stated as [QuietEnv]: they give
    no row a claim, and superseding an attempt changes no row), fresh ids, the
    text rules for read-only tasks, the presets of difficulties, the
    tags contracts require and the stored artifacts.  Passes over the ledger and
    over the review runtime do not overlap; a queue is that of one mesh.  A run
    of C15 and C16 has every writer of [life_step]; direct dispatches, which
    assign a row without the checks of a claim, are steps of C19 only.

    Fuel: observe nests twice at most (C7); a drain takes the number of pending
    rows plus one (C14); fresh runtime keys the number of keys plus one; the
    review runtime 4, which [stage_answers] proves enough; even layouts the number of
    panes; splitting a frame its length; the dependency search [search_fuel]
    (C28); the scheduling graph of a claim the number of rows plus two; the
    cascade of a failure the number of rows plus one (C17); the walk of a new
    task's prerequisites [walk_fuel], their number in the queue (C19).  Each is
    proved enough where it is used.

    Not modelled: timers and scheduling, the formatting and delivery of notices
    to sessions, redaction of free text, the lint of read-only task texts
    (regular expressions over prose), log texts, missions and statistics over
    the queue, the launching of sessions (DM/mesh-queue-autolaunch.ts), git and
    worktree management, provider adapters, processes and terminals, migrations
    of old tables, and the web applications beyond the subscription manager.
    They are mostly input and output, or rendering.

    Next: the line protocol and waiting requests of the session host client,
    session termination, and the decisions of the automatic launch. *)

From Stdlib Require Export ZArith Lia.
From stdpp Require Export base tactics decidable option strings gmap list.

#[global] Open Scope Z_scope.

(** ** JavaScript values

    Strings are sequences of Latin-1 code units; [is_js_space] is the
    restriction of ECMAScript's WhiteSpace and LineTerminator to them. *)

Definition js_space_codes : list nat := [9; 10; 11; 12; 13; 32; 160]%nat.

Definition is_js_space (c : Ascii.ascii) : bool :=
  bool_decide (Ascii.nat_of_ascii c ∈ js_space_codes).

Fixpoint trim_start (s : string) : string :=
  match s with
  | EmptyString => EmptyString
  | String c s' => if is_js_space c then trim_start s' else s
  end.

Fixpoint trim_end (s : string) : string :=
  match s with
  | EmptyString => EmptyString
  | String c s' =>
      match trim_end s' with
      | EmptyString => if is_js_space c then EmptyString else String c EmptyString
      | t => String c t
      end
  end.

(** [String.prototype.trim]. *)
Definition js_trim (s : string) : string := trim_end (trim_start s).

(** [toLowerCase] of a character, on ASCII letters. *)
Definition lower_ascii (c : Ascii.ascii) : Ascii.ascii :=
  let n := Ascii.nat_of_ascii c in
  if (Nat.leb 65 n && Nat.leb n 90)%bool then Ascii.ascii_of_nat (n + 32) else c.

(** Truthiness of an optional string: absent and empty are falsy. *)
Definition truthy_str (o : option string) : bool :=
  match o with Some s => bool_decide (s ≠ EmptyString) | None => false end.

(** Truthiness (and [=== true]) of an optional boolean. *)
Definition opt_true (o : option bool) : bool :=
  match o with Some b => b | None => false end.

(** [x ?? d]. *)
Definition nullish {A} (o : option A) (d : A) : A :=
  match o with Some x => x | None => d end.

(** [x ?? y] where [y] is itself nullable. *)
Definition nullish_or {A} (o d : option A) : option A :=
  match o with Some x => Some x | None => d end.

Definition present {A} (o : option A) : bool :=
  match o with Some _ => true | None => false end.

(** ** Closed vocabularies

    A TypeScript [as const] tuple: its members and how each is spelled. *)

Class Vocabulary (A : Type) := { members : list A; spelling : A -> string }.

(** What the guards rely on: every value is listed and no two share a
    spelling. *)
Class VocabularyOk (A : Type) `{Vocabulary A} := {
  members_complete : forall x : A, In x members;
  spelling_inj : forall x y : A, spelling x = spelling y -> x = y }.

Ltac solve_vocabulary :=
  split; [intros []; cbn; tauto | intros [] []; cbn; intros E; first [reflexivity | discriminate E]].

(** ** Insertion-ordered maps

    A JavaScript [Map] iterates in insertion order; setting a present key
    keeps its position, deleting removes the entry. *)

Definition jsmap (A : Type) : Type := list (string * A).

Fixpoint map_set {A} (k : string) (v : A) (m : jsmap A) : jsmap A :=
  match m with
  | [] => [(k, v)]
  | (k', v') :: t => if decide (k = k') then (k, v) :: t else (k', v') :: map_set k v t
  end.

Fixpoint map_get {A} (k : string) (m : jsmap A) : option A :=
  match m with
  | [] => None
  | (k', v) :: t => if decide (k = k') then Some v else map_get k t
  end.

Fixpoint map_delete {A} (k : string) (m : jsmap A) : jsmap A :=
  match m with
  | [] => []
  | (k', v) :: t => if decide (k = k') then map_delete k t else (k', v) :: map_delete k t
  end.

(** [new Map(entries)]. *)
Definition map_of {A} (entries : list (string * A)) : jsmap A :=
  fold_left (fun m e => map_set e.1 e.2 m) entries [].

Definition map_values {A} (m : jsmap A) : list A := map snd m.

(** ** Fallible steps

    A step that fails a TypeScript assertion ([x!], or a read through a
    downcast of the wrong variant) yields [None]. *)

Definition step (S : Type) : Type := S -> option S.

Definition skip {S} : step S := fun s => Some s.

Definition seq {S} (f g : step S) : step S :=
  fun s => match f s with Some s' => g s' | None => None end.

Declare Scope step_scope.
Delimit Scope step_scope with step.
Notation "f ;;; g" := (seq f g) (at level 60, right associativity) : step_scope.
#[global] Open Scope step_scope.

Fixpoint seq_all {S} (fs : list (step S)) : step S :=
  match fs with [] => skip | f :: t => f ;;; seq_all t end.

(** ** Automation *)

Create HintDb ledger.

(** Case split on the first [match] or [if] of the goal or of a hypothesis. *)
Ltac split_match :=
  match goal with
  | |- context [match ?e with _ => _ end] => destruct e eqn:?
  | H : context [match ?e with _ => _ end] |- _ => destruct e eqn:?
  end.

(** Turn boolean facts into propositions. *)
Ltac breflect :=
  repeat match goal with
  | H : (_ && _)%bool = true |- _ => apply andb_true_iff in H as [? ?]
  | H : (_ || _)%bool = false |- _ => apply orb_false_iff in H as [? ?]
  | H : negb _ = true |- _ => apply negb_true_iff in H
  | H : negb _ = false |- _ => apply negb_false_iff in H
  | H : bool_decide _ = true |- _ => apply bool_decide_eq_true in H
  | H : bool_decide _ = false |- _ => apply bool_decide_eq_false in H
  | H : (_ <=? _) = true |- _ => apply Z.leb_le in H
  | H : (_ <=? _) = false |- _ => apply Z.leb_gt in H
  | H : (_ <? _) = true |- _ => apply Z.ltb_lt in H
  | H : (_ <? _) = false |- _ => apply Z.ltb_ge in H
  end.

(** ** Facts on insertion-ordered maps *)

Section JsMap.
Context {A : Type}.
Implicit Types (m : jsmap A) (k : string) (v : A).

Lemma map_get_set k k' v m :
  map_get k (map_set k' v m) = if decide (k = k') then Some v else map_get k m.
Proof.
  induction m as [|[k0 v0] m IH]; simpl; repeat case_decide; simplify_eq; simpl;
    repeat case_decide; congruence.
Qed.

Lemma map_get_In k v m : map_get k m = Some v -> In (k, v) m.
Proof. induction m as [|[k0 v0] m IH]; simpl; [done|]. case_decide; intros; simplify_eq; auto. Qed.

Lemma map_set_In k v e m : In e (map_set k v m) -> e = (k, v) \/ In e m.
Proof. induction m as [|[k0 v0] m IH]; simpl; [naive_solver|]. case_decide; naive_solver. Qed.

Lemma map_delete_In k e m : In e (map_delete k m) <-> In e m /\ e.1 <> k.
Proof.
  induction m as [|[k0 v0] m IH]; simpl; [tauto|].
  case_decide; simpl; rewrite IH; intuition (subst; simpl in *; congruence).
Qed.

Lemma map_set_keys k v m :
  map fst (map_set k v m) = if decide (k ∈ map fst m) then map fst m else map fst m ++ [k].
Proof.
  induction m as [|[k0 v0] m IH]; simpl; [done|].
  destruct (decide (k = k0)) as [->|Hne]; simpl.
  - rewrite decide_True; [done|]. apply list_elem_of_here.
  - rewrite IH. destruct (decide (k ∈ map fst m)) as [Hin|Hin].
    + rewrite decide_True; [done|]. by apply list_elem_of_further.
    + rewrite decide_False; [done|]. by rewrite elem_of_cons; intros [?|?].
Qed.

Lemma map_set_NoDup k v m : NoDup (map fst m) -> NoDup (map fst (map_set k v m)).
Proof.
  intros H. rewrite map_set_keys. case_decide as Hin; [done|].
  apply NoDup_app; split_and!; [done| |apply NoDup_singleton].
  intros x Hx ->%list_elem_of_singleton. by apply Hin.
Qed.

Lemma map_of_snoc l e : map_of (l ++ [e]) = map_set e.1 e.2 (map_of (A:=A) l).
Proof. unfold map_of. by rewrite fold_left_app. Qed.

Lemma map_of_NoDup l : NoDup (map fst (map_of (A:=A) l)).
Proof.
  induction l as [|e l IH] using rev_ind; [constructor|].
  rewrite map_of_snoc. by apply map_set_NoDup.
Qed.
End JsMap.

(** ** Weakest preconditions of fallible steps

    [wp f Q s]: the step does not fail on [s] and its result satisfies [Q]. *)

Definition wp {S} (f : step S) (Q : S -> Prop) (s : S) : Prop :=
  match f s with Some s' => Q s' | None => False end.

Section Wp.
Context {S : Type}.
Implicit Types (f g : step S) (P Q : S -> Prop) (s : S).

Lemma wp_skip Q s : Q s -> wp skip Q s.
Proof. done. Qed.

Lemma wp_seq f g Q s : wp f (wp g Q) s -> wp (f ;;; g) Q s.
Proof. unfold wp, seq. by destruct (f s). Qed.

Lemma wp_mono f P Q s : (forall s', P s' -> Q s') -> wp f P s -> wp f Q s.
Proof. unfold wp. destruct (f s); auto. Qed.

Lemma wp_seq_mono f g P Q s : wp f P s -> (forall s', P s' -> wp g Q s') -> wp (f ;;; g) Q s.
Proof. intros Hf Hg. apply wp_seq. by eapply wp_mono. Qed.

Lemma wp_if (b : bool) f g Q s :
  (b = true -> wp f Q s) -> (b = false -> wp g Q s) -> wp (if b then f else g) Q s.
Proof. destruct b; auto. Qed.

Lemma wp_elim f Q s : wp f Q s -> exists s', f s = Some s' /\ Q s'.
Proof. unfold wp. destruct (f s); [eauto | done]. Qed.

Lemma wp_seq_all (fs : list (step S)) Q s :
  (forall f s', In f fs -> Q s' -> wp f Q s') -> Q s -> wp (seq_all fs) Q s.
Proof.
  revert s. induction fs as [|f fs IH]; intros s H HQ; [done|].
  eapply wp_seq_mono; [by apply H; [left|]|]. intros s' Hs'.
  apply IH; [|done]. intros f' s'' ? ?. apply H; [by right|done].
Qed.
End Wp.
