(* ===== verification/TurnEvidence.v ===== *)
(** * Turn evidence

    The vocabulary of [packages/mesh-shared/src/turn-evidence.ts]: closed
    enumerations (one constructor per spelling), the shapes evidence carries,
    the evidence envelope and the variant of evidence bodies, and session-id
    equivalence ([session-normalize.ts]). *)

From S2P Require Import Prelude.

(** ** Closed vocabularies *)

(** Which producer observed the evidence. *)
Inductive EvidenceSourceId : Set :=
  | Src_fsm_edge | Src_short_gen_inline | Src_completion_flush_genuine |
  Src_completion_flush_weak | Src_monitor_final_summary | Src_pre_cleanup_transcript |
  Src_stall_transcript | Src_startup_grace_collapse | Src_acp_prompt_response | Src_cdp_state |
  Src_approval_gate | Src_modal_button | Src_mesh_stall_watchdog | Src_status_monitor |
  Src_pty_exit | Src_provider_error | Src_coordinator_probe | Src_mcp_probe | Src_worker_tool |
  Src_dispatch | Src_input_service | Src_operator | Src_intentional_cleanup | Src_scheduler |
  Src_git_probe | Src_session_registry.
#[global] Instance EvidenceSourceId_eq_dec : EqDecision EvidenceSourceId.
Proof. solve_decision. Defined.
Definition EVIDENCE_SOURCE_IDS : list EvidenceSourceId :=
  [Src_fsm_edge; Src_short_gen_inline; Src_completion_flush_genuine; Src_completion_flush_weak;
   Src_monitor_final_summary; Src_pre_cleanup_transcript; Src_stall_transcript;
   Src_startup_grace_collapse; Src_acp_prompt_response; Src_cdp_state; Src_approval_gate;
   Src_modal_button; Src_mesh_stall_watchdog; Src_status_monitor; Src_pty_exit;
   Src_provider_error; Src_coordinator_probe; Src_mcp_probe; Src_worker_tool; Src_dispatch;
   Src_input_service; Src_operator; Src_intentional_cleanup; Src_scheduler; Src_git_probe;
   Src_session_registry].

(** Who owns the attempt. *)
Inductive TurnScope : Set :=
  | Sc_mesh_queue | Sc_mesh_direct | Sc_plain.
#[global] Instance TurnScope_eq_dec : EqDecision TurnScope.
Proof. solve_decision. Defined.
Definition TURN_SCOPES : list TurnScope :=
  [Sc_mesh_queue; Sc_mesh_direct; Sc_plain].

(** Outbound-message.ts: why a send was refused. *)
Inductive SendRefusal : Set :=
  | Ref_not_ready | Ref_send_in_flight | Ref_not_generating | Ref_not_supported |
  Ref_platform_unsupported | Ref_modal_parked | Ref_interrupt_not_implemented |
  Ref_interrupt_refused | Ref_idle_timeout | Ref_session_exited | Ref_unsupported_input |
  Ref_no_target | Ref_bootstrap_pending | Ref_duplicate_dispatch | Ref_new_work_held |
  Ref_internal_error.
#[global] Instance SendRefusal_eq_dec : EqDecision SendRefusal.
Proof. solve_decision. Defined.
Definition SEND_REFUSAL_REASONS : list SendRefusal :=
  [Ref_not_ready; Ref_send_in_flight; Ref_not_generating; Ref_not_supported;
   Ref_platform_unsupported; Ref_modal_parked; Ref_interrupt_not_implemented;
   Ref_interrupt_refused; Ref_idle_timeout; Ref_session_exited; Ref_unsupported_input;
   Ref_no_target; Ref_bootstrap_pending; Ref_duplicate_dispatch; Ref_new_work_held;
   Ref_internal_error].

Inductive DeliveryOutcome : Set :=
  | Dlv_delivered | Dlv_queued.
#[global] Instance DeliveryOutcome_eq_dec : EqDecision DeliveryOutcome.
Proof. solve_decision. Defined.
Definition DELIVERY_OUTCOMES : list DeliveryOutcome :=
  [Dlv_delivered; Dlv_queued].

Inductive DeliveryVia : Set :=
  | Via_local | Via_p2p.
#[global] Instance DeliveryVia_eq_dec : EqDecision DeliveryVia.
Proof. solve_decision. Defined.
Definition DELIVERY_VIAS : list DeliveryVia :=
  [Via_local; Via_p2p].

Inductive DispatchFailureReason : Set :=
  | Df_worker_absent | Df_transport_error | Df_spawn_failed | Df_rejected_by_worker | Df_timeout
  | Df_submit_unconfirmed.
#[global] Instance DispatchFailureReason_eq_dec : EqDecision DispatchFailureReason.
Proof. solve_decision. Defined.
Definition DISPATCH_FAILURE_REASONS : list DispatchFailureReason :=
  [Df_worker_absent; Df_transport_error; Df_spawn_failed; Df_rejected_by_worker; Df_timeout;
   Df_submit_unconfirmed].

Inductive ConsumeProfile : Set :=
  | Cp_default | Cp_native_source.
#[global] Instance ConsumeProfile_eq_dec : EqDecision ConsumeProfile.
Proof. solve_decision. Defined.
Definition CONSUME_PROFILES : list ConsumeProfile :=
  [Cp_default; Cp_native_source].

Inductive SessionReboundReason : Set :=
  | Rb_restart | Rb_live_holder.
#[global] Instance SessionReboundReason_eq_dec : EqDecision SessionReboundReason.
Proof. solve_decision. Defined.
Definition SESSION_REBOUND_REASONS : list SessionReboundReason :=
  [Rb_restart; Rb_live_holder].

Inductive SuspensionModal : Set :=
  | Mod_approval | Mod_choice.
#[global] Instance SuspensionModal_eq_dec : EqDecision SuspensionModal.
Proof. solve_decision. Defined.
Definition SUSPENSION_MODALS : list SuspensionModal :=
  [Mod_approval; Mod_choice].

Inductive SuspensionResolution : Set :=
  | Rsl_approved | Rsl_rejected | Rsl_answered | Rsl_dismissed.
#[global] Instance SuspensionResolution_eq_dec : EqDecision SuspensionResolution.
Proof. solve_decision. Defined.
Definition SUSPENSION_RESOLUTIONS : list SuspensionResolution :=
  [Rsl_approved; Rsl_rejected; Rsl_answered; Rsl_dismissed].

Inductive SuspensionResolutionVia : Set :=
  | Rv_modal_button | Rv_auto_approve | Rv_prompt_answer | Rv_modal_disappeared.
#[global] Instance SuspensionResolutionVia_eq_dec : EqDecision SuspensionResolutionVia.
Proof. solve_decision. Defined.
Definition SUSPENSION_RESOLUTION_VIAS : list SuspensionResolutionVia :=
  [Rv_modal_button; Rv_auto_approve; Rv_prompt_answer; Rv_modal_disappeared].

Inductive TurnEndStrength : Set :=
  | Es_genuine | Es_weak.
#[global] Instance TurnEndStrength_eq_dec : EqDecision TurnEndStrength.
Proof. solve_decision. Defined.
Definition TURN_END_STRENGTHS : list TurnEndStrength :=
  [Es_genuine; Es_weak].

Inductive TurnEndBlockReason : Set :=
  | Br_missing_final_assistant | Br_finalization_timeout | Br_terminal_block_hard_cap |
  Br_decoupled_completion.
#[global] Instance TurnEndBlockReason_eq_dec : EqDecision TurnEndBlockReason.
Proof. solve_decision. Defined.
Definition TURN_END_BLOCK_REASONS : list TurnEndBlockReason :=
  [Br_missing_final_assistant; Br_finalization_timeout; Br_terminal_block_hard_cap;
   Br_decoupled_completion].

Inductive NativeTurnOutcome : Set :=
  | No_completed | No_aborted | No_failed.
#[global] Instance NativeTurnOutcome_eq_dec : EqDecision NativeTurnOutcome.
Proof. solve_decision. Defined.
Definition NATIVE_TURN_OUTCOMES : list NativeTurnOutcome :=
  [No_completed; No_aborted; No_failed].

Inductive LivenessResult : Set :=
  | Lv_alive | Lv_unknown | Lv_read_failed | Lv_dead.
#[global] Instance LivenessResult_eq_dec : EqDecision LivenessResult.
Proof. solve_decision. Defined.
Definition LIVENESS_RESULTS : list LivenessResult :=
  [Lv_alive; Lv_unknown; Lv_read_failed; Lv_dead].

Inductive ProviderFailure : Set :=
  | Pf_auth_failed | Pf_billing_failed | Pf_usage_limit_exceeded | Pf_server_overloaded |
  Pf_provider_error.
#[global] Instance ProviderFailure_eq_dec : EqDecision ProviderFailure.
Proof. solve_decision. Defined.
Definition PROVIDER_FAILURES : list ProviderFailure :=
  [Pf_auth_failed; Pf_billing_failed; Pf_usage_limit_exceeded; Pf_server_overloaded;
   Pf_provider_error].

Inductive SessionErrorReason : Set :=
  | Se_provider_error | Se_adapter_error | Se_spawn_failed | Se_auth_failed | Se_billing_failed
  | Se_unknown | Se_daemon_restart.
#[global] Instance SessionErrorReason_eq_dec : EqDecision SessionErrorReason.
Proof. solve_decision. Defined.
Definition SESSION_ERROR_REASONS : list SessionErrorReason :=
  [Se_provider_error; Se_adapter_error; Se_spawn_failed; Se_auth_failed; Se_billing_failed;
   Se_unknown; Se_daemon_restart].

Inductive CancelReason : Set :=
  | Cr_operator_cancel | Cr_intentional_cleanup | Cr_task_removed | Cr_mission_abandoned |
  Cr_superseded.
#[global] Instance CancelReason_eq_dec : EqDecision CancelReason.
Proof. solve_decision. Defined.
Definition CANCEL_REASONS : list CancelReason :=
  [Cr_operator_cancel; Cr_intentional_cleanup; Cr_task_removed; Cr_mission_abandoned;
   Cr_superseded].

Inductive OperatorStatus : Set :=
  | Os_completed | Os_failed.
#[global] Instance OperatorStatus_eq_dec : EqDecision OperatorStatus.
Proof. solve_decision. Defined.
Definition OPERATOR_STATUSES : list OperatorStatus :=
  [Os_completed; Os_failed].

Inductive OperatorStatusReason : Set :=
  | Or_operator_update | Or_refine_terminal | Or_validation_terminal.
#[global] Instance OperatorStatusReason_eq_dec : EqDecision OperatorStatusReason.
Proof. solve_decision. Defined.
Definition OPERATOR_STATUS_REASONS : list OperatorStatusReason :=
  [Or_operator_update; Or_refine_terminal; Or_validation_terminal].

Inductive CoordinatorAckOutcome : Set :=
  | Ack_delivered | Ack_queued | Ack_duplicate.
#[global] Instance CoordinatorAckOutcome_eq_dec : EqDecision CoordinatorAckOutcome.
Proof. solve_decision. Defined.
Definition COORDINATOR_ACK_OUTCOMES : list CoordinatorAckOutcome :=
  [Ack_delivered; Ack_queued; Ack_duplicate].

(** The canonical session statuses (session-status.ts) plus unknown. *)
Inductive NoProgressObservedStatus : Set :=
  | Ob_idle | Ob_generating | Ob_waiting_approval | Ob_waiting_choice | Ob_finalizing | Ob_error
  | Ob_stopped | Ob_starting | Ob_panel_hidden | Ob_not_monitored | Ob_disconnected | Ob_unknown.
#[global] Instance NoProgressObservedStatus_eq_dec : EqDecision NoProgressObservedStatus.
Proof. solve_decision. Defined.
Definition NO_PROGRESS_OBSERVED_STATUSES : list NoProgressObservedStatus :=
  [Ob_idle; Ob_generating; Ob_waiting_approval; Ob_waiting_choice; Ob_finalizing; Ob_error;
   Ob_stopped; Ob_starting; Ob_panel_hidden; Ob_not_monitored; Ob_disconnected; Ob_unknown].

(** Why an attempt is held. *)
Inductive HoldReason : Set :=
  | H_await_delivery | H_await_consume | H_await_turn | H_liveness | H_hard_ceiling |
  H_live_pending | H_transcript_quiet | H_weak_candidate | H_suspension_before_consumed |
  H_await_report | H_await_end | H_report_correction.
#[global] Instance HoldReason_eq_dec : EqDecision HoldReason.
Proof. solve_decision. Defined.
Definition HOLD_REASONS : list HoldReason :=
  [H_await_delivery; H_await_consume; H_await_turn; H_liveness; H_hard_ceiling; H_live_pending;
   H_transcript_quiet; H_weak_candidate; H_suspension_before_consumed; H_await_report;
   H_await_end; H_report_correction].

Inductive TurnOutcome : Set :=
  | O_completed | O_blocked | O_failed | O_cancelled.
#[global] Instance TurnOutcome_eq_dec : EqDecision TurnOutcome.
Proof. solve_decision. Defined.
Definition TURN_OUTCOMES : list TurnOutcome :=
  [O_completed; O_blocked; O_failed; O_cancelled].

Inductive CommitStrength : Set :=
  | Str_genuine | Str_weak | Str_tool_report | Str_operator.
#[global] Instance CommitStrength_eq_dec : EqDecision CommitStrength.
Proof. solve_decision. Defined.
Definition COMMIT_STRENGTHS : list CommitStrength :=
  [Str_genuine; Str_weak; Str_tool_report; Str_operator].

(** Every terminal or reclaim reason the ledger writes. *)
Inductive TurnReason : Set :=
  | R_turn_end | R_weak_end_confirmed | R_transcript_final | R_worker_reported |
  R_finalization_timeout_no_response | R_weak_end_liveness_unconfirmed |
  R_weak_end_probe_unobserved | R_report_correction_expired | R_session_error |
  R_provider_auth_failed | R_provider_billing_failed | R_provider_usage_limit_exceeded |
  R_provider_server_overloaded | R_provider_error | R_operator_cancel | R_intentional_cleanup |
  R_task_removed | R_mission_abandoned | R_superseded | R_operator_update | R_refine_terminal |
  R_validation_terminal | R_hard_ceiling | R_reclaim_budget_exhausted | R_hollow_max_retries |
  R_migration_orphan | R_writer_unreachable | R_dispatch_refused_session_exited |
  R_dispatch_refused_no_target | R_dispatch_refused_unsupported_input | R_dispatch_failed |
  R_session_exit | R_session_exit_before_turn | R_session_dead | R_hollow_completion |
  R_assigned_stranded_dispatch_unconfirmed | R_delivered_not_consumed_redrive |
  R_delivered_no_turn_deadline.
#[global] Instance TurnReason_eq_dec : EqDecision TurnReason.
Proof. solve_decision. Defined.
Definition TURN_REASONS : list TurnReason :=
  [R_turn_end; R_weak_end_confirmed; R_transcript_final; R_worker_reported;
   R_finalization_timeout_no_response; R_weak_end_liveness_unconfirmed;
   R_weak_end_probe_unobserved; R_report_correction_expired; R_session_error;
   R_provider_auth_failed; R_provider_billing_failed; R_provider_usage_limit_exceeded;
   R_provider_server_overloaded; R_provider_error; R_operator_cancel; R_intentional_cleanup;
   R_task_removed; R_mission_abandoned; R_superseded; R_operator_update; R_refine_terminal;
   R_validation_terminal; R_hard_ceiling; R_reclaim_budget_exhausted; R_hollow_max_retries;
   R_migration_orphan; R_writer_unreachable; R_dispatch_refused_session_exited;
   R_dispatch_refused_no_target; R_dispatch_refused_unsupported_input; R_dispatch_failed;
   R_session_exit; R_session_exit_before_turn; R_session_dead; R_hollow_completion;
   R_assigned_stranded_dispatch_unconfirmed; R_delivered_not_consumed_redrive;
   R_delivered_no_turn_deadline].

(** What a coordinator notice says. *)
Inductive NotifyKind : Set :=
  | N_completed | N_blocked | N_failed | N_cancelled | N_stopped | N_approval | N_choice |
  N_approval_resolved | N_candidate | N_no_progress | N_progress | N_late_completion |
  N_mesh_event.
#[global] Instance NotifyKind_eq_dec : EqDecision NotifyKind.
Proof. solve_decision. Defined.
Definition NOTIFY_KINDS : list NotifyKind :=
  [N_completed; N_blocked; N_failed; N_cancelled; N_stopped; N_approval; N_choice;
   N_approval_resolved; N_candidate; N_no_progress; N_progress; N_late_completion;
   N_mesh_event].

(** Mesh-vocabulary.ts. *)
Inductive WorkerReportOutcome : Set :=
  | Wo_completed | Wo_blocked | Wo_failed.
#[global] Instance WorkerReportOutcome_eq_dec : EqDecision WorkerReportOutcome.
Proof. solve_decision. Defined.
Definition WORKER_REPORT_OUTCOMES : list WorkerReportOutcome :=
  [Wo_completed; Wo_blocked; Wo_failed].

(** Mesh-vocabulary.ts. *)
Inductive WorkerBranchState : Set :=
  | Wb_merged_to_main | Wb_pushed_feature_branch_needs_merge | Wb_blocked_review |
  Wb_cleanup_candidate | Wb_not_mergeable.
#[global] Instance WorkerBranchState_eq_dec : EqDecision WorkerBranchState.
Proof. solve_decision. Defined.
Definition WORKER_BRANCH_STATES : list WorkerBranchState :=
  [Wb_merged_to_main; Wb_pushed_feature_branch_needs_merge; Wb_blocked_review;
   Wb_cleanup_candidate; Wb_not_mergeable].

(** The discriminant of the evidence body. *)
Inductive TurnEvidenceKind : Set :=
  | K_dispatch_accepted | K_delivered | K_delivery_refused | K_dispatch_failed |
  K_duplicate_dispatch_refusal | K_session_rebound | K_turn_started | K_suspension |
  K_suspension_resolved | K_turn_end | K_transcript_final | K_transcript_activity |
  K_no_progress | K_liveness | K_process_exit | K_session_error | K_worker_report |
  K_worker_report_correction_requested | K_worker_progress | K_git_side_effect | K_cancel |
  K_operator_status | K_coordinator_ack | K_hold_expired.
#[global] Instance TurnEvidenceKind_eq_dec : EqDecision TurnEvidenceKind.
Proof. solve_decision. Defined.
Definition TURN_EVIDENCE_KINDS : list TurnEvidenceKind :=
  [K_dispatch_accepted; K_delivered; K_delivery_refused; K_dispatch_failed;
   K_duplicate_dispatch_refusal; K_session_rebound; K_turn_started; K_suspension;
   K_suspension_resolved; K_turn_end; K_transcript_final; K_transcript_activity; K_no_progress;
   K_liveness; K_process_exit; K_session_error; K_worker_report;
   K_worker_report_correction_requested; K_worker_progress; K_git_side_effect; K_cancel;
   K_operator_status; K_coordinator_ack; K_hold_expired].
(** Refusals after which the target can never take the dispatch. *)
Definition RECLAIMING_SEND_REFUSALS : list SendRefusal :=
  [Ref_session_exited; Ref_no_target; Ref_unsupported_input].

(** Evidence kinds that can end a turn on their own. *)
Definition TERMINAL_CLASS_EVIDENCE_KINDS : list TurnEvidenceKind :=
  [K_turn_end; K_transcript_final; K_no_progress; K_worker_report; K_session_error;
   K_process_exit; K_cancel; K_operator_status].

(** ** Shared shapes *)

Record TurnAttemptRef : Set := { ref_attemptId : string; ref_generation : Z }.

Record SummaryRef : Set := { sum_topic : string; sum_writer : string; sum_seq : Z }.

Record LiveTurnPending : Set := {
  live_modal : bool;
  live_adapterPending : bool;
  live_trailingTool : bool;
  live_newestActivityAt : option Z }.

Record EvidenceCoordinatorIdentity : Set := {
  co_daemonId : string; co_coordinatorRunId : string; co_sessionId : option string }.

Record NativeTurnMarkerRef : Set := {
  nm_outcome : NativeTurnOutcome;
  nm_turnId : option string;
  nm_receivedAt : option Z;
  nm_startedAt : option Z;
  nm_errorAt : option Z }.

Record EvidenceEnvelope : Set := {
  e_eventId : string;
  e_at : Z;
  e_source : EvidenceSourceId;
  e_sessionId : string;
  e_attemptRef : option TurnAttemptRef;
  e_taskId : option string;
  e_observedBy : string }.

(** ** Bodies *)

Record DispatchAccepted : Set := {
  da_scope : TurnScope;
  da_messageId : string;
  da_meshId : option string;
  da_nodeId : option string;
  da_providerType : option string;
  da_attemptNo : option Z;
  da_dispatchNonce : option Z;
  da_consumeProfile : option ConsumeProfile;
  da_maxTaskRetries : option Z;
  da_coordinator : option EvidenceCoordinatorIdentity }.

Record Suspension : Set := {
  su_modal : SuspensionModal;
  su_modalKey : option string;
  su_providerSetup : option bool;
  su_clockUnknown : option bool }.

Record TurnEnd : Set := {
  te_strength : TurnEndStrength;
  te_afterFinalizationTimeout : option bool;
  te_hollow : option bool;
  te_summary : option SummaryRef;
  te_blockReason : option TurnEndBlockReason;
  te_releasedByHardCap : option bool;
  te_nativeOutcome : option NativeTurnOutcome;
  te_nativeMarker : option NativeTurnMarkerRef;
  te_live : option LiveTurnPending;
  te_reportExpected : option bool;
  te_providerFailure : option ProviderFailure }.

Record TranscriptFinal : Set := {
  tf_selfAttributing : bool;
  tf_nativeRead : bool;
  tf_nativeMarker : option NativeTurnMarkerRef;
  tf_live : LiveTurnPending;
  tf_summary : option SummaryRef;
  tf_messageAt : option Z }.

Record WorkerReport : Set := {
  wr_outcome : WorkerReportOutcome;
  wr_summary : option SummaryRef;
  wr_hasHandoffNotes : bool;
  wr_branchState : option WorkerBranchState;
  wr_touchedFileCount : option Z }.

Inductive TurnEvidenceBody : Set :=
| dispatch_accepted (b : DispatchAccepted)
| delivered (messageId : string) (outcome : DeliveryOutcome) (via : DeliveryVia)
| delivery_refused (messageId : string) (reason : SendRefusal)
| dispatch_failed (workerAbsent : bool) (reason : DispatchFailureReason) (refusalCode : option string)
| duplicate_dispatch_refusal (holderSessionId : string) (holderAttemptId : option string)
| session_rebound (toSessionId : string) (reason : SessionReboundReason)
| turn_started (retro : bool)
| suspension (b : Suspension)
| suspension_resolved (resolution : SuspensionResolution) (via : SuspensionResolutionVia)
    (modalKey : option string)
| turn_end (b : TurnEnd)
| transcript_final (b : TranscriptFinal)
| transcript_activity (newestActivityAt : Z)
| no_progress (stalledMs : Z) (observedStatus : NoProgressObservedStatus) (finalAssistantPresent : bool)
| liveness (result : LivenessResult) (probeStartedAtMs : option Z)
| process_exit (exitCode : option Z) (providerFailure : option ProviderFailure)
| session_error (reason : SessionErrorReason)
| worker_report (b : WorkerReport)
| worker_report_correction_requested (deliveryId : option string)
| worker_progress (note : option SummaryRef)
| git_side_effect (dirty : bool) (commitsSinceDispatch : Z) (attributable : bool)
| cancel (reason : CancelReason)
| operator_status (status : OperatorStatus) (reason : OperatorStatusReason)
| coordinator_ack (notify : NotifyKind) (outcome : CoordinatorAckOutcome)
| hold_expired (holdId : string) (reason : HoldReason).

(** [TurnEvidence = EvidenceEnvelope & TurnEvidenceBody]. *)
Record TurnEvidence : Set := { ev_env :> EvidenceEnvelope; ev_body : TurnEvidenceBody }.

(** [evidence.kind]. *)
Definition kind_of (b : TurnEvidenceBody) : TurnEvidenceKind :=
  match b with
  | dispatch_accepted _ => K_dispatch_accepted
  | delivered _ _ _ => K_delivered
  | delivery_refused _ _ => K_delivery_refused
  | dispatch_failed _ _ _ => K_dispatch_failed
  | duplicate_dispatch_refusal _ _ => K_duplicate_dispatch_refusal
  | session_rebound _ _ => K_session_rebound
  | turn_started _ => K_turn_started
  | suspension _ => K_suspension
  | suspension_resolved _ _ _ => K_suspension_resolved
  | turn_end _ => K_turn_end
  | transcript_final _ => K_transcript_final
  | transcript_activity _ => K_transcript_activity
  | no_progress _ _ _ => K_no_progress
  | liveness _ _ => K_liveness
  | process_exit _ _ => K_process_exit
  | session_error _ => K_session_error
  | worker_report _ => K_worker_report
  | worker_report_correction_requested _ => K_worker_report_correction_requested
  | worker_progress _ => K_worker_progress
  | git_side_effect _ _ _ => K_git_side_effect
  | cancel _ => K_cancel
  | operator_status _ _ => K_operator_status
  | coordinator_ack _ _ => K_coordinator_ack
  | hold_expired _ _ => K_hold_expired
  end.

Definition ev_kind (ev : TurnEvidence) : TurnEvidenceKind := kind_of (ev_body ev).

(** ** Session identity *)

(** [readString(value)] of json.ts for one string argument. *)
Definition readString (value : string) : option string :=
  let trimmed := js_trim value in
  if bool_decide (trimmed = EmptyString) then None else Some trimmed.

Definition sessionIdsEquivalent (a b : string) : bool :=
  match readString a, readString b with
  | Some idA, Some idB => bool_decide (idA = idB)
  | _, _ => false
  end.

(** ** Session identity is a partial equivalence *)

Lemma sessionIdsEquivalent_sym a b : sessionIdsEquivalent a b = sessionIdsEquivalent b a.
Proof.
  unfold sessionIdsEquivalent. destruct (readString a), (readString b); try done.
  apply bool_decide_ext. naive_solver.
Qed.

Lemma sessionIdsEquivalent_trans a b c :
  sessionIdsEquivalent a b = true -> sessionIdsEquivalent b c = true ->
  sessionIdsEquivalent a c = true.
Proof.
  unfold sessionIdsEquivalent.
  destruct (readString a), (readString b), (readString c); try done.
  rewrite !bool_decide_eq_true. congruence.
Qed.
