(* ===== verification/Vocabulary.v ===== *)
(** * Spellings

    How each member of the closed vocabularies of [turn-evidence.ts] (and of
    the vocabularies it imports) is spelled on the wire, with the two facts the
    runtime guards rest on: the tuples are exhaustive and the spellings are
    distinct. *)

From S2P Require Import Prelude TurnEvidence.

#[local] Open Scope string_scope.

Definition spell_EvidenceSourceId (x : EvidenceSourceId) : string :=
  match x with
  | Src_fsm_edge => "fsm_edge"
  | Src_short_gen_inline => "short_gen_inline"
  | Src_completion_flush_genuine => "completion_flush_genuine"
  | Src_completion_flush_weak => "completion_flush_weak"
  | Src_monitor_final_summary => "monitor_final_summary"
  | Src_pre_cleanup_transcript => "pre_cleanup_transcript"
  | Src_stall_transcript => "stall_transcript"
  | Src_startup_grace_collapse => "startup_grace_collapse"
  | Src_acp_prompt_response => "acp_prompt_response"
  | Src_cdp_state => "cdp_state"
  | Src_approval_gate => "approval_gate"
  | Src_modal_button => "modal_button"
  | Src_mesh_stall_watchdog => "mesh_stall_watchdog"
  | Src_status_monitor => "status_monitor"
  | Src_pty_exit => "pty_exit"
  | Src_provider_error => "provider_error"
  | Src_coordinator_probe => "coordinator_probe"
  | Src_mcp_probe => "mcp_probe"
  | Src_worker_tool => "worker_tool"
  | Src_dispatch => "dispatch"
  | Src_input_service => "input_service"
  | Src_operator => "operator"
  | Src_intentional_cleanup => "intentional_cleanup"
  | Src_scheduler => "scheduler"
  | Src_git_probe => "git_probe"
  | Src_session_registry => "session_registry"
  end.

#[global] Instance EvidenceSourceId_vocabulary : Vocabulary EvidenceSourceId :=
  {| members := EVIDENCE_SOURCE_IDS; spelling := spell_EvidenceSourceId |}.
#[global] Instance EvidenceSourceId_vocabulary_ok : VocabularyOk EvidenceSourceId.
Proof. solve_vocabulary. Qed.

Definition spell_TurnScope (x : TurnScope) : string :=
  match x with
  | Sc_mesh_queue => "mesh_queue"
  | Sc_mesh_direct => "mesh_direct"
  | Sc_plain => "plain"
  end.

#[global] Instance TurnScope_vocabulary : Vocabulary TurnScope :=
  {| members := TURN_SCOPES; spelling := spell_TurnScope |}.
#[global] Instance TurnScope_vocabulary_ok : VocabularyOk TurnScope.
Proof. solve_vocabulary. Qed.

Definition spell_SendRefusal (x : SendRefusal) : string :=
  match x with
  | Ref_not_ready => "not_ready"
  | Ref_send_in_flight => "send_in_flight"
  | Ref_not_generating => "not_generating"
  | Ref_not_supported => "not_supported"
  | Ref_platform_unsupported => "platform_unsupported"
  | Ref_modal_parked => "modal_parked"
  | Ref_interrupt_not_implemented => "interrupt_not_implemented"
  | Ref_interrupt_refused => "interrupt_refused"
  | Ref_idle_timeout => "idle_timeout"
  | Ref_session_exited => "session_exited"
  | Ref_unsupported_input => "unsupported_input"
  | Ref_no_target => "no_target"
  | Ref_bootstrap_pending => "bootstrap_pending"
  | Ref_duplicate_dispatch => "duplicate_dispatch"
  | Ref_new_work_held => "new_work_held"
  | Ref_internal_error => "internal_error"
  end.

#[global] Instance SendRefusal_vocabulary : Vocabulary SendRefusal :=
  {| members := SEND_REFUSAL_REASONS; spelling := spell_SendRefusal |}.
#[global] Instance SendRefusal_vocabulary_ok : VocabularyOk SendRefusal.
Proof. solve_vocabulary. Qed.

Definition spell_DeliveryOutcome (x : DeliveryOutcome) : string :=
  match x with
  | Dlv_delivered => "delivered"
  | Dlv_queued => "queued"
  end.

#[global] Instance DeliveryOutcome_vocabulary : Vocabulary DeliveryOutcome :=
  {| members := DELIVERY_OUTCOMES; spelling := spell_DeliveryOutcome |}.
#[global] Instance DeliveryOutcome_vocabulary_ok : VocabularyOk DeliveryOutcome.
Proof. solve_vocabulary. Qed.

Definition spell_DeliveryVia (x : DeliveryVia) : string :=
  match x with
  | Via_local => "local"
  | Via_p2p => "p2p"
  end.

#[global] Instance DeliveryVia_vocabulary : Vocabulary DeliveryVia :=
  {| members := DELIVERY_VIAS; spelling := spell_DeliveryVia |}.
#[global] Instance DeliveryVia_vocabulary_ok : VocabularyOk DeliveryVia.
Proof. solve_vocabulary. Qed.

Definition spell_DispatchFailureReason (x : DispatchFailureReason) : string :=
  match x with
  | Df_worker_absent => "worker_absent"
  | Df_transport_error => "transport_error"
  | Df_spawn_failed => "spawn_failed"
  | Df_rejected_by_worker => "rejected_by_worker"
  | Df_timeout => "timeout"
  | Df_submit_unconfirmed => "submit_unconfirmed"
  end.

#[global] Instance DispatchFailureReason_vocabulary : Vocabulary DispatchFailureReason :=
  {| members := DISPATCH_FAILURE_REASONS; spelling := spell_DispatchFailureReason |}.
#[global] Instance DispatchFailureReason_vocabulary_ok : VocabularyOk DispatchFailureReason.
Proof. solve_vocabulary. Qed.

Definition spell_ConsumeProfile (x : ConsumeProfile) : string :=
  match x with
  | Cp_default => "default"
  | Cp_native_source => "native_source"
  end.

#[global] Instance ConsumeProfile_vocabulary : Vocabulary ConsumeProfile :=
  {| members := CONSUME_PROFILES; spelling := spell_ConsumeProfile |}.
#[global] Instance ConsumeProfile_vocabulary_ok : VocabularyOk ConsumeProfile.
Proof. solve_vocabulary. Qed.

Definition spell_SessionReboundReason (x : SessionReboundReason) : string :=
  match x with
  | Rb_restart => "restart"
  | Rb_live_holder => "live_holder"
  end.

#[global] Instance SessionReboundReason_vocabulary : Vocabulary SessionReboundReason :=
  {| members := SESSION_REBOUND_REASONS; spelling := spell_SessionReboundReason |}.
#[global] Instance SessionReboundReason_vocabulary_ok : VocabularyOk SessionReboundReason.
Proof. solve_vocabulary. Qed.

Definition spell_SuspensionModal (x : SuspensionModal) : string :=
  match x with
  | Mod_approval => "approval"
  | Mod_choice => "choice"
  end.

#[global] Instance SuspensionModal_vocabulary : Vocabulary SuspensionModal :=
  {| members := SUSPENSION_MODALS; spelling := spell_SuspensionModal |}.
#[global] Instance SuspensionModal_vocabulary_ok : VocabularyOk SuspensionModal.
Proof. solve_vocabulary. Qed.

Definition spell_SuspensionResolution (x : SuspensionResolution) : string :=
  match x with
  | Rsl_approved => "approved"
  | Rsl_rejected => "rejected"
  | Rsl_answered => "answered"
  | Rsl_dismissed => "dismissed"
  end.

#[global] Instance SuspensionResolution_vocabulary : Vocabulary SuspensionResolution :=
  {| members := SUSPENSION_RESOLUTIONS; spelling := spell_SuspensionResolution |}.
#[global] Instance SuspensionResolution_vocabulary_ok : VocabularyOk SuspensionResolution.
Proof. solve_vocabulary. Qed.

Definition spell_SuspensionResolutionVia (x : SuspensionResolutionVia) : string :=
  match x with
  | Rv_modal_button => "modal_button"
  | Rv_auto_approve => "auto_approve"
  | Rv_prompt_answer => "prompt_answer"
  | Rv_modal_disappeared => "modal_disappeared"
  end.

#[global] Instance SuspensionResolutionVia_vocabulary : Vocabulary SuspensionResolutionVia :=
  {| members := SUSPENSION_RESOLUTION_VIAS; spelling := spell_SuspensionResolutionVia |}.
#[global] Instance SuspensionResolutionVia_vocabulary_ok : VocabularyOk SuspensionResolutionVia.
Proof. solve_vocabulary. Qed.

Definition spell_TurnEndStrength (x : TurnEndStrength) : string :=
  match x with
  | Es_genuine => "genuine"
  | Es_weak => "weak"
  end.

#[global] Instance TurnEndStrength_vocabulary : Vocabulary TurnEndStrength :=
  {| members := TURN_END_STRENGTHS; spelling := spell_TurnEndStrength |}.
#[global] Instance TurnEndStrength_vocabulary_ok : VocabularyOk TurnEndStrength.
Proof. solve_vocabulary. Qed.

Definition spell_TurnEndBlockReason (x : TurnEndBlockReason) : string :=
  match x with
  | Br_missing_final_assistant => "missing_final_assistant"
  | Br_finalization_timeout => "finalization_timeout"
  | Br_terminal_block_hard_cap => "terminal_block_hard_cap"
  | Br_decoupled_completion => "decoupled_completion"
  end.

#[global] Instance TurnEndBlockReason_vocabulary : Vocabulary TurnEndBlockReason :=
  {| members := TURN_END_BLOCK_REASONS; spelling := spell_TurnEndBlockReason |}.
#[global] Instance TurnEndBlockReason_vocabulary_ok : VocabularyOk TurnEndBlockReason.
Proof. solve_vocabulary. Qed.

Definition spell_NativeTurnOutcome (x : NativeTurnOutcome) : string :=
  match x with
  | No_completed => "completed"
  | No_aborted => "aborted"
  | No_failed => "failed"
  end.

#[global] Instance NativeTurnOutcome_vocabulary : Vocabulary NativeTurnOutcome :=
  {| members := NATIVE_TURN_OUTCOMES; spelling := spell_NativeTurnOutcome |}.
#[global] Instance NativeTurnOutcome_vocabulary_ok : VocabularyOk NativeTurnOutcome.
Proof. solve_vocabulary. Qed.

Definition spell_LivenessResult (x : LivenessResult) : string :=
  match x with
  | Lv_alive => "alive"
  | Lv_unknown => "unknown"
  | Lv_read_failed => "read_failed"
  | Lv_dead => "dead"
  end.

#[global] Instance LivenessResult_vocabulary : Vocabulary LivenessResult :=
  {| members := LIVENESS_RESULTS; spelling := spell_LivenessResult |}.
#[global] Instance LivenessResult_vocabulary_ok : VocabularyOk LivenessResult.
Proof. solve_vocabulary. Qed.

Definition spell_ProviderFailure (x : ProviderFailure) : string :=
  match x with
  | Pf_auth_failed => "auth_failed"
  | Pf_billing_failed => "billing_failed"
  | Pf_usage_limit_exceeded => "usage_limit_exceeded"
  | Pf_server_overloaded => "server_overloaded"
  | Pf_provider_error => "provider_error"
  end.

#[global] Instance ProviderFailure_vocabulary : Vocabulary ProviderFailure :=
  {| members := PROVIDER_FAILURES; spelling := spell_ProviderFailure |}.
#[global] Instance ProviderFailure_vocabulary_ok : VocabularyOk ProviderFailure.
Proof. solve_vocabulary. Qed.

Definition spell_SessionErrorReason (x : SessionErrorReason) : string :=
  match x with
  | Se_provider_error => "provider_error"
  | Se_adapter_error => "adapter_error"
  | Se_spawn_failed => "spawn_failed"
  | Se_auth_failed => "auth_failed"
  | Se_billing_failed => "billing_failed"
  | Se_unknown => "unknown"
  | Se_daemon_restart => "daemon_restart"
  end.

#[global] Instance SessionErrorReason_vocabulary : Vocabulary SessionErrorReason :=
  {| members := SESSION_ERROR_REASONS; spelling := spell_SessionErrorReason |}.
#[global] Instance SessionErrorReason_vocabulary_ok : VocabularyOk SessionErrorReason.
Proof. solve_vocabulary. Qed.

Definition spell_CancelReason (x : CancelReason) : string :=
  match x with
  | Cr_operator_cancel => "operator_cancel"
  | Cr_intentional_cleanup => "intentional_cleanup"
  | Cr_task_removed => "task_removed"
  | Cr_mission_abandoned => "mission_abandoned"
  | Cr_superseded => "superseded"
  end.

#[global] Instance CancelReason_vocabulary : Vocabulary CancelReason :=
  {| members := CANCEL_REASONS; spelling := spell_CancelReason |}.
#[global] Instance CancelReason_vocabulary_ok : VocabularyOk CancelReason.
Proof. solve_vocabulary. Qed.

Definition spell_OperatorStatus (x : OperatorStatus) : string :=
  match x with
  | Os_completed => "completed"
  | Os_failed => "failed"
  end.

#[global] Instance OperatorStatus_vocabulary : Vocabulary OperatorStatus :=
  {| members := OPERATOR_STATUSES; spelling := spell_OperatorStatus |}.
#[global] Instance OperatorStatus_vocabulary_ok : VocabularyOk OperatorStatus.
Proof. solve_vocabulary. Qed.

Definition spell_OperatorStatusReason (x : OperatorStatusReason) : string :=
  match x with
  | Or_operator_update => "operator_update"
  | Or_refine_terminal => "refine_terminal"
  | Or_validation_terminal => "validation_terminal"
  end.

#[global] Instance OperatorStatusReason_vocabulary : Vocabulary OperatorStatusReason :=
  {| members := OPERATOR_STATUS_REASONS; spelling := spell_OperatorStatusReason |}.
#[global] Instance OperatorStatusReason_vocabulary_ok : VocabularyOk OperatorStatusReason.
Proof. solve_vocabulary. Qed.

Definition spell_CoordinatorAckOutcome (x : CoordinatorAckOutcome) : string :=
  match x with
  | Ack_delivered => "delivered"
  | Ack_queued => "queued"
  | Ack_duplicate => "duplicate"
  end.

#[global] Instance CoordinatorAckOutcome_vocabulary : Vocabulary CoordinatorAckOutcome :=
  {| members := COORDINATOR_ACK_OUTCOMES; spelling := spell_CoordinatorAckOutcome |}.
#[global] Instance CoordinatorAckOutcome_vocabulary_ok : VocabularyOk CoordinatorAckOutcome.
Proof. solve_vocabulary. Qed.

Definition spell_NoProgressObservedStatus (x : NoProgressObservedStatus) : string :=
  match x with
  | Ob_idle => "idle"
  | Ob_generating => "generating"
  | Ob_waiting_approval => "waiting_approval"
  | Ob_waiting_choice => "waiting_choice"
  | Ob_finalizing => "finalizing"
  | Ob_error => "error"
  | Ob_stopped => "stopped"
  | Ob_starting => "starting"
  | Ob_panel_hidden => "panel_hidden"
  | Ob_not_monitored => "not_monitored"
  | Ob_disconnected => "disconnected"
  | Ob_unknown => "unknown"
  end.

#[global] Instance NoProgressObservedStatus_vocabulary : Vocabulary NoProgressObservedStatus :=
  {| members := NO_PROGRESS_OBSERVED_STATUSES; spelling := spell_NoProgressObservedStatus |}.
#[global] Instance NoProgressObservedStatus_vocabulary_ok : VocabularyOk NoProgressObservedStatus.
Proof. solve_vocabulary. Qed.

Definition spell_HoldReason (x : HoldReason) : string :=
  match x with
  | H_await_delivery => "await_delivery"
  | H_await_consume => "await_consume"
  | H_await_turn => "await_turn"
  | H_liveness => "liveness"
  | H_hard_ceiling => "hard_ceiling"
  | H_live_pending => "live_pending"
  | H_transcript_quiet => "transcript_quiet"
  | H_weak_candidate => "weak_candidate"
  | H_suspension_before_consumed => "suspension_before_consumed"
  | H_await_report => "await_report"
  | H_await_end => "await_end"
  | H_report_correction => "report_correction"
  end.

#[global] Instance HoldReason_vocabulary : Vocabulary HoldReason :=
  {| members := HOLD_REASONS; spelling := spell_HoldReason |}.
#[global] Instance HoldReason_vocabulary_ok : VocabularyOk HoldReason.
Proof. solve_vocabulary. Qed.

Definition spell_TurnOutcome (x : TurnOutcome) : string :=
  match x with
  | O_completed => "completed"
  | O_blocked => "blocked"
  | O_failed => "failed"
  | O_cancelled => "cancelled"
  end.

#[global] Instance TurnOutcome_vocabulary : Vocabulary TurnOutcome :=
  {| members := TURN_OUTCOMES; spelling := spell_TurnOutcome |}.
#[global] Instance TurnOutcome_vocabulary_ok : VocabularyOk TurnOutcome.
Proof. solve_vocabulary. Qed.

Definition spell_CommitStrength (x : CommitStrength) : string :=
  match x with
  | Str_genuine => "genuine"
  | Str_weak => "weak"
  | Str_tool_report => "tool_report"
  | Str_operator => "operator"
  end.

#[global] Instance CommitStrength_vocabulary : Vocabulary CommitStrength :=
  {| members := COMMIT_STRENGTHS; spelling := spell_CommitStrength |}.
#[global] Instance CommitStrength_vocabulary_ok : VocabularyOk CommitStrength.
Proof. solve_vocabulary. Qed.

Definition spell_TurnReason (x : TurnReason) : string :=
  match x with
  | R_turn_end => "turn_end"
  | R_weak_end_confirmed => "weak_end_confirmed"
  | R_transcript_final => "transcript_final"
  | R_worker_reported => "worker_reported"
  | R_finalization_timeout_no_response => "finalization_timeout_no_response"
  | R_weak_end_liveness_unconfirmed => "weak_end_liveness_unconfirmed"
  | R_weak_end_probe_unobserved => "weak_end_probe_unobserved"
  | R_report_correction_expired => "report_correction_expired"
  | R_session_error => "session_error"
  | R_provider_auth_failed => "provider_auth_failed"
  | R_provider_billing_failed => "provider_billing_failed"
  | R_provider_usage_limit_exceeded => "provider_usage_limit_exceeded"
  | R_provider_server_overloaded => "provider_server_overloaded"
  | R_provider_error => "provider_error"
  | R_operator_cancel => "operator_cancel"
  | R_intentional_cleanup => "intentional_cleanup"
  | R_task_removed => "task_removed"
  | R_mission_abandoned => "mission_abandoned"
  | R_superseded => "superseded"
  | R_operator_update => "operator_update"
  | R_refine_terminal => "refine_terminal"
  | R_validation_terminal => "validation_terminal"
  | R_hard_ceiling => "hard_ceiling"
  | R_reclaim_budget_exhausted => "reclaim_budget_exhausted"
  | R_hollow_max_retries => "hollow_max_retries"
  | R_migration_orphan => "migration_orphan"
  | R_writer_unreachable => "writer_unreachable"
  | R_dispatch_refused_session_exited => "dispatch_refused_session_exited"
  | R_dispatch_refused_no_target => "dispatch_refused_no_target"
  | R_dispatch_refused_unsupported_input => "dispatch_refused_unsupported_input"
  | R_dispatch_failed => "dispatch_failed"
  | R_session_exit => "session_exit"
  | R_session_exit_before_turn => "session_exit_before_turn"
  | R_session_dead => "session_dead"
  | R_hollow_completion => "hollow_completion"
  | R_assigned_stranded_dispatch_unconfirmed => "assigned_stranded_dispatch_unconfirmed"
  | R_delivered_not_consumed_redrive => "delivered_not_consumed_redrive"
  | R_delivered_no_turn_deadline => "delivered_no_turn_deadline"
  end.

#[global] Instance TurnReason_vocabulary : Vocabulary TurnReason :=
  {| members := TURN_REASONS; spelling := spell_TurnReason |}.
#[global] Instance TurnReason_vocabulary_ok : VocabularyOk TurnReason.
Proof. solve_vocabulary. Qed.

Definition spell_NotifyKind (x : NotifyKind) : string :=
  match x with
  | N_completed => "completed"
  | N_blocked => "blocked"
  | N_failed => "failed"
  | N_cancelled => "cancelled"
  | N_stopped => "stopped"
  | N_approval => "approval"
  | N_choice => "choice"
  | N_approval_resolved => "approval_resolved"
  | N_candidate => "candidate"
  | N_no_progress => "no_progress"
  | N_progress => "progress"
  | N_late_completion => "late_completion"
  | N_mesh_event => "mesh_event"
  end.

#[global] Instance NotifyKind_vocabulary : Vocabulary NotifyKind :=
  {| members := NOTIFY_KINDS; spelling := spell_NotifyKind |}.
#[global] Instance NotifyKind_vocabulary_ok : VocabularyOk NotifyKind.
Proof. solve_vocabulary. Qed.

Definition spell_WorkerReportOutcome (x : WorkerReportOutcome) : string :=
  match x with
  | Wo_completed => "completed"
  | Wo_blocked => "blocked"
  | Wo_failed => "failed"
  end.

#[global] Instance WorkerReportOutcome_vocabulary : Vocabulary WorkerReportOutcome :=
  {| members := WORKER_REPORT_OUTCOMES; spelling := spell_WorkerReportOutcome |}.
#[global] Instance WorkerReportOutcome_vocabulary_ok : VocabularyOk WorkerReportOutcome.
Proof. solve_vocabulary. Qed.

Definition spell_WorkerBranchState (x : WorkerBranchState) : string :=
  match x with
  | Wb_merged_to_main => "merged_to_main"
  | Wb_pushed_feature_branch_needs_merge => "pushed_feature_branch_needs_merge"
  | Wb_blocked_review => "blocked_review"
  | Wb_cleanup_candidate => "cleanup_candidate"
  | Wb_not_mergeable => "not_mergeable"
  end.

#[global] Instance WorkerBranchState_vocabulary : Vocabulary WorkerBranchState :=
  {| members := WORKER_BRANCH_STATES; spelling := spell_WorkerBranchState |}.
#[global] Instance WorkerBranchState_vocabulary_ok : VocabularyOk WorkerBranchState.
Proof. solve_vocabulary. Qed.

Definition spell_TurnEvidenceKind (x : TurnEvidenceKind) : string :=
  match x with
  | K_dispatch_accepted => "dispatch_accepted"
  | K_delivered => "delivered"
  | K_delivery_refused => "delivery_refused"
  | K_dispatch_failed => "dispatch_failed"
  | K_duplicate_dispatch_refusal => "duplicate_dispatch_refusal"
  | K_session_rebound => "session_rebound"
  | K_turn_started => "turn_started"
  | K_suspension => "suspension"
  | K_suspension_resolved => "suspension_resolved"
  | K_turn_end => "turn_end"
  | K_transcript_final => "transcript_final"
  | K_transcript_activity => "transcript_activity"
  | K_no_progress => "no_progress"
  | K_liveness => "liveness"
  | K_process_exit => "process_exit"
  | K_session_error => "session_error"
  | K_worker_report => "worker_report"
  | K_worker_report_correction_requested => "worker_report_correction_requested"
  | K_worker_progress => "worker_progress"
  | K_git_side_effect => "git_side_effect"
  | K_cancel => "cancel"
  | K_operator_status => "operator_status"
  | K_coordinator_ack => "coordinator_ack"
  | K_hold_expired => "hold_expired"
  end.

#[global] Instance TurnEvidenceKind_vocabulary : Vocabulary TurnEvidenceKind :=
  {| members := TURN_EVIDENCE_KINDS; spelling := spell_TurnEvidenceKind |}.
#[global] Instance TurnEvidenceKind_vocabulary_ok : VocabularyOk TurnEvidenceKind.
Proof. solve_vocabulary. Qed.
