(* ===== verification/EvidenceGuard.v ===== *)
(** * The evidence guard

    The structural guards of [packages/mesh-shared/src/turn-evidence.ts]: which
    untyped values a daemon accepts as turn evidence or as a topic entry, the field
    registry that drives them, and the projection of evidence onto its entry. *)

From S2P Require Import Prelude TurnEvidence Vocabulary.

#[local] Open Scope string_scope.
#[local] Open Scope Z_scope.

(** ** Untyped values *)

(** A JavaScript number, as far as the guards look: an integer, a finite
    non-integer strictly between [below] and [below + 1], or NaN or an infinity. *)
Inductive JNumber : Set := N_int (z : Z) | N_fraction (below : Z) | N_nonfinite.

(** A value; an object is its own enumerable properties in order. *)
Inductive JValue : Set :=
| J_undefined | J_null | J_bool (b : bool) | J_num (n : JNumber) | J_str (s : string)
| J_arr (l : list JValue) | J_obj (props : list (string * JValue)).

(** [value[key]] of a property that may be absent. *)
Definition prop (o : list (string * JValue)) (key : string) : JValue :=
  nullish (map_get key o) J_undefined.

Definition is_undefined (v : JValue) : bool := match v with J_undefined => true | _ => false end.

(** The names every object literal inherits: [key in obj] is true of them. *)
Definition OBJECT_PROTOTYPE_KEYS : list string :=
  ["constructor"; "__defineGetter__"; "__defineSetter__"; "hasOwnProperty"; "__lookupGetter__";
   "__lookupSetter__"; "isPrototypeOf"; "propertyIsEnumerable"; "toString"; "valueOf"; "__proto__";
   "toLocaleString"].

(** ** Field classes *)

Inductive FieldClass : Set :=
| T_id | T_enum (values : list string) | T_bool | T_int (nullable : bool) | T_ms
| T_summary_ref | T_attempt_ref | T_live | T_native_marker | T_coordinator.

Record EvidenceFieldSpec : Set := { fs_t : FieldClass; fs_optional : bool }.

Definition req (t : FieldClass) : EvidenceFieldSpec := {| fs_t := t; fs_optional := false |}.
Definition opt (t : FieldClass) : EvidenceFieldSpec := {| fs_t := t; fs_optional := true |}.

(** The spellings of a vocabulary. *)
Definition values_of (A : Type) `{Vocabulary A} : list string := map spelling (members (A:=A)).

Definition en (A : Type) `{Vocabulary A} : EvidenceFieldSpec := req (T_enum (values_of A)).
Definition enOpt (A : Type) `{Vocabulary A} : EvidenceFieldSpec := opt (T_enum (values_of A)).

Definition FieldSpecs : Set := list (string * EvidenceFieldSpec).

Definition EVIDENCE_ENVELOPE_FIELD_SPECS : FieldSpecs :=
  [("eventId", req T_id); ("at", req T_ms); ("source", en EvidenceSourceId); ("sessionId", req T_id);
   ("attemptRef", opt T_attempt_ref); ("taskId", opt T_id); ("observedBy", req T_id)].

Definition TURN_EVIDENCE_FIELD_SPECS (k : TurnEvidenceKind) : FieldSpecs :=
  match k with
  | K_dispatch_accepted =>
      [("scope", en TurnScope); ("messageId", req T_id); ("meshId", opt T_id); ("nodeId", opt T_id);
       ("providerType", opt T_id); ("attemptNo", opt (T_int false)); ("dispatchNonce", opt (T_int false));
       ("consumeProfile", enOpt ConsumeProfile); ("maxTaskRetries", opt (T_int false));
       ("coordinator", opt T_coordinator)]
  | K_delivered => [("messageId", req T_id); ("outcome", en DeliveryOutcome); ("via", en DeliveryVia)]
  | K_delivery_refused => [("messageId", req T_id); ("reason", en SendRefusal)]
  | K_dispatch_failed =>
      [("workerAbsent", req T_bool); ("reason", en DispatchFailureReason); ("refusalCode", opt T_id)]
  | K_duplicate_dispatch_refusal => [("holderSessionId", req T_id); ("holderAttemptId", opt T_id)]
  | K_session_rebound => [("toSessionId", req T_id); ("reason", en SessionReboundReason)]
  | K_turn_started => [("retro", req T_bool)]
  | K_suspension =>
      [("modal", en SuspensionModal); ("modalKey", opt T_id); ("providerSetup", opt T_bool);
       ("clockUnknown", opt T_bool)]
  | K_suspension_resolved =>
      [("resolution", en SuspensionResolution); ("via", en SuspensionResolutionVia); ("modalKey", opt T_id)]
  | K_turn_end =>
      [("strength", en TurnEndStrength); ("afterFinalizationTimeout", opt T_bool); ("hollow", opt T_bool);
       ("summary", opt T_summary_ref); ("blockReason", enOpt TurnEndBlockReason);
       ("releasedByHardCap", opt T_bool); ("nativeOutcome", enOpt NativeTurnOutcome); ("live", opt T_live);
       ("nativeMarker", opt T_native_marker); ("reportExpected", opt T_bool);
       ("providerFailure", enOpt ProviderFailure)]
  | K_transcript_final =>
      [("selfAttributing", req T_bool); ("nativeRead", req T_bool); ("nativeMarker", opt T_native_marker);
       ("live", req T_live); ("summary", opt T_summary_ref); ("messageAt", opt T_ms)]
  | K_transcript_activity => [("newestActivityAt", req T_ms)]
  | K_no_progress =>
      [("stalledMs", req T_ms); ("observedStatus", en NoProgressObservedStatus);
       ("finalAssistantPresent", req T_bool)]
  | K_liveness => [("result", en LivenessResult); ("probeStartedAtMs", opt T_ms)]
  | K_process_exit => [("exitCode", req (T_int true)); ("providerFailure", enOpt ProviderFailure)]
  | K_session_error => [("reason", en SessionErrorReason)]
  | K_worker_report =>
      [("outcome", en WorkerReportOutcome); ("summary", opt T_summary_ref); ("hasHandoffNotes", req T_bool);
       ("branchState", enOpt WorkerBranchState); ("touchedFileCount", opt (T_int false))]
  | K_worker_report_correction_requested => [("deliveryId", opt T_id)]
  | K_worker_progress => [("note", opt T_summary_ref)]
  | K_git_side_effect =>
      [("dirty", req T_bool); ("commitsSinceDispatch", req (T_int false)); ("attributable", req T_bool)]
  | K_cancel => [("reason", en CancelReason)]
  | K_operator_status => [("status", en OperatorStatus); ("reason", en OperatorStatusReason)]
  | K_coordinator_ack => [("notify", en NotifyKind); ("outcome", en CoordinatorAckOutcome)]
  | K_hold_expired => [("holdId", req T_id); ("reason", en HoldReason)]
  end.

(** ** Guards *)

(** [/^[^\s\u0000-\u001f\u007f]{1,256}$/]. *)
Definition identifier_char (c : Ascii.ascii) : bool :=
  let n := Ascii.nat_of_ascii c in
  negb (is_js_space c) && negb (n <=? 31)%nat && negb (n =? 127)%nat.

Fixpoint all_chars (P : Ascii.ascii -> bool) (s : string) : bool :=
  match s with EmptyString => true | String c s' => P c && all_chars P s' end.

Definition identifier_shaped (s : string) : bool :=
  all_chars identifier_char s && (1 <=? String.length s)%nat && (String.length s <=? 256)%nat.

Definition isEvidenceIdentifier (v : JValue) : bool :=
  match v with J_str s => identifier_shaped s | _ => false end.

(** [typeof value === 'string' && values.includes(value)]. *)
Definition one_of (values : list string) (v : JValue) : bool :=
  match v with J_str s => bool_decide (s ∈ values) | _ => false end.

(** [makeGuard(values)]. *)
Definition makeGuard (A : Type) `{Vocabulary A} (v : JValue) : bool := one_of (values_of A) v.

Definition isTurnEvidenceKind : JValue -> bool := makeGuard TurnEvidenceKind.
Definition isTurnReason : JValue -> bool := makeGuard TurnReason.
Definition isNotifyKind : JValue -> bool := makeGuard NotifyKind.
Definition isTurnOutcome : JValue -> bool := makeGuard TurnOutcome.
Definition isCommitStrength : JValue -> bool := makeGuard CommitStrength.

Definition isFiniteNumber (v : JValue) : bool :=
  match v with J_num (N_int _) | J_num (N_fraction _) => true | _ => false end.

Definition MAX_SAFE : Z := 2 ^ 53 - 1.

Definition isSafeInteger (v : JValue) : bool :=
  match v with J_num (N_int z) => (- MAX_SAFE <=? z) && (z <=? MAX_SAFE) | _ => false end.

(** [(value as number) >= 0]. *)
Definition nonnegative (v : JValue) : bool :=
  match v with J_num (N_int z) | J_num (N_fraction z) => 0 <=? z | _ => false end.

Definition is_boolean (v : JValue) : bool := match v with J_bool _ => true | _ => false end.

(** [hasOnlyKeys(value, allowed)]. *)
Definition hasOnlyKeys (o : list (string * JValue)) (allowed : list string) : bool :=
  forallb (fun e => bool_decide (e.1 ∈ allowed)) o.

(** [value === undefined || P(value)]. *)
Definition undefined_or (P : JValue -> bool) (v : JValue) : bool := is_undefined v || P v.

(** [isRecord(value) && P(value)]. *)
Definition record_and (P : list (string * JValue) -> bool) (v : JValue) : bool :=
  match v with J_obj o => P o | _ => false end.

Definition isSummaryRef : JValue -> bool := record_and (fun o =>
  hasOnlyKeys o ["topic"; "writer"; "seq"]
  && isEvidenceIdentifier (prop o "topic") && isEvidenceIdentifier (prop o "writer")
  && isSafeInteger (prop o "seq") && nonnegative (prop o "seq")).

Definition isTurnAttemptRef : JValue -> bool := record_and (fun o =>
  hasOnlyKeys o ["attemptId"; "generation"] && isEvidenceIdentifier (prop o "attemptId")
  && isSafeInteger (prop o "generation") && nonnegative (prop o "generation")).

Definition isLiveTurnPending : JValue -> bool := record_and (fun o =>
  hasOnlyKeys o ["modal"; "adapterPending"; "trailingTool"; "newestActivityAt"]
  && is_boolean (prop o "modal") && is_boolean (prop o "adapterPending") && is_boolean (prop o "trailingTool")
  && undefined_or isFiniteNumber (prop o "newestActivityAt")).

Definition isNativeMarkerRef : JValue -> bool := record_and (fun o =>
  hasOnlyKeys o ["outcome"; "turnId"; "receivedAt"; "startedAt"; "errorAt"]
  && one_of (values_of NativeTurnOutcome) (prop o "outcome")
  && undefined_or isEvidenceIdentifier (prop o "turnId")
  && forallb (fun key => undefined_or isFiniteNumber (prop o key)) ["receivedAt"; "startedAt"; "errorAt"]).

Definition isCoordinatorIdentity : JValue -> bool := record_and (fun o =>
  hasOnlyKeys o ["daemonId"; "coordinatorRunId"; "sessionId"]
  && isEvidenceIdentifier (prop o "daemonId") && isEvidenceIdentifier (prop o "coordinatorRunId")
  && undefined_or isEvidenceIdentifier (prop o "sessionId")).

Definition class_matches (t : FieldClass) (v : JValue) : bool :=
  match t with
  | T_id => isEvidenceIdentifier v
  | T_enum values => one_of values v
  | T_bool => is_boolean v
  | T_int nullable => match v with J_null => nullable | _ => isSafeInteger v end
  | T_ms => isFiniteNumber v && nonnegative v
  | T_summary_ref => isSummaryRef v
  | T_attempt_ref => isTurnAttemptRef v
  | T_live => isLiveTurnPending v
  | T_native_marker => isNativeMarkerRef v
  | T_coordinator => isCoordinatorIdentity v
  end.

Definition fieldMatches (spec : EvidenceFieldSpec) (v : JValue) : bool :=
  if is_undefined v then fs_optional spec else class_matches (fs_t spec) v.

(** [key in specs]: own names and the inherited ones. *)
Definition key_in (key : string) (specs : FieldSpecs) : bool :=
  bool_decide (key ∈ map fst specs) || bool_decide (key ∈ OBJECT_PROTOTYPE_KEYS).

(** The kind a spelling names. *)
Definition kind_named (v : JValue) : option TurnEvidenceKind :=
  match v with
  | J_str s => List.find (fun k => bool_decide (spelling k = s)) TURN_EVIDENCE_KINDS
  | _ => None
  end.

Definition isTurnEvidence (v : JValue) : bool :=
  match v with
  | J_obj o =>
      match kind_named (prop o "kind") with
      | None => false
      | Some k =>
          let bodySpecs := TURN_EVIDENCE_FIELD_SPECS k in
          let envelopeSpecs := EVIDENCE_ENVELOPE_FIELD_SPECS in
          forallb (fun e => bool_decide (e.1 = "kind") || key_in e.1 bodySpecs || key_in e.1 envelopeSpecs) o
          && forallb (fun s => fieldMatches s.2 (prop o s.1)) envelopeSpecs
          && forallb (fun s => fieldMatches s.2 (prop o s.1)) bodySpecs
      end
  | _ => false
  end.

(** ** Topic entries *)

Definition MESH_TOPIC_PROTOCOL_VERSION : Z := 2.

Definition TURN_EVIDENCE_FLAGS : list string :=
  ["hollow"; "afterFinalizationTimeout"; "nativeMarker"; "selfAttributing"].

Definition isOptionalId : JValue -> bool := undefined_or isEvidenceIdentifier.

Definition isGeneration (v : JValue) : bool := isSafeInteger v && nonnegative v.

Definition isProjectedScalars : JValue -> bool := record_and (forallb (fun e =>
  match e.2 with J_null | J_num _ | J_bool _ | J_str _ => true | _ => false end)).

Definition is_flags : JValue -> bool := record_and (forallb (fun e =>
  bool_decide (e.1 ∈ TURN_EVIDENCE_FLAGS) && is_boolean e.2)).

(** [isTurnEvidence(value.evidence) && value.evidence.kind === value.ev]. *)
Definition evidence_of_kind (ev : JValue) (v : JValue) : bool :=
  isTurnEvidence v
  && match v, ev with
     | J_obj o, J_str k => match prop o "kind" with J_str k' => bool_decide (k' = k) | _ => false end
     | _, _ => false
     end.

Definition isMeshTopicEntry : JValue -> bool := record_and (fun o =>
  match prop o "v" with J_num (N_int z) => z =? MESH_TOPIC_PROTOCOL_VERSION | _ => false end
  && isEvidenceIdentifier (prop o "eventId") && isFiniteNumber (prop o "at")
  && match prop o "k" with
     | J_str "turn.evidence" =>
         isEvidenceIdentifier (prop o "attemptId") && isGeneration (prop o "generation")
         && isEvidenceIdentifier (prop o "ownerDaemonId") && isEvidenceIdentifier (prop o "sessionId")
         && isOptionalId (prop o "taskId") && isTurnEvidenceKind (prop o "ev")
         && undefined_or (one_of (values_of TurnEndStrength)) (prop o "strength")
         && undefined_or is_flags (prop o "flags")
         && undefined_or (evidence_of_kind (prop o "ev")) (prop o "evidence")
     | J_str "turn.committed" =>
         isEvidenceIdentifier (prop o "attemptId") && isGeneration (prop o "generation")
         && isOptionalId (prop o "taskId") && isTurnOutcome (prop o "outcome")
         && isCommitStrength (prop o "strength") && isTurnReason (prop o "reason")
     | J_str "turn.notify" =>
         isOptionalId (prop o "attemptId") && isNotifyKind (prop o "notify")
         && isEvidenceIdentifier (prop o "targetDaemonId") && isOptionalId (prop o "targetSessionId")
         && isOptionalId (prop o "taskId")
     | J_str "mesh.record" =>
         isEvidenceIdentifier (prop o "ledgerKind") && isOptionalId (prop o "nodeId")
         && isOptionalId (prop o "sessionId") && isOptionalId (prop o "taskId")
         && isProjectedScalars (prop o "payload")
     | _ => false
     end).

(** ** Typed evidence as an object *)

Definition j_id (s : string) : JValue := J_str s.
Definition j_int (z : Z) : JValue := J_num (N_int z).
Definition j_enum {A} `{Vocabulary A} (x : A) : JValue := J_str (spelling x).

(** An optional property: absent when its value is. *)
Definition maybe {A} (key : string) (f : A -> JValue) (o : option A) : list (string * JValue) :=
  match o with Some x => [(key, f x)] | None => [] end.

Definition j_attempt_ref (r : TurnAttemptRef) : JValue :=
  J_obj [("attemptId", j_id (ref_attemptId r)); ("generation", j_int (ref_generation r))].
Definition j_summary (s : SummaryRef) : JValue :=
  J_obj [("topic", j_id (sum_topic s)); ("writer", j_id (sum_writer s)); ("seq", j_int (sum_seq s))].
Definition j_live (l : LiveTurnPending) : JValue :=
  J_obj ([("modal", J_bool (live_modal l)); ("adapterPending", J_bool (live_adapterPending l));
          ("trailingTool", J_bool (live_trailingTool l))]
         ++ maybe "newestActivityAt" j_int (live_newestActivityAt l)).
Definition j_marker (m : NativeTurnMarkerRef) : JValue :=
  J_obj (("outcome", j_enum (nm_outcome m)) :: maybe "turnId" j_id (nm_turnId m)
         ++ maybe "receivedAt" j_int (nm_receivedAt m) ++ maybe "startedAt" j_int (nm_startedAt m)
         ++ maybe "errorAt" j_int (nm_errorAt m)).
Definition j_coordinator (c : EvidenceCoordinatorIdentity) : JValue :=
  J_obj ([("daemonId", j_id (co_daemonId c)); ("coordinatorRunId", j_id (co_coordinatorRunId c))]
         ++ maybe "sessionId" j_id (co_sessionId c)).

Definition envelope_props (e : EvidenceEnvelope) : list (string * JValue) :=
  [("eventId", j_id (e_eventId e)); ("at", j_int (e_at e)); ("source", j_enum (e_source e));
   ("sessionId", j_id (e_sessionId e))]
  ++ maybe "attemptRef" j_attempt_ref (e_attemptRef e) ++ maybe "taskId" j_id (e_taskId e)
  ++ [("observedBy", j_id (e_observedBy e))].

Definition body_props (b : TurnEvidenceBody) : list (string * JValue) :=
  match b with
  | dispatch_accepted b =>
      [("scope", j_enum (da_scope b)); ("messageId", j_id (da_messageId b))]
      ++ maybe "meshId" j_id (da_meshId b) ++ maybe "nodeId" j_id (da_nodeId b)
      ++ maybe "providerType" j_id (da_providerType b) ++ maybe "attemptNo" j_int (da_attemptNo b)
      ++ maybe "dispatchNonce" j_int (da_dispatchNonce b)
      ++ maybe "consumeProfile" j_enum (da_consumeProfile b)
      ++ maybe "maxTaskRetries" j_int (da_maxTaskRetries b)
      ++ maybe "coordinator" j_coordinator (da_coordinator b)
  | delivered m o v => [("messageId", j_id m); ("outcome", j_enum o); ("via", j_enum v)]
  | delivery_refused m r => [("messageId", j_id m); ("reason", j_enum r)]
  | dispatch_failed w r c =>
      [("workerAbsent", J_bool w); ("reason", j_enum r)] ++ maybe "refusalCode" j_id c
  | duplicate_dispatch_refusal h a => ("holderSessionId", j_id h) :: maybe "holderAttemptId" j_id a
  | session_rebound t r => [("toSessionId", j_id t); ("reason", j_enum r)]
  | turn_started r => [("retro", J_bool r)]
  | suspension s =>
      ("modal", j_enum (su_modal s)) :: maybe "modalKey" j_id (su_modalKey s)
      ++ maybe "providerSetup" J_bool (su_providerSetup s) ++ maybe "clockUnknown" J_bool (su_clockUnknown s)
  | suspension_resolved r v k =>
      [("resolution", j_enum r); ("via", j_enum v)] ++ maybe "modalKey" j_id k
  | turn_end b =>
      ("strength", j_enum (te_strength b))
      :: maybe "afterFinalizationTimeout" J_bool (te_afterFinalizationTimeout b)
      ++ maybe "hollow" J_bool (te_hollow b) ++ maybe "summary" j_summary (te_summary b)
      ++ maybe "blockReason" j_enum (te_blockReason b)
      ++ maybe "releasedByHardCap" J_bool (te_releasedByHardCap b)
      ++ maybe "nativeOutcome" j_enum (te_nativeOutcome b) ++ maybe "live" j_live (te_live b)
      ++ maybe "nativeMarker" j_marker (te_nativeMarker b)
      ++ maybe "reportExpected" J_bool (te_reportExpected b)
      ++ maybe "providerFailure" j_enum (te_providerFailure b)
  | transcript_final b =>
      [("selfAttributing", J_bool (tf_selfAttributing b)); ("nativeRead", J_bool (tf_nativeRead b))]
      ++ maybe "nativeMarker" j_marker (tf_nativeMarker b) ++ [("live", j_live (tf_live b))]
      ++ maybe "summary" j_summary (tf_summary b) ++ maybe "messageAt" j_int (tf_messageAt b)
  | transcript_activity n => [("newestActivityAt", j_int n)]
  | no_progress m s f =>
      [("stalledMs", j_int m); ("observedStatus", j_enum s); ("finalAssistantPresent", J_bool f)]
  | liveness r p => ("result", j_enum r) :: maybe "probeStartedAtMs" j_int p
  | process_exit c f =>
      ("exitCode", match c with Some z => j_int z | None => J_null end) :: maybe "providerFailure" j_enum f
  | session_error r => [("reason", j_enum r)]
  | worker_report b =>
      ("outcome", j_enum (wr_outcome b)) :: maybe "summary" j_summary (wr_summary b)
      ++ [("hasHandoffNotes", J_bool (wr_hasHandoffNotes b))]
      ++ maybe "branchState" j_enum (wr_branchState b)
      ++ maybe "touchedFileCount" j_int (wr_touchedFileCount b)
  | worker_report_correction_requested d => maybe "deliveryId" j_id d
  | worker_progress n => maybe "note" j_summary n
  | git_side_effect d c a =>
      [("dirty", J_bool d); ("commitsSinceDispatch", j_int c); ("attributable", J_bool a)]
  | cancel r => [("reason", j_enum r)]
  | operator_status s r => [("status", j_enum s); ("reason", j_enum r)]
  | coordinator_ack n o => [("notify", j_enum n); ("outcome", j_enum o)]
  | hold_expired h r => [("holdId", j_id h); ("reason", j_enum r)]
  end.

(** The object a typed evidence is. *)
Definition evidence_object (ev : TurnEvidence) : list (string * JValue) :=
  envelope_props ev ++ ("kind", j_enum (ev_kind ev)) :: body_props (ev_body ev).

Record EntryAttempt : Set := { en_attemptId : string; en_generation : Z; en_ownerDaemonId : string }.

Definition evidence_flags (ev : TurnEvidence) : list (string * JValue) :=
  match ev_body ev with
  | turn_end b =>
      (if opt_true (te_hollow b) then [("hollow", J_bool true)] else [])
      ++ (if opt_true (te_afterFinalizationTimeout b) then [("afterFinalizationTimeout", J_bool true)] else [])
  | transcript_final b =>
      (if present (tf_nativeMarker b) then [("nativeMarker", J_bool true)] else [])
      ++ (if tf_selfAttributing b then [("selfAttributing", J_bool true)] else [])
  | _ => []
  end.

Definition projectTurnEvidenceEntry (ev : TurnEvidence) (attempt : EntryAttempt) : list (string * JValue) :=
  [("v", j_int MESH_TOPIC_PROTOCOL_VERSION); ("eventId", j_id (e_eventId ev)); ("at", j_int (e_at ev));
   ("k", J_str "turn.evidence"); ("attemptId", j_id (en_attemptId attempt));
   ("generation", j_int (en_generation attempt)); ("ownerDaemonId", j_id (en_ownerDaemonId attempt))]
  ++ (if truthy_str (e_taskId ev) then maybe "taskId" j_id (e_taskId ev) else [])
  ++ [("sessionId", j_id (e_sessionId ev)); ("ev", j_enum (ev_kind ev))]
  ++ match ev_body ev with turn_end b => [("strength", j_enum (te_strength b))] | _ => [] end
  ++ match evidence_flags ev with [] => [] | flags => [("flags", J_obj flags)] end
  ++ [("evidence", J_obj (evidence_object ev))].

(** ** What acceptance means *)

(** Every string inside a value. *)
Fixpoint strings_in (v : JValue) : list string :=
  match v with
  | J_str s => [s]
  | J_arr l => List.concat (map strings_in l)
  | J_obj o => List.concat (map (fun e => strings_in e.2) o)
  | _ => []
  end.

(** Objects have unique property names. *)
Fixpoint unique_keys (v : JValue) : bool :=
  match v with
  | J_arr l => forallb unique_keys l
  | J_obj o => bool_decide (NoDup (map fst o)) && forallb (fun e => unique_keys e.2) o
  | _ => true
  end.

Definition content_free (v : JValue) : Prop := Forall (fun s => identifier_shaped s = true) (strings_in v).

Lemma prop_In o key v : NoDup (map fst o) -> In (key, v) o -> prop o key = v.
Proof.
  unfold prop. intros Hn Hin. replace (map_get key o) with (Some v); [done|]. symmetry.
  induction o as [|[k x] o IH]; [done|]. cbn in *. apply NoDup_cons in Hn as [Hk Hn].
  destruct Hin as [[= -> ->]|Hin]; [by rewrite decide_True|].
  rewrite decide_False; [by apply IH|]. intros <-. apply Hk, list_elem_of_In. by apply (in_map fst) in Hin.
Qed.

Lemma values_shaped (values : list string) v :
  forallb identifier_shaped values = true -> one_of values v = true -> content_free v.
Proof.
  intros Hv. destruct v; try done. cbn. intros Hs. breflect. rewrite forallb_forall in Hv.
  constructor; [|constructor]. by apply Hv, list_elem_of_In.
Qed.

Lemma identifier_free v : isEvidenceIdentifier v = true -> content_free v.
Proof. destruct v; try done. intros H. by repeat constructor. Qed.

Lemma no_strings v : strings_in v = [] -> content_free v.
Proof. unfold content_free. intros ->. constructor. Qed.

(** An object whose allowed properties are content-free. *)
Lemma object_free o allowed :
  unique_keys (J_obj o) = true -> hasOnlyKeys o allowed = true ->
  Forall (fun key => content_free (prop o key)) allowed -> content_free (J_obj o).
Proof.
  cbn. intros Hu Hk Hall. breflect. unfold hasOnlyKeys in Hk. rewrite forallb_forall in Hk.
  rewrite Forall_forall in Hall. unfold content_free. cbn. apply Forall_concat, Forall_map, Forall_forall.
  intros [key v] Hin%list_elem_of_In. specialize (Hk _ Hin). cbn in Hk. breflect.
  specialize (Hall _ Hk). by rewrite (prop_In o key v) in Hall.
Qed.

Lemma undefined_or_free P v : undefined_or P v = true -> (P v = true -> content_free v) -> content_free v.
Proof. unfold undefined_or. destruct v; cbn; auto. intros _ _. constructor. Qed.

Lemma finite_free v : isFiniteNumber v = true -> content_free v.
Proof. destruct v; try done. intros _. by apply no_strings. Qed.

Lemma boolean_free v : is_boolean v = true -> content_free v.
Proof. destruct v; try done. intros _. by apply no_strings. Qed.

Lemma safe_integer_free v : isSafeInteger v = true -> content_free v.
Proof. destruct v; try done. intros _. by apply no_strings. Qed.

Create HintDb evidence.
#[export] Hint Resolve identifier_free finite_free boolean_free safe_integer_free : evidence.

Ltac object_case :=
  match goal with |- context [record_and _ ?v] => destruct v as [| | | | | |o]; try discriminate end;
  cbn [record_and]; intros; breflect; eapply object_free; [eassumption|eassumption|];
  repeat (apply Forall_cons; split); try solve [constructor];
  try solve [eauto with evidence | eapply undefined_or_free; [eassumption|eauto with evidence]].

(** A value of a field class holds no free text. *)
Lemma class_free t v :
  match t with T_enum values => forallb identifier_shaped values = true | _ => True end ->
  unique_keys v = true -> class_matches t v = true -> content_free v.
Proof.
  intros Ht Hu. destruct t; cbn [class_matches].
  - apply identifier_free.
  - by apply values_shaped.
  - apply boolean_free.
  - destruct v; try done; intros _; by apply no_strings.
  - intros H. breflect. by apply finite_free.
  - revert Hu. unfold isSummaryRef. object_case.
  - revert Hu. unfold isTurnAttemptRef. object_case.
  - revert Hu. unfold isLiveTurnPending. object_case.
  - revert Hu. unfold isNativeMarkerRef. object_case.
    all: cbn [forallb] in *; breflect; try (eapply undefined_or_free; [eassumption|apply finite_free]).
    by eapply values_shaped; [|eassumption].
  - revert Hu. unfold isCoordinatorIdentity. object_case.
Qed.

(** The registry declares no free-text class: its enumerations are spelled as
    identifiers. *)
Definition spec_shaped (s : string * EvidenceFieldSpec) : bool :=
  match fs_t s.2 with T_enum values => forallb identifier_shaped values | _ => true end.

Lemma registry_shaped k :
  forallb spec_shaped (EVIDENCE_ENVELOPE_FIELD_SPECS ++ TURN_EVIDENCE_FIELD_SPECS k)%list = true.
Proof. destruct k; vm_compute; reflexivity. Qed.

(** The declared fields of evidence of a kind. *)
Definition declared (k : TurnEvidenceKind) : FieldSpecs :=
  (EVIDENCE_ENVELOPE_FIELD_SPECS ++ TURN_EVIDENCE_FIELD_SPECS k)%list.

Lemma kind_named_spelling v k : kind_named v = Some k -> v = J_str (spelling k).
Proof. destruct v; try done. unfold kind_named. intros [_ H]%find_some. breflect. by f_equal. Qed.

Lemma accepted_inv o :
  isTurnEvidence (J_obj o) = true ->
  exists k, prop o "kind" = j_enum k
    /\ (forall key v, In (key, v) o -> key = "kind" \/ key ∈ map fst (declared k) \/ key ∈ OBJECT_PROTOTYPE_KEYS)
    /\ (forall key s, In (key, s) (declared k) -> fieldMatches s (prop o key) = true).
Proof.
  cbn [isTurnEvidence]. destruct (kind_named (prop o "kind")) as [k|] eqn:Hk; [|done]. cbv zeta.
  intros [[H1 H2]%andb_true_iff H3]%andb_true_iff. exists k. rewrite forallb_forall in *.
  split; [by apply kind_named_spelling|]. split.
  - intros key v Hin. specialize (H1 _ Hin). cbn in H1. unfold key_in, declared in *. rewrite map_app.
    rewrite !orb_true_iff, !bool_decide_eq_true in H1. rewrite elem_of_app. tauto.
  - intros key s Hin. unfold declared in Hin. apply in_app_or in Hin as [Hin|Hin].
    + by apply (H2 (key, s)).
    + by apply (H3 (key, s)).
Qed.

(** ** Theorems *)

(** C33: in an accepted evidence every declared field is content-free: each string in
    it, however deep, is an identifier of at most 256 characters without whitespace
    or control characters. *)
Theorem evidence_content_free o key v :
  unique_keys (J_obj o) = true -> isTurnEvidence (J_obj o) = true -> In (key, v) o ->
  key ∉ OBJECT_PROTOTYPE_KEYS -> content_free v.
Proof.
  intros Hu Hacc Hin Hp. destruct (accepted_inv o Hacc) as (k & Hk & Hkeys & Hfields).
  cbn in Hu. apply andb_true_iff in Hu as [Hnd Hsub]. breflect. rewrite forallb_forall in Hsub.
  pose proof (prop_In o key v Hnd Hin) as Hv. destruct (Hkeys key v Hin) as [->|[Hd|?]]; [| |done].
  - rewrite <- Hv, Hk. repeat constructor. by destruct k.
  - apply list_elem_of_In, in_map_iff in Hd as ([key' s] & <- & Hs). cbn in *.
    specialize (Hfields _ _ Hs). rewrite Hv in Hfields. unfold fieldMatches in Hfields.
    destruct (is_undefined v) eqn:Eu; [destruct v; try done; by apply no_strings|].
    apply (class_free (fs_t s)); [|by apply (Hsub (key', v))|done].
    pose proof (registry_shaped k) as Hr. rewrite forallb_forall in Hr. specialize (Hr _ Hs).
    unfold spec_shaped in Hr. cbn in Hr. by destruct (fs_t s).
Qed.

Definition sample_exit_evidence : TurnEvidence := {|
  ev_env := {| e_eventId := "e-1"; e_at := 1000; e_source := Src_session_registry; e_sessionId := "s-1";
               e_attemptRef := Some {| ref_attemptId := "a-1"; ref_generation := 2 |};
               e_taskId := Some "t-1"; e_observedBy := "d-1" |};
  ev_body := process_exit (Some 1) (Some Pf_provider_error) |}.

Lemma evidence_content_free_witness :
  isTurnEvidence (J_obj (evidence_object sample_exit_evidence)) = true
  /\ content_free (j_attempt_ref {| ref_attemptId := "a-1"; ref_generation := 2 |}).
Proof.
  split; [vm_compute; reflexivity|].
  apply (evidence_content_free (evidence_object sample_exit_evidence) "attemptRef");
    [vm_compute; reflexivity|vm_compute; reflexivity|cbn; tauto|].
  apply (bool_decide_unpack _). vm_compute. exact I.
Defined.

(** The guard does not reject every undeclared field: a property named like a
    member of [Object.prototype] is let through with any text, because declared names
    are looked up with [in]. *)
Theorem guard_admits_inherited_names text :
  "toString" ∉ map fst (declared K_process_exit)
  /\ isTurnEvidence (J_obj (("toString", J_str text) :: evidence_object sample_exit_evidence)) = true.
Proof.
  split; [|vm_compute; reflexivity]. apply (bool_decide_unpack _). vm_compute. exact I.
Qed.

Lemma accepted_ids ev :
  isTurnEvidence (J_obj (evidence_object ev)) = true ->
  identifier_shaped (e_eventId ev) = true /\ identifier_shaped (e_sessionId ev) = true
  /\ match e_taskId ev with Some t => identifier_shaped t = true | None => True end.
Proof.
  intros H. destruct (accepted_inv _ H) as (k & _ & _ & Hf).
  assert (He : fieldMatches (req T_id) (j_id (e_eventId ev)) = true)
    by (apply (Hf "eventId"); cbn; tauto).
  assert (Hs : fieldMatches (req T_id) (j_id (e_sessionId ev)) = true)
    by (apply (Hf "sessionId"); cbn; tauto).
  split_and!; [done|done|]. destruct (e_taskId ev) as [t|] eqn:Et; [|done].
  assert (Ht : fieldMatches (opt T_id) (prop (evidence_object ev) "taskId") = true)
    by (apply (Hf "taskId"); cbn; tauto).
  unfold evidence_object, envelope_props in Ht. rewrite Et in Ht. by destruct (e_attemptRef ev).
Qed.

Lemma kind_accepted (k : TurnEvidenceKind) : isTurnEvidenceKind (j_enum k) = true.
Proof. destruct k; vm_compute; reflexivity. Qed.

Lemma strength_accepted (s : TurnEndStrength) : one_of (values_of TurnEndStrength) (j_enum s) = true.
Proof. destruct s; vm_compute; reflexivity. Qed.

Lemma flags_accepted ev : is_flags (J_obj (evidence_flags ev)) = true.
Proof.
  unfold evidence_flags. destruct (ev_body ev); try reflexivity;
    repeat match goal with |- context [if ?b then _ else _] => destruct b end; vm_compute; reflexivity.
Qed.

Lemma evidence_of_its_kind ev :
  isTurnEvidence (J_obj (evidence_object ev)) = true ->
  evidence_of_kind (j_enum (ev_kind ev)) (J_obj (evidence_object ev)) = true.
Proof.
  intros H. unfold evidence_of_kind. rewrite H. cbn [andb j_enum].
  assert (E : prop (evidence_object ev) "kind" = j_enum (ev_kind ev)).
  { unfold evidence_object, envelope_props. destruct (e_attemptRef ev), (e_taskId ev); reflexivity. }
  rewrite E. by apply bool_decide_eq_true.
Qed.

(** The properties of a projected entry. *)
Record entry_shape (ev : TurnEvidence) (at_ : EntryAttempt) (o : list (string * JValue)) : Prop := {
  es_session : prop o "sessionId" = j_id (e_sessionId ev);
  es_task : prop o "taskId" = match (if truthy_str (e_taskId ev) then e_taskId ev else None) with
                              | Some t => j_id t | None => J_undefined
                              end;
  es_ev : prop o "ev" = j_enum (ev_kind ev);
  es_strength : prop o "strength" = match ev_body ev with
                                    | turn_end b => j_enum (te_strength b) | _ => J_undefined
                                    end;
  es_flags : prop o "flags" = match evidence_flags ev with [] => J_undefined | l => J_obj l end;
  es_evidence : prop o "evidence" = J_obj (evidence_object ev) }.

Lemma project_shape ev at_ : entry_shape ev at_ (projectTurnEvidenceEntry ev at_).
Proof.
  unfold projectTurnEvidenceEntry.
  constructor; generalize (evidence_flags ev) (evidence_object ev) (truthy_str (e_taskId ev));
    intros flags obj []; destruct (e_taskId ev), (ev_body ev), flags; reflexivity.
Qed.

Lemma undefined_or_true P v : P v = true -> undefined_or P v = true.
Proof. unfold undefined_or. intros ->. apply orb_true_r. Qed.

(** The entry a daemon projects from evidence its own guard accepts, for a
    well-formed attempt, is accepted by every peer's entry guard. *)
Theorem projection_accepted ev at_ :
  isTurnEvidence (J_obj (evidence_object ev)) = true ->
  identifier_shaped (en_attemptId at_) = true -> identifier_shaped (en_ownerDaemonId at_) = true ->
  0 <= en_generation at_ <= MAX_SAFE ->
  isMeshTopicEntry (J_obj (projectTurnEvidenceEntry ev at_)) = true.
Proof.
  intros Hev Ha Ho Hg. destruct (accepted_ids ev Hev) as (He & Hs & Ht).
  destruct (project_shape ev at_) as [S1 S2 S3 S4 S5 S6].
  set (o := projectTurnEvidenceEntry ev at_) in *. unfold isMeshTopicEntry. cbn [record_and].
  rewrite S1, S2, S3, S4, S5, S6.
  change (prop o "v") with (j_int 2). change (prop o "eventId") with (j_id (e_eventId ev)).
  change (prop o "at") with (j_int (e_at ev)). change (prop o "k") with (J_str "turn.evidence").
  change (prop o "attemptId") with (j_id (en_attemptId at_)).
  change (prop o "generation") with (j_int (en_generation at_)).
  change (prop o "ownerDaemonId") with (j_id (en_ownerDaemonId at_)).
  cbn [j_int j_id isEvidenceIdentifier isFiniteNumber Z.eqb Pos.eqb MESH_TOPIC_PROTOCOL_VERSION].
  rewrite He, Ha, Ho, Hs, kind_accepted, !andb_true_r. cbn [andb]. rewrite !andb_true_iff. split_and!.
  - unfold isGeneration. cbn. rewrite !andb_true_iff, !Z.leb_le. unfold MAX_SAFE in *. lia.
  - destruct (truthy_str (e_taskId ev)); [|done]. by destruct (e_taskId ev).
  - destruct (ev_body ev); try done. by apply undefined_or_true, strength_accepted.
  - pose proof (flags_accepted ev). destruct (evidence_flags ev); [done|]. by apply undefined_or_true.
  - by apply undefined_or_true, evidence_of_its_kind.
Qed.

Lemma projection_accepted_witness :
  isMeshTopicEntry (J_obj (projectTurnEvidenceEntry sample_exit_evidence
    {| en_attemptId := "a-1"; en_generation := 2; en_ownerDaemonId := "d-0" |})) = true.
Proof.
  apply (projection_accepted sample_exit_evidence); [vm_compute; reflexivity|vm_compute; reflexivity
    |vm_compute; reflexivity|cbn; split; [lia|vm_compute; discriminate]].
Defined.

(** ** Refusal codes *)

Definition ascii_between (lo hi : nat) (c : Ascii.ascii) : bool :=
  let n := Ascii.nat_of_ascii c in ((lo <=? n) && (n <=? hi))%nat.

(** [toLowerCase] of the characters it maps into [a-z]. *)
Definition lower_char (c : Ascii.ascii) : Ascii.ascii :=
  if ascii_between 65 90 c then Ascii.ascii_of_nat (Ascii.nat_of_ascii c + 32) else c.

Definition underscore : Ascii.ascii := Ascii.ascii_of_nat 95.
Definition code_char (c : Ascii.ascii) : bool := ascii_between 97 122 c || bool_decide (c = underscore).

Fixpoint map_chars (f : Ascii.ascii -> Ascii.ascii) (s : string) : string :=
  match s with EmptyString => EmptyString | String c s' => String (f c) (map_chars f s') end.

(** [.replace(/_+/g, '_')]. *)
Fixpoint collapse_underscores (s : string) : string :=
  match s with
  | EmptyString => EmptyString
  | String c s' =>
      match s' with
      | String c' _ =>
          if bool_decide (c = underscore) && bool_decide (c' = underscore)
          then collapse_underscores s' else String c (collapse_underscores s')
      | EmptyString => String c EmptyString
      end
  end.

Fixpoint strip_leading (s : string) : string :=
  match s with
  | String c s' => if bool_decide (c = underscore) then strip_leading s' else s
  | EmptyString => EmptyString
  end.

Fixpoint strip_trailing (s : string) : string :=
  match s with
  | EmptyString => EmptyString
  | String c s' =>
      match strip_trailing s' with
      | EmptyString => if bool_decide (c = underscore) then EmptyString else String c EmptyString
      | t => String c t
      end
  end.

Definition normalize_code (s : string) : string :=
  strip_trailing (strip_leading (collapse_underscores
    (map_chars (fun c => if code_char c then c else underscore) (map_chars lower_char (js_trim s))))).

Definition sanitizeRefusalCode (v : JValue) : option string :=
  match v with
  | J_str s =>
      let normalized := normalize_code s in
      if bool_decide (normalized = EmptyString) then None else Some (String.substring 0 64 normalized)
  | _ => None
  end.

Section Codes.
Notation coded := (all_chars code_char).

Lemma coded_map s : coded (map_chars (fun c => if code_char c then c else underscore) s) = true.
Proof. induction s as [|c s IH]; cbn; [done|]. rewrite IH. destruct (code_char c) eqn:E; by rewrite ?E. Qed.

Lemma coded_collapse s : coded s = true -> coded (collapse_underscores s) = true.
Proof.
  induction s as [|c s IH]; [done|]. intros [Hc Hs]%andb_true_iff. specialize (IH Hs).
  cbn [collapse_underscores]. destruct s as [|c' s]; [cbn; by rewrite Hc|].
  case_match; [done|]. cbn [all_chars]. by rewrite Hc, IH.
Qed.

Lemma coded_leading s : coded s = true -> coded (strip_leading s) = true.
Proof.
  induction s as [|c s IH]; [done|]. cbn. intros H. case_bool_decide; [|done].
  apply andb_true_iff in H as [_ H]. by apply IH.
Qed.

Lemma coded_trailing s : coded s = true -> coded (strip_trailing s) = true.
Proof.
  induction s as [|c s IH]; [done|]. cbn. intros [Hc Hs]%andb_true_iff. specialize (IH Hs).
  destruct (strip_trailing s); [case_bool_decide; cbn; by rewrite ?Hc|]. cbn in *. by rewrite Hc.
Qed.

Lemma coded_prefix n s : coded s = true -> coded (String.substring 0 n s) = true.
Proof.
  revert s. induction n as [|n IH]; intros [|c s]; cbn; try done. intros [Hc Hs]%andb_true_iff.
  by rewrite Hc, IH.
Qed.

Lemma prefix_length n s : String.length (String.substring 0 n s) = Nat.min n (String.length s).
Proof. revert s. induction n as [|n IH]; intros [|c s]; cbn; try done. by rewrite IH. Qed.

Lemma code_char_identifier c : code_char c = true -> identifier_char c = true.
Proof. destruct c as [[] [] [] [] [] [] [] []]; vm_compute; done. Qed.

Lemma coded_identifier s : coded s = true -> all_chars identifier_char s = true.
Proof.
  induction s as [|c s IH]; [done|]. cbn. intros [Hc Hs]%andb_true_iff.
  by rewrite code_char_identifier, IH.
Qed.
End Codes.

(** A sanitized refusal code is one to 64 lower-case letters and underscores, so
    the guard accepts it in an identifier slot, whatever text came in. *)
Theorem refusal_code_shaped v c :
  sanitizeRefusalCode v = Some c ->
  all_chars code_char c = true /\ (1 <= String.length c <= 64)%nat /\ identifier_shaped c = true.
Proof.
  destruct v as [| | | |s| |]; try done. unfold sanitizeRefusalCode. case_bool_decide as Hn; [done|].
  intros [= <-]. assert (Hc : all_chars code_char (String.substring 0 64 (normalize_code s)) = true).
  { apply coded_prefix, coded_trailing, coded_leading, coded_collapse, coded_map. }
  assert (Hl : (1 <= String.length (String.substring 0 64 (normalize_code s)) <= 64)%nat).
  { rewrite prefix_length. destruct (normalize_code s); [done|]. cbn [String.length]. lia. }
  split_and!; [done|lia|lia|]. unfold identifier_shaped.
  rewrite (coded_identifier _ Hc), !andb_true_iff, !Nat.leb_le. lia.
Qed.

Lemma refusal_code_shaped_witness :
  sanitizeRefusalCode (J_str " Session busy: /Users/me! ") = Some "session_busy_users_me"
  /\ identifier_shaped "session_busy_users_me" = true.
Proof.
  split; [vm_compute; reflexivity|].
  apply (refusal_code_shaped (J_str " Session busy: /Users/me! ")). vm_compute. reflexivity.
Defined.
