(* ===== verification/TurnPolicy.v ===== *)
(** * Turn policy

    [packages/daemon-core/src/mesh/turn-ledger/policy.ts]: the timing
    constants of the turn ledger, the values derived from them, and their
    resolution from the environment. Milliseconds are integers. *)

From S2P Require Import Prelude TurnEvidence.

(** ** The policy record *)

Record TurnPolicy : Set := {
  tickMs : Z;
  quietWindowMs : Z;
  consumeGraceMs : Z;
  deliveryCeilingMs : Z;
  livenessDeadlineMs : Z;
  noTurnDeadlineMs : Z;
  stallNoticeMs : Z;
  stallWakeMs : Z;
  coalesceWindowMs : Z;
  hardCeilingMs : Z;
  stoppingUnreachableMaxMs : Z;
  awaitReportMs : Z;
  livenessProbeIntervalFinalizingMs : Z;
  awaitEndMs : Z }.

Definition DEFAULT_TURN_POLICY : TurnPolicy := {|
  tickMs := 4000;
  quietWindowMs := 8000;
  consumeGraceMs := 90000;
  deliveryCeilingMs := 120000;
  livenessDeadlineMs := 480000;
  noTurnDeadlineMs := 900000;
  stallNoticeMs := 180000;
  stallWakeMs := 900000;
  coalesceWindowMs := 30000;
  hardCeilingMs := 5400000;
  stoppingUnreachableMaxMs := 24 * 3600000;
  awaitReportMs := 600000;
  livenessProbeIntervalFinalizingMs := 60000;
  awaitEndMs := 60000 |}.

(** Budgets. *)
Definition RECLAIM_BUDGET : Z := 3.
Definition MAX_REDRIVES_PER_GENERATION : Z := 1.
Definition LIVENESS_FAIL_STREAK_LIMIT : Z := 3.
Definition SUSPENSION_REMINDER_MS : Z := 300000.
Definition MAX_SUSPENSION_REMINDERS : Z := 3.
Definition DEFAULT_MAX_TASK_RETRIES : Z := 1.
Definition MAX_UNCONFIRMED_END_DEFERRALS : Z := 1.

(** ** Derived values *)

(** [Math.round(1.5 * n)] and [Math.round(n / 2)] of an integer [n]. *)
Definition round_3_halves (n : Z) : Z := (3 * n + 1) / 2.
Definition round_half (n : Z) : Z := (n + 1) / 2.

Definition holdTtlMs (p : TurnPolicy) : Z := round_3_halves (quietWindowMs p).
Definition weakConfirmMs (p : TurnPolicy) : Z := round_3_halves (quietWindowMs p).
Definition unknownLivenessGraceMs (p : TurnPolicy) : Z := 3 * tickMs p.
Definition endProbeGraceMs (p : TurnPolicy) : Z := Z.max (unknownLivenessGraceMs p) (awaitEndMs p).
Definition reportCorrectionMs (p : TurnPolicy) : Z := Z.max (awaitReportMs p) (endProbeGraceMs p).

Definition livenessReArmMs (p : TurnPolicy) (awaitReportHeld : bool) : Z :=
  let normal := unknownLivenessGraceMs p in
  if awaitReportHeld then Z.max normal (livenessProbeIntervalFinalizingMs p) else normal.

Definition awaitDeliveryMs (p : TurnPolicy) : Z := 2 * deliveryCeilingMs p.
Definition authoritativeTranscriptAgeMs (p : TurnPolicy) : Z := round_half (deliveryCeilingMs p).

Definition consumeGraceFor (p : TurnPolicy) (profile : ConsumeProfile) : Z :=
  match profile with
  | Cp_native_source => 2 * consumeGraceMs p
  | Cp_default => consumeGraceMs p
  end.

(** ** Environment resolution *)

(** [keyof TurnPolicy]. *)
Inductive PolicyField : Set :=
  | F_tickMs | F_quietWindowMs | F_consumeGraceMs | F_deliveryCeilingMs | F_livenessDeadlineMs
  | F_noTurnDeadlineMs | F_stallNoticeMs | F_stallWakeMs | F_coalesceWindowMs | F_hardCeilingMs
  | F_stoppingUnreachableMaxMs | F_awaitReportMs | F_livenessProbeIntervalFinalizingMs
  | F_awaitEndMs.
#[global] Instance PolicyField_eq_dec : EqDecision PolicyField.
Proof. solve_decision. Defined.

(** [policy[field]]. *)
Definition get_field (f : PolicyField) (p : TurnPolicy) : Z :=
  match f with
  | F_tickMs => tickMs p
  | F_quietWindowMs => quietWindowMs p
  | F_consumeGraceMs => consumeGraceMs p
  | F_deliveryCeilingMs => deliveryCeilingMs p
  | F_livenessDeadlineMs => livenessDeadlineMs p
  | F_noTurnDeadlineMs => noTurnDeadlineMs p
  | F_stallNoticeMs => stallNoticeMs p
  | F_stallWakeMs => stallWakeMs p
  | F_coalesceWindowMs => coalesceWindowMs p
  | F_hardCeilingMs => hardCeilingMs p
  | F_stoppingUnreachableMaxMs => stoppingUnreachableMaxMs p
  | F_awaitReportMs => awaitReportMs p
  | F_livenessProbeIntervalFinalizingMs => livenessProbeIntervalFinalizingMs p
  | F_awaitEndMs => awaitEndMs p
  end.

(** [policy[field] = v]. *)
Definition set_field (f : PolicyField) (v : Z) (p : TurnPolicy) : TurnPolicy :=
  match f with
  | F_tickMs => {| p with tickMs := v |}
  | F_quietWindowMs => {| p with quietWindowMs := v |}
  | F_consumeGraceMs => {| p with consumeGraceMs := v |}
  | F_deliveryCeilingMs => {| p with deliveryCeilingMs := v |}
  | F_livenessDeadlineMs => {| p with livenessDeadlineMs := v |}
  | F_noTurnDeadlineMs => {| p with noTurnDeadlineMs := v |}
  | F_stallNoticeMs => {| p with stallNoticeMs := v |}
  | F_stallWakeMs => {| p with stallWakeMs := v |}
  | F_coalesceWindowMs => {| p with coalesceWindowMs := v |}
  | F_hardCeilingMs => {| p with hardCeilingMs := v |}
  | F_stoppingUnreachableMaxMs => {| p with stoppingUnreachableMaxMs := v |}
  | F_awaitReportMs => {| p with awaitReportMs := v |}
  | F_livenessProbeIntervalFinalizingMs => {| p with livenessProbeIntervalFinalizingMs := v |}
  | F_awaitEndMs => {| p with awaitEndMs := v |}
  end.

Record EnvAlias : Set := { al_name : string; al_min : Z; al_max : Z }.

Record EnvBinding : Set := {
  bd_field : PolicyField;
  bd_canonical : string;
  bd_min : Z;
  bd_max : Z;
  bd_aliases : list EnvAlias }.

Definition HOUR : Z := 60 * 60000.

Definition bind (f : PolicyField) (c : string) (mn mx : Z) (al : list EnvAlias) : EnvBinding :=
  {| bd_field := f; bd_canonical := c; bd_min := mn; bd_max := mx; bd_aliases := al |}.
Definition alias (n : string) (mn mx : Z) : EnvAlias :=
  {| al_name := n; al_min := mn; al_max := mx |}.

Definition TURN_POLICY_ENV_BINDINGS : list EnvBinding := [
  bind F_tickMs "ADHDEV_TURN_TICK_MS" 100 60000
    [alias "MESH_RECONCILE_INTERVAL_MS" 1000 60000];
  bind F_quietWindowMs "ADHDEV_TURN_QUIET_WINDOW_MS" 0 (10 * 60000) [];
  bind F_consumeGraceMs "ADHDEV_TURN_CONSUME_GRACE_MS" 0 HOUR [];
  bind F_deliveryCeilingMs "ADHDEV_TURN_DELIVERY_CEILING_MS" 0 HOUR
    [alias "MESH_PENDING_HELD_CEILING_MS" 12000 (30 * 60000)];
  bind F_livenessDeadlineMs "ADHDEV_TURN_LIVENESS_DEADLINE_MS" 0 HOUR
    [alias "MESH_INFLIGHT_ACKED_DEATH_DEADLINE_MS" 0 HOUR];
  bind F_noTurnDeadlineMs "ADHDEV_TURN_NO_TURN_DEADLINE_MS" 0 (6 * HOUR) [];
  bind F_stallNoticeMs "ADHDEV_TURN_STALL_NOTICE_MS" 0 HOUR [];
  bind F_stallWakeMs "ADHDEV_TURN_STALL_WAKE_MS" 0 (6 * HOUR) [];
  bind F_coalesceWindowMs "ADHDEV_TURN_COALESCE_WINDOW_MS" 0 (10 * 60000) [];
  bind F_hardCeilingMs "ADHDEV_TURN_HARD_CEILING_MS" 0 (24 * HOUR)
    [alias "MESH_INFLIGHT_ACKED_HOLD_HARD_CEILING_MS" 0 (24 * HOUR)];
  bind F_stoppingUnreachableMaxMs "ADHDEV_STOPPING_UNREACHABLE_MAX_MS" 0 (30 * 24 * HOUR) [];
  bind F_awaitReportMs "ADHDEV_TURN_AWAIT_REPORT_MS" 0 HOUR [];
  bind F_livenessProbeIntervalFinalizingMs
    "ADHDEV_TURN_LIVENESS_PROBE_INTERVAL_FINALIZING_MS" 0 HOUR [];
  bind F_awaitEndMs "ADHDEV_TURN_AWAIT_END_MS" 0 HOUR [] ]%string.

Definition RETIRED_TURN_ENV_NAMES : list string :=
  ["MESH_PENDING_HELD_DRAIN_ESCALATE_MS";
   "MESH_INFLIGHT_ACKED_TRANSCRIPT_FASTTRACK_GRACE_MS"]%string.

Abbreviation TurnEnv := (gmap string string).

Definition MAX_SAFE_INTEGER : Z := 2 ^ 53 - 1.

Definition digit_of (c : Ascii.ascii) : option Z :=
  let n := Z.of_nat (Ascii.nat_of_ascii c) in
  if (48 <=? n) && (n <=? 57) then Some (n - 48) else None.

(** [/^\d+$/] and [Number.parseInt(_, 10)]: a non-empty run of decimal
    digits, read left to right. *)
Fixpoint parse_digits (acc : Z) (s : string) : option Z :=
  match s with
  | EmptyString => Some acc
  | String c s' => d ← digit_of c; parse_digits (10 * acc + d) s'
  end.

Definition readClamped (env : TurnEnv) (name : string) (min max : Z) : option Z :=
  raw ← env !! name;
  let trimmed := js_trim raw in
  if bool_decide (trimmed = EmptyString) then None else
  parsed ← parse_digits 0 trimmed;
  if (MAX_SAFE_INTEGER <? parsed) || (parsed <? min) || (max <? parsed)
  then None else Some parsed.

(** The inner loop over a binding's aliases: the first usable one. *)
Fixpoint read_aliases (env : TurnEnv) (al : list EnvAlias) : option (Z * string) :=
  match al with
  | [] => None
  | a :: t =>
      match readClamped env (al_name a) (al_min a) (al_max a) with
      | Some v => Some (v, al_name a)
      | None => read_aliases env t
      end
  end.

Record ResolvedTurnPolicy : Set := {
  rp_policy : TurnPolicy;
  rp_sources : list (PolicyField * string);
  rp_ignored : list string }.

(** One iteration of the loop over the bindings. *)
Definition resolve_binding (env : TurnEnv) (acc : TurnPolicy * list (PolicyField * string))
    (b : EnvBinding) : TurnPolicy * list (PolicyField * string) :=
  match readClamped env (bd_canonical b) (bd_min b) (bd_max b) with
  | Some v => (set_field (bd_field b) v acc.1, acc.2 ++ [(bd_field b, bd_canonical b)])
  | None =>
      match read_aliases env (bd_aliases b) with
      | Some (v, n) => (set_field (bd_field b) v acc.1, acc.2 ++ [(bd_field b, n)])
      | None => acc
      end
  end.

Definition resolveTurnPolicyDetailed (env : TurnEnv) : ResolvedTurnPolicy :=
  let r := fold_left (resolve_binding env) TURN_POLICY_ENV_BINDINGS (DEFAULT_TURN_POLICY, []) in
  {| rp_policy := r.1;
     rp_sources := r.2;
     rp_ignored := List.filter (fun name =>
       match env !! name with
       | Some raw => bool_decide (js_trim raw ≠ EmptyString)
       | None => false
       end) RETIRED_TURN_ENV_NAMES |}.

Definition resolveTurnPolicy (env : TurnEnv) : TurnPolicy := rp_policy (resolveTurnPolicyDetailed env).

(** ** Facts *)

Lemma get_set_field f g v p : get_field f (set_field g v p) = if decide (f = g) then v else get_field f p.
Proof. destruct f, g; reflexivity. Qed.

Lemma readClamped_bounds env name mn mx v :
  readClamped env name mn mx = Some v -> mn <= v <= mx /\ v <= MAX_SAFE_INTEGER.
Proof.
  unfold readClamped. intros H. simplify_option_eq.
  repeat case_match; simplify_eq; breflect; lia.
Qed.

Lemma read_aliases_bounds env al v n :
  read_aliases env al = Some (v, n) ->
  exists a, a ∈ al /\ n = al_name a /\ readClamped env n (al_min a) (al_max a) = Some v.
Proof.
  induction al as [|a al IH]; simpl; [done|]. destruct (readClamped _ _ _ _) eqn:E; intros; simplify_eq.
  - exists a. set_solver.
  - destruct IH as (a' & ? & ? & ?); [done|]. exists a'. set_solver.
Qed.

(** What a binding contributes: the canonical name if usable, else the first
    usable alias. *)
Definition binding_value (env : TurnEnv) (b : EnvBinding) : option (Z * string) :=
  match readClamped env (bd_canonical b) (bd_min b) (bd_max b) with
  | Some v => Some (v, bd_canonical b)
  | None => read_aliases env (bd_aliases b)
  end.

Lemma resolve_binding_value env acc b :
  resolve_binding env acc b =
  match binding_value env b with
  | Some (v, n) => (set_field (bd_field b) v acc.1, acc.2 ++ [(bd_field b, n)])
  | None => acc
  end.
Proof. unfold resolve_binding, binding_value. by destruct (readClamped _ _ _ _). Qed.

Lemma resolve_bindings_field env f bs acc :
  NoDup (map bd_field bs) ->
  get_field f (fold_left (resolve_binding env) bs acc).1 =
  match list_find (fun b => bd_field b = f) bs with
  | Some (_, b) => from_option fst (get_field f acc.1) (binding_value env b)
  | None => get_field f acc.1
  end.
Proof.
  revert acc. induction bs as [|b bs IH]; intros acc Hnd; [done|].
  inversion Hnd as [|? ? Hnin Hnd']; subst. cbn [fold_left list_find].
  rewrite IH by done. rewrite resolve_binding_value.
  destruct (decide (bd_field b = f)) as [<-|Hne].
  - replace (list_find _ bs) with (@None (nat * EnvBinding)).
    + destruct (binding_value env b) as [[v n]|]; simpl; [|done].
      rewrite get_set_field. by case_decide.
    + symmetry. apply list_find_None, Forall_forall. intros b' Hb' Heq. apply Hnin.
      rewrite <- Heq. by apply list_elem_of_fmap_2.
  - destruct (list_find _ bs) as [[i b']|]; simpl.
    + destruct (binding_value env b') as [[v' n']|]; simpl; [done|].
      destruct (binding_value env b) as [[v n]|]; simpl; [|done].
      rewrite get_set_field. by case_decide; subst.
    + destruct (binding_value env b) as [[v n]|]; simpl; [|done].
      rewrite get_set_field. by case_decide; subst.
Qed.

Lemma bindings_fields_NoDup : NoDup (map bd_field TURN_POLICY_ENV_BINDINGS).
Proof. apply (bool_decide_unpack _). by vm_compute. Qed.

(** ** Theorems *)

(** The binding of a field. *)
Definition binding_of (f : PolicyField) : option EnvBinding :=
  List.find (fun b => bool_decide (bd_field b = f)) TURN_POLICY_ENV_BINDINGS.

Lemma list_find_binding f :
  exists n b, list_find (fun b => bd_field b = f) TURN_POLICY_ENV_BINDINGS = Some (n, b)
    /\ binding_of f = Some b.
Proof. destruct f; vm_compute; eauto. Qed.

Lemma resolve_field env f :
  exists b, binding_of f = Some b
    /\ get_field f (resolveTurnPolicy env)
       = from_option fst (get_field f DEFAULT_TURN_POLICY) (binding_value env b).
Proof.
  destruct (list_find_binding f) as (n & b & Hl & Hb). exists b. split; [done|].
  unfold resolveTurnPolicy, resolveTurnPolicyDetailed. cbn [rp_policy].
  by rewrite resolve_bindings_field, Hl by apply bindings_fields_NoDup.
Qed.

(** Every field of the resolved policy is decided by its own binding alone: the
    canonical variable if it holds a number in its bounds, else the first alias that
    does in its own bounds, else the default. *)
Theorem policy_resolution env f :
  exists b, binding_of f = Some b /\
    match readClamped env (bd_canonical b) (bd_min b) (bd_max b) with
    | Some v => get_field f (resolveTurnPolicy env) = v
    | None =>
        match read_aliases env (bd_aliases b) with
        | Some (v, n) =>
            get_field f (resolveTurnPolicy env) = v
            /\ exists al, al ∈ bd_aliases b /\ n = al_name al
                 /\ readClamped env n (al_min al) (al_max al) = Some v
        | None => get_field f (resolveTurnPolicy env) = get_field f DEFAULT_TURN_POLICY
        end
    end.
Proof.
  destruct (resolve_field env f) as (b & Hb & Hv). exists b. split; [done|]. rewrite Hv. unfold binding_value.
  destruct (readClamped env _ _ _); [done|].
  destruct (read_aliases env (bd_aliases b)) as [[v n]|] eqn:E; [|done].
  split; [done|]. by apply read_aliases_bounds.
Qed.

(** Every binding and alias admits only non-negative values, and the defaults are. *)
Definition binding_sane (lo : PolicyField -> Z) (b : EnvBinding) : bool :=
  (lo (bd_field b) <=? bd_min b) && forallb (fun a => lo (bd_field b) <=? al_min a) (bd_aliases b)
  && (lo (bd_field b) <=? get_field (bd_field b) DEFAULT_TURN_POLICY).

Definition field_floor (f : PolicyField) : Z := match f with F_tickMs => 100 | _ => 0 end.

Lemma bindings_sane : forallb (binding_sane field_floor) TURN_POLICY_ENV_BINDINGS = true.
Proof. vm_compute. reflexivity. Qed.

Lemma resolve_floor env f : field_floor f <= get_field f (resolveTurnPolicy env).
Proof.
  destruct (resolve_field env f) as (b & Hb & ->).
  assert (Hf : bd_field b = f) by (apply find_some in Hb as [_ ?]; by breflect).
  assert (Hs : binding_sane field_floor b = true).
  { pose proof bindings_sane as H. rewrite forallb_forall in H. apply H. by apply find_some in Hb as [? _]. }
  unfold binding_sane in Hs. rewrite Hf in Hs. apply andb_true_iff in Hs as [[H1 H2]%andb_true_iff H3].
  breflect. unfold binding_value. destruct (readClamped env _ _ _) as [v|] eqn:E.
  - apply readClamped_bounds in E. cbn. lia.
  - destruct (read_aliases env (bd_aliases b)) as [[v n]|] eqn:E'; [|done].
    apply read_aliases_bounds in E' as (al & Hal & -> & Hr). apply readClamped_bounds in Hr.
    rewrite forallb_forall in H2. apply list_elem_of_In in Hal. specialize (H2 _ Hal). breflect. cbn. lia.
Qed.

(** What usable means. *)
Definition usable (p : TurnPolicy) : Prop :=
  (forall f, 0 <= get_field f p) /\ 100 <= tickMs p /\ quietWindowMs p <= holdTtlMs p
  /\ awaitEndMs p <= endProbeGraceMs p /\ 3 * tickMs p <= endProbeGraceMs p
  /\ awaitReportMs p <= reportCorrectionMs p
  /\ (forall held, unknownLivenessGraceMs p <= livenessReArmMs p held)
  /\ (forall profile, consumeGraceMs p <= consumeGraceFor p profile)
  /\ deliveryCeilingMs p <= awaitDeliveryMs p.

Lemma usable_of_floors p : (forall f, field_floor f <= get_field f p) -> usable p.
Proof.
  intros H. assert (Hf : forall f, 0 <= get_field f p).
  { intros f. specialize (H f). destruct f; cbn in *; lia. }
  pose proof (H F_tickMs) as Ht. cbn in Ht. pose proof (Hf F_quietWindowMs : 0 <= quietWindowMs p).
  pose proof (Hf F_consumeGraceMs : 0 <= consumeGraceMs p).
  pose proof (Hf F_deliveryCeilingMs : 0 <= deliveryCeilingMs p).
  unfold usable, holdTtlMs, round_3_halves, reportCorrectionMs, endProbeGraceMs, unknownLivenessGraceMs,
    awaitDeliveryMs. split_and!; try assumption; try lia.
  - apply Z.div_le_lower_bound; lia.
  - intros []; unfold livenessReArmMs, unknownLivenessGraceMs; lia.
  - intros []; cbn; lia.
Qed.

(** For every environment the resolved policy is usable: no duration is negative,
    the scheduler ticks at least every 100 ms apart, a hold outlives the quiet window
    it waits for, and the derived graces cover what they are derived from. *)
Theorem policy_usable env : usable (resolveTurnPolicy env).
Proof. apply usable_of_floors. intros f. apply resolve_floor. Qed.
