(* ===== verification/TurnTypes.v ===== *)
(** * Attempts, holds and effects

    [packages/daemon-core/src/mesh/turn-ledger/types.ts]. A field typed
    [T | null] or [T?] is an [option]. *)

From S2P Require Import Prelude TurnEvidence TurnPolicy.

(** ** States *)

Inductive TurnState : Set :=
  | St_accepted | St_delivered | St_consumed | St_generating | St_suspended | St_finalizing
  | St_stopping | St_completed | St_blocked | St_failed | St_cancelled.
#[global] Instance TurnState_eq_dec : EqDecision TurnState.
Proof. solve_decision. Defined.

Definition TURN_STATES : list TurnState :=
  [St_accepted; St_delivered; St_consumed; St_generating; St_suspended; St_finalizing; St_stopping;
   St_completed; St_blocked; St_failed; St_cancelled].

Definition TERMINAL_TURN_STATES : list TurnState :=
  [St_completed; St_blocked; St_failed; St_cancelled].

Definition isTerminalTurnState (s : TurnState) : bool := bool_decide (s ∈ TERMINAL_TURN_STATES).

(** The coercions between spellings the unions share. *)
Definition state_of_outcome (o : TurnOutcome) : TurnState :=
  match o with
  | O_completed => St_completed | O_blocked => St_blocked
  | O_failed => St_failed | O_cancelled => St_cancelled
  end.

Definition notify_of_outcome (o : TurnOutcome) : NotifyKind :=
  match o with
  | O_completed => N_completed | O_blocked => N_blocked
  | O_failed => N_failed | O_cancelled => N_cancelled
  end.

Definition notify_of_modal (m : SuspensionModal) : NotifyKind :=
  match m with Mod_approval => N_approval | Mod_choice => N_choice end.

Definition outcome_of_report (o : WorkerReportOutcome) : TurnOutcome :=
  match o with Wo_completed => O_completed | Wo_blocked => O_blocked | Wo_failed => O_failed end.

Definition outcome_of_operator (s : OperatorStatus) : TurnOutcome :=
  match s with Os_completed => O_completed | Os_failed => O_failed end.

(** ** Attempts *)

Record TurnTerminal : Set := {
  t_outcome : TurnOutcome;
  t_reason : TurnReason;
  t_source : EvidenceSourceId;
  t_strength : CommitStrength;
  t_at : Z;
  t_summary : option SummaryRef }.

Record StopTerminal : Set := {
  st_outcome : TurnOutcome;
  st_strength : CommitStrength;
  st_adoptSessionId : option string;
  st_summary : option SummaryRef;
  st_textEventId : option string;
  st_source : option EvidenceSourceId }.

Inductive SettledBy : Set := unreachable_bound | node_removed.

Record WriterStop : Set := {
  ws_requestId : string;
  ws_reason : TurnReason;
  ws_requestedAt : Z;
  ws_tries : Z;
  ws_escalated : bool;
  ws_confirmed : option bool;
  ws_settledBy : option SettledBy;
  ws_terminal : option StopTerminal }.

Record ProviderSuspension : Set := {
  ps_generation : Z;
  ps_modalKey : option string;
  ps_providerSetup : option bool;
  ps_at : option Z;
  ps_resolvedAt : option Z;
  ps_reminders : option Z;
  ps_lastReminderAt : option Z }.

Record GitSideEffect : Set := {
  gs_dirty : bool; gs_commitsSinceDispatch : Z; gs_attributable : bool; gs_at : Z }.

Record UnconfirmedEndDeferral : Set := {
  ud_generation : Z; ud_count : Z; ud_requestedAt : option Z }.

Record LivenessObservation : Set := {
  lo_generation : Z; lo_sessionId : option string; lo_at : Z; lo_probeStartedAt : Z }.

Record LivenessSessionCut : Set := { lc_generation : Z; lc_at : Z; lc_revision : Z }.

Record ReportCorrection : Set := { rc_generation : Z; rc_until : Z }.

Record RecordedReport : Set := {
  rr_generation : Z;
  rr_outcome : WorkerReportOutcome;
  rr_eventId : string;
  rr_at : Z;
  rr_summary : option SummaryRef }.

Record TurnAttemptData : Set := {
  d_writerStop : option WriterStop;
  d_providerSuspension : option ProviderSuspension;
  d_gitSideEffect : option GitSideEffect;
  d_falseIdleCount : option Z;
  d_unconfirmedEndDeferral : option UnconfirmedEndDeferral;
  d_livenessObservation : option LivenessObservation;
  d_livenessSessionCut : option LivenessSessionCut;
  d_reportCorrection : option ReportCorrection;
  d_report : option RecordedReport }.

Definition no_data : TurnAttemptData := {|
  d_writerStop := None; d_providerSuspension := None; d_gitSideEffect := None;
  d_falseIdleCount := None; d_unconfirmedEndDeferral := None; d_livenessObservation := None;
  d_livenessSessionCut := None; d_reportCorrection := None; d_report := None |}.

Record PrevGeneration : Set := { pg_sessionId : string; pg_consumed : bool }.

Record Coordinator : Set := { cd_daemonId : option string; cd_sessionId : option string }.

Record TurnAttempt : Set := {
  a_attemptId : string;
  a_scope : TurnScope;
  a_meshId : option string;
  a_taskId : option string;
  a_attemptNo : Z;
  a_sessionId : string;
  a_nodeId : option string;
  a_providerType : option string;
  a_ownerDaemonId : string;
  a_generation : Z;
  a_prevGeneration : option PrevGeneration;
  a_dispatchNonce : option Z;
  a_messageId : option string;
  a_consumeProfile : ConsumeProfile;
  a_maxTaskRetries : Z;
  a_state : TurnState;
  a_suspension : option SuspensionModal;
  a_redriveCount : Z;
  a_reclaimCount : Z;
  a_hollowCount : Z;
  a_livenessFailStreak : Z;
  a_lastLiveness : option LivenessResult;
  a_coordinator : Coordinator;
  a_acceptedAt : Z;
  a_deliveredAt : option Z;
  a_consumedAt : option Z;
  a_lastActivityAt : option Z;
  a_weakSince : option Z;
  a_candidateNotifiedGeneration : option Z;
  a_lastNoProgressNoticeAt : option Z;
  a_notifiedAt : option Z;
  a_terminal : option TurnTerminal;
  a_data : TurnAttemptData }.

(** ** Holds *)

Inductive HoldOnExpire : Set :=
  | Ox_commit | Ox_release | Ox_escalate | Ox_reclaim | Ox_redeliver | Ox_reevaluate.
#[global] Instance HoldOnExpire_eq_dec : EqDecision HoldOnExpire.
Proof. solve_decision. Defined.

(** The values of a hold's content-free data bag. *)
Inductive Scalar : Set := SStr (s : string) | SNum (n : Z) | SBool (b : bool) | SNull.
#[global] Instance Scalar_eq_dec : EqDecision Scalar.
Proof. solve_decision. Defined.

Record TurnHold : Set := {
  h_holdId : string;
  h_attemptId : string;
  h_generation : option Z;
  h_reason : HoldReason;
  h_until : option Z;
  h_onExpire : HoldOnExpire;
  h_data : gmap string Scalar;
  h_createdAt : Z }.

(** ** Effects *)

Inductive BusPhase : Set := Ph_started | Ph_suspended | Ph_resumed | Ph_progress | Ph_committed.
#[global] Instance BusPhase_eq_dec : EqDecision BusPhase.
Proof. solve_decision. Defined.

Record TurnBusEvent : Set := {
  be_phase : BusPhase;
  be_sessionId : string;
  be_attemptId : string;
  be_generation : Z;
  be_outcome : option TurnOutcome;
  be_strength : option CommitStrength }.

Record NotifyCoordinator : Set := {
  nc_attemptId : string;
  nc_generation : Z;
  nc_notify : NotifyKind;
  nc_taskId : option string;
  nc_coordinatorDaemonId : option string;
  nc_coordinatorSessionId : option string;
  nc_summary : option SummaryRef;
  nc_textEventId : option string }.

(** [readonly HoldReason[] | '*']. *)
Inductive Reasons : Set := All_reasons | Only_reasons (l : list HoldReason).

(** [TurnOutcome | 'pending']. *)
Inductive QueueStatus : Set := Q_pending | Q_outcome (o : TurnOutcome).
#[global] Instance QueueStatus_eq_dec : EqDecision QueueStatus.
Proof. solve_decision. Defined.

Inductive TurnEffect : Set :=
| E_commit (attemptId : string) (generation : Z) (outcome : TurnOutcome) (strength : CommitStrength)
    (reason : TurnReason) (source : EvidenceSourceId) (summary : option SummaryRef)
| E_notify_coordinator (n : NotifyCoordinator)
| E_hold (hold : TurnHold)
| E_release_hold (attemptId : string) (reasons : Reasons)
| E_reclaim (attemptId : string) (fromGeneration toGeneration : Z) (reason : TurnReason)
| E_redeliver (attemptId : string) (generation : Z) (messageId : option string) (sessionId : string)
| E_cancel_dispatch (attemptId : string) (generation : Z) (sessionId : string)
    (messageId : option string) (revokeBind : option bool) (stopRequestId : option string)
| E_bus (event : TurnBusEvent)
| E_record (note : string)
| E_release_attempt_ref (attemptId sessionId : string)
| E_queue_status (meshId taskId : string) (status : QueueStatus) (reason : TurnReason)
| E_task_terminal (meshId taskId : string) (outcome : TurnOutcome)
| E_probe (attemptId sessionId : string)
| E_reevaluate (attemptId evidenceId : string) (forceLiveFalse : bool).

Inductive ReduceVerdict : Set := V_applied | V_recorded | V_rejected.
#[global] Instance ReduceVerdict_eq_dec : EqDecision ReduceVerdict.
Proof. solve_decision. Defined.

Inductive ReduceRejection : Set :=
  | Rj_no_attempt | Rj_attempt_mismatch | Rj_session_mismatch | Rj_already_terminal
  | Rj_illegal_transition.

(** ** Attempt construction (reducer-attempt.ts) *)

(** [newAttempt] with no overriding fields but the two it requires. *)
Definition newAttempt (ev : TurnEvidence) (attemptId : string) (scope : TurnScope)
    : TurnAttempt := {|
  a_attemptId := attemptId;
  a_scope := scope;
  a_meshId := None;
  a_taskId := e_taskId ev;
  a_attemptNo := 0;
  a_sessionId := e_sessionId ev;
  a_nodeId := None;
  a_providerType := None;
  a_ownerDaemonId := e_observedBy ev;
  a_generation := match e_attemptRef ev with Some r => ref_generation r | None => 0 end;
  a_prevGeneration := None;
  a_dispatchNonce := None;
  a_messageId := None;
  a_consumeProfile := Cp_default;
  a_maxTaskRetries := DEFAULT_MAX_TASK_RETRIES;
  a_state := St_accepted;
  a_suspension := None;
  a_redriveCount := 0;
  a_reclaimCount := 0;
  a_hollowCount := 0;
  a_livenessFailStreak := 0;
  a_lastLiveness := None;
  a_coordinator := {| cd_daemonId := None; cd_sessionId := None |};
  a_acceptedAt := e_at ev;
  a_deliveredAt := None;
  a_consumedAt := None;
  a_lastActivityAt := None;
  a_weakSince := None;
  a_candidateNotifiedGeneration := None;
  a_lastNoProgressNoticeAt := None;
  a_notifiedAt := None;
  a_terminal := None;
  a_data := no_data |}.

(** The terminal a genuine completion of the previous generation commits. *)
Definition adoptedTerminal (ev : TurnEvidence) : TurnOutcome * CommitStrength * TurnReason :=
  match ev_body ev with
  | worker_report b => (outcome_of_report (wr_outcome b), Str_tool_report, R_worker_reported)
  | transcript_final _ => (O_completed, Str_genuine, R_transcript_final)
  | _ => (O_completed, Str_genuine, R_turn_end)
  end.

(** ** Facts *)

Lemma terminal_state_of_outcome o : isTerminalTurnState (state_of_outcome o) = true.
Proof. destruct o; reflexivity. Qed.
