(* ===== verification/Admission.v ===== *)
(** * Admission of a turn end

    [packages/daemon-core/src/mesh/turn-ledger/admission.ts]: may an observed
    end of a turn be admitted as the end? *)

From S2P Require Import Prelude TurnEvidence TurnPolicy.

Inductive AdmissionDeclineReason : Set :=
  | Ad_active_modal | Ad_session_not_idle | Ad_native_marker_absent | Ad_trailing_tool_activity
  | Ad_no_final_assistant_summary | Ad_transcript_growing.
#[global] Instance AdmissionDeclineReason_eq_dec : EqDecision AdmissionDeclineReason.
Proof. solve_decision. Defined.

Record TerminalAdmissionInput : Set := {
  ti_activeModalPresent : bool;
  ti_providerObservedStatus : option string;
  ti_nativeReadHappened : bool;
  ti_nativeMarkerScoped : bool;
  ti_selfAttributing : bool;
  ti_trailingActivityCount : Z;
  ti_finalAssistantPresent : bool;
  ti_newestActivityAtMs : option Z;
  ti_observedAtMs : Z;
  ti_quietWindowMs : Z }.

Inductive AdmitLevel : Set := Lvl_strong | Lvl_weak.
Inductive AdmitReason : Set :=
  Ar_native_turn_terminal_marker | Ar_self_attributing_summary | Ar_message_shape_fallback.

Inductive TerminalAdmissionVerdict : Set :=
| Admit (level : AdmitLevel) (reason : AdmitReason)
| Declined (reason : AdmissionDeclineReason).

Definition isTranscriptGrowing (newestActivityAtMs : option Z) (observedAtMs quietWindowMs : Z) : bool :=
  match newestActivityAtMs with
  | Some n => observedAtMs - n <? quietWindowMs
  | None => false
  end.

(** [toLowerCase] on ASCII letters. *)
Fixpoint to_lower (s : string) : string :=
  match s with
  | EmptyString => EmptyString
  | String c t => String (lower_ascii c) (to_lower t)
  end.

Definition evaluateTerminalAdmission (i : TerminalAdmissionInput) : TerminalAdmissionVerdict :=
  if ti_activeModalPresent i then Declined Ad_active_modal else
  if match ti_providerObservedStatus i with
     | Some s => bool_decide (to_lower (js_trim s) ≠ "idle"%string)
     | None => false
     end then Declined Ad_session_not_idle else
  if ti_nativeMarkerScoped i then Admit Lvl_strong Ar_native_turn_terminal_marker else
  if ti_selfAttributing i then Admit Lvl_strong Ar_self_attributing_summary else
  if ti_nativeReadHappened i then Declined Ad_native_marker_absent else
  if 0 <? ti_trailingActivityCount i then Declined Ad_trailing_tool_activity else
  if negb (ti_finalAssistantPresent i) then Declined Ad_no_final_assistant_summary else
  if isTranscriptGrowing (ti_newestActivityAtMs i) (ti_observedAtMs i) (ti_quietWindowMs i)
  then Declined Ad_transcript_growing else
  Admit Lvl_weak Ar_message_shape_fallback.

(** The hold a decline maps to; [None] records only. *)
Definition holdReasonForDecline (r : AdmissionDeclineReason) : option HoldReason :=
  match r with
  | Ad_active_modal | Ad_session_not_idle | Ad_trailing_tool_activity => Some H_live_pending
  | Ad_transcript_growing => Some H_transcript_quiet
  | Ad_native_marker_absent | Ad_no_final_assistant_summary => None
  end.

Inductive EvidenceAdmission : Set :=
| Adm_strong
| Adm_weak
| Adm_hold (reason : AdmissionDeclineReason) (holdReason : HoldReason)
| Adm_decline (reason : AdmissionDeclineReason).

Definition fromVerdict (v : TerminalAdmissionVerdict) : EvidenceAdmission :=
  match v with
  | Admit Lvl_strong _ => Adm_strong
  | Admit Lvl_weak _ => Adm_weak
  | Declined r =>
      match holdReasonForDecline r with
      | Some h => Adm_hold r h
      | None => Adm_decline r
      end
  end.

(** The admission input [admitTranscriptFinal] builds from the evidence. *)
Definition transcript_final_input (ev : TurnEvidence) (b : TranscriptFinal) (policy : TurnPolicy)
    : TerminalAdmissionInput := {|
  ti_activeModalPresent := live_modal (tf_live b);
  ti_providerObservedStatus :=
    Some (if live_adapterPending (tf_live b) then "generating" else "idle")%string;
  ti_nativeReadHappened := tf_nativeRead b;
  ti_nativeMarkerScoped := present (tf_nativeMarker b);
  ti_selfAttributing := tf_selfAttributing b;
  ti_trailingActivityCount := if live_trailingTool (tf_live b) then 1 else 0;
  ti_finalAssistantPresent := present (tf_summary b) || present (tf_messageAt b);
  ti_newestActivityAtMs := live_newestActivityAt (tf_live b);
  ti_observedAtMs := e_at ev;
  ti_quietWindowMs := quietWindowMs policy |}.

Definition admitTranscriptFinal (ev : TurnEvidence) (b : TranscriptFinal) (policy : TurnPolicy)
    : EvidenceAdmission :=
  if match tf_nativeMarker b with
     | Some m => bool_decide (nm_outcome m = No_failed)
     | None => false
     end then Adm_decline Ad_native_marker_absent else
  fromVerdict (evaluateTerminalAdmission (transcript_final_input ev b policy)).

Definition admitTurnEnd (ev : TurnEvidence) (b : TurnEnd) (policy : TurnPolicy) : EvidenceAdmission :=
  let by_strength :=
    match te_strength b with Es_genuine => Adm_strong | Es_weak => Adm_weak end in
  match te_live b with
  | Some live =>
      if live_modal live then Adm_hold Ad_active_modal H_live_pending else
      if live_adapterPending live then Adm_hold Ad_session_not_idle H_live_pending else
      if live_trailingTool live then Adm_hold Ad_trailing_tool_activity H_live_pending else
      if isTranscriptGrowing (live_newestActivityAt live) (e_at ev) (quietWindowMs policy)
      then Adm_hold Ad_transcript_growing H_transcript_quiet else by_strength
  | None => by_strength
  end.

(** Deadline of the hold a held admission opens, on the ledger clock. *)
Definition admissionHoldUntil (holdReason : HoldReason) (live : option LiveTurnPending)
    (observedAtMs : Z) (policy : TurnPolicy) (nowMs : Z) : Z :=
  let ttl := holdTtlMs policy in
  match holdReason, live with
  | H_transcript_quiet, Some l =>
      match live_newestActivityAt l with
      | Some newest =>
          let remaining := newest + quietWindowMs policy - observedAtMs in
          nowMs + Z.min (Z.max 0 remaining) ttl
      | None => nowMs + ttl
      end
  | _, _ => nowMs + ttl
  end.

(** ** Theorems *)

(** A final answer read from the transcript ends the turn by itself only on the
    provider's own word (a terminal marker that is not a failure, or a self-attributing
    summary), and weakly only when the session looks quiet: never with a modal or a
    pending adapter, and weakly only without trailing tools, with an answer present and
    outside the growth window. *)
Theorem final_admission_sound ev b policy :
  (admitTranscriptFinal ev b policy = Adm_strong ->
     live_modal (tf_live b) = false /\ live_adapterPending (tf_live b) = false
     /\ (tf_selfAttributing b = true
         \/ exists m, tf_nativeMarker b = Some m /\ nm_outcome m <> No_failed))
  /\ (admitTranscriptFinal ev b policy = Adm_weak ->
     live_modal (tf_live b) = false /\ live_adapterPending (tf_live b) = false
     /\ tf_nativeMarker b = None /\ tf_selfAttributing b = false /\ tf_nativeRead b = false
     /\ live_trailingTool (tf_live b) = false
     /\ (present (tf_summary b) || present (tf_messageAt b)) = true
     /\ isTranscriptGrowing (live_newestActivityAt (tf_live b)) (e_at ev) (quietWindowMs policy) = false).
Proof.
  unfold admitTranscriptFinal, evaluateTerminalAdmission, transcript_final_input. cbn.
  destruct (live_modal (tf_live b)), (live_adapterPending (tf_live b)); try (by case_match).
  change (bool_decide (to_lower (js_trim "idle"%string) ≠ "idle"%string)) with false. cbn.
  destruct (tf_nativeMarker b) as [m|] eqn:Em; cbn.
  - case_bool_decide; split; intros; try done. split_and!; try done. right. eauto.
  - destruct (tf_selfAttributing b), (tf_nativeRead b), (live_trailingTool (tf_live b)); cbn; try (by split; auto).
    destruct (present (tf_summary b) || present (tf_messageAt b)); cbn; [|by split].
    case_match; split; intros; try done; by split_and!.
Qed.

(** The hold of a growing transcript ends exactly when the growth window does: at
    its deadline the transcript is no longer growing, and at any earlier time it still
    is (for activity that is not in the future of the observation). *)
Theorem quiet_hold_exact live at_ policy nowMs newest :
  live_newestActivityAt live = Some newest -> newest <= at_ -> 0 <= quietWindowMs policy ->
  isTranscriptGrowing (Some newest) at_ (quietWindowMs policy) = true ->
  let until := admissionHoldUntil H_transcript_quiet (Some live) at_ policy nowMs in
  nowMs < until <= nowMs + holdTtlMs policy
  /\ isTranscriptGrowing (Some newest) (at_ + (until - nowMs)) (quietWindowMs policy) = false
  /\ forall t, nowMs <= t < until ->
       isTranscriptGrowing (Some newest) (at_ + (t - nowMs)) (quietWindowMs policy) = true.
Proof.
  intros Hl Hn Hq Hg. unfold admissionHoldUntil. rewrite Hl. cbn [isTranscriptGrowing] in *. breflect.
  assert (Httl : quietWindowMs policy <= holdTtlMs policy).
  { unfold holdTtlMs, round_3_halves. apply Z.div_le_lower_bound; lia. }
  cbv zeta. rewrite Z.max_r, Z.min_l by lia. split; [lia|]. split; [apply Z.ltb_ge; lia|].
  intros t Ht. apply Z.ltb_lt. lia.
Qed.

Lemma quiet_hold_exact_witness :
  let live := {| live_modal := false; live_adapterPending := false; live_trailingTool := false;
                 live_newestActivityAt := Some 9000 |} in
  let until := admissionHoldUntil H_transcript_quiet (Some live) 10000 DEFAULT_TURN_POLICY 50000 in
  50000 < until <= 50000 + holdTtlMs DEFAULT_TURN_POLICY
  /\ isTranscriptGrowing (Some 9000) (10000 + (until - 50000)) (quietWindowMs DEFAULT_TURN_POLICY) = false
  /\ forall t, 50000 <= t < until ->
       isTranscriptGrowing (Some 9000) (10000 + (t - 50000)) (quietWindowMs DEFAULT_TURN_POLICY) = true.
Proof.
  apply (quiet_hold_exact _ 10000 DEFAULT_TURN_POLICY 50000 9000); [reflexivity|lia|cbn; lia|reflexivity].
Defined.
