(* ===== verification/Transitions.v ===== *)
(** * The transition table

    [packages/daemon-core/src/mesh/turn-ledger/transitions.ts]: the turn state
    machine as data. Each rule names the lane, the states and evidence kinds it
    applies to, its guard, its target and its effect templates; the reducer
    interprets them. The table is split along the source's own section comments. *)

From S2P Require Import Prelude TurnEvidence TurnTypes.

(** ** Vocabulary of the table *)

Inductive RuleLane : Set := Lane_none | Lane_current | Lane_stale.
#[global] Instance RuleLane_eq_dec : EqDecision RuleLane.
Proof. solve_decision. Defined.

Inductive RuleFrom : Set :=
  | From_states (l : list TurnState) | From_none | From_nonterminal | From_terminal | From_any.

(** Named guards (interpreted by the reducer). *)
Inductive GuardId : Set :=
  | G_otherwise | G_unbound | G_bound | G_prev_generation_completion | G_stale_session_distinct
  | G_reclaiming_refusal | G_suspension_changed | G_end_genuine | G_end_provider_failure |
  G_end_weak | G_end_weak_after_timeout | G_hollow_retry | G_hollow_exhausted |
  G_end_report_awaited | G_end_report_awaited_held | G_final_strong_report_awaited |
  G_false_idle_resumed | G_final_strong | G_final_weak | G_final_weak_probe |
  G_genuine_end_or_strong_final | G_weak_end_or_final | G_admission_hold | G_admission_decline |
  G_after_weak_since | G_activity_keeps_state | G_liveness_unknown | G_liveness_fatal |
  G_liveness_failed_nonfatal | G_reported_terminal | G_provider_failure | G_no_provider_failure
  | G_holder_is_this_attempt | G_confirmed_provider_setup | G_held_provider_setup |
  G_stale_modal_resolution | G_final_present | G_parked_suspension_observation |
  G_hold_await_delivery | G_hold_await_consume_redrive | G_hold_await_consume_exhausted |
  G_hold_await_turn | G_hold_liveness | G_hold_hard_ceiling | G_hold_suspension_before_consumed
  | G_hold_weak_candidate | G_hold_admission | G_hold_await_report |
  G_hold_native_probe_report_only | G_hold_direct_report_missing | G_hold_queue_report_missing |
  G_hold_end_unconfirmed_defer | G_hold_end_unconfirmed_exhausted | G_hold_end_probe_missing |
  G_hold_report_correction | G_finished_after_report | G_hold_await_end | G_exit_after_report |
  G_settle_idle_report_owed.
#[global] Instance GuardId_eq_dec : EqDecision GuardId.
Proof. solve_decision. Defined.

(** Named attempt mutations. *)
Inductive ActionId : Set :=
  | Act_open_dispatch | Act_open_plain | Act_rebind_dispatch | Act_mark_delivered | Act_consume
  | Act_apply_held_suspension | Act_suspend | Act_resume | Act_resume_by_activity |
  Act_weak_candidate | Act_clear_weak | Act_await_report | Act_false_idle | Act_activity |
  Act_liveness_unknown | Act_liveness_failure | Act_worker_absent | Act_rebind_to_holder |
  Act_rebind | Act_hollow | Act_mark_notified | Act_store_git | Act_redrive |
  Act_stamp_no_progress_notice | Act_record_report | Act_defer_unconfirmed_end |
  Act_open_report_correction.
#[global] Instance ActionId_eq_dec : EqDecision ActionId.
Proof. solve_decision. Defined.

(** Hold deadline expressions. *)
Inductive UntilExpr : Set :=
  | U_await_delivery | U_await_consume | U_await_turn | U_liveness | U_hard_ceiling |
  U_weak_confirm | U_unknown_grace | U_liveness_reprobe | U_admission | U_await_report |
  U_await_end | U_none.
#[global] Instance UntilExpr_eq_dec : EqDecision UntilExpr.
Proof. solve_decision. Defined.

Inductive TplHoldReason : Set := HR (r : HoldReason) | HR_from_admission.
Inductive TplRelease : Set := Rel_list (l : list HoldReason) | Rel_all | Rel_expired_hold.
Inductive TplOutcome : Set :=
  TO (o : TurnOutcome) | TO_from_report | TO_from_recorded_report | TO_from_operator.
Inductive TplReason : Set :=
  TR (r : TurnReason) | TR_from_cancel | TR_from_operator | TR_from_provider_failure
  | TR_from_session_error.
Inductive TplReclaim : Set := RC (r : TurnReason) | RC_from_refusal | RC_from_exit_state.
Inductive TplNotify : Set := TN (k : NotifyKind) | TN_from_modal | TN_from_suspension.
Inductive NotifyWhen : Set :=
  When_candidate_once | When_no_progress_due | When_suspension_reminder_due.
Inductive TplNote : Set := Note (s : string) | Note_from_terminal_compare | Note_from_admission.
Inductive CancelTarget : Set := Target_current | Target_evidence_session.

(** Effect templates. The booleans of [T_hold] are [meshOnly] and
    [generationAgnostic]; that of [T_commit] is [text: 'recorded_report']; that
    of [T_notify] is [generation: 'evidence']; that of [T_cancel_dispatch] is
    [when: 'not_intentional_cleanup']. *)
Inductive EffectTemplate : Set :=
| T_act (act : ActionId)
| T_hold (reason : TplHoldReason) (until : UntilExpr) (onExpire : HoldOnExpire)
    (meshOnly generationAgnostic : bool)
| T_release (reasons : TplRelease)
| T_commit (outcome : TplOutcome) (strength : CommitStrength) (reason : TplReason)
    (recorded_report_text : bool)
| T_reclaim (reason : TplReclaim)
| T_notify (notify : TplNotify) (when : option NotifyWhen) (evidence_generation : bool)
| T_adopt_prev_generation
| T_bus (phase : BusPhase)
| T_record (note : TplNote)
| T_cancel_dispatch (target : CancelTarget) (not_intentional_cleanup : bool)
| T_redeliver
| T_probe
| T_reevaluate.

Inductive RuleTo : Set := To (s : TurnState) | To_same | To_outcome.

Record TransitionRule : Set := {
  r_id : string;
  r_lane : RuleLane;
  r_from : RuleFrom;
  r_on : list TurnEvidenceKind;
  r_guard : option GuardId;
  r_to : RuleTo;
  r_verdict : ReduceVerdict;
  r_effects : list EffectTemplate }.

Definition rule (id : string) (lane : RuleLane) (from : RuleFrom) (on : list TurnEvidenceKind)
    (guard : option GuardId) (to : RuleTo) (verdict : ReduceVerdict)
    (effects : list EffectTemplate) : TransitionRule :=
  {| r_id := id; r_lane := lane; r_from := from; r_on := on; r_guard := guard; r_to := to;
     r_verdict := verdict; r_effects := effects |}.

(** ** The table *)

Section Table.
Let A := St_accepted.
Let D := St_delivered.
Let C := St_consumed.
Let G := St_generating.
Let S := St_suspended.
Let F := St_finalizing.
Let ALL_KINDS := TURN_EVIDENCE_KINDS.

Definition AWAITS : list HoldReason := [H_await_delivery; H_await_consume; H_await_turn].

Definition livenessExtend : EffectTemplate := T_hold (HR H_liveness) U_liveness Ox_escalate false false.

Definition weakCandidate : list EffectTemplate :=
[T_act Act_weak_candidate;
 T_hold (HR H_weak_candidate) U_weak_confirm Ox_commit false false;
 T_notify (TN N_candidate) (Some When_candidate_once) false].

(** The report-awaiting idle candidate. *)
Definition awaitReport : list EffectTemplate :=
[T_act Act_await_report;
 T_release (Rel_list [H_weak_candidate]);
 T_hold (HR H_await_report) U_await_report Ox_commit true false].

(** Writer stop, no attempt, other generations. *)
Definition TRANSITIONS_lanes : list TransitionRule := [
rule "WR" Lane_current (From_states [St_stopping])
  (List.filter (fun k => bool_decide (k ≠ K_coordinator_ack)) ALL_KINDS) None
  To_same V_applied
    [T_record (Note "writer_stop_checkpoint_pending")];
rule "R1" Lane_none From_none
  [K_dispatch_accepted] None
  (To A) V_applied
    [T_act Act_open_dispatch;
     T_hold (HR H_await_delivery) U_await_delivery Ox_reclaim true false;
     T_hold (HR H_hard_ceiling) U_hard_ceiling Ox_escalate true true];
rule "R1r" Lane_current (From_states [A])
  [K_dispatch_accepted] None
  To_same V_applied
    [T_act Act_rebind_dispatch];
rule "R0a" Lane_none From_none
  [K_turn_started] (Some G_unbound)
  (To G) V_applied
    [T_act Act_open_plain;
     T_act Act_consume;
     T_bus Ph_started];
rule "R0b" Lane_none From_none
  [K_turn_started] (Some G_bound)
  To_same V_recorded
    [T_record (Note "no_attempt")];
rule "R0" Lane_none From_none
  (List.filter (fun k => bool_decide (k ≠ K_dispatch_accepted) && bool_decide (k ≠ K_turn_started)) ALL_KINDS) None
  To_same V_recorded
    [T_record (Note "no_attempt")];
rule "R27a" Lane_stale (From_states [A; D])
  [K_turn_end; K_worker_report; K_transcript_final] (Some G_prev_generation_completion)
  To_outcome V_applied
    [T_adopt_prev_generation];
rule "R27" Lane_stale (From_states [C; G; S; F; St_completed; St_blocked; St_failed; St_cancelled])
  [K_turn_end; K_worker_report; K_transcript_final] (Some G_prev_generation_completion)
  To_same V_recorded
    [T_record (Note "late_completion_prev_generation");
     T_notify (TN N_late_completion) None true];
rule "R28a" Lane_stale From_any
  [K_turn_started] (Some G_stale_session_distinct)
  To_same V_recorded
    [T_record (Note "stale_generation");
     T_cancel_dispatch Target_evidence_session false];
rule "R28" Lane_stale From_any
  ALL_KINDS (Some G_otherwise)
  To_same V_recorded
    [T_record (Note "stale_generation")]
]%string.

(** Dispatch and delivery. *)
Definition TRANSITIONS_dispatch : list TransitionRule := [
rule "R2s" Lane_current (From_states [A; D])
  [K_delivered] (Some G_held_provider_setup)
  (To D) V_applied
    [T_act Act_mark_delivered;
     T_release (Rel_list AWAITS)];
rule "R2" Lane_current (From_states [A; D])
  [K_delivered] (Some G_otherwise)
  (To D) V_applied
    [T_act Act_mark_delivered;
     T_release (Rel_list [H_await_delivery]);
     T_hold (HR H_await_consume) U_await_consume Ox_redeliver true false;
     T_hold (HR H_await_turn) U_await_turn Ox_reclaim true false];
rule "R2a" Lane_current (From_states [C; G; S; F])
  [K_delivered] None
  To_same V_recorded
    [T_record (Note "late_delivery_ack")];
rule "R3" Lane_current (From_states [A; D])
  [K_delivery_refused] (Some G_reclaiming_refusal)
  (To A) V_applied
    [T_reclaim RC_from_refusal];
rule "R3a" Lane_current (From_states [A; D])
  [K_delivery_refused] (Some G_otherwise)
  To_same V_recorded
    [T_record (Note "delivery_refused_retryable")];
rule "R24" Lane_current (From_states [A; D])
  [K_dispatch_failed] None
  (To A) V_applied
    [T_act Act_worker_absent;
     T_reclaim (RC R_dispatch_failed)];
rule "R25" Lane_current (From_states [A; D])
  [K_duplicate_dispatch_refusal] (Some G_holder_is_this_attempt)
  (To C) V_applied
    [T_act Act_rebind_to_holder;
     T_act Act_consume;
     T_release (Rel_list AWAITS);
     livenessExtend];
rule "R25a" Lane_current (From_states [A; D])
  [K_duplicate_dispatch_refusal] (Some G_otherwise)
  To_same V_recorded
    [T_record (Note "foreign_holder")];
rule "R26" Lane_current From_nonterminal
  [K_session_rebound] None
  To_same V_applied
    [T_act Act_rebind]
]%string.

(** Turn start and suspension. *)
Definition TRANSITIONS_start : list TransitionRule := [
rule "R4" Lane_current (From_states [A; D; C])
  [K_turn_started] None
  (To G) V_applied
    [T_act Act_consume;
     T_release (Rel_list AWAITS);
     livenessExtend;
     T_bus Ph_started;
     T_act Act_apply_held_suspension];
rule "R5s" Lane_current (From_states [A; D])
  [K_suspension] (Some G_confirmed_provider_setup)
  To_same V_applied
    [T_act Act_suspend;
     T_release (Rel_list AWAITS);
     T_hold (HR H_suspension_before_consumed) U_none Ox_release false false;
     T_bus Ph_suspended;
     T_notify TN_from_modal None false];
rule "R5" Lane_current (From_states [A; D])
  [K_suspension] (Some G_otherwise)
  To_same V_applied
    [T_hold (HR H_suspension_before_consumed) U_none Ox_release false false];
rule "R5stale" Lane_current (From_states [A; D; S])
  [K_suspension_resolved] (Some G_stale_modal_resolution)
  To_same V_recorded
    [T_record (Note "stale_modal_resolution")];
rule "R5bs" Lane_current (From_states [A; D])
  [K_suspension_resolved] (Some G_held_provider_setup)
  To_same V_applied
    [T_release (Rel_list [H_suspension_before_consumed]);
     T_act Act_resume;
     T_hold (HR H_await_consume) U_await_consume Ox_redeliver true false;
     T_hold (HR H_await_turn) U_await_turn Ox_reclaim true false];
rule "R5b" Lane_current (From_states [A; D])
  [K_suspension_resolved] (Some G_otherwise)
  To_same V_applied
    [T_release (Rel_list [H_suspension_before_consumed])];
rule "R6" Lane_current (From_states [C; G; F])
  [K_suspension] None
  (To S) V_applied
    [T_act Act_suspend;
     T_release (Rel_list [H_weak_candidate; H_live_pending; H_transcript_quiet; H_await_report]);
     T_bus Ph_suspended;
     T_notify TN_from_modal None false];
rule "R6s" Lane_current (From_states [S])
  [K_suspension] (Some G_suspension_changed)
  (To S) V_applied
    [T_act Act_suspend;
     T_bus Ph_suspended;
     T_notify TN_from_modal None false];
rule "R6d" Lane_current (From_states [S])
  [K_suspension] (Some G_otherwise)
  To_same V_recorded
    [T_record (Note "duplicate_suspension")];
rule "R7" Lane_current (From_states [S])
  [K_suspension_resolved] (Some G_otherwise)
  (To G) V_applied
    [T_act Act_resume;
     T_bus Ph_resumed;
     T_notify (TN N_approval_resolved) None false];
rule "R8" Lane_current (From_states [S])
  [K_turn_started; K_transcript_activity] None
  (To G) V_applied
    [T_act Act_resume_by_activity;
     T_release (Rel_list [H_live_pending; H_transcript_quiet; H_weak_candidate]);
     livenessExtend;
     T_bus Ph_resumed]
]%string.

(** Turn end. *)
Definition TRANSITIONS_end : list TransitionRule := [
rule "R9" Lane_current (From_states [C; G; S])
  [K_turn_end] (Some G_end_genuine)
  (To St_completed) V_applied
    [T_commit (TO O_completed) Str_genuine (TR R_turn_end) false];
rule "R9f" Lane_current (From_states [C; G; S; F])
  [K_turn_end] (Some G_end_provider_failure)
  (To St_failed) V_applied
    [T_commit (TO O_failed) Str_genuine TR_from_provider_failure false];
rule "R10" Lane_current (From_states [C; G; S])
  [K_turn_end] (Some G_end_weak)
  (To F) V_applied
    weakCandidate;
rule "R10a" Lane_current (From_states [F])
  [K_turn_end; K_transcript_final] (Some G_weak_end_or_final)
  To_same V_recorded
    [T_record (Note "duplicate_weak_end")];
rule "R11" Lane_current (From_states [F])
  [K_turn_end; K_transcript_final] (Some G_genuine_end_or_strong_final)
  (To St_completed) V_applied
    [T_commit (TO O_completed) Str_genuine (TR R_transcript_final) false];
rule "R12" Lane_current (From_states [F])
  [K_turn_started; K_transcript_activity] (Some G_after_weak_since)
  (To G) V_applied
    [T_act Act_clear_weak;
     T_act Act_activity;
     T_release (Rel_list [H_weak_candidate]);
     livenessExtend];
rule "R13b" Lane_current (From_states [C; G; S; F])
  [K_turn_end] (Some G_end_weak_after_timeout)
  (To St_failed) V_applied
    [T_commit (TO O_failed) Str_weak (TR R_finalization_timeout_no_response) false];
rule "R14" Lane_current (From_states [C; G; S])
  [K_transcript_final] (Some G_final_strong)
  (To St_completed) V_applied
    [T_commit (TO O_completed) Str_genuine (TR R_transcript_final) false];
rule "R15" Lane_current (From_states [C; G; S])
  [K_transcript_final] (Some G_final_weak)
  (To F) V_applied
    weakCandidate;
rule "R15p" Lane_current (From_states [C; G; S])
  [K_transcript_final] (Some G_final_weak_probe)
  (To F) V_applied
    awaitReport;
rule "R16" Lane_current (From_states [C; G; S; F])
  [K_turn_end; K_transcript_final] (Some G_admission_hold)
  To_same V_applied
    [T_hold HR_from_admission U_admission Ox_reevaluate false false];
rule "R16a" Lane_current (From_states [C; G; S; F])
  [K_transcript_final] (Some G_admission_decline)
  To_same V_recorded
    [T_record Note_from_admission];
rule "R33" Lane_current (From_states [C; G; S; F])
  [K_turn_end] (Some G_hollow_retry)
  (To A) V_applied
    [T_act Act_hollow;
     T_reclaim (RC R_hollow_completion)];
rule "R9r" Lane_current (From_states [C; G; S; F])
  [K_turn_end] (Some G_end_report_awaited)
  (To F) V_applied
    awaitReport;
rule "R9d" Lane_current (From_states [F])
  [K_turn_end] (Some G_end_report_awaited_held)
  To_same V_recorded
    [T_record (Note "await_report_duplicate_end")];
rule "R11d" Lane_current (From_states [F])
  [K_transcript_final] (Some G_final_strong_report_awaited)
  To_same V_recorded
    [T_record (Note "await_report_transcript_final")];
rule "R12r" Lane_current (From_states [F])
  [K_turn_started; K_transcript_activity] (Some G_false_idle_resumed)
  (To G) V_applied
    [T_act Act_false_idle;
     T_release (Rel_list [H_await_report]);
     livenessExtend;
     T_bus Ph_resumed;
     T_record (Note "false_idle_worker_resumed")];
rule "R33f" Lane_current (From_states [C; G; S; F])
  [K_turn_end] (Some G_hollow_exhausted)
  (To St_failed) V_applied
    [T_act Act_hollow;
     T_commit (TO O_failed) Str_genuine (TR R_hollow_max_retries) false]
]%string.

(** The worker report. *)
Definition TRANSITIONS_report : list TransitionRule := [
rule "R17" Lane_current (From_states [A; D; F])
  [K_worker_report] None
  To_outcome V_applied
    [T_commit TO_from_report Str_tool_report (TR R_worker_reported) false];
rule "R17g" Lane_current (From_states [C; G; S])
  [K_worker_report] None
  To_same V_applied
    [T_act Act_record_report;
     T_hold (HR H_await_end) U_await_end Ox_commit true false;
     T_record (Note "report_awaits_end")];
rule "R9t" Lane_current (From_states [C; G; S; F])
  [K_turn_end; K_transcript_final; K_no_progress] (Some G_finished_after_report)
  To_outcome V_applied
    [T_commit TO_from_recorded_report Str_tool_report (TR R_worker_reported) true];
rule "R13t" Lane_current (From_states [C; G; S; F])
  [K_hold_expired] (Some G_hold_await_end)
  To_outcome V_applied
    [T_commit TO_from_recorded_report Str_tool_report (TR R_worker_reported) true];
rule "R17ps" Lane_current (From_states [A; D])
  [K_worker_progress] None
  (To C) V_applied
    [T_act Act_consume;
     T_release (Rel_list AWAITS);
     livenessExtend;
     T_act Act_apply_held_suspension;
     T_bus Ph_progress];
rule "R17p" Lane_current (From_states [C; G; S; F])
  [K_worker_progress] None
  To_same V_applied
    [T_act Act_activity;
     livenessExtend;
     T_bus Ph_progress]
]%string.

(** Terminal attempts. *)
Definition TRANSITIONS_terminal : list TransitionRule := [
rule "R18" Lane_current From_terminal
  [K_turn_end; K_transcript_final; K_no_progress] (Some G_reported_terminal)
  To_same V_recorded
    [T_record (Note "after_report")];
rule "R19" Lane_current From_terminal
  TERMINAL_CLASS_EVIDENCE_KINDS (Some G_otherwise)
  To_same V_recorded
    [T_record Note_from_terminal_compare];
rule "R34" Lane_current From_any
  [K_coordinator_ack] None
  To_same V_applied
    [T_act Act_mark_notified]
]%string.

(** Session end, errors, operator. *)
Definition TRANSITIONS_session : list TransitionRule := [
rule "R20r" Lane_current (From_states [C; G; S; F])
  [K_process_exit] (Some G_exit_after_report)
  To_outcome V_applied
    [T_commit TO_from_recorded_report Str_tool_report (TR R_worker_reported) true];
rule "R20" Lane_current From_nonterminal
  [K_process_exit] (Some G_no_provider_failure)
  (To A) V_applied
    [T_reclaim RC_from_exit_state];
rule "R20f" Lane_current From_nonterminal
  [K_process_exit] (Some G_provider_failure)
  (To St_failed) V_applied
    [T_commit (TO O_failed) Str_genuine TR_from_provider_failure false];
rule "R21" Lane_current From_nonterminal
  [K_session_error] None
  (To St_failed) V_applied
    [T_commit (TO O_failed) Str_genuine TR_from_session_error false];
rule "R22" Lane_current From_nonterminal
  [K_cancel] None
  (To St_cancelled) V_applied
    [T_cancel_dispatch Target_current true;
     T_commit (TO O_cancelled) Str_operator TR_from_cancel false];
rule "R23s" Lane_current (From_states [F])
  [K_operator_status] (Some G_settle_idle_report_owed)
  (To St_failed) V_applied
    [T_commit (TO O_failed) Str_operator TR_from_operator false];
rule "R23" Lane_current From_nonterminal
  [K_operator_status] (Some G_otherwise)
  To_outcome V_applied
    [T_commit TO_from_operator Str_operator TR_from_operator false];
rule "R17c" Lane_current From_nonterminal
  [K_worker_report_correction_requested] None
  To_same V_applied
    [T_act Act_open_report_correction]
]%string.

(** Progress and liveness. *)
Definition TRANSITIONS_progress : list TransitionRule := [
rule "R29" Lane_current (From_states [C; G])
  [K_no_progress] (Some G_final_present)
  (To F) V_applied
    weakCandidate;
rule "R30p" Lane_current (From_states [S])
  [K_no_progress] (Some G_parked_suspension_observation)
  To_same V_applied
    [T_notify TN_from_suspension (Some When_suspension_reminder_due) false];
rule "R30" Lane_current (From_states [C; G; S; F])
  [K_no_progress] (Some G_otherwise)
  To_same V_applied
    [T_notify (TN N_no_progress) (Some When_no_progress_due) false];
rule "R31" Lane_current (From_states [C; G; S; F])
  [K_liveness] (Some G_liveness_fatal)
  (To A) V_applied
    [T_act Act_liveness_failure;
     T_reclaim (RC R_session_dead)];
rule "R31a" Lane_current (From_states [C; G; S; F])
  [K_liveness] (Some G_liveness_failed_nonfatal)
  To_same V_applied
    [T_act Act_liveness_failure];
rule "R32" Lane_current (From_states [C; G; S; F])
  [K_liveness; K_transcript_activity; K_turn_started] (Some G_activity_keeps_state)
  To_same V_applied
    [T_act Act_activity;
     livenessExtend];
rule "R32u" Lane_current (From_states [C; G; S; F])
  [K_liveness] (Some G_liveness_unknown)
  To_same V_applied
    [T_act Act_liveness_unknown;
     T_hold (HR H_liveness) U_liveness_reprobe Ox_escalate false false];
rule "R35" Lane_current (From_states [C; G; S; F])
  [K_git_side_effect] None
  To_same V_applied
    [T_act Act_store_git]
]%string.

(** Hold expiry. *)
Definition TRANSITIONS_expiry : list TransitionRule := [
rule "H1" Lane_current (From_states [A])
  [K_hold_expired] (Some G_hold_await_delivery)
  (To A) V_applied
    [T_reclaim (RC R_assigned_stranded_dispatch_unconfirmed)];
rule "H2" Lane_current (From_states [D])
  [K_hold_expired] (Some G_hold_await_consume_redrive)
  (To D) V_applied
    [T_act Act_redrive;
     T_redeliver;
     T_hold (HR H_await_consume) U_await_consume Ox_redeliver true false];
rule "H2r" Lane_current (From_states [D])
  [K_hold_expired] (Some G_hold_await_consume_exhausted)
  (To A) V_applied
    [T_reclaim (RC R_delivered_not_consumed_redrive)];
rule "H3" Lane_current (From_states [D])
  [K_hold_expired] (Some G_hold_await_turn)
  (To A) V_applied
    [T_reclaim (RC R_delivered_no_turn_deadline)];
rule "H4" Lane_current (From_states [C; G; S; F])
  [K_hold_expired] (Some G_hold_liveness)
  To_same V_applied
    [T_probe;
     T_hold (HR H_liveness) U_liveness_reprobe Ox_escalate false false];
rule "H5" Lane_current From_nonterminal
  [K_hold_expired] (Some G_hold_hard_ceiling)
  (To St_failed) V_applied
    [T_commit (TO O_failed) Str_genuine (TR R_hard_ceiling) false];
rule "H6" Lane_current From_nonterminal
  [K_hold_expired] (Some G_hold_suspension_before_consumed)
  To_same V_applied
    [T_release Rel_expired_hold];
rule "H7" Lane_current (From_states [C; G; S; F])
  [K_hold_expired] (Some G_hold_admission)
  To_same V_applied
    [T_release Rel_expired_hold;
     T_reevaluate];
rule "R13d" Lane_current (From_states [F])
  [K_hold_expired] (Some G_hold_direct_report_missing)
  To_same V_applied
    [T_release Rel_expired_hold;
     T_record (Note "direct_completion_report_missing");
     T_notify (TN N_candidate) (Some When_candidate_once) false];
rule "R13a" Lane_current (From_states [F])
  [K_hold_expired] (Some G_hold_weak_candidate)
  (To St_completed) V_applied
    [T_commit (TO O_completed) Str_weak (TR R_weak_end_confirmed) false];
rule "R13n" Lane_current (From_states [F])
  [K_hold_expired] (Some G_hold_native_probe_report_only)
  To_same V_applied
    [T_release Rel_expired_hold;
     T_record (Note "native_probe_await_report_expired")];
rule "R13q" Lane_current (From_states [F])
  [K_hold_expired] (Some G_hold_queue_report_missing)
  To_same V_applied
    [T_release Rel_expired_hold;
     T_record (Note "queue_completion_report_missing");
     T_notify (TN N_candidate) (Some When_candidate_once) false];
rule "R13r" Lane_current (From_states [F])
  [K_hold_expired] (Some G_hold_await_report)
  (To St_completed) V_applied
    [T_commit (TO O_completed) Str_weak (TR R_weak_end_confirmed) false];
rule "R13u" Lane_current (From_states [F])
  [K_hold_expired] (Some G_hold_end_unconfirmed_defer)
  To_same V_applied
    [T_act Act_defer_unconfirmed_end;
     T_probe];
rule "R13x" Lane_current (From_states [F])
  [K_hold_expired] (Some G_hold_end_unconfirmed_exhausted)
  (To St_failed) V_applied
    [T_commit (TO O_failed) Str_weak (TR R_weak_end_liveness_unconfirmed) false];
rule "R13z" Lane_current (From_states [F])
  [K_hold_expired] (Some G_hold_end_probe_missing)
  (To St_failed) V_applied
    [T_commit (TO O_failed) Str_weak (TR R_weak_end_probe_unobserved) false];
rule "R13c" Lane_current From_nonterminal
  [K_hold_expired] (Some G_hold_report_correction)
  (To St_failed) V_applied
    [T_commit (TO O_failed) Str_weak (TR R_report_correction_expired) false];
rule "H0" Lane_current From_any
  [K_hold_expired] (Some G_otherwise)
  To_same V_recorded
    [T_record (Note "hold_stale")]
]%string.

Definition TRANSITIONS : list TransitionRule :=
TRANSITIONS_lanes ++
TRANSITIONS_dispatch ++
TRANSITIONS_start ++
TRANSITIONS_end ++
TRANSITIONS_report ++
TRANSITIONS_terminal ++
TRANSITIONS_session ++
TRANSITIONS_progress ++
TRANSITIONS_expiry.

(** ** Matching a rule's states *)

Definition NONTERMINAL : list TurnState := [A; D; C; G; S; F].
Definition TERMINAL : list TurnState := [St_completed; St_blocked; St_failed; St_cancelled].

(** Does a rule's [from] admit this state ([None] = no attempt)? *)
Definition ruleAdmitsState (from : RuleFrom) (state : option TurnState) : bool :=
match state, from with
| None, From_none => true
| None, _ => false
| Some _, From_none => false
| Some _, From_any => true
| Some s, From_nonterminal => bool_decide (s ∈ NONTERMINAL)
| Some s, From_terminal => bool_decide (s ∈ TERMINAL)
| Some s, From_states l => bool_decide (s ∈ l)
end.

(** The rules of a lane that admit a state and an evidence kind. *)
Definition laneCandidates (lane : RuleLane) (state : option TurnState) (kind : TurnEvidenceKind)
  : list TransitionRule :=
List.filter (fun r => bool_decide (r_lane r = lane) && ruleAdmitsState (r_from r) state
  && bool_decide (kind ∈ r_on r)) TRANSITIONS.

End Table.
