(* ===== verification/Guards.v ===== *)
(** * Lanes, guards and rule matching

    The deciding half of [packages/daemon-core/src/mesh/turn-ledger/reducer.ts]:
    [classifyLane], the [GUARDS] table and [matchingRules]. *)

From S2P Require Import Prelude TurnEvidence TurnPolicy TurnTypes Admission Transitions.

(** ** Inputs *)

Record ReduceInput : Set := {
  in_stopConfirmed : bool;
  in_writerUnreachable : option SettledBy;
  in_attempt : option TurnAttempt;
  in_holds : list TurnHold;
  in_evidence : TurnEvidence;
  in_policy : TurnPolicy;
  in_nowMs : Z }.

(** Evidence kinds produced by the worker session itself. *)
Definition SESSION_PRODUCED_KINDS : list TurnEvidenceKind :=
  [K_turn_started; K_suspension; K_suspension_resolved; K_turn_end; K_transcript_final;
   K_transcript_activity; K_no_progress; K_process_exit; K_session_error; K_worker_report;
   K_worker_progress; K_liveness].

(** ** Lanes *)

Inductive LaneResult : Set :=
| Lane (lane : RuleLane) (effectiveGeneration : option Z)
| LaneRejected (r : ReduceRejection).

Definition find_hold (id : string) (holds : list TurnHold) : option TurnHold :=
  List.find (fun h => bool_decide (h_holdId h = id)) holds.

(** The scheduler's evidence takes its generation from the hold it names. *)
Definition classify_hold_expired (a : TurnAttempt) (ref : option TurnAttemptRef) (hold : option TurnHold)
    : LaneResult :=
  let generation :=
    match ref with
    | Some r => Some (ref_generation r)
    | None => match hold with Some h => h_generation h | None => None end
    end in
  if match ref with Some r => bool_decide (ref_attemptId r ≠ a_attemptId a) | None => false end
  then LaneRejected Rj_attempt_mismatch else
  match generation with
  | Some g => if bool_decide (g ≠ a_generation a) then Lane Lane_stale (Some g)
              else Lane Lane_current (Some (a_generation a))
  | None => Lane Lane_current (Some (a_generation a))
  end.

(** A liveness observation made before the attempt's session was rebound. *)
Definition liveness_before_cut (a : TurnAttempt) (ev : TurnEvidence) : bool :=
  match ev_body ev, d_livenessSessionCut (a_data a) with
  | liveness _ started, Some cut =>
      bool_decide (lc_generation cut = a_generation a)
      && bool_decide (match e_attemptRef ev with
                      | Some r => ref_generation r
                      | None => a_generation a
                      end = a_generation a)
      && ((e_at ev <? lc_at cut) || (nullish started (e_at ev) <? lc_at cut))
  | _, _ => false
  end.

Definition classifyLane (attempt : option TurnAttempt) (ev : TurnEvidence) (holds : list TurnHold)
    : LaneResult :=
  match attempt with
  | None => Lane Lane_none None
  | Some a =>
      match ev_body ev with
      | hold_expired holdId _ => classify_hold_expired a (e_attemptRef ev) (find_hold holdId holds)
      | _ =>
          if liveness_before_cut a ev then LaneRejected Rj_session_mismatch else
          let sessionProduced := bool_decide (ev_kind ev ∈ SESSION_PRODUCED_KINDS) in
          let same := sessionIdsEquivalent (e_sessionId ev) (a_sessionId a) in
          match e_attemptRef ev with
          | Some ref =>
              if bool_decide (ref_attemptId ref ≠ a_attemptId a) then LaneRejected Rj_attempt_mismatch else
              if bool_decide (ref_generation ref ≠ a_generation a)
              then Lane Lane_stale (Some (ref_generation ref)) else
              if sessionProduced && negb same then LaneRejected Rj_session_mismatch else
              Lane Lane_current (Some (ref_generation ref))
          | None =>
              if negb sessionProduced then Lane Lane_current (Some (a_generation a)) else
              if same then Lane Lane_current (Some (a_generation a)) else
              match a_prevGeneration a with
              | Some prev =>
                  if sessionIdsEquivalent (e_sessionId ev) (pg_sessionId prev)
                  then Lane Lane_stale (Some (a_generation a - 1))
                  else LaneRejected Rj_session_mismatch
              | None => LaneRejected Rj_session_mismatch
              end
          end
      end
  end.

(** ** Guard context *)

Record GuardCtx : Set := {
  c_attempt : option TurnAttempt;
  c_holds : list TurnHold;
  c_evidence : TurnEvidence;
  c_policy : TurnPolicy;
  c_nowMs : Z;
  c_effectiveGeneration : option Z }.

(** [{ ...input, effectiveGeneration }]. *)
Definition ctx_of (i : ReduceInput) (eff : option Z) : GuardCtx :=
  {| c_attempt := in_attempt i; c_holds := in_holds i; c_evidence := in_evidence i;
     c_policy := in_policy i; c_nowMs := in_nowMs i; c_effectiveGeneration := eff |}.

Definition isMeshScope (a : TurnAttempt) : bool := bool_decide (a_scope a ≠ Sc_plain).

(** A property of the attempt, false when there is none. *)
Definition attempt_is (ctx : GuardCtx) (P : TurnAttempt -> bool) : bool :=
  match c_attempt ctx with Some a => P a | None => false end.

Definition scope_is (ctx : GuardCtx) (s : TurnScope) : bool :=
  attempt_is ctx (fun a => bool_decide (a_scope a = s)).

Definition admissionOf (ctx : GuardCtx) : option EvidenceAdmission :=
  match ev_body (c_evidence ctx) with
  | transcript_final b => Some (admitTranscriptFinal (c_evidence ctx) b (c_policy ctx))
  | turn_end b => Some (admitTurnEnd (c_evidence ctx) b (c_policy ctx))
  | _ => None
  end.

(** [admissionOf(ctx)?.kind === ...]. *)
Definition adm_strong (ctx : GuardCtx) : bool :=
  match admissionOf ctx with Some Adm_strong => true | _ => false end.
Definition adm_weak (ctx : GuardCtx) : bool :=
  match admissionOf ctx with Some Adm_weak => true | _ => false end.
Definition adm_hold (ctx : GuardCtx) : bool :=
  match admissionOf ctx with Some (Adm_hold _ _) => true | _ => false end.
Definition adm_decline (ctx : GuardCtx) : bool :=
  match admissionOf ctx with Some (Adm_decline _) => true | _ => false end.

Definition expiredHold (ctx : GuardCtx) : option TurnHold :=
  match ev_body (c_evidence ctx) with
  | hold_expired holdId reason =>
      match find_hold holdId (c_holds ctx) with
      | Some hold =>
          if bool_decide (h_reason hold ≠ reason)
             || attempt_is ctx (fun a => bool_decide (h_attemptId hold ≠ a_attemptId a))
          then None else Some hold
      | None => None
      end
  | _ => None
  end.

Definition holdIs (ctx : GuardCtx) (reasons : list HoldReason) : bool :=
  match expiredHold ctx with
  | Some hold => bool_decide (h_reason hold ∈ reasons)
  | None => false
  end.

Definition activityAt (ev : TurnEvidence) : Z :=
  match ev_body ev with transcript_activity newest => newest | _ => e_at ev end.

Definition afterWeakSince (ctx : GuardCtx) : bool :=
  attempt_is ctx (fun a =>
    match a_weakSince a with Some since => since <? activityAt (c_evidence ctx) | None => false end).

Definition turnEnd (ctx : GuardCtx) : option TurnEnd :=
  match ev_body (c_evidence ctx) with turn_end b => Some b | _ => None end.

Definition nativeFailed (e : TurnEnd) : bool := bool_decide (te_nativeOutcome e = Some No_failed).

(** A turn end that is not stamped as a provider failure. *)
Definition completionEnd (ctx : GuardCtx) : option TurnEnd :=
  match turnEnd ctx with
  | Some e => if negb (present (te_providerFailure e)) && negb (nativeFailed e) then Some e else None
  | None => None
  end.

(** [const e = completionEnd(ctx); return !!e && P(e)]. *)
Definition end_is (ctx : GuardCtx) (P : TurnEnd -> bool) : bool :=
  match completionEnd ctx with Some e => P e | None => false end.

Definition notHeld (ctx : GuardCtx) : bool := negb (adm_hold ctx).

Definition genuine (e : TurnEnd) : bool := bool_decide (te_strength e = Es_genuine).
Definition weak (e : TurnEnd) : bool := bool_decide (te_strength e = Es_weak).
Definition hollow (e : TurnEnd) : bool := opt_true (te_hollow e).

Definition reportAwaitedEnd (ctx : GuardCtx) : bool :=
  end_is ctx (fun e => genuine e && negb (hollow e) && opt_true (te_reportExpected e)
    && attempt_is ctx isMeshScope).

Definition reported (a : TurnAttempt) : bool :=
  match d_report (a_data a) with
  | Some r => bool_decide (rr_generation r = a_generation a)
  | None => false
  end.

Definition reportedThisGeneration (ctx : GuardCtx) : bool := attempt_is ctx reported.

(** Some hold of this attempt has the reason. *)
Definition attempt_hold (ctx : GuardCtx) (r : HoldReason) : bool :=
  List.existsb (fun h => bool_decide (h_reason h = r)
    && match c_attempt ctx with
       | Some a => bool_decide (h_attemptId h = a_attemptId a)
       | None => true
       end) (c_holds ctx).

Definition exitAfterReport (ctx : GuardCtx) : bool :=
  match ev_body (c_evidence ctx) with
  | process_exit _ failure =>
      negb (present failure) && reportedThisGeneration ctx && attempt_hold ctx H_await_end
  | _ => false
  end.

Definition finishedAfterReport (ctx : GuardCtx) : bool :=
  reportedThisGeneration ctx &&
  match ev_body (c_evidence ctx) with
  | turn_end _ | transcript_final _ => adm_strong ctx || adm_weak ctx || adm_decline ctx
  | no_progress _ _ finalAssistantPresent => finalAssistantPresent
  | _ => false
  end.

Definition is_transcript_final (ctx : GuardCtx) : bool :=
  bool_decide (ev_kind (c_evidence ctx) = K_transcript_final).

Definition finalWeak (ctx : GuardCtx) : bool :=
  is_transcript_final ctx && adm_weak ctx && negb (reportedThisGeneration ctx).

Definition OWNER_SCRAPE_SOURCES : list EvidenceSourceId := [Src_coordinator_probe; Src_mcp_probe].

Definition ownerScraped (ctx : GuardCtx) : bool :=
  bool_decide (e_source (c_evidence ctx) ∈ OWNER_SCRAPE_SOURCES).

Definition ownerScrapedMeshFinal (ctx : GuardCtx) : bool :=
  is_transcript_final ctx && ownerScraped ctx && attempt_is ctx isMeshScope.

Definition ownerProbedQueueNativeCompletion (ctx : GuardCtx) : bool :=
  match ev_body (c_evidence ctx) with
  | transcript_final b =>
      tf_nativeRead b
      && match tf_nativeMarker b with
         | Some m => bool_decide (nm_outcome m = No_completed)
         | None => false
         end
      && ownerScraped ctx && scope_is ctx Sc_mesh_queue && adm_strong ctx
  | _ => false
  end.

Definition awaitReportHeld (ctx : GuardCtx) : bool :=
  present (c_attempt ctx) && attempt_hold ctx H_await_report.

(** The observation window of an end timer. *)
Definition freshEndProbe (ctx : GuardCtx) : bool :=
  attempt_is ctx (fun a =>
    let expired := h_createdAt <$> expiredHold ctx in
    let boundary :=
      match d_unconfirmedEndDeferral (a_data a) with
      | Some req =>
          if bool_decide (ud_generation req = a_generation a)
          then nullish_or (ud_requestedAt req) expired else expired
      | None => expired
      end in
    let cut_at :=
      match d_livenessSessionCut (a_data a) with
      | Some cut => if bool_decide (lc_generation cut = a_generation a) then lc_at cut else 0
      | None => 0
      end in
    let since := Z.max (nullish boundary 0) cut_at in
    match d_livenessObservation (a_data a) with
    | Some o =>
        bool_decide (lo_generation o = a_generation a)
        && match lo_sessionId o with
           | Some s => truthy_str (Some s) && sessionIdsEquivalent s (a_sessionId a)
           | None => false
           end
        && present boundary
        && (since <=? lo_probeStartedAt o) && (since <=? lo_at o) && (lo_at o <=? c_nowMs ctx)
        && (c_nowMs ctx - lo_at o <=? endProbeGraceMs (c_policy ctx))
    | None => false
    end).

Definition correctionPending (ctx : GuardCtx) : bool :=
  match c_attempt ctx with
  | Some a =>
      match d_reportCorrection (a_data a) with
      | Some r => bool_decide (rc_generation r = a_generation a)
      | None => false
      end
  | None => true
  end && negb (reportedThisGeneration ctx).

Definition PINNED_FOLLOWUP_SETTLE_EVENT_PREFIX : string := "pinned_followup_supersede:".

Definition settleIdleReportOwed (ctx : GuardCtx) : bool :=
  match ev_body (c_evidence ctx) with
  | operator_status _ _ =>
      bool_decide (e_source (c_evidence ctx) = Src_scheduler)
      && String.prefix PINNED_FOLLOWUP_SETTLE_EVENT_PREFIX (e_eventId (c_evidence ctx))
      && scope_is ctx Sc_mesh_queue
      && attempt_is ctx (fun a => bool_decide (a_state a = St_finalizing)
                                  && negb (present (d_writerStop (a_data a))))
      && negb (reportedThisGeneration ctx)
  | _ => false
  end.

Definition queueReportMissing (ctx : GuardCtx) : bool :=
  scope_is ctx Sc_mesh_queue && holdIs ctx [H_await_report] && negb (reportedThisGeneration ctx).

(** [expiredHold(ctx)?.data.nativeProbeReportOnly === true]. *)
Definition nativeProbeReportOnly (ctx : GuardCtx) : bool :=
  match expiredHold ctx with
  | Some h => bool_decide (h_data h !! "nativeProbeReportOnly"%string = Some (SBool true))
  | None => false
  end.

Definition endTimer (ctx : GuardCtx) : bool :=
  holdIs ctx [H_weak_candidate; H_await_report] && negb (scope_is ctx Sc_mesh_direct)
  && negb (nativeProbeReportOnly ctx) && negb (correctionPending ctx) && negb (queueReportMissing ctx).

Definition freshAlive (ctx : GuardCtx) : bool :=
  freshEndProbe ctx && attempt_is ctx (fun a => bool_decide (a_lastLiveness a = Some Lv_alive)).

(** How many times an end expiry was already deferred in this generation. *)
Definition deferrals (a : TurnAttempt) : Z :=
  match d_unconfirmedEndDeferral (a_data a) with
  | Some d => if bool_decide (ud_generation d = a_generation a) && present (ud_requestedAt d)
              then ud_count d else 0
  | None => 0
  end.
Definition unconfirmedEndDeferrals (ctx : GuardCtx) : Z :=
  match c_attempt ctx with Some a => deferrals a | None => 0 end.

(** ** The guard table *)

Definition prev_generation_completion (ctx : GuardCtx) : bool :=
  attempt_is ctx (fun a =>
    match a_prevGeneration a with
    | Some prev =>
        bool_decide (c_effectiveGeneration ctx = Some (a_generation a - 1))
        && sessionIdsEquivalent (e_sessionId (c_evidence ctx)) (pg_sessionId prev)
        && match ev_body (c_evidence ctx) with
           | worker_report _ => true
           | turn_end e => genuine e && negb (hollow e) && negb (present (te_providerFailure e))
                           && negb (nativeFailed e)
           | transcript_final b =>
               match admitTranscriptFinal (c_evidence ctx) b (c_policy ctx) with
               | Adm_strong => negb (ownerProbedQueueNativeCompletion ctx)
               | _ => false
               end
           | _ => false
           end
    | None => false
    end).

Definition suspension_key (a : TurnAttempt) : option string :=
  match d_providerSuspension (a_data a) with Some ps => ps_modalKey ps | None => None end.

Definition stale_modal_resolution (ctx : GuardCtx) : bool :=
  match ev_body (c_evidence ctx) with
  | suspension_resolved _ _ key =>
      truthy_str key && attempt_is ctx (fun a => truthy_str (suspension_key a)
                                                 && bool_decide (key ≠ suspension_key a))
  | _ => false
  end.

Definition held_provider_setup (ctx : GuardCtx) : bool :=
  negb match ev_body (c_evidence ctx) with
       | suspension_resolved _ _ key =>
           truthy_str key
           && match c_attempt ctx with
              | Some a => bool_decide (key ≠ suspension_key a)
              | None => true
              end
       | _ => false
       end
  && attempt_is ctx (fun a =>
       match d_providerSuspension (a_data a) with
       | Some ps => opt_true (ps_providerSetup ps) && bool_decide (ps_generation ps = a_generation a)
                    && negb (present (ps_resolvedAt ps))
       | None => false
       end).

Definition confirmed_provider_setup (ctx : GuardCtx) : bool :=
  match ev_body (c_evidence ctx) with
  | suspension s => opt_true (su_providerSetup s) && truthy_str (su_modalKey s)
  | _ => false
  end.

Definition suspension_changed (ctx : GuardCtx) : bool :=
  match ev_body (c_evidence ctx) with
  | suspension s =>
      match c_attempt ctx with
      | Some a => bool_decide (a_suspension a ≠ Some (su_modal s))
                  || (truthy_str (su_modalKey s) && bool_decide (suspension_key a ≠ su_modalKey s))
      | None => true
      end
  | _ => false
  end.

Definition end_genuine (ctx : GuardCtx) : bool :=
  end_is ctx (fun e => genuine e && negb (hollow e) && notHeld ctx && negb (reportAwaitedEnd ctx)
    && negb (reportedThisGeneration ctx)).

Definition end_weak (ctx : GuardCtx) : bool :=
  end_is ctx (fun e => weak e && negb (opt_true (te_afterFinalizationTimeout e)) && negb (hollow e)
    && notHeld ctx && negb (reportedThisGeneration ctx)).

Definition final_strong (ctx : GuardCtx) : bool :=
  is_transcript_final ctx && adm_strong ctx && negb (ownerProbedQueueNativeCompletion ctx)
  && negb (reportedThisGeneration ctx).

Definition activity_keeps_state (ctx : GuardCtx) : bool :=
  let state_is l := attempt_is ctx (fun a => bool_decide (a_state a ∈ l)) in
  match ev_body (c_evidence ctx) with
  | liveness result _ => bool_decide (result = Lv_alive)
  | transcript_activity _ =>
      state_is [St_consumed; St_generating] || (state_is [St_finalizing] && negb (afterWeakSince ctx))
  | turn_started _ =>
      state_is [St_generating] || (state_is [St_finalizing] && negb (afterWeakSince ctx))
  | _ => false
  end.

Definition liveness_is (ctx : GuardCtx) (P : LivenessResult -> bool) : bool :=
  match ev_body (c_evidence ctx) with liveness r _ => P r | _ => false end.

(** [attempt!.livenessFailStreak + 1 >= LIVENESS_FAIL_STREAK_LIMIT]. *)
Definition streak_at_limit (ctx : GuardCtx) : bool :=
  attempt_is ctx (fun a => LIVENESS_FAIL_STREAK_LIMIT <=? a_livenessFailStreak a + 1).

Definition parked_suspension_observation (ctx : GuardCtx) : bool :=
  match ev_body (c_evidence ctx) with
  | no_progress _ status _ =>
      (bool_decide (status = Ob_waiting_approval) || bool_decide (status = Ob_waiting_choice))
      && attempt_is ctx (fun a =>
           present (a_suspension a)
           && match d_providerSuspension (a_data a) with
              | Some ps => bool_decide (ps_generation ps = a_generation a)
                           && negb (present (ps_resolvedAt ps))
              | None => false
              end)
  | _ => false
  end.

Definition process_exit_is (ctx : GuardCtx) (P : option ProviderFailure -> bool) : bool :=
  match ev_body (c_evidence ctx) with process_exit _ f => P f | _ => false end.

(** The guard table. [G_otherwise] is resolved by
    [matchingRules], never evaluated. *)
Definition GUARDS (g : GuardId) (ctx : GuardCtx) : bool :=
  let unreported := negb (reportedThisGeneration ctx) in
  match g with
  | G_otherwise => false
  | G_unbound => negb (present (e_attemptRef (c_evidence ctx))) && negb (truthy_str (e_taskId (c_evidence ctx)))
  | G_bound => present (e_attemptRef (c_evidence ctx)) || truthy_str (e_taskId (c_evidence ctx))
  | G_prev_generation_completion => prev_generation_completion ctx
  | G_stale_session_distinct =>
      attempt_is ctx (fun a => negb (sessionIdsEquivalent (e_sessionId (c_evidence ctx)) (a_sessionId a)))
  | G_reclaiming_refusal =>
      match ev_body (c_evidence ctx) with
      | delivery_refused _ reason => bool_decide (reason ∈ RECLAIMING_SEND_REFUSALS)
      | _ => false
      end
  | G_stale_modal_resolution => stale_modal_resolution ctx
  | G_held_provider_setup => held_provider_setup ctx
  | G_confirmed_provider_setup => confirmed_provider_setup ctx
  | G_suspension_changed => suspension_changed ctx
  | G_end_genuine => end_genuine ctx
  | G_end_report_awaited =>
      reportAwaitedEnd ctx && notHeld ctx && negb (awaitReportHeld ctx) && unreported
  | G_end_report_awaited_held =>
      reportAwaitedEnd ctx && notHeld ctx && awaitReportHeld ctx && unreported
  | G_final_strong_report_awaited =>
      is_transcript_final ctx && adm_strong ctx && awaitReportHeld ctx && unreported
  | G_finished_after_report => finishedAfterReport ctx
  | G_end_provider_failure =>
      match turnEnd ctx with
      | Some e => (present (te_providerFailure e) || nativeFailed e) && notHeld ctx && unreported
      | None => false
      end
  | G_false_idle_resumed =>
      bool_decide (ev_kind (c_evidence ctx) ∈ [K_turn_started; K_transcript_activity])
      && afterWeakSince ctx && awaitReportHeld ctx
  | G_end_weak => end_weak ctx
  | G_end_weak_after_timeout =>
      end_is ctx (fun e => weak e && opt_true (te_afterFinalizationTimeout e) && negb (hollow e)
        && notHeld ctx && unreported)
  | G_hollow_retry =>
      end_is ctx (fun e => hollow e && notHeld ctx && unreported
        && attempt_is ctx (fun a => a_hollowCount a <? a_maxTaskRetries a))
  | G_hollow_exhausted =>
      end_is ctx (fun e => hollow e && notHeld ctx && unreported
        && attempt_is ctx (fun a => a_maxTaskRetries a <=? a_hollowCount a))
  | G_final_strong => final_strong ctx
  | G_final_weak => finalWeak ctx && negb (ownerScrapedMeshFinal ctx)
  | G_final_weak_probe =>
      unreported && ((finalWeak ctx && ownerScrapedMeshFinal ctx) || ownerProbedQueueNativeCompletion ctx)
  | G_genuine_end_or_strong_final => end_genuine ctx || (final_strong ctx && negb (awaitReportHeld ctx))
  | G_weak_end_or_final =>
      end_weak ctx || finalWeak ctx
      || (ownerProbedQueueNativeCompletion ctx && negb (awaitReportHeld ctx))
  | G_admission_hold => adm_hold ctx
  | G_admission_decline => adm_decline ctx && unreported
  | G_after_weak_since => afterWeakSince ctx && negb (awaitReportHeld ctx)
  | G_activity_keeps_state => activity_keeps_state ctx
  | G_liveness_unknown => liveness_is ctx (fun r => bool_decide (r = Lv_unknown))
  | G_liveness_fatal =>
      liveness_is ctx (fun r => bool_decide (r = Lv_dead)
        || (bool_decide (r = Lv_read_failed) && streak_at_limit ctx))
  | G_liveness_failed_nonfatal =>
      liveness_is ctx (fun r => bool_decide (r = Lv_read_failed)
        && attempt_is ctx (fun a => a_livenessFailStreak a + 1 <? LIVENESS_FAIL_STREAK_LIMIT))
  | G_reported_terminal =>
      attempt_is ctx (fun a => match a_terminal a with
                               | Some t => bool_decide (t_strength t = Str_tool_report)
                               | None => false
                               end)
  | G_provider_failure => process_exit_is ctx present
  | G_no_provider_failure => process_exit_is ctx (fun f => negb (present f)) && negb (exitAfterReport ctx)
  | G_exit_after_report => exitAfterReport ctx
  | G_holder_is_this_attempt =>
      match ev_body (c_evidence ctx) with
      | duplicate_dispatch_refusal _ holder => bool_decide (holder = a_attemptId <$> c_attempt ctx)
      | _ => false
      end
  | G_parked_suspension_observation => parked_suspension_observation ctx
  | G_final_present =>
      match ev_body (c_evidence ctx) with
      | no_progress _ _ finalAssistantPresent => finalAssistantPresent && unreported
      | _ => false
      end
  | G_hold_await_delivery => holdIs ctx [H_await_delivery]
  | G_hold_await_consume_redrive =>
      holdIs ctx [H_await_consume]
      && attempt_is ctx (fun a => a_redriveCount a <? MAX_REDRIVES_PER_GENERATION)
  | G_hold_await_consume_exhausted =>
      holdIs ctx [H_await_consume]
      && attempt_is ctx (fun a => MAX_REDRIVES_PER_GENERATION <=? a_redriveCount a)
  | G_hold_await_turn => holdIs ctx [H_await_turn]
  | G_hold_liveness => holdIs ctx [H_liveness]
  | G_hold_hard_ceiling => holdIs ctx [H_hard_ceiling]
  | G_hold_suspension_before_consumed => holdIs ctx [H_suspension_before_consumed]
  | G_hold_direct_report_missing =>
      scope_is ctx Sc_mesh_direct && holdIs ctx [H_weak_candidate; H_await_report]
      && negb (correctionPending ctx) && unreported
  | G_hold_weak_candidate =>
      holdIs ctx [H_weak_candidate] && negb (scope_is ctx Sc_mesh_direct)
      && negb (correctionPending ctx) && freshAlive ctx
  | G_hold_admission => holdIs ctx [H_live_pending; H_transcript_quiet]
  | G_settle_idle_report_owed => settleIdleReportOwed ctx
  | G_hold_queue_report_missing =>
      queueReportMissing ctx && negb (nativeProbeReportOnly ctx) && negb (correctionPending ctx)
  | G_hold_await_report =>
      holdIs ctx [H_await_report] && negb (scope_is ctx Sc_mesh_direct)
      && negb (nativeProbeReportOnly ctx) && negb (correctionPending ctx)
      && negb (queueReportMissing ctx) && freshAlive ctx
  | G_hold_native_probe_report_only =>
      holdIs ctx [H_await_report] && negb (scope_is ctx Sc_mesh_direct)
      && nativeProbeReportOnly ctx && negb (correctionPending ctx) && unreported
  | G_hold_end_unconfirmed_defer =>
      endTimer ctx && negb (freshAlive ctx)
      && (unconfirmedEndDeferrals ctx <? MAX_UNCONFIRMED_END_DEFERRALS)
  | G_hold_end_unconfirmed_exhausted =>
      endTimer ctx && negb (freshAlive ctx)
      && (MAX_UNCONFIRMED_END_DEFERRALS <=? unconfirmedEndDeferrals ctx) && freshEndProbe ctx
  | G_hold_end_probe_missing =>
      endTimer ctx && negb (freshEndProbe ctx)
      && (MAX_UNCONFIRMED_END_DEFERRALS <=? unconfirmedEndDeferrals ctx)
  | G_hold_report_correction => holdIs ctx [H_report_correction] && unreported
  | G_hold_await_end => holdIs ctx [H_await_end] && reportedThisGeneration ctx
  end.

(** ** Matching *)

(** [rule.guard !== 'otherwise' && (!rule.guard || GUARDS[rule.guard](ctx))]. *)
Definition rule_specific (ctx : GuardCtx) (r : TransitionRule) : bool :=
  match r_guard r with
  | Some G_otherwise => false
  | Some g => GUARDS g ctx
  | None => true
  end.

Definition rule_otherwise (r : TransitionRule) : bool :=
  bool_decide (r_guard r = Some G_otherwise).

Definition select_rules (ctx : GuardCtx) (candidates : list TransitionRule) : list TransitionRule :=
  match List.filter (rule_specific ctx) candidates with
  | [] => List.filter rule_otherwise candidates
  | specific => specific
  end.

Definition matchingRules (input : ReduceInput) : list TransitionRule :=
  match classifyLane (in_attempt input) (in_evidence input) (in_holds input) with
  | LaneRejected _ => []
  | Lane lane eff =>
      select_rules (ctx_of input eff)
        (laneCandidates lane (a_state <$> in_attempt input) (ev_kind (in_evidence input)))
  end.
