(* ===== verification/Reducer.v ===== *)
(** * The reducer

    The applying half of [packages/daemon-core/src/mesh/turn-ledger/reducer.ts]:
    effect templates are run in order against a draft; [reduce] decides the lane,
    picks the rule and returns the next attempt, the active holds and the effects.

    A draft step is a [step Draft]: it fails ([None]) exactly where the source
    reads through a non-null assertion ([x!]) or a downcast of the evidence that
    does not hold. The source's [cloneAttempt] copies what the step mutates, so in
    this pure model it is the identity. *)

From stdpp Require Import pretty sorting.
From S2P Require Import Prelude TurnEvidence Vocabulary TurnPolicy TurnTypes Admission Transitions Guards.

#[local] Open Scope string_scope.
#[local] Open Scope Z_scope.

(** ** Drafts *)

Record Draft : Type := {
  dr_attempt : option TurnAttempt;
  dr_holds : jsmap TurnHold;
  dr_effects : list TurnEffect;
  dr_ctx : GuardCtx;
  dr_rule : TransitionRule;
  dr_committed : bool }.

Definition dr_ev (d : Draft) : TurnEvidence := c_evidence (dr_ctx d).
Definition dr_now (d : Draft) : Z := c_nowMs (dr_ctx d).

(** [const attempt = draft.attempt!; ...]. *)
Definition with_attempt (f : TurnAttempt -> step Draft) : step Draft :=
  fun d => match dr_attempt d with Some a => f a d | None => None end.

(** A read of the draft. *)
Definition reading (f : Draft -> step Draft) : step Draft := fun d => f d d.

Definition set_attempt (a : TurnAttempt) : step Draft := fun d => Some {| d with dr_attempt := Some a |}.

Definition modify (f : TurnAttempt -> TurnAttempt) : step Draft :=
  with_attempt (fun a => set_attempt (f a)).

Definition modify_data (f : TurnAttemptData -> TurnAttemptData) : step Draft :=
  modify (fun a => {| a with a_data := f (a_data a) |}).

Definition push (e : TurnEffect) : step Draft :=
  fun d => Some {| d with dr_effects := dr_effects d ++ [e] |}.

Definition when (b : bool) (f : step Draft) : step Draft := if b then f else skip.

(** A failed assertion. *)
Definition assertion_failure : step Draft := fun _ => None.

(** ** Holds *)

Definition holdId (attemptId : string) (r : HoldReason) : string :=
  attemptId ++ ":" ++ spell_HoldReason r.

(** The deadline of an [admission] hold. *)
Definition admission_until (d : Draft) : Z :=
  let ctx := dr_ctx d in
  match admissionOf ctx with
  | Some (Adm_hold _ hr) =>
      let live :=
        match ev_body (c_evidence ctx) with
        | transcript_final b => Some (tf_live b)
        | turn_end b => te_live b
        | _ => None
        end in
      admissionHoldUntil hr live (e_at (c_evidence ctx)) (c_policy ctx) (c_nowMs ctx)
  | _ => c_nowMs ctx
  end.

Definition resolveUntil (expr : UntilExpr) (a : TurnAttempt) (d : Draft) : option Z :=
  let policy := c_policy (dr_ctx d) in
  let nowMs := dr_now d in
  match expr with
  | U_none => None
  | U_await_delivery => Some (nowMs + awaitDeliveryMs policy)
  | U_await_consume => Some (nowMs + consumeGraceFor policy (a_consumeProfile a))
  | U_await_turn => Some (nowMs + noTurnDeadlineMs policy)
  | U_liveness => Some (nowMs + livenessDeadlineMs policy)
  | U_hard_ceiling => Some (nowMs + hardCeilingMs policy)
  | U_weak_confirm => Some (nowMs + weakConfirmMs policy)
  | U_await_report => Some (nowMs + awaitReportMs policy)
  | U_await_end => Some (nowMs + awaitEndMs policy)
  | U_unknown_grace => Some (nowMs + unknownLivenessGraceMs policy)
  | U_liveness_reprobe => Some (nowMs + livenessReArmMs policy (awaitReportHeld (dr_ctx d)))
  | U_admission => Some (admission_until d)
  end.

Definition addHold (hold : TurnHold) : step Draft :=
  fun d => Some {| d with dr_holds := map_set (h_holdId hold) hold (dr_holds d);
                          dr_effects := (dr_effects d ++ [E_hold hold])%list |}.

Definition releases (reasons : Reasons) (keep : list HoldReason) (h : TurnHold) : bool :=
  negb (bool_decide (h_reason h ∈ keep))
  && match reasons with All_reasons => true | Only_reasons l => bool_decide (h_reason h ∈ l) end.

(** The loop over the map's entries: matching ones are deleted, their reasons
    collected. *)
Definition release_loop (reasons : Reasons) (keep : list HoldReason) (entries : jsmap TurnHold)
    : jsmap TurnHold * list HoldReason :=
  fold_left (fun acc e =>
    if releases reasons keep e.2
    then (map_delete e.1 acc.1, (acc.2 ++ [h_reason e.2])%list) else acc)
    entries (entries, []).

Definition releaseHolds (reasons : Reasons) (keep : list HoldReason) : step Draft :=
  with_attempt (fun a d =>
    let r := release_loop reasons keep (dr_holds d) in
    match r.2 with
    | [] => Some {| d with dr_holds := r.1 |}
    | released =>
        let named := match reasons, keep with
                     | All_reasons, [] => All_reasons
                     | _, _ => Only_reasons released
                     end in
        Some {| d with dr_holds := r.1;
                       dr_effects := (dr_effects d ++ [E_release_hold (a_attemptId a) named])%list |}
    end).

(** ** Notices and texts *)

Record NotifyOpts : Set := {
  no_generation : option Z; no_summary : option SummaryRef; no_textEventId : option string }.
Definition no_opts : NotifyOpts :=
  {| no_generation := None; no_summary := None; no_textEventId := None |}.

Definition notify (kind : NotifyKind) (opts : NotifyOpts) : step Draft :=
  with_attempt (fun a =>
    if isMeshScope a then
      push (E_notify_coordinator {|
        nc_attemptId := a_attemptId a;
        nc_generation := nullish (no_generation opts) (a_generation a);
        nc_notify := kind;
        nc_taskId := a_taskId a;
        nc_coordinatorDaemonId := cd_daemonId (a_coordinator a);
        nc_coordinatorSessionId := cd_sessionId (a_coordinator a);
        nc_summary := no_summary opts;
        nc_textEventId := if truthy_str (no_textEventId opts) then no_textEventId opts else None |})
    else skip).

Definition TEXT_CARRYING_HOLDS : list HoldReason := [H_weak_candidate; H_await_report; H_await_end].

(** The text of a commit: a summary pointer and a local text event. *)
Record CommitText : Set := { ct_summary : option SummaryRef; ct_textEventId : option string }.
Definition no_text : CommitText := {| ct_summary := None; ct_textEventId := None |}.

Definition data_str (h : TurnHold) (k : string) : option string :=
  match h_data h !! k with Some (SStr s) => Some s | _ => None end.
Definition data_num (h : TurnHold) (k : string) : option Z :=
  match h_data h !! k with Some (SNum n) => Some n | _ => None end.

(** The text of the evidence that opened the expired hold. *)
Definition heldText (ctx : GuardCtx) : CommitText :=
  match expiredHold ctx with
  | Some hold =>
      if bool_decide (h_reason hold ∈ TEXT_CARRYING_HOLDS) then
        {| ct_summary :=
             match data_str hold "summaryTopic", data_str hold "summaryWriter",
                   data_num hold "summarySeq" with
             | Some t, Some w, Some n => Some {| sum_topic := t; sum_writer := w; sum_seq := n |}
             | _, _, _ => None
             end;
           ct_textEventId :=
             if truthy_str (data_str hold "textEventId") then data_str hold "textEventId" else None |}
      else no_text
  | None => no_text
  end.

Definition summaryOf (ev : TurnEvidence) : option SummaryRef :=
  match ev_body ev with
  | turn_end b => te_summary b
  | transcript_final b => tf_summary b
  | worker_report b => wr_summary b
  | _ => None
  end.

Definition recordedReportText (a : TurnAttempt) : CommitText :=
  match d_report (a_data a) with
  | Some r => {| ct_summary := rr_summary r; ct_textEventId := Some (rr_eventId r) |}
  | None => no_text
  end.

Definition text_of_terminal (t : StopTerminal) : CommitText :=
  {| ct_summary := st_summary t; ct_textEventId := st_textEventId t |}.

(** ** Writer stop *)

Definition WRITER_STOP_RETRY_MS : Z := 30000.
Definition WRITER_STOP_MAX_TRIES : Z := 3.

(** [attempt.data.writerStop!]. *)
Definition with_stop (f : TurnAttempt -> WriterStop -> step Draft) : step Draft :=
  with_attempt (fun a => match d_writerStop (a_data a) with
                         | Some stop => f a stop
                         | None => assertion_failure
                         end).

Definition set_stop (stop : WriterStop) : step Draft :=
  modify_data (fun data => {| data with d_writerStop := Some stop |}).

Definition update_stop (f : WriterStop -> WriterStop) : step Draft :=
  with_stop (fun _ stop => set_stop (f stop)).

Definition requestWriterStop : step Draft :=
  with_stop (fun a stop => reading (fun d =>
    push (E_cancel_dispatch (a_attemptId a) (a_generation a) (a_sessionId a) (a_messageId a) None
            (Some (ws_requestId stop))) ;;;
    addHold {|
      h_holdId := holdId (a_attemptId a) H_liveness; h_attemptId := a_attemptId a;
      h_generation := Some (a_generation a); h_reason := H_liveness;
      h_until := Some (dr_now d + WRITER_STOP_RETRY_MS); h_onExpire := Ox_escalate;
      h_data := ∅; h_createdAt := dr_now d |})).

Definition beginWriterStop (reason : TurnReason) : step Draft :=
  with_attempt (fun a =>
    if present (d_writerStop (a_data a)) then skip else
    reading (fun d =>
      modify (fun a => {| a with a_state := St_stopping |}) ;;;
      set_stop {|
        ws_requestId := e_eventId (dr_ev d) ++ ":writer-stop"; ws_reason := reason;
        ws_requestedAt := dr_now d; ws_tries := 1; ws_escalated := false;
        ws_confirmed := None; ws_settledBy := None; ws_terminal := None |} ;;;
      releaseHolds All_reasons (if bool_decide (reason = R_hard_ceiling) then [] else [H_hard_ceiling]) ;;;
      requestWriterStop)).

(** ** Commit *)

Definition stop_confirmed (a : TurnAttempt) : bool :=
  match d_writerStop (a_data a) with Some s => opt_true (ws_confirmed s) | None => false end.

(** Does this commit first have to stop the writer? *)
Definition commit_needs_stop (ctx : GuardCtx) (a : TurnAttempt) (reason : TurnReason) : bool :=
  isMeshScope a && negb (stop_confirmed a) && negb (settleIdleReportOwed ctx)
  && (bool_decide (reason = R_hard_ceiling)
      || bool_decide (ev_kind (c_evidence ctx) ∈
           [K_cancel; K_operator_status; K_session_error; K_process_exit])).

(** [attempt.meshId && attempt.taskId]. *)
Definition queue_row (a : TurnAttempt) : option (string * string) :=
  match a_meshId a, a_taskId a with
  | Some m, Some t => if truthy_str (Some m) && truthy_str (Some t) then Some (m, t) else None
  | _, _ => None
  end.

(** The commit that starts a writer stop and records the verdict to settle with. *)
Definition commit_stopping (outcome : TurnOutcome) (strength : CommitStrength) (reason : TurnReason)
    (text : option CommitText) : step Draft :=
  reading (fun d =>
    let ev := dr_ev d in
    beginWriterStop reason ;;;
    update_stop (fun stop => {| stop with ws_terminal := Some {|
      st_outcome := outcome; st_strength := strength; st_adoptSessionId := None;
      st_summary := match text with Some t => ct_summary t | None => summaryOf ev end;
      st_textEventId := Some (match text with
                              | Some t => nullish (ct_textEventId t) (e_eventId ev)
                              | None => e_eventId ev
                              end);
      st_source := Some (e_source ev) |} |})).

(** The terminal write: attempt columns, then the effects in the source's order. *)
Definition commit_terminal (outcome : TurnOutcome) (strength : CommitStrength) (reason : TurnReason)
    (text : option CommitText) : step Draft :=
  with_attempt (fun a => reading (fun d =>
    let ev := dr_ev d in
    let held := match text with Some t => t | None => heldText (dr_ctx d) end in
    let summary := match text with
                   | Some t => ct_summary t
                   | None => nullish_or (summaryOf ev) (ct_summary held)
                   end in
    let source := match d_writerStop (a_data a) with
                  | Some stop => match ws_terminal stop with
                                 | Some t => nullish (st_source t) (e_source ev)
                                 | None => e_source ev
                                 end
                  | None => e_source ev
                  end in
    let attemptOnly := bool_decide (reason = R_superseded) && bool_decide (a_scope a = Sc_mesh_queue) in
    set_attempt {| a with
      a_state := state_of_outcome outcome;
      a_suspension := None;
      a_terminal := Some {| t_outcome := outcome; t_reason := reason; t_source := source;
                            t_strength := strength; t_at := e_at ev; t_summary := summary |} |} ;;;
    push (E_commit (a_attemptId a) (a_generation a) outcome strength reason source summary) ;;;
    releaseHolds All_reasons [] ;;;
    match queue_row a with
    | Some (m, t) => when (attemptOnly && stop_confirmed a) (push (E_queue_status m t Q_pending reason))
    | None => skip
    end ;;;
    match queue_row a with
    | Some (m, t) =>
        when (isMeshScope a && negb attemptOnly)
          (push (E_queue_status m t (Q_outcome outcome) reason) ;;; push (E_task_terminal m t outcome))
    | None => skip
    end ;;;
    push (E_bus {| be_phase := Ph_committed; be_sessionId := a_sessionId a;
                   be_attemptId := a_attemptId a; be_generation := a_generation a;
                   be_outcome := Some outcome; be_strength := Some strength |}) ;;;
    when (negb attemptOnly)
      (notify (notify_of_outcome outcome)
         {| no_generation := None; no_summary := summary; no_textEventId := ct_textEventId held |}) ;;;
    push (E_release_attempt_ref (a_attemptId a) (a_sessionId a)) ;;;
    (fun d => Some {| d with dr_committed := true |}))).

Definition commit (outcome : TurnOutcome) (strength : CommitStrength) (reason : TurnReason)
    (text : option CommitText) : step Draft :=
  with_attempt (fun a => reading (fun d =>
    if commit_needs_stop (dr_ctx d) a reason
    then commit_stopping outcome strength reason text
    else commit_terminal outcome strength reason text)).

(** ** Reclaim *)

(** The addressed host refused before starting: the exact, unobserved direct
    attempt fails at once. *)
Definition unstarted_direct_refusal (a : TurnAttempt) (ev : TurnEvidence) : bool :=
  bool_decide (a_scope a = Sc_mesh_direct) && bool_decide (a_state a = St_accepted)
  && negb (present (a_deliveredAt a)) && negb (present (a_consumedAt a))
  && negb (present (a_lastActivityAt a)) && negb (present (a_lastLiveness a))
  && bool_decide (a_redriveCount a = 0) && bool_decide (a_reclaimCount a = 0)
  && negb (present (d_writerStop (a_data a))) && negb (present (d_report (a_data a)))
  && match ev_body ev with
     | dispatch_failed workerAbsent reason refusalCode =>
         bool_decide (e_source ev = Src_dispatch)
         && match e_attemptRef ev with
            | Some r => bool_decide (ref_attemptId r = a_attemptId a)
                        && bool_decide (ref_generation r = a_generation a)
            | None => false
            end
         && sessionIdsEquivalent (e_sessionId ev) (a_sessionId a)
         && negb workerAbsent
         && bool_decide (reason = Df_rejected_by_worker)
         && bool_decide (refusalCode = Some "dispatch_not_started")
     | _ => false
     end.

(** The next generation of a settled queue attempt. *)
Definition next_generation (a : TurnAttempt) : TurnAttempt := {| a with
  a_prevGeneration := Some {| pg_sessionId := a_sessionId a; pg_consumed := present (a_consumedAt a) |};
  a_generation := a_generation a + 1;
  a_reclaimCount := a_reclaimCount a + 1;
  a_state := St_accepted;
  a_suspension := None;
  a_deliveredAt := None;
  a_consumedAt := None;
  a_weakSince := None;
  a_redriveCount := 0;
  a_livenessFailStreak := 0;
  a_lastLiveness := None;
  a_data := {| (a_data a) with d_writerStop := None |} |}.

Definition advance_generation (reason : TurnReason) : step Draft :=
  with_attempt (fun a => reading (fun d =>
    let a' := next_generation a in
    set_attempt a' ;;;
    push (E_reclaim (a_attemptId a) (a_generation a) (a_generation a') reason) ;;;
    releaseHolds All_reasons [H_hard_ceiling] ;;;
    match queue_row a' with
    | Some (m, t) => when (bool_decide (a_scope a' = Sc_mesh_queue))
                       (push (E_queue_status m t Q_pending reason))
    | None => skip
    end ;;;
    addHold {|
      h_holdId := holdId (a_attemptId a') H_await_delivery; h_attemptId := a_attemptId a';
      h_generation := Some (a_generation a'); h_reason := H_await_delivery;
      h_until := Some (dr_now d + awaitDeliveryMs (c_policy (dr_ctx d))); h_onExpire := Ox_reclaim;
      h_data := ∅; h_createdAt := dr_now d |})).

Definition reclaim (reason : TurnReason) : step Draft :=
  with_attempt (fun a => reading (fun d =>
    if bool_decide (a_scope a = Sc_plain) then commit O_failed Str_genuine reason None else
    if unstarted_direct_refusal a (dr_ev d) then commit O_failed Str_genuine R_dispatch_failed None else
    if negb (stop_confirmed a) then beginWriterStop reason else
    if bool_decide (a_scope a = Sc_mesh_direct) then commit O_failed Str_genuine reason None else
    if RECLAIM_BUDGET <=? a_reclaimCount a
    then commit O_failed Str_genuine R_reclaim_budget_exhausted None
    else advance_generation reason)).

(** ** Settling a stop *)

Definition settle_with (t : StopTerminal) (reason : TurnReason) : step Draft :=
  commit (st_outcome t) (st_strength t) reason (Some (text_of_terminal t)).

Definition scheduler_failure : StopTerminal := {|
  st_outcome := O_failed; st_strength := Str_genuine; st_adoptSessionId := None;
  st_summary := None; st_textEventId := None; st_source := Some Src_scheduler |}.

Definition settleUnreachableWriter (by_ : SettledBy) : step Draft :=
  update_stop (fun stop => {| stop with ws_confirmed := Some true; ws_settledBy := Some by_ |}) ;;;
  with_stop (fun _ stop =>
    match ws_terminal stop with
    | Some t =>
        if bool_decide (st_outcome t ≠ O_failed) then settle_with t (ws_reason stop) else
        update_stop (fun stop => {| stop with ws_terminal := Some scheduler_failure |}) ;;;
        settle_with scheduler_failure R_writer_unreachable
    | None =>
        update_stop (fun stop => {| stop with ws_terminal := Some scheduler_failure |}) ;;;
        settle_with scheduler_failure R_writer_unreachable
    end).

(** The current generation's report, when it arrived after the stop began. *)
Definition reportHeldDuringStop (a : TurnAttempt) : option RecordedReport :=
  match d_report (a_data a), d_writerStop (a_data a) with
  | Some report, Some stop =>
      if bool_decide (rr_generation report = a_generation a) && (ws_requestedAt stop <=? rr_at report)
      then Some report else None
  | _, _ => None
  end.

Definition adoptReportHeldDuringStop : step Draft :=
  with_stop (fun a stop =>
    match reportHeldDuringStop a with
    | None => skip
    | Some report =>
        let stands := match ws_terminal stop with
                      | Some t => truthy_str (st_adoptSessionId t)
                                  || bool_decide (st_source t ≠ Some Src_scheduler)
                      | None => false
                      end in
        if stands then skip else
        set_stop {| stop with
          ws_reason := R_worker_reported;
          ws_terminal := Some {|
            st_outcome := outcome_of_report (rr_outcome report); st_strength := Str_tool_report;
            st_adoptSessionId := None; st_summary := rr_summary report;
            st_textEventId := Some (rr_eventId report); st_source := Some Src_worker_tool |} |}
    end).

(** ** Actions *)

Definition bindLivenessSession (sessionId : string) (rebound : bool) : step Draft :=
  with_attempt (fun a => reading (fun d =>
    when (rebound || negb (sessionIdsEquivalent (a_sessionId a) sessionId))
      (modify (fun a => {| a with
         a_lastLiveness := None;
         a_livenessFailStreak := 0;
         a_data := {| (a_data a) with
           d_livenessObservation := None;
           d_livenessSessionCut := Some {|
             lc_generation := a_generation a; lc_at := dr_now d;
             lc_revision := match d_livenessSessionCut (a_data a) with
                            | Some cut => lc_revision cut
                            | None => 0
                            end + 1 |} |} |})) ;;;
    modify (fun a => {| a with a_sessionId := sessionId |}))).

Definition act_open_dispatch : step Draft := fun d =>
  let ev := dr_ev d in
  match ev_body ev with
  | dispatch_accepted b =>
      let id := match e_attemptRef ev with
                | Some r => ref_attemptId r
                | None => spell_TurnScope (da_scope b) ++ ":" ++ e_eventId ev
                end in
      let fresh := newAttempt ev id (da_scope b) in
      set_attempt {| fresh with
        a_meshId := da_meshId b;
        a_attemptNo := nullish (da_attemptNo b) 0;
        a_nodeId := da_nodeId b;
        a_providerType := da_providerType b;
        a_dispatchNonce := da_dispatchNonce b;
        a_messageId := Some (da_messageId b);
        a_consumeProfile := nullish (da_consumeProfile b) Cp_default;
        a_maxTaskRetries := nullish (da_maxTaskRetries b) DEFAULT_MAX_TASK_RETRIES;
        a_coordinator := {| cd_daemonId := co_daemonId <$> da_coordinator b;
                            cd_sessionId := da_coordinator b ≫= co_sessionId |} |} d
  | _ => None
  end.

Definition act_rebind_dispatch : step Draft := reading (fun d =>
  match ev_body (dr_ev d) with
  | dispatch_accepted b =>
      bindLivenessSession (e_sessionId (dr_ev d)) false ;;;
      modify (fun a => {| a with
        a_nodeId := if truthy_str (da_nodeId b) then da_nodeId b else a_nodeId a;
        a_providerType := if truthy_str (da_providerType b) then da_providerType b else a_providerType a;
        a_dispatchNonce := nullish_or (da_dispatchNonce b) (a_dispatchNonce a);
        a_messageId := Some (da_messageId b) |})
  | _ => assertion_failure
  end).

Definition act_open_plain : step Draft := fun d =>
  let ev := dr_ev d in
  set_attempt (newAttempt ev ("plain:" ++ e_sessionId ev ++ ":" ++ e_eventId ev) Sc_plain) d.

Definition act_mark_delivered : step Draft := reading (fun d =>
  match ev_body (dr_ev d) with
  | delivered messageId _ _ =>
      modify (fun a => {| a with a_deliveredAt := nullish_or (a_deliveredAt a) (Some (e_at (dr_ev d))) |}) ;;;
      bindLivenessSession (e_sessionId (dr_ev d)) false ;;;
      modify (fun a => {| a with a_messageId := Some messageId |})
  | _ => assertion_failure
  end).

Definition act_consume : step Draft := reading (fun d =>
  let at_ := Some (e_at (dr_ev d)) in
  modify (fun a => {| a with
    a_deliveredAt := nullish_or (a_deliveredAt a) at_;
    a_consumedAt := nullish_or (a_consumedAt a) at_;
    a_lastActivityAt := at_ |})).

(** [held.data.suspendedAt === null ? null : Number(held.data.suspendedAt ??
    held.createdAt)]; a string there is no suspension time. *)
Definition held_suspended_at (held : TurnHold) : option (option Z) :=
  match h_data held !! "suspendedAt" with
  | Some SNull => Some None
  | Some (SNum n) => Some (Some n)
  | Some (SBool b) => Some (Some (if b then 1 else 0))
  | Some (SStr _) => None
  | None => Some (Some (h_createdAt held))
  end.

Definition act_apply_held_suspension : step Draft :=
  with_attempt (fun a => reading (fun d =>
    match map_get (holdId (a_attemptId a) H_suspension_before_consumed) (dr_holds d) with
    | None => skip
    | Some held =>
        let modal := if bool_decide (h_data held !! "modal" = Some (SStr "choice"))
                     then Mod_choice else Mod_approval in
        match held_suspended_at held with
        | None => assertion_failure
        | Some at_ =>
            modify_data (fun data => {| data with d_providerSuspension := Some {|
              ps_generation := a_generation a;
              ps_modalKey := data_str held "modalKey";
              ps_providerSetup := Some (bool_decide (h_data held !! "providerSetup" = Some (SBool true)));
              ps_at := at_; ps_resolvedAt := None; ps_reminders := None; ps_lastReminderAt := None |} |}) ;;;
            releaseHolds (Only_reasons [H_suspension_before_consumed]) [] ;;;
            modify (fun a => {| a with a_state := St_suspended; a_suspension := Some modal |}) ;;;
            push (E_bus {| be_phase := Ph_suspended; be_sessionId := a_sessionId a;
                           be_attemptId := a_attemptId a; be_generation := a_generation a;
                           be_outcome := None; be_strength := None |}) ;;;
            notify (notify_of_modal modal) no_opts
        end
    end)).

Definition act_suspend : step Draft := reading (fun d =>
  match ev_body (dr_ev d) with
  | suspension s =>
      modify (fun a => {| a with
        a_suspension := Some (su_modal s);
        a_weakSince := None;
        a_data := {| (a_data a) with d_providerSuspension := Some {|
          ps_generation := a_generation a; ps_modalKey := su_modalKey s;
          ps_providerSetup := Some (opt_true (su_providerSetup s));
          ps_at := if opt_true (su_clockUnknown s) then None else Some (e_at (dr_ev d));
          ps_resolvedAt := None; ps_reminders := None; ps_lastReminderAt := None |} |} |})
  | _ => assertion_failure
  end).

(** Stamp the current generation's suspension as resolved. *)
Definition resolve_suspension (only_open : bool) (at_ : Z) (a : TurnAttempt) : TurnAttempt :=
  match d_providerSuspension (a_data a) with
  | Some ps =>
      if bool_decide (ps_generation ps = a_generation a)
         && (negb only_open || negb (present (ps_resolvedAt ps)))
      then {| a with a_data := {| (a_data a) with
             d_providerSuspension := Some {| ps with ps_resolvedAt := Some at_ |} |} |}
      else a
  | None => a
  end.

Definition act_resume : step Draft := reading (fun d =>
  modify (fun a =>
    let a' := {| a with a_suspension := None |} in
    resolve_suspension false (e_at (dr_ev d)) a')).

Definition act_resume_by_activity : step Draft := reading (fun d =>
  modify (fun a =>
    let a' := resolve_suspension true (e_at (dr_ev d)) {| a with a_suspension := None |} in
    {| a' with a_lastActivityAt := Some (activityAt (dr_ev d)); a_livenessFailStreak := 0 |})).

(** [weak_candidate] and [await_report]: both stamp the weak edge. *)
Definition act_weak_candidate : step Draft := reading (fun d =>
  modify (fun a => {| a with
    a_weakSince := Some (e_at (dr_ev d));
    a_data := {| (a_data a) with d_unconfirmedEndDeferral := None |} |})).

Definition act_clear_weak : step Draft := modify (fun a => {| a with a_weakSince := None |}).

Definition act_await_report : step Draft := reading (fun d =>
  modify (fun a => {| a with
    a_weakSince := Some (e_at (dr_ev d));
    a_data := {| (a_data a) with d_unconfirmedEndDeferral := None |} |})).

Definition act_false_idle : step Draft := reading (fun d =>
  modify (fun a => {| a with
    a_weakSince := None;
    a_lastActivityAt := Some (Z.max (nullish (a_lastActivityAt a) 0) (activityAt (dr_ev d)));
    a_livenessFailStreak := 0;
    a_data := {| (a_data a) with
      d_unconfirmedEndDeferral := None;
      d_falseIdleCount := Some (nullish (d_falseIdleCount (a_data a)) 0 + 1) |} |})).

Definition observe_liveness (ev : TurnEvidence) (result : LivenessResult) (started : option Z)
    (a : TurnAttempt) : TurnAttempt := {| a with
  a_lastLiveness := Some result;
  a_data := {| (a_data a) with d_livenessObservation := Some {|
    lo_generation := a_generation a; lo_sessionId := Some (e_sessionId ev); lo_at := e_at ev;
    lo_probeStartedAt := nullish started (e_at ev) |} |} |}.

Definition act_activity : step Draft := reading (fun d =>
  modify (fun a =>
    let a' := {| a with
      a_lastActivityAt := Some (Z.max (nullish (a_lastActivityAt a) 0) (activityAt (dr_ev d)));
      a_livenessFailStreak := 0 |} in
    match ev_body (dr_ev d) with
    | liveness result started => observe_liveness (dr_ev d) result started a'
    | _ => a'
    end)).

Definition act_liveness_unknown : step Draft := reading (fun d =>
  match ev_body (dr_ev d) with
  | liveness _ started => modify (observe_liveness (dr_ev d) Lv_unknown started)
  | _ => assertion_failure
  end).

Definition act_liveness_failure : step Draft := reading (fun d =>
  match ev_body (dr_ev d) with
  | liveness result started =>
      modify (fun a => observe_liveness (dr_ev d) result started
        {| a with a_livenessFailStreak := a_livenessFailStreak a + 1 |})
  | _ => assertion_failure
  end).

Definition act_defer_unconfirmed_end : step Draft :=
  with_attempt (fun a => reading (fun d =>
    match expiredHold (dr_ctx d) with
    | None => skip
    | Some hold =>
        modify_data (fun data => {| data with d_unconfirmedEndDeferral := Some {|
          ud_generation := a_generation a; ud_count := deferrals a + 1;
          ud_requestedAt := Some (dr_now d) |} |}) ;;;
        addHold {| hold with
          h_until := Some (dr_now d + endProbeGraceMs (c_policy (dr_ctx d)));
          h_createdAt := dr_now d |}
    end)).

Definition act_open_report_correction : step Draft :=
  with_attempt (fun a => reading (fun d =>
    let opened := match d_reportCorrection (a_data a) with
                  | Some r => bool_decide (rc_generation r = a_generation a)
                  | None => false
                  end in
    if opened || reportedThisGeneration (dr_ctx d) then skip else
    let until := dr_now d + reportCorrectionMs (c_policy (dr_ctx d)) in
    modify_data (fun data => {| data with d_reportCorrection := Some {|
      rc_generation := a_generation a; rc_until := until |} |}) ;;;
    addHold {|
      h_holdId := holdId (a_attemptId a) H_report_correction; h_attemptId := a_attemptId a;
      h_generation := Some (a_generation a); h_reason := H_report_correction; h_until := Some until;
      h_onExpire := Ox_commit; h_data := ∅; h_createdAt := dr_now d |})).

Definition act_worker_absent : step Draft := reading (fun d =>
  match ev_body (dr_ev d) with
  | dispatch_failed workerAbsent _ _ =>
      when workerAbsent (modify (fun a => {| a with a_livenessFailStreak := a_livenessFailStreak a + 1 |}))
  | _ => assertion_failure
  end).

Definition act_rebind_to_holder : step Draft := reading (fun d =>
  match ev_body (dr_ev d) with
  | duplicate_dispatch_refusal holderSessionId _ => bindLivenessSession holderSessionId false
  | _ => assertion_failure
  end).

Definition act_rebind : step Draft := reading (fun d =>
  match ev_body (dr_ev d) with
  | session_rebound toSessionId _ => bindLivenessSession toSessionId true
  | _ => assertion_failure
  end).

Definition act_hollow : step Draft := modify (fun a => {| a with a_hollowCount := a_hollowCount a + 1 |}).

Definition TERMINAL_NOTIFY_KINDS : list NotifyKind :=
  [N_completed; N_blocked; N_failed; N_cancelled; N_stopped].

Definition act_mark_notified : step Draft := reading (fun d =>
  match ev_body (dr_ev d) with
  | coordinator_ack kind _ =>
      modify (fun a =>
        if bool_decide (kind ∈ TERMINAL_NOTIFY_KINDS) && isTerminalTurnState (a_state a)
        then {| a with a_notifiedAt := nullish_or (a_notifiedAt a) (Some (e_at (dr_ev d))) |} else a)
  | _ => assertion_failure
  end).

Definition act_store_git : step Draft := reading (fun d =>
  match ev_body (dr_ev d) with
  | git_side_effect dirty commits attributable =>
      modify_data (fun data => {| data with d_gitSideEffect := Some {|
        gs_dirty := dirty; gs_commitsSinceDispatch := commits; gs_attributable := attributable;
        gs_at := e_at (dr_ev d) |} |})
  | _ => assertion_failure
  end).

Definition act_redrive : step Draft := modify (fun a => {| a with a_redriveCount := a_redriveCount a + 1 |}).

Definition act_stamp_no_progress_notice : step Draft := reading (fun d =>
  modify (fun a => {| a with a_lastNoProgressNoticeAt := Some (dr_now d) |})).

Definition act_record_report : step Draft := reading (fun d =>
  match ev_body (dr_ev d) with
  | worker_report b =>
      modify (fun a => {| a with a_data := {| (a_data a) with d_report := Some {|
        rr_generation := a_generation a; rr_outcome := wr_outcome b; rr_eventId := e_eventId (dr_ev d);
        rr_at := e_at (dr_ev d); rr_summary := wr_summary b |} |} |})
  | _ => assertion_failure
  end).

Definition ACTIONS (act : ActionId) : step Draft :=
  match act with
  | Act_open_dispatch => act_open_dispatch
  | Act_open_plain => act_open_plain
  | Act_rebind_dispatch => act_rebind_dispatch
  | Act_mark_delivered => act_mark_delivered
  | Act_consume => act_consume
  | Act_apply_held_suspension => act_apply_held_suspension
  | Act_suspend => act_suspend
  | Act_resume => act_resume
  | Act_resume_by_activity => act_resume_by_activity
  | Act_weak_candidate => act_weak_candidate
  | Act_clear_weak => act_clear_weak
  | Act_await_report => act_await_report
  | Act_false_idle => act_false_idle
  | Act_activity => act_activity
  | Act_liveness_unknown => act_liveness_unknown
  | Act_liveness_failure => act_liveness_failure
  | Act_worker_absent => act_worker_absent
  | Act_rebind_to_holder => act_rebind_to_holder
  | Act_rebind => act_rebind
  | Act_hollow => act_hollow
  | Act_mark_notified => act_mark_notified
  | Act_store_git => act_store_git
  | Act_redrive => act_redrive
  | Act_stamp_no_progress_notice => act_stamp_no_progress_notice
  | Act_record_report => act_record_report
  | Act_defer_unconfirmed_end => act_defer_unconfirmed_end
  | Act_open_report_correction => act_open_report_correction
  end.

(** ** Templates *)

Definition spell_decline (r : AdmissionDeclineReason) : string :=
  match r with
  | Ad_active_modal => "active_modal"
  | Ad_session_not_idle => "session_not_idle"
  | Ad_native_marker_absent => "native_marker_absent"
  | Ad_trailing_tool_activity => "trailing_tool_activity"
  | Ad_no_final_assistant_summary => "no_final_assistant_summary"
  | Ad_transcript_growing => "transcript_growing"
  end.

(** The outcome a terminal-class evidence would have committed. *)
Definition proposedOutcome (ev : TurnEvidence) : option TurnOutcome :=
  match ev_body ev with
  | turn_end b => Some (if opt_true (te_afterFinalizationTimeout b) || opt_true (te_hollow b)
                        then O_failed else O_completed)
  | transcript_final _ | no_progress _ _ _ => Some O_completed
  | worker_report b => Some (outcome_of_report (wr_outcome b))
  | session_error _ | process_exit _ _ => Some O_failed
  | cancel _ => Some O_cancelled
  | operator_status s _ => Some (outcome_of_operator s)
  | _ => None
  end.

Definition resolveNote (note : TplNote) (d : Draft) : string :=
  match note with
  | Note_from_admission =>
      match admissionOf (dr_ctx d) with
      | Some (Adm_decline r) => "admission_declined:" ++ spell_decline r
      | _ => "admission_declined"
      end
  | Note_from_terminal_compare =>
      match dr_attempt d ≫= a_terminal with
      | Some t => if bool_decide (proposedOutcome (dr_ev d) = Some (t_outcome t))
                  then "duplicate" else "already_terminal"
      | None => "already_terminal"
      end
  | Note s => s
  end.

Definition exitReclaimReason (s : TurnState) : TurnReason :=
  match s with
  | St_accepted | St_delivered => R_session_exit_before_turn
  | _ => R_session_exit
  end.

(** [ev.eventId] as a data-bag value, and the opener's summary pointer. *)
Definition text_data (ev : TurnEvidence) : gmap string Scalar :=
  let base := {[ "textEventId" := SStr (e_eventId ev) ]} in
  match summaryOf ev with
  | Some s => <["summaryTopic" := SStr (sum_topic s)]> (<["summaryWriter" := SStr (sum_writer s)]>
                (<["summarySeq" := SNum (sum_seq s)]> base))
  | None => base
  end.

Definition suspension_data (ev : TurnEvidence) : gmap string Scalar :=
  match ev_body ev with
  | suspension s =>
      {[ "modal" := SStr (spell_SuspensionModal (su_modal s));
         "modalKey" := match su_modalKey s with Some k => SStr k | None => SNull end;
         "suspendedAt" := if opt_true (su_clockUnknown s) then SNull else SNum (e_at ev);
         "providerSetup" := SBool (opt_true (su_providerSetup s)) ]}
  | _ => ∅
  end.

(** The data bag of a new hold; the key sets of its parts are disjoint. *)
Definition hold_data (ctx : GuardCtx) (reason : HoldReason) (from_admission : option AdmissionDeclineReason)
    : gmap string Scalar :=
  let ev := c_evidence ctx in
  (match from_admission with
   | Some r => {[ "evidenceId" := SStr (e_eventId ev); "decline" := SStr (spell_decline r) ]}
   | None => ∅
   end)
  ∪ (if bool_decide (reason = H_suspension_before_consumed) then suspension_data ev else ∅)
  ∪ (if bool_decide (reason = H_await_report) && ownerProbedQueueNativeCompletion ctx
     then {[ "nativeProbeReportOnly" := SBool true ]} else ∅)
  ∪ (if bool_decide (reason ∈ TEXT_CARRYING_HOLDS) then text_data ev else ∅).

Definition apply_hold (reason : TplHoldReason) (until : UntilExpr) (onExpire : HoldOnExpire)
    (meshOnly generationAgnostic : bool) : step Draft :=
  with_attempt (fun a => reading (fun d =>
    if meshOnly && negb (isMeshScope a) then skip else
    let chosen :=
      match reason with
      | HR r => Some (r, None)
      | HR_from_admission =>
          match admissionOf (dr_ctx d) with
          | Some (Adm_hold r hr) => Some (hr, Some r)
          | _ => None
          end
      end in
    match chosen with
    | None => skip
    | Some (r, declined) =>
        addHold {|
          h_holdId := holdId (a_attemptId a) r;
          h_attemptId := a_attemptId a;
          h_generation := if generationAgnostic then None else Some (a_generation a);
          h_reason := r;
          h_until := resolveUntil until a d;
          h_onExpire := onExpire;
          h_data := hold_data (dr_ctx d) r declined;
          h_createdAt := dr_now d |}
    end)).

Definition apply_release (reasons : TplRelease) : step Draft := reading (fun d =>
  match reasons with
  | Rel_expired_hold =>
      match ev_body (dr_ev d) with
      | hold_expired _ reason => releaseHolds (Only_reasons [reason]) []
      | _ => skip
      end
  | Rel_all => releaseHolds All_reasons []
  | Rel_list l => releaseHolds (Only_reasons l) []
  end).

Definition resolve_outcome (o : TplOutcome) (d : Draft) : option TurnOutcome :=
  match o with
  | TO o => Some o
  | TO_from_report =>
      match ev_body (dr_ev d) with worker_report b => Some (outcome_of_report (wr_outcome b)) | _ => None end
  | TO_from_recorded_report =>
      match dr_attempt d with
      | Some a => outcome_of_report ∘ rr_outcome <$> d_report (a_data a)
      | None => None
      end
  | TO_from_operator =>
      match ev_body (dr_ev d) with operator_status s _ => Some (outcome_of_operator s) | _ => None end
  end.

Definition reason_of_cancel (r : CancelReason) : TurnReason :=
  match r with
  | Cr_operator_cancel => R_operator_cancel
  | Cr_intentional_cleanup => R_intentional_cleanup
  | Cr_task_removed => R_task_removed
  | Cr_mission_abandoned => R_mission_abandoned
  | Cr_superseded => R_superseded
  end.

Definition reason_of_operator (r : OperatorStatusReason) : TurnReason :=
  match r with
  | Or_operator_update => R_operator_update
  | Or_refine_terminal => R_refine_terminal
  | Or_validation_terminal => R_validation_terminal
  end.

Definition reason_of_provider_failure (f : ProviderFailure) : TurnReason :=
  match f with
  | Pf_auth_failed => R_provider_auth_failed
  | Pf_billing_failed => R_provider_billing_failed
  | Pf_usage_limit_exceeded => R_provider_usage_limit_exceeded
  | Pf_server_overloaded => R_provider_server_overloaded
  | Pf_provider_error => R_provider_error
  end.

(** Only classifications the daemon observed itself are promoted. *)
Definition reason_of_session_error (source : EvidenceSourceId) (r : SessionErrorReason) : TurnReason :=
  if bool_decide (source ∈ [Src_fsm_edge; Src_session_registry; Src_dispatch]) then
    match r with
    | Se_auth_failed => R_provider_auth_failed
    | Se_billing_failed => R_provider_billing_failed
    | _ => R_session_error
    end
  else R_session_error.

Definition resolve_reason (r : TplReason) (ev : TurnEvidence) : option TurnReason :=
  match r, ev_body ev with
  | TR r, _ => Some r
  | TR_from_cancel, cancel c => Some (reason_of_cancel c)
  | TR_from_operator, operator_status _ o => Some (reason_of_operator o)
  | TR_from_provider_failure, process_exit _ f => Some (reason_of_provider_failure (nullish f Pf_provider_error))
  | TR_from_provider_failure, turn_end b =>
      Some (reason_of_provider_failure (nullish (te_providerFailure b) Pf_provider_error))
  | TR_from_session_error, session_error s => Some (reason_of_session_error (e_source ev) s)
  | _, _ => None
  end.

Definition apply_commit (outcome : TplOutcome) (strength : CommitStrength) (reason : TplReason)
    (recorded_report_text : bool) : step Draft :=
  with_attempt (fun a => reading (fun d =>
    match resolve_outcome outcome d, resolve_reason reason (dr_ev d) with
    | Some o, Some r =>
        commit o strength r (if recorded_report_text then Some (recordedReportText a) else None)
    | _, _ => assertion_failure
    end)).

Definition resolve_reclaim (r : TplReclaim) (a : TurnAttempt) (ev : TurnEvidence) : option TurnReason :=
  match r with
  | RC r => Some r
  | RC_from_exit_state => Some (exitReclaimReason (a_state a))
  | RC_from_refusal =>
      match ev_body ev with
      | delivery_refused _ Ref_session_exited => Some R_dispatch_refused_session_exited
      | delivery_refused _ Ref_no_target => Some R_dispatch_refused_no_target
      | delivery_refused _ Ref_unsupported_input => Some R_dispatch_refused_unsupported_input
      | _ => None
      end
  end.

Definition apply_reclaim (r : TplReclaim) : step Draft :=
  with_attempt (fun a => reading (fun d =>
    match resolve_reclaim r a (dr_ev d) with
    | Some reason => reclaim reason
    | None => assertion_failure
    end)).

Definition STALL_BUSY_STATUSES : list NoProgressObservedStatus :=
  [Ob_generating; Ob_starting; Ob_waiting_approval; Ob_waiting_choice].

(** The common tail of a notify template. *)
Definition send_notice (n : TplNotify) (evidence_generation : bool) : step Draft :=
  with_attempt (fun a => reading (fun d =>
    let ev := dr_ev d in
    let kind :=
      match n with
      | TN k => Some k
      | TN_from_modal =>
          match ev_body ev with suspension s => Some (notify_of_modal (su_modal s)) | _ => None end
      | TN_from_suspension => Some (notify_of_modal (nullish (a_suspension a) Mod_approval))
      end in
    match kind with
    | None => assertion_failure
    | Some k =>
        notify k {| no_generation := if evidence_generation then c_effectiveGeneration (dr_ctx d) else None;
                    no_summary := summaryOf ev; no_textEventId := None |}
    end)).

Definition suspension_reminder : step Draft :=
  with_attempt (fun a => reading (fun d =>
    match d_providerSuspension (a_data a), a_suspension a with
    | Some susp, Some modal =>
        let last := nullish (ps_lastReminderAt susp)
                      (nullish (ps_at susp) (nullish (a_lastActivityAt a) 0)) in
        if (MAX_SUSPENSION_REMINDERS <=? nullish (ps_reminders susp) 0)
           || (dr_now d - last <? SUSPENSION_REMINDER_MS)
        then push (E_record "suspension_reminder_not_due") else
        modify_data (fun data => {| data with d_providerSuspension := Some {| susp with
          ps_reminders := Some (nullish (ps_reminders susp) 0 + 1);
          ps_lastReminderAt := Some (dr_now d) |} |}) ;;;
        notify (notify_of_modal modal) no_opts
    | _, _ => skip
    end)).

Definition apply_notify (n : TplNotify) (cond : option NotifyWhen) (evidence_generation : bool)
    : step Draft :=
  with_attempt (fun a => reading (fun d =>
    match cond with
    | None => send_notice n evidence_generation
    | Some When_candidate_once =>
        if bool_decide (a_candidateNotifiedGeneration a = Some (a_generation a)) then skip else
        modify (fun a => {| a with a_candidateNotifiedGeneration := Some (a_generation a) |}) ;;;
        send_notice n evidence_generation
    | Some When_suspension_reminder_due => suspension_reminder
    | Some When_no_progress_due =>
        if present (a_lastNoProgressNoticeAt a) then push (E_record "stall_notice_already_sent") else
        match ev_body (dr_ev d) with
        | no_progress stalledMs status _ =>
            if (stalledMs <? stallWakeMs (c_policy (dr_ctx d))) || bool_decide (status ∈ STALL_BUSY_STATUSES)
            then push (E_record "stall_quiet")
            else act_stamp_no_progress_notice ;;; send_notice n evidence_generation
        | _ => assertion_failure
        end
    end)).

(** R27a: adopt the previous generation's completion. *)
Definition adopt_prev_generation : step Draft :=
  with_attempt (fun a => reading (fun d =>
    let ev := dr_ev d in
    let '(outcome, strength, reason) := adoptedTerminal ev in
    match a_prevGeneration a with
    | None => assertion_failure
    | Some prev =>
        if negb (sessionIdsEquivalent (a_sessionId a) (pg_sessionId prev)) then
          beginWriterStop reason ;;;
          update_stop (fun stop => {| stop with ws_terminal := Some {|
            st_outcome := outcome; st_strength := strength;
            st_adoptSessionId := Some (pg_sessionId prev); st_summary := summaryOf ev;
            st_textEventId := Some (e_eventId ev); st_source := Some (e_source ev) |} |})
        else
          modify (fun a => {| a with a_sessionId := pg_sessionId prev;
                                     a_consumedAt := nullish_or (a_consumedAt a) (Some (e_at ev)) |}) ;;;
          commit outcome strength reason None
    end)).

Definition apply_cancel_dispatch (target : CancelTarget) (not_intentional_cleanup : bool) : step Draft :=
  with_attempt (fun a => reading (fun d =>
    let ev := dr_ev d in
    let is_cancel := bool_decide (ev_kind ev = K_cancel) in
    let cleanup := match ev_body ev with
                   | cancel r => bool_decide (r = Cr_intentional_cleanup)
                   | _ => false
                   end in
    if is_cancel && isMeshScope a then skip else
    if not_intentional_cleanup && cleanup then skip else
    match target with
    | Target_evidence_session =>
        push (E_cancel_dispatch (a_attemptId a)
                (nullish (c_effectiveGeneration (dr_ctx d)) (a_generation a)) (e_sessionId ev) None None None)
    | Target_current =>
        push (E_cancel_dispatch (a_attemptId a) (a_generation a) (a_sessionId a) None None None)
    end)).

Definition apply_uncommitted (t : EffectTemplate) : step Draft :=
  match t with
  | T_act act => ACTIONS act
  | T_hold reason until onExpire meshOnly generationAgnostic =>
      apply_hold reason until onExpire meshOnly generationAgnostic
  | T_release reasons => apply_release reasons
  | T_commit outcome strength reason recorded => apply_commit outcome strength reason recorded
  | T_reclaim reason => apply_reclaim reason
  | T_notify n cond evidence_generation => apply_notify n cond evidence_generation
  | T_adopt_prev_generation => adopt_prev_generation
  | T_bus phase => with_attempt (fun a =>
      push (E_bus {| be_phase := phase; be_sessionId := a_sessionId a; be_attemptId := a_attemptId a;
                     be_generation := a_generation a; be_outcome := None; be_strength := None |}))
  | T_record note => reading (fun d => push (E_record (resolveNote note d)))
  | T_cancel_dispatch target guarded => apply_cancel_dispatch target guarded
  | T_redeliver => with_attempt (fun a =>
      push (E_redeliver (a_attemptId a) (a_generation a) (a_messageId a) (a_sessionId a)))
  | T_probe => with_attempt (fun a => push (E_probe (a_attemptId a) (a_sessionId a)))
  | T_reevaluate => with_attempt (fun a => reading (fun d =>
      let evidenceId := match expiredHold (dr_ctx d) with
                        | Some h => nullish (data_str h "evidenceId") ""
                        | None => ""
                        end in
      push (E_reevaluate (a_attemptId a) evidenceId true)))
  end.

(** Templates after a commit are skipped. *)
Definition applyTemplate (t : EffectTemplate) : step Draft := fun d =>
  if dr_committed d then Some d else apply_uncommitted t d.

(** ** Reduce *)

Record ReduceResult : Set := {
  res_attempt : option TurnAttempt;
  res_holds : list TurnHold;
  res_effects : list TurnEffect;
  res_verdict : ReduceVerdict;
  res_rule : option string;
  res_rejection : option ReduceRejection }.

Definition spell_rejection (r : ReduceRejection) : string :=
  match r with
  | Rj_no_attempt => "no_attempt"
  | Rj_attempt_mismatch => "attempt_mismatch"
  | Rj_session_mismatch => "session_mismatch"
  | Rj_already_terminal => "already_terminal"
  | Rj_illegal_transition => "illegal_transition"
  end.

Definition rejected (i : ReduceInput) (r : ReduceRejection) : ReduceResult := {|
  res_attempt := in_attempt i; res_holds := in_holds i;
  res_effects := [E_record (spell_rejection r)]; res_verdict := V_rejected;
  res_rule := None; res_rejection := Some r |}.

(** [new Map(holds.map(h => [h.holdId, h]))]. *)
Definition holds_map (holds : list TurnHold) : jsmap TurnHold :=
  map_of (map (fun h => (h_holdId h, h)) holds).

Definition start_draft (i : ReduceInput) (eff : option Z) (r : TransitionRule) : Draft := {|
  dr_attempt := in_attempt i; dr_holds := holds_map (in_holds i); dr_effects := [];
  dr_ctx := ctx_of i eff; dr_rule := r; dr_committed := false |}.

(** The hard ceiling and an operator cancel override what the stop settles with. *)
Definition stopping_overrides (i : ReduceInput) : step Draft :=
  with_attempt (fun a =>
    when (a_acceptedAt a + hardCeilingMs (in_policy i) <=? in_nowMs i)
      (update_stop (fun stop => {| stop with ws_reason := R_hard_ceiling;
                                             ws_terminal := Some scheduler_failure |}) ;;;
       releaseHolds (Only_reasons [H_hard_ceiling]) [])) ;;;
  match ev_body (in_evidence i) with
  | cancel r =>
      update_stop (fun stop => {| stop with
        ws_reason := reason_of_cancel r;
        ws_terminal := Some {|
          st_outcome := O_cancelled; st_strength := Str_genuine; st_adoptSessionId := None;
          st_summary := None; st_textEventId := None;
          st_source := Some (e_source (in_evidence i)) |} |})
  | _ => skip
  end.

(** A confirmed stop commits its verdict, or reclaims. *)
Definition settle_confirmed : step Draft :=
  update_stop (fun stop => {| stop with ws_confirmed := Some true |}) ;;;
  adoptReportHeldDuringStop ;;;
  with_stop (fun _ stop =>
    match ws_terminal stop with
    | Some t =>
        (if truthy_str (st_adoptSessionId t) then
           modify (fun a => {| a with
             a_sessionId := nullish (st_adoptSessionId t) (a_sessionId a);
             a_consumedAt := nullish_or (a_consumedAt a) (Some (ws_requestedAt stop)) |})
         else skip) ;;;
        settle_with t (ws_reason stop)
    | None =>
        if bool_decide (ws_reason stop = R_hard_ceiling)
        then commit O_failed Str_genuine (ws_reason stop) None
        else reclaim (ws_reason stop)
    end).

(** A due liveness hold retries the stop, then escalates once. *)
Definition stop_retry : step Draft :=
  releaseHolds (Only_reasons [H_liveness]) [] ;;;
  with_stop (fun _ stop =>
    if ws_tries stop <? WRITER_STOP_MAX_TRIES then
      set_stop {| stop with ws_tries := ws_tries stop + 1 |} ;;; requestWriterStop
    else if negb (ws_escalated stop) then
      set_stop {| stop with ws_escalated := true |} ;;;
      notify N_no_progress no_opts ;;;
      push (E_record "writer_stop_unconfirmed_checkpoint_pending")
    else skip).

Definition due_liveness_expiry (i : ReduceInput) (ctx : GuardCtx) : bool :=
  holdIs ctx [H_liveness]
  && match expiredHold ctx with
     | Some h => match h_until h with Some u => u <=? in_nowMs i | None => false end
     | None => false
     end.

Definition is_cancel (ev : TurnEvidence) : bool := bool_decide (ev_kind ev = K_cancel).

Definition stopping_step (i : ReduceInput) (ctx : GuardCtx) : step Draft :=
  stopping_overrides i ;;;
  match in_writerUnreachable i with
  | Some by_ =>
      if negb (in_stopConfirmed i) && negb (is_cancel (in_evidence i)) then
        adoptReportHeldDuringStop ;;; settleUnreachableWriter by_
      else if in_stopConfirmed i then settle_confirmed
      else push (E_record "writer_stop_checkpoint_pending")
  | None =>
      if in_stopConfirmed i then settle_confirmed else
      if due_liveness_expiry i ctx then stop_retry else
      match ev_body (in_evidence i) with
      | worker_report _ => act_record_report
      | _ => push (E_record "writer_stop_checkpoint_pending")
      end
  end.

Definition first_rule : TransitionRule := nullish (head TRANSITIONS) (rule "" Lane_none From_none [] None To_same V_recorded []).

Definition reduceStopping (i : ReduceInput) : option ReduceResult :=
  match in_attempt i with
  | None => None
  | Some a =>
      let ctx := ctx_of i (Some (a_generation a)) in
      match stopping_step i ctx (start_draft i (Some (a_generation a)) first_rule) with
      | None => None
      | Some d => Some {|
          res_attempt := dr_attempt d; res_holds := map_values (dr_holds d);
          res_effects := dr_effects d; res_verdict := V_applied;
          res_rule := Some (
            if in_stopConfirmed i then "writer_settled" else
            match in_writerUnreachable i, dr_attempt d with
            | Some _, Some a' => if stop_confirmed a' then "writer_unreachable_settled" else "WR"
            | _, _ => "WR"
            end);
          res_rejection := None |}
      end
  end.

(** The nominal target applies unless the templates already moved the state. *)
Definition apply_target (i : ReduceInput) (r : TransitionRule) (d : Draft) : Draft :=
  match r_verdict r, dr_attempt d, dr_committed d, r_to r with
  | V_applied, Some a, false, To target =>
      if bool_decide (a_state a = nullish (a_state <$> in_attempt i) (a_state a))
      then {| d with dr_attempt := Some {| a with a_state := target |} |} else d
  | _, _, _, _ => d
  end.

Definition run_rule (i : ReduceInput) (eff : option Z) (r : TransitionRule) : option ReduceResult :=
  match seq_all (map applyTemplate (r_effects r)) (start_draft i eff r) with
  | None => None
  | Some d =>
      let d' := apply_target i r d in
      Some {| res_attempt := dr_attempt d'; res_holds := map_values (dr_holds d');
              res_effects := dr_effects d'; res_verdict := r_verdict r;
              res_rule := Some (r_id r); res_rejection := None |}
  end.

Definition reduce (i : ReduceInput) : option ReduceResult :=
  match classifyLane (in_attempt i) (in_evidence i) (in_holds i) with
  | LaneRejected r => Some (rejected i r)
  | Lane lane eff =>
      if bool_decide (a_state <$> in_attempt i = Some St_stopping) && bool_decide (lane = Lane_current)
      then reduceStopping i else
      match matchingRules i with
      | [] =>
          Some (rejected i match in_attempt i with
                           | Some a => if isTerminalTurnState (a_state a)
                                       then Rj_already_terminal else Rj_illegal_transition
                           | None => Rj_illegal_transition
                           end)
      | r :: _ => run_rule i eff r
      end
  end.

(** ** Hold expiry *)

Record ExpireHoldsContext : Type := {
  xc_observedBy : string;
  xc_sessionIdFor : string -> string }.

(** A due hold, with its deadline. *)
Definition due (nowMs : Z) (h : TurnHold) : bool :=
  match h_until h with Some u => u <=? nowMs | None => false end.

(** The comparator's order: deadline, then hold id. *)
Definition hold_key (h : TurnHold) : Z * string := (nullish (h_until h) 0, h_holdId h).

Definition hold_leb (h1 h2 : TurnHold) : bool :=
  let '(u1, i1) := hold_key h1 in
  let '(u2, i2) := hold_key h2 in
  (u1 <? u2) || ((u1 =? u2) && String.leb i1 i2).

Definition hold_le (h1 h2 : TurnHold) : Prop := hold_leb h1 h2 = true.
#[global] Instance hold_le_dec h1 h2 : Decision (hold_le h1 h2) := decide (hold_leb h1 h2 = true).

Definition expiry_evidence (nowMs : Z) (xc : ExpireHoldsContext) (h : TurnHold) : TurnEvidence := {|
  ev_env := {|
    e_eventId := "hold_expired:" ++ h_holdId h ++ ":" ++ pretty (nullish (h_until h) 0);
    e_at := nowMs;
    e_source := Src_scheduler;
    e_sessionId := xc_sessionIdFor xc (h_attemptId h);
    e_attemptRef := match h_generation h with
                    | Some g => Some {| ref_attemptId := h_attemptId h; ref_generation := g |}
                    | None => None
                    end;
    e_taskId := None;
    e_observedBy := xc_observedBy xc |};
  ev_body := hold_expired (h_holdId h) (h_reason h) |}.

Definition expireHolds (holds : list TurnHold) (nowMs : Z) (xc : ExpireHoldsContext) : list TurnEvidence :=
  map (expiry_evidence nowMs xc) (merge_sort hold_le (List.filter (due nowMs) holds)).
