(* ===== verification/LedgerInv.v ===== *)
(** * The invariant of the turn ledger

    What a stored attempt and its active holds satisfy ([ledger_ok]), and the
    draft predicates the reducer's steps maintain: [Open] while a rule only
    annotates the attempt, [Settled] once it began a writer stop or committed. *)

From S2P Require Import Prelude TurnEvidence Vocabulary TurnPolicy TurnTypes Admission Transitions Guards Reducer.

#[local] Open Scope string_scope.
#[local] Open Scope Z_scope.

(** ** Stored attempts *)

Definition open_state (s : TurnState) : bool := bool_decide (s ∈ NONTERMINAL).

(** A hold of attempt [a]: its id and attempt, its generation (only the hard
    ceiling outlives a generation, and it has a deadline), and a data bag a
    suspension can be read from. *)
Record hold_ok (a : TurnAttempt) (h : TurnHold) : Prop := {
  ho_id : h_holdId h = holdId (a_attemptId a) (h_reason h);
  ho_attempt : h_attemptId h = a_attemptId a;
  ho_generation : h_generation h = if bool_decide (h_reason h = H_hard_ceiling)
                                   then None else Some (a_generation a);
  ho_deadline : h_reason h = H_hard_ceiling -> is_Some (h_until h);
  ho_data : forall s, h_data h !! "suspendedAt" <> Some (SStr s) }.

Definition ceiling_id (a : TurnAttempt) : string := holdId (a_attemptId a) H_hard_ceiling.

(** What each kind of state requires. *)
Definition state_ok (a : TurnAttempt) (holds : list TurnHold) : Prop :=
  match a_terminal a with
  | Some t => a_state a = state_of_outcome (t_outcome t) /\ holds = []
  | None =>
      match d_writerStop (a_data a) with
      | None =>
          open_state (a_state a) = true
          /\ (isMeshScope a = true -> is_Some (find_hold (ceiling_id a) holds))
      | Some stop =>
          a_state a = St_stopping /\ isMeshScope a = true /\ ws_confirmed stop = None
          /\ (ws_terminal stop = None ->
              ws_reason stop <> R_hard_ceiling /\ is_Some (find_hold (ceiling_id a) holds))
      end
  end.

Record ledger_ok (a : TurnAttempt) (holds : list TurnHold) : Prop := {
  lk_holds : Forall (hold_ok a) holds;
  lk_nodup : NoDup (map h_holdId holds);
  lk_reclaims : 0 <= a_reclaimCount a <= RECLAIM_BUDGET;
  lk_queue_only : a_scope a <> Sc_mesh_queue -> a_reclaimCount a = 0 /\ a_prevGeneration a = None;
  lk_state : state_ok a holds }.

(** ** Observable effects *)

(** What an effect tells the outside about the verdict. *)
Inductive Obs : Set :=
| Ob_commit (generation : Z) (outcome : TurnOutcome) (strength : CommitStrength) (reason : TurnReason)
| Ob_reclaim (from_ to_ : Z)
| Ob_queue (status : QueueStatus)
| Ob_task (outcome : TurnOutcome).

Definition obs (e : TurnEffect) : option Obs :=
  match e with
  | E_commit _ g o s r _ _ => Some (Ob_commit g o s r)
  | E_reclaim _ f t _ => Some (Ob_reclaim f t)
  | E_queue_status _ _ s _ => Some (Ob_queue s)
  | E_task_terminal _ _ o => Some (Ob_task o)
  | _ => None
  end.

Definition observed (es : list TurnEffect) : list Obs := omap obs es.
Arguments observed : simpl never.

(** Coordinator notices exist only for mesh attempts. *)
Definition local_effect (e : TurnEffect) : bool :=
  match e with E_notify_coordinator _ => false | _ => true end.

Definition scoped (a : TurnAttempt) (es : list TurnEffect) : Prop :=
  isMeshScope a = false -> Forall (fun e => local_effect e = true) es.

(** What a commit of attempt [a] shows. *)
Definition commit_obs (a : TurnAttempt) (o : TurnOutcome) (s : CommitStrength) (r : TurnReason) : list Obs :=
  let attemptOnly := bool_decide (r = R_superseded) && bool_decide (a_scope a = Sc_mesh_queue) in
  Ob_commit (a_generation a) o s r ::
  match queue_row a with
  | Some _ => (if attemptOnly && stop_confirmed a then [Ob_queue Q_pending] else []) ++
              (if isMeshScope a && negb attemptOnly then [Ob_queue (Q_outcome o); Ob_task o] else [])
  | None => []
  end%list.

(** ** Drafts *)

(** The columns no annotation touches. *)
Record Ident (a0 a : TurnAttempt) : Prop := {
  id_attemptId : a_attemptId a = a_attemptId a0;
  id_scope : a_scope a = a_scope a0;
  id_meshId : a_meshId a = a_meshId a0;
  id_taskId : a_taskId a = a_taskId a0;
  id_generation : a_generation a = a_generation a0;
  id_prev : a_prevGeneration a = a_prevGeneration a0;
  id_reclaims : a_reclaimCount a = a_reclaimCount a0;
  id_acceptedAt : a_acceptedAt a = a_acceptedAt a0;
  id_terminal : a_terminal a = a_terminal a0 }.

Definition holds_ok (a : TurnAttempt) (m : jsmap TurnHold) : Prop :=
  NoDup (map fst m) /\ Forall (fun e => e.1 = h_holdId e.2 /\ hold_ok a e.2) m.

(** A draft of attempt [a0] that has not committed: the attempt keeps its
    identity and satisfies [A], its hard-ceiling hold is [hc], nothing
    observable was emitted. *)
Record Live (A : TurnAttempt -> Prop) (ctx : GuardCtx) (a0 : TurnAttempt) (hc : option TurnHold)
    (d : Draft) : Prop := {
  lv_ctx : dr_ctx d = ctx;
  lv_committed : dr_committed d = false;
  lv_attempt : exists a, dr_attempt d = Some a /\ Ident a0 a /\ A a;
  lv_holds : holds_ok a0 (dr_holds d);
  lv_ceiling : map_get (ceiling_id a0) (dr_holds d) = hc;
  lv_obs : observed (dr_effects d) = [];
  lv_scoped : scoped a0 (dr_effects d) }.

(** Annotation may move an open attempt to suspended, nothing else. *)
Definition state_step (a0 a : TurnAttempt) : Prop :=
  a_state a = a_state a0 \/ open_state (a_state a0) = true /\ a_state a = St_suspended.

Definition annotated (a0 a : TurnAttempt) : Prop :=
  d_writerStop (a_data a) = d_writerStop (a_data a0) /\ state_step a0 a
  /\ (is_Some (d_report (a_data a0)) -> is_Some (d_report (a_data a))).

Definition stopping_with (stop : WriterStop) (a : TurnAttempt) : Prop :=
  a_state a = St_stopping /\ d_writerStop (a_data a) = Some stop.

Definition Open (ctx : GuardCtx) (a0 : TurnAttempt) (hc : option TurnHold) : Draft -> Prop :=
  Live (annotated a0) ctx a0 hc.

(** A writer stop is in progress on attempt [a0]. *)
Definition Stopping (ctx : GuardCtx) (a0 : TurnAttempt) (hc : option TurnHold) (stop : WriterStop)
    : Draft -> Prop := Live (stopping_with stop) ctx a0 hc.

(** Attempt [a0] was committed with this verdict. *)
Record CommittedAs (a0 : TurnAttempt) (o : TurnOutcome) (s : CommitStrength) (r : TurnReason) (d : Draft)
    : Prop := {
  cm_committed : dr_committed d = true;
  cm_holds : dr_holds d = [];
  cm_scoped : scoped a0 (dr_effects d);
  cm_attempt : exists a t, dr_attempt d = Some a /\ a_terminal a = Some t
                 /\ t_outcome t = o /\ t_strength t = s /\ t_reason t = r
                 /\ a_state a = state_of_outcome o
                 /\ a_attemptId a = a_attemptId a0 /\ a_scope a = a_scope a0
                 /\ a_generation a = a_generation a0 /\ a_reclaimCount a = a_reclaimCount a0
                 /\ a_prevGeneration a = a_prevGeneration a0
                 /\ observed (dr_effects d) = commit_obs a o s r }.

(** ** Elementary facts *)

Lemma str_app_inj (s a b : string) : s ++ a = s ++ b -> a = b.
Proof. apply (inj (String.append s)). Qed.

Lemma holdId_inj id r r' : holdId id r = holdId id r' -> r = r'.
Proof.
  unfold holdId. intros E. apply str_app_inj in E. cbn in E. injection E as E.
  by apply (spelling_inj r r').
Qed.

Lemma observed_app es es' : observed (es ++ es') = (observed es ++ observed es')%list.
Proof. apply omap_app. Qed.

Lemma Ident_refl a : Ident a a.
Proof. by constructor. Qed.

Lemma Ident_mesh a0 a : Ident a0 a -> isMeshScope a = isMeshScope a0.
Proof. intros H. unfold isMeshScope. by rewrite (id_scope _ _ H). Qed.

Lemma hold_ok_ident a a' h :
  a_attemptId a' = a_attemptId a -> a_generation a' = a_generation a -> hold_ok a h -> hold_ok a' h.
Proof. intros Hid Hg []. constructor; rewrite ?Hid, ?Hg; done. Qed.

(** *** The release loop is a filter *)

Lemma map_delete_absent {A} k (m : jsmap A) : k ∉ map fst m -> map_delete k m = m.
Proof.
  induction m as [|[k' v'] m IH]; cbn; [done|].
  intros [Hne Hn]%not_elem_of_cons. rewrite decide_False by done. by rewrite IH.
Qed.

Lemma map_delete_middle {A} (e : string * A) (l1 l2 : jsmap A) :
  NoDup (map fst (l1 ++ e :: l2)) -> map_delete e.1 (l1 ++ e :: l2)%list = (l1 ++ l2)%list.
Proof.
  induction l1 as [|[k v] l1 IH]; cbn; intros [Hn Hd]%NoDup_cons.
  - destruct e as [k v]; cbn in *. rewrite decide_True by done. by apply map_delete_absent.
  - rewrite decide_False; [by rewrite IH|]. intros <-. apply Hn. rewrite map_app. set_solver.
Qed.

Definition release_step (reasons : Reasons) (keep : list HoldReason)
    (acc : jsmap TurnHold * list HoldReason) (e : string * TurnHold) :=
  if releases reasons keep e.2
  then (map_delete e.1 acc.1, (acc.2 ++ [h_reason e.2])%list) else acc.

Lemma release_loop_split reasons keep (todo kept : jsmap TurnHold) rs :
  NoDup (map fst (kept ++ todo)) ->
  fold_left (release_step reasons keep) todo ((kept ++ todo)%list, rs) =
    ((kept ++ List.filter (fun e => negb (releases reasons keep e.2)) todo)%list,
     (rs ++ map (fun e => h_reason e.2) (List.filter (fun e => releases reasons keep e.2) todo))%list).
Proof.
  revert kept rs. induction todo as [|e todo IH]; intros kept rs Hd; cbn; [by rewrite !app_nil_r|].
  unfold release_step at 2. destruct (releases reasons keep e.2); cbn.
  - rewrite map_delete_middle by done. rewrite IH; [by rewrite <- app_assoc|].
    rewrite map_app in Hd |- *. cbn in Hd. apply NoDup_app in Hd as (? & ? & Hd').
    apply NoDup_cons in Hd' as [? ?]. apply NoDup_app. set_solver.
  - replace (kept ++ e :: todo)%list with ((kept ++ [e]) ++ todo)%list in *
      by by rewrite <- app_assoc.
    rewrite IH by done. by rewrite <- app_assoc.
Qed.

Lemma release_loop_filter reasons keep (m : jsmap TurnHold) :
  NoDup (map fst m) ->
  release_loop reasons keep m =
    (List.filter (fun e => negb (releases reasons keep e.2)) m,
     map (fun e => h_reason e.2) (List.filter (fun e => releases reasons keep e.2) m)).
Proof. exact (release_loop_split reasons keep m [] []). Qed.

(** ** Primitive steps on a live draft *)

Lemma find_hold_In id holds h : find_hold id holds = Some h -> In h holds /\ h_holdId h = id.
Proof. intros [? E]%find_some. by apply bool_decide_eq_true in E. Qed.

Lemma scoped_snoc a es e : scoped a es -> (isMeshScope a = false -> local_effect e = true) -> scoped a (es ++ [e]).
Proof. intros H He Hm. apply Forall_app; split; [by apply H|]. by constructor; [apply He|constructor]. Qed.

Lemma observed_snoc es e : observed es = [] -> obs e = None -> observed (es ++ [e]) = [].
Proof. intros H He. rewrite observed_app, H. unfold observed. cbn. by rewrite He. Qed.

Lemma map_get_filter {A} (P : string * A -> bool) k (m : jsmap A) :
  (forall v, map_get k m = Some v -> P (k, v) = true) -> map_get k (List.filter P m) = map_get k m.
Proof.
  induction m as [|[k' v'] m IH]; cbn; [done|]. intros H.
  destruct (decide (k = k')) as [<-|Hne].
  - rewrite (H v') by done. cbn. by rewrite decide_True.
  - destruct (P (k', v')); cbn; [rewrite decide_False by done|]; by apply IH.
Qed.

Lemma NoDup_map_filter {A B} (f : A -> B) (P : A -> bool) (l : list A) :
  NoDup (map f l) -> NoDup (map f (List.filter P l)).
Proof.
  induction l as [|x l IH]; cbn; [done|]. intros [Hn Hd]%NoDup_cons.
  destruct (P x); cbn; [|by apply IH]. apply NoDup_cons. split; [|by apply IH].
  intros Hin. apply Hn. apply list_elem_of_In in Hin. apply in_map_iff in Hin as (y & <- & Hy).
  apply filter_In in Hy as [Hy _]. apply list_elem_of_In. by apply in_map.
Qed.

Lemma holds_ok_filter a P m : holds_ok a m -> holds_ok a (List.filter P m).
Proof.
  intros [Hd Hf]. split; [by apply NoDup_map_filter|].
  apply Forall_forall. intros e He. rewrite Forall_forall in Hf. apply Hf.
  apply list_elem_of_In in He. apply filter_In in He as [He _]. by apply list_elem_of_In.
Qed.

Lemma holds_ok_set a h m : holds_ok a m -> hold_ok a h -> holds_ok a (map_set (h_holdId h) h m).
Proof.
  intros [Hd Hf] Hh. split; [by apply map_set_NoDup|].
  apply Forall_forall. intros e He%list_elem_of_In. apply map_set_In in He as [->|He]; [done|].
  rewrite Forall_forall in Hf. by apply Hf, list_elem_of_In.
Qed.

Lemma wp_reading f Q (d : Draft) : wp (f d) Q d -> wp (reading f) Q d.
Proof. done. Qed.

Lemma wp_with_attempt f Q a (d : Draft) : dr_attempt d = Some a -> wp (f a) Q d -> wp (with_attempt f) Q d.
Proof. unfold wp, with_attempt. by intros ->. Qed.

Section LiveSteps.
Context {A : TurnAttempt -> Prop} {ctx : GuardCtx} {a0 : TurnAttempt} {hc : option TurnHold}.
Implicit Types (d : Draft).

Notation LiveA := (Live A ctx a0 hc).

Lemma live_with_attempt f Q d :
  LiveA d -> (forall a, dr_attempt d = Some a -> Ident a0 a -> A a -> wp (f a) Q d) ->
  wp (with_attempt f) Q d.
Proof.
  intros HL Hf. destruct (lv_attempt _ _ _ _ _ HL) as (a & Ha & Hi & HA).
  unfold wp, with_attempt. rewrite Ha. by apply Hf.
Qed.

Lemma live_push e d :
  LiveA d -> obs e = None -> (isMeshScope a0 = false -> local_effect e = true) ->
  wp (push e) LiveA d.
Proof.
  intros [] He Hl. constructor; cbn; auto using observed_snoc, scoped_snoc.
Qed.

Lemma live_modify (B : TurnAttempt -> Prop) f d :
  LiveA d -> (forall a, Ident a0 a -> A a -> Ident a0 (f a) /\ B (f a)) ->
  wp (modify f) (Live B ctx a0 hc) d.
Proof.
  intros HL Hf. apply (live_with_attempt _ _ _ HL). intros a Ha Hi HA.
  destruct HL, (Hf a Hi HA). constructor; cbn; eauto.
Qed.

Lemma live_addHold h d :
  LiveA d -> hold_ok a0 h -> h_reason h <> H_hard_ceiling -> wp (addHold h) LiveA d.
Proof.
  intros [] Hh Hr. constructor; cbn; auto using observed_snoc, scoped_snoc, holds_ok_set.
  rewrite map_get_set, decide_False; [done|]. rewrite (ho_id _ _ Hh). unfold ceiling_id.
  by intros ?%holdId_inj.
Qed.

Lemma live_releaseHolds reasons keep d :
  LiveA d -> (forall h, h_reason h = H_hard_ceiling -> releases reasons keep h = false) ->
  wp (releaseHolds reasons keep) LiveA d.
Proof.
  intros HL Hkeep. apply (live_with_attempt _ _ _ HL). intros a Ha Hi HA.
  destruct HL as [? ? ? [Hnd Hf] ? ? ?].
  cbv beta delta [wp]. rewrite release_loop_filter by done. cbn [fst snd].
  assert (Hc : map_get (ceiling_id a0)
                 (List.filter (fun e => negb (releases reasons keep e.2)) (dr_holds d)) = hc).
  { rewrite map_get_filter; [done|]. intros v Hv. cbn. rewrite Hkeep; [done|].
    apply map_get_In, list_elem_of_In in Hv. rewrite Forall_forall in Hf.
    destruct (Hf _ Hv) as [Hid Hok]. cbn in *. rewrite (ho_id _ _ Hok) in Hid.
    by apply holdId_inj in Hid. }
  destruct (map _ (List.filter _ _)); constructor; cbn; eauto using holds_ok_filter.
  - by apply holds_ok_filter.
  - by apply holds_ok_filter.
  - by apply observed_snoc.
  - by apply scoped_snoc.
Qed.

Lemma live_notify k opts d : LiveA d -> wp (notify k opts) LiveA d.
Proof.
  intros HL. apply (live_with_attempt _ _ _ HL). intros a Ha Hi HA.
  destruct (isMeshScope a) eqn:E; [|done].
  apply live_push; [done..|]. rewrite (Ident_mesh _ _ Hi) in E. congruence.
Qed.

Lemma live_when b f d : LiveA d -> (b = true -> wp f LiveA d) -> wp (when b f) LiveA d.
Proof. intros HL Hf. destruct b; [by apply Hf|done]. Qed.
End LiveSteps.

#[export] Hint Resolve live_push live_addHold live_releaseHolds live_notify live_when : ledger.
