(* ===== verification/LedgerSteps.v ===== *)
(** * Steps of the reducer against the invariant

    Each effect template, run on an [Open] draft of a well-formed attempt,
    neither fails nor leaves the invariant: annotations keep the draft [Open],
    a commit, reclaim or adoption leaves it stopping or committed. *)

From S2P Require Import Prelude TurnEvidence Vocabulary TurnPolicy TurnTypes Admission Transitions Guards Reducer LedgerInv.

#[local] Open Scope string_scope.
#[local] Open Scope Z_scope.

(** ** Safe templates

    Which actions and templates may run for an evidence kind under a guard. *)

Definition act_ok (k : TurnEvidenceKind) (g : option GuardId) (act : ActionId) : bool :=
  match act with
  | Act_open_dispatch | Act_open_plain => false
  | Act_rebind_dispatch => bool_decide (k = K_dispatch_accepted)
  | Act_mark_delivered => bool_decide (k = K_delivered)
  | Act_suspend => bool_decide (k = K_suspension)
  | Act_liveness_unknown | Act_liveness_failure => bool_decide (k = K_liveness)
  | Act_worker_absent => bool_decide (k = K_dispatch_failed)
  | Act_rebind_to_holder => bool_decide (k = K_duplicate_dispatch_refusal)
  | Act_rebind => bool_decide (k = K_session_rebound)
  | Act_mark_notified => bool_decide (k = K_coordinator_ack)
  | Act_store_git => bool_decide (k = K_git_side_effect)
  | Act_record_report => bool_decide (k = K_worker_report)
  | Act_defer_unconfirmed_end => bool_decide (g = Some G_hold_end_unconfirmed_defer)
  | _ => true
  end.

(** Guards under which the expired hold is not the hard ceiling. *)
Definition releasing_guards : list GuardId :=
  [G_hold_suspension_before_consumed; G_hold_admission; G_hold_direct_report_missing;
   G_hold_native_probe_report_only; G_hold_queue_report_missing].

(** Guards that establish a recorded report. *)
Definition reported_guards : list GuardId :=
  [G_finished_after_report; G_hold_await_end; G_exit_after_report].

Definition tpl_ok (k : TurnEvidenceKind) (g : option GuardId) (t : EffectTemplate) : bool :=
  match t with
  | T_act act => act_ok k g act
  | T_hold r _ _ _ agnostic =>
      negb agnostic && match r with HR r => bool_decide (r ≠ H_hard_ceiling) | HR_from_admission => true end
  | T_release (Rel_list l) => bool_decide (H_hard_ceiling ∉ l)
  | T_release Rel_all => false
  | T_release Rel_expired_hold =>
      match g with Some g => bool_decide (g ∈ releasing_guards) | None => false end
  | T_commit o _ r _ =>
      match o with
      | TO _ => true
      | TO_from_report => bool_decide (k = K_worker_report)
      | TO_from_recorded_report => match g with Some g => bool_decide (g ∈ reported_guards) | None => false end
      | TO_from_operator => bool_decide (k = K_operator_status)
      end
      && match r with
         | TR _ => true
         | TR_from_cancel => bool_decide (k = K_cancel)
         | TR_from_operator => bool_decide (k = K_operator_status)
         | TR_from_provider_failure => bool_decide (k ∈ [K_process_exit; K_turn_end])
         | TR_from_session_error => bool_decide (k = K_session_error)
         end
  | T_reclaim RC_from_refusal => bool_decide (g = Some G_reclaiming_refusal)
  | T_reclaim (RC r) => bool_decide (r ≠ R_hard_ceiling)
  | T_reclaim RC_from_exit_state => true
  | T_notify n cond _ =>
      match n with TN_from_modal => bool_decide (k = K_suspension) | _ => true end
      && match cond with Some When_no_progress_due => bool_decide (k = K_no_progress) | _ => true end
  | T_adopt_prev_generation => bool_decide (g = Some G_prev_generation_completion)
  | _ => true
  end.

(** Templates that settle the attempt. *)
Definition settles (t : EffectTemplate) : bool :=
  match t with T_commit _ _ _ _ | T_reclaim _ | T_adopt_prev_generation => true | _ => false end.

(** ** Reading the evidence of a kind *)

Ltac kind_of_evidence :=
  match goal with
  | H : ev_kind ?ev = _ |- _ => unfold ev_kind in H; destruct (ev_body ev) eqn:?; try discriminate H
  end.

(** An update that keeps the identity columns and the annotation relation. *)
Ltac annotate :=
  let a := fresh "a" in let Hi := fresh "Hi" in let Hs := fresh "Hs" in
  let Hst := fresh "Hst" in let Hr := fresh "Hr" in
  intros a Hi (Hs & Hst & Hr); split;
  [destruct Hi; constructor; cbn; assumption
  |split; [|split]; cbn; [assumption | exact Hst | first [exact Hr | intros _; eauto]]].

Section Annotations.
Context {ctx : GuardCtx} {a0 : TurnAttempt} {hc : option TurnHold}.
Notation OpenA := (Open ctx a0 hc).
Implicit Types (d : Draft).

Lemma open_modify f d :
  OpenA d ->
  (forall a, Ident a0 a -> annotated a0 a -> Ident a0 (f a) /\ annotated a0 (f a)) ->
  wp (modify f) OpenA d.
Proof. intros HL Hf. by apply (live_modify (annotated a0) f d HL). Qed.

Lemma open_ctx d : OpenA d -> dr_ctx d = ctx.
Proof. apply lv_ctx. Qed.

Lemma open_bind sid b d : OpenA d -> wp (bindLivenessSession sid b) OpenA d.
Proof.
  intros HL. apply (live_with_attempt _ _ _ HL). intros a _ _ _. apply wp_seq_mono with (P := OpenA).
  - apply live_when; [done|]. intros _. apply open_modify; [done|annotate].
  - intros d' HL'. apply open_modify; [done|annotate].
Qed.

Lemma annotated_resolve b at_ a :
  Ident a0 a -> annotated a0 a ->
  Ident a0 (resolve_suspension b at_ a) /\ annotated a0 (resolve_suspension b at_ a).
Proof.
  intros Hi Ha. unfold resolve_suspension. destruct (d_providerSuspension _); [|done].
  case_match; [|done]. revert a Hi Ha H. annotate.
Qed.

Lemma annotated_resume b at_ a :
  Ident a0 a -> annotated a0 a ->
  let a' := resolve_suspension b at_ {| a with a_suspension := None |} in
  Ident a0 a' /\ annotated a0 a'.
Proof.
  intros Hi Ha. apply annotated_resolve;
    [destruct Hi; by constructor | destruct Ha as (? & ? & ?); by split_and!].
Qed.

(** The facts a matched rule of an open attempt provides. *)
Record matched (k : TurnEvidenceKind) (g : option GuardId) : Prop := {
  mt_attempt : c_attempt ctx = Some a0;
  mt_open : open_state (a_state a0) = true;
  mt_holds : Forall (hold_ok a0) (c_holds ctx);
  mt_kind : ev_kind (c_evidence ctx) = k;
  mt_guard : match g with Some G_otherwise | None => True | Some g => GUARDS g ctx = true end }.

Lemma expired_hold_ok k g h : matched k g -> expiredHold ctx = Some h -> hold_ok a0 h.
Proof.
  intros M. unfold expiredHold. destruct (ev_body _); try done.
  destruct (find_hold _ _) as [h'|] eqn:E; [|done]. case_match; [done|]. intros [= <-].
  apply find_hold_In in E as [Hin%list_elem_of_In _]. pose proof (mt_holds _ _ M) as Hf.
  rewrite Forall_forall in Hf. by apply Hf.
Qed.

Lemma held_suspension_ok d h :
  OpenA d -> map_get (holdId (a_attemptId a0) H_suspension_before_consumed) (dr_holds d) = Some h ->
  held_suspended_at h <> None.
Proof.
  intros HL Hg. apply map_get_In, list_elem_of_In in Hg. destruct (lv_holds _ _ _ _ _ HL) as [_ Hf].
  rewrite Forall_forall in Hf. destruct (Hf _ Hg) as [_ Hok]. pose proof (ho_data _ _ Hok) as Hd.
  cbn in Hd. unfold held_suspended_at. destruct (h_data h !! _) as [[]|]; try done. by destruct (Hd s).
Qed.

Lemma open_apply_held d :
  open_state (a_state a0) = true -> OpenA d -> wp act_apply_held_suspension OpenA d.
Proof.
  intros Hopen HL. apply (live_with_attempt _ _ _ HL). intros a Ha Hi HA.
  apply wp_reading. rewrite (id_attemptId _ _ Hi). destruct (map_get _ _) as [h|] eqn:Hg; [|done].
  pose proof (held_suspension_ok _ _ HL Hg) as Hd. destruct (held_suspended_at h) as [at_|]; [|done].
  eapply wp_seq_mono; [apply open_modify; [done|annotate]|]. intros d1 H1.
  eapply wp_seq_mono; [apply (live_releaseHolds _ _ _ H1)|].
  { intros h' Hr. unfold releases. rewrite Hr. by cbn. }
  intros d2 H2. eapply wp_seq_mono; [apply open_modify; [done|]|].
  { intros a' Hi' (? & ? & ?). split; [destruct Hi'; constructor; cbn; assumption|].
    split; [done|]. split; [by right|done]. }
  intros d3 H3. eapply wp_seq_mono; [by apply (live_push _ _ H3)|]. intros d4 H4.
  by apply live_notify.
Qed.

(** Re-arming the expired hold keeps its reason and generation. *)
Lemma open_defer k d :
  matched k (Some G_hold_end_unconfirmed_defer) -> OpenA d -> wp act_defer_unconfirmed_end OpenA d.
Proof.
  intros M HL. apply (live_with_attempt _ _ _ HL). intros a Ha Hi HA. apply wp_reading.
  rewrite (open_ctx _ HL). destruct (expiredHold ctx) as [h|] eqn:E; [|done].
  pose proof (expired_hold_ok _ _ _ M E) as Hok. pose proof (mt_guard _ _ M) as Hg.
  eapply wp_seq_mono; [apply open_modify; [done|annotate]|]. intros d1 H1.
  assert (Hr : h_reason h <> H_hard_ceiling).
  { intros Hr. cbn [GUARDS] in Hg. unfold endTimer, holdIs in Hg. rewrite E, Hr in Hg.
    discriminate Hg. }
  apply (live_addHold _ _ H1); [|done]. destruct Hok. by constructor.
Qed.

Lemma open_correction d : OpenA d -> wp act_open_report_correction OpenA d.
Proof.
  intros HL. apply (live_with_attempt _ _ _ HL). intros a Ha Hi HA. apply wp_reading.
  apply wp_if; intros _; [done|].
  eapply wp_seq_mono; [apply open_modify; [done|annotate]|]. intros d1 H1.
  apply (live_addHold _ _ H1); [|done].
  by constructor; cbn; rewrite ?(id_attemptId _ _ Hi), ?(id_generation _ _ Hi).
Qed.

Lemma open_action k g act d :
  matched k g -> act_ok k g act = true -> OpenA d -> wp (ACTIONS act) OpenA d.
Proof.
  intros M Hok HL. pose proof (mt_kind _ _ M) as Hk. rewrite <- (open_ctx _ HL) in Hk.
  destruct act; try discriminate Hok; cbn [ACTIONS];
    try (apply bool_decide_eq_true in Hok; subst k; apply wp_reading; unfold dr_ev; kind_of_evidence);
    try apply wp_reading;
    try (by apply open_bind); try (by apply open_correction);
    try (by apply open_apply_held; [apply (mt_open _ _ M)|]);
    try (by apply open_modify; [done|annotate]).
  - eapply wp_seq_mono; [by apply open_bind|]. intros d1 H1. apply open_modify; [done|annotate].
  - eapply wp_seq_mono; [apply open_modify; [done|annotate]|]. intros d1 H1.
    eapply wp_seq_mono; [by apply open_bind|]. intros d2 H2. apply open_modify; [done|annotate].
  - apply open_modify; [done|]. intros a Hi Ha. by apply annotated_resume.
  - apply open_modify; [done|]. intros a Hi Ha.
    destruct (annotated_resume true (e_at (dr_ev d)) a Hi Ha) as [Hi' Ha'].
    revert Hi' Ha'. generalize (resolve_suspension true (e_at (dr_ev d)) {| a with a_suspension := None |}).
    annotate.
  - apply open_modify; [done|]. intros a Hi Ha. unfold observe_liveness. revert a Hi Ha. case_match; annotate.
  - apply live_when; [done|]. intros _. apply open_modify; [done|annotate].
  - apply open_modify; [done|]. intros a Hi Ha. case_match; [|done]. revert a Hi Ha H. annotate.
  - apply bool_decide_eq_true in Hok. subst g. by eapply open_defer.
Qed.

(** *** Holds *)

Lemma admission_hold_reason r hr :
  admissionOf ctx = Some (Adm_hold r hr) -> hr = H_live_pending \/ hr = H_transcript_quiet.
Proof.
  unfold admissionOf, admitTranscriptFinal, admitTurnEnd, fromVerdict, holdReasonForDecline.
  intros H. repeat case_match; simplify_eq; auto.
Qed.

Lemma union_not_str (m1 m2 : gmap string Scalar) k s :
  m1 !! k <> Some (SStr s) -> m2 !! k <> Some (SStr s) -> (m1 ∪ m2) !! k <> Some (SStr s).
Proof. rewrite lookup_union. by destruct (m1 !! k), (m2 !! k). Qed.

Lemma hold_data_suspended r dec s : hold_data ctx r dec !! "suspendedAt" <> Some (SStr s).
Proof.
  unfold hold_data. repeat apply union_not_str; case_match; try done.
  - unfold suspension_data. case_match; try done. simplify_map_eq. by case_match.
  - unfold text_data. case_match; by simplify_map_eq.
Qed.

Lemma open_hold r u ox m d :
  match r with HR r => r <> H_hard_ceiling | HR_from_admission => True end ->
  OpenA d -> wp (apply_hold r u ox m false) OpenA d.
Proof.
  intros Hr HL. apply (live_with_attempt _ _ _ HL). intros a Ha Hi HA. apply wp_reading.
  apply wp_if; intros _; [done|]. rewrite (open_ctx _ HL).
  assert (Hadd : forall r' dec, r' <> H_hard_ceiling -> wp (addHold {|
    h_holdId := holdId (a_attemptId a) r'; h_attemptId := a_attemptId a;
    h_generation := Some (a_generation a); h_reason := r'; h_until := resolveUntil u a d;
    h_onExpire := ox; h_data := hold_data ctx r' dec; h_createdAt := dr_now d |}) OpenA d).
  { intros r' dec Hne. apply (live_addHold _ _ HL); [|done]. constructor; cbn.
    - by rewrite (id_attemptId _ _ Hi).
    - apply (id_attemptId _ _ Hi).
    - rewrite bool_decide_false by done. by rewrite (id_generation _ _ Hi).
    - done.
    - apply hold_data_suspended. }
  destruct r as [r|]; [by apply Hadd|].
  destruct (admissionOf ctx) as [[| |r hr|]|] eqn:E; try done. apply Hadd.
  by destruct (admission_hold_reason _ _ E) as [-> | ->].
Qed.

Lemma releases_named l h :
  H_hard_ceiling ∉ l -> h_reason h = H_hard_ceiling -> releases (Only_reasons l) [] h = false.
Proof. intros Hl Hr. unfold releases. rewrite Hr. cbn. by apply bool_decide_false. Qed.

Lemma open_release k g r d :
  matched k g -> tpl_ok k g (T_release r) = true -> OpenA d -> wp (apply_release r) OpenA d.
Proof.
  intros M Hok HL. apply wp_reading. unfold dr_ev. rewrite (open_ctx _ HL).
  destruct r as [l| |]; cbn in Hok; [|done|].
  - apply bool_decide_eq_true in Hok. apply (live_releaseHolds _ _ _ HL). intros h. by apply releases_named.
  - destruct g as [g|]; [|done]. pose proof (mt_guard _ _ M) as Hg.
    destruct (ev_body (c_evidence ctx)) eqn:Hb; try done.
    apply (live_releaseHolds _ _ _ HL). intros h. apply releases_named.
    intros <-%list_elem_of_singleton. apply bool_decide_eq_true in Hok.
    assert (Hh : forall h', expiredHold ctx = Some h' -> h_reason h' = H_hard_ceiling).
    { intros h'. unfold expiredHold. rewrite Hb. destruct (find_hold _ _); [|done].
      destruct (_ || _) eqn:?; [done|]. intros; simplify_eq. breflect. by apply dec_stable. }
    unfold releasing_guards in Hok. repeat (apply elem_of_cons in Hok as [->|Hok]; [|]); try set_solver.
    all: cbn [GUARDS] in Hg; unfold queueReportMissing, holdIs in Hg;
      destruct (expiredHold ctx) as [h'|]; try rewrite (Hh h' eq_refl) in Hg;
      rewrite ?andb_false_r in Hg; try discriminate Hg.
Qed.
(** *** Notices *)

Lemma open_send n eg k g d :
  matched k g -> match n with TN_from_modal => k = K_suspension | _ => True end ->
  OpenA d -> wp (send_notice n eg) OpenA d.
Proof.
  intros M Hn HL. apply (live_with_attempt _ _ _ HL). intros a _ _ _. apply wp_reading.
  pose proof (mt_kind _ _ M) as Hk. unfold dr_ev. rewrite (open_ctx _ HL).
  destruct n; try by apply live_notify. subst k. kind_of_evidence. by apply live_notify.
Qed.

Lemma open_reminder d : OpenA d -> wp suspension_reminder OpenA d.
Proof.
  intros HL. apply (live_with_attempt _ _ _ HL). intros a _ _ _. apply wp_reading.
  destruct (d_providerSuspension (a_data a)), (a_suspension a); try done.
  apply wp_if; intros _; [by apply (live_push _ _ HL)|].
  eapply wp_seq_mono; [apply open_modify; [done|annotate]|]. intros d1 H1. by apply live_notify.
Qed.

Lemma open_notify n cond eg k g d :
  matched k g -> tpl_ok k g (T_notify n cond eg) = true -> OpenA d ->
  wp (apply_notify n cond eg) OpenA d.
Proof.
  intros M [Hn Hc]%andb_true_iff HL.
  assert (Hsend : forall d', OpenA d' -> wp (send_notice n eg) OpenA d').
  { intros d' HL'. apply (open_send n eg k g); [done| |done].
    destruct n; [done| |done]. by apply bool_decide_eq_true in Hn. }
  apply (live_with_attempt _ _ _ HL). intros a _ _ _. apply wp_reading.
  destruct cond as [[| |]|]; [| | |by apply Hsend].
  - apply wp_if; intros _; [done|].
    eapply wp_seq_mono; [apply open_modify; [done|annotate]|]. intros d1 H1. by apply Hsend.
  - apply wp_if; intros _; [by apply (live_push _ _ HL)|].
    apply bool_decide_eq_true in Hc. subst k. pose proof (mt_kind _ _ M) as Hk.
    unfold dr_ev. rewrite (open_ctx _ HL). kind_of_evidence.
    apply wp_if; intros _; [by apply (live_push _ _ HL)|].
    eapply wp_seq_mono; [apply open_modify; [done|annotate]|]. intros d1 H1. by apply Hsend.
  - by apply open_reminder.
Qed.

Lemma open_cancel t c d : OpenA d -> wp (apply_cancel_dispatch t c) OpenA d.
Proof.
  intros HL. apply (live_with_attempt _ _ _ HL). intros a _ _ _. apply wp_reading.
  repeat (apply wp_if; intros _; [done|]). destruct t; by apply (live_push _ _ HL).
Qed.

(** Every safe template that does not settle keeps the draft open. *)
Lemma open_template k g t d :
  matched k g -> tpl_ok k g t = true -> settles t = false -> OpenA d ->
  wp (apply_uncommitted t) OpenA d.
Proof.
  intros M Hok Hs HL. destruct t; try discriminate Hs; cbn [apply_uncommitted].
  - by apply (open_action k g).
  - cbn in Hok. breflect. subst. apply open_hold; [|done]. destruct reason; [by breflect|done].
  - by apply (open_release k g).
  - by apply (open_notify _ _ _ k g).
  - apply (live_with_attempt _ _ _ HL). intros a _ _ _. by apply (live_push _ _ HL).
  - apply wp_reading. by apply (live_push _ _ HL).
  - by apply open_cancel.
  - apply (live_with_attempt _ _ _ HL). intros a _ _ _. by apply (live_push _ _ HL).
  - apply (live_with_attempt _ _ _ HL). intros a _ _ _. by apply (live_push _ _ HL).
  - apply (live_with_attempt _ _ _ HL). intros a _ _ _. by apply (live_push _ _ HL).
Qed.
End Annotations.
