(* ===== verification/LedgerSettle.v ===== *)
(** * Settling an attempt

    Commit, reclaim, adoption and the writer-stop protocol against the
    invariant: what a settling step leaves behind. *)

From S2P Require Import Prelude TurnEvidence Vocabulary TurnPolicy TurnTypes Admission Transitions Guards Reducer LedgerInv LedgerSteps.

#[local] Open Scope string_scope.
#[local] Open Scope Z_scope.

(** ** The terminal write *)

(** A draft after its attempt's terminal columns were written. *)
Record Closing (a : TurnAttempt) (os : list Obs) (m : jsmap TurnHold) (d : Draft) : Prop := {
  cl_attempt : dr_attempt d = Some a;
  cl_obs : observed (dr_effects d) = os;
  cl_holds : dr_holds d = m;
  cl_scoped : scoped a (dr_effects d) }.

Lemma closing_push a os os' m e d :
  Closing a os m d -> (isMeshScope a = false -> local_effect e = true) ->
  os' = (os ++ match obs e with Some o => [o] | None => [] end)%list ->
  wp (push e) (Closing a os' m) d.
Proof.
  intros [] He ->. constructor; cbn; auto using scoped_snoc.
  rewrite observed_app. unfold observed at 2. cbn. destruct (obs e); congruence.
Qed.

Lemma filter_all_nil {A} (f : A -> bool) l : (forall x, f x = false) -> List.filter f l = [].
Proof. intros H. induction l as [|x l IH]; cbn; [done|]. by rewrite H. Qed.

Lemma closing_release a os m d :
  NoDup (map fst m) -> Closing a os m d -> wp (releaseHolds All_reasons []) (Closing a os []) d.
Proof.
  intros Hnd [Ha Ho Hm Hs]. unfold wp, releaseHolds, with_attempt. rewrite Ha, Hm.
  rewrite release_loop_filter by done. cbn [fst snd].
  rewrite (filter_all_nil (fun e => negb (releases All_reasons [] e.2))) by done.
  destruct (List.filter _ m); constructor; cbn; auto.
  - rewrite observed_app, Ho. apply app_nil_r.
  - by apply scoped_snoc.
Qed.

Lemma closing_notify a os m k opts d : Closing a os m d -> wp (notify k opts) (Closing a os m) d.
Proof.
  intros HC. unfold notify, wp, with_attempt. rewrite (cl_attempt _ _ _ _ HC).
  destruct (isMeshScope a) eqn:E; [|done].
  eapply closing_push; [done|congruence|by rewrite app_nil_r].
Qed.

Lemma closing_silent a os m e d :
  Closing a os m d -> obs e = None -> local_effect e = true -> wp (push e) (Closing a os m) d.
Proof.
  intros HC He Hl. eapply closing_push; [done|done|]. by rewrite He, app_nil_r.
Qed.

Section QueueWrites.
Context (a : TurnAttempt) (attemptOnly : bool) (o : TurnOutcome) (r : TurnReason).

Definition pend_obs : list Obs :=
  match queue_row a with
  | Some _ => if attemptOnly && stop_confirmed a then [Ob_queue Q_pending] else []
  | None => []
  end.

Definition flip_obs : list Obs :=
  match queue_row a with
  | Some _ => if isMeshScope a && negb attemptOnly then [Ob_queue (Q_outcome o); Ob_task o] else []
  | None => []
  end.

Lemma closing_pend os m d :
  Closing a os m d ->
  wp (match queue_row a with
      | Some (m, t) => when (attemptOnly && stop_confirmed a) (push (E_queue_status m t Q_pending r))
      | None => skip
      end) (Closing a (os ++ pend_obs)%list m) d.
Proof.
  intros HC. unfold pend_obs. destruct (queue_row a) as [[m' t]|]; [|by rewrite app_nil_r].
  destruct (attemptOnly && stop_confirmed a); [by eapply closing_push|by rewrite app_nil_r].
Qed.

Lemma closing_flip os m d :
  Closing a os m d ->
  wp (match queue_row a with
      | Some (m, t) => when (isMeshScope a && negb attemptOnly)
          (push (E_queue_status m t (Q_outcome o) r) ;;; push (E_task_terminal m t o))
      | None => skip
      end) (Closing a (os ++ flip_obs)%list m) d.
Proof.
  intros HC. unfold flip_obs. destruct (queue_row a) as [[m' t]|]; [|by rewrite app_nil_r].
  destruct (isMeshScope a && negb attemptOnly); [|by rewrite app_nil_r].
  eapply wp_seq_mono; [by eapply closing_push|]. intros d1 H1.
  eapply closing_push; [done|done|]. by rewrite <- app_assoc.
Qed.
End QueueWrites.

(** [commit_terminal] commits: the terminal columns, no holds left, and exactly
    the observable effects of the commit. *)
Lemma commit_terminal_ok {A ctx a0 hc} o s r text d :
  Live A ctx a0 hc d -> wp (commit_terminal o s r text) (CommittedAs a0 o s r) d.
Proof.
  intros HL. apply (live_with_attempt _ _ _ HL). intros a Ha Hi HA. apply wp_reading. cbv beta zeta.
  destruct HL as [_ _ _ [Hnd _] _ Hobs Hsc].
  match goal with |- wp (set_attempt ?x ;;; _) _ _ => set (a' := x) end.
  set (ao := bool_decide (r = R_superseded) && bool_decide (a_scope a = Sc_mesh_queue)) in *.
  set (c := Ob_commit (a_generation a) o s r).
  assert (Hmesh : isMeshScope a' = isMeshScope a0) by (rewrite <- (Ident_mesh _ _ Hi); done).
  apply wp_seq_mono with (P := Closing a' [] (dr_holds d)).
  { constructor; cbn; try done. intros Hm. apply Hsc. congruence. }
  intros d1 H1. apply wp_seq_mono with (P := Closing a' [c] (dr_holds d)).
  { by eapply closing_push. }
  intros d2 H2. eapply wp_seq_mono; [by eapply closing_release|]. intros d3 H3.
  eapply wp_seq_mono; [apply (closing_pend a' ao r _ _ _ H3)|]. intros d4 H4.
  eapply wp_seq_mono; [apply (closing_flip a' ao o r _ _ _ H4)|]. intros d5 H5.
  eapply wp_seq_mono; [by apply (closing_silent a' _ _ _ _ H5)|]. intros d6 H6.
  eapply wp_seq_mono; [apply wp_if; intros _; [by apply (closing_notify a' _ _ _ _ _ H6)|exact H6]|].
  intros d7 H7.
  eapply wp_seq_mono; [by apply (closing_silent a' _ _ _ _ H7)|]. intros d8 [Ha8 Ho8 Hm8 Hs8].
  split; cbn; [done|exact Hm8|by intros Hm; apply Hs8; congruence|].
  eexists a', _. split; [done|]. split; [done|]. destruct Hi. repeat split; try done.
  rewrite Ho8. unfold commit_obs, pend_obs, flip_obs. by destruct (queue_row a').
Qed.

(** ** Writer stop *)

Section WriterStop.
Context {ctx : GuardCtx} {a0 : TurnAttempt} {hc : option TurnHold}.
Implicit Types (d : Draft) (stop : WriterStop).

Lemma stopping_with_stop f Q stop d :
  Stopping ctx a0 hc stop d ->
  (forall a, dr_attempt d = Some a -> Ident a0 a -> stopping_with stop a -> wp (f a stop) Q d) ->
  wp (with_stop f) Q d.
Proof.
  intros HS Hf. apply (live_with_attempt _ _ _ HS). intros a Ha Hi HA.
  destruct HA as [Hst Hw]. rewrite Hw. by apply Hf.
Qed.

(** Installing a stop record on a draft whose state is already [stopping]. *)
Lemma live_set_stop A stop d :
  Live A ctx a0 hc d -> (forall a, A a -> a_state a = St_stopping) ->
  wp (set_stop stop) (Stopping ctx a0 hc stop) d.
Proof.
  intros HL HA. apply (live_modify _ _ _ HL). intros a Hi Ha. specialize (HA a Ha).
  split; [destruct Hi; by constructor|]. by split.
Qed.

Lemma stopping_set stop stop' d :
  Stopping ctx a0 hc stop d -> wp (set_stop stop') (Stopping ctx a0 hc stop') d.
Proof. intros HS. apply (live_set_stop _ _ _ HS). by intros a []. Qed.

Lemma stopping_update f stop d :
  Stopping ctx a0 hc stop d -> wp (update_stop f) (Stopping ctx a0 hc (f stop)) d.
Proof. intros HS. apply (stopping_with_stop _ _ _ _ HS). intros a _ _ _. by eapply stopping_set. Qed.

Lemma stopping_request stop d :
  Stopping ctx a0 hc stop d -> wp requestWriterStop (Stopping ctx a0 hc stop) d.
Proof.
  intros HS. apply (stopping_with_stop _ _ _ _ HS). intros a _ Hi _. apply wp_reading.
  eapply wp_seq_mono; [by apply (live_push _ _ HS)|]. intros d1 H1.
  apply (live_addHold _ _ H1); [|done].
  by constructor; cbn; rewrite ?(id_attemptId _ _ Hi), ?(id_generation _ _ Hi).
Qed.
End WriterStop.

Lemma live_release_any {A ctx a0 hc} reasons keep d :
  Live A ctx a0 hc d -> wp (releaseHolds reasons keep) (fun d' => exists hc', Live A ctx a0 hc' d') d.
Proof.
  intros HL. apply (live_with_attempt _ _ _ HL). intros a Ha Hi HA.
  destruct HL as [? ? ? [Hnd Hf] ? ? ?].
  cbv beta delta [wp]. rewrite release_loop_filter by done. cbn [fst snd].
  destruct (map _ (List.filter _ _)); eexists; constructor; cbn; eauto using holds_ok_filter.
  - by apply holds_ok_filter.
  - by apply holds_ok_filter.
  - by apply observed_snoc.
  - by apply scoped_snoc.
Qed.

(** What a step that starts or keeps a stop leaves: either the verdict to settle
    with is recorded, or the hard ceiling still bounds the attempt. *)
Definition StopPost (ctx : GuardCtx) (a0 : TurnAttempt) (hc : option TurnHold) (d : Draft) : Prop :=
  exists stop hc', Stopping ctx a0 hc' stop d /\ ws_confirmed stop = None
    /\ (ws_terminal stop = None -> ws_reason stop <> R_hard_ceiling /\ hc' = hc /\ is_Some hc).

(** An open attempt of a mesh, the precondition of every stop. *)
Record stoppable (a0 : TurnAttempt) : Prop := {
  sp_mesh : isMeshScope a0 = true;
  sp_nostop : d_writerStop (a_data a0) = None }.

Section BeginStop.
Context {ctx : GuardCtx} {a0 : TurnAttempt} {hc : option TurnHold}.
Hypothesis Hsp : stoppable a0.

Lemma begin_stop reason d :
  Open ctx a0 hc d ->
  wp (beginWriterStop reason) (fun d' => exists stop hc',
    Stopping ctx a0 hc' stop d' /\ ws_confirmed stop = None /\ ws_terminal stop = None
    /\ ws_reason stop = reason /\ (reason <> R_hard_ceiling -> hc' = hc)) d.
Proof.
  intros HL. apply (live_with_attempt _ _ _ HL). intros a Ha Hi (Hs & _).
  rewrite Hs, (sp_nostop _ Hsp). apply wp_reading.
  eapply wp_seq_mono; [apply (live_modify (fun a => a_state a = St_stopping) _ _ HL)|].
  { intros a' [] _. by split; [constructor|]. }
  intros d1 H1. eapply wp_seq_mono; [by apply (live_set_stop _ _ _ H1)|]. intros d2 H2.
  set (stop := {| ws_requestId := _ |}) in H2.
  apply wp_seq_mono with (P := fun d' => exists hc', Stopping ctx a0 hc' stop d'
                                    /\ (reason <> R_hard_ceiling -> hc' = hc)).
  - destruct (decide (reason = R_hard_ceiling)) as [E|E].
    + eapply wp_mono; [|apply (live_release_any _ _ _ H2)]. intros d3 [hc' H3]. by exists hc'.
    + rewrite bool_decide_false by done.
      eapply wp_mono; [|apply (live_releaseHolds _ _ _ H2)]; [intros d3 H3; by exists hc|].
      intros h Hr. unfold releases. by rewrite Hr.
  - intros d3 (hc' & H3 & Hhc). eapply wp_mono; [|apply (stopping_request _ _ H3)]. intros d4 H4.
    by exists stop, hc'.
Qed.

Lemma begin_stop_terminal reason t d :
  Open ctx a0 hc d ->
  wp (beginWriterStop reason ;;; update_stop (fun stop => {| stop with ws_terminal := Some t |}))
     (StopPost ctx a0 hc) d.
Proof.
  intros HL. eapply wp_seq_mono; [by apply begin_stop|]. intros d1 (stop & hc' & HS & Hc & _ & _ & _).
  eapply wp_mono; [|apply (stopping_update _ _ _ HS)]. intros d2 H2. by eexists _, hc'.
Qed.

Lemma begin_stop_reclaim reason d :
  is_Some hc -> reason <> R_hard_ceiling -> Open ctx a0 hc d ->
  wp (beginWriterStop reason) (StopPost ctx a0 hc) d.
Proof.
  intros Hhc Hr HL. eapply wp_mono; [|by apply begin_stop]. intros d1 (stop & hc' & HS & Hc & _ & Hre & Hh).
  exists stop, hc'. split; [done|]. split; [done|]. intros _. rewrite Hre. auto.
Qed.
End BeginStop.

(** ** Commit and reclaim of an open attempt *)

(** The two ways a settling template ends. *)
Definition Settled (ctx : GuardCtx) (a0 : TurnAttempt) (hc : option TurnHold) (d : Draft) : Prop :=
  StopPost ctx a0 hc d /\ isMeshScope a0 = true
  \/ exists o s r, CommittedAs a0 o s r d /\ commit_needs_stop ctx a0 r = false.

Section SettleOpen.
Context {ctx : GuardCtx} {a0 : TurnAttempt} {hc : option TurnHold}.
Hypothesis Hns : d_writerStop (a_data a0) = None.
Hypothesis Hhc : isMeshScope a0 = true -> is_Some hc.
Implicit Types (d : Draft).

Lemma settle_commit o s r text d : Open ctx a0 hc d -> wp (commit o s r text) (Settled ctx a0 hc) d.
Proof.
  intros HL. apply (live_with_attempt _ _ _ HL). intros a Ha Hi HA. apply wp_reading.
  apply wp_if; intros Hst.
  - assert (Hsp : stoppable a0).
    { constructor; [|done]. unfold commit_needs_stop in Hst. breflect.
      by rewrite <- (Ident_mesh _ _ Hi). }
    apply wp_reading. eapply wp_mono; [|apply (begin_stop_terminal Hsp _ _ _ HL)]. intros d1 H1.
    left. split; [done|apply Hsp].
  - eapply wp_mono; [|by eapply commit_terminal_ok]. intros d1 H1. right. exists o, s, r.
    split; [done|]. destruct HA as (Hw & _). rewrite (open_ctx _ HL) in Hst. rewrite <- Hst.
    unfold commit_needs_stop, stop_confirmed. by rewrite Hw, (Ident_mesh _ _ Hi).
Qed.

Lemma settle_reclaim r d :
  r <> R_hard_ceiling -> Open ctx a0 hc d -> wp (reclaim r) (Settled ctx a0 hc) d.
Proof.
  intros Hr HL. apply (live_with_attempt _ _ _ HL). intros a Ha Hi (Hs & _). apply wp_reading.
  apply wp_if; intros Hp; [by apply settle_commit|].
  apply wp_if; intros _; [by apply settle_commit|].
  unfold stop_confirmed. rewrite Hs, Hns. cbn [negb].
  assert (Hsp : stoppable a0).
  { constructor; [|done]. rewrite <- (Ident_mesh _ _ Hi). unfold isMeshScope. breflect.
    by apply bool_decide_eq_true. }
  eapply wp_mono; [|apply (begin_stop_reclaim Hsp _ _ (Hhc (sp_mesh _ Hsp)) Hr HL)]. intros d1 H1. left. split; [done|apply Hsp].
Qed.

Lemma settle_adopt k g d :
  matched (ctx:=ctx) (a0:=a0) k g -> tpl_ok k g T_adopt_prev_generation = true -> Open ctx a0 hc d ->
  isMeshScope a0 = true -> wp adopt_prev_generation (Settled ctx a0 hc) d.
Proof.
  intros M Hok HL Hm. apply bool_decide_eq_true in Hok. subst g.
  pose proof (mt_guard _ _ M) as Hg. cbn [GUARDS] in Hg. unfold prev_generation_completion, attempt_is in Hg.
  rewrite (mt_attempt _ _ M) in Hg.
  apply (live_with_attempt _ _ _ HL). intros a Ha Hi HA. apply wp_reading.
  cbv beta zeta. destruct (adoptedTerminal (dr_ev d)) as [[o s] r]. rewrite (id_prev _ _ Hi).
  destruct (a_prevGeneration a0) as [prev|]; [|done]. cbv beta iota.
  apply wp_if; intros _.
  - eapply wp_mono; [|apply (begin_stop_terminal {| sp_mesh := Hm; sp_nostop := Hns |} _ _ _ HL)].
    intros d1 H1. by left.
  - eapply wp_seq_mono; [apply (open_modify _ _ HL); annotate|]. intros d1 H1. by apply settle_commit.
Qed.

Lemma resolved_outcome k g o s r x d :
  matched (ctx:=ctx) (a0:=a0) k g -> tpl_ok k g (T_commit o s r x) = true -> Open ctx a0 hc d ->
  is_Some (resolve_outcome o d).
Proof.
  intros M [Ho _]%andb_true_iff HL. pose proof (mt_kind _ _ M) as Hk. unfold resolve_outcome, dr_ev.
  destruct (lv_attempt _ _ _ _ _ HL) as (a & Ha & _ & _ & _ & Hrep). rewrite Ha, (open_ctx _ HL).
  destruct o; [eauto| | |]; try (apply bool_decide_eq_true in Ho; subst k; kind_of_evidence; eauto).
  destruct g as [g|]; [|done]. apply bool_decide_eq_true in Ho. pose proof (mt_guard _ _ M) as Hg.
  assert (Hr : reportedThisGeneration ctx = true).
  { unfold reported_guards in Ho.
    repeat (apply elem_of_cons in Ho as [->|Ho]); [| | |by apply not_elem_of_nil in Ho];
      cbn [GUARDS] in Hg; unfold finishedAfterReport, exitAfterReport in Hg; [by breflect..|].
    case_match; breflect; done. }
  unfold reportedThisGeneration, attempt_is, reported in Hr. rewrite (mt_attempt _ _ M) in Hr.
  destruct (d_report (a_data a0)); [|done]. destruct Hrep as [rep ->]; eauto.
Qed.

Lemma resolved_reason k g o s r x :
  matched (ctx:=ctx) (a0:=a0) k g -> tpl_ok k g (T_commit o s r x) = true ->
  is_Some (resolve_reason r (c_evidence ctx)).
Proof.
  intros M [_ Hr]%andb_true_iff. pose proof (mt_kind _ _ M) as Hk. unfold resolve_reason.
  destruct r; [eauto|..]; apply bool_decide_eq_true in Hr; try subst k; try (kind_of_evidence; eauto).
  unfold ev_kind in Hr. destruct (ev_body _); cbn in Hr; eauto; set_solver.
Qed.

Lemma resolved_reclaim k g r a :
  matched (ctx:=ctx) (a0:=a0) k g -> tpl_ok k g (T_reclaim r) = true ->
  exists reason, resolve_reclaim r a (c_evidence ctx) = Some reason /\ reason <> R_hard_ceiling.
Proof.
  intros M Hok. destruct r; cbn in *.
  - apply bool_decide_eq_true in Hok. eauto.
  - apply bool_decide_eq_true in Hok. subst g. pose proof (mt_guard _ _ M) as Hg. cbn [GUARDS] in Hg.
    destruct (ev_body (c_evidence ctx)); try done. destruct reason; try done; eexists; by split.
  - eexists; split; [done|]. by destruct (a_state a).
Qed.

(** Every safe settling template settles. *)
Lemma settle_template k g t d :
  matched (ctx:=ctx) (a0:=a0) k g -> tpl_ok k g t = true -> settles t = true ->
  (t = T_adopt_prev_generation -> isMeshScope a0 = true) ->
  Open ctx a0 hc d -> wp (apply_uncommitted t) (Settled ctx a0 hc) d.
Proof.
  intros M Hok Hs Hm HL. destruct t; try discriminate Hs; cbn [apply_uncommitted].
  - apply (live_with_attempt _ _ _ HL). intros a _ _ _. apply wp_reading.
    destruct (resolved_outcome _ _ _ _ _ _ _ M Hok HL) as [o ->].
    unfold dr_ev. rewrite (open_ctx _ HL). destruct (resolved_reason _ _ _ _ _ _ M Hok) as [r ->].
    by apply settle_commit.
  - apply (live_with_attempt _ _ _ HL). intros a _ _ _. apply wp_reading.
    unfold dr_ev. rewrite (open_ctx _ HL). destruct (resolved_reclaim _ _ _ a M Hok) as (r & -> & ?).
    by apply settle_reclaim.
  - eapply settle_adopt; eauto.
Qed.
End SettleOpen.

(** * The writer-stop protocol against the invariant

    Steps taken while an attempt is [stopping]: overrides, retries, a report that
    arrives meanwhile, the confirmed stop (commit or next generation) and the
    unreachable writer. *)

(** What the reclaim of attempt [a] shows. *)
Definition reclaim_obs (a : TurnAttempt) : list Obs :=
  Ob_reclaim (a_generation a) (a_generation a + 1) ::
  match queue_row a with
  | Some _ => if bool_decide (a_scope a = Sc_mesh_queue) then [Ob_queue Q_pending] else []
  | None => []
  end.

(** Attempt [a0] moved to its next generation: a fresh accepted attempt with the
    old hard ceiling. *)
Record AdvancedFrom (a0 : TurnAttempt) (hc : option TurnHold) (d : Draft) : Prop := {
  ad_committed : dr_committed d = false;
  ad_holds : holds_ok {| a0 with a_generation := a_generation a0 + 1 |} (dr_holds d);
  ad_ceiling : map_get (ceiling_id a0) (dr_holds d) = hc;
  ad_scoped : scoped a0 (dr_effects d);
  ad_budget : a_reclaimCount a0 < RECLAIM_BUDGET;
  ad_queue : a_scope a0 = Sc_mesh_queue;
  ad_attempt : exists a, dr_attempt d = Some a /\ a_state a = St_accepted /\ a_terminal a = a_terminal a0
                 /\ a_attemptId a = a_attemptId a0 /\ a_scope a = a_scope a0
                 /\ a_generation a = a_generation a0 + 1
                 /\ a_reclaimCount a = a_reclaimCount a0 + 1
                 /\ a_acceptedAt a = a_acceptedAt a0
                 /\ d_writerStop (a_data a) = None
                 /\ observed (dr_effects d) = reclaim_obs a0 }.

(** ** Next generation *)

Section Advance.
Context {ctx : GuardCtx} {a0 : TurnAttempt} {hc : option TurnHold}.
Implicit Types (d : Draft) (stop : WriterStop).

(** Only the hard ceiling survives; it belongs to every generation. *)
Lemma holds_ok_next (m : jsmap TurnHold) :
  holds_ok a0 m ->
  holds_ok {| a0 with a_generation := a_generation a0 + 1 |}
    (List.filter (fun e => negb (releases All_reasons [H_hard_ceiling] e.2)) m).
Proof.
  intros Hm. destruct (holds_ok_filter _ (fun e => negb (releases All_reasons [H_hard_ceiling] e.2)) _ Hm)
    as [Hnd Hf]. split; [done|]. rewrite Forall_forall in Hf |- *. intros e He.
  destruct (Hf e He) as [Hid [H1 H2 H3 H4 H5]]. split; [done|].
  apply list_elem_of_In, filter_In in He as [_ Hk]. unfold releases in Hk. breflect.
  assert (Hr : h_reason e.2 = H_hard_ceiling).
  { destruct (bool_decide_reflect (h_reason e.2 ∈ [H_hard_ceiling])); [set_solver|done]. }
  constructor; cbn; try done. rewrite H3, Hr. by rewrite !bool_decide_true.
Qed.

Lemma ceiling_kept (m : jsmap TurnHold) :
  holds_ok a0 m ->
  map_get (ceiling_id a0) (List.filter (fun e => negb (releases All_reasons [H_hard_ceiling] e.2)) m)
  = map_get (ceiling_id a0) m.
Proof.
  intros [_ Hf]. apply map_get_filter. intros v Hv. apply map_get_In, list_elem_of_In in Hv.
  rewrite Forall_forall in Hf. destruct (Hf _ Hv) as [Hid Hok]. cbn in *.
  rewrite (ho_id _ _ Hok) in Hid. apply holdId_inj in Hid. unfold releases. by rewrite <- Hid.
Qed.

Lemma advance_ok reason stop d :
  a_scope a0 = Sc_mesh_queue -> a_reclaimCount a0 < RECLAIM_BUDGET ->
  Stopping ctx a0 hc stop d -> wp (advance_generation reason) (AdvancedFrom a0 hc) d.
Proof.
  intros Hq Hb HS. apply (live_with_attempt _ _ _ HS). intros a Ha Hi HA. apply wp_reading.
  destruct HS as [_ Hc _ Hh Hhc Ho Hs]. cbv zeta. set (a' := next_generation a).
  assert (Hm : isMeshScope a0 = true) by (unfold isMeshScope; by rewrite Hq).
  assert (Hrow : queue_row a' = queue_row a0)
    by (unfold queue_row; cbn; by rewrite (id_meshId _ _ Hi), (id_taskId _ _ Hi)).
  cbv beta delta [wp seq set_attempt push].
  unfold releaseHolds, with_attempt. cbn [dr_attempt dr_holds].
  rewrite release_loop_filter by apply Hh. cbn [fst snd].
  set (m := List.filter (fun e => negb (releases All_reasons [H_hard_ceiling] e.2)) (dr_holds d)). pose proof (holds_ok_next _ Hh) as Hm'.
  pose proof (ceiling_kept _ Hh) as Hcl. fold m in Hm', Hcl.
  set (h := {| h_holdId := _ |}).
  assert (Hok : hold_ok {| a0 with a_generation := a_generation a0 + 1 |} h).
  { by constructor; cbn; rewrite ?(id_attemptId _ _ Hi), ?(id_generation _ _ Hi). }
  assert (Hfin : forall es, scoped a0 es -> observed es = reclaim_obs a0 -> forall d',
    dr_attempt d' = Some a' -> dr_committed d' = false -> dr_holds d' = map_set (h_holdId h) h m ->
    dr_effects d' = es -> AdvancedFrom a0 hc d').
  { intros es Hes Hob d' E1 E2 E3 E4. constructor; rewrite ?E2, ?E3, ?E4; try done.
    - by apply holds_ok_set.
    - rewrite map_get_set, decide_False, Hcl; [done|]. cbn. unfold ceiling_id.
      rewrite (id_attemptId _ _ Hi). by intros ?%holdId_inj.
    - exists a'. destruct Hi; cbn; repeat split; try done; lia || congruence. }
  assert (Hm0 : forall es, scoped a0 es) by (intros es ?; congruence).
  rewrite (id_scope _ _ Hi : a_scope a' = _), Hq, bool_decide_true, Hrow by done.
  destruct (map _ (List.filter _ _)), (queue_row a0) as [[q t]|] eqn:Er; cbn;
    (eapply (fun es => Hfin es (Hm0 es)); [|reflexivity|exact Hc|reflexivity|reflexivity]); cbn;
    rewrite !observed_app, Ho; unfold observed, reclaim_obs; cbn;
    by rewrite Er, ?Hq, (id_generation _ _ Hi).
Qed.
End Advance.

(** ** Settling a confirmed stop *)

Section Settle.
Context {ctx : GuardCtx} {a0 : TurnAttempt} {hc : option TurnHold}.
Hypothesis Hmesh : isMeshScope a0 = true.
Implicit Types (d : Draft) (stop : WriterStop).

(** With the stop confirmed, [commit] commits. *)
Lemma confirmed_commit o s r text stop d :
  ws_confirmed stop = Some true -> Stopping ctx a0 hc stop d ->
  wp (commit o s r text) (CommittedAs a0 o s r) d.
Proof.
  intros Hc HS. apply (live_with_attempt _ _ _ HS). intros a _ _ [_ Hw]. apply wp_reading.
  apply wp_if; intros Hst; [|by eapply commit_terminal_ok].
  unfold commit_needs_stop, stop_confirmed in Hst. rewrite Hw, Hc in Hst. cbn in Hst.
  by rewrite andb_false_r in Hst.
Qed.

Definition Resolved (d : Draft) : Prop :=
  AdvancedFrom a0 hc d \/ exists o s r, CommittedAs a0 o s r d.

Lemma confirmed_commit_resolved o s r text stop d :
  ws_confirmed stop = Some true -> Stopping ctx a0 hc stop d -> wp (commit o s r text) Resolved d.
Proof.
  intros Hc HS. eapply wp_mono; [|by apply (confirmed_commit o s r text _ _ Hc HS)].
  intros d1 H1. right. eauto.
Qed.

Lemma confirmed_reclaim r stop d :
  ws_confirmed stop = Some true -> Stopping ctx a0 hc stop d -> wp (reclaim r) Resolved d.
Proof.
  intros Hc HS. apply (live_with_attempt _ _ _ HS). intros a _ Hi [_ Hw]. apply wp_reading.
  pose proof (confirmed_commit_resolved) as Hcm.
  apply wp_if; intros _; [by apply (Hcm _ _ _ _ _ _ Hc HS)|].
  apply wp_if; intros _; [by apply (Hcm _ _ _ _ _ _ Hc HS)|].
  unfold stop_confirmed. rewrite Hw, Hc. cbn [opt_true negb].
  apply wp_if; intros Hd; [by apply (Hcm _ _ _ _ _ _ Hc HS)|].
  apply wp_if; intros Hb; [by apply (Hcm _ _ _ _ _ _ Hc HS)|]. breflect.
  rewrite (id_scope _ _ Hi) in Hd. rewrite (id_reclaims _ _ Hi) in Hb.
  assert (Hq : a_scope a0 = Sc_mesh_queue) by (unfold isMeshScope in Hmesh; breflect; by destruct (a_scope a0)).
  eapply wp_mono; [|apply (advance_ok _ _ _ Hq Hb HS)]. by left.
Qed.

(** Adopting a report changes the verdict, not the confirmation. *)
Lemma adopt_report stop d :
  Stopping ctx a0 hc stop d ->
  wp adoptReportHeldDuringStop (fun d' => exists stop', Stopping ctx a0 hc stop' d'
    /\ ws_confirmed stop' = ws_confirmed stop
    /\ (stop' = stop \/ is_Some (ws_terminal stop'))) d.
Proof.
  intros HS. apply (stopping_with_stop _ _ _ _ HS). intros a _ _ _.
  destruct (reportHeldDuringStop a) as [rep|]; [|exists stop; by auto].
  cbv zeta. apply wp_if; intros _; [exists stop; by auto|].
  eapply wp_mono; [|apply (stopping_set _ _ _ HS)]. intros d1 H1.
  eexists. split; [done|]. cbn. eauto.
Qed.

(** A confirmed stop advances only when no verdict was recorded. *)
Lemma settle_confirmed_ok stop d :
  (ws_terminal stop = None -> ws_reason stop <> R_hard_ceiling) ->
  Stopping ctx a0 hc stop d ->
  wp settle_confirmed (fun d' => ws_terminal stop = None /\ AdvancedFrom a0 hc d'
                                 \/ exists o s r, CommittedAs a0 o s r d') d.
Proof.
  intros Hr HS. eapply wp_seq_mono; [apply (stopping_update _ _ _ HS)|]. intros d1 H1.
  eapply wp_seq_mono; [apply (adopt_report _ _ H1)|]. intros d2 (stop2 & H2 & Hc & Hs2).
  cbn in Hc. apply (stopping_with_stop _ _ _ _ H2). intros a _ _ _.
  destruct (ws_terminal stop2) as [t|] eqn:Et.
  - eapply wp_seq_mono with (P := Stopping ctx a0 hc stop2).
    + apply wp_if; intros _; [|done]. apply (live_modify _ _ _ H2).
      intros a' [] [? ?]. by split; [constructor|].
    + intros d3 H3. eapply wp_mono; [|apply (confirmed_commit _ _ _ _ _ _ Hc H3)]. eauto.
  - destruct Hs2 as [->|[? ?]]; [|done]. cbn in Et |- *.
    rewrite bool_decide_false by auto.
    eapply wp_mono; [|apply (confirmed_reclaim _ _ _ Hc H2)]. intros d3 [?|?]; auto.
Qed.

Lemma settle_unreachable by_ stop d :
  Stopping ctx a0 hc stop d ->
  wp (settleUnreachableWriter by_) (fun d' => exists o s r, CommittedAs a0 o s r d') d.
Proof.
  intros HS. eapply wp_seq_mono; [apply (stopping_update _ _ _ HS)|]. intros d1 H1.
  assert (Hcm : forall o s r text stop' d', ws_confirmed stop' = Some true -> Stopping ctx a0 hc stop' d' ->
    wp (commit o s r text) (fun d' => exists o s r, CommittedAs a0 o s r d') d').
  { intros o s r text stop' d' Hc H'.
    eapply wp_mono; [|apply (confirmed_commit o s r text _ _ Hc H')]. eauto. }
  assert (Hfail : wp (update_stop (fun stop => {| stop with ws_terminal := Some scheduler_failure |}) ;;;
                      settle_with scheduler_failure R_writer_unreachable)
                    (fun d' => exists o s r, CommittedAs a0 o s r d') d1).
  { eapply wp_seq_mono; [apply (stopping_update _ _ _ H1)|]. intros d2 H2.
    by apply (fun E => Hcm _ _ _ _ _ _ E H2). }
  apply (stopping_with_stop _ _ _ _ H1). intros a _ _ _. destruct (ws_terminal _); [|done].
  apply wp_if; intros _; [|done]. by apply (fun E => Hcm _ _ _ _ _ _ E H1).
Qed.
End Settle.

(** ** One step of a stopping attempt *)

(** The hard ceiling has passed for attempt [a]. *)
Definition past_ceiling (i : ReduceInput) (a : TurnAttempt) : bool :=
  a_acceptedAt a + hardCeilingMs (in_policy i) <=? in_nowMs i.

Section StoppingStep.
Context {ctx : GuardCtx} {a0 : TurnAttempt} {hc : option TurnHold}.
Hypothesis Hmesh : isMeshScope a0 = true.
Implicit Types (d : Draft) (stop : WriterStop) (i : ReduceInput).

(** Past the ceiling the step has a verdict to settle with. *)
Lemma overrides_ok i d :
  StopPost ctx a0 hc d ->
  wp (stopping_overrides i) (fun d' => exists stop hc', Stopping ctx a0 hc' stop d'
    /\ ws_confirmed stop = None
    /\ (ws_terminal stop = None -> ws_reason stop <> R_hard_ceiling /\ hc' = hc /\ is_Some hc)
    /\ (past_ceiling i a0 = true -> is_Some (ws_terminal stop))) d.
Proof.
  intros (stop & hc' & HS & Hc & Ht).
  apply wp_seq_mono with (P := fun d' => exists stop hc', Stopping ctx a0 hc' stop d'
    /\ ws_confirmed stop = None
    /\ (ws_terminal stop = None -> ws_reason stop <> R_hard_ceiling /\ hc' = hc /\ is_Some hc)
    /\ (past_ceiling i a0 = true -> is_Some (ws_terminal stop))).
  - apply (live_with_attempt _ _ _ HS). intros a _ Hi _. unfold past_ceiling.
    rewrite (id_acceptedAt _ _ Hi). apply wp_if; intros Hp.
    + eapply wp_seq_mono; [apply (stopping_update _ _ _ HS)|]. intros d1 H1.
      eapply wp_mono; [|apply (live_release_any _ _ _ H1)]. intros d2 [hc2 H2].
      eexists _, hc2. split; [done|]. cbn. by eauto.
    + exists stop, hc'. rewrite Hp. done.
  - intros d1 (stop1 & hc1 & H1 & Hc1 & Ht1 & Hp1). unfold reason_of_cancel.
    destruct (ev_body (in_evidence i)); try by exists stop1, hc1.
    eapply wp_mono; [|apply (stopping_update _ _ _ H1)]. intros d2 H2.
    eexists _, hc1. split; [done|]. cbn. by eauto.
Qed.

(** A step of a stopping attempt keeps stopping, advances or commits. *)
Definition StopStep i d : Prop :=
  (StopPost ctx a0 hc d /\ in_stopConfirmed i = false
   /\ (is_Some (in_writerUnreachable i) -> is_cancel (in_evidence i) = true))
  \/ (in_stopConfirmed i = true /\ past_ceiling i a0 = false /\ is_Some hc
      /\ AdvancedFrom a0 hc d)
  \/ ((in_stopConfirmed i = true \/ is_Some (in_writerUnreachable i))
      /\ exists o s r, CommittedAs a0 o s r d).

Lemma retry_ok stop hc' d :
  Stopping ctx a0 hc' stop d -> ws_confirmed stop = None ->
  (ws_terminal stop = None -> ws_reason stop <> R_hard_ceiling /\ hc' = hc /\ is_Some hc) ->
  wp stop_retry (StopPost ctx a0 hc) d.
Proof.
  intros HS Hc Ht. eapply wp_seq_mono; [apply (live_releaseHolds _ _ _ HS)|].
  { intros h Hr. unfold releases. by rewrite Hr. }
  intros d1 H1. apply (stopping_with_stop _ _ _ _ H1). intros a _ _ _.
  apply wp_if; intros _; [|apply wp_if; intros _; [|by exists stop, hc']].
  - eapply wp_seq_mono; [apply (stopping_set _ _ _ H1)|]. intros d2 H2.
    eapply wp_mono; [|apply (stopping_request _ _ H2)]. intros d3 H3. eexists _, hc'. by split.
  - eapply wp_seq_mono; [apply (stopping_set _ _ _ H1)|]. intros d2 H2.
    eapply wp_seq_mono; [apply (live_notify _ _ _ H2)|]. intros d3 H3.
    eapply wp_mono; [|by apply (live_push _ _ H3)]. intros d4 H4. eexists _, hc'. by split.
Qed.

Lemma stopping_step_ok i ctx' d : StopPost ctx a0 hc d -> dr_ctx d = ctx ->
  c_evidence ctx = in_evidence i -> wp (stopping_step i ctx') (StopStep i) d.
Proof.
  intros HP Hctx Hev. eapply wp_seq_mono; [apply (overrides_ok i _ HP)|].
  intros d1 (stop & hc' & H1 & Hc & Ht & Hp).
  assert (Hrec : forall note, in_stopConfirmed i = false ->
    (is_Some (in_writerUnreachable i) -> is_cancel (in_evidence i) = true) -> wp (push (E_record note)) (StopStep i) d1).
  { intros note Hn Hu. eapply wp_mono; [|by apply (live_push _ _ H1)]. intros d2 H2. left.
    split; [|done]. by exists stop, hc'. }
  assert (Hconf : in_stopConfirmed i = true -> wp settle_confirmed (StopStep i) d1).
  { intros Hi. eapply wp_mono; [|apply (settle_confirmed_ok Hmesh _ _ (fun E => proj1 (Ht E)) H1)].
    intros d2 [[Hn HA]|HC]; [|right; right; by auto]. right; left. destruct (Ht Hn) as (_ & -> & ?).
    split; [done|]. split; [|done]. destruct (past_ceiling i a0); [|done].
    destruct Hp as [t ?]; [done|congruence]. }
  destruct (in_writerUnreachable i) as [by_|] eqn:Eu.
  - apply wp_if; intros Hb; [|apply wp_if; intros Hi; [by auto|]; apply Hrec; [done|]].
    2: { rewrite Hi in Hb. by destruct (is_cancel (in_evidence i)). }
    eapply wp_seq_mono; [apply (adopt_report _ _ H1)|]. intros d2 (stop2 & H2 & _).
    eapply wp_mono; [|apply (settle_unreachable _ _ _ H2)]. intros d3 H3. right; right. rewrite Eu. eauto.
  - assert (Hu : is_Some (in_writerUnreachable i) -> is_cancel (in_evidence i) = true) by (rewrite Eu; by intros []).
    apply wp_if; intros Hi; [by auto|]. apply wp_if; intros _.
    + eapply wp_mono; [|by apply (retry_ok _ _ _ H1)]. intros d2 H2. by left.
    + destruct (ev_body (in_evidence i)) eqn:Eb; try by apply Hrec.
      apply wp_reading. unfold dr_ev. rewrite (lv_ctx _ _ _ _ _ H1), Hev, Eb.
      eapply wp_mono; [|apply (live_modify (stopping_with stop) _ _ H1)].
      * intros d2 H2. left. split; [|done]. by exists stop, hc'.
      * intros a [] [? ?]. by split; [constructor|].
Qed.
End StoppingStep.
