(* ===== verification/LedgerTable.v ===== *)
(** * The transition table against the invariant

    Facts of the table checked by computation, and what running a matched rule
    does to a well-formed open, stopping or terminal attempt. *)

From S2P Require Import Prelude TurnEvidence Vocabulary TurnPolicy TurnTypes Admission Transitions Guards Reducer LedgerInv LedgerSteps LedgerSettle.

#[local] Open Scope string_scope.
#[local] Open Scope Z_scope.

(** ** Checks on rules *)

(** Templates that only emit records and notices. *)
Definition quiet (t : EffectTemplate) : bool :=
  match t with
  | T_record _ | T_cancel_dispatch _ _ | T_notify (TN _) None _ => true
  | _ => false
  end.

(** At most the last template settles. *)
Fixpoint settles_last (ts : list EffectTemplate) : bool :=
  match ts with
  | [] | [_] => true
  | t :: ts => negb (settles t) && settles_last ts
  end.

(** What a rule that acts on an existing attempt satisfies: its templates are
    safe for every kind it is on, settling comes last, a rule that does not
    settle targets an open state, and a recording rule is quiet. *)
Definition rule_ok (r : TransitionRule) : bool :=
  forallb (fun k => forallb (tpl_ok k (r_guard r)) (r_effects r)) (r_on r)
  && settles_last (r_effects r)
  && match r_to r with
     | To s => existsb settles (r_effects r) || open_state s
     | To_outcome => existsb settles (r_effects r)
     | To_same => true
     end
  && match r_verdict r with
     | V_applied => true
     | _ => forallb quiet (r_effects r)
     end.

Lemma table_rules_ok :
  forallb (fun r => bool_decide (r_lane r = Lane_none) || rule_ok r) TRANSITIONS = true.
Proof. vm_compute. reflexivity. Qed.

(** Rules for a terminal attempt, and stale rules for a stopping one. *)
Definition frozen_rule (r : TransitionRule) : bool :=
  forallb quiet (r_effects r)
  || bool_decide (r_on r = [K_coordinator_ack]) && match r_effects r with [T_act Act_mark_notified] => true | _ => false end.

Lemma table_terminal_rules :
  forallb (fun r => bool_decide (r_lane r = Lane_none)
    || forallb (fun s => negb (ruleAdmitsState (r_from r) (Some s)) || frozen_rule r && match r_to r with To_same => true | _ => false end) TERMINAL)
    TRANSITIONS = true.
Proof. vm_compute. reflexivity. Qed.

Lemma table_stopping_stale_rules :
  forallb (fun r => bool_decide (r_lane r <> Lane_stale)
    || negb (ruleAdmitsState (r_from r) (Some St_stopping))
    || forallb quiet (r_effects r) && match r_to r with To_same => true | _ => false end) TRANSITIONS = true.
Proof. vm_compute. reflexivity. Qed.

(** The rules without an attempt. *)
Lemma table_none_rules :
  map r_id (List.filter (fun r => bool_decide (r_lane r = Lane_none)) TRANSITIONS) = ["R1"; "R0a"; "R0b"; "R0"].
Proof. vm_compute. reflexivity. Qed.

(** ** Matched rules *)

Record Matches (ctx : GuardCtx) (lane : RuleLane) (r : TransitionRule) : Prop := {
  mr_table : In r TRANSITIONS;
  mr_lane : r_lane r = lane;
  mr_state : ruleAdmitsState (r_from r) (a_state <$> c_attempt ctx) = true;
  mr_kind : ev_kind (c_evidence ctx) ∈ r_on r;
  mr_guard : match r_guard r with
             | Some G_otherwise | None => True
             | Some g => GUARDS g ctx = true
             end }.

Lemma select_rules_In ctx rs r :
  In r (select_rules ctx rs) ->
  In r rs /\ match r_guard r with Some G_otherwise | None => True | Some g => GUARDS g ctx = true end.
Proof.
  unfold select_rules.
  assert (Hsp : In r (List.filter (rule_specific ctx) rs) ->
    In r rs /\ match r_guard r with Some G_otherwise | None => True | Some g => GUARDS g ctx = true end).
  { intros [Hin Hs]%filter_In. split; [done|]. unfold rule_specific in Hs.
    destruct (r_guard r) as [[]|]; done. }
  destruct (List.filter (rule_specific ctx) rs); [|by apply Hsp].
  intros [Hin Ho]%filter_In. split; [done|]. unfold rule_otherwise in Ho. breflect. by rewrite Ho.
Qed.

Lemma matching_matches i lane eff r :
  classifyLane (in_attempt i) (in_evidence i) (in_holds i) = Lane lane eff ->
  In r (matchingRules i) -> Matches (ctx_of i eff) lane r.
Proof.
  unfold matchingRules. intros -> [Hc Hg]%select_rules_In.
  unfold laneCandidates in Hc. apply filter_In in Hc as [Hin Hc]. breflect. by constructor.
Qed.

Lemma rule_facts {P : TransitionRule -> bool} ctx lane r :
  forallb P TRANSITIONS = true -> Matches ctx lane r -> P r = true.
Proof. rewrite forallb_forall. intros H M. apply H, (mr_table _ _ _ M). Qed.

Lemma matches_rule_ok ctx lane r : Matches ctx lane r -> lane <> Lane_none -> rule_ok r = true.
Proof.
  intros M Hl. pose proof (rule_facts _ _ _ table_rules_ok M) as H. cbn in H.
  apply orb_true_iff in H as [H|H]; [|done]. breflect. rewrite (mr_lane _ _ _ M) in H. done.
Qed.

(** ** Running a rule on an open attempt *)

Lemma applyTemplate_uncommitted t d Q :
  dr_committed d = false -> wp (apply_uncommitted t) Q d -> wp (applyTemplate t) Q d.
Proof. unfold wp, applyTemplate. by intros ->. Qed.

Section RunOpen.
Context {ctx : GuardCtx} {a0 : TurnAttempt} {hc : option TurnHold}.
Context (k : TurnEvidenceKind) (g : option GuardId).
Hypothesis Hns : d_writerStop (a_data a0) = None.
Hypothesis M : matched (ctx:=ctx) (a0:=a0) k g.
Hypothesis Hhc : isMeshScope a0 = true -> is_Some hc.
Hypothesis Hadopt : is_Some (a_prevGeneration a0) -> isMeshScope a0 = true.

Lemma adopt_mesh : g = Some G_prev_generation_completion -> isMeshScope a0 = true.
Proof.
  intros ->. pose proof (mt_guard _ _ M) as Hg. cbn [GUARDS] in Hg.
  unfold prev_generation_completion, attempt_is in Hg. rewrite (mt_attempt _ _ M) in Hg.
  destruct (a_prevGeneration a0); [|done]. by apply Hadopt.
Qed.

Lemma run_templates ts d :
  forallb (tpl_ok k g) ts = true -> settles_last ts = true -> Open ctx a0 hc d ->
  wp (seq_all (map applyTemplate ts))
     (fun d' => if existsb settles ts then Settled ctx a0 hc d' else Open ctx a0 hc d') d.
Proof.
  revert d. induction ts as [|t ts IH]; intros d Hok Hl HL; [done|].
  cbn [map seq_all existsb]. cbn [forallb] in Hok. apply andb_true_iff in Hok as [Ht Hts].
  destruct (settles t) eqn:Hs.
  - destruct ts as [|t' ts']; [|by cbn in Hl; rewrite Hs in Hl].
    eapply wp_seq_mono; [|by intros d'; apply (fun H => H)].
    apply applyTemplate_uncommitted; [apply HL|].
    apply (fun Hm => settle_template Hns Hhc k g t d M Ht Hs Hm HL).
    intros ->. apply adopt_mesh. by apply bool_decide_eq_true in Ht.
  - eapply wp_seq_mono with (P := Open ctx a0 hc).
    + apply applyTemplate_uncommitted; [apply HL|]. by apply (open_template k g).
    + intros d' HL'. apply IH; [done| |done]. destruct ts; [done|]. cbn in Hl. by rewrite Hs in Hl.
Qed.
End RunOpen.

(** ** Quiet rules *)

(** Only non-observable effects were appended. *)
Record Quiet (d0 d : Draft) : Prop := {
  q_attempt : dr_attempt d = dr_attempt d0;
  q_holds : dr_holds d = dr_holds d0;
  q_ctx : dr_ctx d = dr_ctx d0;
  q_committed : dr_committed d = dr_committed d0;
  q_obs : observed (dr_effects d) = observed (dr_effects d0);
  q_scoped : forall a, dr_attempt d0 = Some a -> scoped a (dr_effects d0) -> scoped a (dr_effects d) }.

Lemma Quiet_refl d : Quiet d d.
Proof. by constructor. Qed.

Lemma quiet_push d0 e d :
  Quiet d0 d -> obs e = None ->
  (forall a, dr_attempt d0 = Some a -> isMeshScope a = false -> local_effect e = true) ->
  wp (push e) (Quiet d0) d.
Proof.
  intros [] He Hl. constructor; cbn; try done.
  - rewrite observed_app, q_obs0. unfold observed at 2. cbn. by rewrite He, app_nil_r.
  - intros a Ha Hs. apply scoped_snoc; eauto.
Qed.

Lemma quiet_template t d0 d :
  quiet t = true -> is_Some (dr_attempt d0) \/ (exists n, t = T_record n) -> Quiet d0 d ->
  wp (apply_uncommitted t) (Quiet d0) d.
Proof.
  intros Hq Ha HQ. destruct t as [| | | | |n c e| | |note|tg b| | |]; try done; cbn [apply_uncommitted].
  - destruct n, c; try done. destruct Ha as [[a Ha]|[? ?]]; [|done].
    rewrite <- (q_attempt _ _ HQ) in Ha. do 3 (apply (wp_with_attempt _ _ _ _ Ha); try apply wp_reading).
    apply wp_if; intros E; [|done]. apply quiet_push; [done|done|].
    intros a' Ha'. rewrite <- (q_attempt _ _ HQ) in Ha'. congruence.
  - apply wp_reading. by apply quiet_push.
  - destruct Ha as [[a Ha]|[? ?]]; [|done]. 
    rewrite <- (q_attempt _ _ HQ) in Ha. apply (wp_with_attempt _ _ _ _ Ha), wp_reading.
    do 2 (apply wp_if; intros _; [done|]). destruct tg; by apply quiet_push.
Qed.

Lemma quiet_run ts d0 d :
  dr_committed d0 = false -> forallb quiet ts = true ->
  is_Some (dr_attempt d0) \/ forallb (fun t => match t with T_record _ => true | _ => false end) ts = true ->
  Quiet d0 d -> wp (seq_all (map applyTemplate ts)) (Quiet d0) d.
Proof.
  intros Hc. revert d. induction ts as [|t ts IH]; intros d Hq Ha HQ; [done|].
  cbn in Hq, Ha. apply andb_true_iff in Hq as [Ht Hts].
  eapply wp_seq_mono; [apply applyTemplate_uncommitted; [by rewrite (q_committed _ _ HQ)|]|].
  - apply quiet_template; [done| |done]. destruct Ha as [Ha|Ha]; [by left|].
    apply andb_true_iff in Ha as [Ha _]. destruct t; try done. eauto.
  - intros d' HQ'. apply IH; [done| |done]. destruct Ha as [Ha|Ha]; [by left|].
    apply andb_true_iff in Ha as [_ Ha]. by right.
Qed.

(** ** Holds lists and hold maps *)

Lemma map_set_absent {A} k (v : A) m : k ∉ map fst m -> map_set k v m = (m ++ [(k, v)])%list.
Proof.
  induction m as [|[k' v'] m IH]; cbn; [done|]. intros [Hne Hn]%not_elem_of_cons.
  rewrite decide_False by done. by rewrite IH.
Qed.

Lemma holds_map_list hs :
  NoDup (map h_holdId hs) -> holds_map hs = map (fun h => (h_holdId h, h)) hs.
Proof.
  unfold holds_map. induction hs as [|h hs IH] using rev_ind; [done|].
  rewrite map_app. cbn. intros [Hnd [Hn _]]%NoDup_app. rewrite !map_app. cbn.
  rewrite map_of_snoc, IH by done. cbn. apply map_set_absent. rewrite map_map. cbn. set_solver.
Qed.

Lemma holds_map_values hs : NoDup (map h_holdId hs) -> map_values (holds_map hs) = hs.
Proof. intros H. rewrite holds_map_list by done. unfold map_values. rewrite map_map. apply map_id. Qed.

Lemma find_hold_map id hs :
  NoDup (map h_holdId hs) -> map_get id (holds_map hs) = find_hold id hs.
Proof.
  intros H. rewrite holds_map_list by done. clear H. unfold find_hold.
  induction hs as [|h hs IH]; cbn; [done|]. destruct (decide (id = h_holdId h)) as [->|Hne].
  - by rewrite bool_decide_true.
  - by rewrite bool_decide_false.
Qed.

Lemma holds_ok_map a hs :
  Forall (hold_ok a) hs -> NoDup (map h_holdId hs) -> holds_ok a (holds_map hs).
Proof.
  intros Hf Hn. rewrite holds_map_list by done. split; [by rewrite map_map|].
  apply Forall_forall. intros e He%list_elem_of_In. apply in_map_iff in He as (h & <- & Hh).
  split; [done|]. rewrite Forall_forall in Hf. by apply Hf, list_elem_of_In.
Qed.

Lemma holds_ok_list a m :
  holds_ok a m -> Forall (hold_ok a) (map_values m) /\ NoDup (map h_holdId (map_values m))
  /\ forall id, find_hold id (map_values m) = map_get id m.
Proof.
  unfold holds_ok, map_values, find_hold. induction m as [|[k v] m IH]; cbn; [by repeat constructor|].
  intros [[Hn Hd]%NoDup_cons [[E Hv] Hf]%Forall_cons]. cbn in E, Hv. subst k.
  destruct IH as (H1 & H2 & H3); [done|]. split_and!.
  - by constructor.
  - apply NoDup_cons. split; [|done]. intros Hin. apply Hn. rewrite map_map in Hin.
    apply list_elem_of_In, in_map_iff in Hin as (e & E & He). rewrite Forall_forall in Hf.
    destruct (Hf e) as [E' _]; [by apply list_elem_of_In|]. rewrite <- E, <- E'.
    by apply list_elem_of_In, in_map.
  - intros id. case_bool_decide as Hid; case_decide as Hid'; congruence || auto.
Qed.

(** ** Recording rules *)

Lemma table_recording_rules :
  forallb (fun r => bool_decide (r_verdict r = V_applied)
    || forallb quiet (r_effects r)
       && (bool_decide (r_lane r <> Lane_none)
           || forallb (fun t => match t with T_record _ => true | _ => false end) (r_effects r)))
    TRANSITIONS = true.
Proof. vm_compute. reflexivity. Qed.

Lemma apply_target_recorded i r d : r_verdict r <> V_applied -> apply_target i r d = d.
Proof. unfold apply_target. by destruct (r_verdict r). Qed.

(** Running a matched rule that does not apply is quiet. *)
Lemma run_recording i lane eff r res :
  Matches (ctx_of i eff) lane r -> (lane = Lane_none \/ is_Some (in_attempt i)) -> r_verdict r <> V_applied ->
  run_rule i eff r = Some res ->
  res_attempt res = in_attempt i /\ res_holds res = map_values (holds_map (in_holds i))
  /\ observed (res_effects res) = [].
Proof.
  intros M Hl Hv. pose proof (rule_facts _ _ _ table_recording_rules M) as H. cbn in H.
  rewrite bool_decide_false in H by done. cbn in H. apply andb_true_iff in H as [Hq Hn].
  assert (Hw : wp (seq_all (map applyTemplate (r_effects r))) (Quiet (start_draft i eff r)) (start_draft i eff r)).
  { apply quiet_run; [done|done| |apply Quiet_refl]. cbn. rewrite (mr_lane _ _ _ M) in Hn.
    destruct Hl as [->|Hl]; [|by left]. right. by rewrite bool_decide_false in Hn by naive_solver. }
  apply wp_elim in Hw as (d & Hd & [Q1 Q2 _ _ Q5 _]). unfold run_rule. rewrite Hd. intros [= <-]. cbn.
  rewrite apply_target_recorded by done. by rewrite Q1, Q2, Q5.
Qed.
