(* ===== verification/LedgerReduce.v ===== *)
(** * One reduction

    [reduce] on a stored attempt: it never fails an assertion, and its result is
    one of a few outcomes, each of which keeps the invariant. *)

From S2P Require Import Prelude TurnEvidence Vocabulary TurnPolicy TurnTypes Admission Transitions Guards Reducer LedgerInv LedgerSteps LedgerSettle LedgerTable.

#[local] Open Scope string_scope.
#[local] Open Scope Z_scope.

(** The stored state of an attempt that may not exist yet. *)
Definition stored_ok (a : option TurnAttempt) (holds : list TurnHold) : Prop :=
  match a with Some a => ledger_ok a holds | None => holds = [] end.

Definition input_ok (i : ReduceInput) : Prop := stored_ok (in_attempt i) (in_holds i).

(** A result and the draft it was read from. *)
Record Yields (d : Draft) (res : ReduceResult) : Prop := {
  yl_attempt : res_attempt res = dr_attempt d;
  yl_holds : res_holds res = map_values (dr_holds d);
  yl_effects : res_effects res = dr_effects d }.

(** An open attempt that stays open. *)
Definition still_open (a : TurnAttempt) : Prop :=
  open_state (a_state a) = true /\ d_writerStop (a_data a) = None.

(** The attempt is untouched, apart from the time its terminal notice was
    acknowledged. *)
Definition frozen (a0 a : TurnAttempt) : Prop :=
  a = a0 \/ is_Some (a_terminal a0) /\ exists t, a = {| a0 with a_notifiedAt := Some t |}.

(** What reducing one piece of evidence does to attempt [a0] with active holds
    [hs]. *)
Inductive Outcome (i : ReduceInput) (a0 : TurnAttempt) (hs : list TurnHold) (res : ReduceResult) : Prop :=
| Oc_frozen a :
    frozen a0 a -> res_attempt res = Some a -> res_holds res = hs ->
    observed (res_effects res) = [] -> scoped a0 (res_effects res) -> Outcome i a0 hs res
| Oc_open ctx d :
    still_open a0 -> a_terminal a0 = None ->
    Live still_open ctx a0 (find_hold (ceiling_id a0) hs) d -> Yields d res -> Outcome i a0 hs res
| Oc_stopping ctx d :
    a_terminal a0 = None -> isMeshScope a0 = true ->
    StopPost ctx a0 (find_hold (ceiling_id a0) hs) d -> Yields d res -> Outcome i a0 hs res
| Oc_advanced d :
    is_Some (d_writerStop (a_data a0)) -> a_terminal a0 = None -> in_stopConfirmed i = true ->
    past_ceiling i a0 = false ->
    is_Some (find_hold (ceiling_id a0) hs) ->
    AdvancedFrom a0 (find_hold (ceiling_id a0) hs) d -> Yields d res -> Outcome i a0 hs res
| Oc_committed o s r d :
    a_terminal a0 = None -> CommittedAs a0 o s r d -> Yields d res ->
    match d_writerStop (a_data a0) with
    | Some _ => in_stopConfirmed i = true \/ is_Some (in_writerUnreachable i)
    | None => commit_needs_stop (ctx_of i None) a0 r = false
    end -> Outcome i a0 hs res.

(** ** The start of a draft *)

Section Start.
Context {i : ReduceInput} {a0 : TurnAttempt}.
Hypothesis Ha : in_attempt i = Some a0.
Hypothesis Hok : ledger_ok a0 (in_holds i).

Lemma start_live eff r :
  Live (eq a0) (ctx_of i eff) a0 (find_hold (ceiling_id a0) (in_holds i)) (start_draft i eff r).
Proof.
  destruct Hok. constructor; cbn; try done.
  - exists a0. by split_and!; [|apply Ident_refl|].
  - by apply holds_ok_map.
  - by apply find_hold_map.
  - intros _. constructor.
Qed.

Lemma start_holds eff r : map_values (dr_holds (start_draft i eff r)) = in_holds i.
Proof. cbn. apply holds_map_values, Hok. Qed.

(** A quiet rule freezes the attempt. *)
Lemma frozen_outcome eff r d res :
  Quiet (start_draft i eff r) d -> Yields d res -> Outcome i a0 (in_holds i) res.
Proof.
  intros [Q1 Q2 _ _ Q5 Q6] [Y1 Y2 Y3]. eapply (Oc_frozen _ _ _ _ a0).
  - by left.
  - by rewrite Y1, Q1.
  - by rewrite Y2, Q2, (start_holds eff r).
  - by rewrite Y3, Q5.
  - rewrite Y3. apply Q6; [done|]. intros _. constructor.
Qed.

Lemma rejected_outcome rj : Outcome i a0 (in_holds i) (rejected i rj).
Proof. apply (Oc_frozen _ _ _ _ a0); try done; [by left|]. intros _. by repeat constructor. Qed.
End Start.

(** The result of running a rule. *)
Lemma run_rule_wp i eff r Q :
  wp (seq_all (map applyTemplate (r_effects r))) Q (start_draft i eff r) ->
  exists d res, Q d /\ run_rule i eff r = Some res /\ Yields (apply_target i r d) res
    /\ res_verdict res = r_verdict r /\ res_rule res = Some (r_id r).
Proof.
  intros (d & Hd & HQ)%wp_elim. unfold run_rule. rewrite Hd. eexists d, _. by split_and!.
Qed.

Lemma apply_target_same i r d : r_to r = To_same -> apply_target i r d = d.
Proof. unfold apply_target. intros ->. by repeat case_match. Qed.

Lemma apply_target_committed i r d : dr_committed d = true -> apply_target i r d = d.
Proof. unfold apply_target. intros ->. by destruct (r_verdict r), (dr_attempt d). Qed.

(** ** Terminal attempts *)

Section Terminal.
Context {i : ReduceInput} {a0 : TurnAttempt}.
Hypothesis Ha : in_attempt i = Some a0.
Hypothesis Hok : ledger_ok a0 (in_holds i).

Lemma terminal_rule_facts lane eff r :
  isTerminalTurnState (a_state a0) = true -> Matches (ctx_of i eff) lane r -> lane <> Lane_none ->
  frozen_rule r = true /\ r_to r = To_same.
Proof.
  intros Ht M Hl. pose proof (rule_facts _ _ _ table_terminal_rules M) as H. cbn in H.
  rewrite (mr_lane _ _ _ M), bool_decide_false in H by done. cbn in H.
  pose proof (mr_state _ _ _ M) as Hs. cbn in Hs. rewrite Ha in Hs. cbn in Hs.
  destruct (a_state a0); try done; rewrite Hs in H; cbn in H; breflect; destruct (r_to r); try done.
Qed.

Lemma ack_outcome eff r d res :
  is_Some (a_terminal a0) -> ev_kind (in_evidence i) = K_coordinator_ack ->
  wp act_mark_notified (eq d) (start_draft i eff r) -> Yields d res ->
  Outcome i a0 (in_holds i) res.
Proof.
  intros Ht Hk Hd HY. revert Hd. unfold act_mark_notified, wp, reading, dr_ev. cbn.
  kind_of_evidence. unfold modify, with_attempt. cbn. rewrite Ha. intros ->. destruct HY as [Y1 Y2 Y3].
  cbn in *. eapply Oc_frozen; [|exact Y1|by rewrite Y2; apply holds_map_values, Hok|by rewrite Y3|].
  - unfold frozen. case_match; [|by left]. right. split; [done|]. destruct (a_notifiedAt a0); eauto.
  - rewrite Y3. intros _. constructor.
Qed.

Lemma run_terminal lane eff r :
  isTerminalTurnState (a_state a0) = true -> is_Some (a_terminal a0) ->
  Matches (ctx_of i eff) lane r -> lane <> Lane_none ->
  exists res, run_rule i eff r = Some res /\ Outcome i a0 (in_holds i) res.
Proof.
  intros Ht Hterm M Hl. destruct (terminal_rule_facts _ _ _ Ht M Hl) as [Hf Hto].
  unfold frozen_rule in Hf. apply orb_true_iff in Hf as [Hq|Hack].
  - destruct (run_rule_wp i eff r (Quiet (start_draft i eff r))) as (d & res & HQ & Hr & HY & _).
    { apply quiet_run; [done|done| |apply Quiet_refl]. left. cbn. by rewrite Ha. }
    rewrite apply_target_same in HY by done. eauto using frozen_outcome.
  - breflect. pose proof (mr_kind _ _ _ M) as Hk. rewrite H in Hk. apply list_elem_of_singleton in Hk.
    destruct (r_effects r) as [|[[]| | | | | | | | | | | |] [|]] eqn:He; try done.
    destruct (run_rule_wp i eff r (fun d => wp act_mark_notified (eq d) (start_draft i eff r)))
      as (d & res & HQ & Hr & HY & _).
    { rewrite He. cbn. unfold wp, seq, applyTemplate, skip. cbn [apply_uncommitted ACTIONS].
      cbn [start_draft dr_committed]. unfold act_mark_notified, reading, dr_ev. cbn.
      cbn in Hk. kind_of_evidence. unfold modify, with_attempt. cbn. by rewrite Ha. }
    rewrite apply_target_same in HY by done. eauto using ack_outcome.
Qed.
End Terminal.

(** ** Stopping attempts *)

Section StoppingAttempt.
Context {i : ReduceInput} {a0 : TurnAttempt} {stop : WriterStop}.
Hypothesis Ha : in_attempt i = Some a0.
Hypothesis Hok : ledger_ok a0 (in_holds i).
Hypothesis Hterm : a_terminal a0 = None.
Hypothesis Hstop : d_writerStop (a_data a0) = Some stop.

Lemma stopping_state :
  a_state a0 = St_stopping /\ isMeshScope a0 = true /\ ws_confirmed stop = None
  /\ (ws_terminal stop = None ->
      ws_reason stop <> R_hard_ceiling /\ is_Some (find_hold (ceiling_id a0) (in_holds i))).
Proof. pose proof (lk_state _ _ Hok) as H. unfold state_ok in H. by rewrite Hterm, Hstop in H. Qed.

Lemma start_stopping eff r :
  Stopping (ctx_of i eff) a0 (find_hold (ceiling_id a0) (in_holds i)) stop (start_draft i eff r).
Proof.
  destruct (start_live Ha Hok eff r) as [? ? (a & ? & ? & <-) ? ? ? ?].
  destruct stopping_state as [Hs _]. constructor; try done. exists a0. by repeat split.
Qed.

Lemma run_stopping :
  exists d res, reduceStopping i = Some res /\ Yields d res
    /\ StopStep (ctx:=ctx_of i (Some (a_generation a0))) (a0:=a0)
         (hc:=find_hold (ceiling_id a0) (in_holds i)) i d.
Proof.
  destruct stopping_state as (_ & Hm & Hc & Ht).
  set (hc := find_hold (ceiling_id a0) (in_holds i)) in *. set (eff := Some (a_generation a0)).
  assert (HP : StopPost (ctx_of i eff) a0 hc (start_draft i eff first_rule)).
  { exists stop, hc. split; [apply start_stopping|]. naive_solver. }
  pose proof (stopping_step_ok Hm i (ctx_of i eff) _ HP eq_refl eq_refl) as Hw.
  apply wp_elim in Hw as (d & Hd & HS). unfold reduceStopping. rewrite Ha. fold eff. rewrite Hd.
  by eexists d, _.
Qed.

Lemma stopping_outcome d res ctx :
  StopStep (ctx:=ctx) (a0:=a0) (hc:=find_hold (ceiling_id a0) (in_holds i)) i d -> Yields d res ->
  Outcome i a0 (in_holds i) res.
Proof.
  destruct stopping_state as (_ & Hm & _).
  intros [[HP' _]|[(Hi & Hp & Hs & HA)|[Hi (o & s & r & HC)]]] HY.
  - by eapply (Oc_stopping _ _ _ _ _ d).
  - by eapply (Oc_advanced _ _ _ _ d).
  - eapply (Oc_committed _ _ _ _ o s r d); try done. by rewrite Hstop.
Qed.
End StoppingAttempt.

(** ** Open attempts *)

Section OpenAttempt.
Context {i : ReduceInput} {a0 : TurnAttempt}.
Hypothesis Ha : in_attempt i = Some a0.
Hypothesis Hok : ledger_ok a0 (in_holds i).
Hypothesis Hterm : a_terminal a0 = None.
Hypothesis Hns : d_writerStop (a_data a0) = None.

Notation hc := (find_hold (ceiling_id a0) (in_holds i)).

Lemma open_attempt :
  open_state (a_state a0) = true /\ (isMeshScope a0 = true -> is_Some hc).
Proof. pose proof (lk_state _ _ Hok) as H. unfold state_ok in H. by rewrite Hterm, Hns in H. Qed.

Lemma prev_mesh : is_Some (a_prevGeneration a0) -> isMeshScope a0 = true.
Proof.
  intros [p Hp]. unfold isMeshScope. apply bool_decide_eq_true. intros Hs.
  destruct (lk_queue_only _ _ Hok) as [_ Hn]; congruence.
Qed.

Lemma start_open eff r : Open (ctx_of i eff) a0 hc (start_draft i eff r).
Proof.
  destruct (start_live Ha Hok eff r) as [? ? (a & ? & ? & <-) ? ? ? ?].
  constructor; try done. exists a0. repeat split; try done. by left.
Qed.

Lemma matched_open lane eff r :
  Matches (ctx_of i eff) lane r -> matched (ctx:=ctx_of i eff) (a0:=a0) (ev_kind (in_evidence i)) (r_guard r).
Proof.
  intros M. constructor; cbn; try done; [apply open_attempt|apply Hok|apply (mr_guard _ _ _ M)].
Qed.

Lemma open_state_ne_stopping s : open_state s = true -> s <> St_stopping.
Proof. by intros H ->. Qed.

(** The target of a rule that did not settle is an open state. *)
Lemma target_open r d ctx :
  rule_ok r = true -> existsb settles (r_effects r) = false -> Open ctx a0 hc d ->
  Live still_open ctx a0 hc (apply_target i r d).
Proof.
  intros Hr Hs HL. destruct open_attempt as [Hop _].
  destruct HL as [L1 L2 (a & Hda & Hi & Hw & Hst & _) L4 L5 L6 L7].
  assert (Hso : still_open a).
  { split; [|by rewrite Hw]. destruct Hst as [->|[_ ->]]; done. }
  assert (Hkeep : Live still_open ctx a0 hc d) by (constructor; eauto).
  unfold apply_target. rewrite Hda, L2. destruct (r_verdict r); [|done..].
  destruct (r_to r) as [s| |] eqn:Hto; try done. case_bool_decide; [|done].
  unfold rule_ok in Hr. rewrite Hto, Hs in Hr. breflect. cbn in *.
  constructor; cbn; try done. eexists. split; [done|]. split; [destruct Hi; by constructor|].
  split; [done|apply Hso].
Qed.

(** A settled draft has no target left to apply. *)
Lemma target_settled r d ctx : Settled ctx a0 hc d -> apply_target i r d = d.
Proof.
  destruct open_attempt as [Hop _]. unfold apply_target. rewrite Ha.
  intros [[(stop & hc' & HS & _) _]|(o & s & r' & HC & _)].
  - destruct (lv_attempt _ _ _ _ _ HS) as (a & -> & _ & Hst & _).
    destruct (r_verdict r), (dr_committed d), (r_to r); try done. cbn.
    rewrite bool_decide_false; [done|]. rewrite Hst. intros E. by apply (open_state_ne_stopping _ Hop).
  - rewrite <- Ha. by apply (apply_target_committed i), (cm_committed _ _ _ _ _ HC).
Qed.

Lemma run_open lane eff r :
  Matches (ctx_of i eff) lane r -> lane <> Lane_none ->
  exists res, run_rule i eff r = Some res /\ Outcome i a0 (in_holds i) res.
Proof.
  intros M Hl. pose proof (matches_rule_ok _ _ _ M Hl) as Hr.
  pose proof (matched_open _ _ _ M) as Mo. destruct open_attempt as [Hop Hhc].
  assert (Ht : forallb (tpl_ok (ev_kind (in_evidence i)) (r_guard r)) (r_effects r) = true
               /\ settles_last (r_effects r) = true).
  { pose proof Hr as Hr'. unfold rule_ok in Hr'. breflect. split; [|done].
    match goal with H : forallb _ (r_on r) = true |- _ => rewrite forallb_forall in H; apply H end.
    apply list_elem_of_In, (mr_kind _ _ _ M). }
  destruct (run_rule_wp i eff r _ (run_templates _ _ Hns Mo Hhc prev_mesh _ _ (proj1 Ht) (proj2 Ht)
              (start_open eff r))) as (d & res & HQ & Hres & HY & _).
  exists res. split; [done|]. destruct (existsb settles (r_effects r)) eqn:Es.
  - rewrite (target_settled _ _ _ HQ) in HY. destruct HQ as [[HP Hm]|(o & s & r' & HC & Hn)].
    + by eapply Oc_stopping.
    + eapply Oc_committed; try done. by rewrite Hns.
  - eapply Oc_open; [by split|done| |done]. by apply target_open.
Qed.
End OpenAttempt.

(** ** Every evidence on a stored attempt *)

Lemma lane_of_attempt a ev hs : classifyLane (Some a) ev hs <> Lane Lane_none None /\
  forall lane eff, classifyLane (Some a) ev hs = Lane lane eff -> lane <> Lane_none.
Proof.
  assert (H : forall lane eff, classifyLane (Some a) ev hs = Lane lane eff -> lane <> Lane_none).
  { intros lane eff. unfold classifyLane, classify_hold_expired.
    repeat case_match; intros; simplify_eq; done. }
  split; [|done]. intros E. by apply H in E.
Qed.

Theorem reduce_existing i a0 :
  in_attempt i = Some a0 -> ledger_ok a0 (in_holds i) ->
  exists res, reduce i = Some res /\ Outcome i a0 (in_holds i) res.
Proof.
  intros Ha Hok. unfold reduce. destruct (classifyLane _ _ _) as [lane eff|rj] eqn:Hlane.
  2: { eexists. split; [done|]. by apply rejected_outcome. }
  assert (Hl : lane <> Lane_none).
  { pose proof (proj2 (lane_of_attempt a0 (in_evidence i) (in_holds i))) as H. rewrite Ha in Hlane.
    by apply H in Hlane. }
  assert (Hrules : (forall r, Matches (ctx_of i eff) lane r ->
                      exists res, run_rule i eff r = Some res /\ Outcome i a0 (in_holds i) res) ->
    exists res, match matchingRules i with
      | [] => Some (rejected i match in_attempt i with
                           | Some a => if isTerminalTurnState (a_state a)
                                       then Rj_already_terminal else Rj_illegal_transition
                           | None => Rj_illegal_transition
                           end)
      | r :: _ => run_rule i eff r
      end = Some res /\ Outcome i a0 (in_holds i) res).
  { intros Hrun. pose proof (fun r => matching_matches i lane eff r Hlane) as HM. destruct (matchingRules i) as [|r rs].
    - eexists. split; [done|]. by apply rejected_outcome.
    - apply Hrun, HM. by left. }
  assert (Est : a_state <$> in_attempt i = Some (a_state a0)) by by rewrite Ha.
  pose proof (lk_state _ _ Hok) as Hst. unfold state_ok in Hst.
  destruct (a_terminal a0) as [t|] eqn:Hterm; [|destruct (d_writerStop (a_data a0)) as [stop|] eqn:Hs].
  - destruct Hst as [Hst _]. assert (Ht : isTerminalTurnState (a_state a0) = true)
      by (rewrite Hst; apply terminal_state_of_outcome).
    rewrite bool_decide_false by (rewrite Est; intros [= E]; by rewrite E in Ht). cbn.
    apply Hrules. intros r M. eapply (run_terminal Ha Hok); eauto.
  - destruct Hst as (Hst & _). rewrite bool_decide_true by (rewrite Est; congruence). cbn.
    case_bool_decide as Hcur.
    { destruct (run_stopping Ha Hok Hterm Hs) as (d & res & ? & ? & ?). by eauto using stopping_outcome. }
    apply Hrules. intros r M. pose proof (rule_facts _ _ _ table_stopping_stale_rules M) as H. cbn in H.
    pose proof (mr_state _ _ _ M) as Hs'. cbn in Hs'. rewrite Ha in Hs'. cbn in Hs'. rewrite Hst in Hs'.
    rewrite (mr_lane _ _ _ M), Hs', bool_decide_false in H by (destruct lane; naive_solver). cbn in H. breflect.
    destruct (run_rule_wp i eff r (Quiet (start_draft i eff r))) as (d & res & HQ & Hr & HY & _).
    { apply quiet_run; [done|done| |apply Quiet_refl]. left. cbn. by rewrite Ha. }
    rewrite apply_target_same in HY by (by destruct (r_to r)). eauto using frozen_outcome.
  - destruct Hst as [Hop _]. rewrite bool_decide_false by (rewrite Est; intros [= E]; by rewrite E in Hop). cbn.
    apply Hrules. intros r M. by eapply (run_open Ha Hok Hterm Hs).
Qed.

(** ** The first evidence of an attempt *)

(** A rule without an attempt opens one or records. *)
Definition opening_rule (r : TransitionRule) : bool :=
  match r_effects r with
  | [T_act Act_open_dispatch;
     T_hold (HR H_await_delivery) U_await_delivery Ox_reclaim true false;
     T_hold (HR H_hard_ceiling) U_hard_ceiling Ox_escalate true true] =>
      bool_decide (r_on r = [K_dispatch_accepted])
      && match r_to r with To s => open_state s | _ => false end
  | [T_act Act_open_plain; T_act Act_consume; T_bus Ph_started] =>
      bool_decide (r_on r = [K_turn_started])
      && match r_to r with To s => open_state s | _ => false end
  | [T_record _] => match r_to r with To_same => true | _ => false end
  | _ => false
  end.

Lemma table_opening_rules :
  forallb (fun r => bool_decide (r_lane r <> Lane_none) || opening_rule r) TRANSITIONS = true.
Proof. vm_compute. reflexivity. Qed.

(** The id of the attempt evidence opens. *)
Definition opening_id (ev : TurnEvidence) : string :=
  match ev_body ev with
  | dispatch_accepted b =>
      match e_attemptRef ev with
      | Some r => ref_attemptId r
      | None => spell_TurnScope (da_scope b) ++ ":" ++ e_eventId ev
      end
  | _ => "plain:" ++ e_sessionId ev ++ ":" ++ e_eventId ev
  end.

(** A newly opened attempt. *)
Record Opened (ev : TurnEvidence) (a : TurnAttempt) (res : ReduceResult) : Prop := {
  op_attempt : res_attempt res = Some a;
  op_id : a_attemptId a = opening_id ev;
  op_kind : ev_kind ev ∈ [K_dispatch_accepted; K_turn_started];
  op_stored : ledger_ok a (res_holds res);
  op_fresh : still_open a /\ a_terminal a = None /\ a_reclaimCount a = 0;
  op_obs : observed (res_effects res) = [];
  op_scoped : scoped a (res_effects res) }.

(** The draft of an attempt being opened. *)
Definition fresh (ev : TurnEvidence) (a : TurnAttempt) : Prop :=
  a_attemptId a = opening_id ev /\ a_terminal a = None /\ a_reclaimCount a = 0 /\ a_prevGeneration a = None
  /\ d_writerStop (a_data a) = None /\ open_state (a_state a) = true.

Section Opening.
Context {i : ReduceInput}.
Hypothesis Hnone : in_attempt i = None.
Hypothesis Hholds : in_holds i = [].

Lemma opened_open eff r a :
  fresh (in_evidence i) a ->
  Open (ctx_of i eff) a None {| (start_draft i eff r) with dr_attempt := Some a |}.
Proof.
  intros (_ & ? & ? & ? & ? & ?). constructor; cbn; rewrite ?Hholds; try done.
  - exists a. split; [done|]. split; [apply Ident_refl|]. split; [done|]. split; [by left|done].
  - split; constructor.
  - intros _. constructor.
Qed.

Lemma opening_ceiling ctx a d :
  Open ctx a None d ->
  wp (apply_hold (HR H_hard_ceiling) U_hard_ceiling Ox_escalate true true)
     (fun d' => exists hc, Open ctx a hc d' /\ (isMeshScope a = true -> is_Some hc)) d.
Proof.
  intros HL. apply (live_with_attempt _ _ _ HL). intros a' Ha Hi HA. apply wp_reading.
  apply wp_if; intros Hm.
  - exists None. split; [done|]. breflect. rewrite (Ident_mesh _ _ Hi) in *. congruence.
  - cbv beta iota zeta. set (h := {| h_holdId := _ |}). exists (Some h). split; [|eauto].
    assert (Hh : hold_ok a h).
    { by constructor; cbn; rewrite ?(id_attemptId _ _ Hi). }
    destruct HL as [? ? ? ? ? ? ?]. constructor; cbn; auto using observed_snoc, scoped_snoc.
    + by apply (holds_ok_set _ h).
    + rewrite map_get_set, decide_True; [done|]. unfold ceiling_id. by rewrite (id_attemptId _ _ Hi).
Qed.

(** What an opened draft yields. *)
Lemma opened_result ctx a hc s d res :
  fresh (in_evidence i) a -> ev_kind (in_evidence i) ∈ [K_dispatch_accepted; K_turn_started] ->
  open_state s = true -> Open ctx a hc d -> (isMeshScope a = true -> is_Some hc) ->
  forall r, r_to r = To s -> Yields (apply_target i r d) res ->
  exists a', Opened (in_evidence i) a' res.
Proof.
  intros Hf Hk Hs HL Hhc r Hto HY. destruct Hf as (F0 & F1 & F2 & F3 & F4 & F5).
  destruct HL as [L1 L2 (a' & L3 & Hi & Hw & Hst & _) L4 L5 L6 L7].
  set (st := match r_verdict r with V_applied => s | _ => a_state a' end).
  assert (Hso : open_state st = true).
  { unfold st. destruct (r_verdict r); [done|..]; by destruct Hst as [-> | [_ ->]]. }
  assert (Hy : res_attempt res = Some {| a' with a_state := st |} /\ res_holds res = map_values (dr_holds d)
               /\ res_effects res = dr_effects d).
  { destruct HY as [-> -> ->]. unfold apply_target, st. rewrite L3, L2, Hnone, Hto. cbn.
    destruct (r_verdict r); cbn; rewrite ?bool_decide_true, ?L3 by done; by destruct a'. }
  destruct Hy as (Y1 & Y2 & Y3). destruct (holds_ok_list _ _ L4) as (K1 & K2 & K3).
  exists {| a' with a_state := st |}. split; rewrite ?Y3; try done.
  - cbn. by rewrite (id_attemptId _ _ Hi).
  - rewrite Y2. destruct Hi as [I1 I2 _ _ I5 I6 I7 _ I9]. split; cbn; rewrite ?I7, ?F2; try done.
    + rewrite Forall_forall in K1 |- *. intros h Hh. apply (hold_ok_ident a); auto.
    + intros _. by rewrite I6.
    + unfold state_ok. cbn. rewrite I9, F1, Hw, F4. split; [done|].
      intros Hm. unfold ceiling_id in *. cbn. rewrite K3, I1, L5. apply Hhc.
      rewrite <- Hm. unfold isMeshScope. cbn. by rewrite I2.
  - unfold still_open. cbn. by rewrite (id_terminal _ _ Hi), (id_reclaims _ _ Hi), Hw.
  - intros Hm. apply L7. rewrite <- Hm. unfold isMeshScope. cbn. by rewrite (id_scope _ _ Hi).
Qed.

Lemma open_dispatch_wp eff r Q :
  ev_kind (in_evidence i) = K_dispatch_accepted ->
  (forall a, fresh (in_evidence i) a -> Q {| (start_draft i eff r) with dr_attempt := Some a |}) ->
  wp act_open_dispatch Q (start_draft i eff r).
Proof. intros Hk HQ. unfold act_open_dispatch, wp, dr_ev. cbn. kind_of_evidence. apply HQ.
  unfold fresh, opening_id. by match goal with H : ev_body _ = _ |- _ => rewrite H end. Qed.

Lemma run_open_dispatch eff r s :
  r_effects r = [T_act Act_open_dispatch;
    T_hold (HR H_await_delivery) U_await_delivery Ox_reclaim true false;
    T_hold (HR H_hard_ceiling) U_hard_ceiling Ox_escalate true true] ->
  ev_kind (in_evidence i) = K_dispatch_accepted -> r_to r = To s -> open_state s = true ->
  exists res, run_rule i eff r = Some res /\ exists a, Opened (in_evidence i) a res.
Proof.
  intros He Hk Hto Hs.
  destruct (run_rule_wp i eff r (fun d => exists a hc, fresh (in_evidence i) a /\ Open (ctx_of i eff) a hc d
              /\ (isMeshScope a = true -> is_Some hc))) as (d & res & (a & hc & Hf & HO & Hhc) & Hr & HY & _).
  - rewrite He. cbn [map seq_all]. apply wp_seq. apply applyTemplate_uncommitted; [done|].
    apply (open_dispatch_wp eff r); [done|]. intros a Hf. pose proof (opened_open eff r a Hf) as HO.
    apply wp_seq. apply applyTemplate_uncommitted; [done|].
    eapply wp_mono; [|by apply (fun E => open_hold (HR H_await_delivery) _ _ _ _ E HO)].
    intros d1 H1. apply wp_seq. apply applyTemplate_uncommitted; [apply H1|].
    eapply wp_mono; [|by apply (opening_ceiling _ _ _ H1)]. intros d2 (hc & H2 & Hhc). by exists a, hc.
  - exists res. split; [done|]. eapply opened_result; try done. rewrite Hk. by left.
Qed.

Lemma run_open_plain eff r s :
  r_effects r = [T_act Act_open_plain; T_act Act_consume; T_bus Ph_started] ->
  ev_kind (in_evidence i) = K_turn_started -> r_to r = To s -> open_state s = true ->
  exists res, run_rule i eff r = Some res /\ exists a, Opened (in_evidence i) a res.
Proof.
  intros He Hk Hto Hs. set (a := newAttempt (in_evidence i)
    ("plain:" ++ e_sessionId (in_evidence i) ++ ":" ++ e_eventId (in_evidence i)) Sc_plain).
  assert (Hf : fresh (in_evidence i) a) by (unfold fresh, opening_id, ev_kind in *; by destruct (ev_body _)). pose proof (opened_open eff r a Hf) as HO.
  destruct (run_rule_wp i eff r (Open (ctx_of i eff) a None)) as (d & res & H & Hr & HY & _).
  - rewrite He. cbn [map seq_all]. apply wp_seq. apply applyTemplate_uncommitted; [done|].
    apply wp_seq. apply applyTemplate_uncommitted; [done|]. apply wp_reading.
    eapply wp_mono; [|apply (open_modify _ _ HO); annotate]. intros d1 H1.
    apply wp_seq. apply applyTemplate_uncommitted; [apply H1|].
    apply (live_with_attempt _ _ _ H1). intros a' _ _ _. by apply (live_push _ _ H1).
  - exists res. split; [done|]. eapply (opened_result _ a None); try done.
    rewrite Hk. right. by left.
Qed.

(** Without an attempt: one is opened, or nothing changes. *)
Theorem reduce_none :
  exists res, reduce i = Some res /\
    ((exists a, Opened (in_evidence i) a res)
     \/ (res_attempt res = None /\ res_holds res = [] /\ observed (res_effects res) = [])).
Proof.
  assert (Hl : classifyLane (in_attempt i) (in_evidence i) (in_holds i) = Lane Lane_none None)
    by by rewrite Hnone.
  unfold reduce. rewrite Hl, bool_decide_false by by rewrite Hnone. cbn [andb].
  pose proof (fun r => matching_matches i _ _ r Hl) as HM. destruct (matchingRules i) as [|r rs].
  { eexists. split; [done|]. by right. }
  specialize (HM r (or_introl eq_refl)).
  pose proof (rule_facts _ _ _ table_opening_rules HM) as H. cbn in H.
  rewrite (mr_lane _ _ _ HM), bool_decide_false in H by (intros E; by apply E). cbn in H.
  unfold opening_rule in H. repeat (case_match; try discriminate H); subst; breflect; try done.
  - pose proof (mr_kind _ _ _ HM) as Hk. cbn in Hk.
    match goal with E : r_on r = _ |- _ => rewrite E in Hk end. apply list_elem_of_singleton in Hk.
    enough (exists res, run_rule i None r = Some res /\ exists a, Opened (in_evidence i) a res)
      as (res & ? & ?) by eauto.
    by eapply run_open_dispatch.
  - pose proof (mr_kind _ _ _ HM) as Hk. cbn in Hk.
    match goal with E : r_on r = _ |- _ => rewrite E in Hk end. apply list_elem_of_singleton in Hk.
    enough (exists res, run_rule i None r = Some res /\ exists a, Opened (in_evidence i) a res)
      as (res & ? & ?) by eauto.
    by eapply run_open_plain.
  - destruct (run_rule_wp i None r (Quiet (start_draft i None r))) as (d & res & HQ & Hr & HY & _).
    { match goal with E : r_effects r = _ |- _ => rewrite E end.
      apply quiet_run; [done|done|by right|apply Quiet_refl]. }
    rewrite apply_target_same in HY by done. exists res. split; [done|]. right.
    destruct HQ as [Q1 Q2 _ _ Q5 _], HY as [-> -> ->]. rewrite Q1, Q2, Q5. cbn.
    by rewrite Hnone, Hholds.
Qed.
End Opening.
