(* ===== verification/LedgerContract.v ===== *)
(** * The contract of the turn ledger

    An abstract machine for the life of an attempt, the refinement of [reduce]
    to it, and what holds along every run. *)

From S2P Require Import Prelude TurnEvidence Vocabulary TurnPolicy TurnTypes Admission Transitions Guards Reducer LedgerInv LedgerSteps LedgerSettle LedgerTable LedgerReduce.

#[local] Open Scope string_scope.
#[local] Open Scope Z_scope.

(** ** Outcomes keep the invariant *)

Lemma queue_only_ident a0 a hs :
  ledger_ok a0 hs -> a_scope a = a_scope a0 -> a_reclaimCount a = a_reclaimCount a0 ->
  a_prevGeneration a = a_prevGeneration a0 ->
  0 <= a_reclaimCount a <= RECLAIM_BUDGET
  /\ (a_scope a <> Sc_mesh_queue -> a_reclaimCount a = 0 /\ a_prevGeneration a = None).
Proof. intros [] -> -> ->. done. Qed.

Lemma live_stored A ctx a0 hc hs d a :
  ledger_ok a0 hs -> a_terminal a0 = None -> Live A ctx a0 hc d -> dr_attempt d = Some a -> Ident a0 a ->
  (state_ok a (map_values (dr_holds d))) -> ledger_ok a (map_values (dr_holds d)).
Proof.
  intros Hok Ht HL Ha Hi Hst. destruct (holds_ok_list _ _ (lv_holds _ _ _ _ _ HL)) as (K1 & K2 & _).
  destruct (queue_only_ident a0 a hs Hok) as [Q1 Q2]; [apply Hi..|]. constructor; try done.
  rewrite Forall_forall in K1 |- *. intros h Hh. apply (hold_ok_ident a0); [apply Hi..|]. by apply K1.
Qed.

Lemma live_ceiling A ctx a0 hc d a :
  Live A ctx a0 hc d -> Ident a0 a -> find_hold (ceiling_id a) (map_values (dr_holds d)) = hc.
Proof.
  intros HL Hi. destruct (holds_ok_list _ _ (lv_holds _ _ _ _ _ HL)) as (_ & _ & K3).
  unfold ceiling_id. rewrite (id_attemptId _ _ Hi), K3. apply (lv_ceiling _ _ _ _ _ HL).
Qed.

Lemma frozen_stored a0 a hs : ledger_ok a0 hs -> frozen a0 a -> ledger_ok a hs.
Proof.
  intros Hok [->|[_ [t ->]]]; [done|]. destruct Hok as [K1 ? ? ? ?]. constructor; try done.
  rewrite Forall_forall in K1 |- *. intros h Hh. by apply (hold_ok_ident a0), K1.
Qed.

Lemma advanced_stored a0 hc hs d a :
  ledger_ok a0 hs -> a_terminal a0 = None -> is_Some hc -> AdvancedFrom a0 hc d -> dr_attempt d = Some a ->
  ledger_ok a (map_values (dr_holds d)).
Proof.
  intros Hok Ht Hhc [_ Hh Hc _ Hb Hq (a' & Ha' & Hst & Htm & Hid & Hsc & Hg & Hr & _ & Hw & _)] Ha.
  rewrite Ha' in Ha. injection Ha as <-. destruct (holds_ok_list _ _ Hh) as (K1 & K2 & K3).
  pose proof (lk_reclaims _ _ Hok). constructor; try done.
  - rewrite Forall_forall in K1 |- *. intros h Hin. eapply hold_ok_ident, K1; try done.
  - lia.
  - congruence.
  - unfold state_ok. rewrite Htm, Ht, Hw, Hst. split; [done|]. intros _. unfold ceiling_id in *.
    by rewrite Hid, K3, Hc.
Qed.

Lemma outcome_stored i a0 hs res :
  ledger_ok a0 hs -> Outcome i a0 hs res -> stored_ok (res_attempt res) (res_holds res).
Proof.
  intros Hok [a Hf -> -> _ _|ctx d [Ho Hn] Ht HL [-> -> _]|ctx d Ht Hm HP [-> -> _]
             |d Hs Ht _ _ Hhc HA [-> -> _]|o s r d Ht HC [-> -> _] _].
  - by apply (frozen_stored a0).
  - destruct (lv_attempt _ _ _ _ _ HL) as (a & Ha & Hi & Hso & Hw). rewrite Ha. cbn.
    eapply live_stored; try done. unfold state_ok. rewrite (id_terminal _ _ Hi), Ht, Hw. split; [done|].
    intros Hm. rewrite (live_ceiling _ _ _ _ _ _ HL Hi). pose proof (lk_state _ _ Hok) as H.
    unfold state_ok in H. rewrite Ht, Hn in H. apply H. by rewrite <- (Ident_mesh _ _ Hi).
  - destruct HP as (stop & hc' & HS & Hc & Htm).
    destruct (lv_attempt _ _ _ _ _ HS) as (a & Ha & Hi & Hso & Hw). rewrite Ha. cbn.
    eapply live_stored; try done. unfold state_ok.
    rewrite (id_terminal _ _ Hi), Ht, Hw, (Ident_mesh _ _ Hi), (live_ceiling _ _ _ _ _ _ HS Hi).
    split_and!; try done. intros E. destruct (Htm E) as (? & -> & ?). done.
  - destruct (ad_attempt _ _ _ HA) as (a & Ha & _). pose proof (advanced_stored _ _ _ _ _ Hok Ht Hhc HA Ha).
    by rewrite Ha.
  - destruct HC as [_ Hh _ (a & t & -> & Hterm & Ho & _ & _ & Hst & _ & Hsc & _ & Hr & Hp & _)].
    rewrite Hh. destruct (queue_only_ident a0 a hs Hok Hsc Hr Hp) as [Q1 Q2].
    constructor; try done; [constructor|]. unfold state_ok. by rewrite Hterm, Ho.
Qed.

Lemma reduce_stored i :
  input_ok i -> exists res, reduce i = Some res /\ stored_ok (res_attempt res) (res_holds res).
Proof.
  unfold input_ok, stored_ok at 1. destruct (in_attempt i) as [a0|] eqn:Ha; intros Hok.
  - destruct (reduce_existing i a0 Ha Hok) as (res & Hr & HO). exists res. split; [done|].
    by eapply outcome_stored.
  - destruct (reduce_none Ha Hok) as (res & Hr & [[a Hop]|(H1 & H2 & _)]); exists res; (split; [done|]).
    + by destruct Hop as [-> _ _ ? _ _ _].
    + by rewrite H1, H2.
Qed.

(** ** The abstract machine *)

(** Verdict events: what the outside learns of an attempt. *)
Inductive Verdict : Set :=
| Vd_commit (generation : Z) (outcome : TurnOutcome) (strength : CommitStrength) (reason : TurnReason)
| Vd_reclaim (from_ to_ : Z).

Definition verdict_of (e : TurnEffect) : option Verdict :=
  match e with
  | E_commit _ g o s r _ _ => Some (Vd_commit g o s r)
  | E_reclaim _ f t _ => Some (Vd_reclaim f t)
  | _ => None
  end.

Definition verdicts (es : list TurnEffect) : list Verdict := omap verdict_of es.

(** The phases of an attempt: its generation and how often it was reclaimed. *)
Inductive Phase : Set :=
| P_absent
| P_open (generation reclaims : Z)
| P_stopping (generation reclaims : Z)
| P_done (generation reclaims : Z) (outcome : TurnOutcome).

Definition phase (a : option TurnAttempt) : Phase :=
  match a with
  | None => P_absent
  | Some a =>
      match a_terminal a, d_writerStop (a_data a) with
      | Some t, _ => P_done (a_generation a) (a_reclaimCount a) (t_outcome t)
      | None, Some _ => P_stopping (a_generation a) (a_reclaimCount a)
      | None, None => P_open (a_generation a) (a_reclaimCount a)
      end
  end.

(** The promised life of an attempt. *)
Inductive spec_step : Phase -> list Verdict -> Phase -> Prop :=
| sp_stay p : spec_step p [] p
| sp_accept g : spec_step P_absent [] (P_open g 0)
| sp_stop g n : spec_step (P_open g n) [] (P_stopping g n)
| sp_commit_open g n o s r : spec_step (P_open g n) [Vd_commit g o s r] (P_done g n o)
| sp_commit_stopping g n o s r : spec_step (P_stopping g n) [Vd_commit g o s r] (P_done g n o)
| sp_reclaim g n : n < RECLAIM_BUDGET ->
    spec_step (P_stopping g n) [Vd_reclaim g (g + 1)] (P_open (g + 1) (n + 1)).

(** Verdicts are read off the observations. *)
Definition verdict_of_obs (o : Obs) : option Verdict :=
  match o with
  | Ob_commit g o s r => Some (Vd_commit g o s r)
  | Ob_reclaim f t => Some (Vd_reclaim f t)
  | _ => None
  end.

Lemma verdicts_observed es : verdicts es = omap verdict_of_obs (observed es).
Proof.
  induction es as [|e es IH]; [done|]. unfold verdicts, observed in *. cbn. rewrite IH. by destruct e.
Qed.

Lemma verdicts_commit a o s r : omap verdict_of_obs (commit_obs a o s r) = [Vd_commit (a_generation a) o s r].
Proof. unfold commit_obs. cbn. by repeat case_match. Qed.

Lemma verdicts_reclaim a : omap verdict_of_obs (reclaim_obs a) = [Vd_reclaim (a_generation a) (a_generation a + 1)].
Proof. unfold reclaim_obs. cbn. by repeat case_match. Qed.

Lemma phase_live a0 a :
  Ident a0 a -> a_terminal a0 = None ->
  phase (Some a) = match d_writerStop (a_data a) with
                   | Some _ => P_stopping (a_generation a0) (a_reclaimCount a0)
                   | None => P_open (a_generation a0) (a_reclaimCount a0)
                   end.
Proof. intros Hi Ht. unfold phase. by rewrite (id_terminal _ _ Hi), Ht, (id_generation _ _ Hi), (id_reclaims _ _ Hi). Qed.

(** An outcome is a step of the abstract machine. *)
Lemma outcome_spec i a0 hs res :
  Outcome i a0 hs res ->
  spec_step (phase (Some a0)) (verdicts (res_effects res)) (phase (res_attempt res)).
Proof.
  rewrite verdicts_observed.
  intros [a Hf -> _ -> _|ctx d [Ho Hn] Ht HL [-> _ ->]|ctx d Ht Hm HP [-> _ ->]
         |d [st Hs] Ht _ _ Hhc HA [-> _ ->]|o s r d Ht HC [-> _ ->] _].
  - destruct Hf as [->|[_ [t ->]]]; constructor.
  - destruct (lv_attempt _ _ _ _ _ HL) as (a & -> & Hi & _ & Hw). rewrite (lv_obs _ _ _ _ _ HL).
    rewrite !(phase_live a0) by (done || apply Ident_refl). rewrite Hn, Hw. constructor.
  - destruct HP as (stop & hc' & HS & _). rewrite (lv_obs _ _ _ _ _ HS).
    destruct (lv_attempt _ _ _ _ _ HS) as (a & -> & Hi & _ & Hw).
    rewrite !(phase_live a0) by (done || apply Ident_refl). rewrite Hw. case_match; constructor.
  - destruct (ad_attempt _ _ _ HA) as (a & -> & _ & Htm & _ & _ & Hg & Hr & _ & Hw & ->).
    rewrite verdicts_reclaim, (phase_live a0) by (done || apply Ident_refl). rewrite Hs.
    unfold phase. rewrite Htm, Ht, Hw, Hg, Hr. constructor. apply (ad_budget _ _ _ HA).
  - destruct (cm_attempt _ _ _ _ _ HC) as (a & t & -> & Htm & <- & _ & _ & _ & _ & _ & Hg & Hr & _ & ->).
    rewrite verdicts_commit, (phase_live a0) by (done || apply Ident_refl). rewrite Hg.
    unfold phase. rewrite Htm, Hg, Hr. case_match; constructor.
Qed.

Lemma reduce_spec i res :
  input_ok i -> reduce i = Some res ->
  spec_step (phase (in_attempt i)) (verdicts (res_effects res)) (phase (res_attempt res)).
Proof.
  unfold input_ok, stored_ok. destruct (in_attempt i) as [a0|] eqn:Ha; intros Hok Hr.
  - destruct (reduce_existing i a0 Ha Hok) as (res' & Hr' & HO). rewrite Hr in Hr'. injection Hr' as <-.
    by eapply outcome_spec.
  - destruct (reduce_none Ha Hok) as (res' & Hr' & Hc). rewrite Hr in Hr'. injection Hr' as <-.
    rewrite verdicts_observed. destruct Hc as [[a [-> _ _ _ ([_ Hw] & Ht & Hn) -> _]]|(-> & _ & ->)].
    + unfold phase. rewrite Ht, Hw, Hn. constructor.
    + constructor.
Qed.

(** ** Runs *)

(** What is stored of one attempt, and one arrival of evidence. *)
Definition Stored : Type := option TurnAttempt * list TurnHold.

Record Arrival : Type := {
  ar_evidence : TurnEvidence;
  ar_policy : TurnPolicy;
  ar_nowMs : Z;
  ar_stopConfirmed : bool;
  ar_writerUnreachable : option SettledBy }.

Definition input_of (st : Stored) (x : Arrival) : ReduceInput := {|
  in_stopConfirmed := ar_stopConfirmed x; in_writerUnreachable := ar_writerUnreachable x;
  in_attempt := st.1; in_holds := st.2; in_evidence := ar_evidence x; in_policy := ar_policy x;
  in_nowMs := ar_nowMs x |}.

(** Reducing arrivals one after the other, each against what the last one stored. *)
Fixpoint run (st : Stored) (xs : list Arrival) : option (Stored * list TurnEffect) :=
  match xs with
  | [] => Some (st, [])
  | x :: xs =>
      match reduce (input_of st x) with
      | None => None
      | Some res =>
          match run (res_attempt res, res_holds res) xs with
          | None => None
          | Some (st', es) => Some (st', (res_effects res ++ es)%list)
          end
      end
  end.

Definition nothing_stored : Stored := (None, []).

Inductive spec_run : Phase -> list Verdict -> Phase -> Prop :=
| sr_nil p : spec_run p [] p
| sr_cons p vs q vs' q' : spec_step p vs q -> spec_run q vs' q' -> spec_run p (vs ++ vs') q'.

Lemma verdicts_app es es' : verdicts (es ++ es') = (verdicts es ++ verdicts es')%list.
Proof. apply omap_app. Qed.

Lemma run_stored st xs :
  stored_ok st.1 st.2 ->
  exists st' es, run st xs = Some (st', es) /\ stored_ok st'.1 st'.2
    /\ spec_run (phase st.1) (verdicts es) (phase st'.1).
Proof.
  revert st. induction xs as [|x xs IH]; intros st Hok; cbn.
  { exists st, []. by split_and!; [..|constructor]. }
  destruct (reduce_stored (input_of st x) Hok) as (res & Hr & Hok'). rewrite Hr.
  destruct (IH (res_attempt res, res_holds res) Hok') as (st' & es & Hrun & Hst & Hsp). rewrite Hrun.
  eexists st', _. split_and!; [done|done|]. rewrite verdicts_app. econstructor; [|exact Hsp].
  by apply (reduce_spec (input_of st x)).
Qed.

(** ** The life of an attempt *)

(** The reclaims that took an attempt from generation [g - n] to [g]. *)
Definition reclaims (g n : Z) : list Verdict :=
  map (fun k => let f := g - n + Z.of_nat k in Vd_reclaim f (f + 1)) (List.seq 0 (Z.to_nat n)).

(** The verdict events an attempt in a phase has produced. *)
Definition history (p : Phase) (vs : list Verdict) : Prop :=
  match p with
  | P_absent => vs = []
  | P_open g n | P_stopping g n => 0 <= n <= RECLAIM_BUDGET /\ vs = reclaims g n
  | P_done g n o =>
      0 <= n <= RECLAIM_BUDGET /\ exists s r, vs = (reclaims g n ++ [Vd_commit g o s r])%list
  end.

Lemma reclaims_next g n : 0 <= n -> reclaims (g + 1) (n + 1) = (reclaims g n ++ [Vd_reclaim g (g + 1)])%list.
Proof.
  intros Hn. unfold reclaims. replace (Z.to_nat (n + 1)) with (S (Z.to_nat n)) by lia.
  rewrite seq_S, map_app. cbn. f_equal.
  - apply map_ext. intros k. f_equal; lia.
  - do 2 f_equal; lia.
Qed.

Lemma history_step p vs q vs' : history p vs -> spec_step p vs' q -> history q (vs ++ vs').
Proof.
  intros Hh Hs. destruct Hs; cbn in *; rewrite ?app_nil_r; try done.
  - destruct Hh as [? ->]. eauto.
  - destruct Hh as [? ->]. eauto.
  - destruct Hh as [? ->]. split; [unfold RECLAIM_BUDGET in *; lia|]. by rewrite reclaims_next by lia.
Qed.

Lemma history_run p vs q vs' : history p vs -> spec_run p vs' q -> history q (vs ++ vs').
Proof.
  intros Hh Hr. revert vs Hh. induction Hr as [|p vs1 q vs2 q' Hs Hr IH]; intros vs Hh.
  - by rewrite app_nil_r.
  - rewrite app_assoc. apply IH. by eapply history_step.
Qed.
