(* ===== verification/LedgerVerdicts.v ===== *)
(** * What one reduction may answer

    Facts of [reduce] the ledger around it relies on: evidence that is not
    applied changes nothing, an attempt keeps its id, a commit is announced once
    and matches the terminal columns, and only the expiry of a hold asks for a
    re-evaluation. *)

From S2P Require Import Prelude TurnEvidence Vocabulary TurnPolicy TurnTypes Admission Transitions Guards Reducer LedgerInv LedgerSteps LedgerSettle LedgerTable LedgerReduce LedgerContract.

#[local] Open Scope string_scope.
#[local] Open Scope Z_scope.

(** ** Evidence that is not applied *)

Lemma reduce_not_applied i res :
  reduce i = Some res -> res_verdict res <> V_applied ->
  (exists rj, res = rejected i rj)
  \/ exists lane eff r, Matches (ctx_of i eff) lane r /\ (lane = Lane_none \/ is_Some (in_attempt i))
       /\ r_verdict r <> V_applied /\ run_rule i eff r = Some res.
Proof.
  unfold reduce. destruct (classifyLane _ _ _) as [lane eff|rj] eqn:Hl; [|intros [= <-]; eauto].
  intros Hr Hv. case_match eqn:Hstop.
  { unfold reduceStopping in Hr. repeat case_match; simplify_eq. }
  pose proof (fun r => matching_matches i _ _ r Hl) as HM. destruct (matchingRules i) as [|r rs].
  { injection Hr as <-. eauto. }
  right. exists lane, eff, r. split_and!; [by apply HM; left| | |done].
  - destruct (in_attempt i) eqn:E; [eauto|]. left. cbn in Hl. by simplify_eq.
  - unfold run_rule in Hr. case_match; simplify_eq. done.
Qed.

Lemma not_applied_unchanged i res :
  input_ok i -> reduce i = Some res -> res_verdict res <> V_applied ->
  res_attempt res = in_attempt i /\ res_holds res = in_holds i /\ observed (res_effects res) = [].
Proof.
  intros Hok Hr Hv. assert (Hnd : NoDup (map h_holdId (in_holds i))).
  { unfold input_ok, stored_ok in Hok. destruct (in_attempt i); [apply Hok|]. rewrite Hok. constructor. }
  destruct (reduce_not_applied i res Hr Hv) as [[rj ->]|(lane & eff & r & M & Hl & Hnv & Hrun)]; [done|].
  destruct (run_recording _ _ _ _ _ M Hl Hnv Hrun) as (H1 & H2 & H3).
  rewrite H1, H2, H3, holds_map_values by done. done.
Qed.

(** ** The id of an attempt *)

Lemma outcome_id i a0 hs res :
  Outcome i a0 hs res -> exists a, res_attempt res = Some a /\ a_attemptId a = a_attemptId a0.
Proof.
  intros [a Hf H _ _ _|ctx d _ _ HL [-> _ _]|ctx d _ _ HP [-> _ _]|d _ _ _ _ _ HA [-> _ _]|o s r d _ HC [-> _ _] _].
  - exists a. split; [done|]. by destruct Hf as [->|[_ [t ->]]].
  - destruct (lv_attempt _ _ _ _ _ HL) as (a & Ha & Hi & _). exists a. by rewrite (id_attemptId _ _ Hi).
  - destruct HP as (stop & hc' & HS & _). destruct (lv_attempt _ _ _ _ _ HS) as (a & Ha & Hi & _).
    exists a. by rewrite (id_attemptId _ _ Hi).
  - destruct (ad_attempt _ _ _ HA) as (a & Ha & _ & _ & Hid & _). by exists a.
  - destruct (cm_attempt _ _ _ _ _ HC) as (a & t & Ha & _ & _ & _ & _ & _ & Hid & _). by exists a.
Qed.

(** What the store relies on: the attempt of an applied reduction is the one
    reduced, or newly opened under the evidence's opening id. *)
Lemma reduce_id i res :
  input_ok i -> reduce i = Some res ->
  match in_attempt i, res_attempt res with
  | Some a0, Some a => a_attemptId a = a_attemptId a0
  | Some _, None => False
  | None, Some a => a_attemptId a = opening_id (in_evidence i)
                    /\ ev_kind (in_evidence i) ∈ [K_dispatch_accepted; K_turn_started]
  | None, None => True
  end.
Proof.
  unfold input_ok, stored_ok. destruct (in_attempt i) as [a0|] eqn:Ha; intros Hok Hr.
  - destruct (reduce_existing i a0 Ha Hok) as (res' & Hr' & HO). rewrite Hr in Hr'. injection Hr' as <-.
    destruct (outcome_id _ _ _ _ HO) as (a & -> & ->). done.
  - destruct (reduce_none Ha Hok) as (res' & Hr' & Hc). rewrite Hr in Hr'. injection Hr' as <-.
    destruct Hc as [[a [-> ? ? _ _ _ _]]|(-> & _)]; done.
Qed.

(** ** What every step preserves

    A step reads and updates the attempt, pushes effects and changes holds.  A
    draft predicate closed under these is kept by every template and by the
    steps on a stopping attempt.  Updates keep the attempt's task key; only the
    two opening actions write a new one, only one template re-evaluates. *)

Definition task_key (a : TurnAttempt) : option string * option string * Z := (a_meshId a, a_taskId a, a_attemptNo a).

(** Every effect but a re-evaluation. *)
Definition not_reevaluation (e : TurnEffect) : Prop :=
  match e with E_reevaluate _ _ _ => False | _ => True end.

Definition preserves (I : Draft -> Prop) (m : step Draft) : Prop := forall d d', m d = Some d' -> I d -> I d'.

(** [I] is closed under the primitive writes, [K] holds of its attempt. *)
Record Closed (I : Draft -> Prop) (K : TurnAttempt -> Prop) : Prop := {
  cl_read : forall d a, I d -> dr_attempt d = Some a -> K a;
  cl_same : forall a a', task_key a' = task_key a -> a_sessionId a' = a_sessionId a -> K a -> K a';
  cl_set : forall d a, K a -> I d -> I {| d with dr_attempt := Some a |};
  cl_push : forall d e, not_reevaluation e -> I d -> I {| d with dr_effects := (dr_effects d ++ [e])%list |};
  cl_holds : forall d hs, I d -> I {| d with dr_holds := hs |};
  cl_commit : forall d, I d -> I {| d with dr_committed := true |} }.

Section Preserves.
Context {I : Draft -> Prop} {K : TurnAttempt -> Prop}.
Hypothesis HI : Closed I K.
Implicit Types (m : step Draft).

(** For the steps that move an attempt to another session. *)
Hypothesis HM : forall a s, K a -> K {| a with a_sessionId := s |}.

Lemma preserves_seq m1 m2 : preserves I m1 -> preserves I m2 -> preserves I (m1 ;;; m2).
Proof. intros H1 H2 d d'. unfold seq. destruct (m1 d) eqn:E; [|done]. intros E2 Hd. eauto. Qed.

Lemma preserves_skip : preserves I skip.
Proof. by intros d d' [= <-]. Qed.

Lemma preserves_failure : preserves I assertion_failure.
Proof. by intros d d' ?. Qed.

Lemma preserves_with_attempt f : (forall a, K a -> preserves I (f a)) -> preserves I (with_attempt f).
Proof. intros Hf d d'. unfold with_attempt. case_match; [|done]. intros E Hd. eapply Hf; [|exact E|exact Hd].
  by eapply HI. Qed.

Lemma preserves_reading f : (forall d, preserves I (f d)) -> preserves I (reading f).
Proof. intros Hf d d'. apply Hf. Qed.

Lemma preserves_push e : not_reevaluation e -> preserves I (push e).
Proof. intros He d d' [= <-]. by apply HI. Qed.

Lemma preserves_set_attempt a a0 :
  K a0 -> task_key a = task_key a0 -> a_sessionId a = a_sessionId a0 -> preserves I (set_attempt a).
Proof. intros Ha E E' d d' [= <-]. apply HI. by apply (cl_same _ _ HI a0). Qed.

Lemma preserves_moved a a0 : K a0 -> task_key a = task_key a0 -> preserves I (set_attempt a).
Proof.
  intros Ha E d d' [= <-]. apply HI. apply (cl_same _ _ HI {| a0 with a_sessionId := a_sessionId a |}); try done. by apply HM.
Qed.

Lemma preserves_addHold h : preserves I (addHold h).
Proof.
  intros d d' [= <-] Hd. exact (cl_push _ _ HI _ (E_hold h) Logic.I (cl_holds _ _ HI _ (map_set (h_holdId h) h (dr_holds d)) Hd)).
Qed.

Lemma preserves_releaseHolds reasons keep : preserves I (releaseHolds reasons keep).
Proof.
  apply preserves_with_attempt. intros a _ d d' E Hd. cbv zeta in E.
  destruct (snd (release_loop _ _ _)); injection E as <-; [by apply HI|].
  exact (cl_push _ _ HI _ (E_release_hold (a_attemptId a) _) Logic.I (cl_holds _ _ HI _ _ Hd)).
Qed.

Lemma preserves_committed : preserves I (fun d => Some {| d with dr_committed := true |}).
Proof. intros d d' [= <-]. apply HI. Qed.

Ltac walk :=
  repeat match goal with
  | |- preserves _ (seq _ _) => apply preserves_seq
  | |- preserves _ skip => apply preserves_skip
  | |- preserves _ assertion_failure => apply preserves_failure
  | |- preserves _ (with_attempt _) => apply preserves_with_attempt; intros ? ?
  | |- preserves _ (reading _) => apply preserves_reading; intros ?
  | |- preserves _ (push _) => apply preserves_push; exact Logic.I
  | |- preserves _ (addHold _) => apply preserves_addHold
  | |- preserves _ (releaseHolds _ _) => apply preserves_releaseHolds
  | |- preserves _ (fun d => Some _) => apply preserves_committed
  | H : K ?a |- preserves _ (set_attempt _) =>
      first [ apply (preserves_set_attempt _ a H); unfold resolve_suspension, observe_liveness; repeat case_match; done
            | apply (preserves_moved _ a H); done ]
  | |- preserves _ (match ?x with _ => _ end) => destruct x
  | |- preserves _ (let _ := _ in _) => cbv zeta
  | _ => progress unfold when, modify, modify_data, notify, set_stop, update_stop, with_stop
  end.

Lemma preserves_requestWriterStop : preserves I requestWriterStop.
Proof. unfold requestWriterStop. walk. Qed.

Lemma preserves_beginWriterStop r : preserves I (beginWriterStop r).
Proof. unfold beginWriterStop. walk; apply preserves_requestWriterStop. Qed.

Lemma preserves_commit o s r t : preserves I (commit o s r t).
Proof. unfold commit, commit_stopping, commit_terminal. walk; apply preserves_beginWriterStop. Qed.

Lemma preserves_reclaim r : preserves I (reclaim r).
Proof.
  unfold reclaim, advance_generation. walk; first [apply preserves_commit | apply preserves_beginWriterStop].
Qed.

#[local] Hint Unfold act_rebind_dispatch act_mark_delivered act_consume act_apply_held_suspension act_suspend
  act_resume act_resume_by_activity act_weak_candidate act_clear_weak act_await_report act_false_idle act_activity
  act_liveness_unknown act_liveness_failure act_defer_unconfirmed_end act_open_report_correction act_worker_absent
  act_rebind_to_holder act_rebind act_hollow act_mark_notified act_store_git act_redrive
  act_stamp_no_progress_notice act_record_report bindLivenessSession : actions.

Lemma preserves_action act : act ∉ [Act_open_dispatch; Act_open_plain] -> preserves I (ACTIONS act).
Proof.
  intros Ho. destruct act; cbn [ACTIONS]; try (autounfold with actions; walk; fail); exfalso; apply Ho; set_solver.
Qed.

#[local] Hint Resolve preserves_beginWriterStop preserves_commit preserves_reclaim : preserves.

(** Templates that open nothing and re-evaluate nothing. *)
Definition ordinary (t : EffectTemplate) : bool :=
  match t with T_reevaluate | T_act Act_open_dispatch | T_act Act_open_plain => false | _ => true end.

Lemma preserves_template t : ordinary t = true -> preserves I (apply_uncommitted t).
Proof.
  destruct t; cbn [apply_uncommitted]; intros Ht; try done.
  - apply preserves_action. intros [->|[->| ?%elem_of_nil]%elem_of_cons]%elem_of_cons; done.
  - unfold apply_hold. walk.
  - unfold apply_release. walk.
  - unfold apply_commit. walk; auto with preserves.
  - unfold apply_reclaim. walk; auto with preserves.
  - unfold apply_notify, suspension_reminder, send_notice, act_stamp_no_progress_notice. walk.
  - unfold adopt_prev_generation. walk; auto with preserves.
  - walk.
  - walk.
  - unfold apply_cancel_dispatch. walk.
  - walk.
  - walk.
Qed.

Lemma preserves_run ts :
  (forall t, t ∈ ts -> preserves I (apply_uncommitted t)) -> preserves I (seq_all (map applyTemplate ts)).
Proof.
  induction ts as [|t ts IH]; intros Hn; [apply preserves_skip|]. cbn.
  apply preserves_seq; [|apply IH; intros t' Ht'; apply Hn; by right].
  intros d d'. unfold applyTemplate. case_match; [by intros [= <-]|]. apply Hn. by left.
Qed.

Lemma preserves_settle_with t r : preserves I (settle_with t r).
Proof. apply preserves_commit. Qed.
#[local] Hint Resolve preserves_settle_with : preserves.

Lemma preserves_overrides i : preserves I (stopping_overrides i).
Proof. unfold stopping_overrides. walk. Qed.

Lemma preserves_confirm f : preserves I (update_stop f).
Proof. walk. Qed.

Lemma preserves_adopt_report : preserves I adoptReportHeldDuringStop.
Proof. unfold adoptReportHeldDuringStop. walk. Qed.
#[local] Hint Resolve preserves_overrides preserves_adopt_report : preserves.

Lemma preserves_stopping i ctx : preserves I (stopping_step i ctx).
Proof.
  unfold stopping_step, settle_confirmed, settleUnreachableWriter, stop_retry, requestWriterStop, act_record_report.
  walk; auto with preserves.
Qed.
End Preserves.

(** *** Re-evaluations *)

Definition calm (d : Draft) : Prop := Forall not_reevaluation (dr_effects d).

Lemma calm_closed : Closed calm (fun _ => True).
Proof. constructor; try done. intros d e He Hd. apply Forall_app. split; [done|]. by apply Forall_singleton. Qed.

Definition no_reevaluate (t : EffectTemplate) : bool := match t with T_reevaluate => false | _ => true end.

Lemma calm_run ts : forallb no_reevaluate ts = true -> preserves calm (seq_all (map applyTemplate ts)).
Proof.
  intros Hn. apply preserves_run. intros t Ht. rewrite forallb_forall in Hn. apply list_elem_of_In, Hn in Ht.
  destruct (ordinary t) eqn:E; [by apply (preserves_template calm_closed (fun _ _ H => H))|].
  destruct t as [[]| | | | | | | | | | | |]; try done; intros d d'; cbn.
  - unfold act_open_dispatch. case_match; [|done..]. by intros [= <-].
  - by intros [= <-].
Qed.

(** Only expired holds are re-evaluated. *)
Lemma table_reevaluating :
  forallb (fun r => forallb no_reevaluate (r_effects r) || bool_decide (r_on r = [K_hold_expired]))
    TRANSITIONS = true.
Proof. vm_compute. reflexivity. Qed.

Lemma target_effects i r d : dr_effects (apply_target i r d) = dr_effects d.
Proof. unfold apply_target. by repeat case_match. Qed.

Lemma reduce_reevaluates i res a x f :
  reduce i = Some res -> E_reevaluate a x f ∈ res_effects res -> ev_kind (in_evidence i) = K_hold_expired.
Proof.
  intros Hr Hin. destruct (decide (ev_kind (in_evidence i) = K_hold_expired)) as [|Hk]; [done|exfalso].
  enough (Forall not_reevaluation (res_effects res)) as H.
  { rewrite Forall_forall in H. by apply H in Hin. }
  unfold reduce in Hr. destruct (classifyLane _ _ _) as [lane eff|rj] eqn:Hl;
    [|injection Hr as <-; by repeat constructor].
  case_match.
  { unfold reduceStopping in Hr. case_match; [|done]. case_match eqn:E; [|done]. injection Hr as <-.
    exact (preserves_stopping calm_closed (fun _ _ H => H) _ _ _ _ E (List.Forall_nil _)). }
  pose proof (fun r => matching_matches i _ _ r Hl) as HM. destruct (matchingRules i) as [|r rs].
  { injection Hr as <-. by repeat constructor. }
  specialize (HM r (or_introl eq_refl)). pose proof (rule_facts _ _ _ table_reevaluating HM) as Hf. cbn in Hf.
  apply orb_true_iff in Hf as [Hf|Hf].
  2: { apply bool_decide_eq_true in Hf. pose proof (mr_kind _ _ _ HM) as Hk'. rewrite Hf in Hk'.
       by apply list_elem_of_singleton in Hk'. }
  unfold run_rule in Hr. case_match eqn:E; [|done]. injection Hr as <-. cbn. rewrite target_effects.
  exact (calm_run _ Hf _ _ E (List.Forall_nil _)).
Qed.

(** *** The task key *)

Definition keyed (k : option string * option string * Z) (d : Draft) : Prop :=
  forall a, dr_attempt d = Some a -> task_key a = k.

Lemma keyed_closed k : Closed (keyed k) (fun a => task_key a = k).
Proof. constructor; try done; [naive_solver|congruence|]. by intros d a Ha _ a' [= <-]. Qed.

Lemma table_openers :
  forallb (fun r => bool_decide (r_lane r = Lane_none)
    || forallb (fun t => ordinary t || negb (no_reevaluate t)) (r_effects r)) TRANSITIONS = true.
Proof. vm_compute. reflexivity. Qed.

(** Reducing evidence of a stored attempt never moves it to another task, mesh
    or attempt number. *)
Lemma reduce_task_key i a0 a res :
  in_attempt i = Some a0 -> reduce i = Some res -> res_attempt res = Some a -> task_key a = task_key a0.
Proof.
  intros Ha Hr Hra. unfold reduce in Hr. destruct (classifyLane _ _ _) as [lane eff|rj] eqn:Hl.
  2: { injection Hr as <-. cbn in Hra. congruence. }
  assert (H0 : forall eff r, keyed (task_key a0) (start_draft i eff r)).
  { intros eff' r a1. cbn. rewrite Ha. by intros [= <-]. }
  case_match.
  { unfold reduceStopping in Hr. rewrite Ha in Hr. case_match eqn:E; [|done]. injection Hr as <-.
    by eapply (preserves_stopping (keyed_closed (task_key a0)) (fun _ _ H => H) _ _ _ _ E). }
  pose proof (fun r => matching_matches i _ _ r Hl) as HM. destruct (matchingRules i) as [|r rs].
  { injection Hr as <-. cbn in Hra. congruence. }
  specialize (HM r (or_introl eq_refl)). pose proof (rule_facts _ _ _ table_openers HM) as Hf. cbn in Hf.
  assert (Hne : lane <> Lane_none) by (rewrite Ha in Hl; by apply lane_of_attempt in Hl).
  rewrite (mr_lane _ _ _ HM), bool_decide_false in Hf by done. cbn in Hf.
  unfold run_rule in Hr. case_match eqn:E; [|done]. injection Hr as <-. cbn in Hra.
  assert (Hk : keyed (task_key a0) d).
  { refine (preserves_run _ _ _ _ E (H0 _ _)). intros t Ht. rewrite forallb_forall in Hf.
    apply list_elem_of_In, Hf, orb_true_iff in Ht as [Ht|Ht]; [by apply (preserves_template (keyed_closed _) (fun _ _ H => H))|].
    destruct t; try done. cbn. apply (preserves_with_attempt (keyed_closed _)). intros a1 _.
    apply preserves_reading. intros d1 d2 d3 [= <-]. done. }
  revert Hra. unfold apply_target. repeat case_match; try apply Hk. intros [= <-].
  match goal with H : dr_attempt d = Some ?x |- _ => exact (Hk x H) end.
Qed.
