(* ===== verification/LedgerExpiry.v ===== *)
(** * A concrete attempt

    The stored states of one queue attempt along a run: the inputs the theorems
    are instantiated at. *)

From stdpp Require Import pretty sorting.
From S2P Require Import Prelude TurnEvidence Vocabulary TurnPolicy TurnTypes Admission Transitions Guards Reducer LedgerInv LedgerSteps LedgerSettle LedgerTable LedgerReduce LedgerContract.

#[local] Open Scope string_scope.
#[local] Open Scope Z_scope.

Definition sample_ref (generation : Z) : TurnAttemptRef :=
  {| ref_attemptId := "attempt-1"; ref_generation := generation |}.

Definition sample_evidence (id : string) (at_ : Z) (source : EvidenceSourceId) (generation : Z)
    (body : TurnEvidenceBody) : TurnEvidence := {|
  ev_env := {| e_eventId := id; e_at := at_; e_source := source; e_sessionId := "session-1";
               e_attemptRef := Some (sample_ref generation); e_taskId := Some "task-1";
               e_observedBy := "daemon-1" |};
  ev_body := body |}.

Definition arrives (id : string) (at_ : Z) (source : EvidenceSourceId) (generation : Z)
    (body : TurnEvidenceBody) : Arrival := {|
  ar_evidence := sample_evidence id at_ source generation body; ar_policy := DEFAULT_TURN_POLICY;
  ar_nowMs := at_; ar_stopConfirmed := false; ar_writerUnreachable := None |}.

Definition sample_dispatch : Arrival :=
  arrives "e-dispatch" 1000 Src_dispatch 1 (dispatch_accepted {|
    da_scope := Sc_mesh_queue; da_messageId := "message-1"; da_meshId := Some "mesh-1"; da_nodeId := None;
    da_providerType := None; da_attemptNo := None; da_dispatchNonce := None; da_consumeProfile := None;
    da_maxTaskRetries := None;
    da_coordinator := Some {| co_daemonId := "daemon-0"; co_coordinatorRunId := "run-1";
                              co_sessionId := Some "coordinator" |} |}).

Definition sample_started : Arrival := arrives "e-start" 2000 Src_fsm_edge 1 (turn_started false).

Definition sample_report_body : WorkerReport := {|
  wr_outcome := Wo_blocked; wr_summary := None; wr_hasHandoffNotes := false; wr_branchState := None;
  wr_touchedFileCount := None |}.

Definition sample_report (at_ : Z) : Arrival := arrives "e-report" at_ Src_worker_tool 1 (worker_report sample_report_body).

Definition sample_exit : Arrival := arrives "e-exit" 4000 Src_session_registry 1 (process_exit (Some 1) None).

Definition sample_cancel (at_ : Z) : Arrival := arrives "e-cancel" at_ Src_operator 1 (cancel Cr_operator_cancel).

(** Evidence of a session that works outside a mesh. *)
Definition unbound (at_ : Z) (body : TurnEvidenceBody) : Arrival :=
  let x := arrives "e-plain" at_ Src_fsm_edge 0 body in
  {| x with ar_evidence := {| ev_env := {| (ev_env (ar_evidence x)) with e_attemptRef := None; e_taskId := None |};
                              ev_body := body |} |}.

(** The same arrival, once the previous writer is known to have stopped. *)
Definition confirming (x : Arrival) : Arrival := {| x with ar_stopConfirmed := true |}.

Definition stored_after (xs : list Arrival) : Stored :=
  match run nothing_stored xs with Some (st, _) => st | None => nothing_stored end.

(** The stored states, as values. *)
Definition sample_open : Stored := Eval vm_compute in stored_after [sample_dispatch].
Definition sample_generating : Stored := Eval vm_compute in stored_after [sample_dispatch; sample_started].
Definition sample_reported : Stored :=
  Eval vm_compute in stored_after [sample_dispatch; sample_started; sample_report 3000].
Definition sample_stopping : Stored :=
  Eval vm_compute in stored_after [sample_dispatch; sample_started; sample_exit].
Definition sample_done : Stored := Eval vm_compute in stored_after [sample_dispatch; sample_report 1500].
Definition sample_plain : Stored := Eval vm_compute in stored_after [unbound 2000 (turn_started false)].

Lemma stored_after_ok xs st : stored_after xs = st -> stored_ok st.1 st.2.
Proof.
  intros <-. unfold stored_after.
  destruct (run_stored nothing_stored xs) as (st & es & -> & Hok & _); done.
Qed.

Ltac by_sample xs := apply (stored_after_ok xs); vm_compute; reflexivity.

Lemma sample_open_ok : stored_ok sample_open.1 sample_open.2.
Proof. by_sample [sample_dispatch]. Qed.
Lemma sample_generating_ok : stored_ok sample_generating.1 sample_generating.2.
Proof. by_sample [sample_dispatch; sample_started]. Qed.
Lemma sample_reported_ok : stored_ok sample_reported.1 sample_reported.2.
Proof. by_sample [sample_dispatch; sample_started; sample_report 3000]. Qed.
Lemma sample_stopping_ok : stored_ok sample_stopping.1 sample_stopping.2.
Proof. by_sample [sample_dispatch; sample_started; sample_exit]. Qed.
Lemma sample_done_ok : stored_ok sample_done.1 sample_done.2.
Proof. by_sample [sample_dispatch; sample_report 1500]. Qed.
Lemma sample_plain_ok : stored_ok sample_plain.1 sample_plain.2.
Proof. by_sample [unbound 2000 (turn_started false)]. Qed.

(** * Hold expiry

    [expireHolds] as a scheduler: every due hold, once, in deadline order; and the
    hard ceiling, whose expiry always starts the writer stop. *)

(** ** The order of expiries *)

Lemma string_leb_total s1 s2 : String.leb s1 s2 = true \/ String.leb s2 s1 = true.
Proof. apply String.leb_total. Qed.

#[global] Instance hold_le_total : Total hold_le.
Proof.
  intros h1 h2. unfold hold_le, hold_leb. destruct (hold_key h1) as [u1 i1], (hold_key h2) as [u2 i2].
  destruct (Z.lt_trichotomy u1 u2) as [H|[->|H]].
  - left. apply orb_true_iff. left. by apply Z.ltb_lt.
  - rewrite !Z.ltb_irrefl, Z.eqb_refl. cbn. apply string_leb_total.
  - right. apply orb_true_iff. left. by apply Z.ltb_lt.
Qed.

(** The holds [expireHolds] reports, in its order. *)
Definition expiring (holds : list TurnHold) (nowMs : Z) : list TurnHold :=
  merge_sort hold_le (List.filter (due nowMs) holds).

Lemma expiring_perm holds nowMs : expiring holds nowMs ≡ₚ List.filter (due nowMs) holds.
Proof. apply merge_sort_Permutation. Qed.

Lemma expireHolds_In holds nowMs xc h :
  In h holds -> due nowMs h = true -> In (expiry_evidence nowMs xc h) (expireHolds holds nowMs xc).
Proof.
  intros Hin Hd. unfold expireHolds. apply in_map, list_elem_of_In.
  change (h ∈ expiring holds nowMs). rewrite expiring_perm. by apply list_elem_of_In, filter_In.
Qed.

(** ** The hard ceiling *)

(** The guards of rules on [hold_expired]. *)
Definition expiry_guards : list GuardId :=
  [G_hold_await_delivery; G_hold_await_consume_redrive; G_hold_await_consume_exhausted; G_hold_await_turn;
   G_hold_liveness; G_hold_hard_ceiling; G_hold_suspension_before_consumed; G_hold_weak_candidate;
   G_hold_admission; G_hold_await_report; G_hold_native_probe_report_only; G_hold_direct_report_missing;
   G_hold_queue_report_missing; G_hold_end_unconfirmed_defer; G_hold_end_unconfirmed_exhausted;
   G_hold_end_probe_missing; G_hold_report_correction; G_hold_await_end].

(** The rule of an expired hard ceiling. *)
Definition ceiling_rule : TransitionRule :=
  rule "H5" Lane_current From_nonterminal [K_hold_expired] (Some G_hold_hard_ceiling) (To St_failed)
    V_applied [T_commit (TO O_failed) Str_genuine (TR R_hard_ceiling) false].

Definition expiry_guarded (r : TransitionRule) : bool :=
  match r_guard r with Some g => bool_decide (g ∈ G_otherwise :: expiry_guards) | None => false end.

Lemma table_expiry s :
  open_state s = true ->
  let cands := laneCandidates Lane_current (Some s) K_hold_expired in
  forallb expiry_guarded cands = true
  /\ List.filter (fun r => bool_decide (r_guard r = Some G_hold_hard_ceiling)) cands = [ceiling_rule].
Proof. by destruct s; intros Hs; try discriminate Hs; vm_compute. Qed.

Lemma ceiling_guards ctx h g :
  expiredHold ctx = Some h -> h_reason h = H_hard_ceiling -> g ∈ expiry_guards ->
  GUARDS g ctx = bool_decide (g = G_hold_hard_ceiling).
Proof.
  intros Hx Hr Hg. assert (Hh : forall l, holdIs ctx l = bool_decide (H_hard_ceiling ∈ l)).
  { intros l. unfold holdIs. by rewrite Hx, Hr. }
  unfold expiry_guards in Hg.
  repeat (apply elem_of_cons in Hg as [->|Hg]); [..|by apply not_elem_of_nil in Hg];
    cbn [GUARDS]; unfold endTimer, queueReportMissing; rewrite !Hh; cbn; rewrite ?andb_false_r; done.
Qed.

Lemma filter_ext_in {A} (f g : A -> bool) l :
  (forall x, In x l -> f x = g x) -> List.filter f l = List.filter g l.
Proof. apply List.filter_ext_in. Qed.

(** Only H5 matches an expired hard ceiling. *)
Lemma ceiling_matches i a0 eff h :
  in_attempt i = Some a0 -> open_state (a_state a0) = true -> ev_kind (in_evidence i) = K_hold_expired ->
  classifyLane (in_attempt i) (in_evidence i) (in_holds i) = Lane Lane_current eff ->
  expiredHold (ctx_of i eff) = Some h -> h_reason h = H_hard_ceiling ->
  matchingRules i = [ceiling_rule].
Proof.
  intros Ha Ho Hk Hl Hx Hr. unfold matchingRules. rewrite Hl, Ha, Hk. cbn [fmap option_fmap option_map].
  destruct (table_expiry _ Ho) as [Hg Hf]. unfold select_rules.
  rewrite (filter_ext_in _ (fun r => bool_decide (r_guard r = Some G_hold_hard_ceiling))); [by rewrite Hf|].
  intros r Hin. rewrite forallb_forall in Hg. specialize (Hg r Hin). unfold expiry_guarded in Hg.
  unfold rule_specific. destruct (r_guard r) as [g|]; [|done]. apply bool_decide_eq_true in Hg.
  apply elem_of_cons in Hg as [->|Hg]; [done|].
  assert (GUARDS g (ctx_of i eff) = bool_decide (Some g = Some G_hold_hard_ceiling)) as <-.
  { rewrite (ceiling_guards _ h) by done. apply bool_decide_ext. naive_solver. }
  destruct g; try done.
Qed.

Lemma commit_stopping_verdict {ctx a0 hc} o s r text d :
  stoppable a0 -> Open ctx a0 hc d ->
  wp (commit_stopping o s r text) (fun d' => exists stop hc' t, Stopping ctx a0 hc' stop d'
    /\ ws_reason stop = r /\ ws_terminal stop = Some t /\ st_outcome t = o /\ st_strength t = s) d.
Proof.
  intros Hsp HL. apply wp_reading. eapply wp_seq_mono; [apply (begin_stop Hsp _ _ HL)|].
  intros d1 (stop & hc' & HS & _ & _ & Hre & _). eapply wp_mono; [|apply (stopping_update _ _ _ HS)].
  intros d2 H2. eexists _, hc', _. split; [done|]. by cbn.
Qed.

(** Reducing the expiry of the hard ceiling of an open mesh attempt. *)
Lemma ceiling_expiry_stops i a0 eff h :
  in_attempt i = Some a0 -> ledger_ok a0 (in_holds i) -> a_terminal a0 = None ->
  d_writerStop (a_data a0) = None -> isMeshScope a0 = true ->
  ev_kind (in_evidence i) = K_hold_expired ->
  classifyLane (in_attempt i) (in_evidence i) (in_holds i) = Lane Lane_current eff ->
  expiredHold (ctx_of i eff) = Some h -> h_reason h = H_hard_ceiling ->
  exists res a stop t, reduce i = Some res /\ res_attempt res = Some a /\ a_state a = St_stopping
    /\ d_writerStop (a_data a) = Some stop /\ ws_reason stop = R_hard_ceiling
    /\ ws_terminal stop = Some t /\ st_outcome t = O_failed.
Proof.
  intros Ha Hok Ht Hw Hm Hk Hl Hx Hr. destruct (open_attempt Hok Ht Hw) as [Ho _].
  pose proof (start_open Ha Hok eff ceiling_rule) as HO.
  assert (Hsp : stoppable a0) by by constructor.
  destruct (run_rule_wp i eff ceiling_rule (fun d' => exists stop hc' t,
      Stopping (ctx_of i eff) a0 hc' stop d' /\ ws_reason stop = R_hard_ceiling
      /\ ws_terminal stop = Some t /\ st_outcome t = O_failed))
    as (d & res & (stop & hc' & t & HS & H1 & H2 & H3) & Hres & [Y1 _ _] & _).
  - apply wp_seq. apply applyTemplate_uncommitted; [done|]. cbn [apply_uncommitted].
    do 2 (apply (wp_with_attempt _ _ a0); [done|]; apply wp_reading).
    assert (Hn : commit_needs_stop (ctx_of i eff) a0 R_hard_ceiling = true).
    { unfold commit_needs_stop, stop_confirmed, settleIdleReportOwed. rewrite Hm, Hw. cbn.
      unfold ev_kind in Hk. by destruct (ev_body (in_evidence i)). }
    cbn [start_draft dr_ctx]. rewrite Hn.
    eapply wp_mono; [|by apply (commit_stopping_verdict _ _ _ _ _ Hsp HO)]. intros d1 (stop & hc1 & t & ? & ? & ? & ? & _). by exists stop, hc1, t.
  - destruct (lv_attempt _ _ _ _ _ HS) as (a & Hd & _ & Hst & Hw'). exists res, a, stop, t.
    split; [|split_and!; try done].
    + unfold reduce. rewrite Hl, bool_decide_false by (rewrite Ha; cbn; intros [= E]; by rewrite E in Ho).
      cbn [andb]. by rewrite (ceiling_matches i a0 eff h).
    + rewrite Y1. unfold apply_target. cbn [r_verdict r_to ceiling_rule rule].
      rewrite Hd, (lv_committed _ _ _ _ _ HS), Ha. cbn. rewrite Hst, bool_decide_false; [done|].
      intros E. by rewrite <- E in Ho.
Qed.

(** ** Theorems *)

(** The due ceiling hold's own evidence is in the current lane and names it. *)
Lemma ceiling_evidence_lane a hs nowMs xc h :
  ledger_ok a hs -> In h hs -> h_reason h = H_hard_ceiling ->
  classifyLane (Some a) (expiry_evidence nowMs xc h) hs = Lane Lane_current (Some (a_generation a))
  /\ find_hold (h_holdId h) hs = Some h.
Proof.
  intros Hok Hin Hr. pose proof (lk_holds _ _ Hok) as Hf. rewrite Forall_forall in Hf.
  pose proof (Hf h (proj2 (list_elem_of_In _ _) Hin)) as Hh.
  assert (Hfind : find_hold (h_holdId h) hs = Some h).
  { rewrite <- (find_hold_map _ _ (lk_nodup _ _ Hok)), holds_map_list by apply Hok.
    pose proof (lk_nodup _ _ Hok) as Hnd. clear -Hin Hnd. induction hs as [|h' hs IH]; [done|]. cbn.
    apply NoDup_cons in Hnd as [Hn Hnd]. destruct Hin as [->|Hin]; [by rewrite decide_True|].
    rewrite decide_False; [by apply IH|]. intros E. apply Hn. rewrite <- E.
    by apply list_elem_of_In, in_map. }
  split; [|done]. cbn [classifyLane ev_body expiry_evidence]. rewrite Hfind. unfold classify_hold_expired.
  cbn. pose proof (ho_generation _ _ Hh) as Hg. rewrite Hr, bool_decide_true in Hg by done. by rewrite Hg.
Qed.

(** C13: an open mesh attempt always has a deadline: once it has passed,
    [expireHolds] produces an evidence whose reduction starts the writer stop with a
    recorded [failed]/[hard_ceiling] verdict. *)
Theorem hard_ceiling_fires a0 hs :
  ledger_ok a0 hs -> a_terminal a0 = None -> d_writerStop (a_data a0) = None -> isMeshScope a0 = true ->
  exists deadline, forall nowMs xc policy, deadline <= nowMs ->
    exists ev, In ev (expireHolds hs nowMs xc) /\
    exists res a stop t,
      reduce {| in_stopConfirmed := false; in_writerUnreachable := None; in_attempt := Some a0;
                in_holds := hs; in_evidence := ev; in_policy := policy; in_nowMs := nowMs |} = Some res
      /\ res_attempt res = Some a /\ a_state a = St_stopping /\ d_writerStop (a_data a) = Some stop
      /\ ws_reason stop = R_hard_ceiling /\ ws_terminal stop = Some t /\ st_outcome t = O_failed.
Proof.
  intros Hok Ht Hw Hm.
  assert (Hst := lk_state _ _ Hok). unfold state_ok in Hst. rewrite Ht, Hw in Hst.
  destruct Hst as [Ho Hc]. destruct (Hc Hm) as [h Hh]. apply find_hold_In in Hh as [Hin Hid].
  assert (Hhok : hold_ok a0 h).
  { pose proof (lk_holds _ _ Hok) as Hf. rewrite Forall_forall in Hf. by apply Hf, list_elem_of_In. }
  assert (Hr : h_reason h = H_hard_ceiling).
  { rewrite (ho_id _ _ Hhok) in Hid. by apply holdId_inj in Hid. }
  destruct (ho_deadline _ _ Hhok Hr) as [u Hu]. exists u. intros nowMs xc policy Hle.
  exists (expiry_evidence nowMs xc h). split.
  { apply expireHolds_In; [done|]. unfold due. rewrite Hu. by apply Z.leb_le. }
  destruct (ceiling_evidence_lane a0 hs nowMs xc h Hok Hin Hr) as [Hl Hf].
  match goal with |- exists _ _ _ _, reduce ?i = _ /\ _ => set (inp := i) end.
  apply (ceiling_expiry_stops inp a0 (Some (a_generation a0)) h); try done.
  unfold expiredHold, inp. cbn. unfold find_hold in Hf. rewrite Hf, bool_decide_false by (intros X; by apply X).
  by rewrite bool_decide_false by (intros X; by apply X, (ho_attempt _ _ Hhok)).
Qed.

Lemma hard_ceiling_fires_witness :
  exists a0 deadline, sample_generating.1 = Some a0 /\
  forall nowMs xc policy, deadline <= nowMs ->
    exists ev, In ev (expireHolds sample_generating.2 nowMs xc) /\
    exists res a stop t,
      reduce {| in_stopConfirmed := false; in_writerUnreachable := None; in_attempt := Some a0;
                in_holds := sample_generating.2; in_evidence := ev; in_policy := policy;
                in_nowMs := nowMs |} = Some res
      /\ res_attempt res = Some a /\ a_state a = St_stopping /\ d_writerStop (a_data a) = Some stop
      /\ ws_reason stop = R_hard_ceiling /\ ws_terminal stop = Some t /\ st_outcome t = O_failed.
Proof.
  eexists. destruct (hard_ceiling_fires _ sample_generating.2 sample_generating_ok eq_refl eq_refl eq_refl)
    as [u Hu]. exists u. split; [reflexivity|]. exact Hu.
Defined.

(** [expireHolds] reports every due hold exactly once, in the order of
    deadlines (then hold ids), each evidence naming the hold and its reason. *)
Theorem expireHolds_complete holds nowMs xc :
  exists sorted, sorted ≡ₚ List.filter (due nowMs) holds /\ Sorted hold_le sorted
    /\ map ev_body (expireHolds holds nowMs xc) = map (fun h => hold_expired (h_holdId h) (h_reason h)) sorted
    /\ Forall (fun ev => e_at (ev_env ev) = nowMs /\ e_source (ev_env ev) = Src_scheduler)
         (expireHolds holds nowMs xc).
Proof.
  exists (expiring holds nowMs). split; [apply expiring_perm|]. split; [apply Sorted_merge_sort, _|].
  unfold expireHolds. fold (expiring holds nowMs). split; [by rewrite map_map|].
  apply Forall_forall. intros ev Hev. apply list_elem_of_In, in_map_iff in Hev as (h & <- & _). done.
Qed.
