(* ===== verification/LedgerTheorems.v ===== *)
(** * What the turn ledger guarantees

    The properties of [reduce] as a whole. The proofs apply the outcome
    classification of LedgerReduce and the contract of LedgerContract. *)

From S2P Require Import Prelude TurnEvidence Vocabulary TurnPolicy TurnTypes Admission Transitions Guards Reducer LedgerInv LedgerSteps LedgerSettle LedgerTable LedgerReduce LedgerContract LedgerVerdicts LedgerExpiry.

#[local] Open Scope string_scope.
#[local] Open Scope Z_scope.

(** The outcome of a reduction of a stored attempt. *)
Lemma reduce_outcome i a0 res :
  in_attempt i = Some a0 -> ledger_ok a0 (in_holds i) -> reduce i = Some res ->
  Outcome i a0 (in_holds i) res.
Proof.
  intros Ha Hok Hr. destruct (reduce_existing i a0 Ha Hok) as (res' & Hr' & HO). congruence.
Qed.

(** ** Totality and the invariant *)

(** C1: on every stored attempt (or none) and every evidence, [reduce] returns a
    result: no non-null assertion and no downcast of the source fails. *)
Theorem reduce_total i : input_ok i -> exists res, reduce i = Some res.
Proof. intros Hok. destruct (reduce_stored i Hok) as (res & Hr & _). eauto. Qed.

Lemma reduce_total_witness :
  input_ok (input_of sample_stopping sample_exit)
  /\ exists res, reduce (input_of sample_stopping sample_exit) = Some res.
Proof.
  assert (H : input_ok (input_of sample_stopping sample_exit)) by exact sample_stopping_ok.
  split; [exact H|]. exact (reduce_total _ H).
Defined.

(** C2: [reduce] keeps the ledger's invariant: well-formed, uniquely named holds
    of the current generation, a terminal attempt without holds, an open mesh
    attempt with its hard ceiling, a stopping attempt with an unconfirmed stop,
    and at most [RECLAIM_BUDGET] reclaims. *)
Theorem reduce_keeps_invariant i res :
  input_ok i -> reduce i = Some res -> stored_ok (res_attempt res) (res_holds res).
Proof. intros Hok Hr. destruct (reduce_stored i Hok) as (res' & Hr' & H). congruence. Qed.

Lemma reduce_keeps_invariant_witness :
  exists res, reduce (input_of sample_generating sample_exit) = Some res
              /\ stored_ok (res_attempt res) (res_holds res).
Proof.
  assert (H : input_ok (input_of sample_generating sample_exit)) by exact sample_generating_ok.
  eexists. split; [vm_compute; reflexivity|].
  apply (reduce_keeps_invariant (input_of sample_generating sample_exit)); [exact H|].
  vm_compute. reflexivity.
Defined.

(** ** The contract *)

(** C3: [reduce] refines the abstract machine: each reduction is one of its steps,
    with exactly that step's verdict events. *)
Theorem reduce_refines_contract i res :
  input_ok i -> reduce i = Some res ->
  spec_step (phase (in_attempt i)) (verdicts (res_effects res)) (phase (res_attempt res)).
Proof. apply reduce_spec. Qed.

Lemma reduce_refines_contract_witness :
  spec_step (P_stopping 1 0) [Vd_reclaim 1 2] (P_open 2 1).
Proof.
  assert (H : input_ok (input_of sample_stopping (confirming sample_exit))) by exact sample_stopping_ok.
  destruct (reduce (input_of sample_stopping (confirming sample_exit))) as [res|] eqn:E;
    [|vm_compute in E; discriminate E].
  pose proof (reduce_refines_contract _ _ H E) as S. vm_compute in E. injection E as <-.
  vm_compute in S. exact S.
Defined.

(** C4: over any sequence of arrivals, starting from nothing, the reducer never
    fails, and the verdict events of the attempt are: reclaims of consecutive
    generations, at most [RECLAIM_BUDGET] of them, then at most one commit, of the
    last generation, and nothing after it. *)
Theorem run_lifecycle xs :
  exists st es, run nothing_stored xs = Some (st, es) /\ stored_ok st.1 st.2
    /\ history (phase st.1) (verdicts es).
Proof.
  destruct (run_stored nothing_stored xs eq_refl) as (st & es & Hr & Hok & Hs).
  exists st, es. split_and!; [done|done|]. by apply (history_run P_absent []).
Qed.

(** ** Terminal attempts *)

(** A terminal attempt is never changed again, whatever arrives: only the time
    of the coordinator's acknowledgement may be stamped; no holds appear and no
    verdict, reclaim or queue status is emitted. *)
Theorem terminal_absorbing i a0 t res :
  in_attempt i = Some a0 -> ledger_ok a0 (in_holds i) -> a_terminal a0 = Some t -> reduce i = Some res ->
  (exists n, res_attempt res = Some {| a0 with a_notifiedAt := n |})
  /\ res_holds res = [] /\ observed (res_effects res) = [].
Proof.
  intros Ha Hok Ht Hr. pose proof (lk_state _ _ Hok) as Hst. unfold state_ok in Hst. rewrite Ht in Hst.
  destruct (reduce_outcome _ _ _ Ha Hok Hr) as [a Hf -> -> -> _|? ? ? ?|? ? ?|? ? ?|? ? ? ? ?]; try congruence.
  split_and!; try done; [|by apply Hst]. destruct Hf as [->|[_ [n ->]]]; [|eauto].
  exists (a_notifiedAt a0). by destruct a0.
Qed.

Definition sample_ack : Arrival := arrives "e-ack" 9000 Src_dispatch 1 (coordinator_ack N_blocked Ack_delivered).

Lemma terminal_absorbing_witness :
  exists a0 t res, in_attempt (input_of sample_done sample_ack) = Some a0 /\ a_terminal a0 = Some t
    /\ reduce (input_of sample_done sample_ack) = Some res
    /\ ((exists n, res_attempt res = Some {| a0 with a_notifiedAt := n |})
        /\ res_holds res = [] /\ observed (res_effects res) = []).
Proof.
  do 3 eexists. split; [reflexivity|]. split; [reflexivity|]. split; [vm_compute; reflexivity|].
  eapply (terminal_absorbing (input_of sample_done sample_ack));
    [reflexivity|exact sample_done_ok|reflexivity|vm_compute; reflexivity].
Defined.

(** When a reduction makes an attempt terminal it does so completely: the state
    is the outcome's, no hold remains, the generation is the attempt's, and the
    observable effects are exactly the commit and, for a mesh task, one queue
    status and one task verdict of the same outcome (a superseded queue attempt
    leaves its task alone, or returns it to pending once its writer stopped). *)
Theorem commit_complete i a0 a t res :
  in_attempt i = Some a0 -> ledger_ok a0 (in_holds i) -> a_terminal a0 = None -> reduce i = Some res ->
  res_attempt res = Some a -> a_terminal a = Some t ->
  a_state a = state_of_outcome (t_outcome t) /\ res_holds res = [] /\ a_generation a = a_generation a0
  /\ observed (res_effects res) = commit_obs a (t_outcome t) (t_strength t) (t_reason t).
Proof.
  intros Ha Hok Ht Hr Hra Hta.
  destruct (reduce_outcome _ _ _ Ha Hok Hr) as [a' Hf Ha' _ _ _|ctx d _ _ HL [Y _ _]|ctx d _ _ HP [Y _ _]
    |d _ _ _ _ _ HA [Y _ _]|o s r d _ HC [Y1 Y2 Y3] _].
  - rewrite Hra in Ha'. injection Ha' as <-. destruct Hf as [->|[[? ?] _]]; congruence.
  - destruct (lv_attempt _ _ _ _ _ HL) as (a' & Hd & Hi & _). pose proof (id_terminal _ _ Hi). congruence.
  - destruct HP as (stop & hc' & HS & _). destruct (lv_attempt _ _ _ _ _ HS) as (a' & Hd & Hi & _).
    pose proof (id_terminal _ _ Hi). congruence.
  - destruct (ad_attempt _ _ _ HA) as (a' & Hd & _ & Htm & _). congruence.
  - destruct HC as [_ Hh _ (a' & t' & Hd & Htm & Ho & Hs & Hre & Hst & _ & _ & Hg & _ & _ & Hobs)].
    rewrite Y1, Hd in Hra. injection Hra as ->. rewrite Htm in Hta. injection Hta as ->.
    rewrite Y2, Y3, Hh, Hobs. by subst.
Qed.

Lemma commit_complete_witness :
  exists a0 a t res, in_attempt (input_of sample_open (sample_report 1500)) = Some a0
    /\ reduce (input_of sample_open (sample_report 1500)) = Some res /\ res_attempt res = Some a
    /\ a_terminal a = Some t
    /\ (a_state a = state_of_outcome (t_outcome t) /\ res_holds res = []
        /\ a_generation a = a_generation a0
        /\ observed (res_effects res) = commit_obs a (t_outcome t) (t_strength t) (t_reason t)).
Proof.
  do 4 eexists. split; [reflexivity|]. split; [vm_compute; reflexivity|]. do 2 (split; [reflexivity|]).
  eapply (commit_complete (input_of sample_open (sample_report 1500)));
    [reflexivity|exact sample_open_ok|reflexivity|vm_compute; reflexivity|reflexivity|reflexivity].
Defined.

(** ** Generations *)

(** C10: an attempt moves to another generation only when its writer's stop was
    confirmed, before the hard ceiling, for a queue task within its reclaim budget;
    the next generation starts over as accepted with no stop pending, its hard
    ceiling is the old one, and the queue row returns to pending. *)
Theorem reclaim_only_after_stop i a0 a res :
  in_attempt i = Some a0 -> ledger_ok a0 (in_holds i) -> reduce i = Some res ->
  res_attempt res = Some a -> a_generation a <> a_generation a0 ->
  is_Some (d_writerStop (a_data a0)) /\ in_stopConfirmed i = true /\ a_scope a0 = Sc_mesh_queue
  /\ in_nowMs i < a_acceptedAt a0 + hardCeilingMs (in_policy i)
  /\ a_reclaimCount a0 < RECLAIM_BUDGET
  /\ a_generation a = a_generation a0 + 1 /\ a_reclaimCount a = a_reclaimCount a0 + 1
  /\ a_state a = St_accepted /\ a_terminal a = None /\ d_writerStop (a_data a) = None
  /\ find_hold (ceiling_id a) (res_holds res) = find_hold (ceiling_id a0) (in_holds i)
  /\ observed (res_effects res) = reclaim_obs a0.
Proof.
  intros Ha Hok Hr Hra Hg.
  destruct (reduce_outcome _ _ _ Ha Hok Hr) as [a' Hf Ha' _ _ _|ctx d _ _ HL [Y _ _]|ctx d _ _ HP [Y _ _]
    |d Hs Ht Hi Hp Hhc HA [Y1 Y2 Y3]|o s r d _ HC [Y1 Y2 Y3] _].
  - rewrite Hra in Ha'. injection Ha' as <-. by destruct Hf as [->|[_ [? ->]]].
  - destruct (lv_attempt _ _ _ _ _ HL) as (a' & Hd & Hi & _). pose proof (id_generation _ _ Hi). congruence.
  - destruct HP as (stop & hc' & HS & _). destruct (lv_attempt _ _ _ _ _ HS) as (a' & Hd & Hi & _).
    pose proof (id_generation _ _ Hi). congruence.
  - destruct HA as [_ Hh Hc _ Hb Hq (a' & Hd & Hst & Htm & Hid & _ & Hge & Hre & _ & Hw & Hobs)].
    rewrite Y1, Hd in Hra. injection Hra as <-. destruct (holds_ok_list _ _ Hh) as (_ & _ & K3).
    unfold past_ceiling in Hp. breflect. rewrite Y2, Y3. unfold ceiling_id in *. rewrite Hid, K3.
    split_and!; try done. congruence.
  - destruct (cm_attempt _ _ _ _ _ HC) as (a' & ? & Hd & _ & _ & _ & _ & _ & _ & _ & Hge & _). congruence.
Qed.

Lemma reclaim_only_after_stop_witness :
  exists a0 a res, in_attempt (input_of sample_stopping (confirming sample_exit)) = Some a0
    /\ reduce (input_of sample_stopping (confirming sample_exit)) = Some res /\ res_attempt res = Some a
    /\ a_generation a <> a_generation a0
    /\ observed (res_effects res) = [Ob_reclaim 1 2; Ob_queue Q_pending].
Proof.
  do 3 eexists. split; [reflexivity|]. split; [vm_compute; reflexivity|]. split; [reflexivity|].
  split; [discriminate|].
  edestruct (reclaim_only_after_stop (input_of sample_stopping (confirming sample_exit)))
    as (_ & _ & _ & _ & _ & _ & _ & _ & _ & _ & _ & H);
    [reflexivity|exact sample_stopping_ok|vm_compute; reflexivity|reflexivity|discriminate|exact H].
Defined.

(** The hard-ceiling hold of a mesh attempt is never dropped, moved or re-armed
    while the attempt is open, across generations included. *)
Theorem hard_ceiling_never_extended i a0 a res :
  in_attempt i = Some a0 -> ledger_ok a0 (in_holds i) -> reduce i = Some res ->
  res_attempt res = Some a -> a_terminal a = None -> d_writerStop (a_data a) = None ->
  isMeshScope a = true ->
  is_Some (find_hold (ceiling_id a) (res_holds res))
  /\ find_hold (ceiling_id a) (res_holds res) = find_hold (ceiling_id a0) (in_holds i).
Proof.
  intros Ha Hok Hr Hra Ht Hw Hm. pose proof (reduce_outcome _ _ _ Ha Hok Hr) as HO.
  assert (Hin : is_Some (find_hold (ceiling_id a) (res_holds res))).
  { pose proof (outcome_stored _ _ _ _ Hok HO) as H. rewrite Hra in H. apply lk_state in H.
    unfold state_ok in H. rewrite Ht, Hw in H. by apply H. }
  split; [done|]. clear Hin.
  destruct HO as [a' Hf Ha' -> _ _|ctx d _ _ HL [Y1 Y2 _]|ctx d _ _ HP [Y _ _]
    |d _ _ _ _ _ HA [Y1 Y2 _]|o s r d _ HC [Y1 Y2 Y3] _].
  - rewrite Hra in Ha'. injection Ha' as <-. by destruct Hf as [->|[_ [? ->]]].
  - destruct (lv_attempt _ _ _ _ _ HL) as (a' & Hd & Hi & _). rewrite Y1, Hd in Hra. injection Hra as ->.
    rewrite Y2. by apply (live_ceiling _ _ _ _ _ _ HL).
  - destruct HP as (stop & hc' & HS & _). destruct (lv_attempt _ _ _ _ _ HS) as (a' & Hd & Hi & _ & Hw').
    congruence.
  - destruct HA as [_ Hh Hc _ _ _ (a' & Hd & _ & _ & Hid & _)]. rewrite Y1, Hd in Hra. injection Hra as ->.
    destruct (holds_ok_list _ _ Hh) as (_ & _ & K3). unfold ceiling_id in *. by rewrite Y2, Hid, K3.
  - destruct (cm_attempt _ _ _ _ _ HC) as (a' & ? & Hd & ? & _). congruence.
Qed.

Lemma hard_ceiling_never_extended_witness :
  exists a0 a res, in_attempt (input_of sample_open sample_started) = Some a0
    /\ reduce (input_of sample_open sample_started) = Some res /\ res_attempt res = Some a
    /\ (is_Some (find_hold (ceiling_id a) (res_holds res))
        /\ find_hold (ceiling_id a) (res_holds res) = find_hold (ceiling_id a0) sample_open.2).
Proof.
  do 3 eexists. split; [reflexivity|]. split; [vm_compute; reflexivity|]. split; [reflexivity|].
  eapply (hard_ceiling_never_extended (input_of sample_open sample_started));
    [reflexivity|exact sample_open_ok|vm_compute; reflexivity|reflexivity|reflexivity|reflexivity|reflexivity].
Defined.

(** ** Stopping the writer *)

(** A stopping attempt stays stopping, with the same generation and nothing
    announced, until its stop is confirmed or its writer is proved unreachable. *)
Theorem stopping_waits i a0 stop res :
  in_attempt i = Some a0 -> ledger_ok a0 (in_holds i) -> a_terminal a0 = None ->
  d_writerStop (a_data a0) = Some stop -> in_stopConfirmed i = false -> in_writerUnreachable i = None ->
  reduce i = Some res ->
  exists a stop', res_attempt res = Some a /\ d_writerStop (a_data a) = Some stop'
    /\ a_state a = St_stopping /\ a_terminal a = None /\ a_generation a = a_generation a0
    /\ observed (res_effects res) = [].
Proof.
  intros Ha Hok Ht Hs Hc Hu Hr.
  destruct (reduce_outcome _ _ _ Ha Hok Hr) as [a' Hf Ha' _ Ho _|ctx d [_ Hn] _ HL _|ctx d _ _ HP [Y1 _ Y3]
    |d _ _ Hi _ _ HA _|o s r d _ HC _ Hx]; try congruence.
  - destruct Hf as [->|[[? ?] _]]; [|congruence]. exists a0, stop. split_and!; try done.
    by apply (stopping_state Hok Ht Hs).
  - destruct HP as (stop' & hc' & HS & _).
    destruct (lv_attempt _ _ _ _ _ HS) as (a & Hd & Hi & Hst & Hw). exists a, stop'.
    rewrite Y1, Y3, (lv_obs _ _ _ _ _ HS). pose proof (id_terminal _ _ Hi). pose proof (id_generation _ _ Hi).
    split_and!; congruence.
  - rewrite Hs, Hc, Hu in Hx. by destruct Hx as [?|[? ?]].
Qed.

Lemma stopping_waits_witness :
  exists a stop' res, reduce (input_of sample_stopping (sample_report 5000)) = Some res
    /\ res_attempt res = Some a /\ d_writerStop (a_data a) = Some stop' /\ a_state a = St_stopping.
Proof.
  destruct (stopping_waits (input_of sample_stopping (sample_report 5000)) _ _ _ eq_refl sample_stopping_ok
    eq_refl eq_refl eq_refl eq_refl ltac:(vm_compute; reflexivity)) as (a & stop' & H1 & H2 & H3 & _).
  exists a, stop'. eexists. split; [vm_compute; reflexivity|]. by split_and!.
Defined.

(** A confirmed stop settles the attempt at once: it becomes terminal or moves
    to the next generation, never stays stopping; past the hard ceiling it becomes
    terminal. *)
Theorem confirmed_stop_settles i a0 stop eff :
  in_attempt i = Some a0 -> ledger_ok a0 (in_holds i) -> a_terminal a0 = None ->
  d_writerStop (a_data a0) = Some stop ->
  classifyLane (in_attempt i) (in_evidence i) (in_holds i) = Lane Lane_current eff ->
  in_stopConfirmed i = true ->
  exists a res, reduce i = Some res /\ res_attempt res = Some a
    /\ (is_Some (a_terminal a)
        \/ (a_generation a = a_generation a0 + 1 /\ d_writerStop (a_data a) = None
            /\ in_nowMs i < a_acceptedAt a0 + hardCeilingMs (in_policy i))).
Proof.
  intros Ha Hok Ht Hs Hl Hc. destruct (stopping_state Hok Ht Hs) as (Hst & _).
  destruct (run_stopping Ha Hok Ht Hs) as (d & res & Hr & [Y1 _ _] & HS).
  assert (Hred : reduce i = Some res).
  { unfold reduce. rewrite Hl, bool_decide_true, bool_decide_true by (rewrite ?Ha; cbn; congruence).
    exact Hr. }
  destruct HS as [(_ & ? & _)|[(_ & Hp & _ & HA)|[_ (o & s & r & HC)]]]; [congruence|..].
  - destruct (ad_attempt _ _ _ HA) as (a & Hd & _ & _ & _ & _ & Hg & _ & _ & Hw & _). exists a, res.
    unfold past_ceiling in Hp. breflect. split_and!; [done|congruence|]. right. by split_and!.
  - destruct (cm_attempt _ _ _ _ _ HC) as (a & t & Hd & Htm & _). exists a, res.
    split_and!; [done|congruence|]. left. by rewrite Htm.
Qed.

Lemma confirmed_stop_settles_witness :
  exists a res, reduce (input_of sample_stopping (confirming (sample_cancel 5000))) = Some res
    /\ res_attempt res = Some a
    /\ (is_Some (a_terminal a) \/ (a_generation a = 2 /\ d_writerStop (a_data a) = None /\ 5000 < 5401000)).
Proof.
  apply (confirmed_stop_settles (input_of sample_stopping (confirming (sample_cancel 5000))) _ _ (Some 1)
    eq_refl sample_stopping_ok eq_refl eq_refl); vm_compute; reflexivity.
Defined.

(** C12: the verdict of a cancel, an operator's settlement, a session error, a
    process exit or the hard ceiling is not committed on an open mesh attempt: its
    writer is stopped first. The one exception is the scheduler's settlement of an
    idle queue attempt that owes its report. *)
Theorem writer_stopped_before_verdict i a0 a t res :
  in_attempt i = Some a0 -> ledger_ok a0 (in_holds i) -> a_terminal a0 = None ->
  d_writerStop (a_data a0) = None -> isMeshScope a0 = true -> reduce i = Some res ->
  res_attempt res = Some a -> a_terminal a = Some t -> settleIdleReportOwed (ctx_of i None) = false ->
  t_reason t <> R_hard_ceiling
  /\ ev_kind (in_evidence i) ∉ [K_cancel; K_operator_status; K_session_error; K_process_exit].
Proof.
  intros Ha Hok Ht Hw Hm Hr Hra Hta Hidle.
  destruct (reduce_outcome _ _ _ Ha Hok Hr) as [a' Hf Ha' _ _ _|ctx d _ _ HL [Y _ _]|ctx d _ _ HP [Y _ _]
    |d [? Hs] _ _ _ _ HA [Y _ _]|o s r d _ HC [Y1 Y2 Y3] Hn]; [..|]; try congruence.
  - rewrite Hra in Ha'. injection Ha' as <-. destruct Hf as [->|[[? ?] _]]; congruence.
  - destruct (lv_attempt _ _ _ _ _ HL) as (a' & Hd & Hi & _). pose proof (id_terminal _ _ Hi). congruence.
  - destruct HP as (stop & hc' & HS & _). destruct (lv_attempt _ _ _ _ _ HS) as (a' & Hd & Hi & _).
    pose proof (id_terminal _ _ Hi). congruence.
  - rewrite Hw in Hn. destruct (cm_attempt _ _ _ _ _ HC) as (a' & t' & Hd & Htm & _ & _ & Hre & _).
    rewrite Y1, Hd in Hra. injection Hra as ->. rewrite Htm in Hta. injection Hta as ->. rewrite Hre.
    unfold commit_needs_stop, stop_confirmed in Hn. rewrite Hw, Hm, Hidle in Hn. cbn [negb andb] in Hn.
    by breflect.
Qed.

Lemma writer_stopped_before_verdict_witness :
  exists a t res, reduce (input_of sample_open (sample_report 1500)) = Some res /\ res_attempt res = Some a
    /\ a_terminal a = Some t
    /\ (t_reason t <> R_hard_ceiling
        /\ K_worker_report ∉ [K_cancel; K_operator_status; K_session_error; K_process_exit]).
Proof.
  do 3 eexists. split; [vm_compute; reflexivity|]. do 2 (split; [reflexivity|]).
  eapply (writer_stopped_before_verdict (input_of sample_open (sample_report 1500)));
    [reflexivity|exact sample_open_ok|reflexivity|reflexivity|reflexivity|vm_compute; reflexivity
    |reflexivity|reflexivity|reflexivity].
Defined.

(** ** Recorded evidence and plain attempts *)

(** Evidence that is rejected or only recorded leaves the attempt and its holds
    exactly as they were, and announces nothing. *)
Theorem recorded_changes_nothing i res :
  input_ok i -> reduce i = Some res -> res_verdict res <> V_applied ->
  res_attempt res = in_attempt i /\ res_holds res = in_holds i /\ observed (res_effects res) = [].
Proof. apply not_applied_unchanged. Qed.

Lemma recorded_changes_nothing_witness :
  exists res, reduce (input_of sample_done (sample_cancel 9000)) = Some res
    /\ (res_attempt res = sample_done.1 /\ res_holds res = sample_done.2
        /\ observed (res_effects res) = []).
Proof.
  eexists. split; [vm_compute; reflexivity|].
  eapply (recorded_changes_nothing (input_of sample_done (sample_cancel 9000)));
    [exact sample_done_ok|vm_compute; reflexivity|discriminate].
Defined.

(** An attempt outside a mesh never notifies a coordinator, never waits for a
    writer stop and never changes its generation. *)
Theorem plain_stays_local i a0 res :
  in_attempt i = Some a0 -> ledger_ok a0 (in_holds i) -> isMeshScope a0 = false -> reduce i = Some res ->
  Forall (fun e => local_effect e = true) (res_effects res)
  /\ exists a, res_attempt res = Some a /\ a_generation a = a_generation a0
       /\ (a_terminal a = None -> d_writerStop (a_data a) = None).
Proof.
  intros Ha Hok Hm Hr.
  destruct (reduce_outcome _ _ _ Ha Hok Hr) as [a' Hf Ha' _ _ Hs|ctx d _ _ HL [Y1 _ Y3]|ctx d _ Hm' HP _
    |d _ _ _ _ _ HA _|o s r d _ HC [Y1 _ Y3] _]; try congruence.
  - split; [by apply Hs|]. exists a'. split_and!; [done|by destruct Hf as [->|[_ [? ->]]]|].
    destruct Hf as [->|[[? Ht] [? ->]]]; [|cbn; congruence]. intros Ht.
    pose proof (lk_state _ _ Hok) as H. unfold state_ok in H. rewrite Ht in H.
    destruct (d_writerStop (a_data a0)); [|done]. destruct H as (_ & ? & _). congruence.
  - rewrite Y3. split; [by apply (lv_scoped _ _ _ _ _ HL)|].
    destruct (lv_attempt _ _ _ _ _ HL) as (a & Hd & Hi & _ & Hw). exists a. rewrite Y1.
    pose proof (id_generation _ _ Hi). by split_and!.
  - exfalso. unfold isMeshScope in Hm. breflect. pose proof (ad_queue _ _ _ HA). apply Hm. congruence.
  - rewrite Y3. split; [by apply (cm_scoped _ _ _ _ _ HC)|].
    destruct (cm_attempt _ _ _ _ _ HC) as (a & t & Hd & Htm & _ & _ & _ & _ & _ & _ & Hg & _). exists a.
    rewrite Y1. split_and!; [done|done|]. congruence.
Qed.

Lemma plain_stays_local_witness :
  exists a0 res, in_attempt (input_of sample_plain (unbound 3000 (process_exit (Some 0) None))) = Some a0
    /\ reduce (input_of sample_plain (unbound 3000 (process_exit (Some 0) None))) = Some res
    /\ (Forall (fun e => local_effect e = true) (res_effects res)
        /\ exists a, res_attempt res = Some a /\ a_generation a = a_generation a0
             /\ (a_terminal a = None -> d_writerStop (a_data a) = None)).
Proof.
  do 2 eexists. split; [reflexivity|]. split; [vm_compute; reflexivity|].
  eapply (plain_stays_local (input_of sample_plain (unbound 3000 (process_exit (Some 0) None))));
    [reflexivity|exact sample_plain_ok|reflexivity|vm_compute; reflexivity].
Defined.
