(* ===== verification/LedgerRules.v ===== *)
(** * At most one rule

    The comment above [matchingRules] requires that no two rules match one
    evidence. That is proved here for every attempt that has not finalized after
    reporting, except for one overlap, which is exhibited. *)

From S2P Require Import Prelude TurnEvidence Vocabulary TurnPolicy TurnTypes Admission Transitions Guards Reducer LedgerInv LedgerSteps LedgerSettle LedgerTable LedgerReduce LedgerContract LedgerExpiry.

#[local] Open Scope string_scope.
#[local] Open Scope Z_scope.

(** ** Exclusive guards *)

(** Does a rule's guard hold by itself? *)
Definition guard_holds (ctx : GuardCtx) (g : option GuardId) : bool :=
  match g with Some G_otherwise => false | Some g => GUARDS g ctx | None => true end.

Definition apart (ctx : GuardCtx) (g g' : option GuardId) : Prop :=
  guard_holds ctx g = true -> guard_holds ctx g' = true -> False.

Definition exclusive (ctx : GuardCtx) (gs : list (option GuardId)) : Prop := ForallOrdPairs (apart ctx) gs.

Lemma filter_at_most_one {A} (f : A -> bool) l :
  ForallOrdPairs (fun x y => f x = true -> f y = true -> False) l -> (length (List.filter f l) <= 1)%nat.
Proof.
  induction 1 as [|x l Hx _ IH]; cbn; [lia|]. destruct (f x) eqn:E; [|done]. cbn.
  replace (List.filter f l) with (@nil A); [cbn; lia|]. symmetry.
  induction l as [|y l IHl]; [done|]. inversion Hx; subst. cbn.
  destruct (f y) eqn:Ey; [by exfalso; auto|]. apply IHl; [done|]. cbn in IH. by rewrite Ey in IH.
Qed.

Lemma ForallOrdPairs_map {A B} (f : A -> B) (R : B -> B -> Prop) l :
  ForallOrdPairs R (map f l) -> ForallOrdPairs (fun x y => R (f x) (f y)) l.
Proof.
  induction l as [|x l IH]; cbn; intros H; [constructor|]. inversion H; subst. constructor; [|by apply IH].
  by apply Forall_map.
Qed.

Definition otherwise_count (gs : list (option GuardId)) : nat :=
  length (List.filter (fun g => bool_decide (g = Some G_otherwise)) gs).

Lemma filter_map_length {A B} (f : A -> B) (P : B -> bool) l :
  length (List.filter (fun x => P (f x)) l) = length (List.filter P (map f l)).
Proof. induction l as [|x l IH]; cbn; [done|]. destruct (P (f x)); cbn; by rewrite IH. Qed.

(** Exclusive guards and one [otherwise] select at most one rule. *)
Lemma select_at_most_one ctx rs :
  exclusive ctx (map r_guard rs) -> (otherwise_count (map r_guard rs) <= 1)%nat ->
  (length (select_rules ctx rs) <= 1)%nat.
Proof.
  intros He Ho. unfold select_rules.
  assert (Hf : (length (List.filter (rule_specific ctx) rs) <= 1)%nat).
  { apply filter_at_most_one. exact (ForallOrdPairs_map r_guard (apart ctx) rs He). }
  destruct (List.filter (rule_specific ctx) rs); [|done].
  etrans; [|exact Ho]. unfold otherwise_count. by rewrite <- filter_map_length.
Qed.

(** ** The cells of the table *)

(** Turn one guard's truth into facts. *)
Ltac guard_facts :=
  repeat match goal with
  | H : (_ && _)%bool = true |- _ => apply andb_true_iff in H as [? ?]
  | H : negb _ = true |- _ => apply negb_true_iff in H
  | H : bool_decide _ = true |- _ => apply bool_decide_eq_true in H
  end.

Lemma holdIs_disjoint ctx l l' :
  holdIs ctx l = true -> holdIs ctx l' = true ->
  existsb (fun r => bool_decide (r ∈ l')) l = true.
Proof.
  unfold holdIs. destruct (expiredHold ctx) as [h|]; [|done]. intros H1 H2. breflect.
  apply existsb_exists. exists (h_reason h). split; [by apply list_elem_of_In|by apply bool_decide_eq_true].
Qed.

Ltac hold_clash :=
  match goal with
  | H : holdIs ?ctx ?l = true, H' : holdIs ?ctx ?l' = true |- _ =>
      discriminate (holdIs_disjoint ctx l l' H H')
  end.

Lemma queueReportMissing_hold ctx :
  queueReportMissing ctx = true -> holdIs ctx [H_await_report] = true /\ scope_is ctx Sc_mesh_queue = true.
Proof. unfold queueReportMissing. intros H. by breflect. Qed.

Lemma freshAlive_probe ctx : freshAlive ctx = true -> freshEndProbe ctx = true.
Proof. unfold freshAlive. intros H. by breflect. Qed.

Ltac more_facts :=
  repeat match goal with
  | H : queueReportMissing _ = true |- _ =>
      let H' := fresh in pose proof (queueReportMissing_hold _ H) as [H' ?]; revert H
  | H : freshAlive _ = true |- _ => let H' := fresh in pose proof (freshAlive_probe _ H) as H'; revert H
  end; intros.

Ltac attempt_clash :=
  unfold scope_is, attempt_is in *;
  repeat match goal with H : context [c_attempt ?ctx] |- _ => destruct (c_attempt ctx) end;
  try discriminate; breflect; first [congruence | lia].

Ltac all_pairs tac :=
  repeat first [apply FOP_nil | apply FOP_cons; [repeat (apply Forall_cons; split); try solve [constructor]; tac|]].

(** A kind that is none of a listed few. *)
Ltac tauto_kind := solve [exfalso; repeat match goal with H : _ \/ _ |- _ => destruct H end; done].

Section Cells.
Context (ctx : GuardCtx).

Lemma expiry_exclusive : exclusive ctx (map Some expiry_guards).
Proof.
  unfold exclusive, expiry_guards. cbn [map].
  all_pairs ltac:(unfold apart; cbn [guard_holds GUARDS];
    unfold endTimer; intros H1 H2; guard_facts; more_facts;
    first [hold_clash | congruence | attempt_clash]).
Qed.

Lemma unbound_exclusive : exclusive ctx [Some G_unbound; Some G_bound].
Proof.
  all_pairs ltac:(unfold apart; cbn [guard_holds GUARDS]; destruct (e_attemptRef _), (truthy_str _); done).
Qed.

Lemma exit_exclusive :
  exclusive ctx [Some G_exit_after_report; Some G_no_provider_failure; Some G_provider_failure].
Proof.
  all_pairs ltac:(unfold apart; cbn [guard_holds GUARDS]; intros H1 H2; guard_facts;
    try congruence; unfold exitAfterReport, process_exit_is in *;
    destruct (ev_body (c_evidence ctx)); try done; guard_facts; congruence).
Qed.

Lemma resolved_exclusive : exclusive ctx [Some G_stale_modal_resolution; Some G_held_provider_setup].
Proof.
  all_pairs ltac:(unfold apart; cbn [guard_holds GUARDS]; unfold stale_modal_resolution, held_provider_setup, attempt_is;
    destruct (ev_body (c_evidence ctx)); try done; destruct (c_attempt ctx); rewrite ?andb_false_r; try done;
    destruct (truthy_str modalKey); try done; cbn; case_bool_decide; rewrite ?andb_false_r; try done).
Qed.

Lemma progress_exclusive : exclusive ctx [Some G_finished_after_report; Some G_final_present].
Proof.
  all_pairs ltac:(unfold apart; cbn [guard_holds GUARDS]; unfold finishedAfterReport;
    intros H1 H2; destruct (ev_body (c_evidence ctx)); guard_facts; congruence).
Qed.

Lemma liveness_exclusive :
  exclusive ctx [Some G_liveness_fatal; Some G_liveness_failed_nonfatal; Some G_activity_keeps_state;
                 Some G_liveness_unknown] \/ ev_kind (c_evidence ctx) <> K_liveness.
Proof.
  unfold ev_kind. destruct (ev_body (c_evidence ctx)) eqn:E; try (by right). left.
  all_pairs ltac:(unfold apart; cbn [guard_holds GUARDS];
    unfold liveness_is, activity_keeps_state, streak_at_limit; rewrite E; destruct result;
    repeat case_bool_decide; try done; cbn [andb orb]; intros; attempt_clash).
Qed.

Lemma resumed_exclusive :
  attempt_is ctx (fun a => bool_decide (a_state a = St_finalizing)) = true ->
  ev_kind (c_evidence ctx) ∈ [K_turn_started; K_transcript_activity] ->
  exclusive ctx [Some G_after_weak_since; Some G_false_idle_resumed; Some G_activity_keeps_state].
Proof.
  intros Hs Hk.
  assert (Ha : activity_keeps_state ctx = true -> afterWeakSince ctx = false).
  { unfold activity_keeps_state. unfold attempt_is in *. destruct (c_attempt ctx) as [a|]; [|done].
    breflect. rewrite Hs. unfold ev_kind in Hk. apply list_elem_of_In in Hk.
    destruct (ev_body (c_evidence ctx)); cbn in Hk |- *; try tauto_kind;
      destruct (afterWeakSince ctx); vm_compute; done. }
  all_pairs ltac:(unfold apart; cbn [guard_holds GUARDS]; intros H1 H2; guard_facts;
    try specialize (Ha H2); congruence).
Qed.

Lemma started_exclusive s :
  attempt_is ctx (fun a => bool_decide (a_state a = s)) = true ->
  (s = St_suspended /\ ev_kind (c_evidence ctx) ∈ [K_turn_started; K_transcript_activity]
   \/ s = St_consumed /\ ev_kind (c_evidence ctx) = K_turn_started) ->
  exclusive ctx [None; Some G_activity_keeps_state].
Proof.
  intros Hs Hk. all_pairs ltac:(unfold apart; cbn [guard_holds GUARDS]; intros _).
  unfold activity_keeps_state, attempt_is in *. destruct (c_attempt ctx) as [a|]; [|done].
  breflect. rewrite Hs. unfold ev_kind in Hk. rewrite list_elem_of_In in Hk.
  destruct (ev_body (c_evidence ctx)), Hk as [[-> Hk]|[-> Hk]]; cbn in *; try done; tauto_kind.
Qed.
End Cells.

(** ** Turn ends *)

Definition failed_end (e : TurnEnd) : bool := present (te_providerFailure e) || nativeFailed e.

Section Ends.
Context (ctx : GuardCtx).

Lemma ownerProbed_strong : ownerProbedQueueNativeCompletion ctx = true -> adm_strong ctx = true.
Proof. unfold ownerProbedQueueNativeCompletion. destruct (ev_body _); try done. intros H. by breflect. Qed.

(** The four admissions are exclusive. *)
Lemma admissions_exclusive :
  (adm_strong ctx = true -> adm_weak ctx = false /\ adm_hold ctx = false /\ adm_decline ctx = false)
  /\ (adm_weak ctx = true -> adm_hold ctx = false /\ adm_decline ctx = false)
  /\ (adm_hold ctx = true -> adm_decline ctx = false).
Proof. unfold adm_strong, adm_weak, adm_hold, adm_decline. by destruct (admissionOf ctx) as [[]|]. Qed.

Lemma finished_facts :
  finishedAfterReport ctx = true ->
  reportedThisGeneration ctx = true
  /\ (ev_kind (c_evidence ctx) ∈ [K_turn_end; K_transcript_final] -> adm_hold ctx = false).
Proof.
  unfold finishedAfterReport. intros H. breflect. split; [done|]. intros Hk%list_elem_of_In.
  destruct admissions_exclusive as (A1 & A2 & A3). destruct (adm_hold ctx); [|done].
  specialize (A3 eq_refl). unfold ev_kind in Hk.
  destruct (ev_body (c_evidence ctx)); cbn in Hk; try tauto_kind;
    destruct (adm_strong ctx), (adm_weak ctx); naive_solver.
Qed.

Context (e : TurnEnd).
Hypothesis Hb : ev_body (c_evidence ctx) = turn_end e.

Lemma end_is_facts P :
  end_is ctx P = true -> P e = true /\ failed_end e = false.
Proof.
  unfold end_is, completionEnd, turnEnd, failed_end. rewrite Hb.
  destruct (present (te_providerFailure e)), (nativeFailed e); done.
Qed.

Lemma genuine_weak : genuine e = true -> weak e = false.
Proof. unfold genuine, weak. by destruct (te_strength e). Qed.

Lemma reportAwaited_facts :
  reportAwaitedEnd ctx = true ->
  genuine e = true /\ hollow e = false /\ failed_end e = false.
Proof. unfold reportAwaitedEnd. intros [H ?]%end_is_facts. by breflect. Qed.

Lemma final_of_end : finalWeak ctx = false /\ ownerProbedQueueNativeCompletion ctx = false /\ final_strong ctx = false.
Proof.
  unfold finalWeak, ownerProbedQueueNativeCompletion, final_strong, is_transcript_final, ev_kind.
  by rewrite Hb.
Qed.

Lemma end_guard_facts g :
  GUARDS g ctx = true ->
  match g with
  | G_end_genuine | G_genuine_end_or_strong_final =>
      genuine e = true /\ hollow e = false /\ adm_hold ctx = false /\ reportAwaitedEnd ctx = false
      /\ reportedThisGeneration ctx = false /\ failed_end e = false
  | G_end_provider_failure =>
      failed_end e = true /\ adm_hold ctx = false
      /\ reportedThisGeneration ctx = false
  | G_end_weak | G_weak_end_or_final =>
      weak e = true /\ hollow e = false /\ adm_hold ctx = false
      /\ opt_true (te_afterFinalizationTimeout e) = false
      /\ reportedThisGeneration ctx = false /\ failed_end e = false
  | G_end_weak_after_timeout =>
      weak e = true /\ hollow e = false /\ adm_hold ctx = false
      /\ opt_true (te_afterFinalizationTimeout e) = true
      /\ reportedThisGeneration ctx = false /\ failed_end e = false
  | G_admission_hold => adm_hold ctx = true
  | G_hollow_retry =>
      hollow e = true /\ adm_hold ctx = false /\ reportedThisGeneration ctx = false
      /\ failed_end e = false
      /\ attempt_is ctx (fun a => a_hollowCount a <? a_maxTaskRetries a) = true
  | G_hollow_exhausted =>
      hollow e = true /\ adm_hold ctx = false /\ reportedThisGeneration ctx = false
      /\ failed_end e = false
      /\ attempt_is ctx (fun a => a_maxTaskRetries a <=? a_hollowCount a) = true
  | G_end_report_awaited | G_end_report_awaited_held =>
      reportAwaitedEnd ctx = true /\ genuine e = true /\ hollow e = false /\ adm_hold ctx = false
      /\ reportedThisGeneration ctx = false /\ failed_end e = false
      /\ awaitReportHeld ctx = bool_decide (g = G_end_report_awaited_held)
  | G_finished_after_report => reportedThisGeneration ctx = true /\ adm_hold ctx = false
  | _ => True
  end.
Proof.
  destruct final_of_end as (Hw & Hp & Hs).
  destruct g; try done; cbn [GUARDS]; unfold end_genuine, end_weak, notHeld in *; rewrite ?Hw, ?Hp, ?Hs;
    rewrite ?orb_false_r; cbn [andb]; rewrite ?orb_false_r;
    try (intros [H ?]%end_is_facts; breflect; by split_and!).
  - unfold turnEnd. rewrite Hb. fold (failed_end e). intros H. by breflect.
  - intros H. breflect.
    match goal with H : reportAwaitedEnd _ = true |- _ => destruct (reportAwaited_facts H) as (? & ? & ?) end.
    rewrite bool_decide_false by done. by split_and!.
  - intros H. breflect.
    match goal with H : reportAwaitedEnd _ = true |- _ => destruct (reportAwaited_facts H) as (? & ? & ?) end.
    rewrite bool_decide_true by done. by split_and!.
  - intros [H1 H2]%finished_facts. split; [done|]. apply H2. unfold ev_kind. rewrite Hb. set_solver.
Qed.

Ltac end_clash :=
  unfold apart; cbn [guard_holds]; intros H1%end_guard_facts H2%end_guard_facts; cbn beta iota in H1, H2;
  destruct_and?; pose proof genuine_weak; repeat case_bool_decide; simplify_eq;
  first [congruence | naive_solver congruence | attempt_clash].

Lemma end_exclusive :
  exclusive ctx [Some G_end_genuine; Some G_end_provider_failure; Some G_end_weak;
    Some G_end_weak_after_timeout; Some G_admission_hold; Some G_hollow_retry; Some G_end_report_awaited;
    Some G_hollow_exhausted; Some G_finished_after_report].
Proof. all_pairs end_clash. Qed.

Lemma finalizing_end_exclusive :
  exclusive ctx [Some G_end_provider_failure; Some G_weak_end_or_final; Some G_genuine_end_or_strong_final;
    Some G_end_weak_after_timeout; Some G_admission_hold; Some G_hollow_retry; Some G_end_report_awaited;
    Some G_end_report_awaited_held; Some G_hollow_exhausted; Some G_finished_after_report].
Proof. all_pairs end_clash. Qed.
End Ends.

Section Finals.
Context (ctx : GuardCtx) (b : TranscriptFinal).
Hypothesis Hb : ev_body (c_evidence ctx) = transcript_final b.

Lemma end_of_final P : end_is ctx P = false.
Proof. unfold end_is, completionEnd, turnEnd. by rewrite Hb. Qed.

Lemma final_kind : is_transcript_final ctx = true.
Proof. unfold is_transcript_final, ev_kind. by rewrite Hb. Qed.

Lemma final_guard_facts g :
  GUARDS g ctx = true ->
  match g with
  | G_final_strong =>
      adm_strong ctx = true /\ ownerProbedQueueNativeCompletion ctx = false
      /\ reportedThisGeneration ctx = false
  | G_genuine_end_or_strong_final =>
      adm_strong ctx = true /\ ownerProbedQueueNativeCompletion ctx = false
      /\ reportedThisGeneration ctx = false /\ awaitReportHeld ctx = false
  | G_final_weak => adm_weak ctx = true /\ reportedThisGeneration ctx = false /\ ownerScrapedMeshFinal ctx = false
  | G_final_weak_probe =>
      reportedThisGeneration ctx = false
      /\ (adm_weak ctx = true /\ ownerScrapedMeshFinal ctx = true
          \/ adm_strong ctx = true /\ ownerProbedQueueNativeCompletion ctx = true)
  | G_weak_end_or_final =>
      adm_weak ctx = true /\ reportedThisGeneration ctx = false
      \/ adm_strong ctx = true /\ ownerProbedQueueNativeCompletion ctx = true /\ awaitReportHeld ctx = false
  | G_admission_hold => adm_hold ctx = true
  | G_admission_decline => adm_decline ctx = true /\ reportedThisGeneration ctx = false
  | G_final_strong_report_awaited =>
      adm_strong ctx = true /\ awaitReportHeld ctx = true /\ reportedThisGeneration ctx = false
  | G_finished_after_report => reportedThisGeneration ctx = true /\ adm_hold ctx = false
  | _ => True
  end.
Proof.
  pose proof final_kind as Hk. pose proof (ownerProbed_strong ctx) as Hop.
  destruct g; try done; cbn [GUARDS];
    unfold end_genuine, end_weak, final_strong, finalWeak in *; rewrite ?end_of_final, ?Hk; cbn [andb orb];
    try (intros H; by breflect).
  - intros [Hr [Hw|Hp]%orb_true_iff]%andb_true_iff; breflect; split; auto.
  - intros [Hw|Hp]%orb_true_iff; breflect; auto.
  - intros [H1 H2]%finished_facts. split; [done|]. apply H2. unfold ev_kind. rewrite Hb. set_solver.
Qed.

Ltac final_clash :=
  unfold apart; cbn [guard_holds]; intros H1%final_guard_facts H2%final_guard_facts;
  cbn beta iota in H1, H2; destruct (admissions_exclusive ctx) as (A1 & A2 & A3); naive_solver congruence.

Lemma final_exclusive :
  exclusive ctx [Some G_final_strong; Some G_final_weak; Some G_final_weak_probe; Some G_admission_hold;
    Some G_admission_decline; Some G_finished_after_report].
Proof. all_pairs final_clash. Qed.

Lemma finalizing_final_exclusive :
  reportedThisGeneration ctx = false ->
  exclusive ctx [Some G_weak_end_or_final; Some G_genuine_end_or_strong_final; Some G_admission_hold;
    Some G_admission_decline; Some G_final_strong_report_awaited; Some G_finished_after_report].
Proof. intros Hrep. all_pairs final_clash. Qed.
End Finals.

(** ** Every cell *)

(** The guards that compete for one evidence. *)
Definition cell_guards (lane : RuleLane) (s : option TurnState) (k : TurnEvidenceKind) : list (option GuardId) :=
  List.filter (fun g => negb (bool_decide (g = Some G_otherwise))) (map r_guard (laneCandidates lane s k)).

Lemma exclusive_specific ctx gs :
  exclusive ctx (List.filter (fun g => negb (bool_decide (g = Some G_otherwise))) gs) -> exclusive ctx gs.
Proof.
  unfold exclusive. induction gs as [|g gs IH]; cbn; [done|]. case_bool_decide as Hg; cbn; intros H.
  - subst g. constructor; [|by apply IH]. apply Forall_forall. by intros g' _ H1.
  - inversion H as [|? ? H1 H2]; subst. constructor; [|by apply IH].
    apply Forall_forall. intros g' Hin. destruct (decide (g' = Some G_otherwise)) as [->|Hne]; [by intros _|].
    rewrite Forall_forall in H1. apply H1, list_elem_of_In, filter_In. split; [by apply list_elem_of_In|].
    by rewrite bool_decide_false.
Qed.

Lemma short_exclusive ctx gs : (length gs <=? 1)%nat = true -> exclusive ctx gs.
Proof. destruct gs as [|g [|g' gs]]; cbn; intros H; [| |done]; by repeat constructor. Qed.

(** Exclusiveness does not depend on the order. *)
Lemma exclusive_apart ctx gs g g' : exclusive ctx gs -> g ∈ gs -> g' ∈ gs -> g <> g' -> apart ctx g g'.
Proof.
  unfold exclusive. induction 1 as [|x l Hx _ IH]; intros H1 H2 Hne; [by apply not_elem_of_nil in H1|].
  rewrite Forall_forall in Hx. apply elem_of_cons in H1 as [->|H1], H2 as [->|H2]; auto; try done.
  intros A B. by apply (Hx _ H1).
Qed.

Definition among (gs gs' : list (option GuardId)) : bool :=
  bool_decide (NoDup gs) && forallb (fun g => bool_decide (g ∈ gs')) gs.

Lemma exclusive_among ctx gs gs' : among gs gs' = true -> exclusive ctx gs' -> exclusive ctx gs.
Proof.
  unfold among. intros Ha He. breflect. rename H into Hnd, H0 into Hin. rewrite forallb_forall in Hin.
  assert (Hin' : forall g, g ∈ gs -> g ∈ gs').
  { intros g Hg%list_elem_of_In. specialize (Hin g Hg). by breflect. }
  clear Hin. unfold exclusive. induction gs as [|g gs IH]; [constructor|].
  apply NoDup_cons in Hnd as [Hn Hnd]. constructor.
  - apply Forall_forall. intros g' Hg'. apply (exclusive_apart ctx gs'); [done|set_solver..].
  - apply IH; [done|set_solver].
Qed.

Definition all_states : list (option TurnState) := None :: map Some TURN_STATES.

Lemma all_states_In s : In s all_states.
Proof. destruct s as [[]|]; cbn; tauto. Qed.

Definition lanes : list RuleLane := [Lane_none; Lane_current; Lane_stale].

(** A property of every cell, by computation. *)
Lemma every_cell (P : RuleLane -> option TurnState -> TurnEvidenceKind -> bool) :
  forallb (fun l => forallb (fun s => forallb (P l s) TURN_EVIDENCE_KINDS) all_states) lanes = true ->
  forall l s k, P l s k = true.
Proof.
  intros H l s k. rewrite forallb_forall in H.
  assert (Hl : In l lanes) by (destruct l; cbn; tauto). specialize (H l Hl).
  rewrite forallb_forall in H. specialize (H s (all_states_In s)).
  rewrite forallb_forall in H. apply H. destruct k; cbn; tauto.
Qed.

Lemma one_otherwise l s k : (otherwise_count (map r_guard (laneCandidates l s k)) <= 1)%nat.
Proof.
  apply Nat.leb_le. revert l s k. apply every_cell. vm_compute. reflexivity.
Qed.

(** The competing guards of each contested kind. *)
Definition contested (s : option TurnState) (k : TurnEvidenceKind) : list (option GuardId) :=
  match k, s with
  | K_turn_started, None => [Some G_unbound; Some G_bound]
  | K_turn_started, Some St_finalizing | K_transcript_activity, Some St_finalizing =>
      [Some G_after_weak_since; Some G_false_idle_resumed; Some G_activity_keeps_state]
  | K_turn_started, Some St_suspended | K_turn_started, Some St_consumed
  | K_transcript_activity, Some St_suspended => [None; Some G_activity_keeps_state]
  | K_hold_expired, _ => map Some expiry_guards
  | K_suspension_resolved, _ => [Some G_stale_modal_resolution; Some G_held_provider_setup]
  | K_process_exit, _ => [Some G_exit_after_report; Some G_no_provider_failure; Some G_provider_failure]
  | K_no_progress, Some St_suspended => [Some G_finished_after_report; Some G_parked_suspension_observation]
  | K_no_progress, _ => [Some G_finished_after_report; Some G_final_present]
  | K_liveness, _ =>
      [Some G_liveness_fatal; Some G_liveness_failed_nonfatal; Some G_activity_keeps_state;
       Some G_liveness_unknown]
  | K_turn_end, Some St_finalizing =>
      [Some G_end_provider_failure; Some G_weak_end_or_final; Some G_genuine_end_or_strong_final;
       Some G_end_weak_after_timeout; Some G_admission_hold; Some G_hollow_retry; Some G_end_report_awaited;
       Some G_end_report_awaited_held; Some G_hollow_exhausted; Some G_finished_after_report]
  | K_turn_end, _ =>
      [Some G_end_genuine; Some G_end_provider_failure; Some G_end_weak; Some G_end_weak_after_timeout;
       Some G_admission_hold; Some G_hollow_retry; Some G_end_report_awaited; Some G_hollow_exhausted;
       Some G_finished_after_report]
  | K_transcript_final, Some St_finalizing =>
      [Some G_weak_end_or_final; Some G_genuine_end_or_strong_final; Some G_admission_hold;
       Some G_admission_decline; Some G_final_strong_report_awaited; Some G_finished_after_report]
  | K_transcript_final, _ =>
      [Some G_final_strong; Some G_final_weak; Some G_final_weak_probe; Some G_admission_hold;
       Some G_admission_decline; Some G_finished_after_report]
  | _, _ => []
  end.

Lemma table_contested l s k :
  ((length (cell_guards l s k) <=? 1)%nat || among (cell_guards l s k) (contested s k)) = true.
Proof. revert l s k. apply every_cell. vm_compute. reflexivity. Qed.

(** An attempt that finalizes has not reported in this generation. *)
Definition finalizing_unreported (a : option TurnAttempt) : Prop :=
  match a with Some a => a_state a = St_finalizing -> reported a = false | None => True end.

(** The one overlap: a suspended attempt whose report is recorded, seen idle at its
    prompt with the final answer present. *)
Definition overlap (ctx : GuardCtx) : bool :=
  attempt_is ctx (fun a => bool_decide (a_state a = St_suspended))
  && bool_decide (ev_kind (c_evidence ctx) = K_no_progress)
  && finishedAfterReport ctx && parked_suspension_observation ctx.

Lemma contested_exclusive ctx :
  finalizing_unreported (c_attempt ctx) -> overlap ctx = false ->
  exclusive ctx (contested (a_state <$> c_attempt ctx) (ev_kind (c_evidence ctx))).
Proof.
  intros Hf Ho.
  assert (Hst : forall s, a_state <$> c_attempt ctx = Some s ->
    attempt_is ctx (fun a => bool_decide (a_state a = s)) = true).
  { intros s Hs. unfold attempt_is. destruct (c_attempt ctx) as [a|]; [|done]. injection Hs as <-.
    by apply bool_decide_eq_true. }
  assert (Hrep : a_state <$> c_attempt ctx = Some St_finalizing -> reportedThisGeneration ctx = false).
  { unfold reportedThisGeneration, attempt_is. destruct (c_attempt ctx) as [a|]; [|done].
    intros [= Hs]. by apply Hf. }
  assert (Hpk : a_state <$> c_attempt ctx = Some St_suspended -> ev_kind (c_evidence ctx) = K_no_progress ->
    exclusive ctx [Some G_finished_after_report; Some G_parked_suspension_observation]).
  { intros Hs Hk. constructor; [|by repeat constructor]. constructor; [|constructor].
    cbn [guard_holds GUARDS apart]. unfold apart. cbn [guard_holds GUARDS]. intros H1 H2.
    unfold overlap in Ho. by rewrite (Hst _ Hs), Hk, H1, H2 in Ho. }
  pose proof (started_exclusive ctx) as Hss. pose proof (resumed_exclusive ctx) as Hrs.
  destruct (ev_body (c_evidence ctx)) eqn:Hb; unfold ev_kind in *; rewrite Hb in *; cbn [kind_of contested] in *;
    try (by constructor);
    try (by apply resolved_exclusive); try (by apply exit_exclusive); try (by apply expiry_exclusive);
    try (by destruct (liveness_exclusive ctx) as [?|Hne]; [|unfold ev_kind in Hne; rewrite Hb in Hne]);
    destruct (a_state <$> c_attempt ctx) as [[]|]; try (by constructor);
    try (by eapply end_exclusive); try (by eapply finalizing_end_exclusive);
    try (by eapply final_exclusive); try (by eapply finalizing_final_exclusive; auto);
    try (by apply progress_exclusive); try (by apply unbound_exclusive); try (by apply Hpk);
    try (by apply Hrs; [apply Hst|set_solver]).
  all: eapply Hss; [by apply Hst|]; set_solver.
Qed.

Lemma cell_exclusive ctx lane :
  finalizing_unreported (c_attempt ctx) -> overlap ctx = false ->
  exclusive ctx (map r_guard (laneCandidates lane (a_state <$> c_attempt ctx) (ev_kind (c_evidence ctx)))).
Proof.
  intros Hf Ho. apply exclusive_specific.
  pose proof (table_contested lane (a_state <$> c_attempt ctx) (ev_kind (c_evidence ctx))) as H.
  apply orb_true_iff in H as [H|H]; [by apply short_exclusive|].
  eapply exclusive_among; [exact H|]. by apply contested_exclusive.
Qed.

Lemma rules_at_most_one i :
  finalizing_unreported (in_attempt i) -> overlap (ctx_of i None) = false ->
  (length (matchingRules i) <= 1)%nat.
Proof.
  intros Hf Ho. unfold matchingRules. destruct (classifyLane _ _ _) as [lane eff|] eqn:Hl; [|cbn; lia].
  apply select_at_most_one; [|apply one_otherwise]. by apply (cell_exclusive (ctx_of i eff)).
Qed.

(** At most one rule matches any evidence on any attempt that is not finalizing
    after its report, except for the one overlap. *)
Theorem rules_deterministic i :
  finalizing_unreported (in_attempt i) -> overlap (ctx_of i None) = false ->
  (length (matchingRules i) <= 1)%nat.
Proof. apply rules_at_most_one. Qed.

Lemma rules_deterministic_witness :
  map r_id (matchingRules (input_of sample_generating sample_exit)) = ["R20"]
  /\ (length (matchingRules (input_of sample_generating sample_exit)) <= 1)%nat.
Proof.
  split; [vm_compute; reflexivity|].
  apply (rules_deterministic (input_of sample_generating sample_exit)); [discriminate|vm_compute; reflexivity].
Defined.

(** The overlap, reached from nothing: a suspended worker reports, then is observed
    without progress at its prompt. *)
Definition sample_suspension : Arrival :=
  arrives "e-suspend" 2500 Src_fsm_edge 1 (suspension {|
    su_modal := Mod_approval; su_modalKey := Some "modal-1"; su_providerSetup := None;
    su_clockUnknown := None |}).

Definition sample_parked : Stored :=
  Eval vm_compute in stored_after [sample_dispatch; sample_started; sample_suspension; sample_report 3000].

Definition sample_idle_prompt : Arrival :=
  arrives "e-idle" 400000 Src_fsm_edge 1 (no_progress 300000 Ob_waiting_approval true).

(** The requirement fails in that case: both R9t and R30p match; the first one
    in the table wins, so the recorded report is committed. *)
Theorem rules_overlap :
  stored_after [sample_dispatch; sample_started; sample_suspension; sample_report 3000] = sample_parked
  /\ overlap (ctx_of (input_of sample_parked sample_idle_prompt) None) = true
  /\ map r_id (matchingRules (input_of sample_parked sample_idle_prompt)) = ["R9t"; "R30p"]
  /\ option_map res_rule (reduce (input_of sample_parked sample_idle_prompt)) = Some (Some "R9t").
Proof. vm_compute. by split_and!. Qed.

(** * Worker reports

    The verdict a worker reports is the verdict of its attempt: at once when no turn
    is running, otherwise when the turn ends. *)

(** The attempt ended with this verdict. *)
Definition ended_as (res : ReduceResult) (o : TurnOutcome) (s : CommitStrength) (r : TurnReason) : Prop :=
  exists a t, res_attempt res = Some a /\ a_terminal a = Some t /\ t_outcome t = o /\ t_strength t = s
    /\ t_reason t = r /\ a_state a = state_of_outcome o /\ res_holds res = [].

Definition report_rule : TransitionRule :=
  rule "R17" Lane_current (From_states [St_accepted; St_delivered; St_finalizing]) [K_worker_report] None
    To_outcome V_applied [T_commit TO_from_report Str_tool_report (TR R_worker_reported) false].

Definition finish_rule : TransitionRule :=
  rule "R9t" Lane_current (From_states [St_consumed; St_generating; St_suspended; St_finalizing])
    [K_turn_end; K_transcript_final; K_no_progress] (Some G_finished_after_report) To_outcome V_applied
    [T_commit TO_from_recorded_report Str_tool_report (TR R_worker_reported) true].

Section Commits.
Context {i : ReduceInput} {a0 : TurnAttempt} {eff : option Z}.
Hypothesis Ha : in_attempt i = Some a0.
Hypothesis Hok : ledger_ok a0 (in_holds i).
Hypothesis Hlane : classifyLane (in_attempt i) (in_evidence i) (in_holds i) = Lane Lane_current eff.

(** The first matching rule decides. *)
Lemma reduce_by r rs :
  a_state a0 <> St_stopping -> matchingRules i = r :: rs -> reduce i = run_rule i eff r.
Proof.
  intros Hs Hm. unfold reduce. rewrite Hlane, bool_decide_false, Hm; [done|]. rewrite Ha. cbn. congruence.
Qed.

(** A rule that only commits ends the attempt, when the writer need not stop. *)
Lemma commit_rule_ends r o to s tr x :
  r_effects r = [T_commit to s (TR tr) x] -> resolve_outcome to (start_draft i eff r) = Some o ->
  commit_needs_stop (ctx_of i eff) a0 tr = false ->
  exists res, run_rule i eff r = Some res /\ ended_as res o s tr.
Proof.
  intros He Ho Hn. pose proof (start_live Ha Hok eff r) as HL.
  destruct (run_rule_wp i eff r (CommittedAs a0 o s tr)) as (d & res & HC & Hr & [Y1 Y2 _] & _).
  - rewrite He. apply wp_seq, applyTemplate_uncommitted; [done|]. cbn [apply_uncommitted].
    apply (wp_with_attempt _ _ a0); [done|]. apply wp_reading. rewrite Ho. cbn [resolve_reason].
    apply (wp_with_attempt _ _ a0); [done|]. apply wp_reading. cbn [start_draft dr_ctx]. rewrite Hn.
    eapply wp_mono; [|eapply (commit_terminal_ok _ _ _ _ _ HL)]. done.
  - rewrite apply_target_committed in Y1, Y2 by apply HC. exists res. split; [done|].
    destruct HC as [_ Hh _ (a & t & Hd & Htm & ? & ? & ? & ? & _)]. exists a, t.
    rewrite Y1, Y2, Hh. by split_and!.
Qed.
End Commits.

(** A report that arrives when no turn is running (accepted, delivered or
    finalizing) ends the attempt with the reported outcome, at tool-report strength. *)
Theorem report_ends_idle_attempt i a0 b eff :
  in_attempt i = Some a0 -> ledger_ok a0 (in_holds i) ->
  a_state a0 ∈ [St_accepted; St_delivered; St_finalizing] ->
  classifyLane (in_attempt i) (in_evidence i) (in_holds i) = Lane Lane_current eff ->
  ev_body (in_evidence i) = worker_report b ->
  exists res, reduce i = Some res
    /\ ended_as res (outcome_of_report (wr_outcome b)) Str_tool_report R_worker_reported.
Proof.
  intros Ha Hok Hs Hl Hb.
  assert (Hm : matchingRules i = [report_rule]).
  { unfold matchingRules, ev_kind. rewrite Hl, Ha, Hb. apply list_elem_of_In in Hs.
    cbn [fmap option_fmap option_map kind_of].
    destruct Hs as [<-|[<-|[<-|[]]]]; vm_compute; reflexivity. }
  assert (Hst : a_state a0 <> St_stopping) by (intros E; rewrite E in Hs; set_solver).
  rewrite (reduce_by Ha Hl _ _ Hst Hm).
  apply (commit_rule_ends Ha Hok report_rule _ TO_from_report _ _ false); [done|..].
  - cbn. by rewrite Hb.
  - unfold commit_needs_stop, ev_kind. cbn. rewrite Hb. by rewrite andb_false_r.
Qed.

Lemma report_ends_idle_attempt_witness :
  exists res, reduce (input_of sample_open (sample_report 1500)) = Some res
    /\ ended_as res O_blocked Str_tool_report R_worker_reported.
Proof.
  apply (report_ends_idle_attempt (input_of sample_open (sample_report 1500)) _ sample_report_body (Some 1)
    eq_refl sample_open_ok); [cbn; set_solver|vm_compute; reflexivity|reflexivity].
Defined.

Lemma finish_candidate s k :
  s ∈ [St_consumed; St_generating; St_suspended] -> k ∈ [K_turn_end; K_transcript_final; K_no_progress] ->
  In finish_rule (laneCandidates Lane_current (Some s) k)
  /\ (s = St_suspended -> k = K_no_progress ->
      exists rs, laneCandidates Lane_current (Some s) k = finish_rule :: rs).
Proof.
  intros Hs Hk. apply list_elem_of_In in Hs, Hk.
  destruct Hs as [<-|[<-|[<-|[]]]], Hk as [<-|[<-|[<-|[]]]]; (split; [|try done]);
    try (apply list_elem_of_In; vm_compute; set_solver).
  intros _ _. eexists. vm_compute. reflexivity.
Qed.

(** With the report recorded, R9t is the first rule a finish matches. *)
Lemma finish_matches i a0 eff :
  in_attempt i = Some a0 -> a_state a0 ∈ [St_consumed; St_generating; St_suspended] ->
  classifyLane (in_attempt i) (in_evidence i) (in_holds i) = Lane Lane_current eff ->
  ev_kind (in_evidence i) ∈ [K_turn_end; K_transcript_final; K_no_progress] ->
  finishedAfterReport (ctx_of i eff) = true -> exists rs, matchingRules i = finish_rule :: rs.
Proof.
  intros Ha Hs Hl Hk Hfin. destruct (finish_candidate _ _ Hs Hk) as [Hin Hfirst].
  assert (Hsp : rule_specific (ctx_of i eff) finish_rule = true) by exact Hfin.
  assert (Hm : matchingRules i = select_rules (ctx_of i eff)
                 (laneCandidates Lane_current (Some (a_state a0)) (ev_kind (in_evidence i)))).
  { unfold matchingRules. by rewrite Hl, Ha. }
  destruct (overlap (ctx_of i None)) eqn:Ho.
  - unfold overlap, attempt_is in Ho. cbn in Ho. rewrite Ha in Ho. breflect.
    destruct Hfirst as [rs Hrs]; [done..|]. rewrite Hm, Hrs. unfold select_rules. cbn [List.filter].
    rewrite Hsp. eauto.
  - assert (Hone : (length (matchingRules i) <= 1)%nat).
    { apply rules_at_most_one; [|done]. rewrite Ha. intros E. rewrite E in Hs. set_solver. }
    assert (Hin' : In finish_rule (matchingRules i)).
    { rewrite Hm. unfold select_rules.
      assert (Hf : In finish_rule (List.filter (rule_specific (ctx_of i eff))
        (laneCandidates Lane_current (Some (a_state a0)) (ev_kind (in_evidence i))))) by by apply filter_In.
      destruct (List.filter _ _); [done|exact Hf]. }
    destruct (matchingRules i) as [|r [|r' rs]]; cbn in Hone; [done| |lia].
    destruct Hin' as [->|[]]. eauto.
Qed.

Definition sample_turn_end : Arrival := arrives "e-end" 6000 Src_fsm_edge 1 (turn_end {|
  te_strength := Es_weak; te_afterFinalizationTimeout := None; te_hollow := None; te_summary := None;
  te_blockReason := None; te_releasedByHardCap := None; te_nativeOutcome := None; te_nativeMarker := None;
  te_live := None; te_reportExpected := None; te_providerFailure := None |}).

(** Once a report is recorded, whatever ends the turn (a turn end, a final
    answer, an idle prompt with the answer present) ends the attempt with the recorded
    outcome, never with its own verdict. *)
Theorem recorded_report_wins i a0 rep eff :
  in_attempt i = Some a0 -> ledger_ok a0 (in_holds i) ->
  a_state a0 ∈ [St_consumed; St_generating; St_suspended] ->
  classifyLane (in_attempt i) (in_evidence i) (in_holds i) = Lane Lane_current eff ->
  d_report (a_data a0) = Some rep -> finishedAfterReport (ctx_of i eff) = true ->
  exists res, reduce i = Some res
    /\ ended_as res (outcome_of_report (rr_outcome rep)) Str_tool_report R_worker_reported.
Proof.
  intros Ha Hok Hs Hl Hrep Hfin.
  assert (Hk : ev_kind (in_evidence i) ∈ [K_turn_end; K_transcript_final; K_no_progress]).
  { unfold finishedAfterReport in Hfin. breflect. unfold ev_kind. cbn in *.
    destruct (ev_body (in_evidence i)); try done; set_solver. }
  assert (Hst : a_state a0 <> St_stopping /\ a_state a0 <> St_finalizing).
  { split; intros E; rewrite E in Hs; set_solver. }
  destruct (finish_matches i a0 eff Ha Hs Hl Hk Hfin) as [rs Hm].
  rewrite (reduce_by Ha Hl _ _ (proj1 Hst) Hm).
  apply (commit_rule_ends Ha Hok finish_rule _ TO_from_recorded_report _ _ true); [done|..].
  - cbn. rewrite Ha. cbn. by rewrite Hrep.
  - apply list_elem_of_In in Hk. unfold commit_needs_stop. cbn [ctx_of c_evidence].
    destruct Hk as [<-|[<-|[<-|[]]]]; by rewrite andb_false_r.
Qed.

Lemma recorded_report_wins_witness :
  exists res, reduce (input_of sample_reported sample_turn_end) = Some res
    /\ ended_as res O_blocked Str_tool_report R_worker_reported.
Proof.
  apply (recorded_report_wins (input_of sample_reported sample_turn_end) _
    {| rr_generation := 1; rr_outcome := Wo_blocked; rr_eventId := "e-report"; rr_at := 3000;
       rr_summary := None |} (Some 1) eq_refl sample_reported_ok);
    [cbn; set_solver|vm_compute; reflexivity|reflexivity|vm_compute; reflexivity].
Defined.
