(* ===== verification/DaemonId.v ===== *)
(** * Daemon and node identities

    Models [packages/mesh-shared/src/daemon-normalize.ts]: the interchangeable
    forms of a daemon id, and the node id comparisons of [node-normalize.ts]
    and [mesh-pinned-node-identity.ts].  Strings are Latin-1, so lower case
    keeps lengths. *)

From S2P Require Import Prelude TurnEvidence.

#[local] Open Scope string_scope.
#[local] Open Scope Z_scope.

(** ** Strings *)

(** [s.toLowerCase().startsWith(p) ? s.slice(p.length) : none], for a lower
    case [p]; also the regular expression [^p] with the flag [i]. *)
Fixpoint after_ci (p s : string) : option string :=
  match p, s with
  | EmptyString, _ => Some s
  | String a p', String c s' => if decide (lower_ascii c = a) then after_ci p' s' else None
  | String _ _, EmptyString => None
  end.

(** [s.startsWith(p)]. *)
Fixpoint starts_with (p s : string) : bool :=
  match p, s with
  | EmptyString, _ => true
  | String a p', String c s' => bool_decide (c = a) && starts_with p' s'
  | String _ _, EmptyString => false
  end.

Fixpoint forall_chars (P : Ascii.ascii -> bool) (s : string) : bool :=
  match s with EmptyString => true | String c t => P c && forall_chars P t end.

Definition is_hex (c : Ascii.ascii) : bool :=
  let n := Ascii.nat_of_ascii (lower_ascii c) in
  (Nat.leb 48 n && Nat.leb n 57 || Nat.leb 97 n && Nat.leb n 102)%bool.

(** ** Daemon ids *)

Definition DAEMON_ID_PREFIXES : list string := ["daemon_"; "standalone_"].

(** An absent id is [None]. *)
Definition read_id (id : option string) : option string := id ≫= readString.

Definition isRawDaemonDoId (id : option string) : bool :=
  match read_id id with
  | Some trimmed => (String.length trimmed =? 64)%nat && forall_chars is_hex trimmed
  | None => false
  end.

Record DaemonMachineEvidence : Set := {
  me_id : option string;
  me_machineNickname : option string;
  me_nickname : option string;
  me_hostname : option string;
  me_platform : option string;
  me_machineId : option string;
  me_machine_hostname : option string;
  me_machine_platform : option string;
  me_sessions : option nat }.

(** [me_sessions] is the length of the list, when it is one. *)
Definition isPhantomDaemonEntry (entry : option DaemonMachineEvidence) : bool :=
  match entry with
  | None => false
  | Some e =>
      isRawDaemonDoId (me_id e)
      && negb (present (read_id (me_machineNickname e)) || present (read_id (me_nickname e))
               || present (read_id (me_hostname e)) || present (read_id (me_platform e))
               || present (read_id (me_machine_hostname e)) || present (read_id (me_machine_platform e))
               || present (read_id (me_machineId e))
               || match me_sessions e with Some n => negb (n =? 0)%nat | None => false end)
  end.

(** [/^mach_/i.test(core) ? `mach_${core.slice(5)}` : core]. *)
Definition mach_form (core : string) : string :=
  match after_ci "mach_" core with Some rest => "mach_" ++ rest | None => core end.

Fixpoint strip_prefixes (prefixes : list string) (trimmed : string) : option string :=
  match prefixes with
  | [] => Some (mach_form trimmed)
  | p :: ps =>
      match after_ci p trimmed with
      | Some rest => let core := js_trim rest in
                     if bool_decide (core = "") then None else Some (mach_form core)
      | None => strip_prefixes ps trimmed
      end
  end.

Definition machineCoreFromDaemonId (id : option string) : option string :=
  match read_id id with Some trimmed => strip_prefixes DAEMON_ID_PREFIXES trimmed | None => None end.

Definition canonicalDaemonId (id : option string) : option string :=
  (fun core => match after_ci "mach_" core with Some rest => "daemon_mach_" ++ rest | None => core end)
    <$> machineCoreFromDaemonId id.

Definition daemonIdsEquivalent (a b : option string) : bool :=
  match machineCoreFromDaemonId a, machineCoreFromDaemonId b with
  | Some coreA, Some coreB => bool_decide (coreA = coreB)
  | _, _ => false
  end.

(** [add]: keep the first occurrence. *)
Definition add_form (out : list string) (value : option string) : list string :=
  match value with
  | Some v => if bool_decide (v = "") || bool_decide (v ∈ out) then out else (out ++ [v])%list
  | None => out
  end.

Definition derived_forms (raw : option string) : list string :=
  match machineCoreFromDaemonId (read_id raw) with
  | Some core => if starts_with "mach_" core then core :: map (fun p => p ++ core) DAEMON_ID_PREFIXES else []
  | None => []
  end.

Definition expandDaemonIdForms (ids : list (option string)) : list string :=
  let out := fold_left (fun out raw => add_form out (read_id raw)) ids [] in
  fold_left (fun out v => add_form out (Some v)) (flat_map derived_forms ids) out.

(** ** Node ids *)

(** [meshNodeIdMatches({ nodeId }, candidateId)]. *)
Definition meshNodeIdMatches (nodeId : string) (candidateId : option string) : bool :=
  match read_id candidateId with
  | Some trimmed => bool_decide (readString nodeId = Some trimmed)
  | None => false
  end.

Definition pinnedMeshNodeIdMatches (actual expected : option string) : bool :=
  bool_decide (actual = expected)
  && match actual with None => true | Some a => meshNodeIdMatches a expected end.

(** ** Facts *)

Lemma daemonIdsEquivalent_sym a b : daemonIdsEquivalent a b = daemonIdsEquivalent b a.
Proof.
  unfold daemonIdsEquivalent. destruct (machineCoreFromDaemonId a), (machineCoreFromDaemonId b); try done.
  apply bool_decide_ext. naive_solver.
Qed.

Lemma daemonIdsEquivalent_trans a b c :
  daemonIdsEquivalent a b = true -> daemonIdsEquivalent b c = true -> daemonIdsEquivalent a c = true.
Proof.
  unfold daemonIdsEquivalent.
  destruct (machineCoreFromDaemonId a), (machineCoreFromDaemonId b), (machineCoreFromDaemonId c); try done.
  rewrite !bool_decide_eq_true. congruence.
Qed.

Example canonical_not_idempotent :
  canonicalDaemonId (Some "daemon_daemon_x") = Some "daemon_x" /\ canonicalDaemonId (Some "daemon_x") = Some "x".
Proof. split; reflexivity. Qed.
