(* ===== verification/TurnStore.v ===== *)
(** * The turn store

    Models [packages/daemon-core/src/mesh/turn-ledger/store.ts] on the tables
    of [schema.ts]: attempts, events and holds as lists in rowid order, each
    statement as a function of the tables.  A statement that violates a unique
    index throws ([None]); [INSERT OR IGNORE] answers whether it inserted.

    Columns hold typed values where the source holds their spellings, and JSON
    columns the values they denote.  The terminal columns are written together
    and are one group. *)

From stdpp Require Import pretty.
From S2P Require Import Prelude TurnEvidence Vocabulary TurnPolicy TurnTypes EvidenceGuard DaemonId.

#[local] Open Scope string_scope.
#[local] Open Scope Z_scope.

(** ** Rows *)

Record TerminalColumns : Set := {
  tc_outcome : TurnOutcome;
  tc_reason : TurnReason;
  tc_source : EvidenceSourceId;
  tc_strength : CommitStrength;
  tc_at : option Z;
  tc_summary_json : option SummaryRef }.

Record AttemptRow : Set := {
  ra_attempt_id : string;
  ra_scope : TurnScope;
  ra_mesh_id : option string;
  ra_task_id : option string;
  ra_attempt_no : Z;
  ra_session_id : string;
  ra_node_id : option string;
  ra_provider_type : option string;
  ra_owner_daemon_id : string;
  ra_generation : Z;
  ra_prev_gen_session_id : option string;
  ra_prev_gen_consumed : option Z;
  ra_dispatch_nonce : option Z;
  ra_message_id : option string;
  ra_input_json : option string;
  ra_via : option string;
  ra_consume_profile : ConsumeProfile;
  ra_max_task_retries : Z;
  ra_state : TurnState;
  ra_suspension : option SuspensionModal;
  ra_redrive_count : Z;
  ra_reclaim_count : Z;
  ra_hollow_count : Z;
  ra_liveness_fail_streak : Z;
  ra_last_liveness : option LivenessResult;
  ra_coordinator_daemon_id : option string;
  ra_coordinator_session_id : option string;
  ra_accepted_at : Z;
  ra_delivered_at : option Z;
  ra_consumed_at : option Z;
  ra_last_activity_at : option Z;
  ra_last_probe_at : option Z;
  ra_weak_since : option Z;
  ra_candidate_notified_generation : option Z;
  ra_last_no_progress_notice_at : option Z;
  ra_notified_at : option Z;
  ra_terminal : option TerminalColumns;
  ra_data_json : TurnAttemptData;
  ra_created_at : Z;
  ra_updated_at : Z }.

Definition attemptFromRow (row : AttemptRow) : TurnAttempt := {|
  a_attemptId := ra_attempt_id row;
  a_scope := ra_scope row;
  a_meshId := ra_mesh_id row;
  a_taskId := ra_task_id row;
  a_attemptNo := ra_attempt_no row;
  a_sessionId := ra_session_id row;
  a_nodeId := ra_node_id row;
  a_providerType := ra_provider_type row;
  a_ownerDaemonId := ra_owner_daemon_id row;
  a_generation := ra_generation row;
  a_prevGeneration := (fun s => {| pg_sessionId := s; pg_consumed := bool_decide (ra_prev_gen_consumed row = Some 1) |})
                        <$> ra_prev_gen_session_id row;
  a_dispatchNonce := ra_dispatch_nonce row;
  a_messageId := ra_message_id row;
  a_consumeProfile := ra_consume_profile row;
  a_maxTaskRetries := ra_max_task_retries row;
  a_state := ra_state row;
  a_suspension := ra_suspension row;
  a_redriveCount := ra_redrive_count row;
  a_reclaimCount := ra_reclaim_count row;
  a_hollowCount := ra_hollow_count row;
  a_livenessFailStreak := ra_liveness_fail_streak row;
  a_lastLiveness := ra_last_liveness row;
  a_coordinator := {| cd_daemonId := ra_coordinator_daemon_id row; cd_sessionId := ra_coordinator_session_id row |};
  a_acceptedAt := ra_accepted_at row;
  a_deliveredAt := ra_delivered_at row;
  a_consumedAt := ra_consumed_at row;
  a_lastActivityAt := ra_last_activity_at row;
  a_weakSince := ra_weak_since row;
  a_candidateNotifiedGeneration := ra_candidate_notified_generation row;
  a_lastNoProgressNoticeAt := ra_last_no_progress_notice_at row;
  a_notifiedAt := ra_notified_at row;
  a_terminal := (fun t => {| t_outcome := tc_outcome t; t_reason := tc_reason t; t_source := tc_source t;
                             t_strength := tc_strength t; t_at := nullish (tc_at t) (ra_updated_at row);
                             t_summary := tc_summary_json t |}) <$> ra_terminal row;
  a_data := ra_data_json row |}.

(** Attempt-level extras of the dispatch path. *)
Record TurnAttemptExtras : Set := { ex_inputJson : option string; ex_via : option string }.

Definition no_extras : TurnAttemptExtras := {| ex_inputJson := None; ex_via := None |}.

(** The values [upsertAttempt] binds, as a fresh row. *)
Definition row_of_attempt (attempt : TurnAttempt) (nowMs : Z) (extras : TurnAttemptExtras) : AttemptRow := {|
  ra_attempt_id := a_attemptId attempt;
  ra_scope := a_scope attempt;
  ra_mesh_id := a_meshId attempt;
  ra_task_id := a_taskId attempt;
  ra_attempt_no := a_attemptNo attempt;
  ra_session_id := a_sessionId attempt;
  ra_node_id := a_nodeId attempt;
  ra_provider_type := a_providerType attempt;
  ra_owner_daemon_id := a_ownerDaemonId attempt;
  ra_generation := a_generation attempt;
  ra_prev_gen_session_id := pg_sessionId <$> a_prevGeneration attempt;
  ra_prev_gen_consumed := (fun p => if pg_consumed p then 1 else 0) <$> a_prevGeneration attempt;
  ra_dispatch_nonce := a_dispatchNonce attempt;
  ra_message_id := a_messageId attempt;
  ra_input_json := ex_inputJson extras;
  ra_via := ex_via extras;
  ra_consume_profile := a_consumeProfile attempt;
  ra_max_task_retries := a_maxTaskRetries attempt;
  ra_state := a_state attempt;
  ra_suspension := a_suspension attempt;
  ra_redrive_count := a_redriveCount attempt;
  ra_reclaim_count := a_reclaimCount attempt;
  ra_hollow_count := a_hollowCount attempt;
  ra_liveness_fail_streak := a_livenessFailStreak attempt;
  ra_last_liveness := a_lastLiveness attempt;
  ra_coordinator_daemon_id := cd_daemonId (a_coordinator attempt);
  ra_coordinator_session_id := cd_sessionId (a_coordinator attempt);
  ra_accepted_at := a_acceptedAt attempt;
  ra_delivered_at := a_deliveredAt attempt;
  ra_consumed_at := a_consumedAt attempt;
  ra_last_activity_at := a_lastActivityAt attempt;
  ra_last_probe_at := None;
  ra_weak_since := a_weakSince attempt;
  ra_candidate_notified_generation := a_candidateNotifiedGeneration attempt;
  ra_last_no_progress_notice_at := a_lastNoProgressNoticeAt attempt;
  ra_notified_at := a_notifiedAt attempt;
  ra_terminal := (fun t => {| tc_outcome := t_outcome t; tc_reason := t_reason t; tc_source := t_source t;
                              tc_strength := t_strength t; tc_at := Some (t_at t); tc_summary_json := t_summary t |})
                   <$> a_terminal attempt;
  ra_data_json := a_data attempt;
  ra_created_at := nowMs;
  ra_updated_at := nowMs |}.

Inductive TurnEventVerdict : Set := Ev_applied | Ev_recorded | Ev_rejected | Ev_forwarded.
#[global] Instance TurnEventVerdict_eq_dec : EqDecision TurnEventVerdict.
Proof. solve_decision. Defined.

Inductive TurnPublishState : Set := Pub_none | Pub_pending | Pub_published.
#[global] Instance TurnPublishState_eq_dec : EqDecision TurnPublishState.
Proof. solve_decision. Defined.

(** Local-only completion envelope (effects.ts); the ledger reads its final
    summary, the rest is passed along. *)
Record TurnCompletionEnvelope : Set := {
  en_finalSummary : option string; en_rest : list (string * JValue) }.

Record LivenessSamples : Set := { lv_count : Z; lv_latest : TurnEvidence }.

(** [payload_json]: the members code reads, and the others. *)
Record Payload : Set := {
  pl_meshId : option string;
  pl_evidence : option TurnEvidence;
  pl_writerStopReceipt : option (list (string * JValue));
  pl_notes : option (list string);
  pl_envelope : option TurnCompletionEnvelope;
  pl_entry : option (list (string * JValue));
  pl_ref : option SummaryRef;
  pl_livenessSamples : option LivenessSamples;
  pl_others : list (string * JValue) }.

Definition empty_payload : Payload := {|
  pl_meshId := None; pl_evidence := None; pl_writerStopReceipt := None; pl_notes := None; pl_envelope := None;
  pl_entry := None; pl_ref := None; pl_livenessSamples := None; pl_others := [] |}.

Record TurnEventRow : Set := {
  er_eventId : string;
  er_meshId : option string;
  er_attemptId : option string;
  er_generation : option Z;
  er_sessionId : string;
  er_kind : string;
  er_source : string;
  er_verdict : TurnEventVerdict;
  er_rule : option string;
  er_rejection : option string;
  er_dedupeKey : string;
  er_fromState : option string;
  er_toState : option string;
  er_payload : Payload;
  er_observedBy : option string;
  er_srcWriter : option string;
  er_srcSeq : option Z;
  er_publishState : TurnPublishState;
  er_publishedSeq : option Z;
  er_atMs : Z;
  er_recordedAt : Z }.

Record HoldRow : Set := { hr_hold : TurnHold; hr_active : bool; hr_resolvedAt : option Z }.

(** The three tables, in rowid order. *)
Record Db : Set := { db_attempts : list AttemptRow; db_events : list TurnEventRow; db_holds : list HoldRow }.

Definition empty_db : Db := {| db_attempts := []; db_events := []; db_holds := [] |}.

(** [ORDER BY]: rows in the order of a key, ties in rowid order. *)
Section OrderBy.
Context {A : Type} (R : A -> A -> Prop) `{forall x y, Decision (R x y)}.

Fixpoint insert_row (x : A) (l : list A) : list A :=
  match l with
  | [] => [x]
  | y :: t => if decide (R x y) then x :: l else y :: insert_row x t
  end.

Fixpoint order_by (l : list A) : list A :=
  match l with [] => [] | x :: t => insert_row x (order_by t) end.
End OrderBy.

Definition by_Z {A} (key : A -> Z) (x y : A) : Prop := key x <= key y.
#[global] Instance by_Z_dec {A} (key : A -> Z) x y : Decision (by_Z key x y) := decide (key x <= key y).

Definition by_id {A} (key : A -> string) (x y : A) : Prop := String.leb (key x) (key y) = true.
#[global] Instance by_id_dec {A} (key : A -> string) x y : Decision (by_id key x y) :=
  decide (String.leb (key x) (key y) = true).

(** ** Attempts *)

Definition find_attempt (attemptId : string) (db : Db) : option AttemptRow :=
  List.find (fun r => bool_decide (ra_attempt_id r = attemptId)) (db_attempts db).

Definition getAttempt (attemptId : string) (db : Db) : option TurnAttempt :=
  attemptFromRow <$> find_attempt attemptId db.

Definition is_open (r : AttemptRow) : bool := negb (present (ra_terminal r)).

Definition findOpenAttemptForSession (sessionId : string) (db : Db) : option TurnAttempt :=
  attemptFromRow <$> List.find (fun r => bool_decide (ra_session_id r = sessionId) && is_open r) (db_attempts db).

(** [ORDER BY attempt_no DESC, created_at DESC]. *)
Definition later_attempt (r1 r2 : AttemptRow) : Prop :=
  ra_attempt_no r2 < ra_attempt_no r1
  \/ ra_attempt_no r1 = ra_attempt_no r2 /\ ra_created_at r2 <= ra_created_at r1.
#[global] Instance later_attempt_dec r1 r2 : Decision (later_attempt r1 r2) := _.

(** [ORDER BY attempt_no DESC]. *)
Definition higher_attempt (r1 r2 : AttemptRow) : Prop := ra_attempt_no r2 <= ra_attempt_no r1.
#[global] Instance higher_attempt_dec r1 r2 : Decision (higher_attempt r1 r2) := _.

Definition attempts_of_task (meshId taskId : string) (db : Db) : list AttemptRow :=
  List.filter (fun r => bool_decide (ra_mesh_id r = Some meshId) && bool_decide (ra_task_id r = Some taskId)) (db_attempts db).

(** [meshId] is null for any mesh. *)
Definition findLatestAttemptForTask (meshId : option string) (taskId : string) (db : Db) : option TurnAttempt :=
  attemptFromRow <$> head
    (if truthy_str meshId then order_by higher_attempt (attempts_of_task (nullish meshId "") taskId db)
     else order_by later_attempt (List.filter (fun r => bool_decide (ra_task_id r = Some taskId)) (db_attempts db))).

Definition listOpenAttempts (meshId ownerDaemonId : option string) (db : Db) : list TurnAttempt :=
  map attemptFromRow (order_by (by_Z ra_accepted_at) (List.filter (fun r =>
    is_open r
    && (if truthy_str meshId then bool_decide (ra_mesh_id r = meshId) else true)
    && (if truthy_str ownerDaemonId then bool_decide (Some (ra_owner_daemon_id r) = ownerDaemonId) else true))
    (db_attempts db))).

Definition isTerminal (attemptId : string) (db : Db) : option bool :=
  (fun r => present (ra_terminal r)) <$> find_attempt attemptId db.

Definition sessionIdForAttempt (attemptId : string) (db : Db) : string :=
  nullish (ra_session_id <$> find_attempt attemptId db) "".

(** [ux_turn_attempts_task] and [ux_turn_attempts_open_session]; null columns
    are distinct. *)
Definition task_clash (r1 r2 : AttemptRow) : bool :=
  match ra_task_id r1, ra_task_id r2, ra_mesh_id r1, ra_mesh_id r2 with
  | Some t1, Some t2, Some m1, Some m2 =>
      bool_decide (m1 = m2) && bool_decide (t1 = t2) && (ra_attempt_no r1 =? ra_attempt_no r2)
  | _, _, _, _ => false
  end.

Definition session_clash (r1 r2 : AttemptRow) : bool :=
  is_open r1 && is_open r2 && bool_decide (ra_session_id r1 = ra_session_id r2).

Definition clashes (r1 r2 : AttemptRow) : bool := task_clash r1 r2 || session_clash r1 r2.

(** The columns the conflict clause keeps. *)
Definition keep_columns (old new : AttemptRow) : AttemptRow := {| new with
  ra_input_json := nullish_or (ra_input_json new) (ra_input_json old);
  ra_via := nullish_or (ra_via new) (ra_via old);
  ra_last_probe_at := ra_last_probe_at old;
  ra_created_at := ra_created_at old |}.

Definition upsertAttempt (attempt : TurnAttempt) (nowMs : Z) (extras : TurnAttemptExtras) (db : Db) : option Db :=
  let new := row_of_attempt attempt nowMs extras in
  let others := List.filter (fun r => negb (bool_decide (ra_attempt_id r = a_attemptId attempt))) (db_attempts db) in
  if existsb (clashes new) others then None
  else Some {| db with db_attempts :=
    match find_attempt (a_attemptId attempt) db with
    | Some _ => map (fun r => if decide (ra_attempt_id r = a_attemptId attempt) then keep_columns r new else r) (db_attempts db)
    | None => db_attempts db ++ [new]
    end |}%list.

Definition markProbed (attemptId : string) (nowMs : Z) (db : Db) : Db :=
  {| db with db_attempts := map (fun r =>
       if decide (ra_attempt_id r = attemptId)
       then {| r with ra_last_probe_at := Some nowMs; ra_updated_at := nowMs |} else r) (db_attempts db) |}.

(** Delete an attempt with its events and holds. *)
Definition delete_attempt (attemptId : string) (db : Db) : Db := {|
  db_attempts := List.filter (fun r => negb (bool_decide (ra_attempt_id r = attemptId))) (db_attempts db);
  db_events := List.filter (fun e => negb (bool_decide (er_attemptId e = Some attemptId))) (db_events db);
  db_holds := List.filter (fun h => negb (bool_decide (h_attemptId (hr_hold h) = attemptId))) (db_holds db) |}.

Definition ended_before (cutoff : Z) (r : AttemptRow) : bool :=
  match ra_terminal r ≫= tc_at with Some t => t <? cutoff | None => false end.

Definition pruneTerminalPlainAttempts (olderThanMs nowMs : Z) (db : Db) : Db :=
  let ids := map ra_attempt_id (List.filter (fun r =>
    bool_decide (ra_scope r = Sc_plain) && ended_before (nowMs - olderThanMs) r) (db_attempts db)) in
  fold_left (fun d id => delete_attempt id d) ids db.

(** A later written attempt of the same session. *)
Definition outlived_by (a b : AttemptRow) : bool :=
  bool_decide (ra_session_id b = ra_session_id a) && negb (bool_decide (ra_attempt_id b = ra_attempt_id a))
  && ((ra_updated_at a <? ra_updated_at b)
      || ((ra_updated_at b =? ra_updated_at a) && (ra_attempt_no a <? ra_attempt_no b))).

Definition pruneTerminalMeshAttempts (olderThanMs nowMs : Z) (db : Db) : Db :=
  let ids := map ra_attempt_id (List.filter (fun a =>
    negb (bool_decide (ra_scope a = Sc_plain)) && ended_before (nowMs - olderThanMs) a
    && existsb (outlived_by a) (db_attempts db)
    && negb (existsb (fun e => bool_decide (er_attemptId e = Some (ra_attempt_id a))
                               && bool_decide (er_kind e = "worker_handoff_note")) (db_events db)))
    (db_attempts db)) in
  fold_left (fun d id => delete_attempt id d) ids db.

(** ** Holds *)

Definition active_of (attemptId : string) (h : HoldRow) : bool :=
  bool_decide (h_attemptId (hr_hold h) = attemptId) && hr_active h.

Definition activeHolds (attemptId : string) (db : Db) : list TurnHold :=
  order_by (by_id h_holdId) (map hr_hold (List.filter (active_of attemptId) (db_holds db))).

(** Mark an active hold resolved. *)
Definition resolve_hold (nowMs : Z) (holdId : string) (hs : list HoldRow) : list HoldRow :=
  map (fun h => if bool_decide (h_holdId (hr_hold h) = holdId) && hr_active h
                then {| h with hr_active := false; hr_resolvedAt := Some nowMs |} else h) hs.

(** [INSERT … ON CONFLICT(hold_id) DO UPDATE]. *)
Definition upsert_hold (hold : TurnHold) (hs : list HoldRow) : list HoldRow :=
  let row := {| hr_hold := hold; hr_active := true; hr_resolvedAt := None |} in
  if existsb (fun h => bool_decide (h_holdId (hr_hold h) = h_holdId hold)) hs
  then map (fun h => if decide (h_holdId (hr_hold h) = h_holdId hold) then row else h) hs
  else (hs ++ [row])%list.

Definition syncHolds (attemptId : string) (holds : list TurnHold) (nowMs : Z) (db : Db) : Db :=
  let keep := map h_holdId holds in
  let stale := List.filter (fun h => negb (bool_decide (h_holdId h ∈ keep))) (activeHolds attemptId db) in
  let hs := fold_left (fun hs h => resolve_hold nowMs (h_holdId h) hs) stale (db_holds db) in
  {| db with db_holds := fold_left (fun hs h => upsert_hold h hs) holds hs |}.

(** Holds of open attempts an equivalent owner has. *)
Definition holdOwnerScope (ownerDaemonId : option string) (db : Db) (h : HoldRow) : bool :=
  match ownerDaemonId with
  | None => true
  | Some _ => existsb (fun r => bool_decide (ra_attempt_id r = h_attemptId (hr_hold h)) && is_open r
                                && daemonIdsEquivalent (Some (ra_owner_daemon_id r)) ownerDaemonId) (db_attempts db)
  end.

Definition deadline_key (h : TurnHold) : Z := nullish (h_until h) 0.

(** [ORDER BY until_ms, hold_id]. *)
Definition by_deadline (h1 h2 : TurnHold) : Prop :=
  deadline_key h1 < deadline_key h2
  \/ deadline_key h1 = deadline_key h2 /\ String.leb (h_holdId h1) (h_holdId h2) = true.
#[global] Instance by_deadline_dec h1 h2 : Decision (by_deadline h1 h2) := _.

Definition dueHolds (nowMs : Z) (limit : nat) (ownerDaemonId : option string) (db : Db) : list TurnHold :=
  take limit (order_by by_deadline (map hr_hold (List.filter (fun h =>
    hr_active h && match h_until (hr_hold h) with Some u => u <=? nowMs | None => false end
    && holdOwnerScope ownerDaemonId db h) (db_holds db)))).

Definition nextHoldDeadline (ownerDaemonId : option string) (afterMs : option Z) (db : Db) : option Z :=
  let deadlines := omap (fun h =>
    if hr_active h && holdOwnerScope ownerDaemonId db h then
      match h_until (hr_hold h), afterMs with
      | Some u, Some after => if after <? u then Some u else None
      | u, _ => u
      end
    else None) (db_holds db) in
  match deadlines with [] => None | d :: ds => Some (fold_left Z.min ds d) end.

(** ** Events *)

Definition find_event (eventId : string) (db : Db) : option TurnEventRow :=
  List.find (fun e => bool_decide (er_eventId e = eventId)) (db_events db).

Definition hasEvent (eventId : string) (db : Db) : bool := present (find_event eventId db).

Definition getEvent (eventId : string) (db : Db) : option TurnEventRow := find_event eventId db.

(** The primary key and [UNIQUE (attempt_id, generation, kind, dedupe_key)]. *)
Definition event_clash (e1 e2 : TurnEventRow) : bool :=
  bool_decide (er_eventId e1 = er_eventId e2)
  || match er_attemptId e1, er_attemptId e2, er_generation e1, er_generation e2 with
     | Some a1, Some a2, Some g1, Some g2 =>
         bool_decide (a1 = a2) && (g1 =? g2) && bool_decide (er_kind e1 = er_kind e2)
         && bool_decide (er_dedupeKey e1 = er_dedupeKey e2)
     | _, _, _, _ => false
     end.

Definition insertEvent (row : TurnEventRow) (db : Db) : bool * Db :=
  if existsb (event_clash row) (db_events db) then (false, db)
  else (true, {| db with db_events := db_events db ++ [{| row with er_publishedSeq := None |}] |}%list).

#[global] Instance TurnAttemptRef_eq_dec : EqDecision TurnAttemptRef.
Proof. solve_decision. Defined.

(** What two samples of one run share: everything but event id and times. *)
Definition LivenessKey : Type :=
  option string * option Z * string * option string * option string * option string * option string
  * (EvidenceSourceId * string * option TurnAttemptRef * option string * string * LivenessResult)
  * option (list string).

(** Benign, locally generated probe observations. *)
Definition livenessSampleKey (row : TurnEventRow) : option LivenessKey :=
  let p := er_payload row in
  if bool_decide (er_kind row = "liveness") && bool_decide (er_source row = "coordinator_probe")
     && bool_decide (er_verdict row = Ev_applied)
     && bool_decide (nullish (er_rule row) "" ∈ ["R32"; "R32u"])
     && bool_decide (er_fromState row = er_toState row)
     && bool_decide (er_publishState row = Pub_none)
     && negb (present (er_srcWriter row)) && negb (present (er_srcSeq row))
     && negb (present (pl_writerStopReceipt p)) && negb (present (pl_envelope p))
     && negb (present (pl_entry p)) && negb (present (pl_ref p)) && bool_decide (map fst (pl_others p) = [])
  then match pl_evidence p with
       | Some ev =>
           match ev_body ev with
           | liveness result _ =>
               if bool_decide (result ∈ [Lv_alive; Lv_unknown]) then
                 Some (er_attemptId row, er_generation row, er_sessionId row, er_observedBy row,
                       er_rule row, er_fromState row, er_toState row,
                       (e_source ev, e_sessionId ev, e_attemptRef ev, e_taskId ev, e_observedBy ev, result),
                       pl_notes p)
               else None
           | _ => None
           end
       | None => None
       end
  else None.

(** The last event of an attempt, by time and rowid. *)
Definition last_event (attemptId : string) (db : Db) : option TurnEventRow :=
  last (order_by (by_Z er_recordedAt)
    (List.filter (fun e => bool_decide (er_attemptId e = Some attemptId)) (db_events db))).

Definition set_payload (eventId : string) (p : Payload) (db : Db) : Db :=
  {| db with db_events := map (fun e => if decide (er_eventId e = eventId) then {| e with er_payload := p |} else e)
                            (db_events db) |}.

(** Store an observation; a consecutive run of equal samples is stored once. *)
Definition recordEvidence (row : TurnEventRow) (db : Db) : bool * Db :=
  let insert := insertEvent row db in
  match livenessSampleKey row, er_attemptId row with
  | Some key, Some attemptId =>
      if bool_decide (attemptId = "") then insert else
      match last_event attemptId db with
      | Some previous =>
          if bool_decide (livenessSampleKey previous = Some key) then
            let aggregate := pl_livenessSamples (er_payload previous) in
            let latest := match aggregate with Some s => Some (lv_latest s) | None => pl_evidence (er_payload previous) end in
            match latest, pl_evidence (er_payload row) with
            | Some latest, Some ev =>
                if bool_decide (e_eventId latest = er_eventId row) || (er_atMs row <=? e_at latest) then (false, db)
                else (true, set_payload (er_eventId previous)
                  {| (er_payload previous) with pl_livenessSamples := Some {|
                       lv_count := match aggregate with Some s => lv_count s | None => 1 end + 1;
                       lv_latest := ev |} |} db)
            | _, _ => insert
            end
          else insert
      | None => insert
      end
  | _, _ => insert
  end.

(** *** Delivery claims *)

Definition legacyDeliveryClaimId (writer : string) (seq : Z) : string :=
  "delivered:" ++ writer ++ ":" ++ pretty seq.

Definition deliveryClaimId (meshId : option string) (writer : string) (seq : Z) : string :=
  match meshId with
  | Some m => if bool_decide (m = "") then legacyDeliveryClaimId writer seq
              else "delivered:" ++ m ++ ":" ++ writer ++ ":" ++ pretty seq
  | None => legacyDeliveryClaimId writer seq
  end.

Definition claims (meshId writer : string) (seq : Z) (e : TurnEventRow) : bool :=
  bool_decide (er_kind e = "delivered")
  && (bool_decide (er_eventId e = deliveryClaimId (Some meshId) writer seq)
      || (bool_decide (er_eventId e = legacyDeliveryClaimId writer seq) && bool_decide (er_meshId e = Some meshId))).

Definition isDeliveryClaimed (meshId writer : string) (seq : Z) (db : Db) : bool :=
  existsb (claims meshId writer seq) (db_events db).

(** A published notice of the mesh that no claim covers; null coordinates
    match no claim. *)
Definition undelivered (meshId : string) (sinceMs : Z) (db : Db) (n : TurnEventRow) : bool :=
  bool_decide (er_kind n = "notify") && bool_decide (er_meshId n = Some meshId)
  && bool_decide (er_publishState n = Pub_published) && (sinceMs <=? er_recordedAt n)
  && match er_srcWriter n, er_publishedSeq n with
     | Some w, Some s =>
         negb (existsb (fun d => bool_decide (er_kind d = "delivered")
           && (bool_decide (er_eventId d = "delivered:" ++ meshId ++ ":" ++ w ++ ":" ++ pretty s)
               || (bool_decide (er_eventId d = "delivered:" ++ w ++ ":" ++ pretty s)
                   && bool_decide (er_meshId d = Some meshId)))) (db_events db))
     | _, _ => true
     end.

Definition hasUndeliveredNotify (meshId : string) (sinceMs : Z) (db : Db) : bool :=
  existsb (undelivered meshId sinceMs db) (db_events db).

(** [ORDER BY published_seq]; nulls first. *)
Definition by_published (e1 e2 : TurnEventRow) : Prop :=
  match er_publishedSeq e1, er_publishedSeq e2 with
  | None, _ => True
  | Some s1, Some s2 => s1 <= s2
  | Some _, None => False
  end.
#[global] Instance by_published_dec e1 e2 : Decision (by_published e1 e2).
Proof. unfold by_published. repeat case_match; apply _. Defined.

Definition listUndeliveredNotifies (meshId : string) (sinceMs : Z) (limit : nat) (db : Db) : list TurnEventRow :=
  take limit (order_by by_published (List.filter (undelivered meshId sinceMs db) (db_events db))).

Definition releaseDeliveryClaim (claimEventId : string) (db : Db) : bool * Db :=
  if starts_with "delivered:" claimEventId then
    let keep := List.filter (fun e => negb (bool_decide (er_eventId e = claimEventId) && bool_decide (er_kind e = "delivered")))
                  (db_events db) in
    (negb (length keep =? length (db_events db))%nat, {| db with db_events := keep |})
  else (false, db).

(** *** Publishing *)

Definition is_pending (e : TurnEventRow) : bool := bool_decide (er_publishState e = Pub_pending).

Definition pendingPublish (limit : nat) (db : Db) : list TurnEventRow :=
  take limit (order_by (by_Z er_recordedAt) (List.filter is_pending (db_events db))).

Definition countPendingPublish (olderThanMs : option Z) (db : Db) : nat :=
  length (List.filter (fun e => is_pending e
    && match olderThanMs with Some t => er_recordedAt e <? t | None => true end) (db_events db)).

(** Update the pending row of an event. *)
Definition update_pending (eventId : string) (f : TurnEventRow -> TurnEventRow) (db : Db) : Db :=
  {| db with db_events := map (fun e => if bool_decide (er_eventId e = eventId) && is_pending e then f e else e)
                            (db_events db) |}.

Definition markPublished (eventId writer : string) (seq : Z) (db : Db) : Db :=
  update_pending eventId (fun e => {| e with
    er_publishState := Pub_published; er_publishedSeq := Some seq;
    er_srcWriter := nullish_or (er_srcWriter e) (Some writer) |}) db.

Definition markPublishRefused (eventId : string) (db : Db) : Db :=
  update_pending eventId (fun e => {| e with er_publishState := Pub_none |}) db.
