(* ===== verification/TurnEffects.v ===== *)
(** * Effects of a reduction

    Models [packages/daemon-core/src/mesh/turn-ledger/effects.ts]: the event
    rows derived from a reduction, the queue writes made in its transaction,
    and the calls made to executors after it committed. *)

From stdpp Require Import pretty.
From S2P Require Import Prelude TurnEvidence Vocabulary TurnPolicy TurnTypes EvidenceGuard DaemonId TurnStore.

#[local] Open Scope string_scope.
#[local] Open Scope Z_scope.

(** ** Entries *)

(** The mesh of a publishable attempt. *)
Definition publishable_mesh (attempt : TurnAttempt) : option string :=
  if bool_decide (a_scope attempt = Sc_plain) then None
  else match a_meshId attempt with Some m => if bool_decide (m = "") then None else Some m | None => None end.

Definition isPublishableAttempt (attempt : option TurnAttempt) : bool :=
  match attempt with Some a => present (publishable_mesh a) | None => false end.

Definition TERMINAL_NOTIFY : list NotifyKind := [N_completed; N_blocked; N_failed; N_cancelled; N_stopped].

Definition commitEventId (evidenceEventId : string) : string := evidenceEventId ++ "#committed".

Definition notifyEventId (evidenceEventId : string) (notify : NotifyKind) : string :=
  evidenceEventId ++ "#notify:" ++ spelling notify.

(** [...(x ? { key: x } : {})] for a string. *)
Definition if_truthy (key : string) (o : option string) : list (string * JValue) :=
  if truthy_str o then maybe key J_str o else [].

Definition entry_head (eventId : string) (at_ : Z) (k : string) : list (string * JValue) :=
  [("v", j_int MESH_TOPIC_PROTOCOL_VERSION); ("eventId", J_str eventId); ("at", j_int at_); ("k", J_str k)].

Definition buildCommittedEntry (effectAttemptId : string) (generation : Z) (outcome : TurnOutcome)
    (strength : CommitStrength) (reason : TurnReason) (attempt : TurnAttempt) (eventId : string) (at_ : Z)
    : list (string * JValue) :=
  (entry_head eventId at_ "turn.committed"
   ++ [("attemptId", J_str effectAttemptId); ("generation", j_int generation)]
   ++ if_truthy "taskId" (a_taskId attempt)
   ++ [("outcome", j_enum outcome); ("strength", j_enum strength); ("reason", j_enum reason)])%list.

Definition buildNotifyEntry (n : NotifyCoordinator) (attempt : TurnAttempt) (eventId : string) (at_ : Z)
    : list (string * JValue) :=
  (entry_head eventId at_ "turn.notify"
   ++ [("attemptId", J_str (nc_attemptId n)); ("notify", j_enum (nc_notify n));
       ("targetDaemonId", J_str (nullish (nc_coordinatorDaemonId n) (a_ownerDaemonId attempt)))]
   ++ if_truthy "targetSessionId" (nc_coordinatorSessionId n) ++ if_truthy "taskId" (nc_taskId n))%list.

Definition buildForwardedEvidenceEntry : TurnEvidence -> EntryAttempt -> list (string * JValue) :=
  projectTurnEvidenceEntry.

(** ** Derived rows *)

(** [...(meshId ? { meshId } : {})]. *)
Definition mesh_member (meshId : option string) : option string := if truthy_str meshId then meshId else None.

(** The members every derived row shares. *)
Definition derived_row (evidence : TurnEvidence) (attempt : TurnAttempt) (nowMs : Z) (observedBy : string)
    (eventId : string) (generation : Z) (sessionId kind dedupeKey : string) (payload : Payload)
    (publish : TurnPublishState) : TurnEventRow := {|
  er_eventId := eventId; er_meshId := a_meshId attempt; er_attemptId := Some (a_attemptId attempt);
  er_generation := Some generation; er_sessionId := sessionId; er_kind := kind;
  er_source := spelling (e_source evidence); er_verdict := Ev_applied; er_rule := None; er_rejection := None;
  er_dedupeKey := dedupeKey; er_fromState := None; er_toState := None; er_payload := payload;
  er_observedBy := Some observedBy; er_srcWriter := None; er_srcSeq := None; er_publishState := publish;
  er_publishedSeq := None; er_atMs := e_at evidence; er_recordedAt := nowMs |}.

Definition effect_row (evidence : TurnEvidence) (attempt : TurnAttempt) (nowMs : Z) (observedBy : string)
    (effect : TurnEffect) : option TurnEventRow :=
  let row := derived_row evidence attempt nowMs observedBy in
  let eid := e_eventId evidence in
  let publishable := present (publishable_mesh attempt) in
  let base := {| empty_payload with pl_meshId := mesh_member (a_meshId attempt) |} in
  match effect with
  | E_commit attemptId generation outcome strength reason _ summary =>
      let eventId := commitEventId eid in
      let r := row eventId generation (a_sessionId attempt) "committed" ""
        {| base with
           pl_entry := if publishable
                       then Some (buildCommittedEntry attemptId generation outcome strength reason attempt eventId (e_at evidence))
                       else None;
           pl_ref := summary;
           pl_others := [("outcome", j_enum outcome); ("strength", j_enum strength); ("reason", j_enum reason)] |}
        (if publishable then Pub_pending else Pub_none) in
      Some {| r with er_toState := Some (spelling outcome) |}
  | E_notify_coordinator n =>
      if publishable then
        let eventId := notifyEventId eid (nc_notify n) in
        Some (row eventId (nc_generation n) (a_sessionId attempt) "notify"
          (if bool_decide (nc_notify n ∈ TERMINAL_NOTIFY) then spelling (nc_notify n)
           else spelling (nc_notify n) ++ ":" ++ eid)
          {| empty_payload with
             pl_meshId := a_meshId attempt;
             pl_entry := Some (buildNotifyEntry n attempt eventId (e_at evidence));
             pl_ref := nc_summary n;
             pl_others := (("notify", j_enum (nc_notify n)) :: if_truthy "textEventId" (nc_textEventId n)) |}
          Pub_pending)
      else None
  | E_reclaim _ fromGeneration toGeneration reason =>
      Some (row (eid ++ "#reclaim") toGeneration (a_sessionId attempt) "reclaim"
        (pretty fromGeneration ++ "->" ++ pretty toGeneration)
        {| base with pl_others := [("fromGeneration", j_int fromGeneration); ("toGeneration", j_int toGeneration);
                                   ("reason", j_enum reason)] |} Pub_none)
  | E_cancel_dispatch _ generation sessionId messageId revokeBind _ =>
      Some (row (eid ++ "#cancel:" ++ pretty generation ++ ":" ++ sessionId) generation sessionId "cancel_dispatch"
        (sessionId ++ ":" ++ eid)
        {| base with pl_others := [("messageId", match messageId with Some m => J_str m | None => J_null end);
                                   ("revokeBind", J_bool (opt_true revokeBind))] |} Pub_none)
  | E_redeliver _ generation messageId sessionId =>
      Some (row (eid ++ "#redeliver") generation sessionId "redeliver" eid
        {| base with pl_others := [("messageId", match messageId with Some m => J_str m | None => J_null end)] |} Pub_none)
  | _ => None
  end.

Definition effectEventRows (evidence : TurnEvidence) (attempt : option TurnAttempt) (effects : list TurnEffect)
    (nowMs : Z) (observedBy : string) : list TurnEventRow :=
  match attempt with
  | None => []
  | Some a => omap (effect_row evidence a nowMs observedBy) effects
  end.

Definition recordNotes (effects : list TurnEffect) : list string :=
  omap (fun e => match e with E_record note => Some note | _ => None end) effects.

(** ** Queue writes in the transaction *)

Record TxnEffectContext : Set := {
  tx_attempt : TurnAttempt;
  tx_evidence : TurnEvidence;
  tx_nowMs : Z;
  tx_envelope : option TurnCompletionEnvelope }.

(** The interface of the queue tables, over their state; [None] throws. *)
Record TurnTxnHost (Host : Type) : Type := {
  requeue : string -> string -> TurnReason -> TxnEffectContext -> Host -> option Host;
  taskTerminal : string -> string -> TurnOutcome -> TxnEffectContext -> Host -> option (Host * bool) }.
Arguments requeue {Host}.
Arguments taskTerminal {Host}.

Definition TxnHostResult : Type := list (string * string).

Fixpoint run_host {Host} (host : TurnTxnHost Host) (effects : list TurnEffect) (ctx : TxnEffectContext) (h : Host)
    (tasks : TxnHostResult) : option (Host * TxnHostResult) :=
  match effects with
  | [] => Some (h, tasks)
  | E_queue_status m t Q_pending reason :: es =>
      match requeue host m t reason ctx h with Some h' => run_host host es ctx h' tasks | None => None end
  | E_task_terminal m t outcome :: es =>
      match taskTerminal host m t outcome ctx h with
      | Some (h', transitioned) => run_host host es ctx h' (if transitioned : bool then tasks ++ [(m, t)] else tasks)%list
      | None => None
      end
  | _ :: es => run_host host es ctx h tasks
  end.

Definition applyHostEffects {Host} (host : option (TurnTxnHost Host)) (effects : list TurnEffect)
    (ctx : TxnEffectContext) (h : Host) : option (Host * TxnHostResult) :=
  match host with None => Some (h, []) | Some host => run_host host effects ctx h [] end.

(** ** Executors after the commit *)

Record CancelDispatchRequest : Set := {
  cr_attemptId : string;
  cr_generation : Z;
  cr_sessionId : string;
  cr_dispatchNonce : option Z;
  cr_messageId : option string;
  cr_meshId : option string;
  cr_taskId : option string;
  cr_nodeId : option string;
  cr_providerType : option string;
  cr_ownerDaemonId : option string;
  cr_stopRequestId : option string;
  cr_inspectOnly : bool;
  cr_revokeBind : bool }.

Definition isUnboundPlaceholderCancel (request : CancelDispatchRequest) : bool :=
  truthy_str (cr_taskId request) && bool_decide (Some (cr_sessionId request) = cr_taskId request).

Definition cancelRequest (attemptId : string) (generation : Z) (sessionId : string) (messageId : option string)
    (revokeBind : option bool) (stopRequestId : option string) (attempt : option TurnAttempt) : CancelDispatchRequest := {|
  cr_attemptId := attemptId; cr_generation := generation; cr_sessionId := sessionId;
  cr_dispatchNonce := attempt ≫= a_dispatchNonce; cr_messageId := messageId;
  cr_meshId := attempt ≫= a_meshId; cr_taskId := attempt ≫= a_taskId; cr_nodeId := attempt ≫= a_nodeId;
  cr_providerType := attempt ≫= a_providerType; cr_ownerDaemonId := a_ownerDaemonId <$> attempt;
  cr_stopRequestId := if truthy_str stopRequestId then stopRequestId else None;
  cr_inspectOnly := false; cr_revokeBind := opt_true revokeBind |}.

(** The calls made, in order; an absent executor makes none. *)
Inductive PortCall : Set :=
| PC_bus (event : TurnBusEvent) (at_ : Z)
| PC_revokeWorkerBind (request : CancelDispatchRequest)
| PC_cancelDispatch (request : CancelDispatchRequest)
| PC_releaseAttemptRef (attemptId sessionId : string)
| PC_redeliver (attemptId : string) (generation : Z) (messageId : option string) (sessionId : string)
    (meshId taskId nodeId : option string)
| PC_probe (attemptId sessionId : string) (meshId taskId : option string)
| PC_afterTaskTerminal (meshId taskId : string).

Definition post_commit_calls (attempt : option TurnAttempt) (nowMs : Z) (effect : TurnEffect) : list PortCall :=
  match effect with
  | E_bus event => [PC_bus event nowMs]
  | E_cancel_dispatch attemptId generation sessionId messageId revokeBind stopRequestId =>
      let request := cancelRequest attemptId generation sessionId messageId revokeBind stopRequestId attempt in
      ((if cr_revokeBind request then [PC_revokeWorkerBind request] else [])
       ++ (if isUnboundPlaceholderCancel request then [] else [PC_cancelDispatch request]))%list
  | E_release_attempt_ref attemptId sessionId => [PC_releaseAttemptRef attemptId sessionId]
  | E_redeliver attemptId generation messageId sessionId =>
      [PC_redeliver attemptId generation messageId sessionId (attempt ≫= a_meshId) (attempt ≫= a_taskId) (attempt ≫= a_nodeId)]
  | E_probe attemptId sessionId => [PC_probe attemptId sessionId (attempt ≫= a_meshId) (attempt ≫= a_taskId)]
  | _ => []
  end.

Definition runPostCommitEffects (effects : list TurnEffect) (attempt : option TurnAttempt) (nowMs : Z)
    (terminalTasks : TxnHostResult) : list PortCall :=
  (flat_map (post_commit_calls attempt nowMs) effects ++ map (fun t => PC_afterTaskTerminal t.1 t.2) terminalTasks)%list.

Definition isOpenState (state : TurnState) : bool :=
  negb (bool_decide (state ∈ [St_completed; St_blocked; St_failed; St_cancelled])).
