(* ===== verification/TurnLedger.v ===== *)
(** * The turn ledger

    Models [packages/daemon-core/src/mesh/turn-ledger/ledger.ts]: [observe],
    the one write path of turns, with the steps of its transaction, the
    forwarding of evidence another daemon owns, the re-evaluation of held
    evidence, the settlement of writer stops, mesh notices, delivery claims and
    the publishing of pending rows; and the completion decision of
    [background-work-guard.ts].

    The clock, the queue tables, the publisher and the process inspections are
    parameters.  Counters and log lines are left out. *)

From stdpp Require Import pretty.
From S2P Require Import Prelude TurnEvidence Vocabulary TurnPolicy TurnTypes EvidenceGuard Guards Reducer DaemonId TurnStore TurnEffects.

#[local] Open Scope string_scope.
#[local] Open Scope Z_scope.

(** ** The completion decision *)

Definition backgroundWorkBaselineMs (attempt : TurnAttempt) : Z := nullish (a_deliveredAt attempt) (a_acceptedAt attempt).

Inductive TurnEndBackgroundWorkDecision : Set :=
| Bg_complete
| Bg_live_background_processes (names : list string)
| Bg_pending_background_work_text.

(** [sanitize] and [isPending] are the text heuristics of
    [process/session-process-tree.ts]. *)
Section BackgroundWork.
Context (sanitize : string -> string) (isPending : option string -> bool).

(** Sanitized names, known and without repetitions. *)
Definition process_names (raw : list string) : list string :=
  fold_left (fun names r =>
    let clean := sanitize r in
    if negb (bool_decide (clean = "")) && negb (bool_decide (clean = "unknown")) && negb (bool_decide (clean ∈ names))
    then (names ++ [clean])%list else names) raw [].

Definition has_report (attempt : TurnAttempt) : bool :=
  match d_report (a_data attempt) with Some r => rr_generation r =? a_generation attempt | None => false end.

Definition evaluateTurnEndBackgroundWork (attempt : TurnAttempt) (finalSummary : option string)
    (live : option (list string)) (released : bool) : TurnEndBackgroundWorkDecision :=
  if bool_decide (a_scope attempt = Sc_plain) || released then Bg_complete
  else if has_report attempt then Bg_complete
  else match process_names (nullish live []) with
       | [] => if isPending finalSummary then Bg_pending_background_work_text else Bg_complete
       | names => Bg_live_background_processes names
       end.
End BackgroundWork.

(** ** The ledger's environment *)

Record TurnLedgerDeps : Type := {
  dp_selfDaemonId : string;
  dp_policy : TurnPolicy;
  (** the clock, when the evidence of this id is observed *)
  dp_now : string -> Z;
  dp_released : string -> Z -> bool;
  dp_inspect : string -> Z -> option (list string);
  dp_sanitize : string -> string;
  dp_isPending : option string -> bool }.

(** Capabilities minted around a settlement: stops just confirmed, and writers
    proved unreachable, by the evidence id they are settled with. *)
Record StopCapabilities : Set := { sc_confirmed : list string; sc_unreachable : list (string * SettledBy) }.

Definition no_capabilities : StopCapabilities := {| sc_confirmed := []; sc_unreachable := [] |}.

Record ObserveOptions : Set := {
  op_writerStopReceipt : option (list (string * JValue));
  op_owner : option (string * string);
  op_src : option (string * Z);
  op_envelope : option TurnCompletionEnvelope }.

Definition no_options : ObserveOptions :=
  {| op_writerStopReceipt := None; op_owner := None; op_src := None; op_envelope := None |}.

Inductive ObserveVerdict : Set := Ov_applied | Ov_recorded | Ov_rejected | Ov_forwarded | Ov_duplicate.
#[global] Instance ObserveVerdict_eq_dec : EqDecision ObserveVerdict.
Proof. solve_decision. Defined.

Definition observe_verdict (v : ReduceVerdict) : ObserveVerdict :=
  match v with V_applied => Ov_applied | V_recorded => Ov_recorded | V_rejected => Ov_rejected end.

Definition event_verdict (v : ReduceVerdict) : TurnEventVerdict :=
  match v with V_applied => Ev_applied | V_recorded => Ev_recorded | V_rejected => Ev_rejected end.

Record ObserveResult : Set := {
  ob_verdict : ObserveVerdict;
  ob_rule : option string;
  ob_rejection : option string;
  ob_attempt : option TurnAttempt;
  ob_effects : list TurnEffect }.

Definition bare_result (v : ObserveVerdict) (rejection : option string) : ObserveResult :=
  {| ob_verdict := v; ob_rule := None; ob_rejection := rejection; ob_attempt := None; ob_effects := [] |}.

(** Why a transaction is rolled back. *)
Inductive Thrown : Set := Th_duplicate | Th_second_commit | Th_constraint | Th_host | Th_assertion.

(** ** Finding the attempt *)

(** [holdId.slice(0, holdId.lastIndexOf(':'))] when the colon is not first. *)
Fixpoint before_last_colon (s : string) : option string :=
  match s with
  | EmptyString => None
  | String c t =>
      match before_last_colon t with
      | Some p => Some (String c p)
      | None => if decide (c = Ascii.ascii_of_nat 58) then Some EmptyString else None
      end
  end.

Definition holdAttemptId (holdId : string) : string :=
  match before_last_colon holdId with
  | Some p => if bool_decide (p = "") then holdId else p
  | None => holdId
  end.

Definition resolveAttempt (evidence : TurnEvidence) (db : Db) : option TurnAttempt :=
  match e_attemptRef evidence with
  | Some ref => getAttempt (ref_attemptId ref) db
  | None =>
      match ev_body evidence with
      | dispatch_accepted b => getAttempt (spelling (da_scope b) ++ ":" ++ e_eventId evidence) db
      | hold_expired holdId _ => getAttempt (holdAttemptId holdId) db
      | _ =>
          match e_taskId evidence with
          | Some t => if bool_decide (t = "") then findOpenAttemptForSession (e_sessionId evidence) db
                      else findLatestAttemptForTask None t db
          | None => findOpenAttemptForSession (e_sessionId evidence) db
          end
      end
  end.

(** ** Rows *)

Definition spell_TurnState (s : TurnState) : string :=
  match s with
  | St_accepted => "accepted" | St_delivered => "delivered" | St_consumed => "consumed"
  | St_generating => "generating" | St_suspended => "suspended" | St_finalizing => "finalizing"
  | St_stopping => "stopping" | St_completed => "completed" | St_blocked => "blocked"
  | St_failed => "failed" | St_cancelled => "cancelled"
  end.

Definition evidenceRow (evidence : TurnEvidence) (verdict : TurnEventVerdict) (rule rejection : option string)
    (fromState toState : option TurnState) (attempt : option TurnAttempt) (notes : list string) (nowMs : Z)
    (opts : ObserveOptions) (publish : option (string * list (string * JValue))) : TurnEventRow :=
  let meshId := nullish_or (fst <$> publish) (nullish_or (attempt ≫= a_meshId) (snd <$> op_owner opts)) in {|
  er_eventId := e_eventId evidence;
  er_meshId := meshId;
  er_attemptId := nullish_or (a_attemptId <$> attempt) (ref_attemptId <$> e_attemptRef evidence);
  er_generation := nullish_or (a_generation <$> attempt) (ref_generation <$> e_attemptRef evidence);
  er_sessionId := e_sessionId evidence;
  er_kind := spelling (ev_kind evidence);
  er_source := spelling (e_source evidence);
  er_verdict := verdict;
  er_rule := rule;
  er_rejection := rejection;
  er_dedupeKey := e_eventId evidence;
  er_fromState := spell_TurnState <$> fromState;
  er_toState := spell_TurnState <$> toState;
  er_payload := {|
    pl_meshId := mesh_member meshId; pl_evidence := Some evidence;
    pl_writerStopReceipt := op_writerStopReceipt opts;
    pl_notes := match notes with [] => None | _ => Some notes end;
    pl_envelope := op_envelope opts; pl_entry := snd <$> publish; pl_ref := None;
    pl_livenessSamples := None; pl_others := [] |};
  er_observedBy := Some (e_observedBy evidence);
  er_srcWriter := fst <$> op_src opts;
  er_srcSeq := snd <$> op_src opts;
  er_publishState := if present publish then Pub_pending else Pub_none;
  er_publishedSeq := None;
  er_atMs := e_at evidence;
  er_recordedAt := nowMs |}.

(** ** One step of the transaction *)

Section Ledger.
Context {Host : Type} (deps : TurnLedgerDeps) (host : option (TurnTxnHost Host)).

Record World : Type := { w_db : Db; w_host : Host }.

Record Step : Type := { s_evidence : TurnEvidence; s_result : ReduceResult; s_tasks : TxnHostResult }.

(** A worker's turn end the background-work guard may hold back. *)
Definition guarded_end (attempt : TurnAttempt) (evidence : TurnEvidence) : bool :=
  negb (bool_decide (a_scope attempt = Sc_plain))
  && match ev_body evidence with
     | turn_end b => negb (present (te_providerFailure b) || bool_decide (te_nativeOutcome b = Some No_failed))
     | transcript_final b => negb match tf_nativeMarker b with Some m => bool_decide (nm_outcome m = No_failed) | None => false end
     | _ => false
     end.

(** The evidence a held back end becomes. *)
Definition held_back (attempt : TurnAttempt) (evidence : TurnEvidence) : TurnEvidence :=
  let env := {| (ev_env evidence) with
    e_taskId := if truthy_str (e_taskId evidence) then e_taskId evidence else None |} in
  match a_state attempt with
  | St_finalizing =>
      {| ev_env := {| env with e_at := Z.max (e_at evidence) (nullish (a_weakSince attempt) 0 + 1) |};
         ev_body := turn_started true |}
  | _ => {| ev_env := env; ev_body := liveness Lv_alive (Some (e_at evidence)) |}
  end.

(** The evidence reduced, and whether the guard asks for a probe. *)
Definition background_guard (attempt : option TurnAttempt) (evidence : TurnEvidence) (opts : ObserveOptions)
    : TurnEvidence * bool :=
  match attempt with
  | Some a =>
      if guarded_end a evidence then
        let released := dp_released deps (a_attemptId a) (a_generation a) in
        let live := if released then None else dp_inspect deps (e_sessionId evidence) (backgroundWorkBaselineMs a) in
        match evaluateTurnEndBackgroundWork (dp_sanitize deps) (dp_isPending deps) a
                (op_envelope opts ≫= en_finalSummary) live released with
        | Bg_complete => (evidence, false)
        | _ => (held_back a evidence, true)
        end
      else (evidence, false)
  | None => (evidence, false)
  end.

Definition unreachable_settle (caps : StopCapabilities) (eventId : string) : option SettledBy :=
  snd <$> List.find (fun e => bool_decide (e.1 = eventId)) (sc_unreachable caps).

Definition reduce_input (caps : StopCapabilities) (evidence : TurnEvidence) (attempt : option TurnAttempt)
    (holds : list TurnHold) (nowMs : Z) : ReduceInput := {|
  in_stopConfirmed := bool_decide (e_eventId evidence ∈ sc_confirmed caps);
  in_writerUnreachable := unreachable_settle caps (e_eventId evidence);
  in_attempt := attempt; in_holds := holds; in_evidence := evidence; in_policy := dp_policy deps; in_nowMs := nowMs |}.

Definition is_cancel_dispatch (e : TurnEffect) : bool := match e with E_cancel_dispatch _ _ _ _ _ _ => true | _ => false end.

Definition add_probe (attempt : option TurnAttempt) (probe : bool) (result : ReduceResult) : ReduceResult :=
  match attempt with
  | Some a => if probe then {| result with res_effects := res_effects result ++ [E_probe (a_attemptId a) (a_sessionId a)] |}%list
              else result
  | None => result
  end.

(** An attempt opened by this step. *)
Definition opens (attempt : option TurnAttempt) (result : ReduceResult) : bool :=
  negb (present attempt) && present (res_attempt result) && bool_decide (res_verdict result = V_applied).

(** The daemon that opens an attempt owns it; a superseded turn is not
    stopped. *)
Definition adjust_result (attempt : option TurnAttempt) (probe nested : bool) (result : ReduceResult) : ReduceResult :=
  let result := add_probe attempt probe result in
  let result := if opens attempt result
    then {| result with res_attempt := (fun a => {| a with a_ownerDaemonId := dp_selfDaemonId deps |}) <$> res_attempt result |}
    else result in
  if nested then {| result with res_effects := List.filter (fun e => negb (is_cancel_dispatch e)) (res_effects result) |}
  else result.

(** An open attempt moved to another session. *)
Definition moves (attempt : option TurnAttempt) (result : ReduceResult) : bool :=
  match attempt, res_attempt result with
  | Some a0, Some a => bool_decide (res_verdict result = V_applied) && negb (present (a_terminal a))
                       && negb (bool_decide (a_sessionId a = a_sessionId a0))
  | _, _ => false
  end.

(** The open attempt the session of the result already holds. *)
Definition conflicting (attempt : option TurnAttempt) (result : ReduceResult) (db : Db) : option TurnAttempt :=
  match res_attempt result with
  | Some a =>
      if opens attempt result || moves attempt result then
        match findOpenAttemptForSession (a_sessionId a) db with
        | Some c => if bool_decide (a_attemptId c = a_attemptId a) then None else Some c
        | None => None
        end
      else None
  | None => None
  end.

Definition supersede_evidence (evidence : TurnEvidence) (c : TurnAttempt) : TurnEvidence := {|
  ev_env := {| e_eventId := e_eventId evidence ++ "#supersede:" ++ a_attemptId c; e_at := e_at evidence;
               e_source := Src_dispatch; e_sessionId := a_sessionId c;
               e_attemptRef := Some {| ref_attemptId := a_attemptId c; ref_generation := a_generation c |};
               e_taskId := None; e_observedBy := e_observedBy evidence |};
  ev_body := cancel Cr_superseded |}.

Definition refused_result : ReduceResult := {|
  res_attempt := None; res_holds := []; res_effects := [E_record "open_attempt_conflict"]; res_verdict := V_rejected;
  res_rule := None; res_rejection := Some Rj_illegal_transition |}.

Definition recordedReportEnvelope (attempt : option TurnAttempt) (evidence : TurnEvidence) (db : Db)
    : option TurnCompletionEnvelope :=
  match attempt with
  | Some a =>
      match a_terminal a, d_report (a_data a) with
      | Some t, Some report =>
          if bool_decide (ev_kind evidence = K_worker_report) || negb (rr_generation report =? a_generation a)
             || negb (bool_decide (t_reason t = R_worker_reported)) then None
          else getEvent (rr_eventId report) db ≫= (fun e => pl_envelope (er_payload e))
      | _, _ => None
      end
  | None => None
  end.

(** Insert the derived rows; only a second commit is an error. *)
Fixpoint insert_rows (rows : list TurnEventRow) (db : Db) : Thrown + Db :=
  match rows with
  | [] => inr db
  | row :: rows =>
      let '(inserted, db') := insertEvent row db in
      if negb inserted && bool_decide (er_kind row = "committed") then inl Th_second_commit else insert_rows rows db'
  end.

(** Store the attempt and its holds when the evidence applied. *)
Definition store_attempt (result : ReduceResult) (nowMs : Z) (db : Db) : option Db :=
  match res_verdict result, res_attempt result with
  | V_applied, Some next => syncHolds (a_attemptId next) (res_holds result) nowMs <$> upsertAttempt next nowMs no_extras db
  | _, _ => Some db
  end.

(** The writes of one step, after the conflict was resolved. *)
Definition persist (evidence : TurnEvidence) (attempt : option TurnAttempt) (result : ReduceResult)
    (opts : ObserveOptions) (nowMs : Z) (w : World) : Thrown + (World * Step) :=
  let next := res_attempt result in
  match store_attempt result nowMs (w_db w) with
  | None => inl Th_constraint
  | Some db =>
      let row := evidenceRow evidence (event_verdict (res_verdict result)) (res_rule result)
        (spell_rejection <$> res_rejection result) (a_state <$> attempt) (a_state <$> next)
        (nullish_or next attempt) (recordNotes (res_effects result)) nowMs opts None in
      let '(inserted, db) := recordEvidence row db in
      if negb inserted then inl Th_duplicate
      else
        let done db h tasks := inr ({| w_db := db; w_host := h |},
                                    {| s_evidence := evidence; s_result := result; s_tasks := tasks |}) in
        match res_verdict result, nullish_or next attempt with
        | V_rejected, _ | _, None => done db (w_host w) []
        | verdict, Some subject =>
            match insert_rows (effectEventRows evidence (Some subject) (res_effects result) nowMs (e_observedBy evidence)) db with
            | inl t => inl t
            | inr db =>
                match verdict, next with
                | V_applied, Some a =>
                    let envelope := nullish_or (recordedReportEnvelope next evidence db) (op_envelope opts) in
                    match applyHostEffects host (res_effects result)
                            {| tx_attempt := a; tx_evidence := evidence; tx_nowMs := nowMs; tx_envelope := envelope |} (w_host w) with
                    | Some (h, tasks) => done db h tasks
                    | None => inl Th_host
                    end
                | _, _ => done db (w_host w) []
                end
            end
        end
  end.

(** [applyStep]: reduce and write; [conflict] resolves a session conflict. *)
Definition step_with (nested : bool)
    (conflict : TurnEvidence -> option TurnAttempt -> ReduceResult -> World -> Thrown + (World * list Step * ReduceResult))
    (caps : StopCapabilities) (evidence : TurnEvidence) (attempt : option TurnAttempt) (opts : ObserveOptions)
    (nowMs : Z) (w : World) : Thrown + (World * list Step) :=
  let holds := match attempt with Some a => activeHolds (a_attemptId a) (w_db w) | None => [] end in
  let '(evidence, probe) := background_guard attempt evidence opts in
  match reduce (reduce_input caps evidence attempt holds nowMs) with
  | None => inl Th_assertion
  | Some result =>
      match conflict evidence attempt (adjust_result attempt probe nested result) w with
      | inl t => inl t
      | inr (w, steps, result) =>
          match persist evidence attempt result opts nowMs w with
          | inl t => inl t
          | inr (w, step) => inr (w, steps ++ [step])%list
          end
      end
  end.

(** The step that closes a superseded plain turn. *)
Definition nestedStep : StopCapabilities -> TurnEvidence -> option TurnAttempt -> ObserveOptions -> Z -> World
    -> Thrown + (World * list Step) :=
  step_with true (fun _ _ result w => inr (w, [], result)).

Definition resolve_conflict (caps : StopCapabilities) (nowMs : Z) (evidence : TurnEvidence) (attempt : option TurnAttempt)
    (result : ReduceResult) (w : World) : Thrown + (World * list Step * ReduceResult) :=
  match conflicting attempt result (w_db w) with
  | None => inr (w, [], result)
  | Some c =>
      match a_scope c with
      | Sc_plain =>
          match nestedStep caps (supersede_evidence evidence c) (Some c) no_options nowMs w with
          | inl t => inl t
          | inr (w, steps) => inr (w, steps, result)
          end
      | _ => inr (w, [], refused_result)
      end
  end.

Definition applyStep (caps : StopCapabilities) (evidence : TurnEvidence) (attempt : option TurnAttempt)
    (opts : ObserveOptions) (nowMs : Z) (w : World) : Thrown + (World * list Step) :=
  step_with false (resolve_conflict caps nowMs) caps evidence attempt opts nowMs w.

(** ** Forwarding *)

(** Insert a row in a transaction of its own. *)
Definition insert_in (row : TurnEventRow) (w : World) : World :=
  {| w with w_db := snd (insertEvent row (w_db w)) |}.

Definition forward (evidence : TurnEvidence) (owner : string * string) (nowMs : Z) (opts : ObserveOptions) (w : World)
    : World * ObserveResult :=
  match e_attemptRef evidence with
  | None =>
      (insert_in (evidenceRow evidence Ev_rejected None (Some "no_attempt") None None None
                   ["forward_without_attempt_ref"] nowMs opts None) w,
       bare_result Ov_rejected (Some "no_attempt"))
  | Some ref =>
      let entry := buildForwardedEvidenceEntry evidence
        {| en_attemptId := ref_attemptId ref; en_generation := ref_generation ref; en_ownerDaemonId := owner.1 |} in
      (insert_in (evidenceRow evidence Ev_forwarded None None None None None [] nowMs opts (Some (owner.2, entry))) w,
       bare_result Ov_forwarded None)
  end.

(** The daemon and mesh evidence is forwarded to, when this daemon does not
    own its attempt. *)
Definition foreign_owner (attempt : option TurnAttempt) (opts : ObserveOptions) : option (string * string) :=
  let owner := match attempt with Some a => Some (a_ownerDaemonId a) | None => fst <$> op_owner opts end in
  let mesh := nullish_or (attempt ≫= a_meshId) (snd <$> op_owner opts) in
  match owner, mesh with
  | Some o, Some m =>
      if negb (bool_decide (o = "")) && negb (daemonIdsEquivalent (Some o) (Some (dp_selfDaemonId deps)))
         && negb (bool_decide (m = ""))
      then Some (o, m) else None
  | _, _ => None
  end.

(** ** Observing *)

Definition idle_pending : LiveTurnPending := {|
  live_modal := false; live_adapterPending := false; live_trailingTool := false; live_newestActivityAt := None |}.

Definition forceLiveFalse (evidence : TurnEvidence) (eventId : string) : option TurnEvidence :=
  let env := {| (ev_env evidence) with e_eventId := eventId |} in
  match ev_body evidence with
  | transcript_final b => Some {| ev_env := env; ev_body := transcript_final {| b with tf_live := idle_pending |} |}
  | turn_end b => Some {| ev_env := env; ev_body := turn_end {| b with te_live := Some idle_pending |} |}
  | _ => None
  end.

(** The mesh-shared content guard. *)
Definition well_formed (evidence : TurnEvidence) : bool := isTurnEvidence (J_obj (evidence_object evidence)).

(** Held evidence to observe again. *)
Definition reevaluated (step : Step) (effect : TurnEffect) (db : Db) : option TurnEvidence :=
  match effect with
  | E_reevaluate _ evidenceId _ =>
      if bool_decide (evidenceId = "") then None else
      match getEvent evidenceId db ≫= (fun e => pl_evidence (er_payload e)) with
      | Some held => if well_formed held
                     then forceLiveFalse held (evidenceId ++ "#reeval:" ++ e_eventId (s_evidence step)) else None
      | None => None
      end
  | _ => None
  end.

Definition step_calls (nowMs : Z) (step : Step) : list PortCall :=
  runPostCommitEffects (res_effects (s_result step)) (res_attempt (s_result step)) nowMs (s_tasks step).

Definition result_of (step : Step) : ObserveResult :=
  let r := s_result step in
  {| ob_verdict := observe_verdict (res_verdict r); ob_rule := res_rule r;
     ob_rejection := spell_rejection <$> res_rejection r; ob_attempt := res_attempt r; ob_effects := res_effects r |}.

(** What an observation leaves: the tables, the calls made, and its answer or
    the error it throws. *)
Record Observed : Type := { od_world : World; od_calls : list PortCall; od_answer : Thrown + ObserveResult }.

(** Re-observe what a step's effects name, in order, until one throws. *)
Fixpoint run_reevaluations (again : TurnEvidence -> World -> option Observed) (step : Step) (effects : list TurnEffect)
    (w : World) : option (World * list PortCall * option Thrown) :=
  match effects with
  | [] => Some (w, [], None)
  | e :: es =>
      match reevaluated step e (w_db w) with
      | None => run_reevaluations again step es w
      | Some ev =>
          match again ev w with
          | None => None
          | Some o =>
              match od_answer o with
              | inl t => Some (od_world o, od_calls o, Some t)
              | inr _ =>
                  match run_reevaluations again step es (od_world o) with
                  | None => None
                  | Some (w', calls, t) => Some (w', od_calls o ++ calls, t)%list
                  end
              end
          end
      end
  end.

(** The post-commit half of the steps, in order; rejected steps have none. *)
Fixpoint post_commit (again : TurnEvidence -> World -> option Observed) (nowMs : Z) (steps : list Step) (w : World)
    : option (World * list PortCall * option Thrown) :=
  match steps with
  | [] => Some (w, [], None)
  | step :: steps =>
      if bool_decide (res_verdict (s_result step) = V_rejected) then post_commit again nowMs steps w
      else match run_reevaluations again step (res_effects (s_result step)) w with
           | None => None
           | Some (w', calls, Some t) => Some (w', step_calls nowMs step ++ calls, Some t)%list
           | Some (w', calls, None) =>
               match post_commit again nowMs steps w' with
               | None => None
               | Some (w'', calls', t) => Some (w'', step_calls nowMs step ++ calls ++ calls', t)%list
               end
           end
  end.

Definition answered (w : World) (r : ObserveResult) : Observed := {| od_world := w; od_calls := []; od_answer := inr r |}.

(** [observe]; [None] when the fuel for re-observations runs out. *)
Fixpoint observe (fuel : nat) (caps : StopCapabilities) (opts : ObserveOptions) (evidence : TurnEvidence) (w : World)
    : option Observed :=
  match fuel with
  | O => None
  | S fuel =>
      if negb (well_formed evidence) then Some (answered w (bare_result Ov_rejected (Some "invalid_evidence")))
      else if hasEvent (e_eventId evidence) (w_db w) then Some (answered w (bare_result Ov_duplicate None))
      else
        let nowMs := dp_now deps (e_eventId evidence) in
        let attempt := resolveAttempt evidence (w_db w) in
        match foreign_owner attempt opts with
        | Some owner => let '(w', r) := forward evidence owner nowMs opts w in Some (answered w' r)
        | None =>
            match applyStep caps evidence attempt opts nowMs w with
            | inl Th_duplicate => Some (answered w (bare_result Ov_duplicate None))
            | inl t => Some {| od_world := w; od_calls := []; od_answer := inl t |}
            | inr (w', steps) =>
                match post_commit (fun ev w => observe fuel caps opts ev w) nowMs steps w' with
                | None => None
                | Some (w'', calls, Some t) => Some {| od_world := w''; od_calls := calls; od_answer := inl t |}
                | Some (w'', calls, None) =>
                    Some {| od_world := w''; od_calls := calls;
                            od_answer := match last steps with Some s => inr (result_of s) | None => inl Th_assertion end |}
                end
            end
        end
  end.

(** ** Holds *)

Definition expiredHoldEvidence (nowMs : Z) (w : World) : list TurnEvidence :=
  expireHolds (dueHolds nowMs 500 (Some (dp_selfDaemonId deps)) (w_db w)) nowMs
    {| xc_observedBy := dp_selfDaemonId deps; xc_sessionIdFor := fun id => sessionIdForAttempt id (w_db w) |}.

(** Observe the due holds in order; an error ends the sweep. *)
Fixpoint sweep_evidence (evs : list TurnEvidence) (w : World) : option (World * (Thrown + list ObserveResult)) :=
  match evs with
  | [] => Some (w, inr [])
  | ev :: evs =>
      match observe 2 no_capabilities no_options ev w with
      | None => None
      | Some o =>
          match od_answer o with
          | inl t => Some (od_world o, inl t)
          | inr r =>
              match sweep_evidence evs (od_world o) with
              | None => None
              | Some (w', inl t) => Some (w', inl t)
              | Some (w', inr rs) => Some (w', inr (r :: rs))
              end
          end
      end
  end.

Definition sweepExpiredHolds (nowMs : Z) (w : World) : option (World * (Thrown + list ObserveResult)) :=
  sweep_evidence (expiredHoldEvidence nowMs w) w.

(** ** Settling writer stops *)

Definition is_jstring (o : option string) (v : JValue) : bool :=
  match o, v with Some s, J_str s' => bool_decide (s = s') | None, J_null => true | _, _ => false end.

Definition is_jint (o : option Z) (v : JValue) : bool :=
  match o, v with Some z, J_num (N_int z') => z =? z' | None, J_null => true | _, _ => false end.

Definition nonempty_jstring (v : JValue) : bool := match v with J_str s => negb (bool_decide (s = "")) | _ => false end.

Definition nonblank_jstring (v : JValue) : bool :=
  match v with J_str s => negb (bool_decide (js_trim s = "")) | _ => false end.

(** The reply names exactly the stop that was asked for. *)
Definition receipt_matches (r : list (string * JValue)) (request : CancelDispatchRequest) : bool :=
  match cr_stopRequestId request with
  | Some s => is_jstring (Some s) (prop r "stopRequestId")
  | None => is_undefined (prop r "stopRequestId")
  end
  && is_jstring (Some (cr_attemptId request)) (prop r "attemptId")
  && is_jint (Some (cr_generation request)) (prop r "generation")
  && is_jstring (Some (cr_sessionId request)) (prop r "sessionId")
  && is_jstring (cr_meshId request) (prop r "meshId")
  && is_jstring (cr_taskId request) (prop r "taskId")
  && is_jstring (cr_nodeId request) (prop r "nodeId")
  && is_jint (cr_dispatchNonce request) (prop r "dispatchNonce")
  && is_jstring (cr_providerType request) (prop r "providerType")
  && is_jstring (cr_ownerDaemonId request) (prop r "ownerDaemonId").

(** The attempt is still the one the stop was asked for. *)
Definition stop_current (current : TurnAttempt) (request : CancelDispatchRequest) : bool :=
  bool_decide (a_state current = St_stopping) && (a_generation current =? cr_generation request)
  && bool_decide (a_sessionId current = cr_sessionId request)
  && bool_decide ((ws_requestId <$> d_writerStop (a_data current)) = cr_stopRequestId request)
  && bool_decide (a_meshId current = cr_meshId request) && bool_decide (a_taskId current = cr_taskId request)
  && pinnedMeshNodeIdMatches (a_nodeId current) (cr_nodeId request)
  && bool_decide (a_providerType current = cr_providerType request)
  && bool_decide (a_dispatchNonce current = cr_dispatchNonce request).

Definition receipt_accepted (request : CancelDispatchRequest) (receipt : option (list (string * JValue))) (db : Db) : bool :=
  match receipt, getAttempt (cr_attemptId request) db with
  | Some r, Some current =>
      match prop r "success", prop r "quiescent" with J_bool true, J_bool true => true | _, _ => false end
      && nonempty_jstring (prop r "incarnation") && stop_current current request && receipt_matches r request
      && match prop r "evidence" with
         | J_obj e => match prop e "kind" with
                      | J_str k => if bool_decide (k = "host_session_absent") then nonblank_jstring (prop e "hostBootId") else true
                      | _ => true
                      end
         | _ => true
         end
  | _, _ => false
  end.

Definition settle_evidence (eventId : string) (at_ : Z) (sessionId attemptId : string) (generation : Z) : TurnEvidence := {|
  ev_env := {| e_eventId := eventId; e_at := at_; e_source := Src_scheduler; e_sessionId := sessionId;
               e_attemptRef := Some {| ref_attemptId := attemptId; ref_generation := generation |};
               e_taskId := None; e_observedBy := dp_selfDaemonId deps |};
  ev_body := operator_status Os_failed Or_operator_update |}.

(** [uuid] is the fresh part of the settlement's id. *)
Definition settleWriterStop (uuid : string) (request : CancelDispatchRequest) (receipt : option (list (string * JValue)))
    (w : World) : option Observed :=
  if receipt_accepted request receipt (w_db w) then
    let eventId := "writer_settled:" ++ nullish (cr_stopRequestId request) "undefined" ++ ":" ++ uuid in
    match observe 2 {| sc_confirmed := [eventId]; sc_unreachable := [] |} {| no_options with op_writerStopReceipt := receipt |}
            (settle_evidence eventId (dp_now deps eventId) (cr_sessionId request) (cr_attemptId request) (cr_generation request)) w with
    | Some o =>
        Some match od_answer o with
             | inr r => if bool_decide (ob_rule r = Some "writer_settled")
                        then {| o with od_calls := od_calls o ++ [PC_revokeWorkerBind request] |}%list else o
             | inl _ => o
             end
    | None => None
    end
  else Some (answered w (bare_result Ov_rejected None)).

Definition settleUnreachable (a : TurnAttempt) (mode : SettledBy) (w : World) : option (bool * Observed) :=
  match d_writerStop (a_data a) with
  | None => Some (false, answered w (bare_result Ov_rejected None))
  | Some stop =>
      let eventId := "writer_unreachable:" ++ ws_requestId stop in
      match observe 2 {| sc_confirmed := []; sc_unreachable := [(eventId, mode)] |} no_options
              (settle_evidence eventId (dp_now deps eventId) (a_sessionId a) (a_attemptId a) (a_generation a)) w with
      | Some o =>
          Some match od_answer o with
               | inr r =>
                   if bool_decide (ob_rule r = Some "writer_unreachable_settled") then
                     let request := cancelRequest (a_attemptId a) (a_generation a) (a_sessionId a) (a_messageId a) (Some true)
                                      None (Some a) in
                     (true, {| o with od_calls := od_calls o ++
                        [PC_revokeWorkerBind {| request with cr_stopRequestId := Some (ws_requestId stop) |}] |}%list)
                   else (false, o)
               | inl _ => (false, o)
               end
      | None => None
      end
  end.
End Ledger.
