(* ===== verification/TurnPublish.v ===== *)
(** * Publishing the ledger's rows

    The rest of [packages/daemon-core/src/mesh/turn-ledger/ledger.ts]: notices
    without an attempt, delivery claims, and the drain of pending rows to the
    mesh topics.  The publisher appends to a topic and is a parameter; the
    tables do not change between its answers. *)

From stdpp Require Import pretty.
From S2P Require Import Prelude TurnEvidence Vocabulary TurnPolicy TurnTypes EvidenceGuard DaemonId TurnStore TurnEffects.

#[local] Open Scope string_scope.
#[local] Open Scope Z_scope.

(** ** Notices *)

Record MeshEventNotice : Set := {
  mn_meshId : string;
  mn_event : string;
  mn_payload : option JValue;
  mn_targetDaemonId : string;
  mn_targetSessionId : option string;
  mn_taskId : option string;
  mn_eventId : option string;
  mn_at : option Z;
  mn_notify : option NotifyKind;
  mn_ref : option SummaryRef;
  mn_attemptId : option string }.

(** [uuid] is the fresh part of an id the caller does not give. *)
Definition notice_row (uuid : string) (nowMs : Z) (notice : MeshEventNotice) : TurnEventRow :=
  let eventId := nullish (mn_eventId notice) ("mesh_event:" ++ uuid) in
  let at_ := nullish (mn_at notice) nowMs in
  let notify := nullish (mn_notify notice) N_mesh_event in
  let entry := (entry_head eventId at_ "turn.notify" ++ if_truthy "attemptId" (mn_attemptId notice)
    ++ [("notify", j_enum notify); ("targetDaemonId", J_str (mn_targetDaemonId notice))]
    ++ if_truthy "targetSessionId" (mn_targetSessionId notice) ++ if_truthy "taskId" (mn_taskId notice))%list in {|
  er_eventId := eventId; er_meshId := Some (mn_meshId notice); er_attemptId := mn_attemptId notice;
  er_generation := None; er_sessionId := nullish (mn_targetSessionId notice) ""; er_kind := "notify";
  er_source := "mesh_event"; er_verdict := Ev_applied; er_rule := None; er_rejection := None; er_dedupeKey := eventId;
  er_fromState := None; er_toState := None;
  er_payload := {| empty_payload with
    pl_meshId := Some (mn_meshId notice); pl_entry := Some entry; pl_ref := mn_ref notice;
    pl_others := ([("notify", j_enum notify); ("event", J_str (mn_event notice))]
                  ++ maybe "local" (fun p => J_obj [("payload", p)]) (mn_payload notice))%list |};
  er_observedBy := None; er_srcWriter := None; er_srcSeq := None; er_publishState := Pub_pending;
  er_publishedSeq := None; er_atMs := at_; er_recordedAt := nowMs |}.

Definition notifyMeshEvent (uuid : string) (nowMs : Z) (notice : MeshEventNotice) (db : Db) : bool * Db :=
  insertEvent (notice_row uuid nowMs notice) db.

(** ** Delivery claims *)

Definition claim_row (writer : string) (seq : Z) (meshId : option string) (sessionId : string)
    (outcome wakeKey : option string) (nowMs : Z) : TurnEventRow := {|
  er_eventId := deliveryClaimId meshId writer seq; er_meshId := meshId; er_attemptId := None; er_generation := None;
  er_sessionId := sessionId; er_kind := "delivered"; er_source := "input_service"; er_verdict := Ev_recorded;
  er_rule := None; er_rejection := None;
  er_dedupeKey := (if truthy_str meshId then nullish meshId "" ++ ":" else "") ++ writer ++ ":" ++ pretty seq;
  er_fromState := None; er_toState := None;
  er_payload := {| empty_payload with
    pl_meshId := mesh_member meshId;
    pl_others := (if_truthy "outcome" outcome ++ if_truthy "wakeKey" wakeKey)%list |};
  er_observedBy := None; er_srcWriter := Some writer; er_srcSeq := Some seq; er_publishState := Pub_none;
  er_publishedSeq := None; er_atMs := nowMs; er_recordedAt := nowMs |}.

Definition claimDelivery (writer : string) (seq : Z) (meshId : option string) (sessionId : string)
    (outcome wakeKey : option string) (nowMs : Z) (db : Db) : bool * Db :=
  insertEvent (claim_row writer seq meshId sessionId outcome wakeKey nowMs) db.

(** ** Draining *)

Definition PUBLISH_BATCH : nat := 256.
Definition MAX_TOPIC_EVENT_ID : nat := 256.

Inductive PublishAnswer : Set := Pa_appended (writer : string) (seq : Z) | Pa_refused | Pa_failed.

Section Drain.
(** [publish] appends to a topic whose state is [Topics]; [sha1_16] is the
    digest a long id is shortened with. *)
Context {Topics : Type} (sha1_16 : string -> string)
  (publish : string -> list (string * JValue) -> option SummaryRef -> Topics -> Topics * PublishAnswer).

Definition compactEntryEventId (entry : list (string * JValue)) : list (string * JValue) :=
  match prop entry "eventId" with
  | J_str id =>
      if (String.length id <=? MAX_TOPIC_EVENT_ID)%nat then entry
      else map_set "eventId" (J_str (String.substring 0 (MAX_TOPIC_EVENT_ID - 17) id ++ "#" ++ sha1_16 id)) entry
  | _ => entry
  end.

Record PublishTarget : Set := { pt_meshId : string; pt_entry : list (string * JValue); pt_ref : option SummaryRef }.

Definition publishable (row : TurnEventRow) : option PublishTarget :=
  match pl_entry (er_payload row), nullish_or (er_meshId row) (pl_meshId (er_payload row)) with
  | Some entry, Some meshId =>
      if bool_decide (meshId = "") then None
      else Some {| pt_meshId := meshId; pt_entry := compactEntryEventId entry; pt_ref := pl_ref (er_payload row) |}
  | _, _ => None
  end.

Record PublishReport : Set := { pr_published : nat; pr_failed : nat; pr_pending : nat }.

(** One drain: the tables, the topics, the meshes a failure blocked, and the
    report so far. *)
Record DrainState : Type := {
  dn_db : Db; dn_topics : Topics; dn_blocked : list string; dn_published : nat; dn_failed : nat }.

(** One row of a batch; whether it was published. *)
Definition drain_row (st : DrainState) (row : TurnEventRow) : DrainState * bool :=
  match publishable row with
  | None => (st, false)
  | Some target =>
      if bool_decide (pt_meshId target ∈ dn_blocked st) then (st, false)
      else
        let '(topics, answer) := publish (pt_meshId target) (pt_entry target) (pt_ref target) (dn_topics st) in
        let st := {| st with dn_topics := topics |} in
        match answer with
        | Pa_appended writer seq =>
            ({| st with dn_db := markPublished (er_eventId row) writer seq (dn_db st);
                        dn_published := S (dn_published st) |}, true)
        | Pa_refused => ({| st with dn_db := markPublishRefused (er_eventId row) (dn_db st); dn_failed := S (dn_failed st) |}, false)
        | Pa_failed => ({| st with dn_blocked := dn_blocked st ++ [pt_meshId target]; dn_failed := S (dn_failed st) |}%list, false)
        end
  end.

Fixpoint drain_rows (rows : list TurnEventRow) (st : DrainState) (progressed : nat) : DrainState * nat :=
  match rows with
  | [] => (st, progressed)
  | row :: rows => let '(st', ok) := drain_row st row in drain_rows rows st' (if ok : bool then S progressed else progressed)
  end.

(** Batches until one is short or makes no progress. *)
Fixpoint drain_loop (fuel : nat) (st : DrainState) : option DrainState :=
  match fuel with
  | O => None
  | S fuel =>
      let rows := pendingPublish PUBLISH_BATCH (dn_db st) in
      let '(st', progressed) := drain_rows rows st 0 in
      if (length rows <? PUBLISH_BATCH)%nat || (progressed =? 0)%nat then Some st' else drain_loop fuel st'
  end.

(** Every further batch published a row, so the pending rows bound them. *)
Definition drain (db : Db) (topics : Topics) : option (Db * Topics * PublishReport) :=
  match drain_loop (S (countPendingPublish None db))
          {| dn_db := db; dn_topics := topics; dn_blocked := []; dn_published := 0; dn_failed := 0 |} with
  | Some st => Some (dn_db st, dn_topics st,
      {| pr_published := dn_published st; pr_failed := dn_failed st; pr_pending := countPendingPublish None (dn_db st) |})
  | None => None
  end.
End Drain.
