(* ===== verification/StoreFacts.v ===== *)
(** * Facts of the turn store

    What the ledger relies on of the statements of [TurnStore]: a stored attempt
    reads back, statements about one attempt leave the others alone, the active
    holds after a sync are the ones given, events are only added. *)

From stdpp Require Import sorting.
From S2P Require Import Prelude TurnEvidence Vocabulary TurnPolicy TurnTypes EvidenceGuard Guards Reducer LedgerInv TurnStore TurnLedger.

#[local] Open Scope string_scope.
#[local] Open Scope Z_scope.

(** ** Keyed rows

    A table whose rows have a key: finding and replacing by key. *)

Section Keyed.
Context {A : Type} (key : A -> string).
Implicit Types (x y : A) (l : list A) (k : string).

Definition with_key k x : bool := bool_decide (key x = k).

Lemma find_key_Some k l x : List.find (with_key k) l = Some x -> x ∈ l /\ key x = k.
Proof. intros [Hin E]%find_some. apply bool_decide_eq_true in E. by rewrite list_elem_of_In. Qed.

Lemma find_key_None k l : List.find (with_key k) l = None <-> k ∉ map key l.
Proof.
  induction l as [|x l IH]; cbn; [by split; [intros _ H; inversion H|]|].
  unfold with_key at 1. case_bool_decide as E.
  - split; [done|]. intros []. rewrite E. by left.
  - rewrite IH, not_elem_of_cons. naive_solver.
Qed.

Lemma find_key_In k l x : NoDup (map key l) -> x ∈ l -> key x = k -> List.find (with_key k) l = Some x.
Proof.
  intros Hnd Hin <-. induction l as [|y l IH]; [by inversion Hin|]. cbn in *.
  apply NoDup_cons in Hnd as [Hn Hnd]. apply elem_of_cons in Hin as [->|Hin].
  - unfold with_key. by rewrite bool_decide_true.
  - unfold with_key at 1. rewrite bool_decide_false; [by apply IH|]. intros E. apply Hn. rewrite E.
    by apply list_elem_of_fmap_2.
Qed.

(** Replacing the row of a key by one with the same key. *)
Lemma replace_keys k (f : A -> A) l :
  (forall x, key x = k -> key (f x) = k) ->
  map key (map (fun x => if decide (key x = k) then f x else x) l) = map key l.
Proof.
  intros Hf. rewrite map_map. apply map_ext. intros x. case_decide as E; [|done]. by rewrite Hf.
Qed.

Lemma replace_elem k (f : A -> A) l y :
  y ∈ map (fun x => if decide (key x = k) then f x else x) l <->
  (y ∈ l /\ key y <> k) \/ exists x, x ∈ l /\ key x = k /\ y = f x.
Proof.
  rewrite list_elem_of_In, in_map_iff. setoid_rewrite list_elem_of_In. split.
  - intros (x & <- & Hx). case_decide; eauto.
  - intros [[Hy Hk]|(x & Hx & Hk & ->)]; eexists; (split; [|done]); by case_decide.
Qed.

Lemma filter_elem (P : A -> bool) l x : x ∈ List.filter P l <-> x ∈ l /\ P x = true.
Proof. by rewrite !list_elem_of_In, filter_In. Qed.

Lemma existsb_elem (P : A -> bool) l : existsb P l = false <-> forall x, x ∈ l -> P x = false.
Proof.
  split.
  - intros H x Hx%list_elem_of_In. destruct (P x) eqn:E; [|done]. rewrite <- H. symmetry. apply existsb_exists. eauto.
  - intros H. apply not_true_is_false. intros (x & Hx & E)%existsb_exists. apply list_elem_of_In in Hx. by rewrite H in E.
Qed.
End Keyed.

(** ** Ordered rows *)

Section OrderBy.
Context {A : Type} (R : A -> A -> Prop) `{forall x y, Decision (R x y)}.
Implicit Types (x y : A) (l : list A).

Lemma insert_row_perm x l : insert_row R x l ≡ₚ x :: l.
Proof.
  induction l as [|y l IH]; [done|]. cbn. case_decide; [done|]. rewrite IH. apply Permutation_swap.
Qed.

Lemma order_by_perm l : order_by R l ≡ₚ l.
Proof. induction l as [|x l IH]; [done|]. cbn. by rewrite insert_row_perm, IH. Qed.

Context {HT : Transitive R} {HR : forall x y, R x y \/ R y x}.

Lemma insert_row_sorted x l : StronglySorted R l -> StronglySorted R (insert_row R x l).
Proof.
  induction 1 as [|y l Hs IH Hf]; cbn; [by repeat constructor|]. case_decide as E.
  - constructor; [by constructor|]. constructor; [done|]. eapply Forall_impl; [exact Hf|]. intros z. by apply HT.
  - constructor; [done|]. rewrite insert_row_perm. constructor; [|done]. by destruct (HR x y).
Qed.

Lemma order_by_sorted l : StronglySorted R (order_by R l).
Proof. induction l; [constructor|]. by apply insert_row_sorted. Qed.

Lemma insert_row_first x l : Forall (R x) l -> insert_row R x l = x :: l.
Proof. destruct 1; cbn; [done|]. by rewrite decide_True. Qed.

(** Selecting rows commutes with ordering them. *)
Lemma insert_row_filter (P : A -> bool) x l :
  StronglySorted R l ->
  List.filter P (insert_row R x l) = if P x then insert_row R x (List.filter P l) else List.filter P l.
Proof.
  induction 1 as [|y l Hs IH Hf]; cbn; [by destruct (P x)|]. case_decide as E.
  - cbn. destruct (P x) eqn:Px; [|done]. rewrite insert_row_first; [by destruct (P y)|].
    assert (Hx : Forall (R x) (y :: l)).
    { constructor; [done|]. eapply Forall_impl; [exact Hf|]. intros z. by apply HT. }
    apply Forall_forall. intros z Hz. rewrite Forall_forall in Hx. apply Hx.
    apply list_elem_of_In. apply list_elem_of_In in Hz. revert Hz. destruct (P y); cbn; rewrite ?filter_In; tauto.
  - cbn. destruct (P y) eqn:Py; rewrite IH; destruct (P x); cbn; rewrite ?Py, ?decide_False by done; done.
Qed.

Lemma order_by_filter (P : A -> bool) l : order_by R (List.filter P l) = List.filter P (order_by R l).
Proof.
  induction l as [|x l IH]; [done|]. cbn. rewrite insert_row_filter by apply order_by_sorted.
  destruct (P x); cbn; by rewrite IH.
Qed.
End OrderBy.

(** ** Attempts read back *)

Lemma attempt_reads_back a nowMs extras : attemptFromRow (row_of_attempt a nowMs extras) = a.
Proof.
  destruct a. unfold attemptFromRow, row_of_attempt. cbn.
  f_equal.
  - match goal with |- context [pg_sessionId <$> ?o] => destruct o as [[s c]|]; [|done] end. cbn. by destruct c.
  - by destruct a_coordinator.
  - match goal with |- _ = ?o => destruct o as [[]|]; done end.
Qed.

Lemma attempt_keeps_columns old new : attemptFromRow (keep_columns old new) = attemptFromRow new.
Proof. done. Qed.

Lemma row_id r : a_attemptId (attemptFromRow r) = ra_attempt_id r.
Proof. done. Qed.

(** The rows after an upsert: the attempt's own, and the others as they were. *)
Lemma upsert_rows a nowMs extras db db' :
  NoDup (map ra_attempt_id (db_attempts db)) -> upsertAttempt a nowMs extras db = Some db' ->
  exists row, attemptFromRow row = a /\ NoDup (map ra_attempt_id (db_attempts db'))
    /\ (forall r, r ∈ db_attempts db' <-> r = row \/ (r ∈ db_attempts db /\ ra_attempt_id r <> a_attemptId a))
    /\ (forall r, r ∈ db_attempts db -> ra_attempt_id r <> a_attemptId a -> clashes row r = false)
    /\ db_events db' = db_events db /\ db_holds db' = db_holds db.
Proof.
  intros Hnd. unfold upsertAttempt. case_match eqn:Hc; [done|]. intros [= <-]. cbn.
  set (new := row_of_attempt a nowMs extras) in *.
  assert (Hclash : forall r, r ∈ db_attempts db -> ra_attempt_id r <> a_attemptId a -> clashes new r = false).
  { intros r Hr Hk. rewrite existsb_elem in Hc. apply Hc, filter_elem. by rewrite bool_decide_false. }
  destruct (find_attempt (a_attemptId a) db) as [old|] eqn:Hf.
  - apply (find_key_Some ra_attempt_id) in Hf as [Hin Hid]. exists (keep_columns old new).
    split_and!; try done.
    + rewrite attempt_keeps_columns. apply attempt_reads_back.
    + by rewrite (replace_keys ra_attempt_id).
    + intros r. rewrite (replace_elem ra_attempt_id). split; [|naive_solver].
      intros [?|(x & Hx & Hk & ->)]; [by right|left]. f_equal.
      pose proof (find_key_In ra_attempt_id _ _ x Hnd Hx Hk) as H1.
      pose proof (find_key_In ra_attempt_id _ _ old Hnd Hin Hid) as H2. congruence.
  - pose proof (proj1 (find_key_None ra_attempt_id _ _) Hf) as Hn. exists new. split_and!; try done.
    + apply attempt_reads_back.
    + rewrite map_app. apply NoDup_app. split_and!; [done| |apply NoDup_singleton].
      by intros x Hx ->%list_elem_of_singleton.
    + intros r. rewrite elem_of_app, list_elem_of_singleton. split; [|naive_solver].
      intros [Hr|?]; [right|by left]. split; [done|]. intros E. apply Hn. rewrite <- E. by apply list_elem_of_fmap_2.
Qed.

Lemma find_attempt_key id db : find_attempt id db = List.find (with_key ra_attempt_id id) (db_attempts db).
Proof. done. Qed.

Lemma getAttempt_row id db a :
  getAttempt id db = Some a -> exists r, r ∈ db_attempts db /\ ra_attempt_id r = id /\ attemptFromRow r = a.
Proof.
  unfold getAttempt. destruct (find_attempt id db) as [r|] eqn:Hf; [|done]. intros [= <-].
  apply (find_key_Some ra_attempt_id) in Hf as []. eauto.
Qed.

Lemma getAttempt_In db r :
  NoDup (map ra_attempt_id (db_attempts db)) -> r ∈ db_attempts db ->
  getAttempt (ra_attempt_id r) db = Some (attemptFromRow r).
Proof.
  intros Hnd Hin. unfold getAttempt. rewrite find_attempt_key. by rewrite (find_key_In ra_attempt_id _ _ r Hnd Hin).
Qed.

Lemma getAttempt_id id db a : getAttempt id db = Some a -> a_attemptId a = id.
Proof. intros (r & _ & <- & <-)%getAttempt_row. done. Qed.

Lemma getAttempt_None id db : getAttempt id db = None <-> id ∉ map ra_attempt_id (db_attempts db).
Proof.
  rewrite <- (find_key_None ra_attempt_id). unfold getAttempt. rewrite find_attempt_key. by destruct (List.find _ _).
Qed.

(** Tables with the same rows answer alike. *)
Lemma getAttempt_same id db db' :
  NoDup (map ra_attempt_id (db_attempts db)) -> NoDup (map ra_attempt_id (db_attempts db')) ->
  (forall r, ra_attempt_id r = id -> r ∈ db_attempts db' <-> r ∈ db_attempts db) ->
  getAttempt id db' = getAttempt id db.
Proof.
  intros Hn Hn' H. destruct (getAttempt id db) as [a|] eqn:E.
  - apply getAttempt_row in E as (r & Hr & <- & <-). apply getAttempt_In; [done|]. by apply H.
  - destruct (getAttempt id db') as [a|] eqn:E'; [|done]. apply getAttempt_row in E' as (r & Hr & <- & <-).
    rewrite H in Hr by done. by rewrite (getAttempt_In _ _ Hn Hr) in E.
Qed.

Lemma getAttempt_upsert a nowMs extras db db' id :
  NoDup (map ra_attempt_id (db_attempts db)) -> upsertAttempt a nowMs extras db = Some db' ->
  getAttempt id db' = if decide (id = a_attemptId a) then Some a else getAttempt id db.
Proof.
  intros Hnd Hu. destruct (upsert_rows _ _ _ _ _ Hnd Hu) as (row & <- & Hnd' & Hrows & _).
  case_decide as E.
  - rewrite E. apply getAttempt_In; [done|]. apply Hrows. by left.
  - apply getAttempt_same; [done..|]. intros r Hr. rewrite Hrows. split; [|naive_solver].
    intros [->|[? _]]; [|done]. by rewrite <- Hr in E.
Qed.

(** ** Hold ids *)

(** The last colon of a hold id ends the attempt's id. *)
Lemma before_last_colon_none s : before_last_colon s = None -> forall p, before_last_colon (p ++ ":" ++ s) = Some p.
Proof.
  intros Hs. induction p as [|c p IH].
  - change (before_last_colon (String (Ascii.ascii_of_nat 58) s) = Some ""). cbn [before_last_colon]. by rewrite Hs.
  - change (before_last_colon (String c (p ++ ":" ++ s)) = Some (String c p)). cbn [before_last_colon]. by rewrite IH.
Qed.

Lemma before_last_colon_holdId id r : before_last_colon (holdId id r) = Some id.
Proof. apply before_last_colon_none. by destruct r. Qed.

Lemma holdId_attempt id id' r r' : holdId id r = holdId id' r' -> id = id'.
Proof.
  intros E. pose proof (before_last_colon_holdId id r) as H. rewrite E, before_last_colon_holdId in H. congruence.
Qed.

(** The attempt of an expired hold is found by the hold's id. *)
Lemma holdAttemptId_holdId id r : id <> "" -> holdAttemptId (holdId id r) = id.
Proof. intros Hid. unfold holdAttemptId. rewrite before_last_colon_holdId. by rewrite bool_decide_false. Qed.

(** ** Holds *)

Definition row_hold_id (h : HoldRow) : string := h_holdId (hr_hold h).

Definition active_row (h : TurnHold) : HoldRow := {| hr_hold := h; hr_active := true; hr_resolvedAt := None |}.

(** A hold table: ids are unique and name their attempt. *)
Record holds_wf (hs : list HoldRow) : Prop := {
  hw_nodup : NoDup (map row_hold_id hs);
  hw_owned : forall h, h ∈ hs -> row_hold_id h = holdId (h_attemptId (hr_hold h)) (h_reason (hr_hold h)) }.

Lemma resolve_ids nowMs id hs : map row_hold_id (resolve_hold nowMs id hs) = map row_hold_id hs.
Proof. unfold resolve_hold. rewrite map_map. apply map_ext. intros h. by case_match. Qed.

Lemma resolve_holds nowMs id hs : map hr_hold (resolve_hold nowMs id hs) = map hr_hold hs.
Proof. unfold resolve_hold. rewrite map_map. apply map_ext. intros h. by case_match. Qed.

Lemma resolve_active nowMs id hs h :
  hr_active h = true -> h ∈ resolve_hold nowMs id hs <-> h ∈ hs /\ row_hold_id h <> id.
Proof.
  intros Ha. unfold resolve_hold. rewrite !list_elem_of_In, in_map_iff. split.
  - intros (x & E & Hx). case_match eqn:Ec; [by subst|]. subst x. split; [done|]. intros E.
    unfold row_hold_id in E. by rewrite Ha, bool_decide_true in Ec.
  - intros [Hx Hn]. exists h. unfold row_hold_id in Hn. by rewrite bool_decide_false.
Qed.

Lemma holds_wf_same hs hs' : map hr_hold hs' = map hr_hold hs -> holds_wf hs -> holds_wf hs'.
Proof.
  intros E [Hn Ho]. split.
  - replace (map row_hold_id hs') with (map row_hold_id hs); [done|].
    unfold row_hold_id. by rewrite <- !(map_map hr_hold h_holdId), E.
  - intros h Hh. assert (Hin : hr_hold h ∈ map hr_hold hs) by (rewrite <- E; by apply list_elem_of_fmap_2).
    apply list_elem_of_fmap in Hin as (x & Ex & Hx). unfold row_hold_id. rewrite Ex. by apply Ho.
Qed.

Lemma resolve_all nowMs ids hs :
  let hs' := fold_left (fun hs h => resolve_hold nowMs (h_holdId h) hs) ids hs in
  map hr_hold hs' = map hr_hold hs
  /\ forall h, hr_active h = true -> h ∈ hs' <-> h ∈ hs /\ row_hold_id h ∉ map h_holdId ids.
Proof.
  cbv zeta. revert hs. induction ids as [|x ids IH]; intros hs; cbn [fold_left map].
  - split; [done|]. intros h _. split; [intros ?; split; [done|by apply not_elem_of_nil]|naive_solver].
  - destruct (IH (resolve_hold nowMs (h_holdId x) hs)) as [E1 E2]. rewrite E1, resolve_holds. split; [done|].
    intros h Ha. rewrite E2, resolve_active, not_elem_of_cons by done. naive_solver.
Qed.

Lemma upsert_hold_elem h hs x :
  NoDup (map row_hold_id hs) ->
  x ∈ upsert_hold h hs <-> x = active_row h \/ (x ∈ hs /\ row_hold_id x <> h_holdId h).
Proof.
  intros Hnd. unfold upsert_hold. case_match eqn:E.
  - apply existsb_exists in E as (y & Hy & Ey). apply list_elem_of_In in Hy. apply bool_decide_eq_true in Ey.
    rewrite (replace_elem row_hold_id). unfold row_hold_id at 2. naive_solver.
  - rewrite existsb_elem in E. rewrite elem_of_app, list_elem_of_singleton. split; [|naive_solver].
    intros [Hx| ->]; [|by left]. right. split; [done|]. specialize (E x Hx). by apply bool_decide_eq_false in E.
Qed.

Lemma upsert_hold_wf h hs :
  holds_wf hs -> h_holdId h = holdId (h_attemptId h) (h_reason h) -> holds_wf (upsert_hold h hs).
Proof.
  intros [Hn Ho] Hh. split.
  - unfold upsert_hold. case_match eqn:E; [by rewrite (replace_keys row_hold_id)|].
    rewrite existsb_elem in E. rewrite map_app. apply NoDup_app. split_and!; [done| |apply NoDup_singleton].
    intros x Hx ->%list_elem_of_singleton. apply list_elem_of_fmap in Hx as (y & Ey & Hy).
    apply E, bool_decide_eq_false in Hy. by unfold row_hold_id in Ey.
  - intros x [->|[Hx _]]%upsert_hold_elem; [done|by apply Ho|done].
Qed.

Lemma upsert_all holds hs :
  holds_wf hs -> NoDup (map h_holdId holds) ->
  Forall (fun h => h_holdId h = holdId (h_attemptId h) (h_reason h)) holds ->
  let hs' := fold_left (fun hs h => upsert_hold h hs) holds hs in
  holds_wf hs'
  /\ forall x, x ∈ hs' <-> (exists h, h ∈ holds /\ x = active_row h)
                           \/ (x ∈ hs /\ row_hold_id x ∉ map h_holdId holds).
Proof.
  cbv zeta. revert hs. induction holds as [|h holds IH]; intros hs Hw Hnd Hf; cbn [fold_left map].
  - split; [done|]. intros x. split; [|intros [(h & Hh & _)|[? _]]; [by apply elem_of_nil in Hh|done]].
    intros Hx. right. split; [done|by apply not_elem_of_nil].
  - cbn in Hnd. apply NoDup_cons in Hnd as [Hn Hnd]. inversion Hf as [|? ? Hh Hf']; subst.
    destruct (IH (upsert_hold h hs)) as [W E]; [by apply upsert_hold_wf|done..|]. split; [done|].
    intros x. rewrite E, upsert_hold_elem, not_elem_of_cons by apply Hw. split.
    + intros [(y & Hy & ->)|[[->|[Hx Hk]] Hx']].
      * left. exists y. split; [by right|done].
      * left. exists h. split; [by left|done].
      * by right.
    + intros [(y & [->|Hy]%elem_of_cons & ->)|(Hx & Hk & Hx')].
      * right. split; [by left|done].
      * left. eauto.
      * right. split; [by right|done].
Qed.

Lemma activeHolds_perm id db :
  activeHolds id db ≡ₚ map hr_hold (List.filter (active_of id) (db_holds db)).
Proof. unfold activeHolds. apply order_by_perm. Qed.

Lemma activeHolds_elem id db h :
  h ∈ activeHolds id db <->
  exists x, x ∈ db_holds db /\ hr_active x = true /\ h_attemptId (hr_hold x) = id /\ hr_hold x = h.
Proof.
  rewrite activeHolds_perm, list_elem_of_fmap. setoid_rewrite filter_elem. unfold active_of.
  setoid_rewrite andb_true_iff. setoid_rewrite bool_decide_eq_true. naive_solver.
Qed.

Lemma activeHolds_nodup id db : holds_wf (db_holds db) -> NoDup (map h_holdId (activeHolds id db)).
Proof.
  intros [Hn _]. rewrite (activeHolds_perm id db), map_map. by apply (NoDup_map_filter row_hold_id).
Qed.

(** Two hold lists with unique ids and the same members. *)
Lemma holds_perm hs hs' :
  NoDup (map h_holdId hs) -> NoDup (map h_holdId hs') -> (forall h, h ∈ hs <-> h ∈ hs') -> hs ≡ₚ hs'.
Proof. intros H1 H2. apply NoDup_Permutation; eapply NoDup_fmap_1; eassumption. Qed.

(** The holds of one attempt, as the reducer yields them. *)
Definition holds_of (id : string) (holds : list TurnHold) : Prop :=
  NoDup (map h_holdId holds)
  /\ Forall (fun h => h_attemptId h = id /\ h_holdId h = holdId id (h_reason h)) holds.

Lemma hold_ok_of a holds : Forall (hold_ok a) holds -> NoDup (map h_holdId holds) -> holds_of (a_attemptId a) holds.
Proof. intros H Hn. split; [done|]. eapply Forall_impl; [exact H|]. intros h []. done. Qed.

Section Sync.
Context (id : string) (holds : list TurnHold) (nowMs : Z) (db : Db).
Hypothesis Hw : holds_wf (db_holds db).
Hypothesis Hh : holds_of id holds.

Notation db' := (syncHolds id holds nowMs db).

Lemma sync_rows :
  holds_wf (db_holds db')
  /\ forall x, hr_active x = true ->
       x ∈ db_holds db' <-> (exists h, h ∈ holds /\ x = active_row h)
                            \/ (x ∈ db_holds db /\ h_attemptId (hr_hold x) <> id).
Proof.
  destruct Hh as [Hnd Hf]. unfold syncHolds. cbn.
  set (stale := List.filter _ _). destruct (resolve_all nowMs stale (db_holds db)) as [R1 R2].
  set (hs := fold_left _ stale _) in *.
  destruct (upsert_all holds hs) as [W E].
  { by apply (holds_wf_same (db_holds db)). }
  { done. }
  { eapply Forall_impl; [exact Hf|]. intros h [<- ?]. done. }
  split; [done|]. intros x Ha. rewrite E, R2 by done. split.
  - intros [?|[[Hx Hns] Hk]]; [by left|right]. split; [done|]. intros Hid. apply Hns.
    apply list_elem_of_fmap. exists (hr_hold x). split; [done|]. unfold stale. rewrite filter_elem. split.
    + apply activeHolds_elem. eauto.
    + by rewrite bool_decide_false.
  - intros [?|[Hx Hid]]; [by left|right].
    assert (Hother : forall h, h_attemptId h = id -> h_holdId h = holdId id (h_reason h) -> row_hold_id x <> h_holdId h).
    { intros h <- -> Ek. rewrite (hw_owned _ Hw x Hx) in Ek. by apply holdId_attempt in Ek. }
    split; [split; [done|]|]; intros (h & Ek & Hin)%list_elem_of_fmap.
    + unfold stale in Hin. rewrite filter_elem, activeHolds_elem in Hin. destruct Hin as [(y & Hy & _ & Hyid & <-) _].
      apply (Hother (hr_hold y)); [done| |done]. rewrite <- Hyid. by apply (hw_owned _ Hw y).
    + rewrite Forall_forall in Hf. destruct (Hf h Hin). by apply (Hother h).
Qed.

(** After a sync the attempt's active holds are the ones given. *)
Lemma sync_active : activeHolds id db' ≡ₚ holds.
Proof.
  destruct sync_rows as [W E]. destruct Hh as [Hnd Hf]. apply holds_perm; [by apply activeHolds_nodup|done|].
  intros h. rewrite activeHolds_elem. split.
  - intros (x & Hx & Ha & Hid & <-). apply E in Hx as [(y & Hy & ->)|[_ ?]]; done.
  - intros Hin. exists (active_row h). rewrite E by done. split_and!; eauto. rewrite Forall_forall in Hf. by apply Hf.
Qed.

(** The other attempts keep theirs. *)
Lemma sync_others id' : id' <> id -> activeHolds id' db' ≡ₚ activeHolds id' db.
Proof.
  intros Hne. destruct sync_rows as [W E]. destruct Hh as [_ Hf].
  apply holds_perm; [by apply activeHolds_nodup..|]. intros h. rewrite !activeHolds_elem.
  split; intros (x & Hx & Ha & Hid & <-); exists x.
  - apply E in Hx as [(y & Hy & ->)|[Hx _]]; [|done..]. rewrite Forall_forall in Hf.
    destruct (Hf y Hy) as [Hy' _]. cbn in Hid. congruence.
  - split_and!; try done. apply E; [done|]. right. split; [done|congruence].
Qed.
End Sync.

(** ** The invariant ignores the order of holds *)

Lemma find_hold_elem id holds :
  NoDup (map h_holdId holds) -> is_Some (find_hold id holds) <-> exists h, h ∈ holds /\ h_holdId h = id.
Proof.
  intros Hnd. split.
  - intros [h Hf]. apply find_hold_In in Hf as [Hin E]. rewrite <- list_elem_of_In in Hin. eauto.
  - intros (h & Hin & E). exists h. by apply (find_key_In h_holdId).
Qed.

Lemma ledger_ok_perm a hs hs' : hs ≡ₚ hs' -> ledger_ok a hs -> ledger_ok a hs'.
Proof.
  intros Hp [K1 K2 K3 K4 K5].
  assert (Hnd : NoDup (map h_holdId hs')) by by rewrite <- Hp.
  assert (Hc : is_Some (find_hold (ceiling_id a) hs) -> is_Some (find_hold (ceiling_id a) hs')).
  { rewrite !find_hold_elem by done. setoid_rewrite Hp. done. }
  constructor; try done; [by rewrite <- Hp|]. unfold state_ok in *.
  repeat case_match; try naive_solver. destruct K5 as [? ->]. split; [done|]. symmetry. by apply Permutation_nil_l.
Qed.

(** The owner of an attempt is no part of it. *)
Lemma ledger_ok_owner a hs o : ledger_ok a hs -> ledger_ok {| a with a_ownerDaemonId := o |} hs.
Proof.
  intros [K1 K2 K3 K4 K5]. constructor; try done. eapply Forall_impl; [exact K1|]. intros h Hh.
  by apply (hold_ok_ident a).
Qed.

(** ** Events *)

(** The commits recorded of an attempt: their generation and outcome. *)
Definition commit_of (id : string) (e : TurnEventRow) : option (option Z * option string) :=
  if bool_decide (er_kind e = "committed") && bool_decide (er_attemptId e = Some id)
  then Some (er_generation e, er_toState e) else None.

Definition commits_of (id : string) (db : Db) : list (option Z * option string) := omap (commit_of id) (db_events db).

(** Only events were added, and no row lost its id. *)
Definition event_ids (db : Db) : list string := map er_eventId (db_events db).

Lemma hasEvent_ids id db : hasEvent id db = true <-> id ∈ event_ids db.
Proof.
  unfold hasEvent, find_event, event_ids.
  destruct (List.find _ _) as [e|] eqn:E; cbn.
  - split; [|done]. intros _. apply (find_key_Some er_eventId) in E as [Hin <-]. by apply list_elem_of_fmap_2.
  - apply (find_key_None er_eventId) in E. by split.
Qed.

Record insert_spec (row : TurnEventRow) (db db' : Db) : Prop := {
  is_attempts : db_attempts db' = db_attempts db;
  is_holds : db_holds db' = db_holds db;
  is_events : db_events db' = (db_events db ++ [{| row with er_publishedSeq := None |}])%list }.

Lemma insertEvent_inv row db b db' :
  insertEvent row db = (b, db') ->
  if b then insert_spec row db db' /\ existsb (event_clash row) (db_events db) = false
  else db' = db /\ existsb (event_clash row) (db_events db) = true.
Proof. unfold insertEvent. case_match; intros [= <- <-]; split; try done. Qed.

Lemma insert_commits row db db' id :
  insert_spec row db db' ->
  commits_of id db' = (commits_of id db ++ match commit_of id row with Some c => [c] | None => [] end)%list.
Proof.
  intros [_ _ E]. unfold commits_of. rewrite E, omap_app. cbn.
  change (commit_of id {| row with er_publishedSeq := None |}) with (commit_of id row). by destruct (commit_of id row).
Qed.

(** An update of event rows that keeps what the invariants read. *)
Definition same_event (e e' : TurnEventRow) : Prop :=
  er_eventId e' = er_eventId e /\ er_attemptId e' = er_attemptId e /\ er_generation e' = er_generation e
  /\ er_kind e' = er_kind e /\ er_dedupeKey e' = er_dedupeKey e /\ er_toState e' = er_toState e.

Lemma same_event_refl e : same_event e e.
Proof. by repeat split. Qed.

Lemma same_event_clash e e1 e2 : same_event e1 e2 -> event_clash e e2 = event_clash e e1.
Proof. intros (E1 & E2 & E3 & E4 & E5 & _). unfold event_clash. by rewrite E1, E2, E3, E4, E5. Qed.

Lemma same_events_commits id es es' : Forall2 same_event es es' -> omap (commit_of id) es' = omap (commit_of id) es.
Proof.
  induction 1 as [|e e' es es' (E1 & E2 & E3 & E4 & E5 & E6) _ IH]; cbn; [done|].
  assert (Ec : commit_of id e' = commit_of id e) by (unfold commit_of; by rewrite E2, E3, E4, E6).
  by rewrite Ec, IH.
Qed.

Lemma same_events_ids es es' : Forall2 same_event es es' -> map er_eventId es' = map er_eventId es.
Proof. induction 1 as [|e e' es es' [E _] _ IH]; cbn; congruence. Qed.

Lemma map_same_events (f : TurnEventRow -> TurnEventRow) es :
  (forall e, same_event e (f e)) -> Forall2 same_event es (map f es).
Proof. intros Hf. induction es; cbn; constructor; auto. Qed.

Lemma set_payload_same id p db : Forall2 same_event (db_events db) (db_events (set_payload id p db)).
Proof. apply map_same_events. intros e. case_decide; by repeat split. Qed.

(** What recording evidence leaves. *)
Lemma recordEvidence_inv row db b db' :
  recordEvidence row db = (b, db') ->
  if b then insert_spec row db db' /\ existsb (event_clash row) (db_events db) = false
            \/ (db_attempts db' = db_attempts db /\ db_holds db' = db_holds db
                /\ Forall2 same_event (db_events db) (db_events db') /\ is_Some (livenessSampleKey row))
  else db' = db.
Proof.
  assert (Hins : insertEvent row db = (b, db') ->
    if b then insert_spec row db db' /\ existsb (event_clash row) (db_events db) = false
            \/ (db_attempts db' = db_attempts db /\ db_holds db' = db_holds db
                /\ Forall2 same_event (db_events db) (db_events db') /\ is_Some (livenessSampleKey row))
    else db' = db).
  { intros H%insertEvent_inv. destruct b; [by left|apply H]. }
  unfold recordEvidence. destruct (livenessSampleKey row) as [key|] eqn:Hk; [|done].
  destruct b; repeat case_match; try done; intros [= <-]; try done.
  all: right; split_and!; [done|done|apply set_payload_same|by eexists].
Qed.
