(* ===== verification/StoreInv.v ===== *)
(** * The invariant of the turn store

    [db_ok]: attempt ids are unique and no unique index is violated, every
    attempt with its active holds satisfies the ledger's invariant, and the
    commits recorded of an attempt are the one its terminal columns show.  Every
    write of the ledger keeps it. *)

From S2P Require Import Prelude TurnEvidence Vocabulary TurnPolicy TurnTypes EvidenceGuard Guards Reducer LedgerInv LedgerReduce LedgerContract LedgerVerdicts DaemonId TurnStore TurnEffects TurnLedger StoreFacts.

#[local] Open Scope string_scope.
#[local] Open Scope Z_scope.

(** ** Commits *)

(** The commit events an attempt in a phase has. *)
Definition phase_commits (p : Phase) : list (option Z * option string) :=
  match p with P_done g _ o => [(Some g, Some (spelling o))] | _ => [] end.

Definition verdict_commit (v : Verdict) : option (option Z * option string) :=
  match v with Vd_commit g o _ _ => Some (Some g, Some (spelling o)) | Vd_reclaim _ _ => None end.

Lemma step_commits p vs q : spec_step p vs q -> phase_commits q = (phase_commits p ++ omap verdict_commit vs)%list.
Proof. destruct 1; cbn; by rewrite ?app_nil_r. Qed.

(** The commit rows derived from effects are their commits. *)
Lemma effect_rows_commits ev a es nowMs by_ id :
  omap (commit_of id) (effectEventRows ev (Some a) es nowMs by_) =
    if decide (id = a_attemptId a) then omap verdict_commit (verdicts es) else [].
Proof.
  cbn [effectEventRows]. unfold verdicts.
  assert (Hrow : forall e, (effect_row ev a nowMs by_ e ≫= commit_of id)
                           = if decide (id = a_attemptId a) then verdict_of e ≫= verdict_commit else None).
  { intros e. destruct e; cbn; try by case_decide.
    - unfold commit_of. cbn. case_decide as E.
      + by rewrite (bool_decide_true (Some _ = Some id)) by congruence.
      + by rewrite (bool_decide_false (Some _ = Some id)) by congruence.
    - case_match; by case_decide. }
  induction es as [|e es IH]; [by case_decide|]. specialize (Hrow e). cbn.
  destruct (effect_row ev a nowMs by_ e), (verdict_of e); cbn in *; rewrite ?Hrow, ?IH; case_decide; try done.
  by rewrite <- Hrow.
Qed.

(** Evidence is never recorded as a commit. *)
Lemma evidence_not_commit ev v rl rj f t a ns now o p id :
  commit_of id (evidenceRow ev v rl rj f t a ns now o p) = None.
Proof. unfold commit_of. cbn. by destruct (ev_kind ev). Qed.

Lemma insert_rows_commits rows db db' :
  insert_rows rows db = inr db' ->
  db_attempts db' = db_attempts db /\ db_holds db' = db_holds db
  /\ forall id, commits_of id db' = (commits_of id db ++ omap (commit_of id) rows)%list.
Proof.
  revert db. induction rows as [|row rows IH]; intros db; cbn.
  { intros [= <-]. split_and!; try done. intros id. by rewrite app_nil_r. }
  destruct (insertEvent row db) as [[] db1] eqn:Hi; apply insertEvent_inv in Hi; cbn [negb andb].
  - intros H. destruct (IH _ H) as (-> & -> & Hk). destruct Hi as [Hs _].
    rewrite (is_attempts _ _ _ Hs), (is_holds _ _ _ Hs). split_and!; try done.
    intros id. rewrite Hk, (insert_commits _ _ _ _ Hs), <- app_assoc. by destruct (commit_of id row).
  - destruct Hi as [-> _]. destruct (bool_decide _) eqn:Hc; [done|]. intros H. destruct (IH _ H) as (-> & -> & Hk).
    split_and!; try done. intros id. rewrite Hk. unfold commit_of at 2. by rewrite Hc.
Qed.

(** ** The invariant *)

Record db_ok (db : Db) : Prop := {
  dk_ids : NoDup (map ra_attempt_id (db_attempts db));
  dk_unique : forall r1 r2, r1 ∈ db_attempts db -> r2 ∈ db_attempts db ->
                ra_attempt_id r1 <> ra_attempt_id r2 -> clashes r1 r2 = false;
  dk_holds : holds_wf (db_holds db);
  dk_stored : forall id a, getAttempt id db = Some a -> ledger_ok a (activeHolds id db);
  dk_commits : forall id, commits_of id db = phase_commits (phase (getAttempt id db)) }.

Lemma empty_db_ok : db_ok empty_db.
Proof. constructor; cbn; try done; [constructor|by intros ? ? ?%elem_of_nil|]. split; [constructor|by intros ? ?%elem_of_nil]. Qed.

(** Tables that agree on attempts, holds and commits. *)
Lemma db_ok_same db db' :
  db_attempts db' = db_attempts db -> db_holds db' = db_holds db ->
  (forall id, commits_of id db' = commits_of id db) -> db_ok db -> db_ok db'.
Proof.
  intros Ea Eh Ec [K1 K2 K3 K4 K5].
  assert (Eg : forall id, getAttempt id db' = getAttempt id db)
    by (intros id; unfold getAttempt, find_attempt; by rewrite Ea).
  assert (Ev : forall id, activeHolds id db' = activeHolds id db) by (intros id; unfold activeHolds; by rewrite Eh).
  constructor; rewrite ?Ea, ?Eh; try done; intros id; [rewrite Eg, Ev; apply K4|by rewrite Ec, Eg].
Qed.

Lemma clashes_sym r1 r2 : clashes r1 r2 = clashes r2 r1.
Proof.
  unfold clashes, task_clash, session_clash. f_equal.
  - destruct (ra_task_id r1), (ra_task_id r2), (ra_mesh_id r1), (ra_mesh_id r2); try done.
    rewrite (Z.eqb_sym (ra_attempt_no r1)). f_equal. f_equal; apply bool_decide_ext; naive_solver.
  - rewrite (andb_comm (is_open r1)). f_equal. apply bool_decide_ext. naive_solver.
Qed.

(** ** Storing an attempt *)

(** What a reduction may write for the stored [attempt]. *)
Definition fits (db : Db) (attempt : option TurnAttempt) (r : ReduceResult) : Prop :=
  match res_verdict r, res_attempt r with
  | V_applied, Some a =>
      ledger_ok a (res_holds r) /\ getAttempt (a_attemptId a) db = attempt
      /\ spec_step (phase attempt) (verdicts (res_effects r)) (phase (Some a))
  | _, _ => verdicts (res_effects r) = []
  end.

(** Only the attempt of this id, its holds and its commits may differ, and they
    are as the phase says. *)
Record Wrote (id : string) (a : option TurnAttempt) (db db' : Db) : Prop := {
  wr_ids : NoDup (map ra_attempt_id (db_attempts db'));
  wr_unique : forall r1 r2, r1 ∈ db_attempts db' -> r2 ∈ db_attempts db' ->
                ra_attempt_id r1 <> ra_attempt_id r2 -> clashes r1 r2 = false;
  wr_holds : holds_wf (db_holds db');
  wr_attempt : getAttempt id db' = a;
  wr_stored : forall a', a = Some a' -> ledger_ok a' (activeHolds id db');
  wr_others : forall id', id' <> id -> getAttempt id' db' = getAttempt id' db
                /\ activeHolds id' db' ≡ₚ activeHolds id' db /\ commits_of id' db' = commits_of id' db;
  wr_commits : commits_of id db' = phase_commits (phase a) }.

Lemma wrote_ok id a db db' : db_ok db -> Wrote id a db db' -> db_ok db'.
Proof.
  intros [K1 K2 K3 K4 K5] [W1 W2 W3 W4 W5 W6 W7]. constructor; try done.
  - intros id' a' Ha. destruct (decide (id' = id)) as [->|Hne]; [apply W5; congruence|].
    destruct (W6 id' Hne) as (E1 & E2 & _). apply (ledger_ok_perm _ (activeHolds id' db)); [done|].
    apply K4. congruence.
  - intros id'. destruct (decide (id' = id)) as [->|Hne]; [congruence|]. destruct (W6 id' Hne) as (E1 & _ & E3).
    rewrite E3, E1. apply K5.
Qed.

Lemma store_wrote db a nowMs holds db1 db' cs :
  db_ok db -> ledger_ok a holds -> upsertAttempt a nowMs no_extras db = Some db1 ->
  let id := a_attemptId a in let dbs := syncHolds id holds nowMs db1 in
  db_attempts db' = db_attempts dbs -> db_holds db' = db_holds dbs ->
  (forall id', commits_of id' db' = (commits_of id' db ++ if decide (id' = id) then cs else [])%list) ->
  (commits_of id db ++ cs)%list = phase_commits (phase (Some a)) -> Wrote id (Some a) db db'.
Proof.
  cbv zeta. intros [K1 K2 K3 K4 K5] Hok Hu.
  destruct (upsert_rows _ _ _ _ _ K1 Hu) as (row & Hrow & Hnd & Hrows & Hclash & He & Hh).
  set (id := a_attemptId a) in *. intros Ea Eh Ec Hc. cbn in Ea.
  assert (W : holds_wf (db_holds db1)) by by rewrite Hh.
  assert (Ho : holds_of id holds) by (apply hold_ok_of; apply Hok).
  assert (Hg : forall id', getAttempt id' db' = getAttempt id' db1)
    by (intros id'; unfold getAttempt, find_attempt; by rewrite Ea).
  assert (Hv : forall id', activeHolds id' db' = activeHolds id' (syncHolds id holds nowMs db1))
    by (intros id'; unfold activeHolds; by rewrite Eh).
  constructor.
  - by rewrite Ea.
  - rewrite Ea. intros r1 r2 H1 H2 Hne. apply Hrows in H1 as [->|[H1 N1]], H2 as [->|[H2 N2]]; try done.
    + by apply Hclash.
    + rewrite clashes_sym. by apply Hclash.
    + by apply K2.
  - rewrite Eh. by apply sync_rows.
  - rewrite Hg, (getAttempt_upsert _ _ _ _ _ _ K1 Hu). by rewrite decide_True.
  - intros a' [= <-]. apply (ledger_ok_perm _ holds); [|done]. rewrite Hv. symmetry. by apply sync_active.
  - intros id' Hne. split_and!.
    + rewrite Hg, (getAttempt_upsert _ _ _ _ _ _ K1 Hu). by rewrite decide_False.
    + rewrite Hv, sync_others by done. unfold activeHolds. by rewrite Hh.
    + rewrite Ec, decide_False by done. by rewrite app_nil_r.
  - by rewrite Ec, decide_True.
Qed.

(** Nothing of the attempts was written. *)
Lemma wrote_nothing id db db' :
  db_ok db -> db_attempts db' = db_attempts db -> db_holds db' = db_holds db ->
  (forall id', commits_of id' db' = commits_of id' db) -> Wrote id (getAttempt id db) db db'.
Proof.
  intros Hok Ea Eh Ec. pose proof (db_ok_same _ _ Ea Eh Ec Hok) as [K1 K2 K3 K4 K5].
  assert (Hg : forall id', getAttempt id' db' = getAttempt id' db)
    by (intros id'; unfold getAttempt, find_attempt; by rewrite Ea).
  assert (Hv : forall id', activeHolds id' db' = activeHolds id' db) by (intros id'; unfold activeHolds; by rewrite Eh).
  constructor; try done.
  - intros a' Ha. apply K4. by rewrite Hg.
  - intros id' _. rewrite Hg, Hv, Ec. done.
  - by rewrite K5, Hg.
Qed.

(** ** One step of the transaction *)

Section Steps.
Context {Host : Type} (deps : TurnLedgerDeps) (host : option (TurnTxnHost Host)).
Implicit Types (w : World (Host:=Host)) (ev : TurnEvidence) (r : ReduceResult).

(** The attempt a step writes. *)
Definition written (attempt : option TurnAttempt) r : option TurnAttempt :=
  match res_verdict r, res_attempt r with V_applied, Some a => Some a | _, _ => attempt end.

Lemma recorded_rows row db b db' :
  recordEvidence row db = (b, db') -> b = true -> (forall id, commit_of id row = None) ->
  db_attempts db' = db_attempts db /\ db_holds db' = db_holds db
  /\ forall id, commits_of id db' = commits_of id db.
Proof.
  intros Hr -> Hc. apply recordEvidence_inv in Hr as [[Hs _]|(Ea & Eh & He & _)].
  - split_and!; [apply Hs..|]. intros id. by rewrite (insert_commits _ _ _ _ Hs), Hc, app_nil_r.
  - split_and!; try done. intros id. by apply same_events_commits.
Qed.

(** The evidence row of a step. *)
Definition step_row ev (attempt : option TurnAttempt) r (nowMs : Z) (opts : ObserveOptions) : TurnEventRow :=
  evidenceRow ev (event_verdict (res_verdict r)) (res_rule r) (spell_rejection <$> res_rejection r)
    (a_state <$> attempt) (a_state <$> res_attempt r) (nullish_or (res_attempt r) attempt)
    (recordNotes (res_effects r)) nowMs opts None.

(** The writes of a step that committed. *)
Record Persisted ev attempt r opts nowMs w w' (step : Step) (db1 db2 : Db) (rows : list TurnEventRow) : Prop := {
  pe_stored : store_attempt r nowMs (w_db w) = Some db1;
  pe_recorded : recordEvidence (step_row ev attempt r nowMs opts) db1 = (true, db2);
  pe_inserted : insert_rows rows db2 = inr (w_db w');
  pe_rows : rows = [] /\ (res_verdict r = V_rejected \/ nullish_or (res_attempt r) attempt = None)
            \/ exists subject, nullish_or (res_attempt r) attempt = Some subject
                 /\ rows = effectEventRows ev (Some subject) (res_effects r) nowMs (e_observedBy ev);
  pe_step : s_result step = r /\ s_evidence step = ev }.

Lemma persist_inv ev attempt r opts nowMs w w' step :
  persist host ev attempt r opts nowMs w = inr (w', step) ->
  exists db1 db2 rows, Persisted ev attempt r opts nowMs w w' step db1 db2 rows.
Proof.
  unfold persist. destruct (store_attempt r nowMs (w_db w)) as [db1|] eqn:Hst; [|done].
  fold (step_row ev attempt r nowMs opts).
  destruct (recordEvidence _ db1) as [[] db2] eqn:Hrec; [|done]. cbn [negb].
  destruct (nullish_or (res_attempt r) attempt) as [subject|] eqn:Hs.
  - destruct (res_verdict r) eqn:Hv.
    3: { intros [= <- <-]. exists db1, db2, []. constructor; cbn; auto. }
    all: destruct (insert_rows _ db2) as [|db3] eqn:Hins; [done|]; intros H.
    all: exists db1, db2, (effectEventRows ev (Some subject) (res_effects r) nowMs (e_observedBy ev)).
    all: assert (w_db w' = db3 /\ s_result step = r /\ s_evidence step = ev) as (<- & ? & ?)
           by (repeat case_match; simplify_eq; done).
    all: constructor; eauto.
  - intros H. exists db1, db2, [].
    assert (w_db w' = db2 /\ s_result step = r /\ s_evidence step = ev) as (<- & ? & ?)
      by (repeat case_match; simplify_eq; done).
    constructor; auto.
Qed.

(** What a step writes, when its result fits the tables. *)
Lemma persist_wrote ev attempt r opts nowMs w w' step :
  db_ok (w_db w) -> fits (w_db w) attempt r ->
  persist host ev attempt r opts nowMs w = inr (w', step) ->
  forall id, (forall a, written attempt r = Some a -> a_attemptId a = id) -> getAttempt id (w_db w) = attempt ->
    Wrote id (written attempt r) (w_db w) (w_db w').
Proof.
  intros Hok Hfit Hp id Hid Hg. apply persist_inv in Hp as (db1 & db2 & rows & [Hst Hrec Hins Hrows _]).
  destruct (recorded_rows _ _ _ _ Hrec eq_refl) as (Ea2 & Eh2 & Ec2); [intros; apply evidence_not_commit|].
  destruct (insert_rows_commits _ _ _ Hins) as (Ea3 & Eh3 & Ec3).
  assert (Hquiet : verdicts (res_effects r) = [] -> forall id', commits_of id' (w_db w') = commits_of id' db1).
  { intros Hv id'. rewrite Ec3, Ec2. destruct Hrows as [[-> _]|(a & _ & ->)]; [by rewrite app_nil_r|].
    rewrite effect_rows_commits, Hv. case_decide; by rewrite app_nil_r. }
  unfold store_attempt, fits, written in *.
  destruct (res_verdict r) eqn:Hv, (res_attempt r) as [a|] eqn:Ha.
  2-6: injection Hst as <-; rewrite <- Hg; apply wrote_nothing; eauto; congruence.
  destruct (upsertAttempt a nowMs no_extras (w_db w)) as [db0|] eqn:Hu; [|done]. injection Hst as <-.
  destruct Hfit as (Hl & Hga & Hs). specialize (Hid a eq_refl). subst id.
  assert (Hr : rows = effectEventRows ev (Some a) (res_effects r) nowMs (e_observedBy ev)).
  { destruct Hrows as [[_ [?|?]]|(a' & E & ->)]; [done..|]. by injection E as <-. }
  apply (store_wrote _ _ nowMs (res_holds r) db0 _ (omap verdict_commit (verdicts (res_effects r)))); try congruence.
  - intros id'. rewrite Ec3, Ec2, Hr, effect_rows_commits.
    destruct (upsert_rows _ _ _ _ _ (dk_ids _ Hok) Hu) as (_ & _ & _ & _ & _ & He & _).
    f_equal. unfold commits_of. cbn. by rewrite He.
  - rewrite (dk_commits _ Hok), Hga. symmetry. by apply step_commits.
Qed.

(** ** The attempt of a step *)

(** The attempt is stored, or evidence that opens one has a free id. *)
Definition resolved (db : Db) ev (attempt : option TurnAttempt) : Prop :=
  match attempt with
  | Some a => getAttempt (a_attemptId a) db = Some a
  | None => ev_kind ev ∈ [K_dispatch_accepted; K_turn_started] -> getAttempt (opening_id ev) db = None
  end.

(** A plain turn's id, made of its session and first event, is not taken. *)
Definition opening_free ev (db : Db) : Prop :=
  ev_kind ev = K_turn_started -> getAttempt (opening_id ev) db = None.

Lemma stored_of_row db row : NoDup (map ra_attempt_id (db_attempts db)) -> row ∈ db_attempts db ->
  getAttempt (a_attemptId (attemptFromRow row)) db = Some (attemptFromRow row).
Proof. intros Hn Hr. by apply getAttempt_In. Qed.

Lemma open_session_stored db s a :
  NoDup (map ra_attempt_id (db_attempts db)) -> findOpenAttemptForSession s db = Some a ->
  getAttempt (a_attemptId a) db = Some a /\ a_sessionId a = s /\ a_terminal a = None.
Proof.
  intros Hn. unfold findOpenAttemptForSession. destruct (List.find _ _) as [row|] eqn:E; [|done]. intros [= <-].
  apply find_some in E as [Hin E]. apply list_elem_of_In in Hin. breflect. split_and!; [by apply stored_of_row|done|].
  unfold is_open in *. cbn. by destruct (ra_terminal row).
Qed.

Lemma latest_task_stored db t a :
  NoDup (map ra_attempt_id (db_attempts db)) -> findLatestAttemptForTask None t db = Some a ->
  getAttempt (a_attemptId a) db = Some a.
Proof.
  intros Hn. unfold findLatestAttemptForTask. cbn [truthy_str]. destruct (head _) as [row|] eqn:E; [|done]. intros [= <-].
  apply stored_of_row; [done|]. apply head_Some_elem_of in E. rewrite order_by_perm in E.
  by apply filter_elem in E as [].
Qed.

Lemma getAttempt_stored db id a : getAttempt id db = Some a -> getAttempt (a_attemptId a) db = Some a.
Proof. intros H. by rewrite (getAttempt_id _ _ _ H). Qed.

Lemma resolve_resolved ev db : db_ok db -> opening_free ev db -> resolved db ev (resolveAttempt ev db).
Proof.
  intros Hok Hf. pose proof (dk_ids _ Hok) as Hn. unfold resolved.
  destruct (resolveAttempt ev db) as [a|] eqn:E.
  - revert E. unfold resolveAttempt. repeat case_match;
      eauto using getAttempt_stored, latest_task_stored; by intros []%open_session_stored.
  - intros Hk. destruct (decide (ev_kind ev = K_turn_started)) as [Hts|Hts]; [by apply Hf|].
    unfold opening_id, resolveAttempt, ev_kind in *. destruct (ev_body ev); cbn in *; try set_solver.
    by destruct (e_attemptRef ev).
Qed.

(** ** Results fit *)

Lemma verdicts_probe es a s : verdicts (es ++ [E_probe a s]) = verdicts es.
Proof. unfold verdicts. rewrite omap_app. cbn. by rewrite app_nil_r. Qed.

Lemma verdicts_uncancelled es : verdicts (List.filter (fun e => negb (is_cancel_dispatch e)) es) = verdicts es.
Proof. unfold verdicts. induction es as [|e es IH]; [done|]. destruct e; cbn; rewrite IH; done. Qed.

Lemma reduced_fits caps ev attempt nowMs db res :
  db_ok db -> resolved db ev attempt ->
  reduce (reduce_input deps caps ev attempt
            match attempt with Some a => activeHolds (a_attemptId a) db | None => [] end nowMs) = Some res ->
  fits db attempt res.
Proof.
  intros Hok Hres Hr. set (i := reduce_input _ _ _ _ _ _) in *.
  assert (Hin : input_ok i).
  { unfold input_ok. cbn. destruct attempt as [a|]; [|done]. by apply (dk_stored _ Hok). }
  destruct (reduce_stored i Hin) as (res' & Hr' & Hst). rewrite Hr in Hr'. injection Hr' as <-.
  pose proof (reduce_id i res Hin Hr) as Hid. pose proof (reduce_spec i res Hin Hr) as Hsp.
  unfold fits. destruct (decide (res_verdict res = V_applied)) as [Hv|Hv].
  - rewrite Hv. destruct (res_attempt res) as [a|] eqn:Ha.
    + split_and!; [done| |done]. cbn in Hid. destruct attempt as [a0|]; cbn in Hid.
      * by rewrite Hid.
      * destruct Hid as [-> Hk]. by apply Hres.
    + cbn in Hsp. inversion Hsp. done.
  - rewrite verdicts_observed. destruct (not_applied_unchanged i res Hin Hr Hv) as (_ & _ & ->).
    by destruct (res_verdict res).
Qed.

Lemma adjusted_fits attempt probe nested db res :
  fits db attempt res -> fits db attempt (adjust_result deps attempt probe nested res).
Proof.
  intros Hf.
  assert (H1 : fits db attempt (add_probe attempt probe res)).
  { unfold add_probe. destruct attempt as [a|], probe; try done. unfold fits in *. cbn. by rewrite verdicts_probe. }
  unfold adjust_result. set (r1 := add_probe attempt probe res) in *.
  assert (H2 : fits db attempt (if opens attempt r1
    then {| r1 with res_attempt := (fun a => {| a with a_ownerDaemonId := dp_selfDaemonId deps |}) <$> res_attempt r1 |}
    else r1)).
  { destruct (opens attempt r1); [|done]. unfold fits in *. cbn. destruct (res_verdict r1), (res_attempt r1); try done.
    cbn. destruct H1 as (? & ? & ?). split_and!; [by apply ledger_ok_owner|done..]. }
  set (r2 := if opens attempt r1 then _ else _) in *. destruct nested; [|done].
  unfold fits in *. cbn. by rewrite verdicts_uncancelled.
Qed.

(** ** Steps keep the invariant *)

Lemma refused_fits db attempt : fits db attempt refused_result.
Proof. done. Qed.

(** The id a step writes. *)
Lemma written_id db ev attempt r :
  resolved db ev attempt -> fits db attempt r ->
  exists id, (forall a, written attempt r = Some a -> a_attemptId a = id) /\ getAttempt id db = attempt
    \/ attempt = None /\ written attempt r = None.
Proof.
  intros Hres Hf. unfold written, fits in *. destruct (res_verdict r), (res_attempt r) as [a|];
    try (destruct attempt as [a0|]; [exists (a_attemptId a0); left; split; [by intros ? [= <-]|done]|by exists ""; right]).
  destruct Hf as (_ & Hg & _). exists (a_attemptId a). left. split; [by intros ? [= <-]|done].
Qed.

Lemma persist_keeps ev0 ev attempt r opts nowMs w w' step :
  db_ok (w_db w) -> resolved (w_db w) ev0 attempt -> fits (w_db w) attempt r ->
  persist host ev attempt r opts nowMs w = inr (w', step) -> db_ok (w_db w').
Proof.
  intros Hok Hres Hf Hp. destruct (written_id _ _ _ _ Hres Hf) as (id & [[Hid Hg]|[-> Hw]]).
  - eapply wrote_ok; [exact Hok|]. by eapply persist_wrote.
  - apply persist_inv in Hp as (db1 & db2 & rows & [Hst Hrec Hins Hrows _]).
    unfold store_attempt, written, fits in *.
    destruct (recorded_rows _ _ _ _ Hrec eq_refl) as (Ea2 & Eh2 & Ec2); [intros; apply evidence_not_commit|].
    destruct (insert_rows_commits _ _ _ Hins) as (Ea3 & Eh3 & Ec3).
    assert (db1 = w_db w /\ verdicts (res_effects r) = []) as [-> Hv]
      by (destruct (res_verdict r), (res_attempt r); by simplify_eq).
    apply (db_ok_same (w_db w)); try congruence. intros id'. rewrite Ec3, Ec2.
    destruct Hrows as [[-> _]|(a & _ & ->)]; [by rewrite app_nil_r|].
    rewrite effect_rows_commits, Hv. case_decide; by rewrite app_nil_r.
Qed.

(** Closing a superseded turn touches only that turn. *)
Lemma nested_keeps caps ev c opts nowMs w w' steps :
  db_ok (w_db w) -> getAttempt (a_attemptId c) (w_db w) = Some c ->
  nestedStep deps host caps ev (Some c) opts nowMs w = inr (w', steps) ->
  db_ok (w_db w') /\ forall id, id <> a_attemptId c -> getAttempt id (w_db w') = getAttempt id (w_db w).
Proof.
  intros Hok Hc. unfold nestedStep, step_with.
  destruct (background_guard _ _ _ _) as [ev' probe]. destruct (reduce _) as [res|] eqn:Hr; [|done].
  pose proof (adjusted_fits (Some c) probe true _ _ (reduced_fits caps ev' (Some c) _ _ _ Hok Hc Hr)) as Hf.
  set (r := adjust_result _ _ _ _ _) in *. destruct (persist _ _ _ _ _ _ _) as [|[w1 step]] eqn:Hp; [done|].
  intros [= <- _]. split; [exact (persist_keeps ev' _ (Some c) _ _ _ _ _ _ Hok Hc Hf Hp)|]. intros id Hne.
  eapply wr_others; [|exact Hne]. eapply persist_wrote; [exact Hok|exact Hf|exact Hp| |done].
  intros a. unfold written, fits in *.
  destruct (res_verdict r), (res_attempt r) as [a'|]; intros [= <-]; try done. destruct Hf as (_ & Hg & _).
  by apply getAttempt_id in Hg.
Qed.

Lemma conflict_keeps caps nowMs ev ev0 attempt r w w' steps r' :
  db_ok (w_db w) -> resolved (w_db w) ev0 attempt -> fits (w_db w) attempt r ->
  resolve_conflict deps host caps nowMs ev attempt r w = inr (w', steps, r') ->
  db_ok (w_db w') /\ resolved (w_db w') ev0 attempt /\ fits (w_db w') attempt r'.
Proof.
  intros Hok Hres Hf. unfold resolve_conflict.
  destruct (conflicting attempt r (w_db w)) as [c|] eqn:Hc; [|by intros [= <- <- <-]].
  assert (Hc' : getAttempt (a_attemptId c) (w_db w) = Some c
    /\ exists a, res_attempt r = Some a /\ a_attemptId c <> a_attemptId a /\ res_verdict r = V_applied).
  { unfold conflicting in Hc. destruct (res_attempt r) as [a|] eqn:Ha; [|done].
    destruct (opens attempt r || moves attempt r) eqn:Hom; [|done].
    destruct (findOpenAttemptForSession _ _) as [c'|] eqn:Hs; [|done]. case_bool_decide; [done|]. injection Hc as <-.
    apply open_session_stored in Hs as (? & _); [|apply Hok]. split; [done|]. exists a. split_and!; try done.
    unfold opens, moves in Hom. rewrite Ha in Hom. apply orb_true_iff in Hom as [Hom|Hom].
    - by breflect.
    - destruct attempt; [|done]. by breflect. }
  destruct Hc' as (Hg & a & Ha & Hne & Hv). destruct (a_scope c); try (intros [= <- <- <-]; done).
  destruct (nestedStep _ _ _ _ _ _ _ _) as [|[w1 steps1]] eqn:Hn; [done|]. intros [= <- <- <-].
  destruct (nested_keeps _ _ _ _ _ _ _ _ Hok Hg Hn) as [Hok' Hsame]. split; [done|].
  unfold fits in *. rewrite Hv, Ha in Hf |- *. destruct Hf as (Hl & Hga & Hsp).
  assert (Hga' : getAttempt (a_attemptId a) (w_db w1) = attempt) by (rewrite Hsame by congruence; done).
  split; [|done]. unfold resolved in *. destruct attempt as [a0|].
  - apply getAttempt_id in Hga as Hid. by rewrite Hid.
  - intros Hk. specialize (Hres Hk). destruct (decide (opening_id ev0 = a_attemptId c)) as [E|Hne']; [congruence|].
    by rewrite Hsame.
Qed.

(** The evidence a step reduces opens what the observed one does. *)
Lemma guarded_resolved db attempt ev opts ev' probe :
  background_guard deps attempt ev opts = (ev', probe) -> resolved db ev attempt -> resolved db ev' attempt.
Proof. unfold background_guard, resolved. destruct attempt; [done|]. by intros [= <- _]. Qed.

Lemma applyStep_keeps caps ev attempt opts nowMs w w' steps :
  db_ok (w_db w) -> resolved (w_db w) ev attempt ->
  applyStep deps host caps ev attempt opts nowMs w = inr (w', steps) -> db_ok (w_db w').
Proof.
  intros Hok Hres. unfold applyStep, step_with.
  destruct (background_guard _ _ _ _) as [ev' probe] eqn:Hb. pose proof (guarded_resolved _ _ _ _ _ _ Hb Hres) as Hres'.
  destruct (reduce _) as [res|] eqn:Hr; [|done].
  pose proof (adjusted_fits attempt probe false _ _ (reduced_fits caps ev' attempt _ _ _ Hok Hres' Hr)) as Hf.
  destruct (resolve_conflict _ _ _ _ _ _ _ _) as [|[[w1 steps1] r1]] eqn:Hc; [done|].
  destruct (conflict_keeps _ _ _ ev' _ _ _ _ _ _ Hok Hres' Hf Hc) as (Hok1 & Hres1 & Hf1).
  destruct (persist _ _ _ _ _ _ _) as [|[w2 step]] eqn:Hp; [done|]. intros [= <- _].
  exact (persist_keeps ev' _ _ _ _ _ _ _ _ Hok1 Hres1 Hf1 Hp).
Qed.

(** ** Observing keeps the invariant *)

Lemma insert_keeps row w : (forall id, commit_of id row = None) -> db_ok (w_db w) -> db_ok (w_db (insert_in row w)).
Proof.
  intros Hc Hok. unfold insert_in. cbn. destruct (insertEvent row (w_db w)) as [b db'] eqn:Hi.
  apply insertEvent_inv in Hi. cbn. destruct b; [|by destruct Hi as [-> _]]. destruct Hi as [Hs _].
  apply (db_ok_same (w_db w)); [apply Hs..| |done]. intros id. by rewrite (insert_commits _ _ _ _ Hs), Hc, app_nil_r.
Qed.

Lemma forward_keeps ev owner nowMs opts w : db_ok (w_db w) -> db_ok (w_db (fst (forward ev owner nowMs opts w))).
Proof.
  intros Hok. unfold forward. case_match; cbn [fst]; apply insert_keeps; try done; intros; apply evidence_not_commit.
Qed.

(** Re-evaluated evidence opens nothing. *)
Lemma forced_kind ev id ev' : forceLiveFalse ev id = Some ev' -> ev_kind ev' ∈ [K_transcript_final; K_turn_end].
Proof. unfold forceLiveFalse. destruct (ev_body ev); intros [= <-]; cbn; set_solver. Qed.

Lemma reevaluated_kind step e db ev : reevaluated step e db = Some ev -> ev_kind ev ∈ [K_transcript_final; K_turn_end].
Proof. unfold reevaluated. repeat case_match; try done. apply forced_kind. Qed.

Lemma reevaluations_keep again step es w w' calls t :
  (forall ev w o, ev_kind ev ∈ [K_transcript_final; K_turn_end] -> db_ok (w_db w) -> again ev w = Some o ->
     db_ok (w_db (od_world o))) ->
  db_ok (w_db w) -> run_reevaluations again step es w = Some (w', calls, t) -> db_ok (w_db w').
Proof.
  intros Hag. revert w w' calls t. induction es as [|e es IH]; intros w w' calls t Hok; cbn; [by intros [= <- _ _]|].
  destruct (reevaluated step e (w_db w)) as [ev|] eqn:He; [|by apply IH].
  destruct (again ev w) as [o|] eqn:Ho; [|done]. pose proof (Hag _ _ _ (reevaluated_kind _ _ _ _ He) Hok Ho) as Hok'.
  destruct (od_answer o); [by intros [= <- _ _]|].
  destruct (run_reevaluations again step es (od_world o)) as [[[w1 c1] t1]|] eqn:Hr; [|done]. intros [= <- _ _].
  by eapply IH.
Qed.

Lemma post_commit_keeps again nowMs steps w w' calls t :
  (forall ev w o, ev_kind ev ∈ [K_transcript_final; K_turn_end] -> db_ok (w_db w) -> again ev w = Some o ->
     db_ok (w_db (od_world o))) ->
  db_ok (w_db w) -> post_commit again nowMs steps w = Some (w', calls, t) -> db_ok (w_db w').
Proof.
  intros Hag. revert w w' calls t. induction steps as [|s steps IH]; intros w w' calls t Hok; cbn;
    [by intros [= <- _ _]|].
  case_bool_decide; [by apply IH|].
  destruct (run_reevaluations again s _ w) as [[[w1 c1] [t1|]]|] eqn:Hr; [| |done].
  - intros [= <- _ _]. by eapply reevaluations_keep.
  - destruct (post_commit again nowMs steps w1) as [[[w2 c2] t2]|] eqn:Hp; [|done]. intros [= <- _ _].
    eapply IH; [|exact Hp]. by eapply reevaluations_keep.
Qed.

Lemma observe_ok fuel caps opts ev w o :
  db_ok (w_db w) -> opening_free ev (w_db w) -> observe deps host fuel caps opts ev w = Some o ->
  db_ok (w_db (od_world o)).
Proof.
  revert ev w o. induction fuel as [|fuel IH]; intros ev w o Hok Hfree; cbn [observe]; [done|].
  destruct (negb (well_formed ev)); [by intros [= <-]|]. destruct (hasEvent _ _); [by intros [= <-]|].
  destruct (foreign_owner _ _ _) as [owner|].
  { pose proof (forward_keeps ev owner (dp_now deps (e_eventId ev)) opts w Hok) as Hk.
    destruct (forward _ _ _ _ _) as [w' r]. by intros [= <-]. }
  destruct (applyStep _ _ _ _ _ _ _ _) as [t|[w' steps]] eqn:Ha; [destruct t; by intros [= <-]|].
  pose proof (applyStep_keeps _ _ _ _ _ _ _ _ Hok (resolve_resolved _ _ Hok Hfree) Ha) as Hok'.
  destruct (post_commit _ _ _ _) as [[[w'' calls] t]|] eqn:Hp; [|done].
  assert (Hok'' : db_ok (w_db w'')).
  { eapply post_commit_keeps; [|exact Hok'|exact Hp]. intros ev' w1 o1 Hk Hok1 Ho. eapply IH; [exact Hok1| |exact Ho].
    intros E. rewrite E in Hk. set_solver. }
  destruct t; intros E; by simplify_eq.
Qed.
End Steps.
