(* ===== verification/StoreAnswers.v ===== *)
(** * What observing answers

    [observe] always answers: re-evaluated evidence asks for no further
    re-evaluation.  It never fails an assertion, a session index never throws,
    and evidence it stored is answered as a duplicate from then on. *)

From S2P Require Import Prelude TurnEvidence Vocabulary TurnPolicy TurnTypes EvidenceGuard Transitions Guards Reducer LedgerInv LedgerSteps LedgerSettle LedgerTable LedgerReduce LedgerContract LedgerVerdicts DaemonId TurnStore TurnEffects TurnLedger StoreFacts StoreInv.

#[local] Open Scope string_scope.
#[local] Open Scope Z_scope.

(** ** A cancel closes a plain turn *)

Definition cancel_rule : TransitionRule :=
  rule "R22" Lane_current From_nonterminal [K_cancel] None (To St_cancelled) V_applied
    [T_cancel_dispatch Target_current true; T_commit (TO O_cancelled) Str_operator TR_from_cancel false].

Lemma table_cancel s : open_state s = true -> laneCandidates Lane_current (Some s) K_cancel = [cancel_rule].
Proof. by destruct s; intros Hs; try discriminate Hs; vm_compute. Qed.

Lemma plain_open a hs :
  ledger_ok a hs -> a_scope a = Sc_plain -> a_terminal a = None ->
  open_state (a_state a) = true /\ isMeshScope a = false.
Proof.
  intros Hok Hs Ht. pose proof (lk_state _ _ Hok) as H. unfold state_ok, isMeshScope in *. rewrite Ht in H.
  rewrite Hs, bool_decide_false in * by (intros []; done). split; [|done].
  destruct (d_writerStop (a_data a)); [by destruct H as (_ & ? & _)|apply H].
Qed.

Lemma plain_cancelled i a0 reason eff :
  in_attempt i = Some a0 -> ledger_ok a0 (in_holds i) -> a_scope a0 = Sc_plain -> a_terminal a0 = None ->
  ev_body (in_evidence i) = cancel reason ->
  classifyLane (in_attempt i) (in_evidence i) (in_holds i) = Lane Lane_current eff ->
  exists res a t, reduce i = Some res /\ res_verdict res = V_applied /\ res_attempt res = Some a
    /\ a_terminal a = Some t /\ t_outcome t = O_cancelled /\ t_reason t = reason_of_cancel reason.
Proof.
  intros Ha Hok Hs Ht Hb Hl. destruct (plain_open _ _ Hok Hs Ht) as [Hop Hm].
  assert (Hrules : matchingRules i = [cancel_rule]).
  { unfold matchingRules, ev_kind. rewrite Hl, Ha, Hb. cbn [fmap option_fmap option_map kind_of].
    by rewrite table_cancel. }
  unfold reduce. rewrite Hl, bool_decide_false, Hrules; [|rewrite Ha; intros [= E]; by rewrite E in Hop]. cbn [andb].
  destruct (run_rule_wp i eff cancel_rule (CommittedAs a0 O_cancelled Str_operator (reason_of_cancel reason)))
    as (d & res & HC & Hr & [Y1 _ _] & Hv & _).
  - cbn [cancel_rule rule r_effects map seq_all].
    assert (HL : Live (eq a0) (ctx_of i eff) a0 (find_hold (ceiling_id a0) (in_holds i)) (start_draft i eff cancel_rule))
      by by apply start_live.
    apply wp_seq, applyTemplate_uncommitted; [done|]. cbn [apply_uncommitted].
    eapply wp_mono with (P := Live (eq a0) (ctx_of i eff) a0 (find_hold (ceiling_id a0) (in_holds i))).
    2: { apply (live_with_attempt _ _ _ HL). intros a _ _ <-. apply wp_reading. cbv zeta.
         repeat case_match; try done; by apply live_push. }
    intros d1 H1. apply wp_seq, applyTemplate_uncommitted; [apply H1|]. cbn [apply_uncommitted].
    apply (live_with_attempt _ _ _ H1). intros a Ha1 _ <-. apply wp_reading. cbn [resolve_outcome resolve_reason].
    unfold dr_ev. rewrite (lv_ctx _ _ _ _ _ H1). cbn [ctx_of c_evidence]. rewrite Hb. cbn [resolve_reason].
    apply (live_with_attempt _ _ _ H1). intros a Ha2 _ <-. apply wp_reading.
    unfold commit_needs_stop. rewrite Hm. cbn [andb].
    eapply wp_mono; [|by eapply commit_terminal_ok]. done.
  - rewrite apply_target_committed in Y1 by apply HC.
    destruct (cm_attempt _ _ _ _ _ HC) as (a & t & Hd & Htm & Ho & _ & Hrs & _). exists res, a, t.
    rewrite Y1. by split_and!.
Qed.

Section Answers.
Context {Host : Type} (deps : TurnLedgerDeps) (host : option (TurnTxnHost Host)).
Implicit Types (w : World (Host:=Host)) (ev : TurnEvidence) (r : ReduceResult).

(** ** Re-evaluations end *)

Definition no_reevaluations (es : list TurnEffect) : Prop := Forall not_reevaluation es.

Lemma reduce_no_reevaluations i res :
  reduce i = Some res -> ev_kind (in_evidence i) <> K_hold_expired -> no_reevaluations (res_effects res).
Proof.
  intros Hr Hk. apply Forall_forall. intros e He. destruct e; cbn; try done. by eapply reduce_reevaluates in He.
Qed.

Lemma adjusted_no_reevaluations attempt probe nested res :
  no_reevaluations (res_effects res) -> no_reevaluations (res_effects (adjust_result deps attempt probe nested res)).
Proof.
  intros H. unfold adjust_result.
  assert (H1 : no_reevaluations (res_effects (add_probe attempt probe res))).
  { unfold add_probe. destruct attempt as [a|], probe; try done. cbn. apply Forall_app. by split; [|repeat constructor]. }
  assert (H2 : no_reevaluations (List.filter (fun e => negb (is_cancel_dispatch e)) (res_effects (add_probe attempt probe res)))).
  { apply Forall_forall. intros e [He _]%filter_elem. unfold no_reevaluations in H1. rewrite Forall_forall in H1. by apply H1. }
  by destruct (opens _ _), nested.
Qed.

Lemma guarded_kind attempt ev opts ev' probe :
  background_guard deps attempt ev opts = (ev', probe) -> ev_kind ev <> K_hold_expired -> ev_kind ev' <> K_hold_expired.
Proof.
  assert (Hh : forall a, ev_kind (held_back a ev) <> K_hold_expired) by (intros a; unfold held_back; by destruct (a_state a)).
  unfold background_guard. repeat case_match; intros [= <- _]; done.
Qed.

(** The results of a transaction's steps. *)
Lemma step_effects nested conflict caps ev attempt opts nowMs w w' steps :
  (forall ev r w w1 s1 r1, no_reevaluations (res_effects r) -> conflict ev attempt r w = inr (w1, s1, r1) ->
     no_reevaluations (res_effects r1) /\ Forall (fun s => no_reevaluations (res_effects (s_result s))) s1) ->
  ev_kind ev <> K_hold_expired ->
  step_with deps host nested conflict caps ev attempt opts nowMs w = inr (w', steps) ->
  Forall (fun s => no_reevaluations (res_effects (s_result s))) steps.
Proof.
  intros Hcf Hk. unfold step_with. destruct (background_guard _ _ _ _) as [ev' probe] eqn:Hb.
  destruct (reduce _) as [res|] eqn:Hr; [|done].
  pose proof (adjusted_no_reevaluations attempt probe nested _
    (reduce_no_reevaluations _ _ Hr (guarded_kind _ _ _ _ _ Hb Hk))) as Hn.
  destruct (conflict _ _ _ _) as [|[[w1 s1] r1]] eqn:Hc; [done|]. destruct (Hcf _ _ _ _ _ _ Hn Hc) as [Hn1 Hs1].
  destruct (persist _ _ _ _ _ _ _) as [|[w2 s]] eqn:Hp; [done|]. intros [= <- <-]. apply Forall_app. split; [done|].
  apply persist_inv in Hp as (? & ? & ? & [_ _ _ _ [E _]]). apply Forall_singleton. by rewrite E.
Qed.

Lemma applyStep_effects caps ev attempt opts nowMs w w' steps :
  ev_kind ev <> K_hold_expired -> applyStep deps host caps ev attempt opts nowMs w = inr (w', steps) ->
  Forall (fun s => no_reevaluations (res_effects (s_result s))) steps.
Proof.
  apply step_effects. intros ev1 r1 w1 w2 s2 r2 Hn. unfold resolve_conflict.
  destruct (conflicting _ _ _) as [c|]; [|intros [= <- <- <-]; split; [done|constructor]].
  destruct (a_scope c).
  1, 2: intros [= <- <- <-]; split; repeat constructor.
  destruct (nestedStep _ _ _ _ _ _ _ _) as [|[w3 s3]] eqn:Hs; [done|]. intros [= <- <- <-]. split; [done|].
  eapply step_effects; [| |exact Hs]; [|done]. intros ? ? ? ? ? ? H [= <- <- <-]. by split.
Qed.

Lemma no_reevaluation_none step es db : no_reevaluations es -> Forall (fun e => reevaluated step e db = None) es.
Proof. intros H. eapply Forall_impl; [exact H|]. intros []; done. Qed.

Lemma run_none again step es w :
  no_reevaluations es -> run_reevaluations again step es w = Some (w, [], None).
Proof.
  induction es as [|e es IH]; [done|]. intros Hn. inversion Hn as [|? ? He Hn']; subst. cbn.
  replace (reevaluated step e (w_db w)) with (@None TurnEvidence) by (by destruct e). by apply IH.
Qed.

(** Without re-evaluations the executors' calls are all that follows. *)
Lemma post_commit_none again nowMs steps w :
  Forall (fun s => no_reevaluations (res_effects (s_result s))) steps ->
  exists calls, forall again', post_commit again nowMs steps w = Some (w, calls, None)
                               /\ post_commit again' nowMs steps w = Some (w, calls, None).
Proof.
  induction steps as [|s steps IH]; intros Hn; [by exists []|]. inversion Hn as [|? ? Hs Hn']; subst.
  destruct (IH Hn') as [calls Hc]. cbn. case_bool_decide; [by exists calls|].
  rewrite run_none by done. exists (step_calls nowMs s ++ [] ++ calls)%list. intros again'. rewrite run_none by done.
  destruct (Hc again') as [-> ->]. done.
Qed.

(** Evidence that is no expiry is observed without re-observations. *)
Lemma observe_flat fuel caps opts ev w :
  ev_kind ev <> K_hold_expired ->
  exists o, forall fuel', observe deps host (S fuel) caps opts ev w = Some o
                         /\ observe deps host (S fuel') caps opts ev w = Some o.
Proof.
  intros Hk. cbn [observe]. destruct (negb (well_formed ev)); [by eexists|]. destruct (hasEvent _ _); [by eexists|].
  destruct (foreign_owner _ _ _) as [owner|]; [destruct (forward _ _ _ _ _); by eexists|].
  destruct (applyStep _ _ _ _ _ _ _ _) as [t|[w' steps]] eqn:Ha; [destruct t; by eexists|].
  destruct (post_commit_none (fun ev w => observe deps host fuel caps opts ev w) (dp_now deps (e_eventId ev)) steps w'
    (applyStep_effects _ _ _ _ _ _ _ _ Hk Ha)) as [calls Hc].
  eexists. intros fuel'. destruct (Hc (fun ev w => observe deps host fuel' caps opts ev w)) as [-> ->]. done.
Qed.

(** Re-observations with equal answers give equal runs. *)
Lemma reevaluations_same again again' step es w :
  (forall ev w, ev_kind ev ∈ [K_transcript_final; K_turn_end] ->
     exists o, again ev w = Some o /\ again' ev w = Some o) ->
  exists x, run_reevaluations again step es w = Some x /\ run_reevaluations again' step es w = Some x.
Proof.
  intros Hag. revert w. induction es as [|e es IH]; intros w; cbn; [by eexists|].
  destruct (reevaluated step e (w_db w)) as [ev|] eqn:He; [|apply IH].
  destruct (Hag ev w (reevaluated_kind _ _ _ _ He)) as (o & -> & ->).
  destruct (od_answer o); [by eexists|]. destruct (IH (od_world o)) as ([[w1 c1] t1] & -> & ->). by eexists.
Qed.

Lemma post_commit_same again again' nowMs steps w :
  (forall ev w, ev_kind ev ∈ [K_transcript_final; K_turn_end] ->
     exists o, again ev w = Some o /\ again' ev w = Some o) ->
  exists x, post_commit again nowMs steps w = Some x /\ post_commit again' nowMs steps w = Some x.
Proof.
  intros Hag. revert w. induction steps as [|s steps IH]; intros w; cbn; [by eexists|].
  case_bool_decide; [apply IH|].
  destruct (reevaluations_same again again' s (res_effects (s_result s)) w Hag) as ([[w1 c1] [t1|]] & -> & ->); [by eexists|].
  destruct (IH w1) as ([[w2 c2] t2] & -> & ->). by eexists.
Qed.

Lemma observe_total fuel caps opts ev w :
  exists o, observe deps host 2 caps opts ev w = Some o /\ observe deps host (2 + fuel) caps opts ev w = Some o.
Proof.
  change (2 + fuel)%nat with (S (S fuel)). remember (S fuel) as n eqn:En. cbn [observe].
  destruct (negb (well_formed ev)); [by eexists|]. destruct (hasEvent _ _); [by eexists|].
  destruct (foreign_owner _ _ _) as [owner|]; [destruct (forward _ _ _ _ _); by eexists|].
  destruct (applyStep _ _ _ _ _ _ _ _) as [t|[w' steps]]; [destruct t; by eexists|].
  edestruct (post_commit_same (fun ev w => observe deps host 1 caps opts ev w) (fun ev w => observe deps host n caps opts ev w))
    as ([[w2 c2] t2] & E1 & E2).
  { intros ev1 w1 Hk. destruct (observe_flat 0 caps opts ev1 w1) as [o Ho]; [by intros E; rewrite E in Hk; set_solver|].
    exists o. subst n. apply Ho. }
  cbn [observe] in E1. rewrite E1, E2. destruct t2; by eexists.
Qed.

(** ** Constraints *)

(** The two unique indexes, of attempts. *)
Definition same_task (a b : TurnAttempt) : Prop :=
  task_key a = task_key b /\ is_Some (a_meshId a) /\ is_Some (a_taskId a).

Definition share_session (a b : TurnAttempt) : Prop :=
  a_terminal a = None /\ a_terminal b = None /\ a_sessionId a = a_sessionId b.

Lemma clashes_attempts (r1 r2 : AttemptRow) :
  clashes r1 r2 = true <->
  same_task (attemptFromRow r1) (attemptFromRow r2) \/ share_session (attemptFromRow r1) (attemptFromRow r2).
Proof.
  unfold clashes, task_clash, session_clash, same_task, share_session, task_key, is_open. cbn. rewrite orb_true_iff.
  split; intros [H|H].
  - left. destruct (ra_task_id r1), (ra_task_id r2), (ra_mesh_id r1), (ra_mesh_id r2); try done.
    breflect. apply Z.eqb_eq in H0. subst. split; [by rewrite H0|eauto].
  - right. breflect. destruct (ra_terminal r1), (ra_terminal r2); done.
  - left. destruct H as ([= -> -> ->] & [m ->] & [t ->]). by rewrite !bool_decide_true, Z.eqb_refl.
  - right. destruct H as (H1 & H2 & ->). destruct (ra_terminal r1), (ra_terminal r2); try done. by rewrite bool_decide_true.
Qed.

Lemma attempts_apart db id id' a b :
  db_ok db -> getAttempt id db = Some a -> getAttempt id' db = Some b -> id <> id' ->
  ~ same_task a b /\ ~ share_session a b.
Proof.
  intros Hok (r1 & H1 & <- & <-)%getAttempt_row (r2 & H2 & <- & <-)%getAttempt_row Hne.
  pose proof (dk_unique _ Hok r1 r2 H1 H2 Hne) as Hc.
  split; intros H; rewrite (proj2 (clashes_attempts r1 r2)) in Hc; auto; done.
Qed.

Lemma upsert_refused a nowMs db :
  db_ok db -> upsertAttempt a nowMs no_extras db = None ->
  exists id b, getAttempt id db = Some b /\ id <> a_attemptId a /\ (same_task a b \/ share_session a b).
Proof.
  intros Hok. unfold upsertAttempt. destruct (existsb _ _) eqn:E; [|done]. intros _.
  apply existsb_exists in E as (r & Hin & Hc). apply list_elem_of_In, filter_elem in Hin as [Hin Hid]. breflect.
  apply clashes_attempts in Hc. rewrite attempt_reads_back in Hc. exists (ra_attempt_id r), (attemptFromRow r).
  split_and!; [|done|done]. apply getAttempt_In; [apply Hok|done].
Qed.

Lemma insert_rows_thrown rows db t : insert_rows rows db = inl t -> t = Th_second_commit.
Proof.
  revert db. induction rows as [|row rows IH]; intros db; cbn; [done|]. destruct (insertEvent row db).
  case_match; [by intros [= <-]|apply IH].
Qed.

(** Why a step's writes throw. *)
Lemma persist_thrown ev attempt r opts nowMs w t :
  persist host ev attempt r opts nowMs w = inl t ->
  (t = Th_constraint /\ store_attempt r nowMs (w_db w) = None) \/ t ∈ [Th_duplicate; Th_second_commit; Th_host].
Proof.
  unfold persist. destruct (store_attempt r nowMs (w_db w)) as [db1|]; [|intros [= <-]; by left].
  intros H. right. destruct (recordEvidence _ db1) as [[] db2]; cbn [negb] in H; [|injection H as <-; set_solver].
  repeat case_match; simplify_eq;
    try match goal with Hi : insert_rows _ _ = inl _ |- _ => apply insert_rows_thrown in Hi as -> end; set_solver.
Qed.

(** *** Superseded turns *)

Lemma supersede_lane ev c holds :
  classifyLane (Some c) (supersede_evidence ev c) holds = Lane Lane_current (Some (a_generation c)).
Proof. cbn. by rewrite !bool_decide_false by tauto. Qed.

Lemma adjusted_attempt a probe nested res :
  res_attempt (adjust_result deps (Some a) probe nested res) = res_attempt res
  /\ res_verdict (adjust_result deps (Some a) probe nested res) = res_verdict res.
Proof. by destruct probe, nested. Qed.

(** The nested step closes the plain turn it supersedes. *)
Lemma superseded_closed caps ev c nowMs w w' steps :
  db_ok (w_db w) -> getAttempt (a_attemptId c) (w_db w) = Some c -> a_scope c = Sc_plain -> a_terminal c = None ->
  nestedStep deps host caps (supersede_evidence ev c) (Some c) no_options nowMs w = inr (w', steps) ->
  exists c', getAttempt (a_attemptId c) (w_db w') = Some c' /\ is_Some (a_terminal c') /\ task_key c' = task_key c.
Proof.
  intros Hok Hg Hs Ht. unfold nestedStep, step_with.
  assert (Hb : background_guard deps (Some c) (supersede_evidence ev c) no_options = (supersede_evidence ev c, false)).
  { unfold background_guard, guarded_end. by rewrite Hs. }
  rewrite Hb. set (i := reduce_input _ _ _ _ _ _).
  destruct (plain_cancelled i c Cr_superseded (Some (a_generation c))) as (res & c' & t & Hr & Hv & Hc & Htm & _ & _);
    try done; [by apply (dk_stored _ Hok)|apply supersede_lane|].
  pose proof (adjusted_fits deps (Some c) false true _ _ (reduced_fits deps caps _ (Some c) _ _ _ Hok Hg Hr)) as Hf.
  rewrite Hr. destruct (adjusted_attempt c false true res) as [Ea Ev]. set (r := adjust_result _ _ _ _ _) in *.
  destruct (persist _ _ _ _ _ _ _) as [|[w1 step]] eqn:Hp; [done|]. intros [= <- _].
  assert (Hw : written (Some c) r = Some c') by (unfold written; by rewrite Ev, Ea, Hv, Hc).
  exists c'. split_and!; [|by rewrite Htm|by apply (reduce_task_key i c c' res)].
  rewrite <- Hw. eapply wr_attempt, persist_wrote; [exact Hok|exact Hf|exact Hp| |done].
  rewrite Hw. intros a [= <-]. unfold fits in Hf. rewrite Ev, Ea, Hv, Hc in Hf. destruct Hf as (_ & Hga & _).
  by apply getAttempt_id in Hga.
Qed.

Lemma open_found db s id b :
  db_ok db -> getAttempt id db = Some b -> a_terminal b = None -> a_sessionId b = s ->
  findOpenAttemptForSession s db = Some b.
Proof.
  intros Hok Hg Ht Hs. destruct (findOpenAttemptForSession s db) as [c|] eqn:E.
  - apply open_session_stored in E as (Hc & Hcs & Hct); [|apply Hok]. f_equal.
    destruct (decide (a_attemptId c = id)) as [<-|Hne]; [congruence|].
    destruct (attempts_apart _ _ _ _ _ Hok Hc Hg Hne) as [_ []]. split_and!; congruence.
  - apply getAttempt_row in Hg as (r & Hin & _ & <-). unfold findOpenAttemptForSession in E.
    destruct (List.find _ _) eqn:Ef; [done|]. apply list_elem_of_In in Hin. eapply find_none in Ef; [|exact Hin].
    cbn in Ef, Hs, Ht. rewrite Hs, bool_decide_true in Ef by done. unfold is_open in Ef. by destruct (ra_terminal r).
Qed.

(** An attempt that is open after a step was open before. *)
Lemma stays_open a0 a vs : spec_step (phase (Some a0)) vs (phase (Some a)) -> a_terminal a = None -> a_terminal a0 = None.
Proof.
  unfold phase. intros Hs Ht. rewrite Ht in Hs. destruct (a_terminal a0); [|done].
  destruct (d_writerStop (a_data a)); inversion Hs.
Qed.

(** After the conflict is resolved the session is free for the attempt. *)
Lemma session_free caps nowMs ev ev0 attempt r w w1 s1 r1 a id b :
  db_ok (w_db w) -> resolved (w_db w) ev0 attempt -> fits (w_db w) attempt r ->
  resolve_conflict deps host caps nowMs ev attempt r w = inr (w1, s1, r1) ->
  res_verdict r1 = V_applied -> res_attempt r1 = Some a ->
  getAttempt id (w_db w1) = Some b -> id <> a_attemptId a -> ~ share_session a b.
Proof.
  intros Hok Hres Hf. unfold resolve_conflict. destruct (conflicting attempt r (w_db w)) as [c|] eqn:Hc.
  - assert (Hcf : findOpenAttemptForSession (nullish (a_sessionId <$> res_attempt r) "") (w_db w) = Some c).
    { unfold conflicting in Hc. destruct (res_attempt r); [|done]. repeat case_match; simplify_eq. done. }
    destruct (open_session_stored _ _ _ (dk_ids _ Hok) Hcf) as (Hg & Hcs & Hct).
    destruct (a_scope c) eqn:Hsc; try (intros [= <- <- <-]; done).
    destruct (nestedStep _ _ _ _ _ _ _ _) as [|[w2 s2]] eqn:Hn; [done|]. intros [= <- <- <-] Hv Ha Hb Hne (Ho & Hob & Hse).
    rewrite Ha in Hcs. cbn in Hcs. destruct (nested_keeps deps host _ _ _ _ _ _ _ _ Hok Hg Hn) as [_ Hsame].
    destruct (superseded_closed _ _ _ _ _ _ _ Hok Hg Hsc Hct Hn) as (c' & Hc' & [t Ht] & _).
    destruct (decide (id = a_attemptId c)) as [->|Hidc]; [congruence|]. rewrite Hsame in Hb by done.
    destruct (attempts_apart _ _ _ _ _ Hok Hb Hg Hidc) as [_ []]. split_and!; congruence.
  - intros [= <- <- <-] Hv Ha Hb Hne (Ho & Hob & Hse). pose proof (open_found _ _ _ _ Hok Hb Hob (eq_sym Hse)) as Hfind.
    unfold fits in Hf. rewrite Hv, Ha in Hf. destruct Hf as (_ & Hga & Hsp).
    unfold conflicting, opens, moves in Hc. rewrite Ha, Hv, Ho, Hfind in Hc.
    rewrite (bool_decide_false (a_attemptId b = a_attemptId a)) in Hc by (apply getAttempt_id in Hb; congruence).
    destruct attempt as [a0|]; [|done]. cbn in Hc. destruct (decide (a_sessionId a = a_sessionId a0)) as [E|E].
    + pose proof (stays_open _ _ _ Hsp Ho) as Ht0.
      destruct (attempts_apart _ _ _ _ _ Hok Hga Hb (not_eq_sym Hne)) as [_ []]. split_and!; congruence.
    + by rewrite (bool_decide_false (a_sessionId a = a_sessionId a0)) in Hc.
Qed.

(** The attempt [ev] opens, when there is none. *)
Definition opening caps ev nowMs : option TurnAttempt :=
  match reduce (reduce_input deps caps ev None [] nowMs) with Some res => res_attempt res | None => None end.

Lemma same_task_key a a' b : task_key a' = task_key a -> same_task a' b -> same_task a b.
Proof. unfold same_task, task_key. intros [= -> -> ->]. done. Qed.

(** A refused write, of an attempt whose session is free. *)
Lemma store_refused r nowMs db :
  db_ok db -> store_attempt r nowMs db = None ->
  exists a id b, res_verdict r = V_applied /\ res_attempt r = Some a
    /\ getAttempt id db = Some b /\ id <> a_attemptId a /\ (same_task a b \/ share_session a b).
Proof.
  intros Hok. unfold store_attempt. destruct (res_verdict r), (res_attempt r) as [a|]; try done.
  destruct (upsertAttempt a nowMs no_extras db) eqn:E; [done|]. intros _.
  destruct (upsert_refused _ _ _ Hok E) as (id & b & ? & ? & ?). by exists a, id, b.
Qed.

(** Closing a superseded turn violates no index. *)
Lemma nested_no_constraint caps ev c nowMs w :
  db_ok (w_db w) -> getAttempt (a_attemptId c) (w_db w) = Some c -> a_scope c = Sc_plain -> a_terminal c = None ->
  nestedStep deps host caps (supersede_evidence ev c) (Some c) no_options nowMs w <> inl Th_constraint.
Proof.
  intros Hok Hg Hs Ht. unfold nestedStep, step_with.
  assert (Hb : background_guard deps (Some c) (supersede_evidence ev c) no_options = (supersede_evidence ev c, false)).
  { unfold background_guard, guarded_end. by rewrite Hs. }
  rewrite Hb. set (i := reduce_input _ _ _ _ _ _).
  destruct (plain_cancelled i c Cr_superseded (Some (a_generation c))) as (res & c' & t & Hr & Hv & Hc & Htm & _ & _);
    try done; [by apply (dk_stored _ Hok)|apply supersede_lane|].
  rewrite Hr. destruct (adjusted_attempt c false true res) as [Ea Ev]. set (r := adjust_result _ _ _ _ _) in *.
  destruct (persist _ _ _ _ _ _ _) as [t'|[w1 step]] eqn:Hp; [|done]. intros [= ->].
  apply persist_thrown in Hp as [[_ Hst]|H]; [|set_solver].
  destruct (store_refused _ _ _ Hok Hst) as (a & id & b & _ & Hra & Hb' & Hne & Hcl).
  rewrite Ea, Hc in Hra. injection Hra as <-. pose proof (reduce_task_key i c c' res eq_refl Hr Hc) as Hk.
  assert (Hid : a_attemptId c' = a_attemptId c).
  { pose proof (reduce_id i res) as H. unfold i in H. cbn in H. rewrite Hc in H. apply H; [by apply (dk_stored _ Hok)|done]. }
  rewrite Hid in Hne. destruct (attempts_apart _ _ _ _ _ Hok Hg Hb' (not_eq_sym Hne)) as [Hnt _].
  destruct Hcl as [Hcl|(Hcl & _)]; [|congruence]. apply Hnt. by apply (same_task_key _ c').
Qed.

Lemma conflict_no_constraint caps nowMs ev attempt r w :
  db_ok (w_db w) -> resolve_conflict deps host caps nowMs ev attempt r w <> inl Th_constraint.
Proof.
  intros Hok. unfold resolve_conflict. destruct (conflicting attempt r (w_db w)) as [c|] eqn:Hc; [|done].
  assert (Hcf : findOpenAttemptForSession (nullish (a_sessionId <$> res_attempt r) "") (w_db w) = Some c).
  { unfold conflicting in Hc. destruct (res_attempt r); [|done]. repeat case_match; simplify_eq. done. }
  destruct (open_session_stored _ _ _ (dk_ids _ Hok) Hcf) as (Hg & _ & Hct).
  destruct (a_scope c) eqn:Hsc; try done. destruct (nestedStep _ _ _ _ _ _ _ _) as [t|[w2 s2]] eqn:Hn; [|done].
  intros [= ->]. by apply nested_no_constraint in Hn.
Qed.

(** The other attempts' tasks survive the resolution of a conflict. *)
Lemma conflict_tasks caps nowMs ev ev0 attempt r w w1 s1 r1 id b :
  db_ok (w_db w) -> resolved (w_db w) ev0 attempt -> fits (w_db w) attempt r ->
  resolve_conflict deps host caps nowMs ev attempt r w = inr (w1, s1, r1) ->
  getAttempt id (w_db w1) = Some b -> exists b0, getAttempt id (w_db w) = Some b0 /\ task_key b0 = task_key b.
Proof.
  intros Hok Hres Hf. unfold resolve_conflict. destruct (conflicting attempt r (w_db w)) as [c|] eqn:Hc.
  2: { intros [= <- <- <-]. eauto. }
  assert (Hcf : findOpenAttemptForSession (nullish (a_sessionId <$> res_attempt r) "") (w_db w) = Some c).
  { unfold conflicting in Hc. destruct (res_attempt r); [|done]. repeat case_match; simplify_eq. done. }
  destruct (open_session_stored _ _ _ (dk_ids _ Hok) Hcf) as (Hg & _ & Hct).
  destruct (a_scope c) eqn:Hsc; try (intros [= <- <- <-]; eauto; fail).
  destruct (nestedStep _ _ _ _ _ _ _ _) as [|[w2 s2]] eqn:Hn; [done|]. intros [= <- <- <-] Hb.
  destruct (nested_keeps deps host _ _ _ _ _ _ _ _ Hok Hg Hn) as [_ Hsame].
  destruct (superseded_closed _ _ _ _ _ _ _ Hok Hg Hsc Hct Hn) as (c' & Hc' & _ & Hk).
  destruct (decide (id = a_attemptId c)) as [->|Hne].
  - exists c. split; congruence.
  - rewrite Hsame in Hb by done. eauto.
Qed.

Lemma conflict_result caps nowMs ev attempt r w w1 s1 r1 :
  resolve_conflict deps host caps nowMs ev attempt r w = inr (w1, s1, r1) -> r1 = r \/ r1 = refused_result.
Proof. unfold resolve_conflict. repeat case_match; intros; simplify_eq; auto. Qed.

Lemma adjusted_opened probe nested res a :
  res_attempt (adjust_result deps None probe nested res) = Some a ->
  exists a', res_attempt res = Some a' /\ a_attemptId a = a_attemptId a' /\ task_key a = task_key a'.
Proof.
  unfold adjust_result. cbn [add_probe]. destruct (opens None res), nested; cbn; destruct (res_attempt res); try done;
    intros [= <-]; eauto.
Qed.

(** A unique index throws only for a dispatch whose attempt number of its task
    is taken. *)
Lemma constraint_thrown caps ev attempt opts nowMs w :
  db_ok (w_db w) -> resolved (w_db w) ev attempt ->
  applyStep deps host caps ev attempt opts nowMs w = inl Th_constraint ->
  exists a id b, attempt = None /\ opening caps ev nowMs = Some a
    /\ getAttempt id (w_db w) = Some b /\ id <> a_attemptId a /\ same_task a b.
Proof.
  intros Hok Hres. unfold applyStep, step_with.
  destruct (background_guard _ _ _ _) as [ev' probe] eqn:Hb. pose proof (guarded_resolved _ _ _ _ _ _ _ Hb Hres) as Hres'.
  destruct (reduce _) as [res|] eqn:Hr; [|done].
  pose proof (adjusted_fits deps attempt probe false _ _ (reduced_fits deps caps ev' attempt _ _ _ Hok Hres' Hr)) as Hf.
  set (r := adjust_result _ _ _ _ _) in *.
  destruct (resolve_conflict _ _ _ _ _ _ _ _) as [t|[[w1 s1] r1]] eqn:Hc;
    [intros [= ->]; by apply conflict_no_constraint in Hc|].
  destruct (conflict_keeps _ _ _ _ _ ev' _ _ _ _ _ _ Hok Hres' Hf Hc) as (Hok1 & Hres1 & Hf1).
  destruct (persist _ _ _ _ _ _ _) as [t|[w2 step]] eqn:Hp; [|done]. intros [= ->].
  apply persist_thrown in Hp as [[_ Hst]|H]; [|set_solver].
  destruct (store_refused _ _ _ Hok1 Hst) as (a & id & b & Hv & Hra & Hb' & Hne & [Hcl|Hcl]).
  2: { by destruct (session_free _ _ _ ev' _ _ _ _ _ _ _ _ _ Hok Hres' Hf Hc Hv Hra Hb' Hne Hcl). }
  destruct (conflict_result _ _ _ _ _ _ _ _ _ Hc) as [->| ->]; [|done]. destruct attempt as [a0|].
  - destruct (adjusted_attempt a0 probe false res) as [Ea _]. fold r in Ea. rewrite Hra in Ea. symmetry in Ea.
    pose proof (reduce_task_key (reduce_input deps caps ev' (Some a0) _ nowMs) a0 a res eq_refl Hr Ea) as Hk. unfold fits in Hf1. rewrite Hv, Hra in Hf1.
    destruct Hf1 as (_ & Hga & _). destruct (attempts_apart _ _ _ _ _ Hok1 Hga Hb' (not_eq_sym Hne)) as [[] _].
    by apply (same_task_key _ a).
  - destruct (adjusted_opened _ _ _ _ Hra) as (a' & Ha' & Hid & Hk). injection Hb as <- <-.
    destruct (conflict_tasks _ _ _ ev _ _ _ _ _ _ _ _ Hok Hres' Hf Hc Hb') as (b0 & Hb0 & Hk0).
    exists a', id, b0. split_and!; try done.
    + unfold opening. by rewrite Hr.
    + congruence.
    + destruct Hcl as (E & Hm & Ht). unfold same_task. rewrite <- Hk, Hk0. split; [done|].
      unfold task_key in Hk. injection Hk as <- <- _. done.
Qed.

(** ** Errors *)

Lemma reobserved_kind k :
  k ∈ [K_transcript_final; K_turn_end] ->
  k ∉ [K_dispatch_accepted; K_turn_started] /\ k <> K_hold_expired /\ k <> K_turn_started.
Proof.
  intros H%list_elem_of_In. split_and!; [intros H'%list_elem_of_In|intros ->..]; cbn in *; intuition congruence.
Qed.

Lemma reduce_total_here caps ev attempt nowMs db :
  db_ok db -> resolved db ev attempt ->
  is_Some (reduce (reduce_input deps caps ev attempt
    match attempt with Some a => activeHolds (a_attemptId a) db | None => [] end nowMs)).
Proof.
  intros Hok Hres. set (i := reduce_input _ _ _ _ _ _).
  destruct (reduce_stored i) as (res & -> & _); [|by eexists].
  unfold input_ok. cbn. destruct attempt as [a|]; [|done]. by apply (dk_stored _ Hok).
Qed.

(** A step asserts nothing that fails. *)
Lemma step_thrown nested conflict caps ev attempt opts nowMs w :
  db_ok (w_db w) -> resolved (w_db w) ev attempt ->
  (forall ev r, conflict ev attempt r w <> inl Th_assertion) ->
  step_with deps host nested conflict caps ev attempt opts nowMs w <> inl Th_assertion.
Proof.
  intros Hok Hres Hc. unfold step_with. destruct (background_guard _ _ _ _) as [ev' probe] eqn:Hb.
  destruct (reduce_total_here caps ev' attempt nowMs _ Hok (guarded_resolved _ _ _ _ _ _ _ Hb Hres)) as [res ->].
  specialize (Hc ev' (adjust_result deps attempt probe nested res)).
  destruct (conflict _ _ _ _) as [t|[[w1 s1] r1]]; [congruence|].
  destruct (persist _ _ _ _ _ _ _) as [t|[w2 step]] eqn:Hp; [|done]. intros [= ->].
  apply persist_thrown in Hp as [[? _]|?]; [done|set_solver].
Qed.

Lemma applyStep_thrown caps ev attempt opts nowMs w :
  db_ok (w_db w) -> resolved (w_db w) ev attempt ->
  applyStep deps host caps ev attempt opts nowMs w <> inl Th_assertion.
Proof.
  intros Hok Hres. apply step_thrown; [done..|]. intros ev1 r1. unfold resolve_conflict.
  destruct (conflicting attempt r1 (w_db w)) as [c|] eqn:Hc; [|done]. destruct (a_scope c); try done.
  destruct (nestedStep _ _ _ _ _ _ _ _) as [t|[w2 s2]] eqn:Hn; [|done]. intros [= ->]. revert Hn.
  apply step_thrown; [done| |done]. unfold conflicting in Hc. repeat case_match; simplify_eq.
  match goal with H : findOpenAttemptForSession _ _ = Some _ |- _ => apply open_session_stored in H as (? & _) end;
    [done|apply Hok].
Qed.

Lemma applyStep_nonempty caps ev attempt opts nowMs w w' steps :
  applyStep deps host caps ev attempt opts nowMs w = inr (w', steps) -> is_Some (last steps).
Proof.
  unfold applyStep, step_with. destruct (background_guard _ _ _ _). destruct (reduce _); [|done].
  destruct (resolve_conflict _ _ _ _ _ _ _ _) as [|[[w1 s1] r1]]; [done|].
  destruct (persist _ _ _ _ _ _ _) as [|[w2 s2]]; [done|]. intros [= <- <-]. by rewrite last_snoc.
Qed.

(** What an observation may throw. *)
Definition thrown_by caps ev (db : Db) (t : Thrown) : Prop :=
  t = Th_host \/ t = Th_second_commit
  \/ t = Th_constraint /\ exists a id b, opening caps ev (dp_now deps (e_eventId ev)) = Some a
       /\ getAttempt id db = Some b /\ id <> a_attemptId a /\ same_task a b.

Lemma opening_kind caps ev nowMs a : opening caps ev nowMs = Some a -> ev_kind ev ∈ [K_dispatch_accepted; K_turn_started].
Proof.
  unfold opening. destruct (reduce _) as [res|] eqn:Hr; [|done]. intros Ha.
  set (i := reduce_input _ _ _ _ _ _) in Hr. assert (Hin : input_ok i) by done.
  pose proof (reduce_id i res Hin Hr) as H. cbn in H. rewrite Ha in H. apply H.
Qed.

Lemma step_error caps opts ev w t :
  db_ok (w_db w) -> opening_free ev (w_db w) ->
  applyStep deps host caps ev (resolveAttempt ev (w_db w)) opts (dp_now deps (e_eventId ev)) w = inl t ->
  t = Th_duplicate \/ thrown_by caps ev (w_db w) t.
Proof.
  intros Hok Hfree Ha. pose proof (resolve_resolved _ _ Hok Hfree) as Hres. unfold thrown_by. destruct t; auto.
  - apply constraint_thrown in Ha as (a & id & b & _ & ? & ? & ? & ?); [|done..]. do 3 right. split; [done|].
    by exists a, id, b.
  - by apply applyStep_thrown in Ha.
Qed.

(** Evidence that is no expiry leaves the world as it was when it throws. *)
Lemma observe_flat_error fuel caps opts ev w o t :
  db_ok (w_db w) -> opening_free ev (w_db w) -> ev_kind ev <> K_hold_expired ->
  observe deps host (S fuel) caps opts ev w = Some o -> od_answer o = inl t ->
  od_world o = w /\ od_calls o = [] /\ thrown_by caps ev (w_db w) t.
Proof.
  intros Hok Hfree Hk. cbn [observe].
  destruct (negb (well_formed ev)); [by intros [= <-]|]. destruct (hasEvent _ _); [by intros [= <-]|].
  destruct (foreign_owner _ _ _) as [owner|]; [destruct (forward _ _ _ _ _); by intros [= <-]|].
  destruct (applyStep _ _ _ _ _ _ _ _) as [t'|[w' steps]] eqn:Ha.
  - apply step_error in Ha as [->|Ht]; [by intros [= <-]| |done..].
    destruct t'; try (by destruct Ht as [|[|[? _]]]); intros [= <-] [= <-]; done.
  - destruct (post_commit_none (fun ev w => observe deps host fuel caps opts ev w) (dp_now deps (e_eventId ev)) steps w'
      (applyStep_effects _ _ _ _ _ _ _ _ Hk Ha)) as [calls Hc].
    destruct (Hc (fun _ _ => None)) as [-> _]. apply applyStep_nonempty in Ha as [s ->]. by intros [= <-].
Qed.

Lemma reevaluations_error again step es w w' calls t :
  (forall ev w o, ev_kind ev ∈ [K_transcript_final; K_turn_end] -> db_ok (w_db w) -> again ev w = Some o ->
     db_ok (w_db (od_world o)) /\ forall t, od_answer o = inl t -> t = Th_host \/ t = Th_second_commit) ->
  db_ok (w_db w) -> run_reevaluations again step es w = Some (w', calls, Some t) -> t = Th_host \/ t = Th_second_commit.
Proof.
  intros Hag. revert w w' calls. induction es as [|e es IH]; intros w w' calls Hok; cbn; [done|].
  destruct (reevaluated step e (w_db w)) as [ev|] eqn:He; [|by apply IH].
  destruct (again ev w) as [o|] eqn:Ho; [|done]. destruct (Hag _ _ _ (reevaluated_kind _ _ _ _ He) Hok Ho) as [Hok' Ht].
  destruct (od_answer o); [by intros [= _ _ <-]; apply Ht|].
  destruct (run_reevaluations again step es (od_world o)) as [[[w1 c1] t1]|] eqn:Hr; [|done]. intros [= _ _ ->].
  by eapply IH.
Qed.

Lemma post_commit_error again nowMs steps w w' calls t :
  (forall ev w o, ev_kind ev ∈ [K_transcript_final; K_turn_end] -> db_ok (w_db w) -> again ev w = Some o ->
     db_ok (w_db (od_world o)) /\ forall t, od_answer o = inl t -> t = Th_host \/ t = Th_second_commit) ->
  db_ok (w_db w) -> post_commit again nowMs steps w = Some (w', calls, Some t) -> t = Th_host \/ t = Th_second_commit.
Proof.
  intros Hag. revert w w' calls. induction steps as [|s steps IH]; intros w w' calls Hok; cbn; [done|].
  case_bool_decide; [by apply IH|].
  destruct (run_reevaluations again s _ w) as [[[w1 c1] [t1|]]|] eqn:Hr; [| |done].
  - intros [= _ _ <-]. by eapply reevaluations_error.
  - destruct (post_commit again nowMs steps w1) as [[[w2 c2] t2]|] eqn:Hp; [|done]. intros [= _ _ ->].
    eapply IH; [|exact Hp]. eapply reevaluations_keep; [|exact Hok|exact Hr]. intros ev w3 o Hk Hok3 Ho.
    by apply (Hag ev w3 o).
Qed.

Lemma observe_error caps opts ev w o t :
  db_ok (w_db w) -> opening_free ev (w_db w) -> observe deps host 2 caps opts ev w = Some o ->
  od_answer o = inl t -> thrown_by caps ev (w_db w) t.
Proof.
  intros Hok Hfree Ho Ht. destruct (decide (ev_kind ev = K_hold_expired)) as [Hk|Hk].
  2: { by destruct (observe_flat_error _ _ _ _ _ _ _ Hok Hfree Hk Ho Ht) as (_ & _ & ?). }
  revert Ho. remember 1%nat as n eqn:En. cbn [observe].
  destruct (negb (well_formed ev)); [by intros [= <-]|]. destruct (hasEvent _ _); [by intros [= <-]|].
  destruct (foreign_owner _ _ _) as [owner|]; [destruct (forward _ _ _ _ _); by intros [= <-]|].
  destruct (applyStep _ _ _ _ _ _ _ _) as [t'|[w' steps]] eqn:Ha.
  - apply step_error in Ha as [->|Ht']; [by intros [= <-]| |done..].
    destruct t'; try (by destruct Ht' as [|[|[? _]]]); intros [= <-]; cbn in Ht; injection Ht as <-; done.
  - pose proof (applyStep_keeps deps host _ _ _ _ _ _ _ _ Hok (resolve_resolved _ _ Hok Hfree) Ha) as Hok'.
    destruct (post_commit _ _ _ _) as [[[w'' calls] [t'|]]|] eqn:Hp; [| |done]; intros [= <-].
    + cbn in Ht. injection Ht as <-. unfold thrown_by.
      enough (t' = Th_host \/ t' = Th_second_commit) by tauto.
      eapply post_commit_error; [|exact Hok'|exact Hp]. cbn. intros ev1 w1 o1 Hk1 Hok1 Ho1.
      destruct (reobserved_kind _ Hk1) as (Hno & Hnx & Hnt).
      assert (Hf1 : opening_free ev1 (w_db w1)) by (intros ?; contradiction).
      split; [by eapply observe_ok|]. intros t1 Ht1. subst n.
      destruct (observe_flat_error 0 _ _ _ _ _ _ Hok1 Hf1 Hnx Ho1 Ht1) as (_ & _ & H).
      destruct H as [H|[H|(_ & a & _ & _ & Hop & _)]]; auto. by apply opening_kind in Hop.
    + cbn in Ht. apply applyStep_nonempty in Ha as [s Es]. by rewrite Es in Ht.
Qed.

(** ** Evidence is remembered *)

(** Events are only added, under new ids. *)
Record grows (db db' : Db) : Prop := {
  gr_ids : forall id, id ∈ event_ids db -> id ∈ event_ids db';
  gr_nodup : NoDup (event_ids db) -> NoDup (event_ids db') }.

Lemma grows_same db db' : event_ids db' = event_ids db -> grows db db'.
Proof. intros E. split; by rewrite E. Qed.

Lemma grows_refl db : grows db db.
Proof. by apply grows_same. Qed.
#[local] Hint Resolve grows_refl : core.

Lemma grows_trans db1 db2 db3 : grows db1 db2 -> grows db2 db3 -> grows db1 db3.
Proof. intros [] []. split; auto. Qed.

Lemma insert_grows row db db' :
  insert_spec row db db' -> existsb (event_clash row) (db_events db) = false ->
  grows db db' /\ er_eventId row ∈ event_ids db'.
Proof.
  intros [_ _ E] Hc. rewrite existsb_elem in Hc.
  assert (Hn : er_eventId row ∉ event_ids db).
  { intros (e & Ee & He)%list_elem_of_fmap. apply Hc in He. unfold event_clash in He. by rewrite Ee, bool_decide_true in He. }
  assert (Ei : event_ids db' = (event_ids db ++ [er_eventId row])%list) by (unfold event_ids; by rewrite E, map_app).
  rewrite Ei. split; [|apply elem_of_app; right; by left]. split; rewrite Ei.
  - intros id Hid. apply elem_of_app. by left.
  - intros Hnd. apply NoDup_app. split_and!; [done| |apply NoDup_singleton]. by intros x Hx ->%list_elem_of_singleton.
Qed.

Lemma insertEvent_grows row db : grows db (snd (insertEvent row db)).
Proof.
  destruct (insertEvent row db) as [b db'] eqn:E. apply insertEvent_inv in E. cbn.
  destruct b; [by apply (insert_grows row); apply E|by destruct E as [-> _]].
Qed.

Lemma insert_rows_grows rows db db' : insert_rows rows db = inr db' -> grows db db'.
Proof.
  revert db. induction rows as [|row rows IH]; intros db; cbn; [by intros [= <-]|].
  pose proof (insertEvent_grows row db) as H. destruct (insertEvent row db) as [b db1]. case_match; [done|].
  intros H'. eapply grows_trans; [exact H|]. by apply IH.
Qed.

Lemma store_events r nowMs db db' : store_attempt r nowMs db = Some db' -> db_events db' = db_events db.
Proof.
  unfold store_attempt, upsertAttempt. destruct (res_verdict r), (res_attempt r); try by intros [= <-].
  destruct (existsb _ _); [done|]. by intros [= <-].
Qed.

(** Only probe samples are aggregated. *)
Lemma sample_source row : is_Some (livenessSampleKey row) -> er_source row = "coordinator_probe".
Proof.
  unfold livenessSampleKey. cbv zeta. intros [x H]. match type of H with (if ?b then _ else _) = _ => destruct b eqn:E end; [|done].
  by breflect.
Qed.

Lemma persist_remembers ev attempt r opts nowMs w w' step :
  persist host ev attempt r opts nowMs w = inr (w', step) ->
  grows (w_db w) (w_db w')
  /\ (e_source ev <> Src_coordinator_probe -> e_eventId ev ∈ event_ids (w_db w')).
Proof.
  intros (db1 & db2 & rows & [Hst Hrec Hins _ _])%persist_inv. apply store_events in Hst. apply insert_rows_grows in Hins.
  assert (Hg1 : grows (w_db w) db1) by (apply grows_same; unfold event_ids; by rewrite Hst).
  apply recordEvidence_inv in Hrec as [[Hs Hc]|(_ & _ & He & Hl)].
  - destruct (insert_grows _ _ _ Hs Hc) as [Hg2 Hin]. split; [eauto using grows_trans|]. intros _. by apply Hins.
  - split.
    + eapply grows_trans; [exact Hg1|]. eapply grows_trans; [|exact Hins]. apply grows_same. by apply same_events_ids.
    + apply sample_source in Hl. cbn in Hl. intros []. apply (spelling_inj (e_source ev) Src_coordinator_probe). done.
Qed.

Lemma guarded_same attempt ev opts ev' probe :
  background_guard deps attempt ev opts = (ev', probe) -> e_eventId ev' = e_eventId ev /\ e_source ev' = e_source ev.
Proof.
  assert (Hh : forall a, e_eventId (held_back a ev) = e_eventId ev /\ e_source (held_back a ev) = e_source ev)
    by (intros a; unfold held_back; by destruct (a_state a)).
  unfold background_guard. repeat case_match; intros [= <- _]; done.
Qed.

Lemma step_remembers nested conflict caps ev attempt opts nowMs w w' steps :
  (forall ev r w1 s1 r1, conflict ev attempt r w = inr (w1, s1, r1) -> grows (w_db w) (w_db w1)) ->
  step_with deps host nested conflict caps ev attempt opts nowMs w = inr (w', steps) ->
  grows (w_db w) (w_db w')
  /\ (e_source ev <> Src_coordinator_probe -> e_eventId ev ∈ event_ids (w_db w')).
Proof.
  intros Hc. unfold step_with. destruct (background_guard _ _ _ _) as [ev' probe] eqn:Hb.
  destruct (guarded_same _ _ _ _ _ Hb) as [<- <-]. destruct (reduce _); [|done].
  destruct (conflict _ _ _ _) as [|[[w1 s1] r1]] eqn:Ec; [done|]. apply Hc in Ec.
  destruct (persist _ _ _ _ _ _ _) as [|[w2 s2]] eqn:Hp; [done|]. intros [= <- _].
  apply persist_remembers in Hp as [Hg Hin]. eauto using grows_trans.
Qed.

Lemma applyStep_remembers caps ev attempt opts nowMs w w' steps :
  applyStep deps host caps ev attempt opts nowMs w = inr (w', steps) ->
  grows (w_db w) (w_db w')
  /\ (e_source ev <> Src_coordinator_probe -> e_eventId ev ∈ event_ids (w_db w')).
Proof.
  apply step_remembers. intros ev1 r1 w1 s1 r2. unfold resolve_conflict.
  destruct (conflicting _ _ _) as [c|]; [|by intros [= <- _ _]]. destruct (a_scope c); try by intros [= <- _ _].
  destruct (nestedStep _ _ _ _ _ _ _ _) as [|[w2 s2]] eqn:Hn; [done|]. intros [= <- _ _].
  eapply step_remembers; [|exact Hn]. by intros ? ? ? ? ? [= <- _ _].
Qed.

Lemma reevaluations_grow again step es w w' calls t :
  (forall ev w o, again ev w = Some o -> grows (w_db w) (w_db (od_world o))) ->
  run_reevaluations again step es w = Some (w', calls, t) -> grows (w_db w) (w_db w').
Proof.
  intros Hag. revert w w' calls t. induction es as [|e es IH]; intros w w' calls t; cbn; [by intros [= <- _ _]|].
  destruct (reevaluated step e (w_db w)) as [ev|]; [|by apply IH].
  destruct (again ev w) as [o|] eqn:Ho; [|done]. apply Hag in Ho.
  destruct (od_answer o); [by intros [= <- _ _]|].
  destruct (run_reevaluations again step es (od_world o)) as [[[w1 c1] t1]|] eqn:Hr; [|done]. intros [= <- _ _].
  eauto using grows_trans.
Qed.

Lemma post_commit_grows again nowMs steps w w' calls t :
  (forall ev w o, again ev w = Some o -> grows (w_db w) (w_db (od_world o))) ->
  post_commit again nowMs steps w = Some (w', calls, t) -> grows (w_db w) (w_db w').
Proof.
  intros Hag. revert w w' calls t. induction steps as [|s steps IH]; intros w w' calls t; cbn; [by intros [= <- _ _]|].
  case_bool_decide; [by apply IH|].
  destruct (run_reevaluations again s _ w) as [[[w1 c1] [t1|]]|] eqn:Hr; [| |done]; apply reevaluations_grow in Hr; try done.
  - by intros [= <- _ _].
  - destruct (post_commit again nowMs steps w1) as [[[w2 c2] t2]|] eqn:Hp; [|done]. intros [= <- _ _].
    eauto using grows_trans.
Qed.

Lemma observe_grows fuel caps opts ev w o :
  observe deps host fuel caps opts ev w = Some o -> grows (w_db w) (w_db (od_world o)).
Proof.
  revert ev w o. induction fuel as [|fuel IH]; intros ev w o; cbn [observe]; [done|].
  destruct (negb (well_formed ev)); [by intros [= <-]|]. destruct (hasEvent _ _); [by intros [= <-]|].
  destruct (foreign_owner _ _ _) as [owner|].
  { unfold forward. destruct (e_attemptRef ev); intros [= <-]; cbn; apply insertEvent_grows. }
  destruct (applyStep _ _ _ _ _ _ _ _) as [t|[w' steps]] eqn:Ha; [destruct t; by intros [= <-]|].
  apply applyStep_remembers in Ha as [Hg _].
  destruct (post_commit _ _ _ _) as [[[w'' calls] t]|] eqn:Hp; [|done]. apply post_commit_grows in Hp; [|by eauto].
  destruct t; intros [= <-]; eauto using grows_trans.
Qed.

(** The verdicts only a reduction gives. *)
Lemma observe_remembers fuel caps opts ev w o (x : ObserveResult) :
  observe deps host fuel caps opts ev w = Some o -> od_answer o = inr x -> ob_verdict x ∈ [Ov_applied; Ov_recorded] ->
  e_source ev <> Src_coordinator_probe -> well_formed ev = true /\ hasEvent (e_eventId ev) (w_db (od_world o)) = true.
Proof.
  destruct fuel as [|fuel]; cbn [observe]; [done|]. intros Ho Ha Hv Hs.
  assert (Hbare : forall v j, od_answer o = inr (bare_result v j) -> v = Ov_applied \/ v = Ov_recorded).
  { intros v j E. rewrite E in Ha. injection Ha as <-. apply list_elem_of_In in Hv. cbn in Hv. intuition congruence. }
  revert Ho. destruct (well_formed ev); cbn [negb].
  2: { intros [= <-]. by destruct (Hbare _ _ eq_refl). }
  destruct (hasEvent _ _) eqn:Hh; [by intros [= <-]|]. intros Ho. split; [done|]. revert Ho.
  destruct (foreign_owner _ _ _) as [owner|].
  { unfold forward. destruct (e_attemptRef ev); intros [= <-]; by destruct (Hbare _ _ eq_refl). }
  destruct (applyStep _ _ _ _ _ _ _ _) as [t|[w' steps]] eqn:Hst.
  { destruct t; intros [= <-]; try done. by destruct (Hbare _ _ eq_refl). }
  apply applyStep_remembers in Hst as [_ Hin].
  destruct (post_commit _ _ _ _) as [[[w'' calls] t]|] eqn:Hp; [|done].
  apply post_commit_grows in Hp; [|intros *; apply observe_grows].
  destruct t; intros [= <-]; apply hasEvent_ids, Hp, Hin, Hs.
Qed.

(** ** Opening *)

Lemma opened_phase vs a : spec_step P_absent vs (phase (Some a)) -> a_terminal a = None.
Proof. unfold phase. intros H. destruct (a_terminal a); [|done]. inversion H. Qed.

Lemma adjusted_owner nested res a :
  res_verdict (adjust_result deps None false nested res) = V_applied ->
  res_attempt (adjust_result deps None false nested res) = Some a ->
  is_Some (res_attempt res) /\ a_ownerDaemonId a = dp_selfDaemonId deps.
Proof.
  destruct res as [[a'|] hs es v rl rj]; unfold adjust_result, opens; cbn.
  - destruct v, nested; cbn; try done; intros _ [= <-]; eauto.
  - by destruct nested.
Qed.

(** The attempt a step opened is stored, open, and owned by this daemon. *)
Lemma applyStep_opened caps ev opts nowMs w w' steps step a :
  db_ok (w_db w) -> resolved (w_db w) ev None ->
  applyStep deps host caps ev None opts nowMs w = inr (w', steps) -> last steps = Some step ->
  res_verdict (s_result step) = V_applied -> res_attempt (s_result step) = Some a ->
  ev_kind ev ∈ [K_dispatch_accepted; K_turn_started]
  /\ getAttempt (a_attemptId a) (w_db w') = Some a /\ a_terminal a = None /\ a_ownerDaemonId a = dp_selfDaemonId deps.
Proof.
  intros Hok Hres. unfold applyStep, step_with. cbn [background_guard].
  destruct (reduce _) as [res|] eqn:Hr; [|done].
  pose proof (adjusted_fits deps None false false _ _ (reduced_fits deps caps ev None _ _ _ Hok Hres Hr)) as Hf.
  set (r := adjust_result _ _ _ _ _) in *.
  destruct (resolve_conflict _ _ _ _ _ _ _ _) as [|[[w1 s1] r1]] eqn:Hc; [done|].
  destruct (conflict_keeps _ _ _ _ _ ev _ _ _ _ _ _ Hok Hres Hf Hc) as (Hok1 & Hres1 & Hf1).
  destruct (persist _ _ _ _ _ _ _) as [|[w2 st]] eqn:Hp; [done|]. intros [= <- <-]. rewrite last_snoc. intros [= ->] Hv Ha.
  destruct (persist_inv _ _ _ _ _ _ _ _ _ Hp) as (_ & _ & _ & [_ _ _ _ [Es _]]). rewrite Es in Hv, Ha.
  destruct (conflict_result _ _ _ _ _ _ _ _ _ Hc) as [->| ->]; [|done].
  pose proof Hf1 as Hf2. unfold fits in Hf2. rewrite Hv, Ha in Hf2. destruct Hf2 as (_ & Hg & Hsp).
  assert (Hw : written None r = Some a) by (unfold written; by rewrite Hv, Ha).
  destruct (adjusted_owner _ _ _ Hv Ha) as [[a' Ha'] Hown]. split_and!.
  - apply (opening_kind caps _ nowMs a'). unfold opening. by rewrite Hr.
  - rewrite <- Hw. eapply wr_attempt, persist_wrote; [exact Hok1|exact Hf1|exact Hp| |exact Hg].
    rewrite Hw. by intros ? [= <-].
  - by apply opened_phase in Hsp.
  - done.
Qed.

Lemma observe_opened caps opts ev w o (x : ObserveResult) a :
  db_ok (w_db w) -> opening_free ev (w_db w) -> resolveAttempt ev (w_db w) = None ->
  observe deps host 2 caps opts ev w = Some o -> od_answer o = inr x -> ob_verdict x = Ov_applied -> ob_attempt x = Some a ->
  getAttempt (a_attemptId a) (w_db (od_world o)) = Some a /\ a_terminal a = None
  /\ a_ownerDaemonId a = dp_selfDaemonId deps.
Proof.
  intros Hok Hfree Hn Ho Hx Hv Ha. pose proof (resolve_resolved _ _ Hok Hfree) as Hres. rewrite Hn in Hres.
  revert Ho. remember 1%nat as n eqn:En. cbn [observe].
  destruct (negb (well_formed ev)); [intros [= <-]; by injection Hx as <-|].
  destruct (hasEvent _ _); [intros [= <-]; by injection Hx as <-|]. rewrite Hn.
  destruct (foreign_owner _ _ _) as [owner|].
  { unfold forward. destruct (e_attemptRef ev); intros [= <-]; by injection Hx as <-. }
  destruct (applyStep _ _ _ _ _ _ _ _) as [t|[w' steps]] eqn:Hst.
  { destruct t; intros [= <-]; try done. by injection Hx as <-. }
  destruct (applyStep_nonempty _ _ _ _ _ _ _ _ Hst) as [step Hl].
  destruct (post_commit _ _ _ _) as [[[w'' calls] t]|] eqn:Hp; [|done]. destruct t; intros [= <-]; [done|].
  cbn in Hx. rewrite Hl in Hx. injection Hx as <-. cbn in Hv, Ha.
  assert (Hva : res_verdict (s_result step) = V_applied) by by destruct (res_verdict (s_result step)).
  destruct (applyStep_opened _ _ _ _ _ _ _ _ _ Hok Hres Hst Hl Hva Ha) as [Hk H].
  enough (w'' = w') as -> by done.
  assert (Hk' : ev_kind ev <> K_hold_expired) by (intros E; rewrite E in Hk; apply list_elem_of_In in Hk; cbn in Hk; intuition congruence).
  destruct (post_commit_none (fun ev w => observe deps host n caps opts ev w) (dp_now deps (e_eventId ev)) steps w'
    (applyStep_effects _ _ _ _ _ _ _ _ Hk' Hst)) as [calls' Hc].
  destruct (Hc (fun _ _ => None)) as [E _]. rewrite E in Hp. by injection Hp as <-.
Qed.
End Answers.
