(* ===== verification/StoreTheorems.v ===== *)
(** * Every write of the ledger keeps the store's invariant

    The operations of the ledger and of its store as one step relation, and the
    invariant along every sequence of them. *)

From stdpp Require Import relations.
From S2P Require Import Prelude TurnEvidence Vocabulary EvidenceGuard TurnPolicy TurnTypes Transitions Guards Reducer LedgerInv LedgerReduce LedgerContract LedgerVerdicts LedgerExpiry DaemonId TurnStore TurnEffects TurnLedger TurnPublish StoreFacts StoreInv StoreAnswers.

#[local] Open Scope string_scope.
#[local] Open Scope Z_scope.

(** ** Statements of the store *)

(** Event rows may change columns the invariant does not read. *)
Lemma same_events_ok db es :
  Forall2 same_event (db_events db) es -> db_ok db -> db_ok {| db with db_events := es |}.
Proof. intros He. apply db_ok_same; try done. intros id. by apply same_events_commits. Qed.

Lemma update_pending_ok id f db :
  (forall e, same_event e (f e)) -> db_ok db -> db_ok (update_pending id f db).
Proof. intros Hf. apply same_events_ok, map_same_events. intros e. case_match; [done|apply same_event_refl]. Qed.

Lemma insertEvent_ok row db : (forall id, commit_of id row = None) -> db_ok db -> db_ok (snd (insertEvent row db)).
Proof. intros Hc Hok. exact (insert_keeps row {| w_db := db; w_host := tt |} Hc Hok). Qed.

Lemma claim_not_commit w s m sid o k now id : commit_of id (claim_row w s m sid o k now) = None.
Proof. done. Qed.

Lemma notice_not_commit u now n id : commit_of id (notice_row u now n) = None.
Proof. done. Qed.

(** Released claims are no commits. *)
Lemma releaseDeliveryClaim_ok id db : db_ok db -> db_ok (snd (releaseDeliveryClaim id db)).
Proof.
  unfold releaseDeliveryClaim. case_match; [|done]. cbn. apply db_ok_same; try done. intros id'.
  unfold commits_of. cbn. induction (db_events db) as [|e es IH]; [done|]. cbn.
  destruct (bool_decide (er_eventId e = id) && bool_decide (er_kind e = "delivered")) eqn:E; cbn; [|by rewrite IH].
  breflect. unfold commit_of at 2. rewrite (bool_decide_false (er_kind e = "committed")) by congruence. done.
Qed.

(** Rows may change columns the invariant does not read. *)
Definition same_row (r r' : AttemptRow) : Prop :=
  let a := attemptFromRow r in let a' := attemptFromRow r' in
  ra_attempt_id r' = ra_attempt_id r
  /\ (forall r0, clashes r' r0 = clashes r r0)
  /\ (forall hs, ledger_ok a hs -> ledger_ok a' hs) /\ phase (Some a') = phase (Some a).

Lemma same_rows_ok (f : AttemptRow -> AttemptRow) db :
  (forall r, same_row r (f r)) -> db_ok db -> db_ok {| db with db_attempts := map f (db_attempts db) |}.
Proof.
  intros Hf [K1 K2 K3 K4 K5].
  assert (Hids : map ra_attempt_id (map f (db_attempts db)) = map ra_attempt_id (db_attempts db)).
  { rewrite map_map. apply map_ext. intros r. apply (Hf r). }
  assert (Hg : forall id, getAttempt id {| db with db_attempts := map f (db_attempts db) |}
                          = attemptFromRow <$> (f <$> find_attempt id db)).
  { intros id. unfold getAttempt, find_attempt. cbn. f_equal. clear - Hf.
    induction (db_attempts db) as [|r rs IH]; [done|]. cbn.
    destruct (Hf r) as [-> _]. case_bool_decide; [done|apply IH]. }
  constructor; try done.
  - cbn. by rewrite Hids.
  - cbn. intros ? ? (r1 & -> & H1)%list_elem_of_fmap (r2 & -> & H2)%list_elem_of_fmap.
    destruct (Hf r1) as (-> & C1 & _), (Hf r2) as (-> & C2 & _). intros Hne.
    rewrite C1, clashes_sym, C2, clashes_sym. by apply K2.
  - intros id a. rewrite Hg. destruct (find_attempt id db) as [r|] eqn:Hr; [|done]. intros [= <-].
    apply (Hf r). apply K4. unfold getAttempt. by rewrite Hr.
  - intros id. change (commits_of id {| db with db_attempts := map f (db_attempts db) |}) with (commits_of id db).
    rewrite K5, Hg. unfold getAttempt. destruct (find_attempt id db) as [r|]; [|done]. cbn [fmap option_fmap option_map].
    by destruct (Hf r) as (_ & _ & _ & ->).
Qed.

Lemma markProbed_ok id nowMs db : db_ok db -> db_ok (markProbed id nowMs db).
Proof.
  apply same_rows_ok. intros r. case_decide; [|by split_and!]. split_and!; try done.
  - cbv zeta. intros hs [K1 K2 K3 K4 K5]. constructor; try done.
    + eapply Forall_impl; [exact K1|]. intros h. by apply hold_ok_ident.
    + unfold state_ok in *. cbn in *. by destruct (ra_terminal r).
  - unfold phase. cbn. by destruct (ra_terminal r).
Qed.

(** *** Deleting an attempt *)

Lemma find_filter {A} (P Q : A -> bool) l :
  (forall x, P x = true -> Q x = true) -> List.find P (List.filter Q l) = List.find P l.
Proof.
  intros H. induction l as [|x l IH]; [done|]. cbn. destruct (Q x) eqn:EQ; cbn; [by rewrite IH|].
  destruct (P x) eqn:EP; [|done]. by rewrite H in EQ.
Qed.

Lemma delete_get id id' db :
  NoDup (map ra_attempt_id (db_attempts db)) ->
  getAttempt id' (delete_attempt id db) = if decide (id' = id) then None else getAttempt id' db.
Proof.
  intros Hn. unfold getAttempt, find_attempt. cbn. case_decide as E.
  - subst id'. destruct (List.find _ _) as [r|] eqn:Hf; [|done]. apply find_some in Hf as [Hin Hr]. breflect.
    apply filter_In in Hin as [_ Hneg]. breflect. done.
  - f_equal. apply find_filter. intros r Hr. breflect. rewrite bool_decide_false; [done|congruence].
Qed.

Lemma delete_commits id id' db :
  commits_of id' (delete_attempt id db) = if decide (id' = id) then [] else commits_of id' db.
Proof.
  unfold commits_of. cbn. induction (db_events db) as [|e es IH]; cbn; [by case_decide|].
  unfold commit_of at 2. destruct (bool_decide (er_attemptId e = Some id)) eqn:E; cbn; [|unfold commit_of at 1]; rewrite IH; breflect.
  - case_decide as Ed; [done|]. rewrite (bool_decide_false (er_attemptId e = Some id')) by congruence. by rewrite andb_false_r.
  - case_decide as Ed; [|done]. subst. by rewrite (bool_decide_false (er_attemptId e = Some id)), andb_false_r by done.
Qed.

Lemma delete_ok id db : db_ok db -> db_ok (delete_attempt id db).
Proof.
  intros [K1 K2 K3 K4 K5]. constructor.
  - by apply NoDup_map_filter.
  - cbn. intros r1 r2 [H1 _]%filter_elem [H2 _]%filter_elem. by apply K2.
  - destruct K3 as [H1 H2]. split; cbn; [by apply NoDup_map_filter|]. intros h [Hh _]%filter_elem. by apply H2.
  - intros id' a. rewrite delete_get by done. case_decide as E; [done|]. intros Ha.
    apply (ledger_ok_perm _ (activeHolds id' db)); [|by apply K4]. rewrite !activeHolds_perm. cbn.
    enough (Ef : List.filter (active_of id') (db_holds db) = List.filter (active_of id')
      (List.filter (fun h => negb (bool_decide (h_attemptId (hr_hold h) = id))) (db_holds db))) by by rewrite Ef.
    clear - E. induction (db_holds db) as [|h hs IH]; [done|]. cbn. unfold active_of at 1.
    destruct (bool_decide (h_attemptId (hr_hold h) = id)) eqn:Eh; cbn [negb].
    + breflect. rewrite (bool_decide_false (h_attemptId (hr_hold h) = id')) by congruence. done.
    + cbn [List.filter]. unfold active_of at 2. rewrite <- IH. done.
  - intros id'. rewrite delete_get, delete_commits, K5 by done. by case_decide.
Qed.

Lemma delete_all_ok ids db : db_ok db -> db_ok (fold_left (fun d id => delete_attempt id d) ids db).
Proof. revert db. induction ids as [|id ids IH]; intros db Hok; [done|]. cbn. by apply IH, delete_ok. Qed.

(** *** Draining *)

Section DrainKeeps.
Context {Topics : Type} (sha1_16 : string -> string)
  (publish : string -> list (string * JValue) -> option SummaryRef -> Topics -> Topics * PublishAnswer).
Implicit Types (st : DrainState (Topics:=Topics)).

Lemma drain_row_ok st row : db_ok (dn_db st) -> db_ok (dn_db (fst (drain_row sha1_16 publish st row))).
Proof.
  intros Hok. unfold drain_row. destruct (publishable sha1_16 row) as [target|]; [|done]. case_bool_decide; [done|].
  destruct (publish _ _ _ _) as [topics []]; cbn; try done; by apply update_pending_ok.
Qed.

Lemma drain_rows_ok rows st n : db_ok (dn_db st) -> db_ok (dn_db (fst (drain_rows sha1_16 publish rows st n))).
Proof.
  revert st n. induction rows as [|row rows IH]; intros st n Hok; [done|]. cbn.
  pose proof (drain_row_ok st row Hok) as H. destruct (drain_row _ _ st row) as [st' ok]. by apply IH.
Qed.

Lemma drain_loop_ok fuel st st' :
  db_ok (dn_db st) -> drain_loop sha1_16 publish fuel st = Some st' -> db_ok (dn_db st').
Proof.
  revert st. induction fuel as [|fuel IH]; intros st Hok; [done|]. cbn.
  pose proof (drain_rows_ok (pendingPublish PUBLISH_BATCH (dn_db st)) st 0 Hok) as H.
  destruct (drain_rows _ _ _ st 0) as [st1 n]. case_match; [by intros [= <-]|]. by apply IH.
Qed.

Lemma drain_ok db topics db' topics' report :
  db_ok db -> drain sha1_16 publish db topics = Some (db', topics', report) -> db_ok db'.
Proof.
  intros Hok. unfold drain. destruct (drain_loop _ _ _ _) as [st|] eqn:E; [|done]. intros [= <- _ _].
  by eapply drain_loop_ok; [|exact E].
Qed.
End DrainKeeps.

(** ** The operations as steps *)

Section Reach.
Context {Host : Type} (deps : TurnLedgerDeps) (host : option (TurnTxnHost Host)).
Implicit Types (w : World (Host:=Host)).

(** One operation of the ledger or of its store. *)
Inductive ledger_step : World (Host:=Host) -> World (Host:=Host) -> Prop :=
| ls_observe caps opts ev w o :
    opening_free ev (w_db w) -> observe deps host 2 caps opts ev w = Some o -> ledger_step w (od_world o)
| ls_sweep nowMs w w' r : sweepExpiredHolds deps host nowMs w = Some (w', r) -> ledger_step w w'
| ls_settle uuid request receipt w o :
    settleWriterStop deps host uuid request receipt w = Some o -> ledger_step w (od_world o)
| ls_unreachable a mode w b o : settleUnreachable deps host a mode w = Some (b, o) -> ledger_step w (od_world o)
| ls_notice uuid nowMs notice w :
    ledger_step w {| w with w_db := snd (notifyMeshEvent uuid nowMs notice (w_db w)) |}
| ls_claim writer seq meshId sessionId outcome wakeKey nowMs w :
    ledger_step w {| w with w_db := snd (claimDelivery writer seq meshId sessionId outcome wakeKey nowMs (w_db w)) |}
| ls_release id w : ledger_step w {| w with w_db := snd (releaseDeliveryClaim id (w_db w)) |}
| ls_probed id nowMs w : ledger_step w {| w with w_db := markProbed id nowMs (w_db w) |}
| ls_prune_plain older nowMs w : ledger_step w {| w with w_db := pruneTerminalPlainAttempts older nowMs (w_db w) |}
| ls_prune_mesh older nowMs w : ledger_step w {| w with w_db := pruneTerminalMeshAttempts older nowMs (w_db w) |}
| ls_drain Topics sha1_16 publish (topics : Topics) w db' topics' report :
    drain sha1_16 publish (w_db w) topics = Some (db', topics', report) -> ledger_step w {| w with w_db := db' |}.

(** The worlds a run of operations reaches from empty tables. *)
Definition reachable w : Prop := exists h, rtc ledger_step {| w_db := empty_db; w_host := h |} w.

Lemma sweep_db_ok evs w w' r :
  Forall (fun ev => ev_kind ev = K_hold_expired) evs -> db_ok (w_db w) ->
  sweep_evidence deps host evs w = Some (w', r) -> db_ok (w_db w').
Proof.
  revert w w' r. induction evs as [|ev evs IH]; intros w w' r Hf Hok; cbn [sweep_evidence]; [by intros [= <- _]|].
  inversion Hf as [|? ? Hk Hf']; subst. destruct (observe _ _ _ _ _ _ _) as [o|] eqn:Ho; [|done].
  assert (Hok' : db_ok (w_db (od_world o))).
  { eapply observe_ok; [exact Hok| |exact Ho]. intros E. congruence. }
  destruct (od_answer o); [by intros [= <- _]|].
  destruct (sweep_evidence _ _ evs _) as [[w1 [t|rs]]|] eqn:Hs; [| |done]; intros [= <- _]; by eapply IH.
Qed.

Lemma expired_kinds nowMs w : Forall (fun ev => ev_kind ev = K_hold_expired) (expiredHoldEvidence deps nowMs w).
Proof. unfold expiredHoldEvidence, expireHolds. apply Forall_forall. intros ev (h & -> & _)%list_elem_of_fmap. done. Qed.

Lemma settle_free eventId at_ s a g db : opening_free (settle_evidence deps eventId at_ s a g) db.
Proof. done. Qed.

Lemma ledger_step_ok w w' : ledger_step w w' -> db_ok (w_db w) -> db_ok (w_db w').
Proof.
  destruct 1 as [caps opts ev w o Hf Ho|nowMs w w' r Hs|uuid rq rc w o Hs|a mode w b o Hs|uuid now n w
    |wr s m sid oc k now w|id w|id now w|older now w|older now w|T sha pub tp w db' tp' rep Hd]; intros Hok; cbn.
  - by eapply observe_ok.
  - eapply sweep_db_ok; [apply expired_kinds|exact Hok|exact Hs].
  - unfold settleWriterStop in Hs. destruct (receipt_accepted _ _ _); [|by injection Hs as <-].
    destruct (observe _ _ _ _ _ _ _) as [o'|] eqn:Ho; [|done]. injection Hs as <-.
    assert (db_ok (w_db (od_world o'))) by (eapply observe_ok; [exact Hok|apply settle_free|exact Ho]).
    by repeat case_match.
  - unfold settleUnreachable in Hs. destruct (d_writerStop _); [|by injection Hs as <- <-].
    destruct (observe _ _ _ _ _ _ _) as [o'|] eqn:Ho; [|done]. injection Hs as Hs.
    assert (db_ok (w_db (od_world o'))) by (eapply observe_ok; [exact Hok|apply settle_free|exact Ho]).
    by repeat case_match; simplify_eq.
  - by apply insertEvent_ok.
  - by apply insertEvent_ok.
  - by apply releaseDeliveryClaim_ok.
  - by apply markProbed_ok.
  - by apply delete_all_ok.
  - by apply delete_all_ok.
  - by eapply drain_ok.
Qed.

Lemma reachable_ok w : reachable w -> db_ok (w_db w).
Proof.
  intros [h Hr]. remember {| w_db := empty_db; w_host := h |} as w0 eqn:E.
  assert (H0 : db_ok (w_db w0)) by (subst w0; apply empty_db_ok). clear E.
  induction Hr as [|w1 w2 w3 Hs _ IH]; [done|]. apply IH. by eapply ledger_step_ok.
Qed.

(** Event ids stay unique. *)
Lemma events_filter (P : TurnEventRow -> bool) db db' :
  db_events db' = List.filter P (db_events db) -> NoDup (event_ids db) -> NoDup (event_ids db').
Proof. unfold event_ids. intros ->. apply NoDup_map_filter. Qed.

Lemma delete_all_events ids db :
  NoDup (event_ids db) -> NoDup (event_ids (fold_left (fun d id => delete_attempt id d) ids db)).
Proof.
  revert db. induction ids as [|id ids IH]; intros db Hn; [done|]. cbn. apply IH. by eapply events_filter.
Qed.

Lemma sweep_grows evs w w' r : sweep_evidence deps host evs w = Some (w', r) -> grows (w_db w) (w_db w').
Proof.
  revert w w' r. induction evs as [|ev evs IH]; intros w w' r; cbn [sweep_evidence]; [intros [= <- _]; apply grows_refl|].
  destruct (observe _ _ _ _ _ _ _) as [o|] eqn:Ho; [|done]. apply observe_grows in Ho.
  destruct (od_answer o); [by intros [= <- _]|].
  destruct (sweep_evidence _ _ evs _) as [[w1 [t|rs]]|] eqn:Hs; [| |done]; intros [= <- _]; eauto using grows_trans.
Qed.

Lemma update_pending_ids id f db : (forall e, same_event e (f e)) -> event_ids (update_pending id f db) = event_ids db.
Proof.
  intros Hf. apply same_events_ids, map_same_events. intros e. case_match; [done|apply same_event_refl].
Qed.

Lemma drain_ids {Topics} sha1_16 publish (topics : Topics) db db' topics' report :
  drain sha1_16 publish db topics = Some (db', topics', report) -> event_ids db' = event_ids db.
Proof.
  assert (Hrows : forall rows (st : DrainState (Topics:=Topics)) n,
    event_ids (dn_db (fst (drain_rows sha1_16 publish rows st n))) = event_ids (dn_db st)).
  { induction rows as [|row rows IH]; intros st n; [done|]. cbn.
    assert (H : event_ids (dn_db (fst (drain_row sha1_16 publish st row))) = event_ids (dn_db st)).
    { unfold drain_row. destruct (publishable sha1_16 row); [|done]. case_bool_decide; [done|].
      destruct (publish _ _ _ _) as [? []]; cbn; try done; by apply update_pending_ids. }
    destruct (drain_row _ _ st row) as [st' ok]. by rewrite IH. }
  assert (Hloop : forall fuel (st st' : DrainState (Topics:=Topics)),
    drain_loop sha1_16 publish fuel st = Some st' -> event_ids (dn_db st') = event_ids (dn_db st)).
  { induction fuel as [|fuel IH]; intros st st'; [done|]. cbn.
    specialize (Hrows (pendingPublish PUBLISH_BATCH (dn_db st)) st 0%nat).
    destruct (drain_rows _ _ _ st 0) as [st1 n]. cbn in Hrows. case_match; [by intros [= <-]|]. intros ->%IH. done. }
  unfold drain. destruct (drain_loop _ _ _ _) as [st|] eqn:E; [|done]. intros [= <- _ _]. by apply Hloop in E.
Qed.

Lemma ledger_step_events w w' : ledger_step w w' -> NoDup (event_ids (w_db w)) -> NoDup (event_ids (w_db w')).
Proof.
  destruct 1 as [caps opts ev w o Hf Ho|nowMs w w' r Hs|uuid rq rc w o Hs|a mode w b o Hs|uuid now n w
    |wr s m sid oc k now w|id w|id now w|older now w|older now w|T sha pub tp w db' tp' rep Hd]; cbn.
  - by apply observe_grows in Ho as [].
  - by apply sweep_grows in Hs as [].
  - unfold settleWriterStop in Hs. destruct (receipt_accepted _ _ _); [|by injection Hs as <-].
    destruct (observe _ _ _ _ _ _ _) as [o'|] eqn:Ho; [|done]. injection Hs as <-. apply observe_grows in Ho as [].
    by repeat case_match.
  - unfold settleUnreachable in Hs. destruct (d_writerStop _); [|by injection Hs as <- <-].
    destruct (observe _ _ _ _ _ _ _) as [o'|] eqn:Ho; [|done]. injection Hs as Hs. apply observe_grows in Ho as [].
    by repeat case_match; simplify_eq.
  - apply insertEvent_grows.
  - apply insertEvent_grows.
  - unfold releaseDeliveryClaim. case_match; [|done]. apply NoDup_map_filter.
  - done.
  - apply delete_all_events.
  - apply delete_all_events.
  - by rewrite (drain_ids _ _ _ _ _ _ _ Hd).
Qed.

Lemma reachable_events w : reachable w -> NoDup (event_ids (w_db w)).
Proof.
  intros [h Hr]. remember {| w_db := empty_db; w_host := h |} as w0 eqn:E.
  assert (H0 : NoDup (event_ids (w_db w0))) by (subst w0; constructor). clear E.
  induction Hr as [|w1 w2 w3 Hs _ IH]; [done|]. apply IH. by eapply ledger_step_events.
Qed.
End Reach.

(** * What the turn ledger guarantees with its store

    The properties of the ledger as a whole, of every run of its operations. *)

(** ** A concrete ledger *)

Definition sample_deps : TurnLedgerDeps := {|
  dp_selfDaemonId := "daemon-1"; dp_policy := DEFAULT_TURN_POLICY; dp_now := fun _ => 5000;
  dp_released := fun _ _ => false; dp_inspect := fun _ _ => None; dp_sanitize := fun s => s; dp_isPending := fun _ => false |}.

Definition no_host : option (TurnTxnHost unit) := None.

Definition sample_world : World := {| w_db := empty_db; w_host := tt |}.

(** Observe evidence in order. *)
Definition observed_after (ev : TurnEvidence) (w : World (Host:=unit)) : World :=
  match observe sample_deps no_host 2 no_capabilities no_options ev w with Some o => od_world o | None => w end.

Definition observe_all (evs : list TurnEvidence) (w : World (Host:=unit)) : World :=
  fold_left (fun w ev => observed_after ev w) evs w.

(** Each opens under a free id. *)
Definition free_now (ev : TurnEvidence) (w : World (Host:=unit)) : bool :=
  negb (bool_decide (ev_kind ev = K_turn_started)) || negb (present (getAttempt (opening_id ev) (w_db w))).

Fixpoint all_free (evs : list TurnEvidence) (w : World (Host:=unit)) : bool :=
  match evs with [] => true | ev :: evs => free_now ev w && all_free evs (observed_after ev w) end.

(** A dispatched attempt, its turn and its report; and two turns of one plain
    session. *)
Definition dispatched_evidence : list TurnEvidence :=
  map ar_evidence [sample_dispatch; sample_started; sample_report 3000].

Definition plain_turn (id : string) (at_ : Z) : TurnEvidence :=
  let ev := ar_evidence (unbound at_ (turn_started false)) in
  {| ev with ev_env := {| (ev_env ev) with e_eventId := id; e_sessionId := "session-2" |} |}.

Example samples_well_formed :
  forallb well_formed (plain_turn "p-1" 10 :: plain_turn "p-2" 20 :: dispatched_evidence) = true.
Proof. vm_compute. reflexivity. Qed.

Definition reported_world : World := Eval vm_compute in observe_all dispatched_evidence sample_world.
Definition plain_world : World := Eval vm_compute in observe_all [plain_turn "p-1" 10] sample_world.

Lemma free_now_free ev w : free_now ev w = true -> opening_free ev (w_db w).
Proof.
  unfold free_now, opening_free. intros [H|H]%orb_true_iff E; breflect; [done|]. by destruct (getAttempt _ _).
Qed.

Lemma observe_all_reachable evs w :
  all_free evs w = true -> reachable sample_deps no_host w -> reachable sample_deps no_host (observe_all evs w).
Proof.
  revert w. induction evs as [|ev evs IH]; intros w Hf Hr; [done|]. cbn in Hf |- *. breflect. apply IH; [done|].
  unfold observed_after. destruct (observe _ _ _ _ _ _ _) as [o|] eqn:Ho; [|done].
  destruct Hr as [h Hr]. exists h. eapply rtc_r; [exact Hr|]. eapply ls_observe; [|exact Ho]. by apply free_now_free.
Qed.

Lemma start_reachable : reachable sample_deps no_host sample_world.
Proof. exists tt. constructor. Qed.

Definition committed_evidence : list TurnEvidence := map ar_evidence [sample_dispatch; sample_report 1500].
Definition committed_world : World := Eval vm_compute in observe_all committed_evidence sample_world.

Lemma committed_reachable : reachable sample_deps no_host committed_world.
Proof. apply (observe_all_reachable committed_evidence sample_world); [vm_compute; reflexivity|exact start_reachable]. Qed.

Lemma plain_reachable : reachable sample_deps no_host plain_world.
Proof. apply (observe_all_reachable [plain_turn "p-1" 10] sample_world); [vm_compute; reflexivity|exact start_reachable]. Qed.

Lemma reported_reachable : reachable sample_deps no_host reported_world.
Proof. apply (observe_all_reachable dispatched_evidence sample_world); [vm_compute; reflexivity|exact start_reachable]. Qed.

Example committed_shape :
  map (fun e => (er_kind e, er_eventId e)) (db_events (w_db committed_world))
  = [("dispatch_accepted", "e-dispatch"); ("worker_report", "e-report"); ("committed", "e-report#committed");
     ("notify", "e-report#notify:blocked")].
Proof. vm_compute. reflexivity. Qed.

(** ** Every run *)



Definition is_commit_of (id : string) (e : TurnEventRow) : bool :=
  bool_decide (er_kind e = "committed") && bool_decide (er_attemptId e = Some id).

Lemma commits_filter id db :
  commits_of id db = map (fun e => (er_generation e, er_toState e)) (List.filter (is_commit_of id) (db_events db)).
Proof.
  unfold commits_of. induction (db_events db) as [|e es IH]; [done|]. cbn. unfold commit_of at 1.
  fold (is_commit_of id e). destruct (is_commit_of id e); cbn; by rewrite IH.
Qed.



(** ** Observing *)

(** C7: [observe] always answers: two levels of re-observation are enough, and more
    change nothing. *)
Theorem observe_always_answers {Host} deps (host : option (TurnTxnHost Host)) caps opts ev w fuel :
  exists o, observe deps host 2 caps opts ev w = Some o /\ observe deps host (2 + fuel) caps opts ev w = Some o.
Proof. apply observe_total. Qed.

(** C8: On a store in order, [observe] throws only what the queue tables throw, a
    commit event whose id is taken, or the dispatch of an attempt number its task
    already has. It fails no assertion, and the index of open sessions never
    refuses a write. *)
Theorem observe_fails_only {Host} deps (host : option (TurnTxnHost Host)) caps opts ev w o t :
  db_ok (w_db w) -> opening_free ev (w_db w) -> observe deps host 2 caps opts ev w = Some o -> od_answer o = inl t ->
  t = Th_host \/ t = Th_second_commit
  \/ t = Th_constraint /\ exists a id b, opening deps caps ev (dp_now deps (e_eventId ev)) = Some a
       /\ getAttempt id (w_db w) = Some b /\ id <> a_attemptId a /\ same_task a b.
Proof. apply observe_error. Qed.

(** A second dispatch of the same attempt number. *)
Definition second_dispatch : TurnEvidence :=
  let ev := ar_evidence sample_dispatch in
  {| ev with ev_env := {| (ev_env ev) with e_eventId := "e-again"; e_sessionId := "session-9";
       e_attemptRef := Some {| ref_attemptId := "attempt-9"; ref_generation := 1 |} |} |}.

Lemma observe_fails_only_witness :
  exists o, observe sample_deps no_host 2 no_capabilities no_options second_dispatch committed_world = Some o
    /\ od_answer o = inl Th_constraint
    /\ exists a id b, opening sample_deps no_capabilities second_dispatch 5000 = Some a
         /\ getAttempt id (w_db committed_world) = Some b /\ id <> a_attemptId a /\ same_task a b.
Proof.
  eexists. split; [vm_compute; reflexivity|]. split; [reflexivity|].
  destruct (observe_fails_only sample_deps no_host no_capabilities no_options second_dispatch committed_world _ Th_constraint
    (reachable_ok _ _ _ committed_reachable) ltac:(discriminate) ltac:(vm_compute; reflexivity) eq_refl)
    as [H|[H|[_ H]]]; [discriminate H|discriminate H|exact H].
Defined.

(** C9: Evidence that was applied or recorded is remembered: observed again, with
    any options, it is answered as a duplicate and nothing changes. Probe samples
    are excepted, which the store aggregates. *)
Theorem observe_idempotent {Host} deps (host : option (TurnTxnHost Host)) caps opts caps' opts' ev w o (x : ObserveResult) :
  observe deps host 2 caps opts ev w = Some o -> od_answer o = inr x -> ob_verdict x ∈ [Ov_applied; Ov_recorded] ->
  e_source ev <> Src_coordinator_probe ->
  observe deps host 2 caps' opts' ev (od_world o)
  = Some {| od_world := od_world o; od_calls := []; od_answer := inr (bare_result Ov_duplicate None) |}.
Proof.
  intros Ho Ha Hv Hs. destruct (observe_remembers _ _ _ _ _ _ _ _ _ Ho Ha Hv Hs) as [Hw Hh].
  remember 1%nat as n eqn:En. cbn [observe]. by rewrite Hw, Hh.
Qed.

Definition first_turn : Observed := Eval vm_compute in
  nullish (observe sample_deps no_host 2 no_capabilities no_options (plain_turn "p-1" 10) sample_world)
    (answered sample_world (bare_result Ov_duplicate None)).

Lemma observe_idempotent_witness :
  observe sample_deps no_host 2 no_capabilities no_options (plain_turn "p-1" 10) (od_world first_turn)
  = Some {| od_world := od_world first_turn; od_calls := []; od_answer := inr (bare_result Ov_duplicate None) |}.
Proof.
  eapply (observe_idempotent sample_deps no_host no_capabilities no_options no_capabilities no_options (plain_turn "p-1" 10)
    sample_world first_turn); [vm_compute; reflexivity|reflexivity|left|discriminate].
Defined.

(** Evidence that opens an attempt makes it the session's open one, owned by
    this daemon: an open plain turn of the session was closed in the same
    transaction. *)
Theorem opened_attempt_owns_session {Host} deps (host : option (TurnTxnHost Host)) caps opts ev w o (x : ObserveResult) a :
  db_ok (w_db w) -> opening_free ev (w_db w) -> resolveAttempt ev (w_db w) = None ->
  observe deps host 2 caps opts ev w = Some o -> od_answer o = inr x -> ob_verdict x = Ov_applied -> ob_attempt x = Some a ->
  findOpenAttemptForSession (a_sessionId a) (w_db (od_world o)) = Some a
  /\ getAttempt (a_attemptId a) (w_db (od_world o)) = Some a /\ a_ownerDaemonId a = dp_selfDaemonId deps.
Proof.
  intros Hok Hfree Hn Ho Hx Hv Ha.
  destruct (observe_opened _ _ _ _ _ _ _ _ _ Hok Hfree Hn Ho Hx Hv Ha) as (Hg & Ht & Hown). split_and!; try done.
  eapply open_found; [by eapply observe_ok|exact Hg|done|done].
Qed.

(** A dispatch into the session of the plain turn. *)
Definition takeover : TurnEvidence :=
  let ev := ar_evidence sample_dispatch in {| ev with ev_env := {| (ev_env ev) with e_sessionId := "session-2" |} |}.

Definition taken_over : Observed := Eval vm_compute in
  nullish (observe sample_deps no_host 2 no_capabilities no_options takeover plain_world)
    (answered sample_world (bare_result Ov_duplicate None)).

Lemma opened_attempt_owns_session_witness :
  exists a, findOpenAttemptForSession "session-2" (w_db (od_world taken_over)) = Some a
    /\ a_attemptId a = "attempt-1"
    /\ (t_reason <$> (getAttempt "plain:session-2:p-1" (w_db (od_world taken_over)) ≫= a_terminal)) = Some R_superseded.
Proof.
  destruct (opened_attempt_owns_session sample_deps no_host no_capabilities no_options takeover plain_world taken_over
    _ _ (reachable_ok _ _ _ plain_reachable) ltac:(discriminate) eq_refl ltac:(vm_compute; reflexivity)
    eq_refl eq_refl eq_refl) as [H _].
  eexists. split; [exact H|]. split; vm_compute; reflexivity.
Defined.

(** ** Stored attempts *)

(** What is stored of an attempt reads back as the attempt, and the rows of other
    attempts are as they were. *)
Theorem stored_attempt_reads_back a nowMs extras db db' id :
  NoDup (map ra_attempt_id (db_attempts db)) -> upsertAttempt a nowMs extras db = Some db' ->
  getAttempt id db' = if decide (id = a_attemptId a) then Some a else getAttempt id db.
Proof. apply getAttempt_upsert. Qed.

Lemma stored_attempt_reads_back_witness :
  exists a db', upsertAttempt a 1 no_extras (w_db plain_world) = Some db'
    /\ getAttempt (a_attemptId a) db' = if decide (a_attemptId a = a_attemptId a) then Some a
                                        else getAttempt (a_attemptId a) (w_db plain_world).
Proof.
  destruct sample_done as [[a|] hs] eqn:E; [|discriminate E].
  exists a. injection E as <- <-. eexists. split; [vm_compute; reflexivity|].
  apply (stored_attempt_reads_back _ 1 no_extras (w_db plain_world)); [|vm_compute; reflexivity].
  cbn. apply NoDup_singleton.
Defined.
