(* ===== verification/DrainTheorems.v ===== *)
(** * Draining the pending rows

    A drain ends, publishes the rows of each mesh in the order they were
    recorded and stops at the mesh's first failure, and leaves nothing behind
    but rows it could not publish, unless they fill a whole batch. *)

From stdpp Require Import sorting.
From stdpp Require Import pretty.
From S2P Require Import Prelude TurnEvidence Vocabulary EvidenceGuard TurnPolicy TurnTypes LedgerInv DaemonId TurnStore TurnEffects TurnPublish StoreFacts.

#[local] Open Scope string_scope.
#[local] Open Scope Z_scope.

#[local] Instance by_Z_trans {A} (key : A -> Z) : Transitive (by_Z key).
Proof. intros x y z. unfold by_Z. lia. Qed.

Lemma by_Z_total {A} (key : A -> Z) x y : by_Z key x y \/ by_Z key y x.
Proof. unfold by_Z. lia. Qed.

(** The pending rows in publishing order. *)
Definition pending_rows (db : Db) : list TurnEventRow :=
  order_by (by_Z er_recordedAt) (List.filter is_pending (db_events db)).

Lemma pendingPublish_take n db : pendingPublish n db = take n (pending_rows db).
Proof. done. Qed.

Lemma pending_count db : countPendingPublish None db = length (pending_rows db).
Proof.
  unfold countPendingPublish, pending_rows. rewrite order_by_perm. f_equal. apply filter_ext. intros e. by rewrite andb_true_r.
Qed.

Lemma pending_ids db : NoDup (event_ids db) -> NoDup (map er_eventId (pending_rows db)).
Proof. intros H. unfold pending_rows. rewrite order_by_perm. by apply NoDup_map_filter. Qed.

(** A row taken off the pending rows. *)
Lemma update_pending_rows id f db :
  (forall e, is_pending (f e) = false) ->
  pending_rows (update_pending id f db) = List.filter (fun e => negb (bool_decide (er_eventId e = id))) (pending_rows db).
Proof.
  intros Hf. unfold pending_rows. rewrite <- order_by_filter by first [apply by_Z_trans | apply by_Z_total]. f_equal. cbn.
  induction (db_events db) as [|e es IH]; [done|]. cbn.
  destruct (is_pending e) eqn:Hp; [|by rewrite andb_false_r, Hp].
  rewrite andb_true_r. cbn. destruct (bool_decide (er_eventId e = id)); cbn; [by rewrite Hf|by rewrite Hp, IH].
Qed.

Lemma filter_not_in (id : string) (rows : list TurnEventRow) :
  id ∉ map er_eventId rows -> List.filter (fun e => negb (bool_decide (er_eventId e = id))) rows = rows.
Proof.
  induction rows as [|e rows IH]; [done|]. cbn. intros [Hne Hn]%not_elem_of_cons.
  rewrite bool_decide_false by done. cbn. by rewrite IH.
Qed.

(** Removing the one row of an id. *)
Lemma filter_middle kept row rest :
  NoDup (map er_eventId (kept ++ row :: rest)) ->
  List.filter (fun e => negb (bool_decide (er_eventId e = er_eventId row))) (kept ++ row :: rest)%list = (kept ++ rest)%list.
Proof.
  rewrite map_app. cbn. intros (H1 & H2 & H3)%NoDup_app. apply NoDup_cons in H3 as [H3 H4].
  rewrite List.filter_app. cbn. rewrite bool_decide_true by done. cbn. rewrite !filter_not_in; [done|done|].
  intros Hin. apply (H2 _ Hin). by left.
Qed.

Section Drain.
Context {Topics : Type} (sha1_16 : string -> string)
  (publish : string -> list (string * JValue) -> option SummaryRef -> Topics -> Topics * PublishAnswer).

(** The publisher with a log of its calls and their answers. *)
Definition call : Type := PublishTarget * PublishAnswer.

Definition logged (meshId : string) (entry : list (string * JValue)) (ref : option SummaryRef)
    (t : Topics * list call) : (Topics * list call) * PublishAnswer :=
  let '(t', answer) := publish meshId entry ref t.1 in
  ((t', t.2 ++ [({| pt_meshId := meshId; pt_entry := entry; pt_ref := ref |}, answer)])%list, answer).

Notation LState := (DrainState (Topics := Topics * list call)).
Implicit Types (st : LState) (rows kept : list TurnEventRow) (m : string).

Definition log st : list call := snd (dn_topics st).

(** The targets of a mesh among rows, and its calls. *)
Definition targets m rows : list PublishTarget :=
  List.filter (fun t => bool_decide (pt_meshId t = m)) (omap (publishable sha1_16) rows).

Definition calls_to m (l : list call) : list call := List.filter (fun c => bool_decide (pt_meshId c.1 = m)) l.

Definition failed_call (c : call) : bool := match c.2 with Pa_failed => true | _ => false end.

(** A row that is not published: it has no target, or its mesh is blocked. *)
Definition stuck st (row : TurnEventRow) : Prop :=
  match publishable sha1_16 row with None => True | Some t => pt_meshId t ∈ dn_blocked st end.

(** The state of a drain that started with the pending rows [rows0], while the
    rows [rest] are ahead. *)
Record Draining (rows0 rest : list TurnEventRow) st : Prop := {
  dg_ids : NoDup (map er_eventId (pending_rows (dn_db st)));
  dg_rows : exists kept, pending_rows (dn_db st) = (kept ++ rest)%list /\ Forall (stuck st) kept;
  dg_open : forall m, m ∉ dn_blocked st ->
    (map fst (calls_to m (log st)) ++ targets m rest)%list = targets m rows0
    /\ Forall (fun c => failed_call c = false) (calls_to m (log st));
  dg_blocked : forall m, m ∈ dn_blocked st ->
    exists done c, calls_to m (log st) = (done ++ [c])%list /\ failed_call c = true
      /\ Forall (fun c => failed_call c = false) done /\ map fst (calls_to m (log st)) `prefix_of` targets m rows0 }.

Lemma targets_app m r1 r2 : targets m (r1 ++ r2) = (targets m r1 ++ targets m r2)%list.
Proof. unfold targets. by rewrite omap_app, List.filter_app. Qed.

Lemma calls_to_snoc m l c :
  calls_to m (l ++ [c]) = (calls_to m l ++ if bool_decide (pt_meshId c.1 = m) then [c] else [])%list.
Proof. unfold calls_to. rewrite List.filter_app. cbn. by case_bool_decide. Qed.

(** A row left where it is. *)
Lemma draining_keep rows0 row rest st :
  Draining rows0 (row :: rest) st -> stuck st row -> Draining rows0 rest st.
Proof.
  intros [H1 (kept & H2 & H3) H4 H5] Hs. split; [done| | |done].
  - exists (kept ++ [row])%list. rewrite <- app_assoc. split; [done|]. apply Forall_app. split; [done|].
    by apply Forall_singleton.
  - intros m Hm. destruct (H4 m Hm) as [E F]. split; [|done]. rewrite <- E. f_equal.
    change (row :: rest) with ([row] ++ rest)%list. rewrite targets_app.
    enough (targets m [row] = []) as -> by done. unfold targets, stuck in *. cbn.
    destruct (publishable sha1_16 row) as [t|]; [|done]. cbn. rewrite bool_decide_false; [done|]. by intros <-.
Qed.

Lemma targets_cons row rest t m :
  publishable sha1_16 row = Some t ->
  targets m (row :: rest) = ((if bool_decide (pt_meshId t = m) then [t] else []) ++ targets m rest)%list.
Proof.
  intros Ht. change (row :: rest) with ([row] ++ rest)%list. rewrite targets_app. f_equal. unfold targets. cbn.
  rewrite Ht. cbn. by case_bool_decide.
Qed.

(** A call for the row at the head, with its answer. *)
Definition called st t (topics : Topics) (answer : PublishAnswer) : LState :=
  {| st with dn_topics := (topics, (log st ++ [(t, answer)])%list) |}.

(** A row that leaves the pending rows after its call. *)
Lemma draining_take rows0 row rest st t topics answer f :
  Draining rows0 (row :: rest) st -> publishable sha1_16 row = Some t -> pt_meshId t ∉ dn_blocked st ->
  (forall e, is_pending (f e) = false) -> failed_call (t, answer) = false ->
  forall n k, let st' := {| (called st t topics answer) with dn_db := update_pending (er_eventId row) f (dn_db st);
                                                           dn_published := n; dn_failed := k |} in
  Draining rows0 rest st'
  /\ S (length (pending_rows (dn_db st'))) = length (pending_rows (dn_db st)).
Proof.
  intros [H1 (kept & H2 & H3) H4 H5] Ht Hb Hf Ha n k. cbv zeta. cbn [dn_db called].
  assert (Hrows : pending_rows (update_pending (er_eventId row) f (dn_db st)) = (kept ++ rest)%list).
  { rewrite update_pending_rows, H2 by done. rewrite filter_middle; [done|]. by rewrite <- H2. }
  split; [|rewrite Hrows, H2, !length_app; cbn; lia].
  split; unfold log; cbn [dn_db dn_topics dn_blocked snd called].
  - rewrite Hrows. rewrite H2, map_app in H1. cbn in H1. apply NoDup_app in H1 as (N1 & N2 & N3).
    apply NoDup_cons in N3 as [N3 N4]. rewrite map_app. apply NoDup_app. split_and!; [done| |done].
    intros x Hx Hx'. apply (N2 x Hx). by right.
  - exists kept. rewrite Hrows. split; [done|]. by eapply Forall_impl.
  - intros m Hm. destruct (H4 m Hm) as [E F]. rewrite (targets_cons row rest t m Ht) in E.
    rewrite calls_to_snoc. cbn. case_bool_decide as Em.
    + rewrite map_app, <- app_assoc. split; [done|]. apply Forall_app. split; [done|]. by apply Forall_singleton.
    + by rewrite app_nil_r.
  - intros m Hm. destruct (H5 m Hm) as (d & c & E & F). rewrite calls_to_snoc. cbn.
    rewrite bool_decide_false by (intros Em; apply Hb; by rewrite Em). rewrite app_nil_r. eauto.
Qed.

(** A row whose call failed. *)
Lemma draining_fail rows0 row rest st t topics k :
  Draining rows0 (row :: rest) st -> publishable sha1_16 row = Some t -> pt_meshId t ∉ dn_blocked st ->
  Draining rows0 rest {| (called st t topics Pa_failed) with
    dn_blocked := (dn_blocked st ++ [pt_meshId t])%list; dn_failed := k |}.
Proof.
  intros [H1 (kept & H2 & H3) H4 H5] Ht Hb.
  split; unfold log; cbn [dn_db dn_topics dn_blocked snd called].
  - done.
  - exists (kept ++ [row])%list. rewrite <- app_assoc. split; [done|]. apply Forall_app. split.
    + eapply Forall_impl; [exact H3|]. intros e. unfold stuck. cbn. destruct (publishable sha1_16 e); [|done]. set_solver.
    + apply Forall_singleton. unfold stuck. cbn. rewrite Ht. set_solver.
  - intros m Hm. apply not_elem_of_app in Hm as [Hm Hne]. rewrite list_elem_of_singleton in Hne.
    destruct (H4 m Hm) as [E F]. rewrite (targets_cons row rest t m Ht) in E.
    rewrite calls_to_snoc. cbn. rewrite bool_decide_false in E |- * by congruence. by rewrite app_nil_r.
  - intros m Hm. rewrite calls_to_snoc. cbn. case_bool_decide as Em.
    + subst m. destruct (H4 _ Hb) as [E F]. rewrite (targets_cons row rest t _ Ht), bool_decide_true in E by done.
      exists (calls_to (pt_meshId t) (log st)), (t, Pa_failed). split_and!; try done.
      rewrite map_app. cbn. rewrite <- E, app_assoc. by exists (targets (pt_meshId t) rest).
    + apply elem_of_app in Hm as [Hm|Hm]; [|apply list_elem_of_singleton in Hm; congruence].
      rewrite app_nil_r. by apply H5.
Qed.

Definition step_cost (ok : bool) : nat := if ok then 1 else 0.

Definition unrefused (l : list call) : Prop := Forall (fun c => c.2 <> Pa_refused) l.

(** Rows leave the pending ones by being published, or refused. *)
Record Left st st' (n : nat) : Prop := {
  lf_count : (length (pending_rows (dn_db st')) + n <= length (pending_rows (dn_db st)))%nat;
  lf_log : log st `prefix_of` log st';
  lf_exact : unrefused (log st') -> (length (pending_rows (dn_db st')) + n = length (pending_rows (dn_db st)))%nat }.

Lemma left_refl st : Left st st 0.
Proof. split; [lia|reflexivity|lia]. Qed.

Lemma draining_row rows0 row rest st st' ok :
  Draining rows0 (row :: rest) st -> drain_row sha1_16 logged st row = (st', ok) ->
  Draining rows0 rest st' /\ Left st st' (step_cost ok).
Proof.
  intros HD. unfold drain_row. destruct (publishable sha1_16 row) as [t|] eqn:Ht.
  2: { intros [= <- <-]. split; [|apply left_refl]. apply (draining_keep _ row); [done|]. unfold stuck. by rewrite Ht. }
  case_bool_decide as Hb.
  { intros [= <- <-]. split; [|apply left_refl]. apply (draining_keep _ row); [done|]. unfold stuck. by rewrite Ht. }
  unfold logged. destruct (publish _ _ _ _) as [topics answer] eqn:Hp.
  replace {| pt_meshId := pt_meshId t; pt_entry := pt_entry t; pt_ref := pt_ref t |} with t by by destruct t.
  destruct answer as [writer seq| |]; intros [= <- <-].
  - destruct (draining_take rows0 row rest st t topics (Pa_appended writer seq)
      (fun e => {| e with er_publishState := Pub_published; er_publishedSeq := Some seq;
                          er_srcWriter := nullish_or (er_srcWriter e) (Some writer) |}) HD Ht Hb (fun _ => eq_refl) eq_refl
      (S (dn_published st)) (dn_failed st)) as [H1 H2]. split; [exact H1|].
    cbn [dn_db called] in H2. split; cbn [dn_db step_cost]; unfold markPublished; [lia| |lia].
    unfold log. cbn. by apply prefix_app_r.
  - destruct (draining_take rows0 row rest st t topics Pa_refused (fun e => {| e with er_publishState := Pub_none |})
      HD Ht Hb (fun _ => eq_refl) eq_refl (dn_published st) (S (dn_failed st))) as [H1 H2].
    split; [exact H1|]. cbn [dn_db called] in H2.
    split; cbn [dn_db step_cost]; unfold markPublishRefused, log; cbn [dn_topics snd]; [lia|by apply prefix_app_r|].
    intros Hu. unfold unrefused in Hu. apply Forall_app in Hu as [_ Hn]. inversion Hn as [|? ? Hc]. by cbn in Hc.
  - split; [|split; [cbn [dn_db step_cost]; lia|unfold log; cbn; by apply prefix_app_r|cbn [dn_db step_cost]; lia]]. by apply (draining_fail rows0 row rest st t topics (S (dn_failed st))).
Qed.

Lemma draining_rows rows0 rows rest st n st' n' :
  Draining rows0 (rows ++ rest) st -> drain_rows sha1_16 logged rows st n = (st', n') ->
  Draining rows0 rest st' /\ exists k, n' = (n + k)%nat /\ Left st st' k.
Proof.
  revert st n. induction rows as [|row rows IH]; intros st n HD; cbn.
  { intros [= <- <-]. split; [done|]. exists 0%nat. split; [lia|apply left_refl]. }
  destruct (drain_row sha1_16 logged st row) as [st1 ok] eqn:Hr.
  destruct (draining_row _ _ _ _ _ _ HD Hr) as [HD1 [L1 L2 L3]]. intros H.
  destruct (IH _ _ HD1 H) as (HD2 & k & -> & [M1 M2 M3]).
  split; [done|]. exists (step_cost ok + k)%nat. split; [destruct ok; cbn; lia|].
  split; [lia|by etrans|]. intros Hu. specialize (M3 Hu).
  assert (Hu1 : unrefused (log st1)) by (destruct M2 as [l E]; unfold unrefused in Hu; rewrite E in Hu; by apply Forall_app in Hu as []).
  specialize (L3 Hu1). lia.
Qed.

(** Between batches everything pending is ahead again. *)
Lemma draining_again rows0 rest st :
  Draining rows0 rest st -> Draining rows0 (pending_rows (dn_db st)) st.
Proof.
  intros [H1 (kept & H2 & H3) H4 H5]. split; [done|by exists []| |done]. intros m Hm. destruct (H4 m Hm) as [E F].
  split; [|done]. rewrite H2, targets_app, <- E. f_equal. enough (targets m kept = []) as -> by done.
  clear - H3 Hm. induction H3 as [|row kept Hs _ IH]; [done|]. unfold stuck in Hs.
  destruct (publishable sha1_16 row) as [t|] eqn:Ht.
  - rewrite (targets_cons row kept t m Ht), bool_decide_false; [done|]. by intros <-.
  - unfold targets in *. cbn. by rewrite Ht.
Qed.

(** The pending rows begin with a whole batch that cannot be published. *)
Definition full_of_stuck st : Prop :=
  exists kept rest, pending_rows (dn_db st) = (kept ++ rest)%list /\ Forall (stuck st) kept
    /\ (PUBLISH_BATCH <= length kept)%nat.

(** A drain ends; afterwards all its rows were seen, or the last batch was full
    and published none. *)
Lemma draining_loop rows0 fuel st :
  Draining rows0 (pending_rows (dn_db st)) st -> (length (pending_rows (dn_db st)) < fuel)%nat ->
  exists st' rest, drain_loop sha1_16 logged fuel st = Some st' /\ Draining rows0 rest st'
    /\ (rest = [] \/ (unrefused (log st') -> full_of_stuck st')).
Proof.
  revert st. induction fuel as [|fuel IH]; intros st HD Hf; [lia|]. cbn [drain_loop]. rewrite pendingPublish_take.
  set (rows := take PUBLISH_BATCH (pending_rows (dn_db st))).
  destruct (drain_rows sha1_16 logged rows st 0) as [st1 n] eqn:Hr.
  assert (HD' : Draining rows0 (rows ++ drop PUBLISH_BATCH (pending_rows (dn_db st))) st) by (unfold rows; by rewrite take_drop).
  destruct (draining_rows _ _ _ _ _ _ _ HD' Hr) as (HD1 & k & -> & [L1 L2 L3]). cbn [plus].
  destruct (length rows <? PUBLISH_BATCH)%nat eqn:Hl; cbn [orb].
  - eexists _, _. split_and!; [done|exact HD1|]. left. apply Nat.ltb_lt in Hl. unfold rows in Hl. rewrite length_take in Hl.
    apply drop_ge. lia.
  - destruct (k =? 0)%nat eqn:Hk.
    + eexists _, _. split_and!; [done|exact HD1|]. right. intros Hu. apply Nat.eqb_eq in Hk. specialize (L3 Hu).
      apply Nat.ltb_ge in Hl. destruct (dg_rows _ _ _ HD1) as (kept & Ek & Fk). exists kept, (drop PUBLISH_BATCH (pending_rows (dn_db st))).
      split_and!; try done. rewrite Ek, length_app, length_drop in L3. unfold rows in Hl. rewrite length_take in Hl. lia.
    + apply Nat.eqb_neq in Hk. destruct (IH st1) as (st' & rest & ? & ? & ?); [by eapply draining_again|lia|eauto].
Qed.

Lemma draining_start db topics :
  NoDup (event_ids db) ->
  Draining (pending_rows db) (pending_rows db)
    {| dn_db := db; dn_topics := (topics, []); dn_blocked := []; dn_published := 0; dn_failed := 0 |}.
Proof.
  intros Hn. split; cbn [dn_db dn_blocked].
  - by apply pending_ids.
  - by exists [].
  - intros m _. split; [done|constructor].
  - by intros m ?%elem_of_nil.
Qed.

(** The whole drain. *)
Lemma drain_spec db topics :
  NoDup (event_ids db) ->
  exists st' rest, drain sha1_16 logged db (topics, []) =
      Some (dn_db st', dn_topics st', {| pr_published := dn_published st'; pr_failed := dn_failed st';
                                        pr_pending := length (pending_rows (dn_db st')) |})
    /\ Draining (pending_rows db) rest st'
    /\ (rest = [] \/ (unrefused (log st') -> full_of_stuck st')).
Proof.
  intros Hn. pose proof (draining_start db topics Hn) as HD. unfold drain. rewrite pending_count.
  set (st := {| dn_db := db |}) in *. change (pending_rows db) with (pending_rows (dn_db st)) in HD at 2.
  destruct (draining_loop _ (S (length (pending_rows db))) _ HD) as (st' & rest & -> & H1 & H2); [apply Nat.lt_succ_diag_r|].
  exists st', rest. by rewrite pending_count.
Qed.

(** A row the calls made explain: it has no target, or a call to its mesh
    failed. *)
Definition stuck_in (l : list call) (row : TurnEventRow) : bool :=
  match publishable sha1_16 row with
  | None => true
  | Some t => existsb failed_call (calls_to (pt_meshId t) l)
  end.

Lemma stuck_log rows0 rest st row :
  Draining rows0 rest st -> stuck st row <-> stuck_in (log st) row = true.
Proof.
  intros [_ _ H4 H5]. unfold stuck, stuck_in. destruct (publishable sha1_16 row) as [t|]; [|done]. split.
  - intros (d & c & -> & Hc & _)%H5. rewrite existsb_app. cbn. by rewrite Hc, orb_true_r.
  - destruct (decide (pt_meshId t ∈ dn_blocked st)) as [|Hn]; [done|]. destruct (H4 _ Hn) as [_ F].
    intros (c & Hc & E)%existsb_exists. rewrite Forall_forall in F. rewrite (F c) in E; [done|]. by apply list_elem_of_In.
Qed.
End Drain.

(** * What a drain guarantees

    Order, head-of-line blocking and completeness of the drain of pending rows,
    and the batch that starves other meshes. *)

Section Drains.
Context {Topics : Type} (sha1_16 : string -> string)
  (publish : string -> list (string * JValue) -> option SummaryRef -> Topics -> Topics * PublishAnswer).


(** What a drain that refused nothing leaves pending it could not publish: each
    row has no target or a call to its mesh failed, unless such rows fill a whole
    batch. *)
Theorem drain_leaves_stuck db topics :
  NoDup (event_ids db) ->
  exists db' topics' calls report,
    drain sha1_16 (logged publish) db (topics, []) = Some (db', (topics', calls), report)
    /\ pr_pending report = length (pending_rows db')
    /\ (Forall (fun c => c.2 <> Pa_refused) calls ->
        (length (List.filter (stuck_in sha1_16 calls) (pending_rows db')) < PUBLISH_BATCH)%nat ->
        Forall (fun row => stuck_in sha1_16 calls row = true) (pending_rows db')).
Proof.
  intros Hn. destruct (drain_spec sha1_16 publish db topics Hn) as (st & rest & Hd & HD & Hend).
  exists (dn_db st), (fst (dn_topics st)), (log st). eexists.
  split; [unfold log; by rewrite <- surjective_pairing|]. split; [done|]. intros Hu Hlen.
  assert (Hs : forall row, stuck sha1_16 st row <-> stuck_in sha1_16 (log st) row = true) by (intros; by eapply stuck_log).
  destruct Hend as [->|Hfull].
  - destruct (dg_rows _ _ _ _ HD) as (kept & -> & Fk). rewrite app_nil_r. eapply Forall_impl; [exact Fk|]. intros row. by apply Hs.
  - destruct (Hfull Hu) as (kept & rest' & Ek & Fk & Hk). exfalso. rewrite Ek, List.filter_app, length_app in Hlen.
    rewrite (forallb_filter_id _ kept) in Hlen; [lia|]. apply forallb_forall. intros row Hrow.
    rewrite Forall_forall in Fk. apply Hs, Fk. by apply list_elem_of_In.
Qed.
End Drains.

(** ** A broken topic *)

Definition notice (mesh : string) (i : nat) : MeshEventNotice := {|
  mn_meshId := mesh; mn_event := "task_added"; mn_payload := None; mn_targetDaemonId := "daemon-0";
  mn_targetSessionId := None; mn_taskId := None; mn_eventId := Some (mesh ++ ":" ++ pretty i); mn_at := None;
  mn_notify := None; mn_ref := None; mn_attemptId := None |}.

(** [n] notices of a mesh, recorded after what is there. *)
Definition with_notices (mesh : string) (n : nat) (now : Z) (db : Db) : Db :=
  fold_left (fun db i => snd (notifyMeshEvent "" now (notice mesh i) db)) (List.seq 0 n) db.

(** A publisher whose topic of one mesh is broken. *)
Definition one_broken (mesh : string) (entry : list (string * JValue)) (ref : option SummaryRef) (seq : Z) : Z * PublishAnswer :=
  if bool_decide (mesh = "broken") then (seq, Pa_failed) else (seq + 1, Pa_appended "daemon-1" seq).

Definition few_notices : Db := with_notices "healthy" 2 20 (with_notices "broken" 3 10 empty_db).

Lemma few_notices_nodup : NoDup (event_ids few_notices).
Proof. apply (bool_decide_unpack _). vm_compute. exact I. Qed.


Lemma drain_leaves_stuck_witness :
  exists db' topics' calls report,
    drain (fun s => s) (logged one_broken) few_notices (0, []) = Some (db', (topics', calls), report)
    /\ pr_pending report = 3%nat
    /\ Forall (fun row => stuck_in (fun s => s) calls row = true) (pending_rows db').
Proof.
  destruct (drain_leaves_stuck (fun s => s) one_broken few_notices 0 few_notices_nodup) as (db' & t & calls & rep & E & Hl & H).
  exists db', t, calls, rep. split; [exact E|].
  assert (Hc : pr_pending rep = 3%nat /\ Forall (fun c => c.2 <> Pa_refused) calls
    /\ (length (List.filter (stuck_in (fun s => s) calls) (pending_rows db')) < PUBLISH_BATCH)%nat).
  { vm_compute in E. injection E as <- <- <- <-. split; [reflexivity|]. split; [repeat constructor; discriminate|].
    vm_compute. lia. }
  destruct Hc as (H1 & H2 & H3). split; [exact H1|]. exact (H H2 H3).
Defined.

(** A full batch of a broken topic. *)
Definition many_notices : Db := with_notices "healthy" 1 20 (with_notices "broken" PUBLISH_BATCH 10 empty_db).

(** Enough rows of a broken topic starve the others: with a whole batch of them
    at the head, a drain ends without a call for another mesh, whose topic
    accepts everything. *)
Theorem drain_starves_other_meshes :
  exists db' topics' calls report,
    drain (fun s => s) (logged one_broken) many_notices (0, []) = Some (db', (topics', calls), report)
    /\ length calls = 1%nat /\ calls_to "healthy" calls = [] /\ length (pending_rows db') = S PUBLISH_BATCH
    /\ length (targets (fun s => s) "healthy" (pending_rows many_notices)) = 1%nat.
Proof.
  set (r := drain _ _ _ _). vm_compute in r. subst r. do 4 eexists. split; [reflexivity|]. vm_compute. repeat split.
Qed.
