(* ===== verification/TurnStops.v ===== *)
(** * Inspecting stopping writers

    [resumeStoppingWriters] of
    [packages/daemon-core/src/mesh/turn-ledger/ledger.ts]: a pass asks the writer
    of every stopping attempt whether it stopped, settles the attempt when it
    did, and settles it without the writer when the writer's node was removed or
    stayed unreachable for too long.

    What the ledger remembers between passes is in memory only ([StopWatch]).
    The port that asks a writer is a parameter of each pass: it may change the
    world in any way before it answers, except that passes do not overlap. *)

From stdpp Require Import pretty.
From S2P Require Import Prelude TurnEvidence Vocabulary TurnPolicy TurnTypes EvidenceGuard Guards Reducer DaemonId TurnStore TurnEffects TurnLedger.

#[local] Open Scope string_scope.
#[local] Open Scope Z_scope.

Definition STOP_INSPECT_BACKOFF_BASE_MS : Z := 60000.
Definition STOP_INSPECT_BACKOFF_CAP_MS : Z := 600000.

Definition stopInspectDelayMs (unsettled : Z) : Z :=
  if unsettled <=? 3 then 0
  else Z.min STOP_INSPECT_BACKOFF_CAP_MS (STOP_INSPECT_BACKOFF_BASE_MS * 2 ^ (unsettled - 4)).

(** The answer to an inspection: the port threw, or gave a receipt. *)
Inductive StopAnswer : Set := Sa_error | Sa_receipt (receipt : JValue).

Definition receipt_object (v : JValue) : option (list (string * JValue)) :=
  match v with J_obj o => Some o | _ => None end.

Definition UNREACHABLE_REASONS : list string :=
  ["worker_host_unresolved"; "strict_stop_peer_capability_unconfirmed"; "uncaptured_legacy_stop_identity"].

Definition is_str (s : string) (v : JValue) : bool :=
  match v with J_str s' => bool_decide (s' = s) | _ => false end.

(** Did the inspection fail to reach the writer's node? *)
Definition inspectionUnreachable (outcome : StopAnswer) : bool :=
  match outcome with
  | Sa_error => true
  | Sa_receipt (J_obj r) =>
      match prop r "success" with
      | J_bool true => false
      | _ => is_str "writer_checkpoint_pending" (prop r "code")
             && existsb (fun reason => is_str reason (prop r "reason")) UNREACHABLE_REASONS
      end
  | Sa_receipt (J_arr _) => false
  | Sa_receipt _ => true
  end.

(** ** What is remembered *)

Record StopBackoff : Set := { bo_unsettled : Z; bo_nextDueAt : Z }.

Record StopWatch : Set := {
  sw_backoff : gmap string StopBackoff;
  sw_unreachableSince : gmap string Z;
  sw_removedSeen : gset string }.

Definition fresh_watch : StopWatch := {| sw_backoff := ∅; sw_unreachableSince := ∅; sw_removedSeen := ∅ |}.

(** ** One attempt *)

Definition stop_key (a : TurnAttempt) (stop : WriterStop) : string := a_attemptId a ++ ":" ++ ws_requestId stop.

Definition stop_request (a : TurnAttempt) (stop : WriterStop) : CancelDispatchRequest := {|
  cr_attemptId := a_attemptId a; cr_generation := a_generation a; cr_sessionId := a_sessionId a;
  cr_dispatchNonce := a_dispatchNonce a; cr_messageId := a_messageId a; cr_meshId := a_meshId a;
  cr_taskId := a_taskId a; cr_nodeId := a_nodeId a; cr_providerType := a_providerType a;
  cr_ownerDaemonId := Some (a_ownerDaemonId a); cr_stopRequestId := Some (ws_requestId stop);
  cr_inspectOnly := true; cr_revokeBind := false |}.

(** How an inspection of an attempt that is still stopping found its writer. *)
Inductive Sighting : Set := Sg_removed | Sg_unreachable | Sg_reachable.
#[global] Instance Sighting_eq_dec : EqDecision Sighting.
Proof. solve_decision. Defined.

(** The report of such an inspection; [ins_settled] is how it was settled. *)
Record Inspection : Set := { ins_key : string; ins_at : Z; ins_sighting : Sighting; ins_settled : option SettledBy }.

Section Stops.
Context {Host : Type} (deps : TurnLedgerDeps) (host : option (TurnTxnHost Host)).

(** The environment of a pass. *)
Record StopPorts : Type := {
  sp_now : Z;
  sp_cancelDispatch : CancelDispatchRequest -> World (Host:=Host) -> World (Host:=Host) * StopAnswer;
  sp_writerNodeRemoved : string -> string -> bool;
  (** the fresh part of a settlement's id, and the clock, after an inspection *)
  sp_uuid : string -> string;
  sp_clock : string -> Z }.

(** Inspect; when no stop ever reached the writer, send it. *)
Definition ask_writer (ports : StopPorts) (request : CancelDispatchRequest) (w : World (Host:=Host))
    : World (Host:=Host) * StopAnswer :=
  let '(w', answer) := sp_cancelDispatch ports request w in
  match answer with
  | Sa_receipt (J_obj r) =>
      if is_str "exact_stop_never_attempted" (prop r "reason")
      then sp_cancelDispatch ports {| request with cr_inspectOnly := false |} w'
      else (w', answer)
  | _ => (w', answer)
  end.

(** Settle with the answer; an error of the settlement is one of the inspection. *)
Definition settle_answer (ports : StopPorts) (key : string) (request : CancelDispatchRequest) (answer : StopAnswer)
    (w : World (Host:=Host)) : option (World (Host:=Host) * StopAnswer) :=
  match answer with
  | Sa_error => Some (w, Sa_error)
  | Sa_receipt v =>
      match settleWriterStop deps host (sp_uuid ports key) request (receipt_object v) w with
      | Some o => Some (od_world o, match od_answer o with inl _ => Sa_error | inr _ => answer end)
      | None => None
      end
  end.

Definition still_stopping (a : TurnAttempt) (w : World (Host:=Host)) : bool :=
  bool_decide (a_state <$> getAttempt (a_attemptId a) (w_db w) = Some St_stopping).

Definition writer_node_removed (ports : StopPorts) (a : TurnAttempt) : bool :=
  truthy_str (a_meshId a) && truthy_str (a_nodeId a)
  && sp_writerNodeRemoved ports (nullish (a_meshId a) "") (nullish (a_nodeId a) "").

Definition sighting_of (ports : StopPorts) (a : TurnAttempt) (outcome : StopAnswer) : Sighting :=
  if writer_node_removed ports a then Sg_removed else if inspectionUnreachable outcome then Sg_unreachable else Sg_reachable.

(** Remember a sighting; whether it settles the attempt without its writer. *)
Definition watch_sighting (nowMs : Z) (key : string) (s : Sighting) (sw : StopWatch) : StopWatch * option SettledBy :=
  match s with
  | Sg_removed =>
      if bool_decide (key ∈ sw_removedSeen sw) then (sw, Some node_removed)
      else ({| sw with sw_removedSeen := {[key]} ∪ sw_removedSeen sw |}, None)
  | Sg_unreachable =>
      let since := nullish (sw_unreachableSince sw !! key) nowMs in
      let bound := stoppingUnreachableMaxMs (dp_policy deps) in
      ({| sw with sw_removedSeen := sw_removedSeen sw ∖ {[key]};
                  sw_unreachableSince := <[key:=since]> (sw_unreachableSince sw) |},
       if (0 <? bound) && (bound <=? nowMs - since) then Some unreachable_bound else None)
  | Sg_reachable =>
      ({| sw with sw_removedSeen := sw_removedSeen sw ∖ {[key]};
                  sw_unreachableSince := delete key (sw_unreachableSince sw) |}, None)
  end.

(** Forget what a settlement without the writer used. *)
Definition forget (key : string) (mode : SettledBy) (sw : StopWatch) : StopWatch :=
  {| sw with sw_unreachableSince := delete key (sw_unreachableSince sw);
             sw_removedSeen := match mode with
                               | node_removed => sw_removedSeen sw ∖ {[key]}
                               | unreachable_bound => sw_removedSeen sw
                               end |}.

(** Count one more unsettled inspection. *)
Definition back_off (ports : StopPorts) (key : string) (before : option StopBackoff) (sw : StopWatch) : StopWatch :=
  let unsettled := nullish (bo_unsettled <$> before) 0 + 1 in
  {| sw with sw_backoff := <[key := {| bo_unsettled := unsettled;
                                       bo_nextDueAt := sp_clock ports key + stopInspectDelayMs unsettled |}]> (sw_backoff sw) |}.

(** Inspect one attempt: what is reported, and the error that ends the pass. *)
Definition inspect_stop (ports : StopPorts) (a : TurnAttempt) (stop : WriterStop) (w : World (Host:=Host)) (sw : StopWatch)
    : option (World (Host:=Host) * StopWatch * list Inspection * option Thrown) :=
  let key := stop_key a stop in
  let before := sw_backoff sw !! key in
  let request := stop_request a stop in
  let '(w, answer) := ask_writer ports request w in
  match settle_answer ports key request answer w with
  | None => None
  | Some (w, outcome) =>
      if still_stopping a w then
        let s := sighting_of ports a outcome in
        let '(sw, decision) := watch_sighting (sp_now ports) key s sw in
        let report settled := [{| ins_key := key; ins_at := sp_now ports; ins_sighting := s; ins_settled := settled |}] in
        match decision with
        | None => Some (w, back_off ports key before sw, report None, None)
        | Some mode =>
            match settleUnreachable deps host a mode w with
            | None => None
            | Some (settled, o) =>
                match od_answer o with
                | inl t => Some (od_world o, sw, report None, Some t)
                | inr _ =>
                    if settled : bool then Some (od_world o, forget key mode sw, report (Some mode), None)
                    else Some (od_world o, back_off ports key before sw, report None, None)
                end
            end
        end
      else Some (w, {| sw with sw_backoff := delete key (sw_backoff sw) |}, [], None)
  end.

(** ** A pass *)

(** The attempts a pass may inspect, with their stops. *)
Definition stopping_attempts (attemptId : option string) (db : Db) : list (TurnAttempt * WriterStop) :=
  omap (fun a =>
    if (truthy_str attemptId && negb (bool_decide (attemptId = Some (a_attemptId a))))
       || negb (bool_decide (a_state a = St_stopping)) then None
    else pair a <$> d_writerStop (a_data a))
    (listOpenAttempts None (Some (dp_selfDaemonId deps)) db).

(** Repeated unsettled inspections wait; an attempt asked for does not. *)
Definition backing_off (attemptId : option string) (nowMs : Z) (key : string) (sw : StopWatch) : bool :=
  negb (truthy_str attemptId)
  && match sw_backoff sw !! key with Some b => nowMs <? bo_nextDueAt b | None => false end.

Fixpoint inspect_stops (ports : StopPorts) (attemptId : option string) (stops : list (TurnAttempt * WriterStop))
    (w : World (Host:=Host)) (sw : StopWatch) : option (World (Host:=Host) * StopWatch * list Inspection * option Thrown) :=
  match stops with
  | [] => Some (w, sw, [], None)
  | (a, stop) :: stops =>
      if backing_off attemptId (sp_now ports) (stop_key a stop) sw then inspect_stops ports attemptId stops w sw
      else match inspect_stop ports a stop w sw with
           | None => None
           | Some (w, sw, seen, Some t) => Some (w, sw, seen, Some t)
           | Some (w, sw, seen, None) =>
               match inspect_stops ports attemptId stops w sw with
               | None => None
               | Some (w, sw, seen', t) => Some (w, sw, seen ++ seen', t)%list
               end
           end
  end.

(** Forget the stops that are over. *)
Definition keep_watching (keys : gset string) (sw : StopWatch) : StopWatch := {|
  sw_backoff := filter (fun e => e.1 ∈ keys) (sw_backoff sw);
  sw_unreachableSince := filter (fun e => e.1 ∈ keys) (sw_unreachableSince sw);
  sw_removedSeen := sw_removedSeen sw ∩ keys |}.

Definition resumeStoppingWriters (ports : StopPorts) (attemptId : option string) (w : World (Host:=Host)) (sw : StopWatch)
    : option (World (Host:=Host) * StopWatch * list Inspection * option Thrown) :=
  let stops := stopping_attempts attemptId (w_db w) in
  match inspect_stops ports attemptId stops w sw with
  | None => None
  | Some (w, sw, seen, Some t) => Some (w, sw, seen, Some t)
  | Some (w, sw, seen, None) =>
      Some (w, if truthy_str attemptId then sw
               else keep_watching (list_to_set (map (fun s => stop_key s.1 s.2) stops)) sw, seen, None)
  end.
End Stops.
