(* ===== verification/StopFacts.v ===== *)
(** * What the inspections of stopping writers remember

    The memory of [resumeStoppingWriters] against the history of inspections, and
    the settlement of a stop in the store. *)

From S2P Require Import Prelude TurnEvidence Vocabulary TurnPolicy TurnTypes EvidenceGuard Transitions Guards Reducer LedgerInv LedgerSettle LedgerReduce LedgerContract LedgerVerdicts DaemonId TurnStore TurnEffects TurnLedger StoreFacts StoreInv StoreAnswers TurnStops.

#[local] Open Scope string_scope.
#[local] Open Scope Z_scope.

(** ** History *)

(** The inspections of one stop. *)
Definition seen_of (key : string) (log : list Inspection) : list Inspection :=
  List.filter (fun i => bool_decide (ins_key i = key)) log.

(** The writer was not heard from. *)
Definition unheard (i : Inspection) : Prop := ins_sighting i <> Sg_reachable.

(** Inspected unreachable at [since], and not heard from after it. *)
Definition unheard_since (since : Z) (seen : list Inspection) : Prop :=
  exists before i after, seen = (before ++ i :: after)%list
    /\ ins_at i = since /\ ins_sighting i = Sg_unreachable /\ Forall unheard after.

Definition last_removed (seen : list Inspection) : Prop :=
  exists i, last seen = Some i /\ ins_sighting i = Sg_removed.

(** The memory tells the history. *)
Record Watching (log : list Inspection) (sw : StopWatch) : Prop := {
  wt_removed key : key ∈ sw_removedSeen sw -> last_removed (seen_of key log);
  wt_unreachable key since : sw_unreachableSince sw !! key = Some since -> unheard_since since (seen_of key log) }.

(** A settlement without the writer has its grounds in the history. *)
Definition grounded (bound : Z) (before : list Inspection) (i : Inspection) : Prop :=
  match ins_settled i with
  | None => True
  | Some node_removed => ins_sighting i = Sg_removed /\ last_removed (seen_of (ins_key i) before)
  | Some unreachable_bound =>
      0 < bound /\ ins_sighting i = Sg_unreachable
      /\ exists since, bound <= ins_at i - since /\ unheard_since since (seen_of (ins_key i) (before ++ [i]))
  end.

Definition all_grounded (bound : Z) (log : list Inspection) : Prop :=
  forall before i after, log = (before ++ i :: after)%list -> grounded bound before i.

Lemma all_grounded_snoc bound log i : all_grounded bound log -> grounded bound log i -> all_grounded bound (log ++ [i]).
Proof.
  intros Hl Hi b j a E. destruct a as [|x a] using rev_ind.
  - apply app_inj_tail in E as [-> ->]. done.
  - rewrite app_comm_cons, app_assoc in E. apply app_inj_tail in E as [E _]. by eapply Hl.
Qed.

Lemma seen_of_snoc key log i :
  seen_of key (log ++ [i]) = if decide (ins_key i = key) then (seen_of key log ++ [i])%list else seen_of key log.
Proof. unfold seen_of. rewrite List.filter_app. cbn. case_bool_decide; case_decide; try done. by rewrite app_nil_r. Qed.

Lemma unheard_since_snoc since seen i : unheard_since since seen -> unheard i -> unheard_since since (seen ++ [i]).
Proof.
  intros (b & j & a & -> & H1 & H2 & H3) Hi. exists b, j, (a ++ [i])%list.
  rewrite <- app_assoc. split_and!; try done. apply Forall_app. split; [done|by constructor].
Qed.

Lemma unheard_since_here seen i : ins_sighting i = Sg_unreachable -> unheard_since (ins_at i) (seen ++ [i]).
Proof. intros H. exists seen, i, []. by split_and!. Qed.

(** Forgetting keeps the memory true. *)
Lemma watching_less log sw sw' :
  sw_removedSeen sw' ⊆ sw_removedSeen sw -> sw_unreachableSince sw' ⊆ sw_unreachableSince sw ->
  Watching log sw -> Watching log sw'.
Proof.
  intros Hr Hu [W1 W2]. constructor; intros key.
  - intros Hk. apply W1. set_solver.
  - intros since Hk. apply W2. by eapply lookup_weaken.
Qed.

Section Watch.
Context {Host : Type} (deps : TurnLedgerDeps) (host : option (TurnTxnHost Host)).
Implicit Types (ports : StopPorts (Host:=Host)) (w : World (Host:=Host)).
Notation bound := (stoppingUnreachableMaxMs (dp_policy deps)).

Lemma watching_others log i sw sw' :
  (forall key, key <> ins_key i -> key ∈ sw_removedSeen sw' -> key ∈ sw_removedSeen sw) ->
  (forall key, key <> ins_key i -> sw_unreachableSince sw' !! key = sw_unreachableSince sw !! key) ->
  (ins_key i ∈ sw_removedSeen sw' -> last_removed (seen_of (ins_key i) log ++ [i])) ->
  (forall since, sw_unreachableSince sw' !! ins_key i = Some since -> unheard_since since (seen_of (ins_key i) log ++ [i])) ->
  Watching log sw -> Watching (log ++ [i]) sw'.
Proof.
  intros H1 H2 H3 H4 [W1 W2]. constructor; intros key; rewrite seen_of_snoc; case_decide as E; subst; try done.
  - intros Hk. apply W1, H1; [congruence|done].
  - intros since Hk. apply W2. rewrite <- H2; [done|congruence].
Qed.

Lemma watching_sighting nowMs key s sw sw' log decision settled :
  Watching log sw -> watch_sighting deps nowMs key s sw = (sw', decision) -> settled = None \/ settled = decision ->
  let i := {| ins_key := key; ins_at := nowMs; ins_sighting := s; ins_settled := settled |} in
  Watching (log ++ [i]) sw' /\ grounded bound log i.
Proof.
  intros HW Hs Hd i. pose proof HW as [W1 W2].
  assert (Hnone : ins_settled i = None -> grounded bound log i) by (unfold grounded; by intros ->).
  destruct s; cbn in Hs.
  - assert (Hu : forall since, sw_unreachableSince sw !! ins_key i = Some since ->
      unheard_since since (seen_of (ins_key i) log ++ [i])).
    { intros since Hk. apply unheard_since_snoc; [by apply W2|done]. }
    assert (Hl : last_removed (seen_of (ins_key i) log ++ [i])) by (exists i; by rewrite last_snoc).
    case_bool_decide as E; injection Hs as <- <-; split; try (apply Hnone; naive_solver).
    + by apply watching_others with sw.
    + unfold grounded. destruct Hd as [Hd|Hd]; unfold i in *; cbn in *; rewrite Hd; [done|]. split; [done|by apply W1].
    + apply watching_others with sw; try done; cbn; set_solver.
  - set (since := nullish (sw_unreachableSince sw !! key) nowMs) in Hs.
    assert (Hu : unheard_since since (seen_of key log ++ [i])).
    { unfold since. destruct (sw_unreachableSince sw !! key) as [t|] eqn:E; cbn.
      - apply unheard_since_snoc; [by apply W2|done].
      - by apply (unheard_since_here _ i). }
    injection Hs as <- <-. split.
    + apply watching_others with sw; cbn; try done; [set_solver| |set_solver|].
      * intros k Hk. by rewrite lookup_insert_ne.
      * intros t. rewrite lookup_insert_eq. by intros [= <-].
    + unfold grounded. destruct Hd as [Hd|Hd]; unfold i in *; cbn in *; rewrite Hd; [done|].
      destruct ((0 <? bound) && (bound <=? nowMs - since)) eqn:E; [|done]. breflect. split; [lia|]. split; [done|].
      exists since. split; [lia|]. rewrite seen_of_snoc, decide_True by done. by rewrite Hd in Hu.
  - injection Hs as <- <-. split; [|apply Hnone; naive_solver].
    apply watching_others with sw; cbn; try done; [set_solver| |set_solver|].
    + intros k Hk. by rewrite lookup_delete_ne.
    + intros t. by rewrite lookup_delete_eq.
Qed.

Lemma forget_less key mode sw log : Watching log sw -> Watching log (forget key mode sw).
Proof.
  apply watching_less; cbn; [destruct mode; set_solver|]. apply delete_subseteq.
Qed.

Lemma inspect_stop_watching ports a stop w sw w' sw' seen t log :
  Watching log sw -> all_grounded bound log -> inspect_stop deps host ports a stop w sw = Some (w', sw', seen, t) ->
  Watching (log ++ seen) sw' /\ all_grounded bound (log ++ seen).
Proof.
  intros HW HG. unfold inspect_stop. destruct (ask_writer _ _ _) as [w1 answer].
  destruct (settle_answer _ _ _ _ _ _ _) as [[w2 outcome]|]; [|done].
  destruct (still_stopping a w2); [|intros [= <- <- <- <-]; rewrite app_nil_r; split; [by apply (watching_less _ sw)|done]].
  destruct (watch_sighting _ _ _ _ _) as [sw1 decision] eqn:Hs.
  assert (Hany : forall settled, settled = None \/ settled = decision -> forall sw2,
    sw_removedSeen sw2 ⊆ sw_removedSeen sw1 -> sw_unreachableSince sw2 ⊆ sw_unreachableSince sw1 ->
    let i := {| ins_key := stop_key a stop; ins_at := sp_now ports;
                ins_sighting := sighting_of ports a outcome; ins_settled := settled |} in
    Watching (log ++ [i]) sw2 /\ all_grounded bound (log ++ [i])).
  { intros settled Hd sw2 H1 H2 i. destruct (watching_sighting _ _ _ _ _ _ _ _ HW Hs Hd) as [H3 H4].
    split; [by apply (watching_less _ sw1)|by apply all_grounded_snoc]. }
  destruct decision as [mode|]; [|intros [= <- <- <- <-]; apply Hany; auto].
  destruct (settleUnreachable _ _ _ _ _) as [[b o]|]; [|done].
  destruct (od_answer o); [intros [= <- <- <- <-]; apply Hany; auto|].
  destruct b; intros [= <- <- <- <-]; apply Hany; auto; cbn; [destruct mode; set_solver|apply delete_subseteq].
Qed.

Lemma inspect_stops_watching ports id stops w sw w' sw' seen t log :
  Watching log sw -> all_grounded bound log -> inspect_stops deps host ports id stops w sw = Some (w', sw', seen, t) ->
  Watching (log ++ seen) sw' /\ all_grounded bound (log ++ seen).
Proof.
  revert w sw seen log. induction stops as [|[a stop] stops IH]; intros w sw seen log HW HG; cbn [inspect_stops].
  - intros [= <- <- <- <-]. by rewrite app_nil_r.
  - case_match; [by apply IH|]. destruct (inspect_stop _ _ _ _ _ _ _) as [[[[w1 sw1] seen1] [t1|]]|] eqn:Hi; [| |done].
    + intros [= <- <- <- <-]. by eapply inspect_stop_watching.
    + destruct (inspect_stop_watching _ _ _ _ _ _ _ _ _ _ HW HG Hi) as [HW1 HG1].
      destruct (inspect_stops _ _ _ _ _ _ _) as [[[[w2 sw2] seen2] t2]|] eqn:Hr; [|done].
      intros [= <- <- <- <-]. rewrite app_assoc. by eapply IH.
Qed.

Lemma pass_watching ports id w sw w' sw' seen t log :
  Watching log sw -> all_grounded bound log -> resumeStoppingWriters deps host ports id w sw = Some (w', sw', seen, t) ->
  Watching (log ++ seen) sw' /\ all_grounded bound (log ++ seen).
Proof.
  intros HW HG. unfold resumeStoppingWriters.
  destruct (inspect_stops _ _ _ _ _ _ _) as [[[[w1 sw1] seen1] [t1|]]|] eqn:Hi; [| |done]; intros [= <- <- <- <-].
  - by eapply inspect_stops_watching.
  - destruct (inspect_stops_watching _ _ _ _ _ _ _ _ _ _ HW HG Hi) as [HW1 HG1]. split; [|done].
    destruct (truthy_str id); [done|]. apply (watching_less _ sw1); cbn; [set_solver|apply map_filter_subseteq|done].
Qed.

(** Passes since the daemon started, whatever else happened between them, and
    the inspections they reported. *)
Inductive passes : StopWatch -> list Inspection -> Prop :=
| passes_start : passes fresh_watch []
| passes_next ports id w sw log w' sw' seen t :
    passes sw log -> resumeStoppingWriters deps host ports id w sw = Some (w', sw', seen, t) ->
    passes sw' (log ++ seen).

Lemma passes_watching sw log : passes sw log -> Watching log sw /\ all_grounded bound log.
Proof.
  induction 1 as [|ports id w sw log w' sw' seen t _ [IH1 IH2] Hp]; [|by eapply pass_watching].
  split; [split; [set_solver|done]|]. intros b i a E. by destruct b.
Qed.
End Watch.

(** ** Settling a stop *)

(** Steps that leave the attempt alone. *)
Definition untouched (m : step Draft) : Prop := forall d d', m d = Some d' -> dr_attempt d' = dr_attempt d.

Lemma untouched_seq m1 m2 : untouched m1 -> untouched m2 -> untouched (m1 ;;; m2).
Proof. intros H1 H2 d d'. unfold seq. destruct (m1 d) eqn:E; [|done]. intros E2. rewrite (H2 _ _ E2). by apply H1. Qed.

Lemma untouched_release rs k : untouched (releaseHolds rs k).
Proof.
  intros d d'. unfold releaseHolds, with_attempt. destruct (dr_attempt d) eqn:E; [|done]. cbv zeta.
  destruct (snd _); intros [= <-]; done.
Qed.

Lemma untouched_notify k o : untouched (notify k o).
Proof.
  intros d d'. unfold notify, with_attempt, reading, when, push, skip. destruct (dr_attempt d) eqn:E; [|done].
  repeat case_match; by intros [= <-].
Qed.

Lemma commit_terminal_data o s r t d d' a :
  commit_terminal o s r t d = Some d' -> dr_attempt d = Some a ->
  exists a', dr_attempt d' = Some a' /\ a_data a' = a_data a /\ is_Some (a_terminal a').
Proof.
  intros Hc Ha. unfold commit_terminal, with_attempt in Hc. rewrite Ha in Hc. unfold reading in Hc.
  cbv zeta in Hc. unfold seq at 1 in Hc. cbn [set_attempt] in Hc.
  match type of Hc with ?m ?d0 = _ => assert (Hu : untouched m) end.
  { repeat (apply untouched_seq; [try solve [by intros ? ? [= <-] | apply untouched_release | unfold when; repeat case_match;
      first [apply untouched_notify | by intros ? ? [= <-] | apply untouched_seq; by intros ? ? [= <-]]]|]).
    by intros ? ? [= <-]. }
  rewrite (Hu _ _ Hc). cbn. eexists. split_and!; [done..|]. by eexists.
Qed.

(** With a confirmed stop the commit is terminal. *)
Lemma commit_confirmed o s r t d d' a :
  commit o s r t d = Some d' -> dr_attempt d = Some a -> stop_confirmed a = true ->
  exists a', dr_attempt d' = Some a' /\ a_data a' = a_data a /\ is_Some (a_terminal a').
Proof.
  intros Hc Ha Hs. unfold commit, with_attempt, reading in Hc. rewrite Ha in Hc. unfold commit_needs_stop in Hc.
  rewrite Hs in Hc. cbn [negb] in Hc. rewrite andb_false_r in Hc. cbn [andb] in Hc. by apply (commit_terminal_data o s r t d).
Qed.

Definition confirmed (d : Draft) : Prop := exists a, dr_attempt d = Some a /\ stop_confirmed a = true.

Lemma set_stop_inv stop d d' a :
  set_stop stop d = Some d' -> dr_attempt d = Some a ->
  dr_attempt d' = Some {| a with a_data := {| (a_data a) with d_writerStop := Some stop |} |}.
Proof. unfold set_stop, modify_data, modify, with_attempt. intros H E. rewrite E in H. by injection H as <-. Qed.

Lemma update_stop_inv f d d' :
  update_stop f d = Some d' -> exists a stop, dr_attempt d = Some a /\ d_writerStop (a_data a) = Some stop
    /\ dr_attempt d' = Some {| a with a_data := {| (a_data a) with d_writerStop := Some (f stop) |} |}.
Proof.
  unfold update_stop, with_stop. unfold with_attempt at 1. destruct (dr_attempt d) as [a|] eqn:Ha; [|done].
  destruct (d_writerStop (a_data a)) as [stop|] eqn:Hs; [|done]. intros H. exists a, stop. split_and!; try done.
  by apply (set_stop_inv _ d).
Qed.

Lemma update_confirmed f d d' :
  update_stop f d = Some d' -> (forall stop, ws_confirmed (f stop) = Some true) -> confirmed d'.
Proof.
  intros (a & stop & _ & _ & Ha')%update_stop_inv Hf. eexists. split; [exact Ha'|]. unfold stop_confirmed. cbn. by rewrite Hf.
Qed.

Lemma update_keeps_confirmed f d d' :
  update_stop f d = Some d' -> (forall stop, ws_confirmed (f stop) = ws_confirmed stop) -> confirmed d -> confirmed d'.
Proof.
  intros (a & stop & Ha & Hs & Ha')%update_stop_inv Hf (a0 & Ha0 & Hc). simplify_eq. eexists. split; [exact Ha'|].
  unfold stop_confirmed in *. cbn. rewrite Hf. by rewrite Hs in Hc.
Qed.

Lemma adopt_keeps_confirmed d d' : adoptReportHeldDuringStop d = Some d' -> confirmed d -> confirmed d'.
Proof.
  intros H (a & Ha & Hc). unfold adoptReportHeldDuringStop, with_stop in H. unfold with_attempt at 1 in H.
  rewrite Ha in H. destruct (d_writerStop (a_data a)) as [stop|] eqn:Es; [|done].
  destruct (reportHeldDuringStop a) as [rep|]; [|injection H as <-; by exists a]. cbv zeta in H.
  case_match; [injection H as <-; by exists a|]. eexists. split; [exact (set_stop_inv _ _ _ _ H Ha)|].
  unfold stop_confirmed in *. by rewrite Es in Hc.
Qed.

(** A settlement without the writer confirms the stop and is terminal. *)
Lemma unreachable_confirms by_ d d' : settleUnreachableWriter by_ d = Some d' -> confirmed d'.
Proof.
  unfold settleUnreachableWriter, seq at 1. destruct (update_stop _ d) as [d1|] eqn:H1; [|done].
  apply update_confirmed in H1; [|done]. intros H.
  assert (Hfin : forall t r d2, confirmed d2 -> settle_with t r d2 = Some d' -> confirmed d').
  { intros t r d2 (a2 & Ha2 & Hc2) H2. destruct (commit_confirmed _ _ _ _ _ _ _ H2 Ha2 Hc2) as (a' & Ha' & Ed & _).
    exists a'. split; [done|]. unfold stop_confirmed in *. by rewrite Ed. }
  unfold with_stop, with_attempt in H. destruct H1 as (a1 & Ha1 & Hc1). rewrite Ha1 in H.
  destruct (d_writerStop (a_data a1)) as [stop|]; [|done].
  assert (Hfail : (update_stop (fun stop => {| stop with ws_terminal := Some scheduler_failure |}) ;;;
                   settle_with scheduler_failure R_writer_unreachable) d1 = Some d' -> confirmed d').
  { unfold seq. destruct (update_stop _ d1) as [d2|] eqn:H2; [|done]. apply Hfin.
    apply (update_keeps_confirmed _ _ _ H2); [done|]. by exists a1. }
  destruct (ws_terminal stop); [|by apply Hfail]. case_match; [|by apply Hfail]. eapply Hfin; [|exact H]. by exists a1.
Qed.

(** *** Sessions *)

Definition at_session (s : string) (d : Draft) : Prop := forall a, dr_attempt d = Some a -> a_sessionId a = s.

Lemma at_session_closed s : Closed (at_session s) (fun a => a_sessionId a = s).
Proof. constructor; try done; [naive_solver|congruence|]. by intros d a Ha _ a' [= <-]. Qed.

(** A confirmed stop ends the attempt or keeps its session. *)
Lemma confirmed_session s d d' :
  settle_confirmed d = Some d' -> at_session s d ->
  (exists a, dr_attempt d' = Some a /\ is_Some (a_terminal a)) \/ at_session s d'.
Proof.
  unfold settle_confirmed, seq at 1. destruct (update_stop _ d) as [d1|] eqn:H1; [|done].
  unfold seq at 1. destruct (adoptReportHeldDuringStop d1) as [d2|] eqn:H2; [|done]. intros H Hs.
  pose proof (at_session_closed s) as Hcl.
  assert (Hs2 : at_session s d2).
  { exact (preserves_adopt_report Hcl _ _ H2 (preserves_confirm Hcl _ _ _ H1 Hs)). }
  destruct (adopt_keeps_confirmed _ _ H2 (update_confirmed _ _ _ H1 (fun _ => eq_refl))) as (a2 & Ha2 & Hc2).
  unfold with_stop, with_attempt in H. rewrite Ha2 in H. destruct (d_writerStop (a_data a2)) as [stop|] eqn:Es; [|done].
  destruct (ws_terminal stop) as [t|].
  - left. unfold seq in H. destruct (truthy_str (st_adoptSessionId t)).
    + unfold modify, with_attempt in H. rewrite Ha2 in H. cbn [set_attempt] in H.
      eapply commit_confirmed in H as (a' & Ha' & _ & Ht); [by exists a'|done|].
      unfold stop_confirmed in *. cbn. by rewrite Es in *.
    + eapply commit_confirmed in H as (a' & Ha' & _ & Ht); [by exists a'|done..].
  - right. case_match.
    + by eapply (preserves_commit Hcl).
    + by eapply (preserves_reclaim Hcl).
Qed.

(** *** One reduction *)

Lemma stopping_attempt a hs :
  ledger_ok a hs -> a_state a = St_stopping -> a_terminal a = None /\ exists stop, d_writerStop (a_data a) = Some stop.
Proof.
  intros Hok Hs. pose proof (lk_state _ _ Hok) as H. unfold state_ok in H. destruct (a_terminal a) as [t|].
  { destruct H as [H _]. rewrite Hs in H. by destruct (t_outcome t). }
  destruct (d_writerStop _) as [stop|]; [by eauto|]. rewrite Hs in H. by destruct H.
Qed.

(** What a settlement makes of the stopping attempt [a]. *)
Definition settled_as (confirmed : bool) (a a' : TurnAttempt) : Prop :=
  is_Some (a_terminal a')
  \/ confirmed = true /\ a_terminal a' = None /\ a_state a' = St_accepted
     /\ a_generation a' = a_generation a + 1 /\ a_sessionId a' = a_sessionId a.

Lemma settle_reduced i a eff :
  in_attempt i = Some a -> ledger_ok a (in_holds i) -> a_state a = St_stopping ->
  classifyLane (in_attempt i) (in_evidence i) (in_holds i) = Lane Lane_current eff ->
  in_stopConfirmed i = true \/ is_Some (in_writerUnreachable i) -> is_cancel (in_evidence i) = false ->
  exists res a', reduce i = Some res /\ res_verdict res = V_applied /\ res_attempt res = Some a'
    /\ res_rule res = Some (if in_stopConfirmed i then "writer_settled" else "writer_unreachable_settled")
    /\ settled_as (in_stopConfirmed i) a a'.
Proof.
  intros Ha Hok Hs Hl Hu Hk. destruct (stopping_attempt _ _ Hok Hs) as (Ht & stop & Hw).
  destruct (run_stopping Ha Hok Ht Hw) as (d & res & Hr & [Y1 _ _] & HS). exists res.
  assert (Hred : reduce i = Some res).
  { unfold reduce. rewrite Hl, Ha. cbn. rewrite Hs, bool_decide_true, bool_decide_true by done. exact Hr. }
  unfold reduceStopping in Hr. rewrite Ha in Hr.
  destruct (stopping_step _ _ _) as [d0|] eqn:Hd; [|done]. injection Hr as <-. cbn in Y1 |- *.
  unfold stopping_step, seq at 1 in Hd. destruct (stopping_overrides i _) as [d1|] eqn:H1; [|done].
  assert (Hs1 : at_session (a_sessionId a) d1).
  { refine (preserves_overrides (at_session_closed _) _ _ _ H1 _). intros a1. cbn. rewrite Ha. by intros [= <-]. }
  destruct HS as [(_ & Hc & Hx)|[(Hc & _ & _ & HA)|[_ (o & s & r & HC)]]].
  - exfalso. destruct Hu as [|Hu]; [congruence|]. apply Hx in Hu. congruence.
  - destruct (ad_attempt _ _ _ HA) as (a' & Hd' & Hst' & Ht' & _ & _ & Hg & _). rewrite Hd' in Y1. exists a'.
    rewrite Hc in Hd, Hred |- *. assert (Hd2 : settle_confirmed d1 = Some d0).
    { destruct (in_writerUnreachable i); [|done]. by cbn in Hd. }
    apply confirmed_session with (s := a_sessionId a) in Hd2; [|done].
    split_and!; try done. right. rewrite Ht in Ht'. split_and!; try done.
    destruct Hd2 as [(a2 & E & [t Hta])|Hse]; [|by apply Hse]. congruence.
  - destruct (cm_attempt _ _ _ _ _ HC) as (a' & t & Hd' & Htm & _). rewrite Hd' in Y1. exists a'.
    split_and!; try done; [|left; by rewrite Htm]. clear Hred. destruct (in_stopConfirmed i) eqn:Hc; [done|].
    destruct Hu as [|[by_ Hu]]; [done|]. rewrite Hu in Hd |- *. rewrite Hk in Hd. cbn [negb andb] in Hd.
    unfold seq in Hd. destruct (adoptReportHeldDuringStop d1) as [d2|]; [|done].
    destruct (unreachable_confirms _ _ _ Hd) as (a2 & Ea & Hconf). rewrite Y1 in Ea. injection Ea as <-.
    by rewrite Y1, Hconf.
Qed.

(** *** In the store *)

(** No event has this id, or is keyed by it. *)
Definition fresh_id (eventId : string) (db : Db) : Prop :=
  Forall (fun e => er_eventId e <> eventId /\ er_dedupeKey e <> eventId) (db_events db).

Lemma fresh_hasEvent eventId db : fresh_id eventId db -> hasEvent eventId db = false.
Proof.
  intros H. destruct (hasEvent eventId db) eqn:E; [|done]. apply hasEvent_ids in E. unfold event_ids in E.
  apply list_elem_of_fmap in E as (e & -> & He). unfold fresh_id in H. rewrite Forall_forall in H. by destruct (H e He).
Qed.

Lemma fresh_inserts row db :
  fresh_id (er_eventId row) db -> er_dedupeKey row = er_eventId row -> fst (insertEvent row db) = true.
Proof.
  intros H Hd. unfold insertEvent. destruct (existsb _ _) eqn:E; [|done]. exfalso.
  apply existsb_exists in E as (e & He & Hc). unfold fresh_id in H. rewrite Forall_forall in H.
  destruct (H e) as [H1 H2]; [by apply list_elem_of_In|]. unfold event_clash in Hc. apply orb_true_iff in Hc as [Hc|Hc].
  - by breflect.
  - repeat case_match; breflect; congruence.
Qed.

Section Settle.
Context {Host : Type} (deps : TurnLedgerDeps) (host : option (TurnTxnHost Host)).
Implicit Types (w : World (Host:=Host)).

(** A stopping attempt of this daemon, and evidence that settles its stop. *)
Record Settling (caps : StopCapabilities) (eventId : string) (at_ : Z) (a : TurnAttempt) w : Prop := {
  sg_ok : db_ok (w_db w);
  sg_stored : getAttempt (a_attemptId a) (w_db w) = Some a;
  sg_stopping : a_state a = St_stopping;
  sg_own : daemonIdsEquivalent (Some (a_ownerDaemonId a)) (Some (dp_selfDaemonId deps)) = true;
  sg_fresh : fresh_id eventId (w_db w);
  sg_fits : well_formed (settle_evidence deps eventId at_ (a_sessionId a) (a_attemptId a) (a_generation a)) = true;
  sg_minted : eventId ∈ sc_confirmed caps \/ is_Some (unreachable_settle caps eventId) }.

Context {caps : StopCapabilities} {eventId : string} {at_ : Z} {a : TurnAttempt} {w : World (Host:=Host)}.
Hypothesis HS : Settling caps eventId at_ a w.
Notation ev := (settle_evidence deps eventId at_ (a_sessionId a) (a_attemptId a) (a_generation a)).
Notation confirmed_by := (bool_decide (eventId ∈ sc_confirmed caps)).

Lemma settling_reduced nowMs :
  exists res a', reduce (reduce_input deps caps ev (Some a) (activeHolds (a_attemptId a) (w_db w)) nowMs) = Some res
    /\ res_verdict res = V_applied /\ res_attempt res = Some a'
    /\ res_rule res = Some (if confirmed_by then "writer_settled" else "writer_unreachable_settled")
    /\ settled_as confirmed_by a a'.
Proof.
  destruct HS as [Hok Hg Hs _ _ _ Hm].
  apply (settle_reduced (reduce_input deps caps ev (Some a) (activeHolds (a_attemptId a) (w_db w)) nowMs) a (Some (a_generation a)));
    cbn; try done.
  - by apply (dk_stored _ Hok).
  - unfold classifyLane. cbn. unfold liveness_before_cut. cbn. by rewrite !bool_decide_false by naive_solver.
  - destruct Hm as [Hm|Hm]; [left; by apply bool_decide_eq_true|by right].
Qed.

Lemma settling_applied opts nowMs :
  (exists t, applyStep deps host caps ev (Some a) opts nowMs w = inl t /\ t <> Th_duplicate)
  \/ exists w' step a', applyStep deps host caps ev (Some a) opts nowMs w = inr (w', [step])
       /\ res_verdict (s_result step) = V_applied /\ res_attempt (s_result step) = Some a'
       /\ res_rule (s_result step) = Some (if confirmed_by then "writer_settled" else "writer_unreachable_settled")
       /\ getAttempt (a_attemptId a) (w_db w') = Some a' /\ settled_as confirmed_by a a'.
Proof.
  destruct (settling_reduced nowMs) as (res & a' & Hr & Hv & Ha & Hrule & Hset).
  destruct HS as [Hok Hg Hs _ Hf _ _].
  pose proof (reduced_fits deps caps ev (Some a) nowMs (w_db w) res Hok Hg Hr) as Hfit.
  unfold applyStep, step_with. replace (background_guard deps (Some a) ev opts) with (ev, false).
  2: { unfold background_guard, guarded_end. cbn. by rewrite andb_false_r. }
  rewrite Hr. replace (adjust_result deps (Some a) false false res) with res by (by destruct res).
  unfold resolve_conflict. replace (conflicting (Some a) res (w_db w)) with (@None TurnAttempt).
  2: { unfold conflicting, opens, moves. rewrite Ha, Hv. cbn. destruct Hset as [[t ->]|(_ & -> & _ & _ & ->)]; [done|].
       cbn. by rewrite !(bool_decide_true _ eq_refl). }
  destruct (persist _ _ _ _ _ _ _) as [t|[w' step]] eqn:Hp.
  - left. exists t. split; [done|]. intros ->. unfold persist in Hp.
    destruct (store_attempt _ _ _) as [db1|] eqn:Hst; [|done]. fold (step_row ev (Some a) res nowMs opts) in Hp.
    assert (Hrec : fst (recordEvidence (step_row ev (Some a) res nowMs opts) db1) = true).
    { assert (Hi : fst (insertEvent (step_row ev (Some a) res nowMs opts) db1) = true).
      { apply fresh_inserts; [|done]. unfold fresh_id. by rewrite (store_events _ _ _ _ Hst). }
      unfold recordEvidence. by replace (livenessSampleKey _) with (@None LivenessKey). }
    destruct (recordEvidence _ db1) as [b db2]. cbn in Hrec. subst b. cbn [negb] in Hp.
    rewrite Hv, Ha in Hp. cbn [nullish_or] in Hp.
    destruct (insert_rows _ _) as [t'|] eqn:Hins; [apply insert_rows_thrown in Hins; congruence|].
    by destruct (applyHostEffects _ _ _ _) as [[]|].
  - right. exists w', step, a'. destruct (persist_inv _ _ _ _ _ _ _ _ _ Hp) as (_ & _ & _ & [_ _ _ _ [-> _]]).
    split_and!; try done. assert (Hw : written (Some a) res = Some a') by (unfold written; by rewrite Hv, Ha).
    rewrite <- Hw. eapply wr_attempt, persist_wrote; [exact Hok|exact Hfit|exact Hp| |exact Hg].
    rewrite Hw. intros ? [= <-]. unfold fits in Hfit. rewrite Hv, Ha in Hfit. destruct Hfit as (_ & Hga & _).
    by apply getAttempt_id in Hga.
Qed.

(** The settlement is stored, unless the queue tables or a taken commit id
    refuse it. *)
Lemma settling_observed opts :
  exists o, observe deps host 2 caps opts ev w = Some o
    /\ ((exists t, od_answer o = inl t /\ (t = Th_host \/ t = Th_second_commit) /\ od_world o = w)
        \/ exists x a', od_answer o = inr x /\ ob_attempt x = Some a'
             /\ ob_rule x = Some (if confirmed_by then "writer_settled" else "writer_unreachable_settled")
             /\ getAttempt (a_attemptId a) (w_db (od_world o)) = Some a' /\ settled_as confirmed_by a a').
Proof.
  pose proof HS as [Hok Hg Hs Hown Hf Hwf _].
  destruct (observe_total deps host 0 caps opts ev w) as (o & Ho & _). exists o. split; [done|].
  assert (Hres : resolveAttempt ev (w_db w) = Some a) by exact Hg.
  assert (Hfo : foreign_owner deps (Some a) opts = None).
  { unfold foreign_owner. cbn. rewrite Hown. destruct (nullish_or _ _); [|done]. by rewrite andb_false_r. }
  revert Ho. remember 1%nat as n eqn:En. cbn [observe]. rewrite Hwf. cbn [negb].
  change (e_eventId ev) with eventId. rewrite fresh_hasEvent by done. rewrite Hres, Hfo.
  destruct (settling_applied opts (dp_now deps eventId)) as [(t & Ht & Hd)|(w' & step & a' & Hst & Hv & Ha & Hrule & Hg' & Hset)].
  - pose proof (step_error deps host caps opts ev w t Hok ltac:(done)) as He. rewrite Hres in He. specialize (He Ht).
    assert (Htt : t = Th_host \/ t = Th_second_commit).
    { destruct He as [?|[?|[?|(_ & b & _ & _ & Hop & _)]]]; [done|by auto..|]. apply opening_kind, list_elem_of_In in Hop. cbn in Hop. intuition congruence. }
    rewrite Ht. intros Ho. left. exists t. destruct Htt as [-> | ->]; injection Ho as <-; auto.
  - rewrite Hst. destruct (post_commit_none (fun ev w => observe deps host n caps opts ev w) (dp_now deps eventId) [step] w')
      as [calls Hc].
    { refine (applyStep_effects deps host _ _ _ _ _ _ _ _ _ Hst). done. }
    destruct (Hc (fun _ _ => None)) as [-> _]. intros [= <-]. right. cbn. by eexists _, a'.
Qed.
End Settle.
