(* ===== verification/StopTheorems.v ===== *)
(** * How stopping attempts settle

    A confirmed stop and a writer that is gone both end a stopping attempt; a
    writer is given up only on the evidence of repeated inspections. *)

From S2P Require Import Prelude TurnEvidence Vocabulary TurnPolicy TurnTypes EvidenceGuard Transitions Guards Reducer LedgerInv LedgerSettle LedgerReduce LedgerContract LedgerVerdicts LedgerExpiry DaemonId TurnStore TurnEffects TurnLedger TurnPublish StoreFacts StoreInv StoreAnswers StoreTheorems TurnStops StopFacts.

#[local] Open Scope string_scope.
#[local] Open Scope Z_scope.

(** ** Giving a writer up *)

(** Since the daemon started, an attempt was settled without its writer only on
    grounds: its node was found removed twice in a row, or its writer was found
    unreachable once, at least the bound ago, and not heard from in any later
    inspection; and never when the bound is zero. *)
Theorem given_up_on_grounds {Host} deps (host : option (TurnTxnHost Host)) sw log before i after :
  passes deps host sw log -> log = (before ++ i :: after)%list ->
  grounded (stoppingUnreachableMaxMs (dp_policy deps)) before i.
Proof. intros Hp E. destruct (passes_watching deps host sw log Hp) as [_ HG]. exact (HG _ _ _ E). Qed.

(** A world with a stopping attempt: its process exited. *)
Definition stopping_evidence : list TurnEvidence := map ar_evidence [sample_dispatch; sample_started; sample_exit].
Definition stopping_world : World := Eval vm_compute in observe_all stopping_evidence sample_world.

Lemma stopping_reachable : reachable sample_deps no_host stopping_world.
Proof. apply (observe_all_reachable stopping_evidence sample_world); [vm_compute; reflexivity|exact start_reachable]. Qed.

(** A writer that never answers, inspected at [now]. *)
Definition silent_ports (now : Z) : StopPorts (Host:=unit) := {|
  sp_now := now; sp_cancelDispatch := fun _ w => (w, Sa_error); sp_writerNodeRemoved := fun _ _ => false;
  sp_uuid := fun _ => "u-1"; sp_clock := fun _ => now |}.

Definition inspected (now : Z) (w : World (Host:=unit)) (sw : StopWatch)
    : World (Host:=unit) * StopWatch * list Inspection :=
  match resumeStoppingWriters sample_deps no_host (silent_ports now) None w sw with
  | Some (w', sw', seen, _) => (w', sw', seen)
  | None => (w, sw, [])
  end.

Definition first_pass := Eval vm_compute in inspected 10000 stopping_world fresh_watch.
Definition second_pass := Eval vm_compute in inspected (10000 + 24 * 3600000) first_pass.1.1 first_pass.1.2.

Lemma inspected_passes now w sw log :
  is_Some (resumeStoppingWriters sample_deps no_host (silent_ports now) None w sw) ->
  passes sample_deps no_host sw log ->
  passes sample_deps no_host (inspected now w sw).1.2 (log ++ (inspected now w sw).2).
Proof.
  intros [[[[w' sw'] seen] t] Hp] Hl. unfold inspected. rewrite Hp. cbn.
  exact (passes_next _ _ (silent_ports now) None w sw log w' sw' seen t Hl Hp).
Qed.

Lemma given_up_on_grounds_witness :
  exists i j, (first_pass.2 ++ second_pass.2)%list = [i; j] /\ ins_settled j = Some unreachable_bound
    /\ grounded (stoppingUnreachableMaxMs DEFAULT_TURN_POLICY) [i] j.
Proof.
  do 2 eexists. split; [reflexivity|]. split; [reflexivity|].
  eapply (given_up_on_grounds sample_deps no_host second_pass.1.2 (first_pass.2 ++ second_pass.2) _ _ []); [|reflexivity].
  apply (inspected_passes (10000 + 24 * 3600000) first_pass.1.1 first_pass.1.2 first_pass.2); [vm_compute; by eexists|].
  apply (inspected_passes 10000 stopping_world fresh_watch []); [vm_compute; by eexists|constructor].
Defined.

(** Attempts are inspected again within ten minutes, and at once the first
    three times. *)
Lemma delay_bounds n : 0 <= stopInspectDelayMs n <= STOP_INSPECT_BACKOFF_CAP_MS.
Proof.
  unfold stopInspectDelayMs, STOP_INSPECT_BACKOFF_CAP_MS, STOP_INSPECT_BACKOFF_BASE_MS. case_match; [lia|].
  assert (0 < 2 ^ (n - 4)) by (apply Z.pow_pos_nonneg; lia). lia.
Qed.

(** ** Settling *)

(** The stop named by an accepted receipt is the stored one. *)
Lemma accepted_current request receipt db :
  receipt_accepted request receipt db = true ->
  exists a, getAttempt (cr_attemptId request) db = Some a /\ a_state a = St_stopping
    /\ cr_generation request = a_generation a /\ cr_sessionId request = a_sessionId a.
Proof.
  unfold receipt_accepted. destruct receipt; [|done]. destruct (getAttempt _ _) as [a|]; [|done]. intros H.
  exists a. unfold stop_current in H. breflect. split_and!; try done; lia.
Qed.

(** The id of the settlement of a receipt. *)
Definition settled_id (uuid : string) (request : CancelDispatchRequest) : string :=
  "writer_settled:" ++ nullish (cr_stopRequestId request) "undefined" ++ ":" ++ uuid.


(** When an inspection finds a writer gone for good, the attempt is terminal
    after it, under the same exceptions. *)
Theorem gone_writer_settles {Host} deps (host : option (TurnTxnHost Host)) ports a stop w w1 w2 answer outcome sw sw' mode :
  d_writerStop (a_data a) = Some stop ->
  ask_writer ports (stop_request a stop) w = (w1, answer) ->
  settle_answer deps host ports (stop_key a stop) (stop_request a stop) answer w1 = Some (w2, outcome) ->
  watch_sighting deps (sp_now ports) (stop_key a stop) (sighting_of ports a outcome) sw = (sw', Some mode) ->
  let eventId := "writer_unreachable:" ++ ws_requestId stop in
  Settling deps {| sc_confirmed := []; sc_unreachable := [(eventId, mode)] |} eventId (dp_now deps eventId) a w2 ->
  exists w3 sw3 seen t, inspect_stop deps host ports a stop w sw = Some (w3, sw3, seen, t)
    /\ ((t = Some Th_host \/ t = Some Th_second_commit) /\ w3 = w2
        \/ t = None /\ (exists a', getAttempt (a_attemptId a) (w_db w3) = Some a' /\ is_Some (a_terminal a'))
           /\ exists i, seen = [i] /\ ins_settled i = Some mode).
Proof.
  intros Hstop Hask Hset Hwatch eventId HS. destruct (settling_observed deps host HS no_options) as (o & Ho & Hans).
  pose proof HS as [_ Hg Hs _ _ _ _]. unfold inspect_stop. rewrite Hask, Hset.
  unfold still_stopping. rewrite Hg. cbn [fmap option_fmap option_map]. rewrite Hs, bool_decide_true by done.
  rewrite Hwatch. unfold settleUnreachable. rewrite Hstop. fold eventId. rewrite Ho.
  destruct Hans as [(t & Ht & Hth & Hw)|(x & a' & Hx & _ & Hr & Hg' & Hfin)].
  - rewrite Ht. do 4 eexists. rewrite Ht. split; [reflexivity|]. left. destruct Hth as [-> | ->]; auto.
  - rewrite Hx, Hr, bool_decide_true by done. cbn [od_answer]. do 4 eexists. split; [reflexivity|].
    right. split; [done|]. split; [|by eexists]. exists a'. split; [done|].
    destruct Hfin as [?|(E & _)]; [done|]. discriminate E.
Qed.

(** The stopping attempt, its stop and the receipt of its writer. *)
Definition stopped_attempt : TurnAttempt := Eval vm_compute in
  nullish (getAttempt "attempt-1" (w_db stopping_world)) (newAttempt (ar_evidence sample_exit) "" Sc_plain).

Definition sample_stop : WriterStop := Eval vm_compute in
  nullish (d_writerStop (a_data stopped_attempt))
    {| ws_requestId := ""; ws_reason := R_hard_ceiling; ws_requestedAt := 0; ws_tries := 0; ws_escalated := false;
       ws_confirmed := None; ws_settledBy := None; ws_terminal := None |}.

Definition sample_request : CancelDispatchRequest := Eval vm_compute in stop_request stopped_attempt sample_stop.

Definition sample_receipt : list (string * JValue) := [
  ("success", J_bool true); ("quiescent", J_bool true); ("incarnation", J_str "host-7");
  ("stopRequestId", J_str (ws_requestId sample_stop)); ("attemptId", J_str "attempt-1"); ("generation", j_int 1);
  ("sessionId", J_str "session-1"); ("meshId", J_str "mesh-1"); ("taskId", J_str "task-1"); ("nodeId", J_null);
  ("dispatchNonce", J_null); ("providerType", J_null); ("ownerDaemonId", J_str "daemon-1")].


Lemma gone_writer_settles_witness :
  exists w3 sw3 seen t,
    inspect_stop sample_deps no_host (silent_ports (10000 + 24 * 3600000)) stopped_attempt sample_stop stopping_world
      first_pass.1.2 = Some (w3, sw3, seen, t)
    /\ ((t = Some Th_host \/ t = Some Th_second_commit) /\ w3 = stopping_world
        \/ t = None /\ (exists a', getAttempt "attempt-1" (w_db w3) = Some a' /\ is_Some (a_terminal a'))
           /\ exists i, seen = [i] /\ ins_settled i = Some unreachable_bound).
Proof.
  eapply (gone_writer_settles sample_deps no_host (silent_ports (10000 + 24 * 3600000)) stopped_attempt sample_stop
    stopping_world stopping_world stopping_world Sa_error Sa_error first_pass.1.2); try (vm_compute; reflexivity).
  constructor.
  - exact (reachable_ok _ _ _ stopping_reachable).
  - vm_compute. reflexivity.
  - reflexivity.
  - vm_compute. reflexivity.
  - apply (bool_decide_unpack _). vm_compute. exact I.
  - vm_compute. reflexivity.
  - right. vm_compute. by eexists.
Defined.

(** ** Stops that cannot be settled *)

Lemma long_refused eventId at_ s a g (deps : TurnLedgerDeps) :
  (256 < String.length eventId)%nat -> well_formed (settle_evidence deps eventId at_ s a g) = false.
Proof.
  intros Hl. destruct (well_formed _) eqn:E; [|done]. destruct (accepted_ids _ E) as [H _]. cbn in H.
  unfold identifier_shaped in H. apply andb_true_iff in H as [_ H]. apply Nat.leb_le in H. lia.
Qed.

Lemma append_length s t : String.length (s ++ t) = (String.length s + String.length t)%nat.
Proof. induction s as [|c s IH]; [done|]. exact (f_equal S IH). Qed.

(** A stop whose request id is longer than the evidence guard leaves room for is
    never settled: neither the exact receipt of its writer nor giving the writer
    up changes anything, because the settlement itself is refused as malformed. *)
Theorem long_stop_never_settles {Host} deps (host : option (TurnTxnHost Host)) uuid a stop receipt mode w :
  String.length uuid = 36%nat -> d_writerStop (a_data a) = Some stop -> (237 < String.length (ws_requestId stop))%nat ->
  (exists o, settleWriterStop deps host uuid (stop_request a stop) receipt w = Some o /\ od_world o = w /\ od_calls o = [])
  /\ exists o, settleUnreachable deps host a mode w = Some (false, o) /\ od_world o = w.
Proof.
  intros Hu Hs Hl. split.
  - unfold settleWriterStop. case_match; [|by eexists]. cbn [cr_stopRequestId stop_request nullish observe].
    rewrite long_refused by (rewrite !append_length; cbn; lia). by eexists.
  - unfold settleUnreachable. rewrite Hs. cbn [observe].
    rewrite long_refused by (rewrite !append_length; cbn; lia). by eexists.
Qed.

(** The same exit, reported under a long id. *)
Definition long_id : string := String.concat "" (repeat "0123456789" 23).
Definition long_exit : TurnEvidence :=
  let ev := ar_evidence sample_exit in {| ev with ev_env := {| (ev_env ev) with e_eventId := long_id |} |}.
Definition stuck_world : World := Eval vm_compute in
  observe_all (map ar_evidence [sample_dispatch; sample_started] ++ [long_exit]) sample_world.

Definition stuck_attempt : TurnAttempt := Eval vm_compute in
  nullish (getAttempt "attempt-1" (w_db stuck_world)) stopped_attempt.

Lemma long_stop_never_settles_witness :
  well_formed long_exit = true
  /\ getAttempt "attempt-1" (w_db stuck_world) = Some stuck_attempt /\ a_state stuck_attempt = St_stopping
  /\ exists o, settleUnreachable sample_deps no_host stuck_attempt unreachable_bound stuck_world = Some (false, o)
       /\ od_world o = stuck_world.
Proof.
  split; [vm_compute; reflexivity|]. split; [vm_compute; reflexivity|]. split; [reflexivity|].
  eapply (long_stop_never_settles sample_deps no_host "00000000-0000-4000-8000-000000000000" stuck_attempt
    _ None unreachable_bound stuck_world); [reflexivity|reflexivity|vm_compute; lia].
Defined.
