(* ===== verification/RpcChunking.v ===== *)
(** * Splitting and reassembling oversized mesh frames

    Models [packages/mesh-shared/src/rpc-chunking.ts] in full, and the two
    places of [daemon-core/src/mesh/transport/mesh-rpc-endpoint.ts] that call
    it ([writeEnvelope], [acceptChunk]).

    A string is its sequence of UTF-16 code units, because the slicer cuts
    between code units and may separate a surrogate pair; what
    [JSON.stringify] and the UTF-8 encoder do with a lone surrogate is written
    out.  [JSON.parse] is a parameter ([None] when it throws): nothing below
    depends on the grammar it accepts.  The [detail] texts of refusals are
    diagnostics and are left out. *)

From S2P Require Import Prelude.

(** ** Strings as UTF-16 code units *)

Notation ustring := (list Z).

(** A literal of the source, all of whose characters are ASCII. *)
Definition u (s : string) : ustring :=
  map (fun c => Z.of_nat (Ascii.nat_of_ascii c)) (String.list_ascii_of_string s).

Definition is_high (c : Z) : bool := (0xd800 <=? c) && (c <=? 0xdbff).
Definition is_low (c : Z) : bool := (0xdc00 <=? c) && (c <=? 0xdfff).

(** Byte length of [new TextEncoder().encode(value)]: a surrogate pair takes
    four bytes, a lone surrogate is replaced by the three bytes of U+FFFD. *)
Fixpoint meshUtf8ByteLength (value : ustring) : Z :=
  match value with
  | [] => 0
  | c :: t =>
      if c <? 0x80 then 1 + meshUtf8ByteLength t
      else if c <? 0x800 then 2 + meshUtf8ByteLength t
      else if is_high c then
        match t with
        | d :: t' => if is_low d then 4 + meshUtf8ByteLength t' else 3 + meshUtf8ByteLength t
        | [] => 3
        end
      else 3 + meshUtf8ByteLength t
  end.

(** The loop used where the runtime has no [TextEncoder]. *)
Fixpoint meshUtf8ByteLength_loop (value : ustring) : Z :=
  match value with
  | [] => 0
  | c :: t =>
      if c <? 0x80 then 1 + meshUtf8ByteLength_loop t
      else if c <? 0x800 then 2 + meshUtf8ByteLength_loop t
      else if is_high c then 4 + match t with _ :: t' => meshUtf8ByteLength_loop t' | [] => 0 end
      else 3 + meshUtf8ByteLength_loop t
  end.

(** Well-formed UTF-16: surrogates only in pairs. *)
Fixpoint wf_utf16 (s : ustring) : bool :=
  match s with
  | [] => true
  | c :: t =>
      if is_high c then match t with d :: t' => is_low d && wf_utf16 t' | [] => false end
      else negb (is_low c) && wf_utf16 t
  end.

(** ** [JSON.stringify] of a chunk envelope *)

Definition hex_digit (n : Z) : Z := if n <? 10 then 48 + n else 87 + n.

Definition unicode_escape (c : Z) : ustring :=
  u "\u" ++ [hex_digit (c / 4096 mod 16); hex_digit (c / 256 mod 16);
             hex_digit (c / 16 mod 16); hex_digit (c mod 16)].

(** How one code unit that is no surrogate is written inside quotes. *)
Definition quote_unit (c : Z) : ustring :=
  if decide (c = 8) then u "\b" else if decide (c = 9) then u "\t"
  else if decide (c = 10) then u "\n" else if decide (c = 12) then u "\f"
  else if decide (c = 13) then u "\r" else if decide (c = 34) then [92; 34]
  else if decide (c = 92) then [92; 92]
  else if c <? 32 then unicode_escape c else [c].

(** Pairs are kept, lone surrogates are escaped (well-formed stringify). *)
Fixpoint quote_units (s : ustring) : ustring :=
  match s with
  | [] => []
  | c :: t =>
      if is_high c then
        match t with
        | d :: t' => if is_low d then c :: d :: quote_units t' else unicode_escape c ++ quote_units t
        | [] => unicode_escape c
        end
      else if is_low c then unicode_escape c ++ quote_units t
      else quote_unit c ++ quote_units t
  end.

Definition quote (s : ustring) : ustring := [34] ++ quote_units s ++ [34].

(** Decimal notation of an integer. *)
Fixpoint decimal_go (fuel : nat) (n : Z) (acc : ustring) : ustring :=
  match fuel with
  | O => acc
  | S f => let acc' := (48 + n mod 10) :: acc in
           if n <? 10 then acc' else decimal_go f (n / 10) acc'
  end.

Definition decimal_nat (n : Z) : ustring := decimal_go (S (Z.to_nat (Z.log2 n))) n [].

Definition decimal (n : Z) : ustring :=
  if n <? 0 then 45 :: decimal_nat (- n) else decimal_nat n.

(** ** Constants and envelopes *)

Definition MESH_MAX_INLINE_FRAME_BYTES : Z := 60000.
Definition MESH_CHUNK_PAYLOAD_CHARS : nat := Z.to_nat 16000.
Definition MESH_MAX_CHUNKS : Z := 1024.
Definition MESH_MAX_REASSEMBLED_BYTES : Z := 16000000.
Definition MESH_CHUNK_TTL_MS : Z := 60000.
Definition MESH_CHUNK_KIND : ustring := u "rpc_chunk".

(** Mesh-rpc-protocol.ts. *)
Definition PROTOCOL_VERSION : Z := 1.

Record MeshChunkEnvelope : Type := {
  ce_v : Z; ce_kind : ustring; ce_chunkId : ustring;
  ce_index : Z; ce_total : Z; ce_data : ustring }.

Definition buildChunkEnvelope (version : Z) (chunkId : ustring) (index total : Z) (data : ustring)
  : MeshChunkEnvelope :=
  {| ce_v := version; ce_kind := MESH_CHUNK_KIND; ce_chunkId := chunkId;
     ce_index := index; ce_total := total; ce_data := data |}.

(** [JSON.stringify(envelope)], members in the order of the literal. *)
Definition stringify_key (k : string) : ustring := [34] ++ u k ++ [34; 58].

Definition stringify_envelope (e : MeshChunkEnvelope) : ustring :=
  u "{" ++ stringify_key "v" ++ decimal (ce_v e)
  ++ u "," ++ stringify_key "kind" ++ quote (ce_kind e)
  ++ u "," ++ stringify_key "chunkId" ++ quote (ce_chunkId e)
  ++ u "," ++ stringify_key "index" ++ decimal (ce_index e)
  ++ u "," ++ stringify_key "total" ++ decimal (ce_total e)
  ++ u "," ++ stringify_key "data" ++ quote (ce_data e) ++ u "}".

(** The serialized size the splitter measures. *)
Definition envelope_bytes (e : MeshChunkEnvelope) : Z := meshUtf8ByteLength (stringify_envelope e).

Definition measureWorstCaseChunkEnvelopeBytes : Z :=
  envelope_bytes (buildChunkEnvelope 9007199254740991 (replicate 64 120)
    MESH_MAX_CHUNKS MESH_MAX_CHUNKS (replicate MESH_CHUNK_PAYLOAD_CHARS 0xd55c)).

Definition meshFrameNeedsChunking (json : ustring) : bool :=
  MESH_MAX_INLINE_FRAME_BYTES <? meshUtf8ByteLength json.

(** ** Splitting *)

Inductive SplitRefusal : Set := Split_too_many_chunks | Split_chunk_too_large.

Inductive MeshChunkSplitResult : Type :=
  | Split_ok (chunks : list MeshChunkEnvelope)
  | Split_refused (reason : SplitRefusal).

(** [json.slice(start, end)] for [start <= end]. *)
Definition slice (json : ustring) (start end_ : nat) : ustring := take (end_ - start) (drop start json).

(** [Math.max(1, Math.floor(n * 0.8))]; for the sizes that occur the double
    product rounds to the exact quotient or lies strictly between integers, so
    the floor is that of [4 n / 5]. *)
Definition shrunk_size (n : nat) : nat := Nat.max 1 (n * 4 / 5).

(** The inner loop: the end of the slice taken at [offset].  Every pass
    lowers [end_], so [end_ - offset] passes suffice. *)
Fixpoint fit_slice (fuel : nat) (json chunkId : ustring) (version index : Z) (offset end_ : nat)
  : option nat :=
  if (offset <? end_)%nat then
    match fuel with
    | O => None
    | S f =>
        let candidate := slice json offset end_ in
        if envelope_bytes (buildChunkEnvelope version chunkId index MESH_MAX_CHUNKS candidate)
             <=? MESH_MAX_INLINE_FRAME_BYTES
        then Some end_
        else
          let shrunk := shrunk_size (end_ - offset) in
          if (end_ <=? offset + shrunk)%nat
          then fit_slice f json chunkId version index offset (end_ - 1)
          else fit_slice f json chunkId version index offset (offset + shrunk)
    end
  else Some end_.

(** The outer loop; [slices] in the order pushed. *)
Fixpoint split_slices (fuel : nat) (json chunkId : ustring) (version : Z) (offset : nat)
    (slices : list ustring) : option (SplitRefusal + list ustring) :=
  if (offset <? length json)%nat then
    match fuel with
    | O => None
    | S f =>
        let end0 := Nat.min (length json) (offset + MESH_CHUNK_PAYLOAD_CHARS) in
        match fit_slice (end0 - offset) json chunkId version (Z.of_nat (length slices)) offset end0 with
        | None => None
        | Some end_ =>
            if (end_ <=? offset)%nat then Some (inl Split_chunk_too_large)
            else
              let slices' := slices ++ [slice json offset end_] in
              if MESH_MAX_CHUNKS <? Z.of_nat (length slices')
              then Some (inl Split_too_many_chunks)
              else split_slices f json chunkId version end_ slices'
        end
    end
  else Some (inr slices).

Definition splitMeshFrame (json chunkId : ustring) (version : Z) : option MeshChunkSplitResult :=
  match split_slices (length json) json chunkId version 0 [] with
  | None => None
  | Some (inl r) => Some (Split_refused r)
  | Some (inr []) => Some (Split_refused Split_chunk_too_large)
  | Some (inr slices) =>
      let total := Z.of_nat (length slices) in
      Some (Split_ok (imap (fun index data => buildChunkEnvelope version chunkId (Z.of_nat index) total data) slices))
  end.

(** ** Received values *)

(** A received number: an integer, or a value that is none (a fraction, an
    infinity, NaN). *)
Inductive WNumber : Set := W_int (z : Z) | W_other.

Inductive WValue : Type :=
  | W_undefined | W_null | W_bool (b : bool) | W_number (n : WNumber)
  | W_string (s : ustring) | W_object (fields : list (string * WValue)).

(** [value?.key] on a parsed value. *)
Definition frame_field (v : WValue) (key : string) : WValue :=
  match v with W_object fs => nullish (map_get key fs) W_undefined | _ => W_undefined end.

Definition isChunkFrame (frame : WValue) : bool :=
  match frame with
  | W_object _ => match frame_field frame "kind" with W_string k => bool_decide (k = MESH_CHUNK_KIND) | _ => false end
  | _ => false
  end.

(** The value a chunk envelope is once transported. *)
Definition envelope_value (e : MeshChunkEnvelope) : WValue :=
  W_object [("v", W_number (W_int (ce_v e))); ("kind", W_string (ce_kind e));
            ("chunkId", W_string (ce_chunkId e)); ("index", W_number (W_int (ce_index e)));
            ("total", W_number (W_int (ce_total e))); ("data", W_string (ce_data e))].

(** ** Reassembly *)

Record MeshChunkBuffer : Type := {
  mb_total : Z; mb_chunks : list ustring; mb_received : Z; mb_bytesReceived : Z; mb_createdAt : Z }.

Notation Buffers := (gmap ustring MeshChunkBuffer).

Inductive MeshChunkFailureReason : Set :=
  | malformed_chunk | too_many_chunks | inconsistent_total
  | duplicate_chunk_mismatch | budget_exceeded | reassembled_parse_failed.

Inductive MeshChunkAcceptResult (F : Type) : Type :=
  | Acc_partial (received total : Z)
  | Acc_complete (frame : F)
  | Acc_failed (reason : MeshChunkFailureReason) (chunkId : ustring).
Arguments Acc_partial {F}.
Arguments Acc_complete {F}.
Arguments Acc_failed {F}.

(** Partials older than the TTL are dropped. *)
Definition sweep (now : Z) (buffers : Buffers) : Buffers :=
  filter (fun kv => ¬ (MESH_CHUNK_TTL_MS < now - mb_createdAt kv.2)) buffers.

Definition reset (buffers : Buffers) : Buffers := ∅.

Definition pendingCount (buffers : Buffers) : nat := size buffers.

(** The fields of a chunk that passed the shape check. *)
Record Chunk : Type := { ck_id : ustring; ck_index : Z; ck_total : Z; ck_data : ustring }.

#[export] Instance Chunk_eq_dec : EqDecision Chunk.
Proof. solve_decision. Defined.

(** A new group has every slot empty. *)
Definition new_buffer (total createdAt : Z) : MeshChunkBuffer :=
  {| mb_total := total; mb_chunks := replicate (Z.to_nat total) []; mb_received := 0;
     mb_bytesReceived := 0; mb_createdAt := createdAt |}.

Section Assembler.
(** [Number(x)] on strings and on objects (arrays included), which follow
    ECMAScript's StringToNumber and ToPrimitive. *)
Context (Number_of_string : ustring -> WNumber) (Number_of_object : list (string * WValue) -> WNumber).
(** [JSON.parse]; [None] when it throws. *)
Context {F : Type} (JSON_parse : ustring -> option F).

Definition to_Number (v : WValue) : WNumber :=
  match v with
  | W_undefined => W_other
  | W_null => W_int 0
  | W_bool b => W_int (if b then 1 else 0)
  | W_number n => n
  | W_string s => Number_of_string s
  | W_object fs => Number_of_object fs
  end.

Definition string_or_empty (v : WValue) : ustring :=
  match v with W_string s => s | _ => [] end.

(** The shape check at the top of [accept]. *)
Definition readChunk (frame : WValue) : option Chunk :=
  let chunkId := string_or_empty (frame_field frame "chunkId") in
  let data := string_or_empty (frame_field frame "data") in
  match to_Number (frame_field frame "index"), to_Number (frame_field frame "total") with
  | W_int index, W_int total =>
      if bool_decide (chunkId = []) || (index <? 0) || (total <=? 0) || (total <=? index)
         || bool_decide (data = [])
      then None
      else Some {| ck_id := chunkId; ck_index := index; ck_total := total; ck_data := data |}
  | _, _ => None
  end.

(** What happens once the group's buffer is at hand. *)
Definition store_chunk (buffers : Buffers) (c : Chunk) (entry : MeshChunkBuffer)
  : Buffers * MeshChunkAcceptResult F :=
  let existing := nullish (mb_chunks entry !! Z.to_nat (ck_index c)) [] in
  if bool_decide (existing ≠ []) then
    if bool_decide (existing = ck_data c)
    then (buffers, Acc_partial (mb_received entry) (mb_total entry))
    else (delete (ck_id c) buffers, Acc_failed duplicate_chunk_mismatch (ck_id c))
  else
    let chunkBytes := meshUtf8ByteLength (ck_data c) in
    if MESH_MAX_REASSEMBLED_BYTES <? mb_bytesReceived entry + chunkBytes
    then (delete (ck_id c) buffers, Acc_failed budget_exceeded (ck_id c))
    else
      let entry' := {| mb_total := mb_total entry;
                       mb_chunks := <[Z.to_nat (ck_index c) := ck_data c]> (mb_chunks entry);
                       mb_received := mb_received entry + 1;
                       mb_bytesReceived := mb_bytesReceived entry + chunkBytes;
                       mb_createdAt := mb_createdAt entry |} in
      if mb_received entry' <? mb_total entry'
      then (<[ck_id c := entry']> buffers, Acc_partial (mb_received entry') (mb_total entry'))
      else (delete (ck_id c) buffers,
            match JSON_parse (concat (mb_chunks entry')) with
            | Some frame => Acc_complete frame
            | None => Acc_failed reassembled_parse_failed (ck_id c)
            end).

(** [accept(frame)]; the clock is read for the sweep ([now]) and, when a
    group is opened, once more ([opened]). *)
Definition accept (now opened : Z) (buffers : Buffers) (frame : WValue)
  : Buffers * MeshChunkAcceptResult F :=
  let buffers := sweep now buffers in
  match readChunk frame with
  | None => (buffers, Acc_failed malformed_chunk (string_or_empty (frame_field frame "chunkId")))
  | Some c =>
      if MESH_MAX_CHUNKS <? ck_total c
      then (delete (ck_id c) buffers, Acc_failed too_many_chunks (ck_id c))
      else
        match buffers !! ck_id c with
        | None =>
            let entry := new_buffer (ck_total c) opened in
            store_chunk (<[ck_id c := entry]> buffers) c entry
        | Some entry =>
            if bool_decide (mb_total entry ≠ ck_total c)
            then (delete (ck_id c) buffers, Acc_failed inconsistent_total (ck_id c))
            else store_chunk buffers c entry
        end
  end.

(** A received frame with the two clock readings of its [accept]. *)
Record Event : Type := { ev_now : Z; ev_opened : Z; ev_frame : WValue }.

Definition accept_event (buffers : Buffers) (e : Event) : Buffers * MeshChunkAcceptResult F :=
  accept (ev_now e) (ev_opened e) buffers (ev_frame e).

(** The buffers after a sequence of frames. *)
Definition accept_all (buffers : Buffers) (es : list Event) : Buffers :=
  fold_left (fun b e => (accept_event b e).1) es buffers.

(** The endpoint's use of the assembler: the reassembled frame, or nothing
    (still partial, or refused and logged). *)
Definition acceptChunk (now opened : Z) (chunkAssembler : option Buffers) (frame : WValue)
  : option Buffers * option F :=
  let '(b, r) := accept now opened (nullish chunkAssembler ∅) frame in
  (Some b, match r with Acc_complete f => Some f | _ => None end).
End Assembler.

(** ** Sending

    [writeEnvelope]: [stringified] is the serialized envelope, [None] when
    [JSON.stringify] threw.  The result is the messages handed to the data
    channel, in order, whether the envelope was written, and the next value of
    the id counter; an exception of the channel itself would cut the list
    short. *)
Definition writeEnvelope (stringified : option ustring) (idNonce : ustring) (idSeq : Z)
  : option (list ustring * bool * Z) :=
  match stringified with
  | None => Some ([], false, idSeq)
  | Some json =>
      if negb (meshFrameNeedsChunking json) then Some ([json], true, idSeq)
      else
        let chunkId := idNonce ++ u ":chunk:" ++ decimal idSeq in
        match splitMeshFrame json chunkId PROTOCOL_VERSION with
        | None => None
        | Some (Split_refused _) => Some ([], false, idSeq + 1)
        | Some (Split_ok chunks) => Some (map stringify_envelope chunks, true, idSeq + 1)
        end
  end.

(** The cut of a text into pieces of [n] code units, the last one shorter. *)
Fixpoint pieces (fuel n : nat) (s : ustring) : list ustring :=
  match fuel, s with
  | S f, _ :: _ => take n s :: pieces f n (drop n s)
  | _, _ => []
  end.
