(* ===== verification/RpcSplit.v ===== *)
(** * What splitting guarantees

    Sizes of UTF-8 and JSON encodings, termination of the two loops of
    [splitMeshFrame], and the theorems on the sending side. *)

From S2P Require Import Prelude RpcChunking.

Ltac split_if :=
  repeat match goal with
  | |- context [if ?b then _ else _] => destruct b eqn:?; simpl
  | H : context [if ?b then _ else _] |- _ => destruct b eqn:?; simpl in H
  end.

(** Induction two code units at a time, the way pairs are consumed. *)
Lemma pair_ind (P : ustring -> Prop) :
  P [] -> (forall c, P [c]) -> (forall c d t, P (d :: t) -> P t -> P (c :: d :: t)) -> forall s, P s.
Proof.
  intros H0 H1 H2 s. enough (P s /\ forall c, P (c :: s)) by tauto.
  induction s as [|d t [IH1 IH2]]; split; auto.
Qed.

(** ** UTF-8 sizes *)

Definition starts_low (s : ustring) : bool := match s with c :: _ => is_low c | [] => false end.

Lemma utf8_cons2 c d t :
  meshUtf8ByteLength (c :: d :: t)
  = if c <? 0x80 then 1 + meshUtf8ByteLength (d :: t)
    else if c <? 0x800 then 2 + meshUtf8ByteLength (d :: t)
    else if is_high c then if is_low d then 4 + meshUtf8ByteLength t else 3 + meshUtf8ByteLength (d :: t)
    else 3 + meshUtf8ByteLength (d :: t).
Proof. done. Qed.

Lemma utf8_nonneg s : 0 <= meshUtf8ByteLength s.
Proof. induction s as [|c|c d t IH1 IH2] using pair_ind; simpl in *; split_if; lia. Qed.

Lemma utf8_pos s : s <> [] -> 0 < meshUtf8ByteLength s.
Proof.
  destruct s as [|c t]; [done|]. intros _. pose proof (utf8_nonneg t). simpl.
  destruct t as [|d t]; simpl in *; [split_if; lia|]. pose proof (utf8_nonneg t). split_if; lia.
Qed.

Lemma utf8_app (a b : ustring) :
  starts_low b = false -> meshUtf8ByteLength (a ++ b) = meshUtf8ByteLength a + meshUtf8ByteLength b.
Proof.
  intros Hb. induction a as [|c|c d t IH1 IH2] using pair_ind; [done| |].
  - simpl. destruct b as [|d b']; simpl in *; [split_if; lia|]. rewrite Hb. split_if; lia.
  - change ((d :: t) ++ b) with (d :: t ++ b) in IH1.
    change ((c :: d :: t) ++ b) with (c :: d :: t ++ b). rewrite !utf8_cons2, IH1, IH2. split_if; lia.
Qed.

(** Cutting between the halves of a pair costs at most two bytes. *)
Lemma utf8_app_bounds (a b : ustring) :
  meshUtf8ByteLength (a ++ b) <= meshUtf8ByteLength a + meshUtf8ByteLength b <= meshUtf8ByteLength (a ++ b) + 2.
Proof.
  destruct (starts_low b) eqn:Hb; [|rewrite utf8_app by done; lia].
  destruct b as [|d b]; [done|]. cbn in Hb.
  assert (Hd : meshUtf8ByteLength (d :: b) = 3 + meshUtf8ByteLength b).
  { unfold is_low in Hb. cbn. unfold is_high. breflect. split_if; breflect; try lia. }
  induction a as [|c|c e t IH1 IH2] using pair_ind; [cbn; lia| |].
  - change ([c] ++ d :: b) with (c :: d :: b). rewrite utf8_cons2, Hd, Hb. cbn [meshUtf8ByteLength].
    split_if; lia.
  - change ((e :: t) ++ d :: b) with (e :: t ++ d :: b) in IH1.
    change ((c :: e :: t) ++ d :: b) with (c :: e :: t ++ d :: b). rewrite !utf8_cons2.
    destruct (c <? 0x80); [lia|]. destruct (c <? 0x800); [lia|].
    destruct (is_high c); [|lia]. destruct (is_low e); lia.
Qed.

Lemma utf8_concat_bounds (ss : list ustring) :
  foldr (fun s n => meshUtf8ByteLength s + n) 0 ss
    <= meshUtf8ByteLength (concat ss) + 2 * Z.of_nat (length ss).
Proof.
  induction ss as [|s ss IH]; [done|]. pose proof (utf8_app_bounds s (concat ss)). simpl. lia.
Qed.

(** ** Sizes of JSON text *)

(** Bytes of a quoted text, without its quotes. *)
Fixpoint quoted_bytes (s : ustring) : Z :=
  match s with
  | [] => 0
  | c :: t =>
      if is_high c then
        match t with
        | d :: t' => if is_low d then 4 + quoted_bytes t' else 6 + quoted_bytes t
        | [] => 6
        end
      else if is_low c then 6 + quoted_bytes t
      else meshUtf8ByteLength (quote_unit c) + quoted_bytes t
  end.

Lemma hex_digit_ascii n : 0 <= n < 16 -> 0 <= hex_digit n < 128.
Proof. unfold hex_digit. split_if; breflect; lia. Qed.

Lemma utf8_ascii a : Forall (fun c => c < 128) a -> meshUtf8ByteLength a = Z.of_nat (length a).
Proof.
  induction 1 as [|c t Hc _ IH]; [done|]. simpl. apply Z.ltb_lt in Hc. rewrite Hc, IH. lia.
Qed.

Lemma unicode_escape_bytes c : meshUtf8ByteLength (unicode_escape c) = 6.
Proof.
  assert (Hm : forall x, hex_digit (x mod 16) < 128) by
    (intros x; apply hex_digit_ascii, Z.mod_pos_bound; lia).
  unfold unicode_escape. rewrite utf8_ascii; [done|].
  apply Forall_app. split; [repeat constructor; done|]. repeat constructor; apply Hm.
Qed.

Lemma quote_unit_head c : is_low c = false -> exists h t, quote_unit c = h :: t /\ is_low h = false.
Proof.
  intros H. unfold quote_unit. repeat case_decide; try (by eexists _, _). split_if; by eexists _, _.
Qed.

Lemma quote_units_not_low s : starts_low (quote_units s) = false.
Proof.
  destruct s as [|c t]; [done|]. simpl.
  destruct (is_high c) eqn:Hh.
  - assert (is_low c = false) by (unfold is_high, is_low in *; breflect; apply andb_false_iff; left; lia).
    destruct t as [|d t']; [done|]. destruct (is_low d); done.
  - destruct (is_low c) eqn:Hl; [done|].
    destruct (quote_unit_head c Hl) as (h & r & -> & Hh'). done.
Qed.

Lemma starts_low_app (a b : ustring) : starts_low a = false -> starts_low b = false -> starts_low (a ++ b) = false.
Proof. by destruct a. Qed.

Lemma high_unit_range c : is_high c = true -> (c <? 128) = false /\ (c <? 2048) = false.
Proof. unfold is_high. intros. breflect. lia. Qed.

Lemma quote_units_bytes s : meshUtf8ByteLength (quote_units s) = quoted_bytes s.
Proof.
  induction s as [|c|c d t IH1 IH2] using pair_ind; [done| |].
  - cbn [quote_units quoted_bytes]. destruct (is_high c); [apply unicode_escape_bytes|].
    destruct (is_low c); rewrite app_nil_r; [rewrite unicode_escape_bytes|]; lia.
  - change (quote_units (c :: d :: t)) with
      (if is_high c then if is_low d then c :: d :: quote_units t else unicode_escape c ++ quote_units (d :: t)
       else if is_low c then unicode_escape c ++ quote_units (d :: t) else quote_unit c ++ quote_units (d :: t)).
    change (quoted_bytes (c :: d :: t)) with
      (if is_high c then if is_low d then 4 + quoted_bytes t else 6 + quoted_bytes (d :: t)
       else if is_low c then 6 + quoted_bytes (d :: t)
       else meshUtf8ByteLength (quote_unit c) + quoted_bytes (d :: t)).
    destruct (is_high c) eqn:Hc; [destruct (is_low d) eqn:Hd|destruct (is_low c)].
    + destruct (high_unit_range c Hc) as [E1 E2].
      cbn [meshUtf8ByteLength]. rewrite E1, E2, Hc, Hd, IH2. done.
    + rewrite utf8_app, unicode_escape_bytes, IH1 by apply quote_units_not_low. done.
    + rewrite utf8_app, unicode_escape_bytes, IH1 by apply quote_units_not_low. done.
    + rewrite utf8_app, IH1 by apply quote_units_not_low. done.
Qed.

Lemma quote_bytes s : meshUtf8ByteLength (quote s) = quoted_bytes s + 2.
Proof.
  unfold quote. rewrite utf8_app; [|apply starts_low_app; [apply quote_units_not_low|done]].
  rewrite utf8_app by done. rewrite quote_units_bytes. cbn. lia.
Qed.

(** ** Decimal numbers *)

Lemma decimal_go_length fuel k n acc :
  0 <= n < 10 ^ Z.of_nat (S k) -> (length (decimal_go fuel n acc) <= S k + length acc)%nat.
Proof.
  revert k n acc. induction fuel as [|f IH]; intros k n acc Hn; cbn [decimal_go]; [lia|].
  destruct (n <? 10) eqn:E; [cbn; lia|]. breflect.
  destruct k as [|k]; [change (10 ^ Z.of_nat 1) with 10 in Hn; lia|].
  etrans; [apply (IH k)|cbn; lia].
  rewrite Nat2Z.inj_succ, Z.pow_succ_r in Hn by lia.
  split; [apply Z.div_pos; lia|]. apply Z.div_lt_upper_bound; lia.
Qed.

Lemma decimal_go_digits fuel n acc :
  Forall (fun c => 48 <= c < 58) acc -> Forall (fun c => 48 <= c < 58) (decimal_go fuel n acc).
Proof.
  revert n acc. induction fuel as [|f IH]; intros n acc H; cbn [decimal_go]; [done|].
  assert (Forall (fun c => 48 <= c < 58) ((48 + n mod 10) :: acc)).
  { constructor; [|done]. pose proof (Z.mod_pos_bound n 10). lia. }
  destruct (n <? 10); auto.
Qed.

Lemma decimal_bytes k n : 0 <= n < 10 ^ Z.of_nat (S k) -> meshUtf8ByteLength (decimal n) <= Z.of_nat (S k).
Proof.
  intros Hn. unfold decimal. replace (n <? 0) with false by (symmetry; apply Z.ltb_ge; lia).
  unfold decimal_nat. rewrite utf8_ascii.
  - pose proof (decimal_go_length (S (Z.to_nat (Z.log2 n))) k n [] Hn). simpl in *. lia.
  - eapply Forall_impl; [apply decimal_go_digits; constructor|]. cbn. lia.
Qed.

Lemma decimal_not_low n : starts_low (decimal n) = false.
Proof.
  unfold decimal, decimal_nat. destruct (n <? 0); [done|].
  pose proof (decimal_go_digits (S (Z.to_nat (Z.log2 n))) n [] (Forall_nil_2 _)) as H.
  destruct H as [|c t Hc _]; [done|]. cbn. unfold is_low. apply andb_false_iff. left. apply Z.leb_gt. lia.
Qed.

(** ** Size of an envelope *)

Lemma stringify_key_not_low k : starts_low (stringify_key k) = false.
Proof. done. Qed.

Lemma quote_not_low s : starts_low (quote s) = false.
Proof. done. Qed.

Ltac not_low :=
  repeat first [apply decimal_not_low | apply stringify_key_not_low | apply quote_not_low
               | apply starts_low_app | done].

(** The literal text of an envelope takes 66 bytes, the quotes of its three
    strings and the kind included. *)
Lemma envelope_bytes_eq v id i n d :
  envelope_bytes (buildChunkEnvelope v id i n d)
  = 66 + meshUtf8ByteLength (decimal v) + quoted_bytes id + meshUtf8ByteLength (decimal i)
    + meshUtf8ByteLength (decimal n) + quoted_bytes d.
Proof.
  unfold envelope_bytes, stringify_envelope. cbn [ce_v ce_kind ce_chunkId ce_index ce_total ce_data buildChunkEnvelope].
  repeat (rewrite utf8_app; [|solve [not_low]]).
  rewrite !quote_bytes.
  replace (quoted_bytes MESH_CHUNK_KIND) with 9 by done.
  repeat match goal with |- context [meshUtf8ByteLength (u ?s)] =>
    let n := eval vm_compute in (meshUtf8ByteLength (u s)) in change (meshUtf8ByteLength (u s)) with n end.
  repeat match goal with |- context [meshUtf8ByteLength (stringify_key ?s)] =>
    let n := eval vm_compute in (meshUtf8ByteLength (stringify_key s)) in
    change (meshUtf8ByteLength (stringify_key s)) with n end.
  lia.
Qed.

(** ** The inner loop *)

Lemma shrunk_size_lt n : (2 <= n)%nat -> (1 <= shrunk_size n < n)%nat.
Proof.
  intros H. unfold shrunk_size. pose proof (Nat.div_lt_upper_bound (n * 4) 5 n). lia.
Qed.

Lemma shrunk_size_one : shrunk_size 1 = 1%nat.
Proof. done. Qed.

(** The slice fits, measured with the widest total. *)
Definition fits (id : ustring) (v i : Z) (s : ustring) : Prop :=
  envelope_bytes (buildChunkEnvelope v id i MESH_MAX_CHUNKS s) <= MESH_MAX_INLINE_FRAME_BYTES.

Lemma fit_slice_spec fuel json id v i off e :
  (off < e)%nat -> (e - off <= fuel)%nat ->
  exists e', fit_slice fuel json id v i off e = Some e' /\
    ((off < e' <= e)%nat /\ fits id v i (slice json off e') \/
     e' = off /\ ~ fits id v i (slice json off (S off))).
Proof.
  revert e. induction fuel as [|f IH]; intros e He Hf; [lia|].
  assert (Hlt : (off <? e)%nat = true) by (apply Nat.ltb_lt; lia).
  cbn [fit_slice]. rewrite Hlt. cbv zeta.
  destruct (envelope_bytes _ <=? _) eqn:Efit; [breflect; exists e; split; [done|left; split; [lia|done]]|].
  destruct (decide (e = S off)) as [->|Hne].
  - replace (S off - off)%nat with 1%nat by lia. rewrite shrunk_size_one.
    replace (S off <=? off + 1)%nat with true by (symmetry; apply Nat.leb_le; lia).
    exists off. split; [|right; split; [done|]; unfold fits; breflect; lia].
    replace (S off - 1)%nat with off by lia.
    destruct f; cbn [fit_slice]; rewrite Nat.ltb_irrefl; done.
  - destruct (shrunk_size_lt (e - off)) as [H1 H2]; [lia|].
    replace (e <=? off + shrunk_size (e - off))%nat with false by (symmetry; apply Nat.leb_gt; lia).
    destruct (IH (off + shrunk_size (e - off))%nat) as (e' & -> & H); [lia|lia|].
    exists e'. split; [done|]. destruct H as [[? ?]|?]; [left|by right]. split; [lia|done].
Qed.

Lemma slice_nonempty json off e : (off < e)%nat -> (off < length json)%nat -> slice json off e <> [].
Proof.
  intros H1 H2 E. apply (f_equal length) in E. unfold slice in E.
  rewrite length_take, length_drop in E. simpl in E. lia.
Qed.

Lemma slice_extends json off e : (off <= e)%nat -> take off json ++ slice json off e = take e json.
Proof. intros H. unfold slice. rewrite take_take_drop. f_equal. lia. Qed.

(** ** The outer loop *)

(** Slices taken so far: non-empty, each fitting at its own index. *)
Definition slices_fit (id : ustring) (v : Z) (ss : list ustring) : Prop :=
  forall i s, ss !! i = Some s -> s <> [] /\ fits id v (Z.of_nat i) s.

Lemma slices_fit_snoc id v ss s :
  slices_fit id v ss -> s <> [] -> fits id v (Z.of_nat (length ss)) s -> slices_fit id v (ss ++ [s]).
Proof.
  intros H Hs Hf i s' Hi. apply lookup_app_Some in Hi as [Hi|[Hle Hi]]; [by apply H|].
  apply list_lookup_singleton_Some in Hi as [E <-]. replace i with (length ss) by lia. done.
Qed.

Definition split_outcome (json id : ustring) (v : Z) (r : SplitRefusal + list ustring) : Prop :=
  match r with
  | inr ss => concat ss = json /\ slices_fit id v ss /\ Z.of_nat (length ss) <= MESH_MAX_CHUNKS
  | inl Split_chunk_too_large =>
      exists off i, (off < length json)%nat /\ ~ fits id v i (slice json off (S off))
  | inl Split_too_many_chunks => MESH_MAX_CHUNKS < Z.of_nat (length json)
  end.

Lemma slices_fit_length id v ss : slices_fit id v ss -> (length ss <= length (concat ss))%nat.
Proof.
  intros H. assert (Hne : Forall (fun s => s <> []) ss).
  { apply Forall_lookup. intros i s Hi. by apply (H i s). }
  clear H. induction Hne as [|s ss Hs _ IH]; [done|].
  destruct s; [done|]. simpl. rewrite length_app. lia.
Qed.

Lemma payload_pos : (0 < MESH_CHUNK_PAYLOAD_CHARS)%nat.
Proof. unfold MESH_CHUNK_PAYLOAD_CHARS. lia. Qed.

Lemma split_slices_spec fuel json id v off ss :
  (off <= length json)%nat -> (length json - off <= fuel)%nat ->
  concat ss = take off json -> slices_fit id v ss -> Z.of_nat (length ss) <= MESH_MAX_CHUNKS ->
  exists r, split_slices fuel json id v off ss = Some r /\ split_outcome json id v r.
Proof.
  revert off ss. induction fuel as [|f IH]; intros off ss Ho Hf Hc Hs Hn.
  { assert (off = length json) as -> by lia. exists (inr ss). cbn [split_slices].
    rewrite Nat.ltb_irrefl. split; [done|]. cbn. rewrite Hc, firstn_all. done. }
  destruct (decide (off = length json)) as [->|Hne].
  { exists (inr ss). cbn [split_slices]. rewrite Nat.ltb_irrefl. split; [done|].
    cbn. rewrite Hc, firstn_all. done. }
  assert (Hlt : (off <? length json)%nat = true) by (apply Nat.ltb_lt; lia).
  cbn [split_slices]. rewrite Hlt. cbv zeta.
  set (e0 := Nat.min (length json) (off + MESH_CHUNK_PAYLOAD_CHARS)).
  assert (He0 : (off < e0 <= length json)%nat) by (unfold e0; pose proof payload_pos; lia).
  destruct (fit_slice_spec (e0 - off) json id v (Z.of_nat (length ss)) off e0) as (e & -> & He); [lia|lia|].
  destruct He as [[He Hfit]|[-> Hbad]].
  2: { rewrite Nat.leb_refl. eexists. split; [done|]. exists off, (Z.of_nat (length ss)). split; [lia|done]. }
  replace (e <=? off)%nat with false by (symmetry; apply Nat.leb_gt; lia).
  assert (Hs' : slices_fit id v (ss ++ [slice json off e])).
  { apply slices_fit_snoc; [done|apply slice_nonempty; lia|done]. }
  assert (Hc' : concat (ss ++ [slice json off e]) = take e json).
  { rewrite concat_app, Hc. simpl. rewrite app_nil_r. apply slice_extends. lia. }
  destruct (MESH_MAX_CHUNKS <? _) eqn:Emax.
  - eexists. split; [done|]. cbn. breflect. apply slices_fit_length in Hs'.
    rewrite Hc', length_take in Hs'. lia.
  - breflect. apply IH; [lia|lia|done..].
Qed.

(** The envelopes stamped with the real total are no larger than measured. *)
Lemma stamped_fits id v i n s :
  0 <= n <= MESH_MAX_CHUNKS -> fits id v i s ->
  envelope_bytes (buildChunkEnvelope v id i n s) <= MESH_MAX_INLINE_FRAME_BYTES.
Proof.
  unfold fits. intros Hn. rewrite !envelope_bytes_eq.
  change (meshUtf8ByteLength (decimal MESH_MAX_CHUNKS)) with 4.
  pose proof (decimal_bytes 3 n). change (10 ^ Z.of_nat 4) with 10000 in *. unfold MESH_MAX_CHUNKS in *. lia.
Qed.

Definition stamp (id : ustring) (v : Z) (ss : list ustring) : list MeshChunkEnvelope :=
  imap (fun i d => buildChunkEnvelope v id (Z.of_nat i) (Z.of_nat (length ss)) d) ss.

Lemma stamp_data id v ss : map ce_data (stamp id v ss) = ss.
Proof.
  unfold stamp. generalize (Z.of_nat (length ss)). intros n.
  apply list_eq. intros i. rewrite list_lookup_fmap, list_lookup_imap. by destruct (ss !! i).
Qed.

Lemma stamp_lookup id v ss i e :
  stamp id v ss !! i = Some e <->
  exists s, ss !! i = Some s /\ e = buildChunkEnvelope v id (Z.of_nat i) (Z.of_nat (length ss)) s.
Proof.
  unfold stamp. rewrite list_lookup_imap, fmap_Some. naive_solver.
Qed.

(** The shape of every result of [splitMeshFrame]. *)
Lemma splitMeshFrame_cases json id v :
  (exists r, splitMeshFrame json id v = Some (Split_refused r) /\
     match r with
     | Split_chunk_too_large =>
         json = [] \/ exists off i, (off < length json)%nat /\ ~ fits id v i (slice json off (S off))
     | Split_too_many_chunks => MESH_MAX_CHUNKS < Z.of_nat (length json)
     end) \/
  (exists ss, splitMeshFrame json id v = Some (Split_ok (stamp id v ss)) /\ concat ss = json /\
     slices_fit id v ss /\ 0 < Z.of_nat (length ss) <= MESH_MAX_CHUNKS).
Proof.
  unfold splitMeshFrame.
  destruct (split_slices_spec (length json) json id v 0 []) as (r & -> & Hr); [lia|lia|done| |done|].
  { intros i s Hi. by rewrite lookup_nil in Hi. }
  destruct r as [[]|[|s ss]]; cbn in Hr.
  - left. by exists Split_too_many_chunks.
  - left. exists Split_chunk_too_large. split; [done|by right].
  - left. exists Split_chunk_too_large. split; [done|left; naive_solver].
  - right. exists (s :: ss). split; [done|]. destruct Hr as (? & ? & ?). split_and!; [done|done|cbn; lia|done].
Qed.

(** ** Serialized text

    What [JSON.stringify] writes: no control characters, no lone
    surrogates. *)

Definition json_text (s : ustring) : bool := forallb (fun c => 32 <=? c) s && wf_utf16 s.

(** A suffix of a well-formed text starts at worst with the second half of a
    pair. *)
Definition wf_suffix (s : ustring) : Prop :=
  wf_utf16 s = true \/ exists d t, s = d :: t /\ is_low d = true /\ wf_utf16 t = true.

Lemma wf_suffix_tail c s : wf_suffix (c :: s) -> wf_suffix s.
Proof.
  intros [H|(d & t & E & _ & Ht)]; [|injection E as <- <-; by left].
  cbn in H. destruct (is_high c).
  - destruct s as [|d t]; [done|]. apply andb_true_iff in H as [H1 H2]. right. by exists d, t.
  - apply andb_true_iff in H as [_ H]. by left.
Qed.

Lemma wf_suffix_drop k s : wf_suffix s -> wf_suffix (drop k s).
Proof.
  revert s. induction k as [|k IH]; intros s H; [done|]. destruct s as [|c s]; [done|].
  cbn. apply IH. by eapply wf_suffix_tail.
Qed.

Lemma quote_unit_bytes c : 32 <= c -> meshUtf8ByteLength (quote_unit c) <= 3.
Proof.
  intros H. unfold quote_unit. repeat case_decide; subst; try (cbn; lia).
  replace (c <? 32) with false by (symmetry; apply Z.ltb_ge; lia). cbn. split_if; lia.
Qed.

Lemma low_not_high c : is_low c = true -> is_high c = false.
Proof. unfold is_low, is_high. intros. breflect. apply andb_false_iff. right. apply Z.leb_gt. lia. Qed.

(** A prefix of well-formed printable text takes at most three bytes a code
    unit, and three more when it ends inside a pair. *)
Lemma quoted_prefix_bytes n s :
  forallb (fun c => 32 <=? c) s = true -> wf_utf16 s = true ->
  quoted_bytes (take n s) <= 3 * Z.of_nat (length (take n s)) + 3.
Proof.
  revert n. induction s as [|c|c d t IH1 IH2] using pair_ind; intros n Hp Hw.
  - rewrite take_nil. cbn. lia.
  - destruct n as [|n]; [cbn; lia|]. cbn [take]. rewrite take_nil. cbn in Hw, Hp.
    destruct (is_high c) eqn:Hh; [done|]. breflect. cbn. rewrite Hh.
    destruct (is_low c); [done|]. pose proof (quote_unit_bytes c). lia.
  - destruct n as [|n]; [cbn; lia|]. cbn [forallb] in Hp. apply andb_true_iff in Hp as [Hc Hp].
    pose proof Hp as [Hd Ht]%andb_true_iff.
    cbn [wf_utf16] in Hw. destruct (is_high c) eqn:Hh.
    + apply andb_true_iff in Hw as [Hl Hw]. destruct n as [|n]; [cbn; rewrite Hh; lia|].
      cbn [take quoted_bytes length]. rewrite Hh, Hl. specialize (IH2 n Ht Hw). lia.
    + apply andb_true_iff in Hw as [Hl Hw]. specialize (IH1 n Hp Hw).
      cbn [take]. cbn [quoted_bytes length]. rewrite Hh. apply negb_true_iff in Hl. rewrite Hl.
      pose proof (quote_unit_bytes c). breflect. fold (take n (d :: t)). lia.
Qed.

Lemma forallb_drop {A} (f : A -> bool) k s : forallb f s = true -> forallb f (drop k s) = true.
Proof.
  revert s. induction k as [|k IH]; intros [|c s]; [done..|]. cbn. intros [_ H]%andb_true_iff. auto.
Qed.

Lemma quoted_slice_bytes json off e :
  json_text json = true -> quoted_bytes (slice json off e) <= 3 * Z.of_nat (e - off) + 6.
Proof.
  intros [Hp Hw]%andb_true_iff. unfold slice. apply (forallb_drop _ off) in Hp.
  destruct (wf_suffix_drop off json (or_introl Hw)) as [Hw'|(d & t & E & Hl & Hw')].
  - pose proof (quoted_prefix_bytes (e - off) _ Hp Hw'). rewrite length_take in *. lia.
  - rewrite E in *. destruct (e - off)%nat as [|n] eqn:En; [cbn; lia|]. cbn [take].
    cbn [forallb] in Hp. apply andb_true_iff in Hp as [_ Hp].
    pose proof (quoted_prefix_bytes n _ Hp Hw') as H. rewrite length_take in H.
    cbn [quoted_bytes]. rewrite (low_not_high d Hl), Hl. lia.
Qed.

Lemma quote_unit_bytes_six c : meshUtf8ByteLength (quote_unit c) <= 6.
Proof.
  destruct (decide (32 <= c)) as [H|H]; [pose proof (quote_unit_bytes c H); lia|].
  assert (Hc : (c <? 32) = true) by (apply Z.ltb_lt; lia).
  pose proof (unicode_escape_bytes c) as Hu.
  unfold quote_unit. rewrite Hc. revert Hu. generalize (unicode_escape c). intros e He.
  repeat (case_decide; [by vm_compute|]). lia.
Qed.

Lemma quoted_bytes_six s : quoted_bytes s <= 6 * Z.of_nat (length s).
Proof.
  induction s as [|c|c d t IH1 IH2] using pair_ind; [done|..];
    pose proof (quote_unit_bytes_six c); cbn [quoted_bytes length] in *; split_if; lia.
Qed.

(** Texts of the mesh protocol: a version that is a safe integer and a group
    id of bounded length. *)
Definition protocol_args (id : ustring) (v : Z) : Prop :=
  0 <= v <= 9007199254740991 /\ (length id <= 1800)%nat.

Lemma json_slice_fits json id v i off e :
  json_text json = true -> protocol_args id v -> 0 <= i <= MESH_MAX_CHUNKS ->
  (e - off <= MESH_CHUNK_PAYLOAD_CHARS)%nat -> fits id v i (slice json off e).
Proof.
  intros Hj [Hv Hid] Hi He. unfold fits. rewrite envelope_bytes_eq.
  pose proof (quoted_slice_bytes json off e Hj). pose proof (quoted_bytes_six id).
  pose proof (decimal_bytes 15 v). change (10 ^ Z.of_nat 16) with 10000000000000000 in *.
  pose proof (decimal_bytes 3 i). change (10 ^ Z.of_nat 4) with 10000 in *.
  change (meshUtf8ByteLength (decimal MESH_MAX_CHUNKS)) with 4.
  unfold MESH_CHUNK_PAYLOAD_CHARS, MESH_MAX_INLINE_FRAME_BYTES, MESH_MAX_CHUNKS in *. lia.
Qed.

(** The cut into equal pieces, as long as pieces remain. *)
Definition plain_cut (json : ustring) : list ustring := pieces (length json) MESH_CHUNK_PAYLOAD_CHARS json.

Lemma pieces_fuel f g n s :
  (0 < n)%nat -> (length s <= f)%nat -> (length s <= g)%nat -> pieces f n s = pieces g n s.
Proof.
  intros Hn. revert g s. induction f as [|f IH]; intros g s Hf Hg.
  - destruct s; [|cbn in Hf; lia]. by destruct g.
  - destruct s as [|c s]; [by destruct g|]. destruct g as [|g]; [cbn in Hg; lia|].
    cbn [pieces]. f_equal. apply IH; rewrite length_drop; cbn in *; lia.
Qed.

Lemma fit_slice_immediate fuel json id v i off e :
  (off < e)%nat -> (0 < fuel)%nat -> fits id v i (slice json off e) ->
  fit_slice fuel json id v i off e = Some e.
Proof.
  intros H Hf Hfit. destruct fuel as [|f]; [lia|]. cbn [fit_slice].
  rewrite (proj2 (Nat.ltb_lt _ _) H). cbv zeta. apply Z.leb_le in Hfit. by rewrite Hfit.
Qed.

Lemma split_slices_plain fuel json id v off ss :
  json_text json = true -> protocol_args id v -> (off <= length json)%nat ->
  (length json - off <= fuel)%nat -> Z.of_nat (length ss) <= MESH_MAX_CHUNKS ->
  split_slices fuel json id v off ss
  = let all := ss ++ pieces fuel MESH_CHUNK_PAYLOAD_CHARS (drop off json) in
    Some (if MESH_MAX_CHUNKS <? Z.of_nat (length all) then inl Split_too_many_chunks else inr all).
Proof.
  intros Hj Hp. pose proof payload_pos as Hpos. revert off ss.
  induction fuel as [|f IH]; intros off ss Ho Hf Hn; cbv zeta.
  all: destruct (decide (off = length json)) as [->|Hne]; [|try lia].
  1,2: cbn [split_slices]; rewrite Nat.ltb_irrefl, drop_all; cbn [pieces];
    rewrite app_nil_r; replace (MESH_MAX_CHUNKS <? _) with false by (symmetry; apply Z.ltb_ge; lia); done.
  cbn [split_slices]. replace (off <? length json)%nat with true by (symmetry; apply Nat.ltb_lt; lia).
  cbv zeta. set (e := Nat.min (length json) (off + MESH_CHUNK_PAYLOAD_CHARS)).
  assert (He : (off < e <= length json /\ e - off <= MESH_CHUNK_PAYLOAD_CHARS)%nat /\
    (e = Nat.min (length json) (off + MESH_CHUNK_PAYLOAD_CHARS))) by (unfold e; lia).
  destruct He as ((? & ?) & Ee). clearbody e.
  rewrite fit_slice_immediate by (first [lia | apply json_slice_fits; [done|done|lia|lia]]).
  replace (e <=? off)%nat with false by (symmetry; apply Nat.leb_gt; lia).
  assert (Hpc : pieces (S f) MESH_CHUNK_PAYLOAD_CHARS (drop off json)
          = slice json off e :: pieces f MESH_CHUNK_PAYLOAD_CHARS (drop e json)).
  { destruct (drop off json) as [|c t] eqn:Ed.
    { apply (f_equal length) in Ed. rewrite length_drop in Ed. cbn in Ed. lia. }
    cbn [pieces]. rewrite <- Ed. unfold slice. rewrite drop_drop.
    destruct (decide (off + MESH_CHUNK_PAYLOAD_CHARS <= length json)%nat) as [Hle|Hgt].
    - replace e with (off + MESH_CHUNK_PAYLOAD_CHARS)%nat by lia. f_equal. f_equal. lia.
    - replace e with (length json) by lia. rewrite drop_all, (drop_ge json (off + MESH_CHUNK_PAYLOAD_CHARS)) by lia.
      f_equal. rewrite !take_ge; rewrite ?length_drop; auto; lia. }
  rewrite Hpc. destruct (MESH_MAX_CHUNKS <? Z.of_nat (length (ss ++ [slice json off e]))) eqn:Emax.
  - replace (MESH_MAX_CHUNKS <? _) with true; [done|]. symmetry. breflect.
    apply Z.ltb_lt. rewrite !length_app in *. cbn [length] in *. lia.
  - breflect. rewrite IH by lia. cbv zeta. by rewrite <- app_assoc.
Qed.

Lemma pieces_count f n s K :
  (0 < n)%nat -> (length s <= f)%nat -> 0 <= K ->
  Z.of_nat (length (pieces f n s)) <= K <-> Z.of_nat (length s) <= K * Z.of_nat n.
Proof.
  intros Hn. revert s K. induction f as [|f IH]; intros s K Hf HK.
  - destruct s; [cbn; lia | cbn in Hf; lia].
  - destruct s as [|c s]; [cbn; lia|]. cbn [pieces length].
    destruct (decide (K = 0)) as [->|HK0]; [lia|].
    assert (Hd : (length (drop n (c :: s)) <= f)%nat) by (rewrite length_drop; cbn in *; lia).
    specialize (IH (drop n (c :: s)) (K - 1) Hd ltac:(lia)). rewrite length_drop in IH. cbn [length] in IH. nia.
Qed.

(** ** Theorems *)

(** Splitting always returns.  When it succeeds, the payloads in index
    order concatenate to the frame, there are between 1 and 1024 of them, and
    chunk [i] carries index [i], the common id and version, the number of
    chunks as its total, and a non-empty payload.  It refuses with
    "chunk_too_large" only an empty frame or one with a single code unit whose
    envelope exceeds the ceiling, and with "too_many_chunks" only a frame of
    more than 1024 code units. *)
Theorem split_partitions (json id : ustring) (v : Z) :
  exists r, splitMeshFrame json id v = Some r /\
    match r with
    | Split_ok chunks =>
        concat (map ce_data chunks) = json /\ 0 < Z.of_nat (length chunks) <= MESH_MAX_CHUNKS /\
        forall i e, chunks !! i = Some e ->
          e = buildChunkEnvelope v id (Z.of_nat i) (Z.of_nat (length chunks)) (ce_data e) /\ ce_data e <> []
    | Split_refused Split_chunk_too_large =>
        json = [] \/ exists off i, (off < length json)%nat /\
          MESH_MAX_INLINE_FRAME_BYTES
          < envelope_bytes (buildChunkEnvelope v id i MESH_MAX_CHUNKS (slice json off (S off)))
    | Split_refused Split_too_many_chunks => MESH_MAX_CHUNKS < Z.of_nat (length json)
    end.
Proof.
  destruct (splitMeshFrame_cases json id v) as [(r & -> & Hr)|(ss & -> & Hc & Hf & Hn)]; eexists; (split; [done|]).
  - destruct r; [done|]. destruct Hr as [Hr|(off & i & Ho & Hr)]; [by left|]. right. exists off, i.
    unfold fits in Hr. split; [done|lia].
  - cbv match. assert (Hl : length (stamp id v ss) = length ss) by apply length_imap.
    rewrite stamp_data, Hl. split_and!; [done|lia|lia|]. intros i e (s & Hs & ->)%stamp_lookup. split; [done|]. by apply (Hf i s).
Qed.

(** C34: Every message handed to the data channel is at most the inline
    ceiling in bytes, whole frame or chunk; an envelope that is not written
    sends nothing; a frame under the ceiling is sent as it is; and what a
    chunked frame sends are the serialized chunks of its split, under a group
    id that names the counter, which then moves on. *)
Theorem messages_fit (stringified : option ustring) (idNonce : ustring) (idSeq : Z) :
  exists msgs ok next, writeEnvelope stringified idNonce idSeq = Some (msgs, ok, next) /\
    Forall (fun m => meshUtf8ByteLength m <= MESH_MAX_INLINE_FRAME_BYTES) msgs /\
    (ok = false -> msgs = []) /\
    (ok = true -> exists json, stringified = Some json /\
       if meshFrameNeedsChunking json
       then next = idSeq + 1 /\ exists chunks,
              splitMeshFrame json (idNonce ++ u ":chunk:" ++ decimal idSeq) PROTOCOL_VERSION = Some (Split_ok chunks) /\
              msgs = map stringify_envelope chunks
       else msgs = [json] /\ next = idSeq).
Proof.
  unfold writeEnvelope. destruct stringified as [json|]; [|by exists [], false, idSeq].
  destruct (meshFrameNeedsChunking json) eqn:E; cbn [negb].
  - cbv zeta. set (id := idNonce ++ _).
    destruct (splitMeshFrame_cases json id PROTOCOL_VERSION) as [(r & -> & _)|(ss & Es & _ & Hf & Hn)].
    + by exists [], false, (idSeq + 1).
    + rewrite Es. eexists _, true, _. split_and!; [done| |done|].
      * apply Forall_map, Forall_lookup. intros i e (s & Hs & ->)%stamp_lookup.
        apply stamped_fits; [lia|]. by apply (Hf i s).
      * intros _. exists json. rewrite E. eauto 6.
  - exists [json], true, idSeq. split_and!; [done| |done|].
    + constructor; [|constructor]. unfold meshFrameNeedsChunking in E. breflect. lia.
    + intros _. exists json. by rewrite E.
Qed.

(** On serialized JSON text, with a version that is a safe integer and a
    group id of at most 1800 code units, the shrinking path is never taken:
    the frame is cut into pieces of exactly 16000 code units (the last one
    shorter), and it is accepted exactly when it has between 1 and 16384000
    code units. *)
Theorem split_never_shrinks (json id : ustring) (v : Z) :
  json_text json = true -> protocol_args id v ->
  splitMeshFrame json id v
  = Some (if bool_decide (json = []) then Split_refused Split_chunk_too_large
          else if 16384000 <? Z.of_nat (length json) then Split_refused Split_too_many_chunks
          else Split_ok (stamp id v (plain_cut json))).
Proof.
  intros Hj Hp. unfold splitMeshFrame. rewrite split_slices_plain by (done || (cbn; lia)).
  rewrite drop_0. cbv zeta. cbn [app]. fold (plain_cut json).
  case_bool_decide as Hnil; [subst; done|].
  pose proof (pieces_count (length json) MESH_CHUNK_PAYLOAD_CHARS json MESH_MAX_CHUNKS payload_pos
                ltac:(lia) ltac:(done)) as Hc. fold (plain_cut json) in Hc.
  replace (MESH_MAX_CHUNKS * Z.of_nat MESH_CHUNK_PAYLOAD_CHARS) with 16384000 in Hc
    by (unfold MESH_MAX_CHUNKS, MESH_CHUNK_PAYLOAD_CHARS; lia).
  replace (MESH_MAX_CHUNKS <? Z.of_nat (length (plain_cut json))) with (16384000 <? Z.of_nat (length json))
    by (apply eq_bool_prop_intro; rewrite !Is_true_true, !Z.ltb_lt; lia).
  destruct (16384000 <? Z.of_nat (length json)); [done|].
  destruct (plain_cut json) as [|s ss] eqn:Ecut; [|done].
  unfold plain_cut in Ecut. by destruct json.
Qed.

Definition sample_json : ustring := u "{" ++ replicate (Z.to_nat 40000) 0xd55c ++ u "}".

Lemma split_never_shrinks_witness :
  splitMeshFrame sample_json (u "n1:chunk:0") 1
  = Some (Split_ok (stamp (u "n1:chunk:0") 1 (plain_cut sample_json))) /\
  length (plain_cut sample_json) = 3%nat.
Proof.
  split; [|by vm_compute].
  rewrite (split_never_shrinks sample_json (u "n1:chunk:0") 1);
    [by vm_compute | by vm_compute | split; [lia | cbn; lia]].
Defined.

(** The byte count used where no [TextEncoder] exists agrees with it on
    well-formed text. *)
Theorem fallback_length_agrees (s : ustring) :
  wf_utf16 s = true -> meshUtf8ByteLength_loop s = meshUtf8ByteLength s.
Proof.
  induction s as [|c|c d t IH1 IH2] using pair_ind; [done| |]; intros Hw.
  - cbn in *. destruct (is_high c) eqn:E; [done|]. split_if; lia.
  - rewrite utf8_cons2. cbn [wf_utf16] in Hw. cbn [meshUtf8ByteLength_loop].
    destruct (is_high c) eqn:E.
    + apply andb_true_iff in Hw as [-> Hw]. destruct (high_unit_range c E) as [-> ->]. by rewrite IH2.
    + apply andb_true_iff in Hw as [_ Hw]. specialize (IH1 Hw). cbn [meshUtf8ByteLength_loop] in IH1.
      rewrite <- IH1. done.
Qed.

Lemma fallback_length_agrees_witness :
  meshUtf8ByteLength_loop [0x41; 0xe9; 0xd55c; 0xd83d; 0xde00] = 10.
Proof. rewrite (fallback_length_agrees [0x41; 0xe9; 0xd55c; 0xd83d; 0xde00]); by vm_compute. Defined.

(** A pair at each edge of a slice of Korean text. *)
Definition edge_pairs_json : ustring :=
  [0xd83d; 0xde00] ++ replicate (MESH_CHUNK_PAYLOAD_CHARS - 2) 0xd55c ++ [0xd83d; 0xde00].

(** The documented worst case is off by the two halves of surrogate pairs
    a slice may be cut through: for ids of 64 plain characters, no slice of
    serialized text exceeds the measured worst case by more than six bytes,
    which keeps it far under the ceiling, and some slice exceeds it. *)
Theorem worst_case_margin :
  (forall json id v i off e,
     json_text json = true -> 0 <= v <= 9007199254740991 -> quoted_bytes id <= 64 ->
     0 <= i <= MESH_MAX_CHUNKS -> (e - off <= MESH_CHUNK_PAYLOAD_CHARS)%nat ->
     envelope_bytes (buildChunkEnvelope v id i MESH_MAX_CHUNKS (slice json off e))
     <= measureWorstCaseChunkEnvelopeBytes + 6) /\
  measureWorstCaseChunkEnvelopeBytes + 6 < MESH_MAX_INLINE_FRAME_BYTES /\
  json_text edge_pairs_json = true /\
  envelope_bytes (buildChunkEnvelope 9007199254740991 (replicate 64 120) MESH_MAX_CHUNKS MESH_MAX_CHUNKS
    (slice edge_pairs_json 1 (S MESH_CHUNK_PAYLOAD_CHARS)))
  = measureWorstCaseChunkEnvelopeBytes + 6.
Proof.
  assert (Hm : measureWorstCaseChunkEnvelopeBytes = 48154) by (by vm_compute).
  split; [|split_and!; [rewrite Hm; done|by vm_compute|by vm_compute]].
  intros json id v i off e Hj Hv Hid Hi He. rewrite envelope_bytes_eq, Hm.
  pose proof (quoted_slice_bytes json off e Hj).
  pose proof (decimal_bytes 15 v). change (10 ^ Z.of_nat 16) with 10000000000000000 in *.
  pose proof (decimal_bytes 3 i). change (10 ^ Z.of_nat 4) with 10000 in *.
  change (meshUtf8ByteLength (decimal MESH_MAX_CHUNKS)) with 4.
  unfold MESH_CHUNK_PAYLOAD_CHARS, MESH_MAX_CHUNKS in *. lia.
Qed.
