(* ===== verification/RpcAssemble.v ===== *)
(** * What reassembly guarantees

    The assembler's buffers stay bounded, a frame is only ever delivered
    whole, and the chunks of a split frame, arriving in any order, repeated,
    and interleaved with other traffic, reassemble to it. *)

From S2P Require Import Prelude RpcChunking RpcSplit.

(** ** Sums over slots *)

Definition weight (f : ustring -> Z) (l : list ustring) : Z := foldr (fun s n => f s + n) 0 l.

Lemma weight_cons f x l : weight f (x :: l) = f x + weight f l.
Proof. done. Qed.
Arguments weight : simpl never.

Definition slot_filled (s : ustring) : Z := if s is [] then 0 else 1.

(** How many slots hold data, and how many bytes they hold. *)
Notation filled := (weight slot_filled).
Notation slot_bytes := (weight meshUtf8ByteLength).

Lemma weight_insert f l i x y :
  l !! i = Some x -> weight f (<[i := y]> l) = weight f l - f x + f y.
Proof.
  revert i. induction l as [|z l IH]; intros [|i] H; try done.
  - injection H as ->. cbn. rewrite !weight_cons. lia.
  - change (<[S i := y]> (z :: l)) with (z :: <[i := y]> l). rewrite !weight_cons, IH by done. lia.
Qed.

Lemma weight_mono f l m :
  length l = length m -> (forall i x y, l !! i = Some x -> m !! i = Some y -> f x <= f y) ->
  weight f l <= weight f m.
Proof.
  revert m. induction l as [|x l IH]; intros [|y m] Hl H; try done. rewrite !weight_cons.
  pose proof (H 0%nat x y eq_refl eq_refl).
  specialize (IH m ltac:(cbn in Hl; lia) (fun i a b Ha Hb => H (S i) a b Ha Hb)). lia.
Qed.

Lemma weight_replicate_nil f n : f [] = 0 -> weight f (replicate n []) = 0.
Proof. intros H. induction n as [|n IH]; [done|]. cbn. rewrite weight_cons. lia. Qed.

Lemma filled_le l : filled l <= Z.of_nat (length l).
Proof. induction l as [|[|c s] l IH]; rewrite ?weight_cons; cbn in *; [done|lia|lia]. Qed.

Lemma filled_hole l k : l !! k = Some [] -> filled l < Z.of_nat (length l).
Proof.
  revert k. induction l as [|s l IH]; intros [|k] H; try done.
  - injection H as ->. pose proof (filled_le l). rewrite weight_cons. cbn in *. lia.
  - specialize (IH k H). rewrite weight_cons. destruct s; cbn in *; lia.
Qed.

Lemma filled_all l i s : Z.of_nat (length l) <= filled l -> l !! i = Some s -> s <> [].
Proof. intros Hl Hi ->. pose proof (filled_hole l i Hi). lia. Qed.

Lemma filled_full l : Forall (fun s => s <> []) l -> filled l = Z.of_nat (length l).
Proof. induction 1 as [|[|c s] l Hs _ IH]; rewrite ?weight_cons; cbn in *; try done; lia. Qed.

(** ** Well-formed buffers *)

Record entry_ok (e : MeshChunkBuffer) : Prop := {
  eo_total : 0 < mb_total e <= MESH_MAX_CHUNKS;
  eo_slots : Z.of_nat (length (mb_chunks e)) = mb_total e;
  eo_received : mb_received e = filled (mb_chunks e);
  eo_partial : mb_received e < mb_total e;
  eo_bytes : mb_bytesReceived e = slot_bytes (mb_chunks e);
  eo_budget : mb_bytesReceived e <= MESH_MAX_REASSEMBLED_BYTES }.

Definition buffers_ok (b : Buffers) : Prop := map_Forall (fun _ e => entry_ok e) b.

Lemma new_buffer_ok total t : 0 < total <= MESH_MAX_CHUNKS -> entry_ok (new_buffer total t).
Proof.
  intros H. split; cbn; rewrite ?length_replicate, ?weight_replicate_nil by done; try lia. done.
Qed.

Lemma sweep_lookup now b id :
  sweep now b !! id
  = match b !! id with Some e => if decide (MESH_CHUNK_TTL_MS < now - mb_createdAt e) then None else Some e | None => None end.
Proof.
  unfold sweep. destruct (b !! id) as [e|] eqn:E.
  - case_decide as H.
    + apply map_lookup_filter_None_2. right. intros x Hx Hn. cbn in Hn. congruence.
    + apply map_lookup_filter_Some_2; [done|]. done.
  - apply map_lookup_filter_None_2. by left.
Qed.

Lemma sweep_ok now b : buffers_ok b -> buffers_ok (sweep now b).
Proof.
  intros H id e. rewrite sweep_lookup. destruct (b !! id) as [e'|] eqn:E; [|done].
  case_decide; [done|]. intros [= <-]. by eapply H.
Qed.

(** What the shape check lets through. *)
Record chunk_ok (c : Chunk) : Prop := {
  co_id : ck_id c <> []; co_index : 0 <= ck_index c < ck_total c; co_data : ck_data c <> [] }.

Section Assembler.
Context (Number_of_string : ustring -> WNumber) (Number_of_object : list (string * WValue) -> WNumber).
Context {F : Type} (JSON_parse : ustring -> option F).

Notation readChunk := (readChunk Number_of_string Number_of_object).
Notation accept := (accept Number_of_string Number_of_object JSON_parse).
Notation accept_event := (accept_event Number_of_string Number_of_object JSON_parse).
Notation accept_all := (accept_all Number_of_string Number_of_object JSON_parse).
Notation store_chunk := (store_chunk JSON_parse).

Lemma readChunk_ok frame c : readChunk frame = Some c -> chunk_ok c.
Proof.
  unfold RpcChunking.readChunk. destruct (to_Number _ _ (frame_field frame "index")) as [i|]; [|done].
  destruct (to_Number _ _ (frame_field frame "total")) as [n|]; [|done].
  destruct (_ || _) eqn:E; [done|]. intros [= <-]. breflect. split; cbn; [done|lia|done].
Qed.

(** The slot a chunk goes to exists in its group. *)
Lemma slot_exists c e :
  chunk_ok c -> entry_ok e -> mb_total e = ck_total c ->
  exists x, mb_chunks e !! Z.to_nat (ck_index c) = Some x.
Proof.
  intros [_ Hi _] He Ht. apply lookup_lt_is_Some_2. pose proof (eo_slots e He). lia.
Qed.

(** The entry after a chunk is stored in an empty slot. *)
Definition stored (e : MeshChunkBuffer) (c : Chunk) : MeshChunkBuffer :=
  {| mb_total := mb_total e;
     mb_chunks := <[Z.to_nat (ck_index c) := ck_data c]> (mb_chunks e);
     mb_received := mb_received e + 1;
     mb_bytesReceived := mb_bytesReceived e + meshUtf8ByteLength (ck_data c);
     mb_createdAt := mb_createdAt e |}.

(** The branches of [store_chunk]. *)
Inductive stores (b : Buffers) (c : Chunk) (e : MeshChunkBuffer) : Buffers * MeshChunkAcceptResult F -> Prop :=
| St_repeat :
    mb_chunks e !! Z.to_nat (ck_index c) = Some (ck_data c) ->
    stores b c e (b, Acc_partial (mb_received e) (mb_total e))
| St_mismatch x :
    mb_chunks e !! Z.to_nat (ck_index c) = Some x -> x <> [] -> x <> ck_data c ->
    stores b c e (delete (ck_id c) b, Acc_failed duplicate_chunk_mismatch (ck_id c))
| St_budget :
    mb_chunks e !! Z.to_nat (ck_index c) = Some [] ->
    MESH_MAX_REASSEMBLED_BYTES < mb_bytesReceived (stored e c) ->
    stores b c e (delete (ck_id c) b, Acc_failed budget_exceeded (ck_id c))
| St_partial :
    mb_chunks e !! Z.to_nat (ck_index c) = Some [] ->
    mb_bytesReceived (stored e c) <= MESH_MAX_REASSEMBLED_BYTES ->
    mb_received e + 1 < mb_total e ->
    stores b c e (<[ck_id c := stored e c]> b, Acc_partial (mb_received e + 1) (mb_total e))
| St_full :
    mb_chunks e !! Z.to_nat (ck_index c) = Some [] ->
    mb_bytesReceived (stored e c) <= MESH_MAX_REASSEMBLED_BYTES ->
    mb_total e <= mb_received e + 1 ->
    stores b c e (delete (ck_id c) b,
      match JSON_parse (concat (mb_chunks (stored e c))) with
      | Some frame => Acc_complete frame | None => Acc_failed reassembled_parse_failed (ck_id c) end).

Lemma store_chunk_cases b c e :
  chunk_ok c -> entry_ok e -> mb_total e = ck_total c -> stores b c e (store_chunk b c e).
Proof.
  intros Hc He Ht. destruct (slot_exists c e Hc He Ht) as [x Hx].
  unfold RpcChunking.store_chunk. rewrite Hx. cbn [nullish].
  case_bool_decide as Hn.
  - case_bool_decide as Hd; [subst; by apply St_repeat | by eapply St_mismatch].
  - destruct (decide (x = [])) as [->|]; [|done]. cbv zeta. fold (stored e c).
    change (mb_received (stored e c)) with (mb_received e + 1).
    change (mb_total (stored e c)) with (mb_total e).
    destruct (_ <? _) eqn:Eb; breflect; [by apply St_budget|].
    destruct (_ <? _) eqn:Er; breflect; [apply St_partial | apply St_full]; done || (cbn in *; lia).
Qed.

Lemma stored_ok e c :
  chunk_ok c -> entry_ok e -> mb_chunks e !! Z.to_nat (ck_index c) = Some [] ->
  mb_bytesReceived (stored e c) <= MESH_MAX_REASSEMBLED_BYTES -> mb_received e + 1 < mb_total e ->
  entry_ok (stored e c).
Proof.
  intros [_ _ Hd] [] Hs Hb Hr. split; cbn in *; rewrite ?length_insert, ?(weight_insert _ _ _ [] _ Hs); try lia.
  - destruct (ck_data c); [done|]. cbn. lia.
  - cbn. lia.
Qed.

(** The branches of [accept] once the frame has the shape of a chunk. *)
Definition group_entry (b : Buffers) (c : Chunk) (opened : Z) : MeshChunkBuffer :=
  nullish (b !! ck_id c) (new_buffer (ck_total c) opened).

Lemma accept_cases now opened b frame :
  buffers_ok b ->
  match readChunk frame with
  | None => accept now opened b frame
            = (sweep now b, Acc_failed malformed_chunk (string_or_empty (frame_field frame "chunkId")))
  | Some c =>
      let e := group_entry (sweep now b) c opened in
      chunk_ok c /\
      (accept now opened b frame = (delete (ck_id c) (sweep now b), Acc_failed too_many_chunks (ck_id c)) /\
         MESH_MAX_CHUNKS < ck_total c
       \/ accept now opened b frame = (delete (ck_id c) (sweep now b), Acc_failed inconsistent_total (ck_id c)) /\
         mb_total e <> ck_total c
       \/ ck_total c <= MESH_MAX_CHUNKS /\ entry_ok e /\ mb_total e = ck_total c /\
          exists b0, (b0 = sweep now b /\ b0 !! ck_id c = Some e \/ b0 = <[ck_id c := e]> (sweep now b)) /\
            stores b0 c e (accept now opened b frame))
  end.
Proof.
  intros Hb. unfold RpcChunking.accept. destruct (readChunk frame) as [c|] eqn:Er; [|done].
  pose proof (readChunk_ok _ _ Er) as Hc. cbv zeta. split; [done|]. unfold group_entry.
  destruct (_ <? _) eqn:Et; breflect; [by left|]. right.
  destruct (sweep now b !! ck_id c) as [e|] eqn:El; cbn [nullish].
  - case_bool_decide as Hn; [by left|right]. assert (mb_total e = ck_total c) by lia.
    assert (entry_ok e) by (by eapply (sweep_ok now b Hb)).
    split_and!; [done..|]. eexists. split; [by left|]. by apply store_chunk_cases.
  - right. pose proof (co_index c Hc). assert (entry_ok (new_buffer (ck_total c) opened)) by (apply new_buffer_ok; lia).
    split_and!; [done..|]. eexists. split; [by right|]. by apply store_chunk_cases.
Qed.

(** ** Every step keeps the buffers well-formed *)

Lemma stores_ok b c e res :
  buffers_ok b -> chunk_ok c -> entry_ok e -> stores b c e res -> buffers_ok res.1.
Proof.
  intros Hb Hc He [| | | |]; cbn; [done|..]; try (by apply map_Forall_delete).
  apply map_Forall_insert_2; [by apply stored_ok|done].
Qed.

Lemma accept_ok now opened b frame : buffers_ok b -> buffers_ok (accept now opened b frame).1.
Proof.
  intros Hb. pose proof (accept_cases now opened b frame Hb) as H. pose proof (sweep_ok now b Hb) as Hs.
  destruct (readChunk frame) as [c|]; [|by rewrite H].
  destruct H as (Hc & [[-> _]|[[-> _]|(Ht & He & Hn & b0 & Hb0 & H)]]); [by apply map_Forall_delete..|].
  eapply stores_ok; [|done..]. destruct Hb0 as [[-> _]| ->]; [done|]. by apply map_Forall_insert_2.
Qed.

Lemma accept_all_ok es b : buffers_ok b -> buffers_ok (accept_all b es).
Proof.
  revert b. induction es as [|e es IH]; intros b Hb; [done|]. cbn. apply IH. by apply accept_ok.
Qed.

Lemma accept_all_snoc b es e : accept_all b (es ++ [e]) = (accept_event (accept_all b es) e).1.
Proof. unfold RpcChunking.accept_all. by rewrite fold_left_app. Qed.

Lemma empty_ok : buffers_ok ∅.
Proof. apply map_Forall_empty. Qed.

(** ** A step touches one group *)

Lemma stores_other b c e res id : stores b c e res -> id <> ck_id c -> res.1 !! id = b !! id.
Proof. intros [] Hid; cbn; rewrite ?lookup_delete_ne, ?lookup_insert_ne by done; done. Qed.

Lemma accept_other now opened b frame id :
  buffers_ok b -> (forall c, readChunk frame = Some c -> id <> ck_id c) ->
  (accept now opened b frame).1 !! id = sweep now b !! id.
Proof.
  intros Hb Hid. pose proof (accept_cases now opened b frame Hb) as H.
  destruct (readChunk frame) as [c|]; [|by rewrite H]. specialize (Hid c eq_refl).
  destruct H as (Hc & [[-> _]|[[-> _]|(_ & _ & _ & b0 & Hb0 & H)]]); cbn; rewrite ?lookup_delete_ne by done; try done.
  rewrite (stores_other _ _ _ _ _ H Hid).
  destruct Hb0 as [[-> _]| ->]; [done|]. by rewrite lookup_insert_ne.
Qed.

(** An entry of the buffers after a step was there before, or belongs to
    the chunk's group. *)
Lemma stores_own b c e res e' :
  stores b c e res -> b !! ck_id c = Some e -> res.1 !! ck_id c = Some e' ->
  e' = e \/ e' = stored e c /\ mb_chunks e !! Z.to_nat (ck_index c) = Some [].
Proof.
  intros [] Hl; cbn; rewrite ?lookup_delete_eq, ?lookup_insert_eq; try done; naive_solver.
Qed.

(** ** Where stored data comes from *)

Definition delivered (es : list Event) (c : Chunk) : Prop :=
  exists e, e ∈ es /\ readChunk (ev_frame e) = Some c.

(** Every filled slot holds the payload of a received chunk of that group,
    position and total. *)
Definition slots_from (es : list Event) (id : ustring) (e : MeshChunkBuffer) : Prop :=
  forall i d, mb_chunks e !! i = Some d -> d <> [] ->
    delivered es {| ck_id := id; ck_index := Z.of_nat i; ck_total := mb_total e; ck_data := d |}.

Definition buffers_from (es : list Event) (b : Buffers) : Prop := map_Forall (slots_from es) b.

Lemma delivered_more es es' c : delivered es c -> delivered (es ++ es') c.
Proof. intros (e & He & Hc). exists e. split; [|done]. apply elem_of_app. by left. Qed.

Lemma slots_from_more es es' id e : slots_from es id e -> slots_from (es ++ es') id e.
Proof. intros H i d Hi Hd. by apply delivered_more, H. Qed.

Lemma new_buffer_from es id total t : slots_from es id (new_buffer total t).
Proof. intros i d Hi Hd. apply lookup_replicate in Hi as [-> _]. done. Qed.

Lemma sweep_from now es b : buffers_from es b -> buffers_from es (sweep now b).
Proof.
  intros H id e. rewrite sweep_lookup. destruct (b !! id) as [e'|] eqn:E; [|done].
  case_decide; [done|]. intros [= <-]. by apply H.
Qed.

Lemma group_entry_from es b c opened :
  buffers_from es b -> slots_from es (ck_id c) (group_entry b c opened).
Proof.
  intros H. unfold group_entry. destruct (b !! ck_id c) as [e|] eqn:E; [by apply H|]. apply new_buffer_from.
Qed.

Lemma stored_from es ev c e :
  chunk_ok c -> readChunk (ev_frame ev) = Some c -> mb_total e = ck_total c ->
  slots_from es (ck_id c) e -> slots_from (es ++ [ev]) (ck_id c) (stored e c).
Proof.
  intros Hc Hr Ht H i d Hi Hd. cbn in Hi. apply list_lookup_insert_Some in Hi as [(<- & <- & _)|[_ Hi]].
  - exists ev. split; [apply elem_of_app; right; by apply list_elem_of_singleton|].
    rewrite Hr. cbn. rewrite Ht, Z2Nat.id by (pose proof (co_index c Hc); lia). by destruct c.
  - apply delivered_more. by apply H.
Qed.

Lemma accept_from es b ev :
  buffers_ok b -> buffers_from es b -> buffers_from (es ++ [ev]) (accept_event b ev).1.
Proof.
  intros Hb H id e' He'. unfold RpcChunking.accept_event in He'.
  pose proof (sweep_from (ev_now ev) es b H) as Hs.
  pose proof (accept_cases (ev_now ev) (ev_opened ev) b (ev_frame ev) Hb) as Hcases.
  destruct (readChunk (ev_frame ev)) as [c|] eqn:Er.
  2: { rewrite Hcases in He'. by apply slots_from_more, Hs. }
  destruct (decide (id = ck_id c)) as [->|Hne].
  2: { rewrite accept_other in He' by (done || congruence). by apply slots_from_more, Hs. }
  destruct Hcases as (Hc & [[E _]|[[E _]|(Ht & He & Hn & b0 & Hb0 & Hst)]]);
    [by rewrite E in He'; cbn in He'; rewrite lookup_delete_eq in He'..|].
  pose proof (group_entry_from es (sweep (ev_now ev) b) c (ev_opened ev) Hs) as Hg.
  assert (Hl : b0 !! ck_id c = Some (group_entry (sweep (ev_now ev) b) c (ev_opened ev))).
  { destruct Hb0 as [[-> Hl]| ->]; [done|]. by rewrite lookup_insert_eq. }
  destruct (stores_own _ _ _ _ _ Hst Hl He') as [->|[-> _]].
  - by apply slots_from_more.
  - by apply stored_from.
Qed.

Lemma accept_all_from es : buffers_from es (accept_all ∅ es).
Proof.
  induction es as [|e es IH] using rev_ind; [apply map_Forall_empty|].
  rewrite accept_all_snoc. apply accept_from; [|done]. apply accept_all_ok, empty_ok.
Qed.

(** ** Theorems on every history *)

(** C35: A frame is delivered only whole: whatever frames arrive in whatever
    order, a completed group has exactly its declared number of pieces, every
    one of them non-empty and received in a chunk with that id, that position
    and that total, and the result is the parse of the pieces joined in index
    order. *)
Theorem complete_only_whole (es : list Event) (ev : Event) (f : F) :
  (accept_event (accept_all ∅ es) ev).2 = Acc_complete f ->
  exists id total parts,
    JSON_parse (concat parts) = Some f /\ Z.of_nat (length parts) = total /\
    forall i d, parts !! i = Some d -> d <> [] /\
      delivered (es ++ [ev]) {| ck_id := id; ck_index := Z.of_nat i; ck_total := total; ck_data := d |}.
Proof.
  intros H. set (b := accept_all ∅ es) in *.
  assert (Hb : buffers_ok b) by apply accept_all_ok, empty_ok.
  pose proof (accept_cases (ev_now ev) (ev_opened ev) b (ev_frame ev) Hb) as Hcases.
  unfold RpcChunking.accept_event in H.
  destruct (readChunk (ev_frame ev)) as [c|] eqn:Er; [|by rewrite Hcases in H].
  destruct Hcases as (Hc & [[E _]|[[E _]|(Ht & He & Hn & b0 & _ & Hst)]]); [by rewrite E in H..|].
  set (e := group_entry (sweep (ev_now ev) b) c (ev_opened ev)) in *.
  inversion Hst as [ | | | |Hs Hbud Hfull Hres]; try (match goal with E : _ = accept _ _ _ _ |- _ => rewrite <- E in H end; done).
  rewrite <- Hres in H. cbn in H. fold (mb_chunks (stored e c)) in H.
  exists (ck_id c), (mb_total e), (mb_chunks (stored e c)).
  destruct (JSON_parse _) as [f'|] eqn:Ep; [|done]. injection H as ->.
  assert (Hlen : Z.of_nat (length (mb_chunks (stored e c))) = mb_total e)
    by (cbn; rewrite length_insert; apply He).
  split_and!; [done|done|]. intros i d Hi. assert (Hd : d <> []).
  { eapply filled_all; [|done]. rewrite Hlen. cbn. rewrite (weight_insert _ _ _ [] _ Hs).
    rewrite <- (eo_received e He). destruct (ck_data c) eqn:Ed; [by apply co_data in Hc|]. cbn. lia. }
  split; [done|]. eapply (stored_from es ev c e Hc Er Hn); [|done|done].
  apply group_entry_from, sweep_from, accept_all_from.
Qed.

(** At every moment each group in the buffers declares between 1 and
    1024 slots, is not complete, counts its filled slots and their bytes
    exactly, holds at most 16000000 bytes, and was opened at most 60 seconds
    before the latest clock reading. *)
Theorem buffers_bounded (es : list Event) (ev : Event) :
  ev_now ev <= ev_opened ev ->
  map_Forall (fun _ e => entry_ok e /\ ev_now ev - mb_createdAt e <= MESH_CHUNK_TTL_MS)
    (accept_all ∅ (es ++ [ev])).
Proof.
  intros Hclock id e He.
  assert (Hok : buffers_ok (accept_all ∅ (es ++ [ev]))) by apply accept_all_ok, empty_ok.
  split; [by eapply Hok|]. rewrite accept_all_snoc in He. unfold RpcChunking.accept_event in He.
  set (b := accept_all ∅ es) in *. assert (Hb : buffers_ok b) by apply accept_all_ok, empty_ok.
  assert (Hsw : forall id' e', sweep (ev_now ev) b !! id' = Some e' -> ev_now ev - mb_createdAt e' <= MESH_CHUNK_TTL_MS).
  { intros id' e'. rewrite sweep_lookup. destruct (b !! id') as [x|]; [|done]. case_decide; [done|].
    intros [= <-]. lia. }
  pose proof (accept_cases (ev_now ev) (ev_opened ev) b (ev_frame ev) Hb) as Hcases.
  destruct (readChunk (ev_frame ev)) as [c|] eqn:Er.
  2: { rewrite Hcases in He. by eapply Hsw. }
  destruct (decide (id = ck_id c)) as [->|Hne].
  2: { rewrite accept_other in He by (done || congruence). by eapply Hsw. }
  destruct Hcases as (Hc & [[E _]|[[E _]|(Ht & Hg & Hn & b0 & Hb0 & Hst)]]);
    [by rewrite E in He; cbn in He; rewrite lookup_delete_eq in He..|].
  set (g := group_entry (sweep (ev_now ev) b) c (ev_opened ev)) in *.
  assert (Hl : b0 !! ck_id c = Some g).
  { destruct Hb0 as [[-> Hl]| ->]; [done|]. by rewrite lookup_insert_eq. }
  assert (Hage : ev_now ev - mb_createdAt g <= MESH_CHUNK_TTL_MS).
  { unfold g, group_entry. destruct (sweep _ b !! ck_id c) eqn:Eg; cbn; [by eapply Hsw|].
    unfold MESH_CHUNK_TTL_MS. lia. }
  by destruct (stores_own _ _ _ _ _ Hst Hl He) as [->|[-> _]].
Qed.

(** One chunk affects one group.  A frame without the shape of a chunk
    changes nothing; any other leaves every other unexpired group as it was,
    and its own group is kept exactly when the answer is "partial", with the
    counters the answer reports: a refusal or a completion drops it. *)
Theorem accept_isolated (es : list Event) (now opened : Z) (frame : WValue) :
  let b := accept_all ∅ es in
  let res := accept now opened b frame in
  match readChunk frame with
  | None => res.1 = sweep now b /\ exists id, res.2 = Acc_failed malformed_chunk id
  | Some c =>
      (forall id, id <> ck_id c -> res.1 !! id = sweep now b !! id) /\
      match res.2 with
      | Acc_partial n total =>
          total = ck_total c /\ exists e, res.1 !! ck_id c = Some e /\ mb_received e = n /\ mb_total e = total
      | Acc_complete _ => res.1 !! ck_id c = None
      | Acc_failed reason id => res.1 !! ck_id c = None /\ id = ck_id c /\ reason <> malformed_chunk
      end
  end.
Proof.
  cbv zeta. set (b := accept_all ∅ es). assert (Hb : buffers_ok b) by apply accept_all_ok, empty_ok.
  pose proof (accept_cases now opened b frame Hb) as Hcases.
  destruct (readChunk frame) as [c|] eqn:Er; [|rewrite Hcases; eauto].
  split; [intros id Hid; apply accept_other; [done|congruence]|].
  destruct Hcases as (Hc & [[-> _]|[[-> _]|(Ht & Hg & Hn & b0 & Hb0 & Hst)]]);
    [cbn; rewrite lookup_delete_eq; done..|].
  set (g := group_entry (sweep now b) c opened) in *.
  assert (Hl : b0 !! ck_id c = Some g).
  { destruct Hb0 as [[-> Hl]| ->]; [done|]. by rewrite lookup_insert_eq. }
  destruct Hst; cbn; rewrite ?lookup_delete_eq, ?lookup_insert_eq; try done; eauto 6.
  by destruct (JSON_parse _).
Qed.

(** ** Following one split frame *)

Lemma readChunk_envelope v id i n d :
  id <> [] -> d <> [] -> 0 <= i < n ->
  readChunk (envelope_value (buildChunkEnvelope v id i n d))
  = Some {| ck_id := id; ck_index := i; ck_total := n; ck_data := d |}.
Proof.
  intros Hid Hd Hi. set (e := buildChunkEnvelope v id i n d). unfold RpcChunking.readChunk.
  assert (frame_field (envelope_value e) "chunkId" = W_string id /\ frame_field (envelope_value e) "data" = W_string d /\
          frame_field (envelope_value e) "index" = W_number (W_int i) /\
          frame_field (envelope_value e) "total" = W_number (W_int n)) as (-> & -> & -> & ->) by done.
  cbv zeta. cbn [to_Number string_or_empty].
  match goal with |- (if ?b then _ else _) = _ => destruct b eqn:E; [exfalso|done] end.
  rewrite !orb_true_iff in E. destruct E as [[[[E|E]|E]|E]|E]; breflect; done || lia.
Qed.

Section Frame.
(** The slices of a frame sent under [id], all of whose chunks arrive
    between the clock readings [t0] and [t0 + TTL]. *)
Context (id : ustring) (ss : list ustring) (t0 : Z).
Hypothesis ss_nonempty : Forall (fun s => s <> []) ss.
Hypothesis ss_count : Z.of_nat (length ss) <= MESH_MAX_CHUNKS.
Hypothesis ss_budget : slot_bytes ss <= MESH_MAX_REASSEMBLED_BYTES.

Definition part (i : nat) (s : ustring) : Chunk :=
  {| ck_id := id; ck_index := Z.of_nat i; ck_total := Z.of_nat (length ss); ck_data := s |}.

Definition in_window (ev : Event) : Prop :=
  t0 <= ev_opened ev /\ ev_now ev <= t0 + MESH_CHUNK_TTL_MS.

(** A chunk that claims [id] is one of the frame's. *)
Definition own_or_other (ev : Event) : Prop :=
  forall c, readChunk (ev_frame ev) = Some c -> ck_id c = id -> exists i s, ss !! i = Some s /\ c = part i s.

Definition brings (ev : Event) (i : nat) : Prop :=
  exists s, ss !! i = Some s /\ readChunk (ev_frame ev) = Some (part i s).

(** The group holds the slices whose positions were seen, and no others. *)
Record tracks (e : MeshChunkBuffer) (seen : gset nat) : Prop := {
  tr_ok : entry_ok e;
  tr_total : mb_total e = Z.of_nat (length ss);
  tr_age : t0 <= mb_createdAt e;
  tr_slots : forall i s, ss !! i = Some s -> mb_chunks e !! i = Some (if decide (i ∈ seen) then s else []) }.

Definition following (b : Buffers) (seen : gset nat) : Prop :=
  buffers_ok b /\ match b !! id with Some e => tracks e seen | None => seen = ∅ end.

Lemma slice_filled i s : ss !! i = Some s -> s <> [].
Proof. intros Hi. exact (Forall_lookup_1 _ ss i s ss_nonempty Hi). Qed.

Lemma part_ok i s : id <> [] -> ss !! i = Some s -> chunk_ok (part i s).
Proof.
  intros Hid Hi. split; cbn; [done| |].
  - apply lookup_lt_Some in Hi. lia.
  - by eapply slice_filled.
Qed.

Lemma tracks_length e seen : tracks e seen -> length (mb_chunks e) = length ss.
Proof. intros H. pose proof (eo_slots e (tr_ok _ _ H)). rewrite (tr_total _ _ H) in *. lia. Qed.

Lemma stored_slots e seen i s j s' :
  tracks e seen -> ss !! i = Some s -> ss !! j = Some s' ->
  mb_chunks (stored e (part i s)) !! j = Some (if decide (j ∈ {[i]} ∪ seen) then s' else []).
Proof.
  intros Ht Hi Hj. cbn. rewrite Nat2Z.id. destruct (decide (j = i)) as [->|Hne].
  - rewrite list_lookup_insert_eq by (rewrite (tracks_length e seen Ht); by eapply lookup_lt_Some).
    rewrite decide_True by set_solver. congruence.
  - rewrite list_lookup_insert_ne by done. rewrite (tr_slots _ _ Ht j s' Hj).
    destruct (decide (j ∈ seen)); [rewrite decide_True|rewrite decide_False]; (done || set_solver).
Qed.

(** The budget of the whole frame covers every part of it. *)
Lemma stored_budget e seen i s :
  tracks e seen -> ss !! i = Some s -> i ∉ seen ->
  mb_bytesReceived (stored e (part i s)) <= MESH_MAX_REASSEMBLED_BYTES.
Proof.
  intros Ht Hi Hn. pose proof (tr_slots _ _ Ht i s Hi) as Hs. rewrite decide_False in Hs by done.
  assert (E : mb_bytesReceived (stored e (part i s)) = slot_bytes (mb_chunks (stored e (part i s)))).
  { cbn. rewrite Nat2Z.id, (weight_insert _ _ _ [] _ Hs), (eo_bytes e (tr_ok _ _ Ht)). cbn. lia. }
  rewrite E. etrans; [|exact ss_budget]. apply weight_mono.
  - cbn. rewrite length_insert. by eapply tracks_length.
  - intros j x y Hx Hy. rewrite (stored_slots e seen i s j y Ht Hi Hy) in Hx. injection Hx as <-.
    destruct (decide _); [done|]. apply utf8_nonneg.
Qed.

Lemma stored_received e seen i s :
  tracks e seen -> ss !! i = Some s -> i ∉ seen ->
  mb_received e + 1 = filled (mb_chunks (stored e (part i s))).
Proof.
  intros Ht Hi Hn. pose proof (tr_slots _ _ Ht i s Hi) as Hs. rewrite decide_False in Hs by done.
  cbn. rewrite Nat2Z.id, (weight_insert _ _ _ [] _ Hs), (eo_received e (tr_ok _ _ Ht)).
  assert (s <> []) by (by eapply slice_filled). destruct s; [done|]. cbn. lia.
Qed.

(** A chunk that is not the last missing one is stored or repeated. *)
Lemma stores_tracks b e seen i s k res :
  buffers_ok b -> b !! id = Some e -> tracks e seen -> id <> [] -> ss !! i = Some s ->
  is_Some (ss !! k) -> k ∉ {[i]} ∪ seen ->
  stores b (part i s) e res -> following res.1 ({[i]} ∪ seen) /\ exists n t, res.2 = Acc_partial n t.
Proof.
  intros Hb Hl Ht Hid Hi [sk Hk] Hns Hst. pose proof (part_ok i s Hid Hi) as Hc.
  pose proof (stores_ok b (part i s) e res Hb Hc (tr_ok _ _ Ht) Hst) as Hok.
  assert (Hslot : mb_chunks e !! Z.to_nat (ck_index (part i s)) = Some (if decide (i ∈ seen) then s else [])).
  { cbn. rewrite Nat2Z.id. by apply tr_slots. }
  pose proof (slice_filled i s Hi) as Hs.
  destruct (decide (i ∈ seen)) as [Hin|Hin].
  - replace ({[i]} ∪ seen) with seen by set_solver.
    destruct Hst; rewrite Hslot in *; simplify_eq; [|done..].
    split; [|eauto]. split; [done|]. by cbn; rewrite Hl.
  - pose proof (stored_budget e seen i s Ht Hi Hin) as Hbud.
    pose proof (stored_received e seen i s Ht Hi Hin) as Hrec.
    assert (Hlt : mb_received e + 1 < mb_total e).
    { rewrite Hrec. pose proof (stored_slots e seen i s k sk Ht Hi Hk) as Hh.
      rewrite decide_False in Hh by done. apply filled_hole in Hh.
      cbn in Hh |- *. rewrite length_insert in Hh. pose proof (eo_slots e (tr_ok _ _ Ht)). lia. }
    destruct Hst; rewrite Hslot in *; simplify_eq; try lia; try done.
    split; [|eauto]. split; [done|]. cbn [fst]. change (ck_id (part i s)) with id.
    rewrite lookup_insert_eq. split; cbn [mb_total mb_createdAt stored]; [|by apply Ht..|].
    + apply (stored_ok e (part i s) Hc (tr_ok _ _ Ht)); [|done|done]. by rewrite Hslot.
    + intros j s' Hj. by eapply stored_slots.
Qed.

(** The last missing chunk completes the frame. *)
Lemma stores_last b e seen i s res :
  tracks e seen -> id <> [] -> ss !! i = Some s -> i ∉ seen ->
  (forall j, is_Some (ss !! j) -> j <> i -> j ∈ seen) ->
  stores b (part i s) e res ->
  res = (delete id b, match JSON_parse (concat ss) with
                      | Some f => Acc_complete f | None => Acc_failed reassembled_parse_failed id end).
Proof.
  intros Ht Hid Hi Hn Hall Hst.
  assert (Hslot : mb_chunks e !! Z.to_nat (ck_index (part i s)) = Some []).
  { cbn. rewrite Nat2Z.id, (tr_slots _ _ Ht i s Hi), decide_False by done. done. }
  pose proof (slice_filled i s Hi) as Hs.
  pose proof (stored_budget e seen i s Ht Hi Hn) as Hbud.
  assert (Heq : mb_chunks (stored e (part i s)) = ss).
  { apply list_eq. intros j. destruct (ss !! j) as [s'|] eqn:Hj.
    - rewrite (stored_slots e seen i s j s' Ht Hi Hj), decide_True; [done|].
      destruct (decide (j = i)) as [->|]; [set_solver|]. pose proof (Hall j ltac:(eauto) ltac:(done)). set_solver.
    - apply lookup_ge_None. cbn. rewrite length_insert, (tracks_length e seen Ht).
      by apply lookup_ge_None. }
  assert (Hfull : mb_received e + 1 = mb_total e).
  { rewrite (stored_received e seen i s Ht Hi Hn), Heq, (tr_total _ _ Ht). by apply filled_full. }
  destruct Hst; rewrite ?Hslot in *; simplify_eq; try lia; try done.
  by rewrite Heq.
Qed.

Lemma sweep_following now b seen :
  following b seen -> now <= t0 + MESH_CHUNK_TTL_MS -> following (sweep now b) seen.
Proof.
  intros [Hb H] Hn. split; [by apply sweep_ok|]. rewrite sweep_lookup.
  destruct (b !! id) as [e|]; [|done]. rewrite decide_False; [done|]. pose proof (tr_age _ _ H). lia.
Qed.

Lemma group_tracks b seen i s opened :
  following b seen -> t0 <= opened -> ss !! i = Some s -> tracks (group_entry b (part i s) opened) seen.
Proof.
  intros [Hb H] Ho Hi. unfold group_entry. change (ck_id (part i s)) with id.
  destruct (b !! id) as [e|]; [done|]. subst seen. cbn. apply lookup_lt_Some in Hi.
  split; cbn; [apply new_buffer_ok; lia|done|done|].
  intros j sj Hj. rewrite decide_False by set_solver. rewrite Nat2Z.id.
  apply lookup_replicate_2. by eapply lookup_lt_Some.
Qed.

(** An own chunk reaches its group's slot. *)
Lemma accept_own b seen ev i s :
  following b seen -> in_window ev -> ss !! i = Some s -> readChunk (ev_frame ev) = Some (part i s) ->
  exists b0 e, buffers_ok b0 /\ b0 !! id = Some e /\ tracks e seen /\ delete id b0 = delete id (sweep (ev_now ev) b) /\
    stores b0 (part i s) e (accept_event b ev).
Proof.
  intros Hf [Ho Hw] Hi Hr. pose proof (sweep_following _ _ _ Hf Hw) as Hf'.
  pose proof (group_tracks _ _ _ _ (ev_opened ev) Hf' Ho Hi) as Hg.
  pose proof (accept_cases (ev_now ev) (ev_opened ev) b (ev_frame ev) (proj1 Hf)) as H.
  rewrite Hr in H. destruct H as (Hc & [[_ Ht]|[[_ Ht]|(_ & He & _ & b0 & Hb0 & Hst)]]).
  - cbn in Ht. lia.
  - by rewrite (tr_total _ _ Hg) in Ht.
  - eexists b0, _. destruct Hb0 as [[-> Hl]| ->].
    + split_and!; [apply Hf'|done..].
    + split_and!; [|by rewrite lookup_insert_eq|done|apply delete_insert_eq|done].
      apply map_Forall_insert_2; [done|apply Hf'].
Qed.

Lemma follow_step b seen ev k :
  following b seen -> in_window ev -> own_or_other ev -> id <> [] -> is_Some (ss !! k) ->
  k ∉ seen -> ~ brings ev k ->
  exists seen', following (accept_event b ev).1 seen' /\ (forall j, j ∈ seen' <-> j ∈ seen \/ brings ev j) /\
    (forall j, brings ev j -> exists n t, (accept_event b ev).2 = Acc_partial n t).
Proof.
  intros Hf Hw Hown Hid Hk Hns Hnb.
  destruct (decide (Exists (fun c => ck_id c = id) (option_list (readChunk (ev_frame ev))))) as [Hex|Hex].
  - destruct (readChunk (ev_frame ev)) as [c|] eqn:Er; [|by inversion Hex].
    apply Exists_cons in Hex as [Hcid|Hex]; [|by inversion Hex].
    destruct (Hown c Er Hcid) as (i & s & Hi & ->).
    assert (Hbr : forall j, brings ev j <-> j = i).
    { intros j. split; [|intros ->; by exists s]. intros (s' & _ & E). rewrite Er in E.
      injection E as E1 _. lia. }
    destruct (accept_own b seen ev i s Hf Hw Hi Er) as (b0 & e & Hb0 & Hl & Ht & _ & Hst).
    assert (k <> i) by (intros ->; apply Hnb, Hbr; done).
    destruct (stores_tracks b0 e seen i s k _ Hb0 Hl Ht Hid Hi Hk ltac:(set_solver) Hst) as [Hf' Hp].
    exists ({[i]} ∪ seen). split_and!; [done| |done]. intros j. rewrite Hbr. set_solver.
  - assert (Hne : forall c, readChunk (ev_frame ev) = Some c -> id <> ck_id c).
    { intros c Er E. apply Hex. rewrite Er. by left. }
    assert (Hnb' : forall j, ~ brings ev j).
    { intros j (s & _ & Er). by apply (Hne _ Er). }
    exists seen. split_and!; [|naive_solver|naive_solver].
    destruct Hw as [_ Hw]. destruct (sweep_following _ _ _ Hf Hw) as [_ Hs].
    split; [apply accept_ok, Hf|]. unfold RpcChunking.accept_event. rewrite accept_other; [done|apply Hf|done].
Qed.

Lemma follow_all b seen es k :
  following b seen -> Forall in_window es -> Forall own_or_other es -> id <> [] -> is_Some (ss !! k) ->
  k ∉ seen -> Forall (fun ev => ~ brings ev k) es ->
  exists seen', following (accept_all b es) seen' /\
    (forall j, j ∈ seen' <-> j ∈ seen \/ Exists (fun ev => brings ev j) es).
Proof.
  intros Hf Hw Hown Hid Hk Hns. revert b seen Hf Hw Hown Hns.
  induction es as [|ev es IH]; intros b seen Hf Hw Hown Hns Hnb.
  { exists seen. split; [done|]. intros j. rewrite Exists_nil. tauto. }
  apply Forall_cons in Hw as [Hw1 Hw], Hown as [Ho1 Hown], Hnb as [Hn1 Hnb].
  destruct (follow_step b seen ev k Hf Hw1 Ho1 Hid Hk Hns Hn1) as (seen1 & Hf1 & Hs1 & _).
  destruct (IH _ seen1 Hf1 Hw Hown) as (seen' & Hf' & Hs'); [rewrite Hs1; tauto|done|].
  exists seen'. split; [done|]. intros j. rewrite Hs', Hs1, Exists_cons. tauto.
Qed.
End Frame.

(** A delivery of the chunks of a frame: [es] brings every chunk but the
    [k]-th, in any order and any number of times, between whatever other
    traffic; [last] then brings the [k]-th.  No foreign chunk uses the
    frame's id, and the clock stays within one TTL. *)
Record delivery (id : ustring) (chunks : list MeshChunkEnvelope) (k : nat) (es : list Event) (last : Event)
    (t0 : Z) : Prop := {
  dl_window : Forall (in_window t0) (es ++ [last]);
  dl_own : forall ev c, ev ∈ es -> readChunk (ev_frame ev) = Some c -> ck_id c = id ->
    exists e, e ∈ chunks /\ readChunk (envelope_value e) = Some c;
  dl_last : exists e, chunks !! k = Some e /\ ev_frame last = envelope_value e /\
    Forall (fun ev => readChunk (ev_frame ev) <> readChunk (envelope_value e)) es;
  dl_others : forall i e, chunks !! i = Some e -> i <> k -> exists ev, ev ∈ es /\ ev_frame ev = envelope_value e }.

(** The facts the lemmas on one frame need, from a split. *)
Lemma split_slices_of json id v chunks :
  splitMeshFrame json id v = Some (Split_ok chunks) ->
  meshUtf8ByteLength json + 2048 <= MESH_MAX_REASSEMBLED_BYTES ->
  exists ss, chunks = stamp id v ss /\ concat ss = json /\ Forall (fun s => s <> []) ss /\
    Z.of_nat (length ss) <= MESH_MAX_CHUNKS /\ slot_bytes ss <= MESH_MAX_REASSEMBLED_BYTES.
Proof.
  intros Hs Hb. destruct (splitMeshFrame_cases json id v) as [(r & E & _)|(ss & E & Hc & Hf & Hn)]; [congruence|].
  exists ss. rewrite E in Hs. injection Hs as <-. split_and!; [done|done| |lia|].
  - apply Forall_lookup. intros i s Hi. by apply (Hf i s).
  - pose proof (utf8_concat_bounds ss) as H. rewrite Hc in H. unfold weight, MESH_MAX_CHUNKS in *. lia.
Qed.

Lemma read_stamped id v ss i s :
  id <> [] -> Forall (fun s => s <> []) ss -> ss !! i = Some s ->
  readChunk (envelope_value (buildChunkEnvelope v id (Z.of_nat i) (Z.of_nat (length ss)) s)) = Some (part id ss i s).
Proof.
  intros Hid Hne Hi. apply readChunk_envelope; [done|exact (Forall_lookup_1 _ ss i s Hne Hi)|].
  apply lookup_lt_Some in Hi. lia.
Qed.

(** A delivery, in terms of slices. *)
Lemma delivery_slices id v ss k es last t0 :
  id <> [] -> Forall (fun s => s <> []) ss -> delivery id (stamp id v ss) k es last t0 ->
  Forall (own_or_other id ss) es /\
  (exists s, ss !! k = Some s /\ readChunk (ev_frame last) = Some (part id ss k s)) /\
  Forall (fun ev => ~ brings id ss ev k) es /\
  (forall j, is_Some (ss !! j) -> j <> k -> Exists (fun ev => brings id ss ev j) es).
Proof.
  intros Hid Hne [Hw Hown (ek & Hk & Hlast & Hno) Hoth].
  apply stamp_lookup in Hk as (sk & Hk & ->).
  pose proof (read_stamped id v ss k sk Hid Hne Hk) as Hrk. split_and!.
  - apply Forall_forall. intros ev Hev c Hr Hc.
    destruct (Hown ev c Hev Hr Hc) as (e & [i He]%list_elem_of_lookup & Hre).
    apply stamp_lookup in He as (s & Hi & ->). rewrite (read_stamped id v ss i s Hid Hne Hi) in Hre.
    exists i, s. split; [done|congruence].
  - exists sk. split; [done|]. by rewrite Hlast.
  - eapply Forall_impl; [exact Hno|]. intros ev Hev (s & Hs & Hr). apply Hev. rewrite Hr, Hrk.
    rewrite Hk in Hs. by injection Hs as <-.
  - intros j [s Hj] Hjk. destruct (Hoth j _ (proj2 (stamp_lookup id v ss j _) (ex_intro _ s (conj Hj eq_refl))) Hjk)
      as (ev & Hev & Hfr).
    apply Exists_exists. exists ev. split; [done|]. exists s. split; [done|]. rewrite Hfr. by apply read_stamped.
Qed.


(** ** How many groups may be open *)

Definition opener (i : nat) : Event :=
  {| ev_now := 0; ev_opened := 0;
     ev_frame := envelope_value (buildChunkEnvelope 1 (replicate (S i) 97) 0 2 [97]) |}.

Lemma opener_inserts b i :
  map_Forall (fun _ e => mb_createdAt e = 0) b -> b !! replicate (S i) 97 = None ->
  exists e, mb_createdAt e = 0 /\ (accept_event b (opener i)).1 = <[replicate (S i) 97 := e]> b.
Proof.
  intros Hage Hnone.
  assert (Hsw : sweep 0 b = b).
  { apply map_eq. intros id. rewrite sweep_lookup. destruct (b !! id) as [e|] eqn:E; [|done].
    rewrite decide_False; [done|]. rewrite (Hage id e E). done. }
  unfold RpcChunking.accept_event, RpcChunking.accept, opener. cbn [ev_now ev_opened ev_frame].
  rewrite Hsw, readChunk_envelope by done. cbn [ck_total ck_id].
  replace (MESH_MAX_CHUNKS <? 2) with false by done. cbv zeta match. rewrite Hnone.
  eexists. split; [|unfold RpcChunking.store_chunk; cbn; rewrite insert_insert_eq; reflexivity]. done.
Qed.

(** The limits are per frame: a peer can have any number of groups open
    at the same instant. *)
Theorem open_groups_unbounded (n : nat) :
  exists es, Forall (fun ev => ev_now ev = 0 /\ ev_opened ev = 0) es /\ length es = n /\
    pendingCount (accept_all ∅ es) = n.
Proof.
  exists (map opener (List.seq 0 n)). split_and!.
  - apply Forall_map, Forall_true. done.
  - by rewrite length_map, List.length_seq.
  - enough (H : let b := accept_all ∅ (map opener (List.seq 0 n)) in
              map_Forall (fun _ e => mb_createdAt e = 0) b /\ size b = n /\
              forall i, (n <= i)%nat -> b !! replicate (S i) 97 = None) by apply H.
    induction n as [|n IH]; cbv zeta in *.
    + split_and!; [apply map_Forall_empty|apply map_size_empty|done].
    + rewrite List.seq_S, map_app. cbn [map Nat.add]. rewrite accept_all_snoc. destruct IH as (Ha & Hs & Hn).
      destruct (opener_inserts _ n Ha (Hn n ltac:(lia))) as (e & He & ->). split_and!.
      * by apply map_Forall_insert_2.
      * rewrite map_size_insert_None by (apply Hn; lia). by rewrite Hs.
      * intros i Hi. rewrite lookup_insert_ne; [apply Hn; lia|].
        intros E. apply (f_equal length) in E. rewrite !length_replicate in E. lia.
Qed.
End Assembler.

(** ** Witnesses *)

Module Sample.
Definition text : ustring := replicate (Z.to_nat 20000) 97.
Definition id : ustring := u "n1:chunk:7".
Definition chunks : list MeshChunkEnvelope := stamp id 1 (plain_cut text).
Definition chunk (i : nat) : MeshChunkEnvelope := nth i chunks (buildChunkEnvelope 0 [] 0 0 []).
Definition at_time (t : Z) (v : WValue) : Event := {| ev_now := t; ev_opened := t; ev_frame := v |}.
Definition other : WValue := envelope_value (buildChunkEnvelope 1 (u "n2:chunk:1") 0 2 (u "x")).
Definition no_number_s (s : ustring) : WNumber := W_other.
Definition no_number_o (fs : list (string * WValue)) : WNumber := W_other.
Definition before : list Event :=
  [at_time 10 (envelope_value (chunk 1)); at_time 20 other; at_time 30 (envelope_value (chunk 1))].
Definition last_one : Event := at_time 40 (envelope_value (chunk 0)).

Lemma chunks_eq : chunks = [chunk 0; chunk 1].
Proof. by vm_compute. Qed.

Lemma chunk1_in : chunk 1 ∈ chunks.
Proof. rewrite chunks_eq. apply list_elem_of_further, list_elem_of_here. Qed.

Lemma delivered_out_of_order : delivery no_number_s no_number_o id chunks 0 before last_one 0.
Proof.
  split.
  - repeat (apply Forall_cons; split); try apply Forall_nil_2; split; cbn; unfold MESH_CHUNK_TTL_MS; lia.
  - intros ev c Hev Hr Hc. unfold before in Hev. rewrite !elem_of_cons in Hev.
    destruct Hev as [->|[->|[->|Hev]]]; [| |  |by apply elem_of_nil in Hev].
    + exists (chunk 1). split; [exact chunk1_in|exact Hr].
    + exfalso. vm_compute in Hr. injection Hr as <-. by vm_compute in Hc.
    + exists (chunk 1). split; [exact chunk1_in|exact Hr].
  - exists (chunk 0). split_and!; [rewrite chunks_eq; reflexivity|reflexivity|].
    repeat (apply Forall_cons; split); try apply Forall_nil_2; intros E; apply (f_equal (fmap (fun c => (ck_id c, ck_index c)))) in E; vm_compute in E; discriminate.
  - intros i e Hi Hne. rewrite chunks_eq in Hi. destruct i as [|[|i]].
    { by destruct Hne. }
    2: { change (@nil MeshChunkEnvelope !! i = Some e) in Hi. by rewrite lookup_nil in Hi. }
    change (Some (chunk 1) = Some e) in Hi. apply (inj Some) in Hi. rewrite <- Hi. exists (at_time 10 (envelope_value (chunk 1))). split; [|reflexivity].
    apply list_elem_of_here.
Qed.
End Sample.


Lemma complete_only_whole_witness :
  let ev i d := Sample.at_time 5 (envelope_value (buildChunkEnvelope 1 (u "g") i 2 (u d))) in
  exists id total parts, Some (concat parts) = Some (u "[1,2]") /\ Z.of_nat (length parts) = total /\
    forall i d, parts !! i = Some d -> d <> [] /\
      delivered Sample.no_number_s Sample.no_number_o ([ev 1 ",2]"] ++ [ev 0 "[1"])
        {| ck_id := id; ck_index := Z.of_nat i; ck_total := total; ck_data := d |}.
Proof.
  intros ev.
  apply (complete_only_whole Sample.no_number_s Sample.no_number_o Some [ev 1 ",2]"] (ev 0 "[1") (u "[1,2]")).
  by vm_compute.
Defined.

Lemma buffers_bounded_witness :
  map_Forall (fun _ e => entry_ok e /\ 10 - mb_createdAt e <= MESH_CHUNK_TTL_MS)
    (accept_all Sample.no_number_s Sample.no_number_o Some ∅ ([] ++ [Sample.at_time 10 Sample.other])).
Proof.
  apply (buffers_bounded Sample.no_number_s Sample.no_number_o Some [] (Sample.at_time 10 Sample.other)). done.
Defined.
