(* ===== verification/KeyedDoc.v ===== *)
(** * Keyed document deltas

    Models [packages/mesh-shared/src/keyed-doc-delta.ts]: the digest of a
    document, the difference of two digests, the fold of a difference into a
    held document, and the two specifications the dashboard lanes use.

    An object is an association list in insertion order, without duplicate
    keys.  The text [JSON.stringify] produces is represented by the value it
    denotes ([sig]): undefined members are dropped, undefined elements and
    non-finite numbers become null.  Values are acyclic, so [stringify] does
    not throw.  Keys are not array indices and not names of Object.prototype
    members, so that enumeration follows insertion and [in] tests own keys. *)

From S2P Require Import Prelude.

(** ** Values *)

Inductive DVal : Type :=
  | D_undefined | D_null | D_bool (b : bool) | D_num (z : Z) | D_nonfinite
  | D_str (s : string) | D_arr (l : list DVal) | D_obj (fs : list (string * DVal)).

#[export] Instance DVal_eq_dec : EqDecision DVal.
Proof.
  refine (fix go (x y : DVal) {struct x} : Decision (x = y) :=
    let _ : EqDecision DVal := @go in
    match x, y with
    | D_undefined, D_undefined => left eq_refl
    | D_null, D_null => left eq_refl
    | D_nonfinite, D_nonfinite => left eq_refl
    | D_bool a, D_bool b => cast_if (decide (a = b))
    | D_num a, D_num b => cast_if (decide (a = b))
    | D_str a, D_str b => cast_if (decide (a = b))
    | D_arr a, D_arr b => cast_if (decide (a = b))
    | D_obj a, D_obj b => cast_if (decide (a = b))
    | _, _ => right _
    end); abstract congruence.
Defined.

(** The fields of an object. *)
Notation Row := (jsmap DVal).

Fixpoint sig (v : DVal) : option DVal :=
  match v with
  | D_undefined => None
  | D_nonfinite => Some D_null
  | D_arr l => Some (D_arr (map (fun x => match sig x with Some y => y | None => D_null end) l))
  | D_obj fs => Some (D_obj (flat_map (fun e => match sig e.2 with Some y => [(e.1, y)] | None => [] end) fs))
  | _ => Some v
  end.

(** The signatures of the fields of an object, absent where undefined. *)
Definition field_sigs (fs : Row) : Row :=
  flat_map (fun e => match sig e.2 with Some y => [(e.1, y)] | None => [] end) fs.

(** [fs[key]]. *)
Definition field (fs : Row) (key : string) : DVal := nullish (map_get key fs) D_undefined.

(** [key in fs]. *)
Definition has_key {A} (key : string) (fs : jsmap A) : bool := present (map_get key fs).

(** [Object.assign(target, source)], also [{ ...target, ...source }]. *)
Definition assign {A} (target source : jsmap A) : jsmap A :=
  fold_left (fun m e => map_set e.1 e.2 m) source target.

(** [for (const key of keys) delete fs[key]]. *)
Definition delete_keys {A} (keys : list string) (fs : jsmap A) : jsmap A :=
  fold_left (fun m k => map_delete k m) keys fs.

(** ** Paths *)

Definition dot : Ascii.ascii := Ascii.ascii_of_nat 46.

(** [splitPath]: before and after the first dot; an empty tail counts as
    none. *)
Fixpoint split_at_dot (path : string) : string * option string :=
  match path with
  | EmptyString => (EmptyString, None)
  | String c t =>
      if decide (c = dot) then (EmptyString, Some t)
      else let '(h, tl) := split_at_dot t in (String c h, tl)
  end.

Definition splitPath (path : string) : string * option string :=
  let '(head, tail) := split_at_dot path in
  (head, match tail with Some EmptyString => None | _ => tail end).

(** [`${o}.${f}`]. *)
Fixpoint joined (o f : string) : string :=
  match o with EmptyString => String dot f | String c t => String c (joined t f) end.

(** [path.startsWith(p) ? path.slice(p.length) : none]. *)
Fixpoint after_prefix (p path : string) : option string :=
  match p, path with
  | EmptyString, _ => Some path
  | String c p', String d t => if decide (c = d) then after_prefix p' t else None
  | _, _ => None
  end.

Definition readPath (doc : Row) (path : string) : DVal :=
  match splitPath path with
  | (head, None) => field doc head
  | (head, Some tail) => match field doc head with D_obj fs => field fs tail | _ => D_undefined end
  end.

(** ** Specifications *)

Record KeyedDocSpec : Type := {
  ks_collections : list (string * string);
  ks_splitObjects : list string;
  ks_ignore : list string;
  ks_volatileTopLevel : list string;
  ks_stableRow : string -> Row -> Row }.

(** Remove a collection from the document. *)
Definition strip_one (out : Row) (path : string) : Row :=
  match splitPath path with
  | (head, None) => map_delete head out
  | (head, Some tail) =>
      match field out head with
      | D_obj parent => if has_key tail parent then map_set head (D_obj (map_delete tail parent)) out else out
      | _ => out
      end
  end.

Definition stripCollections (doc : Row) (spec : KeyedDocSpec) : Row :=
  fold_left strip_one (map fst (ks_collections spec)) doc.

(** ** Digests *)

Record RowDigest : Type := { rd_value : Row; rd_stable : Row; rd_sig : DVal }.

Record CollectionDigest : Type := { cd_rows : jsmap RowDigest; cd_order : list string }.

Record KeyedDocDigest : Type := {
  dg_top : jsmap DVal; dg_topValues : Row; dg_collections : jsmap CollectionDigest; dg_volatile : list string }.

(** The cached field signatures of a row. *)
Definition fieldSigsOf (d : RowDigest) : Row := field_sigs (rd_stable d).

Definition add_top (spec : KeyedDocSpec) (acc : jsmap DVal * Row) (e : string * DVal) : jsmap DVal * Row :=
  if bool_decide (e.1 ∈ ks_ignore spec) then acc
  else match sig e.2 with
       | None => acc
       | Some s => (map_set e.1 s acc.1, map_set e.1 e.2 acc.2)
       end.

(** The paths a stripped document is digested at, with their values. *)
Definition top_entries (spec : KeyedDocSpec) (doc : Row) : Row :=
  flat_map (fun e =>
    match e.2 with
    | D_obj fs => if bool_decide (e.1 ∈ ks_splitObjects spec)
                  then map (fun f => (joined e.1 f.1, f.2)) fs else [e]
    | _ => [e]
    end) doc.

Definition digest_top (spec : KeyedDocSpec) (doc : Row) : jsmap DVal * Row :=
  fold_left (add_top spec) (top_entries spec doc) ([], []).

Definition digest_row (spec : KeyedDocSpec) (path idField : string) (acc : CollectionDigest) (row : DVal)
  : CollectionDigest :=
  match row with
  | D_obj fs =>
      match field fs idField with
      | D_str id =>
          if bool_decide (id = EmptyString) || has_key id (cd_rows acc) then acc
          else
            let stable := ks_stableRow spec path fs in
            {| cd_rows := map_set id {| rd_value := fs; rd_stable := stable;
                                        rd_sig := nullish (sig (D_obj stable)) (D_str EmptyString) |} (cd_rows acc);
               cd_order := cd_order acc ++ [id] |}
      | _ => acc
      end
  | _ => acc
  end.

Definition digest_list (spec : KeyedDocSpec) (path idField : string) (l : list DVal) : CollectionDigest :=
  fold_left (digest_row spec path idField) l {| cd_rows := []; cd_order := [] |}.

Definition digest_collections (spec : KeyedDocSpec) (doc : Row) : jsmap CollectionDigest :=
  fold_left (fun m e =>
    match readPath doc e.1 with
    | D_arr l => map_set e.1 (digest_list spec e.1 e.2 l) m
    | _ => m
    end) (ks_collections spec) [].

Definition digestKeyedDoc (doc : Row) (spec : KeyedDocSpec) : KeyedDocDigest :=
  let '(top, topValues) := digest_top spec (stripCollections doc spec) in
  {| dg_top := top; dg_topValues := topValues; dg_collections := digest_collections spec doc;
     dg_volatile := ks_volatileTopLevel spec |}.

(** ** Differences *)

Record KeyedCollectionDelta : Type := {
  kd_upsert : option (list Row); kd_unsetFields : option (jsmap (list string));
  kd_removed : option (list string); kd_order : option (list string); kd_absent : bool }.

Definition no_change : KeyedCollectionDelta :=
  {| kd_upsert := None; kd_unsetFields := None; kd_removed := None; kd_order := None; kd_absent := false |}.

(** [(x ??= []).push(v)]. *)
Definition push_to {A} (o : option (list A)) (v : A) : option (list A) := Some (nullish o [] ++ [v]).

(** The fields of [nextRow] whose signature changed. *)
Definition changed_fields (idField : string) (prevRow nextRow : RowDigest) : list string :=
  map fst (List.filter (fun e => negb (bool_decide (e.1 = idField)) &&
    negb (bool_decide (map_get e.1 (fieldSigsOf prevRow) = Some e.2))) (fieldSigsOf nextRow)).

Definition change_of (idField id : string) (prevRow nextRow : RowDigest) : Row :=
  fold_left (fun c key => map_set key (field (rd_value nextRow) key) c)
    (changed_fields idField prevRow nextRow) [(idField, D_str id)].

(** A real change carries the fields dropped by [stableRow] along. *)
Definition with_volatile (prevRow nextRow : RowDigest) (change : Row) : Row :=
  fold_left (fun c e =>
    if has_key e.1 (rd_stable nextRow) || has_key e.1 c then c
    else if bool_decide (sig (field (rd_value prevRow) e.1) = sig e.2) then c
    else map_set e.1 e.2 c) (rd_value nextRow) change.

Definition gone_fields (prevRow nextRow : RowDigest) : list string :=
  List.filter (fun key => negb (has_key key (fieldSigsOf nextRow)) && negb (has_key key (rd_value nextRow)))
    (map fst (fieldSigsOf prevRow)).

Definition diff_row (idField : string) (prevRows : jsmap RowDigest) (delta : KeyedCollectionDelta)
    (e : string * RowDigest) : KeyedCollectionDelta :=
  let '(id, nextRow) := e in
  match map_get id prevRows with
  | None => {| delta with kd_upsert := push_to (kd_upsert delta) (rd_value nextRow) |}
  | Some prevRow =>
      if bool_decide (rd_sig prevRow = rd_sig nextRow) then delta
      else
        let changed := negb (bool_decide (changed_fields idField prevRow nextRow = [])) in
        let gone := gone_fields prevRow nextRow in
        let delta := if changed
          then {| delta with kd_upsert := push_to (kd_upsert delta)
                    (with_volatile prevRow nextRow (change_of idField id prevRow nextRow)) |}
          else delta in
        if bool_decide (gone = []) then delta
        else {| delta with kd_unsetFields := Some (map_set id gone (nullish (kd_unsetFields delta) [])) |}
  end.

Definition changes_nothing (d : KeyedCollectionDelta) : bool :=
  negb (present (kd_upsert d)) && negb (present (kd_unsetFields d)) && negb (present (kd_removed d))
  && negb (present (kd_order d)) && negb (kd_absent d).

Definition diffCollection (prev next : option CollectionDigest) (idField : string) : option KeyedCollectionDelta :=
  match next with
  | None => if present prev then Some {| no_change with kd_absent := true |} else None
  | Some next =>
      let prevRows := match prev with Some p => cd_rows p | None => [] end in
      let prevOrder := match prev with Some p => cd_order p | None => [] end in
      let delta := fold_left (diff_row idField prevRows) (cd_rows next) no_change in
      let delta := fold_left (fun d id => if has_key id (cd_rows next) then d
                     else {| d with kd_removed := push_to (kd_removed d) id |}) (map fst prevRows) delta in
      let delta := if bool_decide (prevOrder = cd_order next) then delta
                   else {| delta with kd_order := Some (cd_order next) |} in
      if changes_nothing delta then None else Some delta
  end.

Record ObjectChange : Type := { oc_set : option Row; oc_unset : option (list string) }.

Record KeyedDocDelta : Type := {
  kk_set : option Row; kk_unset : option (list string);
  kk_objects : option (jsmap ObjectChange); kk_collections : option (jsmap KeyedCollectionDelta) }.

Fixpoint objectOf (split : list string) (path : string) : option (string * string) :=
  match split with
  | [] => None
  | o :: t => match after_prefix (joined o EmptyString) path with
              | Some f => Some (o, f)
              | None => objectOf t path
              end
  end.

(** The variables of [diffKeyedDoc]'s loops. *)
Record DiffState : Type := {
  ds_set : option Row; ds_unset : option (list string); ds_objects : jsmap ObjectChange; ds_meaningful : bool }.

Definition object_of (objects : jsmap ObjectChange) (o : string) : ObjectChange :=
  nullish (map_get o objects) {| oc_set := None; oc_unset := None |}.

Definition diff_set (spec : KeyedDocSpec) (prev next : KeyedDocDigest) (st : DiffState) (e : string * DVal) : DiffState :=
  let '(path, s) := e in
  if bool_decide (map_get path (dg_top prev) = Some s) then st
  else
    let v := field (dg_topValues next) path in
    let st := match objectOf (ks_splitObjects spec) path with
              | Some (o, f) =>
                  let c := object_of (ds_objects st) o in
                  {| st with ds_objects := map_set o {| c with oc_set := Some (map_set f v (nullish (oc_set c) [])) |} (ds_objects st) |}
              | None => {| st with ds_set := Some (map_set path v (nullish (ds_set st) [])) |}
              end in
    {| st with ds_meaningful := ds_meaningful st || negb (bool_decide (path ∈ dg_volatile next)) |}.

Definition diff_unset (spec : KeyedDocSpec) (next : KeyedDocDigest) (st : DiffState) (path : string) : DiffState :=
  if has_key path (dg_top next) then st
  else
    let st := match objectOf (ks_splitObjects spec) path with
              | Some (o, f) =>
                  let c := object_of (ds_objects st) o in
                  {| st with ds_objects := map_set o {| c with oc_unset := push_to (oc_unset c) f |} (ds_objects st) |}
              | None => {| st with ds_unset := push_to (ds_unset st) path |}
              end in
    {| st with ds_meaningful := ds_meaningful st || negb (bool_decide (path ∈ dg_volatile next)) |}.

Definition diff_collections (spec : KeyedDocSpec) (prev next : KeyedDocDigest) : jsmap KeyedCollectionDelta :=
  fold_left (fun m e =>
    match diffCollection (map_get e.1 (dg_collections prev)) (map_get e.1 (dg_collections next)) e.2 with
    | Some change => map_set e.1 change m
    | None => m
    end) (ks_collections spec) [].

Definition diffKeyedDoc (prev next : KeyedDocDigest) (spec : KeyedDocSpec) : option KeyedDocDelta :=
  let st := {| ds_set := None; ds_unset := None; ds_objects := []; ds_meaningful := false |} in
  let st := fold_left (diff_set spec prev next) (dg_top next) st in
  let st := fold_left (diff_unset spec next) (map fst (dg_top prev)) st in
  let cs := diff_collections spec prev next in
  if ds_meaningful st || negb (bool_decide (map fst cs = [])) then
    Some {| kk_set := ds_set st; kk_unset := ds_unset st;
            kk_objects := if bool_decide (map fst (ds_objects st) = []) then None else Some (ds_objects st);
            kk_collections := if bool_decide (map fst cs = []) then None else Some cs |}
  else None.

(** ** Folding *)

Definition row_id (idField : string) (row : DVal) : option (string * Row) :=
  match row with
  | D_obj fs => match field fs idField with D_str id => Some (id, fs) | _ => None end
  | _ => None
  end.

Definition as_list (v : DVal) : list DVal := match v with D_arr l => l | _ => [] end.

Definition upsert_row (idField : string) (byId : jsmap Row) (row : Row) : jsmap Row :=
  match field row idField with
  | D_str id => map_set id (match map_get id byId with Some base => assign base row | None => assign [] row end) byId
  | _ => byId
  end.

Definition unset_row (byId : jsmap Row) (e : string * list string) : jsmap Row :=
  match map_get e.1 byId with
  | Some base => map_set e.1 (delete_keys e.2 base) byId
  | None => byId
  end.

(** Rows in the given order, each once, then the rows it does not name. *)
Fixpoint place (byId : jsmap Row) (order placed : list string) : list Row * list string :=
  match order with
  | [] => ([], placed)
  | id :: t =>
      match map_get id byId with
      | Some row => if bool_decide (id ∈ placed) then place byId t placed
                    else let '(out, p) := place byId t (placed ++ [id]) in (row :: out, p)
      | None => place byId t placed
      end
  end.

Definition foldCollection (held : DVal) (change : KeyedCollectionDelta) (idField : string) : list Row :=
  let rows := omap (row_id idField) (as_list held) in
  let byId := map_of rows in
  let heldOrder := map fst rows in
  let byId := delete_keys (nullish (kd_removed change) []) byId in
  let byId := fold_left (upsert_row idField) (nullish (kd_upsert change) []) byId in
  let byId := fold_left unset_row (nullish (kd_unsetFields change) []) byId in
  let '(out, placed) := place byId (nullish (kd_order change) heldOrder) [] in
  out ++ map snd (List.filter (fun e => negb (bool_decide (e.1 ∈ placed))) byId).

Definition fold_object (next : Row) (e : string * ObjectChange) : Row :=
  let base := match field next e.1 with D_obj fs => fs | _ => [] end in
  map_set e.1 (D_obj (assign (delete_keys (nullish (oc_unset e.2) []) base) (nullish (oc_set e.2) []))) next.

(** Put the collection at [path] back. *)
Definition put_path (next : Row) (path : string) (v : DVal) : Row :=
  match splitPath path with
  | (head, None) => map_set head v next
  | (head, Some tail) =>
      let parent := match field next head with D_obj fs => fs | _ => [] end in
      map_set head (D_obj (map_set tail v parent)) next
  end.

Definition fold_one (held : Row) (delta : KeyedDocDelta) (next : Row) (e : string * string) : Row :=
  let '(path, idField) := e in
  let heldList := readPath held path in
  match map_get path (nullish (kk_collections delta) []) with
  | Some change =>
      if kd_absent change then strip_one next path
      else put_path next path (D_arr (map D_obj (foldCollection heldList change idField)))
  | None => if bool_decide (heldList = D_undefined) then next else put_path next path heldList
  end.

Definition foldKeyedDoc (held : Row) (delta : KeyedDocDelta) (spec : KeyedDocSpec) : Row :=
  let next := stripCollections held spec in
  let next := delete_keys (nullish (kk_unset delta) []) next in
  let next := assign next (nullish (kk_set delta) []) in
  let next := fold_left fold_object (nullish (kk_objects delta) []) next in
  fold_left (fold_one held delta) (ks_collections spec) next.

(** ** The two documents *)

Definition DAEMON_METADATA_DOC_SPEC : KeyedDocSpec := {|
  ks_collections := [("status.sessions", "id")];
  ks_splitObjects := ["status"];
  ks_ignore := ["daemonId"; "status.timestamp"];
  ks_volatileTopLevel := [];
  ks_stableRow := fun _ row => if has_key "lastUpdated" row then map_delete "lastUpdated" row else row |}.

Definition without (value : DVal) (keys : list string) : DVal :=
  match value with D_obj fs => D_obj (delete_keys keys fs) | _ => value end.

Definition drop_empty_submodules (git : DVal) : DVal :=
  match git with
  | D_obj fs => match field fs "submodules" with D_arr [] => D_obj (map_delete "submodules" fs) | _ => git end
  | _ => git
  end.

(** Apply [f] to a field that is present. *)
Definition update_field (key : string) (f : DVal -> DVal) (fs : Row) : Row :=
  match map_get key fs with Some v => map_set key (f v) fs | None => fs end.

Definition stable_observation (v : DVal) : DVal :=
  match v with
  | D_obj fs => if bool_decide (field fs "source" = D_str "self") || bool_decide (field fs "source" = D_str "local")
                then without v ["observedAt"] else v
  | _ => v
  end.

Definition stableMeshNodeRow (row : Row) : Row :=
  let out := delete_keys ["lastSeenAt"; "updatedAt"; "last_seen_at"; "updated_at"] row in
  let out := update_field "dataFreshness" (fun v => without v ["ageMs"; "lastProbeAt"; "staleness"]) out in
  let out := update_field "connection" (fun v => without v ["lastStateChangeAt"]) out in
  let out := update_field "git" (fun v => drop_empty_submodules (without v ["lastCheckedAt"])) out in
  let out := update_field "nodeFacts" (fun v => without v ["reportedAt"]) out in
  update_field "gitObservation" stable_observation out.

Definition MESH_STATUS_DOC_SPEC : KeyedDocSpec := {|
  ks_collections := [("nodes", "nodeId"); ("queue.tasks", "id"); ("missions", "id")];
  ks_splitObjects := [];
  ks_ignore := [];
  ks_volatileTopLevel := ["refreshedAt"; "sourceOfTruth"; "turnPresentationCounters"; "meshProtocolV2Counters";
                          "pendingRetentionCounters"; "meshProtocolMetrics"];
  ks_stableRow := fun collection row => if bool_decide (collection = "nodes") then stableMeshNodeRow row else row |}.
