(* ===== verification/KeyedRows.v ===== *)
(** * Folding row changes

    The rows of a collection: what the difference of two digests contains and
    what folding it into held rows yields. *)

From S2P Require Import Prelude KeyedDoc.

(** ** Lookups in insertion-ordered maps *)

Section Maps.
Context {A : Type}.
Implicit Types (m : jsmap A) (k : string).

Lemma get_delete k k' m : map_get k (map_delete k' m) = if decide (k = k') then None else map_get k m.
Proof.
  induction m as [|[k0 v0] m IH]; cbn; [by case_decide|].
  repeat case_decide; simplify_eq; cbn; repeat case_decide; try congruence; done.
Qed.

Lemma get_In k m : is_Some (map_get k m) <-> k ∈ map fst m.
Proof.
  induction m as [|[k0 v0] m IH]; cbn; [rewrite elem_of_nil; split; [by intros []|done]|].
  rewrite elem_of_cons, <- IH. case_decide; split; eauto; intros [?|?]; done.
Qed.

Lemma get_None k m : map_get k m = None <-> k ∉ map fst m.
Proof. rewrite <- get_In, eq_None_not_Some. done. Qed.

Lemma get_app k m m' : map_get k (m ++ m') = nullish_or (map_get k m) (map_get k m').
Proof. induction m as [|[k0 v0] m IH]; cbn; [done|]. by case_decide. Qed.

Lemma In_get k v m : NoDup (map fst m) -> In (k, v) m -> map_get k m = Some v.
Proof.
  induction m as [|[k0 v0] m IH]; cbn; [done|]. intros [Hn Hnd]%NoDup_cons [E|Hin].
  - injection E as -> ->. by rewrite decide_True.
  - rewrite decide_False; [by apply IH|]. intros ->. apply Hn, list_elem_of_In.
    apply in_map_iff. by exists (k0, v).
Qed.

Lemma delete_NoDup k m : NoDup (map fst m) -> NoDup (map fst (map_delete k m)).
Proof.
  induction m as [|[k0 v0] m IH]; cbn; [done|]. intros [Hn Hnd]%NoDup_cons.
  case_decide; cbn; [by apply IH|]. apply NoDup_cons. split; [|by apply IH].
  intros Hin. apply Hn. apply get_In. apply get_In in Hin as [v Hv]. rewrite get_delete in Hv.
  case_decide; [done|]. eauto.
Qed.

Lemma get_assign k m m' :
  NoDup (map fst m') -> map_get k (assign m m') = nullish_or (map_get k m') (map_get k m).
Proof.
  unfold assign. revert m. induction m' as [|[k0 v0] m' IH]; intros m; cbn; [done|].
  intros [Hn Hnd]%NoDup_cons. rewrite IH, map_get_set by done.
  destruct (decide (k = k0)) as [->|]; [|by destruct (map_get k m')].
  by rewrite (proj2 (get_None k0 m') Hn).
Qed.

Lemma assign_NoDup m m' : NoDup (map fst m) -> NoDup (map fst (assign m m')).
Proof. unfold assign. revert m. induction m' as [|e m' IH]; intros m H; [done|]. cbn. by apply IH, map_set_NoDup. Qed.

Lemma get_delete_keys k ks m : map_get k (delete_keys ks m) = if decide (k ∈ ks) then None else map_get k m.
Proof.
  unfold delete_keys. revert m. induction ks as [|k0 ks IH]; intros m; cbn [fold_left].
  - rewrite decide_False; [done|]. apply not_elem_of_nil.
  - rewrite IH, get_delete. destruct (decide (k ∈ ks)) as [H|H].
    + rewrite decide_True; [done|]. by right.
    + destruct (decide (k = k0)) as [->|Hne]; [rewrite decide_True; [done|by left]|].
      rewrite decide_False; [done|]. rewrite elem_of_cons. tauto.
Qed.

Lemma delete_keys_NoDup ks m : NoDup (map fst m) -> NoDup (map fst (delete_keys ks m)).
Proof. unfold delete_keys. revert m. induction ks as [|k ks IH]; intros m H; [done|]. cbn. by apply IH, delete_NoDup. Qed.

Lemma delete_absent k m : map_get k m = None -> map_delete k m = m.
Proof. induction m as [|[k0 v0] m IH]; cbn; [done|]. case_decide; [done|]. intros Hk. by rewrite IH. Qed.

Lemma delete_set_absent k v m : map_get k m = None -> map_delete k (map_set k v m) = m.
Proof.
  induction m as [|[k0 v0] m IH]; cbn; [by rewrite decide_True|].
  case_decide; [done|]. cbn. rewrite decide_False by done. intros Hk. by rewrite IH.
Qed.

(** Setting the fields of a list of keys. *)
Lemma get_set_keys (g : string -> A) ks k m :
  map_get k (fold_left (fun c key => map_set key (g key) c) ks m) = if decide (k ∈ ks) then Some (g k) else map_get k m.
Proof.
  revert m. induction ks as [|k0 ks IH]; intros m; cbn [fold_left].
  - rewrite decide_False; [done|]. apply not_elem_of_nil.
  - rewrite IH, map_get_set. destruct (decide (k ∈ ks)) as [H|H].
    + rewrite decide_True; [done|]. by right.
    + destruct (decide (k = k0)) as [->|Hne]; [rewrite decide_True; [done|by left]|].
      rewrite decide_False; [done|]. rewrite elem_of_cons. tauto.
Qed.

Lemma set_keys_NoDup (g : string -> A) ks m :
  NoDup (map fst m) -> NoDup (map fst (fold_left (fun c key => map_set key (g key) c) ks m)).
Proof. revert m. induction ks as [|k ks IH]; intros m H; [done|]. cbn. by apply IH, map_set_NoDup. Qed.

Lemma has_key_true k m : has_key k m = true <-> is_Some (map_get k m).
Proof. unfold has_key. destruct (map_get k m); cbn; split; eauto; [done|]. by intros []. Qed.

Lemma has_key_false k m : has_key k m = false <-> map_get k m = None.
Proof. unfold has_key. by destruct (map_get k m). Qed.
End Maps.

(** ** Signatures of fields *)

Lemma field_sigs_cons k0 v fs :
  field_sigs ((k0, v) :: fs) = match sig v with Some y => [(k0, y)] | None => [] end ++ field_sigs fs.
Proof. done. Qed.

Lemma get_field_sigs k (fs : Row) : NoDup (map fst fs) -> map_get k (field_sigs fs) = map_get k fs ≫= sig.
Proof.
  induction fs as [|[k0 v] fs IH]; [done|]. rewrite field_sigs_cons. cbn [map fst map_get].
  intros [Hn Hnd]%NoDup_cons. rewrite get_app, IH by done. destruct (sig v) as [s|] eqn:Es; cbn.
  - case_decide; simpl; [by rewrite Es|done].
  - case_decide as H; [|done]. subst. rewrite (proj2 (get_None k0 fs) Hn). cbn. by rewrite Es.
Qed.

Lemma field_sigs_keys (fs : Row) k : k ∈ map fst (field_sigs fs) -> k ∈ map fst fs.
Proof.
  induction fs as [|[k0 v] fs IH]; [done|]. rewrite field_sigs_cons. cbn [map fst]. rewrite map_app, elem_of_app, elem_of_cons.
  destruct (sig v); cbn; rewrite ?list_elem_of_singleton, ?elem_of_nil; tauto.
Qed.

Lemma field_sigs_NoDup (fs : Row) : NoDup (map fst fs) -> NoDup (map fst (field_sigs fs)).
Proof.
  induction fs as [|[k0 v] fs IH]; [done|]. rewrite field_sigs_cons. cbn [map fst]. intros [Hn Hnd]%NoDup_cons.
  rewrite map_app. destruct (sig v); cbn [map fst app]; [|by apply IH]. apply NoDup_cons. split; [|by apply IH].
  intros H. by apply Hn, field_sigs_keys.
Qed.

(** A row without undefined fields. *)
Definition clean (fs : Row) : Prop :=
  NoDup (map fst fs) /\ forall k v, map_get k fs = Some v -> sig v <> None.

(** ** Stable views, field by field

    What the engine needs of [stableRow]: it keeps or drops a field by its
    name, views a kept field by itself, and keeps the id. *)
Class StableSpec (spec : KeyedDocSpec) := {
  ss_keep : string -> string -> bool;
  ss_view : string -> string -> DVal -> DVal;
  ss_fieldwise : forall c row k, NoDup (map fst row) ->
    map_get k (ks_stableRow spec c row) = if ss_keep c k then ss_view c k <$> map_get k row else None;
  ss_NoDup : forall c row, NoDup (map fst row) -> NoDup (map fst (ks_stableRow spec c row));
  ss_defined : forall c k v, sig v <> None -> sig (ss_view c k v) <> None;
  ss_id : forall c idF, (c, idF) ∈ ks_collections spec ->
    ss_keep c idF = true /\ forall s, ss_view c idF (D_str s) = D_str s }.

Section Rows.
Context {spec : KeyedDocSpec} `{StableSpec spec} (c idF : string).
Hypothesis collection : (c, idF) ∈ ks_collections spec.

(** What of a field counts as a change. *)
Definition seen (fs : Row) (k : string) : option DVal := map_get k (ks_stableRow spec c fs) ≫= sig.

Definition same_row (a b : Row) : Prop := forall k, seen a k = seen b k.

Lemma seen_kept fs k :
  NoDup (map fst fs) -> seen fs k = if ss_keep c k then map_get k fs ≫= (fun v => sig (ss_view c k v)) else None.
Proof.
  intros Hn. unfold seen. rewrite ss_fieldwise by done. destruct (ss_keep c k); [|done]. by destruct (map_get k fs).
Qed.

(** A kept field of a clean row is seen exactly when it is there. *)
Lemma seen_None fs k : clean fs -> ss_keep c k = true -> seen fs k = None <-> map_get k fs = None.
Proof.
  intros [Hn Hd] Hk. rewrite seen_kept, Hk by done. destruct (map_get k fs) as [v|] eqn:E; [|done].
  cbn. split; [|done]. intros Hs. by apply (ss_defined c k v) in Hs; [|eapply Hd].
Qed.

Definition digest_of (fs : Row) : RowDigest :=
  {| rd_value := fs; rd_stable := ks_stableRow spec c fs;
     rd_sig := nullish (sig (D_obj (ks_stableRow spec c fs))) (D_str EmptyString) |}.

Lemma fieldSigs_seen fs k : NoDup (map fst fs) -> map_get k (fieldSigsOf (digest_of fs)) = seen fs k.
Proof. intros Hn. unfold fieldSigsOf. cbn. rewrite get_field_sigs; [done|]. by apply ss_NoDup. Qed.

Lemma same_sig_same_row a b :
  NoDup (map fst a) -> NoDup (map fst b) -> rd_sig (digest_of a) = rd_sig (digest_of b) -> same_row a b.
Proof.
  intros Ha Hb E k. cbn in E. injection E as E.
  rewrite <- !fieldSigs_seen by done. unfold fieldSigsOf, field_sigs. cbn. by rewrite E.
Qed.

Lemma changed_In a b k :
  NoDup (map fst a) -> NoDup (map fst b) ->
  k ∈ changed_fields idF (digest_of a) (digest_of b) <-> k <> idF /\ is_Some (seen b k) /\ seen a k <> seen b k.
Proof.
  intros Ha Hb. unfold changed_fields.
  assert (Hnd : NoDup (map fst (fieldSigsOf (digest_of b)))) by (by apply field_sigs_NoDup, ss_NoDup).
  rewrite list_elem_of_In, in_map_iff. split.
  - intros ([k' s] & <- & Hin). apply filter_In in Hin as [Hin Hc]. cbn in Hc. breflect.
    apply In_get in Hin; [|done]. rewrite fieldSigs_seen in Hin by done. cbn [fst].
    rewrite Hin, <- (fieldSigs_seen a k') by done. split_and!; [done|eauto|done].
  - intros (Hid & [s Hs] & Hne). exists (k, s). split; [done|]. apply filter_In. split.
    + apply map_get_In. by rewrite fieldSigs_seen.
    + cbn [fst snd]. rewrite fieldSigs_seen by done. rewrite !bool_decide_eq_false_2; [done|congruence|done].
Qed.

Lemma gone_In a b k :
  NoDup (map fst a) -> NoDup (map fst b) ->
  k ∈ gone_fields (digest_of a) (digest_of b) <-> is_Some (seen a k) /\ seen b k = None /\ map_get k b = None.
Proof.
  intros Ha Hb. unfold gone_fields. rewrite list_elem_of_In, filter_In, <- list_elem_of_In, <- get_In.
  rewrite andb_true_iff, !negb_true_iff, !has_key_false, !fieldSigs_seen by done. cbn. tauto.
Qed.

(** Fields carried along with a change were dropped by the stable view. *)
Lemma with_volatile_get a b chg k :
  (has_key k (rd_stable b) = true \/ map_get k (rd_value b) = None) ->
  map_get k (with_volatile a b chg) = map_get k chg.
Proof.
  unfold with_volatile. intros Hk.
  assert (Hes : forall es, (forall v, In (k, v) es -> has_key k (rd_stable b) = true) ->
    map_get k (fold_left (fun c e =>
      if has_key e.1 (rd_stable b) || has_key e.1 c then c
      else if bool_decide (sig (field (rd_value a) e.1) = sig e.2) then c else map_set e.1 e.2 c) es chg)
    = map_get k chg).
  { intros es. revert chg. induction es as [|[k0 v0] es IH]; intros chg Hes; [done|]. cbn [fold_left fst snd].
    assert (Hes' : forall v, In (k, v) es -> has_key k (rd_stable b) = true) by (intros v ?; apply (Hes v); by right).
    destruct (has_key k0 (rd_stable b) || has_key k0 chg) eqn:E; [by apply IH|].
    case_bool_decide; [by apply IH|]. rewrite IH by done. rewrite map_get_set.
    rewrite decide_False; [done|]. intros ->. specialize (Hes v0 (or_introl eq_refl)). by rewrite Hes in E. }
  apply Hes. intros v Hv. destruct Hk as [Hk|Hk]; [done|]. exfalso.
  apply get_None in Hk. apply Hk. apply list_elem_of_In, in_map_iff. by exists (k, v).
Qed.

Lemma with_volatile_cases a b chg k v :
  map_get k (with_volatile a b chg) = Some v -> map_get k chg = Some v \/ In (k, v) (rd_value b).
Proof.
  unfold with_volatile. generalize (rd_value b). intros es. revert chg.
  induction es as [|[k0 v0] es IH]; intros chg; [by left|]. cbn [fold_left fst snd].
  intros Hv. destruct (has_key k0 (rd_stable b) || has_key k0 chg); [apply IH in Hv; cbn; tauto|].
  case_bool_decide; [apply IH in Hv; cbn; tauto|]. apply IH in Hv as [Hv|Hv]; [|cbn; tauto].
  rewrite map_get_set in Hv. case_decide; [|by left]. simplify_eq. right. by left.
Qed.

Lemma with_volatile_NoDup a b chg : NoDup (map fst chg) -> NoDup (map fst (with_volatile a b chg)).
Proof.
  unfold with_volatile. generalize (rd_value b). intros es. revert chg.
  induction es as [|[k0 v0] es IH]; intros chg Hn; [done|]. cbn [fold_left fst snd].
  destruct (_ || _); [by apply IH|]. case_bool_decide; [by apply IH|]. by apply IH, map_set_NoDup.
Qed.

(** ** One row *)

Definition row_change (id : string) (a b : Row) : Row :=
  with_volatile (digest_of a) (digest_of b) (change_of idF id (digest_of a) (digest_of b)).

(** The held row after the change from [a] to [b]. *)
Definition folded_row (id : string) (base a b : Row) : Row :=
  delete_keys (gone_fields (digest_of a) (digest_of b))
    (if bool_decide (changed_fields idF (digest_of a) (digest_of b) = []) then base
     else assign base (row_change id a b)).

Definition identified (id : string) (fs : Row) : Prop := map_get idF fs = Some (D_str id).

Lemma id_kept : ss_keep c idF = true.
Proof. by apply (ss_id c idF). Qed.

Lemma seen_id id fs : NoDup (map fst fs) -> identified id fs -> seen fs idF = Some (D_str id).
Proof.
  intros Hn Hi. rewrite seen_kept, id_kept, Hi by done. cbn. destruct (ss_id c idF collection) as [_ ->]. done.
Qed.

Lemma row_change_NoDup id a b : NoDup (map fst (row_change id a b)).
Proof. apply with_volatile_NoDup. unfold change_of. apply set_keys_NoDup. cbn. apply NoDup_singleton. Qed.

(** A kept field is in the change when it differs. *)
Lemma row_change_kept id a b k :
  NoDup (map fst b) -> ss_keep c k = true ->
  map_get k (row_change id a b)
  = if decide (k ∈ changed_fields idF (digest_of a) (digest_of b)) then Some (field b k)
    else if decide (k = idF) then Some (D_str id) else None.
Proof.
  intros Hb Hk. unfold row_change. rewrite with_volatile_get.
  - unfold change_of. rewrite get_set_keys. cbn. repeat case_decide; done.
  - cbn. rewrite has_key_true, ss_fieldwise, Hk by done. destruct (map_get k b); [left; eauto|by right].
Qed.

Lemma row_change_clean id a b k v :
  clean a -> clean b -> map_get k (row_change id a b) = Some v -> sig v <> None.
Proof.
  intros [Ha _] [Hb Hd] Hv. apply with_volatile_cases in Hv as [Hv|Hv].
  - unfold change_of in Hv. rewrite get_set_keys in Hv. case_decide as Hc.
    + injection Hv as <-. cbn. apply changed_In in Hc as (_ & [s Hs] & _); [|done|done].
      rewrite seen_kept in Hs by done. destruct (ss_keep c k); [|done]. unfold field.
      destruct (map_get k b) as [v|] eqn:E; [|done]. cbn. by eapply Hd.
    + cbn in Hv. case_decide; [|done]. injection Hv as <-. done.
  - cbn in Hv. apply In_get in Hv; [|done]. by eapply Hd.
Qed.

Lemma folded_row_get id base a b k :
  map_get k (folded_row id base a b)
  = if decide (k ∈ gone_fields (digest_of a) (digest_of b)) then None
    else if bool_decide (changed_fields idF (digest_of a) (digest_of b) = []) then map_get k base
    else nullish_or (map_get k (row_change id a b)) (map_get k base).
Proof.
  unfold folded_row. rewrite get_delete_keys. case_decide; [done|].
  case_bool_decide; [done|]. rewrite get_assign; [done|]. apply row_change_NoDup.
Qed.

(** A kept field after folding. *)
Lemma folded_kept id base a b k :
  NoDup (map fst a) -> NoDup (map fst b) -> ss_keep c k = true -> k <> idF ->
  map_get k (folded_row id base a b)
  = if decide (k ∈ gone_fields (digest_of a) (digest_of b)) then None
    else if decide (k ∈ changed_fields idF (digest_of a) (digest_of b)) then Some (field b k) else map_get k base.
Proof.
  intros Ha Hb Hk Hid. rewrite folded_row_get. case_decide; [done|].
  rewrite row_change_kept by done. destruct (decide (k ∈ changed_fields _ _ _)) as [Hc|Hc].
  - rewrite bool_decide_eq_false_2; [done|]. intros E. rewrite E in Hc. by apply elem_of_nil in Hc.
  - rewrite (decide_False (P := k = idF)) by done. by case_bool_decide.
Qed.

Lemma folded_row_ok id base a b :
  clean a -> clean b -> clean base -> identified id base -> identified id b -> same_row base a ->
  clean (folded_row id base a b) /\ identified id (folded_row id base a b) /\ same_row (folded_row id base a b) b.
Proof.
  intros Ca Cb Cbase Hbase Hb Hsame.
  assert (Hnd : NoDup (map fst (folded_row id base a b))).
  { unfold folded_row. apply delete_keys_NoDup. case_bool_decide; [apply Cbase|]. apply assign_NoDup, Cbase. }
  assert (Hid : identified id (folded_row id base a b)).
  { unfold identified. rewrite folded_row_get. rewrite decide_False.
    - case_bool_decide; [done|]. rewrite row_change_kept by (apply Cb || apply id_kept).
      rewrite decide_False, decide_True; [done|done|]. rewrite changed_In by (apply Ca || apply Cb). tauto.
    - rewrite gone_In by (apply Ca || apply Cb). rewrite Hb. intros (_ & _ & ?). done. }
  split_and!; [split; [done|]|done|].
  - intros k v. rewrite folded_row_get. case_decide; [done|]. case_bool_decide; [by apply Cbase|].
    destruct (map_get k (row_change id a b)) as [w|] eqn:Ew; cbn; [|by apply Cbase].
    intros [= <-]. eapply row_change_clean; [exact Ca|exact Cb|exact Ew].
  - intros k. destruct (decide (k = idF)) as [->|Hk].
    { rewrite !(seen_id id) by (done || apply Cb). done. }
    rewrite (seen_kept (folded_row id base a b)) by done. rewrite (seen_kept b) by apply Cb.
    destruct (ss_keep c k) eqn:Ek; [|done]. rewrite folded_kept by (done || apply Ca || apply Cb).
    destruct (decide (k ∈ gone_fields _ _)) as [Hg|Hg].
    { rewrite gone_In in Hg by (apply Ca || apply Cb). destruct Hg as (_ & _ & ->). done. }
    rewrite gone_In in Hg by (apply Ca || apply Cb).
    destruct (decide (k ∈ changed_fields _ _ _)) as [Hc|Hc]; rewrite changed_In in Hc by (apply Ca || apply Cb).
    { destruct Hc as (_ & [s Hs] & _). rewrite seen_kept, Ek in Hs by apply Cb. unfold field.
      destruct (map_get k b) as [v|]; [done|done]. }
    specialize (Hsame k). rewrite (seen_kept base), Ek in Hsame by apply Cbase. rewrite Hsame.
    pose proof (seen_kept b k (proj1 Cb)) as Hseen. rewrite Ek in Hseen. rewrite <- Hseen.
    destruct (seen b k) as [s|] eqn:Es.
    + destruct (decide (seen a k = Some s)); [done|]. exfalso. apply Hc. split_and!; [done|eauto|congruence].
    + destruct (seen a k) as [s|] eqn:Ea; [|done]. exfalso. apply Hg. split_and!; [eauto|done|].
      by apply (seen_None b k Cb Ek).
Qed.

(** ** Collections *)

Record cd_ok (cd : CollectionDigest) : Prop := {
  co_nodup : NoDup (map fst (cd_rows cd));
  co_order : cd_order cd = map fst (cd_rows cd);
  co_rows : forall id rd, map_get id (cd_rows cd) = Some rd ->
    exists fs, rd = digest_of fs /\ clean fs /\ identified id fs }.

(** The held list shows the digested rows, in their order. *)
Definition rows_sync (l : list DVal) (cd : CollectionDigest) : Prop :=
  exists rows : jsmap Row, l = map (fun e : string * Row => D_obj e.2) rows /\ map fst rows = cd_order cd /\
    forall id fs, In (id, fs) rows -> clean fs /\ identified id fs /\
      exists b, map_get id (cd_rows cd) = Some (digest_of b) /\ same_row fs b.

Definition no_rows : CollectionDigest := {| cd_rows := []; cd_order := [] |}.

Lemma no_rows_ok : cd_ok no_rows.
Proof. split; cbn; [constructor|done|done]. Qed.

Lemma set_absent_keys {A} k (v : A) m : map_get k m = None -> map fst (map_set k v m) = map fst m ++ [k].
Proof. intros Hk. rewrite map_set_keys, decide_False; [done|]. by apply get_None. Qed.

Lemma digest_row_ok cd v :
  cd_ok cd -> (forall fs, v = D_obj fs -> clean fs) -> cd_ok (digest_row spec c idF cd v).
Proof.
  intros [Hn Ho Hr] Hc. unfold digest_row. destruct v as [| | | | | | |fs]; try by split.
  destruct (field fs idF) as [| | | | |id| |] eqn:Ef; try by split.
  destruct (bool_decide (id = "") || has_key id (cd_rows cd)) eqn:E; [by split|].
  apply orb_false_iff in E as [_ E]. apply has_key_false in E. split; cbn.
  - by apply map_set_NoDup.
  - by rewrite set_absent_keys, Ho.
  - intros id' rd. rewrite map_get_set. case_decide; [|apply Hr]. intros [= <-]. subst id'.
    exists fs. split_and!; [done|by apply Hc|]. unfold identified, field in *. by destruct (map_get idF fs); cbn in Ef; subst.
Qed.

Lemma digest_list_ok l : (forall fs, In (D_obj fs) l -> clean fs) -> cd_ok (digest_list spec c idF l).
Proof.
  unfold digest_list. generalize no_rows_ok. unfold no_rows. generalize {| cd_rows := []; cd_order := [] |}.
  induction l as [|v l IH]; intros cd Hcd Hl; [done|]. cbn. apply IH; [|intros fs ?; apply Hl; by right].
  apply digest_row_ok; [done|]. intros fs ->. apply Hl. by left.
Qed.

(** What one digested row contributes to a difference. *)
Definition row_upsert (prevRows : jsmap RowDigest) (e : string * RowDigest) : option Row :=
  match map_get e.1 prevRows with
  | None => Some (rd_value e.2)
  | Some p => if bool_decide (rd_sig p = rd_sig e.2) then None
              else if bool_decide (changed_fields idF p e.2 = []) then None
              else Some (with_volatile p e.2 (change_of idF e.1 p e.2))
  end.

Definition row_unset (prevRows : jsmap RowDigest) (e : string * RowDigest) : option (list string) :=
  match map_get e.1 prevRows with
  | None => None
  | Some p => if bool_decide (rd_sig p = rd_sig e.2) then None
              else if bool_decide (gone_fields p e.2 = []) then None else Some (gone_fields p e.2)
  end.

Definition tagged_unset (prevRows : jsmap RowDigest) (e : string * RowDigest) : option (string * list string) :=
  pair e.1 <$> row_unset prevRows e.

Lemma diff_rows_spec prevRows es d :
  let d' := fold_left (diff_row idF prevRows) es d in
  nullish (kd_upsert d') [] = nullish (kd_upsert d) [] ++ omap (row_upsert prevRows) es /\
  nullish (kd_unsetFields d') [] = assign (nullish (kd_unsetFields d) []) (omap (tagged_unset prevRows) es) /\
  kd_removed d' = kd_removed d /\ kd_order d' = kd_order d /\ kd_absent d' = kd_absent d /\
  (kd_upsert d' = None -> kd_upsert d = None) /\ (kd_unsetFields d' = None -> kd_unsetFields d = None).
Proof.
  revert d. induction es as [|[id nr] es IH]; intros d; cbv zeta; cbn [fold_left].
  { cbn. rewrite app_nil_r. done. }
  specialize (IH (diff_row idF prevRows d (id, nr))). cbv zeta in IH.
  destruct IH as (-> & -> & -> & -> & -> & Hu & Hf).
  change (omap (row_upsert prevRows) ((id, nr) :: es)) with
    (match row_upsert prevRows (id, nr) with Some x => x :: omap (row_upsert prevRows) es | None => omap (row_upsert prevRows) es end).
  change (omap (tagged_unset prevRows) ((id, nr) :: es)) with
    (match tagged_unset prevRows (id, nr) with Some x => x :: omap (tagged_unset prevRows) es | None => omap (tagged_unset prevRows) es end).
  revert Hu Hf. unfold diff_row, row_upsert, tagged_unset, row_unset. cbn [fst snd].
  destruct (map_get id prevRows) as [p|]; [|cbn; rewrite <- app_assoc; intros Hu Hf; split_and!; auto; intros E; by apply Hu in E].
  case_bool_decide; [done|]. cbv zeta. repeat case_bool_decide; cbn; rewrite <- ?app_assoc;
    intros Hu Hf; split_and!; auto; intros E; by apply Hu in E || by apply Hf in E.
Qed.

Lemma removed_spec (next : CollectionDigest) ks d :
  let d' := fold_left (fun d id => if has_key id (cd_rows next) then d
              else {| d with kd_removed := push_to (kd_removed d) id |}) ks d in
  nullish (kd_removed d') [] = nullish (kd_removed d) [] ++ List.filter (fun id => negb (has_key id (cd_rows next))) ks /\
  kd_upsert d' = kd_upsert d /\ kd_unsetFields d' = kd_unsetFields d /\ kd_order d' = kd_order d /\
  kd_absent d' = kd_absent d.
Proof.
  revert d. induction ks as [|k ks IH]; intros d; cbv zeta; cbn [fold_left List.filter].
  { by rewrite app_nil_r. }
  destruct (has_key k (cd_rows next)) eqn:E; cbn [negb]; [apply IH|].
  specialize (IH {| d with kd_removed := push_to (kd_removed d) k |}). cbv zeta in IH.
  destruct IH as (-> & -> & -> & -> & ->). cbn. by rewrite <- app_assoc.
Qed.

(** The content of a difference between two digested collections. *)
Record delta_of (prev next : CollectionDigest) (d : KeyedCollectionDelta) : Prop := {
  do_upsert : nullish (kd_upsert d) [] = omap (row_upsert (cd_rows prev)) (cd_rows next);
  do_unset : nullish (kd_unsetFields d) [] = assign [] (omap (tagged_unset (cd_rows prev)) (cd_rows next));
  do_removed : nullish (kd_removed d) [] = List.filter (fun id => negb (has_key id (cd_rows next))) (map fst (cd_rows prev));
  do_order : nullish (kd_order d) (cd_order prev) = cd_order next;
  do_absent : kd_absent d = false }.

Lemma diffCollection_spec prev next :
  match diffCollection (Some prev) (Some next) idF with
  | Some d => delta_of prev next d
  | None => delta_of prev next no_change
  end.
Proof.
  unfold diffCollection. cbv zeta.
  pose proof (diff_rows_spec (cd_rows prev) (cd_rows next) no_change) as H1. cbv zeta in H1.
  set (d1 := fold_left (diff_row idF (cd_rows prev)) (cd_rows next) no_change) in *.
  pose proof (removed_spec next (map fst (cd_rows prev)) d1) as H2. cbv zeta in H2.
  match goal with |- context [fold_left ?f (map fst (cd_rows prev)) d1] =>
    set (d2 := fold_left f (map fst (cd_rows prev)) d1) in * end.
  destruct H1 as (U1 & F1 & R1 & O1 & A1 & _ & _), H2 as (R2 & U2 & F2 & O2 & A2).
  rewrite R1 in R2. cbn in U1, F1, R2, O1, A1.
  set (d3 := if bool_decide _ then d2 else _).
  assert (H3 : delta_of prev next d3).
  { unfold d3. case_bool_decide as Eo; split; cbn; rewrite ?U2, ?F2, ?O2, ?A2, ?O1, ?A1; done. }
  destruct (changes_nothing d3) eqn:En; [|done].
  unfold changes_nothing, present in En. destruct H3 as [H1 H2 H3 H4 H5].
  destruct (kd_upsert d3), (kd_unsetFields d3), (kd_removed d3), (kd_order d3); try discriminate En.
  by split.
Qed.

(** ** Lookups while folding *)

Lemma get_omap {A B} (f : string * A -> option B) (m : jsmap A) id :
  NoDup (map fst m) ->
  map_get id (omap (fun e => pair e.1 <$> f e) m) = map_get id m ≫= (fun v => f (id, v)).
Proof.
  induction m as [|[k v] m IH]; [done|]. cbn [map fst]. intros [Hn Hnd]%NoDup_cons.
  change (omap (fun e => pair e.1 <$> f e) ((k, v) :: m)) with
    (match pair k <$> f (k, v) with Some x => x :: omap (fun e => pair e.1 <$> f e) m | None => omap (fun e => pair e.1 <$> f e) m end).
  cbn [map_get]. destruct (f (k, v)) as [y|] eqn:Ef; cbn [fmap option_fmap option_map map_get].
  - case_decide; [subst; cbn; by rewrite Ef|by apply IH].
  - rewrite IH by done. case_decide; [|done]. subst. rewrite (proj2 (get_None k m) Hn). cbn. by rewrite Ef.
Qed.

Lemma omap_keys_NoDup {A B} (f : string * A -> option B) (m : jsmap A) :
  NoDup (map fst m) -> NoDup (map fst (omap (fun e => pair e.1 <$> f e) m)).
Proof.
  induction m as [|[k v] m IH]; [done|]. cbn [map fst]. intros Hall. pose proof Hall as [Hn Hnd]%NoDup_cons.
  change (omap (fun e => pair e.1 <$> f e) ((k, v) :: m)) with
    (match pair k <$> f (k, v) with Some x => x :: omap (fun e => pair e.1 <$> f e) m | None => omap (fun e => pair e.1 <$> f e) m end).
  destruct (f (k, v)); cbn [fmap option_fmap option_map]; [|by apply IH]. cbn [map fst].
  apply NoDup_cons. split; [|by apply IH]. rewrite <- get_In, get_omap by done. intros [y Hy].
  rewrite (proj2 (get_None k m) Hn) in Hy. done.
Qed.

Lemma get_upserts prevRows es B id :
  NoDup (map fst es) ->
  (forall i nr row, map_get i es = Some nr -> row_upsert prevRows (i, nr) = Some row -> field row idF = D_str i) ->
  map_get id (fold_left (upsert_row idF) (omap (row_upsert prevRows) es) B)
  = match map_get id es ≫= (fun nr => row_upsert prevRows (id, nr)) with
    | Some row => Some (match map_get id B with Some base => assign base row | None => assign [] row end)
    | None => map_get id B
    end.
Proof.
  revert B. induction es as [|[k nr] es IH]; intros B; [done|]. cbn [map fst]. intros [Hn Hnd]%NoDup_cons Hid.
  assert (Hid' : forall i nr' row, map_get i es = Some nr' -> row_upsert prevRows (i, nr') = Some row -> field row idF = D_str i).
  { intros i nr' row Hi. apply Hid. cbn. rewrite decide_False; [done|]. intros ->.
    rewrite (proj2 (get_None k es) Hn) in Hi. done. }
  change (omap (row_upsert prevRows) ((k, nr) :: es)) with
    (match row_upsert prevRows (k, nr) with Some x => x :: omap (row_upsert prevRows) es | None => omap (row_upsert prevRows) es end).
  cbn [map_get]. destruct (row_upsert prevRows (k, nr)) as [row|] eqn:Er; cbn [fold_left]; rewrite IH by done.
  - assert (Hf : field row idF = D_str k) by (apply (Hid k nr); [cbn; by rewrite decide_True|done]).
    assert (E : forall i, map_get i (upsert_row idF B row)
              = if decide (i = k) then Some (match map_get k B with Some base => assign base row | None => assign [] row end)
                else map_get i B) by (intros i; unfold upsert_row; rewrite Hf; apply map_get_set).
    rewrite E. destruct (decide (id = k)) as [->|]; [|done].
    rewrite (proj2 (get_None k es) Hn). cbn. by rewrite Er.
  - destruct (decide (id = k)) as [->|]; [|done]. rewrite (proj2 (get_None k es) Hn). cbn. by rewrite Er.
Qed.

Lemma get_unsets (G : jsmap (list string)) (B : jsmap Row) id :
  NoDup (map fst G) ->
  map_get id (fold_left unset_row G B)
  = match map_get id G with Some ks => delete_keys ks <$> map_get id B | None => map_get id B end.
Proof.
  revert B. induction G as [|[k ks] G IH]; intros B; [done|]. cbn [map fst]. intros [Hn Hnd]%NoDup_cons.
  cbn [fold_left map_get]. rewrite IH by done. unfold unset_row. cbn [fst snd].
  destruct (map_get k B) as [base|] eqn:Eb; rewrite ?map_get_set.
  - destruct (decide (id = k)) as [->|]; [|done]. by rewrite (proj2 (get_None k G) Hn), Eb.
  - destruct (decide (id = k)) as [->|]; [|done]. by rewrite (proj2 (get_None k G) Hn), Eb.
Qed.

(** ** Folding a collection *)

Lemma same_lookups x b id :
  NoDup (map fst x) -> (forall k, map_get k x = map_get k b) -> clean b -> identified id b ->
  clean x /\ identified id x /\ same_row x b.
Proof.
  intros Hn He [Hb Hd] Hi. split_and!; [split; [done|]| |].
  - intros k v. rewrite He. apply Hd.
  - unfold identified. by rewrite He.
  - intros k. rewrite !seen_kept by done. by rewrite He.
Qed.

(** What the held rows are, by id. *)
Definition held_rows (prev : CollectionDigest) (rows : jsmap Row) : Prop :=
  forall id, match map_get id (cd_rows prev) with
             | None => map_get id rows = None
             | Some rd => exists a base, rd = digest_of a /\ clean a /\ map_get id rows = Some base /\
                            clean base /\ identified id base /\ same_row base a
             end.

Definition folded_lookup (prev : CollectionDigest) (id : string) (nr : RowDigest) (held : option Row) : option Row :=
  let o := match row_upsert (cd_rows prev) (id, nr) with
           | Some row => Some (match held with Some base => assign base row | None => assign [] row end)
           | None => held
           end in
  match row_unset (cd_rows prev) (id, nr) with Some ks => delete_keys ks <$> o | None => o end.

Lemma folded_lookup_ok prev rows id b :
  held_rows prev rows -> clean b -> identified id b ->
  exists r, folded_lookup prev id (digest_of b) (map_get id rows) = Some r /\
    clean r /\ identified id r /\ same_row r b.
Proof.
  intros Hheld Cb Hb. specialize (Hheld id). unfold folded_lookup, row_upsert, row_unset. cbn [fst snd].
  destruct (map_get id (cd_rows prev)) as [rd|].
  - destruct Hheld as (a & base & -> & Ca & -> & Cbase & Hbase & Hsame).
    case_bool_decide as Es.
    { exists base. split_and!; [done..|]. intros k. rewrite Hsame.
      by apply (same_sig_same_row a b (proj1 Ca) (proj1 Cb) Es). }
    exists (folded_row id base a b). split; [|by apply folded_row_ok]. unfold folded_row, row_change.
    generalize (with_volatile (digest_of a) (digest_of b) (change_of idF id (digest_of a) (digest_of b))).
    generalize (changed_fields idF (digest_of a) (digest_of b)) (gone_fields (digest_of a) (digest_of b)).
    intros ch go w. by repeat case_bool_decide; simplify_eq.
  - rewrite Hheld. exists (assign [] (rd_value (digest_of b))). split; [done|]. apply same_lookups; [|..|done|done].
    + apply assign_NoDup. constructor.
    + intros k. rewrite get_assign by apply Cb. cbn. by destruct (map_get k b).
Qed.

Lemma rows_sync_held l prev :
  cd_ok prev -> rows_sync l prev ->
  exists rows : jsmap Row, l = map (fun e : string * Row => D_obj e.2) rows /\ map fst rows = cd_order prev /\
    NoDup (map fst rows) /\ held_rows prev rows /\ omap (row_id idF) l = rows.
Proof.
  intros [Hn Ho Hr] (rows & -> & Hfst & Hin). exists rows.
  assert (Hnd : NoDup (map fst rows)) by (rewrite Hfst, Ho; done). split_and!; [done..| |].
  - intros id. destruct (map_get id (cd_rows prev)) as [rd|] eqn:Ep.
    + destruct (Hr id rd Ep) as (a & -> & Ca & _).
      assert (is_Some (map_get id rows)) as [base Hb] by (rewrite get_In, Hfst, Ho, <- get_In; eauto).
      destruct (Hin id base (map_get_In _ _ _ Hb)) as (Cb & Hid & b & Hpb & Hsame).
      exists b, base. rewrite Ep in Hpb. apply (f_equal (fmap rd_value)) in Hpb. injection Hpb as ->.
      split_and!; done.
    + apply get_None. rewrite Hfst, Ho. by apply get_None.
  - clear -Hin. induction rows as [|[id fs] rows IH]; [done|]. cbn [map snd].
    change (omap (row_id idF) (D_obj fs :: map (fun e : string * Row => D_obj e.2) rows)) with
      (match row_id idF (D_obj fs) with Some x => x :: omap (row_id idF) (map (fun e : string * Row => D_obj e.2) rows)
       | None => omap (row_id idF) (map (fun e : string * Row => D_obj e.2) rows) end).
    destruct (Hin id fs (or_introl eq_refl)) as (_ & Hid & _). cbn. unfold field. rewrite Hid. cbn.
    f_equal. apply IH. intros i f Hi. apply Hin. by right.
Qed.

Lemma place_all (byId : jsmap Row) order placed :
  NoDup (placed ++ order) -> (forall id, id ∈ order -> is_Some (map_get id byId)) ->
  exists out, place byId order placed = (out, placed ++ order) /\
    Forall2 (fun id row => map_get id byId = Some row) order out.
Proof.
  revert placed. induction order as [|id order IH]; intros placed Hn Hs.
  { exists []. rewrite app_nil_r. split; [done|constructor]. }
  destruct (Hs id ltac:(by left)) as [row Hrow]. cbn [place]. rewrite Hrow.
  rewrite bool_decide_eq_false_2.
  2: { intros Hin. apply NoDup_app in Hn as (_ & Hd & _). apply (Hd id Hin). by left. }
  destruct (IH (placed ++ [id])) as (out & -> & Hf).
  { by rewrite <- app_assoc. } { intros i Hi. apply Hs. by right. }
  exists (row :: out). rewrite <- app_assoc. split; [done|]. by constructor.
Qed.

(** The rows placed in an order, as the list that shows a digest. *)
Lemma sync_of_lookup next (byId : jsmap Row) out :
  cd_ok next -> Forall2 (fun id row => map_get id byId = Some row) (cd_order next) out ->
  (forall id rd, map_get id (cd_rows next) = Some rd -> exists b r, rd = digest_of b /\
     map_get id byId = Some r /\ clean r /\ identified id r /\ same_row r b) ->
  rows_sync (map D_obj out) next.
Proof.
  intros [Hn Ho _] Hf Hr. exists (zip (cd_order next) out). apply Forall2_length in Hf as Hl. split_and!.
  - rewrite <- (map_map snd D_obj). f_equal. symmetry. apply snd_zip. rewrite Hl; done.
  - apply fst_zip. lia.
  - intros id fs Hin. apply list_elem_of_In, list_elem_of_lookup in Hin as [i Hi].
    apply lookup_zip_Some in Hi as [Hi1 Hi2].
    pose proof (Forall2_lookup_lr _ _ _ i id fs Hf Hi1 Hi2) as Hg. cbn in Hg.
    assert (is_Some (map_get id (cd_rows next))) as [rd Hrd].
    { rewrite get_In, <- Ho. by eapply list_elem_of_lookup_2. }
    destruct (Hr id rd Hrd) as (b & r & -> & Hr' & Cr & Hid & Hs). rewrite Hg in Hr'. injection Hr' as <-.
    split_and!; [done|done|]. exists b. by split.
Qed.

(** Every digested row of [next] is found where the fold looks for it. *)
Lemma next_rows_found prev next rows :
  cd_ok next -> held_rows prev rows ->
  forall id rd, map_get id (cd_rows next) = Some rd -> exists b r, rd = digest_of b /\
    folded_lookup prev id rd (map_get id rows) = Some r /\ clean r /\ identified id r /\ same_row r b.
Proof.
  intros Hok Hheld id rd Hrd. destruct (co_rows _ Hok id rd Hrd) as (b & -> & Cb & Hb).
  destruct (folded_lookup_ok prev rows id b Hheld Cb Hb) as (r & Hr & Hrest). by exists b, r.
Qed.

Lemma upsert_identified prev next id nr row :
  cd_ok prev -> cd_ok next -> map_get id (cd_rows next) = Some nr ->
  row_upsert (cd_rows prev) (id, nr) = Some row -> field row idF = D_str id.
Proof.
  intros Hp Hn Hnr. destruct (co_rows _ Hn id nr Hnr) as (b & -> & Cb & Hb). unfold row_upsert. cbn [fst snd].
  destruct (map_get id (cd_rows prev)) as [rd|] eqn:Ep.
  - destruct (co_rows _ Hp id rd Ep) as (a & -> & Ca & _). repeat case_bool_decide; try done.
    intros [= <-]. unfold field. fold (row_change id a b). rewrite row_change_kept by (apply Cb || apply id_kept).
    rewrite decide_False, decide_True; [done|done|]. rewrite changed_In by (apply Ca || apply Cb). tauto.
  - intros [= <-]. unfold field. cbn. by rewrite Hb.
Qed.

(** The map of rows just before they are put in order. *)
Lemma folded_byId prev next rows d id :
  cd_ok prev -> cd_ok next -> NoDup (map fst rows) -> held_rows prev rows -> delta_of prev next d ->
  map_get id (fold_left unset_row (nullish (kd_unsetFields d) [])
    (fold_left (upsert_row idF) (nullish (kd_upsert d) [])
      (delete_keys (nullish (kd_removed d) []) (map_of rows))))
  = map_get id (cd_rows next) ≫= (fun nr => folded_lookup prev id nr (map_get id rows)).
Proof.
  intros Hp Hn Hnd Hheld [Du Df Dr _ _]. rewrite Du, Df, Dr.
  assert (HndG : NoDup (map fst (omap (tagged_unset (cd_rows prev)) (cd_rows next))))
    by apply omap_keys_NoDup, Hn.
  rewrite get_unsets by (apply assign_NoDup; constructor).
  rewrite get_assign by done. unfold tagged_unset in *. rewrite get_omap by apply Hn.
  rewrite get_upserts by (apply Hn || (intros i nr row; by apply upsert_identified)).
  rewrite get_delete_keys. change (map_of rows) with (assign [] rows). rewrite get_assign by done.
  specialize (Hheld id). destruct (map_get id (cd_rows next)) as [nr|] eqn:En; cbn.
  - rewrite decide_False.
    2: { rewrite list_elem_of_In, filter_In. intros [_ Hk]. apply negb_true_iff, has_key_false in Hk. congruence. }
    unfold folded_lookup. destruct (map_get id rows); cbn; by destruct (row_unset _ _).
  - case_decide as Hd; [done|]. destruct (map_get id (cd_rows prev)) as [rd|] eqn:Ep.
    + exfalso. apply Hd. rewrite list_elem_of_In, filter_In. split.
      * apply list_elem_of_In, get_In. eauto.
      * by apply negb_true_iff, has_key_false.
    + by rewrite Hheld.
Qed.

Lemma filter_none {A} (f : A -> bool) (m : list A) : (forall x, In x m -> f x = false) -> List.filter f m = [].
Proof.
  induction m as [|x m IH]; intros Hf; [done|]. cbn. rewrite (Hf x (or_introl eq_refl)).
  apply IH. intros y Hy. apply Hf. by right.
Qed.

(** Folding the difference of two digests into rows that show the first
    yields rows that show the second. *)
Lemma fold_rows prev next l d :
  cd_ok prev -> cd_ok next -> rows_sync l prev -> delta_of prev next d ->
  rows_sync (map D_obj (foldCollection (D_arr l) d idF)) next.
Proof.
  intros Hp Hn Hl Hd. destruct (rows_sync_held l prev Hp Hl) as (rows & _ & Hfst & Hnd & Hheld & Hid).
  unfold foldCollection. cbn [as_list]. rewrite Hid, Hfst, (do_order _ _ _ Hd).
  set (byId := fold_left unset_row _ _).
  assert (Hby : forall id, map_get id byId
            = map_get id (cd_rows next) ≫= (fun nr => folded_lookup prev id nr (map_get id rows)))
    by (intros id; by apply folded_byId).
  pose proof (next_rows_found prev next rows Hn Hheld) as Hfound.
  assert (Hfound' : forall id rd, map_get id (cd_rows next) = Some rd -> exists b r, rd = digest_of b /\
            map_get id byId = Some r /\ clean r /\ identified id r /\ same_row r b).
  { intros id rd Hrd. destruct (Hfound id rd Hrd) as (b & r & -> & Hr & Hrest). exists b, r. rewrite Hby, Hrd. done. }
  destruct (place_all byId (cd_order next) []) as (out & -> & Hf).
  { cbn. rewrite (co_order _ Hn). apply Hn. }
  { intros id Hin. rewrite (co_order _ Hn), <- get_In in Hin. destruct Hin as [rd Hrd].
    destruct (Hfound' id rd Hrd) as (_ & r & _ & Hr & _). eauto. }
  assert (Hrest : List.filter (fun e : string * Row => negb (bool_decide (e.1 ∈ [] ++ cd_order next))) byId = []).
  { apply filter_none. intros [id row] Hin. cbn. apply negb_false_iff, bool_decide_eq_true.
    assert (is_Some (map_get id byId)) as [r Hr].
    { apply get_In, list_elem_of_In, in_map_iff. by exists (id, row). }
    rewrite Hby in Hr. rewrite (co_order _ Hn), <- get_In. destruct (map_get id (cd_rows next)); [eauto|done]. }
  rewrite Hrest. cbn [map]. rewrite app_nil_r. by eapply sync_of_lookup.
Qed.

(** An empty difference means the rows already show the second digest. *)
Lemma keep_rows prev next l :
  cd_ok prev -> cd_ok next -> rows_sync l prev -> delta_of prev next no_change -> rows_sync l next.
Proof.
  intros Hp Hn Hl Hd. destruct (rows_sync_held l prev Hp Hl) as (rows & Hrows & Hfst & Hnd & Hheld & _).
  exists rows. pose proof (do_order _ _ _ Hd) as Ho. cbn in Ho. split_and!; [done|congruence|].
  intros id fs Hin. apply In_get in Hin; [|done].
  assert (is_Some (map_get id (cd_rows next))) as [rd Hrd].
  { rewrite get_In, <- (co_order _ Hn), <- Ho, <- Hfst, <- get_In. eauto. }
  destruct (next_rows_found prev next rows Hn Hheld id rd Hrd) as (b & r & -> & Hr & Cr & Hid & Hs).
  pose proof (folded_byId prev next rows no_change id Hp Hn Hnd Hheld Hd) as E. cbn in E.
  change (map_of rows) with (assign [] rows) in E. rewrite get_assign, Hin, Hrd in E by done. cbn in E, Hr.
  rewrite Hin in Hr. rewrite Hr in E. injection E as <-. split_and!; [done|done|]. exists b. by split.
Qed.

(** A digested list of well-formed rows with distinct ids shows its digest. *)
Definition list_ok (l : list DVal) : Prop :=
  exists rows : jsmap Row, l = map (fun e : string * Row => D_obj e.2) rows /\ NoDup (map fst rows) /\
    forall id fs, In (id, fs) rows -> id <> EmptyString /\ clean fs /\ identified id fs.

Lemma digest_well_formed (rows : jsmap Row) :
  NoDup (map fst rows) -> (forall id fs, In (id, fs) rows -> id <> EmptyString /\ identified id fs) ->
  digest_list spec c idF (map (fun e : string * Row => D_obj e.2) rows)
  = {| cd_rows := map (fun e => (e.1, digest_of e.2)) rows; cd_order := map fst rows |}.
Proof.
  induction rows as [|[id fs] rows IH] using rev_ind; [done|]. intros Hn Hin.
  rewrite map_app in Hn. apply NoDup_app in Hn as (Hn & Hd & _).
  unfold digest_list in *. rewrite !map_app, fold_left_app, IH; [|done|].
  2: { intros i f Hi. apply Hin, in_or_app. by left. }
  destruct (Hin id fs) as [Hne Hid]; [apply in_or_app; right; by left|].
  cbn. unfold field. rewrite Hid. cbn. rewrite bool_decide_eq_false_2 by done. cbn.
  assert (Habs : map_get id (map (fun e : string * Row => (e.1, digest_of e.2)) rows) = None).
  { apply get_None. rewrite map_map. cbn. intros H'. apply (Hd id H'). by left. }
  replace (has_key id _) with false by (symmetry; by apply has_key_false).
  f_equal. clear -Habs. induction rows as [|[i f] rows IH]; [done|]. cbn in *.
  case_decide; [done|]. f_equal. by apply IH.
Qed.

Lemma digest_shows l : list_ok l -> rows_sync l (digest_list spec c idF l).
Proof.
  intros (rows & -> & Hn & Hin). exists rows. rewrite digest_well_formed; [|done|].
  2: { intros id fs Hi. destruct (Hin id fs Hi) as (? & _ & ?). done. }
  split_and!; [done|done|]. intros id fs Hi. destruct (Hin id fs Hi) as (_ & Hc & Hid). split_and!; [done|done|].
  exists fs. split; [|done]. cbn. apply In_get; [by rewrite map_map|].
  apply in_map_iff. by exists (id, fs).
Qed.
End Rows.
