(* ===== verification/KeyedSync.v ===== *)
(** * Following a document through its deltas

    Top-level fields and split objects, the loops of the difference, and the
    collections' places in the document. *)

From S2P Require Import Prelude KeyedDoc KeyedRows.

(** ** Paths *)

Fixpoint dotfree (s : string) : bool :=
  match s with EmptyString => true | String c t => negb (bool_decide (c = dot)) && dotfree t end.

Lemma after_prefix_inv o p f : after_prefix (joined o EmptyString) p = Some f -> p = joined o f.
Proof.
  revert p. induction o as [|c o IH]; intros [|d p]; cbn -[decide dot]; try done; intros E; case_decide; try done.
  - congruence.
  - subst. f_equal. by apply IH.
Qed.

Lemma after_prefix_joined o o' f :
  dotfree o = true -> dotfree o' = true ->
  after_prefix (joined o EmptyString) (joined o' f) = if decide (o = o') then Some f else None.
Proof.
  revert o'. induction o as [|c o IH]; intros [|c' o']; cbn -[decide dot]; intros Ho Ho'; breflect.
  - by rewrite !decide_True.
  - rewrite !decide_False; [done|done|congruence].
  - rewrite !decide_False; [done|done|congruence].
  - destruct (decide (c = c')) as [->|Hc]; [|rewrite decide_False; [done|congruence]].
    rewrite IH by done. destruct (decide (o = o')) as [->|Hne]; [by rewrite decide_True|].
    rewrite decide_False; [done|congruence].
Qed.

Lemma joined_not_dotfree o f : dotfree (joined o f) = false.
Proof. induction o as [|c o IH]; cbn; [done|]. by rewrite IH, andb_false_r. Qed.

Lemma after_prefix_dotfree o k : dotfree k = true -> after_prefix (joined o EmptyString) k = None.
Proof.
  intros Hk. destruct (after_prefix _ k) as [f|] eqn:E; [|done]. exfalso. apply after_prefix_inv in E. subst k.
  by rewrite joined_not_dotfree in Hk.
Qed.

Lemma joined_inj o f g : joined o f = joined o g -> f = g.
Proof. induction o as [|c o IH]; cbn; intros E; simplify_eq; auto. Qed.

Section Split.
Context (split : list string).
Hypothesis split_dotfree : Forall (fun o => dotfree o = true) split.

Lemma objectOf_inv p o f : objectOf split p = Some (o, f) -> p = joined o f /\ o ∈ split.
Proof.
  clear split_dotfree. induction split as [|o' t IH]; cbn; [done|].
  destruct (after_prefix _ p) as [f'|] eqn:E.
  - intros [= <- <-]. split; [by apply after_prefix_inv|by left].
  - intros H. destruct (IH H) as [-> Hin]. split; [done|by right].
Qed.

Lemma objectOf_joined o f : o ∈ split -> objectOf split (joined o f) = Some (o, f).
Proof.
  induction split as [|o' t IH]; [by intros H%elem_of_nil|]. apply Forall_cons in split_dotfree as [Ho' Ht].
  intros Hin. assert (Hod : dotfree o = true).
  { apply elem_of_cons in Hin as [->|Hin]; [done|]. rewrite Forall_forall in Ht. by apply Ht. }
  cbn. rewrite after_prefix_joined by done. case_decide as E; [by subst|].
  apply IH; [done|]. apply elem_of_cons in Hin as [->|Hin]; done.
Qed.

Lemma objectOf_dotfree k : dotfree k = true -> objectOf split k = None.
Proof.
  intros Hk. clear split_dotfree. induction split as [|o t IH]; cbn; [done|]. by rewrite after_prefix_dotfree.
Qed.

Lemma objectOf_None p o f : objectOf split p = None -> o ∈ split -> p <> joined o f.
Proof. intros Hp Ho ->. by rewrite objectOf_joined in Hp. Qed.
End Split.

(** ** The digest of top-level fields *)

Section Top.
Context (spec : KeyedDocSpec).
Hypothesis split_dotfree : Forall (fun o => dotfree o = true) (ks_splitObjects spec).
Implicit Types (M : Row) (p k : string).

(** The value a stripped document has at a digest path. *)
Definition value_at M p : option DVal :=
  match objectOf (ks_splitObjects spec) p with
  | Some (o, f) => match map_get o M with Some (D_obj fs) => map_get f fs | _ => None end
  | None => match map_get p M with
            | Some (D_obj fs) => if bool_decide (p ∈ ks_splitObjects spec) then None else Some (D_obj fs)
            | v => v
            end
  end.

Definition top_at M p : option DVal :=
  if bool_decide (p ∈ ks_ignore spec) then None else value_at M p ≫= sig.

Record top_ok M : Prop := {
  to_nodup : NoDup (map fst M);
  to_dotfree : Forall (fun k => dotfree k = true) (map fst M);
  to_split : forall o fs, o ∈ ks_splitObjects spec -> map_get o M = Some (D_obj fs) -> NoDup (map fst fs) }.

(** The entries one field contributes. *)
Definition entries_of (e : string * DVal) : Row :=
  match e.2 with
  | D_obj fs => if bool_decide (e.1 ∈ ks_splitObjects spec) then map (fun f => (joined e.1 f.1, f.2)) fs else [e]
  | _ => [e]
  end.

Lemma get_prefixed o (fs : Row) p :
  map_get p (map (fun f : string * DVal => (joined o f.1, f.2)) fs)
  = match after_prefix (joined o EmptyString) p with Some f => map_get f fs | None => None end.
Proof.
  assert (Hj : forall f, after_prefix (joined o EmptyString) (joined o f) = Some f).
  { intros f. clear. induction o as [|c o IH]; cbn -[decide dot]; [by rewrite decide_True|]. by rewrite decide_True. }
  induction fs as [|[g v] fs IH]; cbn -[decide]; [by destruct (after_prefix _ p)|].
  destruct (decide (p = joined o g)) as [->|Hne]; [rewrite Hj, decide_True; done|]. rewrite IH.
  destruct (after_prefix _ p) as [f|] eqn:E; [|done]. apply after_prefix_inv in E. subst p.
  rewrite decide_False; [done|]. congruence.
Qed.

(** A field's entries, as its own document would be read. *)
Lemma get_entries_of k v p :
  dotfree k = true -> map_get p (entries_of (k, v)) = value_at [(k, v)] p.
Proof.
  intros Hk. unfold entries_of, value_at. cbn [fst snd map_get].
  assert (Hplain : map_get p [(k, v)] = match objectOf (ks_splitObjects spec) p with
            | Some _ => None | None => if decide (p = k) then Some v else None end).
  { cbn. case_decide; [subst; by rewrite objectOf_dotfree|by destruct (objectOf _ p)]. }
  destruct v as [| | | | | | |fs]; try (rewrite Hplain; destruct (objectOf _ p) as [[o f]|] eqn:E;
    [case_decide; done|case_decide; done]).
  case_bool_decide as Hs.
  - rewrite get_prefixed. destruct (objectOf _ p) as [[o f]|] eqn:E.
    + apply objectOf_inv in E as [-> Ho]. rewrite Forall_forall in split_dotfree.
      rewrite after_prefix_joined by (done || by apply split_dotfree). case_decide as Eo.
      * subst. by rewrite decide_True.
      * rewrite decide_False; [done|congruence].
    + destruct (after_prefix _ p) as [f|] eqn:Ea.
      * apply after_prefix_inv in Ea. subst. by rewrite objectOf_joined in E.
      * case_decide; [|done]. subst. by rewrite bool_decide_eq_true_2.
  - rewrite Hplain. destruct (objectOf _ p) as [[o f]|] eqn:E.
    + apply objectOf_inv in E as [-> Ho]. case_decide; [congruence|done].
    + case_decide; [|done]. subst. by rewrite bool_decide_eq_false_2.
Qed.

Lemma value_at_cons k v M p :
  k ∉ map fst M -> value_at ((k, v) :: M) p = nullish_or (value_at [(k, v)] p) (value_at M p).
Proof.
  intros Hk. apply get_None in Hk. unfold value_at. cbn [map_get].
  destruct (objectOf _ p) as [[o f]|]; case_decide; subst; rewrite ?Hk; try done.
  - destruct v; try done. by destruct (map_get f fs).
  - destruct v; try done. by destruct (bool_decide _).
Qed.

Lemma get_top_entries M p : top_ok M -> map_get p (top_entries spec M) = value_at M p.
Proof.
  intros [Hn Hd _]. induction M as [|[k v] M IH].
  { unfold value_at. cbn. by destruct (objectOf _ p) as [[o f]|]. }
  cbn [map fst] in Hn, Hd. apply NoDup_cons in Hn as [Hk Hn]. apply Forall_cons in Hd as [Hkd Hd].
  change (top_entries spec ((k, v) :: M)) with (entries_of (k, v) ++ top_entries spec M).
  rewrite get_app, get_entries_of, IH by done. symmetry. by apply value_at_cons.
Qed.

(** A path is contributed by one field only. *)
Lemma value_at_owner k v M p :
  k ∉ map fst M -> is_Some (value_at [(k, v)] p) -> value_at M p = None.
Proof.
  intros Hk [w Hw]. apply get_None in Hk. unfold value_at in *. cbn [map_get] in Hw.
  destruct (objectOf _ p) as [[o f]|]; case_decide; subst; by rewrite ?Hk.
Qed.

Lemma entries_NoDup k v :
  (forall fs, k ∈ ks_splitObjects spec -> v = D_obj fs -> NoDup (map fst fs)) -> NoDup (map fst (entries_of (k, v))).
Proof.
  intros Hs. unfold entries_of. cbn [fst snd]. destruct v as [| | | | | | |fs]; try apply NoDup_singleton.
  case_bool_decide as Hk; [|apply NoDup_singleton]. specialize (Hs fs Hk eq_refl).
  rewrite map_map. cbn. rewrite <- (map_map fst (joined k)). assert (Inj eq eq (joined k)) by (intros f g; apply joined_inj). by apply (NoDup_fmap_2 (joined k)).
Qed.

Lemma top_entries_NoDup M : top_ok M -> NoDup (map fst (top_entries spec M)).
Proof.
  induction M as [|[k v] M IH]; [constructor|]. intros [Hn Hd Hs]. cbn [map fst] in Hn, Hd.
  apply NoDup_cons in Hn as [Hk Hn]. apply Forall_cons in Hd as [Hkd Hd].
  assert (HM : top_ok M).
  { split; [done|done|]. intros o fs Ho Hget. apply (Hs o fs Ho). cbn. rewrite decide_False; [done|].
    intros ->. rewrite (proj2 (get_None k M) Hk) in Hget. done. }
  change (top_entries spec ((k, v) :: M)) with (entries_of (k, v) ++ top_entries spec M).
  rewrite map_app. apply NoDup_app. split_and!; [|..|by apply IH].
  - apply entries_NoDup. intros fs Hks ->. apply (Hs k fs Hks). cbn. by rewrite decide_True.
  - intros p Hp Hp'. rewrite <- get_In, get_entries_of in Hp by done. rewrite <- get_In, get_top_entries in Hp' by done.
    rewrite (value_at_owner k v M p Hk Hp) in Hp'. by destruct Hp'.
Qed.

Lemma add_top_fold es acc p :
  NoDup (map fst es) ->
  map_get p (fold_left (add_top spec) es acc).1
  = (match (if bool_decide (p ∈ ks_ignore spec) then None else map_get p es ≫= sig) with
     | Some s => Some s | None => map_get p acc.1 end) /\
  map_get p (fold_left (add_top spec) es acc).2
  = (match (if bool_decide (p ∈ ks_ignore spec) then None else map_get p es ≫= sig) with
     | Some _ => map_get p es | None => map_get p acc.2 end).
Proof.
  revert acc. induction es as [|[k v] es IH]; intros acc; [by case_bool_decide|].
  cbn [map fst]. intros [Hk Hn]%NoDup_cons. apply get_None in Hk. cbn [fold_left].
  destruct (IH (add_top spec acc (k, v)) Hn) as [-> ->]. unfold add_top. cbn [fst snd map_get].
  destruct (decide (p = k)) as [->|Hne].
  - rewrite Hk. destruct (bool_decide (k ∈ ks_ignore spec)); [done|]. cbn. destruct (sig v) as [s|]; [|done].
    cbn. rewrite !map_get_set, !decide_True by done. done.
  - destruct (bool_decide (k ∈ ks_ignore spec)); [done|]. destruct (sig v) as [s|]; [|done]. cbn.
    rewrite !map_get_set, !decide_False by done. done.
Qed.

(** The digest of a stripped document, by path. *)
Lemma digest_top_get M p :
  top_ok M -> map_get p (digest_top spec M).1 = top_at M p /\
  (is_Some (top_at M p) -> map_get p (digest_top spec M).2 = value_at M p).
Proof.
  intros HM. unfold digest_top, top_at.
  destruct (add_top_fold (top_entries spec M) ([], []) p (top_entries_NoDup M HM)) as [-> ->].
  rewrite get_top_entries by done. case_bool_decide; cbn; [split; [done|by intros []]|].
  destruct (value_at M p ≫= sig); cbn; (split; [done|by intros []]).
Qed.

Lemma add_top_NoDup es acc :
  NoDup (map fst acc.1) -> NoDup (map fst (fold_left (add_top spec) es acc).1).
Proof.
  revert acc. induction es as [|e es IH]; intros acc Hn; [done|]. cbn. apply IH. unfold add_top.
  case_bool_decide; [done|]. destruct (sig e.2); [|done]. cbn. by apply map_set_NoDup.
Qed.

Lemma digest_top_NoDup M : NoDup (map fst (digest_top spec M).1).
Proof. apply add_top_NoDup. constructor. Qed.
End Top.

(** ** The loops of [diffKeyedDoc] *)

Section Diff.
Context (spec : KeyedDocSpec).
Hypothesis split_dotfree : Forall (fun o => dotfree o = true) (ks_splitObjects spec).
Context (prev next : KeyedDocDigest).
Implicit Types (st : DiffState) (p : string).

(** The value set at a path and whether the path is unset, wherever they are
    recorded. *)
Definition set_at st p : option DVal :=
  match objectOf (ks_splitObjects spec) p with
  | Some (o, f) => map_get f (nullish (oc_set (object_of (ds_objects st) o)) [])
  | None => map_get p (nullish (ds_set st) [])
  end.

Definition unset_at st p : Prop :=
  match objectOf (ks_splitObjects spec) p with
  | Some (o, f) => f ∈ nullish (oc_unset (object_of (ds_objects st) o)) []
  | None => p ∈ nullish (ds_unset st) []
  end.

Record ds_ok st : Prop := {
  dk_set : NoDup (map fst (nullish (ds_set st) []));
  dk_plain : forall k, is_Some (map_get k (nullish (ds_set st) [])) -> objectOf (ks_splitObjects spec) k = None;
  dk_objects : NoDup (map fst (ds_objects st));
  dk_object : forall o c, map_get o (ds_objects st) = Some c ->
    o ∈ ks_splitObjects spec /\ NoDup (map fst (nullish (oc_set c) [])) }.

Lemma object_of_set objects o c o' :
  object_of (map_set o c objects) o' = if decide (o' = o) then c else object_of objects o'.
Proof. unfold object_of. rewrite map_get_set. by case_decide. Qed.

Lemma object_of_ok st o : ds_ok st -> NoDup (map fst (nullish (oc_set (object_of (ds_objects st) o)) [])).
Proof.
  intros Hok. unfold object_of. destruct (map_get o (ds_objects st)) as [c|] eqn:E; cbn; [|constructor].
  by destruct (dk_object _ Hok o c E).
Qed.

Lemma push_elem {A} (o : option (list A)) (v x : A) : x ∈ nullish (push_to o v) [] <-> x ∈ nullish o [] \/ x = v.
Proof. cbn. rewrite elem_of_app, list_elem_of_singleton. done. Qed.

Lemma diff_set_ok st e : ds_ok st -> ds_ok (diff_set spec prev next st e).
Proof.
  intros Hok. destruct e as [p s]. unfold diff_set. case_bool_decide; [done|]. cbv zeta.
  destruct (objectOf _ p) as [[o f]|] eqn:E.
  - apply objectOf_inv in E as [-> Ho]. split; cbn; [apply Hok|apply Hok|by apply map_set_NoDup, Hok|].
    intros o' c'. rewrite map_get_set. case_decide; [|apply Hok]. intros [= <-]. subst. split; [done|].
    cbn. by apply map_set_NoDup, object_of_ok.
  - split; cbn; [by apply map_set_NoDup, Hok| |apply Hok|apply Hok].
    intros k. rewrite map_get_set. case_decide; [by subst|apply Hok].
Qed.

Lemma diff_unset_ok st p : ds_ok st -> ds_ok (diff_unset spec next st p).
Proof.
  intros Hok. unfold diff_unset. destruct (has_key p (dg_top next)); [done|]. cbv zeta.
  destruct (objectOf _ p) as [[o f]|] eqn:E.
  - apply objectOf_inv in E as [-> Ho]. split; cbn; [apply Hok|apply Hok|by apply map_set_NoDup, Hok|].
    intros o' c'. rewrite map_get_set. case_decide; [|apply Hok]. intros [= <-]. subst. split; [done|].
    cbn. by apply object_of_ok.
  - split; cbn; apply Hok.
Qed.

Lemma diff_set_at st path s p :
  set_at (diff_set spec prev next st (path, s)) p
  = (if decide (p = path /\ map_get path (dg_top prev) <> Some s) then Some (field (dg_topValues next) path)
     else set_at st p) /\
  (unset_at (diff_set spec prev next st (path, s)) p <-> unset_at st p).
Proof.
  unfold diff_set. case_bool_decide as Es; [rewrite decide_False; tauto|]. cbv zeta. unfold set_at, unset_at.
  destruct (objectOf _ path) as [[o f]|] eqn:E; cbn [ds_objects ds_set ds_unset ds_meaningful].
  - pose proof (objectOf_inv _ _ _ _ E) as [-> Ho].
    destruct (objectOf _ p) as [[o' f']|] eqn:E'; cbn.
    2: { rewrite decide_False; [done|]. intros [-> _]. congruence. }
    pose proof (objectOf_inv _ _ _ _ E') as [-> Ho']. rewrite !object_of_set.
    destruct (decide (o' = o)) as [->|Hne]; cbn.
    + rewrite map_get_set. destruct (decide (f' = f)) as [->|Hf]; [by rewrite decide_True|].
      rewrite decide_False; [done|]. intros [Ej _]. by apply Hf, (joined_inj o).
    + rewrite decide_False; [done|]. intros [Ej _]. rewrite Ej in E'. congruence.
  - destruct (objectOf _ p) as [[o' f']|] eqn:E'; cbn.
    { rewrite decide_False; [done|]. intros [-> _]. congruence. }
    rewrite map_get_set. destruct (decide (p = path)) as [->|Hne]; [by rewrite decide_True|].
    rewrite decide_False; [done|]. tauto.
Qed.

Lemma diff_unset_at st path p :
  set_at (diff_unset spec next st path) p = set_at st p /\
  (unset_at (diff_unset spec next st path) p <-> unset_at st p \/ p = path /\ map_get path (dg_top next) = None).
Proof.
  unfold diff_unset. destruct (has_key path (dg_top next)) eqn:Eh.
  { apply has_key_true in Eh as [s Hs]. split; [done|]. rewrite Hs. naive_solver. }
  apply has_key_false in Eh. cbv zeta. unfold set_at, unset_at.
  destruct (objectOf _ path) as [[o f]|] eqn:E; cbn [ds_objects ds_set ds_unset ds_meaningful].
  - pose proof (objectOf_inv _ _ _ _ E) as [-> Ho].
    destruct (objectOf _ p) as [[o' f']|] eqn:E'.
    2: { split; [done|]. split; [tauto|]. intros [?|[-> _]]; [done|congruence]. }
    pose proof (objectOf_inv _ _ _ _ E') as [-> Ho']. rewrite !object_of_set.
    destruct (decide (o' = o)) as [->|Hne]; cbn [oc_set oc_unset].
    + split; [done|]. rewrite push_elem. split; [intros [? | ->]; tauto|].
      intros [?|[Ej _]]; [tauto|]. right. by apply (joined_inj o).
    + split; [done|]. split; [tauto|]. intros [?|[Ej _]]; [done|]. rewrite Ej in E'. congruence.
  - destruct (objectOf _ p) as [[o' f']|] eqn:E'.
    { split; [done|]. split; [tauto|]. intros [?|[-> _]]; [done|congruence]. }
    cbn [ds_set ds_unset]. split; [done|]. rewrite push_elem. naive_solver.
Qed.

(** The whole of both loops. *)
Lemma diff_set_loop es st p :
  NoDup (map fst es) ->
  set_at (fold_left (diff_set spec prev next) es st) p
  = (match map_get p es with
     | Some s => if decide (map_get p (dg_top prev) = Some s) then set_at st p else Some (field (dg_topValues next) p)
     | None => set_at st p
     end) /\
  (unset_at (fold_left (diff_set spec prev next) es st) p <-> unset_at st p).
Proof.
  revert st. induction es as [|[k s] es IH]; intros st; [done|]. cbn [map fst].
  intros [Hk Hn]%NoDup_cons. cbn [fold_left map_get]. destruct (IH (diff_set spec prev next st (k, s)) Hn) as [-> ->].
  destruct (diff_set_at st k s p) as [-> ->]. split; [|done].
  destruct (decide (p = k)) as [->|Hne].
  - rewrite (proj2 (get_None k es) Hk). repeat case_decide; tauto || done.
  - rewrite (decide_False (P := p = k /\ _)) by tauto. done.
Qed.

Lemma diff_unset_loop ks st p :
  set_at (fold_left (diff_unset spec next) ks st) p = set_at st p /\
  (unset_at (fold_left (diff_unset spec next) ks st) p <-> unset_at st p \/ p ∈ ks /\ map_get p (dg_top next) = None).
Proof.
  revert st. induction ks as [|k ks IH]; intros st; cbn [fold_left].
  { split; [done|]. rewrite elem_of_nil. tauto. }
  destruct (IH (diff_unset spec next st k)) as [-> ->]. destruct (diff_unset_at st k p) as [-> ->].
  split; [done|]. rewrite elem_of_cons. naive_solver.
Qed.

Definition diff_start : DiffState := {| ds_set := None; ds_unset := None; ds_objects := []; ds_meaningful := false |}.

Definition diff_state : DiffState :=
  fold_left (diff_unset spec next) (map fst (dg_top prev)) (fold_left (diff_set spec prev next) (dg_top next) diff_start).

Lemma diff_start_at p : set_at diff_start p = None /\ ~ unset_at diff_start p.
Proof.
  unfold set_at, unset_at. cbn. destruct (objectOf _ p) as [[o f]|]; cbn; (split; [done|apply not_elem_of_nil]).
Qed.

Lemma diff_state_at p :
  NoDup (map fst (dg_top next)) ->
  set_at diff_state p
  = (match map_get p (dg_top next) with
     | Some s => if decide (map_get p (dg_top prev) = Some s) then None else Some (field (dg_topValues next) p)
     | None => None
     end) /\
  (unset_at diff_state p <-> is_Some (map_get p (dg_top prev)) /\ map_get p (dg_top next) = None).
Proof.
  intros Hn. unfold diff_state. destruct (diff_start_at p) as [Hs Hu].
  destruct (diff_unset_loop (map fst (dg_top prev)) (fold_left (diff_set spec prev next) (dg_top next) diff_start) p) as [-> ->].
  destruct (diff_set_loop (dg_top next) diff_start p Hn) as [-> ->]. rewrite Hs, get_In. split; [done|tauto].
Qed.

Lemma diff_state_ok : ds_ok diff_state.
Proof.
  unfold diff_state. generalize (map fst (dg_top prev)) (dg_top next). intros ks es.
  assert (Hs : ds_ok (fold_left (diff_set spec prev next) es diff_start)).
  { assert (H0 : ds_ok diff_start) by (split; cbn; [constructor|by intros k []|constructor|done]).
    revert H0. generalize diff_start. induction es as [|e es IH]; intros st H0; [done|]. cbn. by apply IH, diff_set_ok. }
  revert Hs. generalize (fold_left (diff_set spec prev next) es diff_start).
  induction ks as [|k ks IH]; intros st H0; [done|]. cbn. by apply IH, diff_unset_ok.
Qed.

(** Nothing meaningful: every difference is at a volatile path. *)
Lemma meaningless p :
  NoDup (map fst (dg_top next)) -> ds_meaningful diff_state = false ->
  map_get p (dg_top prev) <> map_get p (dg_top next) -> p ∈ dg_volatile next.
Proof.
  intros Hn Hm Hne. destruct (decide (p ∈ dg_volatile next)) as [|Hv]; [done|exfalso].
  assert (Hset : forall es st, ds_meaningful st = true -> ds_meaningful (fold_left (diff_set spec prev next) es st) = true).
  { induction es as [|[k s] es IH]; intros st Hst; [done|]. cbn. apply IH. unfold diff_set. case_bool_decide; [done|].
    cbv zeta. cbn. destruct (objectOf _ k) as [[o f]|]; cbn; by rewrite Hst. }
  assert (Hunset : forall ks st, ds_meaningful st = true -> ds_meaningful (fold_left (diff_unset spec next) ks st) = true).
  { induction ks as [|k ks IH]; intros st Hst; [done|]. cbn. apply IH. unfold diff_unset. destruct (has_key _ _); [done|].
    cbv zeta. cbn. destruct (objectOf _ k) as [[o f]|]; cbn; by rewrite Hst. }
  apply not_true_iff_false in Hm. apply Hm. unfold diff_state.
  destruct (map_get p (dg_top next)) as [s|] eqn:En.
  - apply Hunset. apply map_get_In, in_split in En as (l1 & l2 & ->). rewrite fold_left_app. cbn [fold_left].
    apply Hset. unfold diff_set at 1. rewrite bool_decide_eq_false_2 by done. cbv zeta.
    destruct (objectOf _ p) as [[o f]|]; cbn; rewrite bool_decide_eq_false_2 by done; apply orb_true_r.
  - destruct (map_get p (dg_top prev)) as [s|] eqn:Ep; [|done].
    assert (Hin : In p (map fst (dg_top prev))) by (apply list_elem_of_In, get_In; eauto).
    apply in_split in Hin as (l1 & l2 & ->). rewrite fold_left_app. cbn [fold_left].
    apply Hunset. unfold diff_unset at 1. replace (has_key p (dg_top next)) with false by (symmetry; by apply has_key_false).
    cbv zeta. destruct (objectOf _ p) as [[o f]|]; cbn; rewrite bool_decide_eq_false_2 by done; apply orb_true_r.
Qed.
End Diff.

(** ** Taking collections out and putting them back *)

Definition head_of (path : string) : string := (splitPath path).1.
Definition tail_of (path : string) : option string := (splitPath path).2.

Definition strip_val (t : option string) (v : option DVal) : option DVal :=
  match t, v with
  | None, _ => None
  | Some tl, Some (D_obj fs) => Some (D_obj (map_delete tl fs))
  | Some _, _ => v
  end.

Definition put_val (t : option string) (v : option DVal) (x : DVal) : DVal :=
  match t with
  | None => x
  | Some tl => D_obj (map_set tl x (match v with Some (D_obj fs) => fs | _ => [] end))
  end.

(** What is read at a path whose head holds [v]. *)
Definition read_val (t : option string) (v : option DVal) : DVal :=
  match t, v with
  | None, _ => nullish v D_undefined
  | Some tl, Some (D_obj fs) => field fs tl
  | Some _, _ => D_undefined
  end.

Lemma readPath_val D path : readPath D path = read_val (tail_of path) (map_get (head_of path) D).
Proof.
  unfold readPath, tail_of, head_of. destruct (splitPath path) as [h [t|]]; cbn; [|done].
  unfold field at 1. by destruct (map_get h D) as [[]|].
Qed.

Lemma strip_one_get D path k :
  map_get k (strip_one D path) = if decide (k = head_of path) then strip_val (tail_of path) (map_get k D) else map_get k D.
Proof.
  unfold strip_one, head_of, tail_of. destruct (splitPath path) as [h [t|]]; cbn [fst snd].
  - unfold field. destruct (map_get h D) as [v|] eqn:Eh; cbn.
    2: { case_decide; [subst; by rewrite Eh|done]. }
    destruct v as [| | | | | | |fs]; try (case_decide; [subst; by rewrite Eh|done]).
    destruct (has_key t fs) eqn:Et.
    + rewrite map_get_set. case_decide; [|done]. subst. by rewrite Eh.
    + case_decide; [|done]. subst. rewrite Eh. cbn. apply has_key_false in Et. by rewrite delete_absent.
  - rewrite get_delete. by case_decide.
Qed.

Definition with_head (k : string) (ps : list string) : option string :=
  List.find (fun p => bool_decide (head_of p = k)) ps.

Lemma with_head_Some k ps p : with_head k ps = Some p -> p ∈ ps /\ head_of p = k.
Proof. intros H. apply List.find_some in H as [H1 H2]. breflect. split; [by apply list_elem_of_In|done]. Qed.

Lemma with_head_None k ps p : with_head k ps = None -> p ∈ ps -> head_of p <> k.
Proof. intros H Hp. apply list_elem_of_In in Hp. pose proof (List.find_none _ _ H p Hp) as E. by apply bool_decide_eq_false in E. Qed.

Lemma with_head_of ps p : NoDup (map head_of ps) -> p ∈ ps -> with_head (head_of p) ps = Some p.
Proof.
  induction ps as [|q ps IH]; [by intros _ H%elem_of_nil|]. cbn [map]. intros [Hq Hn]%NoDup_cons Hp.
  unfold with_head in *. cbn. case_bool_decide as E.
  - apply elem_of_cons in Hp as [->|Hp]; [done|]. exfalso. apply Hq. rewrite E.
    apply list_elem_of_In, in_map. by apply list_elem_of_In.
  - apply elem_of_cons in Hp as [->|Hp]; [done|]. by apply IH.
Qed.

(** A pass that changes the document only at the heads of its paths. *)
Lemma heads_fold {E} (path_of : E -> string) (g : Row -> E -> Row) (val : E -> option DVal -> option DVal) es D k :
  (forall D e k, map_get k (g D e) = if decide (k = head_of (path_of e)) then val e (map_get k D) else map_get k D) ->
  NoDup (map (fun e => head_of (path_of e)) es) ->
  map_get k (fold_left g es D)
  = match List.find (fun e => bool_decide (head_of (path_of e) = k)) es with
    | Some e => val e (map_get k D)
    | None => map_get k D
    end.
Proof.
  intros Hg. revert D. induction es as [|e es IH]; intros D; [done|]. cbn [map fold_left List.find].
  intros [He Hn]%NoDup_cons. rewrite IH, Hg by done.
  case_bool_decide as Ek; [|rewrite decide_False by congruence; done].
  rewrite decide_True by done. destruct (List.find _ es) as [e'|] eqn:Ef; [|done].
  apply List.find_some in Ef as [Hin Hk]. breflect. exfalso. apply He. rewrite Ek, <- Hk.
  apply list_elem_of_In. by apply (in_map (fun e => head_of (path_of e))).
Qed.

Section Doc.
Context (spec : KeyedDocSpec).
Notation paths := (map fst (ks_collections spec)).
Hypothesis heads_NoDup : NoDup (map head_of paths).

Lemma strip_get D k :
  map_get k (stripCollections D spec)
  = match with_head k paths with Some p => strip_val (tail_of p) (map_get k D) | None => map_get k D end.
Proof.
  unfold stripCollections, with_head.
  apply (heads_fold (fun p => p) strip_one (fun p v => strip_val (tail_of p) v)); [|done].
  intros D' p k'. apply strip_one_get.
Qed.

(** A document without its collections. *)
Definition stripped (N : Row) : Prop :=
  forall p, p ∈ paths -> strip_val (tail_of p) (map_get (head_of p) N) = map_get (head_of p) N.

Lemma strip_stripped D : stripped (stripCollections D spec).
Proof.
  intros p Hp. rewrite strip_get, with_head_of by done. destruct (tail_of p) as [t|]; [|done].
  destruct (map_get (head_of p) D) as [[]|]; cbn; try done. f_equal. f_equal.
  apply delete_absent. rewrite get_delete. by rewrite decide_True.
Qed.

Lemma stripped_read N p : stripped N -> p ∈ paths -> read_val (tail_of p) (map_get (head_of p) N) = D_undefined.
Proof.
  intros HN Hp. specialize (HN p Hp). destruct (tail_of p) as [t|]; cbn in *; [|by rewrite <- HN].
  destruct (map_get (head_of p) N) as [[]|]; cbn in *; try done. injection HN as HN.
  unfold field. apply (f_equal (map_get t)) in HN. rewrite get_delete, decide_True in HN by done. by rewrite <- HN.
Qed.

(** The value at the head of a collection after the fold. *)
Definition one_val (held : Row) (delta : KeyedDocDelta) (e : string * string) (v : option DVal) : option DVal :=
  match map_get e.1 (nullish (kk_collections delta) []) with
  | Some change =>
      if kd_absent change then strip_val (tail_of e.1) v
      else Some (put_val (tail_of e.1) v (D_arr (map D_obj (foldCollection (readPath held e.1) change e.2))))
  | None => if bool_decide (readPath held e.1 = D_undefined) then v
            else Some (put_val (tail_of e.1) v (readPath held e.1))
  end.

Lemma put_path_get D path x k :
  map_get k (put_path D path x)
  = if decide (k = head_of path) then Some (put_val (tail_of path) (map_get k D) x) else map_get k D.
Proof.
  unfold put_path, head_of, tail_of. destruct (splitPath path) as [h [t|]]; cbn [fst snd]; rewrite map_get_set.
  - case_decide; [|done]. subst. cbn. unfold field. by destruct (map_get h D) as [[]|].
  - by case_decide.
Qed.

Lemma fold_one_get held delta D e k :
  map_get k (fold_one held delta D e)
  = if decide (k = head_of e.1) then one_val held delta e (map_get k D) else map_get k D.
Proof.
  destruct e as [path idF]. unfold fold_one, one_val. cbn [fst snd].
  destruct (map_get path _) as [change|].
  - destruct (kd_absent change); [apply strip_one_get|apply put_path_get].
  - case_bool_decide; [by case_decide|apply put_path_get].
Qed.

Lemma collections_get held delta N k :
  map_get k (fold_left (fold_one held delta) (ks_collections spec) N)
  = match List.find (fun e => bool_decide (head_of e.1 = k)) (ks_collections spec) with
    | Some e => one_val held delta e (map_get k N)
    | None => map_get k N
    end.
Proof.
  apply (heads_fold fst (fold_one held delta) (one_val held delta)).
  - intros D e k'. apply fold_one_get.
  - by rewrite <- (map_map fst head_of).
Qed.

Lemma find_collection e :
  e ∈ ks_collections spec -> List.find (fun e' => bool_decide (head_of e'.1 = head_of e.1)) (ks_collections spec) = Some e.
Proof.
  clear -heads_NoDup. revert heads_NoDup. induction (ks_collections spec) as [|e' es IH]; [by intros _ H%elem_of_nil|].
  cbn [map]. intros [Hh Hn]%NoDup_cons He. cbn. case_bool_decide as Eh.
  - apply elem_of_cons in He as [->|He]; [done|]. exfalso. apply Hh. rewrite Eh.
    apply list_elem_of_In, in_map, in_map. by apply list_elem_of_In.
  - apply elem_of_cons in He as [->|He]; [done|]. by apply IH.
Qed.

Lemma find_head k :
  (with_head k paths = None /\ List.find (fun e : string * string => bool_decide (head_of e.1 = k)) (ks_collections spec) = None)
  \/ exists e, e ∈ ks_collections spec /\ head_of e.1 = k /\ with_head k paths = Some e.1.
Proof.
  clear heads_NoDup. unfold with_head. induction (ks_collections spec) as [|e es IH]; [by left|]. cbn.
  case_bool_decide as E.
  - right. exists e. split_and!; [by left|done|done].
  - destruct IH as [?|(e' & He' & ? & ?)]; [by left|]. right. exists e'. split_and!; [by right|done|done].
Qed.
End Doc.
