(* ===== verification/KeyedTheorems.v ===== *)
(** * The dashboard's document equals the daemon's

    The theorems on keyed document deltas: a held document that shows the
    last delivered one still shows the next after folding their difference.
    The two specifications of the source satisfy what the theorems need. *)

From S2P Require Import Prelude KeyedDoc KeyedRows KeyedSync.

(** What the engine needs of a specification's paths. *)
Class SpecShape (spec : KeyedDocSpec) := {
  sh_dotfree : Forall (fun o => dotfree o = true) (ks_splitObjects spec);
  sh_heads : NoDup (map head_of (map fst (ks_collections spec)));
  sh_seen : forall p, p ∈ map fst (ks_collections spec) -> head_of p ∉ ks_ignore spec }.

Lemma head_dotfree p : dotfree (head_of p) = true.
Proof.
  unfold head_of, splitPath. destruct (split_at_dot p) as [h t] eqn:E. cbn.
  revert h t E. induction p as [|c p IH]; cbn -[decide dot]; intros h t E; [by injection E as <- _|].
  case_decide; [by injection E as <- _|]. destruct (split_at_dot p) as [h' t'] eqn:E'.
  injection E as <- _. cbn. rewrite bool_decide_eq_false_2 by done. by eapply IH.
Qed.

(** A loop that records an optional entry for every pair. *)
Lemma get_recorded {A} (g : string * string -> option A) es m k :
  NoDup (map fst es) ->
  map_get k (fold_left (fun m e => match g e with Some x => map_set e.1 x m | None => m end) es m)
  = match map_get k es ≫= (fun v => g (k, v)) with Some x => Some x | None => map_get k m end.
Proof.
  revert m. induction es as [|[p v] es IH]; intros m; [done|]. cbn [map fst]. intros [Hp Hn]%NoDup_cons.
  cbn [fold_left map_get]. rewrite IH by done. apply get_None in Hp.
  destruct (decide (k = p)) as [->|Hne].
  - rewrite Hp. cbn. destruct (g (p, v)) as [x|]; [|done]. by rewrite map_get_set, decide_True.
  - destruct (g (p, v)) as [x|]; [|done]. by rewrite map_get_set, decide_False.
Qed.

Section Follow.
Context (spec : KeyedDocSpec) `{!StableSpec spec, !SpecShape spec}.
Notation strip D := (stripCollections D spec).
Notation paths := (map fst (ks_collections spec)).
Implicit Types (D held doc prev next N : Row).

Lemma paths_NoDup : NoDup paths.
Proof. pose proof sh_heads as H. by apply NoDup_fmap_1 in H. Qed.

Lemma collection_get e : e ∈ ks_collections spec -> map_get e.1 (ks_collections spec) = Some e.2.
Proof. intros He. apply In_get; [apply paths_NoDup|]. apply list_elem_of_In. by destruct e. Qed.

Lemma collection_path e : e ∈ ks_collections spec -> e.1 ∈ paths.
Proof. intros He. apply list_elem_of_In, in_map. by apply list_elem_of_In. Qed.

Definition coll_digest doc (e : string * string) : option CollectionDigest :=
  match readPath doc e.1 with D_arr l => Some (digest_list spec e.1 e.2 l) | _ => None end.

Lemma digest_collections_get doc e :
  e ∈ ks_collections spec -> map_get e.1 (dg_collections (digestKeyedDoc doc spec)) = coll_digest doc e.
Proof.
  intros He. unfold digestKeyedDoc. destruct (digest_top spec (strip doc)) as [t tv]. cbn [dg_collections].
  unfold digest_collections.
  assert (E : fold_left (fun m e => match readPath doc e.1 with D_arr l => map_set e.1 (digest_list spec e.1 e.2 l) m | _ => m end)
            (ks_collections spec) []
          = fold_left (fun m e => match coll_digest doc e with Some x => map_set e.1 x m | None => m end) (ks_collections spec) []).
  { clear He. generalize (@nil (string * CollectionDigest)). induction (ks_collections spec) as [|e' es IH]; intros m; [done|].
    cbn. rewrite IH. unfold coll_digest. by destruct (readPath doc e'.1). }
  rewrite E, get_recorded by apply paths_NoDup. rewrite collection_get by done. cbn. destruct e as [p i]; cbn.
  by destruct (coll_digest doc (p, i)).
Qed.

(** ** Well-formed documents *)

Record doc_ok doc : Prop := {
  dc_top : top_ok spec (strip doc);
  dc_split : forall o, o ∈ ks_splitObjects spec -> exists fs, map_get o (strip doc) = Some (D_obj fs);
  dc_rows : forall e l fs, e ∈ ks_collections spec -> readPath doc e.1 = D_arr l -> In (D_obj fs) l -> clean fs }.

Definition sync_coll (e : string * string) (v : DVal) (cd : option CollectionDigest) : Prop :=
  match cd with
  | None => v = D_undefined
  | Some cd => (exists l, v = D_arr l /\ rows_sync (spec := spec) e.1 e.2 l cd) \/ v = D_undefined /\ cd = no_rows
  end.

(** [held] shows [doc]: the same signature at every path that is not
    ignored, and the same rows in the same order, up to stamps. *)
Record shows held doc : Prop := {
  sw_top_ok : top_ok spec (strip held);
  sw_split : forall o, o ∈ ks_splitObjects spec -> exists fs, map_get o (strip held) = Some (D_obj fs);
  sw_top : forall p, top_at spec (strip held) p = top_at spec (strip doc) p;
  sw_colls : forall e, e ∈ ks_collections spec -> sync_coll e (readPath held e.1) (coll_digest doc e) }.

Lemma coll_digest_ok doc e cd :
  doc_ok doc -> e ∈ ks_collections spec -> coll_digest doc e = Some cd -> cd_ok (spec := spec) e.1 e.2 cd.
Proof.
  intros Hd He. unfold coll_digest. destruct (readPath doc e.1) as [| | | | | |l|] eqn:Er; try done. intros [= <-].
  apply digest_list_ok. intros fs Hfs. by eapply (dc_rows doc Hd e l fs).
Qed.

(** ** Top-level fields after the fold *)

Section Step.
Context (held prev next : Row) (d : KeyedDocDelta).
Hypothesis Hshow : shows held prev.
Hypothesis Hprev : doc_ok prev.
Hypothesis Hnext : doc_ok next.
Notation dprev := (digestKeyedDoc prev spec).
Notation dnext := (digestKeyedDoc next spec).
Hypothesis Hdiff : diffKeyedDoc dprev dnext spec = Some d.
Notation st := (diff_state spec dprev dnext).

Lemma dg_top_get doc p : doc_ok doc -> map_get p (dg_top (digestKeyedDoc doc spec)) = top_at spec (strip doc) p.
Proof.
  intros Hd. destruct (digest_top_get spec sh_dotfree (strip doc) p (dc_top _ Hd)) as [E _].
  unfold digestKeyedDoc. by destruct (digest_top spec (strip doc)).
Qed.

Lemma dg_value_get doc p :
  doc_ok doc -> is_Some (top_at spec (strip doc) p) ->
  map_get p (dg_topValues (digestKeyedDoc doc spec)) = value_at spec (strip doc) p.
Proof.
  intros Hd Hs. destruct (digest_top_get spec sh_dotfree (strip doc) p (dc_top _ Hd)) as [_ E].
  unfold digestKeyedDoc. destruct (digest_top spec (strip doc)). by apply E.
Qed.

Lemma dg_top_NoDup doc : NoDup (map fst (dg_top (digestKeyedDoc doc spec))).
Proof.
  pose proof (digest_top_NoDup spec (strip doc)) as E. unfold digestKeyedDoc.
  by destruct (digest_top spec (strip doc)).
Qed.

(** The parts of the delta. *)
Lemma delta_parts :
  kk_set d = ds_set st /\ kk_unset d = ds_unset st /\ nullish (kk_objects d) [] = ds_objects st /\
  nullish (kk_collections d) [] = diff_collections spec dprev dnext.
Proof.
  unfold diffKeyedDoc in Hdiff. fold diff_start in Hdiff. fold (diff_state spec dprev dnext) in Hdiff.
  destruct (_ || _); [|done]. injection Hdiff as <-. cbn. split_and!; [done|done|..]; case_bool_decide as E; try done;
    apply map_eq_nil in E; by rewrite E.
Qed.

Lemma collection_delta e :
  e ∈ ks_collections spec ->
  map_get e.1 (nullish (kk_collections d) []) = diffCollection (coll_digest prev e) (coll_digest next e) e.2.
Proof.
  intros He. destruct delta_parts as (_ & _ & _ & ->). unfold diff_collections.
  rewrite (get_recorded (fun e => diffCollection (map_get e.1 (dg_collections dprev)) (map_get e.1 (dg_collections dnext)) e.2))
    by apply paths_NoDup.
  rewrite collection_get by done. cbn [mbind option_bind fst snd]. rewrite !digest_collections_get by done.
  by destruct (diffCollection _ _ _).
Qed.

(** Set and unset, by path. *)
Lemma state_at p :
  set_at spec st p
  = (match top_at spec (strip next) p with
     | Some s => if decide (top_at spec (strip held) p = Some s) then None else value_at spec (strip next) p
     | None => None
     end) /\
  (unset_at spec st p <-> is_Some (top_at spec (strip held) p) /\ top_at spec (strip next) p = None).
Proof.
  destruct (diff_state_at spec dprev dnext p (dg_top_NoDup next)) as [-> ->].
  rewrite !dg_top_get by done. rewrite (sw_top _ _ Hshow p). split; [|done].
  destruct (top_at spec (strip next) p) as [s|] eqn:Es; [|done]. case_decide; [done|].
  unfold field. rewrite dg_value_get by (done || by rewrite Es). unfold top_at in Es.
  case_bool_decide; [done|]. by destruct (value_at spec (strip next) p).
Qed.

Lemma split_dotfree o : o ∈ ks_splitObjects spec -> dotfree o = true.
Proof. pose proof sh_dotfree as H. rewrite Forall_forall in H. apply H. Qed.

(** A split object is read field by field, never as a whole. *)
Lemma split_not_top D o fs :
  o ∈ ks_splitObjects spec -> map_get o (strip D) = Some (D_obj fs) -> value_at spec (strip D) o = None.
Proof.
  intros Ho Hm. unfold value_at. rewrite objectOf_dotfree, Hm by by apply split_dotfree.
  by rewrite bool_decide_eq_true_2.
Qed.

Lemma split_untouched o : o ∈ ks_splitObjects spec -> set_at spec st o = None /\ ~ unset_at spec st o.
Proof.
  intros Ho. destruct (state_at o) as [-> ->].
  destruct (dc_split _ Hnext o Ho) as [fs Hfs]. destruct (sw_split _ _ Hshow o Ho) as [gs Hgs].
  unfold top_at. rewrite (split_not_top next o fs), (split_not_top held o gs) by done.
  case_bool_decide; cbn; (split; [done|by intros [[] _]]).
Qed.

(** The plain fields and split objects after the fold. *)
Definition folded_top : Row :=
  fold_left fold_object (ds_objects st)
    (assign (delete_keys (nullish (ds_unset st) []) (strip held)) (nullish (ds_set st) [])).

(** A value that is set, else unset, else kept. *)
Definition updated (s : option DVal) (U : Prop) (old new : option DVal) : Prop :=
  (forall v, s = Some v -> new = Some v) /\ (s = None -> U -> new = None) /\ (s = None -> ~ U -> new = old).

Lemma updated_lookup (unset : list string) (set old : Row) k :
  NoDup (map fst set) ->
  updated (map_get k set) (k ∈ unset) (map_get k old) (map_get k (assign (delete_keys unset old) set)).
Proof.
  intros Hn. unfold updated. rewrite get_assign, get_delete_keys by done.
  split_and!; [by intros v ->|intros -> Hu; by rewrite decide_True|intros -> Hu; by rewrite decide_False].
Qed.

Lemma fold_objects_get (objs : jsmap ObjectChange) D k :
  NoDup (map fst objs) ->
  map_get k (fold_left fold_object objs D)
  = match map_get k objs with
    | Some c => Some (D_obj (assign (delete_keys (nullish (oc_unset c) [])
                  (match map_get k D with Some (D_obj fs) => fs | _ => [] end)) (nullish (oc_set c) [])))
    | None => map_get k D
    end.
Proof.
  revert D. induction objs as [|[o c] objs IH]; intros D; [done|]. cbn [map fst]. intros [Ho Hn]%NoDup_cons.
  cbn [fold_left map_get]. rewrite IH by done. apply get_None in Ho. unfold fold_object. cbn [fst snd].
  rewrite map_get_set. destruct (decide (k = o)) as [->|Hne]; [|done]. rewrite Ho. unfold field.
  by destruct (map_get o D) as [[]|].
Qed.

Lemma folded_top_get k :
  k ∉ ks_splitObjects spec ->
  map_get k folded_top
  = map_get k (assign (delete_keys (nullish (ds_unset st) []) (strip held)) (nullish (ds_set st) [])).
Proof.
  intros Hk. pose proof (diff_state_ok spec dprev dnext) as Hok. unfold folded_top.
  rewrite fold_objects_get by apply Hok. destruct (map_get k (ds_objects st)) as [c|] eqn:E; [|done].
  by apply (dk_object _ _ Hok) in E as [? _].
Qed.

(** A split object keeps being one, and its fields are updated. *)
Lemma folded_split o :
  o ∈ ks_splitObjects spec -> exists hs gs, map_get o (strip held) = Some (D_obj hs) /\
    map_get o folded_top = Some (D_obj gs) /\ NoDup (map fst gs) /\
    forall f, updated (set_at spec st (joined o f)) (unset_at spec st (joined o f)) (map_get f hs) (map_get f gs).
Proof.
  intros Ho. pose proof (diff_state_ok spec dprev dnext) as Hok. destruct (sw_split _ _ Hshow o Ho) as [hs Hhs].
  assert (Hn : NoDup (map fst hs)) by (by eapply (to_split _ _ (sw_top_ok _ _ Hshow))).
  set (c := object_of (ds_objects st) o).
  exists hs, (assign (delete_keys (nullish (oc_unset c) []) hs) (nullish (oc_set c) [])).
  pose proof (split_dotfree o Ho) as Hdf. destruct (split_untouched o Ho) as [Hs Hu].
  assert (Hbase : map_get o (assign (delete_keys (nullish (ds_unset st) []) (strip held)) (nullish (ds_set st) [])) = Some (D_obj hs)).
  { unfold set_at, unset_at in Hs, Hu. rewrite objectOf_dotfree in Hs, Hu by done.
    destruct (updated_lookup (nullish (ds_unset st) []) _ (strip held) o (dk_set _ _ Hok)) as (_ & _ & E). by rewrite E. }
  split_and!; [done| |by apply assign_NoDup, delete_keys_NoDup|].
  - unfold folded_top. rewrite fold_objects_get by apply Hok. unfold c, object_of.
    destruct (map_get o (ds_objects st)) as [c'|]; cbn; by rewrite Hbase.
  - intros f. unfold set_at, unset_at. rewrite objectOf_joined by (done || apply sh_dotfree).
    apply updated_lookup. by apply (object_of_ok spec).
Qed.

(** Every path is updated as the delta says. *)
Lemma folded_value p :
  updated (set_at spec st p) (unset_at spec st p) (value_at spec (strip held) p) (value_at spec folded_top p).
Proof.
  pose proof (diff_state_ok spec dprev dnext) as Hok. destruct (objectOf (ks_splitObjects spec) p) as [[o f]|] eqn:E.
  - pose proof (objectOf_inv _ _ _ _ E) as [-> Ho]. destruct (folded_split o Ho) as (hs & gs & Hh & Hg & _ & Hup).
    unfold value_at. rewrite E, Hh, Hg. apply Hup.
  - destruct (decide (p ∈ ks_splitObjects spec)) as [Hp|Hp].
    + destruct (folded_split p Hp) as (hs & gs & Hh & Hg & _). destruct (split_untouched p Hp) as [-> Hu].
      unfold value_at. rewrite E, Hh, Hg, bool_decide_eq_true_2 by done. done.
    + assert (Hv : forall D, value_at spec D p = map_get p D).
      { intros D. unfold value_at. rewrite E. destruct (map_get p D) as [[]|]; try done. by rewrite bool_decide_eq_false_2. }
      rewrite !Hv, folded_top_get by done. unfold set_at, unset_at. rewrite E. apply updated_lookup, Hok.
Qed.

Lemma folded_shows p : top_at spec folded_top p = top_at spec (strip next) p.
Proof.
  destruct (folded_value p) as (U1 & U2 & U3). destruct (state_at p) as [Hs Hu].
  unfold top_at in *. case_bool_decide; [done|].
  destruct (value_at spec (strip next) p ≫= sig) as [s|] eqn:En.
  - case_decide as Eh.
    + rewrite U3; [done|done|]. rewrite Hu. by intros [_ ?].
    + destruct (value_at spec (strip next) p) as [v|]; [|done]. by rewrite (U1 v).
  - destruct (decide (is_Some (value_at spec (strip held) p ≫= sig))) as [Hh|Hh].
    + rewrite U2; [done|done|]. by apply Hu.
    + rewrite U3; [by apply eq_None_not_Some in Hh|done|]. rewrite Hu. tauto.
Qed.

(** ** The folded fields are a document without collections *)

Lemma keys_dotfree (N : Row) :
  (forall k v, map_get k N = Some v -> dotfree k = true) <-> Forall (fun k => dotfree k = true) (map fst N).
Proof.
  rewrite Forall_forall. split; intros Hk k; [rewrite <- get_In; intros [v Hv]; by eapply Hk|].
  intros v Hv. apply Hk, get_In. eauto.
Qed.

(** A path that is set exists in the next document. *)
Lemma set_from_next p v : set_at spec st p = Some v -> value_at spec (strip next) p = Some v.
Proof.
  destruct (state_at p) as [-> _]. destruct (top_at spec (strip next) p); [|done]. by case_decide.
Qed.

Lemma plain_value D p :
  objectOf (ks_splitObjects spec) p = None -> p ∉ ks_splitObjects spec -> value_at spec D p = map_get p D.
Proof.
  intros E Hp. unfold value_at. rewrite E. destruct (map_get p D) as [[]|]; try done. by rewrite bool_decide_eq_false_2.
Qed.

Lemma value_at_plain D p v :
  objectOf (ks_splitObjects spec) p = None -> value_at spec D p = Some v -> map_get p D = Some v.
Proof.
  intros E. unfold value_at. rewrite E. destruct (map_get p D) as [[]|]; try done. by case_bool_decide.
Qed.

Lemma folded_NoDup : NoDup (map fst folded_top).
Proof.
  unfold folded_top. generalize (ds_objects st).
  assert (H : NoDup (map fst (assign (delete_keys (nullish (ds_unset st) []) (strip held)) (nullish (ds_set st) []))))
    by apply assign_NoDup, delete_keys_NoDup, Hshow.
  revert H. generalize (assign (delete_keys (nullish (ds_unset st) []) (strip held)) (nullish (ds_set st) [])).
  intros D HD objs. revert D HD. induction objs as [|e objs IH]; intros D HD; [done|]. cbn. by apply IH, map_set_NoDup.
Qed.

Lemma folded_top_ok : top_ok spec folded_top.
Proof.
  pose proof (diff_state_ok spec dprev dnext) as Hok. split; [apply folded_NoDup| |].
  - apply keys_dotfree. intros k v Hk. destruct (decide (k ∈ ks_splitObjects spec)) as [Hs|Hs]; [by apply split_dotfree|].
    rewrite folded_top_get in Hk by done.
    destruct (updated_lookup (nullish (ds_unset st) []) _ (strip held) k (dk_set _ _ Hok)) as (U1 & U2 & U3).
    destruct (map_get k (nullish (ds_set st) [])) as [w|] eqn:Ew.
    + assert (Ho : objectOf (ks_splitObjects spec) k = None) by (apply (dk_plain _ _ Hok); eauto).
      assert (Hset : set_at spec st k = Some w) by (unfold set_at; by rewrite Ho).
      apply set_from_next, value_at_plain in Hset; [|done].
      by eapply (proj2 (keys_dotfree (strip next)) (to_dotfree _ _ (dc_top _ Hnext))).
    + destruct (decide (k ∈ nullish (ds_unset st) [])); [by rewrite U2 in Hk|]. rewrite U3 in Hk by done.
      by eapply (proj2 (keys_dotfree (strip held)) (to_dotfree _ _ (sw_top_ok _ _ Hshow))).
  - intros o fs Ho Hf. destruct (folded_split o Ho) as (_ & gs & _ & Hg & Hn & _). rewrite Hg in Hf. by injection Hf as <-.
Qed.

Lemma stripped_field N p t fs :
  stripped spec N -> p ∈ paths -> tail_of p = Some t -> map_get (head_of p) N = Some (D_obj fs) -> map_get t fs = None.
Proof.
  intros HN Hp Ht Hf. pose proof (stripped_read spec N p HN Hp) as Hr. specialize (HN p Hp).
  rewrite Ht, Hf in HN. cbn in HN. injection HN as HN. apply (f_equal (map_get t)) in HN.
  rewrite get_delete, decide_True in HN by done. done.
Qed.

Lemma folded_stripped : stripped spec folded_top.
Proof.
  intros p Hp. pose proof (strip_stripped spec sh_heads held) as HH. pose proof (strip_stripped spec sh_heads next) as HX.
  pose proof (head_dotfree p) as Hd. pose proof (objectOf_dotfree (ks_splitObjects spec) _ Hd) as Ho.
  destruct (decide (head_of p ∈ ks_splitObjects spec)) as [Hs|Hs].
  - destruct (folded_split _ Hs) as (hs & gs & Hh & Hg & _ & Hup). rewrite Hg.
    specialize (HH p Hp) as HHp. rewrite Hh in HHp. destruct (tail_of p) as [t|] eqn:Et; [|done]. cbn. f_equal. f_equal.
    apply delete_absent. destruct (Hup t) as (U1 & U2 & U3).
    assert (Hht : map_get t hs = None) by exact (stripped_field _ p t hs HH Hp Et Hh).
    destruct (set_at spec st (joined (head_of p) t)) as [v|] eqn:Es.
    + exfalso. apply set_from_next in Es. unfold value_at in Es. rewrite objectOf_joined in Es by (done || apply sh_dotfree).
      destruct (dc_split _ Hnext _ Hs) as [fs Hfs]. rewrite Hfs in Es.
      rewrite (stripped_field _ p t fs HX Hp Et Hfs) in Es. done.
    + destruct (decide (map_get t gs = None)) as [|Hne]; [done|]. exfalso. apply Hne.
      rewrite U3; [done|done|]. intros Hu. by apply Hne, U2.
  - pose proof (folded_value (head_of p)) as (U1 & U2 & U3). rewrite !plain_value in U1, U2, U3 by done.
    destruct (set_at spec st (head_of p)) as [v|] eqn:Es.
    + rewrite (U1 v) by done. apply set_from_next, value_at_plain in Es; [|done].
      specialize (HX p Hp). by rewrite Es in HX.
    + destruct (decide (map_get (head_of p) folded_top = None)) as [E|E].
      { rewrite E. by destruct (tail_of p). }
      rewrite (plain_value (strip held)) in U3 by done. rewrite U3; [by apply HH|done|]. intros Hu. by apply E, U2.
Qed.

(** ** The collections after the fold *)

(** Where the next document has a nested collection, its parent is there. *)
Lemma parent_record e t :
  e ∈ ks_collections spec -> is_Some (coll_digest next e) -> tail_of e.1 = Some t ->
  exists fs, map_get (head_of e.1) folded_top = Some (D_obj fs).
Proof.
  intros He [cd Hcd] Ht. pose proof (collection_path e He) as Hp.
  destruct (decide (head_of e.1 ∈ ks_splitObjects spec)) as [Hs|Hs].
  { destruct (folded_split _ Hs) as (_ & gs & _ & Hg & _). eauto. }
  pose proof (objectOf_dotfree (ks_splitObjects spec) _ (head_dotfree e.1)) as Ho.
  assert (Hx : exists fs, map_get (head_of e.1) (strip next) = Some (D_obj fs)).
  { unfold coll_digest in Hcd. rewrite readPath_val, Ht in Hcd. cbn in Hcd.
    rewrite strip_get, with_head_of, Ht by (done || apply sh_heads).
    destruct (map_get (head_of e.1) next) as [[]|]; cbn in *; try done. eauto. }
  destruct Hx as [fs Hfs]. pose proof (folded_shows (head_of e.1)) as E. unfold top_at in E.
  rewrite bool_decide_eq_false_2 in E by by apply sh_seen.
  rewrite !plain_value, Hfs in E by done. cbn in E.
  destruct (map_get (head_of e.1) folded_top) as [[]|]; cbn in E; try done. eauto.
Qed.

Definition folded_doc : Row := fold_left (fold_one held d) (ks_collections spec) folded_top.

Lemma folded_doc_eq : foldKeyedDoc held d spec = folded_doc.
Proof.
  destruct delta_parts as (E1 & E2 & E3 & _). unfold foldKeyedDoc, folded_doc, folded_top. by rewrite E1, E2, E3.
Qed.

(** A collection is only put back where the next document has one. *)
Lemma put_needs_next e :
  e ∈ ks_collections spec ->
  match map_get e.1 (nullish (kk_collections d) []) with
  | Some change => kd_absent change = false -> is_Some (coll_digest next e)
  | None => readPath held e.1 <> D_undefined -> is_Some (coll_digest next e)
  end.
Proof.
  intros He. rewrite collection_delta by done. pose proof (sw_colls _ _ Hshow e He) as Hc.
  destruct (coll_digest next e) as [cd|]; [by destruct (diffCollection _ _ _)|].
  cbn. destruct (coll_digest prev e); cbn; [done|]. by intros ?.
Qed.

Lemma head_restored e :
  e ∈ ks_collections spec ->
  strip_val (tail_of e.1) (one_val held d e (map_get (head_of e.1) folded_top)) = map_get (head_of e.1) folded_top.
Proof.
  intros He. pose proof (collection_path e He) as Hp. pose proof (folded_stripped e.1 Hp) as HN.
  assert (Hput : forall x, is_Some (coll_digest next e) ->
    strip_val (tail_of e.1) (Some (put_val (tail_of e.1) (map_get (head_of e.1) folded_top) x)) = map_get (head_of e.1) folded_top).
  { intros x Hx. destruct (tail_of e.1) as [t|] eqn:Et; [|done].
    destruct (parent_record e t He Hx Et) as [fs Hfs]. rewrite Hfs. cbn.
    by rewrite delete_set_absent by exact (stripped_field _ _ _ _ folded_stripped Hp Et Hfs). }
  pose proof (put_needs_next e He) as Hnd. unfold one_val.
  destruct (map_get e.1 _) as [change|].
  - destruct (kd_absent change); [by rewrite !HN|]. by apply Hput, Hnd.
  - case_bool_decide; [done|]. by apply Hput, Hnd.
Qed.

Lemma folded_doc_stripped k : map_get k (strip folded_doc) = map_get k folded_top.
Proof.
  rewrite strip_get by apply sh_heads. unfold folded_doc. rewrite collections_get by apply sh_heads.
  destruct (find_head spec k) as [[-> ->]|(e & He & <- & ->)]; [done|].
  rewrite find_collection by (done || apply sh_heads). by apply head_restored.
Qed.

Lemma folded_doc_read e :
  e ∈ ks_collections spec ->
  readPath folded_doc e.1 = read_val (tail_of e.1) (one_val held d e (map_get (head_of e.1) folded_top)).
Proof.
  intros He. rewrite readPath_val. unfold folded_doc. rewrite collections_get by apply sh_heads.
  by rewrite find_collection by (done || apply sh_heads).
Qed.

Lemma read_put t v x : read_val t (Some (put_val t v x)) = x.
Proof. destruct t as [t|]; cbn; [|done]. unfold field. by rewrite map_get_set, decide_True. Qed.

Lemma folded_doc_colls e :
  e ∈ ks_collections spec -> sync_coll e (readPath folded_doc e.1) (coll_digest next e).
Proof.
  intros He. pose proof (collection_path e He) as Hp. rewrite folded_doc_read by done.
  pose proof (stripped_read spec folded_top e.1 folded_stripped Hp) as Hnone.
  pose proof (sw_colls _ _ Hshow e He) as Hc. unfold one_val. rewrite collection_delta by done.
  assert (Hin : (e.1, e.2) ∈ ks_collections spec) by (by destruct e).
  destruct (coll_digest next e) as [cn|] eqn:En.
  2: { destruct (coll_digest prev e) as [cp|]; cbn.
       - by rewrite (folded_stripped e.1 Hp).
       - cbn in Hc. by rewrite bool_decide_eq_true_2. }
  pose proof (coll_digest_ok next e cn Hnext He En) as Hcn.
  (** the previous rows, an absent collection counting as empty *)
  assert (Hrows : exists cp l, diffCollection (coll_digest prev e) (Some cn) e.2 = diffCollection (Some cp) (Some cn) e.2 /\
            cd_ok (spec := spec) e.1 e.2 cp /\ rows_sync (spec := spec) e.1 e.2 l cp /\
            (readPath held e.1 = D_arr l \/ readPath held e.1 = D_undefined /\ l = [] /\ cp = no_rows)).
  { assert (Hempty : rows_sync (spec := spec) e.1 e.2 [] no_rows) by (exists []; split_and!; [done|done|by intros ? ? []]).
    destruct (coll_digest prev e) as [cp|] eqn:Ep.
    - destruct Hc as [(l & Hl & Hsync)|[Hu ->]].
      + exists cp, l. split_and!; [done|by eapply (coll_digest_ok prev)|done|by left].
      + exists no_rows, []. split_and!; [done|apply no_rows_ok|done|by right].
    - exists no_rows, []. split_and!; [done|apply no_rows_ok|done|by right]. }
  destruct Hrows as (cp & l & -> & Hcp & Hl & Hheld).
  pose proof (diffCollection_spec e.2 cp cn) as Hd.
  destruct (diffCollection (Some cp) (Some cn) e.2) as [change|].
  - rewrite (do_absent _ _ _ _ Hd), read_put. left. eexists. split; [done|].
    replace (foldCollection (readPath held e.1) change e.2) with (foldCollection (D_arr l) change e.2)
      by (unfold foldCollection; by destruct Hheld as [->|(-> & -> & _)]).
    by apply (fold_rows e.1 e.2 Hin cp cn).
  - assert (Hkeep : rows_sync (spec := spec) e.1 e.2 l cn) by by apply (keep_rows e.1 e.2 Hin cp cn).
    destruct Hheld as [Hh|(Hh & -> & ->)]; rewrite Hh.
    + rewrite bool_decide_eq_false_2, read_put by done. left. by exists l.
    + rewrite bool_decide_eq_true_2, Hnone by done. right. split; [done|].
      pose proof (do_order _ _ _ _ Hd) as Ho. cbn in Ho. destruct cn as [rs os]. cbn in Ho. subst os.
      pose proof (co_order _ _ _ Hcn) as E. cbn in E. symmetry in E. apply map_eq_nil in E. by rewrite E.
Qed.

Lemma value_at_ext D D' p : (forall k, map_get k D = map_get k D') -> value_at spec D p = value_at spec D' p.
Proof. intros E. unfold value_at. destruct (objectOf _ p) as [[o f]|]; by rewrite E. Qed.

Lemma strip_NoDup D : NoDup (map fst D) -> NoDup (map fst (strip D)).
Proof.
  unfold stripCollections. generalize paths. intros ps. revert D. induction ps as [|p ps IH]; intros D Hn; [done|].
  cbn. apply IH. unfold strip_one. destruct (splitPath p) as [h [t|]]; [|by apply delete_NoDup].
  destruct (field D h); try done. destruct (has_key t fs); [by apply map_set_NoDup|done].
Qed.

Lemma folded_doc_NoDup : NoDup (map fst folded_doc).
Proof.
  unfold folded_doc. generalize folded_NoDup. generalize folded_top. generalize (ks_collections spec).
  intros cs. induction cs as [|e cs IH]; intros N HN; [done|]. cbn. apply IH. destruct e as [path idF]. unfold fold_one.
  assert (Hput : forall x, NoDup (map fst (put_path N path x))).
  { intros x. unfold put_path. destruct (splitPath path) as [h [t|]]; by apply map_set_NoDup. }
  destruct (map_get path _) as [change|]; [destruct (kd_absent change); [|done]|by case_bool_decide].
  unfold strip_one. destruct (splitPath path) as [h [t|]]; [|by apply delete_NoDup].
  destruct (field N h); try done. destruct (has_key t fs); [by apply map_set_NoDup|done].
Qed.

(** One step of following. *)
Lemma fold_shows : shows (foldKeyedDoc held d spec) next.
Proof.
  rewrite folded_doc_eq. pose proof folded_doc_stripped as E. pose proof folded_top_ok as [Hn Hd Hs]. split.
  - split.
    + apply strip_NoDup, folded_doc_NoDup.
    + apply keys_dotfree. intros k v. rewrite E. by apply keys_dotfree.
    + intros o fs Ho. rewrite E. by apply Hs.
  - intros o Ho. rewrite E. destruct (folded_split o Ho) as (_ & gs & _ & Hg & _). eauto.
  - intros p. unfold top_at. rewrite (value_at_ext _ _ p E). apply folded_shows.
  - apply folded_doc_colls.
Qed.
End Step.

(** ** Subscriptions *)

(** What the dashboard holds, and the document the daemon's baseline is the
    digest of: one build of a document, delivered to a subscription with a
    baseline ([deliverKeyed] of topic-registry.ts) and folded on arrival. *)
Definition deliver (s : Row * Row) next : Row * Row :=
  match diffKeyedDoc (digestKeyedDoc s.2 spec) (digestKeyedDoc next spec) spec with
  | Some d => (foldKeyedDoc s.1 d spec, next)
  | None => s
  end.

(** A first snapshot: collections are absent or lists of rows with distinct,
    non-empty ids. *)
Record snapshot_ok doc : Prop := {
  sn_doc : doc_ok doc;
  sn_lists : forall e, e ∈ ks_collections spec ->
    readPath doc e.1 = D_undefined \/ exists l, readPath doc e.1 = D_arr l /\ list_ok e.2 l }.

(** The held document is the given one up to volatile fields. *)
Definition agrees held doc : Prop :=
  (forall p, p ∉ ks_volatileTopLevel spec -> top_at spec (strip held) p = top_at spec (strip doc) p) /\
  forall e, e ∈ ks_collections spec -> sync_coll e (readPath held e.1) (coll_digest doc e).

Lemma snapshot_shows doc : snapshot_ok doc -> shows doc doc.
Proof.
  intros [[Ht Hs Hr] Hl]. split; [done|done|done|]. intros e He. unfold coll_digest.
  destruct (Hl e He) as [->|(l & -> & Hok)]; [done|]. left. exists l. split; [done|].
  by apply (digest_shows e.1 e.2).
Qed.

Lemma null_delta_agrees held prev next :
  shows held prev -> doc_ok prev -> doc_ok next ->
  diffKeyedDoc (digestKeyedDoc prev spec) (digestKeyedDoc next spec) spec = None -> agrees held next.
Proof.
  intros Hshow Hprev Hnext Hdiff. unfold diffKeyedDoc in Hdiff. fold diff_start in Hdiff.
  fold (diff_state spec (digestKeyedDoc prev spec) (digestKeyedDoc next spec)) in Hdiff.
  destruct (_ || _) eqn:E; [done|]. apply orb_false_iff in E as [Em Ec].
  apply negb_false_iff, bool_decide_eq_true, map_eq_nil in Ec. split.
  - intros p Hp. rewrite (sw_top _ _ Hshow p), <- !dg_top_get by done.
    destruct (decide (map_get p (dg_top (digestKeyedDoc prev spec)) = map_get p (dg_top (digestKeyedDoc next spec))))
      as [|Hne]; [done|]. exfalso. apply Hp.
    pose proof (meaningless spec _ _ p (dg_top_NoDup next) Em Hne) as Hv. unfold digestKeyedDoc in Hv.
    by destruct (digest_top spec (strip next)).
  - intros e He. pose proof (sw_colls _ _ Hshow e He) as Hc.
    assert (Hd : diffCollection (coll_digest prev e) (coll_digest next e) e.2 = None).
    { apply (f_equal (map_get e.1)) in Ec. unfold diff_collections in Ec.
      rewrite (get_recorded (fun e => diffCollection (map_get e.1 (dg_collections (digestKeyedDoc prev spec)))
                 (map_get e.1 (dg_collections (digestKeyedDoc next spec))) e.2)) in Ec by apply paths_NoDup.
      rewrite collection_get in Ec by done. cbn [mbind option_bind fst snd] in Ec.
      rewrite !digest_collections_get in Ec by done. by destruct (diffCollection _ _ _). }
    assert (Hin : (e.1, e.2) ∈ ks_collections spec) by (by destruct e).
    destruct (coll_digest next e) as [cn|] eqn:En; [|cbn in Hd; by destruct (coll_digest prev e)].
    pose proof (coll_digest_ok next e cn Hnext He En) as Hcn.
    assert (Hempty : forall cp, cp = no_rows -> diffCollection (Some cp) (Some cn) e.2 = None -> cn = no_rows).
    { intros cp -> Hn. pose proof (diffCollection_spec e.2 no_rows cn) as H. rewrite Hn in H.
      pose proof (do_order _ _ _ _ H) as Ho. cbn in Ho. destruct cn as [rs os]. cbn in Ho. subst os.
      pose proof (co_order _ _ _ Hcn) as E'. cbn in E'. symmetry in E'. apply map_eq_nil in E'. by rewrite E'. }
    destruct (coll_digest prev e) as [cp|] eqn:Ep.
    + destruct Hc as [(l & Hl & Hsync)|[Hu ->]].
      * left. exists l. split; [done|]. pose proof (diffCollection_spec e.2 cp cn) as H. rewrite Hd in H.
        apply (keep_rows e.1 e.2 Hin cp cn); [by eapply (coll_digest_ok prev)|done|done|done].
      * right. split; [done|]. by eapply Hempty.
    + right. split; [done|]. apply (Hempty no_rows); [done|exact Hd].
Qed.

Lemma shows_agrees held doc : shows held doc -> agrees held doc.
Proof. intros [_ _ Ht Hc]. by split. Qed.

Lemma deliver_shows s next :
  shows s.1 s.2 -> doc_ok s.2 -> doc_ok next ->
  shows (deliver s next).1 (deliver s next).2 /\ doc_ok (deliver s next).2 /\ agrees (deliver s next).1 next.
Proof.
  intros Hs Hp Hn. unfold deliver. destruct (diffKeyedDoc _ _ _) as [d|] eqn:E; cbn.
  - assert (shows (foldKeyedDoc s.1 d spec) next) by (by eapply fold_shows). split_and!; [done|done|by apply shows_agrees].
  - split_and!; [done|done|]. by eapply null_delta_agrees.
Qed.

(** Over any sequence of documents after a snapshot, in all of which
    split objects are records and rows have no undefined field, the dashboard's
    folded document agrees with the latest one: the same JSON at every top
    path that is not ignored or volatile, split objects field by field, and
    in every collection the same rows in the same order, up to the stamps the
    specification drops (an absent collection may stand for an empty one). *)
Theorem fold_follows (snapshot : Row) (docs : list Row) (latest : Row) :
  snapshot_ok snapshot -> Forall doc_ok docs -> doc_ok latest ->
  agrees (fold_left deliver (docs ++ [latest]) (snapshot, snapshot)).1 latest.
Proof.
  intros Hsn Hdocs Hl. rewrite fold_left_app. cbn [fold_left].
  enough (H : shows (fold_left deliver docs (snapshot, snapshot)).1 (fold_left deliver docs (snapshot, snapshot)).2 /\
              doc_ok (fold_left deliver docs (snapshot, snapshot)).2) by (destruct H; by apply deliver_shows).
  assert (H0 : shows (snapshot, snapshot).1 (snapshot, snapshot).2 /\ doc_ok (snapshot, snapshot).2)
    by (split; [by apply snapshot_shows|apply Hsn]).
  revert H0. generalize (snapshot, snapshot). induction Hdocs as [|n docs Hn _ IH]; intros s [Hs Hp]; [done|].
  cbn [fold_left]. apply IH. destruct (deliver_shows s n Hs Hp Hn) as (? & ? & _). done.
Qed.
End Follow.

(** ** The two documents *)

(** A stable view that only drops a row's build stamp. *)
#[export] Instance daemon_metadata_stable : StableSpec DAEMON_METADATA_DOC_SPEC.
Proof.
  assert (E : forall row, ks_stableRow DAEMON_METADATA_DOC_SPEC "" row = map_delete "lastUpdated" row).
  { intros row. cbn -[has_key]. destruct (has_key "lastUpdated" row) eqn:H; [done|].
    by rewrite delete_absent by by apply has_key_false. }
  refine {| ss_keep _ k := negb (bool_decide (k = "lastUpdated")); ss_view _ _ v := v |}.
  - intros c row k _. change (ks_stableRow _ c row) with (ks_stableRow DAEMON_METADATA_DOC_SPEC "" row).
    rewrite E, get_delete. repeat case_decide || case_bool_decide; try done. by destruct (map_get k row).
  - intros c row Hn. change (ks_stableRow _ c row) with (ks_stableRow DAEMON_METADATA_DOC_SPEC "" row).
    rewrite E. by apply delete_NoDup.
  - done.
  - intros c idF Hin. cbn in Hin. apply list_elem_of_singleton in Hin. by injection Hin as -> ->.
Defined.

#[export] Instance daemon_metadata_shape : SpecShape DAEMON_METADATA_DOC_SPEC.
Proof.
  split.
  - by repeat constructor.
  - apply (bool_decide_unpack _). vm_compute. exact I.
  - intros p Hp. cbn in Hp. apply list_elem_of_singleton in Hp as ->. apply (bool_decide_unpack _). vm_compute. exact I.
Qed.

Lemma get_update_field k key f (fs : Row) :
  map_get k (update_field key f fs) = if decide (k = key) then f <$> map_get k fs else map_get k fs.
Proof.
  unfold update_field. destruct (map_get key fs) as [v|] eqn:E; rewrite ?map_get_set; case_decide; subst; by rewrite ?E.
Qed.

Lemma update_field_NoDup key f (fs : Row) : NoDup (map fst fs) -> NoDup (map fst (update_field key f fs)).
Proof. unfold update_field. destruct (map_get key fs); [|done]. by apply map_set_NoDup. Qed.

(** The stamps a node row loses, and the view of its other fields. *)
Definition node_stamps : list string := ["lastSeenAt"; "updatedAt"; "last_seen_at"; "updated_at"].

Definition node_view (k : string) (v : DVal) : DVal :=
  if decide (k = "dataFreshness") then without v ["ageMs"; "lastProbeAt"; "staleness"]
  else if decide (k = "connection") then without v ["lastStateChangeAt"]
  else if decide (k = "git") then drop_empty_submodules (without v ["lastCheckedAt"])
  else if decide (k = "nodeFacts") then without v ["reportedAt"]
  else if decide (k = "gitObservation") then stable_observation v
  else v.

Lemma node_fieldwise row k :
  map_get k (stableMeshNodeRow row) = if bool_decide (k ∈ node_stamps) then None else node_view k <$> map_get k row.
Proof.
  unfold stableMeshNodeRow. rewrite !get_update_field, get_delete_keys. fold node_stamps.
  unfold node_view. case_bool_decide as Hs.
  - rewrite (decide_True (P := k ∈ node_stamps)) by done. by repeat case_decide.
  - rewrite (decide_False (P := k ∈ node_stamps)) by done. repeat case_decide; subst; try discriminate; try done. by destruct (map_get k row).
Qed.

Lemma node_view_defined k v : sig v <> None -> sig (node_view k v) <> None.
Proof.
  assert (Hw : forall ks w, sig w <> None -> sig (without w ks) <> None) by (by intros ks []).
  assert (Hd : forall w, sig w <> None -> sig (drop_empty_submodules w) <> None).
  { intros []; try done. intros _. cbn -[field]. by destruct (field fs "submodules") as [| | | | | |[]|]. }
  intros Hv. unfold node_view. repeat case_decide; auto.
  destruct v; try done. unfold stable_observation. by destruct (_ || _); [apply Hw|].
Qed.

#[export] Instance mesh_status_stable : StableSpec MESH_STATUS_DOC_SPEC.
Proof.
  refine {| ss_keep c k := negb (bool_decide (c = "nodes") && bool_decide (k ∈ node_stamps));
            ss_view c k v := if decide (c = "nodes") then node_view k v else v |}.
  - intros c row k _. unfold MESH_STATUS_DOC_SPEC, ks_stableRow. destruct (decide (c = "nodes")) as [Hc|Hc].
    + rewrite !(bool_decide_eq_true_2 _ Hc), node_fieldwise. by case_bool_decide.
    + rewrite !(bool_decide_eq_false_2 _ Hc). cbn. by destruct (map_get k row).
  - intros c row Hn. unfold MESH_STATUS_DOC_SPEC, ks_stableRow. case_bool_decide; [|done].
    unfold stableMeshNodeRow. by repeat apply update_field_NoDup; apply delete_keys_NoDup.
  - intros c k v Hv. case_decide; [by apply node_view_defined|done].
  - intros c idF Hin. cbn in Hin. repeat (apply elem_of_cons in Hin as [Hin|Hin]; [by injection Hin as -> ->|]).
    by apply elem_of_nil in Hin.
Defined.

#[export] Instance mesh_status_shape : SpecShape MESH_STATUS_DOC_SPEC.
Proof.
  split.
  - constructor.
  - apply (bool_decide_unpack _). vm_compute. exact I.
  - intros p _. apply not_elem_of_nil.
Qed.

(** Well-formedness of concrete documents, decided. *)
Definition clean_b (fs : Row) : bool := bool_decide (NoDup (map fst fs)) && forallb (fun e => present (sig e.2)) fs.

Lemma clean_b_ok fs : clean_b fs = true -> clean fs.
Proof.
  unfold clean_b. intros [Hn Hs]%andb_true_iff. apply bool_decide_eq_true in Hn. split; [done|].
  intros k v Hk%map_get_In. rewrite forallb_forall in Hs. specialize (Hs (k, v) Hk). cbn in Hs. by destruct (sig v).
Qed.

Definition rows_of (doc : Row) (e : string * string) : list DVal := as_list (readPath doc e.1).

Definition row_clean_b (v : DVal) : bool := match v with D_obj fs => clean_b fs | _ => true end.

Definition doc_ok_b (spec : KeyedDocSpec) (doc : Row) : bool :=
  let s := stripCollections doc spec in
  bool_decide (NoDup (map fst s)) && forallb dotfree (map fst s) &&
  forallb (fun o => match map_get o s with Some (D_obj fs) => bool_decide (NoDup (map fst fs)) | _ => false end) (ks_splitObjects spec) &&
  forallb (fun e => forallb row_clean_b (rows_of doc e)) (ks_collections spec).

Lemma doc_ok_b_ok spec doc : doc_ok_b spec doc = true -> doc_ok spec doc.
Proof.
  unfold doc_ok_b. cbv zeta. rewrite !andb_true_iff, !forallb_forall. intros [[[Hn Hd] Hs] Hc].
  apply bool_decide_eq_true in Hn. split.
  - split; [done| |].
    + apply Forall_forall. intros k Hk. by apply Hd, list_elem_of_In.
    + intros o fs Ho Hf. specialize (Hs o). rewrite Hf in Hs. by eapply bool_decide_eq_true_1, Hs, list_elem_of_In.
  - intros o Ho%list_elem_of_In. specialize (Hs o Ho). destruct (map_get o _) as [[]|]; try done. eauto.
  - intros e l fs He Hr Hin. apply list_elem_of_In in He. specialize (Hc e He). unfold rows_of in Hc. rewrite Hr in Hc.
    rewrite forallb_forall in Hc. by apply clean_b_ok, (Hc (D_obj fs)).
Qed.

Definition list_ok_b (idF : string) (l : list DVal) : bool :=
  let rows := omap (row_id idF) l in
  bool_decide (l = map (fun e : string * Row => D_obj e.2) rows) && bool_decide (NoDup (map fst rows)) &&
  forallb (fun e => negb (bool_decide (e.1 = EmptyString)) && clean_b e.2 && bool_decide (map_get idF e.2 = Some (D_str e.1))) rows.

Lemma list_ok_b_ok idF l : list_ok_b idF l = true -> list_ok idF l.
Proof.
  unfold list_ok_b. cbv zeta. rewrite !andb_true_iff, forallb_forall. intros [[El Hn] Hr].
  apply bool_decide_eq_true in El, Hn. exists (omap (row_id idF) l). split_and!; [done|done|].
  intros id fs Hin. specialize (Hr _ Hin). cbn in Hr. rewrite !andb_true_iff in Hr. destruct Hr as [[Hid Hc] Hi].
  apply negb_true_iff, bool_decide_eq_false in Hid. apply bool_decide_eq_true in Hi. split_and!; [done|by apply clean_b_ok|done].
Qed.

Definition snapshot_ok_b (spec : KeyedDocSpec) (doc : Row) : bool :=
  doc_ok_b spec doc && forallb (fun e => match readPath doc e.1 with
    | D_undefined => true | D_arr l => list_ok_b e.2 l | _ => false end) (ks_collections spec).

Lemma snapshot_ok_b_ok spec doc : snapshot_ok_b spec doc = true -> snapshot_ok spec doc.
Proof.
  unfold snapshot_ok_b. rewrite andb_true_iff, forallb_forall. intros [Hd Hl]. split; [by apply doc_ok_b_ok|].
  intros e He%list_elem_of_In. specialize (Hl e He). destruct (readPath doc e.1); try done; [by left|].
  right. eexists. split; [done|]. by apply list_ok_b_ok.
Qed.

(** A session that gains a field, and one that appears. *)
Definition metadata_doc (sessions : list DVal) (version : Z) : Row :=
  [("daemonId", D_str "d"); ("version", D_num version);
   ("status", D_obj [("host", D_str "h"); ("timestamp", D_num version); ("sessions", D_arr sessions)])].

Definition session (id state : string) (stamp : Z) : DVal :=
  D_obj [("id", D_str id); ("state", D_str state); ("lastUpdated", D_num stamp)].

Definition doc_first : Row := metadata_doc [session "a" "idle" 1] 1.
Definition doc_second : Row := metadata_doc [session "b" "idle" 2; session "a" "busy" 2] 1.
Definition doc_third : Row := metadata_doc [session "b" "idle" 3] 2.

Lemma fold_follows_witness :
  agrees DAEMON_METADATA_DOC_SPEC
    (fold_left (deliver DAEMON_METADATA_DOC_SPEC) ([doc_second] ++ [doc_third]) (doc_first, doc_first)).1 doc_third.
Proof.
  apply (fold_follows DAEMON_METADATA_DOC_SPEC doc_first [doc_second] doc_third).
  - apply snapshot_ok_b_ok. vm_compute. reflexivity.
  - constructor; [|constructor]. apply doc_ok_b_ok. vm_compute. reflexivity.
  - apply doc_ok_b_ok. vm_compute. reflexivity.
Defined.
