(* ===== verification/KeyedSilence.v ===== *)
(** * When a keyed document sends nothing

    The exact condition under which [diffKeyedDoc] yields no delta, and the
    changes the deltas lose. *)

From S2P Require Import Prelude KeyedDoc KeyedRows KeyedSync.

(** ** Collections *)

Definition held_order (c : option CollectionDigest) : list string :=
  match c with Some c => cd_order c | None => [] end.

Definition held_digests (c : option CollectionDigest) : jsmap RowDigest :=
  match c with Some c => cd_rows c | None => [] end.

(** A row whose difference carries nothing. *)
Definition quiet_row (idField : string) (p n : RowDigest) : Prop :=
  rd_sig p = rd_sig n \/ changed_fields idField p n = [] /\ gone_fields p n = [].

(** The same ids in the same order, every row quiet. *)
Definition quiet (idField : string) (prev next : option CollectionDigest) : Prop :=
  match next with
  | None => prev = None
  | Some n => held_order prev = cd_order n /\
      forall id rn, In (id, rn) (cd_rows n) ->
        exists rp, map_get id (held_digests prev) = Some rp /\ quiet_row idField rp rn
  end.

(** The order lists each digested row once. *)
Definition ordered (c : CollectionDigest) : Prop :=
  cd_order c = map fst (cd_rows c) /\ NoDup (map fst (cd_rows c)).

Lemma digest_row_ordered spec path idF c row : ordered c -> ordered (digest_row spec path idF c row).
Proof.
  intros [Ho Hn]. unfold digest_row. destruct row as [| | | | | | |fs]; try done.
  destruct (field fs idF) as [| | | | |id| |]; try done.
  destruct (_ || _) eqn:E; [done|]. apply orb_false_iff in E as [_ E%has_key_false].
  split; cbn; [|by apply map_set_NoDup]. by rewrite set_absent_keys, Ho.
Qed.

Lemma digest_list_ordered spec path idF l : ordered (digest_list spec path idF l).
Proof.
  unfold digest_list.
  assert (H : ordered {| cd_rows := []; cd_order := [] |}) by (by split; [|constructor]).
  revert H. generalize {| cd_rows := []; cd_order := [] |}.
  induction l as [|row l IH]; intros c Hc; [done|]. cbn. by apply IH, digest_row_ordered.
Qed.

Lemma digest_collections_ordered spec doc path c :
  map_get path (dg_collections (digestKeyedDoc doc spec)) = Some c -> ordered c.
Proof.
  unfold digestKeyedDoc. destruct (digest_top spec _) as [t tv]. cbn [dg_collections]. unfold digest_collections.
  assert (H : forall c, In (path, c) [] -> ordered c) by done. intros E%map_get_In. revert H E.
  generalize (@nil (string * CollectionDigest)). induction (ks_collections spec) as [|e es IH]; intros m Hm; [by apply Hm|].
  cbn. apply IH. intros c'. destruct (readPath doc e.1); try apply Hm.
  intros [[= _ ->]|Hin]%map_set_In; [apply digest_list_ordered|by apply Hm].
Qed.

Lemma quiet_rows_fold idF prevRows es d :
  (forall id rn, In (id, rn) es -> exists rp, map_get id prevRows = Some rp /\ quiet_row idF rp rn) ->
  fold_left (diff_row idF prevRows) es d = d.
Proof.
  intros H. induction es as [|[id rn] es IH]; [done|]. cbn [fold_left].
  destruct (H id rn (or_introl eq_refl)) as (rp & Hp & Hq). unfold diff_row at 2. rewrite Hp.
  assert (IH' : fold_left (diff_row idF prevRows) es d = d) by (apply IH; intros; apply H; by right).
  case_bool_decide; [done|]. destruct Hq as [|[-> ->]]; done.
Qed.

(** No row is reported removed when every id is still there. *)
Lemma nothing_removed (next : CollectionDigest) ks d :
  (forall k, In k ks -> is_Some (map_get k (cd_rows next))) ->
  fold_left (fun d id => if has_key id (cd_rows next) then d
             else {| d with kd_removed := push_to (kd_removed d) id |}) ks d = d.
Proof.
  intros H. induction ks as [|k ks IH]; [done|]. cbn [fold_left].
  rewrite (proj2 (has_key_true k (cd_rows next)) (H k (or_introl eq_refl))). apply IH. intros; apply H. by right.
Qed.

Lemma omap_nil {A B} (f : A -> option B) l x : omap f l = [] -> In x l -> f x = None.
Proof.
  intros E Hin. apply list_elem_of_In in Hin. destruct (f x) as [y|] eqn:Ef; [|done].
  assert (Hy : y ∈ omap f l) by (apply list_elem_of_omap; eauto). rewrite E in Hy. by apply elem_of_nil in Hy.
Qed.

Lemma assign_nonempty {A} (m es : jsmap A) : m <> [] -> assign m es <> [].
Proof.
  unfold assign. revert m. induction es as [|e es IH]; intros m Hm; [done|]. cbn. apply IH.
  destruct m as [|[k v] m]; [done|]. cbn. by case_decide.
Qed.

Lemma quiet_from_delta idF prev next : delta_of idF prev next no_change -> quiet idF (Some prev) (Some next).
Proof.
  intros [Hu Hf _ Ho _]. split; [by symmetry|]. intros id rn Hin. cbn in Hu, Hf |- *.
  pose proof (omap_nil _ _ _ (eq_sym Hu) Hin) as Eu.
  assert (En : omap (tagged_unset (cd_rows prev)) (cd_rows next) = []).
  { destruct (omap (tagged_unset (cd_rows prev)) (cd_rows next)) as [|[k g] es]; [done|]. symmetry in Hf. by apply (assign_nonempty (map_set k g [])) in Hf. }
  pose proof (omap_nil _ _ _ En Hin) as Eg. unfold tagged_unset, row_unset, row_upsert in *. cbn [fst snd] in *.
  destruct (map_get id (cd_rows prev)) as [rp|]; [|done]. exists rp. split; [done|]. unfold quiet_row.
  repeat case_bool_decide; try done; auto.
Qed.

Lemma diffCollection_quiet idF prev next :
  (forall c, prev = Some c -> ordered c) -> (forall c, next = Some c -> ordered c) ->
  diffCollection prev next idF = None <-> quiet idF prev next.
Proof.
  intros Hp Hn. destruct next as [next|]; [|by destruct prev].
  destruct (Hn next eq_refl) as [En _]. split.
  - intros E. destruct prev as [prev|].
    + apply quiet_from_delta. pose proof (diffCollection_spec idF prev next) as H. by rewrite E in H.
    + apply (quiet_from_delta idF no_rows). pose proof (diffCollection_spec idF no_rows next) as H.
      change (diffCollection (Some no_rows) (Some next) idF) with (diffCollection None (Some next) idF) in H. by rewrite E in H.
  - intros [Ho Hr]. unfold diffCollection. fold (held_digests prev) (held_order prev). cbv zeta.
    rewrite quiet_rows_fold by done. rewrite nothing_removed; [by rewrite bool_decide_eq_true_2|].
    intros k Hk%list_elem_of_In. apply get_In. rewrite <- En, <- Ho. destruct prev as [prev|]; [|done].
    cbn. by rewrite (proj1 (Hp prev eq_refl)).
Qed.

(** ** Top-level fields *)

Section Top.
Context (spec : KeyedDocSpec) (prev next : KeyedDocDigest).
Hypothesis top_nodup : NoDup (map fst (dg_top next)).
Hypothesis only_volatile : forall p, p ∉ dg_volatile next -> map_get p (dg_top prev) = map_get p (dg_top next).

Lemma set_silent es st :
  (forall e, In e es -> In e (dg_top next)) -> ds_meaningful st = false ->
  ds_meaningful (fold_left (diff_set spec prev next) es st) = false.
Proof.
  revert st. induction es as [|[p s] es IH]; intros st Hes Hm; [done|]. cbn [fold_left].
  apply IH; [intros; apply Hes; by right|]. unfold diff_set. case_bool_decide as Hs; [done|]. cbv zeta.
  assert (Hv : p ∈ dg_volatile next).
  { destruct (decide (p ∈ dg_volatile next)) as [|Hv]; [done|]. exfalso. apply Hs. rewrite only_volatile by done.
    apply In_get; [done|]. apply Hes. by left. }
  destruct (objectOf _ p) as [[o f]|]; cbn; by rewrite Hm, bool_decide_eq_true_2.
Qed.

Lemma unset_silent ks st :
  (forall k, In k ks -> is_Some (map_get k (dg_top prev))) -> ds_meaningful st = false ->
  ds_meaningful (fold_left (diff_unset spec next) ks st) = false.
Proof.
  revert st. induction ks as [|p ks IH]; intros st Hks Hm; [done|]. cbn [fold_left].
  apply IH; [intros; apply Hks; by right|]. unfold diff_unset. destruct (has_key p (dg_top next)) eqn:Ek; [done|]. cbv zeta.
  assert (Hv : p ∈ dg_volatile next).
  { destruct (decide (p ∈ dg_volatile next)) as [|Hv]; [done|]. exfalso. apply has_key_false in Ek.
    destruct (Hks p (or_introl eq_refl)) as [s Hs]. rewrite only_volatile in Hs by done. congruence. }
  destruct (objectOf _ p) as [[o f]|]; cbn; by rewrite Hm, bool_decide_eq_true_2.
Qed.

Lemma state_silent : ds_meaningful (diff_state spec prev next) = false.
Proof.
  unfold diff_state. apply unset_silent; [intros k Hk; by apply get_In, list_elem_of_In|]. by apply set_silent.
Qed.
End Top.

Lemma recorded_none {A} (g : string * string -> option A) es :
  fold_left (fun m e => match g e with Some x => map_set e.1 x m | None => m end) es [] = [] <->
  forall e, e ∈ es -> g e = None.
Proof.
  assert (Hne : forall es (m : jsmap A), m <> [] ->
    fold_left (fun m e => match g e with Some x => map_set e.1 x m | None => m end) es m <> []).
  { induction es0 as [|e es0 IH]; intros m Hm; [done|]. cbn. apply IH. destruct (g e); [|done].
    destruct m as [|[k v] m]; [done|]. cbn. by case_decide. }
  split.
  - induction es as [|e es IH]; [by intros _ e He%elem_of_nil|]. cbn. destruct (g e) as [x|] eqn:E.
    + intros H. by apply Hne in H.
    + intros H e' [->|He]%elem_of_cons; [done|]. by apply IH.
  - induction es as [|e es IH]; intros H; [done|]. cbn. rewrite (H e) by apply list_elem_of_here.
    apply IH. intros e' He. apply H. by right.
Qed.

Lemma digest_volatile doc spec : dg_volatile (digestKeyedDoc doc spec) = ks_volatileTopLevel spec.
Proof. unfold digestKeyedDoc. by destruct (digest_top spec _). Qed.

Lemma digest_top_nodup doc spec : NoDup (map fst (dg_top (digestKeyedDoc doc spec))).
Proof.
  pose proof (digest_top_NoDup spec (stripCollections doc spec)) as E. unfold digestKeyedDoc.
  by destruct (digest_top spec _).
Qed.

(** ** The theorems *)


(** A document with one status object, and with one session row. *)
Definition status_doc (status : DVal) : Row := [("status", status)].

Definition sessions_doc (sessions : list DVal) : Row := status_doc (D_obj [("sessions", D_arr sessions)]).

(** Three changes the deltas lose.  A row field that becomes undefined
    while its key stays is neither sent nor unset, although the row's JSON
    changed.  A split object that becomes null is folded to an empty object.
    A collection that appears empty is not sent at all. *)
Theorem fold_gaps :
  (let prev := sessions_doc [D_obj [("id", D_str "s"); ("title", D_num 1)]] in
   let next := sessions_doc [D_obj [("id", D_str "s"); ("title", D_undefined)]] in
   sig (D_obj prev) <> sig (D_obj next) /\
   diffKeyedDoc (digestKeyedDoc prev DAEMON_METADATA_DOC_SPEC) (digestKeyedDoc next DAEMON_METADATA_DOC_SPEC)
     DAEMON_METADATA_DOC_SPEC = None) /\
  (let prev := status_doc (D_obj [("host", D_str "h")]) in
   let next := status_doc D_null in
   (fun delta => foldKeyedDoc prev delta DAEMON_METADATA_DOC_SPEC) <$>
     diffKeyedDoc (digestKeyedDoc prev DAEMON_METADATA_DOC_SPEC) (digestKeyedDoc next DAEMON_METADATA_DOC_SPEC)
       DAEMON_METADATA_DOC_SPEC
   = Some (status_doc (D_obj []))) /\
  (let prev := status_doc (D_obj []) in
   diffKeyedDoc (digestKeyedDoc prev DAEMON_METADATA_DOC_SPEC) (digestKeyedDoc (sessions_doc []) DAEMON_METADATA_DOC_SPEC)
     DAEMON_METADATA_DOC_SPEC = None).
Proof. split_and!; [split; [vm_compute; discriminate|]| |]; vm_compute; reflexivity. Qed.
