(* ===== verification/TopicRegistry.v ===== *)
(** * The topic registry

    The subscriptions of [packages/daemon-core/src/subscriptions/topic-registry.ts]
    and its keyed engines: which connections subscribed to which push topic, the
    frames each subscription is sent when a document is built, and the builds of
    mesh status documents.

    The transport is a parameter: sending a frame changes it in any way and says
    whether the frame was delivered.  It does not call the registry back.  The
    subscriptions to [workspace.git] and the engines of [machine.runtime] and
    [session_host.diagnostics] are not part of the model; the storage of their
    subscriptions is. *)

From S2P Require Import Prelude KeyedDoc.

#[local] Open Scope string_scope.
#[local] Open Scope Z_scope.

Definition DASHBOARD_WIRE_VERSION : Z := 2.

(** ** Frames *)

(** A keyed delta on the wire; [df_owner] is its daemon or mesh id. *)
Record DeltaFrame : Type := {
  df_topic : string; df_key : string; df_owner : string; df_delta : KeyedDocDelta; df_seq : Z; df_timestamp : Z }.

(** A frame is a keyed delta or any other envelope. *)
Inductive Frame : Type := F_plain (fields : Row) | F_delta (frame : DeltaFrame).

(** ** Subscriptions *)

Inductive PushTopic : Set := machine_runtime | session_host_diagnostics | daemon_metadata | mesh_status.
#[global] Instance PushTopic_eq_dec : EqDecision PushTopic.
Proof. solve_decision. Defined.

Definition PUSH_TOPICS : list PushTopic := [machine_runtime; session_host_diagnostics; daemon_metadata; mesh_status].

Definition spell_topic (t : PushTopic) : string :=
  match t with
  | machine_runtime => "machine.runtime"
  | session_host_diagnostics => "session_host.diagnostics"
  | daemon_metadata => "daemon.metadata"
  | mesh_status => "mesh.status"
  end.

Definition isPushTopic (topic : DVal) : option PushTopic :=
  List.find (fun t => bool_decide (topic = D_str (spell_topic t))) PUSH_TOPICS.

(** A subscription; a signature is the JSON value it denotes, absent for none. *)
Record PushTopicEntry : Type := {
  pe_connectionId : string; pe_key : string; pe_params : Row;
  pe_seq : Z; pe_lastSentAt : Z; pe_lastFlushedAt : Z;
  pe_lastDeliveredSignature : option DVal; pe_keyedBaseline : option KeyedDocDigest }.

Definition new_entry (connectionId key : string) (params : Row) : PushTopicEntry := {|
  pe_connectionId := connectionId; pe_key := key; pe_params := params;
  pe_seq := 0; pe_lastSentAt := 0; pe_lastFlushedAt := 0;
  pe_lastDeliveredSignature := None; pe_keyedBaseline := None |}.

(** By topic, connection and key, in insertion order. *)
Notation Subscriptions := (jsmap (jsmap (jsmap PushTopicEntry))).

Definition by_connection (topic : PushTopic) (push : Subscriptions) : jsmap (jsmap PushTopicEntry) :=
  nullish (map_get (spell_topic topic) push) [].

Definition find_entry (topic : PushTopic) (connectionId key : string) (push : Subscriptions) : option PushTopicEntry :=
  map_get connectionId (by_connection topic push) ≫= map_get key.

(** Store an entry under its connection and key. *)
Definition put_entry (topic : PushTopic) (entry : PushTopicEntry) (push : Subscriptions) : Subscriptions :=
  let byConn := by_connection topic push in
  let subs := nullish (map_get (pe_connectionId entry) byConn) [] in
  map_set (spell_topic topic) (map_set (pe_connectionId entry) (map_set (pe_key entry) entry subs) byConn) push.

Definition trimmed (v : DVal) : string := match v with D_str s => js_trim s | _ => "" end.

(** The parameters a subscription is stored with; a mesh needs an id. *)
Definition subscription_params (topic : PushTopic) (request : Row) : option Row :=
  let params := match field request "params" with D_obj ps => ps | _ => [] end in
  match topic with
  | mesh_status =>
      let meshId := trimmed (field params "meshId") in
      if bool_decide (meshId = "") then None else Some (map_set "meshId" (D_str meshId) params)
  | _ => Some params
  end.

(** The answer to a page that speaks another version. *)
Definition mismatch_frame (request : Row) (nowMs : Z) : Frame := F_plain [
  ("topic", field request "topic"); ("key", field request "key"); ("mode", D_str "protocol_mismatch");
  ("daemonWireVersion", D_num DASHBOARD_WIRE_VERSION);
  ("pageWireVersion", match field request "wireVersion" with D_num v => D_num v | D_nonfinite => D_nonfinite | _ => D_null end);
  ("seq", D_num 0); ("timestamp", D_num nowMs)].

Section Sink.
Context {Net : Type} (send : string -> string -> Frame -> Net -> Net * bool).
Context (isDeliverable isAlive : string -> bool).

(** [subscribe], of a topic that is not [workspace.git]. *)
Definition subscribe (nowMs : Z) (connectionId : string) (request : Row) (push : Subscriptions) (net : Net)
    : Subscriptions * Net * bool :=
  match field request "key" with
  | D_str key =>
      if bool_decide (key = "") then (push, net, false)
      else if negb (bool_decide (field request "wireVersion" = D_num DASHBOARD_WIRE_VERSION)) then
        let topic := match field request "topic" with D_str t => t | _ => "" end in
        (push, (send connectionId topic (mismatch_frame request nowMs) net).1, false)
      else match isPushTopic (field request "topic") with
           | None => (push, net, false)
           | Some topic =>
               match subscription_params topic request with
               | None => (push, net, false)
               | Some params => (put_entry topic (new_entry connectionId key params) push, net, true)
               end
           end
  | _ => (push, net, false)
  end.

Definition unsubscribe (connectionId key : string) (topic : PushTopic) (push : Subscriptions) : Subscriptions :=
  match map_get (spell_topic topic) push with
  | None => push
  | Some byConn =>
      match map_get connectionId byConn with
      | None => push
      | Some subs =>
          let subs := map_delete key subs in
          map_set (spell_topic topic)
            (if bool_decide (length subs = 0%nat) then map_delete connectionId byConn else map_set connectionId subs byConn) push
      end
  end.

Definition dropConnection (connectionId : string) (push : Subscriptions) : Subscriptions :=
  map (fun e => (e.1, map_delete connectionId e.2)) push.

Definition hasSubscriptions (topic : PushTopic) (connectionId : option string) (push : Subscriptions) : bool :=
  let byConn := by_connection topic push in
  match connectionId with
  | Some c => if bool_decide (c = "") then existsb (fun e => (0 <? length e.2)%nat) byConn
              else (0 <? length (nullish (map_get c byConn) []))%nat
  | None => existsb (fun e => (0 <? length e.2)%nat) byConn
  end.

(** The least stamp of the subscribers of a topic. *)
Definition oldest (stamp : PushTopicEntry -> Z) (topic : PushTopic) (push : Subscriptions) : option Z :=
  fold_left (fun acc e => match acc with
                          | None => Some (stamp e)
                          | Some o => if stamp e <? o then Some (stamp e) else acc
                          end)
    (flat_map (fun c => map snd c.2) (by_connection topic push)) None.

Definition oldestLastSentAt := oldest pe_lastSentAt.
Definition oldestLastFlushedAt := oldest pe_lastFlushedAt.

(** The entries of a flush pass; connections that are gone are dropped. *)
Definition collect_one (connectionId key : option string) (acc : Subscriptions * list PushTopicEntry)
    (e : string * jsmap PushTopicEntry) : Subscriptions * list PushTopicEntry :=
  let '(push, entries) := acc in
  let '(connId, subs) := e in
  if truthy_str connectionId && negb (bool_decide (connectionId = Some connId)) then acc
  else if negb (isAlive connId) then (dropConnection connId push, entries)
  else if negb (isDeliverable connId) then acc
  else (push, entries ++ List.filter (fun entry => match key with Some k => bool_decide (pe_key entry = k) | None => true end)
                           (map snd subs))%list.

Definition collectPushEntries (topic : PushTopic) (connectionId key : option string) (push : Subscriptions)
    : Subscriptions * list PushTopicEntry :=
  fold_left (collect_one connectionId key) (by_connection topic push) (push, []).

(** ** Keyed delivery *)

(** How a lane writes its frames. *)
Record LaneFrames : Type := {
  lf_snapshot : Z -> Z -> Frame;
  lf_delta : KeyedDocDelta -> Z -> Z -> Frame }.

(** The frame a subscription is due, if any. *)
Definition keyed_update (entry : PushTopicEntry) (digest : KeyedDocDigest) (spec : KeyedDocSpec) (frame : LaneFrames)
    (nowMs : Z) : option Frame :=
  match pe_keyedBaseline entry with
  | None => Some (lf_snapshot frame (pe_seq entry + 1) nowMs)
  | Some baseline =>
      match diffKeyedDoc baseline digest spec with
      | Some delta => Some (lf_delta frame delta (pe_seq entry + 1) nowMs)
      | None => None
      end
  end.

(** The entry after a frame was handed to the transport. *)
Definition after_send (entry : PushTopicEntry) (digest : KeyedDocDigest) (nowMs : Z) (delivered : bool) : PushTopicEntry :=
  {| entry with pe_lastFlushedAt := nowMs; pe_seq := pe_seq entry + 1; pe_lastSentAt := nowMs;
                pe_keyedBaseline := if delivered then Some digest else None |}.

Definition deliverKeyed (nowMs : Z) (entry : PushTopicEntry) (topic : PushTopic) (digest : KeyedDocDigest)
    (spec : KeyedDocSpec) (frame : LaneFrames) (net : Net) : PushTopicEntry * Net :=
  match keyed_update entry digest spec frame nowMs with
  | None => ({| entry with pe_lastFlushedAt := nowMs |}, net)
  | Some update =>
      let '(net, delivered) := send (pe_connectionId entry) (spell_topic topic) update net in
      (after_send entry digest nowMs delivered, net)
  end.

(** ** Daemon metadata *)

Definition daemon_id_of (body : Row) : string := match field body "daemonId" with D_str s => s | _ => "" end.

Definition metadata_frames (key : string) (body : Row) : LaneFrames := {|
  lf_snapshot := fun seq timestamp =>
    F_plain (assign (assign [("topic", D_str "daemon.metadata"); ("key", D_str key); ("mode", D_str "snapshot");
                             ("wireVersion", D_num DASHBOARD_WIRE_VERSION)] body)
                    [("seq", D_num seq); ("timestamp", D_num timestamp)]);
  lf_delta := fun delta seq timestamp =>
    F_delta {| df_topic := "daemon.metadata"; df_key := key; df_owner := daemon_id_of body; df_delta := delta;
               df_seq := seq; df_timestamp := timestamp |} |}.

(** The bodies and digests built in a pass. *)
Record PassCache : Type := { pc_bodies : list (bool * Row); pc_cohorts : jsmap (Row * KeyedDocDigest) }.

(** A projection of the body for a connection, with the name it is shared by. *)
Record DaemonMetadataScope : Type := { sc_key : string; sc_project : Row -> Row }.

Section Metadata.
Context (source : bool -> Row) (metadataScope : string -> option DaemonMetadataScope).

Definition body_for (includeSessions : bool) (cache : PassCache) : Row * PassCache :=
  match List.find (fun e => Bool.eqb e.1 includeSessions) (pc_bodies cache) with
  | Some e => (e.2, cache)
  | None => let full := source includeSessions in
            (full, {| cache with pc_bodies := (pc_bodies cache ++ [(includeSessions, full)])%list |})
  end.

Definition cohort_key (includeSessions : bool) (scope : option DaemonMetadataScope) : string :=
  (if includeSessions then "1" else "0") ++ "|" ++ nullish (sc_key <$> scope) "".

Definition cohortFor (includeSessions : bool) (scope : option DaemonMetadataScope) (cache : PassCache)
    : (Row * KeyedDocDigest) * PassCache :=
  let cohortKey := cohort_key includeSessions scope in
  match map_get cohortKey (pc_cohorts cache) with
  | Some built => (built, cache)
  | None =>
      let '(full, cache) := body_for includeSessions cache in
      let body := match scope with Some s => sc_project s full | None => full end in
      let built := (body, digestKeyedDoc body DAEMON_METADATA_DOC_SPEC) in
      (built, {| cache with pc_cohorts := map_set cohortKey built (pc_cohorts cache) |})
  end.

Definition includes_sessions (entry : PushTopicEntry) : bool :=
  bool_decide (field (pe_params entry) "includeSessions" = D_bool true).

Definition flush_metadata_entry (nowMs : Z) (acc : Subscriptions * Net * PassCache) (entry : PushTopicEntry)
    : Subscriptions * Net * PassCache :=
  let '(push, net, cache) := acc in
  let '((body, digest), cache) := cohortFor (includes_sessions entry) (metadataScope (pe_connectionId entry)) cache in
  let '(entry, net) := deliverKeyed nowMs entry daemon_metadata digest DAEMON_METADATA_DOC_SPEC
                         (metadata_frames (pe_key entry) body) net in
  (put_entry daemon_metadata entry push, net, cache).

Definition flushDaemonMetadata (nowMs : Z) (connectionId key : option string) (push : Subscriptions) (net : Net)
    : Subscriptions * Net * PassCache :=
  let '(push, entries) := collectPushEntries daemon_metadata connectionId key push in
  fold_left (flush_metadata_entry nowMs) entries (push, net, {| pc_bodies := []; pc_cohorts := [] |}).
End Metadata.

(** ** Mesh status *)

Definition mesh_frames (key meshId : string) (status : Row) : LaneFrames := {|
  lf_snapshot := fun seq timestamp =>
    F_plain [("topic", D_str "mesh.status"); ("key", D_str key); ("mode", D_str "snapshot");
             ("wireVersion", D_num DASHBOARD_WIRE_VERSION); ("meshId", D_str meshId); ("status", D_obj status);
             ("seq", D_num seq); ("timestamp", D_num timestamp)];
  lf_delta := fun delta seq timestamp =>
    F_delta {| df_topic := "mesh.status"; df_key := key; df_owner := meshId; df_delta := delta;
               df_seq := seq; df_timestamp := timestamp |} |}.

Definition deliverMeshStatus (nowMs : Z) (entry : PushTopicEntry) (meshId : string) (status : Row)
    (digest : KeyedDocDigest) (net : Net) : PushTopicEntry * Net :=
  deliverKeyed nowMs entry mesh_status digest MESH_STATUS_DOC_SPEC (mesh_frames (pe_key entry) meshId status) net.

Definition mesh_of (entry : PushTopicEntry) : DVal := field (pe_params entry) "meshId".

(** The subscribers of a mesh are served from one build. *)
Definition serve_build (nowMs : Z) (meshId : string) (status : Row) (push : Subscriptions) (net : Net) : Subscriptions * Net :=
  let digest := digestKeyedDoc status MESH_STATUS_DOC_SPEC in
  let '(push, entries) := collectPushEntries mesh_status None None push in
  fold_left (fun '(push, net) entry =>
    if bool_decide (mesh_of entry = D_str meshId) then
      let '(entry, net) := deliverMeshStatus nowMs entry meshId status digest net in (put_entry mesh_status entry push, net)
    else (push, net)) entries (push, net).
End Sink.

Definition meshStatusMeshIds (push : Subscriptions) : list string :=
  remove_dups (flat_map (fun c => omap (fun e => match mesh_of e.2 with D_str s => Some s | _ => None end) c.2)
                 (by_connection mesh_status push)).

(** ** Builds of mesh status documents

    A run builds the document of a mesh until no request arrived during a build.
    [Mp_returned]: the run is over and still registered, until the callback that
    removes it runs. *)

Inductive MeshPhase : Set := Mp_building | Mp_returned.

Record MeshFlush : Set := { mf_inflight : gmap string MeshPhase; mf_again : gset string }.

Definition no_builds : MeshFlush := {| mf_inflight := ∅; mf_again := ∅ |}.

(** A request for a mesh; true when it starts a build. *)
Definition flushOneMesh (meshId : string) (m : MeshFlush) : MeshFlush * bool :=
  match mf_inflight m !! meshId with
  | Some _ => ({| m with mf_again := {[meshId]} ∪ mf_again m |}, false)
  | None => ({| mf_inflight := <[meshId := Mp_building]> (mf_inflight m); mf_again := mf_again m ∖ {[meshId]} |}, true)
  end.

(** A build ended, with a document or without; true when another starts. *)
Definition build_ended (meshId : string) (built : bool) (m : MeshFlush) : MeshFlush * bool :=
  if built && bool_decide (meshId ∈ mf_again m)
  then ({| m with mf_again := mf_again m ∖ {[meshId]} |}, true)
  else ({| m with mf_inflight := <[meshId := Mp_returned]> (mf_inflight m) |}, false).

(** The callback of a run that is over. *)
Definition run_settled (meshId : string) (m : MeshFlush) : MeshFlush :=
  {| m with mf_inflight := delete meshId (mf_inflight m) |}.
