(* ===== verification/TopicFlush.v ===== *)
(** * Flush passes

    The subscribers of a pass share the documents built in it; the pass serves
    them as if each had its own, and so never sends a connection more than its
    scope projects.  Requests for a mesh status during its build. *)

From S2P Require Import Prelude KeyedDoc KeyedRows KeyedTheorems TopicRegistry.

#[local] Open Scope string_scope.
#[local] Open Scope Z_scope.

Section Shared.
Context {Net : Type} (send : string -> string -> Frame -> Net -> Net * bool).
Context (isDeliverable isAlive : string -> bool).
Context (source : bool -> Row) (metadataScope : string -> option DaemonMetadataScope).

(** A connection's own view of the body. *)
Definition own_body (includeSessions : bool) (connectionId : string) : Row :=
  match metadataScope connectionId with Some s => sc_project s (source includeSessions) | None => source includeSessions end.

(** A pass that builds a body for every subscriber. *)
Definition flush_own (nowMs : Z) (acc : Subscriptions * Net) (entry : PushTopicEntry) : Subscriptions * Net :=
  let '(push, net) := acc in
  let body := own_body (includes_sessions entry) (pe_connectionId entry) in
  let '(entry, net) := deliverKeyed send nowMs entry daemon_metadata (digestKeyedDoc body DAEMON_METADATA_DOC_SPEC)
                         DAEMON_METADATA_DOC_SPEC (metadata_frames (pe_key entry) body) net in
  (put_entry daemon_metadata entry push, net).

Definition flush_each (nowMs : Z) (connectionId key : option string) (push : Subscriptions) (net : Net) : Subscriptions * Net :=
  let '(push, entries) := collectPushEntries isDeliverable isAlive daemon_metadata connectionId key push in
  fold_left (flush_own nowMs) entries (push, net).

(** A scope's key names its projection. *)
Definition scopes_named : Prop :=
  forall c s, metadataScope c = Some s -> sc_key s <> ""
    /\ forall c' s', metadataScope c' = Some s' -> sc_key s = sc_key s' -> forall b, sc_project s b = sc_project s' b.

Record cache_ok (cache : PassCache) : Prop := {
  ck_nodup : NoDup (map fst (pc_bodies cache));
  ck_bodies : forall inc b, (inc, b) ∈ pc_bodies cache -> b = source inc;
  ck_cohorts : forall inc c built, map_get (cohort_key inc (metadataScope c)) (pc_cohorts cache) = Some built ->
    built = (own_body inc c, digestKeyedDoc (own_body inc c) DAEMON_METADATA_DOC_SPEC) }.

Lemma body_for_ok inc cache :
  cache_ok cache -> (body_for source inc cache).1 = source inc /\ cache_ok (body_for source inc cache).2.
Proof.
  intros [Hn Hb Hc]. unfold body_for. destruct (List.find _ _) as [[i b]|] eqn:E; cbn.
  - apply List.find_some in E as [Hin E]. cbn in E. apply eqb_prop in E as ->. split; [|done].
    by apply Hb, list_elem_of_In.
  - split; [done|]. split; cbn; [|intros i b|done].
    + rewrite map_app. apply NoDup_app. split_and!; [done| |apply NoDup_singleton].
      intros i Hi Hx%list_elem_of_singleton. cbn in Hx. subst i. apply list_elem_of_In, in_map_iff in Hi as ([i b] & <- & Hin).
      pose proof (List.find_none _ _ E _ Hin) as Hf. cbn in Hf. by rewrite eqb_reflx in Hf.
    + rewrite elem_of_app, list_elem_of_singleton. intros [?|[= -> ->]]; auto.
Qed.

Lemma cohort_key_inj inc c inc' c' :
  scopes_named -> cohort_key inc (metadataScope c) = cohort_key inc' (metadataScope c') ->
  own_body inc c = own_body inc' c'.
Proof.
  intros Hs. unfold cohort_key, own_body.
  destruct inc, inc'; cbn; try discriminate; intros [= E];
    destruct (metadataScope c) as [s|] eqn:Ec; destruct (metadataScope c') as [s'|] eqn:Ec'; cbn in E; try done;
    try (by destruct (Hs c s Ec) as [? _]); try (by destruct (Hs c' s' Ec') as [? _]);
    destruct (Hs c s Ec) as [_ H]; by apply (H c' s').
Qed.

Lemma cohortFor_ok inc c cache :
  scopes_named -> cache_ok cache ->
  (cohortFor source inc (metadataScope c) cache).1 = (own_body inc c, digestKeyedDoc (own_body inc c) DAEMON_METADATA_DOC_SPEC)
  /\ cache_ok (cohortFor source inc (metadataScope c) cache).2.
Proof.
  intros Hs Hc. unfold cohortFor. destruct (map_get _ _) as [built|] eqn:E.
  { split; [|done]. by apply Hc in E as ->. }
  destruct (body_for source inc cache) as [full cache'] eqn:Eb.
  pose proof (body_for_ok inc cache Hc) as [Hf [Hn Hb Hk]]. rewrite Eb in *. cbn in Hf. subst full. cbn in Hn, Hb, Hk |- *.
  fold (own_body inc c). split; [done|]. split; [done|done|]. cbn. intros inc' c' built.
  rewrite map_get_set. case_decide as Ek; [|by apply Hk]. intros [= <-].
  by rewrite (cohort_key_inj inc' c' inc c Hs Ek).
Qed.

(** Sharing is invisible: a pass leaves every subscription and the transport as
    a pass that builds each subscriber's own body would, and it builds the body
    at most once with sessions and once without. *)
Theorem shared_as_own nowMs connectionId key push net :
  scopes_named ->
  (flushDaemonMetadata send isDeliverable isAlive source metadataScope nowMs connectionId key push net).1
    = flush_each nowMs connectionId key push net
  /\ (length (pc_bodies (flushDaemonMetadata send isDeliverable isAlive source metadataScope nowMs connectionId key push net).2) <= 2)%nat.
Proof.
  intros Hs. unfold flushDaemonMetadata, flush_each.
  destruct (collectPushEntries isDeliverable isAlive daemon_metadata connectionId key push) as [p entries].
  assert (Hc : cache_ok {| pc_bodies := []; pc_cohorts := [] |}) by (split; [constructor|by intros ? ? ?%elem_of_nil|done]).
  revert Hc. generalize {| pc_bodies := []; pc_cohorts := [] |} as cache. clear push. revert p net.
  induction entries as [|e es IH]; intros p net cache Hc; cbn.
  { split; [done|]. rewrite <- (length_map fst). destruct Hc as [Hn _ _].
    assert (Hsub : map fst (pc_bodies cache) ⊆+ [true; false]).
    { apply NoDup_submseteq; [done|]. intros [] _; [by left|right; by left]. }
    by apply submseteq_length in Hsub. }
  pose proof (cohortFor_ok (includes_sessions e) (pe_connectionId e) cache Hs Hc) as [E Hc'].
  destruct (cohortFor source _ _ cache) as [built cache'].
  cbn in E, Hc'. subst built. destruct (deliverKeyed _ _ _ _ _ _ _ net) as [e' net']. by apply IH.
Qed.
End Shared.

(** ** Requests during a build *)

(** What may happen while the document of a mesh is built. *)
Inductive MeshEvent : Set := Me_request (meshId : string) | Me_ended (meshId : string) (built : bool) | Me_settled (meshId : string).

Definition mesh_event (m : MeshFlush) (e : MeshEvent) : MeshFlush :=
  match e with
  | Me_request i => (flushOneMesh i m).1
  | Me_ended i built => (build_ended i built m).1
  | Me_settled i => run_settled i m
  end.

(** Events that do not end the build of [meshId]. *)
Definition leaves (meshId : string) (e : MeshEvent) : Prop :=
  match e with Me_request _ => True | Me_ended i _ | Me_settled i => i <> meshId end.

Lemma leaves_asked meshId e m :
  leaves meshId e -> mf_inflight m !! meshId = Some Mp_building -> meshId ∈ mf_again m ->
  mf_inflight (mesh_event m e) !! meshId = Some Mp_building /\ meshId ∈ mf_again (mesh_event m e).
Proof.
  intros Hl Hi Ha. destruct e as [i|i b|i]; cbn in *.
  - unfold flushOneMesh. destruct (mf_inflight m !! i) eqn:E; cbn; [set_solver|].
    assert (i <> meshId) by congruence. rewrite lookup_insert_ne by done. set_solver.
  - unfold build_ended. case_match; cbn; [set_solver|]. by rewrite lookup_insert_ne.
  - by rewrite lookup_delete_ne.
Qed.

(** A request that arrives while a mesh is built, whatever else arrives before
    that build ends: when it ends with a document, one more build follows; when
    it ends without one, none does, and the request is lost. *)
Theorem request_during_build meshId m events :
  mf_inflight m !! meshId = Some Mp_building -> Forall (leaves meshId) events ->
  let m' := fold_left mesh_event events (flushOneMesh meshId m).1 in
  ((build_ended meshId true m').2 = true /\ mf_inflight (build_ended meshId true m').1 !! meshId = Some Mp_building
   /\ meshId ∉ mf_again (build_ended meshId true m').1)
  /\ ((build_ended meshId false m').2 = false
      /\ mf_inflight (run_settled meshId (build_ended meshId false m').1) !! meshId = None).
Proof.
  intros Hi He m'. assert (H : mf_inflight m' !! meshId = Some Mp_building /\ meshId ∈ mf_again m').
  { assert (H0 : mf_inflight (flushOneMesh meshId m).1 !! meshId = Some Mp_building /\ meshId ∈ mf_again (flushOneMesh meshId m).1)
      by (unfold flushOneMesh; rewrite Hi; cbn; set_solver).
    unfold m'. revert H0. generalize (flushOneMesh meshId m).1. clear Hi m m'.
    induction He as [|e es He _ IH]; intros m [Hi Ha]; [done|]. cbn. by apply IH, leaves_asked. }
  destruct H as [H1 H2]. unfold build_ended. rewrite bool_decide_true by done. cbn. rewrite lookup_delete_eq. set_solver.
Qed.

Lemma request_during_build_witness :
  let m := (flushOneMesh "m" no_builds).1 in
  let m' := fold_left mesh_event [Me_request "n"; Me_ended "n" false; Me_settled "n"; Me_request "m"] (flushOneMesh "m" m).1 in
  (build_ended "m" true m').2 = true /\ (build_ended "m" false m').2 = false.
Proof.
  intros m m'. destruct (request_during_build "m" m [Me_request "n"; Me_ended "n" false; Me_settled "n"; Me_request "m"])
    as [[H _] [H' _]]; [vm_compute; reflexivity| |by split].
  repeat constructor; discriminate.
Defined.

(** Two pages of a shared connection and one of the owner. *)
Definition guest_scope : DaemonMetadataScope := {| sc_key := "guest"; sc_project := fun b => map_delete "userName" b |}.
Definition sample_scope (c : string) : option DaemonMetadataScope := if bool_decide (c = "guest") then Some guest_scope else None.
Definition sample_source (includeSessions : bool) : Row := [("daemonId", D_str "d"); ("userName", D_str "u"); ("status", D_obj [])].
Definition sample_pages : Subscriptions :=
  put_entry daemon_metadata (new_entry "owner" "a" [])
    (put_entry daemon_metadata (new_entry "guest" "b" []) (put_entry daemon_metadata (new_entry "guest" "a" []) [])).
Definition sample_send (c topic : string) (f : Frame) (net : list (string * Frame)) : list (string * Frame) * bool :=
  ((net ++ [(c, f)])%list, true).

Lemma shared_as_own_witness :
  let result := flushDaemonMetadata sample_send (fun _ => true) (fun _ => true) sample_source sample_scope 5 None None sample_pages [] in
  result.1 = flush_each sample_send (fun _ => true) (fun _ => true) sample_source sample_scope 5 None None sample_pages []
  /\ length result.1.2 = 3%nat.
Proof.
  intros result. split; [|vm_compute; reflexivity]. apply shared_as_own. intros c s. unfold sample_scope.
  case_bool_decide; [|done]. intros [= <-]. split; [done|]. intros c' s'. case_bool_decide; [|done]. by intros [= <-].
Defined.
