(* ===== verification/TopicClient.v ===== *)
(** * Topic subscriptions of a page

    [packages/web-core/src/managers/SubscriptionManager.ts], the fold of keyed
    frames of [utils/keyed-topic-fold.ts] and the version verdicts of
    [managers/dashboard-wire-compat.ts].

    Handlers and transports are functions compared by identity: here they are
    names.  What a transport answers is a parameter of each operation, and
    calls are recorded in order.  Handlers do not call the manager back.
    Parameters of requests hold no non-finite numbers. *)

From S2P Require Import Prelude KeyedDoc TopicRegistry.

#[local] Open Scope string_scope.
#[local] Open Scope Z_scope.

(** ** Versions *)

Inductive DashboardWireCompat : Set := compat_ok | reload_required | daemon_update_required.
#[global] Instance DashboardWireCompat_eq_dec : EqDecision DashboardWireCompat.
Proof. solve_decision. Defined.

Definition compareDashboardWireVersion (pageVersion : Z) (daemonVersion : DVal) : DashboardWireCompat :=
  let daemon := match daemonVersion with D_num v => v | _ => 1 end in
  if daemon =? pageVersion then compat_ok else if pageVersion <? daemon then reload_required else daemon_update_required.

Record DashboardWireCompatState : Set := { cs_reloadRequired : bool; cs_daemonUpdateRequired : list string }.

Record Compat : Type := { cp_byDaemon : jsmap DashboardWireCompat; cp_snapshot : DashboardWireCompatState }.

Definition no_verdicts : Compat := {| cp_byDaemon := []; cp_snapshot := {| cs_reloadRequired := false; cs_daemonUpdateRequired := [] |} |}.

Fixpoint insert_id (id : string) (ids : list string) : list string :=
  match ids with
  | [] => [id]
  | x :: t => if String.leb id x then id :: ids else x :: insert_id id t
  end.

Definition sort_ids (ids : list string) : list string := foldr insert_id [] ids.

Definition newline : string := String (Ascii.ascii_of_nat 10) "".

(** The verdict of every daemon together. *)
Definition compat_state (byDaemon : jsmap DashboardWireCompat) : DashboardWireCompatState := {|
  cs_reloadRequired := existsb (fun e => bool_decide (e.2 = reload_required)) byDaemon;
  cs_daemonUpdateRequired :=
    sort_ids (map fst (List.filter (fun e => bool_decide (e.2 = daemon_update_required)) byDaemon)) |}.

(** Recompute the state; true when listeners are told. *)
Definition publish_compat (c : Compat) : Compat * bool :=
  let s := compat_state (cp_byDaemon c) in
  if Bool.eqb (cs_reloadRequired s) (cs_reloadRequired (cp_snapshot c))
     && bool_decide (String.concat newline (cs_daemonUpdateRequired s)
                     = String.concat newline (cs_daemonUpdateRequired (cp_snapshot c)))
  then (c, false)
  else ({| c with cp_snapshot := s |}, true).

Definition noteDaemonWireVersion (daemonId : string) (version : DVal) (c : Compat) : Compat * DashboardWireCompat * bool :=
  let compat := compareDashboardWireVersion DASHBOARD_WIRE_VERSION version in
  let byDaemon := match compat with
                  | compat_ok => map_delete daemonId (cp_byDaemon c)
                  | _ => map_set daemonId compat (cp_byDaemon c)
                  end in
  let '(c, told) := publish_compat {| c with cp_byDaemon := byDaemon |} in
  (c, compat, told).

Definition daemonWireCompat (daemonId : string) (c : Compat) : DashboardWireCompat :=
  nullish (map_get daemonId (cp_byDaemon c)) compat_ok.

(** ** Folding keyed frames *)

Record KeyedLane : Type := {
  kl_spec : KeyedDocSpec;
  kl_docOf : Row -> option Row;
  kl_snapshotOf : Row -> DeltaFrame -> Row -> Row }.

Definition materializeKeyed (lane : KeyedLane) (held : option Row) (update : Frame) : option Row :=
  match update with
  | F_plain fields => Some (map_set "mode" (D_str "snapshot") fields)
  | F_delta frame =>
      match held with
      | None => None
      | Some held =>
          match kl_docOf lane held with
          | None => None
          | Some doc =>
              let gap := match field held "seq" with D_num s => negb (df_seq frame =? s + 1) | D_nonfinite => true | _ => false end in
              if gap then None
              else Some (kl_snapshotOf lane (foldKeyedDoc doc (df_delta frame) (kl_spec lane)) frame held)
          end
      end
  end.

Definition FRAME_ENVELOPE_KEYS : list string := ["topic"; "key"; "mode"; "seq"; "timestamp"; "wireVersion"].

(** [update.id || held.id]. *)
Definition owner_or (owner : string) (held : DVal) : DVal := if bool_decide (owner = "") then held else D_str owner.

(** [{ ...v }] of a value. *)
Definition spread (v : DVal) : Row := match v with D_obj fs => fs | _ => [] end.

Definition DAEMON_METADATA_LANE : KeyedLane := {|
  kl_spec := DAEMON_METADATA_DOC_SPEC;
  kl_docOf := fun held =>
    if bool_decide (field held "status" = D_undefined) then None else Some (delete_keys FRAME_ENVELOPE_KEYS held);
  kl_snapshotOf := fun doc update held =>
    assign doc [("topic", D_str "daemon.metadata"); ("key", D_str (df_key update)); ("mode", D_str "snapshot");
                ("daemonId", owner_or (df_owner update) (field held "daemonId"));
                ("status", D_obj (map_set "timestamp" (D_num (df_timestamp update)) (spread (field doc "status"))));
                ("seq", D_num (df_seq update)); ("timestamp", D_num (df_timestamp update))] |}.

Definition MESH_STATUS_LANE : KeyedLane := {|
  kl_spec := MESH_STATUS_DOC_SPEC;
  kl_docOf := fun held => match field held "status" with D_obj fs => Some fs | _ => None end;
  kl_snapshotOf := fun doc update held =>
    [("topic", D_str "mesh.status"); ("key", D_str (df_key update)); ("mode", D_str "snapshot");
     ("meshId", owner_or (df_owner update) (field held "meshId")); ("status", D_obj doc);
     ("seq", D_num (df_seq update)); ("timestamp", D_num (df_timestamp update))] |}.

(** ** Subscriptions *)

Record ActiveSubscription : Type := {
  as_daemonId : string; as_request : Row; as_handlers : list string; as_handlerParams : jsmap Row;
  as_lastUpdate : option Row; as_transport : option string }.

Record Manager : Type := {
  mg_active : jsmap ActiveSubscription;
  mg_retryTimers : jsmap (string * Z);
  mg_compat : Compat;
  (** handles given out, and those released *)
  mg_handles : nat; mg_released : list nat }.

Definition new_manager : Manager :=
  {| mg_active := []; mg_retryTimers := []; mg_compat := no_verdicts; mg_handles := 0; mg_released := [] |}.

(** What the manager calls. *)
Inductive ClientCall : Type :=
  | Cc_send (transport daemonId : string) (request : Row)
  | Cc_handler (handler : string) (update : Row)
  | Cc_compat_listeners.

(** [`${topic}:${key}`] *)
Definition id_text (v : DVal) : string := match v with D_str s => s | _ => "" end.
Definition buildSubscriptionId (topic key : DVal) : string := id_text topic ++ ":" ++ id_text key.
Definition request_id (request : Row) : string := buildSubscriptionId (field request "topic") (field request "key").

Definition MIN_WINS_PARAMS : list string := ["intervalMs"].

Definition merge_value (name : string) (current value : DVal) : DVal :=
  match current, value with
  | D_bool a, D_bool b => D_bool (a || b)
  | D_num a, D_num b => D_num (if bool_decide (name ∈ MIN_WINS_PARAMS) then Z.min a b else Z.max a b)
  | _, _ => value
  end.

Definition merge_field (merged : Row) (e : string * DVal) : Row :=
  match field merged e.1 with
  | D_undefined => map_set e.1 e.2 merged
  | current => map_set e.1 (merge_value e.1 current e.2) merged
  end.

Definition mergeSubscriptionParams (handlerParams : list Row) : Row :=
  fold_left (fun merged params => fold_left merge_field params merged) handlerParams [].

Definition readRequestParams (request : Row) : Row := spread (field request "params").

Definition areSubscribeRequestsEquivalent (left right : Row) : bool := bool_decide (sig (D_obj left) = sig (D_obj right)).

(** The request with the union of the parameters of its handlers. *)
Definition with_merged (request : Row) (handlerParams : jsmap Row) : Row :=
  map_set "params" (D_obj (mergeSubscriptionParams (map snd handlerParams))) request.

Definition add_handler (handler : string) (handlers : list string) : list string :=
  if bool_decide (handler ∈ handlers) then handlers else handlers ++ [handler].

Definition scheduleRetry (id transport : string) (intervalMs : Z) (timers : jsmap (string * Z)) : jsmap (string * Z) :=
  if has_key id timers then timers else map_set id (transport, intervalMs) timers.

Definition clearRetry (id : string) (timers : jsmap (string * Z)) : jsmap (string * Z) := map_delete id timers.

(** A handle on a subscription. *)
Record SubscriptionHandle : Type := {
  hd_serial : nat; hd_id : string; hd_handler : string; hd_transport : string; hd_topic : DVal; hd_key : DVal;
  hd_initialSendAccepted : bool }.

Section Operations.
Context (sendData : string -> string -> Row -> bool).

(** Retries while the initial send is refused. *)
Definition retry_unless (accepted : bool) (id transport : string) (retryIntervalMs : option Z) (timers : jsmap (string * Z))
    : jsmap (string * Z) :=
  if accepted then timers
  else match retryIntervalMs with
       | Some ms => if ms =? 0 then timers else scheduleRetry id transport ms timers
       | None => timers
       end.

Definition subscribe_existing (existing : ActiveSubscription) (id transport daemonId : string) (request : Row)
    (handler : string) (retryIntervalMs : option Z) (m : Manager) : Manager * list ClientCall * bool :=
  let handlerParams := map_set handler (readRequestParams request) (as_handlerParams existing) in
  let shared := {| existing with as_transport := Some transport; as_handlers := add_handler handler (as_handlers existing);
                                 as_handlerParams := handlerParams |} in
  let merged := with_merged request handlerParams in
  let replay := match as_lastUpdate existing with Some u => [Cc_handler handler u] | None => [] end in
  if negb (areSubscribeRequestsEquivalent (as_request existing) merged) || negb (bool_decide (as_daemonId existing = daemonId)) then
    let accepted := sendData transport daemonId merged in
    let timers := retry_unless accepted id transport retryIntervalMs (mg_retryTimers m) in
    ({| m with mg_active := map_set id {| shared with as_daemonId := daemonId; as_request := merged |} (mg_active m);
               mg_retryTimers := if accepted then clearRetry id timers else timers |},
     Cc_send transport daemonId merged :: replay, accepted)
  else ({| m with mg_active := map_set id shared (mg_active m) |}, replay, true).

Definition subscribe_new (id transport daemonId : string) (request : Row) (handler : string) (retryIntervalMs : option Z)
    (m : Manager) : Manager * list ClientCall * bool :=
  let next := {| as_daemonId := daemonId; as_request := request; as_handlers := [handler];
                 as_handlerParams := [(handler, readRequestParams request)]; as_lastUpdate := None;
                 as_transport := Some transport |} in
  let accepted := sendData transport daemonId request in
  ({| m with mg_active := map_set id next (mg_active m);
             mg_retryTimers := retry_unless accepted id transport retryIntervalMs (mg_retryTimers m) |},
   [Cc_send transport daemonId request], accepted).

Definition client_subscribe (transport daemonId : string) (request : Row) (handler : string) (retryIntervalMs : option Z)
    (m : Manager) : Manager * list ClientCall * SubscriptionHandle :=
  let request := map_set "wireVersion" (D_num DASHBOARD_WIRE_VERSION) request in
  let id := request_id request in
  let '(m', calls, accepted) :=
    match map_get id (mg_active m) with
    | Some existing => subscribe_existing existing id transport daemonId request handler retryIntervalMs m
    | None => subscribe_new id transport daemonId request handler retryIntervalMs m
    end in
  ({| m' with mg_handles := S (mg_handles m) |}, calls,
   {| hd_serial := mg_handles m; hd_id := id; hd_handler := handler; hd_transport := transport;
      hd_topic := field request "topic"; hd_key := field request "key"; hd_initialSendAccepted := accepted |}).

(** Calling a handle releases it. *)
Definition client_unsubscribe (h : SubscriptionHandle) (m : Manager) : Manager * list ClientCall :=
  if bool_decide (hd_serial h ∈ mg_released m) then (m, [])
  else
    let m := {| m with mg_released := hd_serial h :: mg_released m; mg_retryTimers := clearRetry (hd_id h) (mg_retryTimers m) |} in
    match map_get (hd_id h) (mg_active m) with
    | None => (m, [])
    | Some current =>
        let left := {| current with as_handlers := List.filter (fun x => negb (bool_decide (x = hd_handler h))) (as_handlers current);
                                    as_handlerParams := map_delete (hd_handler h) (as_handlerParams current) |} in
        if bool_decide (as_handlers left = []) then
          ({| m with mg_active := map_delete (hd_id h) (mg_active m) |},
           [Cc_send (hd_transport h) (as_daemonId current) [("type", D_str "unsubscribe"); ("topic", hd_topic h); ("key", hd_key h)]])
        else
          let narrowed := with_merged (as_request current) (as_handlerParams left) in
          if areSubscribeRequestsEquivalent (as_request current) narrowed
          then ({| m with mg_active := map_set (hd_id h) left (mg_active m) |}, [])
          else ({| m with mg_active := map_set (hd_id h) {| left with as_request := narrowed |} (mg_active m) |},
                [Cc_send (hd_transport h) (as_daemonId current) narrowed])
    end.

Definition updateParams (topic key : DVal) (params : Row) (m : Manager) : Manager :=
  let id := buildSubscriptionId topic key in
  match map_get id (mg_active m) with
  | None => m
  | Some existing =>
      let updated := {| existing with
        as_request := map_set "params" (D_obj (assign (spread (field (as_request existing) "params")) params)) (as_request existing);
        as_handlerParams := map (fun e => (e.1, assign e.2 params)) (as_handlerParams existing) |} in
      {| m with mg_active := map_set id updated (mg_active m) |}
  end.

(** Ask again for every subscription, or for those of a daemon. *)
Definition resubscribe (chosen : ActiveSubscription -> bool) (transport : string) (m : Manager) : Manager * list ClientCall :=
  ({| m with mg_active := map (fun '(id, s) => (id, if chosen s then {| s with as_transport := Some transport |} else s)) (mg_active m) |},
   flat_map (fun e => if chosen e.2 then [Cc_send transport (as_daemonId e.2) (as_request e.2)] else []) (mg_active m)).

Definition resubscribeAll : string -> Manager -> Manager * list ClientCall := resubscribe (fun _ => true).
Definition resubscribeForDaemon (daemonId : string) : string -> Manager -> Manager * list ClientCall :=
  resubscribe (fun s => bool_decide (as_daemonId s = daemonId)).

(** A retry timer fires. *)
Definition retry_fires (id : string) (m : Manager) : Manager * list ClientCall :=
  match map_get id (mg_retryTimers m) with
  | None => (m, [])
  | Some (transport, intervalMs) =>
      let timers := map_delete id (mg_retryTimers m) in
      match map_get id (mg_active m) with
      | None => ({| m with mg_retryTimers := timers |}, [])
      | Some subscription =>
          let accepted := sendData transport (as_daemonId subscription) (as_request subscription) in
          ({| m with mg_retryTimers := if accepted then timers else scheduleRetry id transport intervalMs timers |},
           [Cc_send transport (as_daemonId subscription) (as_request subscription)])
      end
  end.
End Operations.

(** ** Updates *)

Definition frame_topic (f : Frame) : DVal := match f with F_plain r => field r "topic" | F_delta d => D_str (df_topic d) end.
Definition frame_key (f : Frame) : DVal := match f with F_plain r => field r "key" | F_delta d => D_str (df_key d) end.

Definition keyed_lane (topic : DVal) : option KeyedLane :=
  if bool_decide (topic = D_str "daemon.metadata") then Some DAEMON_METADATA_LANE
  else if bool_decide (topic = D_str "mesh.status") then Some MESH_STATUS_LANE
  else None.

(** The wire version gate: the verdicts after it, whether listeners were told,
    and whether the frame is rendered. *)
Definition version_gate (daemonId : string) (f : Frame) (c : Compat) : Compat * bool * bool :=
  match f with
  | F_plain r =>
      if bool_decide (field r "mode" = D_str "protocol_mismatch") then
        let '(c, _, told) := noteDaemonWireVersion daemonId (field r "daemonWireVersion") c in (c, told, false)
      else if present (keyed_lane (field r "topic")) then
        let '(c, verdict, told) := noteDaemonWireVersion daemonId (field r "wireVersion") c in
        (c, told, bool_decide (verdict = compat_ok))
      else (c, false, bool_decide (daemonWireCompat daemonId c = compat_ok))
  | F_delta _ => (c, false, bool_decide (daemonWireCompat daemonId c = compat_ok))
  end.

(** The update a frame stands for; none asks for the subscription again.  Only
    keyed topics have deltas. *)
Definition read_update (held : option Row) (f : Frame) : option Row :=
  match keyed_lane (frame_topic f) with
  | Some lane => materializeKeyed lane held f
  | None => match f with F_plain r => Some r | F_delta _ => None end
  end.

Definition client_publish (f : Frame) (m : Manager) : Manager * list ClientCall :=
  let id := buildSubscriptionId (frame_topic f) (frame_key f) in
  match map_get id (mg_active m) with
  | None => (m, [])
  | Some subscription =>
      let '(compat, told, rendered) := version_gate (as_daemonId subscription) f (mg_compat m) in
      let m := {| m with mg_retryTimers := clearRetry id (mg_retryTimers m); mg_compat := compat |} in
      let calls := if told : bool then [Cc_compat_listeners] else [] in
      if negb rendered then (m, calls)
      else match read_update (as_lastUpdate subscription) f with
           | None =>
               ({| m with mg_active := map_set id {| subscription with as_lastUpdate := None |} (mg_active m) |},
                calls ++ match as_transport subscription with
                         | Some t => [Cc_send t (as_daemonId subscription) (as_request subscription)]
                         | None => []
                         end)%list
           | Some update =>
               ({| m with mg_active := map_set id {| subscription with as_lastUpdate := Some update |} (mg_active m) |},
                calls ++ map (fun h => Cc_handler h update) (as_handlers subscription))%list
           end
  end.
