(* ===== verification/TopicLanes.v ===== *)
(** * The frames of the keyed lanes

    What a page needs of a lane, and that the frames the daemon writes and the
    snapshots the page keeps have it for both lanes: the document can be read
    back from a kept snapshot, and keeping one changes only what the lane's
    specification ignores. *)

From S2P Require Import Prelude KeyedDoc KeyedRows KeyedSync KeyedTheorems TopicRegistry TopicClient.

#[local] Open Scope string_scope.
#[local] Open Scope Z_scope.

(** The document shows [body], and is an object. *)
Definition lane_shows (lane : KeyedLane) (doc body : Row) : Prop :=
  shows (kl_spec lane) doc body /\ NoDup (map fst doc).

(** The interface between the daemon's frames and the page's fold. *)
Class LaneOk (lane : KeyedLane) (body_ok : Row -> Prop) (frames : string -> Row -> LaneFrames) := {
  lo_body body : body_ok body -> snapshot_ok (kl_spec lane) body /\ NoDup (map fst body);
  lo_snapshot key body seq ts : body_ok body ->
    exists r, lf_snapshot (frames key body) seq ts = F_plain r /\ field r "seq" = D_num seq
      /\ exists doc, kl_docOf lane (map_set "mode" (D_str "snapshot") r) = Some doc /\ lane_shows lane doc body;
  lo_delta key body delta seq ts :
    exists d, lf_delta (frames key body) delta seq ts = F_delta d /\ df_delta d = delta /\ df_seq d = seq;
  lo_keep doc update held body : lane_shows lane doc body -> body_ok body ->
    field (kl_snapshotOf lane doc update held) "seq" = D_num (df_seq update)
    /\ exists doc', kl_docOf lane (kl_snapshotOf lane doc update held) = Some doc' /\ lane_shows lane doc' body }.

(** ** Mesh status *)

Definition mesh_body_ok (body : Row) : Prop := snapshot_ok MESH_STATUS_DOC_SPEC body /\ NoDup (map fst body).

#[export] Instance mesh_lane_ok meshId :
  LaneOk MESH_STATUS_LANE mesh_body_ok (fun key => mesh_frames key meshId).
Proof.
  split.
  - by intros body.
  - intros key body seq ts [Hs Hn]. eexists. split; [reflexivity|]. split; [reflexivity|].
    exists body. split; [reflexivity|]. split; [by apply snapshot_shows|done].
  - intros. eexists. split; [reflexivity|]. by split.
  - intros doc update held body Hd _. split; [reflexivity|]. exists doc. by split.
Qed.

(** ** Daemon metadata *)

Notation metadata_strip D := (stripCollections D DAEMON_METADATA_DOC_SPEC).

(** A body leaves the envelope's fields to the registry. *)
Record metadata_body_ok (body : Row) : Prop := {
  mb_snapshot : snapshot_ok DAEMON_METADATA_DOC_SPEC body;
  mb_nodup : NoDup (map fst body);
  mb_fields : forall k, k ∈ FRAME_ENVELOPE_KEYS -> map_get k body = None }.

Lemma metadata_strip_get D k :
  map_get k (metadata_strip D)
  = if decide (k = "status") then strip_val (Some "sessions") (map_get k D) else map_get k D.
Proof.
  rewrite strip_get by apply sh_heads. unfold with_head. cbn [ks_collections DAEMON_METADATA_DOC_SPEC map fst List.find].
  change (head_of "status.sessions") with "status". change (tail_of "status.sessions") with (Some "sessions").
  case_decide as E; [by rewrite bool_decide_eq_true_2|]. by rewrite bool_decide_eq_false_2 by congruence.
Qed.

Lemma sessions_read D : readPath D "status.sessions" = read_val (Some "sessions") (map_get "status" D).
Proof. exact (readPath_val D "status.sessions"). Qed.

(** The status of a document that shows another. *)
Lemma status_record D body :
  shows DAEMON_METADATA_DOC_SPEC D body -> exists fs, map_get "status" D = Some (D_obj fs)
    /\ NoDup (map fst (map_delete "sessions" fs)).
Proof.
  intros Hs. destruct (sw_split _ _ _ Hs "status" ltac:(by left)) as [gs Hg].
  pose proof (to_split _ _ (sw_top_ok _ _ _ Hs) "status" gs ltac:(by left) Hg) as Hn.
  rewrite metadata_strip_get, decide_True in Hg by done.
  destruct (map_get "status" D) as [[]|]; cbn in Hg; simplify_eq. by eexists.
Qed.

(** Two objects that differ only in what the lane ignores: the daemon's id, the
    status stamp, and fields that are absent from the document shown. *)
Record retouched (D D' body : Row) : Prop := {
  re_nodup : NoDup (map fst D');
  re_fields : forall k, k <> "status" -> k <> "daemonId" ->
    map_get k D' = map_get k D \/ map_get k D' = None /\ map_get k body = None;
  re_status : forall fs, map_get "status" D = Some (D_obj fs) ->
    exists fs', map_get "status" D' = Some (D_obj fs') /\ (NoDup (map fst (map_delete "sessions" fs)) -> NoDup (map fst (map_delete "sessions" fs')))
      /\ forall f, f <> "timestamp" -> map_get f fs' = map_get f fs }.

Lemma retouched_value D D' body p fs fs' :
  map_get "status" D = Some (D_obj fs) -> map_get "status" D' = Some (D_obj fs') ->
  (forall f, f <> "timestamp" -> map_get f fs' = map_get f fs) ->
  (forall k, k <> "status" -> k <> "daemonId" -> map_get k D' = map_get k D \/ map_get k D' = None /\ map_get k body = None) ->
  top_at DAEMON_METADATA_DOC_SPEC (metadata_strip D) p = top_at DAEMON_METADATA_DOC_SPEC (metadata_strip body) p ->
  top_at DAEMON_METADATA_DOC_SPEC (metadata_strip D') p = top_at DAEMON_METADATA_DOC_SPEC (metadata_strip body) p.
Proof.
  intros Hd Hd' Hf Hk. unfold top_at. case_bool_decide as Hi; [done|]. intros Hsame.
  destruct (objectOf (ks_splitObjects DAEMON_METADATA_DOC_SPEC) p) as [[o f]|] eqn:E.
  - rewrite <- Hsame. unfold value_at. rewrite E.
    apply objectOf_inv in E as [-> Ho]. cbn in Ho. apply list_elem_of_singleton in Ho as ->.
    rewrite !metadata_strip_get, !decide_True, Hd, Hd' by done. cbn [strip_val].
    rewrite !get_delete. case_decide; [done|]. rewrite Hf; [done|]. intros ->. apply Hi. vm_compute. by right; left.
  - destruct (decide (p = "status")) as [->|Hs].
    + rewrite <- Hsame. unfold value_at. rewrite E, !metadata_strip_get, !decide_True, Hd, Hd' by done. cbn [strip_val].
      by rewrite bool_decide_eq_true_2 by by left.
    + assert (Hid : p <> "daemonId") by (intros ->; apply Hi; by left).
      destruct (Hk p Hs Hid) as [Ep|[Ep Eb]].
      * rewrite <- Hsame. unfold value_at. by rewrite E, !metadata_strip_get, !decide_False, Ep by done.
      * unfold value_at. by rewrite E, !metadata_strip_get, !decide_False, Ep, Eb by done.
Qed.

(** The page may keep such an object instead. *)
Lemma retouched_shows D D' body :
  shows DAEMON_METADATA_DOC_SPEC D body -> retouched D D' body -> lane_shows DAEMON_METADATA_LANE D' body.
Proof.
  intros Hs [Hn Hk Hst]. split; [|done]. change (kl_spec DAEMON_METADATA_LANE) with DAEMON_METADATA_DOC_SPEC. destruct (status_record D body Hs) as (fs & Hd & Hnd).
  destruct (Hst fs Hd) as (fs' & Hd' & Hnd' & Hf).
  assert (Hsp : map_get "status" (metadata_strip D') = Some (D_obj (map_delete "sessions" fs')))
    by by rewrite metadata_strip_get, decide_True, Hd'.
  split.
  - split.
    + by apply strip_NoDup.
    + apply keys_dotfree. intros k v. rewrite metadata_strip_get. case_decide as E; [by subst|]. intros Hv.
      destruct (decide (k = "daemonId")) as [->|Hne]; [done|].
      destruct (Hk k E Hne) as [Ek|[Ek _]]; [|congruence].
      apply (proj2 (keys_dotfree (metadata_strip D)) (to_dotfree _ _ (sw_top_ok _ _ _ Hs)) k v).
      by rewrite metadata_strip_get, decide_False, <- Ek.
    + intros o gs Ho. apply list_elem_of_singleton in Ho as ->. rewrite Hsp. intros [= <-]. auto.
  - intros o Ho. apply list_elem_of_singleton in Ho as ->. eauto.
  - intros p. apply (retouched_value D D' body p fs fs'); auto. apply (sw_top _ _ _ Hs).
  - intros e He. pose proof (sw_colls _ _ _ Hs e He) as Hc. cbn in He. apply list_elem_of_singleton in He as ->.
    cbn [fst] in *. rewrite sessions_read in *. rewrite Hd' , Hd in *. cbn [read_val] in *. unfold field in *. by rewrite Hf.
Qed.

Lemma delete_set_comm {A} k k' (v : A) (m : jsmap A) :
  k <> k' -> map_delete k (map_set k' v m) = map_set k' v (map_delete k m).
Proof.
  intros Hne. induction m as [|[k0 v0] m IH]; cbn; [by rewrite decide_False|].
  destruct (decide (k' = k0)) as [->|H0]; cbn.
  - rewrite !(decide_False (P := k = k0)) by done. cbn. by rewrite decide_True.
  - case_decide; [done|]. cbn. by rewrite IH, decide_False.
Qed.

(** The envelope around a document is taken off again. *)
Lemma unwrapped k (doc fields : Row) :
  NoDup (map fst fields) ->
  map_get k (delete_keys FRAME_ENVELOPE_KEYS (assign doc fields))
  = if decide (k ∈ FRAME_ENVELOPE_KEYS) then None else nullish_or (map_get k fields) (map_get k doc).
Proof. intros Hf. by rewrite get_delete_keys, get_assign. Qed.

Definition metadata_envelope (key : string) : Row :=
  [("topic", D_str "daemon.metadata"); ("key", D_str key); ("mode", D_str "snapshot"); ("wireVersion", D_num DASHBOARD_WIRE_VERSION)].

(** The document of a first snapshot is the body. *)
Lemma first_snapshot key body seq ts :
  metadata_body_ok body ->
  let r := assign (assign (metadata_envelope key) body) [("seq", D_num seq); ("timestamp", D_num ts)] in
  let h := map_set "mode" (D_str "snapshot") r in
  field h "seq" = D_num seq /\ (exists fs, field h "status" = D_obj fs)
  /\ retouched body (delete_keys FRAME_ENVELOPE_KEYS h) body.
Proof.
  intros [Hs Hn Hf] r h. pose proof (snapshot_shows _ _ Hs) as Hsh. destruct (status_record _ _ Hsh) as (fs & Hst & _).
  assert (Hr : forall k, map_get k h = if decide (k = "mode") then Some (D_str "snapshot")
                else nullish_or (map_get k [("seq", D_num seq); ("timestamp", D_num ts)])
                       (nullish_or (map_get k body) (map_get k (metadata_envelope key)))).
  { intros k. unfold h, r. rewrite map_get_set, !get_assign; [done|done|]. apply (bool_decide_unpack _). vm_compute. exact I. }
  assert (Hkeep : forall k, k ∉ FRAME_ENVELOPE_KEYS -> map_get k (delete_keys FRAME_ENVELOPE_KEYS h) = map_get k body).
  { intros k Hk. rewrite get_delete_keys, decide_False, Hr by done. unfold FRAME_ENVELOPE_KEYS in Hk.
    rewrite !not_elem_of_cons in Hk. destruct Hk as (? & ? & ? & ? & ? & ? & _). cbn [map_get metadata_envelope].
    rewrite !decide_False by done. cbn. by destruct (map_get k body). }
  assert (Hdrop : forall k, k ∈ FRAME_ENVELOPE_KEYS -> map_get k (delete_keys FRAME_ENVELOPE_KEYS h) = None)
    by (intros k Hk; by rewrite get_delete_keys, decide_True).
  split; [unfold field; by rewrite Hr|]. split.
  { exists fs. unfold field. rewrite Hr, Hst. done. }
  split; [|intros k _ _|intros gs Hg].
  - apply delete_keys_NoDup, map_set_NoDup, assign_NoDup, assign_NoDup. apply (bool_decide_unpack _). vm_compute. exact I.
  - destruct (decide (k ∈ FRAME_ENVELOPE_KEYS)) as [Hk|Hk]; [|by left; apply Hkeep]. right. by rewrite Hdrop, Hf.
  - exists gs. rewrite Hkeep; [by split_and!|]. apply (bool_decide_unpack _). vm_compute. exact I.
Qed.

(** A folded document is kept up to its id and stamp. *)
Lemma kept_snapshot doc update held body :
  lane_shows DAEMON_METADATA_LANE doc body -> metadata_body_ok body ->
  let h := kl_snapshotOf DAEMON_METADATA_LANE doc update held in
  field h "seq" = D_num (df_seq update) /\ (exists fs, field h "status" = D_obj fs)
  /\ retouched doc (delete_keys FRAME_ENVELOPE_KEYS h) body.
Proof.
  intros [Hsh Hn] [_ _ Hf] h. destruct (status_record _ _ Hsh) as (fs & Hst & _).
  set (touched := map_set "timestamp" (D_num (df_timestamp update)) fs).
  set (l := [("topic", D_str "daemon.metadata"); ("key", D_str (df_key update)); ("mode", D_str "snapshot");
             ("daemonId", owner_or (df_owner update) (field held "daemonId")); ("status", D_obj touched);
             ("seq", D_num (df_seq update)); ("timestamp", D_num (df_timestamp update))] : Row).
  assert (Eh : h = assign doc l).
  { unfold h. cbn [kl_snapshotOf DAEMON_METADATA_LANE]. unfold field at 2. by rewrite Hst. }
  assert (Hl : NoDup (map fst l)) by (apply (bool_decide_unpack _); vm_compute; exact I).
  rewrite Eh. split; [unfold field; by rewrite get_assign|]. split.
  { exists touched. unfold field. by rewrite get_assign. }
  split; [by apply delete_keys_NoDup, assign_NoDup|intros k Hks Hki|intros gs Hg].
  - rewrite unwrapped by done. case_decide as Hk; [right; by rewrite Hf|]. left. unfold FRAME_ENVELOPE_KEYS in Hk.
    rewrite !not_elem_of_cons in Hk. destruct Hk as (? & ? & ? & ? & ? & ? & _). unfold l. cbn [map_get].
    by rewrite !decide_False by done.
  - exists touched. rewrite unwrapped by done. split; [done|]. rewrite Hst in Hg. injection Hg as <-. split.
    + unfold touched. rewrite delete_set_comm by done. apply map_set_NoDup.
    + intros f Hne. unfold touched. by rewrite map_get_set, decide_False.
Qed.

Lemma lane_doc_of h fs :
  field h "status" = D_obj fs -> kl_docOf DAEMON_METADATA_LANE h = Some (delete_keys FRAME_ENVELOPE_KEYS h).
Proof. intros E. cbn [kl_docOf DAEMON_METADATA_LANE]. by rewrite E. Qed.

#[export] Instance metadata_lane_ok : LaneOk DAEMON_METADATA_LANE metadata_body_ok metadata_frames.
Proof.
  split.
  - by intros body [].
  - intros key body seq ts Hb. pose proof (first_snapshot key body seq ts Hb) as H. cbv zeta in H.
    destruct H as (Hseq & [fs Hst] & Hre). eexists. split; [reflexivity|].
    split; [unfold field in *; by rewrite map_get_set, decide_False in Hseq|].
    eexists. split; [by eapply lane_doc_of|]. eapply retouched_shows; [|exact Hre]. apply snapshot_shows, Hb.
  - intros. eexists. split; [reflexivity|]. by split.
  - intros doc update held body Hd Hb. destruct (kept_snapshot doc update held body Hd Hb) as (Hseq & [fs Hst] & Hre).
    split; [done|]. eexists. split; [by eapply lane_doc_of|]. eapply retouched_shows; [|exact Hre]. apply Hd.
Qed.
