(* ===== verification/TopicTheorems.v ===== *)
(** * A page follows the daemon's documents

    One subscription of a page to a keyed lane: the daemon's entry, the frames
    in flight and the snapshot the page holds.  Frames arrive in order.  A send
    may be reported failed although the frame arrives, and a delta reported
    delivered may be lost; a snapshot that is reported delivered arrives unless
    the connection is replaced. *)

From S2P Require Import Prelude KeyedDoc KeyedRows KeyedSync KeyedTheorems TopicRegistry TopicClient TopicLanes.

#[local] Open Scope string_scope.
#[local] Open Scope Z_scope.

(** The frames in flight, each with the document it was built from. *)
Record Link : Type := { lk_entry : PushTopicEntry; lk_wire : list (Frame * Row); lk_held : option Row }.

Definition is_snapshot (f : Frame) : bool := match f with F_plain _ => true | F_delta _ => false end.

Section Link.
Context (lane : KeyedLane) (topic : PushTopic) (body_ok : Row -> Prop) (frames : string -> Row -> LaneFrames).
Context `{!LaneOk lane body_ok frames, !StableSpec (kl_spec lane), !SpecShape (kl_spec lane)}.
Notation spec := (kl_spec lane).
Notation digest b := (digestKeyedDoc b (kl_spec lane)).
Implicit Types (b x : Row) (l : Link) (f : Frame) (w : list (Frame * Row)).

(** The transport, for one build: what arrives and what is reported. *)
Definition transport (b : Row) (arrives delivered : bool) (_ _ : string) (f : Frame) (w : list (Frame * Row))
    : list (Frame * Row) * bool :=
  (if arrives then w ++ [(f, b)] else w, delivered)%list.

(** The daemon built [b] and serves the subscription. *)
Definition build (nowMs : Z) (b : Row) (arrives delivered : bool) (l : Link) : Link :=
  let '(entry, w) := deliverKeyed (transport b arrives delivered) nowMs (lk_entry l) topic (digest b) spec
                       (frames (pe_key (lk_entry l)) b) (lk_wire l) in
  {| l with lk_entry := entry; lk_wire := w |}.

(** The page reads the next frame. *)
Definition receive (l : Link) : Link :=
  match lk_wire l with
  | [] => l
  | (f, _) :: w => {| l with lk_wire := w; lk_held := materializeKeyed lane (lk_held l) f |}
  end.

(** The daemon handles a subscribe request: the entry starts over.  On a new
    connection only the first [n] of the frames in flight arrive. *)
Definition subscribe_again (entry : PushTopicEntry) (n : nat) (l : Link) : Link :=
  {| l with lk_entry := new_entry (pe_connectionId entry) (pe_key entry) (pe_params entry); lk_wire := take n (lk_wire l) |}.

(** A delta that is due and reported delivered may be lost; a snapshot not. *)
Definition faithful (arrives delivered : bool) (l : Link) : Prop :=
  delivered = true -> pe_keyedBaseline (lk_entry l) = None -> arrives = true.

Inductive link_run : Link -> Prop :=
  | run_start connectionId key params :
      link_run {| lk_entry := new_entry connectionId key params; lk_wire := []; lk_held := None |}
  | run_build nowMs b arrives delivered l :
      link_run l -> body_ok b -> faithful arrives delivered l -> link_run (build nowMs b arrives delivered l)
  | run_receive l : link_run l -> link_run (receive l)
  | run_subscribe entry n l : link_run l -> link_run (subscribe_again entry n l).

(** ** Where the page is

    The sequence number and the document of what the page holds, before and
    after it reads a frame. *)
Notation place := (option (Z * Row)).

Definition frame_seq (f : Frame) : Z :=
  match f with F_plain r => match field r "seq" with D_num n => n | _ => 0 end | F_delta d => df_seq d end.

Definition advance (g : place) (i : Frame * Row) : place :=
  match i.1, g with
  | F_plain _, _ => Some (frame_seq i.1, i.2)
  | F_delta d, Some (m, _) => if df_seq d =? m + 1 then Some (df_seq d, i.2) else None
  | F_delta _, None => None
  end.

(** A frame is right for a page at [g]. *)
Definition right_for (g : place) (i : Frame * Row) : Prop :=
  body_ok i.2 /\
  match i.1 with
  | F_plain _ => exists key seq ts, i.1 = lf_snapshot (frames key i.2) seq ts
  | F_delta d => forall m x, g = Some (m, x) -> df_seq d = m + 1 ->
      diffKeyedDoc (digest x) (digest i.2) spec = Some (df_delta d)
  end.

Fixpoint rights (g : place) (w : list (Frame * Row)) : Prop :=
  match w with [] => True | i :: w => right_for g i /\ rights (advance g i) w end.

Definition holds (h : option Row) (g : place) : Prop :=
  match h, g with
  | None, None => True
  | Some h, Some (m, x) =>
      field h "seq" = D_num m /\ body_ok x /\ exists doc, kl_docOf lane h = Some doc /\ lane_shows lane doc x
  | _, _ => False
  end.

(** The baseline is the document of the last frame, or no page can mistake the
    next delta for its own. *)
Definition behind (g : place) (entry : PushTopicEntry) : Prop :=
  match pe_keyedBaseline entry with
  | None => True
  | Some d => exists x, d = digest x /\ body_ok x
      /\ forall m y, g = Some (m, y) -> m < pe_seq entry \/ m = pe_seq entry /\ y = x
  end.

Definition follows (l : Link) : Prop :=
  exists g, holds (lk_held l) g /\ rights g (lk_wire l) /\ behind (fold_left advance (lk_wire l) g) (lk_entry l).

Lemma rights_app g w w' : rights g (w ++ w') <-> rights g w /\ rights (fold_left advance w g) w'.
Proof. revert g. induction w as [|i w IH]; intros g; cbn; [tauto|]. rewrite IH. tauto. Qed.

(** Reading a right frame keeps the page in step. *)
Lemma receive_holds h g f b :
  holds h g -> right_for g (f, b) -> holds (materializeKeyed lane h f) (advance g (f, b)).
Proof.
  intros Hh [Hb Hf]. cbn in Hb. destruct f as [r|d]; cbn [fst snd advance] in *.
  - destruct Hf as (key & seq & ts & Hf). destruct (lo_snapshot key b seq ts Hb) as (r' & Hr & Hseq & doc & Hd & Hs).
    rewrite Hr in Hf. injection Hf as ->. unfold frame_seq. rewrite Hseq. cbn. unfold field in *.
    rewrite map_get_set, decide_False by done. eauto.
  - destruct h as [h|], g as [[m x]|]; cbn in Hh; try done. destruct Hh as (Hseq & Hx & doc & Hd & Hs & Hn).
    cbn [materializeKeyed]. rewrite Hd, Hseq. destruct (df_seq d =? m + 1) eqn:E; [|done]. cbn.
    apply Z.eqb_eq in E. specialize (Hf m x eq_refl E).
    destruct (lo_body x Hx) as [[Hxd _] _]. destruct (lo_body b Hb) as [[Hbd _] _].
    assert (lane_shows lane (foldKeyedDoc doc (df_delta d) spec) b) as Hs'.
    { split; [by eapply fold_shows|]. erewrite folded_doc_eq by done. by eapply folded_doc_NoDup. }
    destruct (lo_keep (foldKeyedDoc doc (df_delta d) spec) d h b Hs' Hb) as (Hq & doc' & Hd' & Hs''). eauto.
Qed.

(** What a build does to the entry and the wire. *)
Lemma build_cases nowMs b arrives delivered l :
  let e := lk_entry l in
  (pe_keyedBaseline e = None /\ (build nowMs b arrives delivered l)
     = {| l with lk_entry := after_send e (digest b) nowMs delivered;
                 lk_wire := (transport b arrives delivered "" "" (lf_snapshot (frames (pe_key e) b) (pe_seq e + 1) nowMs) (lk_wire l)).1 |})
  \/ (exists d, pe_keyedBaseline e = Some d
      /\ ((exists delta, diffKeyedDoc d (digest b) spec = Some delta /\ (build nowMs b arrives delivered l)
            = {| l with lk_entry := after_send e (digest b) nowMs delivered;
                        lk_wire := (transport b arrives delivered "" "" (lf_delta (frames (pe_key e) b) delta (pe_seq e + 1) nowMs) (lk_wire l)).1 |})
          \/ diffKeyedDoc d (digest b) spec = None
             /\ (build nowMs b arrives delivered l) = {| l with lk_entry := {| e with pe_lastFlushedAt := nowMs |} |})).
Proof.
  cbv zeta. unfold build, deliverKeyed, keyed_update. destruct (pe_keyedBaseline (lk_entry l)) as [d|]; [|by left].
  right. exists d. split; [done|]. destruct (diffKeyedDoc d (digest b) spec) as [delta|]; [left; by exists delta|by right].
Qed.

Lemma build_follows nowMs b arrives delivered l :
  follows l -> body_ok b -> faithful arrives delivered l -> follows (build nowMs b arrives delivered l).
Proof.
  intros (g & Hh & Hr & Hbe) Hb Hfa. unfold follows.
  destruct (build_cases nowMs b arrives delivered l) as [[Hn ->]|(d & Hd & [(delta & Hdiff & ->)|[Hdiff ->]])];
    cbn [lk_held lk_wire lk_entry transport fst] in *.
  - (* a snapshot *)
    destruct (lo_snapshot (pe_key (lk_entry l)) b (pe_seq (lk_entry l) + 1) nowMs Hb) as (r & Er & Hseq & _).
    exists g. split; [done|]. unfold behind. cbn [pe_keyedBaseline pe_seq after_send]. destruct arrives.
    + rewrite rights_app, fold_left_app. split.
      { split; [done|]. cbn. split; [|done]. split; [done|]. rewrite Er. cbn. eauto. }
      destruct delivered; [|done]. exists b. split_and!; [done|done|]. cbn. rewrite Er. intros m y [= <- <-].
      right. by rewrite Hseq.
    + split; [done|]. destruct delivered; [|done]. by specialize (Hfa eq_refl Hn).
  - (* a delta *)
    unfold behind in Hbe. rewrite Hd in Hbe. destruct Hbe as (x & -> & Hx & Hend).
    destruct (lo_delta (pe_key (lk_entry l)) b delta (pe_seq (lk_entry l) + 1) nowMs) as (df & Ed & Edelta & Eseq).
    exists g. split; [done|]. unfold behind. cbn [pe_keyedBaseline pe_seq after_send].
    set (e := fold_left advance (lk_wire l) g) in *. destruct arrives.
    + rewrite rights_app, fold_left_app. fold e. split.
      { split; [done|]. cbn. split; [|done]. split; [done|]. rewrite Ed. cbn. intros m y Ey Em.
        destruct (Hend m y Ey) as [Hlt|[-> ->]]; [lia|]. by rewrite Edelta. }
      destruct delivered; [|done]. exists b. split_and!; [done|done|]. cbn. rewrite Ed. cbn.
      destruct e as [[m y]|]; [|done]. case_match; [|done]. intros m' y' [= <- <-]. right. by rewrite Eseq.
    + fold e. split; [done|]. destruct delivered; [|done]. exists b. split_and!; [done|done|].
      intros m y Ey. left. destruct (Hend m y Ey) as [?|[-> _]]; lia.
  - exists g. by split_and!.
Qed.

Lemma receive_follows l : follows l -> follows (receive l).
Proof.
  intros (g & Hh & Hr & Hb). unfold receive, follows. destruct (lk_wire l) as [|[f b] w] eqn:Ew; cbn; rewrite ?Ew.
  - exists g. by rewrite ?Ew.
  - destruct Hr as [Hi Hr]. exists (advance g (f, b)). split; [by apply receive_holds|done].
Qed.

Lemma subscribe_follows entry n l : follows l -> follows (subscribe_again entry n l).
Proof.
  intros (g & Hh & Hr & Hb). exists g. cbn. split_and!; [done| |done].
  rewrite <- (take_drop n (lk_wire l)), rights_app in Hr. apply Hr.
Qed.

Lemma run_follows l : link_run l -> follows l.
Proof.
  induction 1; [by exists None|by apply build_follows|by apply receive_follows|by apply subscribe_follows].
Qed.


(** Silence means up to date: when nothing is in flight and the page holds the
    last frame, a build that sends nothing leaves the page in agreement. *)
Theorem silence_agrees l h nowMs b :
  link_run l -> lk_wire l = [] -> lk_held l = Some h -> field h "seq" = D_num (pe_seq (lk_entry l)) -> body_ok b ->
  keyed_update (lk_entry l) (digest b) spec (frames (pe_key (lk_entry l)) b) nowMs = None ->
  exists doc, kl_docOf lane h = Some doc /\ agrees spec doc b.
Proof.
  intros Hl Hw Hheld Hseq Hb Hk. destruct (run_follows l Hl) as (g & Hh & _ & Hbe). rewrite Hw, Hheld in *. cbn in *.
  destruct g as [[m x]|]; [|done]. destruct Hh as (Hm & Hx & doc & Hd & Hs & _). exists doc. split; [done|].
  unfold keyed_update in Hk. unfold behind in Hbe. destruct (pe_keyedBaseline (lk_entry l)) as [d|]; [|done].
  destruct Hbe as (y & -> & Hy & Hend). destruct (Hend m x eq_refl) as [Hlt|[_ ->]].
  { rewrite Hm in Hseq. injection Hseq as ->. lia. }
  destruct (diffKeyedDoc _ _ _) eqn:E; [done|].
  destruct (lo_body y Hy) as [[Hyd _] _]. destruct (lo_body b Hb) as [[Hbd _] _]. by eapply null_delta_agrees.
Qed.

Lemma receive_last w f b : forall h entry,
  Nat.iter (length (w ++ [(f, b)])) receive {| lk_entry := entry; lk_wire := (w ++ [(f, b)])%list; lk_held := h |}
  = {| lk_entry := entry; lk_wire := []; lk_held := materializeKeyed lane (fold_left (fun h i => materializeKeyed lane h i.1) w h) f |}.
Proof.
  induction w as [|[f' b'] w IH]; intros h entry; [done|]. cbn [app length]. rewrite Nat.iter_succ_r. apply IH.
Qed.

(** Whatever was lost before, a page that asks again agrees with the next build
    once it has read everything: its frame is a snapshot. *)
Theorem resubscribed_agrees l entry n nowMs b :
  body_ok b ->
  let l' := build nowMs b true true (subscribe_again entry n l) in
  exists h doc, lk_held (Nat.iter (length (lk_wire l')) receive l') = Some h /\ kl_docOf lane h = Some doc /\ agrees spec doc b.
Proof.
  intros Hb l'. subst l'. set (l0 := subscribe_again entry n l).
  destruct (lo_snapshot (pe_key (lk_entry l0)) b (pe_seq (lk_entry l0) + 1) nowMs Hb) as (r & Er & _ & doc & Hd & Hs & _).
  destruct (build_cases nowMs b true true l0) as [[_ ->]|(d & Hn & _)]; [|done].
  cbn [transport fst lk_wire lk_held lk_entry]. rewrite receive_last. cbn [lk_held]. rewrite Er.
  exists (map_set "mode" (D_str "snapshot") r), doc. split_and!; [done|done|]. by apply shows_agrees.
Qed.
End Link.

(** ** Runs of the metadata lane *)

Definition metadata_body_b (body : Row) : bool :=
  snapshot_ok_b DAEMON_METADATA_DOC_SPEC body && bool_decide (NoDup (map fst body))
  && forallb (fun k => negb (present (map_get k body))) FRAME_ENVELOPE_KEYS.

Lemma metadata_body_b_ok body : metadata_body_b body = true -> metadata_body_ok body.
Proof.
  unfold metadata_body_b. rewrite !andb_true_iff, forallb_forall. intros [[Hs Hn] Hf]. breflect.
  split; [by apply snapshot_ok_b_ok|done|]. intros k Hk%list_elem_of_In. specialize (Hf k Hk).
  by destruct (map_get k body).
Qed.

Notation metadata_build := (build DAEMON_METADATA_LANE daemon_metadata metadata_frames).
Notation metadata_run := (link_run DAEMON_METADATA_LANE daemon_metadata metadata_body_ok metadata_frames).

Definition fresh_link : Link := {| lk_entry := new_entry "conn" "page" []; lk_wire := []; lk_held := None |}.

(** A first document, read by the page, and a second one in flight. *)
Definition first_read : Link := receive DAEMON_METADATA_LANE (metadata_build 10 doc_first true true fresh_link).
Definition second_sent : Link := metadata_build 20 doc_second true true first_read.

Lemma first_read_run : metadata_run first_read.
Proof.
  apply run_receive, run_build; [constructor| |done]. apply metadata_body_b_ok. vm_compute. reflexivity.
Qed.

Lemma second_sent_run : metadata_run second_sent.
Proof.
  apply run_build; [apply first_read_run| |by vm_compute]. apply metadata_body_b_ok. vm_compute. reflexivity.
Qed.


Lemma silence_agrees_witness :
  exists h doc, lk_held first_read = Some h /\ kl_docOf DAEMON_METADATA_LANE h = Some doc
    /\ agrees DAEMON_METADATA_DOC_SPEC doc (metadata_doc [session "a" "idle" 7] 1).
Proof.
  eexists.
  eassert (H := silence_agrees DAEMON_METADATA_LANE daemon_metadata metadata_body_ok metadata_frames
    first_read _ 30 (metadata_doc [session "a" "idle" 7] 1) first_read_run).
  destruct H as (doc & Hd & Ha); try (vm_compute; reflexivity).
  { apply metadata_body_b_ok. vm_compute. reflexivity. }
  exists doc. split; [vm_compute; reflexivity|]. by split.
Defined.

Lemma resubscribed_agrees_witness :
  exists h doc, lk_held (Nat.iter 1 (receive DAEMON_METADATA_LANE)
      (metadata_build 40 doc_third true true (subscribe_again (lk_entry second_sent) 0 second_sent))) = Some h
    /\ kl_docOf DAEMON_METADATA_LANE h = Some doc /\ agrees DAEMON_METADATA_DOC_SPEC doc doc_third.
Proof.
  apply (resubscribed_agrees DAEMON_METADATA_LANE daemon_metadata metadata_body_ok metadata_frames
    second_sent (lk_entry second_sent) 0 40 doc_third).
  apply metadata_body_b_ok. vm_compute. reflexivity.
Defined.

(** ** A lost snapshot

    The page keeps its snapshot when it asks again. When the new snapshot is
    lost although it was reported delivered, the next delta has the number the
    page expects, so it is folded into the old document and accepted. *)
Definition doc_other : Row := metadata_doc [session "a" "busy" 5] 2.

Definition misfolded : Link :=
  receive DAEMON_METADATA_LANE
    (metadata_build 60 doc_third true true
      (metadata_build 50 doc_other false true (subscribe_again (lk_entry first_read) 0 first_read))).

Theorem lost_snapshot_misfolds :
  exists h doc, lk_held misfolded = Some h /\ kl_docOf DAEMON_METADATA_LANE h = Some doc
    /\ ~ agrees DAEMON_METADATA_DOC_SPEC doc doc_third.
Proof.
  do 2 eexists. split; [vm_compute; reflexivity|]. split; [vm_compute; reflexivity|].
  intros [Ht _]. specialize (Ht "version"). vm_compute in Ht. discriminate Ht. by intros H%elem_of_nil.
Qed.
