(* ===== verification/TopicManager.v ===== *)
(** * What a page asks for

    Over the operations of the subscription manager: every subscription asks the
    daemon for the union of what its handlers want. *)

From S2P Require Import Prelude KeyedDoc KeyedRows TopicRegistry TopicClient.

#[local] Open Scope string_scope.
#[local] Open Scope Z_scope.

(** ** The union of parameters *)

(** The value of one field, as it is merged. *)
Definition merge_at (name : string) (acc : option DVal) (v : DVal) : option DVal :=
  match acc with
  | None | Some D_undefined => Some v
  | Some current => Some (merge_value name current v)
  end.

Notation object ps := (NoDup (map fst ps)).

Lemma merge_field_get k e merged :
  map_get k (merge_field merged e) = if decide (k = e.1) then merge_at k (map_get k merged) e.2 else map_get k merged.
Proof.
  unfold merge_field, field. destruct (decide (k = e.1)) as [->|Hne].
  - destruct (map_get e.1 merged) as [[]|]; cbn; by rewrite map_get_set, decide_True.
  - by destruct (nullish (map_get e.1 merged) D_undefined); rewrite map_get_set, decide_False.
Qed.

Lemma merge_one_get k (ps merged : Row) :
  object ps ->
  map_get k (fold_left merge_field ps merged)
  = match map_get k ps with Some v => merge_at k (map_get k merged) v | None => map_get k merged end.
Proof.
  revert merged. induction ps as [|[k0 v0] ps IH]; intros merged; [done|]. cbn [map fst fold_left map_get].
  intros [Hk Hn]%NoDup_cons. rewrite IH, merge_field_get by done. cbn. destruct (decide (k = k0)) as [->|]; [|done].
  by rewrite (proj2 (get_None k0 ps) Hk).
Qed.

Lemma merge_get k (l : list Row) :
  Forall (fun ps => object ps) l ->
  map_get k (mergeSubscriptionParams l) = fold_left (merge_at k) (omap (map_get k) l) None.
Proof.
  unfold mergeSubscriptionParams. change (@None DVal) with (map_get k (@nil (string * DVal))).
  generalize (@nil (string * DVal)). induction l as [|ps l IH]; intros acc; [done|]. intros [Hp Hl]%Forall_cons.
  cbn [fold_left]. rewrite IH, merge_one_get by done. change (omap (map_get k) (ps :: l))
    with (match map_get k ps with Some v => v :: omap (map_get k) l | None => omap (map_get k) l end).
  by destruct (map_get k ps).
Qed.

Lemma merge_object (l : list Row) : object (mergeSubscriptionParams l).
Proof.
  unfold mergeSubscriptionParams. assert (H : object (@nil (string * DVal))) by constructor. revert H.
  generalize (@nil (string * DVal)). induction l as [|ps l IH]; intros acc H; [done|]. cbn. apply IH.
  revert acc H. induction ps as [|e ps IHp]; intros acc H; [done|]. cbn. apply IHp. unfold merge_field.
  destruct (field acc e.1); by apply map_set_NoDup.
Qed.

Lemma merge_same k v : merge_at k (Some v) v = Some v.
Proof.
  destruct v; cbn; try done; [by rewrite orb_diag|]. case_bool_decide; [by rewrite Z.min_id|by rewrite Z.max_id].
Qed.

Lemma merge_copies k v n : fold_left (merge_at k) (replicate (S n) v) None = Some v.
Proof.
  cbn. induction n as [|n IH]; [done|]. cbn [replicate fold_left]. by rewrite merge_same.
Qed.

(** ** Union requests *)

(** What a request asks for in a field, as JSON. *)
Definition asked (ps : Row) (k : string) : option DVal := map_get k ps ≫= sig.

Record sub_ok (id : string) (s : ActiveSubscription) : Prop := {
  so_id : request_id (as_request s) = id;
  so_request : object (as_request s);
  so_wanted : object (readRequestParams (as_request s));
  so_handlers : as_handlers s = map fst (as_handlerParams s);
  so_some : as_handlers s <> [];
  so_nodup : NoDup (as_handlers s);
  so_objects : Forall (fun ps => object ps) (map snd (as_handlerParams s));
  so_union : forall k, asked (readRequestParams (as_request s)) k
                       = asked (mergeSubscriptionParams (map snd (as_handlerParams s))) k }.

Definition manager_ok (m : Manager) : Prop := forall id s, map_get id (mg_active m) = Some s -> sub_ok id s.

Lemma request_id_set k v r : k <> "topic" -> k <> "key" -> request_id (map_set k v r) = request_id r.
Proof. intros H1 H2. unfold request_id, field. by rewrite !map_get_set, !decide_False by congruence. Qed.

Lemma read_merged r hp : readRequestParams (with_merged r hp) = mergeSubscriptionParams (map snd hp).
Proof. unfold readRequestParams, with_merged, field. by rewrite map_get_set, decide_True. Qed.

Lemma sig_obj_inv v fs : sig v = Some (D_obj fs) -> exists gs, v = D_obj gs /\ field_sigs gs = fs.
Proof. destruct v; cbn; intros H; simplify_eq. eexists. by split. Qed.

(** An equivalent request asks for the same. *)
Lemma equivalent_asks r q wanted k :
  object r -> object (readRequestParams r) -> object q -> object wanted -> field q "params" = D_obj wanted ->
  areSubscribeRequestsEquivalent r q = true -> asked (readRequestParams r) k = asked wanted k.
Proof.
  intros Hr Hp Hq Hw Eq He. unfold areSubscribeRequestsEquivalent in He. breflect.
  assert (E : field_sigs r = field_sigs q) by (cbn in He; by injection He).
  apply (f_equal (map_get "params")) in E. rewrite !get_field_sigs in E by done.
  unfold field in Eq. destruct (map_get "params" q) as [v|]; [|done]. cbn in Eq. subst v. cbn [mbind option_bind sig] in E.
  destruct (map_get "params" r) as [v|] eqn:Ev; [|done]. cbn in E. apply sig_obj_inv in E as (gs & -> & Eg).
  unfold readRequestParams, field in *. rewrite Ev in *. cbn in *.
  apply (f_equal (map_get k)) in Eg. unfold asked.
  rewrite <- !get_field_sigs by done. exact Eg.
Qed.

Lemma filter_keys {A} k (m : jsmap A) :
  List.filter (fun x => negb (bool_decide (x = k))) (map fst m) = map fst (map_delete k m).
Proof.
  induction m as [|[k0 v] m IH]; [done|]. cbn. destruct (decide (k = k0)) as [->|].
  - by rewrite bool_decide_true.
  - rewrite bool_decide_false by congruence. cbn. by rewrite IH.
Qed.

Lemma delete_values {A} (P : A -> Prop) k (m : jsmap A) : Forall P (map snd m) -> Forall P (map snd (map_delete k m)).
Proof. induction m as [|[k0 v] m IH]; [done|]. cbn. intros [Hv Hm]%Forall_cons. case_decide; [auto|]. constructor; auto. Qed.

Lemma set_values {A} (P : A -> Prop) k v (m : jsmap A) : P v -> Forall P (map snd m) -> Forall P (map snd (map_set k v m)).
Proof.
  intros Hv. induction m as [|[k0 v0] m IH]; cbn; [by repeat constructor|]. intros [H0 Hm]%Forall_cons.
  case_decide; constructor; auto.
Qed.

(** Setting a subscription keeps the others. *)
Lemma set_manager_ok m id s m' :
  manager_ok m -> sub_ok id s -> mg_active m' = map_set id s (mg_active m) -> manager_ok m'.
Proof. intros Hm Hs E id' s'. rewrite E, map_get_set. case_decide; [intros [= <-]; by subst|apply Hm]. Qed.

Lemma field_merged r hp : field (with_merged r hp) "params" = D_obj (mergeSubscriptionParams (map snd hp)).
Proof. unfold field, with_merged. by rewrite map_get_set, decide_True. Qed.

(** A request to subscribe: an object with object parameters. *)
Definition request_ok (r : Row) : Prop := object r /\ object (readRequestParams r).

Lemma versioned_ok r : request_ok r -> request_ok (map_set "wireVersion" (D_num DASHBOARD_WIRE_VERSION) r).
Proof.
  intros [Hr Hp]. split; [by apply map_set_NoDup|]. unfold readRequestParams, field in *.
  by rewrite map_get_set, decide_False.
Qed.

(** Handlers that share a subscription: the union request goes out, or the last
    one already asks for it. *)
Section Share.
Context (id : string) (s : ActiveSubscription) (hp : jsmap Row) (base : Row).
Hypothesis Hs : sub_ok id s.
Hypothesis Hbase : object base.
Hypothesis Hid : request_id base = id.
Hypothesis Hobj : Forall (fun ps => object ps) (map snd hp).
Hypothesis Hn : NoDup (map fst hp).
Hypothesis Hne : map fst hp <> [].

Lemma union_sent s' :
  as_request s' = with_merged base hp -> as_handlerParams s' = hp -> as_handlers s' = map fst hp -> sub_ok id s'.
Proof.
  intros Er Ehp Eh. split; rewrite ?Er, ?Ehp, ?Eh; try done.
  - unfold with_merged. by rewrite request_id_set.
  - by apply map_set_NoDup.
  - rewrite read_merged. apply merge_object.
  - intros k. by rewrite read_merged.
Qed.

Lemma union_known s' :
  areSubscribeRequestsEquivalent (as_request s) (with_merged base hp) = true ->
  as_request s' = as_request s -> as_handlerParams s' = hp -> as_handlers s' = map fst hp -> sub_ok id s'.
Proof.
  intros Heq Er Ehp Eh. pose proof Hs as [H1 H2 H3 _ _ _ _ _]. split; rewrite ?Er, ?Ehp, ?Eh; try done.
  intros k. apply (equivalent_asks (as_request s) (with_merged base hp)); try done.
  - by apply map_set_NoDup.
  - apply merge_object.
  - apply field_merged.
Qed.
End Share.

Lemma handlers_added s id h ps :
  sub_ok id s -> object ps ->
  let hp := map_set h ps (as_handlerParams s) in
  add_handler h (as_handlers s) = map fst hp /\ Forall (fun ps => object ps) (map snd hp) /\ NoDup (map fst hp) /\ map fst hp <> [].
Proof.
  intros [_ _ _ Hh Hsome Hn Ho _] Hp hp. rewrite Hh in *. unfold hp, add_handler. split_and!.
  - rewrite map_set_keys. by repeat case_decide || case_bool_decide.
  - by apply set_values.
  - by apply map_set_NoDup.
  - rewrite map_set_keys. case_decide; [done|]. by intros [_ ?]%app_nil.
Qed.

Lemma subscribe_ok sendData t d r h retry m :
  manager_ok m -> request_ok r -> manager_ok (client_subscribe sendData t d r h retry m).1.1.
Proof.
  intros Hm Hr. apply versioned_ok in Hr. unfold client_subscribe.
  set (r' := map_set "wireVersion" (D_num DASHBOARD_WIRE_VERSION) r) in *. clearbody r'. destruct Hr as [Hr Hp].
  destruct (map_get (request_id r') (mg_active m)) as [s|] eqn:Es.
  - pose proof (Hm _ _ Es) as Hs. destruct (handlers_added s _ h _ Hs Hp) as (Eh & Hobj & Hn & Hne).
    unfold subscribe_existing. destruct (negb _ || negb _) eqn:E; cbn.
    + eapply (set_manager_ok m _ _ _ Hm); [|reflexivity]. by eapply (union_sent _ _ r').
    + apply orb_false_iff in E as [E _]. breflect. eapply (set_manager_ok m _ _ _ Hm); [|reflexivity].
      by eapply (union_known _ s _ r').
  - cbn. eapply (set_manager_ok m _ _ _ Hm); [|reflexivity].
    split; cbn [as_request as_handlers as_handlerParams map fst snd]; try done;
      [apply NoDup_singleton|by repeat constructor|].
    intros k. unfold asked. rewrite merge_get by by repeat constructor. cbn. by destruct (map_get k (readRequestParams r')).
Qed.

Lemma unsubscribe_ok h m : manager_ok m -> manager_ok (client_unsubscribe h m).1.
Proof.
  intros Hm. unfold client_unsubscribe. case_bool_decide; [done|]. cbn [mg_active].
  destruct (map_get (hd_id h) (mg_active m)) as [s|] eqn:Es; [|done]. cbn [as_handlers as_handlerParams as_request].
  pose proof (Hm _ _ Es) as Hs. pose proof Hs as [Hid Hr _ Hh _ Hn Ho _]. rewrite Hh, filter_keys. case_bool_decide as E.
  - intros id s' H'. apply (Hm id s'). cbn in H'. rewrite get_delete in H'. by case_decide.
  - assert (Hn' : NoDup (map fst (map_delete (hd_handler h) (as_handlerParams s)))) by (rewrite Hh in Hn; by apply delete_NoDup).
    pose proof (delete_values _ (hd_handler h) _ Ho) as Ho'.
    destruct (areSubscribeRequestsEquivalent _ _) eqn:Eq; cbn; (eapply (set_manager_ok m _ _ _ Hm); [|reflexivity]).
    + by eapply (union_known _ s _ (as_request s)).
    + by eapply (union_sent _ _ (as_request s)).
Qed.

Lemma map_values_get {A B} (g : string -> A -> B) k (m : jsmap A) :
  map_get k (map (fun '(i, s) => (i, g i s)) m) = g k <$> map_get k m.
Proof. induction m as [|[k0 v] m IH]; [done|]. cbn. case_decide; [by subst|done]. Qed.

Lemma resubscribe_ok chosen t m : manager_ok m -> manager_ok (resubscribe chosen t m).1.
Proof.
  intros Hm id s. cbn. rewrite (map_values_get (fun _ s => if chosen s then {| s with as_transport := Some t |} else s)).
  destruct (map_get id (mg_active m)) as [s0|] eqn:E; [|done]. cbn. intros [= <-]. pose proof (Hm _ _ E) as [].
  by destruct (chosen s0).
Qed.

Lemma retry_fires_ok sendData id m : manager_ok m -> manager_ok (retry_fires sendData id m).1.
Proof. intros Hm. unfold retry_fires. repeat case_match; apply Hm. Qed.

Lemma publish_ok f m : manager_ok m -> manager_ok (client_publish f m).1.
Proof.
  intros Hm. unfold client_publish. destruct (map_get _ (mg_active m)) as [s|] eqn:E; [|done].
  pose proof (Hm _ _ E) as []. destruct (version_gate _ _ _) as [[c told] rendered]. destruct rendered; [|done].
  cbn [negb]. destruct (read_update _ _); cbn; (eapply (set_manager_ok m _ _ _ Hm); [|reflexivity]); done.
Qed.

Lemma overridden_values k v (hp : jsmap Row) params :
  object params -> map_get k params = Some v ->
  omap (map_get k) (map snd (map (fun e => (e.1, assign e.2 params)) hp)) = replicate (length hp) v.
Proof.
  intros Ho Hv. induction hp as [|[h ps] hp IH]; [done|]. cbn. rewrite get_assign, Hv by done. cbn. f_equal. exact IH.
Qed.

Lemma kept_values k (hp : jsmap Row) params :
  object params -> map_get k params = None ->
  omap (map_get k) (map snd (map (fun e => (e.1, assign e.2 params)) hp)) = omap (map_get k) (map snd hp).
Proof.
  intros Ho Hv. induction hp as [|[h ps] hp IH]; [done|]. cbn. rewrite get_assign, Hv by done. cbn.
  destruct (map_get k ps); [f_equal|]; exact IH.
Qed.

Lemma update_ok topic key params m : manager_ok m -> object params -> manager_ok (updateParams topic key params m).
Proof.
  intros Hm Ho. unfold updateParams. destruct (map_get _ (mg_active m)) as [s|] eqn:E; [|done].
  pose proof (Hm _ _ E) as [Hid Hr Hw Hh Hsome Hn Hobj Hu]. eapply (set_manager_ok m _ _ _ Hm); [|reflexivity].
  assert (Hnew : readRequestParams (map_set "params" (D_obj (assign (spread (field (as_request s) "params")) params)) (as_request s))
                 = assign (readRequestParams (as_request s)) params).
  { unfold readRequestParams at 1. unfold field at 1. by rewrite map_get_set, decide_True. }
  assert (Hobj' : Forall (fun ps => object ps) (map snd (map (fun e => (e.1, assign e.2 params)) (as_handlerParams s)))).
  { rewrite map_map. clear -Hobj. induction (as_handlerParams s) as [|e hp IH]; [done|]. apply Forall_cons in Hobj as [H1 H2].
    cbn. constructor; [by apply assign_NoDup|auto]. }
  split; cbn [as_request as_handlers as_handlerParams]; try done.
  - by rewrite request_id_set.
  - by apply map_set_NoDup.
  - rewrite Hnew. by apply assign_NoDup.
  - by rewrite map_map, Hh.
  - intros k. unfold asked. rewrite Hnew, get_assign, merge_get by done. destruct (map_get k params) as [v|] eqn:Ev; cbn.
    + rewrite (overridden_values k v) by done. destruct (as_handlerParams s) as [|e hp]; [by rewrite Hh in Hsome|].
      cbn [length]. by rewrite merge_copies.
    + rewrite kept_values by done. specialize (Hu k). unfold asked in Hu. by rewrite merge_get in Hu.
Qed.

(** ** Runs *)

Inductive manager_run : Manager -> Prop :=
  | mr_new : manager_run new_manager
  | mr_subscribe sendData t d r h retry m :
      manager_run m -> request_ok r -> manager_run (client_subscribe sendData t d r h retry m).1.1
  | mr_unsubscribe h m : manager_run m -> manager_run (client_unsubscribe h m).1
  | mr_update topic key params m : manager_run m -> object params -> manager_run (updateParams topic key params m)
  | mr_resubscribe chosen t m : manager_run m -> manager_run (resubscribe chosen t m).1
  | mr_retry sendData id m : manager_run m -> manager_run (retry_fires sendData id m).1
  | mr_publish f m : manager_run m -> manager_run (client_publish f m).1.

Lemma run_ok m : manager_run m -> manager_ok m.
Proof.
  induction 1; [by intros ? ?|by apply subscribe_ok|by apply unsubscribe_ok|by apply update_ok|by apply resubscribe_ok
    |by apply retry_fires_ok|by apply publish_ok].
Qed.

(** A granted value is wide enough for a wanted one. *)
Definition serves (name : string) (granted wanted : DVal) : Prop :=
  match wanted with
  | D_bool w => exists g, granted = D_bool g /\ (w = true -> g = true)
  | D_num w => exists g, granted = D_num g /\ if bool_decide (name ∈ MIN_WINS_PARAMS) then g <= w else w <= g
  | _ => True
  end.

(** Both are booleans, or both are numbers. *)
Definition same_kind (v v' : DVal) : Prop :=
  match v, v' with D_bool _, D_bool _ | D_num _, D_num _ => True | _, _ => False end.

Lemma serves_refl name v : serves name v v.
Proof. destruct v; cbn; try done; [by eexists|]. eexists. split; [done|]. case_bool_decide; lia. Qed.

Lemma merge_widens name c v w :
  same_kind c v -> serves name (merge_value name c v) v /\ (serves name c w -> serves name (merge_value name c v) w).
Proof.
  destruct c as [| |a|a| | | |], v as [| |b|b| | | |]; try done; intros _; cbn.
  - split; [eexists; split; [done|]; by intros ->; rewrite orb_true_r|]. destruct w; try done; [|by intros (? & ? & ?)].
    intros (g & [= <-] & H). eexists. split; [done|]. by intros ->%H.
  - split; [eexists; split; [done|]; case_bool_decide; lia|]. destruct w as [| |w|w| | | |]; try done; [by intros (? & ? & ?)|].
    intros (g & [= <-] & H). eexists. split; [done|]. case_bool_decide; lia.
Qed.

Lemma merge_kind name c v v' : same_kind c v' -> same_kind v v' -> same_kind (merge_value name c v) v'.
Proof. by destruct c, v, v'. Qed.

Lemma merged_serves name (vs : list DVal) v0 :
  (forall v, v ∈ vs -> same_kind v v0) -> vs <> [] ->
  exists g, fold_left (merge_at name) vs None = Some g /\ forall v, v ∈ vs -> serves name g v.
Proof.
  destruct vs as [|v vs]; [done|]. intros Hk _. cbn [fold_left merge_at].
  enough (H : forall c, same_kind c v0 -> exists g, fold_left (merge_at name) vs (Some c) = Some g
            /\ (forall w, w ∈ vs -> serves name g w) /\ forall w, serves name c w -> serves name g w).
  { destruct (H v) as (g & Hg & Hs & Hc); [apply Hk; by left|]. exists g. split; [done|]. intros w [->|Hw]%elem_of_cons; [|auto].
    apply Hc, serves_refl. }
  assert (Hk' : forall w, w ∈ vs -> same_kind w v0) by (intros w Hw; apply Hk; by right). clear Hk.
  induction vs as [|w vs IH]; intros c Hc; [exists c; split_and!; [done|by intros ? ?%elem_of_nil|done]|].
  cbn [fold_left]. assert (Hw : same_kind w v0) by (apply Hk'; by left).
  assert (E : merge_at name (Some c) w = Some (merge_value name c w)) by by destruct c. rewrite E.
  destruct (IH ltac:(intros; apply Hk'; by right) (merge_value name c w)) as (g & Hg & Hs & Hm); [by apply merge_kind|].
  exists g. assert (Hcw : same_kind c w) by (by destruct c, w, v0).
  destruct (merge_widens name c w w Hcw) as [Hww _]. split_and!; [done| |].
  - intros x [->|Hx]%elem_of_cons; [by apply Hm|by apply Hs].
  - intros x Hx. by apply Hm, (merge_widens name c w x Hcw).
Qed.

(** In every run of the manager, every subscription asks for what all its
    handlers want: where a field is a switch for all that mention it, it is on
    when any wants it on; where it is a number, it is the least interval or the
    greatest amount. Nobody's feed is narrowed by a handler it shares it with. *)
Theorem handlers_served m id s h ps k v v0 :
  manager_run m -> map_get id (mg_active m) = Some s -> map_get h (as_handlerParams s) = Some ps ->
  map_get k ps = Some v ->
  (forall h' ps' v', map_get h' (as_handlerParams s) = Some ps' -> map_get k ps' = Some v' -> same_kind v' v0) ->
  exists g, map_get k (readRequestParams (as_request s)) = Some g /\ serves k g v.
Proof.
  intros Hm Hs Hh Hv Hk. pose proof (run_ok m Hm id s Hs) as [_ _ _ Hhs _ Hn Hobj Hu]. rewrite Hhs in Hn.
  assert (Hin : forall v', v' ∈ omap (map_get k) (map snd (as_handlerParams s)) -> same_kind v' v0).
  { intros v' (ps' & Hps & Hv')%list_elem_of_omap. apply list_elem_of_In, in_map_iff in Hps as ([h' ps''] & <- & Hin).
    eapply Hk; [|exact Hv']. by apply In_get. }
  assert (Hv' : v ∈ omap (map_get k) (map snd (as_handlerParams s))).
  { apply list_elem_of_omap. exists ps. split; [|done]. apply list_elem_of_In, in_map_iff. exists (h, ps).
    split; [done|]. by apply map_get_In. }
  destruct (merged_serves k _ v0 Hin) as (g & Hg & Hserve); [intros E; rewrite E in Hv'; by apply elem_of_nil in Hv'|].
  specialize (Hserve v Hv'). specialize (Hin v Hv'). exists g. split; [|done].
  specialize (Hu k). unfold asked in Hu. rewrite merge_get, Hg in Hu by done. cbn in Hu.
  destruct v; try done; destruct Hserve as (g' & -> & _); cbn in Hu;
    destruct (map_get k (readRequestParams (as_request s))) as [[]|]; cbn in Hu; simplify_eq; done.
Qed.

(** ** A page of two views *)

Definition metadata_request (params : Row) : Row :=
  [("type", D_str "subscribe"); ("topic", D_str "daemon.metadata"); ("key", D_str "k"); ("params", D_obj params)].

(** The first view subscribes, then the second. *)
Definition two_views (accepts : bool) (first second : Row) : Manager * SubscriptionHandle :=
  let one := client_subscribe (fun _ _ _ => accepts) "p2p" "d" (metadata_request first) "list" (Some 1000) new_manager in
  ((client_subscribe (fun _ _ _ => accepts) "p2p" "d" (metadata_request second) "detail" (Some 1000) one.1.1).1.1, one.2).

Lemma two_views_run accepts first second : object first -> object second -> manager_run (two_views accepts first second).1.
Proof.
  intros H1 H2. assert (Hr : forall ps, object ps -> request_ok (metadata_request ps)).
  { intros ps Hp. split; [|done]. apply (bool_decide_unpack _). vm_compute. exact I. }
  apply mr_subscribe; [|by apply Hr]. apply mr_subscribe; [constructor|by apply Hr].
Qed.

Lemma handlers_served_witness :
  exists s g, map_get "daemon.metadata:k"
      (mg_active (two_views true [("includeSessions", D_bool true)] [("includeSessions", D_bool false)]).1) = Some s
    /\ map_get "includeSessions" (readRequestParams (as_request s)) = Some g /\ serves "includeSessions" g (D_bool true).
Proof.
  eexists.
  assert (Ho : forall b, object [("includeSessions", D_bool b)]) by (intros b; apply NoDup_singleton).
  eassert (H := handlers_served _ "daemon.metadata:k" _ "list" [("includeSessions", D_bool true)] "includeSessions"
    (D_bool true) (D_bool true) (two_views_run true _ _ (Ho true) (Ho false))).
  destruct H as (g & Hg & Hs); [vm_compute; reflexivity|reflexivity|reflexivity| |].
  - intros h' ps' v' Hh. apply map_get_In in Hh. cbn in Hh. intros Hv.
    destruct Hh as [[= <- <-]|[[= <- <-]|[]]]; cbn in Hv; injection Hv as <-; exact I.
  - exists g. split; [vm_compute; reflexivity|]. by split.
Defined.

(** ** Where a handler is not served *)

(** When views share a subscription whose request was refused, releasing one of
    them cancels the retry of all: the others stay subscribed, nothing is
    pending and nothing is sent. *)
Theorem release_cancels_retry h m s :
  map_get (hd_id h) (mg_active m) = Some s -> hd_serial h ∉ mg_released m ->
  List.filter (fun x => negb (bool_decide (x = hd_handler h))) (as_handlers s) <> [] ->
  areSubscribeRequestsEquivalent (as_request s) (with_merged (as_request s) (map_delete (hd_handler h) (as_handlerParams s))) = true ->
  let '(m', calls) := client_unsubscribe h m in
  calls = [] /\ map_get (hd_id h) (mg_retryTimers m') = None
  /\ exists s', map_get (hd_id h) (mg_active m') = Some s' /\ as_handlers s' <> [].
Proof.
  intros Hs Hr Hl He. unfold client_unsubscribe. rewrite bool_decide_false by done. cbn [mg_active]. rewrite Hs.
  cbn [as_handlers as_handlerParams as_request]. rewrite bool_decide_false, He by done. cbn.
  split_and!; [done|unfold clearRetry; by rewrite get_delete, decide_True|]. eexists. rewrite map_get_set, decide_True by done. by split.
Qed.

Lemma release_cancels_retry_witness :
  let '(m, h) := two_views false [] [] in
  map_get "daemon.metadata:k" (mg_retryTimers m) = Some ("p2p", 1000)
  /\ map_get "daemon.metadata:k" (mg_retryTimers (client_unsubscribe h m).1) = None.
Proof.
  cbn -[client_unsubscribe]. split; [vm_compute; reflexivity|].
  pose proof (release_cancels_retry (two_views false [] []).2 (two_views false [] []).1) as H.
  cbn -[client_unsubscribe] in H. eassert (H' := H _ eq_refl). clear H.
  destruct (client_unsubscribe _ _) as [m' calls]. destruct H' as (_ & H & _); [|vm_compute; discriminate|vm_compute; reflexivity|exact H].
  intros E. vm_compute in E. by apply elem_of_nil in E.
Defined.

(** A view that subscribes again with another session keeps its place among the
    handlers, so the value of a view that came after it wins: the request does
    not change. *)
Theorem repointing_ignored :
  let m := (two_views true [("targetSessionId", D_str "old")] [("targetSessionId", D_str "old")]).1 in
  let '(m', calls, _) := client_subscribe (fun _ _ _ => true) "p2p" "d"
      (metadata_request [("targetSessionId", D_str "new")]) "list" None m in
  calls = [] /\ (fun s => field (readRequestParams (as_request s)) "targetSessionId") <$> map_get "daemon.metadata:k" (mg_active m')
               = Some (D_str "old").
Proof. vm_compute. split; reflexivity. Qed.

(** ** Versions *)

Lemma noted_verdict d v c : daemonWireCompat d (noteDaemonWireVersion d v c).1.1 = (noteDaemonWireVersion d v c).1.2.
Proof.
  unfold noteDaemonWireVersion. set (k := compareDashboardWireVersion _ _). clearbody k.
  set (by_ := match k with compat_ok => _ | _ => _ end).
  assert (E : nullish (map_get d by_) compat_ok = k).
  { unfold by_. destruct k; [by rewrite get_delete, decide_True|by rewrite map_get_set, decide_True..]. }
  clearbody by_. unfold publish_compat. cbn zeta. by destruct (_ && _).
Qed.

Lemma gate_rendered d f c :
  let '(c', _, rendered) := version_gate d f c in
  rendered = true -> daemonWireCompat d c' = compat_ok
  /\ forall r, f = F_plain r -> field r "mode" <> D_str "protocol_mismatch"
       /\ (present (keyed_lane (field r "topic")) = true -> compareDashboardWireVersion DASHBOARD_WIRE_VERSION (field r "wireVersion") = compat_ok).
Proof.
  unfold version_gate. destruct f as [r|df]; [|by intros H; breflect].
  case_bool_decide as Hm; [by destruct (noteDaemonWireVersion _ _ _) as [[? ?] ?]|].
  destruct (present (keyed_lane (field r "topic"))) eqn:Hl.
  - pose proof (noted_verdict d (field r "wireVersion") c) as Hn.
    assert (E : (noteDaemonWireVersion d (field r "wireVersion") c).1.2 = compareDashboardWireVersion DASHBOARD_WIRE_VERSION (field r "wireVersion"))
      by (unfold noteDaemonWireVersion; by destruct (publish_compat _)).
    destruct (noteDaemonWireVersion _ _ _) as [[c' verdict] told]. cbn in Hn, E. intros H. breflect. subst verdict.
    split; [congruence|]. intros r' [= <-]. split; [exact Hm|]. intros _. congruence.
  - intros H. breflect. split; [done|]. intros r' [= <-]. by rewrite Hl.
Qed.

(** A frame reaches a handler only from a daemon whose last known version is the
    page's; a keyed snapshot states that version itself. *)
Theorem rendered_compatible f m h u s :
  map_get (buildSubscriptionId (frame_topic f) (frame_key f)) (mg_active m) = Some s ->
  Cc_handler h u ∈ (client_publish f m).2 ->
  daemonWireCompat (as_daemonId s) (mg_compat (client_publish f m).1) = compat_ok
  /\ h ∈ as_handlers s
  /\ forall r, f = F_plain r -> field r "mode" <> D_str "protocol_mismatch"
       /\ (present (keyed_lane (field r "topic")) = true -> compareDashboardWireVersion DASHBOARD_WIRE_VERSION (field r "wireVersion") = compat_ok).
Proof.
  intros Hs. unfold client_publish. rewrite Hs. pose proof (gate_rendered (as_daemonId s) f (mg_compat m)) as Hg.
  destruct (version_gate _ _ _) as [[c told] rendered].
  assert (Hno : Cc_handler h u ∉ ((if told then [Cc_compat_listeners] else []) : list ClientCall))
    by (destruct told; [by intros ?%list_elem_of_singleton|by intros ?%elem_of_nil]).
  destruct rendered; cbn [negb]; [|by intros ?]. destruct (Hg eq_refl) as [Hc Hf].
  destruct (read_update _ _) as [u'|]; cbn [snd fst mg_compat]; intros [?|Hin]%elem_of_app; try done.
  - split; [done|]. split; [|done]. apply list_elem_of_In, in_map_iff in Hin as (h' & [= -> _] & Hin). by apply list_elem_of_In.
  - destruct (as_transport s); [by apply list_elem_of_singleton in Hin|by apply elem_of_nil in Hin].
Qed.

Definition sample_snapshot : Frame := F_plain [("topic", D_str "daemon.metadata"); ("key", D_str "k");
  ("mode", D_str "snapshot"); ("wireVersion", D_num 2); ("status", D_obj [])].

Lemma rendered_compatible_witness :
  exists u s, map_get "daemon.metadata:k" (mg_active (two_views true [] []).1) = Some s
    /\ Cc_handler "list" u ∈ (client_publish sample_snapshot (two_views true [] []).1).2
    /\ daemonWireCompat (as_daemonId s) (mg_compat (client_publish sample_snapshot (two_views true [] []).1).1) = compat_ok.
Proof.
  assert (H : exists u s, map_get "daemon.metadata:k" (mg_active (two_views true [] []).1) = Some s
    /\ Cc_handler "list" u ∈ (client_publish sample_snapshot (two_views true [] []).1).2).
  { do 2 eexists. split; [vm_compute; reflexivity|]. vm_compute. by left. }
  destruct H as (u & s & Hs & Hu). exists u, s. split; [done|]. split; [done|].
  apply (rendered_compatible sample_snapshot (two_views true [] []).1 "list" u s); [exact Hs|exact Hu].
Defined.
