(* ===== verification/SessionBuffer.v ===== *)
(** * Scrollback of a session

    [packages/session-host-core/src/buffer.ts]: the output of a session is kept
    in numbered chunks up to a number of bytes; the oldest are evicted whole, and
    the head that remains is repaired when it starts inside a character or an
    escape sequence.  Texts are lists of UTF-16 code units, and
    [Buffer.byteLength] is the length of their UTF-8 encoding. *)

From S2P Require Import Prelude RpcChunking.

#[local] Open Scope Z_scope.

Definition DEFAULT_SESSION_RING_BUFFER_MAX_BYTES : Z := 4 * 1024 * 1024.

Notation byteLength := meshUtf8ByteLength.

Record BufferChunk : Set := { bc_seq : Z; bc_data : ustring; bc_bytes : Z }.

Record SessionRingBuffer : Set := {
  rb_maxBytes : Z; rb_chunks : list BufferChunk; rb_nextSeq : Z; rb_totalBytes : Z }.

Definition new_ring (maxBytes : option Z) : SessionRingBuffer := {|
  rb_maxBytes := nullish maxBytes DEFAULT_SESSION_RING_BUFFER_MAX_BYTES; rb_chunks := []; rb_nextSeq := 1; rb_totalBytes := 0 |}.

(** ** Repairing a head *)

(** Drop replacement characters and halves of surrogate pairs. *)
Fixpoint strip_damage (text : ustring) : ustring :=
  match text with
  | [] => []
  | c :: t =>
      if c =? 0xfffd then strip_damage t
      else if is_high c then
        match t with
        | d :: _ => if is_low d then text else strip_damage t
        | [] => strip_damage t
        end
      else if is_low c then strip_damage t
      else text
  end.

Definition ESC : Z := 0x1b.
Definition BEL : Z := 0x07.

Definition is_param (c : Z) : bool := bool_decide (c ∈ u "0123456789;?:<=>").
Definition CSI_FINAL (c : Z) : bool := (0x40 <=? c) && (c <=? 0x7e).
Definition CSI_COMMON_FINAL (c : Z) : bool := bool_decide (c ∈ u "ABCDEFGHJKSTLMPX@mnchlsurdfgqit").

(** The number of leading units that satisfy a test. *)
Fixpoint run_length (f : Z -> bool) (text : ustring) : nat :=
  match text with c :: t => if f c then S (run_length f t) else 0%nat | [] => 0%nat end.

Fixpoint index_of (c : Z) (text : ustring) : option nat :=
  match text with [] => None | d :: t => if d =? c then Some 0%nat else S <$> index_of c t end.

Definition danglingEscapeTailLength (text : ustring) : nat :=
  match text with
  | [] => 0%nat
  | c :: _ =>
      if c =? ESC then 0%nat
      else
        let hasIntroducer := (c =? 91) || (c =? 93) in
        let start := if hasIntroducer then 1%nat else 0%nat in
        let i := (start + run_length is_param (drop start text))%nat in
        match text !! i with
        | None => 0%nat
        | Some x =>
            if c =? 93 then match index_of BEL text with Some bel => S bel | None => 0%nat end
            else if negb (CSI_FINAL x) then 0%nat
            else if negb hasIntroducer && (bool_decide (i = start) || negb (CSI_COMMON_FINAL x)) then 0%nat
            else S i
        end
  end.

Definition stripDanglingPrefix (text : ustring) : ustring :=
  let rest := strip_damage text in
  drop (danglingEscapeTailLength rest) rest.

(** ** The buffer *)

(** Shift the oldest chunks while there are too many bytes; whether any was. *)
Fixpoint evict (maxBytes : Z) (chunks : list BufferChunk) (total : Z) : list BufferChunk * Z * bool :=
  match chunks with
  | c :: (_ :: _) as rest =>
      if maxBytes <? total then let '(cs, t, _) := evict maxBytes rest (total - bc_bytes c) in (cs, t, true)
      else (chunks, total, false)
  | _ => (chunks, total, false)
  end.

Definition healHead (b : SessionRingBuffer) : SessionRingBuffer :=
  match rb_chunks b with
  | [] => b
  | head :: rest =>
      let repaired := stripDanglingPrefix (bc_data head) in
      if bool_decide (repaired = bc_data head) then b
      else
        let bytes := byteLength repaired in
        {| b with rb_totalBytes := rb_totalBytes b - (bc_bytes head - bytes);
                  rb_chunks := {| head with bc_data := repaired; bc_bytes := bytes |} :: rest |}
  end.

Definition trim (b : SessionRingBuffer) : SessionRingBuffer :=
  let '(chunks, total, evicted) := evict (rb_maxBytes b) (rb_chunks b) (rb_totalBytes b) in
  let b := {| b with rb_chunks := chunks; rb_totalBytes := total |} in
  if evicted : bool then healHead b else b.

Definition append (data : ustring) (b : SessionRingBuffer) : SessionRingBuffer * Z :=
  let bytes := byteLength data in
  let seq := rb_nextSeq b in
  (trim {| b with rb_nextSeq := seq + 1; rb_totalBytes := rb_totalBytes b + bytes;
                  rb_chunks := (rb_chunks b ++ [{| bc_seq := seq; bc_data := data; bc_bytes := bytes |}])%list |}, seq).

Record SessionBufferSnapshot : Set := { bs_seq : Z; bs_text : ustring; bs_truncated : bool }.

Definition snapshot (sinceSeq : option Z) (b : SessionRingBuffer) : SessionBufferSnapshot :=
  let relevant := match sinceSeq with Some s => List.filter (fun c => s <? bc_seq c) (rb_chunks b) | None => rb_chunks b end in
  {| bs_seq := rb_nextSeq b - 1; bs_text := concat (map bc_data relevant);
     bs_truncated := match rb_chunks b, sinceSeq with head :: _, Some s => s <? bc_seq head - 1 | _, _ => false end |}.

Record SessionBufferState : Set := { sb_scrollbackBytes : Z; sb_snapshotSeq : Z }.

Definition getState (b : SessionRingBuffer) : SessionBufferState :=
  {| sb_scrollbackBytes := rb_totalBytes b; sb_snapshotSeq := rb_nextSeq b - 1 |}.

Definition clear (b : SessionRingBuffer) : SessionRingBuffer :=
  {| b with rb_chunks := []; rb_totalBytes := 0; rb_nextSeq := 1 |}.

Definition restore (seq : Z) (text : ustring) (b : SessionRingBuffer) : SessionRingBuffer :=
  let b := clear b in
  if bool_decide (text = []) then {| b with rb_nextSeq := Z.max 1 (seq + 1) |}
  else
    let bytes := byteLength text in
    let seq := Z.max 1 (if seq =? 0 then 1 else seq) in
    trim {| b with rb_chunks := [{| bc_seq := seq; bc_data := text; bc_bytes := bytes |}];
                   rb_totalBytes := bytes; rb_nextSeq := seq + 1 |}.

(** ** Repairs are suffixes *)

Lemma strip_damage_suffix text : exists n, strip_damage text = drop n text.
Proof.
  induction text as [|c t IH]; [by exists 0%nat|]. destruct IH as [n IH].
  assert (H : exists m, strip_damage t = drop m (c :: t)) by (by exists (S n)).
  assert (H0 : exists m, c :: t = drop m (c :: t)) by (by exists 0%nat).
  cbn [strip_damage]. repeat case_match; done.
Qed.

Lemma repaired_suffix text : exists lost, text = (lost ++ stripDanglingPrefix text)%list.
Proof.
  unfold stripDanglingPrefix. destruct (strip_damage_suffix text) as [n ->].
  exists (take (n + danglingEscapeTailLength (drop n text)) text). by rewrite drop_drop, take_drop.
Qed.

Lemma byteLength_eq c t :
  byteLength (c :: t)
  = if c <? 0x80 then 1 + byteLength t
    else if c <? 0x800 then 2 + byteLength t
    else if is_high c then
      match t with
      | d :: t' => if is_low d then 4 + byteLength t' else 3 + byteLength t
      | [] => 3 + byteLength t
      end
    else 3 + byteLength t.
Proof. by destruct t. Qed.

Lemma byteLength_cons c t : byteLength t <= byteLength (c :: t).
Proof.
  assert (Hlow : forall d t', is_low d = true -> byteLength (d :: t') = 3 + byteLength t').
  { intros d t' H. unfold is_low in H. breflect. cbn [byteLength]. unfold is_high.
    rewrite (proj2 (Z.ltb_ge d 0x80)), (proj2 (Z.ltb_ge d 0x800)), (proj2 (Z.leb_gt d 0xdbff)) by lia.
    by rewrite andb_false_r. }
  destruct t as [|d t']; [cbn; repeat case_match; lia|]. remember (d :: t') as t eqn:Et. pose proof (byteLength_eq c t) as ->.
  repeat case_match; subst; simplify_eq; try lia. rewrite Hlow by done. lia.
Qed.

Lemma byteLength_suffix lost t : byteLength t <= byteLength (lost ++ t)%list.
Proof.
  induction lost as [|c lost IH]; [done|]. cbn [app]. etransitivity; [exact IH|]. apply byteLength_cons.
Qed.

Lemma byteLength_nonneg t : 0 <= byteLength t.
Proof. pose proof (byteLength_suffix t []) as H. by rewrite app_nil_r in H. Qed.

(** * What a scrollback keeps

    Over any sequence of writes, a session's buffer holds the end of what was
    written since it was last cleared or restored, within its bound, and a reader
    that asks from a number gets everything after it unless told otherwise. *)

#[local] Coercion Z.of_nat : nat >-> Z.

(** Chunks as they were written, numbered from [seq]. *)
Fixpoint chunks_of (seq : Z) (ds : list ustring) : list BufferChunk :=
  match ds with
  | [] => []
  | d :: ds => {| bc_seq := seq; bc_data := d; bc_bytes := byteLength d |} :: chunks_of (seq + 1) ds
  end.

Fixpoint total_bytes (cs : list BufferChunk) : Z := match cs with [] => 0 | c :: cs => bc_bytes c + total_bytes cs end.

Lemma total_app cs cs' : total_bytes (cs ++ cs') = total_bytes cs + total_bytes cs'.
Proof. induction cs as [|c cs IH]; cbn; lia. Qed.

Lemma chunks_app seq ds ds' : chunks_of seq (ds ++ ds') = (chunks_of seq ds ++ chunks_of (seq + length ds) ds')%list.
Proof.
  revert seq. induction ds as [|d ds IH]; intros seq; cbn [app chunks_of length]; [by rewrite Z.add_0_r|].
  rewrite IH. do 2 f_equal. f_equal. lia.
Qed.

Lemma chunks_drop k seq ds : drop k (chunks_of seq ds) = chunks_of (seq + k) (drop k ds).
Proof.
  revert seq ds. induction k as [|k IH]; intros seq ds; [by rewrite Z.add_0_r|]. destruct ds as [|d ds]; [done|].
  cbn [chunks_of drop]. rewrite IH. f_equal. lia.
Qed.

Lemma chunks_data seq ds : map bc_data (chunks_of seq ds) = ds.
Proof. revert seq. induction ds as [|d ds IH]; intros seq; [done|]. cbn. by rewrite IH. Qed.

Lemma chunks_length seq ds : length (chunks_of seq ds) = length ds.
Proof. rewrite <- (length_map bc_data), chunks_data. done. Qed.

(** A head, maybe repaired, and the chunks after it. *)
Definition kept (base : Z) (n : nat) (text : ustring) (rest : list ustring) : list BufferChunk :=
  {| bc_seq := base + n + 1; bc_data := text; bc_bytes := byteLength text |} :: chunks_of (base + n + 2) rest.

(** [ds] was written after number [base], and the buffer holds its end: what
    remains of the write it starts in, and every later write whole. *)
Record holds_end (cs : list BufferChunk) (base : Z) (ds : list ustring) : Prop := {
  he_base : 0 <= base;
  he_kept : ds = [] /\ cs = [] \/
    exists n d lost text rest, drop n ds = d :: rest /\ d = (lost ++ text)%list /\ (n = 0%nat -> lost = [])
      /\ cs = kept base n text rest }.

Record ring_ok (b : SessionRingBuffer) (base : Z) (ds : list ustring) : Prop := {
  ro_end : holds_end (rb_chunks b) base ds;
  ro_next : rb_nextSeq b = base + length ds + 1;
  ro_total : rb_totalBytes b = total_bytes (rb_chunks b);
  ro_bound : rb_totalBytes b <= rb_maxBytes b \/ (length (rb_chunks b) <= 1)%nat }.

(** ** Trimming *)

Lemma evict_more maxBytes c c' cs total :
  evict maxBytes (c :: c' :: cs) total
  = if maxBytes <? total then let '(cs, t, _) := evict maxBytes (c' :: cs) (total - bc_bytes c) in (cs, t, true)
    else (c :: c' :: cs, total, false).
Proof. done. Qed.

Lemma evict_spec maxBytes cs : forall total, total = total_bytes cs ->
  let '(cs', t, evicted) := evict maxBytes cs total in
  t = total_bytes cs' /\ (t <= maxBytes \/ (length cs' <= 1)%nat)
  /\ exists k, cs' = drop k cs /\ (k = 0%nat <-> evicted = false) /\ (cs <> [] -> cs' <> []).
Proof.
  induction cs as [|c cs IH]; intros total ->.
  { cbn. split_and!; [done|right; lia|]. exists 0%nat. by split_and!. }
  destruct cs as [|c' cs]; [cbn; split_and!; [done|right; lia|]; exists 0%nat; by split_and!|].
  rewrite evict_more. destruct (maxBytes <? total_bytes (c :: c' :: cs)) eqn:E.
  - specialize (IH (total_bytes (c :: c' :: cs) - bc_bytes c) ltac:(cbn; lia)).
    destruct (evict maxBytes (c' :: cs) _) as [[cs' t] ev]. destruct IH as (Ht & Hb & k & Hk & _ & Hne).
    split_and!; [done|done|]. exists (S k). split_and!; [done|by split|]. intros _. by apply Hne.
  - breflect. split_and!; [done|by left|]. exists 0%nat. by split_and!.
Qed.

Lemma heal_kept b base n d rest :
  rb_chunks b = kept base n d rest -> rb_totalBytes b = total_bytes (rb_chunks b) ->
  exists lost text, d = (lost ++ text)%list /\ rb_chunks (healHead b) = kept base n text rest
    /\ rb_totalBytes (healHead b) = total_bytes (rb_chunks (healHead b)) /\ rb_totalBytes (healHead b) <= rb_totalBytes b
    /\ rb_maxBytes (healHead b) = rb_maxBytes b /\ rb_nextSeq (healHead b) = rb_nextSeq b.
Proof.
  intros Hc Ht. unfold healHead. rewrite Hc. cbn [kept bc_data]. destruct (repaired_suffix d) as [lost E].
  pose proof (byteLength_suffix lost (stripDanglingPrefix d)) as Hle. rewrite <- E in Hle.
  case_bool_decide as Er.
  - exists [], d. by split_and!.
  - exists lost, (stripDanglingPrefix d). rewrite Hc in Ht. cbn in *. split_and!; try done; lia.
Qed.

Lemma trim_ok b base ds :
  holds_end (rb_chunks b) base ds -> rb_nextSeq b = base + length ds + 1 -> rb_totalBytes b = total_bytes (rb_chunks b) ->
  ring_ok (trim b) base ds /\ rb_maxBytes (trim b) = rb_maxBytes b.
Proof.
  intros [Hb Hk] Hn Ht. unfold trim. pose proof (evict_spec (rb_maxBytes b) (rb_chunks b) (rb_totalBytes b) Ht) as H.
  destruct (evict _ _ _) as [[cs t] ev]. destruct H as (Htot & Hbound & k & Hcs & Hev & Hne).
  destruct Hk as [[-> E]|(n & d & lost & text & rest & Hd & Hl & H0 & E)].
  { rewrite E in *. destruct k; cbn in Hcs; subst cs; destruct ev; cbn in *; (split; [|done]); split; cbn; auto; split; auto. }
  destruct ev.
  - destruct k as [|k]; [by destruct Hev as [Hev _]; specialize (Hev eq_refl)|].
    rewrite E in Hcs. cbn [kept drop] in Hcs. rewrite chunks_drop in Hcs.
    assert (Hrest : drop k rest <> []).
    { intros En. rewrite En in Hcs. cbn in Hcs. apply Hne; [by rewrite E|done]. }
    destruct (drop k rest) as [|d' rest'] eqn:Ed; [done|]. clear Hrest.
    set (b1 := {| b with rb_chunks := cs; rb_totalBytes := t |}).
    assert (Hc1 : rb_chunks b1 = kept base (n + S k) d' rest').
    { cbn. rewrite Hcs. cbn [chunks_of]. unfold kept. f_equal; [f_equal; lia|]. f_equal. lia. }
    destruct (heal_kept b1 base (n + S k) d' rest' Hc1 Htot) as (lost' & text' & El & Ech & Etot & Hle & Em & Enx).
    split; [|exact Em]. split.
    + split; [done|]. right. exists (n + S k)%nat, d', lost', text', rest'. split_and!; try done; [|lia].
      rewrite <- drop_drop, Hd. exact Ed.
    + by rewrite Enx.
    + done.
    + rewrite Em. destruct Hbound as [Hle1|Hlen]; [left; cbn in *; lia|right]. rewrite Ech. rewrite Hcs in Hlen. rewrite chunks_length in Hlen. unfold kept. cbn in *. by rewrite chunks_length.
  - destruct Hev as [_ Hev]. specialize (Hev eq_refl). subst k. cbn in Hcs. subst cs. split; [|done].
    split; cbn; try done. split; [done|]. right. by exists n, d, lost, text, rest.
Qed.

(** ** Operations *)

Lemma holds_end_snoc cs base ds d seq :
  holds_end cs base ds -> seq = base + length ds + 1 ->
  holds_end (cs ++ [{| bc_seq := seq; bc_data := d; bc_bytes := byteLength d |}]) base (ds ++ [d]).
Proof.
  intros [Hb Hk] ->. split; [done|]. right. destruct Hk as [[-> ->]|(n & e & lost & text & rest & Hd & Hl & H0 & ->)].
  - exists 0%nat, d, [], d, []. by split_and!.
  - assert (Hlen : length ds = (n + S (length rest))%nat).
    { rewrite <- (take_drop n ds), length_app, Hd. cbn. apply (f_equal length) in Hd. rewrite length_drop in Hd. cbn in Hd.
      rewrite length_take. lia. }
    exists n, e, lost, text, (rest ++ [d])%list. split_and!; try done.
    + rewrite drop_app_le by lia. by rewrite Hd.
    + unfold kept. cbn [app]. rewrite chunks_app. cbn. do 3 f_equal. f_equal. lia.
Qed.

Lemma append_ok d b base ds :
  ring_ok b base ds -> ring_ok (append d b).1 base (ds ++ [d]) /\ (append d b).2 = base + length ds + 1
    /\ rb_maxBytes (append d b).1 = rb_maxBytes b.
Proof.
  intros [He Hn Ht _]. cbn [append fst snd]. split_and!; [|done|];
    apply (trim_ok {| b with rb_nextSeq := rb_nextSeq b + 1; rb_totalBytes := rb_totalBytes b + byteLength d;
              rb_chunks := (rb_chunks b ++ [{| bc_seq := rb_nextSeq b; bc_data := d; bc_bytes := byteLength d |}])%list |} base (ds ++ [d]));
    cbn [rb_chunks rb_nextSeq rb_totalBytes].
  1,4: by apply holds_end_snoc.
  1,3: rewrite length_app, Hn; cbn; lia.
  all: rewrite total_app, Ht; cbn; lia.
Qed.

Lemma clear_ok b : rb_maxBytes (clear b) = rb_maxBytes b /\ ring_ok (clear b) 0 [].
Proof. split; [done|]. split; cbn; auto. split; [lia|by left]. Qed.

(** What a restored text stands for. *)
Definition restored_base (seq : Z) (text : ustring) : Z :=
  if bool_decide (text = []) then Z.max 1 (seq + 1) - 1 else Z.max 1 (if seq =? 0 then 1 else seq) - 1.
Definition restored_writes (text : ustring) : list ustring := if bool_decide (text = []) then [] else [text].

Lemma restore_ok seq text b :
  rb_maxBytes (restore seq text b) = rb_maxBytes b /\ ring_ok (restore seq text b) (restored_base seq text) (restored_writes text).
Proof.
  unfold restore, restored_base, restored_writes. case_bool_decide as E.
  - split; [done|]. split; cbn; [|lia|done|auto]. split; [lia|by left].
  - set (s := Z.max 1 _). match goal with |- context [trim ?x] => destruct (trim_ok x (s - 1) [text]) as [? ?] end.
    + cbn. split; [lia|]. right. exists 0%nat, text, [], text, []. split_and!; try done. unfold kept. cbn. f_equal. f_equal. lia.
    + cbn. lia.
    + cbn. lia.
    + done.
Qed.

(** ** Runs *)

(** Writes, clearings and restorations, with what was written since the last
    clearing or restoration. *)
Inductive ring_run (maxBytes : Z) : SessionRingBuffer -> Z -> list ustring -> Prop :=
  | rr_new : ring_run maxBytes (new_ring (Some maxBytes)) 0 []
  | rr_append d b base ds : ring_run maxBytes b base ds -> ring_run maxBytes (append d b).1 base (ds ++ [d])
  | rr_clear b base ds : ring_run maxBytes b base ds -> ring_run maxBytes (clear b) 0 []
  | rr_restore seq text b base ds : ring_run maxBytes b base ds ->
      ring_run maxBytes (restore seq text b) (restored_base seq text) (restored_writes text).

Lemma run_ring_ok maxBytes b base ds : ring_run maxBytes b base ds -> ring_ok b base ds /\ rb_maxBytes b = maxBytes.
Proof.
  induction 1 as [|d b base ds _ [IH Em]|b base ds _ [IH Em]|seq text b base ds _ [IH Em]].
  - split; [|done]. split; cbn; auto. split; [lia|by left].
  - destruct (append_ok d b base ds IH) as (? & _ & ?). split; [done|congruence].
  - destruct (clear_ok b) as [E ?]. split; [done|congruence].
  - destruct (restore_ok seq text b) as [E ?]. split; [done|congruence].
Qed.

(** ** Reading *)

Lemma chunks_after s since ds :
  List.filter (fun c => since <? bc_seq c) (chunks_of s ds) = drop (Z.to_nat (since + 1 - s)) (chunks_of s ds).
Proof.
  revert s. induction ds as [|d ds IH]; intros s; [cbn; by rewrite drop_nil|]. cbn [chunks_of List.filter bc_seq].
  rewrite IH. destruct (since <? s) eqn:E; breflect.
  - replace (Z.to_nat (since + 1 - s)) with 0%nat by lia. by replace (Z.to_nat (since + 1 - (s + 1))) with 0%nat by lia.
  - replace (Z.to_nat (since + 1 - s)) with (S (Z.to_nat (since + 1 - (s + 1)))) by lia. done.
Qed.

Lemma read_kept base n d lost text rest ds since :
  drop n ds = d :: rest -> d = (lost ++ text)%list -> base <= since ->
  let k := Z.to_nat (since - base) in
  let read := concat (map bc_data (List.filter (fun c => since <? bc_seq c) (kept base n text rest))) in
  ((n < k)%nat /\ concat (drop k ds) = read)
  \/ (k <= n)%nat /\ concat (drop k ds) = (concat (take (n - k) (drop k ds)) ++ lost ++ read)%list.
Proof.
  intros Hd Hl Hs k read. unfold read, kept. cbn [List.filter bc_seq]. rewrite chunks_after, chunks_drop.
  destruct (decide (n < k)%nat) as [Hk|Hk].
  - left. split; [done|]. replace (since <? base + n + 1) with false by (symmetry; apply Z.ltb_ge; lia).
    rewrite chunks_data. replace (drop k ds) with (drop (k - n - 1) rest).
    + do 2 f_equal. lia.
    + replace k with (n + S (k - n - 1))%nat at 2 by lia. by rewrite <- drop_drop, Hd.
  - right. split; [lia|]. replace (since <? base + n + 1) with true by (symmetry; apply Z.ltb_lt; lia).
    cbn [map bc_data concat]. rewrite chunks_data. replace (Z.to_nat (since + 1 - (base + n + 2))) with 0%nat by lia.
    rewrite drop_0. rewrite (app_assoc lost), <- Hl. change (d ++ concat rest)%list with (concat (d :: rest)).
    rewrite <- Hd, <- concat_app. f_equal. replace (drop n ds) with (drop (n - k) (drop k ds)) by (rewrite drop_drop; f_equal; lia).
    by rewrite take_drop.
Qed.


(** The buffer stays within its bound, unless it holds one single write. *)
Lemma scrollback_bounded maxBytes b base ds :
  ring_run maxBytes b base ds ->
  rb_totalBytes b = total_bytes (rb_chunks b) /\ (rb_totalBytes b <= maxBytes \/ (length (rb_chunks b) <= 1)%nat).
Proof. intros Hr. destruct (run_ring_ok _ _ _ _ Hr) as [[_ _ Ht Hb] <-]. by split. Qed.

(** A buffer restored from a snapshot has the same snapshot. *)
Theorem restore_snapshot maxBytes b base ds b' :
  ring_run maxBytes b base ds ->
  let s := snapshot None b in snapshot None (restore (bs_seq s) (bs_text s) b') = s.
Proof.
  intros Hr s. destruct (run_ring_ok _ _ _ _ Hr) as [[[Hb Hk] Hn _ _] _]. unfold restore.
  assert (Hseq : bs_seq s = base + length ds) by (subst s; cbn; lia).
  assert (Ht : bs_truncated s = false) by (subst s; cbn; by destruct (rb_chunks b)).
  assert (Hne : bs_text s <> [] -> 1 <= bs_seq s).
  { intros Hx. rewrite Hseq. destruct ds as [|d ds]; [|cbn; lia]. destruct Hk as [[_ E]|(n & d & ? & ? & ? & Hd & _)].
    - exfalso. apply Hx. subst s. cbn. by rewrite E.
    - by rewrite drop_nil in Hd. }
  destruct s as [seq text tr]. cbn [bs_seq bs_text bs_truncated] in *. subst tr.
  case_bool_decide as E; unfold snapshot; cbn.
  - subst text. f_equal. lia.
  - specialize (Hne E). rewrite app_nil_r. f_equal. case_match; lia.
Qed.

Definition u_lines : list ustring := [u "one "; u "two "; u "three"].
Definition sample_ring : SessionRingBuffer := fold_left (fun b d => (append d b).1) u_lines (new_ring (Some 10)).

Lemma sample_ring_run : ring_run 10 sample_ring 0 u_lines.
Proof. exact (rr_append _ _ _ _ _ (rr_append _ _ _ _ _ (rr_append _ _ _ _ _ (rr_new 10)))). Qed.


Lemma restore_snapshot_witness :
  snapshot None (restore 3 (u "two three") (new_ring None)) = snapshot None sample_ring.
Proof. exact (restore_snapshot 10 sample_ring 0 u_lines (new_ring None) sample_ring_run). Defined.

(** ** A repaired head

    The reader already has the first half of an escape sequence. The chunk that
    follows becomes the oldest and loses its first characters, and the text is
    not reported truncated. *)
Theorem torn_sequence_unreported :
  exists b ds, ring_run 6 b 0 ds
    /\ bs_truncated (snapshot (Some 1) b) = false /\ bs_text (snapshot (Some 1) b) = u "xyz" /\ concat (drop 1 ds) = u "2Jxyz".
Proof.
  exists (append (u "2Jxyz") (append [ESC; 91] (new_ring (Some 6))).1).1, [[ESC; 91]; u "2Jxyz"].
  split; [exact (rr_append _ _ _ _ _ (rr_append _ _ _ _ _ (rr_new 6)))|]. vm_compute. by split_and!.
Qed.
