(* ===== verification/SessionTypes.v ===== *)
(** * Sessions of the host

    The records of [packages/session-host-core/src/types.ts] and the labels of
    [runtime-labels.ts]: names and keys of runtimes, and which records are live,
    recoverable or inactive.

    Paths are POSIX paths; lower case is that of ASCII letters. *)

From stdpp Require Import pretty.
From S2P Require Import Prelude KeyedDoc Admission SessionBuffer.

#[local] Open Scope string_scope.
#[local] Open Scope Z_scope.

(** ** Records *)

Inductive SessionHostCategory : Set := cat_cli | cat_acp | cat_shell.
Inductive SessionLifecycle : Set := starting | running | stopping | stopped | failed | interrupted.
Inductive SessionClientType : Set := client_daemon | client_web | client_local_terminal.
Inductive SessionOwnerType : Set := owner_agent | owner_user.
Inductive SessionHostSurfaceKind : Set := live_runtime | recovery_snapshot | inactive_record.

#[global] Instance SessionHostCategory_eq_dec : EqDecision SessionHostCategory.
Proof. solve_decision. Defined.
#[global] Instance SessionLifecycle_eq_dec : EqDecision SessionLifecycle.
Proof. solve_decision. Defined.
#[global] Instance SessionClientType_eq_dec : EqDecision SessionClientType.
Proof. solve_decision. Defined.
#[global] Instance SessionHostSurfaceKind_eq_dec : EqDecision SessionHostSurfaceKind.
Proof. solve_decision. Defined.

Record SessionLaunchCommand : Type := { lc_command : string; lc_args : list string; lc_env : option (jsmap string) }.
Record SessionWriteOwner : Set := { wo_clientId : string; wo_ownerType : SessionOwnerType; wo_acquiredAt : Z }.
Record SessionAttachedClient : Set := {
  ac_clientId : string; ac_type : SessionClientType; ac_readOnly : bool; ac_attachedAt : Z; ac_lastSeenAt : Z }.

(** How a process ended; the codes are kept as observed. *)
Record SessionTermination : Set := {
  te_exitCode : option Z; te_signal : option Z; te_reason : string; te_lifecycle : SessionLifecycle;
  te_terminatedAt : Z; te_osPid : option Z; te_previousLifecycle : option SessionLifecycle;
  te_lastOutputAt : option Z; te_requestedStop : option string }.

Record SessionHostRecord : Type := {
  sr_sessionId : string; sr_runtimeKey : string; sr_displayName : string; sr_workspaceLabel : string;
  sr_providerType : string; sr_category : SessionHostCategory; sr_workspace : string;
  sr_launchCommand : SessionLaunchCommand; sr_osPid : option Z; sr_createdAt : Z; sr_startedAt : option Z;
  sr_lastActivityAt : Z; sr_lifecycle : SessionLifecycle; sr_surfaceKind : option SessionHostSurfaceKind;
  sr_writeOwner : option SessionWriteOwner; sr_attachedClients : list SessionAttachedClient;
  sr_buffer : SessionBufferState; sr_meta : Row; sr_termination : option SessionTermination;
  sr_inputSeq : option Z; sr_inputEpoch : option string }.

Record CreateSessionPayload : Type := {
  cs_sessionId : option string; cs_runtimeKey : option string; cs_displayName : option string;
  cs_providerType : string; cs_category : SessionHostCategory; cs_workspace : string;
  cs_launchCommand : SessionLaunchCommand; cs_cols : option Z; cs_rows : option Z;
  cs_clientId : option string; cs_clientType : option SessionClientType; cs_meta : option Row }.

(** [s || t], for strings. *)
Definition str_or (s t : string) : string := if bool_decide (s = "") then t else s.

(** ** Slugs *)

Definition char (c : Ascii.ascii) : string := String c EmptyString.
Definition dash : Ascii.ascii := Ascii.ascii_of_nat 45.
Definition slash : Ascii.ascii := Ascii.ascii_of_nat 47.
Definition backslash : Ascii.ascii := Ascii.ascii_of_nat 92.

Definition slug_char (c : Ascii.ascii) : bool :=
  let n := Ascii.nat_of_ascii c in ((97 <=? n) && (n <=? 122) || (48 <=? n) && (n <=? 57))%nat.

(** [.replace(/[^a-z0-9]+/g, '-')]; [run]: the last character was replaced. *)
Fixpoint dash_runs (run : bool) (s : string) : string :=
  match s with
  | EmptyString => EmptyString
  | String c t =>
      if slug_char c then String c (dash_runs false t)
      else if run then dash_runs true t else String dash (dash_runs true t)
  end.

Fixpoint strip_start (f : Ascii.ascii -> bool) (s : string) : string :=
  match s with String c t => if f c then strip_start f t else s | EmptyString => EmptyString end.

Fixpoint strip_end (f : Ascii.ascii -> bool) (s : string) : string :=
  match s with
  | EmptyString => EmptyString
  | String c t => match strip_end f t with
                  | EmptyString => if f c then EmptyString else char c
                  | t' => String c t'
                  end
  end.

Definition is_dash (c : Ascii.ascii) : bool := bool_decide (c = dash).
Definition is_slash (c : Ascii.ascii) : bool := bool_decide (c = slash) || bool_decide (c = backslash).

Definition normalizeSlug (input : string) : string :=
  String.substring 0 48 (strip_end is_dash (strip_start is_dash (dash_runs false (to_lower (js_trim input))))).

Definition normalizeValue (input : string) : string := to_lower (js_trim input).

(** [path.basename] of a path without trailing slashes. *)
Fixpoint basename_from (s acc : string) : string :=
  match s with
  | EmptyString => acc
  | String c t => if bool_decide (c = slash) then basename_from t "" else basename_from t (acc ++ char c)
  end.
Definition basename (s : string) : string := basename_from s "".

Definition getWorkspaceLabel (workspace : string) : string :=
  let trimmed := js_trim workspace in
  if bool_decide (trimmed = "") then "workspace"
  else
    let normalized := strip_end is_slash trimmed in
    str_or (basename normalized) normalized.

Definition buildRuntimeDisplayName (payload : CreateSessionPayload) : string :=
  let explicit := nullish (js_trim <$> cs_displayName payload) "" in
  str_or explicit (str_or (js_trim (cs_providerType payload)) "runtime" ++ " @ " ++ getWorkspaceLabel (cs_workspace payload)).

(** The first key [base-suffix] that is not taken. *)
Fixpoint next_key (fuel : nat) (existing : list string) (base : string) (suffix : Z) : option string :=
  match fuel with
  | O => None
  | S fuel =>
      let candidate := base ++ "-" ++ pretty suffix in
      if bool_decide (candidate ∈ existing) then next_key fuel existing base (suffix + 1) else Some candidate
  end.

Definition base_key (payload : CreateSessionPayload) : string :=
  let requested := nullish (js_trim <$> cs_runtimeKey payload) "" in
  str_or (normalizeSlug (str_or requested (str_or (buildRuntimeDisplayName payload)
    (str_or (getWorkspaceLabel (cs_workspace payload)) (str_or (cs_providerType payload) "runtime"))))) "runtime".

Definition buildRuntimeKey (payload : CreateSessionPayload) (existingKeys : list string) : option string :=
  let existing := map to_lower existingKeys in
  let baseKey := base_key payload in
  if bool_decide (baseKey ∈ existing) then next_key (S (length existing)) existing baseKey 2 else Some baseKey.

(** ** Kinds of records *)

Definition is_live_lifecycle (l : SessionLifecycle) : bool :=
  match l with starting | running | stopping | interrupted => true | _ => false end.
Definition is_terminal_lifecycle (l : SessionLifecycle) : bool :=
  match l with stopped | failed => true | _ => false end.

Definition isTerminalRecord (r : SessionHostRecord) : bool := present (sr_termination r) || is_terminal_lifecycle (sr_lifecycle r).

Definition isSessionHostLiveRuntime (r : SessionHostRecord) : bool :=
  match sr_surfaceKind r with
  | Some live_runtime => true
  | Some _ => false
  | None => negb (present (sr_termination r)) && is_live_lifecycle (sr_lifecycle r)
  end.

(** [.replace(/_/g, ' ')] *)
Fixpoint spaced (s : string) : string :=
  match s with
  | EmptyString => EmptyString
  | String c t => String (if bool_decide (c = Ascii.ascii_of_nat 95) then Ascii.ascii_of_nat 32 else c) (spaced t)
  end.

Definition getSessionHostRecoveryLabel (meta : Row) : option string :=
  let recoveryState := match field meta "runtimeRecoveryState" with D_str s => js_trim s | _ => "" end in
  if bool_decide (recoveryState = "") then None
  else if bool_decide (recoveryState = "auto_resumed") then Some "restored after restart"
  else if bool_decide (recoveryState = "resume_failed") then Some "restore failed"
  else if bool_decide (recoveryState = "host_restart_interrupted") then Some "host restart interrupted"
  else if bool_decide (recoveryState = "orphan_snapshot") then Some "snapshot recovered"
  else Some (spaced recoveryState).

Definition isSessionHostRecoverySnapshot (r : SessionHostRecord) : bool :=
  match sr_surfaceKind r with
  | Some recovery_snapshot => true
  | Some _ => false
  | None =>
      if isSessionHostLiveRuntime r then false
      else if negb (is_terminal_lifecycle (sr_lifecycle r)) then false
      else if bool_decide (field (sr_meta r) "restoredFromStorage" = D_bool true) then true
      else present (getSessionHostRecoveryLabel (sr_meta r))
  end.

Definition getSessionHostSurfaceKind (r : SessionHostRecord) : SessionHostSurfaceKind :=
  match sr_surfaceKind r with
  | Some kind => kind
  | None => if isSessionHostLiveRuntime r then live_runtime
            else if isSessionHostRecoverySnapshot r then recovery_snapshot else inactive_record
  end.

Definition partitionSessionHostRecords (records : list SessionHostRecord)
    : list SessionHostRecord * list SessionHostRecord * list SessionHostRecord :=
  fold_left (fun '(live, recovery, inactive) r =>
    match getSessionHostSurfaceKind r with
    | live_runtime => (live ++ [r], recovery, inactive)
    | recovery_snapshot => (live, recovery ++ [r], inactive)
    | inactive_record => (live, recovery, inactive ++ [r])
    end)%list records ([], [], []).

(** ** Finding a runtime *)

Inductive TargetError : Type :=
  | Tg_required | Tg_ambiguous (matches : list SessionHostRecord) | Tg_unknown (target : string)
  | Tg_recovery (runtimeKey : string) | Tg_inactive (runtimeKey : string) (lifecycle : SessionLifecycle).

Definition uniqueMatch (records : list SessionHostRecord) (p : SessionHostRecord -> bool) : TargetError + option SessionHostRecord :=
  match List.filter p records with
  | [] => inr None
  | [r] => inr (Some r)
  | matches => inl (Tg_ambiguous matches)
  end.

Definition names_exactly (target : string) (r : SessionHostRecord) : bool :=
  bool_decide (sr_sessionId r = target) || bool_decide (normalizeValue (sr_runtimeKey r) = normalizeValue target)
  || bool_decide (normalizeValue (sr_displayName r) = normalizeValue target).

Definition names_prefix (target : string) (r : SessionHostRecord) : bool :=
  String.prefix target (sr_sessionId r) || String.prefix (normalizeValue target) (normalizeValue (sr_runtimeKey r)).

Definition resolveRuntimeRecord (records : list SessionHostRecord) (identifier : string) : TargetError + SessionHostRecord :=
  let target := js_trim identifier in
  if bool_decide (target = "") then inl Tg_required
  else match uniqueMatch records (names_exactly target) with
       | inl e => inl e
       | inr (Some r) => inr r
       | inr None =>
           match uniqueMatch records (names_prefix target) with
           | inl e => inl e
           | inr (Some r) => inr r
           | inr None => inl (Tg_unknown target)
           end
       end.

Definition resolveAttachableRuntimeRecord (records : list SessionHostRecord) (identifier : string) : TargetError + SessionHostRecord :=
  match resolveRuntimeRecord records identifier with
  | inl e => inl e
  | inr r => match getSessionHostSurfaceKind r with
             | live_runtime => inr r
             | recovery_snapshot => inl (Tg_recovery (sr_runtimeKey r))
             | inactive_record => inl (Tg_inactive (sr_runtimeKey r) (sr_lifecycle r))
             end
  end.
