(* ===== verification/SessionRegistry.v ===== *)
(** * The session host's registry

    [packages/session-host-core/src/registry.ts]: the sessions of a host, their
    attached clients and write owner, their input counter and their scrollback.

    Records are copied by value, so [cloneRecord] is the identity.  Operations
    take the time and the fresh ids they read; several reads of the clock in one
    operation give the same time. *)

From stdpp Require Import pretty.
From S2P Require Import Prelude RpcChunking KeyedDoc SessionBuffer SessionTypes.

#[local] Open Scope string_scope.
#[local] Open Scope Z_scope.

Definition DEFAULT_SESSION_HOST_COLS : Z := 80.
Definition DEFAULT_SESSION_HOST_ROWS : Z := 32.

Definition normalizeSessionHostDimension (value : option Z) (fallback : Z) : Z :=
  match value with Some v => if 0 <? v then v else fallback | None => fallback end.

Definition resolveSessionHostCols (value : option Z) : Z := normalizeSessionHostDimension value DEFAULT_SESSION_HOST_COLS.
Definition resolveSessionHostRows (value : option Z) : Z := normalizeSessionHostDimension value DEFAULT_SESSION_HOST_ROWS.

Record SessionRuntimeState : Type := { rs_record : SessionHostRecord; rs_buffer : SessionRingBuffer }.

Record SessionHostRegistry : Type := {
  hr_sessions : jsmap SessionRuntimeState; hr_lifetimeId : string; hr_epochCounter : Z }.

Definition new_registry (lifetimeId : string) : SessionHostRegistry :=
  {| hr_sessions := []; hr_lifetimeId := lifetimeId; hr_epochCounter := 0 |}.

Inductive RegistryError : Type :=
  | Re_exists (sessionId : string) | Re_unknown (sessionId : string) | Re_incarnation (sessionId : string)
  | Re_owned (clientId : string) | Re_census.

(** The [n]th epoch of a lifetime. *)
Definition epoch_name (lifetimeId : string) (n : Z) : string := lifetimeId ++ ":" ++ pretty n.

Definition mintInputEpoch (r : SessionHostRegistry) : string * SessionHostRegistry :=
  let n := hr_epochCounter r + 1 in
  (epoch_name (hr_lifetimeId r) n, {| r with hr_epochCounter := n |}).

Definition set_session (sessionId : string) (state : SessionRuntimeState) (r : SessionHostRegistry) : SessionHostRegistry :=
  {| r with hr_sessions := map_set sessionId state (hr_sessions r) |}.

(** ** Creating and restoring *)

Definition initial_client (payload : CreateSessionPayload) (nowMs : Z) : list SessionAttachedClient :=
  if truthy_str (cs_clientId payload) then
    [{| ac_clientId := nullish (cs_clientId payload) ""; ac_type := nullish (cs_clientType payload) client_daemon;
        ac_readOnly := false; ac_attachedAt := nowMs; ac_lastSeenAt := nowMs |}]
  else [].

Definition new_record (payload : CreateSessionPayload) (sessionId runtimeKey epoch : string) (nowMs : Z) : SessionHostRecord := {|
  sr_sessionId := sessionId; sr_runtimeKey := runtimeKey; sr_displayName := buildRuntimeDisplayName payload;
  sr_workspaceLabel := getWorkspaceLabel (cs_workspace payload); sr_providerType := cs_providerType payload;
  sr_category := cs_category payload; sr_workspace := cs_workspace payload; sr_launchCommand := cs_launchCommand payload;
  sr_osPid := None; sr_createdAt := nowMs; sr_startedAt := None; sr_lastActivityAt := nowMs; sr_lifecycle := starting;
  sr_surfaceKind := None; sr_writeOwner := None; sr_attachedClients := initial_client payload nowMs;
  sr_buffer := {| sb_scrollbackBytes := 0; sb_snapshotSeq := 0 |};
  sr_meta := assign [("sessionHostCols", D_num (resolveSessionHostCols (cs_cols payload)));
                     ("sessionHostRows", D_num (resolveSessionHostRows (cs_rows payload)))] (nullish (cs_meta payload) []);
  sr_termination := None; sr_inputSeq := Some 0; sr_inputEpoch := Some epoch |}.

Definition runtime_keys (r : SessionHostRegistry) : list string := map (fun e => sr_runtimeKey (rs_record e.2)) (hr_sessions r).

(** No key: the search for a free one did not end. *)
Definition createSession (uuid : string) (nowMs : Z) (payload : CreateSessionPayload) (r : SessionHostRegistry)
    : option (RegistryError + SessionHostRegistry) :=
  let sessionId := if truthy_str (cs_sessionId payload) then nullish (cs_sessionId payload) "" else uuid in
  if has_key sessionId (hr_sessions r) then Some (inl (Re_exists sessionId))
  else match buildRuntimeKey payload (runtime_keys r) with
       | None => None
       | Some key =>
           let '(epoch, r) := mintInputEpoch r in
           Some (inr (set_session sessionId {| rs_record := new_record payload sessionId key epoch nowMs; rs_buffer := new_ring None |} r))
       end.

(** The counter of a restored record goes on in place, or a new epoch starts. *)
Definition same_lifetime (cloned : SessionHostRecord) (seq : Z) (live : option SessionHostRecord) : bool :=
  match live with
  | Some l => present (sr_inputEpoch l) && bool_decide (sr_inputEpoch cloned = sr_inputEpoch l)
              && (nullish (sr_inputSeq l) 0 <=? seq)
  | None => false
  end.

Definition restoreSession (record : SessionHostRecord) (snap : option (Z * ustring)) (r : SessionHostRegistry) : SessionHostRegistry :=
  let seq := nullish (sr_inputSeq record) 0 in
  let live := rs_record <$> map_get (sr_sessionId record) (hr_sessions r) in
  let '(epoch, r) := if same_lifetime record seq live then (sr_inputEpoch record, r)
                     else let '(e, r) := mintInputEpoch r in (Some e, r) in
  set_session (sr_sessionId record)
    {| rs_record := {| record with sr_inputSeq := Some seq; sr_inputEpoch := epoch |};
       rs_buffer := match snap with Some (s, t) => restore s t (new_ring None) | None => new_ring None end |} r.

(** ** Reading *)

Definition getSession (sessionId : string) (r : SessionHostRegistry) : option SessionHostRecord :=
  rs_record <$> map_get sessionId (hr_sessions r).

(** Latest activity first, ties in the order of the map. *)
Fixpoint insert_recent (x : SessionHostRecord) (l : list SessionHostRecord) : list SessionHostRecord :=
  match l with
  | [] => [x]
  | y :: t => if sr_lastActivityAt y <=? sr_lastActivityAt x then x :: l else y :: insert_recent x t
  end.
Definition by_activity (l : list SessionHostRecord) : list SessionHostRecord := foldr insert_recent [] l.

Definition listSessions (r : SessionHostRegistry) : list SessionHostRecord :=
  by_activity (map (fun e => rs_record e.2) (hr_sessions r)).

Definition is_over (r : SessionHostRecord) : bool := present (sr_termination r) || is_terminal_lifecycle (sr_lifecycle r).

Definition summary (r : SessionHostRecord) : SessionHostRecord := {| r with
  sr_launchCommand := {| lc_command := lc_command (sr_launchCommand r); lc_args := []; lc_env := None |};
  sr_meta := if is_over r then [] else assign (sr_meta r) [("cliArgs", D_arr []); ("cliArgsOmitted", D_bool true)] |}.

Definition listSessionSummaries (activeOnly : bool) (r : SessionHostRegistry) : list SessionHostRecord :=
  by_activity (map summary (List.filter (fun r => negb activeOnly || negb (is_over r)) (map (fun e => rs_record e.2) (hr_sessions r)))).

Record SessionCensus : Set := { sc_liveSessionIds : list string; sc_hasOtherAssistantCandidates : bool }.

Definition is_assistant (meta : Row) : bool :=
  let launch := match field meta "launchRecord" with D_obj fs => fs | _ => [] end in
  bool_decide (field meta "assistant" = D_bool true) || bool_decide (field launch "launchedBy" = D_str "assistant")
  || match field launch "roleLaunch" with D_obj role => bool_decide (field role "role" = D_str "assistant") | _ => false end.

Definition getSessionCensus (sessionIds : list string) (r : SessionHostRegistry) : RegistryError + SessionCensus :=
  if (128 <? length sessionIds)%nat
     || existsb (fun id => (String.length id =? 0)%nat || (256 <? String.length id)%nat) sessionIds
  then inl Re_census
  else inr (fold_left (fun acc e =>
    let record := rs_record e.2 in
    if negb (bool_decide (sr_category record = cat_cli)) || present (sr_termination record)
       || negb (is_live_lifecycle (sr_lifecycle record)) then acc
    else if bool_decide (sr_sessionId record ∈ sessionIds)
    then {| acc with sc_liveSessionIds := (sc_liveSessionIds acc ++ [sr_sessionId record])%list |}
    else if is_assistant (sr_meta record) then {| acc with sc_hasOtherAssistantCandidates := true |} else acc)
    (hr_sessions r) {| sc_liveSessionIds := []; sc_hasOtherAssistantCandidates := false |}).

(** ** Operations on a session *)

(** Change a session's record; unknown sessions are an error. *)
Definition on_session (sessionId : string) (f : SessionRuntimeState -> RegistryError + SessionRuntimeState) (r : SessionHostRegistry)
    : RegistryError + SessionHostRegistry :=
  match map_get sessionId (hr_sessions r) with
  | None => inl (Re_unknown sessionId)
  | Some state => match f state with inl e => inl e | inr state => inr (set_session sessionId state r) end
  end.

Definition on_record (sessionId : string) (f : SessionHostRecord -> SessionHostRecord) : SessionHostRegistry -> RegistryError + SessionHostRegistry :=
  on_session sessionId (fun s => inr {| s with rs_record := f (rs_record s) |}).

Record AttachSessionPayload : Set := { at_sessionId : string; at_clientId : string; at_clientType : SessionClientType; at_readOnly : bool }.

Definition is_stale_daemon (p : AttachSessionPayload) (c : SessionAttachedClient) : bool :=
  bool_decide (ac_type c = client_daemon) && negb (bool_decide (ac_clientId c = at_clientId p)).

(** A daemon that attaches replaces the other daemons. *)
Definition without_stale (p : AttachSessionPayload) (clients : list SessionAttachedClient) : list SessionAttachedClient :=
  match at_clientType p with
  | client_daemon => List.filter (fun c => negb (is_stale_daemon p c)) clients
  | _ => clients
  end.

Definition removed_owner (p : AttachSessionPayload) (record : SessionHostRecord) : bool :=
  match at_clientType p, sr_writeOwner record with
  | client_daemon, Some owner =>
      bool_decide (wo_clientId owner ∈ map ac_clientId (List.filter (is_stale_daemon p) (sr_attachedClients record)))
  | _, _ => false
  end.

(** Change the first client with an id. *)
Fixpoint update_client (clientId : string) (f : SessionAttachedClient -> SessionAttachedClient) (l : list SessionAttachedClient)
    : list SessionAttachedClient :=
  match l with
  | [] => []
  | c :: t => if bool_decide (ac_clientId c = clientId) then f c :: t else c :: update_client clientId f t
  end.

Definition has_client (clientId : string) (l : list SessionAttachedClient) : bool :=
  existsb (fun c => bool_decide (ac_clientId c = clientId)) l.

Definition attach_record (nowMs : Z) (p : AttachSessionPayload) (record : SessionHostRecord) : SessionHostRecord :=
  let clients := without_stale p (sr_attachedClients record) in
  {| record with
     sr_attachedClients :=
       if has_client (at_clientId p) clients
       then update_client (at_clientId p) (fun c => {| c with ac_type := at_clientType p; ac_readOnly := at_readOnly p; ac_lastSeenAt := nowMs |}) clients
       else (clients ++ [{| ac_clientId := at_clientId p; ac_type := at_clientType p; ac_readOnly := at_readOnly p;
                            ac_attachedAt := nowMs; ac_lastSeenAt := nowMs |}])%list;
     sr_writeOwner := if removed_owner p record then None else sr_writeOwner record;
     sr_lastActivityAt := nowMs |}.

Definition attachClient (nowMs : Z) (p : AttachSessionPayload) : SessionHostRegistry -> RegistryError + SessionHostRegistry :=
  on_record (at_sessionId p) (attach_record nowMs p).

(** The process a client expects: session, key and start time. *)
Record Incarnation : Set := { in_sessionId : string; in_runtimeKey : string; in_startedAt : Z }.

Definition attachClientIfIncarnation (nowMs : Z) (expected : option Incarnation) (p : AttachSessionPayload) (r : SessionHostRegistry)
    : RegistryError + SessionHostRegistry :=
  match map_get (at_sessionId p) (hr_sessions r) with
  | None => inl (Re_unknown (at_sessionId p))
  | Some state =>
      let record := rs_record state in
      match expected with
      | None => inl (Re_incarnation (at_sessionId p))
      | Some e =>
          if negb (bool_decide (in_sessionId e = sr_sessionId record)) || bool_decide (in_runtimeKey e = "")
             || (in_startedAt e <=? 0) || negb (bool_decide (in_runtimeKey e = sr_runtimeKey record))
             || negb (bool_decide (Some (in_startedAt e) = sr_startedAt record))
          then inl (Re_incarnation (at_sessionId p))
          else attachClient nowMs p r
      end
  end.

Definition owner_is (clientId : string) (record : SessionHostRecord) : bool :=
  bool_decide (wo_clientId <$> sr_writeOwner record = Some clientId).

Definition detachClient (nowMs : Z) (sessionId clientId : string) : SessionHostRegistry -> RegistryError + SessionHostRegistry :=
  on_record sessionId (fun record => {| record with
    sr_attachedClients := List.filter (fun c => negb (bool_decide (ac_clientId c = clientId))) (sr_attachedClients record);
    sr_writeOwner := if owner_is clientId record then None else sr_writeOwner record; sr_lastActivityAt := nowMs |}).

(** Start a counter on a record that has none. *)
Definition counting (seq : Z) (record : SessionHostRecord) (r : SessionHostRegistry) : SessionHostRecord * SessionHostRegistry :=
  match sr_inputEpoch record with
  | Some _ => ({| record with sr_inputSeq := Some seq |}, r)
  | None => let '(e, r) := mintInputEpoch r in ({| record with sr_inputSeq := Some seq; sr_inputEpoch := Some e |}, r)
  end.

(** Count an input, or only read the counter. *)
Definition with_counter (seq_of : option Z -> Z) (sessionId : string) (r : SessionHostRegistry) : RegistryError + SessionHostRegistry * Z :=
  match map_get sessionId (hr_sessions r) with
  | None => inl (Re_unknown sessionId)
  | Some state =>
      let seq := seq_of (sr_inputSeq (rs_record state)) in
      let '(record, r) := counting seq (rs_record state) r in
      inr (set_session sessionId {| state with rs_record := record |} r, seq)
  end.

Definition recordInput : string -> SessionHostRegistry -> RegistryError + SessionHostRegistry * Z :=
  with_counter (fun seq => nullish seq 0 + 1).
Definition getInputState : string -> SessionHostRegistry -> RegistryError + SessionHostRegistry * Z :=
  with_counter (fun seq => nullish seq 0).

(** A client that writes or releases is seen, and no longer read-only. *)
Definition seen_writing (nowMs : Z) (clientId : string) (clients : list SessionAttachedClient) : list SessionAttachedClient :=
  update_client clientId (fun c => {| c with ac_readOnly := false; ac_lastSeenAt := nowMs |}) clients.

(** The owner that keeps another client from writing. *)
Definition other_owner (clientId : string) (record : SessionHostRecord) : option string :=
  match sr_writeOwner record with
  | Some owner => if bool_decide (wo_clientId owner = clientId) then None else Some (wo_clientId owner)
  | None => None
  end.

Definition acquireWrite (nowMs : Z) (sessionId clientId : string) (ownerType : SessionOwnerType) (force : bool)
    : SessionHostRegistry -> RegistryError + SessionHostRegistry :=
  on_session sessionId (fun state =>
    let record := rs_record state in
    match other_owner clientId record, force with
    | Some owner, false => inl (Re_owned owner)
    | _, _ => inr {| state with rs_record := {| record with
        sr_attachedClients := seen_writing nowMs clientId (sr_attachedClients record);
        sr_writeOwner := Some {| wo_clientId := clientId; wo_ownerType := ownerType; wo_acquiredAt := nowMs |};
        sr_lastActivityAt := nowMs |} |}
    end).

Definition releaseWrite (nowMs : Z) (sessionId clientId : string) : SessionHostRegistry -> RegistryError + SessionHostRegistry :=
  on_record sessionId (fun record => {| record with
    sr_attachedClients := seen_writing nowMs clientId (sr_attachedClients record);
    sr_writeOwner := if owner_is clientId record then None else sr_writeOwner record; sr_lastActivityAt := nowMs |}).

Definition appendOutput (nowMs : Z) (sessionId : string) (data : ustring) : SessionHostRegistry -> RegistryError + SessionHostRegistry :=
  on_session sessionId (fun state =>
    let buffer := (append data (rs_buffer state)).1 in
    inr {| rs_record := {| (rs_record state) with sr_buffer := getState buffer; sr_lastActivityAt := nowMs |}; rs_buffer := buffer |}).

Definition getSnapshot (sessionId : string) (sinceSeq : option Z) (r : SessionHostRegistry)
    : RegistryError + SessionHostRegistry * SessionBufferSnapshot :=
  match map_get sessionId (hr_sessions r) with
  | None => inl (Re_unknown sessionId)
  | Some state =>
      inr (set_session sessionId {| state with rs_record := {| (rs_record state) with sr_buffer := getState (rs_buffer state) |} |} r,
           snapshot sinceSeq (rs_buffer state))
  end.

Definition clearBuffer (nowMs : Z) (sessionId : string) : SessionHostRegistry -> RegistryError + SessionHostRegistry :=
  on_session sessionId (fun state =>
    let buffer := clear (rs_buffer state) in
    inr {| rs_record := {| (rs_record state) with sr_buffer := getState buffer; sr_lastActivityAt := nowMs |}; rs_buffer := buffer |}).

Definition updateSessionMeta (nowMs : Z) (sessionId : string) (meta : Row) (replace : bool)
    : SessionHostRegistry -> RegistryError + SessionHostRegistry :=
  on_record sessionId (fun record =>
    {| record with sr_meta := if replace then meta else assign (sr_meta record) meta; sr_lastActivityAt := nowMs |}).

(** [startedAt || now] *)
Definition start_time (nowMs : Z) (startedAt : option Z) : Z :=
  match startedAt with Some t => if t =? 0 then nowMs else t | None => nowMs end.

Definition markStarted (nowMs : Z) (sessionId : string) (pid : option Z) : SessionHostRegistry -> RegistryError + SessionHostRegistry :=
  on_record sessionId (fun record =>
    {| record with sr_lifecycle := running; sr_startedAt := Some (start_time nowMs (sr_startedAt record));
                   sr_osPid := nullish_or pid (sr_osPid record); sr_lastActivityAt := nowMs |}).

Definition markStopped (nowMs : Z) (sessionId : string) (lifecycle : SessionLifecycle) (termination : option SessionTermination)
    : SessionHostRegistry -> RegistryError + SessionHostRegistry :=
  on_record sessionId (fun record =>
    {| record with sr_lifecycle := lifecycle; sr_lastActivityAt := nowMs;
                   sr_termination := nullish_or termination (sr_termination record) |}).

Definition setLifecycle (nowMs : Z) (sessionId : string) (lifecycle : SessionLifecycle) : SessionHostRegistry -> RegistryError + SessionHostRegistry :=
  on_record sessionId (fun record => {| record with sr_lifecycle := lifecycle; sr_lastActivityAt := nowMs |}).

Definition deleteSession (sessionId : string) (r : SessionHostRegistry) : SessionHostRegistry :=
  {| r with hr_sessions := map_delete sessionId (hr_sessions r) |}.
