(* ===== verification/SessionHost.v ===== *)
(** * What the session host promises

    Over any sequence of operations: an input counter never runs backwards
    within its epoch, so equal positions are the same point of the input stream;
    a writer is not displaced without force; one daemon is attached at most; and
    every session gets a key of its own. *)

From stdpp Require Import pretty.
From S2P Require Import Prelude RpcChunking KeyedDoc KeyedRows Admission SessionBuffer SessionTypes SessionRegistry.

#[local] Open Scope string_scope.
#[local] Open Scope Z_scope.

(** ** Keys *)

Lemma next_key_fresh fuel existing base s k : next_key fuel existing base s = Some k -> k ∉ existing.
Proof.
  revert s. induction fuel as [|fuel IH]; intros s; [done|]. cbn [next_key]. case_bool_decide as E; [apply IH|]. by intros [= <-].
Qed.

Lemma next_key_taken fuel existing base s :
  next_key fuel existing base s = None ->
  forall i, (i < fuel)%nat -> base ++ "-" ++ pretty (s + Z.of_nat i) ∈ existing.
Proof.
  revert s. induction fuel as [|fuel IH]; intros s; [lia|]. cbn [next_key]. case_bool_decide as E; [|done].
  intros Hn [|i] Hi; [by rewrite Z.add_0_r|]. specialize (IH _ Hn i ltac:(lia)).
  by replace (s + Z.of_nat (S i)) with (s + 1 + Z.of_nat i) by lia.
Qed.

Lemma suffix_inj base a b : base ++ "-" ++ pretty a = base ++ "-" ++ pretty b -> a = b :> Z.
Proof. intros H. apply (inj (String.append base)), (inj (String.append "-")) in H. by apply (inj pretty) in H. Qed.

(** A new session always gets a key, and it is none of the existing keys,
    whatever their case: the search ends because one of the first
    [n + 1] suffixes is free when [n] keys are taken. *)
Theorem runtime_key_fresh payload keys :
  exists k, buildRuntimeKey payload keys = Some k /\ k ∉ map to_lower keys.
Proof.
  unfold buildRuntimeKey. set (existing := map to_lower keys). set (base := base_key payload).
  case_bool_decide as Hb; [|by exists base]. destruct (next_key _ existing base 2) as [k|] eqn:E.
  { exists k. split; [done|]. by eapply next_key_fresh. }
  exfalso. pose proof (next_key_taken _ _ _ _ E) as Ht.
  set (cands := map (fun i => base ++ "-" ++ pretty (2 + Z.of_nat i)) (List.seq 0 (S (length existing)))).
  assert (Hsub : cands ⊆ existing).
  { intros x Hx. apply list_elem_of_In, in_map_iff in Hx as (i & <- & Hi). apply in_seq in Hi. apply Ht. lia. }
  assert (Hn : NoDup cands).
  { apply NoDup_fmap_2_strong; [|apply NoDup_ListNoDup, seq_NoDup]. intros i j _ _ H%suffix_inj. lia. }
  pose proof (submseteq_length _ _ (NoDup_submseteq _ _ Hn Hsub)) as Hl. unfold cands in Hl.
  rewrite length_map, length_seq in Hl. lia.
Qed.

(** ** Operations *)

Inductive Op : Type :=
  | Op_create (uuid : string) (payload : CreateSessionPayload)
  | Op_restore (record : SessionHostRecord) (snap : option (Z * ustring))
  | Op_attach (p : AttachSessionPayload)
  | Op_attach_if (expected : option Incarnation) (p : AttachSessionPayload)
  | Op_detach (sessionId clientId : string)
  | Op_input (sessionId : string)
  | Op_input_state (sessionId : string)
  | Op_acquire (sessionId clientId : string) (ownerType : SessionOwnerType) (force : bool)
  | Op_release (sessionId clientId : string)
  | Op_output (sessionId : string) (data : ustring)
  | Op_snapshot (sessionId : string) (sinceSeq : option Z)
  | Op_clear (sessionId : string)
  | Op_meta (sessionId : string) (meta : Row) (replace : bool)
  | Op_started (sessionId : string) (pid : option Z)
  | Op_stopped (sessionId : string) (lifecycle : SessionLifecycle) (termination : option SessionTermination)
  | Op_lifecycle (sessionId : string) (lifecycle : SessionLifecycle)
  | Op_delete (sessionId : string).

(** An operation that throws changes nothing. *)
Definition kept_on_error (r : SessionHostRegistry) (x : RegistryError + SessionHostRegistry) : SessionHostRegistry :=
  match x with inl _ => r | inr r' => r' end.

Definition apply_op (nowMs : Z) (op : Op) (r : SessionHostRegistry) : SessionHostRegistry :=
  match op with
  | Op_create uuid p => match createSession uuid nowMs p r with Some x => kept_on_error r x | None => r end
  | Op_restore record snap => restoreSession record snap r
  | Op_attach p => kept_on_error r (attachClient nowMs p r)
  | Op_attach_if e p => kept_on_error r (attachClientIfIncarnation nowMs e p r)
  | Op_detach s c => kept_on_error r (detachClient nowMs s c r)
  | Op_input s => match recordInput s r with inl _ => r | inr (r', _) => r' end
  | Op_input_state s => match getInputState s r with inl _ => r | inr (r', _) => r' end
  | Op_acquire s c t f => kept_on_error r (acquireWrite nowMs s c t f r)
  | Op_release s c => kept_on_error r (releaseWrite nowMs s c r)
  | Op_output s d => kept_on_error r (appendOutput nowMs s d r)
  | Op_snapshot s k => match getSnapshot s k r with inl _ => r | inr (r', _) => r' end
  | Op_clear s => kept_on_error r (clearBuffer nowMs s r)
  | Op_meta s m b => kept_on_error r (updateSessionMeta nowMs s m b r)
  | Op_started s p => kept_on_error r (markStarted nowMs s p r)
  | Op_stopped s l t => kept_on_error r (markStopped nowMs s l t r)
  | Op_lifecycle s l => kept_on_error r (setLifecycle nowMs s l r)
  | Op_delete s => deleteSession s r
  end.

Definition apply_ops (ops : list (Z * Op)) (r : SessionHostRegistry) : SessionHostRegistry :=
  fold_left (fun r o => apply_op o.1 o.2 r) ops r.

(** What an operation does to the sessions: nothing, one record or a deletion;
    all but the counter's are changes of a record that keep its counter. *)
Inductive record_change (r : SessionHostRegistry) (r' : SessionHostRegistry) : Prop :=
  | rc_same : r' = r -> record_change r r'
  | rc_kept id s s' :
      map_get id (hr_sessions r) = Some s -> r' = set_session id s' r ->
      sr_inputSeq (rs_record s') = sr_inputSeq (rs_record s) -> sr_inputEpoch (rs_record s') = sr_inputEpoch (rs_record s) ->
      record_change r r'.

Lemma on_session_change id f r :
  (forall s s', f s = inr s' -> sr_inputSeq (rs_record s') = sr_inputSeq (rs_record s) /\ sr_inputEpoch (rs_record s') = sr_inputEpoch (rs_record s)) ->
  record_change r (kept_on_error r (on_session id f r)).
Proof.
  intros Hf. unfold on_session. destruct (map_get id (hr_sessions r)) as [s|] eqn:E; [|by left].
  destruct (f s) as [e|s'] eqn:Ef; [by left|]. cbn. destruct (Hf _ _ Ef). by eapply (rc_kept _ _ id s s').
Qed.

(** The operations that may start, move or drop a counter. *)
Definition counts (op : Op) : bool :=
  match op with Op_create _ _ | Op_restore _ _ | Op_input _ | Op_input_state _ | Op_delete _ => true | _ => false end.

Lemma plain_change nowMs op r : counts op = false -> record_change r (apply_op nowMs op r).
Proof.
  intros Hc. destruct op; try discriminate; cbn [apply_op]; try (apply on_session_change; by intros s s' [= <-]).
  - unfold attachClientIfIncarnation. destruct (map_get _ _); [|by left]. destruct expected; [|by left].
    case_match; [by left|]. apply on_session_change. by intros s' s'' [= <-].
  - apply on_session_change. intros s s'. cbv zeta. destruct (other_owner _ _), force; try done; by intros [= <-].
  - unfold getSnapshot. destruct (map_get sessionId (hr_sessions r)) as [s|] eqn:E; [|by left]. by eapply (rc_kept _ _ sessionId s).
Qed.

(** ** Input counters *)

(** Session [id] is at input [n] of epoch [e]. *)
Definition at_point (r : SessionHostRegistry) (id e : string) (n : Z) : Prop :=
  exists s, map_get id (hr_sessions r) = Some s /\ sr_inputEpoch (rs_record s) = Some e /\ sr_inputSeq (rs_record s) = Some n.

Definition minted (r : SessionHostRegistry) (e : string) : Prop :=
  exists k, e = epoch_name (hr_lifetimeId r) k /\ k <= hr_epochCounter r.

Record reg_ok (r : SessionHostRegistry) : Prop := {
  rk_points : forall id s, map_get id (hr_sessions r) = Some s -> exists e n, at_point r id e n /\ minted r e;
  rk_distinct : forall id id' e n n', at_point r id e n -> at_point r id' e n' -> id = id' }.

Definition inputs_of (id : string) (ops : list (Z * Op)) : Z :=
  Z.of_nat (length (List.filter (fun o => match o.2 with Op_input s => bool_decide (s = id) | _ => false end) ops)).

(** A registry after some operations: epochs are not reused, and a session that
    is in an old epoch was in it before, [inputs] inputs ago. *)
Record later (r r' : SessionHostRegistry) (inputs : string -> Z) : Prop := {
  lt_lifetime : hr_lifetimeId r' = hr_lifetimeId r;
  lt_counter : hr_epochCounter r <= hr_epochCounter r';
  lt_before : forall id e n', at_point r' id e n' -> minted r e -> exists n, at_point r id e n /\ n + inputs id <= n' }.

Lemma epoch_inj l a b : epoch_name l a = epoch_name l b -> a = b.
Proof. intros H. unfold epoch_name in H. apply (inj (String.append l)), (inj (String.append ":")) in H. by apply (inj pretty) in H. Qed.

Lemma later_trans r r1 r2 i j :
  reg_ok r -> later r r1 i -> later r1 r2 j -> later r r2 (fun id => i id + j id).
Proof.
  intros _ [L1 C1 B1] [L2 C2 B2]. split; [congruence|lia|]. intros id e n' Hp Hm.
  destruct (B2 id e n' Hp) as (n1 & Hp1 & H1).
  { destruct Hm as (k & -> & Hk). exists k. rewrite L1. split; [done|lia]. }
  destruct (B1 id e n1 Hp1 Hm) as (n & Hp0 & H0). exists n. split; [done|lia].
Qed.

(** One session is set: it goes on in its epoch, or starts a new one. *)
Section SetOne.
Context (r : SessionHostRegistry) (id : string) (s' : SessionRuntimeState).
Hypothesis Hr : reg_ok r.

Lemma set_point k e n r' :
  hr_sessions r' = map_set id s' (hr_sessions r) ->
  at_point r' k e n <-> (if decide (k = id) then sr_inputEpoch (rs_record s') = Some e /\ sr_inputSeq (rs_record s') = Some n
                         else at_point r k e n).
Proof.
  intros E. unfold at_point. rewrite E, map_get_set. case_decide; [|done]. split.
  - by intros (s & [= <-] & ? & ?).
  - intros [? ?]. by exists s'.
Qed.

Lemma continue_later e n n' c r' :
  at_point r id e n -> sr_inputEpoch (rs_record s') = Some e -> sr_inputSeq (rs_record s') = Some n' -> n + c <= n' -> 0 <= c ->
  r' = set_session id s' r ->
  reg_ok r' /\ later r r' (fun k => if decide (k = id) then c else 0).
Proof.
  intros Hp He Hs Hn Hc ->. pose proof (fun k e n => set_point k e n (set_session id s' r) eq_refl) as Hset.
  destruct Hr as [Hpts Hd]. assert (Hm : minted r e).
  { destruct Hp as (s & Hg & Ee & _). destruct (Hpts id s Hg) as (e1 & n1 & (s1 & Hg1 & Ee1 & _) & Hm). congruence. }
  assert (Hpoint : forall k e2 n2, at_point (set_session id s' r) k e2 n2 -> exists n1, at_point r k e2 n1 /\ n1 + (if decide (k = id) then c else 0) <= n2).
  { intros k e2 n2 H. apply Hset in H. destruct (decide (k = id)) as [->|]; [|exists n2; split; [done|lia]].
    destruct H as [E1 E2]. exists n. rewrite He in E1. rewrite Hs in E2. injection E1 as <-. injection E2 as <-. by split. }
  split; [split|split; [done|cbn; lia|]].
  - intros k s Hg. cbn in Hg. rewrite map_get_set in Hg. case_decide as Hk.
    + subst k. exists e, n'. split; [|done]. apply Hset. by rewrite decide_True.
    + destruct (Hpts k s Hg) as (e1 & n1 & Hp1 & Hm1). exists e1, n1. split; [|done]. apply Hset. by rewrite decide_False.
  - intros k k' e2 n2 n3 H2 H3. destruct (Hpoint _ _ _ H2) as (? & ? & _), (Hpoint _ _ _ H3) as (? & ? & _). by eapply Hd.
  - intros k e2 n2 H _. by apply Hpoint.
Qed.

Lemma mint_later n r' :
  let m := mintInputEpoch r in
  sr_inputEpoch (rs_record s') = Some m.1 -> sr_inputSeq (rs_record s') = Some n -> r' = set_session id s' m.2 ->
  forall c, reg_ok r' /\ later r r' (fun k => if decide (k = id) then c else 0).
Proof.
  intros m He Hs -> c. pose proof (fun k e n => set_point k e n (set_session id s' m.2) eq_refl) as Hset.
  destruct Hr as [Hpts Hd].
  assert (Hmint : minted (set_session id s' m.2) m.1) by (exists (hr_epochCounter r + 1); by split).
  assert (Hnew : ~ minted r m.1) by (intros (k & E%epoch_inj & Hk); lia).
  assert (Hold : forall e, minted r e -> minted (set_session id s' m.2) e) by (intros e (k & -> & Hk); exists k; split; [done|cbn; lia]).
  assert (Hat : forall k e n, at_point r k e n -> minted r e).
  { intros k e n1 (s & Hg & Ee & _). destruct (Hpts k s Hg) as (e1 & n2 & (s1 & Hg1 & Ee1 & _) & Hm). congruence. }
  split; [split|split; [done|cbn; lia|]].
  - intros k s Hg. cbn in Hg. rewrite map_get_set in Hg. case_decide as Hk.
    + subst k. exists m.1, n. split; [|done]. apply Hset. by rewrite decide_True.
    + destruct (Hpts k s Hg) as (e1 & n1 & Hp1 & Hm1). exists e1, n1. split; [|by apply Hold]. apply Hset. by rewrite decide_False.
  - intros k k' e n2 n3 H2 H3. apply Hset in H2, H3.
    destruct (decide (k = id)) as [->|], (decide (k' = id)) as [->|]; try done.
    + destruct H2 as [E _]. rewrite He in E. injection E as <-. by apply Hat in H3.
    + destruct H3 as [E _]. rewrite He in E. injection E as <-. by apply Hat in H2.
    + by eapply Hd.
  - intros k e n2 H Hm. apply Hset in H. destruct (decide (k = id)); [|exists n2; split; [done|lia]].
    destruct H as [E _]. rewrite He in E. by injection E as <-.
Qed.
End SetOne.

Lemma later_weaken r r' f g : (forall id, g id <= f id) -> later r r' f -> later r r' g.
Proof.
  intros Hg [L C B]. split; [done|done|]. intros id e n' Hp Hm. destruct (B id e n' Hp Hm) as (n & Hn & Hle).
  exists n. split; [done|]. specialize (Hg id). lia.
Qed.

Lemma later_refl r : later r r (fun _ => 0).
Proof. split; [done|done|]. intros id e n' Hp _. exists n'. split; [done|lia]. Qed.

Lemma point_of r id s : reg_ok r -> map_get id (hr_sessions r) = Some s ->
  exists e n, at_point r id e n /\ sr_inputEpoch (rs_record s) = Some e /\ sr_inputSeq (rs_record s) = Some n.
Proof.
  intros [Hp _] Hg. destruct (Hp id s Hg) as (e & n & (s' & Hg' & He & Hn) & _). rewrite Hg in Hg'. injection Hg' as <-.
  exists e, n. split_and!; [by exists s|done|done].
Qed.

Lemma counter_step seq_of c id r :
  reg_ok r -> (forall n, seq_of (Some n) = n + c) -> 0 <= c ->
  let r' := match with_counter seq_of id r with inl _ => r | inr (r', _) => r' end in
  reg_ok r' /\ later r r' (fun k => if decide (k = id) then c else 0).
Proof.
  intros Hr Hq Hc. unfold with_counter. destruct (map_get id (hr_sessions r)) as [s|] eqn:Hg; cbn.
  - destruct (point_of r id s Hr Hg) as (e & n & Hp & He & Hn). unfold counting. rewrite He, Hn.
    eapply (continue_later r id _ Hr e n (n + c) c); [exact Hp|..|reflexivity]; cbn; [done|by rewrite Hq|lia|lia].
  - split; [done|]. split; [done|done|]. intros k e n' Hp _. exists n'. split; [done|].
    destruct (decide (k = id)) as [->|]; [|lia]. destruct Hp as (s & Hs & _). congruence.
Qed.

Lemma restore_step record snap r :
  reg_ok r -> exists c, 0 <= c /\ reg_ok (restoreSession record snap r)
    /\ later r (restoreSession record snap r) (fun k => if decide (k = sr_sessionId record) then c else 0).
Proof.
  intros Hr. exists 0. split; [done|]. unfold restoreSession. destruct (same_lifetime _ _ _) eqn:E.
  - unfold same_lifetime in E. destruct (map_get _ (hr_sessions r)) as [s|] eqn:Hg; [|done]. cbn in E. breflect.
    destruct (point_of r _ s Hr Hg) as (e & n & Hp & He & Hn).
    eapply (continue_later r _ _ Hr e n (nullish (sr_inputSeq record) 0) 0); [exact Hp|..|reflexivity]; cbn; [congruence|done| |lia].
    match goal with H : nullish _ _ <= _ |- _ => rewrite Hn in H; cbn in H end. lia.
  - eapply (mint_later r _ _ Hr); [..|reflexivity]; reflexivity.
Qed.

Lemma delete_step id r : reg_ok r -> reg_ok (deleteSession id r) /\ later r (deleteSession id r) (fun _ => 0).
Proof.
  intros [Hp Hd]. assert (Hsub : forall k e n, at_point (deleteSession id r) k e n -> at_point r k e n).
  { intros k e n (s & Hg & H). cbn in Hg. rewrite get_delete in Hg. case_decide; [done|]. by exists s. }
  split; [split|split; [done|cbn; lia|]].
  - intros k s Hg. assert (Hg' := Hg). cbn in Hg'. rewrite get_delete in Hg'. case_decide; [done|].
    destruct (Hp k s Hg') as (e & n & (s' & Hs' & He & Hn) & Hm). exists e, n. split; [|done]. exists s. by simplify_eq.
  - intros k k' e n n' H1 H2. eapply Hd; by apply Hsub.
  - intros k e n' H _. exists n'. split; [by apply Hsub|lia].
Qed.

Lemma op_step nowMs op r :
  reg_ok r -> reg_ok (apply_op nowMs op r) /\ later r (apply_op nowMs op r) (fun id => inputs_of id [(nowMs, op)]).
Proof.
  intros Hr.
  assert (Hw : forall f r', (forall id, inputs_of id [(nowMs, op)] <= f id) -> reg_ok r' /\ later r r' f ->
    reg_ok r' /\ later r r' (fun id => inputs_of id [(nowMs, op)])).
  { intros f r' Hf [H1 H2]. split; [done|]. by eapply later_weaken. }
  destruct (counts op) eqn:Hc.
  2: { assert (Hi : forall id, inputs_of id [(nowMs, op)] = 0) by (by destruct op).
       destruct (plain_change nowMs op r Hc) as [->|id s s' Hg -> Hq He].
       - apply (Hw (fun _ => 0)); [intros; by rewrite Hi|]. split; [done|apply later_refl].
       - destruct (point_of r id s Hr Hg) as (e & n & Hp & Ee & En).
         apply (Hw (fun k => if decide (k = id) then 0 else 0)); [intros; rewrite Hi; by case_decide|].
         apply (continue_later r id s' Hr e n n 0); [exact Hp|congruence|congruence|lia|lia|reflexivity]. }
  destruct op; try discriminate; cbn [apply_op].
  - apply (Hw (fun k => if decide (k = if truthy_str (cs_sessionId payload) then nullish (cs_sessionId payload) "" else uuid) then 0 else 0)).
    { intros k. by case_decide. }
    unfold createSession. cbv zeta. set (id := if truthy_str _ then _ else _). destruct (has_key id (hr_sessions r)).
    { split; [done|]. eapply later_weaken, later_refl. intros k. by case_decide. }
    destruct (buildRuntimeKey _ _) as [key|]; [|split; [done|]; eapply later_weaken, later_refl; intros k; by case_decide].
    cbn. eapply (mint_later r id _ Hr); [..|reflexivity]; reflexivity.
  - destruct (restore_step record snap r Hr) as (c & Hc0 & H). eapply Hw; [|exact H]. intros k. cbn. case_decide; done.
  - eapply Hw; [|apply (counter_step (fun seq => nullish seq 0 + 1) 1 sessionId r Hr); [done|lia]].
    intros k. unfold inputs_of. cbn. destruct (decide (k = sessionId)) as [->|Hne].
    + by rewrite bool_decide_true.
    + by rewrite bool_decide_false by congruence.
  - eapply Hw; [|apply (counter_step (fun seq => nullish seq 0) 0 sessionId r Hr); [intros; cbn; lia|lia]].
    intros k. cbn. by case_decide.
  - eapply Hw; [|by apply delete_step]. done.
Qed.

Lemma inputs_cons id o ops : inputs_of id (o :: ops) = inputs_of id [o] + inputs_of id ops.
Proof. unfold inputs_of. cbn. case_match; cbn; lia. Qed.

Lemma ops_step ops r : reg_ok r -> reg_ok (apply_ops ops r) /\ later r (apply_ops ops r) (fun id => inputs_of id ops).
Proof.
  revert r. induction ops as [|[t op] ops IH]; intros r Hr; [split; [done|apply later_refl]|]. cbn [apply_ops fold_left fst snd].
  destruct (op_step t op r Hr) as [Hr1 Hl1]. destruct (IH _ Hr1) as [Hr2 Hl2]. split; [exact Hr2|].
  eapply later_weaken; [|exact (later_trans _ _ _ _ _ Hr Hl1 Hl2)]. intros id. cbn beta. by rewrite inputs_cons.
Qed.

Lemma new_registry_ok lifetimeId : reg_ok (new_registry lifetimeId).
Proof. split; [done|]. by intros id id' e n n' (s & Hs & _). Qed.

(** Positions in the input stream: when a session is at input [n] of an epoch,
    and after more operations some session is in that epoch, it is the same
    session, and every input it accepted meanwhile is counted; so at an equal
    position no input came in between. *)
Theorem same_point lifetimeId before ops id id' e n n' :
  at_point (apply_ops before (new_registry lifetimeId)) id e n ->
  at_point (apply_ops ops (apply_ops before (new_registry lifetimeId))) id' e n' ->
  id' = id /\ n + inputs_of id ops <= n'.
Proof.
  intros Hp Hp'. destruct (ops_step before _ (new_registry_ok lifetimeId)) as [Hr _].
  destruct (ops_step ops _ Hr) as [_ [_ _ Hb]]. destruct Hr as [Hpts Hd].
  assert (Hm : minted (apply_ops before (new_registry lifetimeId)) e).
  { destruct Hp as (s & Hg & He & _). destruct (Hpts id s Hg) as (e1 & n1 & (s1 & Hg1 & He1 & _) & Hm). congruence. }
  destruct (Hb id' e n' Hp' Hm) as (n0 & Hp0 & Hle). pose proof (Hd _ _ _ _ _ Hp0 Hp) as ->. split; [done|].
  destruct Hp as (s & Hg & _ & Hn), Hp0 as (s0 & Hg0 & _ & Hn0). simplify_eq. lia.
Qed.

(** ** Writers *)

Definition writer (r : SessionHostRegistry) (id : string) : option string :=
  map_get id (hr_sessions r) ≫= (fun s => wo_clientId <$> sr_writeOwner (rs_record s)).

(** The operations that may end the ownership of [o]: its own, a forced one, and
    those that replace the session or its daemon. *)
Definition displaces (id o : string) (op : Op) : Prop :=
  match op with
  | Op_acquire s c _ force => s = id /\ force = true /\ c <> o
  | Op_release s c | Op_detach s c => s = id /\ c = o
  | Op_attach p | Op_attach_if _ p => at_sessionId p = id /\ at_clientType p = client_daemon /\ at_clientId p <> o
  | Op_restore record _ => sr_sessionId record = id
  | Op_delete s => s = id
  | _ => False
  end.

Lemma writer_set id k s r : writer (set_session k s r) id = if decide (id = k) then wo_clientId <$> sr_writeOwner (rs_record s) else writer r id.
Proof. unfold writer. cbn. rewrite map_get_set. by case_decide. Qed.

Lemma on_session_writer id o k f r :
  writer r id = Some o ->
  (forall s s', map_get k (hr_sessions r) = Some s -> k = id -> f s = inr s' ->
     wo_clientId <$> sr_writeOwner (rs_record s') = wo_clientId <$> sr_writeOwner (rs_record s)) ->
  writer (kept_on_error r (on_session k f r)) id = Some o.
Proof.
  intros Hw Hf. unfold on_session. destruct (map_get k (hr_sessions r)) as [s|] eqn:E; [|done].
  destruct (f s) as [e|s'] eqn:Ef; [done|]. cbn -[writer set_session]. rewrite writer_set. case_decide as Hk; [|done]. subst k.
  rewrite (Hf s s' eq_refl eq_refl Ef). unfold writer in Hw. by rewrite E in Hw.
Qed.

Lemma attach_writer nowMs p record o :
  wo_clientId <$> sr_writeOwner record = Some o -> (at_clientType p = client_daemon -> at_clientId p = o) ->
  wo_clientId <$> sr_writeOwner (attach_record nowMs p record) = Some o.
Proof.
  intros Ho Hp. unfold attach_record. cbn. destruct (removed_owner p record) eqn:E; [exfalso|done].
  unfold removed_owner in E. destruct (at_clientType p) eqn:Et; try done. destruct (sr_writeOwner record) as [w|]; [|done].
  cbn in Ho. injection Ho as Ho. breflect. apply list_elem_of_In, in_map_iff in E as (c & Ec & Hc).
  apply filter_In in Hc as [_ Hc]. unfold is_stale_daemon in Hc. breflect. specialize (Hp eq_refl). congruence.
Qed.

Lemma stays_owner (b : bool) (w : option SessionWriteOwner) c o :
  wo_clientId <$> w = Some o -> c <> o -> b = bool_decide (wo_clientId <$> w = Some c) ->
  wo_clientId <$> (if b then None else w) = Some o.
Proof. intros Hw Hc ->. rewrite bool_decide_false; [done|]. congruence. Qed.

(** A writer keeps a session until it gives it up, is displaced by force or by
    another daemon, or the session goes; a client that asks without force is
    refused by name. *)
Theorem writer_kept nowMs op r id o :
  writer r id = Some o -> ~ displaces id o op ->
  writer (apply_op nowMs op r) id = Some o
  /\ forall c t, c <> o -> acquireWrite nowMs id c t false r = inl (Re_owned o).
Proof.
  intros Hw Hd. assert (Hrec : forall s, map_get id (hr_sessions r) = Some s -> wo_clientId <$> sr_writeOwner (rs_record s) = Some o)
    by (intros s Hs; unfold writer in Hw; by rewrite Hs in Hw).
  split.
  2: { intros c t Hc. unfold acquireWrite, on_session. unfold writer in Hw. destruct (map_get id (hr_sessions r)) as [s|]; [|done].
       cbn in Hw. unfold other_owner. destruct (sr_writeOwner (rs_record s)) as [w|]; [|done]. cbn in Hw. injection Hw as ->.
       by rewrite bool_decide_false by congruence. }
  destruct op; cbn [apply_op displaces] in *; try (apply on_session_writer; [done|]; by intros s s' _ _ [= <-]).
  - unfold createSession. cbv zeta. set (k := if truthy_str _ then _ else _). destruct (has_key k (hr_sessions r)) eqn:Hk; [done|].
    destruct (buildRuntimeKey _ _); [|done]. cbn -[writer set_session]. rewrite writer_set. case_decide as E; [|done]. subst id.
    apply has_key_false in Hk. unfold writer in Hw. by rewrite Hk in Hw.
  - unfold restoreSession. destruct (same_lifetime _ _ _); cbn -[writer set_session]; rewrite writer_set, decide_False by congruence; done.
  - apply on_session_writer; [done|]. intros s s' Hs Hk [= <-]. cbn [rs_record]. rewrite (Hrec s) by congruence.
    apply attach_writer; [by apply Hrec; congruence|]. intros Ht. destruct (decide (at_clientId p = o)); [done|]. by destruct Hd.
  - unfold attachClientIfIncarnation. destruct (map_get (at_sessionId p) _) as [s0|]; [|done]. destruct expected; [|done].
    case_match; [done|]. apply on_session_writer; [done|]. intros s s' Hs Hk [= <-]. cbn [rs_record]. rewrite (Hrec s) by congruence.
    apply attach_writer; [by apply Hrec; congruence|]. intros Ht. destruct (decide (at_clientId p = o)); [done|]. by destruct Hd.
  - apply on_session_writer; [done|]. intros s s' Hs Hk [= <-]. cbn. rewrite (Hrec s) by congruence.
    eapply (stays_owner _ _ clientId); [by apply Hrec; congruence|tauto|done].
  - unfold recordInput, with_counter. destruct (map_get sessionId (hr_sessions r)) as [s|] eqn:Es; [|done]. unfold counting.
    destruct (sr_inputEpoch (rs_record s)); cbn -[writer set_session]; rewrite writer_set; (case_decide; [|done]); subst; cbn; by apply Hrec.
  - unfold getInputState, with_counter. destruct (map_get sessionId (hr_sessions r)) as [s|] eqn:Es; [|done]. unfold counting.
    destruct (sr_inputEpoch (rs_record s)); cbn -[writer set_session]; rewrite writer_set; (case_decide; [|done]); subst; cbn; by apply Hrec.
  - apply on_session_writer; [done|]. intros s s' Hs Hk. cbv zeta. unfold other_owner. rewrite (Hrec s) by congruence.
    specialize (Hrec s). rewrite <- Hk in Hrec. specialize (Hrec Hs). destruct (sr_writeOwner (rs_record s)) as [w|]; [|done].
    cbn in Hrec. injection Hrec as ->. case_bool_decide as Eo; [intros [= <-]; cbn; by subst|].
    destruct force; [|done]. exfalso. apply Hd. by split_and!.
  - apply on_session_writer; [done|]. intros s s' Hs Hk [= <-]. cbn. rewrite (Hrec s) by congruence.
    eapply (stays_owner _ _ clientId); [by apply Hrec; congruence|tauto|done].
  - unfold getSnapshot. destruct (map_get sessionId (hr_sessions r)) as [s|] eqn:Es; [|done]. cbn -[writer set_session]. rewrite writer_set.
    case_decide; [|done]. subst. exact (Hrec _ Es).
  - unfold writer. cbn. rewrite get_delete, decide_False by congruence. exact Hw.
Qed.

(** ** Attached clients *)

(** Clients have ids of their own, and all daemons among them are one. *)
Record clients_ok (l : list SessionAttachedClient) : Prop := {
  cl_ids : NoDup (map ac_clientId l);
  cl_daemon : forall c c', c ∈ l -> c' ∈ l -> ac_type c = client_daemon -> ac_type c' = client_daemon -> c = c' }.

Lemma same_client l c c' : NoDup (map ac_clientId l) -> c ∈ l -> c' ∈ l -> ac_clientId c = ac_clientId c' -> c = c'.
Proof.
  induction l as [|x l IH]; [by intros _ ?%elem_of_nil|]. cbn. intros [Hx Hn]%NoDup_cons Hc Hc' E.
  assert (Hin : forall y, y ∈ l -> ac_clientId y ∈ map ac_clientId l) by (intros y Hy; by apply list_elem_of_fmap_2).
  apply elem_of_cons in Hc as [->|Hc], Hc' as [->|Hc']; auto; [apply Hin in Hc'; congruence|apply Hin in Hc; congruence].
Qed.

Lemma ids_filter f l : NoDup (map ac_clientId l) -> NoDup (map ac_clientId (List.filter f l)).
Proof.
  induction l as [|x l IH]; [done|]. cbn. intros [Hx Hn]%NoDup_cons. destruct (f x); [|auto]. cbn. constructor; [|auto].
  intros H. apply Hx. apply list_elem_of_fmap in H as (y & -> & Hy). apply list_elem_of_fmap_2.
  apply list_elem_of_In, filter_In in Hy as [Hy _]. by apply list_elem_of_In.
Qed.

Lemma clients_filter f l : clients_ok l -> clients_ok (List.filter f l).
Proof.
  intros [Hn Hd]. split; [by apply ids_filter|]. intros c c' Hc Hc'. apply list_elem_of_In, filter_In in Hc as [Hc _], Hc' as [Hc' _].
  by apply Hd; apply list_elem_of_In.
Qed.

Lemma update_ids id f l : (forall c, ac_clientId (f c) = ac_clientId c) -> map ac_clientId (update_client id f l) = map ac_clientId l.
Proof. intros Hf. induction l as [|c l IH]; [done|]. cbn. case_bool_decide; cbn; [by rewrite Hf|by rewrite IH]. Qed.

Lemma update_elem id f l x : x ∈ update_client id f l -> x ∈ l \/ exists c, c ∈ l /\ ac_clientId c = id /\ x = f c.
Proof.
  induction l as [|c l IH]; [by intros ?%elem_of_nil|]. cbn. case_bool_decide as E; intros [->|H]%elem_of_cons.
  - right. exists c. split_and!; [by left|done|done].
  - left. by right.
  - left. by left.
  - destruct (IH H) as [?|(d & ? & ? & ?)]; [left; by right|right; exists d; split_and!; [by right|done|done]].
Qed.

(** A change that keeps ids and types keeps the clients in order. *)
Lemma clients_touch id f l :
  (forall c, ac_clientId (f c) = ac_clientId c /\ ac_type (f c) = ac_type c) -> clients_ok l -> clients_ok (update_client id f l).
Proof.
  intros Hf [Hn Hd]. assert (Hids : map ac_clientId (update_client id f l) = map ac_clientId l) by (apply update_ids; intros; apply Hf).
  split; [by rewrite Hids|]. intros c c' Hc Hc' Ht Ht'. apply (same_client (update_client id f l)); [by rewrite Hids|done|done|].
  assert (Horig : forall x, x ∈ update_client id f l -> exists y, y ∈ l /\ ac_clientId y = ac_clientId x /\ ac_type y = ac_type x).
  { intros x [?|(y & Hy & _ & ->)]%update_elem; [by exists x|]. exists y. destruct (Hf y). by split_and!. }
  destruct (Horig c Hc) as (y & Hy & <- & Ey), (Horig c' Hc') as (y' & Hy' & <- & Ey'). f_equal. apply Hd; congruence.
Qed.

Lemma not_has_client id l : has_client id l = false -> id ∉ map ac_clientId l.
Proof.
  intros H Hin. apply list_elem_of_fmap in Hin as (c & -> & Hc). apply list_elem_of_In in Hc.
  unfold has_client in H. assert (existsb (fun x => bool_decide (ac_clientId x = ac_clientId c)) l = true) as E; [|congruence].
  apply existsb_exists. exists c. split; [done|]. by apply bool_decide_eq_true.
Qed.

Lemma attach_clients nowMs p record :
  clients_ok (sr_attachedClients record) -> clients_ok (sr_attachedClients (attach_record nowMs p record)).
Proof.
  intros Hok. unfold attach_record. cbn [sr_attachedClients]. set (l := without_stale p _).
  assert (Hl : clients_ok l) by (unfold l, without_stale; destruct (at_clientType p); auto using clients_filter).
  assert (Hdaemon : at_clientType p = client_daemon -> forall c, c ∈ l -> ac_type c = client_daemon -> ac_clientId c = at_clientId p).
  { intros Ht c Hc Hct. unfold l, without_stale in Hc. rewrite Ht in Hc. apply list_elem_of_In, filter_In in Hc as [_ Hc].
    unfold is_stale_daemon in Hc. rewrite bool_decide_true in Hc by done. cbn in Hc. breflect. done. }
  clearbody l. destruct Hl as [Hn Hd].
  set (g := fun c => {| c with ac_type := at_clientType p; ac_readOnly := at_readOnly p; ac_lastSeenAt := nowMs |}).
  set (l' := if has_client (at_clientId p) l then _ else _).
  (* every member is one of before, or the attaching client *)
  assert (Hmem : forall x, x ∈ l' -> x ∈ l \/ ac_clientId x = at_clientId p /\ ac_type x = at_clientType p).
  { intros x. unfold l'. destruct (has_client _ _).
    - intros [?|(c & _ & Ec & ->)]%update_elem; [by left|]. right. by split.
    - intros [?|Hx]%elem_of_app; [by left|]. apply list_elem_of_singleton in Hx as ->. by right. }
  assert (Hn' : NoDup (map ac_clientId l')).
  { unfold l'. destruct (has_client _ _) eqn:E; [by rewrite update_ids|]. rewrite map_app. cbn. apply NoDup_app.
    split_and!; [done| |apply NoDup_singleton]. intros x Hx Hy%list_elem_of_singleton. subst x. by apply not_has_client in E. }
  split; [done|]. intros c c' Hc Hc' Ht Ht'. apply (same_client l'); [done|done|done|].
  destruct (Hmem c Hc) as [H1|[E1 T1]], (Hmem c' Hc') as [H2|[E2 T2]].
  - f_equal. by apply Hd.
  - rewrite E2. apply Hdaemon; [congruence|done|done].
  - rewrite E1. symmetry. apply Hdaemon; [congruence|done|done].
  - congruence.
Qed.

Definition all_clients_ok (r : SessionHostRegistry) : Prop :=
  forall id s, map_get id (hr_sessions r) = Some s -> clients_ok (sr_attachedClients (rs_record s)).

Lemma set_clients id s r r' :
  all_clients_ok r -> clients_ok (sr_attachedClients (rs_record s)) -> hr_sessions r' = map_set id s (hr_sessions r) -> all_clients_ok r'.
Proof. intros Hr Hs E k s' H. rewrite E, map_get_set in H. case_decide; [by injection H as <-|by eapply Hr]. Qed.

Lemma on_session_clients id f r :
  all_clients_ok r ->
  (forall s s', clients_ok (sr_attachedClients (rs_record s)) -> f s = inr s' -> clients_ok (sr_attachedClients (rs_record s'))) ->
  all_clients_ok (kept_on_error r (on_session id f r)).
Proof.
  intros Hr Hf. unfold on_session. destruct (map_get id (hr_sessions r)) as [s|] eqn:E; [|done].
  destruct (f s) as [e|s'] eqn:Ef; [done|]. eapply set_clients; [exact Hr| |reflexivity]. eapply Hf; [|exact Ef]. by eapply Hr.
Qed.

Lemma op_clients nowMs op r :
  all_clients_ok r -> match op with Op_restore record _ => clients_ok (sr_attachedClients record) | _ => True end ->
  all_clients_ok (apply_op nowMs op r).
Proof.
  intros Hr Hop. destruct op; cbn [apply_op];
    try (apply on_session_clients; [done|]; intros s s' Hs [= <-]; try done; cbn; auto using attach_clients, clients_filter, clients_touch; done).
  - unfold createSession. cbv zeta. set (k := if truthy_str _ then _ else _). destruct (has_key k (hr_sessions r)); [done|].
    destruct (buildRuntimeKey _ _); [|done]. eapply set_clients; [exact Hr| |reflexivity]. cbn. unfold initial_client.
    case_match; cbn; (split; [by (apply NoDup_singleton || constructor)|]); intros c c' Hc Hc'; [|by apply elem_of_nil in Hc].
    apply list_elem_of_singleton in Hc as ->, Hc' as ->. done.
  - unfold restoreSession. destruct (same_lifetime _ _ _); (eapply set_clients; [exact Hr| |reflexivity]; exact Hop).
  - apply on_session_clients; [done|]. intros s s' Hs [= <-]. by apply attach_clients.
  - unfold attachClientIfIncarnation. destruct (map_get (at_sessionId p) (hr_sessions r)); [|done]. destruct expected; [|done].
    case_match; [done|]. apply on_session_clients; [done|]. intros s' s'' Hs [= <-]. by apply attach_clients.
  - unfold recordInput, with_counter. destruct (map_get sessionId (hr_sessions r)) as [s|] eqn:Es; [|done]. unfold counting.
    destruct (sr_inputEpoch (rs_record s)); (eapply set_clients; [exact Hr| |reflexivity]; exact (Hr _ _ Es)).
  - unfold getInputState, with_counter. destruct (map_get sessionId (hr_sessions r)) as [s|] eqn:Es; [|done]. unfold counting.
    destruct (sr_inputEpoch (rs_record s)); (eapply set_clients; [exact Hr| |reflexivity]; exact (Hr _ _ Es)).
  - apply on_session_clients; [done|]. intros s s' Hs. cbv zeta.
    destruct (other_owner _ _), force; try done; intros [= <-]; by apply clients_touch.
  - apply on_session_clients; [done|]. intros s s' Hs [= <-]. by apply clients_touch.
  - unfold getSnapshot. destruct (map_get sessionId (hr_sessions r)) as [s|] eqn:Es; [|done].
    eapply set_clients; [exact Hr| |reflexivity]. exact (Hr _ _ Es).
  - intros k s H. cbn in H. rewrite get_delete in H. case_decide; [done|]. by eapply Hr.
Qed.

(** However clients attach and detach, a session never has two clients with one
    id, nor two daemons: a daemon that attaches replaces the one before it. *)
Theorem one_daemon lifetimeId ops id s :
  Forall (fun o => match o.2 with Op_restore record _ => clients_ok (sr_attachedClients record) | _ => True end) ops ->
  map_get id (hr_sessions (apply_ops ops (new_registry lifetimeId))) = Some s -> clients_ok (sr_attachedClients (rs_record s)).
Proof.
  intros Hops Hs. assert (H0 : all_clients_ok (new_registry lifetimeId)) by done. revert H0 Hs.
  generalize (new_registry lifetimeId) as r. induction Hops as [|[t op] ops Hop _ IH]; intros r H0 Hs; [by eapply H0|].
  eapply IH; [|exact Hs]. by apply op_clients.
Qed.

(** ** Examples *)

Definition sample_payload : CreateSessionPayload := {|
  cs_sessionId := Some "s1"; cs_runtimeKey := None; cs_displayName := None; cs_providerType := "claude-cli";
  cs_category := cat_cli; cs_workspace := "/home/me/Work"; cs_launchCommand := {| lc_command := "claude"; lc_args := []; lc_env := None |};
  cs_cols := None; cs_rows := None; cs_clientId := Some "d1"; cs_clientType := Some client_daemon; cs_meta := None |}.

Definition sample_start : list (Z * Op) :=
  [(10, Op_create "u" sample_payload); (11, Op_acquire "s1" "d1" owner_agent false); (12, Op_input "s1")].

Definition sample_attach : AttachSessionPayload :=
  {| at_sessionId := "s1"; at_clientId := "d2"; at_clientType := client_daemon; at_readOnly := false |}.

Lemma same_point_witness : "s1" = "s1" /\ 1 + 2 <= 3.
Proof.
  apply (same_point "life" sample_start [(13, Op_input "s1"); (14, Op_clear "s1"); (15, Op_input "s1")] "s1" "s1" "life:1" 1 3).
  - eexists. split; [vm_compute; reflexivity|]. by split.
  - eexists. split; [vm_compute; reflexivity|]. by split.
Defined.

Lemma writer_kept_witness :
  acquireWrite 13 "s1" "web" owner_user false (apply_ops sample_start (new_registry "life")) = inl (Re_owned "d1").
Proof.
  apply (writer_kept 13 (Op_acquire "s1" "web" owner_user false) (apply_ops sample_start (new_registry "life")) "s1" "d1").
  - by vm_compute.
  - cbn. by intros (_ & ? & _).
  - done.
Defined.

Lemma one_daemon_witness :
  exists s, map_get "s1" (hr_sessions (apply_ops (sample_start ++ [(13, Op_attach sample_attach)]) (new_registry "life"))) = Some s
    /\ clients_ok (sr_attachedClients (rs_record s)) /\ map ac_clientId (sr_attachedClients (rs_record s)) = ["d2"].
Proof.
  eexists. split; [vm_compute; reflexivity|]. split; [|reflexivity].
  refine (one_daemon "life" (sample_start ++ [(13, Op_attach sample_attach)])%list "s1" _ _ _); [|vm_compute; reflexivity].
  cbn. repeat constructor.
Defined.
