(* ===== verification/MuxLayout.v ===== *)
(** * Pane layout of the terminal multiplexer

    [packages/terminal-mux-core/src/layout.ts] with the types of [types.ts] and
    [workspace-persistence.ts]: a workspace is a tree of panes split along an
    axis, the focused and the zoomed pane, and the state of each pane.

    Ratios are binary64 numbers, as in the source.  Workspaces are copied by
    value, so [cloneNode] and [cloneWorkspace] are the identity.  The entries of
    the panes object are in insertion order: pane ids are not array indices. *)

From Stdlib Require Import SpecFloat.
From S2P Require Import Prelude RpcChunking KeyedDoc SessionTypes.

#[local] Open Scope string_scope.
#[local] Open Scope Z_scope.

(** ** Numbers *)

Notation number := spec_float.

Definition num_add : number -> number -> number := SFadd 53 1024.
Definition num_of (n : positive) : number := binary_normalize 53 1024 (Zpos n) 0 false.

(** [n / 100], as the literal of the source is read. *)
Definition percent (n : positive) : number := SFdiv 53 1024 (num_of n) (num_of 100).

Definition num_max (a b : number) : number :=
  match a, b with
  | S754_nan, _ | _, S754_nan => S754_nan
  | _, _ => if SFltb a b then b else a
  end.
Definition num_min (a b : number) : number :=
  match a, b with
  | S754_nan, _ | _, S754_nan => S754_nan
  | _, _ => if SFltb b a then b else a
  end.

(** ** Types *)

Inductive MuxAxis : Set := horizontal | vertical.
Inductive PaneAccessMode : Set := interactive | read_only.
Inductive MuxPaneKind : Set := kind_runtime | kind_mirror.
Inductive MuxLayoutPreset : Set := even | main_vertical | main_horizontal | tiled.
Inductive ResizeDirection : Set := left_ | right_ | up_ | down_.

#[global] Instance MuxAxis_eq_dec : EqDecision MuxAxis.
Proof. solve_decision. Defined.
#[global] Instance PaneAccessMode_eq_dec : EqDecision PaneAccessMode.
Proof. solve_decision. Defined.
#[global] Instance MuxPaneKind_eq_dec : EqDecision MuxPaneKind.
Proof. solve_decision. Defined.

Record TerminalViewportState : Set := { vp_cols : Z; vp_rows : Z; vp_snapshotSeq : Z; vp_text : ustring }.

Record RuntimePaneState : Set := {
  rp_paneId : string; rp_paneKind : MuxPaneKind; rp_runtimeId : string; rp_runtimeKey : string;
  rp_displayName : string; rp_workspaceLabel : string; rp_accessMode : PaneAccessMode;
  rp_lifecycle : SessionLifecycle; rp_writeOwner : option SessionWriteOwner;
  rp_attachedClients : list SessionAttachedClient; rp_viewport : TerminalViewportState }.

Inductive MuxLayoutNode : Set :=
  | pane (paneId : string)
  | split (axis : MuxAxis) (ratio : number) (first second : MuxLayoutNode).

Record MuxWorkspaceState : Type := {
  mw_workspaceId : string; mw_title : string; mw_root : MuxLayoutNode; mw_focusedPaneId : string;
  mw_zoomedPaneId : option string; mw_panes : jsmap RuntimePaneState }.

Inductive MuxError : Set := Me_unknown_pane (paneId : string) | Me_no_panes.

(** ** Trees *)

Fixpoint replaceNode (node : MuxLayoutNode) (paneId : string) (next : MuxLayoutNode) : MuxLayoutNode :=
  match node with
  | pane id => if bool_decide (id = paneId) then next else node
  | split axis ratio first second => split axis ratio (replaceNode first paneId next) (replaceNode second paneId next)
  end.

Fixpoint removeNode (node : MuxLayoutNode) (paneId : string) : option MuxLayoutNode :=
  match node with
  | pane id => if bool_decide (id = paneId) then None else Some node
  | split axis ratio first second =>
      match removeNode first paneId, removeNode second paneId with
      | None, None => None
      | None, Some second => Some second
      | Some first, None => Some first
      | Some first, Some second => Some (split axis ratio first second)
      end
  end.

Fixpoint nodeContainsPane (node : MuxLayoutNode) (paneId : string) : bool :=
  match node with
  | pane id => bool_decide (id = paneId)
  | split _ _ first second => nodeContainsPane first paneId || nodeContainsPane second paneId
  end.

Definition clampRatio (value : number) : number := num_max (percent 15) (num_min (percent 85) value).

(** The node and whether it changed. *)
Fixpoint adjustNodeForPane (node : MuxLayoutNode) (paneId : string) (axis : MuxAxis) (delta : number) : MuxLayoutNode * bool :=
  match node with
  | pane _ => (node, false)
  | split a ratio first second =>
      let firstContains := nodeContainsPane first paneId in
      let secondContains := negb firstContains && nodeContainsPane second paneId in
      let hit := bool_decide (a = axis) && (firstContains || secondContains) in
      let ratio := if hit then clampRatio (num_add ratio (if firstContains then delta else SFopp delta)) else ratio in
      if firstContains then
        let '(n, c) := adjustNodeForPane first paneId axis delta in
        (split a ratio (if c then n else first) second, hit || c)
      else if secondContains then
        let '(n, c) := adjustNodeForPane second paneId axis delta in
        (split a ratio first (if c then n else second), hit || c)
      else (node, false)
  end.

Fixpoint rebalanceNode (node : MuxLayoutNode) : MuxLayoutNode :=
  match node with
  | pane _ => node
  | split axis _ first second => split axis (percent 50) (rebalanceNode first) (rebalanceNode second)
  end.

Fixpoint mapPaneIds (node : MuxLayoutNode) (firstPaneId secondPaneId : string) : MuxLayoutNode :=
  match node with
  | pane id => if bool_decide (id = firstPaneId) then pane secondPaneId
               else if bool_decide (id = secondPaneId) then pane firstPaneId else node
  | split axis ratio first second =>
      split axis ratio (mapPaneIds first firstPaneId secondPaneId) (mapPaneIds second firstPaneId secondPaneId)
  end.

Fixpoint collectPaneIds (node : MuxLayoutNode) : list string :=
  match node with
  | pane id => [id]
  | split _ _ first second => (collectPaneIds first ++ collectPaneIds second)%list
  end.

(** ** Layouts from a list of panes *)

Definition other_axis (axis : MuxAxis) : MuxAxis := match axis with vertical => horizontal | horizontal => vertical end.

(** [Math.ceil (n / 2)]. *)
Definition midpoint (n : nat) : nat := Nat.div2 (S n).

Lemma midpoint_lt n : (2 <= n -> midpoint n < n)%nat.
Proof. unfold midpoint. intros H. pose proof (Nat.div2_odd (S n)). destruct (Nat.odd (S n)); cbn [Nat.b2n] in *; lia. Qed.

Lemma midpoint_pos n : (1 <= n -> 1 <= midpoint n)%nat.
Proof. unfold midpoint. intros H. pose proof (Nat.div2_odd (S n)). destruct (Nat.odd (S n)); cbn [Nat.b2n] in *; lia. Qed.

(** No layout for no panes; a list is split into shorter ones, so its length is
    fuel enough. *)
Fixpoint even_layout (fuel : nat) (paneIds : list string) (axis : MuxAxis) : option MuxLayoutNode :=
  match fuel with
  | O => None
  | S fuel =>
      match paneIds with
      | [] => None
      | [id] => Some (pane id)
      | ids =>
          let m := midpoint (length ids) in
          match even_layout fuel (take m ids) (other_axis axis), even_layout fuel (drop m ids) (other_axis axis) with
          | Some first, Some second => Some (split axis (percent 50) first second)
          | _, _ => None
          end
      end
  end.

Definition buildEvenLayout (paneIds : list string) (axis : MuxAxis) : option MuxLayoutNode := even_layout (length paneIds) paneIds axis.

Fixpoint buildStackLayout (paneIds : list string) (axis : MuxAxis) : option MuxLayoutNode :=
  match paneIds with
  | [] => None
  | [id] => Some (pane id)
  | first :: rest => split axis (percent 50) (pane first) <$> buildStackLayout rest axis
  end.

Definition buildMainLayout (paneIds : list string) (rootAxis : MuxAxis) : option MuxLayoutNode :=
  match paneIds with
  | [] => None
  | [id] => Some (pane id)
  | primary :: rest =>
      split rootAxis (if (length rest =? 1)%nat then percent 50 else percent 62) (pane primary)
        <$> buildStackLayout rest (other_axis rootAxis)
  end.

(** ** Workspaces *)

Definition createMuxWorkspace (uuid : string) (initialPane : RuntimePaneState) (workspaceId title : option string) : MuxWorkspaceState := {|
  mw_workspaceId := str_or (nullish workspaceId "") uuid; mw_title := str_or (nullish title "") (rp_displayName initialPane);
  mw_root := pane (rp_paneId initialPane); mw_focusedPaneId := rp_paneId initialPane; mw_zoomedPaneId := None;
  mw_panes := [(rp_paneId initialPane, initialPane)] |}.

Definition splitMuxPane (w : MuxWorkspaceState) (targetPaneId : string) (axis : MuxAxis) (nextPane : RuntimePaneState)
    : MuxError + MuxWorkspaceState :=
  if has_key targetPaneId (mw_panes w) then
    inr {| w with
      mw_root := replaceNode (mw_root w) targetPaneId (split axis (percent 50) (pane targetPaneId) (pane (rp_paneId nextPane)));
      mw_panes := map_set (rp_paneId nextPane) nextPane (mw_panes w);
      mw_focusedPaneId := rp_paneId nextPane |}
  else inl (Me_unknown_pane targetPaneId).

(** [null] when the last pane is removed. *)
Definition removeMuxPane (w : MuxWorkspaceState) (paneId : string) : option MuxWorkspaceState :=
  if has_key paneId (mw_panes w) then
    match removeNode (mw_root w) paneId with
    | None => None
    | Some root =>
        let panes := map_delete paneId (mw_panes w) in
        Some {| w with
          mw_panes := panes; mw_root := root;
          mw_focusedPaneId := if bool_decide (mw_focusedPaneId w = paneId) then nullish (head (map fst panes)) "" else mw_focusedPaneId w;
          mw_zoomedPaneId := if bool_decide (mw_zoomedPaneId w = Some paneId) then None else mw_zoomedPaneId w |}
    end
  else Some w.

Definition focusMuxPane (w : MuxWorkspaceState) (paneId : string) : MuxError + MuxWorkspaceState :=
  if has_key paneId (mw_panes w) then inr {| w with mw_focusedPaneId := paneId |} else inl (Me_unknown_pane paneId).

Definition updateMuxPane (w : MuxWorkspaceState) (p : RuntimePaneState) : MuxWorkspaceState :=
  if has_key (rp_paneId p) (mw_panes w) then {| w with mw_panes := map_set (rp_paneId p) p (mw_panes w) |} else w.

Definition toggleMuxPaneZoom (w : MuxWorkspaceState) (paneId : string) : MuxError + MuxWorkspaceState :=
  if has_key paneId (mw_panes w) then
    inr {| w with mw_focusedPaneId := paneId;
                  mw_zoomedPaneId := if bool_decide (mw_zoomedPaneId w = Some paneId) then None else Some paneId |}
  else inl (Me_unknown_pane paneId).

Definition resize_axis (direction : ResizeDirection) : MuxAxis :=
  match direction with left_ | right_ => vertical | up_ | down_ => horizontal end.

Definition resize_delta (direction : ResizeDirection) (amount : number) : number :=
  match direction with left_ | up_ => SFopp (SFabs amount) | right_ | down_ => SFabs amount end.

(** Five percent when no amount is given. *)
Definition resizeMuxPane (w : MuxWorkspaceState) (paneId : string) (direction : ResizeDirection) (amount : option number)
    : MuxError + MuxWorkspaceState :=
  if has_key paneId (mw_panes w) then
    let '(n, changed) := adjustNodeForPane (mw_root w) paneId (resize_axis direction) (resize_delta direction (nullish amount (percent 5))) in
    inr (if changed then {| w with mw_root := n |} else w)
  else inl (Me_unknown_pane paneId).

Definition rebalanceMuxLayout (w : MuxWorkspaceState) : MuxWorkspaceState := {| w with mw_root := rebalanceNode (mw_root w) |}.

Definition swapped (a b id : string) : string := if bool_decide (id = a) then b else if bool_decide (id = b) then a else id.

Definition swapMuxPanePositions (w : MuxWorkspaceState) (firstPaneId secondPaneId : string) : MuxError + MuxWorkspaceState :=
  if bool_decide (firstPaneId = secondPaneId) then inr w
  else if negb (has_key firstPaneId (mw_panes w)) then inl (Me_unknown_pane firstPaneId)
  else if negb (has_key secondPaneId (mw_panes w)) then inl (Me_unknown_pane secondPaneId)
  else inr {| w with mw_root := mapPaneIds (mw_root w) firstPaneId secondPaneId;
                     mw_focusedPaneId := swapped firstPaneId secondPaneId (mw_focusedPaneId w);
                     mw_zoomedPaneId := swapped firstPaneId secondPaneId <$> mw_zoomedPaneId w |}.

(** The panes, the focused one first. *)
Definition ordered_panes (w : MuxWorkspaceState) : list string :=
  mw_focusedPaneId w :: List.filter (fun id => negb (bool_decide (id = mw_focusedPaneId w))) (collectPaneIds (mw_root w)).

Definition applyMuxLayoutPreset (w : MuxWorkspaceState) (preset : MuxLayoutPreset) : MuxError + MuxWorkspaceState :=
  let ids := ordered_panes w in
  match match preset with
        | main_vertical => buildMainLayout ids vertical
        | main_horizontal => buildMainLayout ids horizontal
        | tiled | even => buildEvenLayout ids vertical
        end with
  | Some root => inr {| w with mw_root := root |}
  | None => inl Me_no_panes
  end.

(** ** Persistence *)

Record PersistedPane : Set := { pp_runtimeId : option string; pp_runtimeKey : string; pp_paneKind : MuxPaneKind; pp_accessMode : PaneAccessMode }.

Record PersistedMuxWorkspaceState : Type := {
  pw_workspaceId : string; pw_title : string; pw_focusedPaneId : string; pw_zoomedPaneId : option string;
  pw_root : MuxLayoutNode; pw_panes : jsmap PersistedPane }.

Definition persisted_pane (p : RuntimePaneState) : PersistedPane := {|
  pp_runtimeId := Some (rp_runtimeId p); pp_runtimeKey := rp_runtimeKey p; pp_paneKind := rp_paneKind p; pp_accessMode := rp_accessMode p |}.

Definition serializeWorkspace (w : MuxWorkspaceState) : PersistedMuxWorkspaceState := {|
  pw_workspaceId := mw_workspaceId w; pw_title := mw_title w; pw_focusedPaneId := mw_focusedPaneId w;
  pw_zoomedPaneId := if truthy_str (mw_zoomedPaneId w) then mw_zoomedPaneId w else None; pw_root := mw_root w;
  pw_panes := map (fun e => (e.1, persisted_pane e.2)) (mw_panes w) |}.
