(* ===== verification/MuxTheorems.v ===== *)
(** * Facts about pane layouts

    Ratios stay between 15 and 85 percent, the tree and the panes of a workspace
    keep describing the same panes, and what the operations do to the order of
    the panes. *)

From Stdlib Require Import SpecFloat.
From S2P Require Import Prelude RpcChunking KeyedDoc KeyedRows SessionTypes MuxLayout.

#[local] Open Scope string_scope.
#[local] Open Scope Z_scope.

(** ** Numbers *)

#[local] Arguments percent : simpl never.
#[local] Arguments clampRatio : simpl never.

Definition is_number (x : number) : Prop := x <> S754_nan.

Lemma shr_1_nonneg r : 0 <= shr_m r -> 0 <= shr_m (shr_1 r).
Proof. destruct r as [[|[p|p|]|[p|p|]] rr ss]; cbn; lia. Qed.

Lemma iter_nonneg p r : 0 <= shr_m r -> 0 <= shr_m (SpecFloat.iter_pos shr_1 p r).
Proof. revert r. induction p as [p IH|p IH|]; intros r H; cbn [SpecFloat.iter_pos]; auto using shr_1_nonneg. Qed.

Lemma shr_fexp_nonneg m e l : 0 <= m -> 0 <= shr_m (shr_fexp 53 1024 m e l).1.
Proof.
  intros H. unfold shr_fexp, shr.
  assert (H0 : 0 <= shr_m (shr_record_of_loc m l)) by (by destruct l as [|[]]).
  destruct (_ - e); cbn [fst]; auto using iter_nonneg.
Qed.

Lemma round_nonneg m l : 0 <= m -> 0 <= round_nearest_even m l.
Proof. destruct l as [|[]]; cbn; [lia| |lia|lia]. case_match; lia. Qed.

Lemma round_number s m e l : 0 <= m -> is_number (binary_round_aux 53 1024 s m e l).
Proof.
  intros Hm. unfold binary_round_aux. pose proof (shr_fexp_nonneg m e l Hm) as H1.
  destruct (shr_fexp 53 1024 m e l) as [r1 e1]. cbn [fst] in H1.
  pose proof (shr_fexp_nonneg _ e1 loc_Exact (round_nonneg _ (loc_of_shr_record r1) H1)) as H2.
  destruct (shr_fexp _ _ _ e1 _) as [r2 e2]. cbn [fst] in H2.
  destruct (shr_m r2); [done| |lia]. by case_match.
Qed.

(** Adding to a finite number gives a number. *)
Lemma add_number s m e y : is_number y -> is_number (num_add (S754_finite s m e) y).
Proof.
  intros Hy. unfold num_add, SFadd. destruct y as [| | |s' m' e']; [done..|]. unfold binary_normalize.
  destruct (_ + _); [done| |]; unfold binary_round; destruct (shl_align _ _ _); by apply round_number.
Qed.

Definition ratio_ok (r : number) : Prop := SFleb (percent 15) r = true /\ SFleb r (percent 85) = true.

Lemma ratio_finite r : ratio_ok r -> exists s m e, r = S754_finite s m e.
Proof.
  intros [H1 H2]. destruct r as [s|s| |s m e]; [exfalso..|by eexists _, _, _].
  - by destruct s; vm_compute in H1.
  - destruct s; [by vm_compute in H1|by vm_compute in H2].
  - by vm_compute in H1.
Qed.

Lemma ltb_leb a b : SFltb a b = true -> SFleb a b = true.
Proof. unfold SFltb, SFleb. by destruct (SFcompare a b) as [[]|]. Qed.

Lemma clamp_ok v : is_number v -> ratio_ok (clampRatio v).
Proof.
  intros Hv. unfold clampRatio. assert (E : num_min (percent 85) v = if SFltb v (percent 85) then v else percent 85) by (by destruct v).
  rewrite E. destruct (SFltb v (percent 85)) eqn:H85; [|by vm_compute].
  assert (E' : num_max (percent 15) v = if SFltb (percent 15) v then v else percent 15) by (by destruct v). rewrite E'.
  destruct (SFltb (percent 15) v) eqn:H15; [|by vm_compute]. split; by apply ltb_leb.
Qed.

(** ** Trees *)

Fixpoint ratios_ok (n : MuxLayoutNode) : Prop :=
  match n with pane _ => True | split _ r a b => ratio_ok r /\ ratios_ok a /\ ratios_ok b end.

Notation leaves := collectPaneIds.

Lemma leaves_nonempty n : leaves n <> [].
Proof. induction n as [|a r f IHf s IHs]; [done|]. cbn. by destruct (leaves f). Qed.

Lemma contains_leaf n id : nodeContainsPane n id = bool_decide (id ∈ leaves n).
Proof.
  induction n as [x|a r f IHf s IHs]; cbn.
  - apply bool_decide_ext. rewrite list_elem_of_singleton. naive_solver.
  - rewrite IHf, IHs, <- bool_decide_or. apply bool_decide_ext. by rewrite elem_of_app.
Qed.

Lemma leaves_replace n id next : leaves (replaceNode n id next) = flat_map (fun x => if bool_decide (x = id) then leaves next else [x]) (leaves n).
Proof.
  induction n as [x|a r f IHf s IHs]; cbn.
  - case_bool_decide; by rewrite ?app_nil_r.
  - by rewrite IHf, IHs, flat_map_app.
Qed.

Definition other_than (id x : string) : bool := negb (bool_decide (x = id)).

Lemma leaves_remove n id : List.filter (other_than id) (leaves n) = match removeNode n id with Some n' => leaves n' | None => [] end.
Proof.
  induction n as [x|a r f IHf s IHs]; cbn.
  - unfold other_than. by case_bool_decide.
  - rewrite List.filter_app, IHf, IHs. destruct (removeNode f id), (removeNode s id); cbn; by rewrite ?app_nil_r.
Qed.

Lemma leaves_swap n a b : leaves (mapPaneIds n a b) = map (swapped a b) (leaves n).
Proof. induction n as [x|ax r f IHf s IHs]; cbn; [unfold swapped; by repeat case_bool_decide|]. by rewrite IHf, IHs, map_app. Qed.

Lemma leaves_rebalance n : leaves (rebalanceNode n) = leaves n.
Proof. induction n as [x|ax r f IHf s IHs]; cbn; congruence. Qed.

Lemma leaves_adjust n id axis d : leaves (adjustNodeForPane n id axis d).1 = leaves n.
Proof.
  induction n as [x|ax r f IHf s IHs]; [done|]. cbn [adjustNodeForPane]. cbv zeta.
  destruct (nodeContainsPane f id); [|destruct (nodeContainsPane s id)]; cbn [negb andb]; [| |done].
  - destruct (adjustNodeForPane f id axis d) as [n []]; cbn in *; congruence.
  - destruct (adjustNodeForPane s id axis d) as [n []]; cbn in *; congruence.
Qed.

Lemma half_ok : ratio_ok (percent 50).
Proof. by vm_compute. Qed.
#[local] Hint Resolve half_ok : core.

Lemma ratios_replace n id next : ratios_ok n -> ratios_ok next -> ratios_ok (replaceNode n id next).
Proof. induction n as [x|ax r f IHf s IHs]; cbn; [by case_bool_decide|]. naive_solver. Qed.

Lemma ratios_remove n id : ratios_ok n -> from_option ratios_ok True (removeNode n id).
Proof.
  induction n as [x|ax r f IHf s IHs]; cbn; [by case_bool_decide|]. intros (Hr & Hf & Hs). specialize (IHf Hf). specialize (IHs Hs).
  by destruct (removeNode f id), (removeNode s id).
Qed.

Lemma ratios_swap n a b : ratios_ok n -> ratios_ok (mapPaneIds n a b).
Proof. induction n as [x|ax r f IHf s IHs]; cbn; [by repeat case_bool_decide|]. naive_solver. Qed.

Lemma ratios_rebalance n : ratios_ok (rebalanceNode n).
Proof. induction n as [x|ax r f IHf s IHs]; cbn; auto. Qed.

Lemma ratios_adjust n id axis d : is_number d -> ratios_ok n -> ratios_ok (adjustNodeForPane n id axis d).1.
Proof.
  intros Hd. assert (Hd' : is_number (SFopp d)) by (by destruct d).
  induction n as [x|ax r f IHf s IHs]; [done|]. cbn [adjustNodeForPane ratios_ok]. cbv zeta. intros (Hr & Hf & Hs).
  specialize (IHf Hf). specialize (IHs Hs).
  assert (Hratio : forall b y, is_number y -> ratio_ok (if b : bool then clampRatio (num_add r y) else r)).
  { intros [] y Hy; [|done]. apply clamp_ok. destruct (ratio_finite r Hr) as (? & ? & ? & ->). by apply add_number. }
  destruct (nodeContainsPane f id); [|destruct (nodeContainsPane s id)]; cbn [negb andb]; [| |done].
  - destruct (adjustNodeForPane f id axis d) as [n []]; cbn in *; auto.
  - destruct (adjustNodeForPane s id axis d) as [n []]; cbn in *; auto.
Qed.

(** ** Layouts from a list of panes *)

Definition builds (o : option MuxLayoutNode) (ids : list string) : Prop :=
  match o with Some n => leaves n = ids /\ ratios_ok n | None => ids = [] end.

Lemma even_layout_builds fuel ids axis : (length ids <= fuel)%nat -> builds (even_layout fuel ids axis) ids.
Proof.
  revert ids axis. induction fuel as [|fuel IH]; intros ids axis Hf; [by destruct ids; cbn in *; [|lia]|].
  destruct ids as [|id [|id' rest]]; [done..|]. cbn [even_layout].
  set (l := id :: id' :: rest) in *. set (m := midpoint (length l)).
  assert (Hl : (2 <= length l)%nat) by (cbn; lia). clearbody l.
  pose proof (midpoint_lt (length l) Hl) as Hlt. pose proof (midpoint_pos (length l) ltac:(lia)) as Hpos.
  pose proof (IH (take m l) (other_axis axis) ltac:(rewrite length_take; unfold m; lia)) as H1.
  pose proof (IH (drop m l) (other_axis axis) ltac:(rewrite length_drop; unfold m; lia)) as H2.
  destruct (even_layout fuel (take m l) _) as [n1|]; [destruct (even_layout fuel (drop m l) _) as [n2|]|]; cbn in *.
  - destruct H1 as [-> H1], H2 as [-> H2]. rewrite take_drop. auto.
  - apply (f_equal length) in H2. rewrite length_drop in H2. cbn in H2. unfold m in H2. lia.
  - apply (f_equal length) in H1. rewrite length_take in H1. cbn in H1. unfold m in H1. lia.
Qed.

Lemma even_builds ids axis : builds (buildEvenLayout ids axis) ids.
Proof. by apply even_layout_builds. Qed.

Lemma stack_builds ids axis : builds (buildStackLayout ids axis) ids.
Proof.
  induction ids as [|id [|id' rest] IH]; [done..|]. change (buildStackLayout (id :: id' :: rest) axis) with
    (split axis (percent 50) (pane id) <$> buildStackLayout (id' :: rest) axis).
  destruct (buildStackLayout _ _) as [n|]; cbn in *; [|done]. destruct IH as [-> H]. auto.
Qed.

Lemma main_builds ids axis : builds (buildMainLayout ids axis) ids.
Proof.
  destruct ids as [|id [|id' rest]]; [done..|]. unfold buildMainLayout. pose proof (stack_builds (id' :: rest) (other_axis axis)) as H.
  destruct (buildStackLayout _ _) as [n|]; cbn in *; [|done]. destruct H as [-> H]. split; [done|]. split; [|done].
  case_match; by vm_compute.
Qed.

(** ** Workspaces *)

(** The tree and the panes describe the same panes, each once; the focused and
    the zoomed pane are among them; every split leaves each side its share. *)
Record workspace_ok (w : MuxWorkspaceState) : Prop := {
  wk_leaves : NoDup (leaves (mw_root w));
  wk_keys : NoDup (map fst (mw_panes w));
  wk_same : forall id, id ∈ leaves (mw_root w) <-> id ∈ map fst (mw_panes w);
  wk_own : forall id p, map_get id (mw_panes w) = Some p -> rp_paneId p = id;
  wk_focus : mw_focusedPaneId w ∈ leaves (mw_root w);
  wk_zoom : forall id, mw_zoomedPaneId w = Some id -> id ∈ leaves (mw_root w);
  wk_ratios : ratios_ok (mw_root w) }.

Lemma has_key_leaf w id : workspace_ok w -> has_key id (mw_panes w) = bool_decide (id ∈ leaves (mw_root w)).
Proof.
  intros Hw. unfold has_key, present. destruct (map_get id (mw_panes w)) as [p|] eqn:E; symmetry.
  - apply bool_decide_eq_true, (wk_same _ Hw). apply get_In. by rewrite E.
  - apply bool_decide_eq_false. rewrite (wk_same _ Hw). by apply get_None.
Qed.

Lemma created_ok uuid p wid title : workspace_ok (createMuxWorkspace uuid p wid title).
Proof.
  split; cbn; try done.
  - apply NoDup_singleton.
  - apply NoDup_singleton.
  - intros id q. case_match; [|done]. intros [= <-]. done.
  - by apply list_elem_of_singleton.
Qed.

Lemma split_leaves_elem w t next id : t ∈ leaves (mw_root w) ->
  id ∈ flat_map (fun x => if bool_decide (x = t) then [t; next] else [x]) (leaves (mw_root w)) <-> id ∈ leaves (mw_root w) \/ id = next.
Proof.
  intros Ht. rewrite list_elem_of_In, in_flat_map. split.
  - intros (x & Hx & Hid). apply list_elem_of_In in Hx. case_bool_decide as E; cbn in Hid; destruct Hid as [<-|[<-|[]]] || destruct Hid as [<-|[]]; subst; auto.
  - intros [Hid| ->].
    + exists id. split; [by apply list_elem_of_In|]. case_bool_decide; cbn; auto.
    + exists t. split; [by apply list_elem_of_In|]. rewrite bool_decide_true by done. cbn; auto.
Qed.

Lemma split_leaves_NoDup (t next : string) l : NoDup l -> next ∉ l -> NoDup (flat_map (fun x => if bool_decide (x = t) then [t; next] else [x]) l).
Proof.
  induction l as [|x l IH]; [constructor|]. intros [Hx Hn]%NoDup_cons Hnext. apply not_elem_of_cons in Hnext as [Hne Hnext].
  assert (Hin : forall y, y ∈ flat_map (fun x => if bool_decide (x = t) then [t; next] else [x]) l -> y ∈ l \/ (y = next /\ t ∈ l)).
  { intros y (z & Hz & Hy)%list_elem_of_In%in_flat_map. apply list_elem_of_In in Hz.
    case_bool_decide; cbn in Hy; destruct Hy as [<-|[<-|[]]] || destruct Hy as [<-|[]]; subst; auto. }
  cbn [flat_map]. case_bool_decide as E; subst; cbn [app].
  - constructor; [|constructor; [|by apply IH]].
    + intros [->|[Hy|[-> _]]%Hin]%elem_of_cons; by auto.
    + intros [Hy|[_ Hy]]%Hin; done.
  - constructor; [|by apply IH]. intros [Hy|[-> _]]%Hin; done.
Qed.

Lemma split_ok w t axis p w' : workspace_ok w -> rp_paneId p ∉ leaves (mw_root w) -> splitMuxPane w t axis p = inr w' -> workspace_ok w'.
Proof.
  intros Hw Hp. unfold splitMuxPane. rewrite has_key_leaf by done. case_bool_decide as Ht; [|done]. intros [= <-].
  assert (Hl : leaves (replaceNode (mw_root w) t (split axis (percent 50) (pane t) (pane (rp_paneId p))))
               = flat_map (fun x => if bool_decide (x = t) then [t; rp_paneId p] else [x]) (leaves (mw_root w))) by apply leaves_replace.
  split; cbn [mw_root mw_panes mw_focusedPaneId mw_zoomedPaneId]; rewrite ?Hl.
  - by apply split_leaves_NoDup; [apply Hw|].
  - apply map_set_NoDup, Hw.
  - intros id. rewrite split_leaves_elem, (wk_same _ Hw) by done. rewrite <- !get_In, map_get_set. case_decide as E.
    + naive_solver.
    + naive_solver.
  - intros id q. rewrite map_get_set. case_decide as E; [by intros [= <-]|]. apply Hw.
  - apply split_leaves_elem; auto.
  - intros id Hz. apply split_leaves_elem; [done|]. left. by apply (wk_zoom _ Hw).
  - apply ratios_replace; [apply Hw|]. cbn. auto.
Qed.

Lemma filter_other_elem id x l : x ∈ List.filter (other_than id) l <-> x ∈ l /\ x <> id.
Proof. rewrite !list_elem_of_In, filter_In. unfold other_than. rewrite negb_true_iff, bool_decide_eq_false. done. Qed.

Lemma remove_ok w id w' : workspace_ok w -> removeMuxPane w id = Some w' -> workspace_ok w'.
Proof.
  intros Hw. unfold removeMuxPane. rewrite has_key_leaf by done. case_bool_decide as Hid; [|by intros [= <-]].
  pose proof (leaves_remove (mw_root w) id) as Hl. pose proof (ratios_remove _ id (wk_ratios _ Hw)) as Hr.
  destruct (removeNode (mw_root w) id) as [root|]; [|done]. intros [= <-].
  assert (Hin : forall x, x ∈ leaves root <-> x ∈ leaves (mw_root w) /\ x <> id) by (intros x; rewrite <- Hl; apply filter_other_elem).
  assert (Hkeys : forall x, x ∈ map fst (map_delete id (mw_panes w)) <-> x ∈ leaves (mw_root w) /\ x <> id).
  { intros x. rewrite (wk_same _ Hw), <- !get_In, get_delete. case_decide; split; naive_solver. }
  split; cbn [mw_root mw_panes mw_focusedPaneId mw_zoomedPaneId].
  - rewrite <- Hl. apply NoDup_ListNoDup, List.NoDup_filter, NoDup_ListNoDup, Hw.
  - apply delete_NoDup, Hw.
  - intros x. by rewrite Hin, Hkeys.
  - intros x q. rewrite get_delete. case_decide; [done|]. apply Hw.
  - case_bool_decide as Hf; [|apply Hin; by split; [apply (wk_focus _ Hw)|]].
    destruct (map fst (map_delete id (mw_panes w))) as [|k ks] eqn:Ek; cbn.
    + exfalso. destruct (leaves root) as [|x xs] eqn:Er; [by eapply leaves_nonempty|].
      assert (Hx : x ∈ x :: xs) by constructor. apply Hin, Hkeys in Hx. by apply elem_of_nil in Hx.
    + apply Hin, Hkeys. constructor.
  - intros x Hx. case_bool_decide as Hz; [done|]. apply Hin. split; [by apply (wk_zoom _ Hw)|]. congruence.
  - exact Hr.
Qed.

Lemma focus_ok w id w' : workspace_ok w -> focusMuxPane w id = inr w' -> workspace_ok w'.
Proof.
  intros Hw. unfold focusMuxPane. rewrite has_key_leaf by done. case_bool_decide as Hid; [|done]. intros [= <-].
  by destruct Hw; split.
Qed.

Lemma zoom_ok w id w' : workspace_ok w -> toggleMuxPaneZoom w id = inr w' -> workspace_ok w'.
Proof.
  intros Hw. unfold toggleMuxPaneZoom. rewrite has_key_leaf by done. case_bool_decide as Hid; [|done]. intros [= <-].
  destruct Hw; split; try done. cbn. case_bool_decide; naive_solver.
Qed.

Lemma pane_update_ok w p : workspace_ok w -> workspace_ok (updateMuxPane w p).
Proof.
  intros Hw. unfold updateMuxPane. rewrite has_key_leaf by done. case_bool_decide as Hid; [|done].
  pose proof (proj1 (wk_same _ Hw _) Hid) as Hk.
  pose proof Hw as []. split; cbn [mw_root mw_panes mw_focusedPaneId mw_zoomedPaneId]; try done.
  - apply map_set_NoDup, Hw.
  - intros id. rewrite (wk_same _ Hw), <- !get_In, map_get_set. case_decide; [subst|done]. rewrite get_In. naive_solver.
  - intros id q. rewrite map_get_set. case_decide; [by intros [= <-]|]. apply Hw.
Qed.

(** A new tree over the same panes. *)
Lemma reroot_ok w root : workspace_ok w -> ratios_ok root -> leaves root ≡ₚ leaves (mw_root w) -> workspace_ok {| w with mw_root := root |}.
Proof.
  intros [] Hr Hp. split; cbn [mw_root mw_panes mw_focusedPaneId mw_zoomedPaneId]; try done.
  - by rewrite Hp.
  - intros id. by rewrite Hp.
  - by rewrite Hp.
  - intros id. rewrite Hp. auto.
Qed.

Lemma delta_number d amount : is_number (nullish amount (percent 5)) -> is_number (resize_delta d (nullish amount (percent 5))).
Proof. generalize (nullish amount (percent 5)). intros [] H; by destruct d. Qed.

Lemma resize_ok w id d amount w' : workspace_ok w -> is_number (nullish amount (percent 5)) ->
  resizeMuxPane w id d amount = inr w' -> workspace_ok w'.
Proof.
  intros Hw Ha%(delta_number d). unfold resizeMuxPane. rewrite has_key_leaf by done. case_bool_decide as Hid; [|done].
  pose proof (leaves_adjust (mw_root w) id (resize_axis d) (resize_delta d (nullish amount (percent 5)))) as Hl.
  pose proof (ratios_adjust (mw_root w) id (resize_axis d) _ Ha (wk_ratios _ Hw)) as Hr.
  destruct (adjustNodeForPane _ _ _ _) as [n c]. cbn [fst] in *. intros [= <-]. destruct c; [|done].
  apply reroot_ok; [done..|]. by rewrite Hl.
Qed.

Lemma swapped_twice a b x : swapped a b (swapped a b x) = x.
Proof. unfold swapped. repeat case_bool_decide; congruence. Qed.

Lemma swapped_perm a b (l : list string) : NoDup l -> a ∈ l -> b ∈ l -> map (swapped a b) l ≡ₚ l.
Proof.
  intros Hn Ha Hb. apply NoDup_Permutation; [|done|].
  - apply NoDup_fmap; [|done]. intros x y E. by rewrite <- (swapped_twice a b x), E, swapped_twice.
  - intros x. rewrite list_elem_of_fmap. split.
    + intros (y & -> & Hy). unfold swapped. by repeat case_bool_decide.
    + intros Hx. exists (swapped a b x). rewrite swapped_twice. split; [done|]. unfold swapped. by repeat case_bool_decide.
Qed.

Lemma swapped_elem a b x (l : list string) : a ∈ l -> b ∈ l -> x ∈ l -> swapped a b x ∈ l.
Proof. intros. unfold swapped. by repeat case_bool_decide. Qed.

Lemma swap_ok w a b w' : workspace_ok w -> swapMuxPanePositions w a b = inr w' -> workspace_ok w'.
Proof.
  intros Hw. unfold swapMuxPanePositions. case_bool_decide; [by intros [= <-]|]. rewrite !has_key_leaf by done.
  case_bool_decide as Ha; [|done]. case_bool_decide as Hb; [|done]. intros [= <-].
  assert (Hp : leaves (mapPaneIds (mw_root w) a b) ≡ₚ leaves (mw_root w)) by (rewrite leaves_swap; by apply swapped_perm; [apply Hw|..]).
  pose proof (reroot_ok w _ Hw (ratios_swap _ a b (wk_ratios _ Hw)) Hp) as [].
  split; cbn [mw_root mw_panes mw_focusedPaneId mw_zoomedPaneId] in *; try done.
  - rewrite Hp. apply swapped_elem; [done..|apply (wk_focus _ Hw)].
  - intros id. destruct (mw_zoomedPaneId w) as [z|] eqn:Ez; [|done]. intros [= <-]. rewrite Hp. apply swapped_elem; [done..|by apply (wk_zoom _ Hw)].
Qed.

Lemma ordered_perm w : workspace_ok w -> ordered_panes w ≡ₚ leaves (mw_root w).
Proof.
  intros Hw. unfold ordered_panes. change (fun id => negb _) with (other_than (mw_focusedPaneId w)). apply NoDup_Permutation; [|apply Hw|].
  - constructor; [by rewrite filter_other_elem; intros []|]. apply NoDup_ListNoDup, List.NoDup_filter, NoDup_ListNoDup, Hw.
  - intros x. rewrite elem_of_cons, filter_other_elem. pose proof (wk_focus _ Hw). destruct (decide (x = mw_focusedPaneId w)); naive_solver.
Qed.

(** A preset only changes the tree: its panes are the focused one and then the
    others in their order. *)
Lemma preset_panes w preset : workspace_ok w ->
  exists root, applyMuxLayoutPreset w preset = inr {| w with mw_root := root |} /\ leaves root = ordered_panes w /\ ratios_ok root.
Proof.
  intros Hw. unfold applyMuxLayoutPreset. cbv zeta.
  assert (H : builds (match preset with main_vertical => buildMainLayout (ordered_panes w) vertical
                      | main_horizontal => buildMainLayout (ordered_panes w) horizontal
                      | tiled | even => buildEvenLayout (ordered_panes w) vertical end) (ordered_panes w))
    by (destruct preset; apply main_builds || apply even_builds).
  destruct (match preset with main_vertical => _ | _ => _ end) as [root|]; [|done]. exists root. by destruct H.
Qed.

(** ** Operations *)

Inductive MuxOp : Type :=
  | Mo_split (target : string) (axis : MuxAxis) (next : RuntimePaneState)
  | Mo_remove (paneId : string)
  | Mo_focus (paneId : string)
  | Mo_update (p : RuntimePaneState)
  | Mo_zoom (paneId : string)
  | Mo_resize (paneId : string) (direction : ResizeDirection) (amount : option number)
  | Mo_rebalance
  | Mo_swap (first second : string)
  | Mo_preset (preset : MuxLayoutPreset).

(** No workspace: its last pane was removed. *)
Definition apply_mux (op : MuxOp) (w : MuxWorkspaceState) : MuxError + option MuxWorkspaceState :=
  let kept (x : MuxError + MuxWorkspaceState) := match x with inl e => inl e | inr w => inr (Some w) end in
  match op with
  | Mo_split t axis p => kept (splitMuxPane w t axis p)
  | Mo_remove id => inr (removeMuxPane w id)
  | Mo_focus id => kept (focusMuxPane w id)
  | Mo_update p => inr (Some (updateMuxPane w p))
  | Mo_zoom id => kept (toggleMuxPaneZoom w id)
  | Mo_resize id d amount => kept (resizeMuxPane w id d amount)
  | Mo_rebalance => inr (Some (rebalanceMuxLayout w))
  | Mo_swap a b => kept (swapMuxPanePositions w a b)
  | Mo_preset p => kept (applyMuxLayoutPreset w p)
  end.

(** The panes an operation must find. *)
Definition required (op : MuxOp) : list string :=
  match op with
  | Mo_split t _ _ => [t]
  | Mo_focus id | Mo_zoom id | Mo_resize id _ _ => [id]
  | Mo_swap a b => [a; b]
  | _ => []
  end.

(** A new pane has a new id, and an amount is a number. *)
Definition op_ok (op : MuxOp) (w : MuxWorkspaceState) : Prop :=
  match op with
  | Mo_split _ _ p => rp_paneId p ∉ leaves (mw_root w)
  | Mo_resize _ _ amount => is_number (nullish amount (percent 5))
  | _ => True
  end.

Definition answer_ok (op : MuxOp) (w : MuxWorkspaceState) (x : MuxError + option MuxWorkspaceState) : Prop :=
  match x with
  | inr (Some w') => workspace_ok w'
  | inr None => exists id, op = Mo_remove id /\ leaves (mw_root w) = [id]
  | inl e => exists id, e = Me_unknown_pane id /\ id ∈ required op /\ id ∉ leaves (mw_root w)
  end.

Lemma answer_kept op w (x : MuxError + MuxWorkspaceState) :
  (forall w', x = inr w' -> workspace_ok w') ->
  (forall e, x = inl e -> exists id, e = Me_unknown_pane id /\ id ∈ required op /\ id ∉ leaves (mw_root w)) ->
  answer_ok op w match x with inl e => inl e | inr w => inr (Some w) end.
Proof. destruct x; cbn; auto. Qed.

Lemma last_removed w id : workspace_ok w -> removeMuxPane w id = None -> leaves (mw_root w) = [id].
Proof.
  intros Hw. unfold removeMuxPane. rewrite has_key_leaf by done. case_bool_decide as Hid; [|done].
  pose proof (leaves_remove (mw_root w) id) as Hl. destruct (removeNode (mw_root w) id); [done|]. intros _.
  assert (Hall : forall x, x ∈ leaves (mw_root w) -> x = id).
  { intros x Hx. destruct (decide (x = id)) as [|Hne]; [done|]. assert (H : x ∈ @nil string) by (rewrite <- Hl; by apply filter_other_elem).
    by apply elem_of_nil in H. }
  destruct Hw as [Hn _ _ _ _ _ _]. destruct (leaves (mw_root w)) as [|x [|y l]]; [by apply elem_of_nil in Hid| |].
  - f_equal. apply Hall. constructor.
  - exfalso. apply NoDup_cons in Hn as [Hn _]. apply Hn. rewrite (Hall x), (Hall y); constructor; constructor.
Qed.

(** C40: Every operation keeps a workspace well-formed: the tree and the panes
    describe the same panes, each once, focus and zoom are among them, and each
    split leaves both sides at least 15 percent. An operation fails only on a
    pane that is not there, and the workspace ends only with its last pane. *)
Theorem layout_preserved op w : workspace_ok w -> op_ok op w -> answer_ok op w (apply_mux op w).
Proof.
  intros Hw Hop. destruct op; cbn [apply_mux op_ok] in *; try apply answer_kept.
  - intros w'. by apply split_ok.
  - unfold splitMuxPane. rewrite has_key_leaf by done. case_bool_decide; [done|]. intros e [= <-]. eexists. split; [done|]. split; [|done]. constructor.
  - destruct (removeMuxPane w paneId) as [w'|] eqn:E; cbn; [by eapply remove_ok|]. eexists. split; [done|]. by apply last_removed.
  - intros w'. by apply focus_ok.
  - unfold focusMuxPane. rewrite has_key_leaf by done. case_bool_decide; [done|]. intros e [= <-]. eexists. split; [done|]. split; [|done]. constructor.
  - by apply pane_update_ok.
  - intros w'. by apply zoom_ok.
  - unfold toggleMuxPaneZoom. rewrite has_key_leaf by done. case_bool_decide; [done|]. intros e [= <-]. eexists. split; [done|]. split; [|done]. constructor.
  - intros w'. by apply resize_ok.
  - unfold resizeMuxPane. rewrite has_key_leaf by done. destruct (adjustNodeForPane _ _ _ _). case_bool_decide; [done|]. intros e [= <-].
    eexists. split; [done|]. split; [|done]. constructor.
  - apply reroot_ok; [done|apply ratios_rebalance|by rewrite leaves_rebalance].
  - intros w'. by apply swap_ok.
  - unfold swapMuxPanePositions. case_bool_decide; [done|]. rewrite !has_key_leaf by done.
    case_bool_decide; cbn [negb]; [case_bool_decide; [done|]|]; intros e [= <-]; eexists; (split; [done|]); (split; [|done]); set_solver.
  - intros w' E. destruct (preset_panes w preset Hw) as (root & E' & Hl & Hr). rewrite E' in E. injection E as <-.
    apply reroot_ok; [done..|]. rewrite Hl. by apply ordered_perm.
  - intros e E. destruct (preset_panes w preset Hw) as (root & E' & _). by rewrite E' in E.
Qed.

Lemma remove_fresh n id : id ∉ leaves n -> removeNode n id = Some n.
Proof.
  induction n as [x|a r f IHf s IHs]; cbn.
  - rewrite list_elem_of_singleton. intros H. by rewrite bool_decide_false by done.
  - rewrite elem_of_app. intros H. rewrite IHf, IHs by tauto. done.
Qed.

Lemma replace_remove n t axis r id : id ∉ leaves n -> removeNode (replaceNode n t (split axis r (pane t) (pane id))) id = Some n.
Proof.
  induction n as [x|a r' f IHf s IHs]; cbn.
  - rewrite list_elem_of_singleton. intros H. case_bool_decide as E; [subst|]; cbn; by rewrite !bool_decide_false, ?bool_decide_true by done.
  - rewrite elem_of_app. intros H. rewrite IHf, IHs by tauto. done.
Qed.

(** Closing the pane a split opened gives the workspace back, with the focus on
    its first pane. *)
Theorem split_then_remove w t axis p w' :
  workspace_ok w -> rp_paneId p ∉ leaves (mw_root w) -> splitMuxPane w t axis p = inr w' ->
  removeMuxPane w' (rp_paneId p) = Some {| w with mw_focusedPaneId := nullish (head (map fst (mw_panes w))) "" |}.
Proof.
  intros Hw Hp. unfold splitMuxPane. case_match; [|done]. intros [= <-]. unfold removeMuxPane. cbn [mw_root mw_panes mw_focusedPaneId mw_zoomedPaneId].
  assert (Hnone : map_get (rp_paneId p) (mw_panes w) = None) by (apply get_None; by rewrite <- (wk_same _ Hw)).
  rewrite (proj2 (has_key_true _ _)) by (rewrite map_get_set, decide_True by done; eauto).
  rewrite replace_remove, delete_set_absent, bool_decide_true by done. rewrite bool_decide_false; [by destruct w|].
  intros Hz. by apply Hp, (wk_zoom _ Hw).
Qed.

Lemma map_ids_twice n a b : mapPaneIds (mapPaneIds n a b) a b = n.
Proof.
  assert (Hp : forall x, mapPaneIds (pane x) a b = pane (swapped a b x)) by (intros x; unfold swapped; cbn; by repeat case_bool_decide).
  induction n as [x|ax r f IHf s IHs]; [by rewrite !Hp, swapped_twice|]. cbn. congruence.
Qed.

(** Swapping two panes twice gives the workspace back. *)
Theorem swap_involutive w a b w' : swapMuxPanePositions w a b = inr w' -> swapMuxPanePositions w' a b = inr w.
Proof.
  unfold swapMuxPanePositions. case_bool_decide as Hab; [by intros [= <-]|].
  destruct (has_key a (mw_panes w)) eqn:Ha; [|done]. destruct (has_key b (mw_panes w)) eqn:Hb; [|done]. cbn [negb]. intros [= <-].
  cbn [mw_panes mw_root mw_focusedPaneId mw_zoomedPaneId]. rewrite Ha, Hb. cbn [negb]. f_equal.
  destruct w as [? ? root focus zoom ?]; cbn. rewrite map_ids_twice, swapped_twice. f_equal.
  destruct zoom; cbn; [by rewrite swapped_twice|done].
Qed.

(** ** Witnesses *)

Definition a_pane (id : string) : RuntimePaneState := {|
  rp_paneId := id; rp_paneKind := kind_runtime; rp_runtimeId := id; rp_runtimeKey := id; rp_displayName := id; rp_workspaceLabel := "work";
  rp_accessMode := interactive; rp_lifecycle := running; rp_writeOwner := None; rp_attachedClients := [];
  rp_viewport := {| vp_cols := 80; vp_rows := 24; vp_snapshotSeq := 0; vp_text := [] |} |}.
Definition one_pane : MuxWorkspaceState := createMuxWorkspace "w" (a_pane "p") None None.

Lemma layout_preserved_witness :
  answer_ok (Mo_split "p" vertical (a_pane "q")) one_pane (apply_mux (Mo_split "p" vertical (a_pane "q")) one_pane).
Proof. apply layout_preserved; [apply created_ok|]. cbn. rewrite list_elem_of_singleton. discriminate. Defined.

Lemma split_then_remove_witness : exists w', splitMuxPane one_pane "p" vertical (a_pane "q") = inr w' /\ removeMuxPane w' "q" = Some one_pane.
Proof.
  eexists. split; [vm_compute; reflexivity|].
  apply (split_then_remove one_pane "p" vertical (a_pane "q")); [apply created_ok| |vm_compute; reflexivity].
  cbn. rewrite list_elem_of_singleton. discriminate.
Defined.

Lemma swap_involutive_witness :
  match splitMuxPane one_pane "p" vertical (a_pane "q") with
  | inr w => exists w', swapMuxPanePositions w "p" "q" = inr w' /\ swapMuxPanePositions w' "p" "q" = inr w
  | inl _ => False
  end.
Proof.
  cbn. eexists. split; [reflexivity|]. apply swap_involutive. reflexivity.
Defined.
