(* ===== verification/StageTypes.v ===== *)
(** * Review in a task: vocabulary, plans and reports

    [packages/mesh-shared/src/task-stages.ts]: the words of the review pipeline,
    its plan and state, the resolution of the enqueue option and the validation
    of reports that workers send.

    A raw report is a JSON value whose objects have one entry per key.  Texts of
    error messages are constructors; numbers are integers or not finite. *)

From stdpp Require Import pretty.
From S2P Require Import Prelude KeyedDoc.

#[local] Open Scope string_scope.
#[local] Open Scope Z_scope.

(** ** Vocabulary *)

Inductive MeshReviewVerdict : Set := approve | approve_with_nits | changes_requested | reject_approach.
Inductive MeshFindingSeverity : Set := sev_blocking | sev_major | sev_minor | sev_nit.
Inductive MeshFindingCategory : Set :=
  | cat_correctness | cat_regression | cat_test_gap | cat_scope | cat_security | cat_performance | cat_maintainability.
Inductive MeshPriorFindingStatus : Set := pf_resolved | pf_unresolved | pf_dispute_accepted | pf_dispute_rejected.
Inductive MeshFindingResponseKind : Set := resp_fixed | resp_disputed.
Inductive MeshStagePhase : Set := implementing | self_checking | awaiting_review | reviewing | revising | phase_done.
Inductive MeshStageIndependenceMode : Set := ind_different_provider | ind_fresh_session_ok.
Inductive MeshStageIndependenceUsed : Set := used_different_provider | used_fresh_session_fallback.
Inductive MeshStageBlockedReason : Set :=
  | br_review_unresolved | br_review_rejected_approach | br_review_unavailable | br_self_check_failed
  | br_stage_pipeline_ceiling | br_reviewer_mutated_source | br_reviewer_integrity_unverifiable.

#[global] Instance MeshReviewVerdict_eq_dec : EqDecision MeshReviewVerdict.
Proof. solve_decision. Defined.
#[global] Instance MeshFindingSeverity_eq_dec : EqDecision MeshFindingSeverity.
Proof. solve_decision. Defined.
#[global] Instance MeshPriorFindingStatus_eq_dec : EqDecision MeshPriorFindingStatus.
Proof. solve_decision. Defined.
#[global] Instance MeshStagePhase_eq_dec : EqDecision MeshStagePhase.
Proof. solve_decision. Defined.
#[global] Instance MeshStageIndependenceMode_eq_dec : EqDecision MeshStageIndependenceMode.
Proof. solve_decision. Defined.
#[global] Instance MeshStageBlockedReason_eq_dec : EqDecision MeshStageBlockedReason.
Proof. solve_decision. Defined.

#[global] Instance REVIEW_VERDICTS : Vocabulary MeshReviewVerdict := {|
  members := [approve; approve_with_nits; changes_requested; reject_approach];
  spelling v := match v with
    | approve => "approve" | approve_with_nits => "approve_with_nits" | changes_requested => "changes_requested"
    | reject_approach => "reject_approach" end |}.
#[global] Instance FINDING_SEVERITIES : Vocabulary MeshFindingSeverity := {|
  members := [sev_blocking; sev_major; sev_minor; sev_nit];
  spelling v := match v with sev_blocking => "blocking" | sev_major => "major" | sev_minor => "minor" | sev_nit => "nit" end |}.
#[global] Instance FINDING_CATEGORIES : Vocabulary MeshFindingCategory := {|
  members := [cat_correctness; cat_regression; cat_test_gap; cat_scope; cat_security; cat_performance; cat_maintainability];
  spelling v := match v with
    | cat_correctness => "correctness" | cat_regression => "regression" | cat_test_gap => "test_gap" | cat_scope => "scope"
    | cat_security => "security" | cat_performance => "performance" | cat_maintainability => "maintainability" end |}.
#[global] Instance PRIOR_FINDING_STATUSES : Vocabulary MeshPriorFindingStatus := {|
  members := [pf_resolved; pf_unresolved; pf_dispute_accepted; pf_dispute_rejected];
  spelling v := match v with
    | pf_resolved => "resolved" | pf_unresolved => "unresolved" | pf_dispute_accepted => "dispute_accepted"
    | pf_dispute_rejected => "dispute_rejected" end |}.
#[global] Instance FINDING_RESPONSE_KINDS : Vocabulary MeshFindingResponseKind := {|
  members := [resp_fixed; resp_disputed];
  spelling v := match v with resp_fixed => "fixed" | resp_disputed => "disputed" end |}.
#[global] Instance STAGE_INDEPENDENCE_MODES : Vocabulary MeshStageIndependenceMode := {|
  members := [ind_different_provider; ind_fresh_session_ok];
  spelling v := match v with ind_different_provider => "different_provider" | ind_fresh_session_ok => "fresh_session_ok" end |}.

(** Phases in which the daemon, not a worker, has the next step. *)
Definition STAGE_PARKED_PHASES : list MeshStagePhase := [self_checking; awaiting_review; reviewing].

Definition STAGE_MAX_REVISIONS_LIMIT : Z := 3.
Definition STAGE_DEFAULT_MAX_REVISIONS : Z := 2.
Definition STAGE_SELF_CHECK_MAX_BOUNCES : Z := 2.
Definition STAGE_INDEPENDENCE_FALLBACK_MS : Z := 10 * 60 * 1000.
Definition STAGE_PIPELINE_CEILING_DEFAULT_MS : Z := 4 * 60 * 60 * 1000.

Definition REVIEW_FINDINGS_MAX : nat := 30.
Definition REVIEW_CLAIM_MAX_CHARS : nat := 500.
Definition REVIEW_EVIDENCE_MAX_CHARS : nat := 1000.
Definition REVIEW_FIX_MAX_CHARS : nat := 500.
Definition REVIEW_FINDING_ID_MAX_CHARS : nat := 40.
Definition REVIEW_CHECKED_MAX : nat := 20.
Definition REVIEW_NOTE_MAX_CHARS : nat := 500.
Definition REVIEW_TESTS_RUN_MAX : nat := 20.
Definition FINDING_RESPONSES_MAX : nat := 30.

(** ** Shapes *)

Record MeshTaskStagePlan : Set := { sp_maxRevisions : Z; sp_independence : MeshStageIndependenceMode }.

Record MeshStageHead : Set := { sh_round : Z; sh_rootSha : string }.

Record SlimFinding : Set := { sf_id : string; sf_severity : MeshFindingSeverity; sf_claim : string }.

Inductive SelfCheckStatus : Set := sc_passed | sc_failed | sc_skipped_not_configured | sc_skipped_infra_error | sc_unavailable.
#[global] Instance SelfCheckStatus_eq_dec : EqDecision SelfCheckStatus.
Proof. solve_decision. Defined.

Record StageArtifacts : Set := { sa_diff : list string; sa_selfCheck : list string; sa_verdict : list string }.

Record MeshTaskStageState : Set := {
  ss_phase : MeshStagePhase; ss_round : Z; ss_selfCheckBounces : Z; ss_startedAt : string; ss_phaseSince : string;
  ss_baseSha : string; ss_stageHeads : list MeshStageHead; ss_reviewTaskIds : list string;
  ss_lastVerdict : option MeshReviewVerdict; ss_openFindingIds : list string; ss_artifacts : StageArtifacts;
  ss_reviewerSessionId : option string; ss_independenceUsed : option MeshStageIndependenceUsed;
  ss_handledAttemptIds : option (list string); ss_reviewerFailures : option Z; ss_extraRevisions : option Z;
  ss_blockedReason : option MeshStageBlockedReason; ss_blockedDetail : option string;
  ss_openFindings : option (list SlimFinding); ss_openNits : option (list SlimFinding);
  ss_selfCheck : option SelfCheckStatus; ss_findingsFixed : option Z; ss_originalMessage : option string;
  ss_workerArtifactIds : option (list string); ss_reviewFingerprint : option string;
  ss_reviewFingerprintUnavailable : option bool; ss_released : option bool }.

Record MeshReviewFinding : Set := {
  fd_id : string; fd_severity : MeshFindingSeverity; fd_category : MeshFindingCategory; fd_file : option string;
  fd_line : option Z; fd_claim : string; fd_evidence : string; fd_suggestedFix : option string }.

Record MeshPriorFindingStatusEntry : Set := { pr_id : string; pr_status : MeshPriorFindingStatus; pr_note : option string }.

Record MeshTestRun : Set := { tr_command : string; tr_exit : Z; tr_passed : option Z; tr_failed : option Z; tr_note : option string }.

Record MeshReviewReport : Set := {
  rv_verdict : MeshReviewVerdict; rv_findings : list MeshReviewFinding; rv_priorFindings : option (list MeshPriorFindingStatusEntry);
  rv_checked : list string; rv_notChecked : list string; rv_testsRun : option (list MeshTestRun) }.

Record MeshFindingResponse : Set := { rp_id : string; rp_response : MeshFindingResponseKind; rp_note : string }.

Definition isBlockingSeverity (severity : MeshFindingSeverity) : bool :=
  match severity with sev_blocking | sev_major => true | _ => false end.

(** [makeGuard]: the member of a vocabulary that a value spells. *)
Definition read_member {A} `{Vocabulary A} (v : DVal) : option A :=
  match v with D_str s => List.find (fun m => bool_decide (spelling m = s)) members | _ => None end.

(** ** Plans *)

Record StagePlanDefaultsInput : Set := { pd_taskMode : option string; pd_difficulty : option string; pd_readonly : option bool }.

Inductive PlanError : Set :=
  | Pe_not_eligible | Pe_shape | Pe_unknown_key (key : string) | Pe_max_revisions | Pe_independence.

Definition defaultStagePlan : MeshTaskStagePlan :=
  {| sp_maxRevisions := STAGE_DEFAULT_MAX_REVISIONS; sp_independence := ind_fresh_session_ok |}.

Definition isStageEligibleTask (task : StagePlanDefaultsInput) : bool :=
  negb (opt_true (pd_readonly task)) && bool_decide (nullish (pd_taskMode task) "code_change" = "code_change").

Definition defaultsOnFor (task : StagePlanDefaultsInput) : bool :=
  isStageEligibleTask task
  && (bool_decide (pd_difficulty task = Some "medium") || bool_decide (pd_difficulty task = Some "difficult")).

(** [??] on the values of an object. *)
Definition dval_or (a b : DVal) : DVal := match a with D_undefined | D_null => b | _ => a end.

Definition plan_keys : list string := ["max_revisions"; "maxRevisions"; "independence"].

(** No plan: the task is not reviewed. *)
Definition resolveStagePlan (raw : DVal) (task : StagePlanDefaultsInput) (defaultOn : option bool) : PlanError + option MeshTaskStagePlan :=
  let eligible := isStageEligibleTask task in
  match raw with
  | D_undefined | D_null => inr (if nullish defaultOn true && defaultsOnFor task then Some defaultStagePlan else None)
  | D_bool false => inr None
  | D_bool true => if eligible then inr (Some defaultStagePlan) else inl Pe_not_eligible
  | D_obj fs =>
      match List.find (fun k => bool_decide (k ∉ plan_keys)) (map fst fs) with
      | Some k => inl (Pe_unknown_key k)
      | None =>
          if negb eligible then inl Pe_not_eligible
          else
            match match dval_or (field fs "max_revisions") (field fs "maxRevisions") with
                  | D_undefined => Some STAGE_DEFAULT_MAX_REVISIONS
                  | D_num n => if (0 <=? n) && (n <=? STAGE_MAX_REVISIONS_LIMIT) then Some n else None
                  | _ => None
                  end with
            | None => inl Pe_max_revisions
            | Some maxRevisions =>
                match field fs "independence" with
                | D_undefined => inr (Some {| sp_maxRevisions := maxRevisions; sp_independence := ind_fresh_session_ok |})
                | v => match read_member v with
                       | Some m => inr (Some {| sp_maxRevisions := maxRevisions; sp_independence := m |})
                       | None => inl Pe_independence
                       end
                end
            end
      end
  | _ => inl Pe_shape
  end.

(** ** Reports *)

Inductive ValidationMessage : Set :=
  | Vm_shape | Vm_too_many | Vm_too_long | Vm_too_few | Vm_unknown_field | Vm_not_listed | Vm_required | Vm_duplicate_id
  | Vm_needs_blocking | Vm_carries_blocking | Vm_missing_prior.

Record StageValidationError : Set := { ve_field : string; ve_message : ValidationMessage }.

Definition err (f : string) (m : ValidationMessage) : list StageValidationError := [{| ve_field := f; ve_message := m |}].
Definition err_if (b : bool) (f : string) (m : ValidationMessage) : list StageValidationError := if b then err f m else [].

(** [str(value)]. *)
Definition str_of (value : DVal) : string := match value with D_str s => js_trim s | _ => "" end.

(** [longer s n]: more than [n] characters. *)
Definition longer (s : string) (n : nat) : bool := (n <? String.length s)%nat.
Definition blank (s : string) : bool := bool_decide (s = "").

Definition unknown_keys (prefix : string) (known : list string) (fs : Row) : list StageValidationError :=
  flat_map (fun k => err_if (bool_decide (k ∉ known)) (prefix ++ "." ++ k) Vm_unknown_field) (map fst fs).

Definition validateStringList (value : DVal) (f : string) (max maxChars minItems : nat) : list StageValidationError * list string :=
  match value with
  | D_arr l =>
      let texts := List.filter (fun t => negb (blank t)) (map str_of l) in
      let out := List.filter (fun t => negb (longer t maxChars)) texts in
      ((err_if (max <? length l)%nat f Vm_too_many
        ++ flat_map (fun _ => err f Vm_too_long) (List.filter (fun t => longer t maxChars) texts)
        ++ err_if (length out <? minItems)%nat f Vm_too_few)%list, out)
  | _ => (err f Vm_shape, [])
  end.

Record ReviewValidationContext : Set := { vc_round : Z; vc_priorOpenBlockingIds : option (list string) }.

Definition element (at_ : string) (i : nat) : string := at_ ++ "[" ++ pretty i ++ "]".

(** The trimmed text of an optional field. *)
Definition optional_text (v : DVal) : option string := match v with D_undefined => None | _ => Some (str_of v) end.
Definition nonblank (o : option string) : option string := if truthy_str o then o else None.

Definition finding_keys : list string := ["id"; "severity"; "category"; "file"; "line"; "claim"; "evidence"; "suggestedFix"].

Definition required_text (s f : string) (max : nat) : list StageValidationError :=
  if blank s then err f Vm_required else err_if (longer s max) f Vm_too_long.

(** One finding: its errors, the finding when its required fields are readable,
    and the ids seen so far. *)
Definition validate_finding (at_ : string) (seen : list string) (v : DVal)
    : list StageValidationError * option MeshReviewFinding * list string :=
  match v with
  | D_obj fs =>
      let id := str_of (field fs "id") in
      let bad_id := blank id || longer id REVIEW_FINDING_ID_MAX_CHARS in
      let severity : option MeshFindingSeverity := read_member (field fs "severity") in
      let category : option MeshFindingCategory := read_member (field fs "category") in
      let claim := str_of (field fs "claim") in
      let evidence := str_of (field fs "evidence") in
      let fix_ := optional_text (field fs "suggestedFix") in
      let errors := (unknown_keys at_ finding_keys fs
        ++ (if bad_id then err (at_ ++ ".id") Vm_required else err_if (bool_decide (id ∈ seen)) (at_ ++ ".id") Vm_duplicate_id)
        ++ err_if (negb (present severity)) (at_ ++ ".severity") Vm_not_listed
        ++ err_if (negb (present category)) (at_ ++ ".category") Vm_not_listed
        ++ required_text claim (at_ ++ ".claim") REVIEW_CLAIM_MAX_CHARS
        ++ required_text evidence (at_ ++ ".evidence") REVIEW_EVIDENCE_MAX_CHARS
        ++ err_if (longer (nullish fix_ "") REVIEW_FIX_MAX_CHARS) (at_ ++ ".suggestedFix") Vm_too_long
        ++ err_if (match field fs "file" with D_undefined | D_str _ => false | _ => true end) (at_ ++ ".file") Vm_shape
        ++ err_if (match field fs "line" with D_undefined => false | D_num n => n <? 1 | _ => true end) (at_ ++ ".line") Vm_shape)%list in
      let finding :=
        match severity, category with
        | Some severity, Some category =>
            if blank id || blank claim || blank evidence then None
            else Some {| fd_id := id; fd_severity := severity; fd_category := category;
                         fd_file := nonblank (match field fs "file" with D_str s => Some (js_trim s) | _ => None end);
                         fd_line := match field fs "line" with D_num n => Some n | _ => None end;
                         fd_claim := claim; fd_evidence := evidence; fd_suggestedFix := nonblank fix_ |}
        | _, _ => None
        end in
      (errors, finding, if bad_id || bool_decide (id ∈ seen) then seen else (seen ++ [id])%list)
  | _ => (err at_ Vm_shape, None, seen)
  end.

Fixpoint validate_findings (at_ : string) (i : nat) (seen : list string) (l : list DVal) : list StageValidationError * list MeshReviewFinding :=
  match l with
  | [] => ([], [])
  | v :: rest =>
      let '(errors, finding, seen) := validate_finding (element at_ i) seen v in
      let '(errors', findings) := validate_findings at_ (S i) seen rest in
      ((errors ++ errors')%list, match finding with Some f => f :: findings | None => findings end)
  end.

(** Elements that are checked one by one. *)
Fixpoint validate_each {A} (one : string -> DVal -> list StageValidationError * option A) (at_ : string) (i : nat) (l : list DVal)
    : list StageValidationError * list A :=
  match l with
  | [] => ([], [])
  | v :: rest =>
      let '(errors, x) := one (element at_ i) v in
      let '(errors', xs) := validate_each one at_ (S i) rest in
      ((errors ++ errors')%list, match x with Some x => x :: xs | None => xs end)
  end.

Definition validate_prior (at_ : string) (v : DVal) : list StageValidationError * option MeshPriorFindingStatusEntry :=
  match v with
  | D_obj fs =>
      let id := str_of (field fs "id") in
      let status := read_member (field fs "status") in
      let note := optional_text (field fs "note") in
      ((unknown_keys at_ ["id"; "status"; "note"] fs ++ err_if (blank id) (at_ ++ ".id") Vm_required
        ++ err_if (negb (present status)) (at_ ++ ".status") Vm_not_listed
        ++ err_if (longer (nullish note "") REVIEW_NOTE_MAX_CHARS) (at_ ++ ".note") Vm_too_long)%list,
       match status with
       | Some status => if blank id then None else Some {| pr_id := id; pr_status := status; pr_note := nonblank note |}
       | None => None
       end)
  | _ => (err at_ Vm_shape, None)
  end.

Definition bad_count (v : DVal) : bool := match v with D_undefined => false | D_num n => n <? 0 | _ => true end.
Definition count_of (v : DVal) : option Z := match v with D_num n => Some n | _ => None end.

(** The source also keeps an entry whose exit is a number that is not finite, after
    reporting it; the entries of a report with errors are not used. *)
Definition validate_test_run (at_ : string) (v : DVal) : list StageValidationError * option MeshTestRun :=
  match v with
  | D_obj fs =>
      let command := str_of (field fs "command") in
      let note := optional_text (field fs "note") in
      ((unknown_keys at_ ["command"; "exit"; "passed"; "failed"; "note"] fs
        ++ err_if (blank command || longer command REVIEW_CLAIM_MAX_CHARS) (at_ ++ ".command") Vm_required
        ++ err_if (match field fs "exit" with D_num _ => false | _ => true end) (at_ ++ ".exit") Vm_shape
        ++ err_if (bad_count (field fs "passed")) (at_ ++ ".passed") Vm_shape
        ++ err_if (bad_count (field fs "failed")) (at_ ++ ".failed") Vm_shape
        ++ err_if (longer (nullish note "") REVIEW_NOTE_MAX_CHARS) (at_ ++ ".note") Vm_too_long)%list,
       match field fs "exit" with
       | D_num exit => if blank command then None
           else Some {| tr_command := command; tr_exit := exit; tr_passed := count_of (field fs "passed");
                        tr_failed := count_of (field fs "failed"); tr_note := nonblank note |}
       | _ => None
       end)
  | _ => (err at_ Vm_shape, None)
  end.

Definition validateTestsRun (raw : DVal) (f : string) : list StageValidationError * list MeshTestRun :=
  match raw with
  | D_arr l => let '(errors, out) := validate_each validate_test_run f 0 l in
               ((err_if (REVIEW_TESTS_RUN_MAX <? length l)%nat f Vm_too_many ++ errors)%list, out)
  | _ => (err f Vm_shape, [])
  end.

Definition blocking_findings (l : list MeshReviewFinding) : list MeshReviewFinding :=
  List.filter (fun f => isBlockingSeverity (fd_severity f)) l.

Definition report_keys : list string := ["verdict"; "findings"; "priorFindings"; "checked"; "notChecked"; "testsRun"].

Definition is_nil {A} (l : list A) : bool := match l with [] => true | _ => false end.

(** The rules between a verdict and its findings; the first only when there is
    no other error. *)
Definition verdict_errors (verdict : option MeshReviewVerdict) (findings : list MeshReviewFinding) (clean : bool) : list StageValidationError :=
  let blocking := blocking_findings findings in
  match verdict with
  | Some changes_requested => err_if (is_nil blocking && clean) "review.verdict" Vm_needs_blocking
  | Some (approve | approve_with_nits) => err_if (negb (is_nil blocking)) "review.verdict" Vm_carries_blocking
  | _ => []
  end.

(** Every finding that was open must be answered from the second round on. *)
Definition prior_errors (ctx : ReviewValidationContext) (prior : option (list MeshPriorFindingStatusEntry)) : list StageValidationError :=
  let answered := map pr_id (nullish prior []) in
  err_if ((2 <=? vc_round ctx)
          && existsb (fun id => negb (bool_decide (id ∈ answered))) (nullish (vc_priorOpenBlockingIds ctx) []))
    "review.priorFindings" Vm_missing_prior.

Definition nonempty {A} (o : option (list A)) : option (list A) := match o with Some [] => None | _ => o end.

Definition validateReviewReport (raw : DVal) (ctx : ReviewValidationContext) : list StageValidationError + MeshReviewReport :=
  match raw with
  | D_obj fs =>
      let verdict : option MeshReviewVerdict := read_member (field fs "verdict") in
      let '(e1, findings) :=
        match field fs "findings" with
        | D_arr l => let '(es, out) := validate_findings "review.findings" 0 [] l in
                     ((err_if (REVIEW_FINDINGS_MAX <? length l)%nat "review.findings" Vm_too_many ++ es)%list, out)
        | _ => (err "review.findings" Vm_shape, [])
        end in
      let '(e2, checked) := validateStringList (field fs "checked") "review.checked" REVIEW_CHECKED_MAX REVIEW_CLAIM_MAX_CHARS 1 in
      let '(e3, notChecked) := validateStringList (field fs "notChecked") "review.notChecked" REVIEW_CHECKED_MAX REVIEW_CLAIM_MAX_CHARS 1 in
      let '(e4, prior) :=
        match field fs "priorFindings" with
        | D_undefined => ([], None)
        | D_arr l => let '(es, out) := validate_each validate_prior "review.priorFindings" 0 l in (es, Some out)
        | _ => (err "review.priorFindings" Vm_shape, None)
        end in
      let '(e5, testsRun) :=
        match field fs "testsRun" with
        | D_undefined => ([], None)
        | v => let '(es, out) := validateTestsRun v "review.testsRun" in (es, Some out)
        end in
      let errors := (unknown_keys "review" report_keys fs ++ err_if (negb (present verdict)) "review.verdict" Vm_not_listed
                     ++ e1 ++ e2 ++ e3 ++ e4 ++ e5)%list in
      let errors := (errors ++ verdict_errors verdict findings (is_nil errors)
                     ++ prior_errors ctx prior)%list in
      match errors, verdict with
      | [], Some verdict =>
          inr {| rv_verdict := verdict; rv_findings := findings; rv_priorFindings := nonempty prior; rv_checked := checked;
                 rv_notChecked := notChecked; rv_testsRun := nonempty testsRun |}
      | _, _ => inl errors
      end
  | _ => inl (err "review" Vm_shape)
  end.

Definition validate_response (at_ : string) (v : DVal) : list StageValidationError * option MeshFindingResponse :=
  match v with
  | D_obj fs =>
      let id := str_of (field fs "id") in
      let response := read_member (field fs "response") in
      let note := str_of (field fs "note") in
      ((unknown_keys at_ ["id"; "response"; "note"] fs ++ err_if (blank id) (at_ ++ ".id") Vm_required
        ++ err_if (negb (present response)) (at_ ++ ".response") Vm_not_listed
        ++ required_text note (at_ ++ ".note") REVIEW_NOTE_MAX_CHARS)%list,
       match response with
       | Some response => if blank id || blank note || longer note REVIEW_NOTE_MAX_CHARS then None
                          else Some {| rp_id := id; rp_response := response; rp_note := note |}
       | None => None
       end)
  | _ => (err at_ Vm_shape, None)
  end.

Definition validateFindingResponses (raw : DVal) (f : string) : list StageValidationError + list MeshFindingResponse :=
  match raw with
  | D_arr l =>
      let '(es, out) := validate_each validate_response f 0 l in
      match (err_if (FINDING_RESPONSES_MAX <? length l)%nat f Vm_too_many ++ es)%list with
      | [] => inr out
      | errors => inl errors
      end
  | _ => inl (err f Vm_shape)
  end.
