(* ===== verification/StagePipeline.v ===== *)
(** * The review pipeline of a task

    [packages/daemon-core/src/mesh/stage-pipeline.ts]: the pure reducer of the
    stages implement, self-check, review and revise; [stage-state.ts]: the
    predicates other parts of the daemon use on a queue row;
    [stage-effect-failures.ts] and [stage-independence.ts].

    Times are opaque strings; states are copied by value. *)

From S2P Require Import Prelude KeyedDoc StageTypes.

#[local] Open Scope string_scope.
#[local] Open Scope Z_scope.

(** ** The reducer *)

Inductive StageEvent : Type :=
  | Ev_impl_completed (attemptId headSha : option string) (hasDiff : bool) (at_ : string)
  | Ev_self_check_done (status : SelfCheckStatus) (at_ : string)
  | Ev_review_started (childTaskId : string) (reviewerSessionId : option string) (at_ : string)
  | Ev_review_verdict (childTaskId : string) (report : MeshReviewReport) (reviewerSessionId : option string)
      (independenceUsed : option MeshStageIndependenceUsed) (at_ : string)
  | Ev_reviewer_unavailable (childTaskId : string) (at_ : string)
  | Ev_reviewer_mutated_source (childTaskId : string) (at_ : string)
  | Ev_reviewer_integrity_unverifiable (childTaskId : string) (at_ : string)
  | Ev_review_input_failed (detail : string) (at_ : string)
  | Ev_ceiling (at_ : string)
  | Ev_decide_revise_once (at_ : string)
  | Ev_decide_rereview (at_ : string).

Inductive RevisionReason : Set := for_self_check | for_review.

Inductive StageEffect : Set :=
  | Ef_run_self_check
  | Ef_create_review_child (round : Z) (reuseSessionId : option string)
  | Ef_send_revision (reason : RevisionReason) (round : Z)
  | Ef_release_completed
  | Ef_release_blocked (blockedReason : MeshStageBlockedReason)
  | Ef_cancel_review_children
  | Ef_progress (text : string).

Record StageReduction : Set := { sr_state : MeshTaskStageState; sr_effects : list StageEffect }.

Definition maxRounds (plan : MeshTaskStagePlan) (state : MeshTaskStageState) : Z :=
  sp_maxRevisions plan + nullish (ss_extraRevisions state) 0.

Definition enter (state : MeshTaskStageState) (phase : MeshStagePhase) (at_ : string) : MeshTaskStageState :=
  {| state with ss_phase := phase; ss_phaseSince := at_ |}.

Definition block (state : MeshTaskStageState) (reason : MeshStageBlockedReason) (at_ : string) : StageReduction :=
  {| sr_state := enter {| state with ss_blockedReason := Some reason |} phase_done at_;
     sr_effects := [Ef_cancel_review_children; Ef_release_blocked reason] |}.

Definition is_decision (event : StageEvent) : bool :=
  match event with Ev_decide_revise_once _ | Ev_decide_rereview _ => true | _ => false end.

Definition in_phase (state : MeshTaskStageState) (phases : list MeshStagePhase) : bool := bool_decide (ss_phase state ∈ phases).

(** [l.slice(-n)]. *)
Definition last_n {A} (n : nat) (l : list A) : list A := drop (length l - n) l.

Definition slim (f : MeshReviewFinding) : SlimFinding := {| sf_id := fd_id f; sf_severity := fd_severity f; sf_claim := fd_claim f |}.

Definition is_settled_prior (p : MeshPriorFindingStatusEntry) : bool :=
  match pr_status p with pf_resolved | pf_dispute_accepted => true | _ => false end.

Definition resolved_count (report : MeshReviewReport) : Z := Z.of_nat (length (List.filter is_settled_prior (nullish (rv_priorFindings report) []))).

(** A truthy value replaces the one that is there. *)
Definition truthy_or (o d : option string) : option string := if truthy_str o then o else d.

Definition reduce_impl_completed (state : MeshTaskStageState) (attemptId headSha : option string) (hasDiff : bool) (at_ : string)
    : option StageReduction :=
  if negb (in_phase state [implementing; revising]) then None
  else if truthy_str attemptId && bool_decide (nullish attemptId "" ∈ nullish (ss_handledAttemptIds state) []) then None
  else
    let state := if truthy_str attemptId
                 then {| state with ss_handledAttemptIds := Some (last_n 16 (nullish (ss_handledAttemptIds state) [] ++ [nullish attemptId ""])) |}
                 else state in
    if negb hasDiff && (ss_round state =? 0)
    then Some {| sr_state := enter {| state with ss_selfCheck := None |} phase_done at_; sr_effects := [Ef_release_completed] |}
    else
      let state := if truthy_str headSha
                   then {| state with ss_stageHeads := (ss_stageHeads state ++ [{| sh_round := ss_round state + 1; sh_rootSha := nullish headSha "" |}])%list |}
                   else state in
      Some {| sr_state := enter state self_checking at_; sr_effects := [Ef_run_self_check] |}.

Definition reduce_self_check_done (state : MeshTaskStageState) (status : SelfCheckStatus) (at_ : string) : option StageReduction :=
  if negb (in_phase state [self_checking]) then None
  else match status with
  | sc_failed =>
      if STAGE_SELF_CHECK_MAX_BOUNCES <=? ss_selfCheckBounces state
      then Some (block {| state with ss_selfCheck := Some sc_failed |} br_self_check_failed at_)
      else Some {| sr_state := enter {| state with ss_selfCheckBounces := ss_selfCheckBounces state + 1; ss_selfCheck := Some sc_failed |} revising at_;
                   sr_effects := [Ef_send_revision for_self_check (ss_round state)] |}
  | _ =>
      Some {| sr_state := enter {| state with ss_selfCheck := Some status; ss_round := ss_round state + 1 |} awaiting_review at_;
              sr_effects := [Ef_create_review_child (ss_round state + 1)
                               (if truthy_str (ss_reviewerSessionId state) then ss_reviewerSessionId state else None)] |}
  end.

Definition reduce_review_verdict (plan : MeshTaskStagePlan) (state : MeshTaskStageState) (report : MeshReviewReport)
    (reviewerSessionId : option string) (independenceUsed : option MeshStageIndependenceUsed) (at_ : string) : option StageReduction :=
  if negb (in_phase state [reviewing; awaiting_review]) then None
  else
    let state := {| state with
      ss_reviewerSessionId := truthy_or reviewerSessionId (ss_reviewerSessionId state);
      ss_independenceUsed := nullish_or independenceUsed (ss_independenceUsed state);
      ss_lastVerdict := Some (rv_verdict report); ss_reviewerFailures := Some 0 |} in
    let blocking := blocking_findings (rv_findings report) in
    let fixed_ := Some (nullish (ss_findingsFixed state) 0 + resolved_count report) in
    match rv_verdict report with
    | reject_approach => Some (block {| state with ss_openFindings := Some (map slim blocking) |} br_review_rejected_approach at_)
    | v =>
        if bool_decide (v = approve) || bool_decide (v = approve_with_nits) || is_nil blocking
        then Some {| sr_state := enter {| state with ss_openFindingIds := []; ss_openFindings := Some [];
                       ss_openNits := Some (map slim (List.filter (fun f => negb (isBlockingSeverity (fd_severity f))) (rv_findings report)));
                       ss_findingsFixed := fixed_ |} phase_done at_;
                     sr_effects := [Ef_release_completed] |}
        else
          let state := {| state with ss_findingsFixed := fixed_; ss_openFindingIds := map fd_id blocking;
                                     ss_openFindings := Some (map slim blocking) |} in
          if maxRounds plan state <? ss_round state then Some (block state br_review_unresolved at_)
          else Some {| sr_state := enter state revising at_; sr_effects := [Ef_send_revision for_review (ss_round state)] |}
    end.

Definition reduce_reviewer_unavailable (state : MeshTaskStageState) (at_ : string) : option StageReduction :=
  if negb (in_phase state [reviewing; awaiting_review]) then None
  else
    let state := {| state with ss_reviewerFailures := Some (nullish (ss_reviewerFailures state) 0 + 1) |} in
    if 2 <=? nullish (ss_reviewerFailures state) 0 then Some (block state br_review_unavailable at_)
    else Some {| sr_state := {| (enter state awaiting_review at_) with ss_reviewerSessionId := None |};
                 sr_effects := [Ef_create_review_child (ss_round state) None] |}.

(** A coordinator's decision reopens a blocked task. *)
Definition reopened (state : MeshTaskStageState) (at_ : string) : MeshTaskStageState :=
  {| state with ss_startedAt := at_; ss_blockedReason := None; ss_blockedDetail := None; ss_released := Some false |}.

(** [None]: the event does not apply and the state is returned as it is. *)
Definition reduceStage (plan : MeshTaskStagePlan) (state : MeshTaskStageState) (event : StageEvent) : option StageReduction :=
  if bool_decide (ss_phase state = phase_done) && negb (is_decision event) then None
  else match event with
  | Ev_impl_completed attemptId headSha hasDiff at_ => reduce_impl_completed state attemptId headSha hasDiff at_
  | Ev_self_check_done status at_ => reduce_self_check_done state status at_
  | Ev_review_started _ reviewerSessionId at_ =>
      if negb (in_phase state [awaiting_review]) then None
      else Some {| sr_state := enter {| state with ss_reviewerSessionId := truthy_or reviewerSessionId (ss_reviewerSessionId state) |} reviewing at_;
                   sr_effects := [] |}
  | Ev_review_verdict _ report sessionId used at_ => reduce_review_verdict plan state report sessionId used at_
  | Ev_reviewer_unavailable _ at_ => reduce_reviewer_unavailable state at_
  | Ev_reviewer_mutated_source _ at_ =>
      if negb (in_phase state [reviewing; awaiting_review]) then None else Some (block state br_reviewer_mutated_source at_)
  | Ev_reviewer_integrity_unverifiable _ at_ =>
      if negb (in_phase state [reviewing; awaiting_review]) then None else Some (block state br_reviewer_integrity_unverifiable at_)
  | Ev_review_input_failed detail at_ =>
      if negb (in_phase state [reviewing; awaiting_review]) then None
      else let r := block state br_review_unavailable at_ in
           Some {| r with sr_state := {| (sr_state r) with ss_blockedDetail := Some (String.substring 0 300 detail) |} |}
  | Ev_ceiling at_ => Some (block state br_stage_pipeline_ceiling at_)
  | Ev_decide_revise_once at_ =>
      if negb (bool_decide (ss_phase state = phase_done) && present (ss_blockedReason state)) then None
      else Some {| sr_state := enter (reopened {| state with ss_extraRevisions := Some (nullish (ss_extraRevisions state) 0 + 1) |} at_) revising at_;
                   sr_effects := [Ef_send_revision for_review (ss_round state)] |}
  | Ev_decide_rereview at_ =>
      if negb (bool_decide (ss_phase state = phase_done) && present (ss_blockedReason state)) then None
      else Some {| sr_state := enter {| (reopened state at_) with ss_reviewerSessionId := None; ss_reviewerFailures := Some 0;
                                         ss_round := ss_round state + 1 |} awaiting_review at_;
                   sr_effects := [Ef_create_review_child (ss_round state + 1) None] |}
  end.

Definition initialStageState (nowIso : string) : MeshTaskStageState := {|
  ss_phase := implementing; ss_round := 0; ss_selfCheckBounces := 0; ss_startedAt := nowIso; ss_phaseSince := nowIso;
  ss_baseSha := ""; ss_stageHeads := []; ss_reviewTaskIds := []; ss_lastVerdict := None; ss_openFindingIds := [];
  ss_artifacts := {| sa_diff := []; sa_selfCheck := []; sa_verdict := [] |};
  ss_reviewerSessionId := None; ss_independenceUsed := None; ss_handledAttemptIds := None; ss_reviewerFailures := None;
  ss_extraRevisions := None; ss_blockedReason := None; ss_blockedDetail := None; ss_openFindings := None; ss_openNits := None;
  ss_selfCheck := None; ss_findingsFixed := None; ss_originalMessage := None; ss_workerArtifactIds := None;
  ss_reviewFingerprint := None; ss_reviewFingerprintUnavailable := None; ss_released := None |}.

(** ** Repeated failures of effects *)

Definition STAGE_EFFECT_FAILURE_ESCALATION_THRESHOLD : Z := 8.

Definition is_word (c : Ascii.ascii) : bool :=
  let n := Ascii.nat_of_ascii c in
  ((48 <=? n) && (n <=? 57) || (65 <=? n) && (n <=? 90) || (97 <=? n) && (n <=? 122) || (n =? 95))%nat%bool.

(** [/^word\b/], for a word that ends in a word character. *)
Definition starts_with_word (word s : string) : bool :=
  String.prefix word s
  && match String.get (String.length word) s with Some c => negb (is_word c) | None => true end.

Definition isWaitingError (detail : string) : bool := starts_with_word "review_input_busy" detail.

Record StageEffectFailureVerdict : Set := { fv_log : bool; fv_escalate : bool; fv_count : Z }.

(** The last failure and how often it came in a row, by task and effect. *)
Record Streak : Set := { sk_signature : string; sk_count : Z }.
Definition Streaks : Type := jsmap Streak.

Definition nul : string := String (Ascii.ascii_of_nat 0) EmptyString.
Definition streak_prefix (meshId parentId : string) : string := meshId ++ nul ++ parentId ++ nul.
Definition streak_key (meshId parentId effectKind : string) : string := streak_prefix meshId parentId ++ effectKind.

Definition record_failure (threshold : Z) (meshId parentId effectKind detail : string) (streaks : Streaks)
    : StageEffectFailureVerdict * Streaks :=
  let k := streak_key meshId parentId effectKind in
  let count := match map_get k streaks with
               | Some prev => if bool_decide (sk_signature prev = detail) then sk_count prev + 1 else 1
               | None => 1
               end in
  let escalate := (threshold <=? count) && negb (isWaitingError detail) in
  ({| fv_log := (count =? 1) || escalate; fv_escalate := escalate; fv_count := count |},
   map_set k {| sk_signature := detail; sk_count := count |} streaks).

Definition clear_failures (meshId parentId : string) (effectKind : option string) (streaks : Streaks) : Streaks :=
  if truthy_str effectKind then map_delete (streak_key meshId parentId (nullish effectKind "")) streaks
  else List.filter (fun e => negb (String.prefix (streak_prefix meshId parentId) e.1)) streaks.

(** ** Independence of reviewers *)

(** Since when a review was refused only for its independence, by task. *)
Definition Refusals : Type := jsmap Z.

Definition noteReviewRefusal (taskId : string) (refusal : option string) (nowMs : Z) (since : Refusals) : Refusals :=
  if bool_decide (refusal = Some "review_independence_required")
  then if has_key taskId since then since else map_set taskId nowMs since
  else map_delete taskId since.

Definition independenceRefusalExceeded (taskId : string) (nowMs : Z) (windowMs : option Z) (since : Refusals) : bool :=
  match map_get taskId since with
  | Some t => nullish windowMs STAGE_INDEPENDENCE_FALLBACK_MS <=? nowMs - t
  | None => false
  end.

Definition clearReviewRefusal (taskId : string) (since : Refusals) : Refusals := map_delete taskId since.
