(* ===== verification/StageTheorems.v ===== *)
(** * Facts about the review reducer

    How a reduction can end a task, that the pipeline ends without decisions,
    how many revisions it asks for, and what a validated report is. *)

From S2P Require Import Prelude KeyedDoc StageTypes StagePipeline.

#[local] Open Scope string_scope.
#[local] Open Scope Z_scope.

(** ** Ends *)

(** The phases a reduction leaves and enters. *)
Lemma in_phase_true s l : in_phase s l = true <-> ss_phase s ∈ l.
Proof. apply bool_decide_eq_true. Qed.

(** A reduction ends the task as completed only when there was nothing to review,
    or on a verdict that is no rejection and leaves no blocking or major finding
    open, in a review round. *)
Lemma completed_grounds plan s e r :
  reduceStage plan s e = Some r -> Ef_release_completed ∈ sr_effects r ->
  (exists a h at_, e = Ev_impl_completed a h false at_ /\ ss_round s = 0)
  \/ exists c report sid used at_, e = Ev_review_verdict c report sid used at_ /\ ss_phase s ∈ [reviewing; awaiting_review]
       /\ rv_verdict report <> reject_approach
       /\ (rv_verdict report = approve \/ rv_verdict report = approve_with_nits \/ blocking_findings (rv_findings report) = []).
Proof.
  intros Hr He. unfold reduceStage in Hr. destruct (_ && _); [done|].
  destruct e as [a h d at_|st at_|c sid at_|c report sid used at_|c at_|c at_|c at_|dt at_|at_|at_|at_]; cbn in Hr.
  - left. unfold reduce_impl_completed in Hr. destruct (negb _); [done|]. destruct (_ && _); [done|]. cbv zeta in Hr.
    destruct (negb d && _) eqn:E.
    + breflect. subst d. exists a, h, at_. split; [done|]. apply Z.eqb_eq. by destruct (truthy_str a).
    + injection Hr as <-. cbn in He. set_solver.
  - exfalso. unfold reduce_self_check_done in Hr. destruct (negb _); [done|]. destruct st; try (injection Hr as <-; cbn in He; set_solver).
    destruct (_ <=? _); injection Hr as <-; cbn in He; set_solver.
  - exfalso. destruct (negb _); [done|]. injection Hr as <-. cbn in He. set_solver.
  - right. exists c, report, sid, used, at_. split; [done|]. unfold reduce_review_verdict in Hr. destruct (negb _) eqn:Ep; [done|].
    breflect. apply in_phase_true in Ep. split; [done|]. cbv zeta in Hr.
    destruct (rv_verdict report) eqn:Ev; cbn in Hr; [..|injection Hr as <-; cbn in He; set_solver]; (split; [done|]); auto.
    destruct (is_nil _) eqn:En; [right; right; by destruct (blocking_findings _)|].
    destruct (_ <? _); injection Hr as <-; cbn in He; set_solver.
  - exfalso. unfold reduce_reviewer_unavailable in Hr. destruct (negb _); [done|]. cbv zeta in Hr. destruct (_ <=? _); injection Hr as <-; cbn in He; set_solver.
  - exfalso. destruct (negb _); [done|]. injection Hr as <-. cbn in He. set_solver.
  - exfalso. destruct (negb _); [done|]. injection Hr as <-. cbn in He. set_solver.
  - exfalso. destruct (negb _); [done|]. injection Hr as <-. cbn in He. set_solver.
  - exfalso. injection Hr as <-. cbn in He. set_solver.
  - exfalso. destruct (negb _); [done|]. injection Hr as <-. cbn in He. set_solver.
  - exfalso. destruct (negb _); [done|]. injection Hr as <-. cbn in He. set_solver.
Qed.

(** ** The pipeline ends *)

(** How many self-checks can still lead to a review. *)
Definition reviews_left (plan : MeshTaskStagePlan) (s : MeshTaskStageState) : Z :=
  match ss_phase s with
  | implementing | revising | self_checking => 1 + Z.max 0 (maxRounds plan s - ss_round s)
  | awaiting_review | reviewing => Z.max 0 (maxRounds plan s + 1 - ss_round s)
  | phase_done => 0
  end.

Definition bounces_left (s : MeshTaskStageState) : Z := Z.max 0 (STAGE_SELF_CHECK_MAX_BOUNCES - ss_selfCheckBounces s).
Definition reviewers_left (s : MeshTaskStageState) : Z := Z.max 0 (2 - nullish (ss_reviewerFailures s) 0).

(** A bound on the events that still apply. *)
Definition work (plan : MeshTaskStagePlan) (s : MeshTaskStageState) : Z :=
  12 * reviews_left plan s +
  match ss_phase s with
  | implementing | revising => 2 * bounces_left s + 2
  | self_checking => 2 * bounces_left s + 1
  | awaiting_review => 8 + 2 * reviewers_left s
  | reviewing => 7 + 2 * reviewers_left s
  | phase_done => 0
  end.

(** Counters start at zero and grow. *)
Definition counters_ok (s : MeshTaskStageState) : Prop := 0 <= ss_selfCheckBounces s /\ 0 <= nullish (ss_reviewerFailures s) 0.

(** Finish a case of [reduce_work] from the phases it starts in. *)
Ltac work_case H Ep :=
  injection H as <-; cbn; unfold maxRounds; cbn; destruct_or? Ep; rewrite Ep; lia.

Lemma reduce_work plan s e r :
  counters_ok s -> is_decision e = false -> reduceStage plan s e = Some r ->
  counters_ok (sr_state r) /\ 0 <= work plan (sr_state r) < work plan s.
Proof.
  unfold counters_ok. intros [Hb Hf] Hd Hr. unfold reduceStage in Hr. rewrite Hd in Hr.
  destruct (bool_decide (ss_phase s = phase_done)) eqn:Edone; [done|]. cbn [andb negb] in Hr. apply bool_decide_eq_false in Edone.
  unfold work, reviews_left, bounces_left, reviewers_left, STAGE_SELF_CHECK_MAX_BOUNCES in *.
  destruct e as [a h d at_|st at_|c sid at_|c report sid used at_|c at_|c at_|c at_|dt at_|at_|at_|at_]; try done; cbn in Hr.
  - unfold reduce_impl_completed in Hr. destruct (in_phase _ _) eqn:Ep; [|done]. cbn in Hr. destruct (truthy_str a && _); [done|]. cbv zeta in Hr.
    apply in_phase_true in Ep. assert (Hp : ss_phase s = implementing \/ ss_phase s = revising) by set_solver. clear Ep.
    destruct (truthy_str a), (negb d && _); try destruct (truthy_str h); work_case Hr Hp.
  - unfold reduce_self_check_done in Hr. destruct (in_phase _ _) eqn:Ep; [|done]. cbn [negb] in Hr.
    apply in_phase_true in Ep. apply list_elem_of_singleton in Ep.
    destruct st; try work_case Hr Ep. destruct (_ <=? _) eqn:E; breflect; unfold STAGE_SELF_CHECK_MAX_BOUNCES in *; work_case Hr Ep.
  - destruct (in_phase _ _) eqn:Ep; [|done]. cbn [negb] in Hr. apply in_phase_true in Ep. apply list_elem_of_singleton in Ep. work_case Hr Ep.
  - unfold reduce_review_verdict in Hr. destruct (in_phase _ _) eqn:Ep; [|done]. cbn [negb] in Hr. cbv zeta in Hr.
    apply in_phase_true in Ep. assert (Hp : ss_phase s = reviewing \/ ss_phase s = awaiting_review) by set_solver. clear Ep.
    destruct (rv_verdict report); cbn in Hr; try work_case Hr Hp.
    destruct (is_nil _); [work_case Hr Hp|]. destruct (_ <? _) eqn:E; breflect; unfold maxRounds in E; cbn in E; work_case Hr Hp.
  - unfold reduce_reviewer_unavailable in Hr. destruct (in_phase _ _) eqn:Ep; [|done]. cbn [negb] in Hr. cbv zeta in Hr.
    apply in_phase_true in Ep. assert (Hp : ss_phase s = reviewing \/ ss_phase s = awaiting_review) by set_solver. clear Ep.
    destruct (_ <=? _) eqn:E; breflect; cbn in E; work_case Hr Hp.
  - destruct (in_phase _ _) eqn:Ep; [|done]. cbn [negb] in Hr. apply in_phase_true in Ep.
    assert (Hp : ss_phase s = reviewing \/ ss_phase s = awaiting_review) by set_solver. work_case Hr Hp.
  - destruct (in_phase _ _) eqn:Ep; [|done]. cbn [negb] in Hr. apply in_phase_true in Ep.
    assert (Hp : ss_phase s = reviewing \/ ss_phase s = awaiting_review) by set_solver. work_case Hr Hp.
  - destruct (in_phase _ _) eqn:Ep; [|done]. cbn [negb] in Hr. apply in_phase_true in Ep.
    assert (Hp : ss_phase s = reviewing \/ ss_phase s = awaiting_review) by set_solver. work_case Hr Hp.
  - injection Hr as <-. cbn. split; [done|]. destruct (ss_phase s); try done; lia.
Qed.

(** The events that apply, with their effects, and the state they lead to. *)
Fixpoint stage_run (plan : MeshTaskStagePlan) (s : MeshTaskStageState) (events : list StageEvent)
    : list (StageEvent * list StageEffect) * MeshTaskStageState :=
  match events with
  | [] => ([], s)
  | e :: rest =>
      match reduceStage plan s e with
      | Some r => let '(steps, s') := stage_run plan (sr_state r) rest in ((e, sr_effects r) :: steps, s')
      | None => stage_run plan s rest
      end
  end.

Lemma run_work plan s events :
  counters_ok s -> 0 <= work plan s -> Forall (fun e => is_decision e = false) events ->
  Z.of_nat (length (stage_run plan s events).1) <= work plan s.
Proof.
  intros Hc Hw Hd. revert s Hc Hw. induction Hd as [|e events He _ IH]; intros s Hc Hw; [cbn; lia|]. cbn [stage_run].
  destruct (reduceStage plan s e) as [r|] eqn:E; [|by apply IH]. destruct (reduce_work plan s e r Hc He E) as [Hc' Hw'].
  specialize (IH (sr_state r) Hc' ltac:(lia)). destruct (stage_run plan (sr_state r) events) as [steps s']. cbn [fst length] in *. lia.
Qed.

Lemma work_nonneg plan s : 0 <= work plan s.
Proof. unfold work, reviews_left, bounces_left, reviewers_left. destruct (ss_phase s); lia. Qed.

(** C32: Without decisions of the coordinator the pipeline ends: at most
    [12 (maxRevisions + 1) + 6] events apply, whatever workers, reviewers and
    checks answer; and until it has ended the ceiling ends it, blocked. *)
Theorem pipeline_ends plan now events :
  0 <= sp_maxRevisions plan -> Forall (fun e => is_decision e = false) events ->
  let '(steps, s) := stage_run plan (initialStageState now) events in
  Z.of_nat (length steps) <= 12 * (sp_maxRevisions plan + 1) + 6
  /\ (ss_phase s = phase_done
      \/ forall at_, exists r, reduceStage plan s (Ev_ceiling at_) = Some r /\ ss_phase (sr_state r) = phase_done
           /\ sr_effects r = [Ef_cancel_review_children; Ef_release_blocked br_stage_pipeline_ceiling]).
Proof.
  intros Hm Hd. pose proof (run_work plan (initialStageState now) events ltac:(done) (work_nonneg _ _) Hd) as Hw.
  destruct (stage_run plan (initialStageState now) events) as [steps s]. cbn [fst] in Hw. split.
  - unfold work, reviews_left, bounces_left, STAGE_SELF_CHECK_MAX_BOUNCES, maxRounds in Hw. cbn [ss_phase initialStageState ss_round ss_selfCheckBounces ss_extraRevisions nullish] in Hw. lia.
  - destruct (decide (ss_phase s = phase_done)) as [|Hp]; [by left|right]. intros at_. unfold reduceStage. rewrite bool_decide_false by done.
    by eexists.
Qed.

(** ** Revisions *)

Definition asks_revision (effect : StageEffect) : bool := match effect with Ef_send_revision for_review _ => true | _ => false end.
Definition by_verdict (event : StageEvent) : bool := match event with Ev_review_verdict _ _ _ _ _ => true | _ => false end.
Definition grants_revision (event : StageEvent) : bool := match event with Ev_decide_revise_once _ => true | _ => false end.

(** How often a verdict sent the task back, and how often the coordinator did. *)
Definition sent_back (steps : list (StageEvent * list StageEffect)) : Z :=
  Z.of_nat (length (List.filter (fun st => by_verdict st.1 && existsb asks_revision st.2) steps)).
Definition granted (steps : list (StageEvent * list StageEffect)) : Z :=
  Z.of_nat (length (List.filter (fun st => grants_revision st.1) steps)).

Definition review_phase (p : MeshStagePhase) : bool := match p with awaiting_review | reviewing => true | _ => false end.
Definition in_review (s : MeshTaskStageState) : bool := review_phase (ss_phase s).

(** [n] verdicts sent the task back so far. *)
Record rounds_ok (plan : MeshTaskStagePlan) (n : Z) (s : MeshTaskStageState) : Prop := {
  ro_rounds : n <= (if in_review s then ss_round s - 1 else ss_round s);
  ro_limit : n <= maxRounds plan s }.

Definition counts (st : StageEvent * list StageEffect) : Z := if by_verdict st.1 && existsb asks_revision st.2 then 1 else 0.

Lemma phase_in_review s l b :
  in_phase s l = true -> forallb (fun p => Bool.eqb (review_phase p) b) l = true -> in_review s = b.
Proof. intros Hp%in_phase_true Hb. rewrite forallb_forall in Hb. apply Bool.eqb_prop, Hb. by apply list_elem_of_In. Qed.

(** A case of [reduce_rounds], from the review status before the event. *)
Ltac rounds_case H := injection H as <-; (split; [split|]); unfold in_review, maxRounds; cbn in *; lia.

Lemma reduce_rounds plan n s e r :
  rounds_ok plan n s -> reduceStage plan s e = Some r -> rounds_ok plan (n + counts (e, sr_effects r)) (sr_state r)
  /\ maxRounds plan (sr_state r) = maxRounds plan s + (if grants_revision e then 1 else 0).
Proof.
  intros [Hr Hl] Hs. unfold reduceStage in Hs. destruct (bool_decide (ss_phase s = phase_done) && negb (is_decision e)) eqn:Ed; [done|].
  unfold maxRounds, counts in *.
  destruct e as [a h d at_|st at_|c sid at_|c report sid used at_|c at_|c at_|c at_|dt at_|at_|at_|at_]; cbn in Hs.
  - unfold reduce_impl_completed in Hs. destruct (in_phase _ _) eqn:Ep; [|done]. cbn in Hs. destruct (truthy_str a && _); [done|]. cbv zeta in Hs.
    rewrite (phase_in_review s _ false Ep eq_refl) in Hr.
    destruct (truthy_str a), (negb d && _); try destruct (truthy_str h); rounds_case Hs.
  - unfold reduce_self_check_done in Hs. destruct (in_phase _ _) eqn:Ep; [|done]. cbn [negb] in Hs.
    rewrite (phase_in_review s _ false Ep eq_refl) in Hr. destruct st; try (destruct (_ <=? _)); rounds_case Hs.
  - destruct (in_phase _ _) eqn:Ep; [|done]. rewrite (phase_in_review s _ true Ep eq_refl) in Hr. rounds_case Hs.
  - unfold reduce_review_verdict in Hs. destruct (in_phase _ _) eqn:Ep; [|done]. cbn [negb] in Hs. cbv zeta in Hs.
    rewrite (phase_in_review s _ true Ep eq_refl) in Hr.
    destruct (rv_verdict report); cbn in Hs; try rounds_case Hs.
    destruct (is_nil _); [rounds_case Hs|]. destruct (_ <? _) eqn:E; breflect; unfold maxRounds in E; cbn in E; rounds_case Hs.
  - unfold reduce_reviewer_unavailable in Hs. destruct (in_phase _ _) eqn:Ep; [|done]. cbn [negb] in Hs. cbv zeta in Hs.
    rewrite (phase_in_review s _ true Ep eq_refl) in Hr. destruct (_ <=? _); rounds_case Hs.
  - destruct (in_phase _ _) eqn:Ep; [|done]. rewrite (phase_in_review s _ true Ep eq_refl) in Hr. rounds_case Hs.
  - destruct (in_phase _ _) eqn:Ep; [|done]. rewrite (phase_in_review s _ true Ep eq_refl) in Hr. rounds_case Hs.
  - destruct (in_phase _ _) eqn:Ep; [|done]. rewrite (phase_in_review s _ true Ep eq_refl) in Hr. rounds_case Hs.
  - destruct (in_review s) eqn:Ei; rounds_case Hs.
  - destruct (bool_decide (ss_phase s = phase_done)) eqn:Ep; [|done]. apply bool_decide_eq_true in Ep. unfold in_review in Hr. rewrite Ep in Hr.
    destruct (present _); [|done]. rounds_case Hs.
  - destruct (bool_decide (ss_phase s = phase_done)) eqn:Ep; [|done]. apply bool_decide_eq_true in Ep. unfold in_review in Hr. rewrite Ep in Hr.
    destruct (present _); [|done]. rounds_case Hs.
Qed.

Lemma sent_back_cons st steps : sent_back (st :: steps) = counts st + sent_back steps.
Proof. unfold sent_back, counts. cbn. destruct (_ && _); cbn; lia. Qed.

Lemma granted_cons st steps : granted (st :: steps) = (if grants_revision st.1 then 1 else 0) + granted steps.
Proof. unfold granted. cbn. destruct (grants_revision _); cbn; lia. Qed.

Lemma run_rounds plan n s events :
  rounds_ok plan n s -> let '(steps, s') := stage_run plan s events in
  n + sent_back steps <= maxRounds plan s + granted steps
  /\ rounds_ok plan (n + sent_back steps) s'.
Proof.
  revert n s. induction events as [|e events IH]; intros n s Hok; cbn [stage_run].
  - unfold sent_back, granted. cbn. rewrite !Z.add_0_r. split; [apply Hok|done].
  - destruct (reduceStage plan s e) as [r|] eqn:E; [|by apply IH]. destruct (reduce_rounds plan n s e r Hok E) as [Hok' Hmax].
    specialize (IH _ _ Hok'). destruct (stage_run plan (sr_state r) events) as [steps s']. destruct IH as [Hle Hs'].
    rewrite sent_back_cons, granted_cons. cbn [fst]. rewrite Hmax in Hle. split; [lia|]. by rewrite Z.add_assoc.
Qed.

(** However reviews go and whatever the coordinator decides, reviews send a task
    back at most [maxRevisions] times plus once per revision the coordinator
    granted, and never more often than there were rounds. *)
Theorem revisions_bounded plan now events :
  0 <= sp_maxRevisions plan ->
  let '(steps, s) := stage_run plan (initialStageState now) events in
  sent_back steps <= sp_maxRevisions plan + granted steps /\ sent_back steps <= ss_round s.
Proof.
  intros Hm. pose proof (run_rounds plan 0 (initialStageState now) events) as H.
  destruct (stage_run plan (initialStageState now) events) as [steps s].
  destruct H as [Hle Hok]; [split; unfold maxRounds; cbn; lia|]. unfold maxRounds in Hle. cbn in Hle. split; [lia|].
  pose proof (ro_rounds _ _ _ Hok). destruct (in_review s); lia.
Qed.

(** * Reports that pass validation

    What [validateReviewReport] guarantees of a report it accepts, and what the
    review reducer does with an accepted report. *)

(** ** Errors that are not there *)

Lemma err_if_nil b f m : err_if b f m = [] <-> b = false.
Proof. by destruct b. Qed.

Lemma app_nil_iff {A} (l k : list A) : (l ++ k)%list = [] <-> l = [] /\ k = [].
Proof. split; [apply app_eq_nil|by intros [-> ->]]. Qed.

Lemma required_text_nil s f max : required_text s f max = [] <-> blank s = false /\ longer s max = false.
Proof. unfold required_text, err_if. destruct (blank s), (longer s max); cbn; naive_solver. Qed.

(** Split a list of errors that is empty into the checks that passed. *)
Ltac no_errors H := repeat (rewrite app_nil_iff in H); rewrite ?err_if_nil, ?required_text_nil in H; destruct_and? H.

Lemma present_some {A} (o : option A) : present o = true -> exists a, o = Some a.
Proof. destruct o; [eauto|done]. Qed.

(** ** Findings *)

Record finding_ok (f : MeshReviewFinding) : Prop := {
  fo_id : fd_id f <> "" /\ longer (fd_id f) REVIEW_FINDING_ID_MAX_CHARS = false;
  fo_claim : fd_claim f <> "" /\ longer (fd_claim f) REVIEW_CLAIM_MAX_CHARS = false;
  fo_evidence : fd_evidence f <> "" /\ longer (fd_evidence f) REVIEW_EVIDENCE_MAX_CHARS = false;
  fo_fix : longer (nullish (fd_suggestedFix f) "") REVIEW_FIX_MAX_CHARS = false;
  fo_line : forall n, fd_line f = Some n -> 1 <= n }.

Lemma blank_false s : blank s = false <-> s <> "".
Proof. apply bool_decide_eq_false. Qed.

Lemma longer_empty n : longer "" n = false.
Proof. unfold longer. cbn. by destruct n. Qed.

Lemma nonblank_longer o n : longer (nullish o "") n = false -> longer (nullish (nonblank o) "") n = false.
Proof. unfold nonblank. destruct (truthy_str o); [done|]. intros _. apply longer_empty. Qed.

(** Without errors a finding is read whole, and its id is new. *)
Lemma validate_finding_ok at_ seen v f seen' :
  validate_finding at_ seen v = ([], f, seen') ->
  exists x, f = Some x /\ finding_ok x /\ fd_id x ∉ seen /\ seen' = (seen ++ [fd_id x])%list.
Proof.
  unfold validate_finding. destruct v as [| | | | | | |fs]; try done. cbv zeta. intros [= He <- <-]. no_errors He.
  destruct (blank (str_of (field fs "id"))) eqn:Ebid; [done|]. destruct (longer (str_of (field fs "id")) _) eqn:Elid; [done|]. cbn [orb] in *.
  destruct (read_member (field fs "severity")) as [sv|]; [|done]. destruct (read_member (field fs "category")) as [ct|]; [|done].
  destruct (bool_decide (str_of (field fs "id") ∈ seen)) eqn:Eseen; [done|]. apply bool_decide_eq_false in Eseen.
  destruct (blank (str_of (field fs "claim"))) eqn:Ebc, (blank (str_of (field fs "evidence"))) eqn:Ebe; try naive_solver. cbn.
  eexists; split; [reflexivity|]. cbn [fd_id]. split; [|done].
  split; cbn [fd_id fd_claim fd_evidence fd_suggestedFix fd_line]; try (split; [by apply blank_false|naive_solver]).
  - apply nonblank_longer. naive_solver.
  - intros n. destruct (field fs "line"); try done. intros [= <-].
    match goal with H : (_ <? 1) = false |- _ => apply Z.ltb_ge in H; lia end.
Qed.

Lemma validate_findings_ok at_ i seen l out :
  validate_findings at_ i seen l = ([], out) ->
  length out = length l /\ Forall finding_ok out /\ NoDup (map fd_id out) /\ Forall (fun f => fd_id f ∉ seen) out.
Proof.
  revert i seen out. induction l as [|v l IH]; intros i seen out; cbn [validate_findings]; [intros [= <-]; repeat constructor|].
  destruct (validate_finding _ seen v) as [[es f] seen'] eqn:E. destruct (validate_findings at_ (S i) seen' l) as [es' out'] eqn:E'.
  intros [= He Ho]. apply app_nil_iff in He as [-> ->]. destruct (validate_finding_ok _ _ _ _ _ E) as (x & -> & Hok & Hnew & ->). subst out.
  destruct (IH _ _ _ E') as (Hlen & Hall & Hnd & Hfresh). cbn. split; [by rewrite Hlen|]. split; [by constructor|]. split.
  - constructor; [|done]. intros (y & Hy & Hin)%list_elem_of_fmap. rewrite Forall_forall in Hfresh.
    apply (Hfresh y Hin). set_solver.
  - constructor; [done|]. eapply Forall_impl; [apply Hfresh|]. set_solver.
Qed.

(** ** Reports *)

Record report_ok (ctx : ReviewValidationContext) (raw : list DVal) (r : MeshReviewReport) : Prop := {
  po_whole : length (rv_findings r) = length raw;
  po_few : (length (rv_findings r) <= REVIEW_FINDINGS_MAX)%nat;
  po_findings : Forall finding_ok (rv_findings r);
  po_ids : NoDup (map fd_id (rv_findings r));
  po_approved : rv_verdict r = approve \/ rv_verdict r = approve_with_nits -> blocking_findings (rv_findings r) = [];
  po_changes : rv_verdict r = changes_requested -> blocking_findings (rv_findings r) <> [];
  po_checked : rv_checked r <> [] /\ rv_notChecked r <> [];
  po_prior : 2 <= vc_round ctx ->
    Forall (fun id => id ∈ map pr_id (nullish (rv_priorFindings r) [])) (nullish (vc_priorOpenBlockingIds ctx) []) }.

Lemma string_list_ok value f max chars out : validateStringList value f max chars 1 = ([], out) -> out <> [].
Proof.
  unfold validateStringList. destruct value; try done. intros [= He Ho]. no_errors He.
  match goal with H : (_ <? 1)%nat = false |- _ => apply Nat.ltb_ge in H; rewrite Ho in H end. destruct out; cbn in *; [lia|done].
Qed.

Lemma nullish_nonempty {A} (o : option (list A)) : nullish (nonempty o) [] = nullish o [].
Proof. by destruct o as [[|]|]. Qed.

Lemma verdict_errors_ok v findings :
  verdict_errors (Some v) findings true = [] ->
  (v = approve \/ v = approve_with_nits -> blocking_findings findings = [])
  /\ (v = changes_requested -> blocking_findings findings <> []).
Proof.
  unfold verdict_errors, err_if. destruct v; cbn; destruct (blocking_findings findings); cbn; naive_solver.
Qed.

Lemma prior_errors_ok ctx prior :
  prior_errors ctx prior = [] -> 2 <= vc_round ctx ->
  Forall (fun id => id ∈ map pr_id (nullish prior [])) (nullish (vc_priorOpenBlockingIds ctx) []).
Proof.
  unfold prior_errors. rewrite err_if_nil. intros H Hr. rewrite (proj2 (Z.leb_le _ _) Hr) in H. cbn in H.
  apply Forall_forall. intros id Hid. destruct (decide (id ∈ map pr_id (nullish prior []))) as [|Hn]; [done|].
  rewrite (proj2 (existsb_exists _ _)) in H; [done|]. exists id. split; [by apply list_elem_of_In|by rewrite bool_decide_false].
Qed.

Lemma accepted_ok raw ctx r :
  validateReviewReport raw ctx = inr r ->
  exists fs l, raw = D_obj fs /\ field fs "findings" = D_arr l /\ report_ok ctx l r.
Proof.
  unfold validateReviewReport. destruct raw as [| | | | | | |fs]; try done. cbv zeta.
  destruct (match field fs "findings" with D_arr _ => _ | _ => _ end) as [e1 findings] eqn:E1.
  destruct (validateStringList (field fs "checked") _ _ _ _) as [e2 checked] eqn:E2.
  destruct (validateStringList (field fs "notChecked") _ _ _ _) as [e3 notChecked] eqn:E3.
  destruct (match field fs "priorFindings" with D_undefined => _ | _ => _ end) as [e4 prior] eqn:E4.
  destruct (match field fs "testsRun" with D_undefined => _ | _ => _ end) as [e5 testsRun] eqn:E5.
  set (base := (unknown_keys _ _ _ ++ _)%list). destruct (base ++ _)%list eqn:Eall; [|done].
  apply app_nil_iff in Eall as [Hbase Hrest]. rewrite Hbase in Hrest. cbn [is_nil] in Hrest. apply app_nil_iff in Hrest as [Hv Hp].
  unfold base in Hbase. clear base. no_errors Hbase. subst e1 e2 e3 e4 e5.
  destruct (read_member (field fs "verdict")) as [v|]; [|done]. intros [= <-].
  destruct (field fs "findings") as [| | | | | |l|] eqn:Ef; try done.
  destruct (validate_findings "review.findings" 0 [] l) as [es out] eqn:Ev. injection E1 as He <-. no_errors He. subst es.
  destruct (validate_findings_ok _ _ _ _ _ Ev) as (Hlen & Hall & Hnd & _). exists fs, l. split; [done|]. split; [done|].
  match goal with H : (REVIEW_FINDINGS_MAX <? _)%nat = false |- _ => apply Nat.ltb_ge in H; rename H into Hmax end.
  split; cbn [rv_findings rv_verdict rv_checked rv_notChecked rv_priorFindings]; try done.
  - lia.
  - by apply verdict_errors_ok.
  - by apply verdict_errors_ok.
  - split; [by eapply string_list_ok|by eapply string_list_ok].
  - rewrite nullish_nonempty. by apply prior_errors_ok.
Qed.

(** A report that passes is read whole, and its verdict agrees with its findings:
    at most 30 findings, each with its texts within their limits and an id of its
    own; an approval carries no blocking or major finding and a request for
    changes carries one; something was checked and something was not; and from
    the second round every finding that was open is answered. *)
Theorem accepted_report raw ctx r :
  validateReviewReport raw ctx = inr r ->
  (exists fs l, raw = D_obj fs /\ field fs "findings" = D_arr l /\ length (rv_findings r) = length l)
  /\ (length (rv_findings r) <= REVIEW_FINDINGS_MAX)%nat
  /\ Forall finding_ok (rv_findings r) /\ NoDup (map fd_id (rv_findings r))
  /\ (rv_verdict r = approve \/ rv_verdict r = approve_with_nits -> blocking_findings (rv_findings r) = [])
  /\ (rv_verdict r = changes_requested -> blocking_findings (rv_findings r) <> [])
  /\ rv_checked r <> [] /\ rv_notChecked r <> []
  /\ (2 <= vc_round ctx ->
      Forall (fun id => id ∈ map pr_id (nullish (rv_priorFindings r) [])) (nullish (vc_priorOpenBlockingIds ctx) [])).
Proof. intros (fs & l & Hraw & Hl & []) %accepted_ok. naive_solver. Qed.

(** An accepted verdict in a review round ends the task as completed exactly when
    it is no rejection and has no blocking or major finding; a request for changes
    sends the task back or blocks it, a rejection blocks it. *)
Theorem verdict_decides plan s child raw ctx report sid used at_ :
  validateReviewReport raw ctx = inr report -> ss_phase s = reviewing \/ ss_phase s = awaiting_review ->
  exists r, reduceStage plan s (Ev_review_verdict child report sid used at_) = Some r
    /\ (Ef_release_completed ∈ sr_effects r <-> rv_verdict report <> reject_approach /\ blocking_findings (rv_findings report) = [])
    /\ (rv_verdict report = changes_requested ->
         if maxRounds plan s <? ss_round s
         then ss_blockedReason (sr_state r) = Some br_review_unresolved
         else sr_effects r = [Ef_send_revision for_review (ss_round s)]
              /\ ss_openFindingIds (sr_state r) = map fd_id (blocking_findings (rv_findings report)))
    /\ (rv_verdict report = reject_approach -> ss_blockedReason (sr_state r) = Some br_review_rejected_approach).
Proof.
  intros (fs & l & _ & _ & Hok)%accepted_ok Hp. unfold reduceStage. rewrite bool_decide_false by (destruct Hp; congruence). cbn [andb].
  unfold reduce_review_verdict, in_phase. rewrite bool_decide_true by set_solver. cbn [negb]. cbv zeta.
  pose proof (po_approved _ _ _ Hok) as Ha. pose proof (po_changes _ _ _ Hok) as Hc.
  destruct (rv_verdict report); cbn [bool_decide orb] in *.
  - eexists. split; [reflexivity|]. cbn. rewrite Ha by auto. repeat split; try done. set_solver.
  - eexists. split; [reflexivity|]. cbn. rewrite Ha by auto. repeat split; try done. set_solver.
  - destruct (blocking_findings (rv_findings report)) as [|f bl] eqn:Eb; [naive_solver|]. cbn.
    unfold maxRounds. cbn. destruct (_ <? _); eexists; (split; [reflexivity|]); cbn; repeat split; try done; try naive_solver; exfalso; set_solver.
  - eexists. split; [reflexivity|]. cbn. repeat split; try done; try naive_solver; exfalso; set_solver.
Qed.
