(* ===== verification/StageRows.v ===== *)
(** * Queue rows of staged tasks and their terminals

    The fields of [MeshWorkQueueEntry] the review pipeline reads and writes, the
    predicates of [packages/daemon-core/src/mesh/stage-state.ts] on them, and the
    terminal choke point of [mesh-task-terminal.ts] with the store's guard on
    rows whose writer is stopping ([MeshRuntimeStore.updateQueueEntry]).

    One mesh; rows are in the order they were inserted.  Whether the latest
    attempt of a task is stopping is the turn ledger's answer, an argument.  The
    text and digest of output versions are left out. *)

From S2P Require Import Prelude KeyedDoc StageTypes StagePipeline.

#[local] Open Scope string_scope.
#[local] Open Scope Z_scope.

Inductive MeshTaskStatus : Set := st_pending | st_assigned | st_completed | st_failed | st_blocked | st_cancelled.
#[global] Instance MeshTaskStatus_eq_dec : EqDecision MeshTaskStatus.
Proof. solve_decision. Defined.

Record MeshWorkQueueEntry : Type := {
  qe_id : string; qe_status : MeshTaskStatus; qe_message : string;
  qe_stagePlan : option MeshTaskStagePlan; qe_stageState : option MeshTaskStageState;
  qe_origin : option string; qe_parentTaskId : option string; qe_stageRole : option string; qe_stageRound : option Z;
  qe_independence : option string; qe_reviewerWorkspace : option string; qe_light : bool;
  qe_assignedNodeId : option string; qe_assignedSessionId : option string; qe_assignedProviderType : option string;
  qe_targetNodeId : option string; qe_targetSessionId : option string; qe_attemptId : option string;
  qe_dispatchNonce : Z; qe_cancelReason : option string; qe_inputArtifactIds : list string; qe_revision : Z }.

(** ** Predicates *)

Definition isStageParent (entry : MeshWorkQueueEntry) : bool := present (qe_stagePlan entry) && present (qe_stageState entry).

Definition isStageChild (entry : MeshWorkQueueEntry) : bool :=
  bool_decide (qe_origin entry = Some "stage") && truthy_str (qe_parentTaskId entry) && bool_decide (qe_stageRole entry = Some "review").

(** A property of the stage state, false without one. *)
Definition stage_is (p : MeshTaskStageState -> bool) (entry : MeshWorkQueueEntry) : bool :=
  match qe_stageState entry with Some s => p s | None => false end.

Definition isStagePipelineParked (entry : MeshWorkQueueEntry) : bool :=
  bool_decide (qe_status entry = st_assigned) && isStageParent entry
  && stage_is (fun s => negb (opt_true (ss_released s)) && bool_decide (ss_phase s ∈ STAGE_PARKED_PHASES)) entry.

Definition shouldHoldStageTerminal (entry : MeshWorkQueueEntry) (status : MeshTaskStatus) : bool :=
  bool_decide (status = st_completed) && isStageParent entry
  && stage_is (fun s => negb (opt_true (ss_released s)) && negb (bool_decide (ss_phase s = phase_done))) entry.

Definition STAGE_BLOCK_OVERWRITING_STATUSES : list MeshTaskStatus := [st_completed; st_failed].

Definition isStageBlockLocked (entry : MeshWorkQueueEntry) (status : MeshTaskStatus) : bool :=
  bool_decide (status ∈ STAGE_BLOCK_OVERWRITING_STATUSES) && isStageParent entry && bool_decide (qe_status entry = st_blocked)
  && stage_is (fun s => opt_true (ss_released s) && present (ss_blockedReason s)) entry.

Definition isStageBlockOverwritten (entry : MeshWorkQueueEntry) : bool :=
  bool_decide (qe_status entry ∈ STAGE_BLOCK_OVERWRITING_STATUSES) && isStageParent entry
  && stage_is (fun s => opt_true (ss_released s) && present (ss_blockedReason s)) entry.

Definition isStageImplReport (entry : MeshWorkQueueEntry) : bool :=
  isStageParent entry
  && stage_is (fun s => negb (opt_true (ss_released s)) && bool_decide (ss_phase s ∈ [implementing; revising])) entry.

Definition isStageNoticeSilent (entry : MeshWorkQueueEntry) : bool :=
  isStageChild entry
  || isStageParent entry && stage_is (fun s => negb (opt_true (ss_released s))) entry && bool_decide (qe_status entry = st_assigned).

Inductive FooterRole : Set := role_implement | role_revise | role_review.
Record StageFooter : Set := { ft_role : FooterRole; ft_round : Z; ft_maxRevisions : Z; ft_workspace : option string }.

Definition stageFooterInput (task : MeshWorkQueueEntry) : option StageFooter :=
  if isStageChild task
  then Some {| ft_role := role_review; ft_round := nullish (qe_stageRound task) 1; ft_maxRevisions := 0; ft_workspace := qe_reviewerWorkspace task |}
  else match qe_stagePlan task, qe_stageState task with
       | Some plan, Some s =>
           Some {| ft_role := if (0 <? ss_round s) || (0 <? ss_selfCheckBounces s) then role_revise else role_implement;
                   ft_round := Z.max 1 (ss_round s); ft_maxRevisions := sp_maxRevisions plan; ft_workspace := None |}
       | _, _ => None
       end.

(** [[...new Set(l)]]. *)
Fixpoint unique (seen l : list string) : list string :=
  match l with
  | [] => []
  | x :: t => if bool_decide (x ∈ seen) then unique seen t else x :: unique (x :: seen) t
  end.

(** [v.slice(-2, -1)] of a list with more than one element. *)
Definition last_but_one (v : list string) : list string :=
  if (1 <? length v)%nat then take 1 (last_n 2 v) else [].

Definition selectStageInputArtifacts (st : MeshTaskStageState) : list string :=
  let a := ss_artifacts st in
  unique [] (last_n 1 (sa_diff a) ++ last_n 1 (sa_selfCheck a) ++ last_n 1 (sa_verdict a) ++ last_but_one (sa_verdict a)
             ++ last_n 8 (nullish (ss_workerArtifactIds st) []))%list.

(** ** The store *)

Record TaskOutput : Set := { to_taskId : string; to_version : Z; to_status : MeshTaskStatus }.

Inductive HookCall : Set :=
  | Hk_impl_completed (taskId : string) (attemptId : option string)
  | Hk_task_terminal (taskId : string).

Record QueueStore : Type := { qs_rows : jsmap MeshWorkQueueEntry; qs_outputs : list TaskOutput; qs_hooks : list HookCall }.

Definition find_row (taskId : string) (q : QueueStore) : option MeshWorkQueueEntry := map_get taskId (qs_rows q).

(** What a writer that is stopping keeps: the binding of its row. *)
Definition rebinds (persisted entry : MeshWorkQueueEntry) : bool :=
  negb (bool_decide (qe_status entry = qe_status persisted) && bool_decide (qe_assignedSessionId entry = qe_assignedSessionId persisted)
        && bool_decide (qe_assignedNodeId entry = qe_assignedNodeId persisted) && bool_decide (qe_attemptId entry = qe_attemptId persisted)
        && bool_decide (qe_dispatchNonce entry = qe_dispatchNonce persisted)
        && bool_decide (qe_assignedProviderType entry = qe_assignedProviderType persisted)).

Definition WRITER_CHECKPOINT_PENDING : string := "writer_checkpoint_pending: the physical writer claim cannot be released or rebound".

(** The statement updates no row when there is none. *)
Definition updateQueueEntry (stopping : string -> bool) (entry : MeshWorkQueueEntry) (q : QueueStore) : string + QueueStore :=
  match find_row (qe_id entry) q with
  | None => inr q
  | Some persisted =>
      if stopping (qe_id entry) && rebinds persisted entry then inl WRITER_CHECKPOINT_PENDING
      else inr {| q with qs_rows := map_set (qe_id entry) {| entry with qe_revision := qe_revision persisted + 1 |} (qs_rows q) |}
  end.

Definition latest_version (taskId : string) (q : QueueStore) : Z :=
  fold_left (fun v o => if bool_decide (to_taskId o = taskId) then Z.max v (to_version o) else v) (qs_outputs q) 0.

Definition persistOutputVersion (taskId : string) (status : MeshTaskStatus) (q : QueueStore) : QueueStore :=
  {| q with qs_outputs := (qs_outputs q ++ [{| to_taskId := taskId; to_version := latest_version taskId q + 1; to_status := status |}])%list |}.

Definition add_hook (h : HookCall) (q : QueueStore) : QueueStore := {| q with qs_hooks := (qs_hooks q ++ [h])%list |}.

Definition applyTaskTerminalSteps (stopping : string -> bool) (entry : MeshWorkQueueEntry) (status : MeshTaskStatus) (q : QueueStore)
    : string + QueueStore :=
  updateQueueEntry stopping {| entry with qe_status := status |} (persistOutputVersion (qe_id entry) status q).

(** ** Terminals *)

Inductive MeshTerminalCommitSource : Set := src_provider_event | src_stall_reconcile | src_cancellation | src_worker_tool_report | src_queue_policy.
#[global] Instance MeshTerminalCommitSource_eq_dec : EqDecision MeshTerminalCommitSource.
Proof. solve_decision. Defined.

Inductive CommitAnswer : Set := Ca_unknown | Ca_refused | Ca_duplicate | Ca_held | Ca_committed.

(** A terminal of a queue-side writer.  The transaction rolls back when a
    statement throws. *)
Definition commitTaskTerminal (stopping : string -> bool) (taskId : string) (status : MeshTaskStatus) (source : MeshTerminalCommitSource)
    (attemptId : option string) (q : QueueStore) : string + CommitAnswer * QueueStore :=
  match find_row taskId q with
  | None => inr (Ca_unknown, q)
  | Some entry =>
      if stopping taskId then inr (Ca_refused, q)
      else if bool_decide (qe_status entry = status) then inr (Ca_duplicate, add_hook (Hk_task_terminal taskId) q)
      else if negb (bool_decide (source = src_queue_policy)) && isStageBlockLocked entry status then inr (Ca_refused, q)
      else if shouldHoldStageTerminal entry status
      then inr (Ca_held, if isStageImplReport entry then add_hook (Hk_impl_completed taskId attemptId) q else q)
      else match applyTaskTerminalSteps stopping entry status q with
           | inl e => inl e
           | inr q => inr (Ca_committed, add_hook (Hk_task_terminal taskId) q)
           end
  end.

(** A terminal the turn ledger committed, inside its transaction; [fenced] while
    the task is being put back to the queue.  The ledger runs the post-commit
    half, [Hk_task_terminal], itself. *)
Definition applyTaskTerminalInTxn (stopping : string -> bool) (fenced : bool) (taskId : string) (status : MeshTaskStatus)
    (attemptId : option string) (q : QueueStore) : string + bool * QueueStore :=
  match find_row taskId q with
  | None => inr (false, q)
  | Some entry =>
      if bool_decide (qe_status entry = status) || isStageBlockLocked entry status then inr (false, q)
      else if shouldHoldStageTerminal entry status
      then inr (false, if isStageImplReport entry then add_hook (Hk_impl_completed taskId attemptId) q else q)
      else if fenced then inr (false, q)
      else match applyTaskTerminalSteps stopping entry status q with
           | inl e => inl e
           | inr q => inr (true, q)
           end
  end.

(** A managed review child: its parent has not ended. *)
Definition is_terminal_status (s : MeshTaskStatus) : bool := bool_decide (s ∈ [st_completed; st_failed; st_blocked; st_cancelled]).

Definition isManagedStageChild (row : MeshWorkQueueEntry) (q : QueueStore) : bool :=
  isStageChild row
  && match find_row (nullish (qe_parentTaskId row) "") q with Some p => negb (is_terminal_status (qe_status p)) | None => false end.
