(* ===== verification/StageRuntime.v ===== *)
(** * The runtime of the review pipeline

    [packages/daemon-core/src/mesh/stage-pipeline-runtime.ts]: the effects of the
    reducer run against the queue, with the production queue port of
    [stage-ports-default.ts] and the report stash of [stage-report-stash.ts].

    Work on a task is serialized by the source, so an entry point runs to its end;
    what its awaited ports answer is the environment [StageEnv] it is given (git,
    the validation profile, artifact registration, sessions, attestation of the
    review input, the clock).  Messages and reports that [stage-synthesis.ts]
    writes are arguments; sessions launched for a pending review are left out.  A
    thrown error keeps the changes made before it. *)

From stdpp Require Import pretty.
From S2P Require Import Prelude KeyedDoc StageTypes StagePipeline StageRows.

#[local] Open Scope string_scope.
#[local] Open Scope Z_scope.

(** ** Worlds *)

Record StashedStageReport : Type := { rs_summary : string; rs_review : option MeshReviewReport; rs_artifactIds : option (list string) }.

Inductive StageCall : Set :=
  | Cl_progress (taskId text : string)
  | Cl_notify (taskId : string) (status : MeshTaskStatus) (report : string)
  | Cl_implementer_finished (taskId : string)
  | Cl_cancel_intent (taskId : string)
  | Cl_release_workspace (childId : string).

Record StageWorld : Type := {
  sw_queue : QueueStore; sw_stash : jsmap StashedStageReport; sw_streaks : Streaks; sw_refusals : Refusals;
  sw_workspaces : list string; sw_calls : list StageCall }.

Definition MAX_ENTRIES : nat := 256.

(** The oldest reports go when there are too many. *)
Definition stashStageReport (taskId : string) (report : StashedStageReport) (stash : jsmap StashedStageReport) : jsmap StashedStageReport :=
  let stash := map_set taskId report (map_delete taskId stash) in drop (length stash - MAX_ENTRIES) stash.

Record StageEnv : Type := {
  en_now : string; en_nowMs : Z; en_parse : string -> option Z; en_ceilingMs : Z;
  en_workspaceOf : MeshWorkQueueEntry -> option string;
  en_baseSha : string -> option string; en_headSha : string -> option string; en_isClean : string -> bool;
  en_diff : string -> string -> string -> bool; en_fingerprint : bool -> nat -> option string;
  en_selfCheck : option SelfCheckStatus; en_register : string -> option string; en_prepare : option string;
  en_sessionAlive : string -> bool; en_reviewInputValid : bool;
  en_attest : string + list string; en_enqueue : option string; en_childId : string;
  en_memo : string; en_message : string; en_report : string;
  en_stopping : string -> bool; en_open_attempt : string -> bool }.

(** ** Effects *)

Inductive Res (A : Type) : Type := Ok (a : A) | Thrown (message : string) | Out_of_fuel.
Arguments Ok {A} a.
Arguments Thrown {A} message.
Arguments Out_of_fuel {A}.

Definition M (A : Type) : Type := StageWorld -> Res A * StageWorld.

Definition ret {A} (a : A) : M A := fun w => (Ok a, w).
Definition throw {A} (message : string) : M A := fun w => (Thrown message, w).
Definition stuck {A} : M A := fun w => (Out_of_fuel, w).
Definition bind {A B} (m : M A) (f : A -> M B) : M B :=
  fun w => match m w with (Ok a, w) => f a w | (Thrown e, w) => (Thrown e, w) | (Out_of_fuel, w) => (Out_of_fuel, w) end.
Definition catch {A} (m : M A) (h : string -> M A) : M A :=
  fun w => match m w with (Thrown e, w) => h e w | r => r end.

#[local] Instance M_ret : MRet M := @ret.
#[local] Instance M_bind : MBind M := fun A B f m => bind m f.

Definition reads {A} (f : StageWorld -> A) : M A := fun w => (Ok (f w), w).
Definition writes (f : StageWorld -> StageWorld) : M unit := fun w => (Ok tt, f w).
Definition call (c : StageCall) : M unit := writes (fun w => {| w with sw_calls := (sw_calls w ++ [c])%list |}).
Definition get_row (taskId : string) : M (option MeshWorkQueueEntry) := reads (fun w => find_row taskId (sw_queue w)).

(** A statement of the queue store. *)
Definition on_queue {A} (f : QueueStore -> string + A * QueueStore) : M A :=
  fun w => match f (sw_queue w) with
           | inl e => (Thrown e, w)
           | inr (a, q) => (Ok a, {| w with sw_queue := q |})
           end.

Section Env.
Variable env : StageEnv.

Definition update_row (entry : MeshWorkQueueEntry) : M unit :=
  on_queue (fun q => match updateQueueEntry (en_stopping env) entry q with inl e => inl e | inr q => inr (tt, q) end).

Definition mutate (taskId : string) (f : MeshWorkQueueEntry -> MeshWorkQueueEntry) : M (option MeshWorkQueueEntry) :=
  row ← get_row taskId;
  match row with
  | None => ret None
  | Some e => update_row (f e) ;; get_row taskId
  end.

Definition on_stage (f : MeshTaskStageState -> MeshTaskStageState) (e : MeshWorkQueueEntry) : MeshWorkQueueEntry :=
  {| e with qe_stageState := f <$> qe_stageState e |}.

Definition stage_commit (taskId : string) (status : MeshTaskStatus) (source : MeshTerminalCommitSource) : M CommitAnswer :=
  on_queue (commitTaskTerminal (en_stopping env) taskId status source None).

Definition is_open_row (e : MeshWorkQueueEntry) : bool := bool_decide (qe_status e ∈ [st_pending; st_assigned]).

Definition cancelled_row (reason : string) (e : MeshWorkQueueEntry) : MeshWorkQueueEntry :=
  {| e with qe_cancelReason := Some reason; qe_assignedNodeId := None; qe_assignedSessionId := None;
            qe_assignedProviderType := None; qe_dispatchNonce := qe_dispatchNonce e + 1; qe_attemptId := None |}.

(** [cancelTask] of one row; a task with an open attempt is asked to stop.  Its
    dependents are not part of this model. *)
Definition cancel_one (reason taskId : string) : M unit :=
  row ← get_row taskId;
  match row with
  | None => ret tt
  | Some e =>
      if en_open_attempt env taskId then call (Cl_cancel_intent taskId)
      else update_row (cancelled_row reason e) ;; stage_commit taskId st_cancelled src_cancellation ;; ret tt
  end.

Fixpoint for_each (f : string -> M unit) (ids : list string) : M unit :=
  match ids with [] => ret tt | id :: rest => f id ;; for_each f rest end.

Definition cancel_if_open (reason taskId : string) : M unit :=
  row ← get_row taskId; match row with Some e => if is_open_row e then cancel_one reason taskId else ret tt | None => ret tt end.

(** Cancelling a staged task cancels its open reviews. *)
Definition cancel (reason taskId : string) : M unit :=
  before ← get_row taskId;
  cancel_one reason taskId ;;
  match before with
  | Some e => if isStageParent e
              then for_each (cancel_if_open "stage_parent_cancelled") (match qe_stageState e with Some s => ss_reviewTaskIds s | None => [] end)
              else ret tt
  | None => ret tt
  end.

Definition releaseReviewerWorkspace (childId : string) : M unit :=
  held ← reads sw_workspaces;
  if bool_decide (childId ∈ held)
  then writes (fun w => {| w with sw_workspaces := List.filter (fun x => negb (bool_decide (x = childId))) (sw_workspaces w) |}) ;;
       call (Cl_release_workspace childId)
  else ret tt.

(** ** Artifacts *)

Definition push_diff (id : string) (s : MeshTaskStageState) : MeshTaskStageState :=
  {| s with ss_artifacts := {| (ss_artifacts s) with sa_diff := (sa_diff (ss_artifacts s) ++ [id])%list |} |}.
Definition push_self_check (id : option string) (s : MeshTaskStageState) : MeshTaskStageState :=
  match id with
  | Some id => {| s with ss_artifacts := {| (ss_artifacts s) with sa_selfCheck := (sa_selfCheck (ss_artifacts s) ++ [id])%list |} |}
  | None => s
  end.
Definition push_verdict (id : option string) (s : MeshTaskStageState) : MeshTaskStageState :=
  match id with
  | Some id => {| s with ss_artifacts := {| (ss_artifacts s) with sa_verdict := (sa_verdict (ss_artifacts s) ++ [id])%list |} |}
  | None => s
  end.

(** The parent must still be listed: open and not released. *)
Definition is_listed (e : MeshWorkQueueEntry) : bool :=
  is_open_row e && isStageParent e && stage_is (fun s => negb (opt_true (ss_released s))) e.

Definition registerDiff (parentId workspace base head : string) : M unit :=
  row ← get_row parentId;
  match row with
  | Some e =>
      if is_listed e && en_diff env workspace base head
      then match en_register env "diff" with
           | Some id => mutate parentId (on_stage (push_diff id)) ;; ret tt
           | None => ret tt
           end
      else ret tt
  | None => ret tt
  end.

(** ** One effect *)

Definition effect_kind (effect : StageEffect) : string :=
  match effect with
  | Ef_run_self_check => "run_self_check" | Ef_create_review_child _ _ => "create_review_child"
  | Ef_send_revision _ _ => "send_revision" | Ef_release_completed | Ef_release_blocked _ => "release"
  | Ef_cancel_review_children => "cancel_review_children" | Ef_progress _ => "progress"
  end.

Definition review_ids (e : MeshWorkQueueEntry) : list string := match qe_stageState e with Some s => ss_reviewTaskIds s | None => [] end.

(** An open review of a round, among the reviews of a task. *)
Definition open_review (round : Z) (ids : list string) (q : QueueStore) : option MeshWorkQueueEntry :=
  head (omap (fun id => match find_row id q with
                        | Some c => if bool_decide (qe_stageRound c = Some round) && is_open_row c then Some c else None
                        | None => None
                        end) ids).

Definition cancel_review_children (parent : MeshWorkQueueEntry) : M unit :=
  for_each (fun cid => cancel_if_open "stage_parent_closed" cid ;; releaseReviewerWorkspace cid) (review_ids parent).

Definition release (parent : MeshWorkQueueEntry) (status : MeshTaskStatus) : M unit :=
  lifted ← mutate (qe_id parent) (on_stage (fun s => {| s with ss_released := Some true |}));
  match lifted with
  | None => ret tt
  | Some _ =>
      stage_commit (qe_id parent) status src_queue_policy ;;
      call (Cl_notify (qe_id parent) status (en_report env)) ;;
      (if bool_decide (status = st_completed) then call (Cl_implementer_finished (qe_id parent)) else ret tt) ;;
      writes (fun w => {| w with sw_stash := map_delete (qe_id parent) (sw_stash w) |})
  end.

Definition lf : string := String (Ascii.ascii_of_nat 10) EmptyString.

Definition revision_row (sameSessionId : option string) (inputs : list string) (e : MeshWorkQueueEntry) : MeshWorkQueueEntry :=
  let original := match qe_stageState e with Some s => nullish (ss_originalMessage s) (qe_message e) | None => qe_message e end in
  {| (on_stage (fun s => {| s with ss_originalMessage := Some original |}) e) with
     qe_targetNodeId := (if truthy_str (qe_assignedNodeId e) then qe_assignedNodeId e else qe_targetNodeId e);
     qe_targetSessionId := sameSessionId; qe_assignedNodeId := None; qe_assignedSessionId := None; qe_assignedProviderType := None;
     qe_attemptId := None; qe_dispatchNonce := qe_dispatchNonce e + 1;
     qe_message := en_memo env ++ lf ++ lf ++ "(Original task, for reference:)" ++ lf ++ original;
     qe_inputArtifactIds := unique [] (qe_inputArtifactIds e ++ inputs)%list; qe_status := st_pending |}.

(** [requeueForRevision], after the original message is kept. *)
Definition send_revision (parent : MeshWorkQueueEntry) (st : MeshTaskStageState) (reason : RevisionReason) : M unit :=
  mutate (qe_id parent) (fun e => on_stage (fun s => {| s with ss_originalMessage := Some (nullish (ss_originalMessage s) (qe_message e)) |}) e) ;;
  let same := match qe_assignedSessionId parent with Some s => if en_sessionAlive env s then Some s else None | None => None end in
  mutate (qe_id parent) (fun e => if present (qe_stageState e)
                                  then revision_row same (selectStageInputArtifacts st ++ last_n 4 (nullish (ss_workerArtifactIds st) []))%list e
                                  else e) ;;
  call (Cl_progress (qe_id parent) ("stage: revising (" ++ (match reason with for_self_check => "self_check" | for_review => "review" end) ++ ")")).

(** ** Reviews *)

Definition review_row (id parentId : string) (round : Z) (target node : option string) (workspace : option string) (inputs : list string)
    : MeshWorkQueueEntry := {|
  qe_id := id; qe_status := st_pending; qe_message := en_message env; qe_stagePlan := None; qe_stageState := None;
  qe_origin := Some "stage"; qe_parentTaskId := Some parentId; qe_stageRole := Some "review"; qe_stageRound := Some round;
  qe_independence := Some "different_provider"; qe_reviewerWorkspace := workspace; qe_light := false;
  qe_assignedNodeId := None; qe_assignedSessionId := None; qe_assignedProviderType := None;
  qe_targetNodeId := (match workspace with Some _ => None | None => node end); qe_targetSessionId := target; qe_attemptId := None;
  qe_dispatchNonce := 0; qe_cancelReason := None; qe_inputArtifactIds := inputs; qe_revision := 0 |}.

Definition has_baseline (fingerprint : option string) (workspace : option string) (s : MeshTaskStageState) (childId : string) : MeshTaskStageState :=
  {| s with ss_reviewTaskIds := (ss_reviewTaskIds s ++ [childId])%list; ss_reviewFingerprint := fingerprint;
            ss_reviewFingerprintUnavailable := if present fingerprint || present workspace then None else Some true |}.

Definition STALE_PARENT : string := "stage_review_stale_parent".

(** [enqueueReviewChild] of the production port: the id of the review. *)
Definition enqueueReviewChild (parentId : string) (round : Z) (inputs : list string) (fingerprint target workspace : option string) : M string :=
  row ← get_row parentId;
  match row with
  | None => throw STALE_PARENT
  | Some e =>
      match qe_stageState e with
      | None => throw STALE_PARENT
      | Some s =>
          if negb (bool_decide (qe_status e = st_assigned)) || opt_true (ss_released s)
             || negb (bool_decide (ss_phase s ∈ [awaiting_review; reviewing])) || negb (ss_round s =? round)
          then throw STALE_PARENT
          else
            existing ← reads (fun w => open_review round (ss_reviewTaskIds s) (sw_queue w));
            match existing with
            | Some c =>
                if bool_decide (qe_status c = st_assigned) || truthy_str (qe_assignedSessionId c) || truthy_str (qe_attemptId c)
                then throw "stage_review_already_started" else ret (qe_id c)
            | None =>
                granted ← (match workspace with
                            | Some _ => ret inputs
                            | None => match en_attest env with inl e => throw e | inr ids => ret ids end
                            end);
                match en_enqueue env with
                | Some e => throw e
                | None =>
                    let id := en_childId env in
                    let node := match qe_assignedNodeId e with Some n => Some n | None => qe_targetNodeId e end in
                    on_queue (fun q => inr (tt, {| q with qs_rows := map_set id (review_row id parentId round target node workspace granted) (qs_rows q) |})) ;;
                    update_row (on_stage (fun s => has_baseline fingerprint workspace s id) e) ;;
                    ret id
                end
            end
      end
  end.

Definition create_review_child (parent : MeshWorkQueueEntry) (st : MeshTaskStageState) (round : Z) (reuseSessionId : option string) : M unit :=
  existing ← reads (fun w => open_review round (ss_reviewTaskIds st) (sw_queue w));
  if present existing then ret tt
  else if qe_light parent then throw "review_unsupported_for_light_task"
  else
    let workspace := en_workspaceOf env parent in
    let head := nullish (sh_rootSha <$> last (ss_stageHeads st)) "" in
    let ws := if present workspace && negb (bool_decide (head = "")) then en_prepare env else None in
    let reuse := match reuseSessionId with Some s => if truthy_str (Some s) && en_sessionAlive env s then Some s else None | None => None end in
    let fingerprint := if negb (present ws) && present workspace
                       then match en_fingerprint env false 0 with Some f => Some f | None => en_fingerprint env false 1 end
                       else None in
    childId ← catch (current ← get_row (qe_id parent);
                      match current with
                      | Some e => if isStageParent e then enqueueReviewChild (qe_id e) round (selectStageInputArtifacts st) fingerprint reuse ws
                                  else throw STALE_PARENT
                      | None => throw STALE_PARENT
                      end)
                     (fun e => (match ws with Some _ => call (Cl_release_workspace (en_childId env)) | None => ret tt end) ;; throw e);
    (match ws with Some _ => writes (fun w => {| w with sw_workspaces := (sw_workspaces w ++ [childId])%list |}) | None => ret tt end) ;;
    mutate (qe_id parent) (on_stage (fun s => if bool_decide (childId ∈ ss_reviewTaskIds s) then s else has_baseline fingerprint ws s childId)) ;;
    call (Cl_progress (qe_id parent) ("stage: review round " ++ pretty round ++ " queued")).

(** ** Driving the reducer *)

Definition lasting_words : list string :=
  ["review_input_artifacts_missing"; "review_input_artifact_unauthorized"; "review_input_artifact_path"; "review_input_artifact_hash";
   "review_unsupported_for_light_task"].
Definition isLastingReviewInputError (detail : string) : bool := existsb (fun word => starts_with_word word detail) lasting_words.

(** [reduce] on a row: its new state, and the effects. *)
Definition reduce_row (event : StageEvent) (pre : MeshTaskStageState -> MeshTaskStageState) (e : MeshWorkQueueEntry)
    : MeshWorkQueueEntry * list StageEffect :=
  match qe_stagePlan e, qe_stageState e with
  | Some plan, Some s =>
      match reduceStage plan s event with
      | Some r => ({| e with qe_stageState := Some (pre (sr_state r)) |}, sr_effects r)
      | None => (e, [])
      end
  | _, _ => (e, [])
  end.

Definition apply_with (run : string -> list StageEffect -> M unit) (parentId : string) (event : StageEvent)
    (pre : MeshTaskStageState -> MeshTaskStageState) : M unit :=
  row ← get_row parentId;
  match row with
  | None => ret tt
  | Some e =>
      let '(e', effects) := reduce_row event pre e in
      update_row e' ;;
      match effects with [] => ret tt | _ => run parentId effects end
  end.

Definition run_self_check (apply : string -> StageEvent -> (MeshTaskStageState -> MeshTaskStageState) -> M unit)
    (parent : MeshWorkQueueEntry) (st : MeshTaskStageState) : M unit :=
  call (Cl_progress (qe_id parent) "stage: self-check") ;;
  let workspace := en_workspaceOf env parent in
  let status := match workspace with
                | None => sc_unavailable
                | Some dir => if en_isClean env dir then nullish (en_selfCheck env) sc_skipped_infra_error else sc_failed
                end in
  let art := en_register env "self_check" in
  (match workspace, last (ss_stageHeads st) with
   | Some dir, Some h =>
       if negb (bool_decide (ss_baseSha st = "")) && negb (bool_decide (sh_rootSha h = "")) && is_nil (sa_diff (ss_artifacts st))
       then registerDiff (qe_id parent) dir (ss_baseSha st) (sh_rootSha h) else ret tt
   | _, _ => ret tt
   end) ;;
  apply (qe_id parent) (Ev_self_check_done status (en_now env)) (push_self_check art).

Definition run_effect (apply : string -> StageEvent -> (MeshTaskStageState -> MeshTaskStageState) -> M unit)
    (parent : MeshWorkQueueEntry) (st : MeshTaskStageState) (effect : StageEffect) : M unit :=
  match effect with
  | Ef_progress text => call (Cl_progress (qe_id parent) text)
  | Ef_cancel_review_children => cancel_review_children parent
  | Ef_run_self_check => run_self_check apply parent st
  | Ef_create_review_child round reuse => create_review_child parent st round reuse
  | Ef_send_revision reason _ => send_revision parent st reason
  | Ef_release_completed => release parent st_completed
  | Ef_release_blocked _ => release parent st_blocked
  end.

Definition is_create (effect : StageEffect) : bool := match effect with Ef_create_review_child _ _ => true | _ => false end.

Definition clear_streaks (parentId : string) (kind : option string) : M unit :=
  writes (fun w => {| w with sw_streaks := clear_failures "" parentId kind (sw_streaks w) |}).

(** A failed effect is counted; the failure of a review is given up on when it is
    lasting or has repeated. *)
Definition effect_failed (apply : string -> StageEvent -> (MeshTaskStageState -> MeshTaskStageState) -> M unit)
    (parentId : string) (effect : StageEffect) (detail : string) : M unit :=
  streaks ← reads sw_streaks;
  let '(verdict, streaks) := record_failure STAGE_EFFECT_FAILURE_ESCALATION_THRESHOLD "" parentId (effect_kind effect) detail streaks in
  writes (fun w => {| w with sw_streaks := streaks |}) ;;
  (if fv_log verdict && negb (fv_escalate verdict) then call (Cl_progress parentId ("stage effect " ++ effect_kind effect ++ " failed: " ++ detail)) else ret tt) ;;
  if is_create effect && isLastingReviewInputError detail
  then apply parentId (Ev_review_input_failed detail (en_now env)) id ;; clear_streaks parentId None
  else if is_create effect && fv_escalate verdict
  then let text := "create_review_child failed " ++ pretty (fv_count verdict) ++ "x in a row: " ++ detail in
       call (Cl_progress parentId ("stage effect " ++ effect_kind effect ++ " gave up: " ++ text)) ;;
       apply parentId (Ev_review_input_failed text (en_now env)) id ;; clear_streaks parentId None
  else ret tt.

Fixpoint run_effects_with (apply : string -> StageEvent -> (MeshTaskStageState -> MeshTaskStageState) -> M unit)
    (parentId : string) (effects : list StageEffect) : M unit :=
  match effects with
  | [] => ret tt
  | effect :: rest =>
      row ← get_row parentId;
      match row with
      | Some parent =>
          match qe_stagePlan parent, qe_stageState parent with
          | Some _, Some st =>
              catch (run_effect apply parent st effect ;; clear_streaks parentId (Some (effect_kind effect)))
                    (effect_failed apply parentId effect) ;;
              run_effects_with apply parentId rest
          | _, _ => ret tt
          end
      | None => ret tt
      end
  end.

(** An applied event can lead to three more: the self-check's result, a failed
    review and its block. *)
Fixpoint apply_fuel (fuel : nat) (parentId : string) (event : StageEvent) (pre : MeshTaskStageState -> MeshTaskStageState) : M unit :=
  match fuel with
  | O => stuck
  | S fuel => apply_with (run_effects_with (apply_fuel fuel)) parentId event pre
  end.

Definition apply : string -> StageEvent -> (MeshTaskStageState -> MeshTaskStageState) -> M unit := apply_fuel 4.
Definition runEffects : string -> list StageEffect -> M unit := run_effects_with (apply_fuel 3).

(** ** Entry points *)

Definition adopt_base (base : option string) (stash : option StashedStageReport) (s : MeshTaskStageState) : MeshTaskStageState :=
  let s := match base with Some b => if bool_decide (ss_baseSha s = "") then {| s with ss_baseSha := b |} else s | None => s end in
  match stash ≫= rs_artifactIds with
  | Some (_ :: _ as ids) => {| s with ss_workerArtifactIds := Some (last_n 8 (unique [] (nullish (ss_workerArtifactIds s) [] ++ ids))) |}
  | _ => s
  end.

Definition nonempty_str (s : string) : option string := if bool_decide (s = "") then None else Some s.

(** A held completion of the implementer. *)
Definition onImplCompleted (parentId : string) (attemptId : option string) : M unit :=
  row ← get_row parentId;
  match row with
  | Some parent =>
      match qe_stagePlan parent, qe_stageState parent with
      | Some _, Some st =>
          if opt_true (ss_released st) || negb (in_phase st [implementing; revising]) then ret tt
          else
            let workspace := en_workspaceOf env parent in
            let base := match nonempty_str (ss_baseSha st), workspace with
                        | Some b, _ => Some b | None, Some dir => en_baseSha env dir | None, None => None end in
            let head := workspace ≫= en_headSha env in
            let both := match workspace, base, head with
                        | Some dir, Some b, Some h => if bool_decide (b = "") || bool_decide (h = "") then None else Some (dir, b, h)
                        | _, _, _ => None end in
            let hasDiff := match both with Some (_, b, h) => negb (bool_decide (b = h)) | None => true end in
            stash ← reads (fun w => map_get parentId (sw_stash w));
            (match both with
             | Some (dir, b, h) => if hasDiff then registerDiff parentId dir b h else ret tt
             | None => ret tt
             end) ;;
            apply parentId (Ev_impl_completed (if truthy_str attemptId then attemptId else None) (if truthy_str head then head else None) hasDiff (en_now env))
              (adopt_base (base ≫= nonempty_str) stash)
      | _, _ => ret tt
      end
  | None => ret tt
  end.

Definition FINGERPRINT_V2 : string := "fp2".

(** What a review that ended says: the event to apply, if any. *)
Definition child_event (parent fresh : MeshWorkQueueEntry) (st : MeshTaskStageState) (report : option StashedStageReport)
    : option (StageEvent * bool) :=
  let childId := qe_id fresh in
  let used := if bool_decide (nullish (qe_independence fresh) "different_provider" = "fresh_session")
              then used_fresh_session_fallback else used_different_provider in
  let completed := bool_decide (qe_status fresh = st_completed) in
  let legacy := match ss_reviewFingerprint st with
                | Some f => negb (bool_decide (f = "")) && negb (String.prefix (FINGERPRINT_V2 ++ lf) f) | None => false end in
  let now := if present (en_workspaceOf env parent) then en_fingerprint env legacy 0 else None in
  if negb (present (qe_reviewerWorkspace fresh)) && completed
     && (negb (truthy_str (ss_reviewFingerprint st)) || opt_true (ss_reviewFingerprintUnavailable st) || negb (truthy_str now)
         || negb (en_reviewInputValid env))
  then Some (Ev_reviewer_integrity_unverifiable childId (en_now env), true)
  else if negb (present (qe_reviewerWorkspace fresh)) && completed && negb (bool_decide (now = ss_reviewFingerprint st))
  then Some (Ev_reviewer_mutated_source childId (en_now env), true)
  else match completed, report ≫= rs_review with
  | true, Some review =>
      Some (Ev_review_verdict childId review (if truthy_str (qe_assignedSessionId fresh) then qe_assignedSessionId fresh else None)
              (Some used) (en_now env), true)
  | _, _ =>
      if bool_decide (qe_status fresh = st_cancelled) && bool_decide (ss_phase st = awaiting_review)
         && String.prefix "stage_" (nullish (qe_cancelReason fresh) "")
      then None
      else Some (Ev_reviewer_unavailable childId (en_now env), false)
  end.

Definition is_verdict (event : StageEvent) : bool := match event with Ev_review_verdict _ _ _ _ _ => true | _ => false end.

Definition onChildTerminal (childId : string) : M unit :=
  child ← get_row childId;
  match child with
  | Some c =>
      if negb (isStageChild c) then ret tt
      else
        let parentId := nullish (qe_parentTaskId c) "" in
        row ← get_row parentId;
        match row with
        | Some parent =>
            match qe_stagePlan parent, qe_stageState parent with
            | Some _, Some st =>
                releaseReviewerWorkspace childId ;;
                if is_terminal_status (qe_status parent) || opt_true (ss_released st) || negb (in_phase st [reviewing; awaiting_review])
                   || negb (bool_decide (last (ss_reviewTaskIds st) = Some childId))
                   || match qe_stageRound c with Some r => negb (r =? ss_round st) | None => false end
                then ret tt
                else
                  report ← reads (fun w => map_get childId (sw_stash w));
                  match child_event parent c st report with
                  | None => ret tt
                  | Some (event, consumed) =>
                      let art := if is_verdict event then en_register env "review_verdict" else None in
                      (if consumed then writes (fun w => {| w with sw_stash := map_delete childId (sw_stash w) |}) else ret tt) ;;
                      apply parentId event (push_verdict art)
                  end
            | _, _ => ret tt
            end
        | None => ret tt
        end
  | None => ret tt
  end.

Definition onChildClaimed (childId : string) : M unit :=
  child ← get_row childId;
  match child with
  | Some c =>
      if isStageChild c
      then apply (nullish (qe_parentTaskId c) "")
             (Ev_review_started childId (if truthy_str (qe_assignedSessionId c) then qe_assignedSessionId c else None) (en_now env)) id
      else ret tt
  | None => ret tt
  end.

Definition resumeOne (parentId : string) : M unit :=
  row ← get_row parentId;
  match row with
  | Some parent =>
      match qe_stagePlan parent, qe_stageState parent with
      | Some _, Some st =>
          if is_terminal_status (qe_status parent) then ret tt
          else match ss_phase st with
          | self_checking => runEffects parentId [Ef_run_self_check]
          | awaiting_review | reviewing =>
              child ← reads (fun w => last (ss_reviewTaskIds st) ≫= (fun id => if bool_decide (id = "") then None else find_row id (sw_queue w)));
              match child with
              | None => runEffects parentId [Ef_create_review_child (ss_round st) None]
              | Some c =>
                  if match qe_stageRound c with Some r => negb (r =? ss_round st) | None => false end
                  then runEffects parentId [Ef_create_review_child (ss_round st) None]
                  else if is_terminal_status (qe_status c) then onChildTerminal (qe_id c) else ret tt
              end
          | _ => ret tt
          end
      | _, _ => ret tt
      end
  | None => ret tt
  end.

(** The source has a dash for the comma. *)
Definition FALLBACK_TEXT : string := "stage: no other-provider reviewer available, falling back to a fresh same-provider session".

Definition promote_one (parent : MeshWorkQueueEntry) : M unit :=
  match qe_stagePlan parent, qe_stageState parent with
  | Some plan, Some st =>
      if negb (bool_decide (sp_independence plan = ind_fresh_session_ok)) || negb (bool_decide (ss_phase st = awaiting_review)) then ret tt
      else
        child ← reads (fun w => last (ss_reviewTaskIds st) ≫= (fun id => if bool_decide (id = "") then None else find_row id (sw_queue w)));
        since ← reads sw_refusals;
        match child with
        | Some c =>
            if negb (bool_decide (qe_status c = st_pending)) || bool_decide (qe_independence c = Some "fresh_session")
               || negb (independenceRefusalExceeded (qe_id c) (en_nowMs env) None since)
            then ret tt
            else (if present (qe_independence c) then update_row {| c with qe_independence := Some "fresh_session" |} else ret tt) ;;
                 call (Cl_progress (qe_id parent) FALLBACK_TEXT)
        | None => ret tt
        end
  | _, _ => ret tt
  end.

Fixpoint for_rows (f : MeshWorkQueueEntry -> M unit) (rows : list MeshWorkQueueEntry) : M unit :=
  match rows with [] => ret tt | e :: rest => f e ;; for_rows f rest end.

Definition listStageParents (w : StageWorld) : list MeshWorkQueueEntry := List.filter is_listed (map_values (qs_rows (sw_queue w))).

(** What [serial] runs cannot fail its caller. *)
Definition quietly (m : M unit) : M unit := catch m (fun _ => ret tt).

Definition tick_one (parent : MeshWorkQueueEntry) : M unit :=
  match qe_stageState parent with
  | Some st =>
      if opt_true (ss_released st) || bool_decide (ss_phase st = phase_done) then ret tt
      else if match en_parse env (ss_startedAt st) with Some t => en_ceilingMs env <? en_nowMs env - t | None => false end
      then quietly (apply (qe_id parent) (Ev_ceiling (en_now env)) id)
      else quietly (resumeOne (qe_id parent))
  | None => ret tt
  end.

Definition tick : M unit :=
  parents ← reads listStageParents;
  for_rows promote_one parents ;;
  parents ← reads listStageParents;
  for_rows tick_one parents.

Inductive MeshStageDecideAction : Set := dec_accept | dec_revise_once | dec_rereview | dec_abandon.

Definition undecided (s : MeshTaskStageState) : MeshTaskStageState := {| s with ss_blockedReason := None; ss_blockedDetail := None |}.

(** The coordinator's decision on a blocked task: done, or refused with a text. *)
Definition pipeline_decide (parentId : string) (action : MeshStageDecideAction) (note : string) : M (option string) :=
  catch
    (row ← get_row parentId;
     match row with
     | Some parent =>
         if negb (isStageParent parent) then ret (Some "not_a_stage_task")
         else
           (if isStageBlockOverwritten parent
            then mutate parentId (fun e => {| e with qe_status := st_blocked |}) ;;
                 call (Cl_progress parentId "restored the review block a late completion had overwritten")
            else ret tt) ;;
           row ← get_row parentId;
           match row with
           | Some parent =>
               if negb (bool_decide (qe_status parent = st_blocked)) || negb (stage_is (fun s => present (ss_blockedReason s)) parent)
               then ret (Some "stage_task_not_blocked")
               else match action with
               | dec_accept => mutate parentId (on_stage undecided) ;; stage_commit parentId st_completed src_queue_policy ;; ret None
               | dec_abandon => cancel ("stage_decide:abandon" ++ (if bool_decide (note = "") then "" else ": " ++ note)) parentId ;; ret None
               | dec_revise_once => mutate parentId (fun e => {| e with qe_status := st_assigned |}) ;;
                                    apply parentId (Ev_decide_revise_once (en_now env)) id ;; ret None
               | dec_rereview => mutate parentId (fun e => {| e with qe_status := st_assigned |}) ;;
                                 apply parentId (Ev_decide_rereview (en_now env)) id ;; ret None
               end
           | None => ret (Some "not_a_stage_task")
           end
     | None => ret (Some "not_a_stage_task")
     end)
    (fun e => ret (Some e)).
End Env.
