(* ===== verification/StageAnswers.v ===== *)
(** * The runtime of the review pipeline answers

    [apply] runs effects and effects apply events; the nesting is bounded, so no
    entry point runs out of the fuel it is given. *)

From S2P Require Import Prelude KeyedDoc StageTypes StagePipeline StageRows StageRuntime StageTheorems.

#[local] Open Scope string_scope.
#[local] Open Scope nat_scope.
#[local] Existing Instance M_bind.

(** ** Computations that answer *)

Definition answers {A} (m : M A) : Prop := forall w, (m w).1 <> Out_of_fuel.

Lemma answers_ret {A} (a : A) : answers (ret a).
Proof. by intros w. Qed.
Lemma answers_throw {A} e : answers (throw (A := A) e).
Proof. by intros w. Qed.
Lemma answers_reads {A} (f : StageWorld -> A) : answers (reads f).
Proof. by intros w. Qed.
Lemma answers_writes f : answers (writes f).
Proof. by intros w. Qed.
Lemma answers_on_queue {A} (f : QueueStore -> string + A * QueueStore) : answers (on_queue f).
Proof. intros w. unfold on_queue. by destruct (f (sw_queue w)) as [|[]]. Qed.

Lemma answers_bind {A B} (m : M A) (f : A -> M B) : answers m -> (forall a, answers (f a)) -> answers (@mbind M M_bind A B f m).
Proof.
  intros Hm Hf w. specialize (Hm w). unfold mbind, M_bind, bind. destruct (m w) as [[a|e|] w']; [apply Hf|done|done].
Qed.

Lemma answers_catch {A} (m : M A) h : answers m -> (forall e, answers (h e)) -> answers (catch m h).
Proof. intros Hm Hh w. specialize (Hm w). unfold catch. destruct (m w) as [[a|e|] w']; [done|apply Hh|done]. Qed.

Create HintDb answers.
#[export] Hint Resolve answers_ret answers_throw answers_reads answers_writes answers_on_queue : answers.

(** Follow the structure of a computation. *)
Ltac answers_step :=
  match goal with
  | |- answers (mbind _ _) => apply answers_bind; [|intros ?]
  | |- answers (catch _ _) => apply answers_catch; [|intros ?]
  | |- answers (match ?x with _ => _ end) => destruct x
  | |- answers _ => progress cbv zeta
  | |- answers _ => solve [eauto with answers]
  end.
Ltac answers_tac := repeat answers_step.

Lemma answers_for_each f ids : (forall id, answers (f id)) -> answers (for_each f ids).
Proof. intros Hf. induction ids; cbn [for_each]; answers_tac. Qed.
Lemma answers_for_rows f rows : (forall e, answers (f e)) -> answers (for_rows f rows).
Proof. intros Hf. induction rows; cbn [for_rows]; answers_tac. Qed.

Section Env.
Variable env : StageEnv.

(** ** Effects *)

Lemma answers_update e : answers (update_row env e).
Proof. apply answers_on_queue. Qed.
Hint Resolve answers_update : answers.

Lemma answers_call c : answers (call c).
Proof. apply answers_writes. Qed.
Lemma answers_get_row id : answers (get_row id).
Proof. apply answers_reads. Qed.
Lemma answers_commit id status source : answers (stage_commit env id status source).
Proof. apply answers_on_queue. Qed.
Lemma answers_clear id kind : answers (clear_streaks id kind).
Proof. apply answers_writes. Qed.
Hint Resolve answers_call answers_get_row answers_commit answers_clear : answers.

Lemma answers_mutate id f : answers (mutate env id f).
Proof. unfold mutate. answers_tac. Qed.
Lemma answers_release_workspace id : answers (releaseReviewerWorkspace id).
Proof. unfold releaseReviewerWorkspace. answers_tac. Qed.
Hint Resolve answers_mutate answers_release_workspace : answers.

Lemma answers_cancel_one reason id : answers (cancel_one env reason id).
Proof. unfold cancel_one. answers_tac. Qed.
Hint Resolve answers_cancel_one : answers.
Lemma answers_cancel_if_open reason id : answers (cancel_if_open env reason id).
Proof. unfold cancel_if_open. answers_tac. Qed.
Hint Resolve answers_cancel_if_open : answers.

Lemma answers_cancel reason id : answers (cancel env reason id).
Proof. unfold cancel. answers_tac. all: apply answers_for_each; intros; answers_tac. Qed.
Lemma answers_cancel_children parent : answers (cancel_review_children env parent).
Proof. apply answers_for_each. intros. answers_tac. Qed.
Lemma answers_registerDiff id dir base head : answers (registerDiff env id dir base head).
Proof. unfold registerDiff. answers_tac. Qed.
Lemma answers_release parent status : answers (release env parent status).
Proof. unfold release. answers_tac. Qed.
Lemma answers_revision parent st reason : answers (send_revision env parent st reason).
Proof. unfold send_revision. answers_tac. Qed.
Lemma answers_enqueue parentId round inputs fp target ws : answers (enqueueReviewChild env parentId round inputs fp target ws).
Proof. unfold enqueueReviewChild. answers_tac. Qed.
Hint Resolve answers_cancel answers_cancel_children answers_registerDiff answers_release answers_revision answers_enqueue : answers.
Lemma answers_create parent st round reuse : answers (create_review_child env parent st round reuse).
Proof. unfold create_review_child. answers_tac. Qed.
Hint Resolve answers_create : answers.

(** ** Nesting *)

(** How deep applying what an effect leads to can nest. *)
Definition rank (effect : StageEffect) : nat :=
  match effect with Ef_run_self_check => 2 | Ef_create_review_child _ _ => 1 | _ => 0 end.

Definition event_rank (event : StageEvent) : nat :=
  match event with
  | Ev_impl_completed _ _ _ _ => 2
  | Ev_self_check_done _ _ | Ev_reviewer_unavailable _ _ | Ev_decide_rereview _ => 1
  | _ => 0
  end.

Definition ranked (n : nat) (r : option StageReduction) : Prop :=
  match r with Some r => Forall (fun e => rank e <= n) (sr_effects r) | None => True end.

Lemma reduce_rank plan s e : ranked (event_rank e) (reduceStage plan s e).
Proof.
  unfold reduceStage. destruct (_ && _); [done|].
  destruct e; cbn; unfold reduce_impl_completed, reduce_self_check_done, reduce_review_verdict, reduce_reviewer_unavailable, block; cbv zeta;
    repeat (case_match; cbn; try done); repeat constructor.
Qed.

Definition Applies (n : nat) (ap : string -> StageEvent -> (MeshTaskStageState -> MeshTaskStageState) -> M unit) : Prop :=
  forall id ev pre, event_rank ev < n -> answers (ap id ev pre).

Lemma effect_answers n ap id parent st effect :
  Applies n ap -> rank effect <= n ->
  answers (run_effect env ap parent st effect) /\ forall detail, answers (effect_failed env ap id effect detail).
Proof.
  intros Ha Hr. split.
  - destruct effect; cbn [run_effect]; answers_tac. unfold run_self_check. answers_tac.
  - intros detail. unfold effect_failed. apply answers_bind; [answers_tac|]. intros streaks. destruct (record_failure _ _ _ _ _ _).
    destruct (is_create effect) eqn:Ec; cbn [andb]; answers_tac; apply Ha; destruct effect; cbn in *; (lia || done).
Qed.

Lemma run_effects_answers n ap id effects :
  Applies n ap -> Forall (fun e => rank e <= n) effects -> answers (run_effects_with env ap id effects).
Proof.
  intros Ha He. induction He as [|effect effects Hr _ IH]; cbn [run_effects_with]; answers_tac.
  - by apply (effect_answers n ap id m m1 effect).
  - by apply (effect_answers n ap id m m1 effect).
Qed.

Lemma apply_fuel_answers n : Applies n (apply_fuel env n).
Proof.
  induction n as [|n IH]; intros id ev pre Hev; [lia|]. cbn [apply_fuel]. unfold apply_with. answers_step; [answers_tac|].
  destruct a as [e|]; [|answers_tac]. destruct (reduce_row ev pre e) as [e' effects] eqn:Er. answers_step; [answers_tac|].
  assert (He : Forall (fun x => rank x <= n) effects).
  { unfold reduce_row in Er. destruct (qe_stagePlan e) as [plan|]; [|by injection Er as <- <-].
    destruct (qe_stageState e) as [s|]; [|by injection Er as <- <-]. pose proof (reduce_rank plan s ev) as Hr.
    destruct (reduceStage plan s ev); injection Er as <- <-; [|done]. eapply Forall_impl; [exact Hr|]. cbn. lia. }
  destruct effects; [answers_tac|]. by eapply run_effects_answers.
Qed.

Lemma apply_answers id ev pre : answers (apply env id ev pre).
Proof. apply apply_fuel_answers. destruct ev; cbn; lia. Qed.
Lemma runEffects_answers id effects : answers (runEffects env id effects).
Proof. apply (run_effects_answers 3); [apply apply_fuel_answers|]. apply Forall_forall. intros [] _; cbn; lia. Qed.
Hint Resolve apply_answers runEffects_answers : answers.

(** ** Entry points *)

Lemma impl_completed_answers id attempt : answers (onImplCompleted env id attempt).
Proof. unfold onImplCompleted. answers_tac. Qed.
Lemma child_terminal_answers id : answers (onChildTerminal env id).
Proof. unfold onChildTerminal. answers_tac. Qed.
Hint Resolve impl_completed_answers child_terminal_answers : answers.
Lemma child_claimed_answers id : answers (onChildClaimed env id).
Proof. unfold onChildClaimed. answers_tac. Qed.
Lemma resume_answers id : answers (resumeOne env id).
Proof. unfold resumeOne. answers_tac. Qed.
Hint Resolve child_claimed_answers resume_answers : answers.
Lemma promote_answers e : answers (promote_one env e).
Proof. unfold promote_one. answers_tac. Qed.
Lemma tick_one_answers e : answers (tick_one env e).
Proof. unfold tick_one, quietly. answers_tac. Qed.
Lemma tick_answers : answers (tick env).
Proof. unfold tick. answers_tac; apply answers_for_rows; intros; [apply promote_answers|apply tick_one_answers]. Qed.
Lemma decide_answers id action note : answers (pipeline_decide env id action note).
Proof. unfold pipeline_decide. answers_tac. Qed.
End Env.

(** Every entry point of the pipeline returns or throws, whatever the queue holds
    and the ports answer: an applied event leads to effects that apply further
    events at most two levels down, within the fuel. *)
Theorem stage_answers env w taskId attempt action note :
  (onImplCompleted env taskId attempt w).1 <> Out_of_fuel /\ (onChildTerminal env taskId w).1 <> Out_of_fuel
  /\ (onChildClaimed env taskId w).1 <> Out_of_fuel /\ (tick env w).1 <> Out_of_fuel
  /\ (pipeline_decide env taskId action note w).1 <> Out_of_fuel.
Proof.
  split; [apply impl_completed_answers|]. split; [apply child_terminal_answers|]. split; [apply child_claimed_answers|].
  split; [apply tick_answers|apply decide_answers].
Qed.
