(* ===== verification/StageInv.v ===== *)
(** * Facts about the runtime of the review pipeline

    What running an entry point keeps: a small logic of the properties of worlds
    that every outcome of a computation preserves, and the invariant of the rows
    of the queue. *)

From S2P Require Import Prelude KeyedDoc StageTypes StagePipeline StageTheorems StageRows StageRuntime.

#[local] Open Scope string_scope.
#[local] Open Scope Z_scope.

(** ** Properties that computations keep *)

Section Keeps.
Variable P : StageWorld -> Prop.

(** Whatever the outcome, errors included. *)
Definition keeps {A} (m : M A) : Prop := forall w, P w -> P (m w).2.

Lemma keeps_ret {A} (a : A) : keeps (ret a).
Proof. by intros w. Qed.
Lemma keeps_throw {A} e : keeps (throw (A := A) e).
Proof. by intros w. Qed.
Lemma keeps_stuck {A} : keeps (stuck (A := A)).
Proof. by intros w. Qed.
Lemma keeps_reads {A} (f : StageWorld -> A) : keeps (reads f).
Proof. by intros w. Qed.
Lemma keeps_writes f : (forall w, P w -> P (f w)) -> keeps (writes f).
Proof. intros H w. apply H. Qed.

Lemma keeps_bind {A B} (m : M A) (f : A -> M B) : keeps m -> (forall a, keeps (f a)) -> keeps (@mbind M M_bind A B f m).
Proof.
  intros Hm Hf w Hw. specialize (Hm w Hw). unfold mbind, M_bind, bind. destruct (m w) as [[a|e|] w']; [|done|done]. by apply Hf.
Qed.

(** What was read is known to come from the world. *)
Lemma keeps_read {A B} (f : StageWorld -> A) (k : A -> M B) :
  (forall w, P w -> P (k (f w) w).2) -> keeps (@mbind M M_bind A B k (reads f)).
Proof. intros H w Hw. by apply H. Qed.

Lemma keeps_catch {A} (m : M A) h : keeps m -> (forall e, keeps (h e)) -> keeps (catch m h).
Proof.
  intros Hm Hh w Hw. specialize (Hm w Hw). unfold catch. destruct (m w) as [[a|e|] w']; [done| |done]. by apply Hh.
Qed.

Lemma keeps_for_each f ids : (forall id, keeps (f id)) -> keeps (for_each f ids).
Proof. intros Hf. induction ids as [|id ids IH]; cbn [for_each]; [apply keeps_ret|]. apply keeps_bind; [apply Hf|done]. Qed.

Lemma keeps_for_rows f rows : (forall e, keeps (f e)) -> keeps (for_rows f rows).
Proof. intros Hf. induction rows as [|e rows IH]; cbn [for_rows]; [apply keeps_ret|]. apply keeps_bind; [apply Hf|done]. Qed.
End Keeps.

Create HintDb keeps.
#[export] Hint Resolve keeps_ret keeps_throw keeps_stuck keeps_reads : keeps.

(** Follow the structure of a computation. *)
Ltac keeps_step :=
  match goal with
  | |- keeps _ (mbind _ _) => apply keeps_bind; [|intros ?]
  | |- keeps _ (catch _ _) => apply keeps_catch; [|intros ?]
  | |- keeps _ (match ?x with _ => _ end) => destruct x
  | |- keeps _ _ => progress cbv zeta
  | |- keeps _ _ => solve [eauto with keeps]
  end.
Ltac keeps_tac := repeat keeps_step.

(** ** Rows *)

(** A property of the id, status and stage state of a row. *)
Definition RowProp : Type := string -> MeshTaskStatus -> option MeshTaskStageState -> Prop.

Record row_entry_ok (R : RowProp) (id : string) (e : MeshWorkQueueEntry) : Prop := {
  eo_id : qe_id e = id;
  eo_plan : present (qe_stageState e) = true -> present (qe_stagePlan e) = true;
  eo_row : R id (qe_status e) (qe_stageState e) }.

Definition queue_ok (R : RowProp) (q : QueueStore) : Prop := forall id e, find_row id q = Some e -> row_entry_ok R id e.
Definition rows_ok (R : RowProp) (w : StageWorld) : Prop := queue_ok R (sw_queue w).

(** Rows keep their id and their plan. *)
Definition keeps_identity (f : MeshWorkQueueEntry -> MeshWorkQueueEntry) : Prop :=
  forall e, qe_id (f e) = qe_id e /\ qe_stagePlan (f e) = qe_stagePlan e /\ present (qe_stageState (f e)) = present (qe_stageState e).

Lemma keeps_call R c : keeps (rows_ok R) (call c).
Proof. by apply keeps_writes. Qed.
#[export] Hint Resolve keeps_call : keeps.

Lemma keeps_release_workspace R id : keeps (rows_ok R) (releaseReviewerWorkspace id).
Proof. unfold releaseReviewerWorkspace. keeps_tac. by apply keeps_writes. Qed.
Lemma keeps_clear_streaks R id kind : keeps (rows_ok R) (clear_streaks id kind).
Proof. by apply keeps_writes. Qed.
#[export] Hint Resolve keeps_release_workspace keeps_clear_streaks : keeps.

Lemma find_set id id' e q :
  find_row id {| q with qs_rows := map_set id' e (qs_rows q) |} = if decide (id = id') then Some e else find_row id q.
Proof. unfold find_row. cbn. apply map_get_set. Qed.

Lemma find_same_rows id q q' : qs_rows q' = qs_rows q -> find_row id q' = find_row id q.
Proof. unfold find_row. by intros ->. Qed.

(** A changed row is written back. *)
Lemma row_update_ok (R R' : RowProp) stopping id e e' q q' :
  queue_ok R q -> find_row id q = Some e ->
  qe_id e' = id -> (present (qe_stageState e') = true -> present (qe_stagePlan e') = true) ->
  (forall i s st, i <> id -> R i s st -> R' i s st) -> R' id (qe_status e') (qe_stageState e') ->
  updateQueueEntry stopping e' q = inr q' -> queue_ok R' q'.
Proof.
  intros Hq He Hid Hplan Hother Hnew Hu. unfold updateQueueEntry in Hu. rewrite Hid, He in Hu. destruct (_ && _); [done|].
  injection Hu as <-. intros i x. rewrite find_set. case_decide as Hi.
  - intros [= <-]. subst i. by split.
  - intros Hx. destruct (Hq i x Hx) as [H1 H2 H3]. split; [done|done|]. by apply Hother.
Qed.

Lemma queue_weaken (R R' : RowProp) q : (forall i s st, R i s st -> R' i s st) -> queue_ok R q -> queue_ok R' q.
Proof. intros H Hq i e He. destruct (Hq i e He) as [H1 H2 H3]. split; auto. Qed.

(** A terminal that is committed, not held and not locked out. *)
Lemma commit_ok stopping (R : RowProp) id status source attempt q answer q' :
  queue_ok R q -> (forall e, find_row id q = Some e -> row_entry_ok R id e ->
                   negb (bool_decide (source = src_queue_policy)) && isStageBlockLocked e status = false ->
                   shouldHoldStageTerminal e status = false -> R id status (qe_stageState e)) ->
  commitTaskTerminal stopping id status source attempt q = inr (answer, q') -> queue_ok R q'.
Proof.
  intros Hq HR Hc. unfold commitTaskTerminal in Hc. destruct (find_row id q) as [e|] eqn:E; [|by injection Hc as <- <-].
  destruct (stopping id); [by injection Hc as <- <-|]. destruct (bool_decide (qe_status e = status)); [by injection Hc as <- <-|].
  destruct (negb (bool_decide (source = src_queue_policy)) && _) eqn:El; [by injection Hc as <- <-|].
  destruct (shouldHoldStageTerminal _ _) eqn:Eh.
  { injection Hc as <- <-. by destruct (isStageImplReport e). }
  destruct (applyTaskTerminalSteps _ _ _ _) as [|q1] eqn:Eu; [done|]. injection Hc as <- <-.
  pose proof (Hq id e E) as He. destruct He as [He1 He2 He3].
  assert (Hq1 : queue_ok R q1); [|done].
  unfold applyTaskTerminalSteps in Eu.
  assert (E' : find_row id (persistOutputVersion (qe_id e) status q) = Some e) by done.
  refine (row_update_ok R R _ id e _ _ q1 _ E' _ _ _ _ Eu); try done. cbn. by apply HR.
Qed.

Section Env.
Variable env : StageEnv.

Lemma keeps_mutate (R : RowProp) id f :
  keeps_identity f -> (forall e, row_entry_ok R id e -> R id (qe_status (f e)) (qe_stageState (f e))) -> keeps (rows_ok R) (mutate env id f).
Proof.
  intros Hf HR. apply keeps_read. intros w Hw. destruct (find_row id (sw_queue w)) as [e|] eqn:E; [|done].
  destruct (Hw id e E) as [He1 He2 He3]. destruct (Hf e) as (Hi & Hp & Hs).
  unfold mbind, M_bind, bind, update_row, on_queue. destruct (updateQueueEntry _ (f e) (sw_queue w)) as [m|q'] eqn:Eu; cbn; [done|].
  refine (row_update_ok R R _ id e (f e) _ _ Hw E _ _ _ _ Eu).
  - congruence.
  - by rewrite Hp, Hs.
  - done.
  - apply HR. by split.
Qed.

(** ** Cancelling *)

Definition cancellable (R : RowProp) : Prop := forall id s st, R id s st -> R id st_cancelled st.

Lemma keeps_cancel_commit R id : cancellable R -> keeps (rows_ok R) (stage_commit env id st_cancelled src_cancellation).
Proof.
  intros HR w Hw. unfold stage_commit, on_queue. destruct (commitTaskTerminal _ _ _ _ _ _) as [|[a q']] eqn:E; [done|].
  cbn. eapply commit_ok; [exact Hw| |exact E]. intros e _ He _ _. eapply HR, He.
Qed.

Lemma keeps_cancel_one R reason id : cancellable R -> keeps (rows_ok R) (cancel_one env reason id).
Proof.
  intros HR. apply keeps_read. intros w Hw. destruct (find_row id (sw_queue w)) as [e|] eqn:E; [|done].
  destruct (en_open_attempt env id); [by apply keeps_call|]. pose proof (Hw id e E) as [He1 He2 He3].
  assert (Hk : rows_ok R (update_row env (cancelled_row reason e) w).2).
  { unfold update_row, on_queue. destruct (updateQueueEntry _ _ _) as [|q'] eqn:Eu; [done|]. cbn.
    by refine (row_update_ok R R _ id e _ _ q' Hw E _ _ _ _ Eu). }
  unfold mbind, M_bind, bind at 1. destruct (update_row env _ w) as [[[]|m|] w'] eqn:Eu; [|done|done].
  refine (keeps_bind _ _ _ _ _ w' Hk); [by apply keeps_cancel_commit|]. intros a. apply keeps_ret.
Qed.

Lemma keeps_cancel_if_open R reason id : cancellable R -> keeps (rows_ok R) (cancel_if_open env reason id).
Proof. intros HR. unfold cancel_if_open, get_row. keeps_tac. by apply keeps_cancel_one. Qed.

Lemma keeps_cancel R reason id : cancellable R -> keeps (rows_ok R) (cancel env reason id).
Proof.
  intros HR. unfold cancel, get_row. keeps_tac; try by apply keeps_cancel_one.
  all: apply keeps_for_each; intros; by apply keeps_cancel_if_open.
Qed.

Lemma keeps_cancel_children R parent : cancellable R -> keeps (rows_ok R) (cancel_review_children env parent).
Proof. intros HR. apply keeps_for_each. intros id. keeps_tac. by apply keeps_cancel_if_open. Qed.
End Env.

(** * The invariant of staged tasks

    What holds of every row of the queue between the entry points of the review
    pipeline, and that the reducer and the effects it asks for restore it. *)

(** ** States *)

(** There was nothing to review, or the last verdict is no rejection and left no
    finding open. *)
Definition approved (s : MeshTaskStageState) : Prop :=
  ss_round s = 0 \/ exists v, ss_lastVerdict s = Some v /\ v <> reject_approach /\ ss_openFindingIds s = [].

Definition is_done (s : MeshTaskStageState) : Prop := ss_phase s = phase_done.
Definition is_released (s : MeshTaskStageState) : Prop := opt_true (ss_released s) = true.
Definition has_reason (s : MeshTaskStageState) : Prop := present (ss_blockedReason s) = true.

(** [accepted]: the coordinator accepted the task although it was blocked. *)
Record stage_state_ok (accepted : Prop) (s : MeshTaskStageState) : Prop := {
  so_released : is_released s -> is_done s;
  so_done : is_done s -> has_reason s \/ approved s \/ accepted;
  so_reason : has_reason s -> is_done s }.

(** What the invariant reads of a state. *)
Record same_core (s s' : MeshTaskStageState) : Prop := {
  sc_phase : ss_phase s' = ss_phase s; sc_released : ss_released s' = ss_released s;
  sc_reason : ss_blockedReason s' = ss_blockedReason s; sc_round : ss_round s' = ss_round s;
  sc_verdict : ss_lastVerdict s' = ss_lastVerdict s; sc_open : ss_openFindingIds s' = ss_openFindingIds s }.

Definition core_kept (f : MeshTaskStageState -> MeshTaskStageState) : Prop := forall s, same_core s (f s).

Lemma state_ok_core acc s s' : same_core s s' -> stage_state_ok acc s -> stage_state_ok acc s'.
Proof.
  intros [H1 H2 H3 H4 H5 H6] [Ha Hb Hc]. unfold is_released, is_done, has_reason, approved in *.
  split; unfold is_released, is_done, has_reason, approved in *; rewrite ?H1, ?H2, ?H3, ?H4, ?H5, ?H6; auto.
Qed.

(** ** Rows *)

(** Inside an entry point, and between entry points. *)
Definition row_mid (acc : Prop) (status : MeshTaskStatus) (st : option MeshTaskStageState) : Prop :=
  match st with
  | Some s => stage_state_ok acc s /\ (status = st_completed -> is_done s /\ is_released s /\ ~ has_reason s)
  | None => True
  end.

Definition row_full (acc : Prop) (status : MeshTaskStatus) (st : option MeshTaskStageState) : Prop :=
  row_mid acc status st
  /\ match st with
     | Some s => (is_released s -> has_reason s -> status = st_blocked \/ status = st_cancelled) /\ (is_done s -> is_released s)
     | None => True
     end.

Section Acc.
(** The tasks the coordinator accepted. *)
Variable acc : string -> Prop.

Definition R_full : RowProp := fun id status st => row_full (acc id) status st.

(** Every other row is settled; the state of [p] satisfies [X]. *)
Definition R_at (p : string) (X : MeshTaskStageState -> Prop) : RowProp := fun id status st =>
  if decide (id = p) then row_mid (acc id) status st /\ (forall s, st = Some s -> X s) else row_full (acc id) status st.

Lemma mid_cancel a s st : row_mid a s st -> row_mid a st_cancelled st.
Proof. destruct st; cbn; [|done]. intros [H _]. by split. Qed.

Lemma full_cancel a s st : row_full a s st -> row_full a st_cancelled st.
Proof. intros [Hm Hf]. split; [by eapply mid_cancel|]. destruct st; [|done]. destruct Hf as [_ Hf]. split; [by right|done]. Qed.

Lemma full_cancellable : cancellable R_full.
Proof. intros id s st. apply full_cancel. Qed.

Lemma at_cancellable p X : cancellable (R_at p X).
Proof.
  intros id s st. unfold R_at. case_decide; [|apply full_cancel]. intros [Hm HX]. split; [by eapply mid_cancel|done].
Qed.

End Acc.

(** A state that is not done has nothing to release. *)
Lemma open_full a s st : row_mid a s (Some st) -> ~ is_done st -> row_full a s (Some st).
Proof.
  intros [Hs Hc] Hd. split; [by split|]. split; [|by intros ?]. intros Hr _. exfalso. by apply Hd, (so_released _ _ Hs).
Qed.

Lemma row_mid_core a s st st' : same_core st st' -> row_mid a s (Some st) -> row_mid a s (Some st').
Proof.
  intros Hc [Hs Hk]. split; [by eapply state_ok_core|]. destruct Hc as [H1 H2 H3 _ _ _].
  unfold is_done, is_released, has_reason. by rewrite H1, H2, H3.
Qed.

Lemma row_full_core a s st st' : same_core st st' -> row_full a s (Some st) -> row_full a s (Some st').
Proof.
  intros Hc [Hm Hf]. split; [by eapply row_mid_core|]. destruct Hc as [H1 H2 H3 _ _ _].
  unfold is_done, is_released, has_reason. by rewrite H1, H2, H3.
Qed.

(** ** Reductions *)

(** The effects of a reduction, and when they are asked for. *)
Inductive asked_of (s : MeshTaskStageState) : list StageEffect -> Prop :=
  | asked_nothing : ~ is_done s -> asked_of s []
  | asked_self_check : ~ is_done s -> asked_of s [Ef_run_self_check]
  | asked_review round reuse : ~ is_done s -> asked_of s [Ef_create_review_child round reuse]
  | asked_revision reason round : ~ is_done s -> asked_of s [Ef_send_revision reason round]
  | asked_completed : is_done s -> ~ has_reason s -> asked_of s [Ef_release_completed]
  | asked_blocked reason : is_done s -> has_reason s -> asked_of s [Ef_cancel_review_children; Ef_release_blocked reason].

Lemma asked_core s s' effects : same_core s s' -> asked_of s effects -> asked_of s' effects.
Proof.
  intros [H1 _ H3 _ _ _] Ha. destruct Ha; constructor; unfold is_done, has_reason in *; by rewrite ?H1, ?H3.
Qed.

Definition reduction_ok (a : Prop) (r : StageReduction) : Prop := stage_state_ok a (sr_state r) /\ asked_of (sr_state r) (sr_effects r).

(** A reduction that goes on. *)
Lemma open_ok a s effects :
  ~ is_done s -> ~ is_released s -> ~ has_reason s -> asked_of s effects -> reduction_ok a {| sr_state := s; sr_effects := effects |}.
Proof. intros Hd Hr Hb Ha. by repeat split. Qed.

Lemma block_ok a s reason at_ : reduction_ok a (block s reason at_).
Proof. split; [|by constructor]. split; [done|by left|done]. Qed.

Lemma in_phase_open s l : in_phase s l = true -> phase_done ∉ l -> ~ is_done s.
Proof. intros H%in_phase_true Hl Hd. apply Hl. by rewrite <- Hd. Qed.

(** An open state has no reason to be blocked and is not released. *)
Lemma open_state a s : stage_state_ok a s -> ~ is_done s -> ~ is_released s /\ ~ has_reason s.
Proof. intros [H1 _ H3] Hd. split; [by intros ?%H1|by intros ?%H3]. Qed.

(** Split off the guard of an event that applies in the phases of [l]. *)
Ltac open_phase Hr Ho :=
  match type of Hr with context [in_phase ?s ?l] =>
    let Ep := fresh "Ep" in destruct (in_phase s l) eqn:Ep; [|discriminate Hr]; cbn [negb] in Hr;
    pose proof (in_phase_open _ _ Ep ltac:(set_solver)) as Ho end.

Lemma reduce_ok a plan s e r : stage_state_ok a s -> reduceStage plan s e = Some r -> reduction_ok a r.
Proof.
  intros Hs Hr. unfold reduceStage in Hr. destruct (bool_decide (ss_phase s = phase_done) && negb (is_decision e)) eqn:Edone; [done|].
  destruct e as [t h d at_|st at_|c sid at_|c report sid used at_|c at_|c at_|c at_|dt at_|at_|at_|at_]; cbn in Hr.
  - unfold reduce_impl_completed in Hr. open_phase Hr Ho. destruct (open_state a s Hs Ho) as [H1 H2]. destruct (truthy_str t && _); [done|]. cbv zeta in Hr.
    destruct (negb d && _) eqn:E.
    + injection Hr as <-. breflect. split; [|destruct (truthy_str t); by constructor].
      assert (ss_round s = 0) by (apply Z.eqb_eq; by destruct (truthy_str t)).
      split; destruct (truthy_str t); cbn; try done; intros _; right; left; by left.
    + injection Hr as <-. apply open_ok; destruct (truthy_str t), (truthy_str h); try done; by constructor.
  - unfold reduce_self_check_done in Hr. open_phase Hr Ho. destruct (open_state a s Hs Ho) as [H1 H2].
    destruct st; try destruct (_ <=? _); injection Hr as <-; try apply block_ok; apply open_ok; try done; by constructor.
  - open_phase Hr Ho. destruct (open_state a s Hs Ho) as [H1 H2]. injection Hr as <-. apply open_ok; try done; by constructor.
  - unfold reduce_review_verdict in Hr. open_phase Hr Ho. destruct (open_state a s Hs Ho) as [H1 H2]. cbv zeta in Hr.
    destruct (rv_verdict report) eqn:Ev; cbn in Hr.
    4: by injection Hr as <-; apply block_ok.
    3: destruct (is_nil _); [|destruct (_ <? _); injection Hr as <-; [apply block_ok|apply open_ok; try done; by constructor]].
    all: injection Hr as <-; split; [|by constructor]; split; cbn; try done; intros _; right; left; right; eexists; split; [reflexivity|]; done.
  - unfold reduce_reviewer_unavailable in Hr. open_phase Hr Ho. destruct (open_state a s Hs Ho) as [H1 H2]. cbv zeta in Hr.
    destruct (_ <=? _); injection Hr as <-; [apply block_ok|]. apply open_ok; try done; by constructor.
  - open_phase Hr Ho. injection Hr as <-. apply block_ok.
  - open_phase Hr Ho. injection Hr as <-. apply block_ok.
  - open_phase Hr Ho. injection Hr as <-. split; [|by constructor]. split; [done|by left|done].
  - injection Hr as <-. apply block_ok.
  - destruct (_ && _) in Hr; [|done]. cbn in Hr. injection Hr as <-. apply open_ok; try done; by constructor.
  - destruct (_ && _) in Hr; [|done]. cbn in Hr. injection Hr as <-. apply open_ok; try done; by constructor.
Qed.

(** A completed task is not reduced. *)
Lemma completed_stays plan s e : is_done s -> ~ has_reason s -> reduceStage plan s e = None.
Proof.
  unfold has_reason. intros Hd Hn. unfold reduceStage. rewrite bool_decide_true by done.
  destruct e; cbn; try done; by destruct (present (ss_blockedReason s)).
Qed.
