(* ===== verification/StageSafety.v ===== *)
(** * The runtime keeps the invariant of staged tasks

    Every entry point of the review pipeline leaves every row settled, when no
    writer is stopping. *)

From S2P Require Import Prelude KeyedDoc StageTypes StagePipeline StageRows StageRuntime StageTheorems StageInv StageAnswers.

#[local] Open Scope string_scope.
#[local] Open Scope Z_scope.

#[local] Existing Instance M_bind.

Section Safety.
Variable acc : string -> Prop.
Variable env : StageEnv.
Hypothesis not_stopping : forall id, en_stopping env id = false.

Notation full := (rows_ok (R_full acc)).
Notation at_ p X := (rows_ok (R_at acc p X)).

Lemma update_total e q : exists q', updateQueueEntry (en_stopping env) e q = inr q'.
Proof. unfold updateQueueEntry. destruct (find_row _ _); [|eauto]. rewrite not_stopping. cbn. eauto. Qed.

(** ** Changes that the invariant does not see *)

Lemma on_stage_identity f : keeps_identity (on_stage f).
Proof. intros e. split; [done|]. split; [done|]. cbn. by destruct (qe_stageState e). Qed.

Lemma full_on_stage id f : core_kept f -> keeps full (mutate env id (on_stage f)).
Proof.
  intros Hf. apply keeps_mutate; [apply on_stage_identity|]. intros e [_ _ He]. cbn. destruct (qe_stageState e); [|done].
  eapply row_full_core; [apply Hf|exact He].
Qed.

Lemma push_diff_core id : core_kept (push_diff id).
Proof. by split. Qed.
Lemma push_self_check_core id : core_kept (push_self_check id).
Proof. by destruct id; split. Qed.
Lemma push_verdict_core id : core_kept (push_verdict id).
Proof. by destruct id; split. Qed.
Lemma id_core : core_kept id.
Proof. by split. Qed.
Lemma adopt_base_core base stash : core_kept (adopt_base base stash).
Proof.
  intros s. unfold adopt_base. destruct (stash ≫= rs_artifactIds) as [[|]|], base; try case_bool_decide; by split.
Qed.
Hint Resolve push_diff_core push_self_check_core push_verdict_core id_core adopt_base_core : keeps.

Lemma keeps_registerDiff id dir base head : keeps full (registerDiff env id dir base head).
Proof. unfold registerDiff, get_row. keeps_tac. apply full_on_stage, push_diff_core. Qed.
Hint Resolve keeps_registerDiff : keeps.

(** ** Releases *)

(** What a released task must be: approved, or blocked with a reason. *)
Definition releasable (status : MeshTaskStatus) (s : MeshTaskStageState) : Prop :=
  is_done s /\ (status = st_completed /\ ~ has_reason s \/ status = st_blocked /\ has_reason s).

Lemma at_other p X i s st : i <> p -> R_at acc p X i s st -> R_full acc i s st.
Proof. unfold R_at. by case_decide. Qed.

Lemma at_self p X s st : R_at acc p X p s st -> row_mid (acc p) s st /\ (forall x, st = Some x -> X x).
Proof. unfold R_at. by rewrite decide_True. Qed.

Lemma at_absent p X w : find_row p (sw_queue w) = None -> at_ p X w -> full w.
Proof.
  intros Hn Hw i e He. destruct (Hw i e He) as [H1 H2 H3]. split; [done|done|]. eapply at_other; [|exact H3].
  intros ->. congruence.
Qed.

(** A policy commit is not refused, and changes the row's status. *)
Lemma policy_commit status e q :
  find_row (qe_id e) q = Some e -> (status = st_completed -> match qe_stageState e with Some s => is_done s | None => True end) ->
  exists answer q', commitTaskTerminal (en_stopping env) (qe_id e) status src_queue_policy None q = inr (answer, q')
    /\ (forall i, i <> qe_id e -> find_row i q' = find_row i q)
    /\ exists e', find_row (qe_id e) q' = Some e' /\ qe_id e' = qe_id e /\ qe_status e' = status
         /\ qe_stagePlan e' = qe_stagePlan e /\ qe_stageState e' = qe_stageState e.
Proof.
  intros He Hd. unfold commitTaskTerminal. rewrite He, not_stopping. case_bool_decide as Hs.
  { do 2 eexists. split; [reflexivity|]. split; [done|]. exists e. done. }
  cbn. assert (Hh : shouldHoldStageTerminal e status = false).
  { unfold shouldHoldStageTerminal, stage_is. destruct (bool_decide (status = st_completed)) eqn:Ec; [|done]. apply bool_decide_eq_true in Ec.
    specialize (Hd Ec). destruct (qe_stageState e); [|by rewrite andb_false_r]. unfold is_done in Hd. rewrite (bool_decide_true (_ = phase_done)) by done.
    by rewrite !andb_false_r. }
  rewrite Hh. unfold applyTaskTerminalSteps, updateQueueEntry. cbn [qe_id].
  assert (He' : find_row (qe_id e) (persistOutputVersion (qe_id e) status q) = Some e) by done. rewrite He', not_stopping. cbn.
  do 2 eexists. split; [reflexivity|]. split.
  - intros i Hi. unfold find_row. cbn. rewrite map_get_set. by rewrite decide_False.
  - eexists. split; [unfold find_row; cbn; rewrite map_get_set; by rewrite decide_True|]. done.
Qed.

Lemma released_full a s status :
  stage_state_ok a s -> releasable status s -> row_full a status (Some {| s with ss_released := Some true |}).
Proof.
  intros [H1 H2 H3] [Hd Hr]. split.
  - split; [split; done|]. intros ->. destruct Hr as [[_ Hr]|[? _]]; done.
  - split; [|done]. intros _ Hb. destruct Hr as [[_ Hn]|[-> _]]; [by destruct Hn|by left].
Qed.

Definition revised (f : MeshWorkQueueEntry -> MeshWorkQueueEntry) (e : MeshWorkQueueEntry) : MeshWorkQueueEntry :=
  {| (f e) with qe_revision := qe_revision e + 1 |}.
Definition with_row (id : string) (e : MeshWorkQueueEntry) (w : StageWorld) : StageWorld :=
  {| w with sw_queue := {| (sw_queue w) with qs_rows := map_set id e (qs_rows (sw_queue w)) |} |}.

Lemma find_with_row i id e w : find_row i (sw_queue (with_row id e w)) = if decide (i = id) then Some e else find_row i (sw_queue w).
Proof. apply find_set. Qed.

Lemma update_run id e e' w :
  find_row id (sw_queue w) = Some e -> qe_id e' = id ->
  update_row env e' w = (Ok tt, with_row id {| e' with qe_revision := qe_revision e + 1 |} w).
Proof. intros He Hid. unfold update_row, on_queue, updateQueueEntry. by rewrite Hid, He, not_stopping. Qed.

Lemma mutate_run id f e w :
  find_row id (sw_queue w) = Some e -> qe_id (f e) = id ->
  mutate env id f w = (Ok (Some (revised f e)), with_row id (revised f e) w).
Proof.
  intros He Hid. unfold mutate, get_row, reads, mbind, M_bind, bind. rewrite He, (update_run id e (f e) w He Hid).
  fold (revised f e). rewrite find_with_row. by rewrite decide_True.
Qed.

Lemma mutate_none id f w : find_row id (sw_queue w) = None -> mutate env id f w = (Ok None, w).
Proof. intros He. unfold mutate, get_row, reads, mbind, M_bind, bind. by rewrite He. Qed.

Lemma release_ok parent status w :
  at_ (qe_id parent) (releasable status) w -> exists w', release env parent status w = (Ok tt, w') /\ full w'.
Proof.
  intros Hw. unfold release, mbind, M_bind, bind at 1.
  destruct (find_row (qe_id parent) (sw_queue w)) as [e|] eqn:E.
  2: { rewrite (mutate_none _ _ _ E). eexists. split; [reflexivity|by eapply at_absent]. }
  destruct (Hw _ _ E) as [He1 He2 He3]. apply at_self in He3 as [Hm HX].
  set (f := on_stage _). rewrite (mutate_run _ f e w E He1). set (w1 := with_row _ _ w).
  assert (E1 : find_row (qe_id (revised f e)) (sw_queue w1) = Some (revised f e)).
  { unfold w1. rewrite find_with_row. by rewrite decide_True. }
  assert (Hd : status = st_completed -> match qe_stageState (revised f e) with Some s => is_done s | None => True end).
  { intros _. cbn. destruct (qe_stageState e) as [s|]; [|done]. cbn. by apply (HX s eq_refl). }
  destruct (policy_commit status _ _ E1 Hd) as (answer & q2 & Hc & Hother & e2 & E2 & Hi2 & Hs2 & Hp2 & Hst2).
  assert (Hid : qe_id (revised f e) = qe_id parent) by done. rewrite Hid in *.
  assert (Hfull : queue_ok (R_full acc) q2).
  { intros i x Hx. destruct (decide (i = qe_id parent)) as [->|Hi].
    - rewrite E2 in Hx. injection Hx as <-. split; [done| |].
      + rewrite Hp2, Hst2. cbn. intros Hpr. apply He2. by destruct (qe_stageState e).
      + rewrite Hs2, Hst2. unfold R_full. cbn. destruct (qe_stageState e) as [s|]; [|by repeat split]. cbn.
        apply released_full; [apply Hm|by apply HX].
    - rewrite Hother in Hx by done. unfold w1 in Hx. rewrite find_with_row, decide_False in Hx by done.
      destruct (Hw i x Hx) as [H1 H2 H3]. split; [done|done|]. by eapply at_other. }
  unfold stage_commit, on_queue, bind. rewrite Hc. case_bool_decide; eexists; (split; [reflexivity|]); exact Hfull.
Qed.

(** ** Effects that leave the task open *)

Definition Apply : Type := string -> StageEvent -> (MeshTaskStageState -> MeshTaskStageState) -> M unit.

(** The reducer driven by an event that is no decision keeps rows settled. *)
Definition apply_ok (ap : Apply) : Prop := forall id ev pre, is_decision ev = false -> core_kept pre -> keeps full (ap id ev pre).

Lemma keeps_update R entry :
  (present (qe_stageState entry) = true -> present (qe_stagePlan entry) = true) -> R (qe_id entry) (qe_status entry) (qe_stageState entry) ->
  keeps (rows_ok R) (update_row env entry).
Proof.
  intros Hp HR w Hw. destruct (find_row (qe_id entry) (sw_queue w)) as [e|] eqn:E.
  2: { unfold update_row, on_queue, updateQueueEntry. by rewrite E. }
  rewrite (update_run _ _ _ _ E eq_refl). cbn [snd]. intros i x. rewrite find_with_row. case_decide; [|apply Hw].
  intros [= <-]. subst i. by split.
Qed.

Lemma keeps_insert_review id parentId round target node workspace inputs :
  keeps full (on_queue (fun q => inr (tt, {| q with qs_rows := map_set id (review_row env id parentId round target node workspace inputs) (qs_rows q) |}))).
Proof.
  intros w Hw i x. unfold find_row. cbn. rewrite map_get_set. case_decide; [|apply Hw]. intros [= <-]. subst i. by repeat split.
Qed.

Lemma has_baseline_core f ws id : core_kept (fun s => has_baseline f ws s id).
Proof. by split. Qed.

Lemma entry_on_stage f id e : core_kept f -> row_entry_ok (R_full acc) id e -> R_full acc id (qe_status e) (qe_stageState (on_stage f e)).
Proof.
  intros Hf [_ _ He]. cbn. destruct (qe_stageState e); [|done]. eapply row_full_core; [apply Hf|exact He].
Qed.

Lemma keeps_enqueue parentId round inputs fp target ws : keeps full (enqueueReviewChild env parentId round inputs fp target ws).
Proof.
  apply keeps_read. intros w Hw. destruct (find_row parentId (sw_queue w)) as [e|] eqn:E; [|done]. pose proof (Hw _ _ E) as He.
  destruct (qe_stageState e) as [s|] eqn:Es; [|done]. destruct (_ || _); [done|].
  clear E. revert w Hw. match goal with |- forall w, rows_ok _ w -> rows_ok _ (?m w).2 => change (keeps full m) end.
  keeps_tac; try apply keeps_insert_review. apply keeps_update.
  - cbn. rewrite Es. intros _. apply (eo_plan _ _ _ He). by rewrite Es.
  - pose proof (entry_on_stage _ _ _ (has_baseline_core fp ws (en_childId env)) He) as HR. by rewrite <- (eo_id _ _ _ He) in HR.
Qed.

Lemma keeps_create parent st round reuse : keeps full (create_review_child env parent st round reuse).
Proof.
  unfold create_review_child, get_row. keeps_tac; try apply keeps_enqueue; try by apply keeps_writes.
  all: apply full_on_stage; intros s; case_bool_decide; [by split|apply has_baseline_core].
Qed.

Lemma keeps_self_check ap parent st : apply_ok ap -> keeps full (run_self_check env ap parent st).
Proof. intros Ha. unfold run_self_check. keeps_tac. Qed.

Lemma failed_quiet R ap id effect detail : is_create effect = false -> keeps (rows_ok R) (effect_failed env ap id effect detail).
Proof.
  intros Hc. unfold effect_failed. apply keeps_bind; [apply keeps_reads|]. intros streaks. destruct (record_failure _ _ _ _ _ _).
  keeps_step; [by apply keeps_writes|]. rewrite Hc. cbn [andb]. keeps_tac.
Qed.

Lemma failed_full ap id effect detail : apply_ok ap -> keeps full (effect_failed env ap id effect detail).
Proof.
  intros Ha. unfold effect_failed. apply keeps_bind; [apply keeps_reads|]. intros streaks. destruct (record_failure _ _ _ _ _ _).
  keeps_step; [by apply keeps_writes|]. keeps_tac; by apply Ha.
Qed.

(** ** Running what a reduction asks for *)

Lemma at_open p (X : MeshTaskStageState -> Prop) w : (forall s, X s -> ~ is_done s) -> at_ p X w -> full w.
Proof.
  intros HX Hw i e He. destruct (Hw i e He) as [H1 H2 H3]. split; [done|done|]. unfold R_full. destruct (decide (i = p)) as [->|Hi].
  - apply at_self in H3 as [Hm Hs]. destruct (qe_stageState e) as [s|]; [|by repeat split]. apply open_full; [done|]. by apply HX, Hs.
  - by eapply at_other.
Qed.

Lemma at_weaken p (X Y : MeshTaskStageState -> Prop) w : (forall s, X s -> Y s) -> at_ p X w -> at_ p Y w.
Proof. intros H. apply queue_weaken. intros i s st. unfold R_at. case_decide; [|done]. intros [Hm HX]. split; [done|]. intros x Hx. by apply H, HX. Qed.

Lemma revision_core m : core_kept (fun s => {| s with ss_originalMessage := Some m |}).
Proof. by split. Qed.

(** A revision puts an open task back to the queue. *)
Lemma revision_keeps p f :
  keeps_identity f -> (forall e s, qe_stageState e = Some s -> exists s', qe_stageState (f e) = Some s' /\ same_core s s') ->
  (forall e, qe_stageState e = None -> qe_stageState (f e) = None) -> (forall e, qe_status (f e) = qe_status e \/ qe_status (f e) = st_pending) ->
  keeps (at_ p (fun s => ~ is_done s)) (mutate env p f).
Proof.
  intros Hi Hs Hn Hst. apply keeps_mutate; [done|]. intros e [_ _ He]. unfold R_at in *. rewrite decide_True in * by done.
  destruct He as [Hm HX]. destruct (qe_stageState e) as [s|] eqn:Es.
  2: { by rewrite (Hn e Es). }
  destruct (Hs e s Es) as (s' & -> & Hc). split.
  - destruct (Hst e) as [-> | ->]; [by eapply row_mid_core|]. split; [|done]. eapply state_ok_core; [done|]. apply Hm.
  - intros x [= <-]. unfold is_done. rewrite (sc_phase _ _ Hc). by apply HX.
Qed.

Lemma keeps_revision parent st reason : keeps (at_ (qe_id parent) (fun s => ~ is_done s)) (send_revision env parent st reason).
Proof.
  unfold send_revision. keeps_tac; apply revision_keeps; try done.
  - intros e. cbn. by destruct (qe_stageState e).
  - intros e s Es. cbn. rewrite Es. eexists. split; [reflexivity|]. apply revision_core.
  - intros e Es. cbn. by rewrite Es.
  - by left.
  - intros e. destruct (qe_stageState e) eqn:Es; cbn; by rewrite ?Es.
  - intros e s Es. rewrite Es. cbn. rewrite Es. eexists. split; [reflexivity|]. apply revision_core.
  - intros e Es. by rewrite Es.
  - intros e. destruct (present (qe_stageState e)); [by right|by left].
Qed.

Lemma at_stateless p X w :
  match find_row p (sw_queue w) with Some e => qe_stageState e = None | None => True end -> at_ p X w -> full w.
Proof.
  intros Hn Hw i e Hi. destruct (Hw i e Hi) as [H1 H2 H3]. split; [done|done|]. destruct (decide (i = p)) as [->|Hp]; [|by eapply at_other].
  rewrite Hi in Hn. rewrite Hn. by repeat split.
Qed.

Definition leaves_open (effect : StageEffect) : bool :=
  match effect with Ef_run_self_check | Ef_create_review_child _ _ => true | _ => false end.

Lemma run_open_effects ap p effects : apply_ok ap -> forallb leaves_open effects = true -> keeps full (run_effects_with env ap p effects).
Proof.
  intros Ha. induction effects as [|effect effects IH]; cbn [run_effects_with forallb]; [intros _; apply keeps_ret|].
  intros [He Hes]%andb_true_iff. unfold get_row. keeps_tac.
  - destruct effect; try done; cbn; [by apply keeps_self_check|apply keeps_create].
  - by apply failed_full.
Qed.

(** A task that is released is settled afterwards. *)
Lemma run_release ap p status effect w :
  effect = Ef_release_completed /\ status = st_completed \/ (exists r, effect = Ef_release_blocked r) /\ status = st_blocked ->
  at_ p (releasable status) w -> full (run_effects_with env ap p [effect] w).2.
Proof.
  intros He Hw. cbn [run_effects_with]. unfold get_row, reads, mbind, M_bind, bind at 1.
  destruct (find_row p (sw_queue w)) as [parent|] eqn:E; [|by eapply at_absent].
  destruct (Hw _ _ E) as [Hid Hpl HR].
  destruct (qe_stageState parent) as [st|] eqn:Es.
  2: { assert (full w) by (eapply at_stateless; [|exact Hw]; by rewrite E). by destruct (qe_stagePlan parent). }
  destruct (qe_stagePlan parent) as [plan|]; [|by specialize (Hpl eq_refl)]. rewrite <- Hid in Hw.
  destruct (release_ok parent status w Hw) as (w' & Hrel & Hf).
  assert (Hrun : run_effect env ap parent st effect w = (Ok tt, w')).
  { destruct He as [[-> ->]|[[r ->] ->]]; exact Hrel. }
  unfold catch, bind. rewrite Hrun. cbn. exact Hf.
Qed.

(** Without a row or a stage state nothing is run. *)
Lemma run_absent ap p effects w :
  match find_row p (sw_queue w) with Some e => qe_stageState e = None | None => True end -> (run_effects_with env ap p effects w).2 = w.
Proof.
  intros H. destruct effects; [done|]. cbn [run_effects_with]. unfold get_row, reads, mbind, M_bind, bind.
  destruct (find_row p (sw_queue w)) as [e|]; [|done]. rewrite H. by destruct (qe_stagePlan e).
Qed.

(** The first effect of a list, when its task has a stage. *)
Lemma run_cons ap p effect effects w :
  (run_effects_with env ap p (effect :: effects) w).2
  = match find_row p (sw_queue w) with
    | Some parent => match qe_stagePlan parent, qe_stageState parent with
                     | Some _, Some st =>
                         match catch (run_effect env ap parent st effect ;; clear_streaks p (Some (effect_kind effect))) (effect_failed env ap p effect) w with
                         | (Ok _, w) => (run_effects_with env ap p effects w).2
                         | (_, w) => w
                         end
                     | _, _ => w
                     end
    | None => w
    end.
Proof.
  cbn [run_effects_with]. unfold get_row, reads, mbind, M_bind. unfold bind at 1. destruct (find_row p (sw_queue w)) as [parent|]; [|done].
  destruct (qe_stagePlan parent), (qe_stageState parent); try done. unfold bind at 1.
  by destruct (catch _ _ w) as [[]].
Qed.

(** An effect that is not a review is run or given up on, and the next follows. *)
Lemma quiet_runs (P : StageWorld -> Prop) ap p parent st effect w :
  is_create effect = false -> answers (run_effect env ap parent st effect) -> keeps P (run_effect env ap parent st effect) ->
  (forall detail, keeps P (effect_failed env ap p effect detail)) -> (forall kind, keeps P (clear_streaks p kind)) -> P w ->
  exists w', catch (run_effect env ap parent st effect ;; clear_streaks p (Some (effect_kind effect))) (effect_failed env ap p effect) w = (Ok tt, w')
    /\ P w'.
Proof.
  intros Hc Ha Hk Hf Hs Hw. specialize (Ha w). specialize (Hk w Hw). unfold catch, mbind, M_bind, bind.
  destruct (run_effect env ap parent st effect w) as [[[]|m|] w1]; [| |done].
  - eexists. split; [reflexivity|]. by apply Hs.
  - specialize (Hf m w1 Hk). revert Hf. unfold effect_failed, mbind, M_bind, bind, reads. destruct (record_failure _ _ _ _ _ _) as [v sk].
    rewrite Hc. cbn [andb]. destruct (_ && _); intros Hf; eexists; (split; [reflexivity|exact Hf]).
Qed.

Lemma run_quiet (P : StageWorld -> Prop) ap p effect w :
  is_create effect = false -> (forall parent st, answers (run_effect env ap parent st effect)) ->
  (forall parent st, qe_id parent = p -> keeps P (run_effect env ap parent st effect)) ->
  (forall detail, keeps P (effect_failed env ap p effect detail)) -> (forall kind, keeps P (clear_streaks p kind)) ->
  (forall e, find_row p (sw_queue w) = Some e -> qe_id e = p) ->
  P w -> P (run_effects_with env ap p [effect] w).2.
Proof.
  intros Hc Ha Hk Hf Hs Hid Hw. rewrite run_cons. destruct (find_row p (sw_queue w)) as [parent|]; [|done].
  destruct (qe_stagePlan parent), (qe_stageState parent) as [st|]; try done.
  by destruct (quiet_runs P ap p parent st effect w Hc (Ha _ _) (Hk _ _ (Hid _ eq_refl)) Hf Hs Hw) as (w' & -> & Hw').
Qed.

Lemma run_asked ap p effects w :
  apply_ok ap -> at_ p (fun s => asked_of s effects) w -> full (run_effects_with env ap p effects w).2.
Proof.
  intros Ha Hw. destruct (find_row p (sw_queue w) ≫= qe_stageState) as [s|] eqn:Es.
  2: { assert (match find_row p (sw_queue w) with Some e => qe_stageState e = None | None => True end)
         by (destruct (find_row p (sw_queue w)); done).
       rewrite run_absent by done. by eapply at_stateless. }
  destruct (find_row p (sw_queue w)) as [parent|] eqn:E; [|done]. cbn in Es.
  destruct (Hw _ _ E) as [Hid Hpl HR]. apply at_self in HR as [_ HX]. specialize (HX s Es).
  inversion HX as [Hd Heq|Hd Heq|r u Hd Heq|r n Hd Heq|Hd Hr Heq|r Hd Hr Heq]; subst effects.
  - eapply at_open; [|exact Hw]. intros x Hx. by inversion Hx.
  - apply run_open_effects; [done|done|]. eapply at_open; [|exact Hw]. intros x Hx. by inversion Hx.
  - apply run_open_effects; [done|done|]. eapply at_open; [|exact Hw]. intros x Hx. by inversion Hx.
  - apply (at_open p (fun s => ~ is_done s)); [done|]. apply run_quiet; [done|..].
    + intros. apply answers_revision.
    + intros parent' st <-. apply keeps_revision.
    + intros. by apply failed_quiet.
    + intros. apply keeps_clear_streaks.
    + intros e Ee. rewrite E in Ee. by injection Ee as <-.
    + eapply at_weaken; [|exact Hw]. intros x Hx. by inversion Hx.
  - apply (run_release ap p st_completed); [by left|]. eapply at_weaken; [|exact Hw]. intros x Hx. inversion Hx; subst. split; [done|by left].
  - rewrite run_cons, E, Es. destruct (qe_stagePlan parent) as [plan|]; [|by rewrite Es in Hpl; specialize (Hpl eq_refl)].
    destruct (quiet_runs (rows_ok (R_at acc p (releasable st_blocked))) ap p parent s Ef_cancel_review_children w) as (w' & -> & Hw').
    + done.
    + apply answers_cancel_children.
    + apply keeps_cancel_children, at_cancellable.
    + intros detail. by apply failed_quiet.
    + intros. apply keeps_clear_streaks.
    + eapply at_weaken; [|exact Hw]. intros x Hx. inversion Hx; subst. split; [done|by right].
    + apply (run_release ap p st_blocked); [right; split; [by eexists|done]|done].
Qed.

(** ** Applying an event *)

(** A settled task, or a blocked one that the coordinator decides on. *)
Definition R_before (p : string) (ev : StageEvent) : RowProp := fun id status st =>
  if decide (id = p)
  then row_full (acc id) status st
       \/ is_decision ev = true /\ row_mid (acc id) status st /\ exists s, st = Some s /\ is_done s /\ has_reason s
  else row_full (acc id) status st.

Lemma decision_applies plan s ev : is_decision ev = true -> is_done s -> has_reason s -> exists r, reduceStage plan s ev = Some r.
Proof.
  unfold has_reason. intros He Hd Hr. unfold reduceStage. rewrite bool_decide_true by done. destruct ev; try done; cbn; rewrite Hr; cbn; eauto.
Qed.

Lemma before_mid p ev s st : R_before p ev p s st -> row_mid (acc p) s st.
Proof. unfold R_before. rewrite decide_True by done. intros [[H _]|(_ & H & _)]; done. Qed.

Lemma before_other p ev i s st : i <> p -> R_before p ev i s st -> R_full acc i s st.
Proof. unfold R_before. by case_decide. Qed.

Lemma reduce_row_some ev pre e plan s r :
  qe_stagePlan e = Some plan -> qe_stageState e = Some s -> reduceStage plan s ev = Some r ->
  reduce_row ev pre e = ({| e with qe_stageState := Some (pre (sr_state r)) |}, sr_effects r).
Proof. intros Hp Hs Hr. unfold reduce_row. by rewrite Hs, Hp, Hr. Qed.

Lemma reduce_row_none ev pre e :
  match qe_stagePlan e, qe_stageState e with Some plan, Some s => reduceStage plan s ev = None | _, _ => True end ->
  reduce_row ev pre e = (e, []).
Proof. unfold reduce_row. destruct (qe_stagePlan e), (qe_stageState e); try done. by intros ->. Qed.

Lemma apply_with_ok run p ev pre w :
  (forall effects w, rows_ok (R_at acc p (fun s => asked_of s effects)) w -> full (run p effects w).2) ->
  core_kept pre -> rows_ok (R_before p ev) w -> full (apply_with env run p ev pre w).2.
Proof.
  intros Hrun Hpre Hw. unfold apply_with, get_row, reads, mbind, M_bind, bind at 1.
  destruct (find_row p (sw_queue w)) as [e|] eqn:E.
  2: { intros i x Hx. change (find_row i (sw_queue w) = Some x) in Hx. destruct (Hw i x Hx) as [H1 H2 H3]. split; [done|done|]. eapply before_other; [|exact H3]. intros ->. congruence. }
  destruct (Hw _ _ E) as [Hid Hpl HR]. pose proof (before_mid _ _ _ _ HR) as Hm.
  assert (Hsame : row_full (acc p) (qe_status e) (qe_stageState e) -> full (update_row env e w).2).
  { intros Hf. rewrite (update_run p e e w E Hid). cbn [snd]. intros i x. rewrite find_with_row. case_decide as Hi.
    - intros [= <-]. subst i. by split.
    - intros Hx. destruct (Hw i x Hx) as [H1 H2 H3]. split; [done|done|]. by eapply before_other. }
  destruct (match qe_stagePlan e, qe_stageState e with Some plan, Some s => reduceStage plan s ev | _, _ => None end) as [r|] eqn:Er.
  2: { rewrite reduce_row_none by (destruct (qe_stagePlan e), (qe_stageState e); done).
       assert (Hf : row_full (acc p) (qe_status e) (qe_stageState e)); [|specialize (Hsame Hf); unfold bind; by destruct (update_row env e w) as [[]]].
       unfold R_before in HR. rewrite decide_True in HR by done. destruct HR as [Hf|(Hdec & _ & s & Hs & Hd & Hb)]; [done|].
       rewrite Hs in Er, Hpl. destruct (qe_stagePlan e) as [plan|]; [|by specialize (Hpl eq_refl)].
       destruct (decision_applies plan s ev Hdec Hd Hb). congruence. }
  destruct (qe_stagePlan e) as [plan|] eqn:Epl; [|done]. destruct (qe_stageState e) as [s|] eqn:Es; [|done].
  rewrite (reduce_row_some _ _ _ _ _ _ Epl Es Er).
  destruct Hm as [Hs Hcomp]. destruct (reduce_ok (acc p) plan s ev r Hs Er) as [Hs' Hask].
  set (e' := {| e with qe_stageState := Some (pre (sr_state r)) |}). unfold bind. rewrite (update_run p e e' w E Hid). set (w' := with_row _ _ w).
  assert (Hw' : rows_ok (R_at acc p (fun s => asked_of s (sr_effects r))) w').
  { intros i x. unfold w'. rewrite find_with_row. unfold R_at. case_decide as Hi.
    - intros [= <-]. subst i. split; [done|by rewrite Epl|]. rewrite decide_True by done. cbn. split.
      + split; [by eapply state_ok_core|]. intros Hst. exfalso. destruct (Hcomp Hst) as (Hd & _ & Hn).
        rewrite (completed_stays plan s ev Hd Hn) in Er. done.
      + intros x [= <-]. by eapply asked_core.
    - intros Hx. destruct (Hw i x Hx) as [H1 H2 H3]. split; [done|done|]. rewrite decide_False by done. by eapply before_other. }
  destruct (sr_effects r) eqn:Ee; [|by apply Hrun]. eapply at_open; [|exact Hw']. intros x Hx. by inversion Hx.
Qed.

Lemma before_full p ev w : full w -> rows_ok (R_before p ev) w.
Proof. apply queue_weaken. intros i s st H. unfold R_before. case_decide; [by left|done]. Qed.

Lemma apply_fuel_ok n : apply_ok (apply_fuel env n).
Proof.
  induction n as [|n IH]; intros id ev pre Hev Hpre w Hw; [done|]. cbn [apply_fuel]. apply apply_with_ok; [|done|by apply before_full].
  intros effects w'. by apply run_asked.
Qed.

Lemma apply_decision p ev pre w : core_kept pre -> rows_ok (R_before p ev) w -> full (apply env p ev pre w).2.
Proof.
  intros Hpre Hw. apply (apply_with_ok (run_effects_with env (apply_fuel env 3))); [|done|done].
  intros effects w'. apply run_asked, (apply_fuel_ok 3).
Qed.

Lemma keeps_apply id ev pre : core_kept pre -> keeps full (apply env id ev pre).
Proof. intros Hpre w Hw. apply apply_decision; [done|by apply before_full]. Qed.

Lemma keeps_runEffects id effects : forallb leaves_open effects = true -> keeps full (runEffects env id effects).
Proof. apply run_open_effects, apply_fuel_ok. Qed.
Hint Resolve keeps_apply keeps_runEffects : keeps.
End Safety.
