(* ===== verification/StageReach.v ===== *)
(** * Reachable queues of staged tasks

    The entry points of the review pipeline and everything else that changes rows,
    as steps; what holds of the rows of every queue they reach. *)

From stdpp Require Import relations.
From S2P Require Import Prelude KeyedDoc StageTypes StagePipeline StageRows StageRuntime StageTheorems StageInv StageAnswers StageSafety.

#[local] Open Scope string_scope.
#[local] Open Scope Z_scope.
#[local] Existing Instance M_bind.

Section Entry.
Variable acc : string -> Prop.
Variable env : StageEnv.
Hypothesis not_stopping : forall id, en_stopping env id = false.

Notation full := (rows_ok (R_full acc)).

#[local] Hint Extern 1 (keeps _ (apply _ _ _ _)) => (apply keeps_apply; [exact not_stopping|]) : keeps.
#[local] Hint Extern 1 (keeps _ (runEffects _ _ _)) => (apply keeps_runEffects; [exact not_stopping|reflexivity]) : keeps.
#[local] Hint Extern 1 (core_kept _) => first [apply id_core | apply adopt_base_core | apply push_verdict_core] : keeps.
#[local] Hint Extern 1 (keeps _ (get_row _)) => apply keeps_reads : keeps.

Lemma keeps_impl_completed id attempt : keeps full (onImplCompleted env id attempt).
Proof. unfold onImplCompleted. keeps_tac; by apply keeps_registerDiff. Qed.

Lemma keeps_child_terminal id : keeps full (onChildTerminal env id).
Proof. unfold onChildTerminal. keeps_tac. all: by apply keeps_writes. Qed.

Lemma keeps_child_claimed id : keeps full (onChildClaimed env id).
Proof. unfold onChildClaimed. keeps_tac. Qed.

#[local] Hint Resolve keeps_impl_completed keeps_child_terminal keeps_child_claimed : keeps.

Lemma keeps_resume id : keeps full (resumeOne env id).
Proof. unfold resumeOne. keeps_tac. Qed.

(** A review's independence is lowered in place. *)
Lemma keeps_promote e : keeps full (promote_one env e).
Proof.
  unfold promote_one. destruct (qe_stagePlan e); [|keeps_tac]. destruct (qe_stageState e) as [st|]; [|keeps_tac]. destruct (_ || _); [keeps_tac|].
  apply keeps_read. intros w Hw. destruct (last (ss_reviewTaskIds st) ≫= _) as [c|] eqn:E; [|done].
  assert (Hc : exists i, find_row i (sw_queue w) = Some c).
  { destruct (last (ss_reviewTaskIds st)) as [i|]; [|done]. cbn in E. case_bool_decide; [done|]. eauto. }
  destruct Hc as [i Hi]. destruct (Hw i c Hi) as [H1 H2 H3]. clear E Hi. revert w Hw.
  match goal with |- forall w, rows_ok _ w -> rows_ok _ (?m w).2 => change (keeps full m) end.
  keeps_tac. apply keeps_update; [done|done|]. cbn. by rewrite H1.
Qed.

Lemma keeps_tick_one e : keeps full (tick_one env e).
Proof. unfold tick_one, quietly. keeps_tac. apply keeps_resume. Qed.

Lemma keeps_tick : keeps full (tick env).
Proof. unfold tick. keeps_tac; apply keeps_for_rows; intros; [apply keeps_promote|apply keeps_tick_one]. Qed.

(** ** Decisions *)

Lemma status_identity status : keeps_identity (fun e => {| e with qe_status := status |}).
Proof. by split. Qed.

(** A row that is blocked again. *)
Lemma keeps_restore id : keeps full (mutate env id (fun e => {| e with qe_status := st_blocked |})).
Proof.
  apply keeps_mutate; [apply status_identity|]. intros e [_ _ He]. cbn. unfold R_full in *. destruct (qe_stageState e); [|done].
  destruct He as [[Hs _] [_ Hf]]. split; [by split|]. split; [by left|done].
Qed.

(** The coordinator accepts a blocked task. *)
Lemma accepted_settled id e s w :
  acc id -> full w -> find_row id (sw_queue w) = Some e -> qe_stageState e = Some s -> qe_status e = st_blocked -> has_reason s ->
  full ((mutate env id (on_stage undecided) ;; stage_commit env id st_completed src_queue_policy) w).2.
Proof.
  intros Ha Hw E Es Hst Hr. destruct (Hw _ _ E) as [Hid Hpl HR]. rewrite Es in HR. destruct HR as [[Hs _] [_ Hf]].
  pose proof (so_reason _ _ Hs Hr) as Hd. specialize (Hf Hd).
  unfold mbind, M_bind, bind. rewrite (mutate_run env not_stopping id (on_stage undecided) e w E Hid). set (w' := with_row _ _ w).
  assert (Hrow : row_full (acc id) st_blocked (Some (undecided s))).
  { split; [split; [by split; [|auto|]|done]|by split]. }
  assert (Hw' : full w').
  { intros i x. unfold w'. rewrite find_with_row. case_decide; [|apply Hw]. intros [= <-]. subst i. unfold revised. split; cbn; rewrite ?Es, ?Hst.
    - done.
    - intros _. apply Hpl. by rewrite Es.
    - exact Hrow. }
  unfold stage_commit, on_queue. destruct (commitTaskTerminal _ _ _ _ _ _) as [|[a q]] eqn:Ec; [done|]. cbn.
  eapply commit_ok; [exact Hw'| |exact Ec]. intros x Hx _ _ _. unfold w' in Hx. rewrite find_with_row, decide_True in Hx by done.
  injection Hx as <-. unfold R_full, revised. cbn. rewrite Es. cbn. split; [|by split]. split; [by split; [|auto|]|done].
Qed.

(** The coordinator reopens a blocked task. *)
Lemma reopened_settled id ev e s w :
  is_decision ev = true -> full w -> find_row id (sw_queue w) = Some e -> qe_stageState e = Some s -> has_reason s ->
  full ((mutate env id (fun e => {| e with qe_status := st_assigned |}) ;; apply env id ev Datatypes.id) w).2.
Proof.
  intros Hev Hw E Es Hr. destruct (Hw _ _ E) as [Hid Hpl HR]. rewrite Es in HR. destruct HR as [[Hs _] _].
  unfold mbind, M_bind, bind. set (f := fun e => {| e with qe_status := st_assigned |}).
  rewrite (mutate_run env not_stopping id f e w E Hid). apply apply_decision; [done|apply id_core|].
  intros i x. rewrite find_with_row. case_decide as Hi.
  - intros [= <-]. subst i. unfold revised, f. split; cbn; [done|done|]. unfold R_before. rewrite decide_True by done. right. split; [done|].
    rewrite Es. split; [by split|]. exists s. split; [done|]. split; [by apply (so_reason _ _ Hs)|done].
  - intros Hx. destruct (Hw i x Hx) as [H1 H2 H3]. split; [done|done|]. unfold R_before. by rewrite decide_False.
Qed.

Lemma keeps_decide id action note : (action = dec_accept -> acc id) -> keeps full (pipeline_decide env id action note).
Proof.
  intros Ha. unfold pipeline_decide. keeps_step; [|apply keeps_ret]. keeps_step; [apply keeps_reads|]. keeps_step; [|apply keeps_ret].
  destruct (negb (isStageParent m)); [apply keeps_ret|]. keeps_step; [keeps_tac; apply keeps_restore|]. apply keeps_read. intros w Hw. destruct (find_row id (sw_queue w)) as [e|] eqn:E; [|done]. destruct (_ || _) eqn:Eb; [done|].
  apply orb_false_iff in Eb as [Hst Hr]. breflect. unfold stage_is in Hr. destruct (qe_stageState e) as [s|] eqn:Es; [|done].
  destruct action.
  - pose proof (accepted_settled id e s w (Ha eq_refl) Hw E Es Hst Hr) as H. revert H. unfold mbind, M_bind, bind.
    destruct (mutate env id _ w) as [[x|msg|] w1]; [|done|done]. by destruct (stage_commit env id _ _ w1) as [[]].
  - pose proof (reopened_settled id (Ev_decide_revise_once (en_now env)) e s w eq_refl Hw E Es Hr) as H. revert H. unfold mbind, M_bind, bind.
    destruct (mutate env id _ w) as [[x|msg|] w1]; [|done|done]. by destruct (apply env id _ _ w1) as [[]].
  - pose proof (reopened_settled id (Ev_decide_rereview (en_now env)) e s w eq_refl Hw E Es Hr) as H. revert H. unfold mbind, M_bind, bind.
    destruct (mutate env id _ w) as [[x|msg|] w1]; [|done|done]. by destruct (apply env id _ _ w1) as [[]].
  - set (reason := _ ++ _). pose proof (keeps_cancel env (R_full acc) reason id (full_cancellable acc) w Hw) as H. revert H.
    unfold mbind, M_bind, bind. by destruct (cancel env reason id w) as [[]].
Qed.
End Entry.

(** ** Steps *)

(** A row of its own: a task with or without a review plan. *)
Definition new_row (id : string) (e : MeshWorkQueueEntry) : Prop :=
  qe_id e = id /\ qe_status e = st_pending
  /\ (qe_stageState e = None \/ present (qe_stagePlan e) = true /\ exists now, qe_stageState e = Some (initialStageState now)).

(** A worker takes a pending row. *)
Definition claims_row (e e' : MeshWorkQueueEntry) : Prop :=
  qe_status e = st_pending /\ qe_status e' = st_assigned /\ qe_id e' = qe_id e /\ qe_stagePlan e' = qe_stagePlan e
  /\ qe_stageState e' = qe_stageState e.

Definition not_cancelled (id : string) (w : StageWorld) : Prop :=
  forall e, find_row id (sw_queue w) = Some e -> qe_status e <> st_cancelled.

Section Steps.
(** The tasks the coordinator accepts. *)
Variable acc : string -> Prop.

(** Terminals of workers and of the turn ledger come for tasks that are not
    cancelled; no writer is stopping while the pipeline works. *)
Inductive stage_step (w : StageWorld) : StageWorld -> Prop :=
  | step_impl env id attempt : (forall i, en_stopping env i = false) -> stage_step w (onImplCompleted env id attempt w).2
  | step_child_terminal env id : (forall i, en_stopping env i = false) -> stage_step w (onChildTerminal env id w).2
  | step_child_claimed env id : (forall i, en_stopping env i = false) -> stage_step w (onChildClaimed env id w).2
  | step_tick env : (forall i, en_stopping env i = false) -> stage_step w (tick env w).2
  | step_decide env id action note :
      (forall i, en_stopping env i = false) -> (action = dec_accept -> acc id) -> stage_step w (pipeline_decide env id action note w).2
  | step_cancel env reason id : stage_step w (cancel env reason id w).2
  | step_commit stopping id status source attempt answer q :
      source <> src_queue_policy -> is_terminal_status status = true -> not_cancelled id w ->
      commitTaskTerminal stopping id status source attempt (sw_queue w) = inr (answer, q) -> stage_step w {| w with sw_queue := q |}
  | step_ledger stopping fenced id status attempt answer q :
      is_terminal_status status = true -> not_cancelled id w ->
      applyTaskTerminalInTxn stopping fenced id status attempt (sw_queue w) = inr (answer, q) -> stage_step w {| w with sw_queue := q |}
  | step_claim id e e' : find_row id (sw_queue w) = Some e -> claims_row e e' -> stage_step w (with_row id e' w)
  | step_enqueue id e : find_row id (sw_queue w) = None -> new_row id e -> stage_step w (with_row id e w)
  | step_elsewhere w' : sw_queue w' = sw_queue w -> stage_step w w'.

Notation full := (rows_ok (R_full acc)).

(** A terminal from outside the pipeline leaves rows settled. *)
Lemma outside_ok id status e :
  is_terminal_status status = true -> row_entry_ok (R_full acc) id e -> qe_status e <> st_cancelled -> isStageBlockLocked e status = false ->
  shouldHoldStageTerminal e status = false -> R_full acc id status (qe_stageState e).
Proof.
  intros Ht [_ Hpl HR] Hc Hl Hh. unfold R_full in *. destruct (qe_stageState e) as [s|] eqn:Es; [|by repeat split].
  destruct HR as [[Hs Hk] [Hb Hd]]. specialize (Hpl eq_refl).
  unfold isStageBlockLocked, shouldHoldStageTerminal, isStageParent, stage_is in *. rewrite Es, Hpl in Hl, Hh. cbn in Hl, Hh.
  assert (Hrel : is_released s -> has_reason s -> status = st_blocked \/ status = st_cancelled).
  { intros Hr Hrs. destruct (Hb Hr Hrs) as [Hst|Hst]; [|done]. unfold is_released, has_reason in *. rewrite Hst, Hr, Hrs in Hl.
    rewrite (bool_decide_true (st_blocked = st_blocked)), !andb_true_r in Hl by done. apply bool_decide_eq_false in Hl.
    destruct status; try done; [exfalso; apply Hl; by left|exfalso; apply Hl; right; by left|by left|by right]. }
  split; [split; [done|]|by split]. intros ->. rewrite bool_decide_true in Hh by done. cbn in Hh.
  assert (Hdone : is_done s).
  { destruct (opt_true (ss_released s)) eqn:Er; [by apply (so_released _ _ Hs)|]. cbn in Hh. by apply negb_false_iff, bool_decide_eq_true in Hh. }
  split; [done|]. split; [by apply Hd|]. intros Hrs. by destruct (Hrel (Hd Hdone) Hrs).
Qed.

Lemma step_ok w w' : full w -> stage_step w w' -> full w'.
Proof.
  intros Hw Hs. destruct Hs as [| | | | | | |stopping fenced id status attempt answer q Ht Hn Hq| | |].
  - by apply keeps_impl_completed.
  - by apply keeps_child_terminal.
  - by apply keeps_child_claimed.
  - by apply keeps_tick.
  - by apply keeps_decide.
  - by apply keeps_cancel; [apply full_cancellable|].
  - eapply commit_ok; [exact Hw| |eassumption]. intros e He Hok Hl Hh. apply outside_ok; [done|done|eauto| |done].
    by rewrite bool_decide_false in Hl.
  - unfold applyTaskTerminalInTxn in Hq. destruct (find_row id (sw_queue w)) as [e|] eqn:E; [|by injection Hq as <- <-].
    destruct (_ || isStageBlockLocked e status) eqn:El in Hq; [by injection Hq as <- <-|]. apply orb_false_iff in El as [_ El].
    destruct (shouldHoldStageTerminal e status) eqn:Eh; [injection Hq as <- <-; by destruct (isStageImplReport e)|].
    destruct fenced; [by injection Hq as <- <-|]. destruct (applyTaskTerminalSteps _ _ _ _) as [|q1] eqn:Eu; [done|]. injection Hq as <- <-.
    pose proof (Hw id e E) as He. pose proof He as [He1 He2 He3]. unfold applyTaskTerminalSteps in Eu.
    assert (E' : find_row id (persistOutputVersion (qe_id e) status (sw_queue w)) = Some e) by done.
    refine (row_update_ok (R_full acc) (R_full acc) _ id e _ _ q1 _ E' _ _ _ _ Eu); try done. apply (outside_ok id status e); try done. by apply Hn.
  - destruct H0 as (H1 & H2 & H3 & H4 & H5). destruct (Hw id e H) as [He1 He2 He3]. intros i x. rewrite find_with_row. case_decide; [|apply Hw].
    intros [= <-]. subst i. split; [congruence|by rewrite H4, H5|]. rewrite H2, H5. unfold R_full in *. rewrite H1 in He3.
    destruct (qe_stageState e) as [s|]; [|done]. destruct He3 as [[Ha Hb] [Hc Hd]]. split; [by split|]. split; [|done].
    intros Hr Hrs. by destruct (Hc Hr Hrs).
  - destruct H0 as (H1 & H2 & H3). intros i x. rewrite find_with_row. case_decide; [|apply Hw]. intros [= <-]. subst i.
    destruct H3 as [H3|[H3 [now H4]]]; split; rewrite ?H2, ?H3, ?H4; try done; by repeat split.
  - unfold rows_ok. by rewrite H.
Qed.

Definition empty_world : StageWorld := {|
  sw_queue := {| qs_rows := []; qs_outputs := []; qs_hooks := [] |}; sw_stash := []; sw_streaks := []; sw_refusals := []; sw_workspaces := []; sw_calls := [] |}.

Lemma reachable_settled w : rtc stage_step empty_world w -> full w.
Proof.
  intros H. assert (H0 : full empty_world) by by intros i e. induction H as [|x y z Hs _ IH]; [done|]. apply IH. by eapply step_ok.
Qed.
End Steps.


