(* ===== verification/StageScenario.v ===== *)
(** * Runs of the review pipeline

    A task that is worked on, checked, reviewed and completed; and runs in which
    the pipeline does not do what its comments say. *)

From stdpp Require Import relations.
From S2P Require Import Prelude KeyedDoc StageTypes StagePipeline StageRows StageRuntime StageTheorems StageInv StageSafety StageReach.

#[local] Open Scope string_scope.
#[local] Open Scope Z_scope.

(** ** Findings of a rejection *)

(** A rejection records its findings, but the ids that the next reports must answer
    stay those of the round before, also when the coordinator sends the task back. *)
Theorem rejected_ids_stale plan s child report sid used at_ :
  ss_phase s = reviewing -> rv_verdict report = reject_approach ->
  exists r r', reduceStage plan s (Ev_review_verdict child report sid used at_) = Some r
    /\ reduceStage plan (sr_state r) (Ev_decide_revise_once at_) = Some r'
    /\ ss_openFindings (sr_state r') = Some (map slim (blocking_findings (rv_findings report)))
    /\ ss_openFindingIds (sr_state r') = ss_openFindingIds s.
Proof.
  intros Hp Hv. unfold reduceStage, reduce_review_verdict, in_phase. rewrite Hp, Hv. cbn. eexists. eexists. split; [reflexivity|].
  split; [reflexivity|]. done.
Qed.

Definition one_finding : MeshReviewFinding := {|
  fd_id := "F1"; fd_severity := sev_major; fd_category := cat_correctness; fd_file := None; fd_line := None; fd_claim := "wrong result";
  fd_evidence := "see the test"; fd_suggestedFix := None |}.
Definition report_of (v : MeshReviewVerdict) (findings : list MeshReviewFinding) : MeshReviewReport := {|
  rv_verdict := v; rv_findings := findings; rv_priorFindings := None; rv_checked := ["diff"]; rv_notChecked := ["tests"]; rv_testsRun := None |}.

(** A second review that the coordinator asks for counts as a revision: with one
    revision planned, the task is blocked as unresolved by the first request for
    changes, and was never sent back. *)
Theorem rereview_uses_revision now :
  let plan := {| sp_maxRevisions := 1; sp_independence := ind_fresh_session_ok |} in
  let '(steps, s) := stage_run plan (initialStageState now)
    [Ev_impl_completed None (Some "h") true now; Ev_self_check_done sc_passed now; Ev_reviewer_integrity_unverifiable "r1" now;
     Ev_decide_rereview now; Ev_review_verdict "r2" (report_of changes_requested [one_finding]) None None now] in
  length steps = 5%nat /\ sent_back steps = 0 /\ ss_phase s = phase_done /\ ss_blockedReason s = Some br_review_unresolved.
Proof. vm_compute. repeat split. Qed.

(** ** A task that is reviewed and completed *)

Definition env0 : StageEnv := {|
  en_now := "now"; en_nowMs := 0; en_parse := fun _ => Some 0; en_ceilingMs := 1000; en_workspaceOf := fun _ => Some "/work";
  en_baseSha := fun _ => Some "base"; en_headSha := fun _ => Some "head"; en_isClean := fun _ => true; en_diff := fun _ _ _ => true;
  en_fingerprint := fun _ _ => Some "fp2"; en_selfCheck := Some sc_passed; en_register := fun kind => Some kind; en_prepare := Some "/review";
  en_sessionAlive := fun _ => false; en_reviewInputValid := true; en_attest := inr []; en_enqueue := None; en_childId := "r1";
  en_memo := "memo"; en_message := "review this"; en_report := "report"; en_stopping := fun _ => false; en_open_attempt := fun _ => false |}.

Definition task_row (id : string) : MeshWorkQueueEntry := {|
  qe_id := id; qe_status := st_pending; qe_message := "do it"; qe_stagePlan := Some defaultStagePlan;
  qe_stageState := Some (initialStageState "start"); qe_origin := None; qe_parentTaskId := None; qe_stageRole := None; qe_stageRound := None;
  qe_independence := None; qe_reviewerWorkspace := None; qe_light := false; qe_assignedNodeId := None; qe_assignedSessionId := None;
  qe_assignedProviderType := None; qe_targetNodeId := None; qe_targetSessionId := None; qe_attemptId := None; qe_dispatchNonce := 0;
  qe_cancelReason := None; qe_inputArtifactIds := []; qe_revision := 0 |}.

Definition taken (e : MeshWorkQueueEntry) : MeshWorkQueueEntry :=
  {| e with qe_status := st_assigned; qe_assignedSessionId := Some "session"; qe_assignedNodeId := Some "node" |}.

Definition get (id : string) (w : StageWorld) : MeshWorkQueueEntry := nullish (find_row id (sw_queue w)) (task_row id).

Definition with_report (id : string) (report : StashedStageReport) (w : StageWorld) : StageWorld :=
  {| w with sw_stash := stashStageReport id report (sw_stash w) |}.

Lemma with_report_queue id report w : sw_queue (with_report id report w) = sw_queue w.
Proof. reflexivity. Qed.

Definition committed (id : string) (w : StageWorld) : StageWorld :=
  match commitTaskTerminal (fun _ => false) id st_completed src_worker_tool_report None (sw_queue w) with
  | inr (_, q) => {| w with sw_queue := q |}
  | inl _ => w
  end.

Definition w_queued : StageWorld := with_row "t" (task_row "t") empty_world.
Definition w_working : StageWorld := with_row "t" (taken (task_row "t")) w_queued.
Definition w_reviewing : StageWorld := (onImplCompleted env0 "t" (Some "a1") w_working).2.
Definition w_claimed : StageWorld := with_row "r1" (taken (get "r1" w_reviewing)) w_reviewing.
Definition w_started : StageWorld := (onChildClaimed env0 "r1" w_claimed).2.
Definition w_reported : StageWorld :=
  with_report "r1" {| rs_summary := "fine"; rs_review := Some (report_of approve []); rs_artifactIds := None |} w_started.
Definition w_committed : StageWorld := committed "r1" w_reported.
Definition w_approved : StageWorld := (onChildTerminal env0 "r1" w_committed).2.

Example reviewed_run :
  qe_status (get "t" w_reviewing) = st_assigned /\ ss_reviewTaskIds <$> qe_stageState (get "t" w_reviewing) = Some ["r1"]
  /\ ss_phase <$> qe_stageState (get "t" w_started) = Some reviewing
  /\ qe_status (get "t" w_approved) = st_completed /\ ss_round <$> qe_stageState (get "t" w_approved) = Some 1.
Proof. vm_compute. repeat split. Qed.

(** The steps of that run. *)
Lemma working_reachable (acc : string -> Prop) : rtc (stage_step acc) empty_world w_working.
Proof.
  apply (rtc_l _ _ w_queued); [|apply (rtc_l _ _ w_working); [|apply rtc_refl]].
  - apply (step_enqueue _ _ "t" (task_row "t")); [done|]. split; [done|]. split; [done|]. right. split; [done|]. by exists "start".
  - by apply (step_claim _ w_queued "t" (task_row "t") (taken (task_row "t"))).
Qed.

Lemma committed_step acc id w : not_cancelled id w -> stage_step acc w (committed id w).
Proof.
  intros Hn. unfold committed. destruct (commitTaskTerminal _ _ _ _ _ _) as [|[a q]] eqn:E; [by apply step_elsewhere|].
  by apply (step_commit _ w (fun _ => false) id st_completed src_worker_tool_report None a q).
Qed.

Lemma approved_reachable (acc : string -> Prop) : rtc (stage_step acc) empty_world w_approved.
Proof.
  apply (transitivity (y := w_working)); [apply working_reachable|].
  apply (rtc_l _ _ w_reviewing); [exact (step_impl _ w_working env0 "t" (Some "a1") (fun _ => eq_refl))|].
  apply (rtc_l _ _ w_claimed); [|apply (rtc_l _ _ w_started); [exact (step_child_claimed _ w_claimed env0 "r1" (fun _ => eq_refl))|]].
  { apply (step_claim _ w_reviewing "r1" (get "r1" w_reviewing)); vm_compute; [reflexivity|repeat split]. }
  apply (rtc_l _ _ w_reported); [unfold w_reported; apply step_elsewhere, with_report_queue|].
  apply (rtc_l _ _ w_committed); [|apply (rtc_l _ _ w_approved); [exact (step_child_terminal _ w_committed env0 "r1" (fun _ => eq_refl))|apply rtc_refl]].
  apply committed_step. intros e He. vm_compute in He. injection He as <-. discriminate.
Qed.


(** ** Blocks that do not hold *)

Definition late_env (stopping : bool) : StageEnv := {| env0 with en_nowMs := 2000; en_stopping := fun _ => stopping |}.
Definition w_ceiling (stopping : bool) : StageWorld := (tick (late_env stopping) w_working).2.

(** The turn ledger's terminal of the task's worker. *)
Definition ledger_completed (w : StageWorld) : StageWorld :=
  match applyTaskTerminalInTxn (fun _ => false) false "t" st_completed (Some "a1") (sw_queue w) with
  | inr (_, q) => {| w with sw_queue := q |}
  | inl _ => w
  end.

Lemma ceiling_reachable (acc : string -> Prop) : rtc (stage_step acc) empty_world (w_ceiling false).
Proof.
  apply (transitivity (y := w_working)); [apply working_reachable|].
  apply (rtc_l _ _ (w_ceiling false)); [exact (step_tick _ w_working (late_env false) (fun _ => eq_refl))|apply rtc_refl].
Qed.


(** While the worker of a task is being stopped, the ceiling announces the task as
    blocked and releases it, but its row stays assigned: the worker's late terminal
    completes it, which the lock on blocked rows would have refused. *)
Theorem refused_block_overwritten :
  qe_status (get "t" (w_ceiling true)) = st_assigned
  /\ Cl_notify "t" st_blocked "report" ∈ sw_calls (w_ceiling true)
  /\ qe_status (get "t" (ledger_completed (w_ceiling true))) = st_completed
  /\ ss_blockedReason <$> qe_stageState (get "t" (ledger_completed (w_ceiling true))) = Some (Some br_stage_pipeline_ceiling)
  /\ qe_status (get "t" (ledger_completed (w_ceiling false))) = st_blocked.
Proof. repeat split; try (vm_compute; reflexivity). apply list_elem_of_In. vm_compute. auto. Qed.

(** ** A failed reviewer *)

Definition busy_env : StageEnv := {| env0 with en_prepare := None; en_attest := inl "review_input_busy"; en_childId := "r2" |}.

(** The reviewer fails: its row is blocked. *)
Definition w_failed : StageWorld :=
  match commitTaskTerminal (fun _ => false) "r1" st_blocked src_worker_tool_report None (sw_queue w_started) with
  | inr (_, q) => {| w_started with sw_queue := q |} | inl _ => w_started end.
Definition w_busy : StageWorld := (onChildTerminal busy_env "r1" w_failed).2.

(** One reviewer failed and the next review has to wait for its input, which only
    delays it; but the sweep counts the failed reviewer again and gives up on the
    review: the task is blocked after one failure, not two. *)
Theorem failed_reviewer_counted_twice :
  ss_reviewerFailures <$> qe_stageState (get "t" w_busy) = Some (Some 1)
  /\ ss_reviewTaskIds <$> qe_stageState (get "t" w_busy) = Some ["r1"]
  /\ qe_status (get "t" w_busy) = st_assigned
  /\ qe_status (get "t" (tick busy_env w_busy).2) = st_blocked
  /\ ss_blockedReason <$> qe_stageState (get "t" (tick busy_env w_busy).2) = Some (Some br_review_unavailable)
  /\ ss_reviewTaskIds <$> qe_stageState (get "t" (tick busy_env w_busy).2) = Some ["r1"].
Proof. vm_compute. repeat split. Qed.

(** ** Witnesses *)

Lemma pipeline_ends_witness :
  let '(steps, s) := stage_run defaultStagePlan (initialStageState "now") [Ev_impl_completed None (Some "h") true "now"; Ev_self_check_done sc_passed "now"] in
  Z.of_nat (length steps) <= 42
  /\ (ss_phase s = phase_done
      \/ forall at_, exists r, reduceStage defaultStagePlan s (Ev_ceiling at_) = Some r /\ ss_phase (sr_state r) = phase_done
           /\ sr_effects r = [Ef_cancel_review_children; Ef_release_blocked br_stage_pipeline_ceiling]).
Proof. apply (pipeline_ends defaultStagePlan "now"); [discriminate|repeat constructor]. Defined.

Lemma revisions_bounded_witness :
  let '(steps, s) := stage_run defaultStagePlan (initialStageState "now")
    [Ev_impl_completed None (Some "h") true "now"; Ev_self_check_done sc_passed "now";
     Ev_review_verdict "r1" (report_of changes_requested [one_finding]) None None "now"] in
  sent_back steps <= 2 + granted steps /\ sent_back steps <= ss_round s.
Proof. apply (revisions_bounded defaultStagePlan "now"). discriminate. Defined.

Definition raw_report : DVal := D_obj [
  ("verdict", D_str "changes_requested");
  ("findings", D_arr [D_obj [("id", D_str "F1"); ("severity", D_str "major"); ("category", D_str "correctness");
                             ("claim", D_str "wrong result"); ("evidence", D_str "see the test")]]);
  ("checked", D_arr [D_str "diff"]); ("notChecked", D_arr [D_str "tests"])].
Definition first_round : ReviewValidationContext := {| vc_round := 1; vc_priorOpenBlockingIds := None |}.

Example raw_report_accepted : validateReviewReport raw_report first_round = inr (report_of changes_requested [one_finding]).
Proof. vm_compute. reflexivity. Qed.

Lemma accepted_report_witness : NoDup (map fd_id (rv_findings (report_of changes_requested [one_finding]))).
Proof. apply (accepted_report raw_report first_round). vm_compute. reflexivity. Defined.

Definition in_first_review : MeshTaskStageState := {| (initialStageState "now") with ss_phase := reviewing; ss_round := 1 |}.

Lemma verdict_decides_witness :
  exists r, reduceStage defaultStagePlan in_first_review
              (Ev_review_verdict "r1" (report_of changes_requested [one_finding]) None None "now") = Some r.
Proof.
  destruct (verdict_decides defaultStagePlan in_first_review "r1" raw_report first_round (report_of changes_requested [one_finding]) None None "now")
    as (r & Hr & _); [vm_compute; reflexivity|left; reflexivity|]. exists r. exact Hr.
Defined.

Lemma rejected_ids_stale_witness :
  exists r r', reduceStage defaultStagePlan in_first_review (Ev_review_verdict "r1" (report_of reject_approach [one_finding]) None None "now") = Some r
    /\ reduceStage defaultStagePlan (sr_state r) (Ev_decide_revise_once "now") = Some r' /\ ss_openFindingIds (sr_state r') = [].
Proof.
  destruct (rejected_ids_stale defaultStagePlan in_first_review "r1" (report_of reject_approach [one_finding]) None None "now" eq_refl eq_refl)
    as (r & r' & H1 & H2 & _ & H3). exists r, r'. split; [exact H1|]. split; [exact H2|exact H3].
Defined.
