(* ===== verification/TurnNotices.v ===== *)
(** * Notices of the coordinator

    [packages/daemon-core/src/mesh/turn-ledger/deliver.ts]: the producer API of
    notices that are not about a turn, and the ingestion of entries of other
    daemons; with the notice of the review pipeline ([stage-ports-default.ts]).

    The hash of a notice's content, the text written to a handoff topic and the
    ledger's answer to evidence are arguments.  Metadata are JSON values, times are integers and
    refs are well-formed. *)

From stdpp Require Import pretty.
From S2P Require Import Prelude TurnEvidence Vocabulary TurnPolicy TurnTypes EvidenceGuard DaemonId TurnStore TurnEffects TurnPublish StageTypes StagePipeline StageRows.

#[local] Open Scope string_scope.
#[local] Open Scope Z_scope.

(** ** Producers *)

Record CoordinatorNotice : Set := {
  cn_meshId : string; cn_event : string; cn_nodeLabel : option string; cn_nodeId : option string; cn_workspace : option string;
  cn_coordinatorMessage : option string; cn_metadataEvent : option (list (string * JValue));
  cn_targetCoordinatorDaemonId : option string; cn_targetCoordinatorSessionId : option string;
  cn_eventId : option string; cn_queuedAt : option Z; cn_worktreeHasQueuedTask : bool }.

Definition NOTICE_DEDUPE_BUCKET_MS : Z := 5 * 60 * 1000.

(** [str(value)]. *)
Definition notice_str (v : JValue) : option string :=
  match v with J_str s => if bool_decide (js_trim s = "") then None else Some (js_trim s) | _ => None end.

Definition metadata (notice : CoordinatorNotice) (key : string) : JValue := prop (nullish (cn_metadataEvent notice) []) key.

Definition isSelf (selfIds : list string) (daemonId : option string) : bool :=
  truthy_str daemonId && existsb (fun id => daemonIdsEquivalent (Some id) daemonId) selfIds.

Section Notifier.
(** The first 24 digits of the hash of what [defaultNoticeEventId] lists. *)
Variable content_hash : CoordinatorNotice -> string.

Definition defaultNoticeEventId (notice : CoordinatorNotice) (nowMs : Z) : string :=
  "notice:" ++ content_hash notice ++ ":" ++ pretty (nowMs / NOTICE_DEDUPE_BUCKET_MS).

Definition local_payload (notice : CoordinatorNotice) (at_ : Z) : list (string * JValue) :=
  (if_truthy "nodeLabel" (cn_nodeLabel notice) ++ if_truthy "nodeId" (cn_nodeId notice) ++ if_truthy "workspace" (cn_workspace notice)
   ++ if_truthy "coordinatorMessage" (cn_coordinatorMessage notice) ++ maybe "metadataEvent" J_obj (cn_metadataEvent notice)
   ++ (if cn_worktreeHasQueuedTask notice then [("worktreeHasQueuedTask", J_bool true)] else []) ++ [("queuedAt", j_int at_)])%list.

Definition notice_target (selfIds : list string) (notice : CoordinatorNotice) : option string :=
  if truthy_str (cn_targetCoordinatorDaemonId notice) && negb (isSelf selfIds (cn_targetCoordinatorDaemonId notice))
  then cn_targetCoordinatorDaemonId notice else None.

Definition mesh_notice (selfDaemonId : string) (selfIds : list string) (notice : CoordinatorNotice) (nowMs : Z) (ref : option SummaryRef)
    : MeshEventNotice :=
  let at_ := nullish (cn_queuedAt notice) nowMs in {|
  mn_meshId := cn_meshId notice; mn_event := cn_event notice; mn_payload := Some (J_obj (local_payload notice at_));
  mn_targetDaemonId := nullish (notice_target selfIds notice) selfDaemonId;
  mn_targetSessionId := (if truthy_str (cn_targetCoordinatorSessionId notice) then cn_targetCoordinatorSessionId notice else None);
  mn_taskId := notice_str (metadata notice "taskId");
  mn_eventId := Some (nullish (cn_eventId notice) (defaultNoticeEventId notice at_));
  mn_at := Some at_; mn_notify := None; mn_ref := ref; mn_attemptId := None |}.

(** The answer is [queued]: a new row.  For another daemon the row is written when
    the text's handoff [ref] is known, or without one; the answer comes before. *)
Definition notify_coordinator (selfDaemonId : string) (selfIds : list string) (uuid : string) (nowMs : Z) (ref : option SummaryRef)
    (notice : CoordinatorNotice) (db : Db) : bool * Db :=
  match notice_target selfIds notice with
  | None => notifyMeshEvent uuid nowMs (mesh_notice selfDaemonId selfIds notice nowMs None) db
  | Some _ => (true, (notifyMeshEvent uuid nowMs (mesh_notice selfDaemonId selfIds notice nowMs ref) db).2)
  end.
End Notifier.

(** ** Ingestion *)

Record DeliverCursorEntry : Set := {
  de_meshId : string; de_kind : string; de_writer : string; de_seq : Z; de_own : bool; de_payload : JValue; de_ref : option SummaryRef }.

Record TurnDeliverCounters : Set := { dc_ingested : Z; dc_released : Z; dc_relayed : Z }.

(** The kind that a value accepted by [isNotifyKind] spells. *)
Definition notify_kind (v : JValue) : option NotifyKind :=
  match v with J_str s => List.find (fun n => bool_decide (spelling n = s)) members | _ => None end.

Section Ingest.
(** [Ledger] is the ledger's state; [observe] answers whether the evidence was no
    duplicate; [release] drops the local reference to a committed attempt. *)
Context {Ledger : Type} (db_of : Ledger -> Db) (with_db : Db -> Ledger -> Ledger)
  (observe : JValue -> string -> Z -> Ledger -> bool * Ledger) (release : string -> JNumber -> Ledger -> Ledger).

Definition relayed_notice (selfDaemonId eventId : string) (o : list (string * JValue)) (n : NotifyKind) (entry : DeliverCursorEntry) : MeshEventNotice := {|
  mn_meshId := de_meshId entry; mn_event := "relayed";
  mn_payload := Some (J_obj [("relayedFrom", J_str (de_writer entry)); ("relayedSeq", j_int (de_seq entry))]);
  mn_targetDaemonId := selfDaemonId; mn_targetSessionId := notice_str (prop o "targetSessionId"); mn_taskId := notice_str (prop o "taskId");
  mn_eventId := Some (eventId ++ "#relay"); mn_at := match prop o "at" with J_num (N_int z) => Some z | _ => None end;
  mn_notify := Some n; mn_ref := de_ref entry; mn_attemptId := notice_str (prop o "attemptId") |}.

Definition ingest (selfDaemonId : string) (selfIds : list string) (uuid : string) (nowMs : Z) (entry : DeliverCursorEntry)
    (c : TurnDeliverCounters) (l : Ledger) : TurnDeliverCounters * Ledger :=
  match de_own entry, de_payload entry with
  | false, J_obj o =>
      if bool_decide (de_kind entry = "turn.evidence") then
        if negb (isSelf selfIds (notice_str (prop o "ownerDaemonId"))) || negb (isTurnEvidence (prop o "evidence")) then (c, l)
        else let '(fresh, l) := observe (prop o "evidence") (de_writer entry) (de_seq entry) l in
             (if fresh then {| c with dc_ingested := dc_ingested c + 1 |} else c, l)
      else if bool_decide (de_kind entry = "turn.committed") then
        match notice_str (prop o "attemptId"), prop o "generation" with
        | Some attemptId, J_num g => ({| c with dc_released := dc_released c + 1 |}, release attemptId g l)
        | _, _ => (c, l)
        end
      else if bool_decide (de_kind entry = "turn.notify") then
        if negb (isSelf selfIds (notice_str (prop o "targetDaemonId"))) then (c, l)
        else match notice_str (prop o "eventId"), notify_kind (prop o "notify") with
             | Some eventId, Some n =>
                 let '(inserted, db) := notifyMeshEvent uuid nowMs (relayed_notice selfDaemonId eventId o n entry) (db_of l) in
                 (if inserted then {| c with dc_relayed := dc_relayed c + 1 |} else c, with_db db l)
             | _, _ => (c, l)
             end
      else (c, l)
  | _, _ => (c, l)
  end.
End Ingest.

(** ** The notice of the review pipeline *)

Definition status_word (s : MeshTaskStatus) : string :=
  match s with
  | st_pending => "pending" | st_assigned => "assigned" | st_completed => "completed" | st_failed => "failed"
  | st_blocked => "blocked" | st_cancelled => "cancelled"
  end.

Definition notice_newline : string := String (Ascii.ascii_of_nat 10) EmptyString.

(** [notifyParentTerminal]. *)
Definition stage_notice (meshId : string) (parent : MeshWorkQueueEntry) (coordinator : option string) (status : MeshTaskStatus) (report : string)
    (nowMs : Z) : CoordinatorNotice :=
  let message := "[System] Stage task " ++ qe_id parent ++ " " ++ status_word status ++ "." ++ notice_newline ++ report in {|
  cn_meshId := meshId; cn_event := "mesh:stage_terminal"; cn_nodeLabel := Some (nullish (qe_assignedNodeId parent) "");
  cn_nodeId := (if truthy_str (qe_assignedNodeId parent) then qe_assignedNodeId parent else None); cn_workspace := None;
  cn_coordinatorMessage := Some message;
  cn_metadataEvent := Some [("source", J_str "stage_pipeline"); ("taskId", J_str (qe_id parent)); ("status", J_str (status_word status));
                            ("coordinatorMessage", J_str message)];
  cn_targetCoordinatorDaemonId := None;
  cn_targetCoordinatorSessionId := (if truthy_str coordinator then coordinator else None);
  cn_eventId := Some ("stage-terminal:" ++ qe_id parent ++ ":" ++ status_word status); cn_queuedAt := Some nowMs;
  cn_worktreeHasQueuedTask := false |}.

(** ** Repeated notices *)

Lemma insert_clash row db : er_eventId row ∈ map er_eventId (db_events db) -> insertEvent row db = (false, db).
Proof.
  intros (e & He & Hin)%list_elem_of_fmap. unfold insertEvent. rewrite (proj2 (existsb_exists _ _)); [done|]. exists e.
  split; [by apply list_elem_of_In|]. unfold event_clash. by rewrite bool_decide_true.
Qed.

(** After an insertion, done or refused for its id, the id is there. *)
Lemma insert_recorded row db : er_generation row = None -> er_eventId row ∈ map er_eventId (db_events (insertEvent row db).2).
Proof.
  intros Ha. unfold insertEvent. destruct (existsb (event_clash row) (db_events db)) eqn:E; cbn.
  - apply existsb_exists in E as (e & Hin & Hc). unfold event_clash in Hc. rewrite Ha in Hc.
    assert (Hi : er_eventId row = er_eventId e) by (destruct (er_attemptId row), (er_attemptId e); rewrite orb_false_r in Hc; by apply bool_decide_eq_true in Hc).
    rewrite Hi. apply list_elem_of_fmap. exists e. split; [done|]. by apply list_elem_of_In.
  - rewrite map_app. apply elem_of_app. right. cbn. by left.
Qed.

(** The second block of a task is not announced: its notice has the id of the
    first, whatever its report says and however much later it comes, and the
    ledger keeps one row per id. *)
Theorem second_block_not_announced hash self selfIds uuid uuid' meshId parent parent' coordinator coordinator' report report' status t t' db :
  qe_id parent' = qe_id parent ->
  let db1 := (notify_coordinator hash self selfIds uuid t None (stage_notice meshId parent coordinator status report t) db).2 in
  notify_coordinator hash self selfIds uuid' t' None (stage_notice meshId parent' coordinator' status report' t') db1 = (false, db1).
Proof.
  intros Hid. cbv zeta. unfold notify_coordinator at 1. cbn [notice_target stage_notice cn_targetCoordinatorDaemonId truthy_str andb].
  unfold notifyMeshEvent at 1. apply insert_clash. cbn [notice_row mesh_notice stage_notice er_eventId nullish mn_eventId cn_eventId].
  rewrite Hid. unfold notify_coordinator. cbn [notice_target stage_notice cn_targetCoordinatorDaemonId truthy_str andb].
  apply (insert_recorded (notice_row uuid t (mesh_notice hash self selfIds (stage_notice meshId parent coordinator status report t) t None)) db).
  reflexivity.
Qed.

(** A notice of another daemon is recorded once, however often and whenever its
    entry is delivered again. *)
Theorem relayed_once {Ledger} (db_of : Ledger -> Db) with_db observe release self selfIds uuid uuid' t t' entry c l :
  (forall l, with_db (db_of l) l = l) -> (forall d l, db_of (with_db d l) = d) -> de_kind entry = "turn.notify" ->
  let '(c1, l1) := ingest db_of with_db observe release self selfIds uuid t entry c l in
  ingest db_of with_db observe release self selfIds uuid' t' entry c1 l1 = (c1, l1).
Proof.
  intros Hget Hput Hk. unfold ingest. rewrite Hk. destruct (de_own entry); [done|]. destruct (de_payload entry) as [| | | | | |o]; try done. cbn [bool_decide].
  rewrite !bool_decide_false, bool_decide_true by done. destruct (negb (isSelf _ _)); [done|].
  destruct (notice_str (prop o "eventId")) as [eventId|]; [|done]. destruct (notify_kind (prop o "notify")) as [n|]; [|done].
  destruct (notifyMeshEvent uuid t _ (db_of l)) as [inserted db] eqn:E. rewrite Hput.
  assert (Hin : eventId ++ "#relay" ∈ map er_eventId (db_events db)).
  { replace db with (notifyMeshEvent uuid t (relayed_notice self eventId o n entry) (db_of l)).2 by (by rewrite E).
    by apply (insert_recorded (notice_row uuid t (relayed_notice self eventId o n entry))). }
  unfold notifyMeshEvent at 1. rewrite insert_clash by exact Hin.
  rewrite <- (Hput db l) at 1. by rewrite Hget.
Qed.

Definition sample_entry : DeliverCursorEntry := {|
  de_meshId := "m"; de_kind := "turn.notify"; de_writer := "w"; de_seq := 3; de_own := false;
  de_payload := J_obj [("eventId", J_str "e1"); ("notify", J_str "mesh_event"); ("targetDaemonId", J_str "d")]; de_ref := None |}.

Lemma relayed_once_witness :
  let handle := ingest (fun d : Db => d) (fun d _ => d) (fun _ _ _ l => (false, l)) (fun _ _ l => l) "d" ["d"] in
  let '(c1, l1) := handle "u" 5 sample_entry {| dc_ingested := 0; dc_released := 0; dc_relayed := 0 |} empty_db in
  dc_relayed c1 = 1 /\ handle "u" 6 sample_entry c1 l1 = (c1, l1).
Proof.
  split; [vm_compute; reflexivity|].
  exact (relayed_once (fun d : Db => d) (fun d _ => d) (fun _ _ _ l => (false, l)) (fun _ _ l => l) "d" ["d"] "u" "u" 5 6 sample_entry
           {| dc_ingested := 0; dc_released := 0; dc_relayed := 0 |} empty_db (fun _ => eq_refl) (fun _ _ => eq_refl) eq_refl).
Defined.
