(* ===== verification/PathOwnership.v ===== *)
(** * Declared file ownership

    mesh-shared/src/path-ownership.ts: the paths a code change declares to own,
    how a declaration is normalized, when two declarations overlap, and which
    files a worker touched outside of its declaration. *)

From Stdlib Require Import Ascii.
From S2P Require Import Prelude DaemonId.

(** ** Data *)

Record OwnedPathEntry : Set := { ow_path : string; ow_subtree : bool }.

Record OwnedPathsDeclaration : Set := { od_paths : list OwnedPathEntry }.

#[global] Instance OwnedPathEntry_eq_dec : EqDecision OwnedPathEntry.
Proof. solve_decision. Defined.

#[global] Instance OwnedPathsDeclaration_eq_dec : EqDecision OwnedPathsDeclaration.
Proof. solve_decision. Defined.

Record RejectedPath : Set := { rj_input : string; rj_reason : string }.

Record NormalizeOwnedPathsResult : Set := {
  nr_declaration : OwnedPathsDeclaration;
  nr_rejected : list RejectedPath }.

Definition MAX_OWNED_PATHS : nat := 64.

(** A value of unknown type: a string, or something else with its [String(x)]. *)
Inductive raw_entry : Set :=
| RawString (s : string)
| RawOther (shown : string).

(** [input : unknown] of the normalization: absent, an array, anything else. *)
Inductive raw_paths : Set :=
| NoPaths
| PathArray (entries : list raw_entry)
| NotAnArray (shown : string).

(** ** Strings *)

Definition path_slash : Ascii.ascii := "/"%char.

(** [raw.replace(/\\/g, '/')]; the code of the backslash is 92. *)
Fixpoint toPosix (raw : string) : string :=
  match raw with
  | EmptyString => EmptyString
  | String c t => String (if decide (Ascii.nat_of_ascii c = 92%nat) then path_slash else c) (toPosix t)
  end.

(** [s.split('/')]. *)
Fixpoint split_slash (s : string) : list string :=
  match s with
  | EmptyString => [EmptyString]
  | String c t =>
      if decide (c = path_slash) then EmptyString :: split_slash t
      else match split_slash t with
           | seg :: rest => String c seg :: rest
           | [] => [String c EmptyString]
           end
  end.

(** [segments.join('/')]. *)
Definition join_slash (segments : list string) : string := String.concat "/" segments.

Fixpoint has_char (x : Ascii.ascii) (s : string) : bool :=
  match s with
  | EmptyString => false
  | String c t => bool_decide (c = x) || has_char x t
  end.

Fixpoint drop_slashes (s : string) : string :=
  match s with
  | String c t => if decide (c = path_slash) then drop_slashes t else s
  | EmptyString => s
  end.

(** [s.replace(/^\.\/+/, '')]. *)
Definition strip_dot_slash (s : string) : string :=
  match s with
  | String "."%char (String "/"%char t) => drop_slashes t
  | _ => s
  end.

Definition is_letter (c : Ascii.ascii) : bool :=
  let n := Ascii.nat_of_ascii (lower_ascii c) in (Nat.leb 97 n && Nat.leb n 122)%bool.

(** [/^[a-zA-Z]:\//.test(s)]. *)
Definition has_drive (s : string) : bool :=
  match s with
  | String c (String ":"%char (String "/"%char _)) => is_letter c
  | _ => false
  end.

Definition filled (s : string) : bool := bool_decide (s ≠ EmptyString).

(** [posix.split('/').filter(Boolean)]. *)
Definition segments_of (s : string) : list string := List.filter filled (split_slash s).

(** ** Normalization *)

(** The entry, or the reason why it is dropped with the input that is shown. *)
Definition normalizeOne (raw : raw_entry) : RejectedPath + OwnedPathEntry :=
  match raw with
  | RawOther shown => inl {| rj_input := shown; rj_reason := "not_a_string" |}
  | RawString raw =>
      let reject reason := inl {| rj_input := raw; rj_reason := reason |} in
      let trimmed := js_trim raw in
      if negb (filled trimmed) then reject "empty" else
      let posix := toPosix trimmed in
      if starts_with "/" posix || has_drive posix || starts_with "~" posix then reject "absolute_path" else
      let posix := strip_dot_slash posix in
      let segments := segments_of posix in
      if existsb (fun seg => bool_decide (seg = "..")) segments then reject "parent_traversal" else
      match last segments with
      | None => reject "empty"
      | Some final =>
          let subtree := bool_decide (final = "**") in
          let segments := if subtree then removelast segments else segments in
          if existsb (fun seg => has_char "*" seg || has_char "?" seg) segments
          then reject "unsupported_glob"
          else inr {| ow_path := join_slash segments; ow_subtree := subtree |}
      end
  end.

(** One turn of the loop over the entries. *)
Definition add_entry (acc : jsmap OwnedPathEntry * list RejectedPath) (raw : raw_entry)
  : jsmap OwnedPathEntry * list RejectedPath :=
  let '(byPath, rejected) := acc in
  match normalizeOne raw with
  | inl why => (byPath, rejected ++ [why])
  | inr entry =>
      match map_get entry.(ow_path) byPath with
      | None => (map_set entry.(ow_path) entry byPath, rejected)
      | Some existing =>
          if entry.(ow_subtree) && negb existing.(ow_subtree)
          then (map_set entry.(ow_path) entry byPath, rejected)
          else (byPath, rejected)
      end
  end.

Definition normalizeOwnedPaths (input : raw_paths) : NormalizeOwnedPathsResult :=
  match input with
  | NoPaths => {| nr_declaration := {| od_paths := [] |}; nr_rejected := [] |}
  | NotAnArray shown =>
      {| nr_declaration := {| od_paths := [] |};
         nr_rejected := [{| rj_input := shown; rj_reason := "not_an_array" |}] |}
  | PathArray entries =>
      let '(byPath, rejected) := fold_left add_entry entries ([], []) in
      let all := map_values byPath in
      {| nr_declaration := {| od_paths := take MAX_OWNED_PATHS all |};
         nr_rejected := rejected ++
           map (fun dropped => {| rj_input := dropped.(ow_path); rj_reason := "over_cap" |})
               (drop MAX_OWNED_PATHS all) |}
  end.

(** ** Comparison *)

Definition entryContains (base : OwnedPathEntry) (path : string) : bool :=
  bool_decide (path = base.(ow_path))
  || base.(ow_subtree) &&
     (bool_decide (base.(ow_path) = EmptyString) || starts_with (base.(ow_path) +:+ "/") path).

Definition entriesOverlap (a b : OwnedPathEntry) : bool :=
  entryContains a b.(ow_path) || entryContains b a.(ow_path).

Definition pathsOverlap (a b : OwnedPathsDeclaration) : bool :=
  existsb (fun pa => existsb (entriesOverlap pa) b.(od_paths)) a.(od_paths).

Record InFlightOwnership : Set := { if_taskId : string; if_paths : OwnedPathsDeclaration }.

Record OwnershipConflict : Set := { oc_taskId : string; oc_overlappingPaths : list string }.

Definition narrower (pa pb : OwnedPathEntry) : string :=
  if (String.length pb.(ow_path) <=? String.length pa.(ow_path))%nat
  then pa.(ow_path) else pb.(ow_path).

(** [if (!acc.includes(x)) acc.push(x)]. *)
Definition push_new (acc : list string) (x : string) : list string :=
  if bool_decide (x ∈ acc) then acc else acc ++ [x].

Definition overlapping_with (candidate other : OwnedPathsDeclaration) : list string :=
  fold_left (fun acc pa =>
    fold_left (fun acc pb =>
      if entriesOverlap pa pb then push_new acc (narrower pa pb) else acc) other.(od_paths) acc)
    candidate.(od_paths) [].

Definition findOwnershipConflicts (candidate : OwnedPathsDeclaration)
    (inFlight : list InFlightOwnership) : list OwnershipConflict :=
  match candidate.(od_paths) with
  | [] => []
  | _ =>
      flat_map (fun other =>
        match overlapping_with candidate other.(if_paths) with
        | [] => []
        | overlapping => [{| oc_taskId := other.(if_taskId); oc_overlappingPaths := overlapping |}]
        end) inFlight
  end.

(** ** Touched files *)

Record TouchedFilesOutsideOwnershipResult : Set := {
  tf_undeclaredTouched : list string;
  tf_unusedDeclarations : list string }.

Definition touch_one (owned : OwnedPathsDeclaration) (acc : list string * list string) (raw : string)
  : list string * list string :=
  let '(undeclared, used) := acc in
  match normalizeOne (RawString raw) with
  | inl _ => (undeclared ++ [raw], used)
  | inr entry =>
      match List.filter (fun base => entryContains base entry.(ow_path)) owned.(od_paths) with
      | [] => (undeclared ++ [entry.(ow_path)], used)
      | matching => (undeclared, used ++ map ow_path matching)
      end
  end.

Definition touchedFilesOutsideOwnership (touched : list string) (owned : OwnedPathsDeclaration)
  : TouchedFilesOutsideOwnershipResult :=
  let '(undeclared, used) := fold_left (touch_one owned) touched ([], []) in
  {| tf_undeclaredTouched := undeclared;
     tf_unusedDeclarations :=
       List.filter (fun p => negb (bool_decide (p ∈ used))) (map ow_path owned.(od_paths)) |}.

(** ** Warnings on broad declarations

    mcp-server/src/tools/mesh-owned-paths-warning.ts; the queue's rows carry
    more fields than the warning reads. *)

Record OwnershipTask : Set := {
  ot_id : string;
  ot_message : string;
  ot_status : string;
  ot_taskMode : option string;
  ot_readonly : option bool;
  ot_ownedPaths : option OwnedPathsDeclaration }.

Fixpoint segment_index (x : string) (l : list string) : option nat :=
  match l with
  | [] => None
  | y :: t => if decide (y = x) then Some O else S <$> segment_index x t
  end.

Definition is_broad (entry : OwnedPathEntry) : bool :=
  let parts := segments_of entry.(ow_path) in
  match parts with
  | [] => entry.(ow_subtree)
  | [part] => entry.(ow_subtree) || negb (has_char "." part)
  | _ =>
      match segment_index "packages" parts with
      | None => false
      | Some packageIndex =>
          if (length parts <? packageIndex + 2)%nat then false
          else (length parts =? packageIndex + 2)%nat
               || entry.(ow_subtree) && (length parts =? packageIndex + 3)%nat
                  && bool_decide (last parts ∈ [Some "src"; Some "test"])
      end
  end.

Definition render_entry (entry : OwnedPathEntry) : string :=
  if filled entry.(ow_path)
  then entry.(ow_path) +:+ (if entry.(ow_subtree) then "/**" else "")
  else "**".

Fixpoint until_newline (s : string) : string :=
  match s with
  | EmptyString => EmptyString
  | String c t => if decide (Ascii.nat_of_ascii c = 10%nat) then EmptyString else String c (until_newline t)
  end.

Record RelatedTask : Set := {
  rt_taskId : string; rt_title : string; rt_status : string; rt_relationship : string }.

Definition is_related (task : OwnershipTask) (mine : OwnedPathsDeclaration) (other : OwnershipTask) : bool :=
  bool_decide (other.(ot_id) ≠ task.(ot_id)) && bool_decide (other.(ot_status) ∈ ["pending"; "assigned"])
  && negb (opt_true other.(ot_readonly)) && bool_decide (other.(ot_taskMode) ≠ Some "live_debug_readonly")
  && match other.(ot_ownedPaths) with
     | Some theirs =>
         negb (bool_decide (length (findOwnershipConflicts mine
           [{| if_taskId := other.(ot_id); if_paths := theirs |}]) = 0%nat))
     | None => false
     end.

(** [None] when there is no warning; its broad paths and related tasks otherwise. *)
Definition broadOwnedPathsWarning (task : OwnershipTask) (queue : list OwnershipTask)
  : option (list string * list RelatedTask) :=
  match task.(ot_ownedPaths) with
  | Some mine =>
      if bool_decide (task.(ot_taskMode) ≠ Some "code_change") || opt_true task.(ot_readonly) then None else
      match map render_entry (List.filter is_broad mine.(od_paths)) with
      | [] => None
      | broadPaths =>
          Some (broadPaths,
            map (fun other => {|
              rt_taskId := other.(ot_id);
              rt_title := String.substring 0 100 (until_newline (js_trim other.(ot_message)));
              rt_status := other.(ot_status);
              rt_relationship := if decide (other.(ot_status) = "assigned") then "blocked_by"
                                 else "potential_conflict" |})
              (List.filter (is_related task mine) queue))
      end
  | None => None
  end.
