(* ===== verification/PathTheorems.v ===== *)
(** * Theorems on declared file ownership

    Overlap of declarations is intersection of the sets of paths they claim;
    the conflicts found are exactly the tasks whose claims intersect, each with
    paths that both claim; a normalized declaration accounts for every input;
    the touched files reported are exactly those outside the declaration. *)

From Stdlib Require Import Ascii.
From S2P Require Import Prelude DaemonId PathOwnership.

(** The paths an entry, and a declaration, claim. *)
Definition covers (e : OwnedPathEntry) (p : string) : Prop := entryContains e p = true.

Definition declares (d : OwnedPathsDeclaration) (p : string) : Prop :=
  exists e, In e d.(od_paths) /\ covers e p.

(** ** Prefixes *)

Lemma append_cons c a b : (String c a +:+ b) = String c (a +:+ b).
Proof. reflexivity. Qed.

Lemma append_nil b : (EmptyString +:+ b) = b.
Proof. reflexivity. Qed.

Lemma starts_with_spec p s : starts_with p s = true <-> exists t, s = (p +:+ t).
Proof.
  revert s; induction p as [|a p IH]; intros s; cbn.
  - split; [exists s|]; auto.
  - destruct s as [|c s]; cbn.
    + split; [discriminate | intros [t E]; rewrite append_cons in E; discriminate E].
    + rewrite andb_true_iff, bool_decide_eq_true, IH. split.
      * intros [-> [t ->]]. exists t. reflexivity.
      * intros [t E]. rewrite append_cons in E. injection E as -> ->. eauto.
Qed.

(** Two directories with a common descendant are nested. *)
Lemma prefixes_meet a b p :
  starts_with (a +:+ "/") p = true -> starts_with (b +:+ "/") p = true ->
  a = b \/ starts_with (a +:+ "/") b = true \/ starts_with (b +:+ "/") a = true.
Proof.
  revert b p; induction a as [|x a IH]; intros [|y b] [|z p]; rewrite ?append_cons, ?append_nil; cbn;
    try discriminate; auto.
  - rewrite !andb_true_iff, !bool_decide_eq_true. naive_solver.
  - rewrite !andb_true_iff, !bool_decide_eq_true. naive_solver.
  - rewrite !andb_true_iff, !bool_decide_eq_true. intros [-> Ha] [-> Hb].
    destruct (IH b p Ha Hb) as [->|[?|?]]; auto.
Qed.

Lemma starts_with_longer p s : starts_with p s = true -> (String.length p <= String.length s)%nat.
Proof.
  revert s; induction p as [|a p IH]; intros [|c s]; cbn; try discriminate; [lia..|].
  rewrite andb_true_iff. intros [_ H]. apply IH in H. lia.
Qed.

Lemma length_snoc a : String.length (a +:+ "/") = S (String.length a).
Proof. induction a as [|c a IH]; [reflexivity | rewrite append_cons; cbn; f_equal; exact IH]. Qed.

(** ** Claims *)

Lemma claims_spec e p :
  covers e p <-> p = e.(ow_path) \/
    (e.(ow_subtree) = true /\ (e.(ow_path) = EmptyString \/ starts_with (e.(ow_path) +:+ "/") p = true)).
Proof.
  unfold covers, entryContains.
  rewrite orb_true_iff, andb_true_iff, orb_true_iff, !bool_decide_eq_true. tauto.
Qed.

Lemma claims_own e : covers e e.(ow_path).
Proof. apply claims_spec. auto. Qed.

Lemma entriesOverlap_spec a b : entriesOverlap a b = true <-> exists p, covers a p /\ covers b p.
Proof.
  unfold entriesOverlap. rewrite orb_true_iff. split.
  - intros [H|H]; [exists (ow_path b) | exists (ow_path a)]; split; first [exact H | apply claims_own].
  - intros (p & Ha & Hb). change (covers a (ow_path b) \/ covers b (ow_path a)).
    pose proof Ha as Ha'. pose proof Hb as Hb'.
    apply claims_spec in Ha as [->|(Sa & [Ea|Pa])]; [auto | left; apply claims_spec; auto|].
    apply claims_spec in Hb as [->|(Sb & [Eb|Pb])]; [auto | right; apply claims_spec; auto|].
    rewrite !claims_spec.
    destruct (prefixes_meet _ _ _ Pa Pb) as [->|[?|?]]; auto.
Qed.

Lemma narrower_claimed a b :
  entriesOverlap a b = true -> covers a (narrower a b) /\ covers b (narrower a b).
Proof.
  unfold entriesOverlap, narrower. rewrite orb_true_iff. fold (covers a (ow_path b)) (covers b (ow_path a)).
  intros H. assert (M : covers a (ow_path b) /\ (String.length (ow_path a) <= String.length (ow_path b))%nat
    \/ covers b (ow_path a) /\ (String.length (ow_path b) <= String.length (ow_path a))%nat).
  { destruct H as [H|H]; [left|right]; (split; [exact H|]); apply claims_spec in H as [->|(_ & [->|P])]; cbn;
      try lia; apply starts_with_longer in P; rewrite length_snoc in P; lia. }
  destruct (Nat.leb_spec (String.length (ow_path b)) (String.length (ow_path a))) as [L|L];
    destruct M as [[C M]|[C M]]; try (split; [first [exact C | apply claims_own]..]; fail); [|lia].
  split; [apply claims_own|]. apply claims_spec in C as [<-|(_ & [E|P])]; [apply claims_own| |].
  - rewrite E in L. cbn in L. destruct (ow_path b) eqn:Eb; cbn in L; [|lia].
    rewrite E, <- Eb. apply claims_own.
  - apply starts_with_longer in P. rewrite length_snoc in P. lia.
Qed.

Lemma pathsOverlap_spec a b : pathsOverlap a b = true <-> exists p, declares a p /\ declares b p.
Proof.
  unfold pathsOverlap, declares. rewrite existsb_exists. split.
  - intros (pa & Ia & H). apply existsb_exists in H as (pb & Ib & H).
    apply entriesOverlap_spec in H as (p & Ca & Cb). exists p. eauto 6.
  - intros (p & (pa & Ia & Ca) & (pb & Ib & Cb)). exists pa. split; [exact Ia|].
    apply existsb_exists. exists pb. split; [exact Ib|]. apply entriesOverlap_spec. eauto.
Qed.

(** ** Conflicts *)

Lemma push_new_In acc x y : In y (push_new acc x) <-> In y acc \/ y = x.
Proof.
  unfold push_new. case_bool_decide as E.
  - apply list_elem_of_In in E. split; [auto|]. intros [?| ->]; auto.
  - rewrite in_app_iff. cbn. naive_solver.
Qed.

Lemma inner_overlap pa (l : list OwnedPathEntry) acc y :
  In y (fold_left (fun acc pb => if entriesOverlap pa pb then push_new acc (narrower pa pb) else acc) l acc)
  <-> In y acc \/ exists pb, In pb l /\ entriesOverlap pa pb = true /\ y = narrower pa pb.
Proof.
  revert acc; induction l as [|pb l IH]; intros acc; cbn.
  - naive_solver.
  - rewrite IH. destruct (entriesOverlap pa pb) eqn:E; [rewrite push_new_In|]; split.
    + intros [[H| ->]|(x & ? & ?)]; [left|right; exists pb|right; exists x]; auto.
    + intros [H|(x & [->|?] & ?)]; [auto | left; right; tauto | right; exists x; auto].
    + intros [H|(x & ? & ?)]; [left|right; exists x]; auto.
    + intros [H|(x & [->|?] & ? & ?)]; [auto | congruence | right; exists x; auto].
Qed.

Lemma overlapping_with_In a b y :
  In y (overlapping_with a b) <->
  exists pa pb, In pa a.(od_paths) /\ In pb b.(od_paths) /\ entriesOverlap pa pb = true /\ y = narrower pa pb.
Proof.
  unfold overlapping_with.
  assert (G : forall l acc, In y (fold_left (fun acc pa => fold_left (fun acc pb =>
      if entriesOverlap pa pb then push_new acc (narrower pa pb) else acc) (od_paths b) acc) l acc)
    <-> In y acc \/ exists pa pb, In pa l /\ In pb (od_paths b) /\ entriesOverlap pa pb = true /\ y = narrower pa pb).
  { induction l as [|pa l IH]; intros acc; cbn; [naive_solver|].
    rewrite IH, inner_overlap. split.
    - intros [[H|(pb & ?)]|(x & pb & ? & ?)]; [left|right; exists pa, pb|right; exists x, pb]; auto.
    - intros [H|(x & pb & [->|?] & ?)]; [auto | left; right; eauto | right; eauto 6]. }
  rewrite G. cbn. tauto.
Qed.

Lemma overlapping_nil a b : overlapping_with a b = [] <-> pathsOverlap a b = false.
Proof.
  split; intros H.
  - apply not_true_iff_false. intros T. unfold pathsOverlap in T.
    apply existsb_exists in T as (pa & Ia & T). apply existsb_exists in T as (pb & Ib & T).
    assert (I : In (narrower pa pb) (overlapping_with a b)) by (apply overlapping_with_In; eauto 8).
    rewrite H in I. destruct I.
  - destruct (overlapping_with a b) as [|y l] eqn:E; [reflexivity|]. exfalso.
    assert (I : In y (overlapping_with a b)) by (rewrite E; left; reflexivity).
    apply overlapping_with_In in I as (pa & pb & Ia & Ib & O & _).
    apply not_true_iff_false in H. apply H. unfold pathsOverlap.
    apply existsb_exists. exists pa. split; [exact Ia|]. apply existsb_exists. eauto.
Qed.

(** C29: The conflicts are the in-flight tasks, in order, whose declarations claim
    a path the candidate claims too, and every path reported is claimed by
    both sides.  A task that declares nothing is in no conflict. *)
Theorem conflicts_exact candidate inFlight :
  map oc_taskId (findOwnershipConflicts candidate inFlight)
    = map if_taskId (List.filter (fun o => pathsOverlap candidate o.(if_paths)) inFlight)
  /\ (forall o, pathsOverlap candidate o.(if_paths) = true <->
        exists p, declares candidate p /\ declares o.(if_paths) p)
  /\ (forall c, In c (findOwnershipConflicts candidate inFlight) ->
        c.(oc_overlappingPaths) <> [] /\
        exists o, In o inFlight /\ o.(if_taskId) = c.(oc_taskId) /\
          forall p, In p c.(oc_overlappingPaths) -> declares candidate p /\ declares o.(if_paths) p).
Proof.
  split; [|split].
  - unfold findOwnershipConflicts. destruct (od_paths candidate) as [|e l] eqn:E.
    + induction inFlight as [|o t IH]; [reflexivity|]. cbn. unfold pathsOverlap at 1. rewrite E. exact IH.
    + clear E. induction inFlight as [|o t IH]; [reflexivity|]. cbn. rewrite map_app, IH.
      destruct (overlapping_with candidate (if_paths o)) eqn:O.
      * apply overlapping_nil in O. rewrite O. reflexivity.
      * assert (pathsOverlap candidate (if_paths o) = true) as ->; [|reflexivity].
        apply not_false_iff_true. rewrite <- overlapping_nil. congruence.
  - intros o. apply pathsOverlap_spec.
  - unfold findOwnershipConflicts. destruct (od_paths candidate) as [|e l] eqn:E; [intros c []|].
    intros c Hc. apply in_flat_map in Hc as (o & Io & Hc).
    destruct (overlapping_with candidate (if_paths o)) as [|y ys] eqn:O; [destruct Hc|].
    destruct Hc as [<-|[]]. cbn. split; [discriminate|]. exists o. split; [exact Io|]. split; [reflexivity|].
    intros p Hp. change (In p (y :: ys)) in Hp. rewrite <- O in Hp.
    apply overlapping_with_In in Hp as (pa & pb & Ia & Ib & Ov & ->).
    apply narrower_claimed in Ov as [? ?]. split; eexists; eauto.
Qed.

(** ** Normalized entries *)

(** A segment of a normalized path. *)
Definition clean_segment (seg : string) : Prop :=
  seg <> EmptyString /\ seg <> ".." /\ has_char "*" seg = false /\ has_char "?" seg = false
  /\ has_char "/" seg = false.

Definition clean_entry (e : OwnedPathEntry) : Prop :=
  exists segments, e.(ow_path) = join_slash segments /\ Forall clean_segment segments
    /\ (segments = [] -> e.(ow_subtree) = true).

Lemma split_slash_no_slash s seg : In seg (split_slash s) -> has_char "/" seg = false.
Proof.
  revert seg; induction s as [|c s IH]; intros seg; cbn.
  - intros [<-|[]]. reflexivity.
  - destruct (decide (c = path_slash)) as [->|N]; [intros [<-|H]; [reflexivity | auto]|].
    destruct (split_slash s) as [|x l].
    + intros [<-|[]]. cbn. rewrite bool_decide_eq_false_2 by exact N. reflexivity.
    + intros [<-|H]; [|apply IH; right; exact H].
      cbn. rewrite bool_decide_eq_false_2 by exact N. apply IH. left. reflexivity.
Qed.

Lemma segments_of_clean s seg : In seg (segments_of s) -> seg <> EmptyString /\ has_char "/" seg = false.
Proof.
  unfold segments_of. rewrite filter_In. intros [I N]. split; [|exact (split_slash_no_slash _ _ I)].
  unfold filled in N. apply bool_decide_eq_true in N. exact N.
Qed.

Lemma in_removelast {A} (x : A) l : In x (removelast l) -> In x l.
Proof.
  induction l as [|y [|z l] IH]; [auto | cbn; tauto |].
  intros [<-|H]; [left; reflexivity | right; apply IH, H].
Qed.

Lemma existsb_false {A} (f : A -> bool) l x : existsb f l = false -> In x l -> f x = false.
Proof.
  intros E I. apply not_true_iff_false. intros T. apply not_true_iff_false in E. apply E.
  apply existsb_exists. eauto.
Qed.

Lemma normalizeOne_clean raw e : normalizeOne raw = inr e -> clean_entry e.
Proof.
  destruct raw as [raw|shown]; cbn; [|discriminate].
  destruct (negb (filled (js_trim raw))); [discriminate|].
  destruct (_ || _); [discriminate|].
  set (segs := segments_of _).
  destruct (existsb _ segs) eqn:Up; [discriminate|].
  destruct (last segs) as [final|] eqn:L; [|discriminate].
  destruct (existsb _ (if bool_decide (final = "**") then removelast segs else segs)) eqn:G; [discriminate|].
  intros [= <-].
  exists (if bool_decide (final = "**") then removelast segs else segs). cbn.
  split; [reflexivity|]. split.
  - apply Forall_forall. intros seg I. apply list_elem_of_In in I.
    assert (I' : In seg segs) by (case_bool_decide; [apply in_removelast|]; exact I).
    pose proof (existsb_false _ _ _ G I) as Gs. cbn in Gs. apply orb_false_iff in Gs as [? ?].
    pose proof (existsb_false _ _ _ Up I') as Us. cbn in Us. apply bool_decide_eq_false in Us.
    destruct (segments_of_clean _ _ I'). repeat split; auto.
  - case_bool_decide; [reflexivity|]. intros E. rewrite E in L. discriminate.
Qed.

(** ** Normalized declarations *)

(** What the loop has recorded after [seen]. *)
Record normalized (seen : list raw_entry) (acc : jsmap OwnedPathEntry * list RejectedPath) : Prop := {
  nz_keys : NoDup (map fst acc.1);
  nz_path : forall k e, In (k, e) acc.1 -> k = e.(ow_path);
  nz_origin : forall k e, In (k, e) acc.1 -> exists raw, In raw seen /\ normalizeOne raw = inr e;
  nz_rejected : forall why, In why acc.2 -> exists raw, In raw seen /\ normalizeOne raw = inl why;
  nz_dropped : forall raw why, In raw seen -> normalizeOne raw = inl why -> In why acc.2;
  nz_kept : forall raw e, In raw seen -> normalizeOne raw = inr e ->
    exists x, map_get e.(ow_path) acc.1 = Some x /\ (e.(ow_subtree) = true -> x.(ow_subtree) = true) }.

Lemma normalized_step seen acc raw :
  normalized seen acc -> normalized (seen ++ [raw]) (add_entry acc raw).
Proof.
  destruct acc as [m rej]. intros [K P O R D T]. cbn in *. unfold add_entry.
  assert (Up : forall x, In x seen -> In x (seen ++ [raw])) by (intros; apply in_app_iff; auto).
  assert (Last : In raw (seen ++ [raw])) by (apply in_app_iff; right; left; reflexivity).
  destruct (normalizeOne raw) as [why|e] eqn:N.
  - split; cbn; auto.
    + intros k e I. destruct (O k e I) as (r & ? & ?). eauto.
    + intros w I. apply in_app_iff in I as [I|[<-|[]]]; [|eauto]. destruct (R w I) as (r & ? & ?). eauto.
    + intros r w I E. apply in_app_iff. apply in_app_iff in I as [I|[<-|[]]]; [eauto|].
      right. left. congruence.
    + intros r e I E. apply in_app_iff in I as [I|[<-|[]]]; [eauto | congruence].
  - set (put := match map_get (ow_path e) m with
                | None => true | Some x => ow_subtree e && negb (ow_subtree x) end).
    assert (E : match map_get (ow_path e) m with
        | None => (map_set (ow_path e) e m, rej)
        | Some x => if ow_subtree e && negb (ow_subtree x) then (map_set (ow_path e) e m, rej) else (m, rej)
        end = (if put then map_set (ow_path e) e m else m, rej))
      by (unfold put; destruct (map_get (ow_path e) m); [destruct (_ && _)|]; reflexivity).
    rewrite E. clear E. split; cbn.
    + destruct put; [apply map_set_NoDup|]; exact K.
    + intros k x I. destruct put; [apply map_set_In in I as [[= -> ->]|I]; auto | eauto].
    + intros k x I. assert (I' : (k, x) = (ow_path e, e) \/ In (k, x) m)
        by (destruct put; [apply map_set_In in I; exact I | auto]).
      destruct I' as [[= -> ->]|I']; [eauto|]. destruct (O k x I') as (r & ? & ?). eauto.
    + intros w I. destruct (R w I) as (r & ? & ?). eauto.
    + intros r w I E. apply in_app_iff in I as [I|[<-|[]]]; [eauto | congruence].
    + intros r x I E.
      assert (W : In r seen \/ x = e)
        by (apply in_app_iff in I as [I|[<-|[]]]; [auto | right; congruence]).
      destruct put eqn:Put; unfold put in Put.
      * rewrite map_get_set. destruct (decide (ow_path x = ow_path e)) as [Ep|Np].
        -- exists e. split; [reflexivity|]. intros Sx. destruct W as [W| ->]; [|exact Sx].
           destruct (T r x W E) as (y & G & Sy). rewrite Ep in G. rewrite G in Put.
           apply andb_true_iff in Put as [? _]. assumption.
        -- destruct W as [W| ->]; [eauto | contradiction].
      * destruct W as [W| ->]; [eauto|]. destruct (map_get (ow_path e) m) as [y|] eqn:G; [|discriminate].
        exists y. split; [reflexivity|]. intros Se. rewrite Se in Put. destruct (ow_subtree y); auto.
Qed.

Lemma normalized_all entries : normalized entries (fold_left add_entry entries ([], [])).
Proof.
  induction entries as [|raw entries IH] using rev_ind.
  - split; cbn; try tauto. constructor.
  - rewrite fold_left_app. apply normalized_step, IH.
Qed.

Lemma normalized_paths seen acc :
  normalized seen acc -> map ow_path (map_values acc.1) = map fst acc.1.
Proof.
  intros [_ P _ _ _ _]. unfold map_values. rewrite map_map. apply map_ext_in.
  intros [k e] I. cbn. symmetry. apply P, I.
Qed.

(** A normalized declaration keeps at most [MAX_OWNED_PATHS] entries of
    distinct paths, all clean and each taken from the input; and every input
    is accounted for: it is rejected with its reason, or the entry it denotes
    is kept at least as broad as declared, or reported as over the cap. *)
Theorem declaration_accounts entries :
  let r := normalizeOwnedPaths (PathArray entries) in
  let kept := r.(nr_declaration).(od_paths) in
  (length kept <= MAX_OWNED_PATHS)%nat
  /\ NoDup (map ow_path kept)
  /\ (forall e, In e kept -> clean_entry e /\ exists raw, In raw entries /\ normalizeOne raw = inr e)
  /\ (forall raw, In raw entries ->
        match normalizeOne raw with
        | inl why => In why r.(nr_rejected)
        | inr e =>
            (exists k, In k kept /\ k.(ow_path) = e.(ow_path) /\ forall p, covers e p -> covers k p)
            \/ In {| rj_input := e.(ow_path); rj_reason := "over_cap" |} r.(nr_rejected)
        end).
Proof.
  cbn. pose proof (normalized_all entries) as Z. destruct (fold_left add_entry entries ([], [])) as [m rej].
  pose proof (normalized_paths _ _ Z) as Paths. destruct Z as [K P O R D T].
  cbn [fst snd nr_declaration od_paths nr_rejected] in *.
  assert (Split : map ow_path (map_values m) =
      map ow_path (take MAX_OWNED_PATHS (map_values m)) ++ map ow_path (drop MAX_OWNED_PATHS (map_values m)))
    by (rewrite <- map_app, take_drop; reflexivity).
  split; [|split; [|split]].
  - rewrite length_take. apply Nat.le_min_l.
  - rewrite <- Paths, Split in K. apply NoDup_app in K as [K _]. exact K.
  - intros e I. assert (I' : In e (map_values m)).
    { rewrite <- (take_drop MAX_OWNED_PATHS). apply in_app_iff. auto. }
    apply in_map_iff in I' as ([k x] & <- & I'). destruct (O k x I') as (raw & ? & N).
    split; [exact (normalizeOne_clean _ _ N) | eauto].
  - intros raw I. destruct (normalizeOne raw) as [why|e] eqn:N.
    + apply in_app_iff. left. eauto.
    + destruct (T raw e I N) as (x & G & B). apply map_get_In in G. pose proof (P _ _ G) as Px.
      assert (I' : In x (map_values m)) by (apply in_map_iff; exists (ow_path e, x); auto).
      rewrite <- (take_drop MAX_OWNED_PATHS (map_values m)) in I'. apply in_app_iff in I' as [I'|I'].
      * left. exists x. split; [exact I'|]. split; [auto|]. intros p. rewrite !claims_spec, <- Px. tauto.
      * right. apply in_app_iff. right. rewrite Px.
        apply (in_map (fun d => {| rj_input := ow_path d; rj_reason := "over_cap" |})), I'.
Qed.

(** ** Touched files *)

#[local] Arguments normalizeOne : simpl never.

(** The name a touched file is reported by, when it is outside. *)
Definition outside (owned : OwnedPathsDeclaration) (raw : string) : option string :=
  match normalizeOne (RawString raw) with
  | inl _ => Some raw
  | inr e => if existsb (fun base => entryContains base e.(ow_path)) owned.(od_paths) then None
             else Some e.(ow_path)
  end.

Lemma filter_nil_existsb {A} (f : A -> bool) l : List.filter f l = [] <-> existsb f l = false.
Proof. induction l as [|x l IH]; cbn; [tauto|]. destruct (f x); cbn; [split; discriminate | exact IH]. Qed.

(** The declared paths a touched file uses. *)
Definition used_by (owned : OwnedPathsDeclaration) (raw : string) : list string :=
  match normalizeOne (RawString raw) with
  | inl _ => []
  | inr e => map ow_path (List.filter (fun base => entryContains base e.(ow_path)) owned.(od_paths))
  end.

Lemma used_by_In owned raw p :
  In p (used_by owned raw) <-> exists e base, normalizeOne (RawString raw) = inr e
    /\ In base owned.(od_paths) /\ covers base e.(ow_path) /\ p = base.(ow_path).
Proof.
  unfold used_by. destruct (normalizeOne (RawString raw)) as [why|e].
  - split; [intros [] | intros (? & ? & ? & _); discriminate].
  - rewrite in_map_iff. split.
    + intros (b & <- & I). apply filter_In in I as [? ?]. exists e, b. auto.
    + intros (x & b & [= <-] & I & C & ->). exists b. rewrite filter_In. auto.
Qed.

Lemma touch_one_spec owned und used raw :
  touch_one owned (und, used) raw = (und ++ omap (outside owned) [raw], used ++ used_by owned raw).
Proof.
  unfold touch_one, used_by. cbn. unfold outside.
  destruct (normalizeOne (RawString raw)) as [why|e]; [rewrite app_nil_r; reflexivity|].
  destruct (List.filter _ (od_paths owned)) as [|b bs] eqn:F.
  - apply filter_nil_existsb in F. rewrite F, app_nil_r. reflexivity.
  - destruct (existsb _ (od_paths owned)) eqn:X; [rewrite app_nil_r; reflexivity|].
    apply filter_nil_existsb in X. congruence.
Qed.

Lemma touch_all owned touched und used :
  fold_left (touch_one owned) touched (und, used) =
  (und ++ omap (outside owned) touched, used ++ flat_map (used_by owned) touched).
Proof.
  revert und used; induction touched as [|raw touched IH]; intros und used.
  - cbn. rewrite !app_nil_r. reflexivity.
  - cbn [fold_left flat_map]. rewrite touch_one_spec, IH, <- !app_assoc, <- omap_app. reflexivity.
Qed.

(** The touched files reported are those that no entry of the declaration
    claims, in the order of the report; a file that is not a valid path counts
    as outside.  A declared path is reported as unused exactly when no touched
    file is claimed by an entry of that path. *)
Theorem touched_exact touched owned :
  let r := touchedFilesOutsideOwnership touched owned in
  r.(tf_undeclaredTouched) = omap (outside owned) touched
  /\ (forall raw, outside owned raw = None <->
        exists e, normalizeOne (RawString raw) = inr e /\ declares owned e.(ow_path))
  /\ (forall p, In p r.(tf_unusedDeclarations) <->
        (exists base, In base owned.(od_paths) /\ base.(ow_path) = p)
        /\ ~ exists raw e base, In raw touched /\ normalizeOne (RawString raw) = inr e
             /\ In base owned.(od_paths) /\ covers base e.(ow_path) /\ p = base.(ow_path)).
Proof.
  cbn zeta. unfold touchedFilesOutsideOwnership. rewrite touch_all.
  cbn [tf_undeclaredTouched tf_unusedDeclarations app].
  split; [reflexivity|]. split.
  - intros raw. unfold outside, declares, covers.
    destruct (normalizeOne (RawString raw)) as [why|e]; [split; [discriminate | intros (? & ? & _); discriminate]|].
    destruct (existsb _ _) eqn:X.
    + apply existsb_exists in X as (b & ? & ?). split; [eauto 6 | reflexivity].
    + split; [discriminate|]. intros (x & [= <-] & b & I & C). pose proof (existsb_false _ _ _ X I) as F.
      cbn in F. congruence.
  - intros p. rewrite filter_In, in_map_iff, negb_true_iff, bool_decide_eq_false, list_elem_of_In, in_flat_map.
    setoid_rewrite used_by_In. split; intros [(b & H1 & H2) H]; (split; [exists b; auto|]);
      intros (raw & H3); apply H; exists raw; naive_solver.
Qed.

(** Inner [.] segments stay in the path, so two spellings of one file do not
    overlap, and a second leading [./] survives. *)
Theorem dot_segments_kept :
  let file s := (normalizeOwnedPaths (PathArray [RawString s])).(nr_declaration) in
  file "././src/a.ts" = {| od_paths := [{| ow_path := "./src/a.ts"; ow_subtree := false |}] |}
  /\ pathsOverlap (file "src/./a.ts") (file "src/a.ts") = false
  /\ pathsOverlap (file "./src/a.ts") (file "src//a.ts") = true.
Proof. vm_compute. auto. Qed.

(** A declaration that uses each branch of the normalization. *)
Example normalize_branches :
  normalizeOwnedPaths (PathArray [RawString " src\mesh/** "; RawString "src/mesh"; RawString "C:/x";
    RawString "a/../b"; RawString "a/*.ts"; RawOther "7"; RawString "**"]) =
  {| nr_declaration := {| od_paths := [{| ow_path := "src/mesh"; ow_subtree := true |};
       {| ow_path := ""; ow_subtree := true |}] |};
     nr_rejected := [{| rj_input := "C:/x"; rj_reason := "absolute_path" |};
       {| rj_input := "a/../b"; rj_reason := "parent_traversal" |};
       {| rj_input := "a/*.ts"; rj_reason := "unsupported_glob" |};
       {| rj_input := "7"; rj_reason := "not_a_string" |}] |}.
Proof. reflexivity. Qed.
