(* ===== verification/PhaseGraph.v ===== *)
(** * Task dependencies and phases

    daemon-core/src/mesh/mesh-task-phase-dependencies.ts: the search of the
    dependency graph that grants a completed prerequisite its authority.  A
    source task may only be a prerequisite of an integration task, and a cycle
    is no authority.  The search is depth first with an explicit stack. *)

From stdpp Require Import relations.
From S2P Require Import Prelude.

(** [Pick<MeshWorkQueueEntry, 'id' | 'phase' | 'dependsOn'>]. *)
Record PhaseEntry : Set := {
  pe_id : string;
  pe_phase : option string;
  pe_dependsOn : option (list string) }.

Definition pe_deps (e : PhaseEntry) : list string := nullish e.(pe_dependsOn) [].

(** The refusals, with the ids their texts name. *)
Inductive GraphViolation : Set :=
| Cycle_detected (id : string)
| Source_requires_integration (dependent source : string).

Inductive stack_item : Set := Enter (e : PhaseEntry) | Leave (e : PhaseEntry).

Record search : Set := {
  se_stack : list stack_item;
  se_visiting : list string;
  se_done : list string }.

(** The loop over [dependent.dependsOn]: the sources to push, in order, up to
    the first edge that is refused. *)
Fixpoint push_sources (graph : jsmap PhaseEntry) (dependent : PhaseEntry) (ids : list string)
    (stack : list stack_item) : GraphViolation + list stack_item :=
  match ids with
  | [] => inr stack
  | id :: rest =>
      match map_get id graph with
      | None => push_sources graph dependent rest stack
      | Some source =>
          if bool_decide (source.(pe_phase) = Some "source")
             && bool_decide (dependent.(pe_phase) <> Some "integration")
          then inl (Source_requires_integration dependent.(pe_id) id)
          else push_sources graph dependent rest (Enter source :: stack)
      end
  end.

Definition remove_id (id : string) (l : list string) : list string :=
  List.filter (fun x => negb (bool_decide (x = id))) l.

(** One turn of [while (stack.length)]; the head of the list is the top. *)
Definition search_step (graph : jsmap PhaseEntry) (s : search) : GraphViolation + search :=
  match s.(se_stack) with
  | [] => inr s
  | Leave dependent :: stack =>
      inr {| se_stack := stack; se_visiting := remove_id dependent.(pe_id) s.(se_visiting);
             se_done := dependent.(pe_id) :: s.(se_done) |}
  | Enter dependent :: stack =>
      if bool_decide (dependent.(pe_id) ∈ s.(se_visiting)) then inl (Cycle_detected dependent.(pe_id))
      else if bool_decide (dependent.(pe_id) ∈ s.(se_done))
      then inr {| se_stack := stack; se_visiting := s.(se_visiting); se_done := s.(se_done) |}
      else match push_sources graph dependent (pe_deps dependent) (Leave dependent :: stack) with
           | inl v => inl v
           | inr stack' => inr {| se_stack := stack'; se_visiting := dependent.(pe_id) :: s.(se_visiting);
                                  se_done := s.(se_done) |}
           end
  end.

(** [None] when the fuel runs out. *)
Fixpoint search_loop (fuel : nat) (graph : jsmap PhaseEntry) (s : search) : option (GraphViolation + search) :=
  match s.(se_stack), fuel with
  | [], _ => Some (inr s)
  | _, O => None
  | _, S fuel => match search_step graph s with
                 | inl v => Some (inl v)
                 | inr s' => search_loop fuel graph s'
                 end
  end.

(** A node is expanded once and pushes its marker and its sources. *)
Definition node_cost (e : PhaseEntry) : nat := 2 + length (pe_deps e).

Definition search_fuel (graph : jsmap PhaseEntry) : nat :=
  1 + list_sum (map (fun p => node_cost p.2) graph).

Fixpoint search_roots (graph : jsmap PhaseEntry) (entries : list PhaseEntry) (visiting done : list string)
  : option (option GraphViolation) :=
  match entries with
  | [] => Some None
  | entry :: rest =>
      match search_loop (search_fuel graph) graph
              {| se_stack := [Enter entry]; se_visiting := visiting; se_done := done |} with
      | None => None
      | Some (inl v) => Some (Some v)
      | Some (inr s) => search_roots graph rest s.(se_visiting) s.(se_done)
      end
  end.

Definition dependencyViolation (entries : list PhaseEntry) (graph : jsmap PhaseEntry)
  : option (option GraphViolation) := search_roots graph entries [] [].

Definition sourceDependencyViolation (entry : PhaseEntry) (graph : jsmap PhaseEntry)
  : option (option GraphViolation) := dependencyViolation [entry] graph.

(** [None] when the assertion throws the violation. *)
Definition assertSourceDependencyGraph (entries : list PhaseEntry) : option (option GraphViolation) :=
  dependencyViolation entries (map_of (map (fun e => (e.(pe_id), e)) entries)).

(** * The dependency search decides authority

    The search of [PhaseGraph] ends on every graph and refuses exactly when a
    reachable task lies on a cycle or has a source prerequisite without being
    an integration task. *)

(** ** What a walk has still to visit *)

Lemma list_sum_cons n l : list_sum (n :: l) = (n + list_sum l)%nat.
Proof. reflexivity. Qed.

Section Unvisited.
Context {A : Type} (cost : A -> nat).

(** The cost of the entries of a map whose keys were not seen. *)
Definition unvisited (m : jsmap A) (seen : list string) : nat :=
  list_sum (map (fun p => if bool_decide (p.1 ∈ seen) then 0%nat else cost p.2) m).

Lemma unvisited_mono m (seen seen' : list string) :
  (forall id, In id seen -> In id seen') -> (unvisited m seen' <= unvisited m seen)%nat.
Proof.
  intros H. unfold unvisited. induction m as [|[k e] m IH]; [cbn; lia|].
  cbn [map fst snd]. rewrite !list_sum_cons. case_bool_decide as Ka; case_bool_decide as Kb; try lia.
  rewrite list_elem_of_In in Ka. rewrite list_elem_of_In in Kb. exfalso. auto.
Qed.

Lemma unvisited_visit m (seen : list string) k x :
  ~ In k seen -> map_get k m = Some x -> (unvisited m (k :: seen) + cost x <= unvisited m seen)%nat.
Proof.
  intros N G. apply map_get_In in G. induction m as [|[k' e] m IH]; [destruct G|].
  pose proof (unvisited_mono m seen (k :: seen) ltac:(cbn; auto)) as M. unfold unvisited in *.
  cbn [map fst snd]. rewrite !list_sum_cons. destruct G as [[= -> ->]|G].
  - rewrite bool_decide_eq_true_2 by left. rewrite bool_decide_eq_false_2 by (rewrite list_elem_of_In; exact N). lia.
  - specialize (IH G). case_bool_decide as Ka; case_bool_decide as Kb; try lia. rewrite elem_of_cons in Ka. tauto.
Qed.

Lemma unvisited_all m (seen : list string) : (unvisited m seen <= list_sum (map (fun p => cost p.2) m))%nat.
Proof.
  unfold unvisited. induction m as [|[k e] m IH]; [cbn; lia|]. cbn [map fst snd]. rewrite !list_sum_cons. case_bool_decide; lia.
Qed.
End Unvisited.

Section Search.
Context (graph : jsmap PhaseEntry).
Implicit Types (e x y : PhaseEntry) (s : search).

(** Entries are filed under their own id. *)
Definition keyed_graph : Prop := forall k e, map_get k graph = Some e -> e.(pe_id) = k.

Definition depends x y : Prop := exists id, In id (pe_deps x) /\ map_get id graph = Some y.

(** A source is a prerequisite of integration tasks only. *)
Definition legal x y : Prop := y.(pe_phase) = Some "source" -> x.(pe_phase) = Some "integration".

(** What the search of an entry is meant to establish. *)
Definition authorised e : Prop :=
  (forall x y, rtc depends e x -> depends x y -> legal x y)
  /\ (forall x, rtc depends e x -> ~ tc depends x x).

(** ** Pushing the sources of an entry *)

Lemma push_sources_ok x ids stack stack' :
  push_sources graph x ids stack = inr stack' ->
  exists pushed, stack' = pushed ++ stack
    /\ (length pushed <= length ids)%nat
    /\ (forall it, In it pushed -> exists y id, it = Enter y /\ In id ids /\ map_get id graph = Some y)
    /\ (forall id y, In id ids -> map_get id graph = Some y -> legal x y /\ In (Enter y) pushed).
Proof.
  revert stack; induction ids as [|id ids IH]; intros stack; cbn.
  - intros [= <-]. exists []. cbn. repeat split; try tauto. lia.
  - destruct (map_get id graph) as [src|] eqn:G.
    + destruct (_ && _) eqn:B; [discriminate|]. intros H.
      destruct (IH _ H) as (pushed & -> & L & P & C).
      exists (pushed ++ [Enter src]). rewrite <- app_assoc, length_app. cbn. split; [reflexivity|].
      split; [lia|]. split.
      * intros it I. apply in_app_iff in I as [I|[<-|[]]]; [|eauto 6].
        destruct (P it I) as (y & i & ? & ? & ?). eauto 7.
      * intros i y [<-|I] E; [|destruct (C i y I E); split; [auto | apply in_app_iff; auto]].
        replace y with src by congruence. split; [|apply in_app_iff; cbn; auto].
        intros Hs. apply andb_false_iff in B as [B|B]; apply bool_decide_eq_false in B; [contradiction|].
        destruct (decide (pe_phase x = Some "integration")); [assumption | contradiction].
    + intros H. destruct (IH _ H) as (pushed & -> & L & P & C). exists pushed.
      split; [reflexivity|]. split; [lia|]. split.
      * intros it I. destruct (P it I) as (y & i & ? & ? & ?). eauto 7.
      * intros i y [<-|I] E; [congruence | eauto].
Qed.

Lemma push_sources_refused x ids stack v :
  push_sources graph x ids stack = inl v ->
  exists id y, In id ids /\ map_get id graph = Some y /\ ~ legal x y
    /\ v = Source_requires_integration x.(pe_id) id.
Proof.
  revert stack; induction ids as [|id ids IH]; intros stack; cbn; [discriminate|].
  destruct (map_get id graph) as [src|] eqn:G.
  - destruct (_ && _) eqn:B.
    + intros [= <-]. apply andb_true_iff in B as [B1 B2]. apply bool_decide_eq_true in B1, B2.
      exists id, src. split; [auto|]. split; [exact G|]. split; [|reflexivity]. intros L. exact (B2 (L B1)).
    + intros H. destruct (IH _ H) as (i & y & ? & ?). eauto 6.
  - intros H. destruct (IH _ H) as (i & y & ? & ?). eauto 6.
Qed.

(** ** The invariant of the loop *)

Definition item_entry (it : stack_item) : PhaseEntry := match it with Enter e | Leave e => e end.

(** The stack holds the path that is being visited, nearest first, and above
    each of its entries the prerequisites still to enter. *)
Inductive shaped : list stack_item -> list PhaseEntry -> Prop :=
| shaped_nil : shaped [] []
| shaped_root e : shaped [Enter e] []
| shaped_enter y stack x path : shaped stack (x :: path) -> depends x y -> shaped (Enter y :: stack) (x :: path)
| shaped_first x : shaped [Leave x] [x]
| shaped_leave x stack p path : shaped stack (p :: path) -> depends p x -> shaped (Leave x :: stack) (x :: p :: path).

(** Every prerequisite of an entry on the path is done or above it. *)
Definition covered (stack : list stack_item) (done : list string) : Prop :=
  forall above x below, stack = above ++ Leave x :: below ->
    forall y, depends x y -> legal x y /\ (In y.(pe_id) done \/ In y (map item_entry above)).

(** The done entries, last first: their prerequisites were done before. *)
Fixpoint topological (done : list string) : Prop :=
  match done with
  | [] => True
  | id :: before =>
      (exists e, map_get id graph = Some e /\ forall y, depends e y -> legal e y /\ In y.(pe_id) before)
      /\ topological before
  end.

Record search_inv (R : PhaseEntry -> Prop) s : Prop := {
  sv_path : exists path, shaped s.(se_stack) path /\ s.(se_visiting) = map pe_id path;
  sv_distinct : NoDup s.(se_visiting);
  sv_covered : covered s.(se_stack) s.(se_done);
  sv_topological : topological s.(se_done);
  sv_known : forall it, In it s.(se_stack) ->
    map_get (item_entry it).(pe_id) graph = Some (item_entry it) /\ R (item_entry it) }.

(** ** Steps keep the invariant *)

Context (R : PhaseEntry -> Prop).
Hypothesis graph_keyed : keyed_graph.
Hypothesis R_depends : forall x y, R x -> depends x y -> R y.

Lemma depends_known x y : depends x y -> map_get y.(pe_id) graph = Some y.
Proof. intros (id & _ & E). rewrite (graph_keyed _ _ E). exact E. Qed.

Lemma shaped_pushed x pushed stack path :
  shaped (Leave x :: stack) (x :: path) ->
  (forall it, In it pushed -> exists y, it = Enter y /\ depends x y) ->
  shaped (pushed ++ Leave x :: stack) (x :: path).
Proof.
  intros S. induction pushed as [|it pushed IH]; intros P; [exact S|].
  destruct (P it (or_introl eq_refl)) as (y & -> & D). cbn. apply shaped_enter; [|exact D].
  apply IH. intros it' I. apply P. right. exact I.
Qed.

Lemma remove_head id l : NoDup (id :: l) -> remove_id id (id :: l) = l.
Proof.
  intros N. apply NoDup_cons in N as [N _]. unfold remove_id. cbn.
  rewrite bool_decide_eq_true_2 by reflexivity. cbn.
  induction l as [|x l IH]; [reflexivity|]. cbn. rewrite bool_decide_eq_false_2; cbn.
  - f_equal. apply IH. intros I. apply N. right. exact I.
  - intros ->. apply N. left.
Qed.

#[local] Arguments remove_id : simpl never.

Lemma leave_inv x stack visiting done :
  search_inv R {| se_stack := Leave x :: stack; se_visiting := visiting; se_done := done |} ->
  search_inv R {| se_stack := stack; se_visiting := remove_id x.(pe_id) visiting; se_done := x.(pe_id) :: done |}.
Proof.
  intros [(path & S & V) N C T K]. cbn in *. subst visiting.
  assert (P : exists rest, path = x :: rest /\ shaped stack rest).
  { inversion S; subst; eexists; split; eauto; constructor. }
  destruct P as (rest & -> & S'). cbn in N |- *. pose proof N as N'. apply NoDup_cons in N' as [_ N'].
  rewrite (remove_head _ _ N). split; cbn.
  - exists rest. auto.
  - exact N'.
  - intros above z below E y D. destruct (C (Leave x :: above) z below) with (y := y) as [L I]; [rewrite E; reflexivity | exact D|].
    split; [exact L|]. cbn in I |- *. destruct I as [I|[<-|I]]; tauto.
  - split; [|exact T]. exists x. split; [apply (K (Leave x)); left; reflexivity|]. intros y D.
    destruct (C [] x stack eq_refl y D) as [L [I|[]]]. auto.
  - intros it I. apply K. right. exact I.
Qed.

Lemma skip_inv x stack visiting done :
  In x.(pe_id) done ->
  search_inv R {| se_stack := Enter x :: stack; se_visiting := visiting; se_done := done |} ->
  search_inv R {| se_stack := stack; se_visiting := visiting; se_done := done |}.
Proof.
  intros Dn [(path & S & V) N C T K]. cbn in *. split; cbn; auto.
  - exists path. split; [|exact V]. inversion S; subst; [constructor | assumption].
  - intros above z below E y D. destruct (C (Enter x :: above) z below) with (y := y) as [L I]; [rewrite E; reflexivity | exact D|].
    split; [exact L|]. cbn in I. destruct I as [I|[<-|I]]; auto.
Qed.

Lemma split_pushed pushed (x z : PhaseEntry) stack above below :
  (forall it, In it pushed -> exists y, it = Enter y) ->
  pushed ++ Leave x :: stack = above ++ Leave z :: below ->
  (above = pushed /\ z = x) \/ exists above', above = pushed ++ Leave x :: above' /\ stack = above' ++ Leave z :: below.
Proof.
  revert above; induction pushed as [|it pushed IH]; intros above P E.
  - destruct above as [|it above]; cbn in E; injection E as E1 E2.
    + left. subst. auto.
    + right. subst. eauto.
  - destruct above as [|it' above]; cbn in E; injection E as E1 E2.
    + destruct (P it (or_introl eq_refl)) as (y & ->). discriminate.
    + destruct (IH above) as [[-> ->]|(above' & -> & ->)]; auto.
      * intros i I. apply P. right. exact I.
      * left. subst. auto.
      * right. exists above'. subst. auto.
Qed.

Lemma expand_inv x stack visiting done stack' :
  ~ In x.(pe_id) visiting ->
  push_sources graph x (pe_deps x) (Leave x :: stack) = inr stack' ->
  search_inv R {| se_stack := Enter x :: stack; se_visiting := visiting; se_done := done |} ->
  search_inv R {| se_stack := stack'; se_visiting := x.(pe_id) :: visiting; se_done := done |}.
Proof.
  intros F Pu [(path & S & V) N C T K]. cbn in *. subst visiting.
  destruct (push_sources_ok _ _ _ _ Pu) as (pushed & -> & _ & P & A).
  assert (P' : forall it, In it pushed -> exists y, it = Enter y /\ depends x y).
  { intros it I. destruct (P it I) as (y & id & ? & ? & ?). exists y. split; [auto|]. exists id. auto. }
  split; cbn.
  - exists (x :: path). split; [|reflexivity]. apply shaped_pushed; [|exact P'].
    inversion S; subst; [constructor | apply shaped_leave; assumption].
  - apply NoDup_cons. rewrite list_elem_of_In. auto.
  - intros above z below E y D. destruct (split_pushed pushed x z stack above below) as [[-> ->]|(above' & -> & E')].
    + intros it I. destruct (P' it I) as (w & ? & _). eauto.
    + exact E.
    + destruct D as (id & I & G). destruct (A id y I G) as [L Ip]. split; [exact L|]. right.
      apply in_map_iff. exists (Enter y). auto.
    + destruct (C (Enter x :: above') z below) with (y := y) as [L I]; [rewrite E'; reflexivity | exact D|].
      split; [exact L|]. destruct I as [I|I]; [auto|]. right. rewrite map_app. apply in_app_iff. right. exact I.
  - exact T.
  - intros it I. apply in_app_iff in I as [I|[<-|I]].
    + destruct (P' it I) as (y & -> & D). cbn. split; [exact (depends_known _ _ D)|].
      apply (R_depends x); [|exact D]. apply (K (Enter x)). left. reflexivity.
    + cbn. apply (K (Enter x)). left. reflexivity.
    + apply K. right. exact I.
Qed.

(** ** A refusal is a violation *)

Inductive violates (R' : PhaseEntry -> Prop) : GraphViolation -> Prop :=
| violates_cycle x : R' x -> tc depends x x -> violates R' (Cycle_detected x.(pe_id))
| violates_source x y : R' x -> depends x y -> ~ legal x y ->
    violates R' (Source_requires_integration x.(pe_id) y.(pe_id)).

Lemma shaped_path stack path x :
  shaped stack path -> In x path -> exists p rest, path = p :: rest /\ rtc depends x p.
Proof.
  intros S. revert x. induction S as [ | | y stack p path S IH D | p | p stack q path S IH D]; intros x; cbn.
  - intros [].
  - intros [].
  - exact (IH x).
  - intros [<-|[]]. exists p, []. split; [reflexivity | apply rtc_refl].
  - intros [<-|I]; [exists p, (q :: path); split; [reflexivity | apply rtc_refl]|].
    destruct (IH x I) as (r & rest & [= -> ->] & Reach).
    exists p, (r :: rest). split; [reflexivity|]. eapply rtc_r; eauto.
Qed.

Lemma shaped_on_stack stack path z : shaped stack path -> In z path -> In (Leave z) stack.
Proof.
  induction 1; cbn; try tauto.
  - intros I. right. apply IHshaped. exact I.
  - intros [<-|[]]. auto.
  - intros [<-|I]; [auto|]. right. apply IHshaped. exact I.
Qed.

Lemma step_refused s v : search_inv R s -> search_step graph s = inl v -> violates R v.
Proof.
  destruct s as [[|[x|x] stack] visiting done]; [discriminate | | discriminate].
  intros [(path & S & V) N C T K]. cbn in *. subst visiting.
  pose proof (K (Enter x) (or_introl eq_refl)) as [G Rx]. cbn in G, Rx. case_bool_decide as Vi.
  - intros [= <-]. apply violates_cycle; [exact Rx|].
    apply list_elem_of_In, in_map_iff in Vi as (z & Ez & Iz).
    inversion S; subst; [destruct Iz|].
    assert (z = x) as ->.
    { match goal with H : shaped stack _ |- _ => pose proof (shaped_on_stack _ _ _ H Iz) as J end.
      pose proof (K (Leave z) (or_intror J)) as [Gz _]. cbn in Gz.
      rewrite Ez in Gz. congruence. }
    match goal with H : shaped stack _ |- _ => destruct (shaped_path _ _ _ H Iz) as (p & rest & [= <- <-] & Reach) end.
    eapply tc_rtc_l; [exact Reach | apply tc_once; assumption].
  - case_bool_decide; [discriminate|].
    destruct (push_sources _ _ _ _) as [v'|] eqn:P; [|discriminate]. intros [= <-].
    destruct (push_sources_refused _ _ _ _ P) as (id & y & I & Gy & L & ->).
    rewrite <- (graph_keyed _ _ Gy). apply violates_source; [exact Rx | | exact L]. exists id. auto.
Qed.

(** ** The search ends *)

Definition search_measure s : nat := unvisited node_cost graph (s.(se_visiting) ++ s.(se_done)) + length s.(se_stack).

Lemma step_inv s s' : s.(se_stack) <> [] -> search_inv R s -> search_step graph s = inr s' ->
  search_inv R s' /\ (search_measure s' < search_measure s)%nat.
Proof.
  destruct s as [[|[x|x] stack] visiting done]; [contradiction | |]; intros _ I; cbn.
  - case_bool_decide as Vi; [discriminate|]. rewrite list_elem_of_In in Vi. case_bool_decide as Dn.
    + intros [= <-]. rewrite list_elem_of_In in Dn. split; [exact (skip_inv _ _ _ _ Dn I)|].
      unfold search_measure. cbn. lia.
    + destruct (push_sources _ _ _ _) as [v|stack'] eqn:P; [discriminate|]. intros [= <-].
      split; [exact (expand_inv _ _ _ _ _ Vi P I)|]. rewrite list_elem_of_In in Dn.
      destruct (push_sources_ok _ _ _ _ P) as (pushed & -> & L & _).
      destruct (sv_known _ _ I (Enter x) (or_introl eq_refl)) as [G _]. cbn in G.
      pose proof (unvisited_visit node_cost graph (visiting ++ done) x.(pe_id) x) as F. rewrite in_app_iff in F.
      specialize (F ltac:(tauto) G). unfold search_measure, node_cost in *. cbn [se_stack se_visiting se_done].
      rewrite length_app. cbn [length app] in *. lia.
  - intros [= <-]. split; [exact (leave_inv _ _ _ _ I)|]. unfold search_measure. cbn [se_stack se_visiting se_done].
    pose proof (sv_path _ _ I) as (path & S & V). cbn in S, V. subst visiting.
    pose proof (sv_distinct _ _ I) as N. cbn in N.
    assert (exists rest, path = x :: rest) as (rest & ->) by (inversion S; subst; eauto).
    cbn in N |- *. rewrite (remove_head _ _ N).
    match goal with |- (unvisited _ _ ?a + _ < unvisited _ _ ?b + _)%nat =>
      assert (unvisited node_cost graph a <= unvisited node_cost graph b)%nat by (apply unvisited_mono; intros id J; cbn in J; rewrite in_app_iff in *; cbn; tauto) end.
    lia.
Qed.

Lemma loop_outcome fuel s :
  search_inv R s -> (search_measure s <= fuel)%nat ->
  exists r, search_loop fuel graph s = Some r /\
    match r with inl v => violates R v | inr s' => search_inv R s' /\ s'.(se_stack) = []
                 /\ (forall id, In id s.(se_done) -> In id s'.(se_done)) end.
Proof.
  revert s; induction fuel as [|fuel IH]; intros s I M; cbn.
  - destruct (se_stack s) eqn:E; [exists (inr s); auto|]. unfold search_measure in M. rewrite E in M. cbn [length] in M. lia.
  - destruct (se_stack s) as [|it stack] eqn:E; [exists (inr s); auto|].
    destruct (search_step graph s) as [v|s'] eqn:St.
    + exists (inl v). split; [reflexivity | exact (step_refused _ _ I St)].
    + destruct (step_inv s s') as [I' L]; [congruence | exact I | exact St|].
      destruct (IH s' I' ltac:(lia)) as (r & -> & O). exists r. split; [reflexivity|].
      destruct r as [v|s'']; [exact O|]. destruct O as (? & ? & Sub). split; [assumption|]. split; [assumption|].
      intros id J. apply Sub. revert St J. unfold search_step. rewrite E.
      destruct it; repeat case_bool_decide; try discriminate.
      * intros [= <-]. auto.
      * destruct (push_sources _ _ _ _); [discriminate|]. intros [= <-]. auto.
      * intros [= <-]. cbn. auto.
Qed.

(** ** Authority *)

Lemma topological_closed done x y :
  topological done -> In x.(pe_id) done -> map_get x.(pe_id) graph = Some x -> depends x y ->
  legal x y /\ In y.(pe_id) done.
Proof.
  induction done as [|id before IH]; [intros _ []|].
  intros [(e & G & A) T] [->|I] Gx D.
  - replace e with x in A by congruence. destruct (A y D). split; [assumption | right; assumption].
  - destruct (IH T I Gx D). split; [assumption | right; assumption].
Qed.

Lemma topological_reach done x y :
  topological done -> In x.(pe_id) done -> map_get x.(pe_id) graph = Some x -> rtc depends x y ->
  In y.(pe_id) done /\ map_get y.(pe_id) graph = Some y.
Proof.
  intros T I G Re. induction Re as [x|x z y D Re IH]; [auto|].
  apply IH; [exact (proj2 (topological_closed _ _ _ T I G D)) | exact (depends_known _ _ D)].
Qed.

Lemma topological_suffix (id : string) before after : topological (after ++ id :: before) -> topological (id :: before).
Proof. induction after as [|x after IH]; [auto|]. intros [_ T]. exact (IH T). Qed.

(** Following prerequisites leads to strictly earlier entries. *)
Lemma topological_acyclic done x : topological done -> In x.(pe_id) done ->
  map_get x.(pe_id) graph = Some x -> ~ tc depends x x.
Proof.
  revert x; induction done as [|id before IH]; intros x T I G; [destruct I|].
  destruct (in_dec String.string_dec x.(pe_id) before) as [B|B]; [exact (IH x (proj2 T) B G)|].
  destruct I as [->|I]; [|contradiction]. intros C. destruct T as [(e & Ge & A) T].
  replace e with x in A by congruence.
  assert (E : exists z, depends x z /\ rtc depends z x)
    by (inversion C; subst; [exists x; split; [assumption | apply rtc_refl] | eexists; split; [eassumption | apply tc_rtc; assumption]]).
  destruct E as (z & D & Re). destruct (A z D) as [_ Iz].
  destruct (topological_reach before z x T Iz (depends_known _ _ D) Re) as [Ix _]. contradiction.
Qed.

Lemma done_authorised done e : topological done -> In e.(pe_id) done -> map_get e.(pe_id) graph = Some e -> authorised e.
Proof.
  intros T I G. split.
  - intros x y Re D. destruct (topological_reach _ _ _ T I G Re) as [Ix Gx].
    exact (proj1 (topological_closed _ _ _ T Ix Gx D)).
  - intros x Re. destruct (topological_reach _ _ _ T I G Re) as [Ix Gx].
    exact (topological_acyclic _ _ T Ix Gx).
Qed.

Lemma start_inv e done : R e -> map_get e.(pe_id) graph = Some e -> topological done ->
  search_inv R {| se_stack := [Enter e]; se_visiting := []; se_done := done |}.
Proof.
  intros Re G T. split; cbn.
  - exists []. split; [constructor | reflexivity].
  - constructor.
  - intros above x below E. destruct above as [|a [|b above]]; discriminate.
  - exact T.
  - intros it [<-|[]]. auto.
Qed.

(** The entry the loop started from stays at the bottom until it is done. *)
Definition pending_or_done e s : Prop :=
  (exists above it, s.(se_stack) = above ++ [it] /\ item_entry it = e) \/ In e.(pe_id) s.(se_done).

Lemma step_pending e s s' : s.(se_stack) <> [] -> pending_or_done e s -> search_step graph s = inr s' ->
  pending_or_done e s'.
Proof.
  destruct s as [[|it stack] visiting done]; [contradiction|]. intros _ H. unfold pending_or_done in *. cbn in H |- *.
  destruct it as [x|x].
  - case_bool_decide; [discriminate|]. case_bool_decide as Dn.
    + intros [= <-]. cbn. rewrite list_elem_of_In in Dn. destruct H as [([|a above] & it & [= <- E] & <-)|H]; cbn; eauto.
    + destruct (push_sources _ _ _ _) as [|st] eqn:P; [discriminate|]. intros [= <-]. cbn.
      destruct (push_sources_ok _ _ _ _ P) as (pushed & -> & _).
      destruct H as [([|a above] & it & [= <- E] & <-)|H]; [left|left|auto].
      * subst stack. exists pushed, (Leave x). auto.
      * subst stack. exists (pushed ++ Leave x :: above), it. rewrite <- app_assoc. auto.
  - intros [= <-]. cbn. destruct H as [([|a above] & it & [= <- E] & <-)|H]; cbn; eauto.
Qed.

Lemma loop_done fuel e s s' : pending_or_done e s -> search_loop fuel graph s = Some (inr s') -> In e.(pe_id) s'.(se_done).
Proof.
  assert (Last : forall s0, se_stack s0 = [] -> pending_or_done e s0 -> In e.(pe_id) (se_done s0)).
  { intros s0 E [(above & it & E' & _)|H]; [|exact H]. rewrite E in E'. destruct above; discriminate. }
  revert s; induction fuel as [|fuel IH]; intros s H; cbn; destruct (se_stack s) as [|it l] eqn:E;
    try discriminate; try (intros [= <-]; auto).
  destruct (search_step graph s) as [v|s1] eqn:St; [discriminate|]. apply IH.
  apply (step_pending _ s); [congruence | exact H | exact St].
Qed.

Lemma search_start_measure e done :
  (search_measure {| se_stack := [Enter e]; se_visiting := []; se_done := done |} <= search_fuel graph)%nat.
Proof.
  unfold search_measure, search_fuel. cbn [se_stack se_visiting se_done length app].
  pose proof (unvisited_all node_cost graph done). lia.
Qed.

Lemma roots_outcome entries done :
  topological done -> (forall e, In e entries -> R e /\ map_get e.(pe_id) graph = Some e) ->
  exists r, search_roots graph entries [] done = Some r /\
    match r with Some v => violates R v | None => forall e, In e entries -> authorised e end.
Proof.
  revert done; induction entries as [|e entries IH]; intros done T K; cbn [search_roots].
  - exists None. split; [reflexivity | intros e []].
  - destruct (K e (or_introl eq_refl)) as [Re Ge].
    destruct (loop_outcome _ _ (start_inv e done Re Ge T) (search_start_measure e done)) as (r & L & O).
    rewrite L. destruct r as [v|s]; [exists (Some v); auto|]. destruct O as (I & E & Sub).
    destruct (sv_path _ _ I) as (path & S & V). rewrite E in S. inversion S; subst path. cbn in V. rewrite V.
    destruct (IH (se_done s) (sv_topological _ _ I) (fun x J => K x (or_intror J))) as (r & -> & O).
    exists r. split; [reflexivity|]. destruct r as [v|]; [exact O|].
    intros x [<-|J]; [|auto]. apply (done_authorised (se_done s)); [exact (sv_topological _ _ I) | | exact Ge].
    refine (loop_done _ _ _ _ _ L). left. exists [], (Enter e). split; reflexivity.
Qed.
End Search.

(** C28: The search of any graph whose entries are filed under their ids ends, and
    accepts exactly when each root is authorised: no reachable task has a
    source prerequisite without being an integration task, and none lies on a
    cycle.  A refusal names such a task, reachable from a root. *)
Theorem search_decides graph entries :
  keyed_graph graph -> (forall e, In e entries -> map_get e.(pe_id) graph = Some e) ->
  exists r, dependencyViolation entries graph = Some r
    /\ (r = None <-> forall e, In e entries -> authorised graph e)
    /\ (forall v, r = Some v ->
         violates graph (fun x => exists e, In e entries /\ rtc (depends graph) e x) v).
Proof.
  intros Hk Hr. set (R := fun x => exists e, In e entries /\ rtc (depends graph) e x).
  assert (Rd : forall x y, R x -> depends graph x y -> R y).
  { intros x y (e & I & Re) D. exists e. split; [exact I|]. eapply rtc_r; eauto. }
  destruct (roots_outcome graph R Hk Rd entries []) as (r & E & O); [exact I| |].
  { intros e J. split; [exists e; split; [exact J | apply rtc_refl] | auto]. }
  exists r. split; [exact E|]. split; [|intros v ->; exact O].
  split; [intros ->; exact O|]. intros A. destruct r as [v|]; [exfalso|reflexivity].
  destruct O as [x (e & J & Re) C | x y (e & J & Re) D L]; destruct (A e J) as [Le Ac].
  - exact (Ac x Re C).
  - exact (L (Le x y Re D)).
Qed.

(** ** A diamond, a cycle and an illegal edge *)

Definition task (id : string) (phase : option string) (deps : list string) : PhaseEntry :=
  {| pe_id := id; pe_phase := phase; pe_dependsOn := Some deps |}.

Definition diamond : jsmap PhaseEntry :=
  [("d", task "d" (Some "integration") ["b"; "c"; "gone"]); ("b", task "b" None ["a"]);
   ("c", task "c" (Some "source") ["a"; "a"]); ("a", task "a" None [])].

Example diamond_accepted : sourceDependencyViolation (task "d" (Some "integration") ["b"; "c"; "gone"]) diamond = Some None.
Proof. reflexivity. Qed.

Example violations_found :
  sourceDependencyViolation (task "e" None ["c"]) diamond = Some (Some (Source_requires_integration "e" "c"))
  /\ assertSourceDependencyGraph [task "x" None ["y"]; task "y" None ["x"]] = Some (Some (Cycle_detected "x")).
Proof. split; reflexivity. Qed.

Lemma diamond_keyed : keyed_graph diamond.
Proof. intros k e. cbn. repeat case_decide; intros E; inversion E; subst; reflexivity. Qed.

Lemma search_decides_witness :
  exists r, dependencyViolation [task "d" (Some "integration") ["b"; "c"; "gone"]] diamond = Some r
    /\ (r = None <-> forall e, In e [task "d" (Some "integration") ["b"; "c"; "gone"]] -> authorised diamond e)
    /\ (forall v, r = Some v -> violates diamond
         (fun x => exists e, In e [task "d" (Some "integration") ["b"; "c"; "gone"]] /\ rtc (depends diamond) e x) v).
Proof.
  apply (search_decides diamond); [exact diamond_keyed|]. intros e [<-|[]]. reflexivity.
Defined.
