(* ===== verification/QueueTypes.v ===== *)
(** * Rows of the work queue and the predicates on them

    The fields of [MeshWorkQueueEntry] the queue reads and writes
    (daemon-core/src/mesh/mesh-work-queue-types.ts; a model or thinking level
    with its source, the parts of the input as text), the rows of the table
    [mesh_queue] that carry them, and the predicates the schedulers share:
    mesh-task-predicates.ts, light-claim-rule.ts, mesh-daemon-slot-axis.ts,
    mesh-node-capability-tags.ts, mesh-dirty-write-verdict.ts and
    slot-model-enforcement.ts.

    A row keeps columns beside its payload; [toRow] writes both from one entry,
    the claim reads its candidates by the columns and decides on the payload.
    Parsing of dates and their ISO text are parameters of the definitions that
    use them. *)

From Stdlib Require Import Ascii.
From S2P Require Import Prelude DaemonId PathOwnership PhaseGraph TurnEvidence TurnTypes TurnStore StageTypes StageRows.

#[local] Open Scope Z_scope.

(** ** Physical scopes *)

Record OwnedResource : Set := { rs_path : string; rs_identity : option string; rs_subtree : bool }.

Record GitResources : Set := { gr_index : string; gr_refs : string; gr_hooks : string; gr_config : string }.

Record PhysicalOwnershipScope : Set := {
  sc_version : Z;
  sc_repoIdentity : string;
  sc_machineId : string;
  sc_nodeId : string;
  sc_worktree : string;
  sc_worktreeIdentity : string;
  sc_gitDir : string;
  sc_commonGitDir : string;
  sc_phase : string;
  sc_gitResources : GitResources;
  sc_resources : list OwnedResource;
  sc_declaration : list OwnedPathEntry }.

(** ** Entries *)

(** What a hold advises, by the case that produced the text. *)
Inductive HoldResolution : Set :=
| Res_candidate_unattested (blocker : string)
| Res_blocker_unverifiable (blocker : string)
| Res_blocker_unattested (blocker : string)
| Res_resource (blocker : string)
| Res_declare_paths
| Res_forbidden (message : string)
| Res_attestation_pending
| Res_attestation_failed (message : string)
| Res_not_attestable (message : string).

Record OverlapPair : Set := { op_taskId : string; op_ownedPath : string; op_blockingPath : string }.

Record HoldDetail : Set := {
  hd_message : option string;
  hd_overlappingPaths : option (list OverlapPair);
  hd_unknownField : option string;
  hd_canonicalResource : option string;
  hd_resolution : option HoldResolution }.

Definition no_detail : HoldDetail :=
  {| hd_message := None; hd_overlappingPaths := None; hd_unknownField := None;
     hd_canonicalResource := None; hd_resolution := None |}.

Record MeshQueueHold : Set := {
  mh_reason : string;
  mh_since : string;
  mh_blockingTaskIds : list string;
  mh_detail : HoldDetail }.

Record MeshReviewConstraint : Set := { rc_sourceTaskId : string; rc_independence : option string }.

Record AutoLaunch : Set := {
  al_status : string; al_nodeId : option string; al_providerType : option string; al_updatedAt : string }.

Record OverlapWarning : Set := { ow_taskId : string; ow_overlappingPaths : list string }.

Record MeshTaskParking : Set := {
  tp_reason : string; tp_parkedAt : string; tp_targetSessionId : option string; tp_targetNodeId : option string }.

(** Who supplied a model or a thinking level. *)
Inductive ValueSource : Set := from_caller | from_preset.
#[global] Instance ValueSource_eq_dec : EqDecision ValueSource.
Proof. solve_decision. Defined.

Record MeshRoutingPreferences : Set := { rp_nodeIds : option (list string); rp_providers : option (list string) }.

(** What a revision remembers of the row it replaced. *)
Record RevisionRecord : Set := {
  rh_revision : Z; rh_at : string; rh_actor : string; rh_message : string; rh_ownedPaths : option OwnedPathsDeclaration;
  rh_phase : option string; rh_dependsOn : option (list string); rh_ownershipScope : option PhysicalOwnershipScope;
  rh_routingPreferences : option MeshRoutingPreferences; rh_review : option MeshReviewConstraint;
  rh_difficulty : option string; rh_model : option (string * ValueSource); rh_thinkingLevel : option (string * ValueSource) }.

Record ClaimEntry : Set := {
  ce_id : string;
  ce_message : string;
  ce_status : MeshTaskStatus;
  ce_parked : option MeshTaskParking;
  ce_taskMode : option string;
  ce_readonly : option bool;
  ce_light : bool;
  ce_lightWorkspaceId : option string;
  ce_targetNodeId : option string;
  ce_targetSessionId : option string;
  ce_requiredTags : option (list string);
  ce_priority : option string;
  ce_notBefore : option string;
  ce_dependsOn : option (list string);
  ce_difficulty : option string;
  ce_phase : option string;
  ce_revision : option Z;
  ce_ownedPaths : option OwnedPathsDeclaration;
  ce_ownershipScope : option PhysicalOwnershipScope;
  ce_logicalOverlapWarnings : option (list OverlapWarning);
  ce_review : option MeshReviewConstraint;
  ce_reviewInputScope : option PhysicalOwnershipScope;
  ce_reviewerWorkspace : option string;
  ce_stagePlan : option MeshTaskStagePlan;
  ce_stageState : option MeshTaskStageState;
  ce_origin : option string;
  ce_parentTaskId : option string;
  ce_stageRole : option string;
  ce_assignedNodeId : option string;
  ce_assignedSessionId : option string;
  ce_assignedProviderType : option string;
  ce_assignedModel : option string;
  ce_assignedTranscriptProfile : option string;
  ce_attemptId : option string;
  ce_dispatchTimestamp : option string;
  ce_dispatchNonce : option Z;
  ce_claimRefusedCount : option Z;
  ce_autoLaunch : option AutoLaunch;
  ce_autoLaunchUnclaimedCount : option Z;
  ce_autoLaunchDispatchFailedCount : option Z;
  ce_quotaGateOverride : option string;
  ce_hold : option MeshQueueHold;
  ce_holdNoticeId : option string;
  ce_cancelReason : option string;
  ce_cancelledAt : option string;
  ce_requeueReason : option string;
  ce_requeuedAt : option string;
  ce_requeueCount : option Z;
  ce_maxRetries : option Z;
  ce_dispatchFailureCount : option Z;
  ce_stageRound : option Z;
  ce_missionId : option string;
  ce_inputArtifactIds : option (list string);
  ce_inheritArtifacts : option bool;
  ce_lightBaseNodeId : option string;
  ce_model : option (string * ValueSource);
  ce_thinkingLevel : option (string * ValueSource);
  ce_sourceCoordinatorSessionId : option string;
  ce_inputParts : list string;
  ce_routingPreferences : option MeshRoutingPreferences;
  ce_revisionHistory : list RevisionRecord;
  ce_updatedAt : string }.

(** A row of [mesh_queue]: the columns beside the payload. *)
Record QueueRow : Set := {
  rw_id : string;
  rw_status : MeshTaskStatus;
  rw_targetNodeId : option string;
  rw_targetSessionId : option string;
  rw_assignedNodeId : option string;
  rw_assignedSessionId : option string;
  rw_createdAt : string;
  rw_updatedAt : string;
  rw_payload : ClaimEntry }.

(** The columns [toRow] derives from an entry. *)
Definition toRow (createdAt : string) (e : ClaimEntry) : QueueRow := {|
  rw_id := e.(ce_id);
  rw_status := e.(ce_status);
  rw_targetNodeId := e.(ce_targetNodeId);
  rw_targetSessionId := e.(ce_targetSessionId);
  rw_assignedNodeId := e.(ce_assignedNodeId);
  rw_assignedSessionId := e.(ce_assignedSessionId);
  rw_createdAt := createdAt;
  rw_updatedAt := e.(ce_updatedAt);
  rw_payload := e |}.

(** ** Predicates *)

Definition task_readonly (readonly : option bool) (taskMode : option string) : bool :=
  bool_decide (readonly = Some true) || bool_decide (taskMode = Some "live_debug_readonly").

Definition isTaskReadonly (e : ClaimEntry) : bool := task_readonly e.(ce_readonly) e.(ce_taskMode).

Definition meshTaskPriorityRank (priority : option string) : Z :=
  if bool_decide (priority = Some "high") then 2
  else if bool_decide (priority = Some "low") then 0 else 1.

(** [!!readText(task?.parked?.reason)], where [readText] trims. *)
Definition taskIsParked (e : ClaimEntry) : bool :=
  match e.(ce_parked) with
  | Some parked => filled (js_trim parked.(tp_reason))
  | None => false
  end.

Section Clock.
Context (parseDate : string -> option Z).

Definition meshTaskNotBeforeReady (notBefore : option string) (nowMs : Z) : bool :=
  match notBefore with
  | Some nb =>
      if negb (filled nb) then true
      else match parseDate nb with None => true | Some parsed => parsed <=? nowMs end
  | None => true
  end.

(** A comparison with [NaN] is false. *)
Definition pendingLaunchReservation (t : ClaimEntry) (now : Z) : bool :=
  match t.(ce_autoLaunch) with
  | Some al =>
      bool_decide (t.(ce_status) = st_pending) && truthy_str al.(al_nodeId) && truthy_str al.(al_providerType)
      && (bool_decide (al.(al_status) = "started") || bool_decide (al.(al_status) = "completed"))
      && match parseDate al.(al_updatedAt) with
         | Some at_ => (-5000 <=? now - at_) && (now - at_ <? 90000)
         | None => false
         end
  | None => false
  end.
End Clock.

Definition lightClaimAllows (candidate : ClaimEntry) (sessionId : string) (sessionLightWorkspaceId : option string) : bool :=
  if negb candidate.(ce_light) then negb (truthy_str sessionLightWorkspaceId)
  else if negb (truthy_str sessionLightWorkspaceId) then false
  else match candidate.(ce_targetSessionId) with
       | Some target => filled target && sessionIdsEquivalent target sessionId
           && bool_decide (candidate.(ce_lightWorkspaceId) = sessionLightWorkspaceId)
       | None => false
       end.

Definition ce_deps (e : ClaimEntry) : list string := nullish e.(ce_dependsOn) [].

(** The slice of an entry the dependency search reads; it reads an absent list
    as an empty one. *)
Definition phase_entry (e : ClaimEntry) : PhaseEntry :=
  {| pe_id := e.(ce_id); pe_phase := e.(ce_phase); pe_dependsOn := Some (ce_deps e) |}.

(** [usable]: the registered eligibility gate of a completed prerequisite, with
    [true] for no gate and [false] where it throws. *)
Definition taskDependenciesSatisfied (usable : string -> bool) (e : ClaimEntry)
    (statusById : jsmap MeshTaskStatus) (graph : jsmap PhaseEntry) : bool :=
  match sourceDependencyViolation (phase_entry e) graph with
  | Some None =>
      forallb (fun dep => bool_decide (map_get dep statusById = Some st_completed) && usable dep) (ce_deps e)
  | _ => false
  end.

(** ** Slot budgets

    A declared cap is an integer here: configuration reads whole numbers. *)

Definition readonlySlotBudget (cap : Z) : Z := if cap <=? 1 then Z.max 0 cap else cap - 1.

Definition effectiveSlotCap (cap : option Z) (isReadonly : bool) : option Z :=
  (fun c => if isReadonly then readonlySlotBudget c else c) <$> cap.

(** ** Capability tags *)

Fixpoint first_occurrences (seen l : list string) : list string :=
  match l with
  | [] => []
  | x :: t => if bool_decide (x ∈ seen) then first_occurrences seen t
              else x :: first_occurrences (x :: seen) t
  end.

Definition normalizeMeshCapabilityTags (value : option (list string)) : list string :=
  match value with
  | None => []
  | Some tags => first_occurrences [] (List.filter filled (map js_trim tags))
  end.

Definition nodeSatisfiesRequiredTags (requiredTags capabilityTags : option (list string)) : bool :=
  let required := normalizeMeshCapabilityTags requiredTags in
  let available := normalizeMeshCapabilityTags capabilityTags in
  forallb (fun tag => bool_decide (tag ∈ available)) required.

(** ** Dirty working trees *)

Inductive DirtyWriteVerdict : Set := dw_proceed | dw_branch_continuation | dw_refuse.
#[global] Instance DirtyWriteVerdict_eq_dec : EqDecision DirtyWriteVerdict.
Proof. solve_decision. Defined.

Record DirtyWriteGate : Set := { dg_dirty : bool; dg_worktreeBranch : option string; dg_nodeId : option string }.

Definition isTaskBoundToWorktree (gate : DirtyWriteGate) (e : ClaimEntry) : bool :=
  match gate.(dg_worktreeBranch) with
  | Some branch =>
      if negb (filled branch) then false else
      let target := js_trim (nullish e.(ce_targetNodeId) "") in
      (filled target && truthy_str gate.(dg_nodeId)
       && (daemonIdsEquivalent (Some target) gate.(dg_nodeId) || meshNodeIdMatches target gate.(dg_nodeId)))
      || existsb (fun tag => bool_decide (js_trim tag = "worktree=" +:+ branch)) (nullish e.(ce_requiredTags) [])
  | None => false
  end.

Definition dirtyWriteVerdict (gate : DirtyWriteGate) (e : ClaimEntry) : DirtyWriteVerdict :=
  if negb gate.(dg_dirty) || isTaskReadonly e then dw_proceed
  else if negb (truthy_str gate.(dg_worktreeBranch)) then dw_refuse
  else if isTaskBoundToWorktree gate e then dw_branch_continuation else dw_refuse.

(** ** Model names *)

Definition CLAUDE_FAMILIES : list string := ["opus"; "sonnet"; "haiku"].

Definition MODIFIER_WORDS : list string := ["thinking"; "latest"; "preview"; "claude"; "anthropic"].

Record CanonicalModelIdentity : Set := {
  cm_family : option string; cm_version : option string; cm_literal : string }.

(** The characters [normalizeLiteral] turns into blanks: [_ / \ ( ) . , -] and
    white space. *)
Definition is_separator (c : Ascii.ascii) : bool :=
  is_js_space c || bool_decide (Ascii.nat_of_ascii c ∈ [95; 47; 92; 40; 41; 46; 44; 45]%nat).

(** The words between separators, in lower case; [pending] is the word being
    read. *)
Fixpoint model_words (pending s : string) : list string :=
  match s with
  | EmptyString => if filled pending then [pending] else []
  | String c t =>
      if is_separator c then if filled pending then pending :: model_words EmptyString t else model_words EmptyString t
      else model_words (pending +:+ String (lower_ascii c) EmptyString) t
  end.

Definition is_digits (s : string) : bool :=
  filled s && forall_chars (fun c => let n := Ascii.nat_of_ascii c in (Nat.leb 48 n && Nat.leb n 57)%bool) s.

Fixpoint after_word (w : string) (l : list string) : list string :=
  match l with [] => [] | x :: t => if decide (x = w) then t else after_word w t end.

(** No word contains a dot, so the search for a dotted version finds nothing. *)
Definition canonicalizeModelName (model : string) : option CanonicalModelIdentity :=
  match model_words EmptyString model with
  | [] => None
  | words =>
      let tokens := List.filter (fun t => negb (bool_decide (t ∈ MODIFIER_WORDS))) words in
      let family := List.find (fun f => bool_decide (f ∈ tokens)) CLAUDE_FAMILIES in
      let version := match family with
        | Some f => match List.filter is_digits (after_word f tokens) with
                    | [] => None
                    | digits => Some (String.concat "." digits)
                    end
        | None => None
        end in
      Some {| cm_family := family; cm_version := version; cm_literal := String.concat " " words |}
  end.

Definition modelNamesEquivalent (a b : string) : bool :=
  match canonicalizeModelName a, canonicalizeModelName b with
  | Some ca, Some cb =>
      match ca.(cm_family), cb.(cm_family) with
      | Some fa, Some fb =>
          bool_decide (fa = fb)
          && match ca.(cm_version), cb.(cm_version) with
             | Some va, Some vb => bool_decide (va = vb)
             | _, _ => true
             end
      | None, None => bool_decide (ca.(cm_literal) = cb.(cm_literal))
      | _, _ => false
      end
  | _, _ => false
  end.

Example model_names :
  modelNamesEquivalent "opus" "Claude Opus 4.6 (Thinking)" = true
  /\ modelNamesEquivalent "claude-opus-4-6" "Claude Opus 4.6 (Thinking)" = true
  /\ modelNamesEquivalent "claude-opus-4-6" "claude-opus-4-5" = false
  /\ modelNamesEquivalent "gpt-5_codex" "GPT 5 codex" = true.
Proof. vm_compute. auto. Qed.
