(* ===== verification/QueueOwnership.v ===== *)
(** * Physical ownership of checkouts

    daemon-core/src/mesh/mesh-physical-ownership.ts (the comparison of scopes
    and the planning cache) and the ownership half of
    mesh-runtime-store-claim.ts.  What the machine answers about its disk is a
    parameter: the attestation of a checkout, the resolution of paths and the
    local machine id.  One transaction sees one disk. *)

From S2P Require Import Prelude DaemonId TurnStore StageTypes StageRows PathOwnership QueueTypes.

#[local] Open Scope Z_scope.

#[global] Instance OwnedResource_eq_dec : EqDecision OwnedResource.
Proof. solve_decision. Defined.
#[global] Instance GitResources_eq_dec : EqDecision GitResources.
Proof. solve_decision. Defined.
#[global] Instance PhysicalOwnershipScope_eq_dec : EqDecision PhysicalOwnershipScope.
Proof. solve_decision. Defined.

(** [attestLocalOwnership]'s argument. *)
Record AttestInput : Set := {
  ai_repoIdentity : string; ai_machineId : string; ai_nodeId : string; ai_workspace : string;
  ai_phase : string; ai_paths : OwnedPathsDeclaration }.

(** The local machine; a failed attestation is the message of the error. *)
Record Disk : Type := {
  dk_attest : AttestInput -> string + PhysicalOwnershipScope;
  dk_realpath : string -> option string;
  dk_relative : string -> string -> string;
  dk_isAbsolute : string -> bool;
  dk_sep : string;
  dk_machineId : option string }.

Section Ownership.
Context (disk : Disk).

(** ** Scopes *)

Definition inside (root p : string) : bool :=
  let relative := disk.(dk_relative) root p in
  bool_decide (relative = "")
  || negb (starts_with (".." +:+ disk.(dk_sep)) relative) && bool_decide (relative <> "..")
     && negb (disk.(dk_isAbsolute) relative).

Definition isForeignPhysicalScope (scope : option PhysicalOwnershipScope) : bool :=
  match scope with
  | Some s => truthy_str disk.(dk_machineId) && filled s.(sc_machineId)
              && bool_decide (Some s.(sc_machineId) <> disk.(dk_machineId))
  | None => false
  end.

Definition currentPhysicalScope (scope : option PhysicalOwnershipScope) (paths : OwnedPathsDeclaration)
  : option PhysicalOwnershipScope :=
  match scope with
  | None => None
  | Some s =>
      if bool_decide (s.(sc_version) <> 1) || bool_decide (paths.(od_paths) <> s.(sc_declaration)) then None
      else if isForeignPhysicalScope scope then Some s
      else match disk.(dk_attest) {| ai_repoIdentity := s.(sc_repoIdentity); ai_machineId := s.(sc_machineId);
                   ai_nodeId := s.(sc_nodeId); ai_workspace := s.(sc_worktree); ai_phase := s.(sc_phase);
                   ai_paths := paths |} with
           | inl _ => None
           | inr current =>
               if bool_decide (current.(sc_worktreeIdentity) = s.(sc_worktreeIdentity))
                  && bool_decide (current.(sc_gitDir) = s.(sc_gitDir))
                  && bool_decide (current.(sc_commonGitDir) = s.(sc_commonGitDir))
               then Some current else None
           end
  end.

(** ** The planning cache *)

Definition PLANNING_SCOPE_TTL_MS : Z := 30000.
Definition PLANNING_SCOPE_MAX_ENTRIES : nat := 64.

Definition planning_key : Set := option PhysicalOwnershipScope * list OwnedPathEntry.

(** In insertion order. *)
Definition planning_cache : Set := list (planning_key * (Z * option PhysicalOwnershipScope)).

Definition planned_get (key : planning_key) (cache : planning_cache) : option (Z * option PhysicalOwnershipScope) :=
  snd <$> List.find (fun e => bool_decide (e.1 = key)) cache.

Definition planned_delete (key : planning_key) (cache : planning_cache) : planning_cache :=
  List.filter (fun e => negb (bool_decide (e.1 = key))) cache.

Definition plannedPhysicalScope (scope : option PhysicalOwnershipScope) (paths : OwnedPathsDeclaration) (now : Z)
    (cache : planning_cache) : option PhysicalOwnershipScope * planning_cache :=
  let key := (scope, paths.(od_paths)) in
  let compute :=
    let current := currentPhysicalScope scope paths in
    let cache := planned_delete key cache in
    let cache := if (PLANNING_SCOPE_MAX_ENTRIES <=? length cache)%nat then tail cache else cache in
    (current, cache ++ [(key, (now, current))]) in
  match planned_get key cache with
  | Some (at_, known) => if now - at_ <? PLANNING_SCOPE_TTL_MS then (known, cache) else compute
  | None => compute
  end.

(** ** Overlap of scopes *)

Inductive overlap_side : Set := side_a | side_b.

Inductive PhysicalOverlapExplanation : Set :=
| Ov_missing_scope (side : overlap_side)
| Ov_worktree (path : string)
| Ov_resource (path : string)
| Ov_integration_repo
| Ov_none.

Definition resourcesOverlap (x y : OwnedResource) : bool :=
  bool_decide (x.(rs_path) = y.(rs_path))
  || truthy_str x.(rs_identity) && bool_decide (x.(rs_identity) = y.(rs_identity))
  || x.(rs_subtree) && inside x.(rs_path) y.(rs_path)
  || y.(rs_subtree) && inside y.(rs_path) x.(rs_path).

Definition git_values (g : GitResources) : list string :=
  [g.(gr_index); g.(gr_refs); g.(gr_hooks); g.(gr_config)].

(** The first overlapping pair, in the order of the nested loops. *)
Fixpoint first_resource (xs ys : list OwnedResource) : option string :=
  match xs with
  | [] => None
  | x :: rest =>
      match List.find (resourcesOverlap x) ys with
      | Some y => Some (if bool_decide (x.(rs_path) = y.(rs_path)) || x.(rs_subtree) && inside x.(rs_path) y.(rs_path)
                        then y.(rs_path) else x.(rs_path))
      | None => first_resource rest ys
      end
  end.

Definition either_integrates (a b : PhysicalOwnershipScope) : bool :=
  bool_decide (a.(sc_phase) = "integration") || bool_decide (b.(sc_phase) = "integration").

Definition explainPhysicalOverlap (aScope bScope : option PhysicalOwnershipScope) : PhysicalOverlapExplanation :=
  match aScope, bScope with
  | None, _ => Ov_missing_scope side_a
  | Some _, None => Ov_missing_scope side_b
  | Some a, Some b =>
      if bool_decide (a.(sc_repoIdentity) = b.(sc_repoIdentity)) && either_integrates a b then Ov_integration_repo
      else if bool_decide (a.(sc_machineId) <> b.(sc_machineId)) then Ov_none
      else if either_integrates a b
              && (bool_decide (a.(sc_commonGitDir) = b.(sc_commonGitDir))
                  || existsb (fun p => bool_decide (p ∈ git_values b.(sc_gitResources))) (git_values a.(sc_gitResources)))
      then Ov_integration_repo
      else if bool_decide (a.(sc_worktree) = b.(sc_worktree))
              || bool_decide (a.(sc_worktreeIdentity) = b.(sc_worktreeIdentity))
              || bool_decide (a.(sc_gitDir) = b.(sc_gitDir))
      then Ov_worktree a.(sc_worktree)
      else match first_resource a.(sc_resources) b.(sc_resources) with
           | Some path => Ov_resource path
           | None => Ov_none
           end
  end.

Definition physical_conflict (aScope bScope : option PhysicalOwnershipScope) : bool :=
  match explainPhysicalOverlap aScope bScope with Ov_none => false | _ => true end.

(** The two verdicts: physical conflict and logical overlap. *)
Definition comparePhysicalOwnership (a : OwnedPathsDeclaration) (aScope : option PhysicalOwnershipScope)
    (b : OwnedPathsDeclaration) (bScope : option PhysicalOwnershipScope) : bool * bool :=
  (physical_conflict aScope bScope,
   match findOwnershipConflicts a [{| if_taskId := "other"; if_paths := b |}] with [] => false | _ => true end).

(** ** Writers in flight *)

Record ScopedInFlightOwnership : Set := {
  so_taskId : string;
  so_paths : OwnedPathsDeclaration;
  so_ownershipScope : option PhysicalOwnershipScope;
  so_readLease : bool;
  so_privateWorktree : bool }.

Definition unknownWriterPaths : OwnedPathsDeclaration :=
  {| od_paths := [{| ow_path := ""; ow_subtree := true |}] |}.

Definition in_flight_of (parsed : ClaimEntry) : option ScopedInFlightOwnership :=
  if isTaskReadonly parsed then
    (fun scope => {| so_taskId := parsed.(ce_id); so_paths := {| od_paths := scope.(sc_declaration) |};
                     so_ownershipScope := Some scope; so_readLease := true; so_privateWorktree := false |})
      <$> parsed.(ce_reviewInputScope)
  else Some {| so_taskId := parsed.(ce_id); so_paths := nullish parsed.(ce_ownedPaths) unknownWriterPaths;
               so_ownershipScope := parsed.(ce_ownershipScope); so_readLease := false;
               so_privateWorktree := parsed.(ce_light) && truthy_str parsed.(ce_lightWorkspaceId) |}.

(** [active]: the payloads of [assignedRowsMeshWide]; [pending]: the pending
    entries of the queue. *)
Definition readInFlightOwnershipMeshWide (parseDate : string -> option Z) (now : Z)
    (active pending : list ClaimEntry) : list ScopedInFlightOwnership :=
  omap in_flight_of (active ++ List.filter (fun t => pendingLaunchReservation parseDate t now) pending).

Definition as_in_flight (o : ScopedInFlightOwnership) : InFlightOwnership :=
  {| if_taskId := o.(so_taskId); if_paths := o.(so_paths) |}.

Definition overlap_label (why : PhysicalOverlapExplanation) : string :=
  match why with
  | Ov_resource path => "resource:" +:+ path
  | Ov_worktree path => "worktree:" +:+ path
  | Ov_missing_scope side_a => "missing_scope:a"
  | Ov_missing_scope side_b => "missing_scope:b"
  | Ov_integration_repo => "integration_repo"
  | Ov_none => "none"
  end.

(** The scope of another writer as the comparison sees it: a read lease also
    fences the resources it attested. *)
Definition lease_scope (other : ScopedInFlightOwnership) (current : option PhysicalOwnershipScope)
  : option PhysicalOwnershipScope :=
  match other.(so_readLease), current, other.(so_ownershipScope) with
  | true, Some c, Some own => Some {| c with sc_resources := c.(sc_resources) ++ own.(sc_resources) |}
  | _, _, _ => current
  end.

(** The conflicts of a candidate with one other writer. *)
Definition conflicts_with (candidate : ClaimEntry) (paths : OwnedPathsDeclaration)
    (scope : option PhysicalOwnershipScope) (logicalOnly : bool) (other : ScopedInFlightOwnership)
  : list OwnershipConflict :=
  if bool_decide (other.(so_taskId) = candidate.(ce_id)) then [] else
  let current := currentPhysicalScope other.(so_ownershipScope) other.(so_paths) in
  if logicalOnly && present current && other.(so_privateWorktree)
  then findOwnershipConflicts paths [as_in_flight other] else
  let otherScope := lease_scope other current in
  if present other.(so_ownershipScope) && negb (present otherScope)
  then [{| oc_taskId := other.(so_taskId); oc_overlappingPaths := ["unproven_active_physical_resource"] |}]
  else if negb (physical_conflict scope otherScope) then [] else
  let label := overlap_label (explainPhysicalOverlap scope otherScope) in
  let base := match findOwnershipConflicts paths [as_in_flight other] with
    | [] => [{| oc_taskId := other.(so_taskId); oc_overlappingPaths := ["physical_workspace_or_shared_resource"] |}]
    | logical => logical
    end in
  map (fun c => {| oc_taskId := c.(oc_taskId); oc_overlappingPaths := c.(oc_overlappingPaths) ++ [label] |}) base.

Definition findTaskOwnedPathsConflicts (candidate : ClaimEntry) (inFlight : list ScopedInFlightOwnership)
    (prospectiveScope : option PhysicalOwnershipScope) (preSpawn : bool) : list OwnershipConflict :=
  if isTaskReadonly candidate then [] else
  let paths := nullish candidate.(ce_ownedPaths) unknownWriterPaths in
  let scope := nullish_or prospectiveScope (currentPhysicalScope candidate.(ce_ownershipScope) paths) in
  let logicalOnly := preSpawn && negb (present candidate.(ce_ownershipScope)) && negb (present prospectiveScope) in
  flat_map (conflicts_with candidate paths scope logicalOnly) inFlight.

(** Allowed, and the conflicts otherwise. *)
Definition evaluateTaskOwnedPathsAdmission (candidate : option ClaimEntry) (inFlight : list ScopedInFlightOwnership)
  : bool * list OwnershipConflict :=
  match candidate with
  | None => (true, [])
  | Some c =>
      if isTaskReadonly c then (true, []) else
      match findTaskOwnedPathsConflicts c inFlight None true with
      | [] => (true, [])
      | conflicts => (false, conflicts)
      end
  end.
End Ownership.

(** * Why a pending task is held

    daemon-core/src/mesh/mesh-queue-hold.ts: the diagnostic a refused claim
    leaves on a pending row, with the tasks that block it. *)

Definition QUEUE_HOLD_NOTICE_AFTER_MS : Z := 3 * 60000.
Definition UNKNOWN_BLOCKER_NO_EVIDENCE : string := "unknown_blocker_no_evidence".

(** ** Strings *)

(** The text after the first occurrence of [p]. *)
Fixpoint after_substring (p s : string) : option string :=
  if starts_with p s then Some (String.substring (String.length p) (String.length s) s)
  else match s with EmptyString => None | String _ t => after_substring p t end.

Definition mentions (p s : string) : bool := present (after_substring p s).

Fixpoint until_space (s : string) : string :=
  match s with
  | EmptyString => EmptyString
  | String c t => if is_js_space c then EmptyString else String c (until_space t)
  end.

(** [message.match(/word:\s*(\S+)/)?.[1]]; nothing but blanks after the last
    [word:] is no match. *)
Definition word_after (p message : string) : option string :=
  after_substring p message ≫= fun rest =>
  let w := until_space (trim_start rest) in if filled w then Some w else None.

(** [[...new Set(ids)].sort()]. *)
Definition sorted_ids (ids : list string) : list string := order_by (by_id Datatypes.id) (first_occurrences [] ids).

(** ** Blockers *)

Definition queueTaskShortTitle (message : string) : string := String.substring 0 100 (until_newline (js_trim message)).

Section Hold.
Context (disk : Disk) (parseDate : string -> option Z).

Definition holdActiveWriters (task : ClaimEntry) (queue : list ClaimEntry) (now : Z) : list ClaimEntry :=
  List.filter (fun other => bool_decide (other.(ce_id) <> task.(ce_id))
    && (bool_decide (other.(ce_status) <> st_pending) || pendingLaunchReservation parseDate other now)) queue.

Definition ownedPathsHoldFromConflicts (conflicts : list OwnershipConflict) : list string * HoldDetail :=
  match conflicts with
  | [] => ([], {| hd_message := Some UNKNOWN_BLOCKER_NO_EVIDENCE; hd_overlappingPaths := None; hd_unknownField := None;
                  hd_canonicalResource := None; hd_resolution := None |})
  | _ => (sorted_ids (map oc_taskId conflicts),
          {| hd_message := None;
             hd_overlappingPaths := Some (flat_map (fun c => map (fun path =>
               {| op_taskId := c.(oc_taskId); op_ownedPath := path; op_blockingPath := path |})
               c.(oc_overlappingPaths)) conflicts);
             hd_unknownField := None; hd_canonicalResource := None; hd_resolution := None |})
  end.

Definition shown_path (e : OwnedPathEntry) : string := e.(ow_path) +:+ (if e.(ow_subtree) then "/**" else "").

Definition pushLogicalOverlaps (owned : OwnedPathsDeclaration) (otherId : string) (blocking : OwnedPathsDeclaration)
  : list OverlapPair :=
  flat_map (fun o => flat_map (fun b =>
    match findOwnershipConflicts {| od_paths := [o] |} [{| if_taskId := otherId; if_paths := {| od_paths := [b] |} |}] with
    | [] => []
    | _ => [{| op_taskId := otherId; op_ownedPath := shown_path o; op_blockingPath := shown_path b |}]
    end) blocking.(od_paths)) owned.(od_paths).

Definition physical_marker : string := "physical_workspace_or_shared_resource".

(** The overlaps with one active writer, and the explanation of the conflict. *)
Definition overlaps_with (task : ClaimEntry) (owned : OwnedPathsDeclaration)
    (prospectiveScope : option PhysicalOwnershipScope) (preSpawn : bool) (other : ClaimEntry)
  : list OverlapPair * option PhysicalOverlapExplanation :=
  let isReadonly := isTaskReadonly other in
  let blockingScope := if isReadonly then other.(ce_reviewInputScope) else other.(ce_ownershipScope) in
  let blockingPaths := match isReadonly, blockingScope with
    | true, Some s => Some {| od_paths := s.(sc_declaration) |}
    | _, _ => other.(ce_ownedPaths)
    end in
  match blockingPaths with
  | None => ([], None)
  | Some bp =>
      if isReadonly && negb (present blockingScope) then ([], None) else
      let candidateScope := nullish_or prospectiveScope (currentPhysicalScope disk task.(ce_ownershipScope) owned) in
      let otherScope := currentPhysicalScope disk blockingScope bp in
      if preSpawn && negb (present task.(ce_ownershipScope)) && negb (present candidateScope) && present otherScope
         && other.(ce_light) && truthy_str other.(ce_lightWorkspaceId)
      then (pushLogicalOverlaps owned other.(ce_id) bp, None) else
      let '(physical, logical) := comparePhysicalOwnership disk owned candidateScope bp otherScope in
      if negb physical then ([], None) else
      ((if logical then [] else [{| op_taskId := other.(ce_id); op_ownedPath := physical_marker; op_blockingPath := physical_marker |}])
        ++ pushLogicalOverlaps owned other.(ce_id) bp,
       Some (explainPhysicalOverlap disk candidateScope otherScope))
  end.

(** The first explanation, with the task it is about. *)
Fixpoint first_explained (l : list (string * (list OverlapPair * option PhysicalOverlapExplanation)))
  : option (string * PhysicalOverlapExplanation) :=
  match l with
  | [] => None
  | (id, (_, Some why)) :: _ => Some (id, why)
  | _ :: rest => first_explained rest
  end.

Definition explain_detail (active : list ClaimEntry) (overlaps : list OverlapPair)
    (explained : option (string * PhysicalOverlapExplanation)) : HoldDetail :=
  let plain := {| hd_message := None; hd_overlappingPaths := Some overlaps; hd_unknownField := None;
                  hd_canonicalResource := None; hd_resolution := None |} in
  match explained with
  | Some (id, Ov_missing_scope side) =>
      let attested := present (List.find (fun o => bool_decide (o.(ce_id) = id)) active ≫= ce_ownershipScope) in
      {| hd_message := None; hd_overlappingPaths := Some overlaps; hd_unknownField := Some "ownershipScope";
         hd_canonicalResource := None;
         hd_resolution := Some (if attested then match side with side_a => Res_candidate_unattested id
                                                               | side_b => Res_blocker_unverifiable id end
                                else Res_blocker_unattested id) |}
  | Some (id, Ov_resource path) | Some (id, Ov_worktree path) =>
      {| hd_message := None; hd_overlappingPaths := Some overlaps; hd_unknownField := None;
         hd_canonicalResource := Some path; hd_resolution := Some (Res_resource id) |}
  | _ => plain
  end.

Definition queueHoldContext (task : ClaimEntry) (reason : string) (queue : list ClaimEntry) (nodeId : option string)
    (prospectiveScope : option PhysicalOwnershipScope) (preSpawn : bool) (now : Z) : list string * HoldDetail :=
  let active := holdActiveWriters task queue now in
  if bool_decide (reason = "owned_paths_conflict") then
    let found := match task.(ce_ownedPaths) with
      | Some owned => map (fun other => (other.(ce_id), overlaps_with task owned prospectiveScope preSpawn other)) active
      | None => []
      end in
    let overlaps := flat_map (fun f => f.2.1) found in
    match sorted_ids (map op_taskId overlaps) with
    | [] => ([], {| hd_message := Some UNKNOWN_BLOCKER_NO_EVIDENCE; hd_overlappingPaths := None; hd_unknownField := None;
                    hd_canonicalResource := None; hd_resolution := None |})
    | ids => (ids, explain_detail active overlaps (first_explained found))
    end
  else if bool_decide (reason = "dependencies_unsatisfied") then
    (List.filter (fun id => negb (existsb (fun other =>
       bool_decide (other.(ce_id) = id) && bool_decide (other.(ce_status) = st_completed)) queue)) (ce_deps task), no_detail)
  else if bool_decide (reason ∈ ["node_busy_with_active_assignment"; "node_has_active_assignment"]) then
    (map ce_id (List.filter (fun other => negb (isTaskReadonly other) && truthy_str nodeId
       && match other.(ce_assignedNodeId) with Some n => meshNodeIdMatches n nodeId | None => false end) active), no_detail)
  else ([], no_detail).
End Hold.

(** ** Advice *)

Definition ownershipUnprovenResolution (message : string) : HoldResolution :=
  if mentions "ownedPaths" message then Res_declare_paths
  else if mentions "source_phase_path_forbidden" message || mentions "ownership_symlink_escape" message
  then Res_forbidden message
  else if mentions "remote_attestation_pending" message then Res_attestation_pending
  else if mentions "remote_attestation_" message then Res_attestation_failed message
  else Res_not_attestable message.

(** The text of the advice names one of the two words exactly when it was built
    from a message that does. *)
Definition isUnclaimableAsDeclared (hold : option MeshQueueHold) : bool :=
  match hold with
  | Some h => bool_decide (h.(mh_reason) = "ownership_unproven")
              && match h.(mh_detail).(hd_resolution) with Some (Res_forbidden _) => true | _ => false end
  | None => false
  end.

(** ** Setting the hold *)

Definition set_hold (task : ClaimEntry) (hold : option MeshQueueHold) (notice : option string) : ClaimEntry :=
  {| task with ce_hold := hold; ce_holdNoticeId := notice |}.

Definition setQueueTaskHold (iso : Z -> string) (task : ClaimEntry) (reason : string) (context : list string * HoldDetail)
    (now : Z) : ClaimEntry :=
  if bool_decide (task.(ce_status) <> st_pending) then task else
  let blockers := sorted_ids context.1 in
  let same := match task.(ce_hold) with
    | Some h => bool_decide (h.(mh_reason) = reason) && bool_decide (h.(mh_blockingTaskIds) = blockers)
    | None => false
    end in
  let since := match same, task.(ce_hold) with true, Some h => h.(mh_since) | _, _ => iso now end in
  set_hold task (Some {| mh_reason := reason; mh_since := since; mh_blockingTaskIds := blockers; mh_detail := context.2 |})
    (if same then task.(ce_holdNoticeId) else None).

(** ** The view of a hold *)

Record MeshQueueHoldView : Set := {
  hv_hold : MeshQueueHold; hv_ageMs : Z; hv_blockingTasks : list (string * string) }.

(** [queue]: ids and messages; an age that is not a number reads 0. *)
Definition queueTaskHoldView (parseDate : string -> option Z) (status : MeshTaskStatus) (hold : option MeshQueueHold)
    (queue : list (string * string)) (now : Z) : option MeshQueueHoldView :=
  match hold with
  | Some h =>
      if bool_decide (status <> st_pending) then None else
      Some {| hv_hold := h;
              hv_ageMs := match parseDate h.(mh_since) with Some since => Z.max 0 (now - since) | None => 0 end;
              hv_blockingTasks := map (fun taskId =>
                (taskId, queueTaskShortTitle (match List.find (fun o => bool_decide (o.1 = taskId)) queue with
                                              | Some o => o.2 | None => taskId end))) h.(mh_blockingTaskIds) |}
  | None => None
  end.
