(* ===== verification/QueueClaim.v ===== *)
(** * The queue claim

    [claimNextQueueTask] of daemon-core/src/mesh/mesh-runtime-store-claim.ts:
    the transaction in which a session takes the next pending task it may run.
    With it the counts of mesh-runtime-store.ts it decides on, the selection of
    mesh-claim-refusal.ts, the routing of reviews of
    mesh-task-routing-contract.ts and the attempt guard of
    mesh-queue-attempt-guard.ts.

    The store holds the rows of one mesh in rowid order, the turn store and the
    times of refused reviews.  The gates read the rows as they were when the
    transaction began: on its way the claim only changes the holds of rows it
    refuses, which no gate reads.  Texts of refusals are not modelled, only
    their reason and the task they name. *)

From S2P Require Import Prelude DaemonId PathOwnership PhaseGraph TurnEvidence TurnTypes TurnStore StageTypes StageRows StagePipeline.
From S2P Require Import QueueTypes QueueOwnership.

#[local] Open Scope Z_scope.

(** ** The store *)

Record ClaimStore : Type := {
  cs_rows : list QueueRow;
  cs_turns : Db;
  cs_refusals : Refusals;
  cs_fences : list string;
  cs_frozen : bool }.

(** What the claim asks of the rest of the daemon: the disk, dates, whether new
    work is held, the eligibility of a completed prerequisite and the review
    scope of a staged parent. *)
Record ClaimEnv : Type := {
  en_disk : Disk;
  en_parseDate : string -> option Z;
  en_iso : Z -> string;
  en_held : bool;
  en_usable : string -> bool;
  en_stageScope : ClaimEntry -> ClaimEntry -> option PhysicalOwnershipScope }.

Record ReviewRoutingContext : Type := {
  cx_workspace : string;
  cx_machineId : string;
  cx_repoIdentity : option string;
  cx_remoteOwnership : option (ClaimEntry -> string + PhysicalOwnershipScope) }.

Record NodeGitGate : Set := {
  ng_dirty : bool; ng_worktreeBranch : option string; ng_nodeId : option string; ng_staleBehind : bool }.

Record ClaimOptions : Type := {
  op_physicalContext : option ReviewRoutingContext;
  op_providerType : option string;
  op_providerMaxParallel : option Z;
  op_assignedModel : option string;
  op_slotMaxParallel : option Z;
  op_daemonNodeIds : option (list string);
  op_nodeIsWorktree : option bool;
  op_assignedTranscriptProfile : option string;
  op_allowedTaskDifficulties : option (list string);
  op_lightWorkspaceId : option string;
  op_nodeGitGate : option NodeGitGate;
  op_onlyQuotaOverridden : option bool }.

(** ** Active claims *)

(** [EXISTS (SELECT 1 FROM turn_attempts ... state = 'stopping')]. *)
Definition has_stopping_attempt (meshId taskId : string) (turns : Db) : bool :=
  existsb (fun a => bool_decide (ra_mesh_id a = Some meshId) && bool_decide (ra_task_id a = Some taskId)
                    && bool_decide (ra_state a = St_stopping)) (db_attempts turns).

(** [ACTIVE_WRITER_CLAIM_SQL]. *)
Definition active_claim (meshId : string) (s : ClaimStore) (row : QueueRow) : bool :=
  bool_decide (row.(rw_status) = st_assigned) || has_stopping_attempt meshId row.(rw_id) s.(cs_turns).

Definition hasActiveSessionAssignment (meshId sessionId : string) (s : ClaimStore) : bool :=
  existsb (fun row => active_claim meshId s row && bool_decide (row.(rw_assignedSessionId) = Some sessionId)) s.(cs_rows).

(** [assigned_node_id IN (forms)]. *)
Definition on_nodes (forms : list string) (row : QueueRow) : bool :=
  match row.(rw_assignedNodeId) with Some n => bool_decide (n ∈ forms) | None => false end.

Definition is_writer (e : ClaimEntry) : bool := negb (isTaskReadonly e) && negb e.(ce_light).

Definition hasActiveNodeWriteAssignment (meshId nodeId : string) (s : ClaimStore) : bool :=
  existsb (fun row => active_claim meshId s row && on_nodes (expandDaemonIdForms [Some nodeId]) row
                      && is_writer row.(rw_payload)) s.(cs_rows).

Definition assignedRowsForDaemon (meshId nodeId : string) (daemonNodeIds : option (list string)) (s : ClaimStore)
  : list ClaimEntry :=
  let scope := match daemonNodeIds with Some (x :: l) => x :: l | _ => [nodeId] end in
  map rw_payload (List.filter (fun row => active_claim meshId s row
    && on_nodes (expandDaemonIdForms (map Some scope)) row) s.(cs_rows)).

Definition assignedRowsMeshWide (meshId : string) (s : ClaimStore) : list ClaimEntry :=
  map rw_payload (List.filter (active_claim meshId s) s.(cs_rows)).

Definition activeProviderAssignmentCount (meshId nodeId providerType : string) (daemonNodeIds : option (list string))
    (s : ClaimStore) : Z :=
  Z.of_nat (length (List.filter (fun e => bool_decide (e.(ce_assignedProviderType) = Some providerType))
    (assignedRowsForDaemon meshId nodeId daemonNodeIds s))).

Definition counts_on_slot (providerType assignedModel : string) (e : ClaimEntry) : bool :=
  bool_decide (e.(ce_assignedProviderType) = Some providerType)
  && (let rowModel := js_trim (nullish e.(ce_assignedModel) "") in
      negb (filled rowModel) || filled assignedModel && modelNamesEquivalent rowModel assignedModel).

Definition activeSlotAssignmentCount (meshId nodeId providerType assignedModel : string)
    (daemonNodeIds : option (list string)) (s : ClaimStore) : Z :=
  Z.of_nat (length (List.filter (counts_on_slot providerType assignedModel)
    (assignedRowsForDaemon meshId nodeId daemonNodeIds s))).

Definition entries_in (statuses : list MeshTaskStatus) (s : ClaimStore) : list ClaimEntry :=
  map rw_payload (order_by (by_id rw_createdAt)
    (List.filter (fun row => bool_decide (row.(rw_status) ∈ statuses)) s.(cs_rows))).

Definition find_claimant (id : string) (s : ClaimStore) : option ClaimEntry :=
  rw_payload <$> List.find (fun row => bool_decide (row.(rw_id) = id)) s.(cs_rows).

(** ** The scheduling graph *)

(** The loop of [getQueueSchedulingGraph]: the rows reached from [frontier]. *)
Fixpoint graph_loop (fuel : nat) (rows : list QueueRow) (frontier seen : list string) (graph : list QueueRow)
  : list QueueRow :=
  match fuel, frontier with
  | S fuel, _ :: _ =>
      let batch := List.filter (fun id => negb (bool_decide (id ∈ seen))) (first_occurrences [] frontier) in
      let seen := batch ++ seen in
      let found := List.filter (fun row => bool_decide (row.(rw_id) ∈ batch)) rows in
      let next := flat_map (fun row => List.filter (fun id => negb (bool_decide (id ∈ seen)))
        (ce_deps row.(rw_payload))) found in
      graph_loop fuel rows next seen (graph ++ found)
  | _, _ => graph
  end.

(** Each round that finds a row sees a new one; one more round finds none and
    one more has nothing to look for. *)
Definition getQueueSchedulingGraph (s : ClaimStore) : list QueueRow :=
  graph_loop (2 + length s.(cs_rows)) s.(cs_rows)
    (map rw_id (List.filter (fun row => bool_decide (row.(rw_status) = st_pending)) s.(cs_rows))) [] [].

Definition dependency_graph (s : ClaimStore) : jsmap PhaseEntry :=
  map_of (map (fun row => (row.(rw_id),
    {| pe_id := row.(rw_id); pe_phase := row.(rw_payload).(ce_phase); pe_dependsOn := Some (ce_deps row.(rw_payload)) |}))
    (getQueueSchedulingGraph s)).

(** ** The attempt guard *)

Definition INJECTION_CLOSED_STATES : list TurnState :=
  [St_consumed; St_generating; St_suspended; St_finalizing; St_stopping].

Definition findOpenQueueAttempt (turns : Db) (meshId taskId : string) : option TurnAttempt :=
  match findLatestAttemptForTask (Some meshId) taskId turns with
  | Some latest => if negb (present (a_terminal latest)) && bool_decide (a_scope latest = Sc_mesh_queue)
                   then Some latest else None
  | None => None
  end.

Definition findInjectionClosedQueueAttempt (turns : Db) (meshId taskId : string) : option TurnAttempt :=
  match findOpenQueueAttempt turns meshId taskId with
  | Some open => if bool_decide (a_state open ∈ INJECTION_CLOSED_STATES) then Some open else None
  | None => None
  end.

(** ** Selection *)

Section Select.
Context {T : Type}.

Definition gate_list : Type := list (string * (T -> bool)).

(** [gates.findIndex(gate => !gate.test(candidate))], with the gate's reason. *)
Fixpoint failed_at (gates : gate_list) (index : nat) (c : T) : option (nat * string) :=
  match gates with
  | [] => None
  | (reason, test) :: rest => if test c then failed_at rest (S index) c else Some (index, reason)
  end.

Fixpoint select_from (gates : gate_list) (deepest : option (nat * string * T)) (candidates : list T)
  : T + option (string * T) :=
  match candidates with
  | [] => inr ((fun d => (d.1.2, d.2)) <$> deepest)
  | c :: rest =>
      match failed_at gates 0 c with
      | None => inl c
      | Some (index, reason) =>
          let deeper := match deepest with None => true | Some d => (d.1.1 <? index)%nat end in
          select_from gates (if deeper then Some (index, reason, c) else deepest) rest
      end
  end.

Definition selectClaimCandidate (candidates : list T) (gates : gate_list) : T + option (string * T) :=
  select_from gates None candidates.

(** The candidates that were tested and refused, with the gate. *)
Fixpoint refused_before (gates : gate_list) (candidates : list T) : list (T * string) :=
  match candidates with
  | [] => []
  | c :: rest =>
      match failed_at gates 0 c with
      | None => []
      | Some (_, reason) => (c, reason) :: refused_before gates rest
      end
  end.
End Select.

(** ** Review routing *)

Definition reviewIndependenceOf (review : MeshReviewConstraint) : string :=
  nullish review.(rc_independence) "different_provider".

Definition no_paths : OwnedPathsDeclaration := {| od_paths := [] |}.

Definition reviewInputBusy (env : ClaimEnv) (now : Z) (source : ClaimEntry) (scope : PhysicalOwnershipScope)
    (active : list ClaimEntry) (stageSource : bool) : bool :=
  existsb (fun writer =>
    if stageSource && bool_decide (writer.(ce_id) = source.(ce_id)) then false
    else if negb (bool_decide (writer.(ce_status) = st_assigned)) && negb (pendingLaunchReservation env.(en_parseDate) writer now)
            || isTaskReadonly writer then false
    else if pinnedMeshNodeIdMatches writer.(ce_assignedNodeId) (Some scope.(sc_nodeId)) then true
    else let paths := nullish writer.(ce_ownedPaths) unknownWriterPaths in
         (comparePhysicalOwnership env.(en_disk)
           (if stageSource then no_paths else nullish source.(ce_ownedPaths) no_paths) (Some scope)
           paths (currentPhysicalScope env.(en_disk) writer.(ce_ownershipScope) paths)).1) active.

(** A staged parent that waits for its review, or is under review. *)
Definition is_stage_source (source : ClaimEntry) : bool :=
  present source.(ce_stagePlan) && bool_decide (source.(ce_status) = st_assigned)
  && match source.(ce_stageState) with
     | Some st => bool_decide (ss_phase st ∈ [awaiting_review; reviewing])
     | None => false
     end.

Definition review_scope (env : ClaimEnv) (task source : ClaimEntry) : option PhysicalOwnershipScope :=
  if is_stage_source source then env.(en_stageScope) source task
  else match source.(ce_ownedPaths) with
       | Some paths => currentPhysicalScope env.(en_disk) source.(ce_ownershipScope) paths
       | None => None
       end.

Definition reviewRoutingRefusal (env : ClaimEnv) (now : Z) (task : ClaimEntry) (source : option ClaimEntry)
    (provider : string) (context : option ReviewRoutingContext) (active : list ClaimEntry) (claimingSessionId : string)
  : option string :=
  match task.(ce_review) with
  | None => None
  | Some review =>
      if negb (isTaskReadonly task) then Some "review_requires_readonly" else
      match source with
      | None => Some "review_independence_required"
      | Some source =>
          if negb (truthy_str source.(ce_assignedProviderType)) || negb (filled provider)
          then Some "review_independence_required"
          else if if bool_decide (reviewIndependenceOf review = "different_provider")
                  then bool_decide (Some provider = source.(ce_assignedProviderType))
                  else filled claimingSessionId && truthy_str source.(ce_assignedSessionId)
                       && bool_decide (Some claimingSessionId = source.(ce_assignedSessionId))
          then Some "review_independence_required"
          else if present task.(ce_reviewerWorkspace) then None
          else match review_scope env task source, context with
               | Some scope, Some cx =>
                   if (negb (bool_decide (source.(ce_status) = st_completed)) && negb (is_stage_source source))
                      || bool_decide (cx.(cx_machineId) <> scope.(sc_machineId))
                      || truthy_str cx.(cx_repoIdentity) && bool_decide (cx.(cx_repoIdentity) <> Some scope.(sc_repoIdentity))
                      || bool_decide (env.(en_disk).(dk_realpath) cx.(cx_workspace) <> Some scope.(sc_worktree))
                   then Some "review_input_unavailable"
                   else if reviewInputBusy env now source scope active (is_stage_source source)
                   then Some "review_input_busy" else None
               | _, _ => Some "review_input_unavailable"
               end
      end
  end.

(** ** The claim *)

Section Claim.
Context (env : ClaimEnv) (meshId nodeId sessionId : string) (capabilityTags : list string) (opts : ClaimOptions) (now : Z).
Context (s : ClaimStore).
Implicit Type candidate : ClaimEntry.

Definition providerType : string := js_trim (nullish opts.(op_providerType) "").
Definition assignedModel : string := js_trim (nullish opts.(op_assignedModel) "").

(** A cap that is declared, for a known provider. *)
Definition declared_cap (cap : option Z) : option Z :=
  match cap with
  | Some c => if filled providerType && (0 <=? c) then Some c else None
  | None => None
  end.

Definition liveProviderCount : Z := activeProviderAssignmentCount meshId nodeId providerType opts.(op_daemonNodeIds) s.
Definition liveSlotCount : Z := activeSlotAssignmentCount meshId nodeId providerType assignedModel opts.(op_daemonNodeIds) s.

Definition below_cap (live : Z) (cap : option Z) : bool :=
  match cap with Some c => live <? c | None => true end.

Definition parallelCapsAllow candidate : bool :=
  let readonlyCandidate := isTaskReadonly candidate in
  below_cap liveProviderCount (effectiveSlotCap (declared_cap opts.(op_providerMaxParallel)) readonlyCandidate)
  && below_cap liveSlotCount (effectiveSlotCap (declared_cap opts.(op_slotMaxParallel)) readonlyCandidate).

(** *** Candidates *)

(** [parseTier]: the rows of a tier by creation, then stably by priority. *)
Definition higher_priority (a b : ClaimEntry) : Prop :=
  meshTaskPriorityRank b.(ce_priority) <= meshTaskPriorityRank a.(ce_priority).
#[global] Instance higher_priority_dec a b : Decision (higher_priority a b) := Z_le_dec _ _.

Definition parseTier (in_tier : QueueRow -> bool) : list ClaimEntry :=
  order_by higher_priority (map rw_payload (order_by (by_id rw_createdAt)
    (List.filter (fun row => bool_decide (row.(rw_status) = st_pending) && in_tier row) s.(cs_rows)))).

Definition session_tier (row : QueueRow) : bool := bool_decide (row.(rw_targetSessionId) = Some sessionId).

Definition node_tier (row : QueueRow) : bool :=
  bool_decide (row.(rw_targetSessionId) = None)
  && match row.(rw_targetNodeId) with Some n => bool_decide (n ∈ expandDaemonIdForms [Some nodeId]) | None => false end.

Definition open_tier (row : QueueRow) : bool :=
  bool_decide (row.(rw_targetSessionId) = None) && bool_decide (row.(rw_targetNodeId) = None).

Definition offered candidate : bool :=
  lightClaimAllows candidate sessionId opts.(op_lightWorkspaceId)
  && (negb (opt_true opts.(op_onlyQuotaOverridden)) || bool_decide (candidate.(ce_quotaGateOverride) = Some "owner")).

Definition candidates : list ClaimEntry :=
  List.filter offered (parseTier session_tier ++ parseTier node_tier ++ parseTier open_tier).

(** *** Gates *)

Definition depIds : list string := first_occurrences [] (flat_map ce_deps candidates).

Definition depStatus : jsmap MeshTaskStatus :=
  map_of (map (fun row => (row.(rw_id), row.(rw_status)))
    (List.filter (fun row => bool_decide (row.(rw_id) ∈ depIds)) s.(cs_rows))).

Definition dependenciesSatisfied candidate : bool :=
  taskDependenciesSatisfied env.(en_usable) candidate depStatus (dependency_graph s).

Definition lease_on_node (reader : ClaimEntry) : bool :=
  match reader.(ce_reviewInputScope) with
  | None => false
  | Some scope =>
      meshNodeIdMatches scope.(sc_nodeId) (Some nodeId)
      || match opts.(op_physicalContext) with
         | None => false
         | Some cx => match env.(en_disk).(dk_realpath) cx.(cx_workspace) with
                      | Some real => bool_decide (real = scope.(sc_worktree))
                      | None => true
                      end
         end
  end.

Definition nodeConflictAllows candidate : bool :=
  isTaskReadonly candidate || candidate.(ce_light)
  || negb (hasActiveNodeWriteAssignment meshId nodeId s)
     && negb (existsb lease_on_node (assignedRowsMeshWide meshId s)).

Definition inFlightOwnership : list ScopedInFlightOwnership :=
  readInFlightOwnershipMeshWide env.(en_parseDate) now (assignedRowsMeshWide meshId s) (entries_in [st_pending] s).

Definition attest_candidate (cx : ReviewRoutingContext) candidate (paths : OwnedPathsDeclaration)
  : string + PhysicalOwnershipScope :=
  match env.(en_disk).(dk_attest) {| ai_repoIdentity := nullish cx.(cx_repoIdentity) ""; ai_machineId := cx.(cx_machineId);
          ai_nodeId := nodeId; ai_workspace := cx.(cx_workspace);
          ai_phase := if bool_decide (candidate.(ce_phase) = Some "integration") then "integration" else "source";
          ai_paths := paths |} with
  | inl message => inl message
  | inr attested => match currentPhysicalScope env.(en_disk) (Some attested) paths with
                    | Some reproduced => inr reproduced
                    | None => inl "ownership_unproven: unproven_active_physical_resource"
                    end
  end.

Definition proofFor candidate : option (string + PhysicalOwnershipScope) :=
  match opts.(op_physicalContext) with
  | None => None
  | Some cx =>
      if negb (filled cx.(cx_workspace)) || negb (filled cx.(cx_machineId)) || isTaskReadonly candidate then None else
      Some match candidate.(ce_ownedPaths) with
      | None | Some {| od_paths := [] |} => inl "ownership_unproven: ownedPaths"
      | Some paths =>
          match currentPhysicalScope env.(en_disk) candidate.(ce_ownershipScope) paths with
          | Some current => inr current
          | None =>
              if present candidate.(ce_ownershipScope) then inl "ownership_unproven: unproven_active_physical_resource"
              else match cx.(cx_remoteOwnership) with
                   | Some remote => remote candidate
                   | None => attest_candidate cx candidate paths
                   end
          end
      end
  end.

Definition proven_scope candidate : option PhysicalOwnershipScope :=
  match proofFor candidate with Some (inr scope) => Some scope | _ => None end.

Definition ownedPathsConflictFor candidate : list OwnershipConflict :=
  findTaskOwnedPathsConflicts env.(en_disk) candidate inFlightOwnership (proven_scope candidate) false.

Definition ownedPathsAllows candidate : bool :=
  match ownedPathsConflictFor candidate with [] => true | _ => false end.

Definition ownershipProven candidate : bool :=
  match proofFor candidate with Some (inl _) => false | _ => true end.

Definition nodeDirtyGate : option DirtyWriteGate :=
  (fun g => {| dg_dirty := g.(ng_dirty); dg_worktreeBranch := g.(ng_worktreeBranch);
               dg_nodeId := Some (nullish g.(ng_nodeId) nodeId) |}) <$> opts.(op_nodeGitGate).

Definition nodeNotDirty candidate : bool :=
  match nodeDirtyGate with
  | None => true
  | Some gate => candidate.(ce_light) || negb (bool_decide (dirtyWriteVerdict gate candidate = dw_refuse))
  end.

Definition nodeNotStaleBehind candidate : bool :=
  match opts.(op_nodeGitGate) with
  | None => true
  | Some gate => isTaskReadonly candidate || candidate.(ce_light) || negb gate.(ng_staleBehind)
  end.

Definition convergenceAllows candidate : bool :=
  negb (bool_decide (candidate.(ce_taskMode) = Some "convergence")) || negb (opt_true opts.(op_nodeIsWorktree)).

Definition physicalContextMatches candidate : bool :=
  match candidate.(ce_ownershipScope) with
  | None => true
  | Some scope =>
      match candidate.(ce_ownedPaths), opts.(op_physicalContext) with
      | Some paths, Some cx =>
          meshNodeIdMatches scope.(sc_nodeId) (Some nodeId)
          && match currentPhysicalScope env.(en_disk) (Some scope) paths with
             | None => false
             | Some proof =>
                 if present cx.(cx_remoteOwnership) then isForeignPhysicalScope env.(en_disk) (Some proof)
                 else bool_decide (cx.(cx_machineId) = proof.(sc_machineId))
                      && bool_decide (env.(en_disk).(dk_realpath) cx.(cx_workspace) = Some proof.(sc_worktree))
             end
      | _, _ => false
      end
  end.

Definition reviewRefusal candidate : option string :=
  match candidate.(ce_review) with
  | Some review => reviewRoutingRefusal env now candidate (find_claimant review.(rc_sourceTaskId) s) providerType
      opts.(op_physicalContext) (entries_in [st_pending; st_assigned] s) sessionId
  | None => None
  end.

Definition targetMatches candidate : bool :=
  (negb (truthy_str candidate.(ce_targetSessionId))
   || sessionIdsEquivalent (nullish candidate.(ce_targetSessionId) "") sessionId)
  && (negb (truthy_str candidate.(ce_targetNodeId))
      || daemonIdsEquivalent candidate.(ce_targetNodeId) (Some nodeId)
      || meshNodeIdMatches (nullish candidate.(ce_targetNodeId) "") (Some nodeId)).

Definition difficultyAllows candidate : bool :=
  match opts.(op_allowedTaskDifficulties) with
  | None => true
  | Some allowed =>
      match candidate.(ce_difficulty) with
      | None => true
      | Some d => bool_decide (d = "freeform") || negb (filled d) || bool_decide (d ∈ allowed)
      end
  end.

Definition attemptAllowsInjection candidate : bool :=
  negb (present (findInjectionClosedQueueAttempt s.(cs_turns) meshId candidate.(ce_id))).

Definition gates : list (string * (ClaimEntry -> bool)) := [
  ("required_tags_unsatisfied", fun c => nodeSatisfiesRequiredTags c.(ce_requiredTags) (Some capabilityTags));
  ("dependencies_unsatisfied", dependenciesSatisfied);
  ("not_before_delayed", fun c => meshTaskNotBeforeReady env.(en_parseDate) c.(ce_notBefore) now);
  ("task_parked", fun c => negb (taskIsParked c));
  ("attempt_injection_closed", attemptAllowsInjection);
  ("convergence_target_is_worktree", convergenceAllows);
  ("target_pin_unmatched", targetMatches);
  ("physical_context_changed", physicalContextMatches);
  ("ownership_unproven", ownershipProven);
  ("review_independence_required", fun c => negb (bool_decide (reviewRefusal c = Some "review_independence_required"))
     && negb (bool_decide (reviewRefusal c = Some "review_requires_readonly")));
  ("review_input_unavailable", fun c => negb (bool_decide (reviewRefusal c = Some "review_input_unavailable")));
  ("review_input_busy", fun c => negb (bool_decide (reviewRefusal c = Some "review_input_busy")));
  ("difficulty_floor_unmet", fun c => difficultyAllows c
     || negb (filled assignedModel) && parallelCapsAllow c && nodeConflictAllows c && negb (ownedPathsAllows c));
  ("parallel_cap_reached", parallelCapsAllow);
  ("node_busy_with_active_assignment", nodeConflictAllows);
  ("owned_paths_conflict", ownedPathsAllows);
  ("dirty_workspace", nodeNotDirty);
  ("node_stale_behind_upstream", nodeNotStaleBehind)].

(** *** Holds of refused candidates *)

Definition unknown_field (message : string) : string :=
  match word_after "source_phase_path_forbidden:" message, word_after "ownership_symlink_escape:" message with
  | Some w, _ => w
  | None, Some w => w
  | None, None => if mentions "ownedPaths" message then "ownedPaths" else "workspace"
  end.

Definition hold_context candidate (reason : string) : list string * HoldDetail :=
  let prospective := if bool_decide (reason = "owned_paths_conflict") then proven_scope candidate else None in
  if bool_decide (reason = "ownership_unproven") then
    let message := match proofFor candidate with Some (inl e) => e | _ => "ownership_unproven" end in
    ([], {| hd_message := None; hd_overlappingPaths := None; hd_unknownField := Some (unknown_field message);
            hd_canonicalResource := None; hd_resolution := Some (ownershipUnprovenResolution message) |})
  else if bool_decide (reason = "dependencies_unsatisfied") then
    (List.filter (fun id => negb (bool_decide (map_get id depStatus = Some st_completed))) (ce_deps candidate), no_detail)
  else queueHoldContext env.(en_disk) env.(en_parseDate) candidate reason (assignedRowsMeshWide meshId s) (Some nodeId)
         prospective false now.

(** [UPDATE mesh_queue SET payload = ? WHERE id = ? AND status = 'pending']. *)
Definition write_hold (rows : list QueueRow) (refused : ClaimEntry * string) : list QueueRow :=
  let '(candidate, reason) := refused in
  let held := setQueueTaskHold env.(en_iso) candidate reason (hold_context candidate reason) now in
  map (fun row => if bool_decide (row.(rw_id) = candidate.(ce_id)) && bool_decide (row.(rw_status) = st_pending)
                  then {| row with rw_payload := held |} else row) rows.

(** The gates of the review are reached when the first nine pass. *)
Definition reaches_review candidate : bool := forallb (fun g => g.2 candidate) (take 9 gates).

Definition note_review (since : Refusals) candidate : Refusals :=
  if present candidate.(ce_review) && bool_decide (candidate.(ce_origin) = Some "stage") && reaches_review candidate
  then noteReviewRefusal candidate.(ce_id) (reviewRefusal candidate) now since else since.

(** The candidates that are tested: up to the one selected. *)
Fixpoint tested (cands : list ClaimEntry) : list ClaimEntry :=
  match cands with
  | [] => []
  | c :: rest => c :: match failed_at gates 0 c with None => [] | Some _ => tested rest end
  end.

Definition after_selection : ClaimStore :=
  {| s with cs_rows := fold_left write_hold (refused_before gates candidates) s.(cs_rows);
            cs_refusals := fold_left note_review (tested candidates) s.(cs_refusals) |}.

(** *** The claimed entry *)

Definition stamp_scope (entry : ClaimEntry) (scope : option PhysicalOwnershipScope) : ClaimEntry :=
  match scope with
  | Some reproduced => {| entry with ce_ownershipScope := Some reproduced;
      ce_phase := Some (if bool_decide (entry.(ce_phase) = Some "integration") then "integration" else "source") |}
  | None => entry
  end.

Definition stamp_review (entry : ClaimEntry) : ClaimEntry :=
  match entry.(ce_review) with
  | Some review =>
      if present entry.(ce_reviewerWorkspace) then entry else
      let source := find_claimant review.(rc_sourceTaskId) s in
      {| entry with ce_reviewInputScope := source ≫= fun src =>
           if present src.(ce_stagePlan) then env.(en_stageScope) src entry else src.(ce_ownershipScope) |}
  | None => entry
  end.

(** [[...new Map([...old, ...warnings].map(c => [c.taskId, c])).values()]]. *)
Definition merge_warnings (l : list OverlapWarning) : list OverlapWarning :=
  map_values (map_of (map (fun w => (w.(ow_taskId), w)) l)).

Definition stamp_warnings (entry : ClaimEntry) : ClaimEntry :=
  match entry.(ce_ownedPaths), entry.(ce_ownershipScope) with
  | Some paths, Some _ =>
      let hard := map oc_taskId (findTaskOwnedPathsConflicts env.(en_disk) entry inFlightOwnership None false) in
      let warnings := map (fun c => {| ow_taskId := c.(oc_taskId); ow_overlappingPaths := c.(oc_overlappingPaths) |})
        (List.filter (fun c => negb (bool_decide (c.(oc_taskId) ∈ hard)))
          (findOwnershipConflicts paths (map as_in_flight inFlightOwnership))) in
      {| entry with ce_logicalOverlapWarnings := Some (merge_warnings (nullish entry.(ce_logicalOverlapWarnings) [] ++ warnings)) |}
  | _, _ => entry
  end.

Definition or_keep {A} (new old : option A) : option A := match new with Some _ => new | None => old end.

Definition stamp_assignment (entry : ClaimEntry) : ClaimEntry :=
  {| entry with
     ce_hold := None; ce_holdNoticeId := None;
     ce_assignedNodeId := Some nodeId; ce_assignedSessionId := Some sessionId;
     ce_assignedProviderType := or_keep (if filled providerType then Some providerType else None) entry.(ce_assignedProviderType);
     ce_assignedModel := or_keep (if filled assignedModel then Some assignedModel else None) entry.(ce_assignedModel);
     ce_assignedTranscriptProfile := or_keep opts.(op_assignedTranscriptProfile) entry.(ce_assignedTranscriptProfile);
     ce_dispatchTimestamp := Some (env.(en_iso) now);
     ce_dispatchNonce := Some (nullish entry.(ce_dispatchNonce) 0 + 1);
     ce_autoLaunchUnclaimedCount := None; ce_autoLaunchDispatchFailedCount := None;
     ce_updatedAt := env.(en_iso) now |}.

Definition claimed_entry (entry : ClaimEntry) (scope : option PhysicalOwnershipScope) : ClaimEntry :=
  let entry := stamp_scope entry scope in
  let entry := {| entry with ce_status := st_assigned |} in
  let entry := stamp_review entry in
  let entry := {| entry with ce_revision := Some (nullish entry.(ce_revision) 0 + 1) |} in
  stamp_assignment (stamp_warnings entry).

(** [UPDATE mesh_queue SET status = 'assigned', ... WHERE id = ?]. *)
Definition write_claim (entry : ClaimEntry) (rows : list QueueRow) : list QueueRow :=
  map (fun row => if bool_decide (row.(rw_id) = entry.(ce_id))
    then {| row with rw_status := st_assigned; rw_assignedNodeId := Some nodeId; rw_assignedSessionId := Some sessionId;
                     rw_updatedAt := env.(en_iso) now; rw_payload := entry |}
    else row) rows.

(** *** The transaction *)

Record MeshClaimRefusal : Set := {
  rf_reason : string; rf_taskId : option string; rf_difficulty : option string }.

Inductive ClaimResult : Set :=
| Claimed (entry : ClaimEntry)
| Refused (why : MeshClaimRefusal)
| Excluded.

Definition refuse (reason : string) (deepest : option ClaimEntry) : ClaimResult :=
  Refused {| rf_reason := reason; rf_taskId := ce_id <$> deepest;
             rf_difficulty := match deepest with
               | Some d => if truthy_str d.(ce_difficulty) then d.(ce_difficulty) else None
               | None => None end |}.

(** The entry, its proof taken once more. *)
Definition admit_entry (entry : ClaimEntry) : string + option PhysicalOwnershipScope :=
  match proofFor entry with
  | Some (inl e) => inl e
  | Some (inr scope) =>
      match currentPhysicalScope env.(en_disk) (Some scope) (nullish entry.(ce_ownedPaths) no_paths) with
      | Some reproduced => inr (Some reproduced)
      | None => inl "unproven_active_physical_resource"
      end
  | None => inr None
  end.

Definition claimNextQueueTask : ClaimResult * ClaimStore :=
  if s.(cs_frozen) || bool_decide (js_trim sessionId ∈ s.(cs_fences)) then (Excluded, s)
  else if env.(en_held) then (refuse "new_work_held" None, s)
  else if hasActiveSessionAssignment meshId sessionId s then (refuse "session_already_assigned" None, s)
  else match selectClaimCandidate candidates gates with
       | inr None => (refuse "no_pending_candidates" None, after_selection)
       | inr (Some (reason, deepest)) => (refuse reason (Some deepest), after_selection)
       | inl selected =>
           match admit_entry selected with
           | inl _ => (refuse "ownership_unproven" (Some selected), after_selection)
           | inr scope =>
               let entry := claimed_entry selected scope in
               let after := after_selection in
               (Claimed entry, {| after with cs_rows := write_claim entry after.(cs_rows) |})
           end
       end.
End Claim.
