(* ===== verification/QueueFacts.v ===== *)
(** * Facts on the claim

    Where candidates come from, what the selection tests, and what the
    transaction leaves on the rows: the claimed row, and holds on pending ones. *)

From S2P Require Import Prelude DaemonId PathOwnership PathTheorems PhaseGraph TurnTypes TurnStore StoreFacts StageRows StagePipeline.
From S2P Require Import QueueTypes QueueOwnership QueueClaim.

#[local] Open Scope Z_scope.

(** ** Selection *)

Section Selection.
Context {T : Type}.
Implicit Types (gates : list (string * (T -> bool))) (c : T).

Definition passes gates c : Prop := forall g, In g gates -> g.2 c = true.

Lemma failed_at_none gates i c : failed_at gates i c = None <-> passes gates c.
Proof.
  unfold passes. revert i; induction gates as [|[r t] gates IH]; intros i; cbn.
  - split; [intros _ g [] | reflexivity].
  - destruct (t c) eqn:E.
    + rewrite IH. split; [intros H g [<-|I]; auto | auto].
    + split; [discriminate|]. intros H. specialize (H (r, t) (or_introl eq_refl)). cbn in H. congruence.
Qed.

Lemma failed_at_some gates i c j reason :
  failed_at gates i c = Some (j, reason) ->
  exists before test after, gates = before ++ (reason, test) :: after /\ j = (i + length before)%nat
    /\ passes before c /\ test c = false.
Proof.
  revert i; induction gates as [|[r t] gates IH]; intros i; cbn; [discriminate|].
  destruct (t c) eqn:E.
  - intros H. destruct (IH _ H) as (b & test & a & -> & -> & P & F).
    exists ((r, t) :: b), test, a. cbn. split; [reflexivity|]. split; [lia|]. split; [|exact F].
    intros g [<-|I]; auto.
  - intros [= <- <-]. exists [], t, gates. cbn. split; [reflexivity|]. split; [lia|]. split; [intros g [] | exact E].
Qed.

Lemma failed_at_passes gates i c : failed_at gates i c = None \/ exists j r, failed_at gates i c = Some (j, r).
Proof. destruct (failed_at gates i c) as [[j r]|]; eauto. Qed.

(** The selected candidate passes, and none before it does. *)
Lemma select_from_found gates deepest cands c :
  select_from gates deepest cands = inl c ->
  exists before after, cands = before ++ c :: after /\ passes gates c /\ forall x, In x before -> ~ passes gates x.
Proof.
  revert deepest; induction cands as [|x cands IH]; intros deepest; cbn; [discriminate|].
  destruct (failed_at gates 0 x) as [[j r]|] eqn:F.
  - intros H. destruct (IH _ H) as (b & a & -> & P & N). exists (x :: b), a. split; [reflexivity|]. split; [exact P|].
    intros y [<-|I]; [|auto]. rewrite <- failed_at_none with (i := O). congruence.
  - intros [= <-]. exists [], cands. split; [reflexivity|]. split; [apply failed_at_none with (i := O); exact F | intros y []].
Qed.

(** The depth of a refusal: how many gates the candidate passed. *)
Definition depth gates c : nat := match failed_at gates 0 c with Some (i, _) => i | None => length gates end.

Definition deeper_than (deepest : option (nat * string * T)) (i : nat) : Prop :=
  forall d, deepest = Some d -> (d.1.1 < i)%nat.

Lemma select_from_none gates deepest cands r :
  select_from gates deepest cands = inr r ->
  (forall x, In x cands -> ~ passes gates x)
  /\ match r with
     | None => deepest = None /\ cands = []
     | Some (reason, d) =>
         (exists i, deepest = Some (i, reason, d) /\ forall x, In x cands -> (depth gates x <= i)%nat)
         \/ (In d cands /\ failed_at gates 0 d = Some (depth gates d, reason) /\ deeper_than deepest (depth gates d)
             /\ (forall x, In x cands -> (depth gates x <= depth gates d)%nat))
     end.
Proof.
  revert deepest; induction cands as [|x cands IH]; intros deepest; cbn [select_from].
  - intros [= <-]. split; [intros x []|]. destruct deepest as [[[i reason] d]|]; cbn; [|auto].
    left. exists i. split; [reflexivity | intros x []].
  - destruct (failed_at gates 0 x) as [[j rs]|] eqn:F; [|discriminate].
    assert (Dx : depth gates x = j) by (unfold depth; rewrite F; reflexivity).
    cbn zeta. set (deeper := match deepest with None => true | Some d => (d.1.1 <? j)%nat end).
    assert (Le : deeper = true -> deeper_than deepest j).
    { unfold deeper. intros E d ->. apply Nat.ltb_lt, E. }
    assert (Ge : deeper = false -> exists d, deepest = Some d /\ (j <= d.1.1)%nat).
    { unfold deeper. destruct deepest as [d|]; [|discriminate]. intros E. apply Nat.ltb_ge in E. eauto. }
    intros H. destruct (IH _ H) as [N R]. clear IH H. split.
    { intros y [<-|I]; [|auto]. rewrite <- failed_at_none with (i := O). congruence. }
    clearbody deeper. destruct deeper.
    + destruct r as [[reason d]|]; [|destruct R as [? _]; discriminate].
      destruct R as [(i & [= <- <- <-] & B)|(I & Fd & D & B)]; right.
      * rewrite Dx. split; [cbn; auto|]. split; [exact F|]. split; [cbn; auto|]. intros y [<-|I]; [lia | auto].
      * specialize (D _ eq_refl). cbn in D. split; [cbn; auto|]. split; [exact Fd|]. split.
        -- intros dd E. specialize (Le eq_refl dd E). lia.
        -- intros y [<-|J]; [lia | auto].
    + destruct (Ge eq_refl) as (dd & E & G). destruct r as [[reason d]|]; [|destruct R as [? _]; congruence].
      destruct R as [(i & E' & B)|(I & Fd & D & B)].
      * left. exists i. split; [exact E'|]. rewrite E in E'. injection E' as ->. cbn in G. intros y [<-|I]; [lia | auto].
      * right. split; [cbn; auto|]. split; [exact Fd|]. split; [exact D|]. specialize (D _ E). intros y [<-|J]; [lia | auto].
Qed.
End Selection.

(** ** Rows *)

(** The columns of every row are those of its payload. *)
Definition synced (row : QueueRow) : Prop := row = toRow row.(rw_createdAt) row.(rw_payload).

Record store_ok (s : ClaimStore) : Prop := {
  so_ids : NoDup (map rw_id s.(cs_rows));
  so_synced : forall row, In row s.(cs_rows) -> synced row }.

Lemma synced_id row : synced row -> row.(rw_payload).(ce_id) = row.(rw_id).
Proof. unfold synced. intros ->. reflexivity. Qed.

Lemma synced_status row : synced row -> row.(rw_payload).(ce_status) = row.(rw_status).
Proof. unfold synced. intros ->. reflexivity. Qed.

Lemma synced_targets row : synced row ->
  row.(rw_targetNodeId) = row.(rw_payload).(ce_targetNodeId) /\ row.(rw_targetSessionId) = row.(rw_payload).(ce_targetSessionId).
Proof. unfold synced. intros ->. split; reflexivity. Qed.

Lemma NoDup_map_In {A B} (f : A -> B) l x y :
  NoDup (map f l) -> In x l -> In y l -> f x = f y -> x = y.
Proof.
  induction l as [|a l IH]; cbn; [intros _ []|]. intros [N D]%NoDup_cons [<-|Ix] [<-|Iy] E; auto.
  - exfalso. apply N, list_elem_of_In, in_map_iff. eauto.
  - exfalso. apply N, list_elem_of_In, in_map_iff. eauto.
Qed.

Lemma In_order_by {A} (R : A -> A -> Prop) `{forall x y, Decision (R x y)} l x : In x (order_by R l) <-> In x l.
Proof. rewrite <- !list_elem_of_In. rewrite (order_by_perm R l). reflexivity. Qed.

(** [row'] is [row], up to the hold of a pending row. *)
Definition held_row (row row' : QueueRow) : Prop :=
  row' = row \/ (row.(rw_status) = st_pending /\ exists h n, row' = {| row with rw_payload := set_hold row.(rw_payload) h n |}).

Lemma held_row_fields row row' : held_row row row' ->
  row'.(rw_id) = row.(rw_id) /\ row'.(rw_status) = row.(rw_status) /\ row'.(rw_assignedNodeId) = row.(rw_assignedNodeId)
  /\ row'.(rw_assignedSessionId) = row.(rw_assignedSessionId) /\ row'.(rw_createdAt) = row.(rw_createdAt)
  /\ (synced row -> synced row').
Proof.
  intros [->|(_ & h & n & ->)]; [tauto|]. cbn. repeat split. unfold synced. intros S. rewrite S. reflexivity.
Qed.

Lemma setQueueTaskHold_pending iso c reason ctx now :
  c.(ce_status) = st_pending -> exists h n, setQueueTaskHold iso c reason ctx now = set_hold c h n.
Proof. intros E. unfold setQueueTaskHold. rewrite bool_decide_eq_false_2 by (rewrite E; auto). eauto. Qed.

Section Claim.
Context (env : ClaimEnv) (meshId nodeId sessionId : string) (tags : list string) (opts : ClaimOptions) (now : Z).
Context (s : ClaimStore).
Hypothesis s_ok : store_ok s.

Notation cands := (candidates nodeId sessionId opts s).
Notation gates := (gates env meshId nodeId sessionId tags opts now s).

Lemma tier_row in_tier c : In c (parseTier s in_tier) ->
  exists row, In row s.(cs_rows) /\ row.(rw_payload) = c /\ row.(rw_status) = st_pending /\ in_tier row = true.
Proof.
  unfold parseTier. rewrite In_order_by, in_map_iff. intros (row & <- & I).
  rewrite In_order_by, filter_In, andb_true_iff, bool_decide_eq_true in I. exists row. tauto.
Qed.

Lemma candidate_row c : In c cands ->
  exists row, In row s.(cs_rows) /\ row.(rw_payload) = c /\ row.(rw_status) = st_pending /\ offered sessionId opts c = true.
Proof.
  unfold candidates. rewrite filter_In, !in_app_iff. intros [[I|[I|I]] O]; destruct (tier_row _ _ I) as (row & ? & ? & ? & _); eauto 6.
Qed.

Lemma row_of_candidate c row : In c cands -> In row s.(cs_rows) -> row.(rw_id) = c.(ce_id) ->
  row.(rw_payload) = c /\ row.(rw_status) = st_pending.
Proof.
  intros Ic Ir E. destruct (candidate_row c Ic) as (r & I & <- & St & _).
  assert (r = row) as ->; [|auto]. apply (NoDup_map_In rw_id s.(cs_rows)); [apply s_ok | exact I | exact Ir|].
  rewrite E. symmetry. apply synced_id, (so_synced _ s_ok), I.
Qed.

Lemma write_hold_rows refused rows : In refused.1 cands -> Forall2 held_row s.(cs_rows) rows ->
  Forall2 held_row s.(cs_rows) (write_hold env meshId nodeId sessionId opts now s rows refused).
Proof.
  destruct refused as [c reason]. cbn [fst]. intros Ic F. unfold write_hold.
  assert (G : forall rs rs', (forall r, In r rs -> In r s.(cs_rows)) -> Forall2 held_row rs rs' -> Forall2 held_row rs
    (map (fun row => if bool_decide (row.(rw_id) = c.(ce_id)) && bool_decide (row.(rw_status) = st_pending)
       then {| row with rw_payload := setQueueTaskHold (en_iso env) c reason
                 (hold_context env meshId nodeId sessionId opts now s c reason) now |} else row) rs')).
  { intros rs rs' Sub Fr. induction Fr as [|r r' rs rs' H Fr IH]; constructor.
    - destruct (bool_decide (r'.(rw_id) = c.(ce_id)) && bool_decide (r'.(rw_status) = st_pending)) eqn:B; [|exact H].
      apply andb_true_iff in B as [Bi Bs]. apply bool_decide_eq_true in Bi, Bs.
      destruct (held_row_fields _ _ H) as (Ei & Es & _). rewrite Ei in Bi. rewrite Es in Bs.
      destruct (row_of_candidate c r Ic (Sub r (or_introl eq_refl)) Bi) as [Ep _].
      destruct (setQueueTaskHold_pending (en_iso env) c reason (hold_context env meshId nodeId sessionId opts now s c reason) now)
        as (h & n & ->).
      { rewrite <- Ep. rewrite (synced_status r); [exact Bs | apply (so_synced _ s_ok), Sub; left; reflexivity]. }
      right. split; [exact Bs|]. exists h, n. rewrite Ep. destruct H as [->|(_ & h' & n' & ->)]; reflexivity.
    - apply IH. intros x I. apply Sub. right. exact I. }
  apply G; auto.
Qed.

Lemma refused_are_candidates l p : In p (refused_before gates l) -> In p.1 l.
Proof.
  induction l as [|c l IH]; cbn [refused_before]; [auto|].
  destruct (failed_at gates 0 c) as [[i r]|]; [|intros []]. intros [<-|I]; [left; reflexivity | right; auto].
Qed.

Lemma after_selection_rows :
  Forall2 held_row s.(cs_rows) (after_selection env meshId nodeId sessionId tags opts now s).(cs_rows).
Proof.
  cbn [after_selection cs_rows].
  assert (F0 : Forall2 held_row s.(cs_rows) s.(cs_rows)) by (apply Forall_Forall2_diag, Forall_forall; intros; left; reflexivity).
  pose proof (refused_are_candidates cands) as Sub. revert F0. generalize (cs_rows s) at 2 4.
  induction (refused_before gates cands) as [|p l IH]; intros rows F; [exact F|].
  cbn [fold_left]. apply IH; [intros q I; apply Sub; right; exact I|].
  apply write_hold_rows; [apply Sub; left; reflexivity | exact F].
Qed.

(** ** The claimed entry *)

(** The fields the claim leaves as they were. *)
Definition same_queue_task (e c : ClaimEntry) : Prop :=
  e.(ce_id) = c.(ce_id) /\ e.(ce_readonly) = c.(ce_readonly) /\ e.(ce_taskMode) = c.(ce_taskMode)
  /\ e.(ce_light) = c.(ce_light) /\ e.(ce_targetNodeId) = c.(ce_targetNodeId)
  /\ e.(ce_targetSessionId) = c.(ce_targetSessionId) /\ e.(ce_ownedPaths) = c.(ce_ownedPaths)
  /\ e.(ce_dispatchNonce) = c.(ce_dispatchNonce) /\ e.(ce_status) = c.(ce_status)
  /\ e.(ce_assignedProviderType) = c.(ce_assignedProviderType) /\ e.(ce_assignedModel) = c.(ce_assignedModel)
  /\ e.(ce_claimRefusedCount) = c.(ce_claimRefusedCount).

Lemma stamp_scope_same e scope : same_queue_task (stamp_scope e scope) e.
Proof. destruct scope; repeat split. Qed.

Lemma stamp_review_same e : same_queue_task (stamp_review env s e) e.
Proof. unfold stamp_review. destruct (ce_review e); [destruct (present _)|]; repeat split. Qed.

Lemma stamp_warnings_same e : same_queue_task (stamp_warnings env meshId now s e) e.
Proof. unfold stamp_warnings. destruct (ce_ownedPaths e) eqn:P; [destruct (ce_ownershipScope e)|]; repeat split; auto. Qed.

Notation claimed := (claimed_entry env meshId nodeId sessionId opts now s).

Lemma claimed_fields c scope :
  let e := claimed c scope in
  e.(ce_id) = c.(ce_id) /\ e.(ce_status) = st_assigned
  /\ e.(ce_assignedNodeId) = Some nodeId /\ e.(ce_assignedSessionId) = Some sessionId
  /\ isTaskReadonly e = isTaskReadonly c /\ e.(ce_light) = c.(ce_light)
  /\ e.(ce_targetNodeId) = c.(ce_targetNodeId) /\ e.(ce_targetSessionId) = c.(ce_targetSessionId)
  /\ e.(ce_dispatchNonce) = Some (nullish c.(ce_dispatchNonce) 0 + 1)
  /\ e.(ce_hold) = None /\ e.(ce_updatedAt) = env.(en_iso) now /\ e.(ce_claimRefusedCount) = c.(ce_claimRefusedCount).
Proof.
  cbn zeta. unfold claimed_entry. cbn zeta.
  set (e1 := stamp_scope c scope). pose proof (stamp_scope_same c scope) as H1. fold e1 in H1.
  set (e2 := stamp_review env s {| e1 with ce_status := st_assigned |}).
  pose proof (stamp_review_same {| e1 with ce_status := st_assigned |}) as H2. fold e2 in H2.
  set (e3 := stamp_warnings env meshId now s {| e2 with ce_revision := Some (nullish e2.(ce_revision) 0 + 1) |}).
  pose proof (stamp_warnings_same {| e2 with ce_revision := Some (nullish e2.(ce_revision) 0 + 1) |}) as H3. fold e3 in H3.
  clearbody e3 e2 e1. unfold same_queue_task in *. cbn in H1, H2, H3.
  destruct H1 as (?&?&?&?&?&?&?&?&?&?&?&?), H2 as (?&?&?&?&?&?&?&?&?&?&?&?), H3 as (?&?&?&?&?&?&?&?&?&?&?&?).
  unfold isTaskReadonly. cbn. repeat split; congruence.
Qed.

(** ** The outcome *)

Notation claim := (claimNextQueueTask env meshId nodeId sessionId tags opts now s).

Record claim_of (e : ClaimEntry) (s' : ClaimStore) : Prop := {
  co_parts : exists before c after scope,
    cands = before ++ c :: after /\ passes gates c /\ (forall x, In x before -> ~ passes gates x)
    /\ admit_entry env nodeId opts c = inr scope /\ e = claimed c scope;
  co_rows : s'.(cs_rows) = write_claim env nodeId sessionId now e
              (after_selection env meshId nodeId sessionId tags opts now s).(cs_rows);
  co_turns : s'.(cs_turns) = s.(cs_turns);
  co_free : hasActiveSessionAssignment meshId sessionId s = false;
  co_fenced : ~ In (js_trim sessionId) s.(cs_fences) }.

Lemma claim_outcome e s' : claim = (Claimed e, s') -> claim_of e s'.
Proof.
  unfold claimNextQueueTask. destruct (_ || _) eqn:Fz; [discriminate|].
  apply orb_false_iff in Fz as [_ Fz]. apply bool_decide_eq_false in Fz. rewrite list_elem_of_In in Fz.
  destruct (en_held env); [discriminate|].
  destruct (hasActiveSessionAssignment meshId sessionId s) eqn:Free; [discriminate|].
  destruct (selectClaimCandidate _ _) as [c|[[r d]|]] eqn:Sel; [|discriminate..].
  destruct (admit_entry _ _ _ c) as [m|scope] eqn:Ad; [discriminate|]. intros [= <- <-].
  apply select_from_found in Sel as (b & a & E & P & N). split; [|reflexivity| reflexivity | exact Free | exact Fz].
  exists b, c, a, scope. auto.
Qed.

(** What the transaction does to a row. *)
Definition queue_claim_row (e : ClaimEntry) (row row' : QueueRow) : Prop :=
  if decide (row.(rw_id) = e.(ce_id))
  then row' = {| row with rw_status := st_assigned; rw_assignedNodeId := Some nodeId;
                   rw_assignedSessionId := Some sessionId; rw_updatedAt := env.(en_iso) now; rw_payload := e |}
       /\ row.(rw_status) = st_pending
  else held_row row row'.

Lemma claim_rows e s' : claim_of e s' -> Forall2 (queue_claim_row e) s.(cs_rows) s'.(cs_rows).
Proof.
  intros [(b & c & a & scope & Ec & _ & _ & _ & Ee) -> _ _ _].
  pose proof (claimed_fields c scope) as Fl. rewrite <- Ee in Fl. cbn zeta in Fl. destruct Fl as (Eid & _). clear Ee.
  assert (Ic : In c cands) by (rewrite Ec; apply in_app_iff; right; left; reflexivity).
  unfold write_claim. pose proof after_selection_rows as F.
  assert (Sub : forall r, In r s.(cs_rows) -> In r s.(cs_rows)) by auto.
  revert F Sub. generalize (cs_rows s) at 1 2 4. intros rs F. induction F as [|r r' rs rs' H F IH]; intros Sub; constructor.
  - unfold queue_claim_row. destruct (held_row_fields _ _ H) as (Ei & _). rewrite Ei.
    case_decide as D.
    + rewrite bool_decide_eq_true_2 by exact D.
      split; [destruct H as [->|(_ & h & n & ->)]; reflexivity|].
      apply (row_of_candidate c); [exact Ic | apply Sub; left; reflexivity | congruence].
    + rewrite bool_decide_eq_false_2 by exact D. exact H.
  - apply IH. intros x I. apply Sub. right. exact I.
Qed.
End Claim.
