(* ===== verification/QueueTheorems.v ===== *)
(** * Theorems on the queue claim

    Exclusion in every reachable queue, the caps a claim respects, what holds of
    a claimed task, when a claim is refused, and in which order tasks are taken. *)

From S2P Require Import Prelude DaemonId PathOwnership PathTheorems PhaseGraph TurnEvidence TurnTypes TurnStore StoreFacts StageRows.
From S2P Require Import QueueTypes QueueOwnership QueueClaim QueueFacts.

#[local] Open Scope Z_scope.

(** ** Rows before and after *)

Lemma Forall2_In_r {A B} (R : A -> B -> Prop) l l' y :
  Forall2 R l l' -> In y l' -> exists x, In x l /\ R x y.
Proof. induction 1 as [|a b l l' H F IH]; [intros []|]. intros [<-|I]; [cbn; eauto|]. destruct (IH I) as (x & ? & ?). cbn. eauto. Qed.

Lemma Forall2_In_l {A B} (R : A -> B -> Prop) l l' x :
  Forall2 R l l' -> In x l -> exists y, In y l' /\ R x y.
Proof. induction 1 as [|a b l l' H F IH]; [intros []|]. intros [<-|I]; [cbn; eauto|]. destruct (IH I) as (y & ? & ?). cbn. eauto. Qed.

Lemma add_form_keeps out v x : In x out -> In x (add_form out v).
Proof. unfold add_form. destruct v; [|auto]. destruct (_ || _); [auto|]. intros I. apply in_app_iff. auto. Qed.

Lemma fold_add_keeps {A} (f : A -> option string) l out x :
  In x out -> In x (fold_left (fun out v => add_form out (f v)) l out).
Proof. revert out; induction l as [|v l IH]; intros out I; [exact I|]. cbn. apply IH, add_form_keeps, I. Qed.

(** A node id without surrounding blanks. *)
Definition clean_id (id : string) : Prop := read_id (Some id) = Some id.

Lemma forms_self id : clean_id id -> In id (expandDaemonIdForms [Some id]).
Proof.
  intros R. assert (N : id <> "") by (intros ->; discriminate R).
  unfold expandDaemonIdForms. apply (fold_add_keeps Some). cbn [fold_left]. rewrite R. unfold add_form.
  rewrite bool_decide_eq_false_2 by exact N. rewrite bool_decide_eq_false_2 by (intros I; inversion I). left. reflexivity.
Qed.

Section Rows.
Context (env : ClaimEnv) (meshId nodeId sessionId : string) (tags : list string) (opts : ClaimOptions) (now : Z).
Context (s s' : ClaimStore) (e : ClaimEntry).
Hypothesis s_ok : store_ok s.
Hypothesis claimed : claim_of env meshId nodeId sessionId tags opts now s e s'.

Notation crow := (queue_claim_row env nodeId sessionId now e).

Lemma crow_id r r' : crow r r' -> r'.(rw_id) = r.(rw_id).
Proof. unfold queue_claim_row. case_decide as D; [intros [-> _]; reflexivity|]. intros H. apply (held_row_fields _ _ H). Qed.

Lemma claim_ids : map rw_id s'.(cs_rows) = map rw_id s.(cs_rows).
Proof.
  pose proof (claim_rows _ _ _ _ _ _ _ _ s_ok _ _ claimed) as F. induction F as [|r r' l l' H F IH]; [reflexivity|].
  cbn. rewrite IH, (crow_id _ _ H). reflexivity.
Qed.

(** The task that was claimed, as it was. *)
Lemma claimed_task : exists c scope, In c (candidates nodeId sessionId opts s)
  /\ passes (gates env meshId nodeId sessionId tags opts now s) c
  /\ e = claimed_entry env meshId nodeId sessionId opts now s c scope.
Proof.
  destruct (co_parts _ _ _ _ _ _ _ _ _ _ claimed) as (b & c & a & scope & E & P & _ & _ & Ee).
  exists c, scope. rewrite E, in_app_iff. cbn. auto.
Qed.

Lemma claim_store_ok : store_ok s'.
Proof.
  split; [rewrite claim_ids; apply s_ok|]. intros r' I.
  destruct (Forall2_In_r _ _ _ _ (claim_rows _ _ _ _ _ _ _ _ s_ok _ _ claimed) I) as (r & Ir & H).
  pose proof (so_synced _ s_ok r Ir) as S. unfold queue_claim_row in H. case_decide as D.
  - destruct H as [-> _]. destruct claimed_task as (c & scope & Ic & _ & Ee).
    destruct (claimed_fields env meshId nodeId sessionId opts now s c scope) as (Ei & Es & En & Ess & _ & _ & Et & Ets & _ & _ & Eu & _).
    rewrite <- Ee in *. destruct (row_of_candidate _ _ _ _ s_ok c r Ic Ir ltac:(congruence)) as [Ep _].
    destruct (synced_targets r S) as [St Sts]. rewrite Ep in St, Sts.
    unfold synced, toRow. cbn. rewrite Es, En, Ess, Et, Ets, Eu, <- D, <- St, <- Sts. reflexivity.
  - apply (held_row_fields _ _ H). exact S.
Qed.

(** A row that is active after the claim was active before, unless it is the
    claimed one. *)
Lemma active_before r r' : crow r r' -> active_claim meshId s' r' = true ->
  rw_id r = ce_id e \/ (held_row r r' /\ active_claim meshId s r = true).
Proof.
  unfold queue_claim_row. case_decide as D; [auto|]. intros H A. right. split; [exact H|].
  destruct (held_row_fields _ _ H) as (Ei & Es & _). unfold active_claim in *.
  rewrite (co_turns _ _ _ _ _ _ _ _ _ _ claimed), Ei, Es in A. exact A.
Qed.

(** At most the claimed row is new in a count of rows. *)
Lemma count_claim (P P' : QueueRow -> bool) :
  (forall r r', held_row r r' -> P' r' = P r) ->
  (length (List.filter P' s'.(cs_rows)) <= S (length (List.filter P s.(cs_rows))))%nat.
Proof.
  intros HP. pose proof (claim_rows _ _ _ _ _ _ _ _ s_ok _ _ claimed) as F. pose proof (so_ids _ s_ok) as N. revert F N.
  generalize (cs_rows s) (cs_rows s'). intros l l' F.
  assert (Rest : forall l l', Forall2 crow l l' -> ~ In (ce_id e) (map rw_id l) ->
    length (List.filter P' l') = length (List.filter P l)).
  { clear - HP. induction 1 as [|r r' l l' H F IH]; [reflexivity|]. cbn. intros N. unfold queue_claim_row in H.
    rewrite decide_False in H by tauto. rewrite (HP _ _ H). destruct (P r); cbn; rewrite IH; tauto. }
  induction F as [|r r' l l' H F IH]; cbn; [lia|]. intros [N D]%NoDup_cons. rewrite list_elem_of_In in N.
  destruct (decide (rw_id r = ce_id e)) as [E|E].
  - rewrite E in N. pose proof (Rest _ _ F N). destruct (P' r'), (P r); cbn; lia.
  - unfold queue_claim_row in H. rewrite decide_False in H by exact E. rewrite (HP _ _ H). specialize (IH D).
    destruct (P r); cbn; lia.
Qed.
End Rows.

Lemma passes_nth {T} (gates : list (string * (T -> bool))) c n g :
  passes gates c -> nth_error gates n = Some g -> g.2 c = true.
Proof. intros P E. apply P. exact (nth_error_In _ _ E). Qed.

Lemma held_row_payload r r' : held_row r r' ->
  is_writer r'.(rw_payload) = is_writer r.(rw_payload)
  /\ r'.(rw_payload).(ce_assignedProviderType) = r.(rw_payload).(ce_assignedProviderType)
  /\ r'.(rw_payload).(ce_assignedModel) = r.(rw_payload).(ce_assignedModel).
Proof. intros [->|(_ & h & n & ->)]; repeat split. Qed.

(** ** Exclusion *)

(** No two active claims share a session, and no two active writers a node. *)
Record exclusive (meshId : string) (s : ClaimStore) : Prop := {
  ex_session : forall r1 r2 x, In r1 s.(cs_rows) -> In r2 s.(cs_rows) ->
    active_claim meshId s r1 = true -> active_claim meshId s r2 = true ->
    r1.(rw_assignedSessionId) = Some x -> r2.(rw_assignedSessionId) = Some x -> r1.(rw_id) = r2.(rw_id);
  ex_node : forall r1 r2 n, In r1 s.(cs_rows) -> In r2 s.(cs_rows) ->
    active_claim meshId s r1 = true -> active_claim meshId s r2 = true ->
    is_writer r1.(rw_payload) = true -> is_writer r2.(rw_payload) = true ->
    r1.(rw_assignedNodeId) = Some n -> r2.(rw_assignedNodeId) = Some n -> r1.(rw_id) = r2.(rw_id) }.

(** The active claim of a row of a later queue, as it was in [s]. *)
Definition was_active (meshId : string) (s : ClaimStore) (r' : QueueRow) : Prop :=
  exists r, In r s.(cs_rows) /\ active_claim meshId s r = true /\ r.(rw_id) = r'.(rw_id)
    /\ r.(rw_assignedSessionId) = r'.(rw_assignedSessionId) /\ r.(rw_assignedNodeId) = r'.(rw_assignedNodeId)
    /\ is_writer r.(rw_payload) = is_writer r'.(rw_payload).

(** The claim beside the other writers of the queue: they insert and edit
    rows, end and requeue tasks, and the ledger confirms stops, but none of
    them gives an active claim to a row that had none, or moves one. *)
Inductive queue_step (meshId : string) (s : ClaimStore) : ClaimStore -> Prop :=
| step_claim env nodeId sessionId tags opts now r s' :
    clean_id nodeId ->
    claimNextQueueTask env meshId nodeId sessionId tags opts now s = (r, s') ->
    queue_step meshId s s'
| step_other s' :
    store_ok s' ->
    (forall r', In r' s'.(cs_rows) -> active_claim meshId s' r' = true ->
      was_active meshId s r') ->
    queue_step meshId s s'.

Inductive queue_reachable (meshId : string) (s0 : ClaimStore) : ClaimStore -> Prop :=
| reach_start : queue_reachable meshId s0 s0
| reach_step s s' : queue_reachable meshId s0 s -> queue_step meshId s s' -> queue_reachable meshId s0 s'.

Section Exclusion.
Context (env : ClaimEnv) (meshId nodeId sessionId : string) (tags : list string) (opts : ClaimOptions) (now : Z).
Context (s s' : ClaimStore) (e : ClaimEntry).
Hypothesis s_ok : store_ok s.
Hypothesis claimed : claim_of env meshId nodeId sessionId tags opts now s e s'.

(** Active rows of the new queue: the claimed row, and those active before. *)
Lemma active_after r' : In r' s'.(cs_rows) -> active_claim meshId s' r' = true ->
  (r'.(rw_id) = e.(ce_id) /\ r'.(rw_assignedSessionId) = Some sessionId /\ r'.(rw_assignedNodeId) = Some nodeId
   /\ r'.(rw_payload) = e)
  \/ was_active meshId s r'.
Proof.
  intros I A. destruct (Forall2_In_r _ _ _ _ (claim_rows _ _ _ _ _ _ _ _ s_ok _ _ claimed) I) as (r & Ir & H).
  destruct (decide (rw_id r = ce_id e)) as [D|D].
  - left. unfold queue_claim_row in H. rewrite decide_True in H by exact D. destruct H as [-> _]. cbn. auto.
  - right. destruct (active_before _ _ _ _ _ _ _ _ _ _ claimed r r' H A) as [?|[Hh Ar]]; [contradiction|].
    destruct (held_row_fields _ _ Hh) as (Ei & _ & En & Es & _). destruct (held_row_payload _ _ Hh) as (Ew & _).
    exists r. repeat split; auto.
Qed.

Lemma session_unowned r : In r s.(cs_rows) -> active_claim meshId s r = true -> r.(rw_assignedSessionId) <> Some sessionId.
Proof.
  intros I A E. pose proof (co_free _ _ _ _ _ _ _ _ _ _ claimed) as F. unfold hasActiveSessionAssignment in F.
  pose proof (existsb_false _ _ r F I) as X. cbn in X. rewrite A, bool_decide_eq_true_2 in X by exact E. discriminate.
Qed.

Lemma node_free r n : clean_id nodeId -> is_writer e = true -> In r s.(cs_rows) -> active_claim meshId s r = true ->
  is_writer r.(rw_payload) = true -> r.(rw_assignedNodeId) = Some n -> ~ In n (expandDaemonIdForms [Some nodeId]).
Proof.
  intros C W I A Wr En J. destruct (claimed_task _ _ _ _ _ _ _ _ _ _ claimed) as (c & scope & _ & P & Ee).
  pose proof (passes_nth _ _ 14 _ P eq_refl) as G. cbn in G.
  destruct (claimed_fields env meshId nodeId sessionId opts now s c scope) as (_ & _ & _ & _ & Er & El & _). rewrite <- Ee in *.
  unfold is_writer in W. rewrite Er, El in W. unfold nodeConflictAllows in G.
  apply andb_true_iff in W as [W1 W2]. apply negb_true_iff in W1, W2. rewrite W1, W2 in G. cbn in G.
  apply andb_true_iff in G as [G _]. apply negb_true_iff in G.
  pose proof (existsb_false _ _ r G I) as X. cbn in X. rewrite A, Wr in X. unfold on_nodes in X. rewrite En in X.
  rewrite bool_decide_eq_true_2 in X by (apply list_elem_of_In; exact J). discriminate.
Qed.

Lemma claim_exclusive : clean_id nodeId -> exclusive meshId s -> exclusive meshId s'.
Proof.
  intros C [Xs Xn]. split.
  - intros r1 r2 x I1 I2 A1 A2 E1 E2.
    destruct (active_after r1 I1 A1) as [(D1 & S1 & _)|(p1 & J1 & B1 & Ei1 & Es1 & _)];
      destruct (active_after r2 I2 A2) as [(D2 & S2 & _)|(p2 & J2 & B2 & Ei2 & Es2 & _)].
    + congruence.
    + destruct (session_unowned p2 J2 B2). congruence.
    + destruct (session_unowned p1 J1 B1). congruence.
    + rewrite <- Ei1, <- Ei2. apply (Xs p1 p2 x); congruence.
  - intros r1 r2 n I1 I2 A1 A2 W1 W2 E1 E2.
    destruct (active_after r1 I1 A1) as [(D1 & S1 & N1 & P1)|(p1 & J1 & B1 & Ei1 & _ & En1 & Ew1)];
      destruct (active_after r2 I2 A2) as [(D2 & S2 & N2 & P2)|(p2 & J2 & B2 & Ei2 & _ & En2 & Ew2)].
    + congruence.
    + rewrite P1 in W1. destruct (node_free p2 n C W1 J2 B2); [congruence..|].
      replace n with nodeId by congruence. apply forms_self, C.
    + rewrite P2 in W2. destruct (node_free p1 n C W2 J1 B1); [congruence..|].
      replace n with nodeId by congruence. apply forms_self, C.
    + rewrite <- Ei1, <- Ei2. apply (Xn p1 p2 n); congruence.
Qed.
End Exclusion.

(** A claim that is not made leaves the rows as they were, up to holds. *)
Lemma refused_rows env meshId nodeId sessionId tags opts now s r s' :
  store_ok s -> claimNextQueueTask env meshId nodeId sessionId tags opts now s = (r, s') ->
  (exists e, r = Claimed e) \/ (Forall2 held_row s.(cs_rows) s'.(cs_rows) /\ s'.(cs_turns) = s.(cs_turns)).
Proof.
  intros Ok. assert (Same : Forall2 held_row s.(cs_rows) s.(cs_rows))
    by (apply Forall_Forall2_diag, Forall_forall; intros; left; reflexivity).
  pose proof (after_selection_rows env meshId nodeId sessionId tags opts now s Ok) as After.
  unfold claimNextQueueTask. destruct (_ || _); [intros [= <- <-]; auto|].
  destruct (en_held env); [intros [= <- <-]; auto|].
  destruct (hasActiveSessionAssignment _ _ _); [intros [= <- <-]; auto|].
  destruct (selectClaimCandidate _ _) as [c|[[rs d]|]]; [|intros [= <- <-]; auto..].
  destruct (admit_entry _ _ _ c); intros [= <- <-]; eauto.
Qed.

(** Rows that changed only in their holds keep the queue as it was. *)
Lemma held_step meshId s s' :
  store_ok s -> Forall2 held_row s.(cs_rows) s'.(cs_rows) -> s'.(cs_turns) = s.(cs_turns) ->
  store_ok s' /\ forall r', In r' s'.(cs_rows) -> active_claim meshId s' r' = true ->
      was_active meshId s r'.
Proof.
  intros Ok F Et.
  assert (Ids : map rw_id (cs_rows s') = map rw_id (cs_rows s)).
  { clear - F. induction F as [|r r' l l' H F IH]; [reflexivity|]. cbn. rewrite IH. f_equal. apply (held_row_fields _ _ H). }
  split; [split; [rewrite Ids; apply Ok|]|].
  - intros r' I. destruct (Forall2_In_r _ _ _ _ F I) as (r & Ir & H). apply (held_row_fields _ _ H), Ok, Ir.
  - intros r' I A. destruct (Forall2_In_r _ _ _ _ F I) as (r & Ir & H). exists r.
    destruct (held_row_fields _ _ H) as (Ei & Es & En & Ess & _). destruct (held_row_payload _ _ H) as (Ew & _).
    unfold active_claim in *. rewrite Et, Ei, Es in A. repeat split; auto.
Qed.

Lemma other_exclusive meshId s s' :
  (forall r', In r' s'.(cs_rows) -> active_claim meshId s' r' = true ->
      was_active meshId s r') ->
  exclusive meshId s -> exclusive meshId s'.
Proof.
  intros H [Xs Xn]. split.
  - intros r1 r2 x I1 I2 A1 A2 E1 E2.
    destruct (H r1 I1 A1) as (p1 & J1 & B1 & Ei1 & Es1 & _), (H r2 I2 A2) as (p2 & J2 & B2 & Ei2 & Es2 & _).
    rewrite <- Ei1, <- Ei2. apply (Xs p1 p2 x); congruence.
  - intros r1 r2 n I1 I2 A1 A2 W1 W2 E1 E2.
    destruct (H r1 I1 A1) as (p1 & J1 & B1 & Ei1 & _ & En1 & Ew1), (H r2 I2 A2) as (p2 & J2 & B2 & Ei2 & _ & En2 & Ew2).
    rewrite <- Ei1, <- Ei2. apply (Xn p1 p2 n); congruence.
Qed.

Lemma step_exclusive meshId s s' : store_ok s -> exclusive meshId s -> queue_step meshId s s' ->
  store_ok s' /\ exclusive meshId s'.
Proof.
  intros Ok X [env nodeId sessionId tags opts now r s1 C E | s1 Ok' H].
  - destruct (refused_rows _ _ _ _ _ _ _ _ _ _ Ok E) as [(e & ->)|[F Et]].
    + pose proof (claim_outcome _ _ _ _ _ _ _ _ _ _ E) as Co.
      split; [exact (claim_store_ok _ _ _ _ _ _ _ _ _ _ Ok Co) | exact (claim_exclusive _ _ _ _ _ _ _ _ _ _ Ok Co C X)].
    + destruct (held_step meshId s s1 Ok F Et) as [Ok' H]. split; [exact Ok' | exact (other_exclusive _ _ _ H X)].
  - split; [exact Ok' | exact (other_exclusive _ _ _ H X)].
Qed.

(** In every queue reached from an exclusive one, no two active claims share a
    session and no two active writers share a node; rows of tasks whose writer
    is still stopping count as active. *)
Theorem queue_exclusive meshId s0 s :
  store_ok s0 -> exclusive meshId s0 -> queue_reachable meshId s0 s -> store_ok s /\ exclusive meshId s.
Proof.
  intros Ok X R. induction R as [|s s' R [Ok' X'] St]; [auto|]. exact (step_exclusive _ _ _ Ok' X' St).
Qed.
