(* ===== verification/QueueRules.v ===== *)
(** * The scheduling graph is the queue

    The graph the claim searches is built from the pending rows outwards; it
    holds every row they reach, so what the search decides on it holds of the
    whole queue. *)

From stdpp Require Import relations.
From S2P Require Import Prelude TurnEvidence TurnTypes DaemonId TurnStore StoreFacts StageRows PathOwnership PathTheorems PhaseGraph QueueTypes QueueOwnership QueueClaim QueueFacts QueueTheorems.

#[local] Open Scope nat_scope.

(** ** Building the graph *)

Lemma first_occurrences_In seen l x : In x (first_occurrences seen l) <-> In x l /\ ~ In x seen.
Proof.
  revert seen; induction l as [|y l IH]; intros seen; cbn; [tauto|].
  case_bool_decide as E; rewrite list_elem_of_In in E.
  - rewrite IH. split; [tauto|]. intros [[->|I] N]; tauto.
  - cbn. rewrite IH. cbn. destruct (decide (y = x)) as [->|N]; tauto.
Qed.

Section Build.
Context (rows : list QueueRow).

Definition unseen (seen : list string) : nat :=
  length (List.filter (fun row => negb (bool_decide (row.(rw_id) ∈ seen))) rows).

Definition closed_in (graph : list QueueRow) : Prop :=
  forall row d r2, In row graph -> In d (ce_deps row.(rw_payload)) -> In r2 rows -> r2.(rw_id) = d -> In r2 graph.

Lemma graph_loop_keeps fuel frontier seen graph row :
  In row graph -> In row (graph_loop fuel rows frontier seen graph).
Proof.
  revert frontier seen graph; induction fuel as [|fuel IH]; intros [|i frontier] seen graph I; cbn; auto.
  apply IH, in_app_iff. auto.
Qed.

Lemma graph_loop_from fuel frontier seen graph row :
  (forall r, In r graph -> In r rows) -> In row (graph_loop fuel rows frontier seen graph) -> In row rows.
Proof.
  revert frontier seen graph; induction fuel as [|fuel IH]; intros [|i frontier] seen graph Sub; cbn [graph_loop]; auto.
  apply IH. intros r I. apply in_app_iff in I as [I|I]; [auto|]. apply filter_In in I. tauto.
Qed.

Lemma batch_In frontier seen x :
  In x (List.filter (fun id => negb (bool_decide (id ∈ seen))) (first_occurrences [] frontier))
  <-> In x frontier /\ ~ In x seen.
Proof. rewrite filter_In, first_occurrences_In, negb_true_iff, bool_decide_eq_false, list_elem_of_In. cbn. tauto. Qed.

Lemma unseen_less batch seen row : In row rows -> In row.(rw_id) batch -> ~ In row.(rw_id) seen ->
  unseen (batch ++ seen) < unseen seen.
Proof.
  intros I B N. unfold unseen. induction rows as [|r l IH]; [destruct I|]. cbn.
  assert (Le : length (List.filter (fun row => negb (bool_decide (row.(rw_id) ∈ batch ++ seen))) l)
               <= length (List.filter (fun row => negb (bool_decide (row.(rw_id) ∈ seen))) l)).
  { clear. induction l as [|r l IH]; cbn; [lia|]. case_bool_decide as A; case_bool_decide as C; cbn; try lia.
    rewrite !list_elem_of_In, in_app_iff in *. tauto. }
  destruct I as [->|I].
  - rewrite bool_decide_eq_true_2 by (apply list_elem_of_In, in_app_iff; auto).
    rewrite bool_decide_eq_false_2 by (rewrite list_elem_of_In; exact N). cbn. lia.
  - specialize (IH I). case_bool_decide as A; case_bool_decide as C; cbn; try lia.
    rewrite !list_elem_of_In, in_app_iff in *. tauto.
Qed.

Lemma graph_loop_closed fuel frontier seen graph :
  unseen seen < fuel \/ frontier = [] ->
  (forall row d, In row graph -> In d (ce_deps row.(rw_payload)) -> In d seen \/ In d frontier) ->
  (forall row, In row rows -> In row.(rw_id) seen -> In row graph) ->
  closed_in (graph_loop fuel rows frontier seen graph)
  /\ (forall row, In row rows -> In row.(rw_id) frontier -> In row (graph_loop fuel rows frontier seen graph)).
Proof.
  revert frontier seen graph; induction fuel as [|fuel IH]; intros frontier seen graph M D S.
  - destruct M as [M| ->]; [lia|]. cbn. split; [|intros row _ []].
    intros row d r2 I Id I2 E. destruct (D row d I Id) as [J|[]]. apply S; [exact I2 | rewrite E; exact J].
  - destruct frontier as [|f frontier].
    { cbn. split; [|intros row _ []]. intros row d r2 I Id I2 E. destruct (D row d I Id) as [J|[]].
      apply S; [exact I2 | rewrite E; exact J]. }
    destruct M as [M|M]; [|discriminate].
    set (front := f :: frontier) in *.
    set (batch := List.filter (fun id => negb (bool_decide (id ∈ seen))) (first_occurrences [] front)).
    set (found := List.filter (fun row => bool_decide (row.(rw_id) ∈ batch)) rows).
    set (next := flat_map (fun row => List.filter (fun id => negb (bool_decide (id ∈ batch ++ seen)))
                   (ce_deps row.(rw_payload))) found).
    assert (Found : forall row, In row found <-> In row rows /\ In row.(rw_id) batch)
      by (intros row; unfold found; rewrite filter_In, bool_decide_eq_true, list_elem_of_In; reflexivity).
    change (closed_in (graph_loop fuel rows next (batch ++ seen) (graph ++ found)) /\
      (forall row, In row rows -> In row.(rw_id) front -> In row (graph_loop fuel rows next (batch ++ seen) (graph ++ found)))).
    destruct (IH next (batch ++ seen) (graph ++ found)) as [C _].
    + destruct found as [|row l] eqn:Fo; [right; reflexivity|]. left.
      assert (In row found) as J by (rewrite Fo; left; reflexivity). rewrite <- Fo in Found.
      apply Found in J as [J B]. pose proof B as B'. apply batch_In in B' as [_ N].
      pose proof (unseen_less batch seen row J B N). lia.
    + intros row d I Id. apply in_app_iff in I as [I|I].
      * destruct (D row d I Id) as [J|J]; [left; apply in_app_iff; auto|].
        destruct (in_dec String.string_dec d seen) as [K|K]; left; apply in_app_iff; [auto|]. left. apply batch_In. auto.
      * destruct (in_dec String.string_dec d (batch ++ seen)) as [K|K]; [auto|]. right.
        apply in_flat_map. exists row. split; [exact I|]. apply filter_In. split; [exact Id|].
        rewrite bool_decide_eq_false_2; [reflexivity | rewrite list_elem_of_In; exact K].
    + intros row I J. apply in_app_iff. apply in_app_iff in J as [J|J]; [right; apply Found; auto | left; auto].
    + split; [exact C|]. intros row I J. apply graph_loop_keeps, in_app_iff.
      destruct (in_dec String.string_dec row.(rw_id) seen) as [K|K]; [left; auto|]. right. apply Found. split; [exact I|].
      apply batch_In. auto.
Qed.
End Build.

Lemma scheduling_graph_closed s :
  closed_in s.(cs_rows) (getQueueSchedulingGraph s)
  /\ (forall row, In row s.(cs_rows) -> row.(rw_status) = st_pending -> In row (getQueueSchedulingGraph s))
  /\ (forall row, In row (getQueueSchedulingGraph s) -> In row s.(cs_rows)).
Proof.
  unfold getQueueSchedulingGraph. match goal with |- context [graph_loop ?f ?r ?fr _ _] =>
    destruct (graph_loop_closed r f fr [] []) as [C P] end.
  - left. unfold unseen. pose proof (filter_length_le (fun row => negb (bool_decide (row.(rw_id) ∈ @nil string))) s.(cs_rows)). lia.
  - intros row d [].
  - intros row _ [].
  - split; [exact C|]. split.
    + intros row I E. apply P; [exact I|]. apply in_map_iff. exists row. split; [reflexivity|].
      apply filter_In. split; [exact I|]. apply bool_decide_eq_true_2, E.
    + intros row. apply graph_loop_from. intros r [].
Qed.

(** ** The whole queue *)

Definition row_phase (row : QueueRow) : PhaseEntry :=
  {| pe_id := row.(rw_id); pe_phase := row.(rw_payload).(ce_phase); pe_dependsOn := Some (ce_deps row.(rw_payload)) |}.

(** The graph of a list of rows; [dependency_graph] is that of the rows found. *)
Definition graph_of (rows : list QueueRow) : jsmap PhaseEntry := map_of (map (fun row => (row.(rw_id), row_phase row)) rows).

Lemma map_of_In {A} (l : list (string * A)) e : In e (map_of l) -> In e l.
Proof.
  induction l as [|x l IH] using rev_ind; [intros []|]. rewrite map_of_snoc. intros I.
  apply map_set_In in I as [->|I]; apply in_app_iff; [right; left; destruct x; reflexivity | auto].
Qed.

Lemma map_of_get {A} (l : list (string * A)) k v :
  In (k, v) l -> (forall v', In (k, v') l -> v' = v) -> map_get k (map_of l) = Some v.
Proof.
  induction l as [|x l IH] using rev_ind; [intros []|]. intros I U. rewrite map_of_snoc, map_get_set.
  case_decide as D.
  - f_equal. apply U, in_app_iff. right. left. rewrite D. destruct x; reflexivity.
  - apply in_app_iff in I as [I|[->|[]]]; [|contradiction]. apply IH; [exact I|].
    intros v' J. apply U, in_app_iff. auto.
Qed.

Lemma graph_of_get rows row : NoDup (map rw_id rows) -> In row rows -> map_get row.(rw_id) (graph_of rows) = Some (row_phase row).
Proof.
  intros N I. apply map_of_get; [apply in_map_iff; eauto|]. intros v J.
  apply in_map_iff in J as (r & [= E <-] & J). f_equal. exact (NoDup_map_In rw_id rows r row N J I E).
Qed.

Lemma graph_of_some rows k e : map_get k (graph_of rows) = Some e -> exists row, In row rows /\ e = row_phase row /\ row.(rw_id) = k.
Proof. intros G. apply map_get_In, map_of_In, in_map_iff in G as (row & [= <- <-] & I). eauto. Qed.

Lemma graph_of_keyed rows : keyed_graph (graph_of rows).
Proof. intros k e G. apply graph_of_some in G as (row & _ & -> & <-). reflexivity. Qed.

(** What the search finds authorised on its graph is authorised in the queue. *)
Lemma authorised_in_queue s row :
  store_ok s -> In row s.(cs_rows) -> row.(rw_status) = st_pending ->
  authorised (dependency_graph s) (row_phase row) -> authorised (graph_of s.(cs_rows)) (row_phase row).
Proof.
  intros Ok I St. destruct (scheduling_graph_closed s) as (C & P & F).
  set (found := getQueueSchedulingGraph s) in *. change (dependency_graph s) with (graph_of found).
  assert (Step : forall r y, In r found -> depends (graph_of s.(cs_rows)) (row_phase r) y ->
    exists r2, In r2 found /\ y = row_phase r2 /\ depends (graph_of found) (row_phase r) y).
  { intros r y Ir (id & Id & G). apply graph_of_some in G as (r2 & I2 & -> & E).
    assert (J : In r2 found) by (exact (C r id r2 Ir Id I2 E)). exists r2. split; [exact J|]. split; [reflexivity|].
    exists id. split; [exact Id|]. rewrite <- E. apply map_of_get; [apply in_map_iff; exists r2; auto|].
    intros v K. apply in_map_iff in K as (r3 & [= E3 <-] & K). f_equal.
    apply (NoDup_map_In rw_id s.(cs_rows)); [apply Ok | apply F, K | exact I2 | exact E3]. }
  assert (Reach : forall a x, rtc (depends (graph_of s.(cs_rows))) a x -> forall r, In r found -> a = row_phase r ->
    exists r', In r' found /\ x = row_phase r' /\ rtc (depends (graph_of found)) a x).
  { induction 1 as [a|a b x D R IH]; intros r Ir ->; [exists r; split; [exact Ir | split; [reflexivity | apply rtc_refl]]|].
    destruct (Step r b Ir D) as (r2 & I2 & E & D'). destruct (IH r2 I2 E) as (r' & ? & ? & ?).
    exists r'. split; [assumption|]. split; [assumption|]. eapply rtc_l; eauto. }
  intros [Le Ac]. split.
  - intros x y R D. destruct (Reach _ x R row (P row I St) eq_refl) as (r & Ir & -> & R'). destruct (Step r y Ir D) as (_ & _ & _ & D').
    exact (Le _ _ R' D').
  - intros x R T. destruct (Reach _ x R row (P row I St) eq_refl) as (r & Ir & -> & R'). apply (Ac _ R'). clear R R' Le Ac.
    assert (G : forall a b, tc (depends (graph_of s.(cs_rows))) a b -> forall r, In r found -> a = row_phase r ->
      tc (depends (graph_of found)) a b).
    { clear r Ir T. induction 1 as [a b D|a b c D T IH]; intros r Ir ->; destruct (Step r _ Ir D) as (r2 & I2 & E & D').
      - apply tc_once, D'.
      - eapply tc_l; [exact D' | exact (IH r2 I2 E)]. }
    exact (G _ _ T r Ir eq_refl).
Qed.

(** * What holds of a claimed task, and of a refused claim *)

#[local] Open Scope Z_scope.

(** ** Caps *)

Lemma length_filter_map {A B} (f : B -> bool) (g : A -> B) (h : A -> bool) l :
  length (List.filter f (map g (List.filter h l))) = length (List.filter (fun x => h x && f (g x)) l).
Proof. induction l as [|x l IH]; [reflexivity|]. cbn. destruct (h x); cbn; [destruct (f (g x)); cbn|]; rewrite IH; reflexivity. Qed.

(** The slots a claim may fill: all of a cap for a writer, one less for a
    reader when there are two or more. *)
Definition fair_share (cap : Z) (readonly : bool) : Z := if readonly && (2 <=? cap) then cap - 1 else cap.

Lemma below_share live cap readonly :
  0 <= cap -> below_cap live (effectiveSlotCap (Some cap) readonly) = true -> live + 1 <= fair_share cap readonly.
Proof.
  unfold fair_share. cbn. unfold readonlySlotBudget. intros P. destruct readonly; cbn; [|rewrite Z.ltb_lt; lia].
  destruct (Z.leb_spec cap 1), (Z.leb_spec 2 cap); try lia; rewrite Z.ltb_lt; lia.
Qed.

Lemma declared_nonneg opts cap c : declared_cap opts cap = Some c -> 0 <= c.
Proof. unfold declared_cap. destruct cap as [x|]; [|discriminate]. destruct (_ && _) eqn:B; [|discriminate]. intros [= <-]. apply andb_true_iff in B as [_ B]. lia. Qed.

(** C25: After a claim, the active claims of the session's provider on its machine
    are within the declared cap, and so are those of its slot; a read-only
    task leaves the last of two or more slots free. *)
Theorem caps_respected env meshId nodeId sessionId tags opts now s e s' :
  store_ok s -> claimNextQueueTask env meshId nodeId sessionId tags opts now s = (Claimed e, s') ->
  (forall cap, declared_cap opts opts.(op_providerMaxParallel) = Some cap ->
     activeProviderAssignmentCount meshId nodeId (providerType opts) opts.(op_daemonNodeIds) s'
       <= fair_share cap (isTaskReadonly e))
  /\ (forall cap, declared_cap opts opts.(op_slotMaxParallel) = Some cap ->
     activeSlotAssignmentCount meshId nodeId (providerType opts) (assignedModel opts) opts.(op_daemonNodeIds) s'
       <= fair_share cap (isTaskReadonly e)).
Proof.
  intros Ok E. pose proof (claim_outcome _ _ _ _ _ _ _ _ _ _ E) as Co.
  destruct (claimed_task _ _ _ _ _ _ _ _ _ _ Co) as (c & scope & _ & P & Ee).
  destruct (claimed_fields env meshId nodeId sessionId opts now s c scope) as (_ & _ & _ & _ & Er & _). rewrite <- Ee in Er.
  pose proof (passes_nth _ _ 13 _ P eq_refl) as G. cbn [snd] in G. apply andb_true_iff in G as [Gp Gs].
  assert (Count : forall f : ClaimEntry -> bool, (forall r r', held_row r r' -> f r'.(rw_payload) = f r.(rw_payload)) ->
    Z.of_nat (length (List.filter f (assignedRowsForDaemon meshId nodeId opts.(op_daemonNodeIds) s')))
    <= Z.of_nat (length (List.filter f (assignedRowsForDaemon meshId nodeId opts.(op_daemonNodeIds) s))) + 1).
  { intros f Hf. unfold assignedRowsForDaemon. rewrite !length_filter_map.
    pose proof (count_claim _ _ _ _ _ _ _ _ _ _ Ok Co
      (fun r => active_claim meshId s r && on_nodes (expandDaemonIdForms (map Some (match op_daemonNodeIds opts with
         Some (x :: l) => x :: l | _ => [nodeId] end))) r && f r.(rw_payload))
      (fun r => active_claim meshId s' r && on_nodes (expandDaemonIdForms (map Some (match op_daemonNodeIds opts with
         Some (x :: l) => x :: l | _ => [nodeId] end))) r && f r.(rw_payload))) as L. cbv beta in L.
    apply (inj_le _ _) in L; [lia|]. intros r r' H. destruct (held_row_fields _ _ H) as (Ei & Es & En & _).
    unfold active_claim, on_nodes. rewrite Ei, Es, En, (co_turns _ _ _ _ _ _ _ _ _ _ Co), (Hf _ _ H). reflexivity. }
  split; intros cap Hc; pose proof (declared_nonneg _ _ _ Hc) as Nn; rewrite Er; rewrite Hc in *.
  - apply below_share in Gp; [|exact Nn]. unfold activeProviderAssignmentCount.
    etransitivity; [apply Count | exact Gp].
    intros r r' H. destruct (held_row_payload _ _ H) as (_ & -> & _). reflexivity.
  - apply below_share in Gs; [|exact Nn]. unfold activeSlotAssignmentCount.
    etransitivity; [apply Count | exact Gs].
    intros r r' H. destruct (held_row_payload _ _ H) as (_ & Ep & Em). unfold counts_on_slot. rewrite Ep, Em. reflexivity.
Qed.

(** ** The claimed task *)

(** What a claim promises of the task it hands out, as the task was. *)
Record admissible (env : ClaimEnv) (meshId nodeId sessionId : string) (tags : list string) (opts : ClaimOptions) (now : Z)
    (s : ClaimStore) (c : ClaimEntry) : Prop := {
  ad_dependencies : forall d, In d (ce_deps c) ->
    (exists row, In row s.(cs_rows) /\ row.(rw_id) = d /\ row.(rw_status) = st_completed) /\ env.(en_usable) d = true;
  ad_authority : authorised (graph_of s.(cs_rows)) (phase_entry c);
  ad_tags : forall t, In t (normalizeMeshCapabilityTags c.(ce_requiredTags)) -> In t (normalizeMeshCapabilityTags (Some tags));
  ad_ready : meshTaskNotBeforeReady env.(en_parseDate) c.(ce_notBefore) now = true;
  ad_not_parked : taskIsParked c = false;
  ad_attempt : findInjectionClosedQueueAttempt s.(cs_turns) meshId c.(ce_id) = None;
  ad_session : forall t, c.(ce_targetSessionId) = Some t -> t <> "" -> sessionIdsEquivalent t sessionId = true;
  ad_light : lightClaimAllows c sessionId opts.(op_lightWorkspaceId) = true;
  ad_difficulty : difficultyAllows opts c = true;
  ad_base : c.(ce_taskMode) = Some "convergence" -> opt_true opts.(op_nodeIsWorktree) = false }.

Lemma depStatus_completed nodeId sessionId opts s d :
  map_get d (depStatus nodeId sessionId opts s) = Some st_completed ->
  exists row, In row s.(cs_rows) /\ row.(rw_id) = d /\ row.(rw_status) = st_completed.
Proof.
  intros G. apply map_get_In, map_of_In, in_map_iff in G as (row & [= E1 E2] & I).
  apply filter_In in I as [I _]. eauto.
Qed.

Section Admissible.
Context (env : ClaimEnv) (meshId nodeId sessionId : string) (tags : list string) (opts : ClaimOptions) (now : Z).
Context (s : ClaimStore) (row : QueueRow).
Hypothesis s_ok : store_ok s.
Hypothesis in_queue : In row s.(cs_rows).
Hypothesis is_pending : row.(rw_status) = st_pending.

Notation c := row.(rw_payload).

(** The search the gate makes decides on the whole queue. *)
Lemma search_authority :
  sourceDependencyViolation (phase_entry c) (dependency_graph s) = Some None -> authorised (graph_of s.(cs_rows)) (phase_entry c).
Proof.
  assert (phase_entry c = row_phase row) as ->
    by (unfold phase_entry, row_phase; rewrite (synced_id row (so_synced _ s_ok row in_queue)); reflexivity).
  intros V. apply authorised_in_queue; [exact s_ok | exact in_queue | exact is_pending|].
  destruct (scheduling_graph_closed s) as (_ & Pend & From).
  destruct (search_decides (dependency_graph s) [row_phase row]) as (r & Er & Iff & _).
  - exact (graph_of_keyed _).
  - intros x [<-|[]]. apply map_of_get; [apply in_map_iff; exists row; auto|].
    intros v K. apply in_map_iff in K as (r3 & [= E3 <-] & K). change (row_phase r3 = row_phase row). f_equal.
    apply (NoDup_map_In rw_id s.(cs_rows)); [apply s_ok | apply From, K | exact in_queue | exact E3].
  - unfold sourceDependencyViolation in V. rewrite V in Er. injection Er as <-. apply Iff; [reflexivity | left; reflexivity].
Qed.

Lemma passes_admissible :
  offered sessionId opts c = true -> passes (gates env meshId nodeId sessionId tags opts now s) c ->
  admissible env meshId nodeId sessionId tags opts now s c.
Proof.
  intros Of P.
  assert (Gt : forall n g, nth_error (gates env meshId nodeId sessionId tags opts now s) n = Some g -> g.2 c = true)
    by (intros; eapply passes_nth; eauto).
  pose proof (Gt 1%nat _ eq_refl) as Gd. cbn [snd] in Gd. unfold dependenciesSatisfied, taskDependenciesSatisfied in Gd.
  destruct (sourceDependencyViolation _ _) as [[v|]|] eqn:V; [discriminate| |discriminate]. split.
  - intros d I. rewrite forallb_forall in Gd. specialize (Gd d I). apply andb_true_iff in Gd as [G U].
    apply bool_decide_eq_true in G. split; [exact (depStatus_completed _ _ _ _ _ G) | exact U].
  - exact (search_authority V).
  - pose proof (Gt 0%nat _ eq_refl) as G. cbn [snd] in G. unfold nodeSatisfiesRequiredTags in G. rewrite forallb_forall in G.
    intros t I. specialize (G t I). apply bool_decide_eq_true in G. apply list_elem_of_In. exact G.
  - exact (Gt 2%nat _ eq_refl).
  - pose proof (Gt 3%nat _ eq_refl) as G. cbn [snd] in G. apply negb_true_iff in G. exact G.
  - pose proof (Gt 4%nat _ eq_refl) as G. cbn [snd] in G. unfold attemptAllowsInjection in G.
    destruct (findInjectionClosedQueueAttempt _ _ _); [discriminate | reflexivity].
  - pose proof (Gt 6%nat _ eq_refl) as G. cbn [snd] in G. unfold targetMatches in G. apply andb_true_iff in G as [G _].
    intros t Et Nt. rewrite Et in G. cbn in G. rewrite bool_decide_eq_true_2 in G by exact Nt. exact G.
  - unfold offered in Of. apply andb_true_iff in Of as [O _]. exact O.
  - pose proof (Gt 12%nat _ eq_refl) as G. pose proof (Gt 15%nat _ eq_refl) as Go. cbn [snd] in G, Go.
    rewrite Go, andb_false_r, orb_false_r in G. exact G.
  - pose proof (Gt 5%nat _ eq_refl) as G. cbn [snd] in G. unfold convergenceAllows in G. intros Cv.
    rewrite Cv, bool_decide_eq_true_2 in G by reflexivity. cbn in G. apply negb_true_iff in G. exact G.
Qed.
End Admissible.


(** ** Refused claims *)

(** C27: A claim is refused only when new work is held, the session already has a
    task, the proof of the selected task failed, or no candidate passes every
    gate; then the refusal names a candidate that passed the most gates
    and the gate it failed. *)
Theorem refused_exactly env meshId nodeId sessionId tags opts now s why s' :
  claimNextQueueTask env meshId nodeId sessionId tags opts now s = (Refused why, s') ->
  let cands := candidates nodeId sessionId opts s in
  let gates := gates env meshId nodeId sessionId tags opts now s in
  (env.(en_held) = true /\ why.(rf_reason) = "new_work_held")
  \/ (hasActiveSessionAssignment meshId sessionId s = true /\ why.(rf_reason) = "session_already_assigned")
  \/ (exists c m, In c cands /\ passes gates c /\ admit_entry env nodeId opts c = inl m
        /\ why.(rf_reason) = "ownership_unproven" /\ why.(rf_taskId) = Some c.(ce_id))
  \/ ((forall c, In c cands -> ~ passes gates c)
      /\ match why.(rf_taskId) with
         | None => cands = [] /\ why.(rf_reason) = "no_pending_candidates"
         | Some id => exists d test, In d cands /\ d.(ce_id) = id
             /\ nth_error gates (depth gates d) = Some (why.(rf_reason), test) /\ test d = false
             /\ (forall c, In c cands -> (depth gates c <= depth gates d)%nat)
         end).
Proof.
  intros E cands gs. revert E. unfold claimNextQueueTask. destruct (_ || _); [discriminate|].
  destruct (en_held env); [intros [= <- _]; auto|].
  destruct (hasActiveSessionAssignment _ _ _); [intros [= <- _]; auto|]. fold cands gs.
  destruct (selectClaimCandidate cands gs) as [c|r] eqn:Sel.
  - apply select_from_found in Sel as (b & a & Ec & P & _).
    destruct (admit_entry _ _ _ c) as [m|scope] eqn:Ad; [|discriminate]. intros [= <- _]. right. right. left.
    exists c, m. split; [rewrite Ec; apply in_app_iff; cbn; auto|]. auto.
  - apply select_from_none in Sel as [N R]. destruct r as [[reason d]|]; intros [= <- _]; right; right; right; (split; [exact N|]); cbn.
    + destruct R as [(i & [=] & _)|(I & F & _ & B)]. apply failed_at_some in F as (before & test & after & Eg & Ed & _ & T).
      exists d, test. split; [exact I|]. split; [reflexivity|]. split; [|split; [exact T | exact B]].
      rewrite Ed, Eg. cbn [plus]. rewrite nth_error_app2 by lia. rewrite Nat.sub_diag. reflexivity.
    + destruct R as [_ ->]. auto.
Qed.

(** ** Isolation of writers *)

Section Isolation.
Context (disk : Disk).

(** Two scopes that can be written side by side. *)
Record isolated (a b : PhysicalOwnershipScope) : Prop := {
  is_repo : a.(sc_repoIdentity) = b.(sc_repoIdentity) -> either_integrates a b = false;
  is_disjoint : a.(sc_machineId) = b.(sc_machineId) ->
    a.(sc_worktree) <> b.(sc_worktree) /\ a.(sc_worktreeIdentity) <> b.(sc_worktreeIdentity)
    /\ a.(sc_gitDir) <> b.(sc_gitDir)
    /\ (either_integrates a b = true -> a.(sc_commonGitDir) <> b.(sc_commonGitDir))
    /\ (forall x y, In x a.(sc_resources) -> In y b.(sc_resources) -> resourcesOverlap disk x y = false) }.

Lemma first_resource_none xs ys x y : first_resource disk xs ys = None -> In x xs -> In y ys -> resourcesOverlap disk x y = false.
Proof.
  induction xs as [|z xs IH]; [intros _ []|]. cbn. destruct (List.find _ ys) as [w|] eqn:F; [discriminate|].
  intros N [->|I] J; [|auto]. exact (find_none _ _ F y J).
Qed.

Lemma no_conflict_isolated aScope bScope : physical_conflict disk aScope bScope = false ->
  exists a b, aScope = Some a /\ bScope = Some b /\ isolated a b.
Proof.
  unfold physical_conflict, explainPhysicalOverlap. destruct aScope as [a|], bScope as [b|]; try discriminate.
  destruct (bool_decide (sc_repoIdentity a = sc_repoIdentity b) && either_integrates a b) eqn:Rp; [discriminate|].
  intros H. exists a, b. split; [reflexivity|]. split; [reflexivity|]. split.
  - intros E. rewrite bool_decide_eq_true_2 in Rp by exact E. exact Rp.
  - intros M. rewrite bool_decide_eq_false_2 in H by (intros X; exact (X M)).
    destruct (either_integrates a b && _) eqn:Ig; [discriminate|].
    destruct (bool_decide (sc_worktree a = sc_worktree b) || bool_decide (sc_worktreeIdentity a = sc_worktreeIdentity b)
              || bool_decide (sc_gitDir a = sc_gitDir b)) eqn:W; [discriminate|].
    apply orb_false_iff in W as [W W3]. apply orb_false_iff in W as [W1 W2]. apply bool_decide_eq_false in W1, W2, W3.
    destruct (first_resource disk (sc_resources a) (sc_resources b)) eqn:F; [discriminate|].
    split; [exact W1|]. split; [exact W2|]. split; [exact W3|]. split.
    + intros I. rewrite I in Ig. cbn in Ig. apply orb_false_iff in Ig as [Ig _]. apply bool_decide_eq_false in Ig. exact Ig.
    + intros x y Ix Iy. exact (first_resource_none _ _ _ _ F Ix Iy).
Qed.

Lemma conflicts_with_none candidate paths scope other :
  conflicts_with disk candidate paths scope false other = [] -> other.(so_taskId) <> candidate.(ce_id) ->
  exists a b, scope = Some a
    /\ lease_scope other (currentPhysicalScope disk other.(so_ownershipScope) other.(so_paths)) = Some b /\ isolated a b.
Proof.
  unfold conflicts_with. intros H N. rewrite bool_decide_eq_false_2 in H by exact N. cbn in H.
  destruct (present (so_ownershipScope other) && _); [discriminate|].
  destruct (physical_conflict disk scope _) eqn:C.
  - cbn in H. destruct (findOwnershipConflicts _ _); discriminate.
  - exact (no_conflict_isolated _ _ C).
Qed.
End Isolation.

(** The scope a write task is claimed under. *)
Definition claim_scope (env : ClaimEnv) (nodeId : string) (opts : ClaimOptions) (c : ClaimEntry) : option PhysicalOwnershipScope :=
  nullish_or (proven_scope env nodeId opts c)
    (currentPhysicalScope env.(en_disk) c.(ce_ownershipScope) (nullish c.(ce_ownedPaths) unknownWriterPaths)).

