(* ===== verification/QueueOrder.v ===== *)
(** * The order in which tasks are taken

    Candidates are tried by tier, then by priority, then by age; the first that
    passes is claimed. *)

From Stdlib Require Import Ascii Sorted.
From S2P Require Import Prelude TurnEvidence TurnTypes DaemonId TurnStore StoreFacts StageRows PathOwnership QueueTypes QueueClaim QueueFacts QueueTheorems.

#[local] Open Scope Z_scope.

(** ** Strings in order *)

Lemma string_leb_cons a b s t :
  String.leb (String a s) (String b t) = match Ascii.compare a b with Lt => true | Gt => false | Eq => String.leb s t end.
Proof. unfold String.leb. cbn. destruct (Ascii.compare a b); reflexivity. Qed.

Lemma ascii_compare_N a b : Ascii.compare a b = N.compare (N_of_ascii a) (N_of_ascii b).
Proof. reflexivity. Qed.

Lemma string_leb_trans s t u : String.leb s t = true -> String.leb t u = true -> String.leb s u = true.
Proof.
  revert t u; induction s as [|a s IH]; intros [|b t] [|c u]; try reflexivity; try discriminate.
  rewrite !string_leb_cons, !ascii_compare_N.
  destruct (N.compare_spec (N_of_ascii a) (N_of_ascii b)), (N.compare_spec (N_of_ascii b) (N_of_ascii c)),
    (N.compare_spec (N_of_ascii a) (N_of_ascii c)); try discriminate; try lia; auto.
  apply IH.
Qed.

#[global] Instance by_id_trans {A} (key : A -> string) : Transitive (by_id key).
Proof. intros x y z. apply string_leb_trans. Qed.

Lemma by_id_total {A} (key : A -> string) x y : by_id key x y \/ by_id key y x.
Proof. apply String.leb_total. Qed.

(** ** Stable ordering *)

Lemma insert_row_map {A B} (f : A -> B) (R : B -> B -> Prop) `{forall x y, Decision (R x y)} x l :
  insert_row R (f x) (map f l) = map f (insert_row (fun a b => R (f a) (f b)) x l).
Proof. induction l as [|y l IH]; [reflexivity|]. cbn. case_decide; [reflexivity|]. cbn. rewrite IH. reflexivity. Qed.

Lemma order_by_map {A B} (f : A -> B) (R : B -> B -> Prop) `{forall x y, Decision (R x y)} l :
  order_by R (map f l) = map f (order_by (fun a b => R (f a) (f b)) l).
Proof. induction l as [|x l IH]; [reflexivity|]. cbn. rewrite IH. apply insert_row_map. Qed.

Section Stable.
Context {A : Type} (rank : A -> Z) (K : A -> A -> Prop).

(** By rank, the highest first, then by [K]. *)
Definition ranked (x y : A) : Prop := rank y < rank x \/ (rank x = rank y /\ K x y).

Definition by_rank (x y : A) : Prop := rank y <= rank x.
#[global] Instance by_rank_dec x y : Decision (by_rank x y) := Z_le_dec _ _.

Lemma insert_ranked x l : Forall (K x) l -> StronglySorted ranked l -> StronglySorted ranked (insert_row by_rank x l).
Proof.
  intros F S. induction S as [|y l S IH Fy]; cbn; [repeat constructor|]. inversion F as [|? ? Kx F']; subst.
  case_decide as D; unfold by_rank in D.
  - assert (Hx : ranked x y) by (unfold ranked; destruct (Z.eq_dec (rank x) (rank y)); [right | left]; auto; lia).
    constructor; [constructor; assumption|]. constructor; [exact Hx|].
    rewrite Forall_forall in Fy, F' |- *. intros z Iz. specialize (Fy z Iz). specialize (F' z Iz). unfold ranked in *.
    destruct (Z.eq_dec (rank x) (rank z)); [right; auto | left; lia].
  - constructor; [apply IH, F'|]. apply Forall_forall. intros z Iz. apply list_elem_of_In in Iz.
    assert (Iz' : In z (x :: l)) by (apply list_elem_of_In; rewrite <- (insert_row_perm by_rank x l); apply list_elem_of_In, Iz).
    destruct Iz' as [<-|J]; [left; lia|]. rewrite Forall_forall in Fy. apply Fy, list_elem_of_In, J.
Qed.

Lemma order_ranked l : StronglySorted K l -> StronglySorted ranked (order_by by_rank l).
Proof.
  induction 1 as [|x l S IH F]; [constructor|]. cbn. apply insert_ranked; [|exact IH].
  rewrite (order_by_perm by_rank l). exact F.
Qed.
End Stable.

Lemma StronglySorted_app {A} (R : A -> A -> Prop) l l' :
  StronglySorted R l -> StronglySorted R l' -> (forall x y, In x l -> In y l' -> R x y) -> StronglySorted R (l ++ l').
Proof.
  induction 1 as [|x l S IH F]; intros S' C; [exact S'|]. cbn. constructor.
  - apply IH; [exact S' | intros; apply C; [right|]; assumption].
  - apply Forall_app. split; [exact F|]. apply Forall_forall. intros y I. apply C; [left; reflexivity | apply list_elem_of_In, I].
Qed.

Lemma StronglySorted_filter {A} (R : A -> A -> Prop) (P : A -> bool) l : StronglySorted R l -> StronglySorted R (List.filter P l).
Proof.
  induction 1 as [|x l S IH F]; [constructor|]. cbn. destruct (P x); [|exact IH]. constructor; [exact IH|].
  rewrite Forall_forall in F |- *. intros y I. apply F. apply list_elem_of_In in I. apply filter_In in I.
  apply list_elem_of_In. tauto.
Qed.

Lemma StronglySorted_weaken {A} (R R' : A -> A -> Prop) l :
  (forall x y, In x l -> In y l -> R x y -> R' x y) -> StronglySorted R l -> StronglySorted R' l.
Proof.
  intros H S. induction S as [|x l S IH F]; [constructor|]. constructor.
  - apply IH. intros; apply H; [right | right|]; assumption.
  - rewrite Forall_forall in F |- *. intros y I. apply H; [left; reflexivity | right; apply list_elem_of_In, I | apply F, I].
Qed.

(** ** Tiers *)

Section Order.
Context (nodeId sessionId : string) (opts : ClaimOptions) (s : ClaimStore).

Definition tier (row : QueueRow) : Z :=
  if session_tier sessionId row then 0 else if node_tier nodeId row then 1 else 2.

Definition row_rank (row : QueueRow) : Z := meshTaskPriorityRank row.(rw_payload).(ce_priority).

(** The order of the rows: tier, priority, age. *)
Definition taken_before (r1 r2 : QueueRow) : Prop :=
  tier r1 < tier r2 \/ (tier r1 = tier r2 /\ ranked row_rank (by_id rw_createdAt) r1 r2).

Definition tier_rows (in_tier : QueueRow -> bool) : list QueueRow :=
  order_by (by_rank row_rank) (order_by (by_id rw_createdAt)
    (List.filter (fun row => bool_decide (row.(rw_status) = st_pending) && in_tier row) s.(cs_rows))).

Definition candidate_rows : list QueueRow :=
  List.filter (fun row => offered sessionId opts row.(rw_payload))
    (tier_rows (session_tier sessionId) ++ tier_rows (node_tier nodeId) ++ tier_rows open_tier).

Lemma parseTier_rows in_tier : parseTier s in_tier = map rw_payload (tier_rows in_tier).
Proof. unfold parseTier, tier_rows. rewrite order_by_map. reflexivity. Qed.

Lemma filter_map {A B} (f : A -> B) (P : B -> bool) l : List.filter P (map f l) = map f (List.filter (fun x => P (f x)) l).
Proof. induction l as [|x l IH]; [reflexivity|]. cbn. destruct (P (f x)); cbn; rewrite IH; reflexivity. Qed.

Lemma candidates_rows : candidates nodeId sessionId opts s = map rw_payload candidate_rows.
Proof. unfold candidates, candidate_rows. rewrite !parseTier_rows, <- !map_app, filter_map. reflexivity. Qed.

Lemma tier_rows_In in_tier row : In row (tier_rows in_tier) <->
  In row s.(cs_rows) /\ row.(rw_status) = st_pending /\ in_tier row = true.
Proof. unfold tier_rows. rewrite !In_order_by, filter_In, andb_true_iff, bool_decide_eq_true. reflexivity. Qed.

Lemma tier_rows_sorted in_tier : StronglySorted (ranked row_rank (by_id rw_createdAt)) (tier_rows in_tier).
Proof. apply order_ranked, order_by_sorted; [apply by_id_trans | apply by_id_total]. Qed.

Lemma node_tier_not_session row : node_tier nodeId row = true -> session_tier sessionId row = false.
Proof.
  unfold node_tier, session_tier. rewrite andb_true_iff, bool_decide_eq_true. intros [-> _]. reflexivity.
Qed.

Lemma open_tier_last row : open_tier row = true -> session_tier sessionId row = false /\ node_tier nodeId row = false.
Proof.
  unfold open_tier, node_tier, session_tier. rewrite andb_true_iff, !bool_decide_eq_true. intros [-> ->].
  split; [reflexivity | apply andb_false_r].
Qed.

Lemma tier_of in_tier row : In row (tier_rows in_tier) ->
  (in_tier = session_tier sessionId -> tier row = 0) /\ (in_tier = node_tier nodeId -> tier row = 1)
  /\ (in_tier = open_tier -> tier row = 2).
Proof.
  intros (_ & _ & T)%tier_rows_In. unfold tier. split; [|split]; intros ->.
  - rewrite T. reflexivity.
  - rewrite (node_tier_not_session _ T), T. reflexivity.
  - destruct (open_tier_last _ T) as [-> ->]. reflexivity.
Qed.

Lemma candidate_rows_sorted : StronglySorted taken_before candidate_rows.
Proof.
  assert (Same : forall in_tier k, (forall row, In row (tier_rows in_tier) -> tier row = k) ->
    StronglySorted taken_before (tier_rows in_tier)).
  { intros in_tier k T. apply (StronglySorted_weaken (ranked row_rank (by_id rw_createdAt))); [|apply tier_rows_sorted].
    intros x y Ix Iy Rk. right. rewrite (T x Ix), (T y Iy). auto. }
  apply StronglySorted_filter, StronglySorted_app; [|apply StronglySorted_app|].
  - apply (Same _ 0). intros row I. exact (proj1 (tier_of _ _ I) eq_refl).
  - apply (Same _ 1). intros row I. exact (proj1 (proj2 (tier_of _ _ I)) eq_refl).
  - apply (Same _ 2). intros row I. exact (proj2 (proj2 (tier_of _ _ I)) eq_refl).
  - intros x y Ix Iy. left. rewrite (proj1 (proj2 (tier_of _ _ Ix)) eq_refl), (proj2 (proj2 (tier_of _ _ Iy)) eq_refl). lia.
  - intros x y Ix Iy. left. rewrite (proj1 (tier_of _ _ Ix) eq_refl). apply in_app_iff in Iy as [Iy|Iy].
    + rewrite (proj1 (proj2 (tier_of _ _ Iy)) eq_refl). lia.
    + rewrite (proj2 (proj2 (tier_of _ _ Iy)) eq_refl). lia.
Qed.
End Order.

(** C26: Of the pending tasks offered to the session that pass every gate, the claim
    takes the first: one pinned to the session before one pinned to the node
    before an open one, then by priority, then the oldest. *)
Theorem claimed_first env meshId nodeId sessionId tags opts now s e s' :
  store_ok s -> claimNextQueueTask env meshId nodeId sessionId tags opts now s = (Claimed e, s') ->
  exists row, In row (candidate_rows nodeId sessionId opts s) /\ row.(rw_id) = e.(ce_id)
    /\ forall other, In other (candidate_rows nodeId sessionId opts s) ->
         passes (gates env meshId nodeId sessionId tags opts now s) other.(rw_payload) ->
         other = row \/ taken_before nodeId sessionId row other.
Proof.
  intros Ok E. destruct (claim_outcome _ _ _ _ _ _ _ _ _ _ E) as [(b & c & a & scope & Ec & P & N & _ & Ee) _ _ _ _].
  rewrite candidates_rows in Ec. apply map_eq_app in Ec as (rb & rest & Ec & <- & Er).
  destruct rest as [|row ra]; [discriminate|]. injection Er as <- <-.
  destruct (claimed_fields env meshId nodeId sessionId opts now s (rw_payload row) scope) as (Ei & _). rewrite <- Ee in Ei.
  assert (Ir : In row (candidate_rows nodeId sessionId opts s)) by (rewrite Ec; apply in_app_iff; cbn; auto).
  assert (Iq : In row s.(cs_rows)).
  { apply filter_In in Ir as [Ir _]. rewrite !in_app_iff in Ir. destruct Ir as [I|[I|I]]; apply tier_rows_In in I; tauto. }
  exists row. split; [exact Ir|]. split; [rewrite Ei; symmetry; apply synced_id, (so_synced _ Ok), Iq|].
  intros other Io Po. rewrite Ec in Io. apply in_app_iff in Io as [Io|[->|Io]].
  - destruct (N (rw_payload other)); [apply in_map, Io | exact Po].
  - auto.
  - right. pose proof (candidate_rows_sorted nodeId sessionId opts s) as S. rewrite Ec in S. clear - S Io.
    induction rb as [|x rb IH]; cbn in S; inversion S as [|? ? S' F]; subst; [|exact (IH S')].
    rewrite Forall_forall in F. apply F, list_elem_of_In, Io.
Qed.

(** * A claim the ledger refused

    [rebindRefusedClaimToOpenAttempt] of daemon-core/src/mesh/mesh-queue-attempt-guard.ts:
    when the ledger refuses the dispatch of a claimed task because its attempt
    is already running, the row goes back to describing that run and is kept
    from being claimed again for a while.  [retireOpenQueueAttemptForRequeue]
    decides whether a requeue may go on. *)

Definition CLAIM_REFUSAL_BACKOFF_BASE_MS : Z := 2000.
Definition CLAIM_REFUSAL_BACKOFF_MAX_MS : Z := 60000.

Definition refusal_backoff (refusals : Z) : Z :=
  Z.min (CLAIM_REFUSAL_BACKOFF_BASE_MS * 2 ^ (refusals - 1)) CLAIM_REFUSAL_BACKOFF_MAX_MS.

(** The row after the refusal; [None] is a row that is not assigned any more,
    which is left as it is. *)
Definition rebound_entry (iso : Z -> string) (attempt : TurnAttempt) (now : Z) (entry : ClaimEntry) : option ClaimEntry :=
  if bool_decide (entry.(ce_status) <> st_assigned) then None else
  let refusals := nullish entry.(ce_claimRefusedCount) 0 + 1 in
  Some {| entry with
    ce_assignedSessionId := Some (a_sessionId attempt);
    ce_assignedNodeId := if truthy_str (a_nodeId attempt) then a_nodeId attempt else None;
    ce_assignedProviderType := if truthy_str (a_providerType attempt) then a_providerType attempt else entry.(ce_assignedProviderType);
    ce_assignedModel := None;
    ce_assignedTranscriptProfile := None;
    ce_attemptId := Some (a_attemptId attempt);
    ce_dispatchNonce := Some (Z.max 0 (nullish entry.(ce_dispatchNonce) 0 - 1));
    ce_dispatchTimestamp := Some (iso (nullish (a_deliveredAt attempt) (a_acceptedAt attempt)));
    ce_claimRefusedCount := Some refusals;
    ce_notBefore := Some (iso (now + refusal_backoff refusals)) |}.

(** ** Requeue *)

Inductive QueueAttemptRetirementRefusal : Set := Ret_attempt_open | Ret_no_ledger | Ret_not_owner | Ret_cancel_not_applied.

Inductive QueueAttemptRetirement : Set :=
| Ret_none
| Ret_closed (attempt : TurnAttempt)
| Ret_refused (attempt : TurnAttempt) (reason : QueueAttemptRetirementRefusal).

(** [ledger]: the daemon id of the active ledger, when there is one, and
    whether it applies the cancellation and ends the attempt. *)
Definition retireOpenQueueAttemptForRequeue (meshId taskId : string) (force : bool) (ledger : option (string * bool)) (turns : Db)
  : QueueAttemptRetirement :=
  match findOpenQueueAttempt turns meshId taskId with
  | None => Ret_none
  | Some open =>
      if bool_decide (a_state open = St_stopping) || negb force && bool_decide (a_state open ∈ INJECTION_CLOSED_STATES)
      then Ret_refused open Ret_attempt_open
      else match ledger with
           | None => Ret_refused open Ret_no_ledger
           | Some (selfDaemonId, applied) =>
               if bool_decide (a_ownerDaemonId open <> "") && negb (daemonIdsEquivalent (Some (a_ownerDaemonId open)) (Some selfDaemonId))
               then Ret_refused open Ret_not_owner
               else if applied then Ret_closed open else Ret_refused open Ret_cancel_not_applied
           end
  end.

(** ** Facts *)

Lemma refusal_backoff_bounds n : 1 <= n -> CLAIM_REFUSAL_BACKOFF_BASE_MS <= refusal_backoff n <= CLAIM_REFUSAL_BACKOFF_MAX_MS.
Proof.
  intros H. unfold refusal_backoff, CLAIM_REFUSAL_BACKOFF_BASE_MS, CLAIM_REFUSAL_BACKOFF_MAX_MS.
  assert (1 <= 2 ^ (n - 1)) by (apply (Z.pow_le_mono_r 2 0 (n - 1)); lia). lia.
Qed.

Lemma refusal_backoff_grows n : 1 <= n -> refusal_backoff n <= refusal_backoff (n + 1).
Proof.
  intros H. unfold refusal_backoff. assert (2 ^ (n - 1) <= 2 ^ (n + 1 - 1)) by (apply Z.pow_le_mono_r; lia). unfold CLAIM_REFUSAL_BACKOFF_BASE_MS. lia.
Qed.

(** The counters of a row count. *)
Definition attempts_ok (e : ClaimEntry) : Prop :=
  0 <= nullish e.(ce_dispatchNonce) 0 /\ 0 <= nullish e.(ce_claimRefusedCount) 0.

(** A claim whose dispatch the ledger refuses leaves the task assigned to the
    run that holds it, with the dispatch number it had before the claim and not
    claimable for two seconds to a minute. *)
Theorem rebind_undoes_claim env meshId nodeId sessionId tags opts now s e s' attempt later entry iso :
  store_ok s -> claimNextQueueTask env meshId nodeId sessionId tags opts now s = (Claimed e, s') ->
  (forall row, In row s.(cs_rows) -> attempts_ok row.(rw_payload)) ->
  rebound_entry iso attempt later e = Some entry ->
  exists row, In row s.(cs_rows) /\ row.(rw_id) = entry.(ce_id) /\ row.(rw_status) = st_pending
    /\ entry.(ce_dispatchNonce) = Some (nullish row.(rw_payload).(ce_dispatchNonce) 0)
    /\ entry.(ce_status) = st_assigned /\ entry.(ce_assignedSessionId) = Some (a_sessionId attempt)
    /\ exists wait, entry.(ce_notBefore) = Some (iso (later + wait)) /\ 2000 <= wait <= 60000.
Proof.
  intros Ok E Nn Rb. pose proof (claim_outcome _ _ _ _ _ _ _ _ _ _ E) as Co.
  destruct (co_parts _ _ _ _ _ _ _ _ _ _ Co) as (b & c & a & scope & Ec & _ & _ & _ & Ee).
  assert (Ic : In c (candidates nodeId sessionId opts s)) by (rewrite Ec; apply in_app_iff; cbn; auto).
  destruct (claimed_fields env meshId nodeId sessionId opts now s c scope) as (Ei & Es & _ & _ & _ & _ & _ & _ & Ed & _ & _ & Er).
  rewrite <- Ee in *. destruct (candidate_row _ _ _ _ c Ic) as (row & Ir & <- & St & _).
  unfold rebound_entry in Rb. rewrite Es, bool_decide_eq_false_2 in Rb by auto. injection Rb as <-. cbn.
  destruct (Nn row Ir) as [Nd Nr]. exists row. split; [exact Ir|]. split; [rewrite Ei; symmetry; apply synced_id, (so_synced _ Ok), Ir|]. split; [exact St|].
  split; [|split; [reflexivity|]; split; [reflexivity|]].
  - rewrite Ed. cbn. f_equal. lia.
  - eexists. split; [reflexivity|]. apply refusal_backoff_bounds. rewrite Er. lia.
Qed.
