(* ===== verification/QueueScenario.v ===== *)
(** * A queue with three tasks

    A writer is active in one checkout of a machine; a session in another
    checkout claims.  The tasks on offer are an old task of low priority, a
    newer one of high priority, and one whose prerequisite is not completed. *)

From stdpp Require Import relations.
From S2P Require Import Prelude DaemonId PathOwnership PhaseGraph TurnEvidence TurnTypes TurnStore StageRows.
From S2P Require Import QueueTypes QueueOwnership QueueClaim QueueFacts QueueTheorems QueueRules QueueOrder.

#[local] Open Scope Z_scope.

Definition blank_entry (id : string) : ClaimEntry := {|
  ce_id := id; ce_message := "do it"; ce_status := st_pending; ce_parked := None; ce_taskMode := Some "code_change"; ce_readonly := None;
  ce_light := false; ce_lightWorkspaceId := None; ce_targetNodeId := None; ce_targetSessionId := None;
  ce_requiredTags := None; ce_priority := None; ce_notBefore := None; ce_dependsOn := None; ce_difficulty := None;
  ce_phase := Some "source"; ce_revision := None; ce_ownedPaths := None; ce_ownershipScope := None;
  ce_logicalOverlapWarnings := None; ce_review := None; ce_reviewInputScope := None; ce_reviewerWorkspace := None;
  ce_stagePlan := None; ce_stageState := None; ce_origin := None; ce_parentTaskId := None; ce_stageRole := None; ce_assignedNodeId := None; ce_assignedSessionId := None;
  ce_assignedProviderType := None; ce_assignedModel := None; ce_assignedTranscriptProfile := None; ce_attemptId := None;
  ce_dispatchTimestamp := None; ce_dispatchNonce := None; ce_claimRefusedCount := None; ce_autoLaunch := None;
  ce_autoLaunchUnclaimedCount := None; ce_autoLaunchDispatchFailedCount := None; ce_quotaGateOverride := None;
  ce_hold := None; ce_holdNoticeId := None;
  ce_cancelReason := None; ce_cancelledAt := None; ce_requeueReason := None; ce_requeuedAt := None; ce_requeueCount := None;
  ce_maxRetries := None; ce_dispatchFailureCount := None; ce_stageRound := None; ce_missionId := None;
  ce_inputArtifactIds := None; ce_inheritArtifacts := None; ce_lightBaseNodeId := None; ce_model := None; ce_thinkingLevel := None;
  ce_sourceCoordinatorSessionId := None; ce_inputParts := []; ce_routingPreferences := None; ce_revisionHistory := []; ce_updatedAt := "t0" |}.

Definition owns (path : string) : option OwnedPathsDeclaration :=
  Some {| od_paths := [{| ow_path := path; ow_subtree := true |}] |}.

(** A checkout, with the declared paths as its resources. *)
Definition scope_at (input : AttestInput) : PhysicalOwnershipScope := {|
  sc_version := 1; sc_repoIdentity := input.(ai_repoIdentity); sc_machineId := input.(ai_machineId); sc_nodeId := input.(ai_nodeId);
  sc_worktree := input.(ai_workspace); sc_worktreeIdentity := "ino:" +:+ input.(ai_workspace);
  sc_gitDir := input.(ai_workspace) +:+ "/.git"; sc_commonGitDir := "/repo/.git"; sc_phase := input.(ai_phase);
  sc_gitResources := {| gr_index := input.(ai_workspace) +:+ "/index"; gr_refs := "/repo/refs"; gr_hooks := "/repo/hooks";
                        gr_config := "/repo/config" |};
  sc_resources := map (fun p => {| rs_path := input.(ai_workspace) +:+ "/" +:+ p.(ow_path); rs_identity := None;
                                   rs_subtree := p.(ow_subtree) |}) input.(ai_paths).(od_paths);
  sc_declaration := input.(ai_paths).(od_paths) |}.

(** A disk on which every attestation succeeds. *)
Definition calm_disk : Disk := {|
  dk_attest := fun input => inr (scope_at input);
  dk_realpath := Some;
  dk_relative := fun root p => if starts_with (root +:+ "/") p then "in" else if bool_decide (root = p) then "" else "..";
  dk_isAbsolute := fun _ => false; dk_sep := "/"; dk_machineId := Some "m1" |}.

Definition calm_env : ClaimEnv := {|
  en_disk := calm_disk; en_parseDate := fun _ => None; en_iso := fun _ => "t9"; en_held := false;
  en_usable := fun _ => true; en_stageScope := fun _ _ => None |}.

Definition busy_task : ClaimEntry :=
  let e := blank_entry "busy" in
  {| e with ce_status := st_assigned; ce_ownedPaths := owns "docs"; ce_assignedNodeId := Some "n2"; ce_assignedSessionId := Some "s2";
     ce_assignedProviderType := Some "claude-cli";
     ce_ownershipScope := Some (scope_at {| ai_repoIdentity := "r"; ai_machineId := "m1"; ai_nodeId := "n2"; ai_workspace := "/w2";
       ai_phase := "source"; ai_paths := {| od_paths := [{| ow_path := "docs"; ow_subtree := true |}] |} |}) |}.

Definition blocked_task : ClaimEntry :=
  let e := blank_entry "blocked" in
  {| e with ce_phase := None; ce_dependsOn := Some ["old"]; ce_priority := Some "high"; ce_ownedPaths := owns "tools" |}.

Definition old_task : ClaimEntry :=
  let e := blank_entry "old" in {| e with ce_priority := Some "low"; ce_phase := None; ce_ownedPaths := owns "lib" |}.

Definition urgent_task : ClaimEntry :=
  let e := blank_entry "urgent" in
  {| e with ce_priority := Some "high"; ce_ownedPaths := owns "src"; ce_dispatchNonce := Some 2 |}.

Definition small_queue : ClaimStore := {|
  cs_rows := [toRow "2026-01-01" busy_task; toRow "2026-01-02" old_task; toRow "2026-01-03" blocked_task;
              toRow "2026-01-04" urgent_task];
  cs_turns := empty_db; cs_refusals := []; cs_fences := ["s9"]; cs_frozen := false |}.

Definition small_options : ClaimOptions := {|
  op_physicalContext := Some {| cx_workspace := "/w1"; cx_machineId := "m1"; cx_repoIdentity := Some "r"; cx_remoteOwnership := None |};
  op_providerType := Some "claude-cli"; op_providerMaxParallel := Some 2; op_assignedModel := Some "opus";
  op_slotMaxParallel := Some 3; op_daemonNodeIds := Some ["n1"; "n2"]; op_nodeIsWorktree := None;
  op_assignedTranscriptProfile := None; op_allowedTaskDifficulties := None; op_lightWorkspaceId := None;
  op_nodeGitGate := None; op_onlyQuotaOverridden := None |}.

Definition small_claim (sessionId : string) (s : ClaimStore) : ClaimResult * ClaimStore :=
  claimNextQueueTask calm_env "mesh" "n1" sessionId [] small_options 1000 s.

(** The blocked task comes first in the order but waits for its prerequisite:
    it is held, and the urgent one is claimed. *)
Example small_claim_runs :
  match small_claim "s1" small_queue with
  | (Claimed e, s') => e.(ce_id) = "urgent" /\ e.(ce_dispatchNonce) = Some 3
      /\ map (fun r => mh_reason <$> r.(rw_payload).(ce_hold)) s'.(cs_rows) = [None; None; Some "dependencies_unsatisfied"; None]
      /\ map rw_status s'.(cs_rows) = [st_assigned; st_pending; st_pending; st_assigned]
  | _ => False
  end.
Proof. vm_compute. auto. Qed.

Lemma small_claimed : exists e s', small_claim "s1" small_queue = (Claimed e, s') /\ isTaskReadonly e = false.
Proof. vm_compute. eauto. Qed.

(** The same queue for a provider that runs one task at a time on the machine. *)
Definition tight_options : ClaimOptions :=
  let o := small_options in {| o with op_providerMaxParallel := Some 1 |}.

Lemma tight_refused : exists why s',
  claimNextQueueTask calm_env "mesh" "n1" "s1" [] tight_options 1000 small_queue = (Refused why, s')
  /\ why.(rf_reason) = "parallel_cap_reached" /\ why.(rf_taskId) = Some "urgent".
Proof. vm_compute. eauto 6. Qed.

Lemma small_ok : store_ok small_queue.
Proof.
  split; [repeat (apply NoDup_cons; split; [rewrite list_elem_of_In; cbn; intuition discriminate|]); constructor|].
  intros row. cbn [cs_rows small_queue In]. intros [<-|[<-|[<-|[<-|[]]]]]; reflexivity.
Qed.

Lemma small_exclusive : exclusive "mesh" small_queue.
Proof.
  split.
  - intros r1 r2 x. cbn [cs_rows small_queue In].
    intros [<-|[<-|[<-|[<-|[]]]]] [<-|[<-|[<-|[<-|[]]]]] A1 A2; try discriminate A1; try discriminate A2; reflexivity.
  - intros r1 r2 n. cbn [cs_rows small_queue In].
    intros [<-|[<-|[<-|[<-|[]]]]] [<-|[<-|[<-|[<-|[]]]]] A1 A2; try discriminate A1; try discriminate A2; reflexivity.
Qed.

(** ** Witnesses *)

Lemma queue_exclusive_witness : exists e s', small_claim "s1" small_queue = (Claimed e, s')
  /\ store_ok s' /\ exclusive "mesh" s'.
Proof.
  destruct small_claimed as (e & s' & E & _). exists e, s'. split; [exact E|].
  apply (queue_exclusive "mesh" small_queue s' small_ok small_exclusive).
  eapply reach_step; [apply reach_start|]. eapply step_claim; [|exact E]. reflexivity.
Defined.

Lemma caps_respected_witness : exists e s', small_claim "s1" small_queue = (Claimed e, s')
  /\ activeProviderAssignmentCount "mesh" "n1" "claude-cli" (Some ["n1"; "n2"]) s' <= 2.
Proof.
  destruct small_claimed as (e & s' & E & Rd). exists e, s'. split; [exact E|].
  destruct (caps_respected _ _ _ _ _ _ _ _ _ _ small_ok E) as [P _]. specialize (P 2 eq_refl).
  rewrite Rd in P. exact P.
Defined.


Lemma claimed_first_witness : exists e s', small_claim "s1" small_queue = (Claimed e, s')
  /\ exists row, In row (candidate_rows "n1" "s1" small_options small_queue) /\ row.(rw_id) = e.(ce_id).
Proof.
  destruct small_claimed as (e & s' & E & _). exists e, s'. split; [exact E|].
  destruct (claimed_first _ _ _ _ _ _ _ _ _ _ small_ok E) as (row & ? & ? & _). exists row. auto.
Defined.


Lemma refused_exactly_witness : exists why s',
  claimNextQueueTask calm_env "mesh" "n1" "s1" [] tight_options 1000 small_queue = (Refused why, s')
  /\ why.(rf_reason) = "parallel_cap_reached"
  /\ forall c, In c (candidates "n1" "s1" tight_options small_queue) ->
       ~ passes (gates calm_env "mesh" "n1" "s1" [] tight_options 1000 small_queue) c.
Proof.
  destruct tight_refused as (why & s' & E & Rs & _). exists why, s'. split; [exact E|]. split; [exact Rs|].
  destruct (refused_exactly _ _ _ _ _ _ _ _ _ _ E) as [[_ R]|[[_ R]|[(c & m & _ & _ & _ & R & _)|[N _]]]];
    try (rewrite Rs in R; discriminate R). exact N.
Defined.
