(* ===== verification/QueueSlots.v ===== *)
(** * Machines, models and refused claims

    Three parts around the claim: the nodes that share a machine, the slot a
    model is launched on, and what is remembered of refused claims.

    ** Nodes that share a machine

    daemon-core/src/mesh/mesh-daemon-slot-axis.ts: which nodes of a mesh share
    the daemon machine of a node, so that caps are charged per machine. *)

From S2P Require Import Prelude TurnEvidence DaemonId PathOwnership QueueTypes.

(** What the grouping reads of a node record: its three spellings of the id,
    the ten places a daemon id may be, the ten of a machine id, and the two
    spellings of the node it was cloned from. *)
Record MeshNode : Set := {
  nd_ids : list (option string);
  nd_daemonIds : list (option string);
  nd_machineIds : list (option string);
  nd_clonedFrom : list (option string) }.

Definition LOCAL_DAEMON_KEY : string := "__local_daemon__".
Definition MAX_CLONE_CHAIN : nat := 16.

(** The first value that is a string with more than blanks, trimmed. *)
Fixpoint first_text (values : list (option string)) : option string :=
  match values with
  | [] => None
  | v :: rest => match read_id v with Some t => Some t | None => first_text rest end
  end.

Definition normalizeMeshNodeId (node : MeshNode) : option string := first_text node.(nd_ids).

Definition node_matches (node : MeshNode) (candidateId : string) : bool :=
  match read_id (Some candidateId) with
  | Some trimmed => bool_decide (normalizeMeshNodeId node = Some trimmed)
  | None => false
  end.

Definition directDaemonKey (node : MeshNode) : option string :=
  match first_text node.(nd_daemonIds) with
  | Some declared => machineCoreFromDaemonId (Some declared)
  | None => match first_text node.(nd_machineIds) with
            | Some declared => machineCoreFromDaemonId (Some declared)
            | None => None
            end
  end.

(** The position of the first node but [current] that matches. *)
Fixpoint find_other (nodes : list MeshNode) (index current : nat) (sourceId : string) : option (nat * MeshNode) :=
  match nodes with
  | [] => None
  | node :: rest =>
      if negb (Nat.eqb index current) && node_matches node sourceId then Some (index, node)
      else find_other rest (S index) current sourceId
  end.

(** The walk along [clonedFromNodeId]. *)
Fixpoint clone_walk (hops : nat) (allNodes : list MeshNode) (seen : list string) (current : nat) (node : MeshNode)
  : option string :=
  match hops with
  | O => None
  | S hops =>
      match first_text node.(nd_clonedFrom) with
      | None => None
      | Some sourceId =>
          if bool_decide (sourceId ∈ seen) then None else
          match find_other allNodes 0 current sourceId with
          | None => None
          | Some (index, source) =>
              match directDaemonKey source with
              | Some key => Some key
              | None => clone_walk hops allNodes (sourceId :: seen) index source
              end
          end
      end
  end.

Definition resolveNodeDaemonKey (index : nat) (node : MeshNode) (allNodes : list MeshNode) : string :=
  match directDaemonKey node with
  | Some key => if filled key then key else nullish (clone_walk MAX_CLONE_CHAIN allNodes [] index node) LOCAL_DAEMON_KEY
  | None => nullish (clone_walk MAX_CLONE_CHAIN allNodes [] index node) LOCAL_DAEMON_KEY
  end.

Fixpoint find_self (nodes : list MeshNode) (index : nat) (self : string) : option (nat * MeshNode) :=
  match nodes with
  | [] => None
  | node :: rest => if node_matches node self then Some (index, node) else find_self rest (S index) self
  end.

(** The loop over the list, from position [index] on. *)
Fixpoint collect (list_ : list MeshNode) (rest : list MeshNode) (index : nat) (selfKey : string) (seen : list string)
  : list string :=
  match rest with
  | [] => []
  | node :: rest =>
      if bool_decide (resolveNodeDaemonKey index node list_ <> selfKey) then collect list_ rest (S index) selfKey seen
      else match normalizeMeshNodeId node with
           | None => collect list_ rest (S index) selfKey seen
           | Some id => if bool_decide (id ∈ seen) then collect list_ rest (S index) selfKey seen
                        else id :: collect list_ rest (S index) selfKey (id :: seen)
           end
  end.

Definition resolveDaemonSiblingNodeIds (nodeId : string) (nodes : option (list MeshNode)) : list string :=
  let self := js_trim nodeId in
  let list_ := nullish nodes [] in
  if negb (filled self) then [] else
  match find_self list_ 0 self with
  | None => [self]
  | Some (index, selfNode) => self :: collect list_ list_ 0 (resolveNodeDaemonKey index selfNode list_) [self]
  end.

(** ** Siblings *)

Lemma collect_spec list_ rest index selfKey seen :
  NoDup (collect list_ rest index selfKey seen)
  /\ forall id, In id (collect list_ rest index selfKey seen) <->
       ~ In id seen /\ exists k node, nth_error rest k = Some node /\ normalizeMeshNodeId node = Some id
         /\ resolveNodeDaemonKey (index + k) node list_ = selfKey.
Proof.
  revert index seen; induction rest as [|node rest IH]; intros index seen; cbn [collect].
  - split; [constructor|]. intros id. split; [intros [] | intros (_ & k & n & E & _); destruct k; discriminate E].
  - assert (Skip : forall P : string -> Prop, (forall id, P id ->
        ~ (~ In id seen /\ normalizeMeshNodeId node = Some id /\ resolveNodeDaemonKey index node list_ = selfKey)) -> True) by auto.
    clear Skip.
    assert (Later : forall id, (~ In id seen /\ exists k n, nth_error (node :: rest) k = Some n /\ normalizeMeshNodeId n = Some id
          /\ resolveNodeDaemonKey (index + k) n list_ = selfKey) <->
        (~ In id seen /\ (normalizeMeshNodeId node = Some id /\ resolveNodeDaemonKey index node list_ = selfKey
          \/ exists k n, nth_error rest k = Some n /\ normalizeMeshNodeId n = Some id
               /\ resolveNodeDaemonKey (S index + k) n list_ = selfKey))).
    { intros id. split; intros [N H]; (split; [exact N|]).
      - destruct H as (k & n & E & Hn & Hk). destruct k as [|k]; cbn in E.
        + injection E as <-. rewrite Nat.add_0_r in Hk. auto.
        + right. exists k, n. rewrite Nat.add_succ_r in Hk. auto.
      - destruct H as [[Hn Hk]|(k & n & E & Hn & Hk)].
        + exists O, node. rewrite Nat.add_0_r. auto.
        + exists (S k), n. rewrite Nat.add_succ_r. auto. }
    case_bool_decide as Dk.
    { destruct (IH (S index) seen) as [ND Sp]. split; [exact ND|]. intros id. rewrite Sp, Later. tauto. }
    destruct (decide (resolveNodeDaemonKey index node list_ = selfKey)) as [Ek|]; [clear Dk | contradiction].
    destruct (normalizeMeshNodeId node) as [nid|] eqn:En.
    2: { destruct (IH (S index) seen) as [ND Sp]. split; [exact ND|]. intros id. rewrite Sp, Later.
         split; [tauto|]. intros [N [[? _]|H]]; [discriminate | auto]. }
    case_bool_decide as Sn; rewrite list_elem_of_In in Sn.
    + destruct (IH (S index) seen) as [ND Sp]. split; [exact ND|]. intros id. rewrite Sp, Later.
      split; [tauto|]. intros [N [[[= ->] _]|H]]; [contradiction | auto].
    + destruct (IH (S index) (nid :: seen)) as [ND Sp]. split.
      * apply NoDup_cons. split; [|exact ND]. rewrite list_elem_of_In, Sp. cbn. tauto.
      * intros id. rewrite Later. cbn [In]. rewrite Sp. cbn [In]. split.
        -- intros [<-|[N H]]; [auto|]. split; [tauto | auto].
        -- intros [N [[[= ->] _]|H]]; [auto|]. destruct (decide (nid = id)) as [->|]; [auto | right; tauto].
Qed.

(** The siblings of a listed node are the node itself and every other id whose
    node has the same machine, each once; a node that is not listed is alone. *)
Theorem siblings_exact nodeId nodes :
  let self := js_trim nodeId in
  self <> "" ->
  NoDup (resolveDaemonSiblingNodeIds nodeId (Some nodes))
  /\ In self (resolveDaemonSiblingNodeIds nodeId (Some nodes))
  /\ match find_self nodes 0 self with
     | None => resolveDaemonSiblingNodeIds nodeId (Some nodes) = [self]
     | Some (index, selfNode) => forall id, In id (resolveDaemonSiblingNodeIds nodeId (Some nodes)) <->
         id = self \/ exists k node, nth_error nodes k = Some node /\ normalizeMeshNodeId node = Some id
           /\ resolveNodeDaemonKey k node nodes = resolveNodeDaemonKey index selfNode nodes
     end.
Proof.
  cbn zeta. intros N. unfold resolveDaemonSiblingNodeIds. cbn [nullish].
  assert (F : filled (js_trim nodeId) = true) by (apply bool_decide_eq_true_2, N). rewrite F. cbn [negb].
  destruct (find_self nodes 0 (js_trim nodeId)) as [[index selfNode]|].
  - destruct (collect_spec nodes nodes 0 (resolveNodeDaemonKey index selfNode nodes) [js_trim nodeId]) as [ND Sp].
    split; [|split].
    + apply NoDup_cons. split; [|exact ND]. rewrite list_elem_of_In, Sp. cbn. tauto.
    + left. reflexivity.
    + intros id. cbn [In]. rewrite Sp. cbn [In]. split.
      * intros [<-|[_ H]]; [auto | right; exact H].
      * intros [->|H]; [auto|]. destruct (decide (js_trim nodeId = id)) as [->|]; [auto | right; tauto].
  - split; [apply NoDup_singleton|]. split; [left|]; reflexivity.
Qed.

(** Clones of clones of one machine share it; a node of another machine does
    not. *)
Definition three_nodes : list MeshNode := [
  {| nd_ids := [Some "base"]; nd_daemonIds := [Some "daemon_mach_1"]; nd_machineIds := []; nd_clonedFrom := [] |};
  {| nd_ids := [None; Some "tree"]; nd_daemonIds := []; nd_machineIds := []; nd_clonedFrom := [Some "base"] |};
  {| nd_ids := [Some "leaf"]; nd_daemonIds := []; nd_machineIds := []; nd_clonedFrom := [None; Some "tree"] |};
  {| nd_ids := [Some "far"]; nd_daemonIds := []; nd_machineIds := [Some "mach_2"]; nd_clonedFrom := [] |}].

Example siblings_of_leaf : resolveDaemonSiblingNodeIds " leaf " (Some three_nodes) = ["leaf"; "base"; "tree"].
Proof. reflexivity. Qed.

(** * The model a task is launched with

    The rest of daemon-core/src/mesh/slot-model-enforcement.ts: a task runs on a
    slot of the node that declares its model, waits while such slots are busy,
    or the coordinator is told that there is none. *)

(** The fields of [NodeCapabilitySlot] the decision reads. *)
Record NodeCapabilitySlot : Set := { sl_provider : string; sl_model : option string }.

Record SlotAvailability : Set := { sa_slot : NodeCapabilitySlot; sa_available : bool }.

(** [typeof slot.model === 'string' ? slot.model.trim() : ''], when not empty. *)
Definition declared_model (slot : NodeCapabilitySlot) : option string :=
  let m := js_trim (nullish slot.(sl_model) "") in if filled m then Some m else None.

Definition isModelAllowedBySlot (model : option string) (slot : option NodeCapabilitySlot) : bool :=
  match slot with
  | None => true
  | Some slot =>
      let requested := js_trim (nullish model "") in
      match declared_model slot with
      | None => negb (filled requested)
      | Some declared => negb (filled requested) || modelNamesEquivalent requested declared
      end
  end.

Inductive SlotModelDecision : Set :=
| Slot_run (slot : NodeCapabilitySlot) (model : option string)
| Slot_wait (busySlots : list NodeCapabilitySlot)
| Slot_notify (declaredModels : list string).

Definition provider_slots (providerType : option string) (slots : list SlotAvailability) : list SlotAvailability :=
  let wanted := js_trim (nullish providerType "") in
  if filled wanted then List.filter (fun s => bool_decide (js_trim s.(sa_slot).(sl_provider) = wanted)) slots else slots.

Definition decideSlotForModel (requestedModel : option string) (slots : list SlotAvailability) (providerType : option string)
  : SlotModelDecision :=
  let candidates := provider_slots providerType slots in
  let declaring := List.filter (fun s => isModelAllowedBySlot requestedModel (Some s.(sa_slot))) candidates in
  match declaring with
  | [] => Slot_notify (first_occurrences [] (map (fun s => nullish (declared_model s.(sa_slot)) "(provider default)") candidates))
  | _ => match List.find sa_available declaring with
         | Some free => Slot_run free.(sa_slot) (declared_model free.(sa_slot))
         | None => Slot_wait (map sa_slot declaring)
         end
  end.

Inductive DemotionReason : Set := slot_reselected_during_launch | winning_slot_capacity_exhausted.

Record SlotFinalization : Set := {
  sf_slot : NodeCapabilitySlot; sf_model : option string; sf_demoted : bool; sf_demotionReason : option DemotionReason }.

Definition finalizeSlotSelection (winningSlot : option NodeCapabilitySlot) (decidedSlot : NodeCapabilitySlot)
    (decidedModel : option string) (winningSlotHasCapacity : bool) : SlotFinalization :=
  let demoted := negb (bool_decide (sl_provider <$> winningSlot = Some decidedSlot.(sl_provider)))
                 || negb (bool_decide (winningSlot ≫= declared_model = declared_model decidedSlot)) in
  {| sf_slot := decidedSlot; sf_model := decidedModel; sf_demoted := demoted;
     sf_demotionReason := if demoted then Some (if winningSlotHasCapacity then slot_reselected_during_launch
                                                else winning_slot_capacity_exhausted) else None |}.

(** ** The decision *)

Lemma provider_slots_In providerType slots s :
  In s (provider_slots providerType slots) <->
  In s slots /\ (js_trim (nullish providerType "") <> "" -> js_trim s.(sa_slot).(sl_provider) = js_trim (nullish providerType "")).
Proof.
  unfold provider_slots, filled. case_bool_decide as F.
  - rewrite filter_In, bool_decide_eq_true. tauto.
  - tauto.
Qed.

(** A task runs only on a free slot of its provider that declares its model,
    with exactly the model that slot declares; it waits only when every
    declaring slot is busy, and the coordinator is told only when none
    declares it. *)
Theorem slot_decision requestedModel slots providerType :
  let declares s := In s (provider_slots providerType slots) /\ isModelAllowedBySlot requestedModel (Some s.(sa_slot)) = true in
  match decideSlotForModel requestedModel slots providerType with
  | Slot_run slot model => (exists s, declares s /\ s.(sa_available) = true /\ s.(sa_slot) = slot) /\ model = declared_model slot
  | Slot_wait busy => busy <> [] /\ (forall s, declares s -> s.(sa_available) = false /\ In s.(sa_slot) busy)
  | Slot_notify _ => forall s, ~ declares s
  end.
Proof.
  cbn zeta. unfold decideSlotForModel. cbn zeta.
  set (declaring := List.filter _ (provider_slots providerType slots)).
  assert (D : forall s, In s declaring <-> In s (provider_slots providerType slots)
      /\ isModelAllowedBySlot requestedModel (Some s.(sa_slot)) = true)
    by (intros s; unfold declaring; rewrite filter_In; reflexivity).
  clearbody declaring. destruct declaring as [|d l] eqn:El.
  - intros s H. apply D in H. destruct H.
  - rewrite <- El in *. destruct (List.find sa_available declaring) as [free|] eqn:Fd.
    + apply find_some in Fd as [I A]. split; [|reflexivity]. exists free. rewrite <- D. auto.
    + split; [rewrite El; discriminate|]. intros s H. apply D in H. split; [exact (find_none _ _ Fd s H) | apply in_map, H].
Qed.

(** A version before the family is not read: the dots that would mark it were
    already blanks when it was looked for, so different models count as one. *)
Theorem version_before_family_lost :
  modelNamesEquivalent "claude-3-5-sonnet" "claude-3-7-sonnet" = true
  /\ modelNamesEquivalent "Claude 3.5 Sonnet" "Claude 3.7 Sonnet" = true
  /\ (cm_version <$> canonicalizeModelName "Claude 3.5 Sonnet") = Some None.
Proof. vm_compute. auto. Qed.

(** * What is remembered of refused claims

    The second half of daemon-core/src/mesh/mesh-claim-refusal.ts: nodes whose
    claim a fast-forward lease refused, which are owed another try, and the
    latest refusal of each session, which may release the gate on launching new
    sessions.  Both maps are bounded. *)

#[local] Open Scope Z_scope.

(** ** Claims deferred by a fast-forward *)

Definition MAX_FAST_FORWARD_CLAIM_REDRIVES : Z := 3.
Definition CLAIM_DEFERRAL_MAX_ENTRIES : nat := 2000.

Definition claimDeferralKey (meshId nodeId : string) : string := meshId +:+ "::" +:+ nodeId.

(** Drop the oldest insertion of a map over its bound. *)
Definition drop_oldest {A} (bound : nat) (m : jsmap A) : jsmap A :=
  if (bound <? length m)%nat then match m with [] => [] | (oldest, _) :: _ => map_delete oldest m end else m.

Definition claim_deferrals : Type := jsmap Z.

Definition noteClaimDeferredForNode (meshId nodeId : string) (m : claim_deferrals) : claim_deferrals :=
  if negb (filled nodeId) then m else
  let key := claimDeferralKey meshId nodeId in
  drop_oldest CLAIM_DEFERRAL_MAX_ENTRIES (map_set key (nullish (map_get key m) 0 + 1) m).

Definition claimDeferralOwedForNode (meshId nodeId : string) (m : claim_deferrals) : bool :=
  if negb (filled nodeId) then false else
  let seen := nullish (map_get (claimDeferralKey meshId nodeId) m) 0 in
  (0 <? seen) && (seen <=? MAX_FAST_FORWARD_CLAIM_REDRIVES).

Definition shouldRedriveDeferredClaim (meshId nodeId sessionId : string) (leaseHeld : bool) (m : claim_deferrals) : bool :=
  if negb (filled nodeId) || negb (filled sessionId) then false
  else if negb (claimDeferralOwedForNode meshId nodeId m) then false
  else negb leaseHeld.

Definition clearClaimDeferralForNode (meshId nodeId : string) (m : claim_deferrals) : claim_deferrals :=
  if negb (filled nodeId) then m else map_delete (claimDeferralKey meshId nodeId) m.

(** ** The latest refusal of a session *)

Record RecentSessionClaimRefusal : Set := { sr_reason : string; sr_taskId : option string; sr_atMs : Z }.

Definition SPAWN_GATE_RELEASING_CLAIM_REFUSALS : list string := ["parallel_cap_reached"].
Definition SESSION_CLAIM_REFUSAL_FRESH_MS : Z := 30000.
Definition SESSION_CLAIM_REFUSAL_MAX_ENTRIES : nat := 2000.

Definition sessionRefusalKey (meshId sessionId : string) : string := meshId +:+ "::" +:+ sessionId.

Definition refusal_memory : Type := jsmap RecentSessionClaimRefusal.

(** [refusal] is the reason and the task, null for a claim that succeeded. *)
Definition noteSessionClaimRefusal (meshId sessionId : string) (refusal : option (string * option string)) (now : Z)
    (m : refusal_memory) : refusal_memory :=
  if negb (filled meshId) || negb (filled sessionId) then m else
  let key := sessionRefusalKey meshId sessionId in
  match refusal with
  | None => map_delete key m
  | Some (reason, taskId) =>
      if bool_decide (reason = "no_pending_candidates") then map_delete key m else
      drop_oldest SESSION_CLAIM_REFUSAL_MAX_ENTRIES
        (map_set key {| sr_reason := reason; sr_taskId := if truthy_str taskId then taskId else None; sr_atMs := now |}
          (map_delete key m))
  end.

Definition readRecentSessionClaimRefusal (meshId sessionId : string) (nowMs : Z) (m : refusal_memory)
  : option RecentSessionClaimRefusal :=
  if negb (filled meshId) || negb (filled sessionId) then None else
  match map_get (sessionRefusalKey meshId sessionId) m with
  | None => None
  | Some record =>
      let age := nowMs - record.(sr_atMs) in
      if (0 <=? age) && (age <=? SESSION_CLAIM_REFUSAL_FRESH_MS) then Some record else None
  end.

Definition sessionClaimRefusalReleasesSpawnGate (meshId sessionId : string) (nowMs : Z) (m : refusal_memory) : bool :=
  match readRecentSessionClaimRefusal meshId sessionId nowMs m with
  | Some record => bool_decide (record.(sr_reason) ∈ SPAWN_GATE_RELEASING_CLAIM_REFUSALS)
  | None => false
  end.

(** ** Bounds *)

Lemma map_delete_length {A} k (m : jsmap A) : (length (map_delete k m) <= length m)%nat.
Proof. induction m as [|[k' v] m IH]; cbn; [lia|]. case_decide; cbn; lia. Qed.

Lemma map_set_length {A} k (v : A) m : (length (map_set k v m) <= S (length m))%nat.
Proof. induction m as [|[k' v'] m IH]; cbn; [lia|]. case_decide; cbn; lia. Qed.

Lemma drop_oldest_bound {A} bound (m : jsmap A) : (length m <= S bound)%nat -> (length (drop_oldest bound m) <= bound)%nat.
Proof.
  unfold drop_oldest. destruct (Nat.ltb_spec bound (length m)) as [L|L]; [|lia].
  destruct m as [|[k v] m]; cbn; [lia|]. rewrite decide_True by reflexivity. pose proof (map_delete_length k m). cbn in *. lia.
Qed.

(** Both memories stay within their bounds. *)
Lemma memories_bounded meshId id refusal now (d : claim_deferrals) (m : refusal_memory) :
  (length d <= CLAIM_DEFERRAL_MAX_ENTRIES)%nat -> (length m <= SESSION_CLAIM_REFUSAL_MAX_ENTRIES)%nat ->
  (length (noteClaimDeferredForNode meshId id d) <= CLAIM_DEFERRAL_MAX_ENTRIES)%nat
  /\ (length (noteSessionClaimRefusal meshId id refusal now m) <= SESSION_CLAIM_REFUSAL_MAX_ENTRIES)%nat.
Proof.
  intros Ld Lm. split.
  - unfold noteClaimDeferredForNode. destruct (negb _); [exact Ld|]. apply drop_oldest_bound.
    etransitivity; [apply map_set_length|]. lia.
  - unfold noteSessionClaimRefusal. destruct (_ || _); [exact Lm|].
    set (key := sessionRefusalKey meshId id). pose proof (map_delete_length key m) as Dl.
    destruct refusal as [[reason task]|]; [|lia]. destruct (bool_decide _); [lia|].
    apply drop_oldest_bound. etransitivity; [apply map_set_length|]. lia.
Qed.

Lemma map_set_new {A} k (v : A) m : ~ In k (map fst m) -> map_set k v m = m ++ [(k, v)].
Proof.
  induction m as [|[k' v'] m IH]; cbn; [reflexivity|]. intros N. rewrite decide_False by (intros ->; tauto).
  rewrite IH by tauto. reflexivity.
Qed.

Lemma map_delete_fresh {A} k (m : jsmap A) : ~ In k (map fst (map_delete k m)).
Proof. intros I. apply in_map_iff in I as ([k' v] & E & I). apply map_delete_In in I as [_ N]. cbn in *. contradiction. Qed.

Lemma map_get_delete_other {A} k k' (m : jsmap A) : k <> k' -> map_get k (map_delete k' m) = map_get k m.
Proof. intros N. induction m as [|[a v] m IH]; cbn; [reflexivity|]. repeat case_decide; subst; cbn; rewrite ?decide_True, ?decide_False by congruence; congruence. Qed.

(** The entry just recorded is not the one dropped. *)
Lemma recorded_kept {A} bound k (v : A) m : (0 < bound)%nat ->
  map_get k (drop_oldest bound (map_set k v (map_delete k m))) = Some v.
Proof.
  intros B. pose proof (map_delete_fresh k m) as N. revert N. generalize (map_delete k m). intros l N.
  assert (G : map_get k (map_set k v l) = Some v) by (rewrite map_get_set, decide_True; reflexivity).
  unfold drop_oldest. destruct (Nat.ltb_spec bound (length (map_set k v l))) as [L|L]; [|exact G].
  rewrite map_set_new in * by exact N. destruct l as [|[a w] l]; [cbn in L; lia|].
  cbn [app] in *. rewrite map_get_delete_other; [exact G|]. intros ->. apply N. left. reflexivity.
Qed.

(** The refusal of a session releases the gate on new launches exactly when it
    was for a full provider or slot, and for thirty seconds after it. *)
Theorem release_exact meshId sessionId reason taskId at_ now m :
  meshId <> "" -> sessionId <> "" ->
  sessionClaimRefusalReleasesSpawnGate meshId sessionId now (noteSessionClaimRefusal meshId sessionId (Some (reason, taskId)) at_ m) = true
  <-> reason = "parallel_cap_reached" /\ at_ <= now <= at_ + SESSION_CLAIM_REFUSAL_FRESH_MS.
Proof.
  intros Hm Hs. assert (Fm : filled meshId = true) by (apply bool_decide_eq_true_2, Hm).
  assert (Fs : filled sessionId = true) by (apply bool_decide_eq_true_2, Hs).
  unfold sessionClaimRefusalReleasesSpawnGate, readRecentSessionClaimRefusal, noteSessionClaimRefusal. rewrite Fm, Fs. cbn [negb orb].
  case_bool_decide as Np.
  - assert (map_get (sessionRefusalKey meshId sessionId) (map_delete (sessionRefusalKey meshId sessionId) m) = None) as ->.
    { destruct (map_get _ _) eqn:G; [|reflexivity]. apply map_get_In in G. destruct (map_delete_fresh (sessionRefusalKey meshId sessionId) m).
      apply in_map_iff. eexists. split; [|exact G]. reflexivity. }
    split; [discriminate | intros [-> _]; discriminate Np].
  - rewrite recorded_kept by (unfold SESSION_CLAIM_REFUSAL_MAX_ENTRIES; lia). cbn [sr_atMs].
    destruct (Z.leb_spec 0 (now - at_)), (Z.leb_spec (now - at_) SESSION_CLAIM_REFUSAL_FRESH_MS); cbn [andb];
      try (split; [discriminate | lia]).
    rewrite bool_decide_eq_true. cbn [sr_reason]. unfold SPAWN_GATE_RELEASING_CLAIM_REFUSALS. rewrite list_elem_of_singleton.
    split; [intros ->; split; [reflexivity | lia] | tauto].
Qed.
