(* ===== verification/QueueLife.v ===== *)
(** * The life of a queue row

    daemon-core/src/mesh/mesh-work-queue.ts: the writers of the queue beside the
    claim.  They put rows back (requeue, reclaim), hold them (parking, backoff),
    end them (cancel, retry caps, retention, orphans) and carry a failure to the
    tasks that depend on it.  With them the parking rules of
    mesh-task-parking.ts, the policy of mesh-dependency-failure.ts, the marks of
    mesh-task-inflight.ts, and the store's [updateQueueEntry] and the terminal
    choke point of mesh-task-terminal.ts on whole rows.

    A writer is one transaction: when a statement throws, the tables are as they
    were, but the marks of dispatches, which live in the process, are not put
    back.  The turn ledger's answer to a cancellation and the closing of a
    direct dispatch are arguments of the environment; so are dates and the
    policy of the mesh.  The hint to close a mission and log texts are left
    out. *)

From stdpp Require Import pretty.
From S2P Require Import Prelude DaemonId PathOwnership PhaseGraph TurnEvidence TurnTypes TurnStore StageTypes StagePipeline StageRows.
From S2P Require Import QueueTypes QueueOwnership QueueClaim QueueFacts QueueTheorems QueueOrder.

#[local] Open Scope Z_scope.

(** ** State and effects *)

(** What the coordinator is told about a task that stopped others. *)
Record DependencyNotice : Set := {
  dx_rootId : string; dx_cancels : bool; dx_cancelled : list string; dx_machineReason : option string }.

Record LifeStore : Type := {
  lf_queue : ClaimStore;
  lf_outputs : list TaskOutput;
  lf_hooks : list HookCall;
  lf_notices : list DependencyNotice;
  lf_inFlight : list string }.

(** The active ledger: its daemon, and what observing the cancellation of an
    attempt for a reason does; [true] when it was applied and ended the
    attempt. *)
Record LedgerPort : Type := {
  lp_selfDaemonId : string;
  lp_cancel : TurnAttempt -> string -> LifeStore -> bool * LifeStore }.

(** [le_closeSibling fenced taskId]: the open direct dispatch of a task is
    closed, when there is one; [fenced] while the row must not follow. *)
Record LifeEnv : Type := {
  le_iso : Z -> string;
  le_parseDate : string -> option Z;
  le_policy : option string;
  le_ledger : option LedgerPort;
  le_closeSibling : bool -> string -> LifeStore -> LifeStore }.

Definition Life (A : Type) : Type := LifeStore -> (string + A) * LifeStore.

#[global] Instance life_ret : MRet Life := fun A a s => (inr a, s).
#[global] Instance life_bind : MBind Life := fun A B k m s =>
  match m s with (inl e, s') => (inl e, s') | (inr a, s') => k a s' end.

Definition fails {A} (e : string) : Life A := fun s => (inl e, s).
Definition reads {A} (f : LifeStore -> A) : Life A := fun s => (inr (f s), s).
Definition modifies (f : LifeStore -> LifeStore) : Life unit := fun s => (inr tt, f s).

(** [withQueueLock]: the tables roll back, the marks do not. *)
Definition transaction {A} (m : Life A) : Life A := fun s =>
  match m s with
  | (inl e, s') => (inl e, {| s with lf_inFlight := s'.(lf_inFlight) |})
  | r => r
  end.

(** ** Dispatch marks *)

Definition inFlight_key (meshId taskId : string) : string := meshId +:+ "::" +:+ taskId.

Definition beginTaskDispatchInFlight (meshId taskId : string) (marks : list string) : bool * list string :=
  if negb (filled meshId) || negb (filled taskId) then (false, marks) else
  let k := inFlight_key meshId taskId in
  if bool_decide (k ∈ marks) then (false, marks) else (true, (marks ++ [k])%list).

Definition isTaskDispatchInFlight (meshId taskId : string) (marks : list string) : bool :=
  filled meshId && filled taskId && bool_decide (inFlight_key meshId taskId ∈ marks).

Definition endTaskDispatchInFlight (meshId taskId : string) (marks : list string) : list string :=
  if negb (filled meshId) || negb (filled taskId) then marks
  else List.filter (fun k => negb (bool_decide (k = inFlight_key meshId taskId))) marks.

(** ** Failure policy *)

Inductive MeshOnDependencyFailure : Set := policy_block | policy_cancel.
#[global] Instance MeshOnDependencyFailure_eq_dec : EqDecision MeshOnDependencyFailure.
Proof. solve_decision. Defined.

Definition resolveOnDependencyFailurePolicy (value : option string) : MeshOnDependencyFailure :=
  if bool_decide (value = Some "cancel") then policy_cancel else policy_block.

Record MeshDependencyFailure : Set := {
  df_taskId : string; df_status : MeshTaskStatus; df_reason : option string }.

(** [depMetaById]: the reason and status a view knows of a prerequisite. *)
Definition failure_of (statusById : jsmap MeshTaskStatus)
    (depMetaById : jsmap (option string * option MeshTaskStatus)) (taskId : string) : option MeshDependencyFailure :=
  let meta := map_get taskId depMetaById in
  let status := match map_get taskId statusById with Some st => Some st | None => meta ≫= snd end in
  match status with
  | Some (st_blocked | st_failed | st_cancelled) as st =>
      let reason := meta ≫= fst in
      Some {| df_taskId := taskId; df_status := nullish st st_failed;
              df_reason := if truthy_str reason then reason else None |}
  | _ => None
  end.

Definition deriveDependencyFailures (dependsOn : option (list string)) (statusById : jsmap MeshTaskStatus)
    (depMetaById : jsmap (option string * option MeshTaskStatus)) : list MeshDependencyFailure :=
  omap (failure_of statusById depMetaById) (nullish dependsOn []).

(** ** Parking *)

Definition PARKED_TASK_RETENTION_MS : Z := 24 * 60 * 60000.
Definition PARK_REASON_PIN_EXPIRED : string := "target_session_pin_expired_parked".
Definition PARKED_SKIP_REASON : string := "target_session_pin_parked".
Definition PARK_RETENTION_EXPIRED_REASON : string := "parked_task_retention_expired".

Definition read_text (v : option string) : string := js_trim (nullish v "").

Definition kept_text (v : option string) : option string := if filled (read_text v) then v else None.

Definition buildParkingRecord (task : ClaimEntry) (reason nowIso : string) : MeshTaskParking := {|
  tp_reason := reason; tp_parkedAt := nowIso;
  tp_targetSessionId := kept_text task.(ce_targetSessionId);
  tp_targetNodeId := kept_text task.(ce_targetNodeId) |}.

Definition parkedAgeMs (parseDate : string -> option Z) (task : ClaimEntry) (nowMs : Z) : option Z :=
  let parkedAt := read_text (tp_parkedAt <$> task.(ce_parked)) in
  if filled parkedAt then (fun parsed => nowMs - parsed) <$> parseDate parkedAt else None.

Definition parkedTaskRetentionExpired (parseDate : string -> option Z) (task : ClaimEntry) (nowMs retentionMs : Z) : bool :=
  taskIsParked task
  && match parkedAgeMs parseDate task nowMs with Some age => retentionMs <=? age | None => false end.

(** ** Dates *)

Inductive NotBefore : Set := At_number (ms : Z) | At_text (s : string).

Definition NOT_BEFORE_RELATIVE_THRESHOLD_MS : Z := 365 * 24 * 60 * 60 * 1000.

Definition resolveNotBefore (iso : Z -> string) (parseDate : string -> option Z) (value : option NotBefore) (nowMs : Z)
  : option string :=
  let absMs := match value with
    | None => None
    | Some (At_number v) => Some (if v <? NOT_BEFORE_RELATIVE_THRESHOLD_MS then nowMs + v else v)
    | Some (At_text s) => if filled (js_trim s) then parseDate (js_trim s) else None
    end in
  (fun ms => if ms <=? nowMs then iso nowMs else iso ms) <$> absMs.

Definition MAX_DISPATCH_FAILURES : Z := 5.
Definition DISPATCH_RETRY_BACKOFF_BASE_MS : Z := 3000.
Definition DISPATCH_RETRY_BACKOFF_MAX_MS : Z := 30000.

Definition dispatch_backoff (failures : Z) : Z :=
  Z.min (DISPATCH_RETRY_BACKOFF_BASE_MS * 2 ^ (failures - 1)) DISPATCH_RETRY_BACKOFF_MAX_MS.

(** ** Options *)

Record Owner : Set := { ow_handedOff : bool; ow_member : bool }.

Definition requireMeshHostQueueOwner (o : Owner) : Life unit :=
  if o.(ow_handedOff) then fails "mesh_host_handed_off"
  else if o.(ow_member) then fails "Mesh Host daemon required to mutate mesh queue"
  else mret tt.

Record RequeueOptions : Set := {
  ro_reason : option string;
  ro_targetNodeId : option string;
  ro_targetSessionId : option string;
  ro_clearTargetNode : bool;
  ro_clearTargetSession : option bool;
  ro_force : bool;
  ro_maxRetries : option Z;
  ro_notBefore : option NotBefore;
  ro_dispatchFailure : bool;
  ro_message : option string;
  ro_owner : Owner }.

(** A requeue's result: the row, and why the ledger refused it. *)
Record MeshRequeueOutcome : Set := {
  qo_entry : ClaimEntry; qo_refusal : option (QueueAttemptRetirementRefusal * TurnAttempt) }.

(** ** The store *)

Section Ops.
Context (env : LifeEnv) (meshId : string) (now : Z).

Definition find_entry_of (id : string) (s : LifeStore) : option ClaimEntry := find_claimant id s.(lf_queue).

Definition end_mark (taskId : string) : Life unit :=
  modifies (fun s => {| s with lf_inFlight := endTaskDispatchInFlight meshId taskId s.(lf_inFlight) |}).

(** The latest attempt of a task is stopping. *)
Definition is_stopping (turns : Db) (taskId : string) : bool :=
  match findLatestAttemptForTask (Some meshId) taskId turns with
  | Some a => bool_decide (a_state a = St_stopping)
  | None => false
  end.

Definition binding_moved (persisted entry : ClaimEntry) : bool :=
  negb (bool_decide (entry.(ce_status) = persisted.(ce_status))
        && bool_decide (entry.(ce_assignedSessionId) = persisted.(ce_assignedSessionId))
        && bool_decide (entry.(ce_assignedNodeId) = persisted.(ce_assignedNodeId))
        && bool_decide (entry.(ce_attemptId) = persisted.(ce_attemptId))
        && bool_decide (entry.(ce_dispatchNonce) = persisted.(ce_dispatchNonce))
        && bool_decide (entry.(ce_assignedProviderType) = persisted.(ce_assignedProviderType))).

Definition graph_changed (persisted : option ClaimEntry) (entry : ClaimEntry) : bool :=
  negb (bool_decide (persisted ≫= ce_phase = entry.(ce_phase)))
  || negb (bool_decide (nullish (persisted ≫= ce_dependsOn) [] = ce_deps entry)).

(** The rows in the order of their creation, with [entry] in its place. *)
Definition graph_with (entry : ClaimEntry) (q : ClaimStore) : list PhaseEntry :=
  map (fun e => phase_entry (if bool_decide (e.(ce_id) = entry.(ce_id)) then entry else e))
    (map rw_payload (order_by (by_id rw_createdAt) q.(cs_rows))).

Definition graph_refused (entries : list PhaseEntry) : bool :=
  match assertSourceDependencyGraph entries with Some None => false | _ => true end.

Definition write_row (e : ClaimEntry) (row : QueueRow) : QueueRow :=
  if bool_decide (row.(rw_id) = e.(ce_id)) then toRow row.(rw_createdAt) e else row.

Definition stamped (persisted : option ClaimEntry) (entry : ClaimEntry) : ClaimEntry :=
  {| entry with ce_revision := Some (nullish (persisted ≫= ce_revision) 0 + 1); ce_updatedAt := env.(le_iso) now |}.

(** [updateQueueEntry], with the entry as it leaves it. *)
Definition writeQueueEntry (entry : ClaimEntry) : Life ClaimEntry := fun s =>
  let q := s.(lf_queue) in
  let persisted := find_claimant entry.(ce_id) q in
  let moved := match persisted with Some p => binding_moved p entry | None => false end in
  if is_stopping q.(cs_turns) entry.(ce_id) && moved then fails WRITER_CHECKPOINT_PENDING s
  else if graph_changed persisted entry && graph_refused (graph_with entry q) then fails "source_dependency_graph" s
  else let entry := stamped persisted entry in
       (inr entry, {| s with lf_queue := {| q with cs_rows := map (write_row entry) q.(cs_rows) |} |}).

(** ** Terminals *)

(** What the stage predicates read of a row. *)
Definition stage_view (e : ClaimEntry) : MeshWorkQueueEntry := {|
  qe_id := e.(ce_id); qe_status := e.(ce_status); qe_message := e.(ce_message);
  qe_stagePlan := e.(ce_stagePlan); qe_stageState := e.(ce_stageState);
  qe_origin := e.(ce_origin); qe_parentTaskId := e.(ce_parentTaskId); qe_stageRole := e.(ce_stageRole);
  qe_stageRound := e.(ce_stageRound); qe_independence := None; qe_reviewerWorkspace := e.(ce_reviewerWorkspace); qe_light := e.(ce_light);
  qe_assignedNodeId := e.(ce_assignedNodeId); qe_assignedSessionId := e.(ce_assignedSessionId);
  qe_assignedProviderType := e.(ce_assignedProviderType);
  qe_targetNodeId := e.(ce_targetNodeId); qe_targetSessionId := e.(ce_targetSessionId); qe_attemptId := e.(ce_attemptId);
  qe_dispatchNonce := nullish e.(ce_dispatchNonce) 0; qe_cancelReason := e.(ce_cancelReason);
  qe_inputArtifactIds := nullish e.(ce_inputArtifactIds) []; qe_revision := nullish e.(ce_revision) 0 |}.

Definition next_output (taskId : string) (status : MeshTaskStatus) (outputs : list TaskOutput) : list TaskOutput :=
  qs_outputs (persistOutputVersion taskId status {| qs_rows := []; qs_outputs := outputs; qs_hooks := [] |}).

Definition hook (h : HookCall) : Life unit := modifies (fun s => {| s with lf_hooks := (s.(lf_hooks) ++ [h])%list |}).

Definition terminal_steps (entry : ClaimEntry) (status : MeshTaskStatus) : Life ClaimEntry :=
  modifies (fun s => {| s with lf_outputs := next_output entry.(ce_id) status s.(lf_outputs) |}) ;;
  e ← writeQueueEntry {| entry with ce_status := status |};
  end_mark entry.(ce_id) ;; mret e.

(** [commitTaskTerminal]: the row after it, [None] when there is none. *)
Definition commitRowTerminal (taskId : string) (status : MeshTaskStatus) (source : MeshTerminalCommitSource)
    (attemptId : option string) : Life (option ClaimEntry) := fun s =>
  match find_entry_of taskId s with
  | None => (inr None, s)
  | Some entry =>
      if is_stopping s.(lf_queue).(cs_turns) taskId then (inr (Some entry), s)
      else if bool_decide (entry.(ce_status) = status)
      then (hook (Hk_task_terminal taskId) ;; mret (Some entry)) s
      else if negb (bool_decide (source = src_queue_policy)) && isStageBlockLocked (stage_view entry) status
      then (inr (Some entry), s)
      else if shouldHoldStageTerminal (stage_view entry) status
      then ((if isStageImplReport (stage_view entry) then hook (Hk_impl_completed taskId attemptId) else mret tt) ;;
            mret (Some entry)) s
      else (e ← transaction (terminal_steps entry status); hook (Hk_task_terminal taskId) ;; mret (Some e)) s
  end.

Definition commitQueueTerminal (taskId : string) (status : MeshTaskStatus) (source : MeshTerminalCommitSource)
  : Life (option ClaimEntry) :=
  r ← commitRowTerminal taskId status source None;
  match r with Some e => mret (Some e) | None => reads (find_entry_of taskId) end.

(** ** Failed dependencies *)

Definition depends_on_id (currentId : string) (e : ClaimEntry) : bool := bool_decide (currentId ∈ ce_deps e).

Definition tellCoordinatorQueueDependency (rootId : string) (policy : MeshOnDependencyFailure) (cancelled : list ClaimEntry) (machineReason : option string)
  : Life unit :=
  modifies (fun s => {| s with lf_notices := (s.(lf_notices) ++
    [{| dx_rootId := rootId; dx_cancels := bool_decide (policy = policy_cancel);
        dx_cancelled := map ce_id cancelled; dx_machineReason := machineReason |}])%list |}).

Record Cascade : Type := { ca_frontier : list string; ca_seen : list string; ca_cancelled : list ClaimEntry }.

(** One pass of the inner loop. *)
Definition cancel_dependent (currentId : string) (dependent : ClaimEntry) (c : Cascade) : Life Cascade :=
  if bool_decide (dependent.(ce_id) ∈ c.(ca_seen)) then mret c else
  dependent ← writeQueueEntry {| dependent with ce_cancelledAt := Some (env.(le_iso) now);
                                                ce_cancelReason := Some ("dependency_failed:" +:+ currentId) |};
  committed ← commitQueueTerminal dependent.(ce_id) st_cancelled src_cancellation;
  mret {| ca_frontier := dependent.(ce_id) :: c.(ca_frontier);
          ca_seen := dependent.(ce_id) :: c.(ca_seen);
          ca_cancelled := (c.(ca_cancelled) ++ [nullish committed dependent])%list |}.

Fixpoint cancel_dependents (currentId : string) (dependents : list ClaimEntry) (c : Cascade) : Life Cascade :=
  match dependents with
  | [] => mret c
  | d :: rest => c ← cancel_dependent currentId d c; cancel_dependents currentId rest c
  end.

(** The outer loop; the frontier is a stack.  [None]: out of fuel. *)
Fixpoint cascade (fuel : nat) (c : Cascade) : Life (option (list ClaimEntry)) :=
  match c.(ca_frontier) with
  | [] => mret (Some c.(ca_cancelled))
  | currentId :: frontier =>
      match fuel with
      | O => mret None
      | S fuel =>
          dependents ← reads (fun s => List.filter (depends_on_id currentId) (entries_in [st_pending] s.(lf_queue)));
          c ← cancel_dependents currentId dependents {| c with ca_frontier := frontier |};
          cascade fuel c
      end
  end.

(** Every round takes a task off the frontier, and every row enters it once. *)
Definition cascade_fuel (s : LifeStore) : nat := S (length s.(lf_queue).(cs_rows)).

Definition propagateDependencyFailure (failedTaskId : string) (machineReason : option string) : Life (list ClaimEntry) :=
  match resolveOnDependencyFailurePolicy env.(le_policy) with
  | policy_block => tellCoordinatorQueueDependency failedTaskId policy_block [] machineReason ;; mret []
  | policy_cancel =>
      fuel ← reads cascade_fuel;
      r ← cascade fuel {| ca_frontier := [failedTaskId]; ca_seen := [failedTaskId]; ca_cancelled := [] |};
      match r with
      | None => fails "out of fuel"
      | Some cancelled => tellCoordinatorQueueDependency failedTaskId policy_cancel cancelled machineReason ;; mret cancelled
      end
  end.

Definition DEPENDENCY_FAILURE_TERMINALS : list MeshTaskStatus := [st_failed; st_cancelled].

(** Bookkeeping, the failure of the row, and its consequences. *)
Definition fail_with (entry : ClaimEntry) (machineReason : option string) : Life ClaimEntry :=
  entry ← writeQueueEntry entry;
  failed ← commitQueueTerminal entry.(ce_id) st_failed src_queue_policy;
  propagateDependencyFailure entry.(ce_id) machineReason ;;
  mret (nullish failed entry).

(** ** Status writes *)

Definition TERMINAL_STATUS_IS_LEDGER_EFFECT : string := "terminal_status_is_ledger_effect".

Definition status_text (st : MeshTaskStatus) : string :=
  match st with
  | st_pending => "pending" | st_assigned => "assigned" | st_completed => "completed"
  | st_failed => "failed" | st_blocked => "blocked" | st_cancelled => "cancelled"
  end.

(** Run [f] on the row of a task, when there is one. *)
Definition on_row (taskId : string) (f : ClaimEntry -> Life (option ClaimEntry)) : Life (option ClaimEntry) :=
  found ← reads (find_entry_of taskId); match found with None => mret None | Some entry => f entry end.

Definition writeTaskStatusUnchecked (taskId : string) (status : MeshTaskStatus) (force : bool) : Life (option ClaimEntry) :=
  transaction (on_row taskId (fun entry =>
    if negb force && is_terminal_status entry.(ce_status) && negb (is_terminal_status status) then mret (Some entry)
    else if is_terminal_status status then
      commit ← commitRowTerminal taskId status src_stall_reconcile None;
      (if bool_decide (status ∈ DEPENDENCY_FAILURE_TERMINALS)
       then propagateDependencyFailure taskId (Some ("task_status_terminal:" +:+ status_text status)) else mret []) ;;
      mret (Some (nullish commit entry))
    else
      e ← writeQueueEntry {| entry with ce_status := status |};
      (if bool_decide (status = st_assigned) then mret tt else end_mark taskId) ;;
      mret (Some e))).

Definition updateTaskStatus (taskId : string) (status : MeshTaskStatus) (force : bool) (owner : Owner) : Life (option ClaimEntry) :=
  requireMeshHostQueueOwner owner ;;
  if is_terminal_status status then fails TERMINAL_STATUS_IS_LEDGER_EFFECT else writeTaskStatusUnchecked taskId status force.

(** ** Cancelling *)

Definition cancelled_entry (reason : option string) (entry : ClaimEntry) : ClaimEntry :=
  {| entry with
    ce_cancelledAt := Some (env.(le_iso) now);
    ce_cancelReason := if truthy_str reason then reason else entry.(ce_cancelReason);
    ce_parked := None; ce_assignedNodeId := None; ce_assignedSessionId := None; ce_assignedProviderType := None;
    ce_assignedModel := None; ce_dispatchTimestamp := None;
    ce_dispatchNonce := Some (nullish entry.(ce_dispatchNonce) 0 + 1);
    ce_attemptId := None |}.

(** The ledger is told to cancel an attempt it owns. *)
Definition cancel_attempt (attempt : TurnAttempt) : Life unit :=
  match env.(le_ledger) with
  | Some p => if daemonIdsEquivalent (Some (a_ownerDaemonId attempt)) (Some p.(lp_selfDaemonId))
              then modifies (fun s => (p.(lp_cancel) attempt "operator_cancel" s).2) else mret tt
  | None => mret tt
  end.

(** [active && !active.terminal]. *)
Definition open_attempt (active : option TurnAttempt) : option TurnAttempt :=
  match active with Some a => if present (a_terminal a) then None else Some a | None => None end.

(** The transaction of [cancelTask].  While a writer owns the task it is an
    intent to stop. *)
Definition cancelQueueRow (taskId : string) (reason : option string) : Life (option ClaimEntry) :=
  transaction (on_row taskId (fun entry =>
    active ← reads (fun s => findLatestAttemptForTask (Some meshId) taskId s.(lf_queue).(cs_turns));
    match open_attempt active with
    | Some attempt => cancel_attempt attempt ;; reads (find_entry_of taskId)
    | None =>
        entry ← writeQueueEntry (cancelled_entry reason entry);
        modifies (env.(le_closeSibling) false taskId) ;;
        commit ← commitRowTerminal taskId st_cancelled src_cancellation None;
        propagateDependencyFailure taskId None ;;
        mret (Some (nullish commit entry))
    end)).

(** ** Requeue *)

Definition applyRequeueMessageEdit (message : option string) (current : string) : string :=
  match message with
  | None => current
  | Some m => let next := js_trim m in if filled next then next else current
  end.

(** [retireOpenQueueAttemptForRequeue]: the ledger is asked only when the
    attempt is one to retire. *)
Definition retire_attempt (taskId : string) (force : bool) : Life QueueAttemptRetirement := fun s =>
  let decide (applied : bool) := retireOpenQueueAttemptForRequeue meshId taskId force
    ((fun p => (p.(lp_selfDaemonId), applied)) <$> env.(le_ledger)) s.(lf_queue).(cs_turns) in
  match decide true, env.(le_ledger) with
  | Ret_closed open, Some p => let '(applied, s') := p.(lp_cancel) open "superseded" s in (inr (decide applied), s')
  | r, _ => (inr r, s)
  end.

(** The row as both kinds of requeue put it back. *)
Definition put_back (o : RequeueOptions) (entry : ClaimEntry) : ClaimEntry :=
  {| entry with
    ce_status := st_pending; ce_assignedNodeId := None; ce_assignedSessionId := None;
    ce_cancelledAt := None; ce_cancelReason := None;
    ce_targetNodeId := match o.(ro_targetNodeId) with
      | Some n => Some n
      | None => if o.(ro_clearTargetNode) then None else entry.(ce_targetNodeId)
      end;
    ce_targetSessionId := match o.(ro_targetSessionId) with
      | Some t => Some t
      | None => if bool_decide (o.(ro_clearTargetSession) = Some false) then entry.(ce_targetSessionId) else None
      end;
    ce_requeuedAt := Some (env.(le_iso) now);
    ce_requeueReason := if truthy_str o.(ro_reason) then o.(ro_reason) else entry.(ce_requeueReason);
    ce_message := applyRequeueMessageEdit o.(ro_message) entry.(ce_message);
    ce_parked := None; ce_autoLaunchUnclaimedCount := None; ce_autoLaunchDispatchFailedCount := None |}.

Definition not_before (v : option NotBefore) : option string := resolveNotBefore env.(le_iso) env.(le_parseDate) v now.

(** A dispatch that never reached its worker has a budget of its own. *)
Definition requeue_dispatch (o : RequeueOptions) (entry : ClaimEntry) : Life ClaimEntry :=
  let failures := nullish entry.(ce_dispatchFailureCount) 0 + 1 in
  if MAX_DISPATCH_FAILURES <? failures then
    fail_with {| entry with
      ce_cancelReason := Some ("dispatch_never_started: " +:+ pretty (failures - 1) +:+
        " consecutive dispatch failure(s) before the worker started the task, limit is " +:+ pretty MAX_DISPATCH_FAILURES);
      ce_dispatchFailureCount := Some failures |} None
  else let back := put_back o entry in writeQueueEntry {| back with
      ce_dispatchFailureCount := Some failures;
      ce_notBefore := not_before (Some (At_number (dispatch_backoff failures))) |}.

Definition retry_limit (o : RequeueOptions) (entry : ClaimEntry) : Z :=
  match o.(ro_maxRetries) with Some m => m | None => nullish entry.(ce_maxRetries) 1 end.

Definition requeue_retry (o : RequeueOptions) (entry : ClaimEntry) : Life ClaimEntry :=
  let currentCount := nullish entry.(ce_requeueCount) 0 in
  let maxRetries := retry_limit o entry in
  if negb o.(ro_force) && (maxRetries <=? currentCount) then
    fail_with {| entry with
      ce_cancelReason := Some ("max_retries_exceeded: requeued " +:+ pretty currentCount +:+ " time(s), limit is " +:+ pretty maxRetries) |} None
  else let back := put_back o entry in writeQueueEntry {| back with
      ce_requeueCount := Some (currentCount + 1);
      ce_notBefore := not_before o.(ro_notBefore) |}.

Definition abandoned (retirement : QueueAttemptRetirement) (entry : ClaimEntry) : ClaimEntry :=
  {| entry with
    ce_attemptId := None;
    ce_dispatchNonce := match retirement with
      | Ret_closed _ => Some (nullish entry.(ce_dispatchNonce) 0 + 1)
      | _ => entry.(ce_dispatchNonce)
      end |}.

Definition requeue_row (taskId : string) (o : RequeueOptions) (entry : ClaimEntry) : Life MeshRequeueOutcome :=
  marks ← reads lf_inFlight;
  if negb o.(ro_force) && isTaskDispatchInFlight meshId taskId marks
  then mret {| qo_entry := entry; qo_refusal := None |} else
  retirement ← retire_attempt taskId o.(ro_force);
  match retirement with
  | Ret_refused attempt reason => mret {| qo_entry := entry; qo_refusal := Some (reason, attempt) |}
  | _ =>
      end_mark taskId ;;
      modifies (env.(le_closeSibling) true taskId) ;;
      e ← (if o.(ro_dispatchFailure) && negb o.(ro_force) then requeue_dispatch o (abandoned retirement entry)
           else requeue_retry o (abandoned retirement entry));
      mret {| qo_entry := e; qo_refusal := None |}
  end.

Definition requeueTaskWithOutcome (taskId : string) (o : RequeueOptions) : Life (option MeshRequeueOutcome) :=
  requireMeshHostQueueOwner o.(ro_owner) ;;
  transaction (
    found ← reads (find_entry_of taskId);
    match found with None => mret None | Some entry => r ← requeue_row taskId o entry; mret (Some r) end).

Definition requeueTask (taskId : string) (o : RequeueOptions) : Life (option ClaimEntry) :=
  r ← requeueTaskWithOutcome taskId o; mret (qo_entry <$> r).

(** ** Parking a row, and sweeping it *)

Definition parkTaskTargetPin (taskId : string) (reason : option string) (allowUntargeted : bool) (owner : Owner)
  : Life (option ClaimEntry) :=
  requireMeshHostQueueOwner owner ;;
  transaction (on_row taskId (fun entry =>
    if negb (bool_decide (entry.(ce_status) = st_pending)) then mret None
    else if negb allowUntargeted && negb (truthy_str entry.(ce_targetSessionId)) && negb (truthy_str entry.(ce_targetNodeId))
    then mret None
    else if taskIsParked entry then mret None
    else
      let reason := if truthy_str reason then nullish reason "" else PARK_REASON_PIN_EXPIRED in
      e ← writeQueueEntry {| entry with ce_parked := Some (buildParkingRecord entry reason (env.(le_iso) now));
                                        ce_requeueReason := Some reason |};
      mret (Some e))).

(** [Math.round] of hours. *)
Definition round_hours (ms : Z) : Z := (2 * ms + 3600000) / 7200000.

Definition failRetentionExpiredParkedTask (taskId : string) (retentionMs : option Z) (owner : Owner) : Life (option ClaimEntry) :=
  requireMeshHostQueueOwner owner ;;
  let retention := nullish retentionMs PARKED_TASK_RETENTION_MS in
  transaction (on_row taskId (fun entry =>
    if negb (bool_decide (entry.(ce_status) = st_pending)) || negb (taskIsParked entry) then mret None
    else if negb (parkedTaskRetentionExpired env.(le_parseDate) entry now retention) then mret None
    else
      let addressee := entry.(ce_parked) ≫= tp_targetSessionId in
      e ← fail_with {| entry with ce_cancelReason := Some (PARK_RETENTION_EXPIRED_REASON +:+ ": parked for over "
            +:+ pretty (round_hours retention) +:+ "h (addressed to session "
            +:+ (if truthy_str addressee then nullish addressee "" else "unknown")
            +:+ ") with no coordinator decision") |} None;
      mret (Some e))).

(** [None]: the pin has not expired; otherwise the skip is recorded whether or
    not this tick parked the row. *)
Definition parkExpiredTargetPin (taskId : string) (expired : bool) (owner : Owner) : Life bool :=
  if expired then parkTaskTargetPin taskId (Some PARK_REASON_PIN_EXPIRED) false owner ;; mret true else mret false.

(** What the scan does with a parked row: [inl] the row was failed, [inr] the
    skip it records. *)
Definition settleParkedQueueTask (SPAWN_CAP DISPATCH_CAP : string) (task : ClaimEntry) (owner : Owner) : Life (unit + string) :=
  swept ← failRetentionExpiredParkedTask task.(ce_id) None owner;
  match swept with
  | Some _ => mret (inl tt)
  | None =>
      let reason := nullish (tp_reason <$> task.(ce_parked)) "" in
      mret (inr (if bool_decide (reason = SPAWN_CAP) then SPAWN_CAP
                 else if bool_decide (reason = DISPATCH_CAP) then DISPATCH_CAP else PARKED_SKIP_REASON))
  end.

Definition getParkedTasks (s : LifeStore) : list ClaimEntry := List.filter taskIsParked (entries_in [st_pending] s.(lf_queue)).

Definition hasPendingDependents (taskId : string) (s : LifeStore) : bool :=
  existsb (depends_on_id taskId) (entries_in [st_pending] s.(lf_queue)).

(** ** Orphans *)

(** An assigned row without an open attempt. *)
Definition is_orphan (entry : ClaimEntry) (orphanedAttemptId : option string) (turns : Db) : bool :=
  bool_decide (entry.(ce_status) = st_assigned)
  && (let attemptId := js_trim (nullish entry.(ce_attemptId) "") in
      if filled attemptId
      then bool_decide (Some attemptId = orphanedAttemptId)
           && match getAttempt attemptId turns with Some a => present (a_terminal a) | None => true end
      else negb (truthy_str orphanedAttemptId)).

Definition failOrphanedUncorrelatedDispatch (taskId reason : string) (orphanedAttemptId : option string) (owner : Owner)
  : Life (option ClaimEntry) :=
  requireMeshHostQueueOwner owner ;;
  transaction (on_row taskId (fun entry =>
    turns ← reads (fun s => s.(lf_queue).(cs_turns));
    if negb (is_orphan entry orphanedAttemptId turns) then mret None
    else e ← fail_with {| entry with ce_cancelReason := Some reason |} (Some reason); mret (Some e))).

(** ** Effects of the ledger *)

Definition reclaimed_entry (reason nowIso : string) (entry : ClaimEntry) : ClaimEntry :=
  {| entry with
    ce_assignedNodeId := None; ce_assignedSessionId := None; ce_assignedProviderType := None; ce_assignedModel := None;
    ce_dispatchTimestamp := None; ce_autoLaunch := None; ce_attemptId := None;
    ce_dispatchNonce := Some (nullish entry.(ce_dispatchNonce) 0 + 1);
    ce_status := st_pending; ce_requeuedAt := Some nowIso; ce_requeueReason := Some reason |}.

Definition requeueTaskForLedgerReclaim (taskId reason nowIso : string) : Life (option ClaimEntry) :=
  transaction (on_row taskId (fun entry =>
    if is_terminal_status entry.(ce_status) || isStagePipelineParked (stage_view entry) then mret (Some entry)
    else
      e ← writeQueueEntry (reclaimed_entry reason nowIso entry);
      end_mark taskId ;;
      modifies (env.(le_closeSibling) false taskId) ;;
      mret (Some e))).

Definition applyDispatchFailureBackoff (taskId : string) : Life (option ClaimEntry) :=
  transaction (on_row taskId (fun entry =>
    if negb (bool_decide (entry.(ce_status) = st_pending)) then mret (Some entry)
    else
      let failures := nullish entry.(ce_dispatchFailureCount) 0 + 1 in
      e ← writeQueueEntry {| entry with
        ce_dispatchFailureCount := Some failures;
        ce_notBefore := not_before (Some (At_number (dispatch_backoff failures))) |};
      mret (Some e))).

(** [meshRuntimeTxnHost.requeue]. *)
Definition host_requeue (taskId reason nowIso : string) : Life unit :=
  requeueTaskForLedgerReclaim taskId reason nowIso ;;
  (if bool_decide (reason = "dispatch_failed") then applyDispatchFailureBackoff taskId ;; mret tt else mret tt).

(** [applyTaskTerminalInTxn]: whether the row moved. *)
Definition applyRowTerminalInTxn (fenced : bool) (taskId : string) (status : MeshTaskStatus) (attemptId : option string)
  : Life bool := fun s =>
  match find_entry_of taskId s with
  | None => (inr false, s)
  | Some entry =>
      if bool_decide (entry.(ce_status) = status) || isStageBlockLocked (stage_view entry) status then (inr false, s)
      else if shouldHoldStageTerminal (stage_view entry) status
      then ((if isStageImplReport (stage_view entry) then hook (Hk_impl_completed taskId attemptId) else mret tt) ;; mret false) s
      else if fenced then (inr false, s)
      else (transaction (terminal_steps entry status) ;; mret true) s
  end.

Definition propagateLedgerDependencyFailure (taskId : string) (status : MeshTaskStatus) (reason : option string)
  : Life (list ClaimEntry) :=
  if bool_decide (status ∈ DEPENDENCY_FAILURE_TERMINALS) then transaction (propagateDependencyFailure taskId reason) else mret [].

(** [meshRuntimeTxnHost.taskTerminal]. *)
Definition host_taskTerminal (fenced : bool) (taskId : string) (status : MeshTaskStatus) (attemptId reason : option string)
  : Life bool :=
  transitioned ← applyRowTerminalInTxn fenced taskId status attemptId;
  (if transitioned : bool then propagateLedgerDependencyFailure taskId status reason else mret []) ;;
  mret transitioned.

End Ops.
