(* ===== verification/QueueLifecycle.v ===== *)
(** * What the writers of the queue keep

    A logic of the computations of [QueueLife]: triples in which every step,
    errors included, releases claims but gives none, and revives no ended row
    unless it may.  Every writer of the queue is proved in it; with the claim
    they keep sessions and nodes exclusive.  Then the cascade of a failed
    dependency, the budgets of requeues, and what the sweep of parked rows
    leaves behind. *)

From stdpp Require Import relations pretty.
From S2P Require Import Prelude DaemonId PathOwnership PathTheorems PhaseGraph TurnEvidence TurnTypes TurnStore StoreFacts StopTheorems StageTypes StagePipeline StageRows.
From S2P Require Import QueueTypes QueueOwnership QueueClaim QueueFacts QueueTheorems QueueRules QueueOrder QueueScenario QueueLife.

#[local] Open Scope Z_scope.

(** ** Claims that are released, not given *)

(** Every active claim of [s'] was the same row's in [s]. *)
Record no_new_claims (meshId : string) (s s' : ClaimStore) : Prop := {
  nc_session : forall r' x, In r' s'.(cs_rows) -> active_claim meshId s' r' = true -> r'.(rw_assignedSessionId) = Some x ->
    exists r, In r s.(cs_rows) /\ active_claim meshId s r = true /\ r.(rw_id) = r'.(rw_id) /\ r.(rw_assignedSessionId) = Some x;
  nc_node : forall r' n, In r' s'.(cs_rows) -> active_claim meshId s' r' = true -> r'.(rw_assignedNodeId) = Some n ->
    is_writer r'.(rw_payload) = true ->
    exists r, In r s.(cs_rows) /\ active_claim meshId s r = true /\ r.(rw_id) = r'.(rw_id) /\ r.(rw_assignedNodeId) = Some n
      /\ is_writer r.(rw_payload) = true }.

#[global] Instance no_new_claims_preorder meshId : PreOrder (no_new_claims meshId).
Proof.
  split; [intros s; split; eauto 10|]. intros s1 s2 s3 [S1 N1] [S2 N2]. split.
  - intros r' x I A E. destruct (S2 _ _ I A E) as (r & Ir & Ar & Ei & Er). destruct (S1 _ _ Ir Ar Er) as (r0 & ? & ? & ? & ?).
    exists r0. repeat split; auto; congruence.
  - intros r' n I A E W. destruct (N2 _ _ I A E W) as (r & Ir & Ar & Ei & Er & Wr).
    destruct (N1 _ _ Ir Ar Er Wr) as (r0 & ? & ? & ? & ? & ?). exists r0. repeat split; auto; congruence.
Qed.

Lemma exclusive_kept meshId s s' : no_new_claims meshId s s' -> exclusive meshId s -> exclusive meshId s'.
Proof.
  intros [S N] [XS XN]. split.
  - intros r1 r2 x I1 I2 A1 A2 E1 E2. destruct (S _ _ I1 A1 E1) as (q1 & J1 & B1 & F1 & G1).
    destruct (S _ _ I2 A2 E2) as (q2 & J2 & B2 & F2 & G2). pose proof (XS _ _ _ J1 J2 B1 B2 G1 G2). congruence.
  - intros r1 r2 n I1 I2 A1 A2 W1 W2 E1 E2. destruct (N _ _ I1 A1 E1 W1) as (q1 & J1 & B1 & F1 & G1 & V1).
    destruct (N _ _ I2 A2 E2 W2) as (q2 & J2 & B2 & F2 & G2 & V2). pose proof (XN _ _ _ J1 J2 B1 B2 V1 V2 G1 G2). congruence.
Qed.

Definition ended (row : QueueRow) : bool := is_terminal_status row.(rw_status).

(** What a writer may do to the tables; [sticky]: ended rows stay ended. *)
Record released (meshId : string) (sticky : bool) (s s' : ClaimStore) : Prop := {
  rl_ids : map rw_id s'.(cs_rows) = map rw_id s.(cs_rows);
  rl_synced : (forall row, In row s.(cs_rows) -> synced row) -> forall row, In row s'.(cs_rows) -> synced row;
  rl_claims : no_new_claims meshId s s';
  rl_deps : forall id, ce_dependsOn <$> find_claimant id s' = ce_dependsOn <$> find_claimant id s;
  rl_ended : sticky = true -> forall r, In r s.(cs_rows) -> ended r = true ->
    exists r', In r' s'.(cs_rows) /\ r'.(rw_id) = r.(rw_id) /\ ended r' = true }.

#[global] Instance released_preorder meshId sticky : PreOrder (released meshId sticky).
Proof.
  split; [intros s; split; [reflexivity | auto | reflexivity | reflexivity | eauto]|].
  intros s1 s2 s3 [I1 Y1 C1 D1 E1] [I2 Y2 C2 D2 E2]. split; [congruence | auto | etransitivity; eauto | congruence |].
  intros St r Ir Er. destruct (E1 St r Ir Er) as (r2 & J & F & G). destruct (E2 St r2 J G) as (r3 & ? & ? & ?).
  exists r3. repeat split; auto; congruence.
Qed.

Lemma released_ok meshId sticky s s' : released meshId sticky s s' -> store_ok s -> store_ok s'.
Proof. intros [Ids Y _ _ _] [N S]. split; [rewrite Ids; exact N | auto]. Qed.

Lemma released_weaken meshId sticky s s' : released meshId true s s' -> released meshId sticky s s'.
Proof. intros []. split; auto. Qed.

(** ** Rows by id *)

Definition at_row (id : string) (e : ClaimEntry) (s : ClaimStore) : Prop := find_claimant id s = Some e.

Lemma at_row_In s id e : store_ok s ->
  at_row id e s <-> exists row, In row s.(cs_rows) /\ row.(rw_id) = id /\ row.(rw_payload) = e.
Proof.
  intros [N _]. unfold at_row, find_claimant. revert N. generalize (cs_rows s) as rows. intros rows.
  induction rows as [|r rows IH]; cbn; [intros _; split; [discriminate | intros (? & [] & _)]|].
  intros [N D]%NoDup_cons. case_bool_decide as E.
  - split; [intros [= <-]; eauto|]. intros (row & [->|I] & F & G); [rewrite <- G; reflexivity|].
    exfalso. apply N, list_elem_of_In, in_map_iff. exists row. split; [congruence | exact I].
  - rewrite IH by exact D. split; intros (row & I & F & G); exists row; [auto|]. destruct I as [->|I]; [congruence | auto].
Qed.

Lemma at_row_id s id e : store_ok s -> at_row id e s -> e.(ce_id) = id.
Proof.
  intros Ok A. destruct (proj1 (at_row_In _ _ _ Ok) A) as (row & I & <- & <-). exact (synced_id _ (so_synced _ Ok _ I)).
Qed.

(** The store with a row written. *)
Definition put_row (e : ClaimEntry) (q : ClaimStore) : ClaimStore := {| q with cs_rows := map (write_row e) q.(cs_rows) |}.

Lemma write_row_id e r : (write_row e r).(rw_id) = r.(rw_id).
Proof. unfold write_row. case_bool_decide as E; [|reflexivity]. cbn. symmetry. exact E. Qed.

Lemma find_put_row e q id :
  find_claimant id (put_row e q) = if bool_decide (id = e.(ce_id)) then (fun _ => e) <$> find_claimant id q else find_claimant id q.
Proof.
  unfold find_claimant, put_row. cbn. induction (cs_rows q) as [|r rows IH]; cbn; [case_bool_decide; reflexivity|].
  rewrite write_row_id. destruct (bool_decide (rw_id r = id)) eqn:F; [|exact IH]. apply bool_decide_eq_true in F as <-. cbn.
  unfold write_row. case_bool_decide; reflexivity.
Qed.

Lemma put_row_ok e q : store_ok q -> store_ok (put_row e q).
Proof.
  intros [N S]. split.
  - unfold put_row. cbn. rewrite map_map. erewrite map_ext; [exact N | intros; apply write_row_id].
  - intros row. unfold put_row. cbn. rewrite in_map_iff. intros (r & <- & I). unfold write_row.
    case_bool_decide; [reflexivity | auto].
Qed.

(** A write that releases: it keeps the id, the prerequisites and the kind of
    the task, gives no claim and moves no binding except to nothing. *)
Record tame (sticky : bool) (p e : ClaimEntry) : Prop := {
  tm_id : e.(ce_id) = p.(ce_id);
  tm_claim : e.(ce_status) = st_assigned -> p.(ce_status) = st_assigned;
  tm_session : e.(ce_assignedSessionId) = None \/ e.(ce_assignedSessionId) = p.(ce_assignedSessionId);
  tm_node : e.(ce_assignedNodeId) = None \/ e.(ce_assignedNodeId) = p.(ce_assignedNodeId);
  tm_writer : is_writer e = is_writer p;
  tm_deps : e.(ce_dependsOn) = p.(ce_dependsOn);
  tm_ended : sticky = true -> is_terminal_status p.(ce_status) = true -> is_terminal_status e.(ce_status) = true }.

Lemma put_released meshId sticky e q : store_ok q ->
  (forall p, at_row e.(ce_id) p q -> tame sticky p e) -> released meshId sticky q (put_row e q).
Proof.
  intros Ok T.
  assert (Row : forall r, In r q.(cs_rows) -> r.(rw_id) = e.(ce_id) -> tame sticky r.(rw_payload) e /\ synced r).
  { intros r I E. split; [apply T, at_row_In; eauto | apply Ok, I]. }
  split.
  - unfold put_row. cbn. rewrite map_map. apply map_ext, write_row_id.
  - intros _. apply put_row_ok, Ok.
  - assert (Act : forall r, In r q.(cs_rows) -> r.(rw_id) = e.(ce_id) -> active_claim meshId (put_row e q) (toRow r.(rw_createdAt) e) = true ->
      active_claim meshId q r = true).
    { intros r I E. destruct (Row r I E) as [[_ C _ _ _ _ _] S]. unfold active_claim. cbn.
      rewrite !orb_true_iff, !bool_decide_eq_true, E, <- (synced_status _ S). tauto. }
    split; intros r' x; unfold put_row at 1; cbn; rewrite in_map_iff; intros (r & <- & I); unfold write_row; case_bool_decide as E.
    + intros A F. destruct (Row r I E) as [[_ _ [G|G] _ _ _ _] S]; cbn in F; [congruence|]. exists r. repeat split; auto.
      rewrite S. cbn. congruence.
    + intros A F. exists r. auto.
    + intros A F W. destruct (Row r I E) as [[_ _ _ [G|G] V _ _] S]; cbn in F, W; [congruence|]. exists r. repeat split; auto.
      * rewrite S. cbn. congruence.
      * congruence.
    + intros A F W. exists r. auto.
  - intros id. rewrite find_put_row. case_bool_decide as E; [|reflexivity].
    destruct (find_claimant id q) as [p|] eqn:A; [|reflexivity]. cbn. f_equal. apply T. rewrite <- E. exact A.
  - intros St r I En. exists (write_row e r). split; [apply in_map, I|]. split; [apply write_row_id|].
    unfold write_row. case_bool_decide as E; [|exact En]. destruct (Row r I E) as [[_ _ _ _ _ _ T'] S]. unfold ended in *. cbn.
    apply T'; [exact St|]. rewrite (synced_status _ S). exact En.
Qed.

(** ** Writes *)

Section Writes.
Context (env : LifeEnv) (meshId : string) (now : Z).

Definition with_queue (q : ClaimStore) (s : LifeStore) : LifeStore := {| s with lf_queue := q |}.

(** A write refuses, leaving everything as it was, or writes the stamped row. *)
Lemma write_cases e s :
  (exists err, writeQueueEntry env meshId now e s = (inl err, s))
  \/ writeQueueEntry env meshId now e s
     = (inr (stamped env now (find_claimant e.(ce_id) s.(lf_queue)) e),
        with_queue (put_row (stamped env now (find_claimant e.(ce_id) s.(lf_queue)) e) s.(lf_queue)) s).
Proof. unfold writeQueueEntry, fails. destruct (_ && _); [left; eauto|]. destruct (_ && _); [left; eauto|]. right. reflexivity. Qed.

(** An edit that keeps the prerequisites and the binding is written. *)
Lemma write_edit p e s : at_row e.(ce_id) p s.(lf_queue) ->
  e.(ce_phase) = p.(ce_phase) -> e.(ce_dependsOn) = p.(ce_dependsOn) ->
  is_stopping meshId s.(lf_queue).(cs_turns) e.(ce_id) = false \/ binding_moved p e = false ->
  writeQueueEntry env meshId now e s
  = (inr (stamped env now (Some p) e), with_queue (put_row (stamped env now (Some p) e) s.(lf_queue)) s).
Proof.
  unfold at_row. intros A Ep Ed B. unfold writeQueueEntry. cbv zeta. rewrite !A.
  assert (is_stopping meshId s.(lf_queue).(cs_turns) e.(ce_id) && binding_moved p e = false) as -> by (destruct B as [->| ->]; [|rewrite andb_false_r]; reflexivity).
  assert (graph_changed (Some p) e = false) as ->; [|reflexivity].
  unfold graph_changed, ce_deps. cbn. rewrite Ep, Ed, !bool_decide_eq_true_2 by reflexivity. reflexivity.
Qed.

Lemma put_row_twice e1 e2 q : e1.(ce_id) = e2.(ce_id) -> put_row e2 (put_row e1 q) = put_row e2 q.
Proof.
  intros E. unfold put_row. cbn. f_equal. rewrite map_map. apply map_ext. intros r. unfold write_row. rewrite E.
  destruct (bool_decide (rw_id r = ce_id e2)) eqn:F; cbn; rewrite ?F; [|reflexivity].
  rewrite bool_decide_eq_true_2 by exact E. reflexivity.
Qed.

(** ** One dependent *)

(** A dependent after the cascade reached it: cancelled for the failure of
    [cur], or still pending when its writer is being stopped. *)
Definition struck (stop : bool) (cur : string) (p e : ClaimEntry) : Prop :=
  exists rev, e = {| p with
    ce_status := if stop then st_pending else st_cancelled;
    ce_cancelledAt := Some (env.(le_iso) now); ce_cancelReason := Some ("dependency_failed:" +:+ cur);
    ce_revision := Some rev; ce_updatedAt := env.(le_iso) now |}.

Notation stops q id := (is_stopping meshId q.(cs_turns) id).

Lemma commit_pending taskId e s : at_row taskId e s.(lf_queue) -> e.(ce_id) = taskId -> e.(ce_status) = st_pending ->
  exists e' s', commitQueueTerminal env meshId now taskId st_cancelled src_cancellation s = (inr (Some e'), s')
    /\ if stops s.(lf_queue) taskId then e' = e /\ s'.(lf_queue) = s.(lf_queue)
       else s'.(lf_queue) = put_row e' s.(lf_queue)
         /\ exists rev, e' = {| e with ce_status := st_cancelled; ce_revision := Some rev; ce_updatedAt := env.(le_iso) now |}.
Proof.
  intros A Ei Es. unfold commitQueueTerminal, commitRowTerminal, find_entry_of, mbind, life_bind. rewrite A.
  destruct (is_stopping _ _ _) eqn:St; [eexists _, _; split; [reflexivity | auto]|].
  rewrite bool_decide_eq_false_2 by congruence. rewrite andb_false_r.
  change (shouldHoldStageTerminal (stage_view e) st_cancelled) with false. cbv iota.
  unfold transaction, terminal_steps, mbind, life_bind, modifies. cbv beta iota zeta.
  erewrite (write_edit e); [ | cbn; rewrite Ei; exact A | reflexivity | reflexivity | left; cbn; rewrite Ei; exact St].
  eexists _, _. split; [reflexivity|]. split; [reflexivity|]. eexists. reflexivity.
Qed.

Lemma find_put_same e p q : at_row e.(ce_id) p q -> at_row e.(ce_id) e (put_row e q).
Proof. unfold at_row. intros A. rewrite find_put_row, bool_decide_eq_true_2, A by reflexivity. reflexivity. Qed.

Lemma find_put_other e q id : id <> e.(ce_id) -> find_claimant id (put_row e q) = find_claimant id q.
Proof. intros N. rewrite find_put_row, bool_decide_eq_false_2 by exact N. reflexivity. Qed.

Lemma cancel_dependent_run cur d c s :
  at_row d.(ce_id) d s.(lf_queue) -> d.(ce_status) = st_pending -> d.(ce_id) ∉ c.(ca_seen) ->
  exists e s', cancel_dependent env meshId now cur d c s
      = (inr {| ca_frontier := d.(ce_id) :: c.(ca_frontier); ca_seen := d.(ce_id) :: c.(ca_seen);
                ca_cancelled := (c.(ca_cancelled) ++ [e])%list |}, s')
    /\ s'.(lf_queue) = put_row e s.(lf_queue) /\ struck (stops s.(lf_queue) d.(ce_id)) cur d e.
Proof.
  intros A Ep N. unfold cancel_dependent. rewrite bool_decide_eq_false_2 by exact N. unfold mbind, life_bind.
  erewrite (write_edit d); [ | exact A | reflexivity | reflexivity | right; unfold binding_moved; cbn; rewrite !bool_decide_eq_true_2 by reflexivity; reflexivity].
  match goal with |- context [stamped ?a ?b ?c ?d] => set (e1 := stamped a b c d) end.
  destruct (commit_pending d.(ce_id) e1 (with_queue (put_row e1 s.(lf_queue)) s)) as (e & s' & E & R);
    [exact (find_put_same e1 d _ A) | reflexivity | exact Ep |].
  change (ce_id e1) with (ce_id d). cbn in E, R. rewrite E. cbn [nullish]. destruct (is_stopping _ _ _).
  - destruct R as [-> Q]. exists e1, s'. split; [reflexivity|]. split; [exact Q|]. eexists. unfold e1, stamped. rewrite <- Ep. reflexivity.
  - destruct R as [Q (rev & ->)]. eexists _, s'. split; [reflexivity|]. split; [rewrite Q; apply put_row_twice; reflexivity|].
    exists rev. reflexivity.
Qed.
End Writes.

(** ** The cascade *)

Lemma struck_tame env now stop cur p e : p.(ce_status) = st_pending -> struck env now stop cur p e -> tame true p e.
Proof.
  intros Ep (rev & ->). split; cbn; auto; [destruct stop; discriminate|]. rewrite Ep. discriminate.
Qed.

(** The rows not seen yet. *)
Definition unseen (seen : list string) (q : ClaimStore) : list string :=
  List.filter (fun id => negb (bool_decide (id ∈ seen))) (map rw_id q.(cs_rows)).

Lemma unseen_cons seen q id : NoDup (map rw_id q.(cs_rows)) -> In id (map rw_id q.(cs_rows)) -> id ∉ seen ->
  length (unseen seen q) = S (length (unseen (id :: seen) q)).
Proof.
  unfold unseen. generalize (map rw_id (cs_rows q)) as ids. intros ids. induction ids as [|x ids IH]; [intros _ []|].
  intros [N D]%NoDup_cons I Ns. cbn. destruct (decide (x = id)) as [->|Nx].
  - rewrite (bool_decide_eq_false_2 (id ∈ seen)) by exact Ns. rewrite (bool_decide_eq_true_2 (id ∈ id :: seen)) by left. cbn. f_equal. f_equal.
    clear IH. revert N. clear D I. induction ids as [|y ids IH]; [reflexivity|]. intros N. cbn.
    assert (y <> id) by (intros ->; apply N; left). rewrite (bool_decide_ext (y ∈ id :: seen) (y ∈ seen)) by (rewrite elem_of_cons; tauto).
    rewrite IH; [reflexivity|]. intros E. apply N. right. exact E.
  - destruct I as [I|I]; [congruence|]. rewrite (bool_decide_ext (x ∈ id :: seen) (x ∈ seen)) by (rewrite elem_of_cons; tauto).
    specialize (IH D I Ns). destruct (bool_decide (x ∈ seen)); cbn; lia.
Qed.

Section Cascades.
Context (env : LifeEnv) (meshId : string) (now : Z) (root : string) (q0 : ClaimStore).
Hypothesis ok0 : store_ok q0.

(** [b] is pending and waits for [a]. *)
Definition waits (a b : string) : Prop := exists p, at_row b p q0 /\ p.(ce_status) = st_pending /\ In a (ce_deps p).

(** A row the cascade reached, before and after. *)
Definition reached (e : ClaimEntry) (q : ClaimStore) : Prop :=
  tc waits root e.(ce_id) /\ at_row e.(ce_id) e q
  /\ exists p cur, at_row e.(ce_id) p q0 /\ p.(ce_status) = st_pending /\ In cur (ce_deps p)
       /\ struck env now (is_stopping meshId q0.(cs_turns) e.(ce_id)) cur p e.

Record progress (c : Cascade) (q : ClaimStore) : Prop := {
  pg_turns : q.(cs_turns) = q0.(cs_turns);
  pg_nodup : NoDup c.(ca_seen);
  pg_seen : c.(ca_seen) = (rev (map ce_id c.(ca_cancelled)) ++ [root])%list;
  pg_path : forall a, In a c.(ca_seen) -> a = root \/ tc waits root a;
  pg_reached : forall e, In e c.(ca_cancelled) -> reached e q;
  pg_rest : forall id, id = root \/ ~ In id c.(ca_seen) -> find_claimant id q = find_claimant id q0;
  pg_released : released meshId true q0 q }.

Lemma pg_ok c q : progress c q -> store_ok q.
Proof. intros P. exact (released_ok _ _ _ _ (pg_released _ _ P) ok0). Qed.

Lemma pg_root c q : progress c q -> In root c.(ca_seen).
Proof. intros P. rewrite (pg_seen _ _ P). apply in_app_iff. cbn. auto. Qed.

Lemma progress_hit c q cur d e :
  progress c q -> In cur c.(ca_seen) -> d.(ce_status) = st_pending -> In cur (ce_deps d) ->
  ~ In d.(ce_id) c.(ca_seen) -> at_row d.(ce_id) d q ->
  struck env now (is_stopping meshId q.(cs_turns) d.(ce_id)) cur d e ->
  progress {| ca_frontier := d.(ce_id) :: c.(ca_frontier); ca_seen := d.(ce_id) :: c.(ca_seen);
              ca_cancelled := (c.(ca_cancelled) ++ [e])%list |} (put_row e q).
Proof.
  intros P Ic Ep Id N A St. pose proof (pg_ok _ _ P) as Ok. pose proof (struck_tame _ _ _ _ _ _ Ep St) as T.
  assert (Ei : e.(ce_id) = d.(ce_id)) by apply T.
  assert (A0 : at_row d.(ce_id) d q0) by (unfold at_row; rewrite <- (pg_rest _ _ P) by auto; exact A).
  assert (W : waits cur d.(ce_id)) by (exists d; auto).
  assert (Tc : tc waits root d.(ce_id)).
  { destruct (pg_path _ _ P _ Ic) as [->|Tr]; [apply tc_once, W | exact (tc_r _ _ _ Tr W)]. }
  split; cbn [ca_seen ca_cancelled ca_frontier].
  - exact (pg_turns _ _ P).
  - constructor; [rewrite list_elem_of_In; exact N | apply P].
  - rewrite map_app, rev_app_distr, (pg_seen _ _ P). cbn. rewrite Ei. reflexivity.
  - intros a [<-|Ia]; [auto | exact (pg_path _ _ P _ Ia)].
  - intros x Ix. apply in_app_iff in Ix as [Ix|[<-|[]]].
    + destruct (pg_reached _ _ P _ Ix) as (Tx & Ax & R). split; [exact Tx|]. split; [|exact R]. unfold at_row. rewrite find_put_other; [exact Ax|].
      rewrite Ei. intros E. apply N. rewrite (pg_seen _ _ P), in_app_iff, <- in_rev, <- E. left. apply in_map, Ix.
    + split; [rewrite Ei; exact Tc|]. split; [apply (find_put_same _ d); rewrite Ei; exact A|].
      exists d, cur. rewrite Ei, <- (pg_turns _ _ P). auto.
  - intros id H. cbn in H. rewrite find_put_other; [apply (pg_rest _ _ P); tauto|]. rewrite Ei. destruct H as [->|H]; [|intros ->; tauto].
    intros E. apply N. rewrite <- E. exact (pg_root _ _ P).
  - transitivity q; [apply P|]. apply put_released; [exact Ok|]. rewrite Ei. unfold at_row in *. intros p Ap. rewrite A in Ap. injection Ap as <-. exact T.
Qed.

Lemma dependents_run cur deps c s :
  progress c s.(lf_queue) -> In cur c.(ca_seen) ->
  (forall d, In d deps -> d.(ce_status) = st_pending /\ In cur (ce_deps d)
    /\ (~ In d.(ce_id) c.(ca_seen) -> at_row d.(ce_id) d s.(lf_queue))) ->
  exists c' s' new, cancel_dependents env meshId now cur deps c s = (inr c', s') /\ progress c' s'.(lf_queue)
    /\ c'.(ca_frontier) = (new ++ c.(ca_frontier))%list /\ c'.(ca_seen) = (new ++ c.(ca_seen))%list
    /\ (forall d, In d deps -> In d.(ce_id) c'.(ca_seen))
    /\ (length new + length (unseen c'.(ca_seen) q0) = length (unseen c.(ca_seen) q0))%nat.
Proof.
  revert c s; induction deps as [|d deps IH]; intros c s P Ic D.
  { exists c, s, []. split_and!; try reflexivity; [exact P | intros ? []]. }
  cbn [cancel_dependents]. unfold mbind, life_bind at 1. destruct (D d (or_introl eq_refl)) as (Ep & Id & A).
  destruct (decide (d.(ce_id) ∈ c.(ca_seen))) as [I|N].
  - unfold cancel_dependent. rewrite bool_decide_eq_true_2 by exact I. cbn.
    destruct (IH c s P Ic) as (c' & s' & new & E & P' & Ef & Es & Al & M); [intros; apply D; cbn; auto|].
    exists c', s', new. split_and!; auto. intros x [<-|Ix]; [|auto]. rewrite Es, in_app_iff. right. apply list_elem_of_In, I.
  - assert (N' : ~ In d.(ce_id) c.(ca_seen)) by (rewrite <- list_elem_of_In; exact N). specialize (A N').
    destruct (cancel_dependent_run env meshId now cur d c s A Ep N) as (e & s1 & E1 & Q1 & St). rewrite E1.
    pose proof (progress_hit _ _ _ _ _ P Ic Ep Id N' A St) as P1. rewrite <- Q1 in P1.
    destruct (IH _ s1 P1) as (c' & s' & new & E & P' & Ef & Es & Al & M).
    { cbn. auto. }
    { intros x Ix. destruct (D x (or_intror Ix)) as (Ex & Idx & Ax). repeat split; auto. cbn. intros Nx. rewrite Q1. unfold at_row.
      destruct St as (rev & ->). rewrite find_put_other by (cbn; intros Ed; apply Nx; left; congruence). apply Ax. tauto. }
    exists c', s', (new ++ [d.(ce_id)])%list. cbn in Ef, Es, M. rewrite <- !app_assoc. cbn. split_and!; auto.
    + intros x [<-|Ix]; [|auto]. rewrite Es, in_app_iff. cbn. auto.
    + assert (In d.(ce_id) (map rw_id q0.(cs_rows))).
      { rewrite <- (rl_ids _ _ _ _ (pg_released _ _ P)). apply (at_row_In _ _ _ (pg_ok _ _ P)) in A as (row & I & <- & _). apply in_map, I. }
      rewrite (unseen_cons c.(ca_seen) q0 d.(ce_id)) by (auto; apply ok0). rewrite length_app. cbn. lia.
Qed.

Definition closed_under (c : Cascade) : Prop :=
  forall a b, In a c.(ca_seen) -> ~ In a c.(ca_frontier) -> waits a b -> In b c.(ca_seen).

Lemma pending_entries q e : In e (entries_in [st_pending] q) <->
  exists row, In row q.(cs_rows) /\ row.(rw_status) = st_pending /\ row.(rw_payload) = e.
Proof.
  unfold entries_in. rewrite in_map_iff. setoid_rewrite In_order_by. setoid_rewrite filter_In. setoid_rewrite bool_decide_eq_true.
  setoid_rewrite list_elem_of_singleton. firstorder.
Qed.

Lemma pending_at_row q e : store_ok q ->
  In e (entries_in [st_pending] q) <-> at_row e.(ce_id) e q /\ e.(ce_status) = st_pending.
Proof.
  intros Ok. rewrite pending_entries, at_row_In by exact Ok. split.
  - intros (row & I & Es & <-). pose proof (so_synced _ Ok _ I) as S. rewrite (synced_id _ S), (synced_status _ S). eauto.
  - intros [(row & I & Ei & Ee) Es]. exists row. split; [exact I|]. split; [|exact Ee].
    rewrite <- (synced_status _ (so_synced _ Ok _ I)), Ee. exact Es.
Qed.

Lemma cascade_run fuel c s :
  progress c s.(lf_queue) -> (forall a, In a c.(ca_frontier) -> In a c.(ca_seen)) -> closed_under c ->
  (length c.(ca_frontier) + length (unseen c.(ca_seen) q0) <= fuel)%nat ->
  exists c' s', cascade env meshId now fuel c s = (inr (Some c'.(ca_cancelled)), s') /\ progress c' s'.(lf_queue)
    /\ (forall a b, In a c'.(ca_seen) -> waits a b -> In b c'.(ca_seen)).
Proof.
  revert c s; induction fuel as [|fuel IH]; intros c s P Fs Cl M; destruct (ca_frontier c) as [|cur frontier] eqn:Ef; cbn [length] in M; try lia.
  1,2: exists c, s; cbn; rewrite Ef; split_and!; auto; intros a b Ia; apply Cl; [exact Ia | rewrite Ef; intros []].
  cbn [cascade]. rewrite Ef. unfold mbind, life_bind at 1, reads. unfold life_bind at 1.
  pose proof (pg_ok _ _ P) as Ok. assert (Ic : In cur c.(ca_seen)) by (apply Fs; cbn; auto).
  set (c1 := {| ca_frontier := frontier; ca_seen := ca_seen c; ca_cancelled := ca_cancelled c |}).
  assert (P1 : progress c1 s.(lf_queue)) by (destruct P; split; assumption).
  destruct (dependents_run cur (List.filter (depends_on_id cur) (entries_in [st_pending] s.(lf_queue))) c1 s P1 Ic)
    as (c' & s' & new & E & P' & Ef' & Es' & Al & M').
  { intros d Id. apply filter_In in Id as [Id Dd]. apply pending_at_row in Id as [Ad Sd]; [|exact Ok].
    apply bool_decide_eq_true, list_elem_of_In in Dd. auto. }
  rewrite E. apply IH; [exact P' | | | rewrite Ef', length_app; cbn in M'; cbn; lia].
  - intros a. rewrite Ef', Es', !in_app_iff. cbn. intros [Ia|Ia]; [auto | right; apply Fs; cbn; auto].
  - intros a b Ia Na W. rewrite Es' in Ia. rewrite Ef' in Na. rewrite in_app_iff in Ia, Na. destruct Ia as [Ia|Ia]; [tauto|]. cbn in Ia, Na.
    destruct (in_dec String.string_dec b c.(ca_seen)) as [Ib|Nb]; [rewrite Es', in_app_iff; auto|].
    destruct (decide (a = cur)) as [->|Ne].
    + destruct W as (p & Ap & Sp & Ip). assert (Eb : p.(ce_id) = b) by exact (at_row_id _ _ _ ok0 Ap). rewrite <- Eb. apply Al, filter_In.
      split; [|apply bool_decide_eq_true, list_elem_of_In, Ip]. apply pending_at_row; [exact Ok|]. split; [|exact Sp].
      unfold at_row. rewrite (pg_rest _ _ P) by (rewrite Eb; auto). rewrite Eb. exact Ap.
    + exfalso. apply Nb. apply (Cl a b Ia); [|exact W]. rewrite Ef. cbn. intros [->|I]; tauto.
Qed.
End Cascades.

Lemma propagate_run env meshId now root reason s : store_ok s.(lf_queue) ->
  exists cancelled s', propagateDependencyFailure env meshId now root reason s = (inr cancelled, s')
    /\ (resolveOnDependencyFailurePolicy env.(le_policy) = policy_block -> cancelled = [] /\ s'.(lf_queue) = s.(lf_queue))
    /\ (resolveOnDependencyFailurePolicy env.(le_policy) = policy_cancel ->
         exists c, progress env meshId now root s.(lf_queue) c s'.(lf_queue) /\ cancelled = c.(ca_cancelled)
           /\ forall a b, In a c.(ca_seen) -> waits s.(lf_queue) a b -> In b c.(ca_seen)).
Proof.
  intros Ok. unfold propagateDependencyFailure. destruct (resolveOnDependencyFailurePolicy _).
  - eexists _, _. split; [reflexivity|]. split; [cbn; auto | discriminate].
  - set (c0 := {| ca_frontier := [root]; ca_seen := [root]; ca_cancelled := [] |}).
    destruct (cascade_run env meshId now root s.(lf_queue) Ok (cascade_fuel s) c0 s) as (c & s' & E & P & Cl).
    + split; try reflexivity; [repeat constructor; intros I; inversion I | cbn; intros a [<-|[]]; auto | intros e []].
    + cbn. auto.
    + intros a b Ia Na. cbn in Ia, Na. tauto.
    + unfold cascade_fuel. cbn. apply le_n_S. unfold unseen. etransitivity; [apply List.filter_length_le|]. rewrite length_map. reflexivity.
    + unfold mbind, life_bind, reads. rewrite E. eexists _, _. split; [reflexivity|]. split; [discriminate|]. intros _. cbn. eauto.
Qed.

Lemma tc_closed {A} (R : relation A) (S : list A) : (forall a b, In a S -> R a b -> In b S) -> forall a b, In a S -> tc R a b -> In b S.
Proof. intros C a b Ia T. revert Ia. induction T; eauto. Qed.

(** C17: A failed task carries its failure exactly as far as the policy says.  The
    cascade always answers.  Under [block] no row changes.  Under [cancel] it
    reaches each pending task that waits for the failed one, directly or
    through other pending tasks, once, and no other row changes; a task it
    reaches is cancelled and names the prerequisite that failed it, unless its
    own writer is being stopped, when it stays pending. *)
Theorem cascade_exact env meshId now root reason s : store_ok s.(lf_queue) ->
  let q := s.(lf_queue) in
  exists cancelled s', propagateDependencyFailure env meshId now root reason s = (inr cancelled, s')
    /\ match resolveOnDependencyFailurePolicy env.(le_policy) with
       | policy_block => cancelled = [] /\ s'.(lf_queue) = q
       | policy_cancel =>
           NoDup (map ce_id cancelled)
           /\ (forall id, In id (map ce_id cancelled) <-> id <> root /\ tc (waits q) root id)
           /\ (forall id, ~ In id (map ce_id cancelled) -> find_claimant id s'.(lf_queue) = find_claimant id q)
           /\ (forall e, In e cancelled -> find_claimant e.(ce_id) s'.(lf_queue) = Some e
                /\ exists p cur, find_claimant e.(ce_id) q = Some p /\ In cur (ce_deps p)
                     /\ struck env now (is_stopping meshId q.(cs_turns) e.(ce_id)) cur p e)
       end.
Proof.
  intros Ok q. destruct (propagate_run env meshId now root reason s Ok) as (cancelled & s' & E & Bl & Ca).
  exists cancelled, s'. split; [exact E|]. destruct (resolveOnDependencyFailurePolicy _); [auto|].
  destruct (Ca eq_refl) as (c & P & -> & Cl). clear Bl Ca.
  pose proof (pg_nodup _ _ _ _ _ _ _ P) as N. rewrite (pg_seen _ _ _ _ _ _ _ P) in N.
  assert (Seen : forall id, In id c.(ca_seen) <-> In id (map ce_id c.(ca_cancelled)) \/ id = root).
  { intros id. rewrite (pg_seen _ _ _ _ _ _ _ P), in_app_iff, <- in_rev. cbn. intuition. }
  apply NoDup_app in N as (N1 & N2 & _). split_and!.
  - rewrite <- (Permutation_rev (map ce_id (ca_cancelled c))) in N1. exact N1.
  - intros id. split.
    + intros I. split; [|apply in_map_iff in I as (e & <- & Ie); apply (pg_reached _ _ _ _ _ _ _ P _ Ie)].
      intros ->. apply (N2 root); [apply list_elem_of_In; rewrite <- in_rev; exact I | left].
    + intros [Ne T]. assert (I : In id c.(ca_seen)); [|apply Seen in I as [I|I]; [exact I | contradiction]].
      exact (tc_closed _ _ Cl _ _ (pg_root _ _ _ _ _ _ _ P) T).
  - intros id Ni. apply (pg_rest _ _ _ _ _ _ _ P). rewrite Seen. destruct (decide (id = root)); [auto | right; tauto].
  - intros e Ie. destruct (pg_reached _ _ _ _ _ _ _ P e Ie) as (_ & A & p & cur & Ap & _ & Ic & St). eauto 10.
Qed.

(** ** A logic of writers *)

(** The row of a task holds its claim, or is bound to nobody. *)
Definition settled_row (meshId taskId : string) (q : ClaimStore) : Prop :=
  forall row, In row q.(cs_rows) -> row.(rw_id) = taskId ->
    active_claim meshId q row = true \/ row.(rw_assignedSessionId) = None /\ row.(rw_assignedNodeId) = None.

Definition attempt_settled (meshId : string) (a : TurnAttempt) (q : ClaimStore) : Prop :=
  forall t, a_taskId a = Some t -> settled_row meshId t q.

(** What the queue relies on of the turn ledger, for a task whose row holds its
    claim or is bound to nobody: cancelling its attempt gives no row a claim
    and revives none; superseding it, and closing a fenced direct dispatch,
    leave the rows alone. *)
Class QuietEnv (env : LifeEnv) (meshId : string) : Prop := {
  qt_cancel : forall p a s, env.(le_ledger) = Some p -> attempt_settled meshId a s.(lf_queue) ->
    released meshId true s.(lf_queue) (p.(lp_cancel) a "operator_cancel" s).2.(lf_queue);
  qt_supersede : forall p a s, env.(le_ledger) = Some p -> attempt_settled meshId a s.(lf_queue) ->
    let q := (p.(lp_cancel) a "superseded" s).2.(lf_queue) in
    q.(cs_rows) = s.(lf_queue).(cs_rows) /\ no_new_claims meshId s.(lf_queue) q
    /\ forall t, settled_row meshId t s.(lf_queue) -> settled_row meshId t q;
  qt_sibling : forall taskId s, settled_row meshId taskId s.(lf_queue) ->
    released meshId true s.(lf_queue) (env.(le_closeSibling) false taskId s).(lf_queue);
  qt_fenced : forall taskId s, settled_row meshId taskId s.(lf_queue) ->
    let q := (env.(le_closeSibling) true taskId s).(lf_queue) in
    q.(cs_rows) = s.(lf_queue).(cs_rows) /\ no_new_claims meshId s.(lf_queue) q }.

Lemma same_rows_released meshId sticky q q' :
  q'.(cs_rows) = q.(cs_rows) -> no_new_claims meshId q q' -> released meshId sticky q q'.
Proof. intros E N. split; rewrite ?E; eauto. intros id. unfold find_claimant. rewrite E. reflexivity. Qed.

Section Logic.
Context (env : LifeEnv) (meshId : string) (now : Z) (sticky : bool).

(** From a store in order where [P] holds, [m] only releases, also when it
    throws, and when it answers [Q] holds. *)
Definition triple {A} (P : LifeStore -> Prop) (m : Life A) (Q : A -> LifeStore -> Prop) : Prop :=
  forall s, store_ok s.(lf_queue) -> P s ->
    released meshId sticky s.(lf_queue) (m s).2.(lf_queue) /\ match (m s).1 with inr a => Q a (m s).2 | inl _ => True end.

Definition always {A} (_ : A) (_ : LifeStore) : Prop := True.

Lemma t_ret {A} (a : A) P Q : (forall s, P s -> Q a s) -> triple P (mret a) Q.
Proof. intros H s _ Ps. split; [reflexivity | exact (H s Ps)]. Qed.

Lemma t_fails {A} e P (Q : A -> LifeStore -> Prop) : triple P (fails e) Q.
Proof. intros s _ _. split; [reflexivity | exact I]. Qed.

Lemma t_bind {A B} P (m : Life A) Q (k : A -> Life B) R :
  triple P m Q -> (forall a, triple (Q a) (k a) R) -> triple P (mbind k m) R.
Proof.
  intros Hm Hk s Ok Ps. destruct (Hm s Ok Ps) as [Rl Qs]. unfold mbind, life_bind. destruct (m s) as [[e|a] s1]; cbn in *; [auto|].
  destruct (Hk a s1 (released_ok _ _ _ _ Rl Ok) Qs) as [Rl' Q']. split; [etransitivity; eauto | exact Q'].
Qed.

Lemma t_weaken {A} P P' (m : Life A) (Q Q' : A -> LifeStore -> Prop) :
  (forall s, store_ok s.(lf_queue) -> P' s -> P s) -> (forall a s, Q a s -> Q' a s) -> triple P m Q -> triple P' m Q'.
Proof.
  intros HP HQ H s Ok Ps. destruct (H s Ok (HP s Ok Ps)) as [R X]. split; [exact R|]. destruct (m s) as [[e|a] s1]; cbn in *; auto.
Qed.

Lemma t_transaction {A} P (m : Life A) Q : triple P m Q -> triple P (transaction m) Q.
Proof.
  intros H s Ok Ps. destruct (H s Ok Ps) as [R X]. unfold transaction. destruct (m s) as [[e|a] s1]; cbn in *; [|auto]. split; [reflexivity | exact I].
Qed.

Lemma t_reads {A} P (f : LifeStore -> A) : triple P (reads f) (fun a s => P s /\ a = f s).
Proof. intros s _ Ps. split; [reflexivity|]. cbn. auto. Qed.

Lemma t_modifies P (f : LifeStore -> LifeStore) (Q : unit -> LifeStore -> Prop) :
  (forall s, P s -> released meshId sticky s.(lf_queue) (f s).(lf_queue)) -> (forall s, P s -> Q tt (f s)) -> triple P (modifies f) Q.
Proof. intros R H s _ Ps. split; [exact (R s Ps) | exact (H s Ps)]. Qed.

Lemma t_write P e :
  (forall s p, store_ok s.(lf_queue) -> P s -> at_row e.(ce_id) p s.(lf_queue) -> tame sticky p e) -> triple P (writeQueueEntry env meshId now e) always.
Proof.
  intros T s Ok Ps. destruct (write_cases env meshId now e s) as [(err & ->)|E]; [split; [reflexivity | exact I]|].
  rewrite E. split; [|exact I]. cbn. apply put_released; [exact Ok|]. intros p A. destruct (T s p Ok Ps A). split; assumption.
Qed.

Lemma t_on_row P taskId f :
  (forall entry, triple (fun s => P s /\ at_row taskId entry s.(lf_queue)) (f entry) always) -> triple P (on_row taskId f) always.
Proof.
  intros H. unfold on_row. eapply t_bind; [apply t_reads|]. intros [entry|]; [|apply t_ret; intros; exact I].
  eapply t_weaken; [| |apply (H entry)]; [|auto]. intros s _ [Ps E]. split; [exact Ps | symmetry; exact E].
Qed.

Lemma t_mark P taskId : triple P (end_mark meshId taskId) always.
Proof. apply t_modifies; [intros; reflexivity | intros; exact I]. Qed.

Lemma t_hook P h : triple P (hook h) always.
Proof. apply t_modifies; [intros; reflexivity | intros; exact I]. Qed.

(** An edit of the row that was read. *)
Lemma t_edit P taskId entry e :
  (forall s, P s -> at_row taskId entry s.(lf_queue)) -> e.(ce_id) = entry.(ce_id) -> tame sticky entry e ->
  triple P (writeQueueEntry env meshId now e) always.
Proof.
  intros R Ei T. apply t_write. intros s p Ok Ps A. pose proof (R s Ps) as A0. unfold at_row in *.
  rewrite Ei, (at_row_id _ _ _ Ok A0), A0 in A. injection A as <-. exact T.
Qed.

(** The row is bound to nobody. *)
Definition unbound (e : ClaimEntry) : Prop := e.(ce_assignedSessionId) = None /\ e.(ce_assignedNodeId) = None.

Lemma t_unbind P taskId entry e :
  (forall s, P s -> at_row taskId entry s.(lf_queue)) -> e.(ce_id) = entry.(ce_id) -> tame sticky entry e -> unbound e ->
  triple P (writeQueueEntry env meshId now e) (fun _ s => settled_row meshId taskId s.(lf_queue)).
Proof.
  intros R Ei T U s Ok Ps. destruct (t_edit P taskId entry e R Ei T s Ok Ps) as [Rl _]. split; [exact Rl|].
  destruct (write_cases env meshId now e s) as [(err & ->)|E]; [exact I|]. rewrite E. cbn.
  pose proof (at_row_id _ _ _ Ok (R s Ps)) as Eid. intros row. unfold put_row at 1. cbn. rewrite in_map_iff. intros (r & <- & Ir).
  rewrite write_row_id. intros <-. right. unfold write_row. rewrite bool_decide_eq_true_2 by (cbn; congruence). exact U.
Qed.

Lemma t_terminal_steps P taskId entry status :
  (forall s, P s -> at_row taskId entry s.(lf_queue)) -> is_terminal_status status = true ->
  triple P (terminal_steps env meshId now entry status) always.
Proof.
  intros R T. unfold terminal_steps. eapply t_bind; [apply (t_modifies _ _ (fun _ s => at_row taskId entry s.(lf_queue))); [intros; reflexivity | exact R]|].
  intros ?. eapply t_bind; [|intros; eapply t_bind; [apply t_mark | intros; apply t_ret; auto]].
  apply (t_edit _ taskId entry); [auto | reflexivity|]. split; cbn; auto. intros ->. discriminate T.
Qed.

Lemma t_commit P taskId status source attemptId : is_terminal_status status = true ->
  triple P (commitRowTerminal env meshId now taskId status source attemptId) always.
Proof.
  intros T s Ok _. unfold commitRowTerminal, find_entry_of. destruct (find_claimant taskId (lf_queue s)) as [entry|] eqn:A; [|split; [reflexivity | exact I]].
  destruct (is_stopping _ _ _); [split; [reflexivity | exact I]|].
  destruct (bool_decide (ce_status entry = status)); [split; [reflexivity | exact I]|].
  destruct (_ && isStageBlockLocked _ _); [split; [reflexivity | exact I]|].
  destruct (shouldHoldStageTerminal _ _); [destruct (isStageImplReport _); split; try reflexivity; exact I|].
  refine (t_bind (fun s => at_row taskId entry s.(lf_queue)) _ always _ always _ _ s Ok A).
  - apply t_transaction, (t_terminal_steps _ taskId); auto.
  - intros e. eapply t_bind; [apply t_hook | intros; apply t_ret; auto].
Qed.

Lemma t_commit_queue P taskId status source : is_terminal_status status = true ->
  triple P (commitQueueTerminal env meshId now taskId status source) always.
Proof.
  intros T. eapply t_bind; [apply t_commit, T|]. intros [e|]; [apply t_ret; auto|]. intros s _ _. split; [reflexivity | exact I].
Qed.

Lemma t_propagate P root reason : triple P (propagateDependencyFailure env meshId now root reason) always.
Proof.
  intros s Ok _. destruct (propagate_run env meshId now root reason s Ok) as (c & s' & -> & Bl & Ca). split; [|exact I]. cbn.
  destruct (resolveOnDependencyFailurePolicy _); [destruct (Bl eq_refl) as [_ ->]; reflexivity|].
  destruct (Ca eq_refl) as (c' & Pg & _). apply released_weaken, Pg.
Qed.

Lemma t_fail_with P taskId entry e reason :
  (forall s, P s -> at_row taskId entry s.(lf_queue)) -> e.(ce_id) = entry.(ce_id) -> tame sticky entry e ->
  triple P (fail_with env meshId now e reason) always.
Proof.
  intros R Ei T. eapply t_bind; [exact (t_edit _ _ _ _ R Ei T)|]. intros e1. eapply t_bind; [apply t_commit_queue; reflexivity|].
  intros f. eapply t_bind; [apply t_propagate | intros; apply t_ret; auto].
Qed.

Lemma t_owner P o : triple P (requireMeshHostQueueOwner o) (fun _ => P).
Proof. unfold requireMeshHostQueueOwner. repeat case_match; try apply t_fails. apply t_ret; auto. Qed.
End Logic.

(** ** The writers *)

#[local] Hint Extern 0 (always _ _) => exact I : core.

Ltac tame_edit := split; cbn; auto; try discriminate; try tauto.

Section Writers.
Context (env : LifeEnv) (meshId : string) (now : Z) (sticky : bool) `{Q : !QuietEnv env meshId}.

Notation triple := (triple meshId sticky).

Lemma t_sibling taskId :
  triple (fun s => settled_row meshId taskId s.(lf_queue)) (modifies (env.(le_closeSibling) false taskId)) always.
Proof. apply t_modifies; [intros s S; apply released_weaken, qt_sibling, S | intros; exact I]. Qed.

Lemma t_row_read P taskId (f : ClaimEntry -> Life (option ClaimEntry)) :
  (forall entry, triple (fun s => at_row taskId entry s.(lf_queue)) (f entry) always) -> triple P (transaction (on_row taskId f)) always.
Proof.
  intros H. apply t_transaction, t_on_row. intros entry. eapply t_weaken; [| |apply H]; cbn; tauto.
Qed.

Lemma latest_task taskId turns a : findLatestAttemptForTask (Some meshId) taskId turns = Some a -> a_taskId a = Some taskId.
Proof.
  unfold findLatestAttemptForTask. intros E.
  assert (H : forall l, (forall r, In r l -> ra_task_id r = Some taskId) -> attemptFromRow <$> head l = Some a -> a_taskId a = Some taskId).
  { intros [|r l] H; [discriminate|]. cbn. intros [= <-]. apply (H r). cbn. auto. }
  destruct (truthy_str _); apply (H _) in E; auto; intros r I; apply In_order_by in I; unfold attempts_of_task in *;
    apply filter_In in I as [_ I]; rewrite ?andb_true_iff, ?bool_decide_eq_true in I; tauto.
Qed.

Lemma t_answer {A} P (m : Life A) : triple P m always -> triple P (e ← m; mret (Some e)) always.
Proof. intros H. eapply t_bind; [exact H | intros; apply t_ret; auto]. Qed.

Lemma t_update P taskId status force owner : (sticky = true -> force = false) -> status <> st_assigned ->
  triple P (updateTaskStatus env meshId now taskId status force owner) always.
Proof.
  intros St Ns. eapply t_bind; [apply t_owner|]. intros ?. destruct (is_terminal_status status) eqn:T; [apply t_fails|].
  unfold writeTaskStatusUnchecked. rewrite T. apply t_row_read. intros entry.
  destruct (negb force && is_terminal_status (ce_status entry) && negb false) eqn:G; [apply t_ret; auto|]. rewrite andb_true_r in G. eapply t_bind; [apply (t_edit _ _ _ _ _ taskId entry); [auto | reflexivity|]|].
  - tame_edit. intros St' En. rewrite St, En in G by exact St'. discriminate.
  - intros e. rewrite bool_decide_eq_false_2 by exact Ns. eapply t_bind; [apply t_mark | intros; apply t_ret; auto].
Qed.

Lemma t_cancel taskId reason :
  triple (fun s => settled_row meshId taskId s.(lf_queue)) (cancelQueueRow env meshId now taskId reason) always.
Proof.
  apply t_transaction, t_on_row. intros entry. eapply t_bind; [apply t_reads|]. intros active.
  destruct (open_attempt active) as [attempt|] eqn:O.
  - eapply t_bind; [|intros; intros s _ _; split; [reflexivity | exact I]]. unfold cancel_attempt.
    destruct (le_ledger env) as [p|] eqn:L; [|apply (t_ret _ _ _ _ always); auto]. destruct (daemonIdsEquivalent _ _); [|apply (t_ret _ _ _ _ always); auto].
    apply t_modifies; [|intros; exact I]. intros s [[St _] Ea]. apply released_weaken, (qt_cancel p attempt s L).
    assert (a_taskId attempt = Some taskId) as Et.
    { destruct active as [a|]; [|discriminate]. cbn in O. destruct (present _); [discriminate|]. injection O as <-. exact (latest_task _ _ _ (eq_sym Ea)). }
    intros t. rewrite Et. intros [= <-]. exact St.
  - eapply t_bind; [apply (t_unbind _ _ _ _ _ taskId entry); [tauto | reflexivity | tame_edit | split; reflexivity]|]. intros e.
    eapply t_bind; [apply t_sibling|]. intros ?. eapply t_bind; [apply t_commit; reflexivity|]. intros c.
    eapply t_bind; [apply t_propagate | intros; apply t_ret; auto].
Qed.

Lemma t_park P taskId reason allow owner : triple P (parkTaskTargetPin env meshId now taskId reason allow owner) always.
Proof.
  eapply t_bind; [apply t_owner|]. intros ?. apply t_row_read. intros entry. repeat (destruct (negb _ || _) || destruct (_ && _) || case_match); try (apply t_ret; auto).
  all: apply t_answer, (t_edit _ _ _ _ _ taskId entry); [auto | reflexivity | tame_edit].
Qed.

Lemma t_sweep P taskId retention owner : triple P (failRetentionExpiredParkedTask env meshId now taskId retention owner) always.
Proof.
  eapply t_bind; [apply t_owner|]. intros ?. apply t_row_read. intros entry. destruct (_ || _); [apply t_ret; auto|].
  destruct (negb _); [apply t_ret; auto|]. apply t_answer, (t_fail_with _ _ _ _ _ taskId entry); [auto | reflexivity | tame_edit].
Qed.

Lemma t_orphan P taskId reason attemptId owner : triple P (failOrphanedUncorrelatedDispatch env meshId now taskId reason attemptId owner) always.
Proof.
  eapply t_bind; [apply t_owner|]. intros ?. apply t_row_read. intros entry. eapply t_bind; [apply t_reads|]. intros turns.
  destruct (negb _); [apply t_ret; auto|]. apply t_answer, (t_fail_with _ _ _ _ _ taskId entry); [tauto | reflexivity | tame_edit].
Qed.

Lemma t_reclaim P taskId reason nowIso : triple P (requeueTaskForLedgerReclaim env meshId now taskId reason nowIso) always.
Proof.
  apply t_row_read. intros entry. destruct (_ || _) eqn:G; [apply t_ret; auto|]. apply orb_false_iff in G as [G _].
  eapply t_bind; [apply (t_unbind _ _ _ _ _ taskId entry); [auto | reflexivity | | split; reflexivity]|].
  - tame_edit. congruence.
  - intros e. eapply t_bind; [apply (t_modifies _ _ _ _ (fun _ s => settled_row meshId taskId s.(lf_queue))); [intros; reflexivity | intros s S; exact S]|].
    intros ?. eapply t_bind; [apply t_sibling | intros; apply t_ret; auto].
Qed.

Lemma t_backoff P taskId : triple P (applyDispatchFailureBackoff env meshId now taskId) always.
Proof.
  apply t_row_read. intros entry. destruct (negb _); [apply t_ret; auto|].
  apply t_answer, (t_edit _ _ _ _ _ taskId entry); [auto | reflexivity | tame_edit].
Qed.

Lemma t_host_requeue P taskId reason nowIso : triple P (host_requeue env meshId now taskId reason nowIso) always.
Proof.
  eapply t_bind; [apply t_reclaim|]. intros ?. destruct (bool_decide _); [|apply t_ret; auto].
  eapply t_bind; [apply t_backoff | intros; apply t_ret; auto].
Qed.

Lemma t_host_terminal P fenced taskId status attemptId reason : is_terminal_status status = true ->
  triple P (host_taskTerminal env meshId now fenced taskId status attemptId reason) always.
Proof.
  intros T. eapply t_bind with (Q := always).
  - intros s Ok _. unfold applyRowTerminalInTxn, find_entry_of. destruct (find_claimant taskId (lf_queue s)) as [entry|] eqn:A; [|split; [reflexivity | exact I]].
    destruct (_ || isStageBlockLocked _ _); [split; [reflexivity | exact I]|].
    destruct (shouldHoldStageTerminal _ _); [destruct (isStageImplReport _); split; try reflexivity; exact I|].
    destruct fenced; [split; [reflexivity | exact I]|].
    refine (t_bind _ _ (fun s => at_row taskId entry s.(lf_queue)) _ always _ always _ _ s Ok A).
    + apply t_transaction, (t_terminal_steps _ _ _ _ _ taskId); auto.
    + intros; apply t_ret; auto.
  - intros b. eapply t_bind with (Q := always); [|intros; apply t_ret; auto]. destruct b; [|apply t_ret; auto].
    unfold propagateLedgerDependencyFailure. destruct (bool_decide _); [apply t_transaction, t_propagate | apply t_ret; auto].
Qed.
End Writers.

(** ** Requeue *)

Lemma same_rows_found q q' id : q'.(cs_rows) = q.(cs_rows) -> find_claimant id q' = find_claimant id q.
Proof. intros E. unfold find_claimant. rewrite E. reflexivity. Qed.

Section Requeue.
Context (env : LifeEnv) (meshId : string) (now : Z) `{Q : !QuietEnv env meshId}.

Notation triple := (triple meshId false).
Notation row_is taskId entry := (fun s : LifeStore => at_row taskId entry s.(lf_queue)).

Notation settled_is taskId entry := (fun s : LifeStore => settled_row meshId taskId s.(lf_queue) /\ at_row taskId entry s.(lf_queue)).

Lemma retire_rows taskId force s : settled_row meshId taskId s.(lf_queue) ->
  let '(r, s') := retire_attempt env meshId taskId force s in
  (exists a, r = inr a) /\ s'.(lf_queue).(cs_rows) = s.(lf_queue).(cs_rows) /\ no_new_claims meshId s.(lf_queue) s'.(lf_queue)
  /\ settled_row meshId taskId s'.(lf_queue).
Proof.
  intros St. unfold retire_attempt, retireOpenQueueAttemptForRequeue.
  assert (Same : forall r, let '(x, s') := (inr r : string + QueueAttemptRetirement, s) in
    (exists a, x = inr a) /\ s'.(lf_queue).(cs_rows) = s.(lf_queue).(cs_rows) /\ no_new_claims meshId s.(lf_queue) s'.(lf_queue)
    /\ settled_row meshId taskId s'.(lf_queue)) by (intros r; split_and!; [eauto | reflexivity | reflexivity | exact St]).
  destruct (findOpenQueueAttempt _ _ _) as [open|] eqn:O; [|apply Same]. destruct (_ || _ && _); [apply Same|].
  destruct (le_ledger env) as [p|] eqn:L; cbn; [|apply Same]. destruct (_ && _); [apply Same|].
  assert (a_taskId open = Some taskId) as Et.
  { unfold findOpenQueueAttempt in O. destruct (findLatestAttemptForTask _ _ _) as [a|] eqn:F; [|discriminate].
    destruct (_ && _); [|discriminate]. injection O as <-. exact (latest_task _ _ _ _ F). }
  destruct (qt_supersede p open s L) as (Er & Nc & Sr); [intros t; rewrite Et; intros [= <-]; exact St|].
  destruct (lp_cancel p open "superseded" s) as [applied s']. cbn in *. split_and!; eauto.
Qed.

Lemma t_retire taskId entry force :
  triple (settled_is taskId entry) (retire_attempt env meshId taskId force) (fun _ => settled_is taskId entry).
Proof.
  intros s Ok [St A]. pose proof (retire_rows taskId force s St) as H. destruct (retire_attempt _ _ _ _ _) as [r s'].
  destruct H as ((a & ->) & Er & Nc & Sr). cbn. split; [apply same_rows_released; assumption|]. split; [exact Sr|].
  unfold at_row. rewrite (same_rows_found _ _ _ Er). exact A.
Qed.

Lemma t_fenced taskId entry :
  triple (settled_is taskId entry) (modifies (env.(le_closeSibling) true taskId)) (fun _ => row_is taskId entry).
Proof.
  apply t_modifies; intros s [St A]; destruct (qt_fenced taskId s St) as [Er Nc].
  - apply same_rows_released; assumption.
  - unfold at_row. rewrite (same_rows_found _ _ _ Er). exact A.
Qed.

Lemma t_requeue taskId o :
  triple (fun s => settled_row meshId taskId s.(lf_queue)) (requeueTaskWithOutcome env meshId now taskId o) always.
Proof.
  eapply t_bind; [apply t_owner|]. intros ?. apply t_transaction. eapply t_bind; [apply t_reads|].
  intros [entry|]; [|apply t_ret; auto]. eapply t_bind with (Q := always); [|intros; apply t_ret; auto].
  apply (t_weaken _ _ (settled_is taskId entry) _ _ always); [intros s _ [St E]; split; [exact St | symmetry; exact E] | auto|].
  eapply t_bind; [apply t_reads|]. intros marks. destruct (_ && _); [apply t_ret; auto|].
  apply (t_weaken _ _ (settled_is taskId entry) _ _ always); [tauto | auto|].
  eapply t_bind; [apply t_retire|]. intros retirement.
  assert (Go : triple (settled_is taskId entry)
    (end_mark meshId taskId ;; modifies (env.(le_closeSibling) true taskId) ;;
     e ← (if o.(ro_dispatchFailure) && negb o.(ro_force) then requeue_dispatch env meshId now o (abandoned retirement entry)
          else requeue_retry env meshId now o (abandoned retirement entry));
     mret {| qo_entry := e; qo_refusal := None |}) always); [|destruct retirement; [exact Go | exact Go | apply t_ret; auto]].
  eapply t_bind; [apply (t_modifies _ _ _ _ (fun _ => settled_is taskId entry)); [intros; reflexivity | auto]|]. intros ?.
  eapply t_bind; [apply t_fenced|]. intros ?. eapply t_bind with (Q := always); [|intros; apply t_ret; auto].
  destruct (_ && _); [unfold requeue_dispatch | unfold requeue_retry]; case_match.
  - apply (t_fail_with _ _ _ _ _ taskId entry); [auto | reflexivity | tame_edit].
  - apply (t_edit _ _ _ _ _ taskId entry); [auto | reflexivity | tame_edit].
  - apply (t_fail_with _ _ _ _ _ taskId entry); [auto | reflexivity | tame_edit].
  - apply (t_edit _ _ _ _ _ taskId entry); [auto | reflexivity | tame_edit].
Qed.
End Requeue.

(** ** All writers together *)

Inductive QueueOp : Type :=
| Op_status (taskId : string) (force : bool) (owner : Owner)
| Op_cancel (taskId : string) (reason : option string)
| Op_requeue (taskId : string) (o : RequeueOptions)
| Op_park (taskId : string) (reason : option string) (allowUntargeted : bool) (owner : Owner)
| Op_sweep (taskId : string) (retentionMs : option Z) (owner : Owner)
| Op_orphan (taskId reason : string) (attemptId : option string) (owner : Owner)
| Op_host_requeue (taskId reason nowIso : string)
| Op_host_terminal (fenced : bool) (taskId : string) (status : MeshTaskStatus) (attemptId reason : option string).

(** The store after an operation; [updateTaskStatus] is called with [pending]
    only. *)
Definition run_op (env : LifeEnv) (meshId : string) (now : Z) (op : QueueOp) (s : LifeStore) : LifeStore :=
  match op with
  | Op_status taskId force owner => (updateTaskStatus env meshId now taskId st_pending force owner s).2
  | Op_cancel taskId reason => (cancelQueueRow env meshId now taskId reason s).2
  | Op_requeue taskId o => (requeueTaskWithOutcome env meshId now taskId o s).2
  | Op_park taskId reason allow owner => (parkTaskTargetPin env meshId now taskId reason allow owner s).2
  | Op_sweep taskId retention owner => (failRetentionExpiredParkedTask env meshId now taskId retention owner s).2
  | Op_orphan taskId reason attemptId owner => (failOrphanedUncorrelatedDispatch env meshId now taskId reason attemptId owner s).2
  | Op_host_requeue taskId reason nowIso => (host_requeue env meshId now taskId reason nowIso s).2
  | Op_host_terminal fenced taskId status attemptId reason => (host_taskTerminal env meshId now fenced taskId status attemptId reason s).2
  end.

(** The decisions that may put an ended task back. *)
Definition revives (op : QueueOp) : bool :=
  match op with Op_requeue _ _ => true | Op_status _ force _ => force | _ => false end.

(** A task that is cancelled or requeued holds its claim or is bound to nobody:
    [stale_binding_shared] shows what happens otherwise. *)
Definition op_fits (meshId : string) (op : QueueOp) (q : ClaimStore) : Prop :=
  match op with
  | Op_cancel taskId _ | Op_requeue taskId _ => settled_row meshId taskId q
  | Op_host_terminal _ _ status _ _ => is_terminal_status status = true
  | _ => True
  end.

Lemma triple_released {A} meshId sticky P (m : Life A) s :
  triple meshId sticky P m always -> store_ok s.(lf_queue) -> P s -> released meshId sticky s.(lf_queue) (m s).2.(lf_queue).
Proof. intros T Ok Ps. exact (proj1 (T s Ok Ps)). Qed.

Lemma op_releases env meshId now op s : QuietEnv env meshId -> op_fits meshId op s.(lf_queue) -> store_ok s.(lf_queue) ->
  released meshId (negb (revives op)) s.(lf_queue) (run_op env meshId now op s).(lf_queue).
Proof.
  intros Q W Ok. destruct op; cbn [run_op revives negb op_fits] in *.
  - apply (triple_released _ _ (fun _ => True)); auto. apply t_update; [destruct force; discriminate || auto | discriminate].
  - apply (triple_released _ _ _ _ _ (t_cancel env meshId now true taskId reason) Ok W).
  - apply (triple_released _ _ _ _ _ (t_requeue env meshId now taskId o) Ok W).
  - apply (triple_released _ _ (fun _ => True)); auto. apply t_park.
  - apply (triple_released _ _ (fun _ => True)); auto. apply t_sweep.
  - apply (triple_released _ _ (fun _ => True)); auto. apply t_orphan.
  - apply (triple_released _ _ (fun _ => True)); auto. apply t_host_requeue, Q.
  - apply (triple_released _ _ (fun _ => True)); auto. apply t_host_terminal, W.
Qed.

(** A step of the queue.  Beside claims and writers, the rest of the daemon
    inserts tasks and moves attempts, but gives no row a claim.  [sticky]: the
    step is not a decision to put an ended task back.  The rebinding of a
    refused claim and direct dispatches, which assign a row without the checks
    of a claim, are not among the steps. *)
Inductive life_step (meshId : string) (sticky : bool) (s : LifeStore) : LifeStore -> Prop :=
| life_claim env nodeId sessionId tags opts now r q :
    clean_id nodeId -> claimNextQueueTask env meshId nodeId sessionId tags opts now s.(lf_queue) = (r, q) ->
    life_step meshId sticky s (with_queue q s)
| life_op env now op :
    QuietEnv env meshId -> op_fits meshId op s.(lf_queue) -> (sticky = true -> revives op = false) ->
    life_step meshId sticky s (run_op env meshId now op s)
| life_outside s' :
    store_ok s'.(lf_queue) -> no_new_claims meshId s.(lf_queue) s'.(lf_queue) ->
    (forall r, In r s.(lf_queue).(cs_rows) -> ended r = true ->
      exists r', In r' s'.(lf_queue).(cs_rows) /\ r'.(rw_id) = r.(rw_id) /\ ended r' = true) ->
    life_step meshId sticky s s'.

Lemma life_step_exclusive meshId sticky s s' : life_step meshId sticky s s' ->
  store_ok s.(lf_queue) -> exclusive meshId s.(lf_queue) -> store_ok s'.(lf_queue) /\ exclusive meshId s'.(lf_queue).
Proof.
  intros [env nodeId sessionId tags opts now r q C E|env now op Q W _|s1 Ok' N _] Ok X.
  - exact (step_exclusive _ _ _ Ok X (step_claim _ _ _ _ _ _ _ _ _ _ C E)).
  - pose proof (op_releases env meshId now op s Q W Ok) as R. split; [exact (released_ok _ _ _ _ R Ok) | exact (exclusive_kept _ _ _ (rl_claims _ _ _ _ R) X)].
  - split; [exact Ok' | exact (exclusive_kept _ _ _ N X)].
Qed.

Lemma life_step_ok meshId sticky s s' : life_step meshId sticky s s' -> store_ok s.(lf_queue) -> store_ok s'.(lf_queue).
Proof.
  intros [env nodeId sessionId tags opts now r q C E|env now op Q W _|s1 Ok' N _] Ok; [| |exact Ok'].
  - destruct (refused_rows _ _ _ _ _ _ _ _ _ _ Ok E) as [(e & ->)|[F Et]].
    + exact (claim_store_ok _ _ _ _ _ _ _ _ _ _ Ok (claim_outcome _ _ _ _ _ _ _ _ _ _ E)).
    + exact (proj1 (held_step meshId _ _ Ok F Et)).
  - exact (released_ok _ _ _ _ (op_releases env meshId now op s Q W Ok) Ok).
Qed.

Lemma life_step_ended meshId s s' r : life_step meshId true s s' -> store_ok s.(lf_queue) ->
  In r s.(lf_queue).(cs_rows) -> ended r = true ->
  exists r', In r' s'.(lf_queue).(cs_rows) /\ r'.(rw_id) = r.(rw_id) /\ ended r' = true.
Proof.
  intros [env nodeId sessionId tags opts now c q C E|env now op Q W Rv|s1 Ok' N En] Ok I T; [| |exact (En r I T)].
  - cbn. unfold ended in *. assert (Held : forall r', held_row r r' -> rw_id r' = rw_id r /\ is_terminal_status (rw_status r') = true).
    { intros r' H. destruct (held_row_fields _ _ H) as (Ei & Es & _). rewrite Es. auto. }
    destruct (refused_rows _ _ _ _ _ _ _ _ _ _ Ok E) as [(e & ->)|[F _]].
    + pose proof (claim_outcome _ _ _ _ _ _ _ _ _ _ E) as Co.
      destruct (Forall2_In_l _ _ _ _ (claim_rows _ _ _ _ _ _ _ _ Ok _ _ Co) I) as (r' & I' & H). exists r'. split; [exact I'|].
      unfold queue_claim_row in H. case_decide as D; [exfalso | exact (Held _ H)].
      destruct (claimed_task _ _ _ _ _ _ _ _ _ _ Co) as (k & scope & Ik & _ & Ee).
      destruct (claimed_fields env meshId nodeId sessionId opts now (lf_queue s) k scope) as (Ei & _). rewrite <- Ee in Ei.
      destruct (row_of_candidate _ _ _ _ Ok k r Ik I ltac:(congruence)) as [_ Sp]. rewrite Sp in T. discriminate.
    + destruct (Forall2_In_l _ _ _ _ F I) as (r' & I' & H). exists r'. split; [exact I' | exact (Held _ H)].
  - specialize (Rv eq_refl). pose proof (op_releases env meshId now op s Q W Ok) as R. rewrite Rv in R. exact (rl_ended _ _ _ _ R eq_refl r I T).
Qed.


(** C16: An ended task stays ended until someone decides to put it back: no claim,
    late status write, reclaim, backoff, parking, sweep, cascade or terminal of
    the ledger makes it pending or assigned again. *)
Theorem ended_stays meshId s0 s taskId e0 : store_ok s0.(lf_queue) ->
  find_claimant taskId s0.(lf_queue) = Some e0 -> is_terminal_status e0.(ce_status) = true ->
  rtc (life_step meshId true) s0 s ->
  exists e, find_claimant taskId s.(lf_queue) = Some e /\ is_terminal_status e.(ce_status) = true.
Proof.
  intros Ok A T R. revert e0 A T. induction R as [|s1 s2 s3 St R IH]; intros e0 A T; [eauto|].
  pose proof (life_step_ok _ _ _ _ St Ok) as Ok2. apply (at_row_In _ _ _ Ok) in A as (r & I & Ei & <-).
  pose proof (so_synced _ Ok _ I) as S. rewrite (synced_status _ S) in T.
  destruct (life_step_ended _ _ _ _ St Ok I T) as (r' & I' & Ei' & T').
  apply (IH Ok2 r'.(rw_payload)).
  - apply at_row_In; [exact Ok2|]. exists r'. split; [exact I' | split; [congruence | reflexivity]].
  - rewrite (synced_status _ (so_synced _ Ok2 _ I')). exact T'.
Qed.

(** ** Budgets of requeues *)

Lemma dispatch_backoff_bounds n : 1 <= n -> DISPATCH_RETRY_BACKOFF_BASE_MS <= dispatch_backoff n <= DISPATCH_RETRY_BACKOFF_MAX_MS.
Proof.
  intros H. unfold dispatch_backoff, DISPATCH_RETRY_BACKOFF_BASE_MS, DISPATCH_RETRY_BACKOFF_MAX_MS.
  assert (1 <= 2 ^ (n - 1)) by (apply (Z.pow_le_mono_r 2 0 (n - 1)); lia). lia.
Qed.

Section Budgets.
Context (env : LifeEnv) (meshId : string) (now : Z).

Lemma write_answers e s e' s' : writeQueueEntry env meshId now e s = (inr e', s') ->
  e' = stamped env now (find_claimant e.(ce_id) s.(lf_queue)) e /\ s'.(lf_queue) = put_row e' s.(lf_queue).
Proof.
  intros E. destruct (write_cases env meshId now e s) as [(err & E')|E']; rewrite E' in E; [discriminate|]. injection E as <- <-. auto.
Qed.

(** The failure of a row by a policy of the queue. *)
Lemma commit_failed taskId e s r s' : store_ok s.(lf_queue) -> at_row taskId e s.(lf_queue) ->
  commitQueueTerminal env meshId now taskId st_failed src_queue_policy s = (inr r, s') ->
  s'.(lf_queue).(cs_turns) = s.(lf_queue).(cs_turns)
  /\ exists e', at_row taskId e' s'.(lf_queue)
       /\ (e'.(ce_status) = st_failed \/ is_stopping meshId s'.(lf_queue).(cs_turns) taskId = true).
Proof.
  intros Ok A. pose proof (at_row_id _ _ _ Ok A) as Ei. unfold commitQueueTerminal, commitRowTerminal, find_entry_of, mbind, life_bind. rewrite A.
  destruct (is_stopping _ _ _) eqn:St; [intros [= <- <-]; eauto|].
  destruct (bool_decide (ce_status e = st_failed)) eqn:D; [intros [= <- <-]; apply bool_decide_eq_true in D; cbn; eauto|].
  change (negb (bool_decide (src_queue_policy = src_queue_policy))) with false. cbn [andb].
  change (shouldHoldStageTerminal (stage_view e) st_failed) with false. cbv iota.
  unfold transaction, terminal_steps, mbind, life_bind, modifies. cbv beta iota zeta.
  destruct (writeQueueEntry _ _ _ _ _) as [[err|e1] s1] eqn:W; [discriminate|].
  apply write_answers in W as [E1 Q1]. intros [= <- <-]. cbn. rewrite Q1. split; [reflexivity|].
  assert (I1 : e1.(ce_id) = taskId) by (rewrite E1; exact Ei). exists e1. split; [|left; rewrite E1; reflexivity].
  rewrite <- I1. apply (find_put_same _ e). rewrite I1. exact A.
Qed.

Lemma fail_with_answers taskId p e reason s r s' : store_ok s.(lf_queue) -> at_row taskId p s.(lf_queue) -> e.(ce_id) = p.(ce_id) ->
  fail_with env meshId now e reason s = (inr r, s') ->
  exists e', at_row taskId e' s'.(lf_queue)
    /\ (e'.(ce_status) = st_failed \/ is_stopping meshId s'.(lf_queue).(cs_turns) taskId = true).
Proof.
  intros Ok A Ei. pose proof (at_row_id _ _ _ Ok A) as Ep. unfold fail_with, mbind, life_bind.
  destruct (writeQueueEntry _ _ _ _ _) as [[err|e1] s1] eqn:W; [discriminate|]. apply write_answers in W as [E1 Q1].
  assert (I1 : e1.(ce_id) = taskId) by (rewrite E1; cbn; congruence). rewrite I1.
  assert (Ok1 : store_ok s1.(lf_queue)) by (rewrite Q1; apply put_row_ok, Ok).
  assert (A1 : at_row taskId e1 s1.(lf_queue)) by (rewrite Q1, <- I1; apply (find_put_same _ p); rewrite I1; exact A).
  destruct (commitQueueTerminal _ _ _ _ _ _ _) as [[err|f] s2] eqn:C; [discriminate|].
  assert (Ok2 : store_ok s2.(lf_queue)).
  { refine (released_ok meshId false _ _ _ Ok1). pose proof (t_commit_queue env meshId now false (fun _ => True) taskId st_failed src_queue_policy eq_refl s1 Ok1 I) as [R _].
    rewrite C in R. exact R. }
  destruct (commit_failed _ _ _ _ _ Ok1 A1 C) as (_ & e2 & A2 & S2).
  destruct (propagate_run env meshId now taskId reason s2 Ok2) as (c & s3 & -> & Bl & Ca). intros [= <- <-]. exists e2.
  assert (Same : s3.(lf_queue).(cs_turns) = s2.(lf_queue).(cs_turns) /\ find_claimant taskId s3.(lf_queue) = find_claimant taskId s2.(lf_queue)).
  { destruct (resolveOnDependencyFailurePolicy _); [destruct (Bl eq_refl) as [_ ->]; auto|]. destruct (Ca eq_refl) as (c' & P & _).
    split; [apply P | apply P; auto]. }
  destruct Same as [-> Sf]. split; [unfold at_row; rewrite Sf; exact A2 | exact S2].
Qed.

(** What a requeue decides by: the budget it draws on, how much of it is
    spent, and how much there is. *)
Definition draws_dispatch (o : RequeueOptions) : bool := o.(ro_dispatchFailure) && negb o.(ro_force).

Definition exhausted (o : RequeueOptions) (entry : ClaimEntry) : Prop :=
  if draws_dispatch o then MAX_DISPATCH_FAILURES <= nullish entry.(ce_dispatchFailureCount) 0
  else o.(ro_force) = false /\ retry_limit o entry <= nullish entry.(ce_requeueCount) 0.

(** The row that was put back: pending, unbound, not parked, charged once. *)
Record put_back_row (o : RequeueOptions) (entry e : ClaimEntry) : Prop := {
  pb_status : e.(ce_status) = st_pending;
  pb_session : e.(ce_assignedSessionId) = None;
  pb_node : e.(ce_assignedNodeId) = None;
  pb_attempt : e.(ce_attemptId) = None;
  pb_parked : taskIsParked e = false;
  pb_charge : if draws_dispatch o
    then e.(ce_dispatchFailureCount) = Some (nullish entry.(ce_dispatchFailureCount) 0 + 1)
         /\ e.(ce_requeueCount) = entry.(ce_requeueCount)
         /\ (0 <= nullish entry.(ce_dispatchFailureCount) 0 ->
             exists wait, e.(ce_notBefore) = Some (env.(le_iso) (now + wait)) /\ 3000 <= wait <= 30000)
    else e.(ce_requeueCount) = Some (nullish entry.(ce_requeueCount) 0 + 1)
         /\ e.(ce_dispatchFailureCount) = entry.(ce_dispatchFailureCount) }.

Lemma relative_wait n : 1 <= n -> exists wait,
  not_before env now (Some (At_number (dispatch_backoff n))) = Some (env.(le_iso) (now + wait)) /\ 3000 <= wait <= 30000.
Proof.
  intros H. pose proof (dispatch_backoff_bounds n H) as B. unfold DISPATCH_RETRY_BACKOFF_BASE_MS, DISPATCH_RETRY_BACKOFF_MAX_MS in B.
  exists (dispatch_backoff n). split; [|exact B]. unfold not_before, resolveNotBefore. cbn.
  rewrite (proj2 (Z.ltb_lt _ _)) by (unfold NOT_BEFORE_RELATIVE_THRESHOLD_MS; lia). cbn. rewrite (proj2 (Z.leb_gt _ _)) by lia. reflexivity.
Qed.

Lemma charged_row taskId o entry retirement s r s' : store_ok s.(lf_queue) -> at_row taskId entry s.(lf_queue) ->
  (if draws_dispatch o then requeue_dispatch env meshId now o (abandoned retirement entry)
   else requeue_retry env meshId now o (abandoned retirement entry)) s = (inr r, s') ->
  exists e, at_row taskId e s'.(lf_queue)
    /\ (~ exhausted o entry /\ put_back_row o entry e
        \/ exhausted o entry /\ (e.(ce_status) = st_failed \/ is_stopping meshId s'.(lf_queue).(cs_turns) taskId = true)).
Proof.
  intros Ok A. unfold exhausted. destruct (draws_dispatch o) eqn:D; [unfold requeue_dispatch | unfold requeue_retry]; case_match eqn:B; intros E.
  - destruct (fun h => fail_with_answers _ _ _ _ _ _ _ Ok A h E) as (e & Ae & S); [reflexivity|]. exists e. split; [exact Ae|]. right. split; [|exact S].
    cbn in B. apply Z.ltb_lt in B. lia.
  - apply write_answers in E as [Er Q]. cbn in Er. exists r. split.
    { assert (Ir : r.(ce_id) = taskId) by (rewrite Er; exact (at_row_id _ _ _ Ok A)). rewrite Q, <- Ir. apply (find_put_same _ entry). rewrite Ir. exact A. }
    left. cbn in B. apply Z.ltb_ge in B. split; [lia|]. rewrite Er. split; try reflexivity. rewrite D. repeat split. intros N. apply relative_wait. lia.
  - destruct (fun h => fail_with_answers _ _ _ _ _ _ _ Ok A h E) as (e & Ae & S); [reflexivity|]. exists e. split; [exact Ae|]. right. split; [|exact S].
    apply andb_true_iff in B as [B1 B2]. apply negb_true_iff in B1. apply Z.leb_le in B2. auto.
  - apply write_answers in E as [Er Q]. cbn in Er. exists r. split.
    { assert (Ir : r.(ce_id) = taskId) by (rewrite Er; exact (at_row_id _ _ _ Ok A)). rewrite Q, <- Ir. apply (find_put_same _ entry). rewrite Ir. exact A. }
    left. split; [|rewrite Er; split; try reflexivity; rewrite D; split; reflexivity].
    intros [F L]. rewrite F in B. apply Z.leb_gt in B. cbn in B. unfold retry_limit in *. cbn in B. lia.
Qed.
End Budgets.


(** ** A small queue, worked on *)

(** A ledger that ends the attempt it is told to cancel, unless its writer is
    being stopped. *)
Definition end_attempt (attempt : TurnAttempt) (turns : Db) : Db :=
  {| turns with db_attempts := map (fun r =>
       if bool_decide (ra_attempt_id r = a_attemptId attempt) && negb (bool_decide (ra_state r = St_stopping))
       then {| r with ra_state := St_cancelled |} else r) turns.(db_attempts) |}.

Definition ending_ledger : LedgerPort := {|
  lp_selfDaemonId := "d1";
  lp_cancel := fun attempt _ s => let q := s.(lf_queue) in
    (true, with_queue {| q with cs_turns := end_attempt attempt q.(cs_turns) |} s) |}.

(** Times are written in decimal. *)
Definition digits_value (s : string) : option Z :=
  if bool_decide (s = "1000") then Some 1000 else if bool_decide (s = "2000") then Some 2000 else None.

Definition small_env (policy : string) : LifeEnv := {|
  le_iso := fun t => pretty t; le_parseDate := digits_value; le_policy := Some policy;
  le_ledger := Some ending_ledger; le_closeSibling := fun _ _ s => s |}.

Lemma end_attempt_active meshId attempt q row :
  active_claim meshId {| q with cs_turns := end_attempt attempt q.(cs_turns) |} row = active_claim meshId q row.
Proof.
  unfold active_claim, has_stopping_attempt, end_attempt. cbn. f_equal. induction (db_attempts (cs_turns q)) as [|r l IH]; [reflexivity|]. cbn.
  rewrite IH. f_equal. destruct (bool_decide (ra_state r = St_stopping)) eqn:S; [rewrite andb_false_r, S; reflexivity|].
  destruct (_ && negb false); cbn; rewrite ?S, !andb_false_r; reflexivity.
Qed.

Lemma end_attempt_claims meshId attempt q : no_new_claims meshId q {| q with cs_turns := end_attempt attempt q.(cs_turns) |}.
Proof. split; intros r' x I A; rewrite end_attempt_active in A; eauto 10. Qed.

#[global] Instance small_env_quiet policy meshId : QuietEnv (small_env policy) meshId.
Proof.
  split; cbn; intros; try reflexivity; try (split; reflexivity);
    match goal with H : Some _ = Some _ |- _ => injection H as <- end.
  - apply same_rows_released; [reflexivity | apply end_attempt_claims].
  - split; [reflexivity|]. split; [apply end_attempt_claims|]. intros t S row I Ei. destruct (S row I Ei) as [A|U]; [left | right; exact U].
    rewrite <- A. apply end_attempt_active.
Qed.

Definition small_life : LifeStore := {| lf_queue := small_queue; lf_outputs := []; lf_hooks := []; lf_notices := []; lf_inFlight := [] |}.

Definition settled_rows (meshId taskId : string) (q : ClaimStore) : bool :=
  forallb (fun row => negb (bool_decide (row.(rw_id) = taskId)) || active_claim meshId q row
    || bool_decide (row.(rw_assignedSessionId) = None) && bool_decide (row.(rw_assignedNodeId) = None)) q.(cs_rows).

Lemma settled_rows_dec meshId taskId q : settled_rows meshId taskId q = true -> settled_row meshId taskId q.
Proof.
  unfold settled_rows. rewrite forallb_forall. intros H row I Ei. specialize (H row I).
  rewrite !orb_true_iff, negb_true_iff, bool_decide_eq_false, andb_true_iff, !bool_decide_eq_true in H. tauto.
Qed.

Definition the_owner : Owner := {| ow_handedOff := false; ow_member := false |}.

Definition plain_requeue : RequeueOptions := {|
  ro_reason := Some "retry"; ro_targetNodeId := None; ro_targetSessionId := None; ro_clearTargetNode := false;
  ro_clearTargetSession := None; ro_force := false; ro_maxRetries := None; ro_notBefore := None; ro_dispatchFailure := false;
  ro_message := None; ro_owner := the_owner |}.

(** The busy task is put back, then its budget is spent and it fails. *)
Example small_requeue :
  let s1 := run_op (small_env "block") "mesh" 1000 (Op_requeue "busy" plain_requeue) small_life in
  let s2 := run_op (small_env "block") "mesh" 2000 (Op_requeue "busy" plain_requeue) s1 in
  (ce_status <$> find_claimant "busy" s1.(lf_queue), ce_requeueCount <$> find_claimant "busy" s1.(lf_queue),
   ce_status <$> find_claimant "busy" s2.(lf_queue)) = (Some st_pending, Some (Some 1), Some st_failed).
Proof. vm_compute. reflexivity. Qed.


(** The old task is cancelled; late writers do not bring it back. *)
Lemma ended_stays_witness :
  let s0 := run_op (small_env "block") "mesh" 1000 (Op_cancel "old" None) small_life in
  let s1 := run_op (small_env "block") "mesh" 2000 (Op_status "old" false the_owner) s0 in
  let s2 := run_op (small_env "block") "mesh" 2000 (Op_host_requeue "old" "dispatch_failed" "2000") s1 in
  exists e, find_claimant "old" s2.(lf_queue) = Some e /\ is_terminal_status e.(ce_status) = true.
Proof.
  intros s0 s1 s2.
  assert (Ok : store_ok s0.(lf_queue)) by exact (released_ok _ _ _ _ (op_releases (small_env "block") "mesh" 1000 (Op_cancel "old" None) small_life _ (settled_rows_dec "mesh" "old" small_queue eq_refl) small_ok) small_ok).
  assert (A : exists e0, find_claimant "old" s0.(lf_queue) = Some e0 /\ is_terminal_status e0.(ce_status) = true) by (vm_compute; eauto).
  destruct A as (e0 & A & T). apply (ended_stays "mesh" s0 s2 "old" e0 Ok A T).
  apply (rtc_l _ _ s1); [apply life_op; [apply _ | exact I | reflexivity]|].
  apply (rtc_l _ _ s2); [apply life_op; [apply _ | exact I | reflexivity] | apply rtc_refl].
Defined.

Lemma cascade_exact_witness : exists cancelled s',
  propagateDependencyFailure (small_env "cancel") "mesh" 1000 "old" None small_life = (inr cancelled, s')
  /\ map ce_id cancelled = ["blocked"] /\ tc (waits small_queue) "old" "blocked".
Proof.
  destruct (cascade_exact (small_env "cancel") "mesh" 1000 "old" None small_life small_ok) as (cancelled & s' & E & R).
  exists cancelled, s'. split; [exact E|]. cbn in R. destruct R as (_ & R & _).
  assert (Ids : map ce_id cancelled = ["blocked"]).
  { assert (H : forall r, (propagateDependencyFailure (small_env "cancel") "mesh" 1000 "old" None small_life).1 = r -> r = inr cancelled ->
      match r with inr l => map ce_id l | inl _ => [] end = map ce_id cancelled) by (intros r _ ->; reflexivity).
    rewrite <- (H _ eq_refl) by (rewrite E; reflexivity). vm_compute. reflexivity. }
  split; [exact Ids|]. apply R. rewrite Ids. left. reflexivity.
Defined.


(** The sweep of a forgotten parked task fails it, and the notice to the
    coordinator says that tasks that depend on it are unblocked.  Under the
    default policy they are not: they stay pending and no claim admits them. *)
Example swept_dependents_wait :
  let s1 := run_op (small_env "block") "mesh" 1000 (Op_park "old" (Some "spawn_cap") true the_owner) small_life in
  let s2 := run_op (small_env "block") "mesh" (1000 + PARKED_TASK_RETENTION_MS) (Op_sweep "old" None the_owner) s1 in
  ce_status <$> find_claimant "old" s2.(lf_queue) = Some st_failed
  /\ ce_status <$> find_claimant "blocked" s2.(lf_queue) = Some st_pending
  /\ dependenciesSatisfied calm_env "n1" "s1" small_options s2.(lf_queue) blocked_task = false.
Proof. vm_compute. auto. Qed.

(** A status write to [pending] leaves the row bound to its session.  The
    session is then free to claim another task; when the attempt of the first
    is stopped, both rows hold a claim of the one session. *)
Definition stopping_turns (taskId : string) : Db :=
  let r := row_of_attempt stopped_attempt 0 no_extras in
  let db := empty_db in
  {| db with db_attempts := [{| r with ra_mesh_id := Some "mesh"; ra_task_id := Some taskId |}] |}.

Lemma small_claim_step sessionId q : queue_step "mesh" q (small_claim sessionId q).2.
Proof.
  destruct (small_claim sessionId q) as [r q'] eqn:E.
  exact (step_claim "mesh" q calm_env "n1" sessionId [] small_options 1000 r q' eq_refl E).
Qed.

Theorem stale_binding_shared :
  let s1 := run_op (small_env "block") "mesh" 1000 (Op_status "busy" false the_owner) small_life in
  let q2 := (small_claim "s2" s1.(lf_queue)).2 in
  let q3 := {| q2 with cs_turns := stopping_turns "busy" |} in
  exclusive "mesh" q2 /\ ~ exclusive "mesh" q3.
Proof.
  intros s1 q2 q3. split.
  - assert (Ok : store_ok s1.(lf_queue)) by exact (released_ok _ _ _ _ (op_releases (small_env "block") "mesh" 1000 (Op_status "busy" false the_owner) small_life _ Logic.I small_ok) small_ok).
    assert (X : exclusive "mesh" s1.(lf_queue)) by exact (exclusive_kept _ _ _ (rl_claims _ _ _ _ (op_releases (small_env "block") "mesh" 1000 (Op_status "busy" false the_owner) small_life _ Logic.I small_ok)) small_exclusive).
    exact (proj2 (step_exclusive "mesh" s1.(lf_queue) q2 Ok X (small_claim_step "s2" s1.(lf_queue)))).
  - assert (Rows : map (fun r => (rw_id r, active_claim "mesh" q3 r, rw_assignedSessionId r)) q3.(cs_rows)
      = [("busy", true, Some "s2"); ("old", false, None); ("blocked", false, None); ("urgent", true, Some "s2")]) by (vm_compute; reflexivity).
    intros [X _]. clearbody q3. destruct (cs_rows q3) as [|r1 [|r2 [|r3 [|r4 [|? ?]]]]] eqn:Q; try discriminate Rows.
    injection Rows as E1 A1 S1 _ _ _ _ _ _ E4 A4 S4.
    pose proof (X r1 r4 "s2" ltac:(cbn; auto) ltac:(cbn; auto) A1 A4 S1 S4). congruence.
Qed.
