(* ===== verification/QueueEnqueue.v ===== *)
(** * Tasks that enter the queue

    daemon-core/src/mesh/mesh-work-queue-enqueue.ts: the writers that create
    rows ([enqueueTask], the atomic batch, the row of a direct dispatch), with
    the store's [insertQueueEntry], the mode rules of
    mesh-task-mode-guardrail.ts, the artifacts a task inherits
    (mesh-input-artifacts.ts) and mesh-task-revision.ts with
    mesh-active-ownership.ts, which change a row under its revision number.

    Untyped options are JSON values.  Parameters stand for random ids, the text
    lint of read-only tasks, the presets of the configuration, the tags of the
    contract runtime, the missions and artifacts of other tables, and the order
    of strings of the locale.  Error texts are their codes. *)

From stdpp Require Import relations.
From S2P Require Import Prelude DaemonId PathOwnership PhaseGraph KeyedDoc TurnEvidence TurnPolicy TurnTypes TurnStore StageTypes StagePipeline StageRows.
From S2P Require Import QueueTypes QueueOwnership QueueClaim QueueFacts QueueTheorems QueueOrder QueueLife.

#[local] Open Scope Z_scope.

(** ** Values *)

Definition string_of_value (v : DVal) : string := match v with D_str s => js_trim s | _ => "" end.

Definition normalizeDependsOn (value : DVal) : list string :=
  match value with
  | D_arr l => first_occurrences [] (List.filter filled (map string_of_value l))
  | _ => []
  end.

Definition normalizeInputArtifactIds (value : DVal) : list string := normalizeDependsOn value.

(** A stored list of ids. *)
Definition ids_value (l : option (list string)) : DVal := match l with Some l => D_arr (map D_str l) | None => D_undefined end.

(** [typeof v === 'string' && v.trim() ? v.trim() : undefined]. *)
Definition trimmed_text (v : option string) : option string :=
  if filled (read_text v) then Some (read_text v) else None.

Definition MESH_TASK_DIFFICULTIES : list string := ["easy"; "medium"; "difficult"; "freeform"].
Definition MESH_TASK_MODES : list string := ["code_change"; "validation"; "live_debug_readonly"; "launch_app"; "convergence"].
Definition MESH_TASK_PRIORITIES : list string := ["low"; "normal"; "high"].

Definition guard_member (members : list string) (v : DVal) : option string :=
  match v with D_str s => if bool_decide (s ∈ members) then Some s else None | _ => None end.

Definition isMeshTaskDifficulty (v : DVal) : bool := present (guard_member MESH_TASK_DIFFICULTIES v).

Definition normalizeMeshTaskPriority (v : DVal) : option string := guard_member MESH_TASK_PRIORITIES v.

Definition normalizeMeshTaskMode (v : DVal) : option string :=
  match v with D_str s => guard_member MESH_TASK_MODES (D_str (js_trim s)) | _ => None end.

Definition assertMeshTaskDifficulty (v : DVal) : string + string :=
  match v with
  | D_undefined | D_null => inl "missing_task_difficulty"
  | D_str s => if negb (filled (js_trim s)) then inl "missing_task_difficulty"
               else match guard_member MESH_TASK_DIFFICULTIES v with Some d => inr d | None => inl "invalid_task_difficulty" end
  | _ => inl "invalid_task_difficulty"
  end.

Definition assertLightEnqueueShape (taskMode : option string) (readonly : bool) (ownedPaths : raw_paths) : option string :=
  if readonly || (truthy_str taskMode && negb (bool_decide (taskMode = Some "code_change"))) then Some "light_mode_conflict"
  else match ownedPaths with PathArray (_ :: _) => None | _ => Some "light_requires_owned_paths" end.

(** ** Modes *)

Record MeshTaskModeValidationResult : Set := { mv_taskMode : option string; mv_violations : list string }.

Definition mv_valid (r : MeshTaskModeValidationResult) : bool := match r.(mv_violations) with [] => true | _ => false end.

(** [lint]: the labels of the operations a text orders that a read-only task
    must not perform. *)
Definition validateMeshTaskModeRequest (lint : string -> list string) (mode : DVal) (message : string) (readonly : bool)
  : MeshTaskModeValidationResult :=
  let taskMode := normalizeMeshTaskMode mode in
  {| mv_taskMode := taskMode; mv_violations := if task_readonly (Some readonly) taskMode then lint message else [] |}.

(** ** Artifacts a task inherits *)

Record InheritableArtifact : Set := {
  ia_artifactId : string; ia_taskId : option string; ia_meshId : option string; ia_missionId : option string;
  ia_producerRole : option string; ia_createdAt : Z }.

(** [ar_table] in rowid order; [ar_carryOver]: the mission is a bucket of
    leftovers; [ar_localeLe a b]: [a.localeCompare(b) <= 0]. *)
Record ArtifactEnv : Type := {
  ar_table : list InheritableArtifact;
  ar_carryOver : string -> bool;
  ar_localeLe : string -> string -> bool }.

Definition MAX_INHERITED_INPUT_ARTIFACTS : Z := 12.
Definition MISSION_SCAN_LIMIT : nat := 200.
Definition INHERIT_FROM_STATUSES : list MeshTaskStatus := [st_completed; st_failed; st_blocked].

Definition isSameBoundMesh (recordMeshId taskMeshId : option string) : bool :=
  filled (read_text recordMeshId) && bool_decide (read_text recordMeshId = read_text taskMeshId).

Definition isArtifactInheritanceEnabled (inheritArtifacts inherit_artifacts : DVal) : bool :=
  negb (bool_decide (dval_or inheritArtifacts inherit_artifacts = D_bool false)).

Definition mergeInputArtifactIds (explicit inherited : list string) : list string :=
  first_occurrences [] (List.filter filled (map js_trim (explicit ++ inherited))).

Definition newest_first (a b : InheritableArtifact) : Prop := b.(ia_createdAt) <= a.(ia_createdAt).
#[global] Instance newest_first_dec a b : Decision (newest_first a b) := decide (b.(ia_createdAt) <= a.(ia_createdAt)).

Section Artifacts.
Context (ar : ArtifactEnv).

(** Newest first; ties by id, the later one first. *)
Definition inherit_order (a b : InheritableArtifact) : Prop :=
  (b.(ia_createdAt) <? a.(ia_createdAt))
  || (b.(ia_createdAt) =? a.(ia_createdAt)) && ar.(ar_localeLe) b.(ia_artifactId) a.(ia_artifactId) = true.
#[global] Instance inherit_order_dec a b : Decision (inherit_order a b).
Proof. unfold inherit_order. apply _. Defined.

Definition queue_entries (q : ClaimStore) : list ClaimEntry := map rw_payload (order_by (by_id rw_createdAt) q.(cs_rows)).

(** The statuses of the tasks of a mission. *)
Definition missionTaskStatus (mission : string) (q : ClaimStore) : jsmap MeshTaskStatus :=
  map_of (map (fun e => (e.(ce_id), e.(ce_status)))
    (List.filter (fun e => bool_decide (read_text e.(ce_missionId) = mission)) (queue_entries q))).

Definition inherit_eligible (mesh mission excludeTask : string) (exclude : list string) (statuses : jsmap MeshTaskStatus)
    (rec : InheritableArtifact) : bool :=
  isSameBoundMesh rec.(ia_meshId) (Some mesh) && bool_decide (read_text rec.(ia_missionId) = mission)
  && negb (bool_decide (rec.(ia_artifactId) ∈ exclude))
  && bool_decide (read_text rec.(ia_producerRole) ∈ ["worker"; "pipeline"])
  && (let producerTask := read_text rec.(ia_taskId) in
      filled producerTask && negb (bool_decide (producerTask = excludeTask))
      && match map_get producerTask statuses with Some st => bool_decide (st ∈ INHERIT_FROM_STATUSES) | None => false end).

Definition listInheritableArtifacts (meshId missionId : string) (excludeTaskId : option string) (excludeIds : list string)
    (limit : option Z) (q : ClaimStore) : list InheritableArtifact :=
  let mesh := js_trim meshId in
  let mission := js_trim missionId in
  if negb (filled mesh) || negb (filled mission) then [] else
  let limit := Z.max 0 (Z.min (nullish limit MAX_INHERITED_INPUT_ARTIFACTS) MAX_INHERITED_INPUT_ARTIFACTS) in
  if (limit =? 0) || ar.(ar_carryOver) mission then [] else
  let records := take MISSION_SCAN_LIMIT (order_by newest_first (rev (List.filter (fun r =>
    bool_decide (r.(ia_missionId) = Some mission) && bool_decide (r.(ia_meshId) = Some mesh)) ar.(ar_table)))) in
  let eligible := List.filter (inherit_eligible mesh mission (read_text excludeTaskId) (map js_trim excludeIds)
    (missionTaskStatus mission q)) records in
  take (Z.to_nat limit) (order_by inherit_order eligible).

Definition resolveInheritedArtifactIds (meshId : string) (missionId : option string) (excludeTaskId : option string)
    (explicit : list string) (q : ClaimStore) : list string :=
  if negb (filled (read_text missionId)) then []
  else map ia_artifactId (listInheritableArtifacts meshId (nullish missionId "") excludeTaskId explicit None q).
End Artifacts.

(** ** Dependency cycles *)

(** The depth-first walk over prerequisites; the head of the list is the top of
    the stack.  [Some true]: the walk met the task; [None]: out of fuel. *)
Fixpoint cycle_walk (fuel : nat) (adjacency : jsmap (list string)) (taskId : string) (stack visited : list string) : option bool :=
  match stack with
  | [] => Some false
  | current :: stack =>
      match fuel with
      | O => None
      | S fuel =>
          if bool_decide (current = taskId) then Some true
          else if bool_decide (current ∈ visited) then cycle_walk fuel adjacency taskId stack visited
          else cycle_walk fuel adjacency taskId (rev (nullish (map_get current adjacency) []) ++ stack) (current :: visited)
      end
  end.

(** Every prerequisite is pushed once. *)
Definition walk_fuel (adjacency : jsmap (list string)) (dependsOn : list string) : nat :=
  length dependsOn + list_sum (map (fun p => length p.2) adjacency).

Definition reaches_itself (adjacency : jsmap (list string)) (taskId : string) (dependsOn : list string) : option bool :=
  cycle_walk (walk_fuel adjacency dependsOn) adjacency taskId (rev dependsOn) [].

Definition queue_adjacency (taskId : string) (dependsOn : list string) (q : ClaimStore) : jsmap (list string) :=
  map_set taskId dependsOn
    (map_of (map (fun e => (e.(ce_id), normalizeDependsOn (ids_value e.(ce_dependsOn)))) (queue_entries q))).

Definition assertNoDependencyCycle (newTaskId : string) (dependsOn : list string) : Life unit := fun s =>
  match dependsOn with
  | [] => (inr tt, s)
  | _ =>
      if bool_decide (newTaskId ∈ dependsOn) then fails "dependency_cycle_detected" s
      else match reaches_itself (queue_adjacency newTaskId dependsOn s.(lf_queue)) newTaskId dependsOn with
           | Some false => (inr tt, s)
           | Some true => fails "dependency_cycle_detected" s
           | None => fails "out of fuel" s
           end
  end.

(** ** Inserting *)

(** A new row in the table; the id is its key. *)
Definition insertQueueEntry (createdAt : string) (entry : ClaimEntry) : Life unit := fun s =>
  let q := s.(lf_queue) in
  if graph_refused (map phase_entry (queue_entries q ++ [entry])) then fails "source_dependency_graph" s
  else if bool_decide (entry.(ce_id) ∈ map rw_id q.(cs_rows)) then fails "UNIQUE constraint failed: mesh_queue.id" s
  else (inr tt, {| s with lf_queue := {| q with cs_rows := (q.(cs_rows) ++ [toRow createdAt entry])%list |} |}).

(** ** Options *)

Record StageChildOptions : Set := {
  sco_parentTaskId : string; sco_round : Z; sco_review : MeshReviewConstraint; sco_reviewerWorkspace : option string }.

Record EnqueueOptions : Type := {
  eo_id : option string;
  eo_targetNodeId : option string;
  eo_targetSessionId : option string;
  eo_inputParts : list string;
  eo_taskMode : DVal;
  eo_readonly : bool;
  eo_light : bool;
  eo_lightBaseNodeId : option string;
  eo_requiredTags : option (list string);
  eo_ownedPaths : raw_paths;
  eo_dependsOn : DVal;
  eo_priority : DVal;
  eo_notBefore : option NotBefore;
  eo_maxRetries : option Z;
  eo_missionId : option string;
  eo_inputArtifactIds : DVal;
  eo_input_artifact_ids : DVal;
  eo_inheritArtifacts : DVal;
  eo_inherit_artifacts : DVal;
  eo_model : option string;
  eo_thinkingLevel : option string;
  eo_difficulty : DVal;
  eo_review : DVal;
  eo_stageChild : option StageChildOptions;
  eo_sourceCoordinatorSessionId : option string;
  eo_owner : Owner }.

Record BrainSlot : Set := { br_model : option string; br_thinkingLevel : option string }.

(** [nv_brains]: the preset of a difficulty, none when the configuration cannot
    be read; [nv_contractTags taskId missionId dependsOn]: tags of the contract
    runtime. *)
Record EnqueueEnv : Type := {
  nv_life : LifeEnv;
  nv_artifacts : ArtifactEnv;
  nv_uuid : nat -> string;
  nv_lint : string -> list string;
  nv_brains : string -> option BrainSlot;
  nv_contractTags : string -> option string -> list string -> list string }.

(** A value of the caller, else the preset's. *)
Definition with_preset (explicit preset : option string) : option (string * ValueSource) :=
  match trimmed_text explicit with
  | Some v => Some (v, from_caller)
  | None => if truthy_str preset then (fun p => (p, from_preset)) <$> preset else None
  end.

(** What is decided before the transaction. *)
Record Admission : Type := {
  am_message : string; am_readonly : bool; am_mode : option string; am_difficulty : string; am_plan : option MeshTaskStagePlan }.

Section Enqueue.
Context (nv : EnqueueEnv) (meshId : string) (now : Z).

Notation iso := (nv.(nv_life).(le_iso) now).

Definition admit_enqueue (message : option string) (o : EnqueueOptions) : string + Admission :=
  let message := read_text message in
  if negb (filled message) then inl "mesh task message must be a non-empty string" else
  let readonly := present o.(eo_stageChild) || o.(eo_readonly) in
  let mode := match o.(eo_stageChild) with
    | Some _ => {| mv_taskMode := Some "validation"; mv_violations := [] |}
    | None => validateMeshTaskModeRequest nv.(nv_lint) o.(eo_taskMode) message readonly
    end in
  if negb (mv_valid mode) then inl "live_debug_readonly_guardrail_violation" else
  match if o.(eo_light) then assertLightEnqueueShape mode.(mv_taskMode) readonly o.(eo_ownedPaths) else None with
  | Some code => inl code
  | None =>
      match assertMeshTaskDifficulty o.(eo_difficulty) with
      | inl code => inl code
      | inr difficulty =>
          match if present o.(eo_stageChild) then inr None
                else resolveStagePlan o.(eo_review)
                  {| pd_taskMode := mode.(mv_taskMode); pd_difficulty := Some difficulty; pd_readonly := Some readonly |} (Some false) with
          | inl _ => inl "invalid_review_option"
          | inr plan =>
              if present plan && o.(eo_light) then inl "light_review_unsupported"
              else inr {| am_message := message; am_readonly := readonly; am_mode := mode.(mv_taskMode);
                          am_difficulty := difficulty; am_plan := plan |}
          end
      end
  end.

Definition enqueue_id (o : EnqueueOptions) : string := nullish (trimmed_text o.(eo_id)) (nv.(nv_uuid) 0%nat).

Definition declared_paths (raw : raw_paths) : option OwnedPathsDeclaration :=
  let d := (normalizeOwnedPaths raw).(nr_declaration) in match d.(od_paths) with [] => None | _ => Some d end.

Definition non_empty {A} (l : list A) : option (list A) := match l with [] => None | _ => Some l end.

(** The artifacts of a new task. *)
Definition input_artifacts (taskId : string) (inherit : bool) (missionId : option string) (explicit : list string) (q : ClaimStore) : list string :=
  match inherit, missionId with
  | true, Some mission =>
      mergeInputArtifactIds explicit (resolveInheritedArtifactIds nv.(nv_artifacts) meshId (Some mission) (Some taskId) explicit q)
  | _, _ => explicit
  end.

Definition required_tags (taskId : string) (missionId : option string) (dependsOn : list string) (callerTags : option (list string)) : list string :=
  let callerTags := normalizeMeshCapabilityTags callerTags in
  match nv.(nv_contractTags) taskId missionId dependsOn with
  | [] => callerTags
  | contractTags => normalizeMeshCapabilityTags (Some (callerTags ++ contractTags))
  end.

Definition enqueue_entry (a : Admission) (o : EnqueueOptions) (q : ClaimStore) : ClaimEntry :=
  let id := enqueue_id o in
  let dependsOn := normalizeDependsOn o.(eo_dependsOn) in
  let missionId := trimmed_text o.(eo_missionId) in
  let inherit := isArtifactInheritanceEnabled o.(eo_inheritArtifacts) o.(eo_inherit_artifacts) in
  let explicit := normalizeInputArtifactIds (dval_or o.(eo_inputArtifactIds) o.(eo_input_artifact_ids)) in
  let priority := normalizeMeshTaskPriority o.(eo_priority) in
  let preset := nv.(nv_brains) a.(am_difficulty) in
  {| ce_id := id; ce_message := a.(am_message); ce_status := st_pending; ce_parked := None;
     ce_taskMode := a.(am_mode); ce_readonly := if a.(am_readonly) then Some true else None;
     ce_light := o.(eo_light); ce_lightWorkspaceId := None;
     ce_targetNodeId := o.(eo_targetNodeId); ce_targetSessionId := o.(eo_targetSessionId);
     ce_requiredTags := Some (required_tags id missionId dependsOn o.(eo_requiredTags));
     ce_priority := if bool_decide (priority = Some "normal") then None else priority;
     ce_notBefore := not_before nv.(nv_life) now o.(eo_notBefore);
     ce_dependsOn := non_empty dependsOn; ce_difficulty := Some a.(am_difficulty); ce_phase := None; ce_revision := None;
     ce_ownedPaths := declared_paths o.(eo_ownedPaths); ce_ownershipScope := None; ce_logicalOverlapWarnings := None;
     ce_review := sco_review <$> o.(eo_stageChild); ce_reviewInputScope := None;
     ce_reviewerWorkspace := o.(eo_stageChild) ≫= sco_reviewerWorkspace;
     ce_stagePlan := a.(am_plan); ce_stageState := (fun _ => initialStageState iso) <$> a.(am_plan);
     ce_origin := if present o.(eo_stageChild) then Some "stage" else (fun _ => "coordinator") <$> a.(am_plan);
     ce_parentTaskId := sco_parentTaskId <$> o.(eo_stageChild);
     ce_stageRole := (fun _ => "review") <$> o.(eo_stageChild);
     ce_assignedNodeId := None; ce_assignedSessionId := None; ce_assignedProviderType := None; ce_assignedModel := None;
     ce_assignedTranscriptProfile := None; ce_attemptId := None; ce_dispatchTimestamp := None; ce_dispatchNonce := None;
     ce_claimRefusedCount := None; ce_autoLaunch := None; ce_autoLaunchUnclaimedCount := None;
     ce_autoLaunchDispatchFailedCount := None; ce_quotaGateOverride := None; ce_hold := None; ce_holdNoticeId := None;
     ce_cancelReason := None; ce_cancelledAt := None; ce_requeueReason := None; ce_requeuedAt := None; ce_requeueCount := None;
     ce_maxRetries := o.(eo_maxRetries) ≫= (fun m => if 0 <=? m then Some m else None); ce_dispatchFailureCount := None;
     ce_stageRound := sco_round <$> o.(eo_stageChild); ce_missionId := missionId;
     ce_inputArtifactIds := non_empty (input_artifacts id inherit missionId explicit q);
     ce_inheritArtifacts := if inherit then None else Some false;
     ce_lightBaseNodeId := if o.(eo_light) then trimmed_text o.(eo_lightBaseNodeId) else None;
     ce_model := with_preset o.(eo_model) (preset ≫= br_model);
     ce_thinkingLevel := with_preset o.(eo_thinkingLevel) (preset ≫= br_thinkingLevel);
     ce_sourceCoordinatorSessionId := trimmed_text o.(eo_sourceCoordinatorSessionId); ce_inputParts := o.(eo_inputParts);
     ce_routingPreferences := None; ce_revisionHistory := []; ce_updatedAt := iso |}.

(** The transaction of [enqueueTask]. *)
Definition enqueue_row (a : Admission) (o : EnqueueOptions) : Life ClaimEntry :=
  let id := enqueue_id o in
  found ← reads (find_entry_of id);
  if present found then fails "duplicate_task_id" else
  assertNoDependencyCycle id (normalizeDependsOn o.(eo_dependsOn)) ;;
  entry ← reads (fun s => enqueue_entry a o s.(lf_queue));
  insertQueueEntry iso entry ;;
  mret entry.

Definition enqueueTask (message : option string) (o : EnqueueOptions) : Life ClaimEntry :=
  requireMeshHostQueueOwner o.(eo_owner) ;;
  match admit_enqueue message o with
  | inl code => fails code
  | inr a => transaction (enqueue_row a o)
  end.

(** ** Batches *)

Record TaskBatchEntrySpec : Type := { bs_ref : option string; bs_message : option string; bs_options : EnqueueOptions }.

Definition MESH_TASK_BATCH_MAX_TASKS : nat := 50.

(** The ids of the labels of a batch, none when a label is used twice. *)
Fixpoint batch_refs (ids : list string) (specs : list TaskBatchEntrySpec) (idByRef : jsmap string) : option (jsmap string) :=
  match specs, ids with
  | spec :: specs, id :: ids =>
      let ref := read_text spec.(bs_ref) in
      if negb (filled ref) then batch_refs ids specs idByRef
      else if present (map_get ref idByRef) then None
      else batch_refs ids specs (map_set ref id idByRef)
  | _, _ => Some idByRef
  end.

Definition resolve_dep (idByRef : jsmap string) (dep : string) : Life string :=
  match map_get dep idByRef with
  | Some id => if filled id then mret id
               else found ← reads (find_entry_of dep); if present found then mret dep else fails "unknown_dependency"
  | None => found ← reads (find_entry_of dep); if present found then mret dep else fails "unknown_dependency"
  end.

Fixpoint resolve_deps (idByRef : jsmap string) (deps : list string) : Life (list string) :=
  match deps with
  | [] => mret []
  | dep :: deps => id ← resolve_dep idByRef dep; rest ← resolve_deps idByRef deps; mret (id :: rest)
  end.

Definition batch_options (owner : Owner) (id : string) (deps : list string) (o : EnqueueOptions) : EnqueueOptions :=
  {| o with eo_id := Some id; eo_dependsOn := D_arr (map D_str deps); eo_owner := owner |}.

Fixpoint enqueue_specs (owner : Owner) (idByRef : jsmap string) (ids : list string) (specs : list TaskBatchEntrySpec)
  : Life (list ClaimEntry) :=
  match specs, ids with
  | spec :: specs, id :: ids =>
      deps ← resolve_deps idByRef (normalizeDependsOn spec.(bs_options).(eo_dependsOn));
      entry ← enqueueTask spec.(bs_message) (batch_options owner id deps spec.(bs_options));
      rest ← enqueue_specs owner idByRef ids specs;
      mret (entry :: rest)
  | _, _ => mret []
  end.

Definition batch_ids (specs : list TaskBatchEntrySpec) : list string := map nv.(nv_uuid) (List.seq 0%nat (length specs)).

Definition enqueueTaskBatch (specs : list TaskBatchEntrySpec) (owner : Owner) : Life (list ClaimEntry) :=
  requireMeshHostQueueOwner owner ;;
  match specs with
  | [] => fails "empty_task_batch"
  | _ =>
      if bool_decide (MESH_TASK_BATCH_MAX_TASKS < length specs)%nat then fails "task_batch_too_large" else
      match batch_refs (batch_ids specs) specs [] with
      | None => fails "duplicate_task_ref"
      | Some idByRef => transaction (enqueue_specs owner idByRef (batch_ids specs) specs)
      end
  end.

(** ** Direct dispatches *)

Record DirectOptions : Type := {
  do_id : option string;
  do_missionId : option string;
  do_assignedNodeId : option string;
  do_assignedSessionId : option string;
  do_taskMode : DVal;
  do_readonly : bool;
  do_difficulty : DVal;
  do_ownedPaths : raw_paths;
  do_inputArtifactIds : DVal;
  do_input_artifact_ids : DVal;
  do_inheritArtifacts : DVal;
  do_inherit_artifacts : DVal;
  do_dispatchedAt : option string;
  do_attemptId : option string }.

Definition some_text (v : option string) : option string := if truthy_str v then v else None.

Definition dispatched_at (o : DirectOptions) : string :=
  match o.(do_dispatchedAt) with Some t => if filled (js_trim t) then t else iso | None => iso end.

Definition direct_entry (taskId message : string) (mode : option string) (difficulty : string) (o : DirectOptions)
    (attested : option (PhysicalOwnershipScope * string)) (q : ClaimStore) : ClaimEntry :=
  let missionId := trimmed_text o.(do_missionId) in
  let inherit := isArtifactInheritanceEnabled o.(do_inheritArtifacts) o.(do_inherit_artifacts) in
  let explicit := normalizeInputArtifactIds (dval_or o.(do_inputArtifactIds) o.(do_input_artifact_ids)) in
  {| ce_id := taskId; ce_message := message; ce_status := st_assigned; ce_parked := None;
     ce_taskMode := mode; ce_readonly := if o.(do_readonly) then Some true else None;
     ce_light := false; ce_lightWorkspaceId := None;
     ce_targetNodeId := some_text o.(do_assignedNodeId); ce_targetSessionId := some_text o.(do_assignedSessionId);
     ce_requiredTags := None; ce_priority := None; ce_notBefore := None; ce_dependsOn := None;
     ce_difficulty := Some difficulty; ce_phase := snd <$> attested; ce_revision := None;
     ce_ownedPaths := declared_paths o.(do_ownedPaths); ce_ownershipScope := fst <$> attested; ce_logicalOverlapWarnings := None;
     ce_review := None; ce_reviewInputScope := None; ce_reviewerWorkspace := None; ce_stagePlan := None; ce_stageState := None;
     ce_origin := None; ce_parentTaskId := None; ce_stageRole := None;
     ce_assignedNodeId := some_text o.(do_assignedNodeId); ce_assignedSessionId := some_text o.(do_assignedSessionId);
     ce_assignedProviderType := None; ce_assignedModel := None; ce_assignedTranscriptProfile := None; ce_attemptId := None;
     ce_dispatchTimestamp := Some (dispatched_at o); ce_dispatchNonce := None;
     ce_claimRefusedCount := None; ce_autoLaunch := None; ce_autoLaunchUnclaimedCount := None;
     ce_autoLaunchDispatchFailedCount := None; ce_quotaGateOverride := None; ce_hold := None; ce_holdNoticeId := None;
     ce_cancelReason := None; ce_cancelledAt := None; ce_requeueReason := None; ce_requeuedAt := None; ce_requeueCount := None;
     ce_maxRetries := None; ce_dispatchFailureCount := None; ce_stageRound := None; ce_missionId := missionId;
     ce_inputArtifactIds := non_empty (input_artifacts taskId inherit missionId explicit q);
     ce_inheritArtifacts := if inherit then None else Some false; ce_lightBaseNodeId := None; ce_model := None;
     ce_thinkingLevel := None; ce_sourceCoordinatorSessionId := None; ce_inputParts := []; ce_routingPreferences := None;
     ce_revisionHistory := []; ce_updatedAt := dispatched_at o |}.

Definition record_row (entry : ClaimEntry) (createdAt : string) (attemptId : option string) : Life ClaimEntry :=
  insertQueueEntry createdAt entry ;;
  if truthy_str attemptId then writeQueueEntry nv.(nv_life) meshId now {| entry with ce_attemptId := attemptId |} else mret entry.

(** [None]: no id, or the row is there already. *)
Definition recordDirectDispatchTask (message : option string) (o : DirectOptions) (attested : option (PhysicalOwnershipScope * string))
  : Life (option ClaimEntry) :=
  match trimmed_text o.(do_id) with
  | None => mret None
  | Some taskId =>
      let message := read_text message in
      if negb (filled message) then fails "mesh task message must be a non-empty string" else
      match assertMeshTaskDifficulty o.(do_difficulty) with
      | inl code => fails code
      | inr difficulty =>
          let mode := validateMeshTaskModeRequest nv.(nv_lint) o.(do_taskMode) message o.(do_readonly) in
          if negb (mv_valid mode) then fails "live_debug_readonly_guardrail_violation" else
          transaction (
            found ← reads (find_entry_of taskId);
            if present found then mret None else
            entry ← reads (fun s => direct_entry taskId message mode.(mv_taskMode) difficulty o attested s.(lf_queue));
            entry ← record_row entry (dispatched_at o) o.(do_attemptId);
            mret (Some entry))
      end
  end.

(** ** Refreshing the artifacts of a task before its dispatch *)

Definition with_artifacts (ids : list string) (e : ClaimEntry) : ClaimEntry := {| e with ce_inputArtifactIds := Some ids |}.

(** Errors are caught: the task is dispatched as it is. *)
Definition refreshInheritedInputArtifacts (task : ClaimEntry) : Life ClaimEntry := fun s =>
  if bool_decide (task.(ce_inheritArtifacts) = Some false) || negb (filled (read_text task.(ce_missionId))) then (inr task, s) else
  let current := nullish task.(ce_inputArtifactIds) [] in
  match resolveInheritedArtifactIds nv.(nv_artifacts) meshId task.(ce_missionId) (Some task.(ce_id)) current s.(lf_queue) with
  | [] => (inr task, s)
  | inherited =>
      let merged := mergeInputArtifactIds current inherited in
      match find_entry_of task.(ce_id) s with
      | None => (inr (with_artifacts merged task), s)
      | Some fresh =>
          match writeQueueEntry nv.(nv_life) meshId now
                  (with_artifacts (mergeInputArtifactIds (nullish fresh.(ce_inputArtifactIds) []) merged) fresh) s with
          | (inl _, s') => (inr task, s')
          | (inr _, s') => (inr (with_artifacts merged task), s')
          end
      end
  end.
End Enqueue.

(** ** Revisions *)

(** [x : unknown]: absent fields of a patch are [None]. *)
Record RevisionPatch : Type := {
  pt_message : option DVal;
  pt_ownedPaths : option raw_paths;
  pt_phase : option DVal;
  pt_dependsOn : option DVal;
  pt_routingPreferences : option DVal;
  pt_review : option DVal;
  pt_difficulty : option DVal }.

Record RevisionHost : Type := {
  rv_actor : string; rv_repoIdentity : string; rv_machineId : string; rv_nodeId : option string; rv_workspace : option string;
  rv_dryRun : bool; rv_deferScheduling : bool }.

(** One id list of the routing preferences; [None]: malformed. *)
Definition preference_ids (v : DVal) : option (option (list string)) :=
  match v with
  | D_undefined => Some None
  | D_arr l => if bool_decide (64 < length l)%nat || existsb (fun x => negb (filled (string_of_value x))) l then None
               else Some (Some (first_occurrences [] (map string_of_value l)))
  | _ => None
  end.

Definition normalizeRoutingPreferences (v : DVal) : option MeshRoutingPreferences :=
  match v with
  | D_obj fs =>
      if existsb (fun k => negb (bool_decide (k ∈ ["nodeIds"; "providers"]))) (map fst fs) then None else
      match preference_ids (field fs "nodeIds"), preference_ids (field fs "providers") with
      | Some nodeIds, Some providers => Some {| rp_nodeIds := nodeIds; rp_providers := providers |}
      | _, _ => None
      end
  | _ => None
  end.

(** One edit after another, until one is refused. *)
Definition then_edit (r : string + ClaimEntry) (edit : ClaimEntry -> string + ClaimEntry) : string + ClaimEntry :=
  match r with inl code => inl code | inr e => edit e end.

Definition edit_if {A} (patch : option A) (edit : A -> ClaimEntry -> string + ClaimEntry) (e : ClaimEntry) : string + ClaimEntry :=
  match patch with Some v => edit v e | None => inr e end.

Definition refuse_if (b : bool) (code : string) (r : string + ClaimEntry) : string + ClaimEntry := if b then inl code else r.

(** A value that follows the preset unless the caller chose it. *)
Definition follow_preset (value : option (string * ValueSource)) (preset : option string) : option (string * ValueSource) :=
  match value with
  | Some (v, from_caller) => Some (v, from_caller)
  | _ => if truthy_str preset then (fun p => (p, from_preset)) <$> preset else None
  end.

(** The path was owned before. *)
Definition already_owned (before : option OwnedPathsDeclaration) (entry : OwnedPathEntry) : bool :=
  existsb (fun old => (bool_decide (old.(ow_path) = entry.(ow_path)) && (old.(ow_subtree) || negb entry.(ow_subtree)))
    || old.(ow_subtree) && starts_with (old.(ow_path) +:+ "/") entry.(ow_path)) (nullish (od_paths <$> before) []).

Definition bad_revision (n : Z) : bool := (n <? 0) || (MAX_SAFE_INTEGER <? n).

Section Revise.
Context (nv : EnqueueEnv) (disk : Disk) (meshId : string) (now : Z).

Notation iso := (nv.(nv_life).(le_iso) now).

Definition edit_message (before : ClaimEntry) (v : DVal) (next : ClaimEntry) : string + ClaimEntry :=
  let message := string_of_value v in
  if negb (filled message) then inl "invalid_revision_message"
  else if present (head before.(ce_inputParts)) then inl "multipart_message_revision_requires_input_contract"
  else refuse_if (negb (mv_valid (validateMeshTaskModeRequest nv.(nv_lint)
         (match next.(ce_taskMode) with Some m => D_str m | None => D_undefined end) message (opt_true next.(ce_readonly)))))
       "live_debug_readonly_guardrail_violation" (inr {| next with ce_message := message |}).

Definition edit_paths (raw : raw_paths) (next : ClaimEntry) : string + ClaimEntry :=
  match raw with
  | PathArray (_ :: _) =>
      let r := normalizeOwnedPaths raw in
      match r.(nr_rejected), r.(nr_declaration).(od_paths) with
      | [], _ :: _ => inr {| next with ce_ownedPaths := Some r.(nr_declaration) |}
      | _, _ => inl "invalid_revision_paths"
      end
  | _ => inl "empty_revision_ownership"
  end.

Definition edit_phase (v : DVal) (next : ClaimEntry) : string + ClaimEntry :=
  match guard_member ["source"; "integration"] v with
  | None => inl "invalid_revision_phase"
  | Some phase => refuse_if (isTaskReadonly next) "write_phase_required" (inr {| next with ce_phase := Some phase |})
  end.

Definition edit_difficulty (before : ClaimEntry) (v : DVal) (next : ClaimEntry) : string + ClaimEntry :=
  match guard_member MESH_TASK_DIFFICULTIES v with
  | None => inl "invalid_revision_difficulty"
  | Some d =>
      refuse_if (present before.(ce_stagePlan) || present before.(ce_stageState) || bool_decide (before.(ce_origin) = Some "stage"))
        "difficulty_revision_unsupported_for_stage_task"
        (let preset := nv.(nv_brains) d in
         inr {| next with ce_difficulty := Some d; ce_model := follow_preset next.(ce_model) (preset ≫= br_model);
                          ce_thinkingLevel := follow_preset next.(ce_thinkingLevel) (preset ≫= br_thinkingLevel) |})
  end.

Definition edit_routing (v : DVal) (next : ClaimEntry) : string + ClaimEntry :=
  match normalizeRoutingPreferences v with
  | Some p => inr {| next with ce_routingPreferences := Some p |}
  | None => inl "invalid_routing_preferences"
  end.

Definition edit_review (q : ClaimStore) (v : DVal) (next : ClaimEntry) : string + ClaimEntry :=
  match v with
  | D_obj fs =>
      match field fs "sourceTaskId" with
      | D_str source =>
          refuse_if (existsb (fun k => negb (bool_decide (k ∈ ["sourceTaskId"; "differentProvider"]))) (map fst fs)
              || negb (bool_decide (field fs "differentProvider" = D_bool true))
              || negb (present (find_claimant source q)) || bool_decide (source = next.(ce_id)) || negb (isTaskReadonly next))
            "invalid_review_contract"
            (inr {| next with ce_review := Some {| rc_sourceTaskId := source; rc_independence := None |} |})
      | _ => inl "invalid_review_contract"
      end
  | _ => inl "invalid_review_contract"
  end.

(** The scope of a task with a phase is attested on this host. *)
Definition edit_scope (host : RevisionHost) (before next : ClaimEntry) : string + ClaimEntry :=
  match next.(ce_phase), host.(rv_nodeId), host.(rv_workspace), next.(ce_ownedPaths) with
  | None, _, _, _ => inr next
  | Some phase, Some nodeId, Some workspace, Some paths =>
      if negb (filled phase) then inr next
      else if negb (filled nodeId) || negb (pinnedMeshNodeIdMatches (Some nodeId) before.(ce_targetNodeId)) || negb (filled workspace)
              || negb (present (head paths.(od_paths)))
      then inl "local_pinned_physical_context_required"
      else match disk.(dk_attest) {| ai_repoIdentity := host.(rv_repoIdentity); ai_machineId := host.(rv_machineId); ai_nodeId := nodeId;
                   ai_workspace := workspace; ai_phase := phase; ai_paths := paths |} with
           | inl message => inl message
           | inr scope => inr {| next with ce_ownershipScope := Some scope |}
           end
  | Some phase, _, _, _ => if filled phase then inl "local_pinned_physical_context_required" else inr next
  end.

(** The adjacency of a revision reads the rows as they are stored. *)
Definition revision_adjacency (taskId : string) (deps : list string) (q : ClaimStore) : jsmap (list string) :=
  map_set taskId deps (map_of (map (fun e => (e.(ce_id), ce_deps e)) (queue_entries q))).

Definition edit_dependsOn (q : ClaimStore) (v : DVal) (next : ClaimEntry) : string + ClaimEntry :=
  match v with
  | D_arr l =>
      let deps := first_occurrences [] (map string_of_value l) in
      if existsb (fun x => negb (filled (string_of_value x))) l then inl "invalid_revision_dependencies"
      else if existsb (fun id => negb (present (find_claimant id q))) deps then inl "unknown_dependency"
      else match reaches_itself (revision_adjacency next.(ce_id) deps q) next.(ce_id) deps with
           | Some false => inr {| next with ce_dependsOn := Some deps |}
           | Some true => inl "dependency_cycle_detected"
           | None => inl "out of fuel"
           end
  | _ => inl "invalid_revision_dependencies"
  end.

Definition edit_graph (q : ClaimStore) (next : ClaimEntry) : string + ClaimEntry :=
  refuse_if (graph_refused (graph_with next q)) "source_dependency_graph" (inr next).

Definition in_flight (q : ClaimStore) : list ScopedInFlightOwnership :=
  readInFlightOwnershipMeshWide nv.(nv_life).(le_parseDate) now (assignedRowsMeshWide meshId q) (entries_in [st_pending] q).

(** A collision refuses a revision that asks for more than the row had. *)
Definition edit_admission (q : ClaimStore) (patch : RevisionPatch) (before next : ClaimEntry) : string + ClaimEntry :=
  let expandedPaths := present patch.(pt_ownedPaths)
    && existsb (fun entry => negb (already_owned before.(ce_ownedPaths) entry)) (nullish (od_paths <$> next.(ce_ownedPaths)) []) in
  let expandsIntegration := bool_decide (patch.(pt_phase) = Some (D_str "integration"))
    && negb (bool_decide (before.(ce_phase) = Some "integration")) in
  let installsPhysicalContext := present next.(ce_ownershipScope) && negb (present before.(ce_ownershipScope)) in
  refuse_if (negb (evaluateTaskOwnedPathsAdmission disk (Some next) (in_flight q)).1
             && (expandedPaths || expandsIntegration || installsPhysicalContext)) "ownership_collision" (inr next).

Definition source_overlaps (q : ClaimStore) (next : ClaimEntry) (paths : OwnedPathsDeclaration) : list OverlapWarning :=
  flat_map (fun other =>
    match other.(ce_ownedPaths) with
    | Some theirs =>
        if bool_decide (other.(ce_id) = next.(ce_id)) || negb (bool_decide (other.(ce_phase) = Some "source"))
           || bool_decide (other.(ce_status) ∈ [st_cancelled; st_failed]) then []
        else map (fun c => {| ow_taskId := c.(oc_taskId); ow_overlappingPaths := c.(oc_overlappingPaths) |})
               (findOwnershipConflicts paths [{| if_taskId := other.(ce_id); if_paths := theirs |}])
    | None => []
    end) (queue_entries q).

Definition edit_warnings (q : ClaimStore) (next : ClaimEntry) : ClaimEntry :=
  match next.(ce_ownedPaths) with
  | Some paths => if bool_decide (next.(ce_phase) = Some "source")
                  then {| next with ce_logicalOverlapWarnings := Some (source_overlaps q next paths) |} else next
  | None => next
  end.

Definition remembered (expectedRevision : Z) (actor : string) (before : ClaimEntry) : RevisionRecord := {|
  rh_revision := expectedRevision; rh_at := iso; rh_actor := actor; rh_message := before.(ce_message);
  rh_ownedPaths := before.(ce_ownedPaths); rh_phase := before.(ce_phase); rh_dependsOn := before.(ce_dependsOn);
  rh_ownershipScope := before.(ce_ownershipScope); rh_routingPreferences := before.(ce_routingPreferences);
  rh_review := before.(ce_review); rh_difficulty := before.(ce_difficulty); rh_model := before.(ce_model);
  rh_thinkingLevel := before.(ce_thinkingLevel) |}.

(** Everything a revision checks and changes, before it is written. *)
Definition revised_entry (patch : RevisionPatch) (host : RevisionHost) (q : ClaimStore) (before : ClaimEntry) : string + ClaimEntry :=
  let r := edit_if patch.(pt_message) (edit_message before) before in
  let r := then_edit r (edit_if patch.(pt_ownedPaths) edit_paths) in
  let r := then_edit r (edit_if patch.(pt_phase) edit_phase) in
  let r := then_edit r (edit_if patch.(pt_difficulty) (edit_difficulty before)) in
  let r := then_edit r (edit_if patch.(pt_routingPreferences) edit_routing) in
  let r := then_edit r (edit_if patch.(pt_review) (edit_review q)) in
  let r := then_edit r (edit_scope host before) in
  let r := then_edit r (edit_if patch.(pt_dependsOn) (edit_dependsOn q)) in
  let r := then_edit r (edit_graph q) in
  let r := then_edit r (edit_admission q patch before) in
  then_edit r (fun next => inr (edit_warnings q next)).

Definition rescheduled (defer : bool) (e : ClaimEntry) : ClaimEntry :=
  if defer then e else {| e with ce_hold := None; ce_holdNoticeId := None; ce_autoLaunch := None |}.

Definition empty_patch (p : RevisionPatch) : bool :=
  negb (present p.(pt_message) || present p.(pt_ownedPaths) || present p.(pt_phase) || present p.(pt_dependsOn)
        || present p.(pt_routingPreferences) || present p.(pt_review) || present p.(pt_difficulty)).

Definition bad_host (actor repoIdentity machineId : string) : bool := negb (filled actor && filled repoIdentity && filled machineId).

Definition revise_row (taskId : string) (expectedRevision : Z) (patch : RevisionPatch) (host : RevisionHost) : Life ClaimEntry := fun s =>
  match find_entry_of taskId s with
  | None => fails "task_not_found" s
  | Some before =>
      if negb (bool_decide (before.(ce_status) = st_pending)) then fails "pending_required" s
      else if negb (nullish before.(ce_revision) 0 =? expectedRevision) then fails "stale_revision" s
      else if isTaskDispatchInFlight meshId taskId s.(lf_inFlight)
              || present (findOpenQueueAttempt s.(lf_queue).(cs_turns) meshId taskId) then fails "open_attempt_revision_refused" s
      else match revised_entry patch host s.(lf_queue) before with
           | inl code => fails code s
           | inr next =>
               if host.(rv_dryRun) then (inr next, s) else
               let next := {| next with ce_revisionHistory := (before.(ce_revisionHistory) ++ [remembered expectedRevision host.(rv_actor) before])%list |} in
               writeQueueEntry nv.(nv_life) meshId now (rescheduled host.(rv_deferScheduling) next) s
           end
  end.

Definition revisePendingTask (taskId : string) (expectedRevision : Z) (patch : RevisionPatch) (host : RevisionHost) : Life ClaimEntry :=
  if bad_host host.(rv_actor) host.(rv_repoIdentity) host.(rv_machineId) then fails "authenticated_host_required"
  else if bad_revision expectedRevision then fails "invalid_expected_revision"
  else if empty_patch patch then fails "unsupported_revision_patch"
  else transaction (revise_row taskId expectedRevision patch host).

(** ** Attesting the scope of a running writer *)

Record ActiveHost : Type := {
  ah_actor : string; ah_repoIdentity : string; ah_machineId : string; ah_nodeId : option string; ah_workspace : option string;
  ah_sessionWorkspace : option string }.

(** The session runs in the checkout of the node. *)
Definition same_checkout (sessionWorkspace : option string) (workspace : string) : bool :=
  match sessionWorkspace with
  | Some dir => filled dir && match disk.(dk_realpath) dir, disk.(dk_realpath) workspace with
                              | Some a, Some b => bool_decide (a = b)
                              | _, _ => false
                              end
  | None => false
  end.

Definition attested_entry (host : ActiveHost) (before : ClaimEntry) : string + ClaimEntry :=
  match before.(ce_ownedPaths), host.(ah_nodeId), host.(ah_workspace) with
  | Some paths, nodeId, workspace =>
      if negb (present (head paths.(od_paths))) then inl "ownedpaths_undeclared" else
      match nodeId, workspace with
      | Some nodeId, Some workspace =>
          if negb (truthy_str before.(ce_assignedSessionId)) || negb (filled nodeId) || negb (filled workspace)
             || negb (pinnedMeshNodeIdMatches (Some nodeId) before.(ce_assignedNodeId))
          then inl "local_pinned_physical_context_required"
          else if negb (same_checkout host.(ah_sessionWorkspace) workspace) then inl "active_workspace_unproven"
          else
            let phase := if bool_decide (before.(ce_phase) = Some "integration") then "integration" else "source" in
            match disk.(dk_attest) {| ai_repoIdentity := host.(ah_repoIdentity); ai_machineId := host.(ah_machineId);
                    ai_nodeId := nodeId; ai_workspace := workspace; ai_phase := phase; ai_paths := paths |} with
            | inl message => inl message
            | inr scope =>
                if present (currentPhysicalScope disk (Some scope) paths)
                then inr {| before with ce_ownershipScope := Some scope; ce_phase := Some phase |}
                else inl "ownership_unproven: unproven_active_physical_resource"
            end
      | _, _ => inl "local_pinned_physical_context_required"
      end
  | None, _, _ => inl "ownedpaths_undeclared"
  end.

(** The record leaves out the difficulty and the model. *)
Definition remembered_active (expectedRevision : Z) (actor : string) (before : ClaimEntry) : RevisionRecord :=
  let r := remembered expectedRevision actor before in
  {| r with rh_ownershipScope := None; rh_difficulty := None; rh_model := None; rh_thinkingLevel := None |}.

Definition attest_row (taskId : string) (expectedRevision : Z) (host : ActiveHost) (dryRun : bool) : Life ClaimEntry := fun s =>
  match find_entry_of taskId s with
  | None => fails "task_not_found" s
  | Some before =>
      if negb (bool_decide (before.(ce_status) = st_assigned)) then fails "assigned_required" s
      else if negb (nullish before.(ce_revision) 0 =? expectedRevision) then fails "stale_revision" s
      else if isTaskReadonly before then fails "write_task_required" s
      else if present before.(ce_ownershipScope) then fails "ownership_already_attested" s
      else match attested_entry host before with
           | inl code => fails code s
           | inr next =>
               let next := {| next with ce_revisionHistory := (before.(ce_revisionHistory) ++ [remembered_active expectedRevision host.(ah_actor) before])%list |} in
               if dryRun then (inr next, s) else writeQueueEntry nv.(nv_life) meshId now next s
           end
  end.

Definition attestActiveTaskOwnership (taskId : string) (expectedRevision : Z) (host : ActiveHost) (dryRun : bool) : Life ClaimEntry :=
  if bad_host host.(ah_actor) host.(ah_repoIdentity) host.(ah_machineId) then fails "authenticated_host_required"
  else if bad_revision expectedRevision then fails "invalid_expected_revision"
  else transaction (attest_row taskId expectedRevision host dryRun).
End Revise.
