(* ===== verification/QueueGraph.v ===== *)
(** * The tasks of the queue never wait in a circle

    The walk of [QueueEnqueue] decides cycles; every writer of the queue keeps
    the prerequisites of its rows acyclic, so that of the unfinished tasks one
    waits for no other.  Then when a task is admitted, that a batch is whole or
    nothing, and what a revision changes. *)

From stdpp Require Import relations pretty.
From S2P Require Import Prelude DaemonId PathOwnership PhaseGraph KeyedDoc TurnEvidence TurnTypes TurnStore StoreFacts StageTypes StagePipeline StageRows.
From S2P Require Import QueueTypes QueueOwnership QueueClaim QueueFacts QueueTheorems QueueRules QueueOrder QueueScenario QueueLife QueueLifecycle QueueEnqueue.

#[local] Open Scope Z_scope.

(** ** The walk decides cycles *)

Section Walk.
Context (adjacency : jsmap (list string)) (taskId : string).

Definition edge (a b : string) : Prop := In b (nullish (map_get a adjacency) []).

(** What is on the stack is reachable; what was visited leads to the stack or
    to what was visited. *)
Record walk_inv (stack visited : list string) : Prop := {
  wi_reached : forall x, In x stack -> tc edge taskId x;
  wi_fresh : ~ In taskId visited;
  wi_closed : forall x y, x = taskId \/ In x visited -> edge x y -> In y visited \/ In y stack }.

Lemma walk_done visited : walk_inv [] visited -> ~ tc edge taskId taskId.
Proof.
  intros [_ F C] T. assert (H : forall x y, x = taskId \/ In x visited -> tc edge x y -> In y visited).
  { intros x y I Txy. induction Txy as [x y E|x z y E _ IH]; destruct (C _ _ I E) as [V|[]]; auto. }
  exact (F (H _ _ (or_introl eq_refl) T)).
Qed.

Lemma walk_outcome fuel stack visited :
  walk_inv stack visited -> (length stack + unvisited (@length string) adjacency visited <= fuel)%nat ->
  exists b, cycle_walk fuel adjacency taskId stack visited = Some b /\ (b = true <-> tc edge taskId taskId).
Proof.
  revert stack visited; induction fuel as [|fuel IH]; intros [|x stack] visited I M; cbn [length] in M; try lia.
  1,2: exists false; split; [reflexivity|]; split; [discriminate | intros T; destruct (walk_done _ I T)].
  cbn [cycle_walk]. case_bool_decide as E.
  { subst x. exists true. split; [reflexivity|]. split; [|auto]. intros _. apply (wi_reached _ _ I). cbn. auto. }
  case_bool_decide as V.
  - apply list_elem_of_In in V. apply IH; [|lia]. split; [| apply I |].
    + intros y Iy. apply (wi_reached _ _ I). cbn. auto.
    + intros a b Ia Ed. destruct (wi_closed _ _ I _ _ Ia Ed) as [?|[<-|?]]; auto.
  - rewrite list_elem_of_In in V. assert (Cost : (length (nullish (map_get x adjacency) []) + unvisited (@length string) adjacency (x :: visited)
        <= unvisited (@length string) adjacency visited)%nat).
    { destruct (map_get x adjacency) as [l|] eqn:G; cbn [nullish].
      - pose proof (unvisited_visit (@length string) adjacency visited x l V G). lia.
      - pose proof (unvisited_mono (@length string) adjacency visited (x :: visited) ltac:(cbn; auto)). cbn. lia. }
    apply IH; [|rewrite length_app, length_rev; lia]. split.
    + intros y. rewrite in_app_iff, <- in_rev. intros [Iy|Iy]; [|apply (wi_reached _ _ I); cbn; auto].
      eapply tc_r; [apply (wi_reached _ _ I); left; reflexivity | exact Iy].
    + cbn. intros [->|Iv]; [congruence | exact (wi_fresh _ _ I Iv)].
    + intros a b Ia Ed. cbn in Ia. rewrite in_app_iff, <- in_rev. cbn [In].
      assert (Old : forall a, a = taskId \/ In a visited -> edge a b -> (x = b \/ In b visited) \/ In b (nullish (map_get x adjacency) []) \/ In b stack).
      { intros a' Ia' Ed'. destruct (wi_closed _ _ I _ _ Ia' Ed') as [?|[<-|?]]; auto. }
      destruct Ia as [->|[<-|Ia]]; [exact (Old _ (or_introl eq_refl) Ed) | right; left; exact Ed | exact (Old _ (or_intror Ia) Ed)].
Qed.

(** The walk always answers, and says whether the task waits for itself. *)
Lemma walk_exact deps : map_get taskId adjacency = Some deps ->
  exists b, reaches_itself adjacency taskId deps = Some b /\ (b = true <-> tc edge taskId taskId).
Proof.
  intros G. apply walk_outcome.
  - split; [| intros [] |].
    + intros x. rewrite <- in_rev. intros I. apply tc_once. unfold edge. rewrite G. exact I.
    + intros x y [->|[]]. unfold edge. rewrite G. cbn. rewrite <- in_rev. auto.
  - rewrite length_rev. unfold walk_fuel. pose proof (unvisited_all (@length string) adjacency []). lia.
Qed.
End Walk.

(** ** The prerequisites of the rows *)

Definition needs (q : ClaimStore) (a b : string) : Prop := exists e, at_row a e q /\ In b (ce_deps e).

Definition acyclic (q : ClaimStore) : Prop := forall id, ~ tc (needs q) id id.

(** A store read as a list of its entries. *)
Record listing (l : list ClaimEntry) (q : ClaimStore) : Prop := {
  ls_ids : NoDup (map ce_id l);
  ls_rows : forall id e, at_row id e q <-> In e l /\ e.(ce_id) = id }.

(** A map from the ids of the entries. *)
Lemma keyed_get {A} (f : ClaimEntry -> A) l : NoDup (map ce_id l) -> forall k x,
  map_get k (map_of (map (fun e => (e.(ce_id), f e)) l)) = Some x <-> exists e, In e l /\ e.(ce_id) = k /\ f e = x.
Proof.
  induction l as [|e l IH] using rev_ind; intros N k x; [cbn; split; [discriminate | intros (? & [] & _)]|].
  rewrite map_app in N |- *. apply NoDup_app in N as (N1 & N2 & _). cbn. rewrite map_of_snoc, map_get_set. cbn. case_decide as D.
  - split; [intros [= <-]; exists e; rewrite in_app_iff; cbn; auto|]. intros (e' & I & E & <-). apply in_app_iff in I as [I|[->|[]]]; [|reflexivity].
    exfalso. apply (N2 k); [apply list_elem_of_In; rewrite <- E; apply in_map, I | rewrite D; left].
  - rewrite IH by exact N1. split; intros (e' & I & E & F); exists e'; rewrite in_app_iff in *; cbn in *; [auto|].
    destruct I as [I|[->|[]]]; [auto | congruence].
Qed.

Section Listing.
Context (l : list ClaimEntry) (q : ClaimStore) (listed : listing l q).

Definition graph_of : jsmap PhaseEntry := map_of (map (fun e => (e.(pe_id), e)) (map phase_entry l)).

Lemma graph_get k x : map_get k graph_of = Some x <-> exists e, In e l /\ e.(ce_id) = k /\ phase_entry e = x.
Proof. unfold graph_of. rewrite map_map. exact (keyed_get phase_entry l (ls_ids _ _ listed) k x). Qed.

Lemma graph_keys : keyed_graph graph_of.
Proof. intros k x G. apply graph_get in G as (e & _ & <- & <-). reflexivity. Qed.

Lemma graph_accepts : graph_refused (map phase_entry l) = false <-> forall e, In e l -> authorised graph_of (phase_entry e).
Proof.
  destruct (search_decides graph_of (map phase_entry l) graph_keys) as (r & E & A & _).
  { intros x I. apply in_map_iff in I as (e & <- & I). apply graph_get. eauto. }
  unfold graph_refused, assertSourceDependencyGraph. change (map_of _) with graph_of. rewrite E.
  transitivity (r = None); [destruct r; split; congruence|]. rewrite A. split.
  - intros H e I. apply H, in_map, I.
  - intros H x I. apply in_map_iff in I as (e & <- & I). auto.
Qed.

Lemma needs_depends a b ea : at_row a ea q -> tc (needs q) a b -> forall eb, at_row b eb q ->
  tc (depends graph_of) (phase_entry ea) (phase_entry eb).
Proof.
  intros A T. revert ea A. induction T as [a b (e & Ae & I)|a c b (e & Ae & I) T IH]; intros ea A eb B;
    unfold at_row in *; rewrite A in Ae; injection Ae as <-.
  - apply tc_once. exists b. split; [exact I|]. apply graph_get. apply listed in B as [Ib Eb]. eauto.
  - assert (C : exists ec, find_claimant c q = Some ec) by (inversion T as [x y (ec & Ac & _)|x y z (ec & Ac & _)]; eauto).
    destruct C as (ec & C). eapply tc_l; [|exact (IH ec C eb B)].
    exists c. split; [exact I|]. apply graph_get. apply listed in C as [Ic Ec]. eauto.
Qed.

Lemma depends_needs x y : depends graph_of x y -> (exists ex, In ex l /\ phase_entry ex = x) -> needs q x.(pe_id) y.(pe_id).
Proof.
  intros (k & I & G) (ex & Ix & <-). apply graph_get in G as (e & _ & Ek & <-). exists ex. split; [apply listed; auto|].
  cbn in *. congruence.
Qed.

Lemma tc_depends_needs x y : tc (depends graph_of) x y -> (exists ex, In ex l /\ phase_entry ex = x) -> tc (needs q) x.(pe_id) y.(pe_id).
Proof.
  intros T. induction T as [x y D|x z y D T IH]; intros X; [apply tc_once; exact (depends_needs _ _ D X)|].
  eapply tc_l; [exact (depends_needs _ _ D X)|]. apply IH. destruct D as (k & _ & G). apply graph_get in G as (e & Ie & _ & <-). eauto.
Qed.

(** Every prerequisite that is a source belongs to an integration task. *)
Definition edges_legal : Prop := forall a b ea eb, at_row a ea q -> at_row b eb q -> In b (ce_deps ea) ->
  eb.(ce_phase) = Some "source" -> ea.(ce_phase) = Some "integration".

Lemma accepted_exactly : graph_refused (map phase_entry l) = false <-> acyclic q /\ edges_legal.
Proof.
  rewrite graph_accepts. split.
  - intros H. split.
    + intros id T. assert (A : exists e, at_row id e q) by (inversion T as [x y (e & Ae & _)|x y z (e & Ae & _)]; eauto). destruct A as (e & A).
      pose proof (proj1 (ls_rows _ _ listed _ _) A) as [I _]. apply (proj2 (H e I) (phase_entry e)); [apply rtc_refl|].
      exact (needs_depends _ _ _ A T _ A).
    + intros a b ea eb A B I. pose proof (proj1 (ls_rows _ _ listed _ _) A) as [Ia _]. apply (proj1 (H ea Ia) (phase_entry ea) (phase_entry eb)); [apply rtc_refl|].
      exists b. split; [exact I|]. apply graph_get. apply listed in B as [Ib Eb]. eauto.
  - intros [Ac Lg] e I. assert (Known : forall x, rtc (depends graph_of) (phase_entry e) x -> exists ex, In ex l /\ phase_entry ex = x).
    { intros x R. apply rtc_inv_r in R as [<-|(z & _ & (k & _ & G))]; [eauto|]. apply graph_get in G as (ex & Ix & _ & <-). eauto. }
    split.
    + intros x y R (k & Ik & G). destruct (Known x R) as (ex & Ix & <-). apply graph_get in G as (ey & Iy & Ek & <-).
      intros Ph. apply (Lg ex.(ce_id) k ex ey); [apply listed; auto | apply listed; auto | exact Ik | exact Ph].
    + intros x R T. exact (Ac _ (tc_depends_needs _ _ T (Known x R))).
Qed.
End Listing.

(** ** Listings of the table *)

Definition added_row (createdAt : string) (e : ClaimEntry) (q : ClaimStore) : ClaimStore :=
  {| q with cs_rows := (q.(cs_rows) ++ [toRow createdAt e])%list |}.

Lemma queue_entries_perm q : Permutation (queue_entries q) (map rw_payload q.(cs_rows)).
Proof. unfold queue_entries. apply Permutation_map, order_by_perm. Qed.

Lemma payload_ids q : store_ok q -> map ce_id (map rw_payload q.(cs_rows)) = map rw_id q.(cs_rows).
Proof. intros Ok. rewrite map_map. apply map_ext_in. intros r I. exact (synced_id _ (so_synced _ Ok r I)). Qed.

Lemma listing_perm l l' q : Permutation l l' -> listing l q -> listing l' q.
Proof.
  intros P [N R]. split; [rewrite <- P; exact N|]. intros id e. rewrite R, <- !list_elem_of_In, P. reflexivity.
Qed.

Lemma listing_payloads q : store_ok q -> listing (map rw_payload q.(cs_rows)) q.
Proof.
  intros Ok. split; [rewrite payload_ids by exact Ok; apply Ok|]. intros id e. rewrite at_row_In, in_map_iff by exact Ok. split.
  - intros (r & I & <- & <-). split; [eauto | exact (synced_id _ (so_synced _ Ok r I))].
  - intros [(r & <- & I) <-]. exists r. split; [exact I|]. split; [symmetry; exact (synced_id _ (so_synced _ Ok r I)) | reflexivity].
Qed.

Lemma listing_entries q : store_ok q -> listing (queue_entries q) q.
Proof. intros Ok. eapply listing_perm; [symmetry; apply queue_entries_perm | apply listing_payloads, Ok]. Qed.

Lemma insert_ok c e q : store_ok q -> ~ In e.(ce_id) (map rw_id q.(cs_rows)) -> store_ok (added_row c e q).
Proof.
  intros [N S] F. split; unfold added_row; cbn.
  - rewrite map_app. cbn. apply NoDup_app. split; [exact N|]. split; [|apply NoDup_singleton].
    intros x I J. apply list_elem_of_singleton in J as ->. apply F, list_elem_of_In, I.
  - intros r I. apply in_app_iff in I as [I|[<-|[]]]; [auto | reflexivity].
Qed.

Lemma listing_insert c e q : store_ok q -> ~ In e.(ce_id) (map rw_id q.(cs_rows)) ->
  listing (queue_entries q ++ [e]) (added_row c e q).
Proof.
  intros Ok F. eapply listing_perm; [|apply listing_payloads, insert_ok, F; exact Ok].
  unfold added_row. cbn. rewrite map_app. cbn. rewrite queue_entries_perm. reflexivity.
Qed.

Lemma find_insert c e q id : store_ok q -> ~ In e.(ce_id) (map rw_id q.(cs_rows)) ->
  find_claimant id (added_row c e q) = if decide (id = e.(ce_id)) then Some e else find_claimant id q.
Proof.
  intros Ok F. assert (H : forall x, at_row id x (added_row c e q) <-> (if decide (id = e.(ce_id)) then Some e else find_claimant id q) = Some x).
  { intros x. rewrite (ls_rows _ _ (listing_insert c e q Ok F)), in_app_iff. cbn.
    pose proof (ls_rows _ _ (listing_entries q Ok) id x) as L. unfold at_row in L. case_decide as D.
    - split; [|intros [= <-]; auto]. intros [[I|[->|[]]] E]; [|reflexivity]. exfalso. apply F. rewrite <- D.
      rewrite <- payload_ids by exact Ok. rewrite <- queue_entries_perm, <- E. apply in_map, I.
    - rewrite L. split; [intros [[I|[->|[]]] E]; [auto | congruence] | tauto]. }
  unfold at_row in H. destruct (find_claimant id (added_row c e q)) as [x|].
  - symmetry. apply H. reflexivity.
  - destruct (if decide _ then _ else _) as [x|]; [|reflexivity]. exact (proj2 (H x) eq_refl).
Qed.

(** ** Writes keep the prerequisites acyclic *)

Definition same_deps (q q' : ClaimStore) : Prop := forall id, ce_deps <$> find_claimant id q' = ce_deps <$> find_claimant id q.

#[global] Instance same_deps_preorder : PreOrder same_deps.
Proof. split; [intros q id; reflexivity | intros q1 q2 q3 H1 H2 id; rewrite H2; apply H1]. Qed.

Lemma tc_mono {A} (R R' : relation A) : (forall x y, R x y -> R' x y) -> forall x y, tc R x y -> tc R' x y.
Proof. intros S x y T. induction T; [apply tc_once; auto | eapply tc_l; eauto]. Qed.

Lemma same_deps_acyclic q q' : same_deps q q' -> acyclic q -> acyclic q'.
Proof.
  intros S Ac id T. apply (Ac id). revert T. apply tc_mono. intros a b (e & A & I). unfold at_row in A. specialize (S a). rewrite A in S. cbn in S.
  destruct (find_claimant a q) as [e'|] eqn:E; [|discriminate]. injection S as S. exists e'. rewrite <- S. auto.
Qed.

Lemma released_deps meshId sticky q q' : released meshId sticky q q' -> same_deps q q'.
Proof.
  intros R id. pose proof (rl_deps _ _ _ _ R id) as D. destruct (find_claimant id q') as [e'|], (find_claimant id q) as [e|]; try discriminate; [|reflexivity].
  injection D as D. cbn. unfold ce_deps. rewrite D. reflexivity.
Qed.

(** Rows that change in place without changing their prerequisites. *)
Lemma in_place_deps q q' :
  Forall2 (fun r r' => r'.(rw_id) = r.(rw_id) /\ ce_deps r'.(rw_payload) = ce_deps r.(rw_payload)) q.(cs_rows) q'.(cs_rows) -> same_deps q q'.
Proof.
  intros F id. unfold find_claimant. induction F as [|r r' l l' [Ei Ed] F IH]; [reflexivity|]. cbn. rewrite Ei.
  case_bool_decide; [cbn; rewrite Ed; reflexivity | exact IH].
Qed.

Lemma stamp_warnings_deps env meshId now s e : ce_dependsOn (stamp_warnings env meshId now s e) = ce_dependsOn e.
Proof. unfold stamp_warnings. destruct (ce_ownedPaths e); [destruct (ce_ownershipScope e)|]; reflexivity. Qed.

Lemma stamp_review_deps env s e : ce_dependsOn (stamp_review env s e) = ce_dependsOn e.
Proof. unfold stamp_review. destruct (ce_review e); [destruct (present _)|]; reflexivity. Qed.

Lemma claimed_deps env meshId nodeId sessionId opts now s c scope :
  ce_deps (claimed_entry env meshId nodeId sessionId opts now s c scope) = ce_deps c.
Proof.
  unfold ce_deps. f_equal. transitivity (ce_dependsOn (stamp_scope c scope)); [|destruct scope; reflexivity].
  unfold claimed_entry. cbv zeta.
  etransitivity; [apply stamp_warnings_deps|]. etransitivity; [apply stamp_review_deps | reflexivity].
Qed.

(** A claim keeps the prerequisites of every row. *)
Lemma claim_deps env meshId nodeId sessionId tags opts now s r s' : store_ok s ->
  claimNextQueueTask env meshId nodeId sessionId tags opts now s = (r, s') -> same_deps s s'.
Proof.
  intros Ok E. apply in_place_deps.
  assert (Held : forall row row', held_row row row' -> rw_id row' = rw_id row /\ ce_deps (rw_payload row') = ce_deps (rw_payload row)).
  { intros row row' [->|(_ & h & n & ->)]; split; reflexivity. }
  destruct (refused_rows _ _ _ _ _ _ _ _ _ _ Ok E) as [(e & ->)|[F _]]; [|eapply Forall2_impl; eauto].
  pose proof (claim_outcome _ _ _ _ _ _ _ _ _ _ E) as Co. destruct (claimed_task _ _ _ _ _ _ _ _ _ _ Co) as (k & scope & Ik & _ & Ee).
  pose proof (claim_rows _ _ _ _ _ _ _ _ Ok _ _ Co) as F.
  assert (Sub : forall x, In x s.(cs_rows) -> In x s.(cs_rows)) by auto. revert F Sub. generalize (cs_rows s) at 1 2 4. generalize (cs_rows s').
  intros l' l F. induction F as [|row row' l l' H F IH]; intros Sub; constructor; [|apply IH; intros; apply Sub; cbn; auto].
  unfold queue_claim_row in H. case_decide as D; [|exact (Held _ _ H)]. destruct H as [-> _]. cbn. split; [reflexivity|].
  destruct (claimed_fields env meshId nodeId sessionId opts now s k scope) as (Ei & _). rewrite <- Ee in Ei.
  destruct (row_of_candidate _ _ _ _ Ok k row Ik (Sub _ (or_introl eq_refl)) ltac:(congruence)) as [-> _]. rewrite Ee. apply claimed_deps.
Qed.

Section GraphWrites.
Context (env : LifeEnv) (meshId : string) (now : Z).

Lemma write_acyclic e s : store_ok s.(lf_queue) -> acyclic s.(lf_queue) -> acyclic (writeQueueEntry env meshId now e s).2.(lf_queue).
Proof.
  intros Ok Ac. unfold writeQueueEntry, fails. cbv zeta. destruct (_ && _); [exact Ac|].
  destruct (graph_changed _ _ && _) eqn:G; [exact Ac|]. cbn. set (p := find_claimant (ce_id e) (lf_queue s)). fold p in G.
  set (e' := stamped env now p e). change (acyclic (put_row e' s.(lf_queue))). pose proof (put_row_ok e' _ Ok) as Ok'.
  apply andb_false_iff in G as [G|G].
  - apply (same_deps_acyclic s.(lf_queue)); [|exact Ac]. intros id. rewrite find_put_row. case_bool_decide as D; [|reflexivity].
    change (ce_id e') with (ce_id e) in D. subst id. fold p. destruct p as [p0|] eqn:P; [|reflexivity]. cbn. f_equal.
    unfold graph_changed in G. apply orb_false_iff in G as [_ G]. apply negb_false_iff, bool_decide_eq_true in G. symmetry. exact G.
  - assert (L : listing (map (fun x => if bool_decide (x.(ce_id) = e.(ce_id)) then e' else x) (queue_entries s.(lf_queue))) (put_row e' s.(lf_queue))).
    { eapply listing_perm; [|apply listing_payloads, Ok']. rewrite queue_entries_perm. unfold put_row. cbn. rewrite !map_map.
      erewrite map_ext_in; [reflexivity|]. intros r I. cbn. unfold write_row.
      rewrite (synced_id _ (so_synced _ Ok r I)). change (ce_id e') with (ce_id e). case_bool_decide; reflexivity. }
    apply (accepted_exactly _ _ L). rewrite <- G. unfold graph_with, queue_entries. f_equal. rewrite !map_map. apply map_ext. intros r. case_bool_decide; reflexivity.
Qed.

Lemma insert_acyclic c e s : store_ok s.(lf_queue) -> acyclic s.(lf_queue) ->
  acyclic (insertQueueEntry c e s).2.(lf_queue) /\ store_ok (insertQueueEntry c e s).2.(lf_queue).
Proof.
  intros Ok Ac. unfold insertQueueEntry, fails. destruct (graph_refused _) eqn:G; [auto|]. case_bool_decide as F; [auto|]. cbn.
  rewrite list_elem_of_In in F. split; [|exact (insert_ok _ _ _ Ok F)].
  apply (accepted_exactly _ _ (listing_insert c e _ Ok F)). exact G.
Qed.
End GraphWrites.

(** ** Computations that keep the graph *)

Definition graph_ok (q : ClaimStore) : Prop := store_ok q /\ acyclic q.

(** Also when it throws. *)
Definition preserving {A} (m : Life A) : Prop := forall s, graph_ok s.(lf_queue) -> graph_ok (m s).2.(lf_queue).

Create HintDb preserving.

Lemma preserving_ret {A} (a : A) : preserving (mret a).
Proof. intros s G. exact G. Qed.

Lemma preserving_fails {A} e : preserving (fails (A := A) e).
Proof. intros s G. exact G. Qed.

Lemma preserving_reads {A} (f : LifeStore -> A) : preserving (reads f).
Proof. intros s G. exact G. Qed.

Lemma preserving_bind {A B} (m : Life A) (k : A -> Life B) : preserving m -> (forall a, preserving (k a)) -> preserving (mbind k m).
Proof. intros Hm Hk s G. unfold mbind, life_bind. specialize (Hm s G). destruct (m s) as [[e|a] s']; [exact Hm | exact (Hk a s' Hm)]. Qed.

Lemma preserving_transaction {A} (m : Life A) : preserving m -> preserving (transaction m).
Proof. intros H s G. unfold transaction. specialize (H s G). destruct (m s) as [[e|a] s']; [exact G | exact H]. Qed.

Lemma preserving_write env meshId now e : preserving (writeQueueEntry env meshId now e).
Proof.
  intros s [Ok Ac]. split; [|exact (write_acyclic env meshId now e s Ok Ac)].
  destruct (write_cases env meshId now e s) as [(err & ->)| ->]; [exact Ok | exact (put_row_ok _ _ Ok)].
Qed.

Lemma preserving_insert c e : preserving (insertQueueEntry c e).
Proof. intros s [Ok Ac]. destruct (insert_acyclic c e s Ok Ac). split; assumption. Qed.

Lemma preserving_owner o : preserving (requireMeshHostQueueOwner o).
Proof. unfold requireMeshHostQueueOwner. repeat case_match; first [apply preserving_fails | apply preserving_ret]. Qed.

Lemma preserving_cycle id deps : preserving (assertNoDependencyCycle id deps).
Proof. intros s G. unfold assertNoDependencyCycle, fails. repeat case_match; exact G. Qed.

#[local] Hint Resolve preserving_ret preserving_fails preserving_reads preserving_bind preserving_transaction preserving_write preserving_insert preserving_owner preserving_cycle : preserving.

Ltac preserving_step := repeat first [apply preserving_bind; [|intros] | apply preserving_transaction | case_match | solve [auto with preserving]].

Lemma preserving_enqueue nv meshId now message o : preserving (enqueueTask nv meshId now message o).
Proof. unfold enqueueTask, enqueue_row. preserving_step. Qed.

Lemma preserving_resolve idByRef deps : preserving (resolve_deps idByRef deps).
Proof. induction deps; cbn [resolve_deps]; unfold resolve_dep; preserving_step. Qed.

#[local] Hint Resolve preserving_enqueue preserving_resolve : preserving.

Lemma preserving_specs nv meshId now owner idByRef ids specs : preserving (enqueue_specs nv meshId now owner idByRef ids specs).
Proof. revert ids; induction specs; intros [|id ids]; cbn [enqueue_specs]; preserving_step. Qed.

#[local] Hint Resolve preserving_specs : preserving.

Lemma preserving_batch nv meshId now specs owner : preserving (enqueueTaskBatch nv meshId now specs owner).
Proof.
  unfold enqueueTaskBatch. apply preserving_bind; [apply preserving_owner | intros _]. destruct specs as [|spec specs]; [apply preserving_fails|].
  destruct (bool_decide _); [apply preserving_fails|]. destruct (batch_refs _ _ _); [|apply preserving_fails]. apply preserving_transaction, preserving_specs.
Qed.

Lemma preserving_direct nv meshId now message o attested : preserving (recordDirectDispatchTask nv meshId now message o attested).
Proof. unfold recordDirectDispatchTask, record_row. preserving_step. Qed.

Lemma preserving_refresh nv meshId now task : preserving (refreshInheritedInputArtifacts nv meshId now task).
Proof.
  intros s G. unfold refreshInheritedInputArtifacts. destruct (_ || _); [exact G|]. destruct (resolveInheritedArtifactIds _ _ _ _ _ _); [exact G|].
  destruct (find_entry_of _ _); [|exact G].
  match goal with |- context [writeQueueEntry ?a ?b ?c ?e s] => pose proof (preserving_write a b c e s G) as H; destruct (writeQueueEntry a b c e s) as [[?|?] ?] end; exact H.
Qed.

Lemma preserving_revise nv disk meshId now taskId expected patch host : preserving (revisePendingTask nv disk meshId now taskId expected patch host).
Proof.
  unfold revisePendingTask. repeat case_match; auto with preserving. apply preserving_transaction. intros s G. unfold revise_row, fails.
  destruct (find_entry_of _ _); [|exact G]. repeat (destruct (negb _) || destruct (_ || _); [exact G|]).
  destruct (revised_entry _ _ _ _ _ _ _ _); [exact G|]. destruct (rv_dryRun host); [exact G|]. apply preserving_write, G.
Qed.

Lemma preserving_attest nv disk meshId now taskId expected host dryRun : preserving (attestActiveTaskOwnership nv disk meshId now taskId expected host dryRun).
Proof.
  unfold attestActiveTaskOwnership. repeat case_match; auto with preserving. apply preserving_transaction. intros s G. unfold attest_row, fails.
  destruct (find_entry_of _ _); [|exact G]. repeat (destruct (negb _) || destruct (isTaskReadonly _) || destruct (present _); [exact G|]).
  destruct (attested_entry _ _ _); [exact G|]. destruct dryRun; [exact G|]. apply preserving_write, G.
Qed.

(** ** Runs *)

(** Everything that writes the queue: claims, the writers of [QueueLife], new
    tasks, direct dispatches, revisions, and the ledger moving its attempts. *)
Inductive graph_step (meshId : string) (s : LifeStore) : LifeStore -> Prop :=
| gs_claim env nodeId sessionId tags opts now r q :
    claimNextQueueTask env meshId nodeId sessionId tags opts now s.(lf_queue) = (r, q) -> graph_step meshId s (with_queue q s)
| gs_op env now op : QuietEnv env meshId -> op_fits meshId op s.(lf_queue) -> graph_step meshId s (run_op env meshId now op s)
| gs_enqueue nv now message o : graph_step meshId s (enqueueTask nv meshId now message o s).2
| gs_batch nv now specs owner : graph_step meshId s (enqueueTaskBatch nv meshId now specs owner s).2
| gs_direct nv now message o attested : graph_step meshId s (recordDirectDispatchTask nv meshId now message o attested s).2
| gs_refresh nv now task : graph_step meshId s (refreshInheritedInputArtifacts nv meshId now task s).2
| gs_revise nv disk now taskId expected patch host : graph_step meshId s (revisePendingTask nv disk meshId now taskId expected patch host s).2
| gs_attest nv disk now taskId expected host dryRun : graph_step meshId s (attestActiveTaskOwnership nv disk meshId now taskId expected host dryRun s).2
| gs_turns turns : let q := s.(lf_queue) in graph_step meshId s (with_queue {| q with cs_turns := turns |} s).

Lemma graph_step_ok meshId s s' : graph_step meshId s s' -> graph_ok s.(lf_queue) -> graph_ok s'.(lf_queue).
Proof.
  intros [env nodeId sessionId tags opts now r q E|env now op Q W|nv now message o|nv now specs owner|nv now message o attested|nv now task
    |nv disk now taskId expected patch host|nv disk now taskId expected host dryRun|turns] G.
  - destruct G as [Ok Ac]. split; [|exact (same_deps_acyclic _ _ (claim_deps _ _ _ _ _ _ _ _ _ _ Ok E) Ac)].
    destruct (refused_rows _ _ _ _ _ _ _ _ _ _ Ok E) as [(e & ->)|[F Et]].
    + exact (claim_store_ok _ _ _ _ _ _ _ _ _ _ Ok (claim_outcome _ _ _ _ _ _ _ _ _ _ E)).
    + exact (proj1 (held_step meshId _ _ Ok F Et)).
  - destruct G as [Ok Ac]. pose proof (op_releases env meshId now op s Q W Ok) as R.
    split; [exact (released_ok _ _ _ _ R Ok) | exact (same_deps_acyclic _ _ (released_deps _ _ _ _ R) Ac)].
  - apply preserving_enqueue, G.
  - apply preserving_batch, G.
  - apply preserving_direct, G.
  - apply preserving_refresh, G.
  - apply preserving_revise, G.
  - apply preserving_attest, G.
  - destruct G as [[N S] Ac]. split; [split; assumption|]. exact (same_deps_acyclic s.(lf_queue) _ (fun id => eq_refl) Ac).
Qed.

Definition unfinished (q : ClaimStore) (id : string) (e : ClaimEntry) : Prop := at_row id e q /\ is_terminal_status e.(ce_status) = false.

Lemma needs_finite q x : store_ok q -> pred_finite (tc (needs q) x).
Proof.
  intros Ok. exists (flat_map ce_deps (queue_entries q)). intros y T. apply list_elem_of_In, in_flat_map.
  assert (Last : exists z, needs q z y) by (induction T; eauto). destruct Last as (z & e & A & I). exists e. split; [|exact I].
  exact (proj1 (proj1 (ls_rows _ _ (listing_entries q Ok) _ _) A)).
Qed.

(** Of the unfinished tasks one waits for none of the others. *)
Lemma some_ready q id e : graph_ok q -> unfinished q id e ->
  exists id' e', unfinished q id' e' /\ forall dep, In dep (ce_deps e') -> ~ exists d, unfinished q dep d.
Proof.
  intros [Ok Ac] U. assert (W : sn (needs q) id) by (apply tc_finite_sn; [intros x T; exact (Ac x T) | apply needs_finite, Ok]).
  revert e U. induction W as [id _ IH]. intros e U.
  destruct (existsb (fun dep => match find_claimant dep q with Some d => negb (is_terminal_status d.(ce_status)) | None => false end) (ce_deps e)) eqn:Ex.
  - apply existsb_exists in Ex as (dep & I & P). destruct (find_claimant dep q) as [d|] eqn:D; [|discriminate]. apply negb_true_iff in P.
    apply (IH dep) with (e := d); [exists e; split; [apply U | exact I] | split; assumption].
  - exists id, e. split; [exact U|]. intros dep I (d & D & T). apply not_true_iff_false in Ex. apply Ex, existsb_exists. exists dep. split; [exact I|].
    unfold at_row in D. rewrite D, T. reflexivity.
Qed.

(** C19: In every run of the queue - tasks enqueued one by one or in batches, direct
    dispatches, claims, revisions, requeues, cancellations, failures, in any
    order, errors included - the prerequisites of the rows form no cycle, and as
    long as a task is unfinished there is an unfinished one that waits for no
    unfinished task. *)
Theorem never_circular meshId s0 s : graph_ok s0.(lf_queue) -> rtc (graph_step meshId) s0 s ->
  acyclic s.(lf_queue)
  /\ forall id e, unfinished s.(lf_queue) id e ->
       exists id' e', unfinished s.(lf_queue) id' e' /\ forall dep, In dep (ce_deps e') -> ~ exists d, unfinished s.(lf_queue) dep d.
Proof.
  intros G R. assert (G' : graph_ok s.(lf_queue)) by (induction R as [|s1 s2 s3 St R IH]; [exact G | exact (IH (graph_step_ok _ _ _ St G))]).
  split; [apply G'|]. intros id e. apply some_ready, G'.
Qed.

(** ** When a task is admitted *)

(** The graph with a new task. *)
Definition needs_with (q : ClaimStore) (id : string) (deps : list string) (a b : string) : Prop := (a = id /\ In b deps) \/ needs q a b.

(** The prerequisites of the rows are stored as the enqueue stores them. *)
Definition tidy (q : ClaimStore) : Prop := forall id e, at_row id e q -> normalizeDependsOn (ids_value e.(ce_dependsOn)) = ce_deps e.

Lemma adjacency_edge q id deps : store_ok q -> tidy q -> find_claimant id q = None ->
  forall a b, edge (queue_adjacency id deps q) a b <-> needs_with q id deps a b.
Proof.
  intros Ok Td F a b. unfold edge, queue_adjacency, needs_with. rewrite map_get_set. case_decide as D.
  - subst a. cbn. split; [auto|]. intros [[_ I]|(e & A & _)]; [exact I | unfold at_row in A; congruence].
  - destruct (listing_entries q Ok) as [N R]. pose proof (keyed_get (fun e => normalizeDependsOn (ids_value e.(ce_dependsOn))) _ N a) as Get. split.
    + destruct (map_get _ _) as [x|] eqn:G in |- *; [|intros []]. apply Get in G as (e & I & Ei & <-). cbn. intros Ib. right. exists e.
      assert (A : at_row a e q) by (apply R; auto). split; [exact A|]. rewrite <- (Td a e A). exact Ib.
    + intros [[-> _]|(e & A & I)]; [congruence|]. destruct (proj1 (R a e) A) as [Il Ei]. rewrite (proj2 (Get _) (ex_intro _ e (conj Il (conj Ei eq_refl)))).
      cbn. rewrite (Td a e A). exact I.
Qed.

(** A cycle of the larger graph passes through the new task. *)
Lemma through_new q id deps a b : tc (needs_with q id deps) a b ->
  tc (needs q) a b \/ rtc (needs_with q id deps) a id /\ tc (needs_with q id deps) id b.
Proof.
  intros T. induction T as [a b E|a c b E T IH]; pose proof E as [[-> I]|N].
  - right. split; [apply rtc_refl | apply tc_once, E].
  - left. apply tc_once, N.
  - right. split; [apply rtc_refl | eapply tc_l; eassumption].
  - destruct IH as [IH|[R IH]]; [left; eapply tc_l; eassumption | right; split; [eapply rtc_l; eassumption | exact IH]].
Qed.

Lemma insert_needs c e q : store_ok q -> find_claimant e.(ce_id) q = None -> ~ In e.(ce_id) (map rw_id q.(cs_rows)) ->
  forall a b, needs (added_row c e q) a b <-> needs_with q e.(ce_id) (ce_deps e) a b.
Proof.
  intros Ok N F a b. unfold needs, needs_with, at_row. setoid_rewrite (find_insert c e q a Ok F). case_decide as D.
  - subst a. split; [intros (x & [= <-] & I); auto|]. intros [[_ I]|(x & A & _)]; [eauto | unfold at_row in A; congruence].
  - split; [eauto|]. intros [[-> _]|H]; [congruence | exact H].
Qed.

Lemma acyclic_insert c e q : store_ok q -> acyclic q -> find_claimant e.(ce_id) q = None -> ~ In e.(ce_id) (map rw_id q.(cs_rows)) ->
  acyclic (added_row c e q) <-> ~ tc (needs_with q e.(ce_id) (ce_deps e)) e.(ce_id) e.(ce_id).
Proof.
  intros Ok Ac N F. pose proof (insert_needs c e q Ok N F) as E. split.
  - intros H T. apply (H e.(ce_id)). revert T. apply tc_mono. intros a b. apply E.
  - intros H id T. assert (T' : tc (needs_with q e.(ce_id) (ce_deps e)) id id) by (revert T; apply tc_mono; intros a b; apply E).
    destruct (through_new _ _ _ _ _ T') as [Old|[R T2]]; [exact (Ac id Old)|]. apply H. eapply tc_rtc_r; eassumption.
Qed.

(** A new task has no phase: it may not wait for a source. *)
Lemma legal_insert c e q : store_ok q -> find_claimant e.(ce_id) q = None -> ~ In e.(ce_id) (map rw_id q.(cs_rows)) -> e.(ce_phase) = None ->
  edges_legal (added_row c e q) <->
  edges_legal q /\ forall b eb, In b (ce_deps e) -> b <> e.(ce_id) -> find_claimant b q = Some eb -> eb.(ce_phase) <> Some "source".
Proof.
  intros Ok N F Ph. assert (Old : forall id x, at_row id x q -> at_row id x (added_row c e q)).
  { intros id x A. unfold at_row. rewrite find_insert by assumption. case_decide as D; [|exact A]. unfold at_row in A. congruence. }
  assert (New : at_row e.(ce_id) e (added_row c e q)) by (unfold at_row; rewrite find_insert, decide_True by auto; reflexivity).
  split.
  - intros H. split; [intros a b ea eb A B; apply (H a b); auto|]. intros b eb I Nb B S.
    pose proof (H _ _ _ _ New (Old _ _ B) I S) as X. congruence.
  - intros [H Hn] a b ea eb A B I S. unfold at_row in A, B. rewrite find_insert in A, B by assumption. case_decide as Da; case_decide as Db.
    all: simplify_eq; try congruence; first [destruct (Hn _ _ I Da B S) | exact (H _ _ _ _ A B I S)].
Qed.

Lemma not_found_id id q : store_ok q -> find_claimant id q = None <-> ~ In id (map rw_id q.(cs_rows)).
Proof.
  intros Ok. split.
  - intros N I. apply in_map_iff in I as (r & <- & I). assert (A : at_row r.(rw_id) r.(rw_payload) q) by (apply at_row_In; eauto).
    unfold at_row in A. congruence.
  - intros F. destruct (find_claimant id q) as [e|] eqn:A; [|reflexivity]. exfalso. apply F. apply (at_row_In _ _ _ Ok) in A as (r & I & <- & _).
    apply in_map, I.
Qed.

(** The check of an enqueue answers, and throws exactly for a cycle. *)
Lemma cycle_check_exact id deps s : store_ok s.(lf_queue) -> tidy s.(lf_queue) -> find_claimant id s.(lf_queue) = None ->
  (assertNoDependencyCycle id deps s = (inr tt, s) /\ ~ tc (needs_with s.(lf_queue) id deps) id id)
  \/ (assertNoDependencyCycle id deps s = (inl "dependency_cycle_detected", s) /\ tc (needs_with s.(lf_queue) id deps) id id).
Proof.
  intros Ok Td N. unfold assertNoDependencyCycle, fails. destruct deps as [|d deps].
  - left. split; [reflexivity|]. intros T. assert (First : exists z, needs_with s.(lf_queue) id [] id z) by (inversion T; eauto).
    destruct First as (z & [[_ []]|(e & A & _)]). unfold at_row in A. congruence.
  - case_bool_decide as I; [right; split; [reflexivity|]; apply tc_once; left; rewrite <- list_elem_of_In; auto|].
    set (deps' := d :: deps) in *. destruct (walk_exact (queue_adjacency id deps' s.(lf_queue)) id deps') as (b & -> & B).
    { unfold queue_adjacency. rewrite map_get_set. apply decide_True. reflexivity. }
    pose proof (adjacency_edge _ id deps' Ok Td N) as E.
    destruct b; [right | left]; (split; [reflexivity|]).
    + apply (tc_mono _ _ (fun x y => proj1 (E x y))), B. reflexivity.
    + intros T. apply (tc_mono _ _ (fun x y => proj2 (E x y))), B in T. discriminate.
Qed.

(** ** Normalized lists are stored as they are *)

Lemma trim_end_idem s : trim_end (trim_end s) = trim_end s.
Proof.
  induction s as [|c s IH]; [reflexivity|]. cbn. destruct (trim_end s) as [|d t] eqn:E.
  - destruct (is_js_space c) eqn:B; cbn; [|rewrite B]; reflexivity.
  - cbn [trim_end] in *. rewrite IH. reflexivity.
Qed.

Lemma trim_start_head s : trim_start s = EmptyString \/ exists c t, trim_start s = String c t /\ is_js_space c = false.
Proof. induction s as [|c s IH]; [auto|]. cbn. destruct (is_js_space c) eqn:B; [exact IH | eauto]. Qed.

Lemma js_trim_idem s : js_trim (js_trim s) = js_trim s.
Proof.
  unfold js_trim. destruct (trim_start_head s) as [->|(c & t & -> & B)]; [reflexivity|].
  assert (H : exists u, trim_end (String c t) = String c u) by (cbn; rewrite B; destruct (trim_end t); eauto). destruct H as (u & E).
  rewrite E at 1. cbn [trim_start]. rewrite B, <- E. apply trim_end_idem.
Qed.

Lemma first_occurrences_idem (seen seen' l : list string) : (forall x, x ∈ seen' -> x ∈ seen) ->
  first_occurrences seen' (first_occurrences seen l) = first_occurrences seen l.
Proof.
  revert seen seen'; induction l as [|y l IH]; intros seen seen' S; cbn; [reflexivity|].
  case_bool_decide as B; [apply IH, S|]. cbn. rewrite bool_decide_eq_false_2 by (intros E; exact (B (S _ E))). f_equal. apply IH.
  intros x. rewrite !elem_of_cons. intros [->|E]; [auto | right; exact (S _ E)].
Qed.

Lemma normalize_In v x : In x (normalizeDependsOn v) <-> exists l y, v = D_arr l /\ In y l /\ x = string_of_value y /\ filled x = true.
Proof.
  destruct v as [| | | | | |l|]; cbn; try (split; [intros [] | intros (? & ? & [=] & _)]). split.
  - intros I. apply first_occurrences_In in I as [I _]. apply filter_In in I as [I F]. apply in_map_iff in I as (y & <- & I). eauto 10.
  - intros (l' & y & [= <-] & I & -> & F). assert (J : In (string_of_value y) (List.filter filled (map string_of_value l))) by (apply filter_In; split; [apply in_map, I | exact F]).
    apply first_occurrences_In. split; [exact J | intros []].
Qed.

Lemma normalize_trimmed v x : In x (normalizeDependsOn v) -> js_trim x = x.
Proof. intros I. apply normalize_In in I as (l & y & _ & _ & -> & _). destruct y; try reflexivity. apply js_trim_idem. Qed.

Lemma normalize_ids ids x : In x (normalizeDependsOn (ids_value (Some ids))) <-> exists y, In y ids /\ x = js_trim y /\ filled x = true.
Proof.
  rewrite normalize_In. cbn. split.
  - intros (l & v & [= <-] & I & -> & F). apply in_map_iff in I as (y & <- & I). eauto.
  - intros (y & I & -> & F). exists (map D_str ids), (D_str y). split_and!; auto. apply in_map, I.
Qed.

Lemma normalize_stored v : normalizeDependsOn (ids_value (non_empty (normalizeDependsOn v))) = normalizeDependsOn v.
Proof.
  destruct v as [| | | | | |l|]; try reflexivity. cbn [normalizeDependsOn].
  set (clean := List.filter filled (map string_of_value l)). assert (Cl : forall x, In x clean -> filled x = true /\ js_trim x = x).
  { intros x I. apply filter_In in I as [I F]. apply in_map_iff in I as (y & <- & _). split; [exact F|]. destruct y; try reflexivity. apply js_trim_idem. }
  assert (Fix : forall k, (forall x, In x k -> filled x = true /\ js_trim x = x) -> List.filter filled (map string_of_value (map D_str k)) = k).
  { intros k. induction k as [|x k IH]; intros H; [reflexivity|]. cbn. destruct (H x (or_introl eq_refl)) as [F ->]. rewrite F. f_equal. apply IH.
    intros y I. apply H. right. exact I. }
  destruct (first_occurrences [] clean) as [|x k] eqn:E; [reflexivity|]. cbn [non_empty ids_value normalizeDependsOn]. rewrite <- E, Fix.
  - apply first_occurrences_idem. auto.
  - intros y I. apply Cl. exact (proj1 (proj1 (first_occurrences_In _ _ _) I)).
Qed.

Lemma entry_deps nv meshId now a o q : ce_deps (enqueue_entry nv meshId now a o q) = normalizeDependsOn o.(eo_dependsOn).
Proof. unfold ce_deps, enqueue_entry. cbn. destruct (normalizeDependsOn _); reflexivity. Qed.

Lemma entry_tidy nv meshId now a o q : let e := enqueue_entry nv meshId now a o q in normalizeDependsOn (ids_value e.(ce_dependsOn)) = ce_deps e.
Proof. cbn zeta. rewrite entry_deps. apply normalize_stored. Qed.

Lemma tidy_insert c e q : store_ok q -> ~ In e.(ce_id) (map rw_id q.(cs_rows)) -> tidy q ->
  normalizeDependsOn (ids_value e.(ce_dependsOn)) = ce_deps e -> tidy (added_row c e q).
Proof.
  intros Ok F Td E id x A. unfold at_row in A. rewrite find_insert in A by assumption. case_decide; [congruence | exact (Td id x A)].
Qed.

Definition may_own (o : Owner) : Prop := o.(ow_handedOff) = false /\ o.(ow_member) = false.

Lemma owner_check o s : (requireMeshHostQueueOwner o s = (inr tt, s) /\ may_own o)
  \/ (exists code, requireMeshHostQueueOwner o s = (inl code, s)) /\ ~ may_own o.
Proof.
  unfold requireMeshHostQueueOwner, may_own, fails, mret, life_ret. destruct (ow_handedOff o); [right; split; [eauto | intros [[=] _]]|].
  destruct (ow_member o); [right; split; [eauto | intros [_ [=]]] | left; auto].
Qed.

Lemma insert_exact c e s : graph_ok s.(lf_queue) -> find_claimant e.(ce_id) s.(lf_queue) = None -> e.(ce_phase) = None ->
  ~ tc (needs_with s.(lf_queue) e.(ce_id) (ce_deps e)) e.(ce_id) e.(ce_id) ->
  let legal := edges_legal s.(lf_queue) /\ forall b eb, In b (ce_deps e) -> find_claimant b s.(lf_queue) = Some eb -> eb.(ce_phase) <> Some "source" in
  (insertQueueEntry c e s = (inr tt, with_queue (added_row c e s.(lf_queue)) s) /\ legal)
  \/ (exists code, insertQueueEntry c e s = (inl code, s)) /\ ~ legal.
Proof.
  intros [Ok Ac] N Ph Nc. pose proof (proj1 (not_found_id _ _ Ok) N) as F. cbn zeta.
  assert (L : edges_legal (added_row c e s.(lf_queue)) <-> edges_legal s.(lf_queue)
    /\ forall b eb, In b (ce_deps e) -> find_claimant b s.(lf_queue) = Some eb -> eb.(ce_phase) <> Some "source").
  { rewrite (legal_insert c e _ Ok N F Ph). split; intros [H1 H2]; (split; [exact H1|]); intros b eb I.
    - intros B. apply (H2 b eb I); [congruence | exact B].
    - intros _ B. exact (H2 b eb I B). }
  pose proof (accepted_exactly _ _ (listing_insert c e _ Ok F)) as A. pose proof (proj2 (acyclic_insert c e _ Ok Ac N F) Nc) as Ac'.
  unfold insertQueueEntry, fails. destruct (graph_refused _); [right | left].
  - split; [eauto|]. rewrite <- L. intros H. discriminate (proj2 A (conj Ac' H)).
  - rewrite bool_decide_eq_false_2 by (rewrite list_elem_of_In; exact F). split; [reflexivity|]. apply L, A. reflexivity.
Qed.

(** What an enqueue leaves behind when it answers. *)
Record enqueued (nv : EnqueueEnv) (now : Z) (o : EnqueueOptions) (q : ClaimStore) (e : ClaimEntry) (q' : ClaimStore) : Prop := {
  nq_table : q' = added_row (nv.(nv_life).(le_iso) now) e q;
  nq_id : e.(ce_id) = enqueue_id nv o;
  nq_fresh : find_claimant (enqueue_id nv o) q = None;
  nq_pending : e.(ce_status) = st_pending;
  nq_unbound : unbound e;
  nq_deps : ce_deps e = normalizeDependsOn o.(eo_dependsOn);
  nq_tidy : tidy q -> tidy q' }.

(** The prerequisites leave a new task out of every cycle and of the edges from
    sources. *)
Definition admissible_deps (id : string) (deps : list string) (q : ClaimStore) : Prop :=
  ~ tc (needs_with q id deps) id id /\ edges_legal q
  /\ forall b eb, In b deps -> find_claimant b q = Some eb -> eb.(ce_phase) <> Some "source".

(** C20: On a queue without cycles an enqueue adds one pending row, bound to nobody,
    or changes nothing.  It adds the row exactly when the daemon owns the queue,
    the request is well formed, its id is new, its prerequisites do not lead
    back to it, none of them is a source, and no row waits for a source without
    being an integration task. *)
Theorem enqueue_exactly nv meshId now message o s : graph_ok s.(lf_queue) -> tidy s.(lf_queue) ->
  let q := s.(lf_queue) in
  let id := enqueue_id nv o in
  let '(r, s') := enqueueTask nv meshId now message o s in
  match r with inr e => enqueued nv now o q e s'.(lf_queue) | inl _ => s'.(lf_queue) = q end
  /\ ((exists e, r = inr e) <->
        may_own o.(eo_owner) /\ (exists a, admit_enqueue nv message o = inr a) /\ find_claimant id q = None
        /\ admissible_deps id (normalizeDependsOn o.(eo_dependsOn)) q).
Proof.
  intros G Td. cbn zeta. unfold enqueueTask, mbind, life_bind.
  assert (No : forall code (P : Prop), ~ P -> s.(lf_queue) = s.(lf_queue) /\ ((exists e : ClaimEntry, (inl code : string + ClaimEntry) = inr e) <-> P)).
  { intros code P N. split; [reflexivity|]. split; [intros (? & [=]) | intros H; destruct (N H)]. }
  destruct (owner_check o.(eo_owner) s) as [[-> Own]|[(code & ->) NOwn]]; [|apply No; tauto].
  destruct (admit_enqueue nv message o) as [code|a] eqn:Ad; [apply No; intros (_ & (? & [=]) & _)|].
  unfold transaction, enqueue_row, mbind, life_bind, reads, find_entry_of.
  destruct (find_claimant (enqueue_id nv o) (lf_queue s)) as [e0|] eqn:Fr; cbn [present]; [apply No; intros (_ & _ & [=] & _)|].
  destruct G as [Ok Ac]. set (e := enqueue_entry nv meshId now a o (lf_queue s)).
  assert (Ei : e.(ce_id) = enqueue_id nv o) by reflexivity. pose proof (entry_deps nv meshId now a o (lf_queue s)) as Ed. fold e in Ed.
  destruct (cycle_check_exact (enqueue_id nv o) (normalizeDependsOn o.(eo_dependsOn)) s Ok Td Fr) as [[-> Nc]|[-> Cy]]; [|apply No; unfold admissible_deps; tauto].
  cbv beta iota zeta. fold e. destruct (insert_exact (nv.(nv_life).(le_iso) now) e s) as [[-> Lg]|[(code & ->) Nl]];
    [split; assumption | rewrite Ei; exact Fr | reflexivity | rewrite Ei, Ed; exact Nc | |].
  - rewrite Ed in Lg. cbn. split; [|split; [intros _; split_and!; eauto; split; tauto | eauto]].
    split; try reflexivity; auto; [split; reflexivity|]. intros _. apply tidy_insert; [exact Ok | apply not_found_id; assumption | exact Td | apply entry_tidy].
  - rewrite Ed in Nl. apply No. unfold admissible_deps. tauto.
Qed.

(** ** Batches *)

Section Batches.
Context (nv : EnqueueEnv) (meshId : string) (now : Z).

Notation iso := (nv.(nv_life).(le_iso) now).

Lemma cycle_check_reads id deps s : (assertNoDependencyCycle id deps s).2 = s.
Proof. unfold assertNoDependencyCycle, fails. repeat case_match; reflexivity. Qed.

(** An enqueue that answers, whatever the queue. *)
Lemma enqueue_answers message o s e s' : enqueueTask nv meshId now message o s = (inr e, s') ->
  s'.(lf_queue) = added_row iso e s.(lf_queue) /\ e.(ce_id) = enqueue_id nv o /\ e.(ce_status) = st_pending /\ unbound e
  /\ ce_deps e = normalizeDependsOn o.(eo_dependsOn).
Proof.
  unfold enqueueTask, mbind, life_bind. destruct (owner_check o.(eo_owner) s) as [[-> _]|[(code & ->) _]]; [|discriminate].
  destruct (admit_enqueue nv message o) as [code|a]; [discriminate|]. unfold transaction, enqueue_row, mbind, life_bind, reads.
  destruct (present _); [discriminate|]. pose proof (cycle_check_reads (enqueue_id nv o) (normalizeDependsOn o.(eo_dependsOn)) s) as Rd.
  destruct (assertNoDependencyCycle _ _ s) as [[code|u] s1]; [discriminate|]. cbn in Rd. subst s1. unfold insertQueueEntry, fails.
  destruct (graph_refused _); [discriminate|]. destruct (bool_decide _); [discriminate|]. intros [= <- <-].
  split; [reflexivity|]. split; [reflexivity|]. split; [reflexivity|]. split; [split; reflexivity | apply entry_deps].
Qed.

Lemma resolve_dep_spec idByRef d s : (resolve_dep idByRef d s).2 = s
  /\ forall id, (resolve_dep idByRef d s).1 = inr id ->
       map_get d idByRef = Some id
       \/ (forall x, map_get d idByRef = Some x -> filled x = false) /\ id = d /\ present (find_claimant d s.(lf_queue)) = true.
Proof.
  unfold resolve_dep, mbind, life_bind, reads, find_entry_of, fails, mret, life_ret.
  destruct (map_get d idByRef) as [id|]; [destruct (filled id) eqn:Fl|]; try (split; [reflexivity | intros ? [= <-]; auto]).
  all: destruct (present _) eqn:P; (split; [reflexivity|]); [intros ? [= <-]; right; split; [intros x [= <-]; exact Fl || discriminate | auto] | discriminate].
Qed.

(** A resolved prerequisite is a task of the batch or a row. *)
Definition resolved (idByRef : jsmap string) (q : ClaimStore) (d id : string) : Prop :=
  map_get d idByRef = Some id
  \/ (forall x, map_get d idByRef = Some x -> filled x = false) /\ id = d /\ In d (map rw_id q.(cs_rows)).

Lemma found_row d q : present (find_claimant d q) = true -> In d (map rw_id q.(cs_rows)).
Proof.
  unfold find_claimant. induction (cs_rows q) as [|r l IH]; [discriminate|]. cbn. case_bool_decide; [auto | intros P; right; exact (IH P)].
Qed.

Lemma resolve_deps_spec idByRef deps s : (resolve_deps idByRef deps s).2 = s
  /\ forall ids, (resolve_deps idByRef deps s).1 = inr ids -> Forall2 (resolved idByRef s.(lf_queue)) deps ids.
Proof.
  induction deps as [|d deps [IH1 IH2]]; [split; [reflexivity | intros ids [= <-]; constructor]|]. cbn [resolve_deps]. unfold mbind, life_bind.
  pose proof (resolve_dep_spec idByRef d s) as [H1 H2]. destruct (resolve_dep idByRef d s) as [[e|id] s1]; cbn in H1; subst s1; [split; [reflexivity | discriminate]|].
  destruct (resolve_deps idByRef deps s) as [[e|rest] s2]; cbn in IH1; subst s2; [split; [reflexivity | discriminate]|].
  split; [reflexivity|]. intros ids [= <-]. constructor; [|auto]. destruct (H2 id eq_refl) as [?|(N & -> & P)]; [left; assumption | right; split_and!; [exact N | reflexivity | apply found_row, P]].
Qed.

Definition clean_uuids : Prop := forall n, js_trim (nv.(nv_uuid) n) = nv.(nv_uuid) n /\ filled (nv.(nv_uuid) n) = true.

(** What a task of a batch asks for, and what became of it. *)
Definition batch_task (idByRef : jsmap string) (q : ClaimStore) (spec : TaskBatchEntrySpec) (e : ClaimEntry) : Prop :=
  e.(ce_status) = st_pending /\ unbound e
  /\ exists ids, Forall2 (resolved idByRef q) (normalizeDependsOn spec.(bs_options).(eo_dependsOn)) ids
       /\ ce_deps e = normalizeDependsOn (ids_value (Some ids)).

Lemma specs_answer owner idByRef ids specs s entries s' : clean_uuids -> length ids = length specs ->
  (forall id, In id ids -> exists n, id = nv.(nv_uuid) n) ->
  enqueue_specs nv meshId now owner idByRef ids specs s = (inr entries, s') ->
  s'.(lf_queue).(cs_rows) = (s.(lf_queue).(cs_rows) ++ map (toRow iso) entries)%list
  /\ map ce_id entries = ids /\ Forall2 (batch_task idByRef s'.(lf_queue)) specs entries.
Proof.
  intros Cl. revert ids s entries; induction specs as [|spec specs IH]; intros [|id ids] s entries L U; try discriminate.
  { intros [= <- <-]. cbn. rewrite app_nil_r. auto. }
  cbn [enqueue_specs]. unfold mbind, life_bind.
  pose proof (resolve_deps_spec idByRef (normalizeDependsOn (eo_dependsOn (bs_options spec))) s) as [R1 R2].
  destruct (resolve_deps _ _ s) as [[err|deps] s1]; cbn in R1; subst s1; [discriminate|].
  destruct (enqueueTask _ _ _ _ _ s) as [[err|e] s2] eqn:E; [discriminate|]. apply enqueue_answers in E as (Q & Ei & Pe & Ub & De).
  destruct (enqueue_specs _ _ _ _ _ _ _ s2) as [[err|rest] s3] eqn:E3; [discriminate|]. intros [= <- <-].
  destruct (IH ids s2 rest) as (Rows & Ids & F); [cbn in L; lia | intros x I; apply U; right; exact I | exact E3|].
  rewrite Q in Rows. unfold added_row in Rows. cbn in Rows. rewrite <- app_assoc in Rows. cbn in Rows |- *. split; [exact Rows|]. split.
  - rewrite Ids, Ei. f_equal. destruct (U id (or_introl eq_refl)) as (n & ->). destruct (Cl n) as [Tr Fl].
    transitivity (nullish (trimmed_text (Some (nv.(nv_uuid) n))) (nv.(nv_uuid) 0%nat)); [reflexivity|].
    unfold trimmed_text, read_text. cbn [nullish]. rewrite Tr, Fl. reflexivity.
  - constructor; [|exact F]. split; [exact Pe|]. split; [exact Ub|]. exists deps. split; [|exact De].
    eapply Forall2_impl; [exact (R2 deps eq_refl)|]. intros d x [?|(N & -> & I)]; [left; assumption|]. right. split; [exact N|]. split; [reflexivity|].
    rewrite Rows, map_app, in_app_iff. left. exact I.
Qed.

Lemma batch_refs_spec ids specs acc m : batch_refs ids specs acc = Some m ->
  (forall k v, map_get k acc = Some v -> map_get k m = Some v)
  /\ (forall k v, map_get k m = Some v -> map_get k acc = Some v \/ In v ids)
  /\ (forall i spec id, specs !! i = Some spec -> ids !! i = Some id -> filled (read_text spec.(bs_ref)) = true ->
       map_get (read_text spec.(bs_ref)) m = Some id).
Proof.
  revert ids acc; induction specs as [|spec specs IH]; intros [|id ids] acc; cbn [batch_refs];
    try (intros [= <-]; split_and!; [auto | auto | intros [|i] ? ?; discriminate]).
  destruct (filled (read_text (bs_ref spec))) eqn:Fl; cbn [negb].
  - destruct (map_get (read_text (bs_ref spec)) acc) eqn:G; [discriminate|]. cbn. intros E. destruct (IH _ _ E) as (H1 & H2 & H3). split_and!.
    + intros k v K. apply H1. rewrite map_get_set. case_decide; [congruence | exact K].
    + intros k v K. destruct (H2 k v K) as [K'|]; [|cbn; auto]. rewrite map_get_set in K'. case_decide; [injection K' as <-; cbn; auto | auto].
    + intros [|i] sp x; cbn; [|apply H3]. intros [= <-] [= <-] _. apply H1. rewrite map_get_set. apply decide_True. reflexivity.
  - intros E. destruct (IH _ _ E) as (H1 & H2 & H3). split_and!; [exact H1 | |].
    + intros k v K. destruct (H2 k v K); cbn; auto.
    + intros [|i] sp x; cbn; [|apply H3]. intros [= <-] _ F. congruence.
Qed.
End Batches.

(** C21: A batch is whole or nothing.  When it throws, no row changed.  When it
    answers it added one pending row per task, in order, under the ids drawn
    for them; a task that names the label of another depends on that task's
    row, also when it comes later in the batch; and every prerequisite of a
    task of the batch is a row of the queue. *)
Theorem batch_whole nv meshId now specs owner s : clean_uuids nv ->
  let '(r, s') := enqueueTaskBatch nv meshId now specs owner s in
  match r with
  | inl _ => s'.(lf_queue) = s.(lf_queue)
  | inr entries =>
      s'.(lf_queue).(cs_rows) = (s.(lf_queue).(cs_rows) ++ map (toRow (nv.(nv_life).(le_iso) now)) entries)%list
      /\ map ce_id entries = batch_ids nv specs
      /\ (forall e, In e entries -> e.(ce_status) = st_pending /\ unbound e
           /\ forall d, In d (ce_deps e) -> In d (map rw_id s'.(lf_queue).(cs_rows)))
      /\ (forall i j si sj ej, specs !! i = Some si -> specs !! j = Some sj -> entries !! j = Some ej ->
           filled (read_text si.(bs_ref)) = true -> In (read_text si.(bs_ref)) (normalizeDependsOn sj.(bs_options).(eo_dependsOn)) ->
           In (nv.(nv_uuid) i) (ce_deps ej))
  end.
Proof.
  intros Cl. unfold enqueueTaskBatch, mbind, life_bind. destruct (owner_check owner s) as [[-> _]|[(code & ->) _]]; [|reflexivity].
  destruct specs as [|spec0 specs0]; [reflexivity|]. set (specs := spec0 :: specs0). destruct (bool_decide _); [reflexivity|].
  destruct (batch_refs (batch_ids nv specs) specs []) as [m|] eqn:B; [|reflexivity]. unfold transaction.
  destruct (enqueue_specs _ _ _ _ _ _ _ s) as [[code|entries] s'] eqn:E; [reflexivity|].
  assert (Lookup : forall i si, specs !! i = Some si -> batch_ids nv specs !! i = Some (nv.(nv_uuid) i)).
  { intros i si L. unfold batch_ids. rewrite list_lookup_fmap. apply lookup_lt_Some in L. rewrite lookup_seq_lt by exact L. reflexivity. }
  assert (Uu : forall id, In id (batch_ids nv specs) -> exists n, id = nv.(nv_uuid) n).
  { intros id I. apply in_map_iff in I as (n & <- & _). eauto. }
  destruct (specs_answer nv meshId now owner m (batch_ids nv specs) specs s entries s' Cl) as (Rows & Ids & F); [unfold batch_ids; rewrite length_map, length_seq; reflexivity | exact Uu | exact E|].
  destruct (batch_refs_spec _ _ _ _ B) as (_ & Vals & Labels). split; [exact Rows|]. split; [exact Ids|].
  assert (New : forall id, In id (batch_ids nv specs) -> In id (map rw_id s'.(lf_queue).(cs_rows))).
  { intros id I. rewrite Rows, map_app, in_app_iff, map_map. right. rewrite <- Ids in I. exact I. }
  split.
  - intros e I. destruct (Forall2_In_r _ _ _ _ F I) as (spec & _ & P & U & ids & R & D). split; [exact P|]. split; [exact U|]. intros d. rewrite D, normalize_ids.
    intros (y & Iy & -> & _). destruct (Forall2_In_r _ _ _ _ R Iy) as (x & Ix & [G|(_ & -> & J)]).
    + destruct (Vals _ _ G) as [[=]|V]. destruct (Uu y V) as (n & ->). rewrite (proj1 (Cl n)). exact (New _ V).
    + rewrite (normalize_trimmed _ _ Ix). exact J.
  - intros i j si sj ej Li Lj Le Fl I. destruct (Forall2_lookup_lr _ _ _ _ _ _ F Lj Le) as (_ & _ & ids & R & D). rewrite D, normalize_ids.
    pose proof (Labels i si _ Li (Lookup i si Li) Fl) as G. destruct (Forall2_In_l _ _ _ _ R I) as (y & Iy & [G'|(N & _)]).
    + rewrite G in G'. injection G' as <-. exists (nv.(nv_uuid) i). destruct (Cl i) as [Tr Fi]. rewrite Tr. auto.
    + exfalso. pose proof (N _ G) as X. destruct (Cl i) as [_ Fi]. congruence.
Qed.

(** ** New tasks give no claim *)

(** What new rows that are bound to nobody do to the tables. *)
Record grown (meshId : string) (q q' : ClaimStore) : Prop := {
  gw_ok : store_ok q -> store_ok q';
  gw_claims : no_new_claims meshId q q';
  gw_rows : forall r, In r q.(cs_rows) -> In r q'.(cs_rows) }.

#[global] Instance grown_preorder meshId : PreOrder (grown meshId).
Proof.
  split; [intros q; split; [auto | reflexivity | auto]|]. intros q1 q2 q3 [O1 C1 R1] [O2 C2 R2]. split; [auto | etransitivity; eauto | auto].
Qed.

Lemma grown_insert meshId c e q : ~ In e.(ce_id) (map rw_id q.(cs_rows)) -> unbound e -> grown meshId q (added_row c e q).
Proof.
  intros F [Us Un]. split; [intros Ok; exact (insert_ok c e q Ok F) | | intros r I; cbn; apply in_app_iff; auto].
  split; intros r' x I A E; cbn in I; apply in_app_iff in I as [I|[<-|[]]]; cbn in E; try congruence.
  - exists r'. auto.
  - intros W. exists r'. auto.
Qed.

Lemma enqueue_grown nv meshId now message o s : grown meshId s.(lf_queue) (enqueueTask nv meshId now message o s).2.(lf_queue).
Proof.
  unfold enqueueTask, mbind, life_bind. destruct (owner_check o.(eo_owner) s) as [[-> _]|[(code & ->) _]]; [|reflexivity].
  destruct (admit_enqueue nv message o) as [code|a]; [reflexivity|]. unfold transaction, enqueue_row, mbind, life_bind, reads.
  destruct (present _); [reflexivity|]. pose proof (cycle_check_reads (enqueue_id nv o) (normalizeDependsOn o.(eo_dependsOn)) s) as Rd.
  destruct (assertNoDependencyCycle _ _ s) as [[code|u] s1]; [reflexivity|]. cbn in Rd. subst s1. unfold insertQueueEntry, fails.
  destruct (graph_refused _); [reflexivity|]. case_bool_decide as F; [reflexivity|]. apply grown_insert; [rewrite <- list_elem_of_In; exact F | split; reflexivity].
Qed.

Lemma specs_grown nv meshId now owner idByRef ids specs s : grown meshId s.(lf_queue) (enqueue_specs nv meshId now owner idByRef ids specs s).2.(lf_queue).
Proof.
  revert ids s; induction specs as [|spec specs IH]; intros [|id ids] s; try reflexivity. cbn [enqueue_specs]. unfold mbind, life_bind.
  pose proof (resolve_deps_spec idByRef (normalizeDependsOn (eo_dependsOn (bs_options spec))) s) as [R _].
  destruct (resolve_deps _ _ s) as [[err|deps] s1]; cbn in R; subst s1; [reflexivity|].
  match goal with |- context [enqueueTask ?a ?b ?c ?d ?e s] => pose proof (enqueue_grown a b c d e s) as G; destruct (enqueueTask a b c d e s) as [[err|x] s2] end; [exact G|].
  specialize (IH ids s2). destruct (enqueue_specs _ _ _ _ _ _ _ s2) as [[err|rest] s3]; (etransitivity; [exact G | exact IH]).
Qed.

Lemma batch_grown nv meshId now specs owner s : grown meshId s.(lf_queue) (enqueueTaskBatch nv meshId now specs owner s).2.(lf_queue).
Proof.
  unfold enqueueTaskBatch, mbind, life_bind. destruct (owner_check owner s) as [[-> _]|[(code & ->) _]]; [|reflexivity].
  destruct specs as [|spec specs]; [reflexivity|]. destruct (bool_decide _); [reflexivity|]. destruct (batch_refs _ _ _) as [m|]; [|reflexivity].
  unfold transaction. match goal with |- context [enqueue_specs ?a ?b ?c ?d ?e ?f ?g s] => pose proof (specs_grown a b c d e f g s) as G; destruct (enqueue_specs a b c d e f g s) as [[err|x] s2] end;
    [reflexivity | exact G].
Qed.

(** Enqueues and batches are steps of the runs whose sessions stay exclusive. *)
Lemma grown_step meshId sticky s s' : store_ok s.(lf_queue) -> grown meshId s.(lf_queue) s'.(lf_queue) -> life_step meshId sticky s s'.
Proof. intros Ok [O C R]. apply life_outside; [auto | exact C |]. intros r I E. exists r. auto. Qed.

Lemma enqueue_step nv meshId now sticky message o s : store_ok s.(lf_queue) -> life_step meshId sticky s (enqueueTask nv meshId now message o s).2.
Proof. intros Ok. apply grown_step; [exact Ok | apply enqueue_grown]. Qed.

Lemma batch_step nv meshId now sticky specs owner s : store_ok s.(lf_queue) -> life_step meshId sticky s (enqueueTaskBatch nv meshId now specs owner s).2.
Proof. intros Ok. apply grown_step; [exact Ok | apply batch_grown]. Qed.

(** ** Revisions *)

(** What a revision does not touch. *)
Definition identity_of (e : ClaimEntry) :=
  (e.(ce_id), e.(ce_status), e.(ce_targetNodeId), e.(ce_targetSessionId), e.(ce_assignedNodeId), e.(ce_assignedSessionId),
   e.(ce_assignedProviderType), e.(ce_attemptId), e.(ce_dispatchNonce), e.(ce_requeueCount), e.(ce_dispatchFailureCount),
   e.(ce_missionId)).

Lemma identity_id e e' : identity_of e = identity_of e' -> e.(ce_id) = e'.(ce_id) /\ e.(ce_status) = e'.(ce_status).
Proof. intros [= E1 E2]. auto. Qed.

(** An edit that answers keeps it. *)
Definition careful (edit : ClaimEntry -> string + ClaimEntry) : Prop :=
  forall e e', edit e = inr e' -> identity_of e' = identity_of e.

Lemma careful_then r edit e0 : careful edit -> (forall e, r = inr e -> identity_of e = identity_of e0) ->
  forall e', then_edit r edit = inr e' -> identity_of e' = identity_of e0.
Proof. intros C H e'. destruct r as [code|e]; cbn; [discriminate|]. intros E. rewrite (C _ _ E). apply H. reflexivity. Qed.

Lemma careful_if {A} (p : option A) edit : (forall v, careful (edit v)) -> careful (edit_if p edit).
Proof. intros C e e'. destruct p as [v|]; cbn; [apply C | intros [= <-]; reflexivity]. Qed.

Lemma refuse_if_inr b code r e : refuse_if b code r = inr e -> r = inr e.
Proof. unfold refuse_if. destruct b; [discriminate | auto]. Qed.

Ltac careful_edit := intros e e' E; repeat (case_match; try discriminate E); try apply refuse_if_inr in E; injection E as <-; reflexivity.

Section Revisions.
Context (nv : EnqueueEnv) (disk : Disk) (meshId : string) (now : Z).

Lemma careful_message before v : careful (edit_message nv before v).
Proof. unfold edit_message. careful_edit. Qed.

Lemma careful_paths raw : careful (edit_paths raw).
Proof. unfold edit_paths. careful_edit. Qed.

Lemma careful_phase v : careful (edit_phase v).
Proof. unfold edit_phase. careful_edit. Qed.

Lemma careful_difficulty before v : careful (edit_difficulty nv before v).
Proof. unfold edit_difficulty. careful_edit. Qed.

Lemma careful_routing v : careful (edit_routing v).
Proof. unfold edit_routing. careful_edit. Qed.

Lemma careful_review q v : careful (edit_review q v).
Proof. unfold edit_review. careful_edit. Qed.

Lemma careful_scope host before : careful (edit_scope disk host before).
Proof. unfold edit_scope. careful_edit. Qed.

Lemma careful_dependsOn q v : careful (edit_dependsOn q v).
Proof. unfold edit_dependsOn. careful_edit. Qed.

Lemma careful_graph q : careful (edit_graph q).
Proof. unfold edit_graph. careful_edit. Qed.

Lemma careful_admission q patch before : careful (edit_admission nv disk meshId now q patch before).
Proof. unfold edit_admission. cbv zeta. careful_edit. Qed.

Lemma careful_warnings q : careful (fun next => inr (edit_warnings q next)).
Proof. intros e e' [= <-]. unfold edit_warnings. repeat case_match; reflexivity. Qed.

Lemma revised_identity patch host q before next :
  revised_entry nv disk meshId now patch host q before = inr next -> identity_of next = identity_of before.
Proof.
  revert next. unfold revised_entry. cbv zeta.
  apply careful_then; [apply careful_warnings|]. apply careful_then; [apply careful_admission|]. apply careful_then; [apply careful_graph|].
  apply careful_then; [apply careful_if, careful_dependsOn|]. apply careful_then; [apply careful_scope|].
  apply careful_then; [apply careful_if, careful_review|]. apply careful_then; [apply careful_if, careful_routing|].
  apply careful_then; [apply careful_if, careful_difficulty|]. apply careful_then; [apply careful_if, careful_phase|].
  apply careful_then; [apply careful_if, careful_paths|]. apply (careful_if _ _ (careful_message before)).
Qed.
End Revisions.

Definition revision_of (e : ClaimEntry) : Z := nullish e.(ce_revision) 0.

(** C22: A revision is a compare-and-swap.  One that throws, and a dry run, change no
    row.  One that answers found the row pending, at the revision its author
    read, with no attempt and no dispatch under way; it changes that row alone,
    preserving its identity, binding and counters, remembers what it replaced and
    moves the revision by one, so that a second author who read the same
    revision is refused. *)
Theorem revision_guarded nv disk meshId now taskId expected patch host s : store_ok s.(lf_queue) ->
  let '(r, s') := revisePendingTask nv disk meshId now taskId expected patch host s in
  match r with
  | inl _ => s'.(lf_queue) = s.(lf_queue)
  | inr next =>
      exists before, find_claimant taskId s.(lf_queue) = Some before
        /\ before.(ce_status) = st_pending /\ revision_of before = expected
        /\ isTaskDispatchInFlight meshId taskId s.(lf_inFlight) = false
        /\ findOpenQueueAttempt s.(lf_queue).(cs_turns) meshId taskId = None
        /\ identity_of next = identity_of before
        /\ if host.(rv_dryRun) then s'.(lf_queue) = s.(lf_queue)
           else s'.(lf_queue) = put_row next s.(lf_queue) /\ find_claimant taskId s'.(lf_queue) = Some next
             /\ revision_of next = expected + 1
             /\ next.(ce_revisionHistory) = (before.(ce_revisionHistory) ++ [remembered nv now expected host.(rv_actor) before])%list
             /\ forall now' patch' host', (revisePendingTask nv disk meshId now' taskId expected patch' host' s').1
                  ∈ ([inl "authenticated_host_required"; inl "unsupported_revision_patch"; inl "stale_revision"] : list (string + ClaimEntry))
  end.
Proof.
  intros Ok. unfold revisePendingTask. destruct (bad_host _ _ _); [reflexivity|]. destruct (bad_revision expected); [reflexivity|].
  destruct (empty_patch patch); [reflexivity|]. unfold transaction, revise_row, find_entry_of, fails.
  destruct (find_claimant taskId (lf_queue s)) as [before|] eqn:A; [|reflexivity].
  destruct (bool_decide (ce_status before = st_pending)) eqn:P; cbn [negb]; [|reflexivity]. apply bool_decide_eq_true in P.
  destruct (nullish (ce_revision before) 0 =? expected) eqn:R; cbn [negb]; [|reflexivity]. apply Z.eqb_eq in R.
  destruct (isTaskDispatchInFlight _ _ _) eqn:Fl; cbn [orb]; [reflexivity|].
  destruct (findOpenQueueAttempt _ _ _) as [open|] eqn:Op; cbn [present]; [reflexivity|].
  destruct (revised_entry _ _ _ _ _ _ _ _) as [code|next] eqn:E; [reflexivity|]. pose proof (revised_identity _ _ _ _ _ _ _ _ _ E) as Id.
  destruct (rv_dryRun host) eqn:Dry; [exists before; split_and!; auto|].
  match goal with |- context [writeQueueEntry ?a ?b ?c ?e s] => destruct (writeQueueEntry a b c e s) as [[code|w] s1] eqn:W; [reflexivity|]; set (e1 := e) in * end.
  apply write_answers in W as [Ew Q].
  assert (I1 : identity_of e1 = identity_of before) by (rewrite <- Id; unfold e1, rescheduled; destruct (rv_deferScheduling host); reflexivity).
  assert (H1 : ce_revisionHistory e1 = (ce_revisionHistory before ++ [remembered nv now expected (rv_actor host) before])%list)
    by (unfold e1, rescheduled; destruct (rv_deferScheduling host); reflexivity).
  clearbody e1. destruct (identity_id _ _ I1) as [Ji Js]. pose proof (at_row_id _ _ _ Ok A) as Ei. rewrite Ji, Ei, A in Ew.
  assert (Iw : identity_of w = identity_of before) by (rewrite <- I1, Ew; reflexivity). destruct (identity_id _ _ Iw) as [Wi Ws].
  assert (Rw : revision_of w = expected + 1) by (rewrite Ew; unfold revision_of, stamped; cbn; lia).
  assert (Aw : find_claimant taskId (lf_queue s1) = Some w).
  { rewrite Q. rewrite <- Ei, <- Wi. apply (find_put_same _ before). rewrite Wi, Ei. exact A. }
  exists before. split_and!; auto; [rewrite Ew; exact H1|]. intros now' patch' host'.
  destruct (bad_host _ _ _); [left|]. destruct (empty_patch patch'); [right; left|].
  rewrite Aw. rewrite bool_decide_eq_true_2 by congruence. cbn [negb]. unfold revision_of in Rw. rewrite Rw.
  rewrite (proj2 (Z.eqb_neq (expected + 1) expected)) by lia. right. right. left.
Qed.

(** ** Inherited artifacts *)

(** An artifact a task of a mission may inherit: evidence a worker or the
    pipeline wrote for another task of the mission that has ended with a
    result. *)
Definition evidence_for (ar : ArtifactEnv) (mesh mission excludeTask : string) (q : ClaimStore) (rec : InheritableArtifact) : Prop :=
  In rec ar.(ar_table) /\ rec.(ia_missionId) = Some mission /\ rec.(ia_meshId) = Some mesh
  /\ (read_text rec.(ia_producerRole) = "worker" \/ read_text rec.(ia_producerRole) = "pipeline")
  /\ exists e, at_row (read_text rec.(ia_taskId)) e q /\ e.(ce_id) <> excludeTask /\ read_text e.(ce_missionId) = mission
       /\ In e.(ce_status) INHERIT_FROM_STATUSES.

Lemma missionTaskStatus_get mission q id st : store_ok q -> map_get id (missionTaskStatus mission q) = Some st ->
  exists e, at_row id e q /\ read_text e.(ce_missionId) = mission /\ e.(ce_status) = st.
Proof.
  intros Ok G. destruct (listing_entries q Ok) as [N R]. unfold missionTaskStatus in G.
  apply (keyed_get ce_status) in G as (e & I & Ei & Es).
  - apply filter_In in I as [I M]. apply bool_decide_eq_true in M. exists e. split; [apply R; auto | auto].
  - clear G. revert N. generalize (queue_entries q). intros l. induction l as [|x l IH]; [auto|]. cbn. intros [Nx N]%NoDup_cons.
    case_bool_decide; cbn; [|auto]. apply NoDup_cons. split; [|auto]. intros J. apply Nx. rewrite list_elem_of_In in J |- *.
    apply in_map_iff in J as (y & <- & J). apply filter_In in J as [J _]. apply in_map, J.
Qed.

(** A mission task inherits at most twelve artifacts, none it named itself, and
    only evidence of finished tasks of its own mission. *)
Lemma inherits_evidence ar meshId missionId excludeTask explicit q : store_ok q ->
  let ids := resolveInheritedArtifactIds ar meshId missionId (Some excludeTask) explicit q in
  (length ids <= 12)%nat
  /\ forall id, In id ids -> ~ In id (map js_trim explicit)
       /\ exists rec, rec.(ia_artifactId) = id /\ evidence_for ar (js_trim meshId) (read_text missionId) (js_trim excludeTask) q rec.
Proof.
  intros Ok. cbn zeta. unfold resolveInheritedArtifactIds. destruct (negb _); [split; [cbn; lia | intros id []]|].
  unfold listInheritableArtifacts. destruct (_ || _); [split; [cbn; lia | intros id []]|]. destruct (_ || _); [split; [cbn; lia | intros id []]|].
  change (Z.to_nat _) with 12%nat. split; [rewrite length_map; apply firstn_le_length|].
  intros id I. apply in_map_iff in I as (rec & <- & I). apply list_elem_of_In, elem_of_take in I as (i & L & _).
  apply list_elem_of_lookup_2, list_elem_of_In, In_order_by, filter_In in L as [I El].
  apply list_elem_of_In, elem_of_take in I as (k & Lk & _). apply list_elem_of_lookup_2, list_elem_of_In, In_order_by, in_rev, filter_In in Lk as [It Q].
  apply andb_true_iff in Q as [Qm Qh]. apply bool_decide_eq_true in Qm, Qh.
  unfold inherit_eligible in El. rewrite !andb_true_iff, !negb_true_iff, !bool_decide_eq_false in El. destruct El as ((((_ & _) & Ex) & Ro) & (_ & Ne) & St).
  apply bool_decide_eq_true in Ro. rewrite list_elem_of_In in Ex. split; [exact Ex|]. exists rec. split; [reflexivity|].
  destruct (map_get _ _) as [st|] eqn:G; [|discriminate]. apply bool_decide_eq_true, list_elem_of_In in St.
  destruct (missionTaskStatus_get _ _ _ _ Ok G) as (e & A & M & <-). split_and!; auto.
  - apply elem_of_cons in Ro as [Ro|Ro]; [auto|]. apply list_elem_of_singleton in Ro. auto.
  - exists e. split; [exact A|]. split; [rewrite (at_row_id _ _ _ Ok A); exact Ne|]. split; [exact M | exact St].
Qed.

(** ** An empty queue, filled *)

Fixpoint us (n : nat) : string := match n with O => "u" | S n => "u" +:+ us n end.

Definition small_nv : EnqueueEnv := {|
  nv_life := small_env "block";
  nv_artifacts := {| ar_table := []; ar_carryOver := fun _ => false; ar_localeLe := String.leb |};
  nv_uuid := us; nv_lint := fun _ => []; nv_brains := fun _ => None; nv_contractTags := fun _ _ _ => [] |}.

Lemma small_uuids : clean_uuids small_nv.
Proof.
  intros n. split; [|destruct n; reflexivity]. assert (E : trim_end (us n) = us n).
  { induction n as [|n IH]; [reflexivity|]. change (us (S n)) with (String (Ascii.ascii_of_nat 117) (us n)). cbn [trim_end]. rewrite IH. destruct n; reflexivity. }
  unfold js_trim. replace (trim_start (nv_uuid small_nv n)) with (us n) by (destruct n; reflexivity). exact E.
Qed.

Definition plain_options : EnqueueOptions := {|
  eo_id := None; eo_targetNodeId := None; eo_targetSessionId := None; eo_inputParts := []; eo_taskMode := D_str "code_change";
  eo_readonly := false; eo_light := false; eo_lightBaseNodeId := None; eo_requiredTags := None; eo_ownedPaths := NoPaths;
  eo_dependsOn := D_undefined; eo_priority := D_undefined; eo_notBefore := None; eo_maxRetries := None; eo_missionId := None;
  eo_inputArtifactIds := D_undefined; eo_input_artifact_ids := D_undefined; eo_inheritArtifacts := D_undefined;
  eo_inherit_artifacts := D_undefined; eo_model := None; eo_thinkingLevel := None; eo_difficulty := D_str "medium";
  eo_review := D_undefined; eo_stageChild := None; eo_sourceCoordinatorSessionId := None; eo_owner := the_owner |}.

(** A task with an id, declared paths and prerequisites. *)
Definition task_options (id : string) (paths deps : list string) : EnqueueOptions :=
  let o := plain_options in
  {| o with eo_id := Some id; eo_ownedPaths := PathArray (map RawString paths); eo_dependsOn := D_arr (map D_str deps) |}.

Definition empty_life : LifeStore := {|
  lf_queue := {| cs_rows := []; cs_turns := empty_db; cs_refusals := []; cs_fences := []; cs_frozen := false |};
  lf_outputs := []; lf_hooks := []; lf_notices := []; lf_inFlight := [] |}.

Definition enqueue_in (o : EnqueueOptions) (s : LifeStore) : (string + ClaimEntry) * LifeStore :=
  enqueueTask small_nv "mesh" 1000 (Some " do it ") o s.

Lemma empty_graph_ok : graph_ok empty_life.(lf_queue).
Proof.
  split; [split; [constructor | intros r []]|]. intros id T. assert (N : exists z, needs empty_life.(lf_queue) id z) by (inversion T; eauto).
  destruct N as (z & e & A & _). discriminate A.
Qed.

Lemma empty_tidy : tidy empty_life.(lf_queue).
Proof. intros id e A. discriminate A. Qed.

(** Two tasks may not wait for each other, in whatever order they come. *)
Example mutual_refused :
  let s1 := (enqueue_in (task_options "a" ["src"] ["b"]) empty_life).2 in
  (enqueue_in (task_options "b" ["docs"] ["a"]) s1).1 = inl "dependency_cycle_detected"
  /\ (enqueue_in (task_options "a" [] []) s1).1 = inl "duplicate_task_id".
Proof. vm_compute. auto. Qed.

(** ** A claim breaks the rule of phases *)

(** A task is enqueued, then one that depends on it; a session claims the first
    and its scope is attested. *)
Definition after_claim : LifeStore :=
  let s1 := (enqueue_in (task_options "a" ["src/**"] []) empty_life).2 in
  let s2 := (enqueue_in (task_options "b" ["src/**"] ["a"]) s1).2 in
  with_queue (small_claim "s1" s2.(lf_queue)).2 s2.

(** The claim makes the task a source without checking the graph.  From then on
    the store refuses every new task, also one without prerequisites, and when
    the claimed task has completed its dependent is still not admitted. *)
Theorem claim_closes_queue :
  map (fun r => (rw_id r, rw_status r, ce_phase (rw_payload r))) after_claim.(lf_queue).(cs_rows)
    = [("a", st_assigned, Some "source"); ("b", st_pending, None)]
  /\ (enqueue_in (task_options "c" ["docs"] []) after_claim).1 = inl "source_dependency_graph"
  /\ (let s := run_op (small_env "block") "mesh" 2000 (Op_host_terminal false "a" st_completed None None) after_claim in
      ce_status <$> find_claimant "a" s.(lf_queue) = Some st_completed
      /\ (enqueue_in (task_options "c" ["docs"] []) s).1 = inl "source_dependency_graph"
      /\ option_map (fun b => dependenciesSatisfied calm_env "n1" "s1" small_options s.(lf_queue) b) (find_claimant "b" s.(lf_queue)) = Some false).
Proof. vm_compute. auto. Qed.

(** An owner of the whole repository that narrows its claim to one directory is
    taken to expand it: the root subtree contains every path, but not for the
    revision. *)
Example root_owner_forgotten :
  let root := (normalizeOwnedPaths (PathArray [RawString "**"])).(nr_declaration) in
  let src := {| ow_path := "src"; ow_subtree := true |} in
  existsb (fun old => entryContains old src.(ow_path)) root.(od_paths) = true /\ already_owned (Some root) src = false.
Proof. vm_compute. auto. Qed.

(** ** Witnesses *)

Definition spec_of (ref : option string) (deps : list string) : TaskBatchEntrySpec := {|
  bs_ref := ref; bs_message := Some "do it"; bs_options := let o := plain_options in {| o with eo_dependsOn := D_arr (map D_str deps) |} |}.

(** A batch whose first task depends on its second. *)
Definition small_batch : list TaskBatchEntrySpec := [spec_of (Some "fix") ["find"]; spec_of (Some "find") []].

Definition reads_first : RevisionPatch := {|
  pt_message := Some (D_str " read first "); pt_ownedPaths := None; pt_phase := None; pt_dependsOn := None;
  pt_routingPreferences := None; pt_review := None; pt_difficulty := Some (D_str "easy") |}.

Definition small_host (dryRun : bool) : RevisionHost := {|
  rv_actor := "d1"; rv_repoIdentity := "r"; rv_machineId := "m1"; rv_nodeId := None; rv_workspace := None; rv_dryRun := dryRun;
  rv_deferScheduling := false |}.

Lemma never_circular_witness : exists s, rtc (graph_step "mesh") empty_life s /\ acyclic s.(lf_queue)
  /\ exists id e, unfinished s.(lf_queue) id e /\ forall dep, In dep (ce_deps e) -> ~ exists d, unfinished s.(lf_queue) dep d.
Proof.
  set (s1 := (enqueueTaskBatch small_nv "mesh" 1000 small_batch the_owner empty_life).2).
  set (s2 := (revisePendingTask small_nv calm_disk "mesh" 1000 "u" 0 reads_first (small_host false) s1).2).
  assert (R : rtc (graph_step "mesh") empty_life s2).
  { apply (rtc_l _ _ s1); [apply gs_batch|]. apply (rtc_l _ _ s2); [apply gs_revise | apply rtc_refl]. }
  destruct (never_circular "mesh" empty_life s2 empty_graph_ok R) as [Ac Rd]. exists s2. split; [exact R|]. split; [exact Ac|].
  assert (U : exists e, find_claimant "u" s2.(lf_queue) = Some e /\ is_terminal_status e.(ce_status) = false) by (vm_compute; eauto).
  destruct U as (e & A & T). exact (Rd "u" e (conj A T)).
Defined.

Lemma enqueue_exactly_witness : exists e s', enqueue_in (task_options "a" ["src"] ["b"]) empty_life = (inr e, s')
  /\ enqueued small_nv 1000 (task_options "a" ["src"] ["b"]) empty_life.(lf_queue) e s'.(lf_queue)
  /\ admissible_deps "a" ["b"] empty_life.(lf_queue).
Proof.
  pose proof (enqueue_exactly small_nv "mesh" 1000 (Some " do it ") (task_options "a" ["src"] ["b"]) empty_life empty_graph_ok empty_tidy) as H.
  assert (N : exists e, (enqueue_in (task_options "a" ["src"] ["b"]) empty_life).1 = inr e) by (vm_compute; eauto). destruct N as (e & N).
  unfold enqueue_in in *. destruct (enqueueTask _ _ _ _ _ _) as [r s']. cbn in N. subst r. destruct H as [H1 H2].
  exists e, s'. split; [reflexivity|]. split; [exact H1|]. destruct (proj1 H2 (ex_intro _ e eq_refl)) as (_ & _ & _ & Ad). exact Ad.
Defined.

Lemma batch_whole_witness : exists entries s', enqueueTaskBatch small_nv "mesh" 1000 small_batch the_owner empty_life = (inr entries, s')
  /\ map ce_id entries = ["u"; "uu"] /\ forall e, entries !! 0%nat = Some e -> In "uu" (ce_deps e).
Proof.
  pose proof (batch_whole small_nv "mesh" 1000 small_batch the_owner empty_life small_uuids) as H.
  assert (N : exists entries, (enqueueTaskBatch small_nv "mesh" 1000 small_batch the_owner empty_life).1 = inr entries) by (vm_compute; eauto).
  destruct N as (entries & N). destruct (enqueueTaskBatch _ _ _ _ _ _) as [r s']. cbn in N. subst r. destruct H as (_ & Ids & _ & Refs).
  exists entries, s'. split; [reflexivity|]. split; [exact Ids|]. intros e L.
  exact (Refs 1%nat 0%nat (spec_of (Some "find") []) (spec_of (Some "fix") ["find"]) e eq_refl eq_refl L eq_refl (or_introl eq_refl)).
Defined.

Lemma revision_guarded_witness :
  let s := (enqueue_in (task_options "a" ["src"] []) empty_life).2 in
  exists next s', revisePendingTask small_nv calm_disk "mesh" 1000 "a" 0 reads_first (small_host false) s = (inr next, s')
    /\ find_claimant "a" s'.(lf_queue) = Some next /\ revision_of next = 1.
Proof.
  intros s.
  assert (Ok : store_ok s.(lf_queue)).
  { unfold s, enqueue_in. apply (preserving_enqueue small_nv "mesh" 1000 (Some " do it ") (task_options "a" ["src"] []) empty_life empty_graph_ok). }
  assert (N : exists next, (revisePendingTask small_nv calm_disk "mesh" 1000 "a" 0 reads_first (small_host false) s).1 = inr next) by (vm_compute; eauto).
  clearbody s. pose proof (revision_guarded small_nv calm_disk "mesh" 1000 "a" 0 reads_first (small_host false) s Ok) as H.
  destruct N as (next & N). destruct (revisePendingTask small_nv calm_disk "mesh" 1000 "a" 0 reads_first (small_host false) s) as [r s'] eqn:E.
  cbn [fst] in N. subst r. destruct H as (before & _ & _ & _ & _ & _ & _ & _ & A & Rv & _). exists next, s'. split; [reflexivity|]. split; [exact A | exact Rv].
Defined.
